(* ===== verification/_CoqProject ===== *)
-Q . S2P
Prelude.v
Mem.v
ListHead.v
MemPool.v
MemOps.v
MemBlock.v
MemBlockSpec.v
MemSimple.v
PoolClient.v
PqQueue.v
Bytes.v
Sync.v
Generic.v
Bitmap.v
Radix.v
RadixSpec.v
RadixMap.v
RadixHistory.v
KTime.v
KString.v
KStringSpec.v
KPrint.v
KName.v
Sched.v
SchedInv.v
SchedOps.v
Sleep.v
Wait.v
WorkQueue.v
KMalloc.v
KMallocSpec.v
HeapContract.v
Thread.v
ThreadSpec.v
Mailbox.v
MailboxSpec.v
Irq.v
IrqSpec.v
IrqActions.v
Fdt.v
FdtSpec.v
FdtMeasure.v
FdtBuild.v
FdtTree.v
OfNode.v
OfSpec.v
OfIrq.v
OfIrqSpec.v
OfIrqInit.v
Bus.v
BusTypes.v
BusSpec.v
BusBind.v
Disp.v
DispSpec.v
DispText.v
Bmp.v
BmpSpec.v
Chrdev.v
ChrdevSpec.v
KobjMap.v
Kobj.v
KobjSpec.v
Files.v
FilesSpec.v
DevFile.v
