(* ===== verification/Prelude.v ===== *)
(** * HeavenFox kernel: verification library

    A shallow embedding of the kernel core of HeavenFox OS, a small preemptive
    operating system in C for one ARMv7 processor (i.MX6ULL, Zynq-7010), with
    the theorems that make it correct.

    ** The program

    Intrusive lists ([include/common/list_types.h]) carry every queue of the
    kernel.  Two allocators ([common/mempool/mem_block.c], [mem_simple.c]) manage
    arenas; [platform/mem/fwk_mempool.c] runs four of them as the kernel heap,
    behind [kmalloc] and [kfree], under spin locks.  The scheduler
    ([kernel/sched.c]) keeps threads in three priority lists; [kernel/thread.c]
    creates threads, taking control blocks, attributes and stacks from the heap
    and registering them with the scheduler.  Threads sleep on timers
    ([common/generic/time.c], [kernel/sleep.c]), wait on queues
    ([kernel/wait.c]), send mail ([kernel/mailbox.c]) and defer work to the
    worker thread ([include/kernel/workqueue.h], [kernel/kthread/]).  The generic
    library has strings and formatted output, number text, bounded queues, radix
    trees, bitmaps, bit and atomic operations.  Interrupts ([platform/irq/]) are
    lines of controllers (domains), mapped to numbers with a descriptor each, on
    which drivers register handlers; [arch/arm/lib/interrupt.c] runs them.  The
    device tree ([platform/of/]) is unpacked at boot from the blob a boot loader
    leaves in memory; it tells which controllers exist, where the interrupts of a
    device go, and everything else a driver asks about its device.  Devices and
    drivers meet on buses ([platform/bus_type/], the bus of [platform/i2c/]).
    A driver reserves device numbers and files the object that serves them
    ([platform/chardev/], [platform/fwk_kobjmap.c]), and announces its device as a file in
    a tree of named objects ([platform/fwk_kobject.c], [fwk_inode.c],
    [drivers/base/sysfs.c]); opening the file ([platform/fwk_fcntl.c]) gives a descriptor
    whose reads and writes go to the driver.  [platform/framebuffer/] draws on the
    memory of a screen.

    ** How it is modelled

    C functions are functions into [res] (below): [Ok] for a return, [Fault]
    for a null or wild dereference, [Spin] for a loop that has not returned
    within its fuel or a lock that nobody will release.  Error codes are the
    negative numbers the code returns.  32-bit arithmetic is on [Z] with [u32]
    and [s32] written out wherever the code could wrap.  Three views of memory
    are used, each where the code calls for it: a total function from addresses
    to words or bytes (lists, allocators, strings, timers), a finite map from
    addresses to records (radix nodes, threads, mailboxes, tree nodes, whose
    blocks are also live blocks of the heap), and plain sequences for lists, which ListHead.v
    shows the pointer code to implement.  The kernel runs on one processor, so
    code inside a spin lock with interrupts masked is one step; where code can
    be preempted, [yield]s and interleavings are explicit.

    - Prelude.v: results, machine integers, generic lemmas, tactics and hints.
    - Mem.v, ListHead.v: memory; [list_types.h] and the sequences its pointers
      represent.
    - MemPool.v, MemBlock.v, MemBlockSpec.v, MemSimple.v: pool headers and the
      two allocators of [common/mempool/]; PoolClient.v: the interface
      [PoolAllocator] both meet, and its clients.
    - MemOps.v: the copying and comparing loops of [mem_manage.h].
    - KMalloc.v, KMallocSpec.v: [fwk_mempool.c] and [mem_malloc.c];
      HeapContract.v: the interface [KernelHeap] that threads and mailboxes use,
      and the proof that the heap meets it.
    - Sync.v: [atomic_types.h], interrupt mask, preemption counter,
      [spinlock.c], [mutex.c], [semaphore.c].
    - Sched.v, SchedInv.v, SchedOps.v: [sched.c], its invariant, its requests.
    - Sleep.v: [sleep.c] and the time-slice check of [kthread.c]; Wait.v:
      [wait.c]; WorkQueue.v: [workqueue.h] and [kworker.c].
    - Thread.v, ThreadSpec.v: [thread.c], [thread.h] and the start of the
      kernel's own threads ([kthread/*.c]); Mailbox.v, MailboxSpec.v:
      [mailbox.c].
    - KTime.v: [time.c] and [time.h]; Generic.v: [generic.c] and [generic.h];
      Bytes.v, KString.v, KStringSpec.v, KPrint.v: [api_string.c]; PqQueue.v:
      [queue.c]; Radix.v, RadixSpec.v, RadixMap.v, RadixHistory.v:
      [radix_tree.c]; Bitmap.v: the bitmaps of [io_stream.c]; KName.v: names kept
      in byte arrays.
    - Irq.v: [platform/irq/*.c], the domains of [arch/arm/cpu/armv7/irq.c] and
      [exec_irq_handler]; IrqSpec.v: its invariant and the mapping of lines;
      IrqActions.v: handlers and the release of a controller.
    - Fdt.v: the two passes of [platform/of/fwk_of.c] that unpack the tree;
      FdtSpec.v: what a blob encodes ([dtree]) and single properties;
      FdtMeasure.v: the first pass, which counts bytes; FdtBuild.v: the second,
      which fills them; FdtTree.v: both together, and the tree's representation
      [dev_tree].
    - OfNode.v: the rest of [fwk_of.c] and [fwk_of_prop.c], which read and search
      the tree; OfSpec.v: their answers on a [dev_tree].
    - OfIrq.v: the parts of [fwk_irq.c], [fwk_irq_domain.c] and [fwk_irq_desc.c]
      that read the tree; OfIrqSpec.v: from a device to its interrupt number;
      OfIrqInit.v: the start of the controllers.
    - Bus.v: devices, drivers and the lists of a bus ([fwk_platdev.c],
      [fwk_platdrv.c], [fwk_platform.c]); BusTypes.v: the functions of the platform
      and I2C buses; BusSpec.v: the interface [LawfulBuses] and the theorems against
      it; BusBind.v: both buses meet it, with the device tree.
    - Disp.v: the points, lines, rectangles and word fill of [fwk_disp.c]; DispSpec.v:
      the pixels they paint; DispText.v: its text; Bmp.v, BmpSpec.v: the images of
      [fwk_bitmap.c].
    - Chrdev.v, ChrdevSpec.v: the device numbers of [fwk_chrdev.c]; KobjMap.v:
      [fwk_kobjmap.c] and [fwk_cdev.c].
    - Kobj.v: [fwk_kobject.c] and the inodes of [fwk_inode.c]; KobjSpec.v: the
      invariant of the tree and its paths; Files.v, FilesSpec.v: [fwk_fcntl.c] and
      [fwk_fs.c]; DevFile.v: [sysfs.c] and [fwk_device_create], and the examples of the
      three files.

    Definitions keep the names of the source.  The doc comment of a definition
    says where it stands for a part of a function or for several similar ones.

    ** What is shown

    - Scheduler: in every state that calls reach from the empty table the lists,
      the statuses and the running slot agree and no legal call faults or
      deadlocks; the thread that runs next has the highest priority; suspending
      always finds a successor once the idle thread exists; requests refine a
      step on the abstract lists.  What a thread finds when it runs again, the tick
      count included, is an argument of every call that switches ([resume]).
    - Sleeping and waiting: a tick wakes every sleeper that is due and nobody else;
      waking a queue signals exactly its waiters; a wait ends when its condition
      does, and leaves no entry behind.
    - Memory: both allocators refine a set of disjoint live blocks, whose
      contents only the client changes, for any sequence of calls; the heap
      keeps its pools apart and finds the pool a block belongs to.
    - Threads and mail: creation and sending succeed as a whole or give back
      everything they took; a mail is received as it was sent.
    - Locks: mutual exclusion of spin locks under preemption; nested interrupt
      masking restores the mask.
    - Library: list operations refine sequence operations; formatted output
      stays within its buffer and number text reads back; queues and work are
      first in, first out; radix trees are finite maps for any history; memory
      routines and division agree with their mathematical definitions.
    - Interrupts: lines keep distinct and stable numbers; a handler joins the end
      of its interrupt's list or the request leaves no trace; a hardware line runs
      exactly the handlers of its number; releasing a controller gives back every
      block and number of its lines and touches no other.
    - Device tree: unpacking a blob yields exactly the tree it encodes, in one
      block whose size the first pass measured, or nothing; every node is found
      under its path; searches and property readers answer what the tree says; the
      interrupt of a device is the number of the line its node describes; the
      start of the controllers ends, in an order that respects dependencies.
    - Buses: any history keeps names, lists and bindings consistent; a device goes
      to the first driver that fits, a driver takes the free devices it fits and
      gives them back.
    - Devices as files: numbers are reserved completely or not at all, and a lookup
      finds the object that serves a number until it is removed; an object is found
      under the path that made it; a descriptor leads to the driver of the device
      that was opened, and closing it gives everything back.
    - Screen: drawing paints exactly the pixels its geometry promises; an image drawn
      in pieces is the image drawn at once.

    The places where the code does something else than it means to are stated
    in the theorems' hypotheses or proved as lemmas next to them (for example
    [exact_fit_release_writes_outside] in MemBlockSpec.v, [mutex_race] in
    Sync.v).  Where a call may fail the theorems say for which reason: a refused
    allocation ([out_of_memory] in HeapContract.v), a name or number that is
    taken, a callback's refusal.

    ** Fuel and bounds

    Loops that are not structural take [fuel].  Each theorem says how much is
    enough: one round per block of a pool, per timer, per character, per yield
    until a condition holds; with that the result is [Ok], so the theorems show
    termination too.  Addresses are 32-bit; heap theorems ask that an arena end
    below the last page (error pointers live there) and that requests stay below
    [W32 - 40], where the code's size computation wraps.  A tree's loops take one
    round per node, property or character; fuel beyond the size of the blob is
    enough to unpack it.  Thread ids are below
    128, the size of the table.

    ** Not modelled

    Assembly (exception entry, register save and restore, [kmemset_ex]); the
    calibrated delay loops; barriers and coprocessor registers; boards, drivers
    and most frameworks over them ([board/], [drivers/], [platform/]),
    which are register accesses; block devices beyond their table; file system,
    network and USB glue around libraries that are not part of the kernel ([lib/]); the
    terminal; the endless loops of the kernel threads, of which one turn is modelled.
    The linker's region symbols, structure sizes, the effect of yielding the
    processor, conditions and callbacks are parameters.

    ** Two choices the theorems depend on

    [KernelHeap] has one instance, the heap whose kernel pool is run by the first-fit
    allocator of [mem_simple.c].  The kernel boots with the segregated allocator of
    [mem_block.c], which promises the same except for a request that exactly fits the
    rest of a used block, whose release writes outside the pool; theorems about
    clients of the heap speak about runs without such a request (HeapContract.v).
    The nodes of the interrupt tree, which the code takes from the same heap through
    [default_malloc], come from a supply of their own here (Irq.v). *)

From stdpp Require Import prelude gmap fin_maps sorting.
#[global] Open Scope Z_scope.

(** ** Results of modelled C code

    [Ok a] is a normal return.  [Fault] is a dereference of a null or wild
    pointer, after which C gives no meaning.  [Spin] is a loop that has not
    returned within the fuel it was given. *)
Inductive res (A : Type) : Type :=
  | Ok (a : A)
  | Fault
  | Spin.
Arguments Ok {A} a.
Arguments Fault {A}.
Arguments Spin {A}.

#[export] Instance res_ret : MRet res := fun A a => Ok a.
#[export] Instance res_bind : MBind res := fun A B f m =>
  match m with
  | Ok a => f a
  | Fault => Fault
  | Spin => Spin
  end.
#[export] Instance res_fmap : FMap res := fun A B f m =>
  match m with
  | Ok a => Ok (f a)
  | Fault => Fault
  | Spin => Spin
  end.

#[export] Instance res_eq_dec {A} `{EqDecision A} : EqDecision (res A).
Proof. solve_decision. Defined.

(** A null pointer test: [deref] of a missing object is a fault. *)
Definition deref {A} (o : option A) : res A :=
  match o with
  | Some a => Ok a
  | None => Fault
  end.

Lemma bind_Ok {A B} (m : res A) (f : A -> res B) b :
  (m ≫= f) = Ok b -> exists a, m = Ok a /\ f a = Ok b.
Proof. destruct m; simpl; intros; simplify_eq; eauto. Qed.

Lemma deref_Ok {A} (o : option A) a : deref o = Ok a -> o = Some a.
Proof. destruct o; simpl; congruence. Qed.

(** ** Machine integers

    [kuint32_t], [kusize_t], [kuaddr_t] and [kutype_t] are 32-bit unsigned on
    the ARMv7 targets; [kint32_t] is 32-bit signed. *)
Definition W32 : Z := 4294967296.
Definition u32 (z : Z) : Z := z mod W32.
Definition u16 (z : Z) : Z := z mod 65536.
Definition u8 (z : Z) : Z := z mod 256.
Definition s32 (z : Z) : Z := (z + 2147483648) mod W32 - 2147483648.
Definition is_u32 (z : Z) : Prop := 0 <= z < W32.

Declare Scope kernel_scope.
Delimit Scope kernel_scope with kernel.
Infix "+u" := (fun a b => u32 (a + b)) (at level 50, left associativity) : kernel_scope.
Infix "-u" := (fun a b => u32 (a - b)) (at level 50, left associativity) : kernel_scope.
Infix "*u" := (fun a b => u32 (a * b)) (at level 40, left associativity) : kernel_scope.

Lemma u32_id z : 0 <= z < W32 -> u32 z = z.
Proof. apply Z.mod_small. Qed.
Lemma u32_range z : 0 <= u32 z < W32.
Proof. apply Z.mod_pos_bound. done. Qed.
Lemma u32_u32 z : u32 (u32 z) = u32 z.
Proof. apply u32_id, u32_range. Qed.
Lemma s32_id z : -2147483648 <= z < 2147483648 -> s32 z = z.
Proof. intros. unfold s32, W32. rewrite Z.mod_small; lia. Qed.
Lemma u8_id z : 0 <= z < 256 -> u8 z = z.
Proof. apply Z.mod_small. Qed.
Lemma u16_id z : 0 <= z < 65536 -> u16 z = z.
Proof. apply Z.mod_small. Qed.

(** Fields put together by shifting: the low bits of the shifted one are free. *)
Lemma lor_shift n a b : 0 <= n -> 0 <= b < 2 ^ n -> Z.lor (Z.shiftl a n) b = a * 2 ^ n + b.
Proof.
  intros Hn Hb. pose proof (Z.add_lor_land (Z.shiftl a n) b) as E.
  assert (Z.land (Z.shiftl a n) b = 0) as E0.
  { rewrite <- (Z.mod_small b (2 ^ n)), <- Z.land_ones, (Z.land_comm b), Z.land_assoc, Z.land_ones by lia.
    rewrite Z.shiftl_mul_pow2, Z.mod_mul by lia. done. }
  rewrite Z.shiftl_mul_pow2 in * by lia. lia.
Qed.

(** ** Error codes (include/common/error_types.h, [__ERT_ERROR_CODE]) *)
Definition ER_NORMAL : Z := 0.
Definition ER_ERROR : Z := 1.
Definition ER_PERMIT : Z := 3.
Definition ER_NOMEM : Z := 4.
Definition ER_UNVALID : Z := 5.
Definition ER_EMPTY : Z := 6.
Definition ER_FULL : Z := 7.
Definition ER_NULLPTR : Z := 8.
Definition ER_FAULT : Z := 10.
Definition ER_MORE : Z := 11.
Definition ER_LACK : Z := 12.
Definition ER_NOTALIGN : Z := 13.
Definition ER_EXISTED : Z := 14.
Definition ER_NOTFOUND : Z := 15.
Definition ER_LOCKED : Z := 17.
Definition ER_FORBID : Z := 18.
Definition ER_NSUPPORT : Z := 20.
Definition ER_FAILD : Z := 22.
Definition ER_NODEV : Z := 24.
Definition ER_BUSY : Z := 25.
Definition ER_CHECKERR : Z := 26.

(** Pointers are 32-bit addresses; null is 0 and the top 4 KiB are error
    codes ([IS_ERR], [isValid], [ERR_PTR], [PTR_ERR]). *)
Definition nullptr : Z := 0.
Definition IS_ERR (ptr : Z) : bool := W32 - 4096 <=? ptr.
Definition isValid (ptr : Z) : bool := negb (ptr =? 0) && negb (IS_ERR ptr).
Definition ERR_PTR (code : Z) : Z := u32 code.
Definition PTR_ERR (ptr : Z) : Z := if ptr =? 0 then - ER_NOMEM else s32 ptr.

Lemma isValid_true p : 0 < p < W32 - 4096 -> isValid p = true.
Proof.
  unfold isValid, IS_ERR. intros.
  rewrite (proj2 (Z.eqb_neq p 0)), (proj2 (Z.leb_gt _ _)); [done|lia..].
Qed.
Lemma isValid_nonzero p : isValid p = true -> p <> 0.
Proof. unfold isValid. destruct (Z.eqb_spec p 0); simpl; congruence. Qed.

(** An error code turned into a pointer is never a valid pointer and gives the
    code back: callers may use one word for both. *)
Lemma ERR_PTR_roundtrip code :
  0 < code <= 4096 ->
  isValid (ERR_PTR (- code)) = false /\ PTR_ERR (ERR_PTR (- code)) = - code.
Proof.
  intros. assert (ERR_PTR (- code) = W32 - code) as ->.
  { unfold ERR_PTR, u32.
    replace (- code) with (W32 - code + (-1) * W32) by lia.
    rewrite Z.mod_add by done. apply Z.mod_small. unfold W32; lia. }
  unfold isValid, PTR_ERR, IS_ERR. split.
  - rewrite (proj2 (Z.leb_le _ _)) by lia. apply andb_false_r.
  - rewrite (proj2 (Z.eqb_neq _ _)) by (unfold W32; lia).
    unfold s32, W32. rewrite <- (Z.mod_unique (4294967296 - code + 2147483648) 4294967296
      1 (2147483648 - code)); lia.
Qed.

(** ** Tactics and hints *)
Create HintDb kernel.
#[export] Hint Resolve u32_range : kernel.

(** Turn boolean tests of the code into propositions. *)
Ltac bool_hyps :=
  repeat match goal with
  | H : (_ && _) = true |- _ => apply andb_true_iff in H; destruct H
  | H : (_ || _) = false |- _ => apply orb_false_iff in H; destruct H
  | H : negb _ = true |- _ => apply negb_true_iff in H
  | H : negb _ = false |- _ => apply negb_false_iff in H
  | H : (_ =? _) = true |- _ => apply Z.eqb_eq in H
  | H : (_ =? _) = false |- _ => apply Z.eqb_neq in H
  | H : (_ <=? _) = true |- _ => apply Z.leb_le in H
  | H : (_ <=? _) = false |- _ => apply Z.leb_gt in H
  | H : (_ <? _) = true |- _ => apply Z.ltb_lt in H
  | H : (_ <? _) = false |- _ => apply Z.ltb_ge in H
  end.

(** Case analysis on the innermost boolean test of the goal. *)
Ltac case_test :=
  match goal with
  | |- context [if ?b then _ else _] => let E := fresh "E" in destruct b eqn:E; bool_hyps
  | H : context [if ?b then _ else _] |- _ => let E := fresh "E" in destruct b eqn:E; bool_hyps
  end.

(** Invert a chain of monadic binds that returned. *)
Ltac inv_bind :=
  repeat match goal with
  | H : (_ ≫= _) = Ok _ |- _ =>
      let a := fresh "a" in let H1 := fresh "H" in
      apply bind_Ok in H as (a & H1 & H)
  | H : deref _ = Ok _ |- _ => apply deref_Ok in H
  | H : mret _ = Ok _ |- _ => injection H as H
  | H : Ok _ = Ok _ |- _ => injection H as H
  end.

(** Membership of a known element in an explicit concatenation. *)
Ltac in_goal :=
  first [ assumption
        | apply list_elem_of_here
        | apply elem_of_app; left; in_goal
        | apply elem_of_app; right; in_goal
        | apply list_elem_of_further; in_goal
        | apply list_elem_of_singleton; reflexivity ].

(** ** Lists *)
Lemma elem_of_split_list {A} (x : A) l :
  x ∈ l -> exists l1 l2, l = l1 ++ x :: l2.
Proof. apply list_elem_of_split. Qed.

Lemma list_split_unique {A} (l1 l2 k1 k2 : list A) x :
  NoDup (l1 ++ x :: l2) -> l1 ++ x :: l2 = k1 ++ x :: k2 -> l1 = k1 /\ l2 = k2.
Proof.
  revert k1. induction l1 as [|a l1 IH]; intros [|b k1]; simpl; intros HN E; simplify_eq.
  - done.
  - apply NoDup_cons in HN as [Hn _]. set_solver.
  - apply NoDup_cons in HN as [Hn _]. set_solver.
  - apply NoDup_cons in HN as [_ HN]. destruct (IH k1 HN) as [-> ->]; done.
Qed.

Lemma list_filter_all {A} (P : A -> Prop) `{forall x, Decision (P x)} l :
  Forall P l -> filter P l = l.
Proof. induction 1; [done|]. rewrite filter_cons_True by done. by f_equal. Qed.

(** Removing a member of a duplicate-free list. *)
Lemma filter_ne_split {A} `{EqDecision A} (xs1 xs2 : list A) (x : A) :
  NoDup (xs1 ++ x :: xs2) -> filter (fun y => y <> x) (xs1 ++ x :: xs2) = xs1 ++ xs2.
Proof.
  intros H. rewrite filter_app, filter_cons_False by tauto.
  apply NoDup_app in H as (H1 & H2 & H3). apply NoDup_cons in H3 as [H3 H4].
  f_equal; apply list_filter_all, Forall_forall; intros y Hy ->; [by apply (H2 x Hy), list_elem_of_here|done].
Qed.
Lemma filter_ne_notin {A} `{EqDecision A} (l : list A) (x : A) :
  x ∉ l -> filter (fun y => y <> x) l = l.
Proof. intros H. apply list_filter_all, Forall_forall. intros y Hy ->. done. Qed.

Lemma singleton_split {A} (x y : A) l1 l2 : [x] = l1 ++ y :: l2 -> l1 = [] /\ y = x /\ l2 = [].
Proof. destruct l1 as [|a l1]; simpl; intros; simplify_eq; [done|]. by destruct l1. Qed.
