(* ===== verification/Mem.v ===== *)
(** * Memory

    The kernel's data structures are linked by raw 32-bit addresses and cast
    freely between integers and pointers, so the components that depend on
    layout run on one shared store: a total map from addresses to cell
    contents.  A cell that was never written holds whatever it held before,
    which is how uninitialised fields appear in the model.

    Word-sized fields of a structure at address [a] are the cells [a],
    [a + 4], [a + 8], ...; byte buffers use one cell per byte. *)

From stdpp Require Import prelude gmap fin_maps sorting.
From S2P Require Import Prelude.

Definition mem : Type := Z -> Z.

(** A store: [*(a) = v]. *)
Definition st (m : mem) (a v : Z) : mem := fun x => if x =? a then v else m x.

Lemma st_eq m a v : st m a v a = v.
Proof. unfold st. by rewrite Z.eqb_refl. Qed.
Lemma st_ne m a v x : x <> a -> st m a v x = m x.
Proof. intros. unfold st. by rewrite (proj2 (Z.eqb_neq _ _)). Qed.

(** Two memories that agree on a set of cells. *)
Definition agree (P : Z -> Prop) (m m' : mem) : Prop := forall a, P a -> m' a = m a.

Lemma agree_refl P m : agree P m m.
Proof. done. Qed.
Lemma agree_trans P m1 m2 m3 : agree P m1 m2 -> agree P m2 m3 -> agree P m1 m3.
Proof. intros H1 H2 a Ha. rewrite H2, H1; done. Qed.
Lemma agree_mono (P Q : Z -> Prop) m m' : (forall a, Q a -> P a) -> agree P m m' -> agree Q m m'.
Proof. intros HQ H a Ha. by apply H, HQ. Qed.
Lemma agree_st (P : Z -> Prop) m m' a v : ~ P a -> agree P m m' -> agree P m (st m' a v).
Proof. intros Ha H x Hx. rewrite st_ne; [by apply H|]. intros ->. done. Qed.
#[export] Hint Resolve agree_refl : kernel.

(** Evaluate a read after a chain of stores; address inequalities go to [lia]. *)
Ltac mem_step :=
  first [ rewrite st_eq | rewrite st_ne by lia ].
Ltac mem_simp := repeat mem_step.
