(* ===== verification/ListHead.v ===== *)
(** * Intrusive doubly linked lists (include/common/list_types.h)

    [struct list_head] is two words, [sprt_prev] at offset 0 and [sprt_next]
    at offset 4.  The operations below are the C functions, word for word, on
    the shared memory.  [lseg] and [dlists] relate a memory to the sequences it
    represents: [dlists m L] says that every entry [(hd, xs)] of [L] is a
    circular list with head [hd] and members [xs] in order, and that all nodes
    of all entries occupy disjoint words.  A node that is initialised but in no
    list is the entry [(n, [])].

    The theorems show that each operation implements the sequence operation its
    comment promises, leaves every other list alone, and writes nothing but
    link words.  Other components that only need the sequences use them
    directly on the strength of these theorems. *)

From stdpp Require Import prelude gmap fin_maps sorting.
From S2P Require Import Prelude Mem.

(** ** The code *)
Definition sprt_prev (m : mem) (l : Z) : Z := m l.
Definition sprt_next (m : mem) (l : Z) : Z := m (l + 4).
Definition set_prev (m : mem) (l v : Z) : mem := st m l v.
Definition set_next (m : mem) (l v : Z) : mem := st m (l + 4) v.

Definition mrt_list_head_empty (m : mem) (head : Z) : bool :=
  (sprt_prev m head =? head) && (sprt_next m head =? head).

Definition init_list_head (m : mem) (sprt_list : Z) : mem :=
  let m := set_next m sprt_list sprt_list in
  set_prev m sprt_list sprt_list.

(** [foreach_list_head]: two cursors, one from each end; the loop stops when
    either reaches the head. *)
Fixpoint foreach_list_head (fuel : nat) (m : mem) (sprt_head sprt_list ptr_left ptr_right : Z) : res Z :=
  if negb (ptr_right =? sprt_head) && negb (ptr_left =? sprt_head) then
    if (ptr_left =? sprt_list) || (ptr_right =? sprt_list) then Ok ER_NORMAL
    else if ptr_left =? ptr_right then Ok (- ER_ERROR)
    else match fuel with
         | O => Spin
         | S fuel => foreach_list_head fuel m sprt_head sprt_list
                       (sprt_prev m ptr_left) (sprt_next m ptr_right)
         end
  else Ok (- ER_ERROR).

Definition list_head_for_each (fuel : nat) (m : mem) (sprt_head sprt_list : Z) : res Z :=
  foreach_list_head fuel m sprt_head sprt_list (sprt_prev m sprt_head) (sprt_next m sprt_head).

Definition list_head_add_head (m : mem) (sprt_head sprt_list : Z) : mem :=
  let ptr_next := sprt_next m sprt_head in
  let m := set_prev m sprt_list sprt_head in
  let m := set_next m sprt_head sprt_list in
  let m := set_next m sprt_list ptr_next in
  set_prev m ptr_next sprt_list.

Definition list_head_add_tail (m : mem) (sprt_head sprt_list : Z) : mem :=
  let ptr_prev := sprt_prev m sprt_head in
  let m := set_prev m sprt_list ptr_prev in
  let m := set_next m ptr_prev sprt_list in
  let m := set_next m sprt_list sprt_head in
  set_prev m sprt_head sprt_list.

Definition list_head_del_head (m : mem) (sprt_head : Z) : mem :=
  let ptr_next := sprt_next m (sprt_next m sprt_head) in
  let m := set_next m sprt_head ptr_next in
  set_prev m ptr_next sprt_head.

Definition list_head_del_tail (m : mem) (sprt_head : Z) : mem :=
  let ptr_prev := sprt_prev m (sprt_prev m sprt_head) in
  let m := set_prev m sprt_head ptr_prev in
  set_next m ptr_prev sprt_head.

Definition list_head_del (m : mem) (sprt_list : Z) : mem :=
  let ptr_prev := sprt_prev m sprt_list in
  let ptr_next := sprt_next m sprt_list in
  let m := set_next m ptr_prev ptr_next in
  let m := set_prev m ptr_next ptr_prev in
  init_list_head m sprt_list.

Definition list_head_del_safe (fuel : nat) (m : mem) (sprt_head sprt_list : Z) : res mem :=
  let ptr_prev := sprt_prev m sprt_list in
  let ptr_next := sprt_next m sprt_list in
  found ← list_head_for_each fuel m sprt_head sprt_list;
  if negb (negb (found =? 0)) then
    let m := set_next m ptr_prev ptr_next in
    let m := set_prev m ptr_next ptr_prev in
    Ok (init_list_head m sprt_list)
  else Ok m.

(** [foreach_list_next_entry] with an early exit: the first member satisfying
    [P], or [None] when the cursor is back at the head. *)
Fixpoint list_find_from (fuel : nat) (m : mem) (head : Z) (P : Z -> bool) (pos : Z) : res (option Z) :=
  if pos =? head then Ok None
  else if P pos then Ok (Some pos)
  else match fuel with
       | O => Spin
       | S fuel => list_find_from fuel m head P (sprt_next m pos)
       end.

Definition foreach_list_next_entry (fuel : nat) (m : mem) (head : Z) (P : Z -> bool) : res (option Z) :=
  list_find_from fuel m head P (sprt_next m head).

(** ** Representation *)
Fixpoint lseg (m : mem) (a : Z) (xs : list Z) (b : Z) : Prop :=
  match xs with
  | [] => sprt_next m a = b /\ sprt_prev m b = a
  | x :: xs => sprt_next m a = x /\ sprt_prev m x = a /\ lseg m x xs b
  end.

(** Neighbours of a position: the node before [xs2] and the one after [xs1]. *)
Definition last_of (a : Z) (xs : list Z) : Z := default a (last xs).
Definition first_of (xs : list Z) (b : Z) : Z := default b (head xs).

(** Two link structures do not overlap. *)
Definition apart (x y : Z) : Prop := x + 8 <= y \/ y + 8 <= x.

Fixpoint spread (ns : list Z) : Prop :=
  match ns with
  | [] => True
  | x :: ns => Forall (apart x) ns /\ spread ns
  end.

Definition entry_nodes (e : Z * list Z) : list Z := e.1 :: e.2.
Definition nodes (L : list (Z * list Z)) : list Z := L ≫= entry_nodes.

Definition entry_ok (m : mem) (e : Z * list Z) : Prop := lseg m e.1 e.2 e.1.

Definition dlists (m : mem) (L : list (Z * list Z)) : Prop :=
  Forall (entry_ok m) L /\ spread (nodes L).

(** The words of a set of nodes, and the cells outside them. *)
Definition outside (ns : list Z) (a : Z) : Prop := forall n, n ∈ ns -> a <> n /\ a <> n + 4.

(** ** Generic facts *)
Lemma lseg_app m a xs x ys b :
  lseg m a (xs ++ x :: ys) b <-> lseg m a xs x /\ lseg m x ys b.
Proof. revert a; induction xs; intros a0; simpl; [tauto|]. rewrite IHxs. tauto. Qed.

Lemma lseg_agree m m' a xs b :
  (forall x, x ∈ a :: xs -> sprt_next m' x = sprt_next m x) ->
  (forall x, x ∈ xs ++ [b] -> sprt_prev m' x = sprt_prev m x) ->
  lseg m a xs b -> lseg m' a xs b.
Proof.
  revert a; induction xs as [|x xs IH]; intros a Hn Hp; simpl in *.
  - rewrite Hn, Hp by set_solver. done.
  - rewrite Hn, Hp by set_solver. intros (-> & -> & H). split_and!; [done..|].
    apply IH; [set_solver..|done].
Qed.

Lemma lseg_first m a xs b : lseg m a xs b -> sprt_next m a = first_of xs b.
Proof. destruct xs; simpl; tauto. Qed.
Lemma lseg_last m a xs b : lseg m a xs b -> sprt_prev m b = last_of a xs.
Proof.
  destruct xs as [|x xs _] using rev_ind; simpl; [tauto|].
  rewrite lseg_app. unfold last_of. rewrite last_snoc. simpl. tauto.
Qed.
Lemma last_of_cons a x xs : last_of a (x :: xs) = last_of x xs.
Proof.
  destruct xs as [|y xs _] using rev_ind; [done|].
  unfold last_of. rewrite app_comm_cons, !last_snoc. done.
Qed.
Lemma last_of_in a xs : last_of a xs ∈ a :: xs.
Proof.
  destruct xs as [|y xs _] using rev_ind; [set_solver|].
  unfold last_of. rewrite last_snoc. set_solver.
Qed.
Lemma first_of_in xs b : first_of xs b ∈ xs ++ [b].
Proof. destruct xs; set_solver. Qed.

(** The node at a position, and what surrounds it. *)
Lemma lseg_neighbours m a xs1 xs2 b :
  lseg m a (xs1 ++ xs2) b ->
  sprt_next m (last_of a xs1) = first_of xs2 b /\ sprt_prev m (first_of xs2 b) = last_of a xs1.
Proof.
  revert a; induction xs1 as [|x xs1 IH]; intros a H; simpl in *.
  - destruct xs2; simpl in *; tauto.
  - rewrite last_of_cons. apply IH, H.
Qed.

Lemma apart_sym x y : apart x y -> apart y x.
Proof. unfold apart; lia. Qed.
#[export] Instance apart_dec x y : Decision (apart x y).
Proof. unfold apart. apply _. Defined.

#[export] Instance spread_proper : Proper ((≡ₚ) ==> iff) spread.
Proof.
  intros l k H. induction H as [|x l k H [IH1 IH2]|x y l|l k j H1 IH1 H2 IH2]; simpl.
  - done.
  - assert (Forall (apart x) l <-> Forall (apart x) k) by (by rewrite H). tauto.
  - rewrite !Forall_cons. split; intros ((? & ?) & ? & ?); split_and!; auto using apart_sym.
  - tauto.
Qed.

Lemma spread_app l k :
  spread (l ++ k) <-> spread l /\ spread k /\ Forall (fun x => Forall (apart x) k) l.
Proof.
  induction l as [|x l IH]; simpl; [rewrite Forall_nil; tauto|].
  rewrite IH, Forall_app, Forall_cons. tauto.
Qed.
Lemma spread_cons x l : spread (x :: l) <-> Forall (apart x) l /\ spread l.
Proof. done. Qed.
Lemma spread_NoDup l : spread l -> NoDup l.
Proof.
  induction l; simpl; [constructor|]. intros [H ?]. constructor; [|auto].
  intros Hin. rewrite Forall_forall in H. specialize (H _ Hin). unfold apart in H; lia.
Qed.
Lemma spread_apart l x y : spread l -> x ∈ l -> y ∈ l -> x = y \/ apart x y.
Proof.
  induction l as [|z l IH]; simpl; [set_solver|]. intros [Hz Hs] Hx Hy.
  rewrite Forall_forall in Hz.
  apply elem_of_cons in Hx as [->|Hx]; apply elem_of_cons in Hy as [->|Hy]; auto.
  right. apply apart_sym; auto.
Qed.

#[export] Instance nodes_proper : Proper ((≡ₚ) ==> (≡ₚ)) nodes.
Proof. intros L K H. unfold nodes. by rewrite H. Qed.
#[export] Instance dlists_proper m : Proper ((≡ₚ) ==> iff) (dlists m).
Proof. intros L K H. unfold dlists. rewrite H. done. Qed.

Lemma nodes_cons e L : nodes (e :: L) = e.1 :: e.2 ++ nodes L.
Proof. done. Qed.
Lemma elem_of_nodes n L : n ∈ nodes L <-> exists e, e ∈ L /\ n ∈ e.1 :: e.2.
Proof. unfold nodes. rewrite list_elem_of_bind. unfold entry_nodes. set_solver. Qed.

(** A memory that keeps all words of the nodes of [L] keeps [L]. *)
Lemma entry_ok_agree m m' e :
  (forall n, n ∈ e.1 :: e.2 -> m' n = m n /\ m' (n + 4) = m (n + 4)) ->
  entry_ok m e -> entry_ok m' e.
Proof.
  destruct e as [hd xs]; simpl; intros H. apply lseg_agree; unfold sprt_next, sprt_prev; intros x Hx.
  - by apply H.
  - apply H. set_solver.
Qed.
Lemma dlists_agree m m' L :
  (forall n, n ∈ nodes L -> m' n = m n /\ m' (n + 4) = m (n + 4)) ->
  dlists m L -> dlists m' L.
Proof.
  intros H [HL Hs]. split; [|done]. rewrite Forall_forall in HL |- *. intros e He.
  apply (entry_ok_agree m); [|auto]. intros n Hn. apply H, elem_of_nodes. eauto.
Qed.

(** An operation that writes only words of [ns] leaves lists apart from [ns]. *)
Definition changes_only (ns : list Z) (m m' : mem) : Prop := agree (outside ns) m m'.

Lemma changes_only_frame ns m m' L :
  changes_only ns m m' -> Forall (fun n => Forall (apart n) ns) (nodes L) ->
  dlists m L -> dlists m' L.
Proof.
  intros Hc Ha. apply dlists_agree. intros n Hn. rewrite Forall_forall in Ha.
  specialize (Ha n Hn). rewrite Forall_forall in Ha.
  split; apply Hc; intros k Hk; specialize (Ha k Hk); unfold apart in Ha; lia.
Qed.
Lemma changes_only_mono ns ks m m' :
  (forall n, n ∈ ns -> n ∈ ks) -> changes_only ns m m' -> changes_only ks m m'.
Proof. intros H. apply agree_mono. intros a Ho n Hn. apply Ho, H, Hn. Qed.
Lemma changes_only_trans ns m1 m2 m3 :
  changes_only ns m1 m2 -> changes_only ns m2 m3 -> changes_only ns m1 m3.
Proof. apply agree_trans. Qed.
Lemma changes_only_prev ns m m' n v :
  n ∈ ns -> changes_only ns m m' -> changes_only ns m (set_prev m' n v).
Proof. intros H. apply agree_st. intros Ho. destruct (Ho n H). done. Qed.
Lemma changes_only_next ns m m' n v :
  n ∈ ns -> changes_only ns m m' -> changes_only ns m (set_next m' n v).
Proof. intros H. apply agree_st. intros Ho. destruct (Ho n H). done. Qed.
Lemma changes_only_refl ns m : changes_only ns m m.
Proof. apply agree_refl. Qed.
#[export] Hint Resolve changes_only_refl changes_only_prev changes_only_next : kernel.

(** ** Relinking a segment *)

(** Membership in explicit concatenations, by propositional reasoning only. *)
Ltac in_list :=
  rewrite ?elem_of_app, ?list_elem_of_singleton, ?elem_of_cons, ?elem_of_app, ?list_elem_of_singleton, ?elem_of_cons in *;
  first [tauto | let E := fresh in intros E; rewrite <- E in *; tauto].

Lemma lseg_insert m m' a xs1 xs2 b n :
  lseg m a (xs1 ++ xs2) b ->
  NoDup (a :: xs1 ++ xs2) -> NoDup ((xs1 ++ xs2) ++ [b]) ->
  sprt_next m' (last_of a xs1) = n -> sprt_prev m' n = last_of a xs1 ->
  sprt_next m' n = first_of xs2 b -> sprt_prev m' (first_of xs2 b) = n ->
  (forall x, x ∈ a :: xs1 ++ xs2 -> x <> last_of a xs1 -> sprt_next m' x = sprt_next m x) ->
  (forall x, x ∈ (xs1 ++ xs2) ++ [b] -> x <> first_of xs2 b -> sprt_prev m' x = sprt_prev m x) ->
  lseg m' a (xs1 ++ n :: xs2) b.
Proof.
  revert a; induction xs1 as [|y xs1 IH]; intros a H Ha Hb E1 E2 E3 E4 Fn Fp; simpl in *.
  - change (last_of a []) with a in *. split_and!; [done..|].
    destruct xs2 as [|z xs2]; simpl in *; [done|].
    change (first_of (z :: xs2) b) with z in *.
    destruct H as (_ & _ & H). split_and!; [done..|].
    apply NoDup_cons in Ha as [Ha _]. apply NoDup_cons in Hb as [Hb _].
    apply (lseg_agree m); [| |done]; intros x Hx.
    + apply Fn; clear Fn Fp; in_list.
    + apply Fp; clear Fn Fp; in_list.
  - rewrite !last_of_cons in *. destruct H as (H1 & H2 & H).
    apply NoDup_cons in Ha as [Ha Ha']. apply NoDup_cons in Hb as [Hb Hb'].
    pose proof (last_of_in y xs1) as Hl. pose proof (first_of_in xs2 b) as Hf.
    rewrite Fn by (clear Fn Fp IH; in_list). rewrite Fp by (clear Fn Fp IH; in_list).
    split_and!; [done..|].
    apply IH; try done; intros x Hx ?; [apply Fn|apply Fp]; try done; clear Fn Fp IH; in_list.
Qed.

Lemma lseg_remove m m' a xs1 xs2 b n :
  lseg m a (xs1 ++ n :: xs2) b ->
  NoDup (a :: xs1 ++ n :: xs2) -> NoDup ((xs1 ++ n :: xs2) ++ [b]) ->
  sprt_next m' (last_of a xs1) = first_of xs2 b ->
  sprt_prev m' (first_of xs2 b) = last_of a xs1 ->
  (forall x, x ∈ a :: xs1 ++ xs2 -> x <> last_of a xs1 -> sprt_next m' x = sprt_next m x) ->
  (forall x, x ∈ (xs1 ++ xs2) ++ [b] -> x <> first_of xs2 b -> sprt_prev m' x = sprt_prev m x) ->
  lseg m' a (xs1 ++ xs2) b.
Proof.
  revert a; induction xs1 as [|y xs1 IH]; intros a H Ha Hb E1 E2 Fn Fp; simpl in *.
  - change (last_of a []) with a in *. destruct H as (_ & _ & H).
    destruct xs2 as [|z xs2]; simpl in *; [done|].
    change (first_of (z :: xs2) b) with z in *.
    destruct H as (_ & _ & H). split_and!; [done..|].
    apply NoDup_cons in Ha as [Ha _]. apply NoDup_cons in Hb as [_ Hb]. apply NoDup_cons in Hb as [Hb _].
    apply (lseg_agree m); [| |done]; intros x Hx.
    + apply Fn; clear Fn Fp; in_list.
    + apply Fp; clear Fn Fp; in_list.
  - rewrite !last_of_cons in *. destruct H as (H1 & H2 & H).
    apply NoDup_cons in Ha as [Ha Ha']. apply NoDup_cons in Hb as [Hb Hb'].
    pose proof (last_of_in y xs1) as Hl. pose proof (first_of_in xs2 b) as Hf.
    rewrite Fn by (clear Fn Fp IH; in_list). rewrite Fp by (clear Fn Fp IH; in_list).
    split_and!; [done..|].
    apply IH; try done; intros x Hx ?; [apply Fn|apply Fp]; try done; clear Fn Fp IH; in_list.
Qed.

(** The head closes the circle, so both orders of the nodes are duplicate-free. *)
Lemma NoDup_circle (hd : Z) xs : NoDup (hd :: xs) -> NoDup (xs ++ [hd]).
Proof.
  rewrite NoDup_cons, NoDup_app. intros [H1 H2]. split_and!; [done| |by apply NoDup_singleton].
  intros x Hx. rewrite list_elem_of_singleton. intros ->. done.
Qed.

(** The four words an insertion of [n] between [p] and [q] sets. *)
Definition linked_in (m m' : mem) (p n q : Z) : Prop :=
  m' (p + 4) = n /\ m' n = p /\ m' (n + 4) = q /\ m' q = n /\
  forall a, a <> p + 4 -> a <> n -> a <> n + 4 -> a <> q -> m' a = m a.

(** The two words a removal of the node between [p] and [q] sets. *)
Definition linked_out (m m' : mem) (p n q : Z) : Prop :=
  m' (p + 4) = q /\ m' q = p /\ m' n = n /\ m' (n + 4) = n /\
  forall a, a <> p + 4 -> a <> n -> a <> n + 4 -> a <> q -> m' a = m a.

Lemma dlists_cons m e L :
  dlists m (e :: L) <->
  entry_ok m e /\ dlists m L /\ spread (e.1 :: e.2) /\
  Forall (fun x => Forall (apart x) (e.1 :: e.2)) (nodes L).
Proof.
  unfold dlists. rewrite Forall_cons, nodes_cons, app_comm_cons, (Permutation_app_comm (_ :: _)), spread_app.
  tauto.
Qed.

Lemma entry_NoDup m hd xs L : dlists m ((hd, xs) :: L) -> NoDup (hd :: xs).
Proof. rewrite dlists_cons. intros (_ & _ & H & _). by apply spread_NoDup. Qed.

Lemma entry_apart m e L x y :
  dlists m (e :: L) -> x ∈ e.1 :: e.2 -> y ∈ e.1 :: e.2 -> x = y \/ apart x y.
Proof. rewrite dlists_cons. intros (_ & _ & H & _). by apply spread_apart. Qed.

Lemma last_of_node hd xs1 xs2 : last_of hd xs1 ∈ hd :: xs1 ++ xs2.
Proof. pose proof (last_of_in hd xs1). in_list. Qed.
Lemma first_of_node hd xs1 xs2 : first_of xs2 hd ∈ hd :: xs1 ++ xs2.
Proof. pose proof (first_of_in xs2 hd). in_list. Qed.

Lemma linked_in_changes m m' p n q ns :
  p ∈ ns -> n ∈ ns -> q ∈ ns -> linked_in m m' p n q -> changes_only ns m m'.
Proof.
  intros Hp Hn Hq (_ & _ & _ & _ & H) a Ha.
  destruct (Ha p Hp), (Ha n Hn), (Ha q Hq). by apply H.
Qed.
Lemma linked_out_changes m m' p n q ns :
  p ∈ ns -> n ∈ ns -> q ∈ ns -> linked_out m m' p n q -> changes_only ns m m'.
Proof.
  intros Hp Hn Hq (_ & _ & _ & _ & H) a Ha.
  destruct (Ha p Hp), (Ha n Hn), (Ha q Hq). by apply H.
Qed.

Lemma nodes_insert hd xs1 n xs2 L :
  nodes ((hd, xs1 ++ n :: xs2) :: L) ≡ₚ n :: nodes ((hd, xs1 ++ xs2) :: L).
Proof. rewrite !nodes_cons. simpl. rewrite <- Permutation_middle. apply perm_swap. Qed.
Lemma nodes_remove hd xs1 n xs2 L :
  nodes ((hd, xs1 ++ xs2) :: (n, []) :: L) ≡ₚ nodes ((hd, xs1 ++ n :: xs2) :: L).
Proof.
  rewrite nodes_insert, !nodes_cons. simpl. rewrite <- Permutation_middle. apply perm_swap.
Qed.
Lemma spread_split hd xs1 n xs2 L :
  spread (nodes ((hd, xs1 ++ n :: xs2) :: L)) -> forall x, x ∈ hd :: xs1 ++ xs2 -> apart n x.
Proof.
  rewrite nodes_insert, spread_cons, Forall_forall. intros [H _] x Hx. apply H.
  rewrite nodes_cons. simpl. in_list.
Qed.

Lemma insert_spec m m' hd xs1 xs2 L n :
  dlists m ((hd, xs1 ++ xs2) :: L) ->
  Forall (apart n) (nodes ((hd, xs1 ++ xs2) :: L)) ->
  linked_in m m' (last_of hd xs1) n (first_of xs2 hd) ->
  dlists m' ((hd, xs1 ++ n :: xs2) :: L).
Proof.
  intros HD Hn Hl. pose proof (entry_NoDup _ _ _ _ HD) as Hnd. simpl in Hnd.
  pose proof (last_of_node hd xs1 xs2) as Hp. pose proof (first_of_node hd xs1 xs2) as Hq.
  assert (forall x, x ∈ hd :: xs1 ++ xs2 -> apart n x) as Hx.
  { intros x Hx. rewrite Forall_forall in Hn. apply Hn. rewrite nodes_cons. simpl. in_list. }
  pose proof (entry_apart _ _ _ _ _ HD Hp Hq) as Hpq. simpl in Hpq.
  split.
  - pose proof HD as [HF _]. apply Forall_cons in HF as [He HF]. apply Forall_cons. split.
    + destruct Hl as (E1 & E2 & E3 & E4 & E5). unfold entry_ok in *; simpl in *.
      apply (lseg_insert m); try done.
      * by apply NoDup_circle.
      * intros x Hin Hne. pose proof (entry_apart _ _ _ _ _ HD Hin Hp) as Hxp.
        pose proof (entry_apart _ _ _ _ _ HD Hin Hq) as Hxq. pose proof (Hx x Hin).
        unfold sprt_next, apart in *. simpl in *. apply E5; lia.
      * intros x Hin Hne. assert (x ∈ hd :: xs1 ++ xs2) as Hin' by in_list.
        pose proof (entry_apart _ _ _ _ _ HD Hin' Hp) as Hxp.
        pose proof (entry_apart _ _ _ _ _ HD Hin' Hq) as Hxq. pose proof (Hx x Hin').
        unfold sprt_prev, apart in *. simpl in *. apply E5; lia.
    + apply dlists_cons in HD as (_ & HD & _ & Ha).
      eapply (changes_only_frame (n :: hd :: xs1 ++ xs2) m m' L); [|..|exact HD].
      * eapply linked_in_changes; [..|exact Hl]; in_list.
      * rewrite Forall_forall in Ha |- *. intros k Hk. apply Forall_cons. split; [|by apply Ha].
        apply apart_sym. rewrite Forall_forall in Hn. apply Hn. rewrite nodes_cons. simpl. in_list.
  - rewrite nodes_insert. apply spread_cons. split; [done|apply HD].
Qed.

Lemma remove_spec m m' hd xs1 xs2 L n :
  dlists m ((hd, xs1 ++ n :: xs2) :: L) ->
  linked_out m m' (last_of hd xs1) n (first_of xs2 hd) ->
  dlists m' ((hd, xs1 ++ xs2) :: (n, []) :: L).
Proof.
  intros HD Hl. pose proof (entry_NoDup _ _ _ _ HD) as Hnd. simpl in Hnd.
  assert (last_of hd xs1 ∈ hd :: xs1 ++ n :: xs2) as Hp by apply last_of_node.
  assert (first_of xs2 hd ∈ hd :: xs1 ++ n :: xs2) as Hq
    by (pose proof (first_of_in xs2 hd); in_list).
  assert (n ∈ hd :: xs1 ++ n :: xs2) as Hn by in_list.
  pose proof (spread_split _ _ _ _ _ (proj2 HD)) as Hs.
  split.
  - pose proof HD as [HF _]. apply Forall_cons in HF as [He HF]. rewrite !Forall_cons. split_and!.
    + destruct Hl as (E1 & E2 & E3 & E4 & E5). unfold entry_ok in *; simpl in *.
      apply (lseg_remove m m' _ _ _ _ n); try done.
      * by apply NoDup_circle.
      * intros x Hin Hne. assert (x ∈ hd :: xs1 ++ n :: xs2) as Hin' by in_list.
        pose proof (entry_apart _ _ _ _ _ HD Hin' Hp) as Hxp.
        pose proof (entry_apart _ _ _ _ _ HD Hin' Hq) as Hxq. pose proof (Hs x Hin).
        unfold sprt_next, apart in *. simpl in *. apply E5; lia.
      * intros x Hin Hne. assert (x ∈ hd :: xs1 ++ xs2) as Hin1 by in_list.
        assert (x ∈ hd :: xs1 ++ n :: xs2) as Hin' by in_list.
        pose proof (entry_apart _ _ _ _ _ HD Hin' Hp) as Hxp.
        pose proof (entry_apart _ _ _ _ _ HD Hin' Hq) as Hxq. pose proof (Hs x Hin1).
        unfold sprt_prev, apart in *. simpl in *. apply E5; lia.
    + destruct Hl as (_ & _ & E3 & E4 & _). done.
    + apply dlists_cons in HD as (_ & HD & _ & Ha).
      apply (changes_only_frame (hd :: xs1 ++ n :: xs2) m m' L); [|done..].
      eapply linked_out_changes; [..|exact Hl]; done.
  - rewrite nodes_remove. apply HD.
Qed.

(** ** The operations implement the sequence operations *)
Lemma init_list_head_spec m L n :
  dlists m L -> Forall (apart n) (nodes L) -> dlists (init_list_head m n) ((n, []) :: L).
Proof.
  intros HD Hn. apply dlists_cons. split_and!; simpl.
  - unfold entry_ok, lseg, init_list_head, sprt_next, sprt_prev, set_next, set_prev. simpl. mem_simp. done.
  - apply (changes_only_frame [n] m); [|..|done].
    + unfold init_list_head. auto using list_elem_of_here with kernel.
    + rewrite Forall_forall in Hn |- *. intros k Hk. apply Forall_singleton, apart_sym, Hn, Hk.
  - done.
  - rewrite Forall_forall in Hn |- *. intros k Hk. apply Forall_singleton, apart_sym, Hn, Hk.
Qed.

Lemma add_head_linked m p n q :
  sprt_next m p = q -> apart n p -> apart n q -> p = q \/ apart p q ->
  linked_in m (list_head_add_head m p n) p n q.
Proof.
  unfold list_head_add_head, linked_in, sprt_next, set_prev, set_next, apart.
  intros <- ? ? ?. split_and!; mem_simp; try done. intros a ? ? ? ?. mem_simp. done.
Qed.
Lemma add_tail_linked m p n q :
  sprt_prev m q = p -> apart n p -> apart n q -> p = q \/ apart p q ->
  linked_in m (list_head_add_tail m q n) p n q.
Proof.
  unfold list_head_add_tail, linked_in, sprt_prev, set_prev, set_next, apart.
  intros <- ? ? ?. split_and!; mem_simp; try done. intros a ? ? ? ?. mem_simp. done.
Qed.
Lemma del_linked m p n q :
  sprt_prev m n = p -> sprt_next m n = q -> apart n p -> apart n q -> p = q \/ apart p q ->
  linked_out m (list_head_del m n) p n q.
Proof.
  unfold list_head_del, init_list_head, linked_out, sprt_prev, sprt_next, set_prev, set_next, apart.
  intros <- <- ? ? ?. split_and!; mem_simp; try done. intros a ? ? ? ?. mem_simp. done.
Qed.

Section ops.
Context (m : mem) (hd : Z) (xs1 xs2 : list Z) (L : list (Z * list Z)) (n : Z).

(** The neighbours of a fresh node at a position are apart from it. *)
Lemma fresh_neighbours :
  Forall (apart n) (nodes ((hd, xs1 ++ xs2) :: L)) ->
  apart n (last_of hd xs1) /\ apart n (first_of xs2 hd).
Proof.
  rewrite Forall_forall. intros H. pose proof (last_of_node hd xs1 xs2). pose proof (first_of_node hd xs1 xs2).
  split; apply H; rewrite nodes_cons; simpl; in_list.
Qed.

Lemma neighbours_apart :
  dlists m ((hd, xs1 ++ xs2) :: L) ->
  last_of hd xs1 = first_of xs2 hd \/ apart (last_of hd xs1) (first_of xs2 hd).
Proof.
  intros H. apply (entry_apart _ _ _ _ _ H); [apply last_of_node|apply first_of_node].
Qed.

Lemma add_head_at :
  dlists m ((hd, xs1 ++ xs2) :: L) ->
  Forall (apart n) (nodes ((hd, xs1 ++ xs2) :: L)) ->
  linked_in m (list_head_add_head m (last_of hd xs1) n) (last_of hd xs1) n (first_of xs2 hd).
Proof.
  intros HD Hn. destruct (fresh_neighbours Hn). apply add_head_linked; auto using neighbours_apart.
  destruct HD as [HF _]. apply Forall_cons in HF as [He _]. apply (lseg_neighbours m hd xs1 xs2 hd) in He. tauto.
Qed.

Lemma add_tail_at :
  dlists m ((hd, xs1 ++ xs2) :: L) ->
  Forall (apart n) (nodes ((hd, xs1 ++ xs2) :: L)) ->
  linked_in m (list_head_add_tail m (first_of xs2 hd) n) (last_of hd xs1) n (first_of xs2 hd).
Proof.
  intros HD Hn. destruct (fresh_neighbours Hn). apply add_tail_linked; auto using neighbours_apart.
  destruct HD as [HF _]. apply Forall_cons in HF as [He _]. apply (lseg_neighbours m hd xs1 xs2 hd) in He. tauto.
Qed.

Lemma node_links :
  dlists m ((hd, xs1 ++ n :: xs2) :: L) ->
  sprt_prev m n = last_of hd xs1 /\ sprt_next m n = first_of xs2 hd.
Proof.
  intros [HF _]. apply Forall_cons in HF as [He _]. unfold entry_ok in He; simpl in He.
  apply lseg_app in He as [H1 H2]. split; [by apply lseg_last in H1|by apply lseg_first in H2].
Qed.

Lemma del_at :
  dlists m ((hd, xs1 ++ n :: xs2) :: L) ->
  linked_out m (list_head_del m n) (last_of hd xs1) n (first_of xs2 hd).
Proof.
  intros HD. destruct (node_links HD).
  pose proof (spread_split _ _ _ _ _ (proj2 HD)) as Hs.
  apply del_linked; auto using last_of_node, first_of_node.
  apply (entry_apart _ _ _ _ _ HD); simpl.
  - apply last_of_node.
  - pose proof (first_of_in xs2 hd). in_list.
Qed.
End ops.

(** Deleting an initialised node that is in no list changes nothing. *)
Lemma list_head_del_self m L n a :
  dlists m ((n, []) :: L) -> list_head_del m n a = m a.
Proof.
  intros [HF _]. apply Forall_cons in HF as [[H1 H2] _]. simpl in *.
  unfold list_head_del, init_list_head, sprt_prev, sprt_next, set_prev, set_next in *.
  rewrite H1, H2. unfold st. repeat (case_test; subst; try done).
Qed.

(** ** Membership search *)
Lemma lseg_next_nth m a xs b i x :
  lseg m a xs b -> (a :: xs) !! i = Some x -> (xs ++ [b]) !! i = Some (sprt_next m x).
Proof.
  revert a i; induction xs as [|y xs IH]; intros a [|i] H Hi; simpl in *; simplify_eq.
  - by destruct H as [-> _].
  - by destruct H as [-> _].
  - destruct H as (_ & _ & H). by apply (IH y i).
Qed.
Lemma lseg_prev_nth m a xs b i y :
  lseg m a xs b -> (xs ++ [b]) !! i = Some y -> (a :: xs) !! i = Some (sprt_prev m y).
Proof.
  revert a i; induction xs as [|x xs IH]; intros a [|i] H Hi; simpl in *; simplify_eq.
  - by destruct H as [_ ->].
  - by destruct H as (_ & -> & _).
  - destruct H as (_ & _ & H). by apply (IH x i).
Qed.

Lemma lookup_snoc_lt {A} (xs : list A) b i : (i < length xs)%nat -> (xs ++ [b]) !! i = xs !! i.
Proof. apply lookup_app_l. Qed.

Section for_each.
Context (m : mem) (hd : Z) (xs : list Z) (x : Z).
Context (Hseg : lseg m hd xs hd) (Hnd : NoDup (hd :: xs)).

Lemma foreach_list_head_correct fuel i l r :
  (i <= length xs)%nat -> (length xs - i <= fuel)%nat ->
  (xs ++ [hd]) !! i = Some r -> (hd :: xs) !! (length xs - i)%nat = Some l ->
  (forall j y, (j < i)%nat -> xs !! j = Some y -> y <> x) ->
  (forall j y, (j < i)%nat -> xs !! (length xs - 1 - j)%nat = Some y -> y <> x) ->
  foreach_list_head fuel m hd x l r = Ok (if decide (x ∈ xs) then ER_NORMAL else - ER_ERROR).
Proof.
  revert i l r. induction fuel as [|fuel IH]; intros i l r Hi Hf Hr Hl Hv1 Hv2; simpl.
  all: destruct (decide (i = length xs)) as [->|Hne].
  1, 3: (rewrite list_lookup_middle in Hr by done; simplify_eq; rewrite Z.eqb_refl; simpl;
    rewrite decide_False; [done|]; intros Hin; apply list_elem_of_lookup in Hin as [j Hj];
    apply lookup_lt_Some in Hj as Hlt; by apply (Hv1 j x)).
  1: lia.
  rewrite lookup_snoc_lt in Hr by lia.
  replace (length xs - i)%nat with (S (length xs - i - 1)) in Hl by lia. simpl in Hl.
  apply NoDup_cons in Hnd as [Hhd Hnd'].
  assert (r <> hd /\ l <> hd) as [Hr' Hl'].
  { split; intros ->; apply Hhd; eapply list_elem_of_lookup_2; eauto. }
  rewrite (proj2 (Z.eqb_neq r hd)), (proj2 (Z.eqb_neq l hd)) by done. simpl.
  destruct (Z.eqb_spec l x) as [->|Hlx]; simpl.
  { rewrite decide_True; [done|]. eapply list_elem_of_lookup_2; eauto. }
  destruct (Z.eqb_spec r x) as [->|Hrx]; simpl.
  { rewrite decide_True; [done|]. eapply list_elem_of_lookup_2; eauto. }
  destruct (Z.eqb_spec l r) as [->|Hlr]; simpl.
  - rewrite decide_False; [done|]. intros Hin. apply list_elem_of_lookup in Hin as [j Hj].
    pose proof (NoDup_lookup _ _ _ _ Hnd' Hr Hl) as Hij.
    apply lookup_lt_Some in Hj as Hlt.
    destruct (decide (j < i)%nat) as [?|?]; [by apply (Hv1 j x)|].
    destruct (decide (j = i)) as [->|?]; [congruence|].
    apply (Hv2 (length xs - 1 - j)%nat x); [lia| |done].
    by replace (length xs - 1 - (length xs - 1 - j))%nat with j by lia.
  - apply (IH (S i)); try lia.
    + apply (lseg_next_nth m hd xs hd); [done|]. done.
    + replace (length xs - S i)%nat with (length xs - i - 1)%nat by lia.
      apply (lseg_prev_nth m hd xs hd); [done|]. rewrite lookup_snoc_lt by lia. done.
    + intros j y Hj Hy. destruct (decide (j = i)) as [->|]; [congruence|apply (Hv1 j); [lia|done]].
    + intros j y Hj Hy. destruct (decide (j = i)) as [->|]; [|apply (Hv2 j); [lia|done]].
      replace (length xs - 1 - i)%nat with (length xs - i - 1)%nat in Hy by lia. congruence.
Qed.

Lemma list_head_for_each_correct fuel :
  (length xs <= fuel)%nat ->
  list_head_for_each fuel m hd x = Ok (if decide (x ∈ xs) then ER_NORMAL else - ER_ERROR).
Proof.
  intros Hf. apply (foreach_list_head_correct fuel 0); try lia.
  - apply (lseg_next_nth m hd xs hd); done.
  - rewrite Nat.sub_0_r. apply (lseg_prev_nth m hd xs hd); [done|]. by rewrite list_lookup_middle.
Qed.

Lemma list_find_correct fuel P i r :
  (i <= length xs)%nat -> (length xs - i <= fuel)%nat -> (xs ++ [hd]) !! i = Some r ->
  list_find_from fuel m hd P r = Ok (List.find P (drop i xs)).
Proof.
  revert i r. induction fuel as [|fuel IH]; intros i r Hi Hf Hr; simpl.
  all: destruct (decide (i = length xs)) as [->|Hne].
  1, 3: (rewrite list_lookup_middle in Hr by done; simplify_eq; by rewrite Z.eqb_refl, drop_all).
  1: lia.
  rewrite lookup_snoc_lt in Hr by lia. rewrite (drop_S _ r) by done. simpl.
  rewrite (proj2 (Z.eqb_neq r hd)).
  2:{ intros ->. apply NoDup_cons in Hnd as [Hhd _]. apply Hhd. eapply list_elem_of_lookup_2; eauto. }
  destruct (P r); [done|]. apply IH; try lia.
  apply (lseg_next_nth m hd xs hd); done.
Qed.

Lemma foreach_list_next_entry_correct fuel P :
  (length xs <= fuel)%nat -> foreach_list_next_entry fuel m hd P = Ok (List.find P xs).
Proof.
  intros Hf. apply (list_find_correct fuel P 0); try lia.
  apply (lseg_next_nth m hd xs hd); done.
Qed.
End for_each.

(** A search over the members of a represented list visits exactly its sequence. *)
Lemma dlists_find m hd xs L fuel P :
  dlists m ((hd, xs) :: L) -> (length xs <= fuel)%nat ->
  foreach_list_next_entry fuel m hd P = Ok (List.find P xs).
Proof.
  intros HD Hf. apply foreach_list_next_entry_correct; [|by eapply entry_NoDup|done].
  destruct HD as [HF _]. by apply Forall_cons in HF as [He _].
Qed.

Lemma dlists_for_each m hd xs L fuel x :
  dlists m ((hd, xs) :: L) -> (length xs <= fuel)%nat ->
  list_head_for_each fuel m hd x = Ok (if decide (x ∈ xs) then ER_NORMAL else - ER_ERROR).
Proof.
  intros HD Hf. apply list_head_for_each_correct; [|by eapply entry_NoDup|done].
  destruct HD as [HF _]. by apply Forall_cons in HF as [He _].
Qed.

Lemma dlists_empty m hd xs L :
  dlists m ((hd, xs) :: L) -> mrt_list_head_empty m hd = bool_decide (xs = []).
Proof.
  intros HD. pose proof (entry_NoDup _ _ _ _ HD) as Hnd. simpl in Hnd.
  destruct HD as [HF _]. apply Forall_cons in HF as [He _]. unfold entry_ok in He; simpl in He.
  unfold mrt_list_head_empty. destruct xs as [|x xs]; simpl in He.
  - destruct He as [-> ->]. by rewrite Z.eqb_refl.
  - destruct He as (-> & _ & _). apply NoDup_cons in Hnd as [Hnd _].
    rewrite (proj2 (Z.eqb_neq x hd)) by set_solver. by rewrite andb_false_r.
Qed.

Lemma list_head_add_head_spec m hd xs1 xs2 L n :
  dlists m ((hd, xs1 ++ xs2) :: L) ->
  Forall (apart n) (nodes ((hd, xs1 ++ xs2) :: L)) ->
  dlists (list_head_add_head m (last_of hd xs1) n) ((hd, xs1 ++ n :: xs2) :: L) /\
  changes_only (n :: hd :: xs1 ++ xs2) m (list_head_add_head m (last_of hd xs1) n).
Proof.
  intros HD Hn. pose proof (add_head_at _ _ _ _ _ _ HD Hn) as Hl. split; [by eapply insert_spec|].
  eapply linked_in_changes; [..|exact Hl]; apply elem_of_cons; auto using last_of_node, first_of_node.
Qed.

Lemma list_head_add_tail_spec m hd xs1 xs2 L n :
  dlists m ((hd, xs1 ++ xs2) :: L) ->
  Forall (apart n) (nodes ((hd, xs1 ++ xs2) :: L)) ->
  dlists (list_head_add_tail m (first_of xs2 hd) n) ((hd, xs1 ++ n :: xs2) :: L) /\
  changes_only (n :: hd :: xs1 ++ xs2) m (list_head_add_tail m (first_of xs2 hd) n).
Proof.
  intros HD Hn. pose proof (add_tail_at _ _ _ _ _ _ HD Hn) as Hl. split; [by eapply insert_spec|].
  eapply linked_in_changes; [..|exact Hl]; apply elem_of_cons; auto using last_of_node, first_of_node.
Qed.

Lemma list_head_del_spec m hd xs1 xs2 L n :
  dlists m ((hd, xs1 ++ n :: xs2) :: L) ->
  dlists (list_head_del m n) ((hd, xs1 ++ xs2) :: (n, []) :: L) /\
  changes_only (hd :: xs1 ++ n :: xs2) m (list_head_del m n).
Proof.
  intros HD. pose proof (del_at _ _ _ _ _ _ HD) as Hl. split; [by eapply remove_spec|].
  pose proof (first_of_in xs2 hd).
  eapply linked_out_changes; [..|exact Hl]; [apply last_of_node|in_list|in_list].
Qed.

Lemma list_head_del_safe_spec fuel m hd xs L x :
  dlists m ((hd, xs) :: L) -> (length xs <= fuel)%nat ->
  exists m', list_head_del_safe fuel m hd x = Ok m' /\
    (x ∈ xs -> dlists m' ((hd, filter (fun y => y <> x) xs) :: (x, []) :: L)) /\
    (x ∉ xs -> m' = m).
Proof.
  intros HD Hf. unfold list_head_del_safe. rewrite (dlists_for_each _ _ _ _ _ _ HD Hf).
  simpl. destruct (decide (x ∈ xs)) as [Hx|Hx]; simpl; eexists; split_and!; try done.
  intros _. apply elem_of_split_list in Hx as (xs1 & xs2 & ->).
  rewrite filter_ne_split.
  - by apply list_head_del_spec.
  - apply entry_NoDup in HD. simpl in HD. by apply NoDup_cons in HD as [_ HD].
Qed.

(** ** Properties *)

(** Inserting a detached node with [list_head_add_head] (after a node) or
    [list_head_add_tail] (before a node) inserts it at exactly that position
    of the sequence, keeps every other list, and writes no word outside the
    links of that list and of the node. *)
Theorem list_head_add_refines m hd xs1 xs2 L n :
  dlists m ((hd, xs1 ++ xs2) :: L) ->
  Forall (apart n) (nodes ((hd, xs1 ++ xs2) :: L)) ->
  (dlists (list_head_add_head m (last_of hd xs1) n) ((hd, xs1 ++ n :: xs2) :: L) /\
   changes_only (n :: hd :: xs1 ++ xs2) m (list_head_add_head m (last_of hd xs1) n)) /\
  (dlists (list_head_add_tail m (first_of xs2 hd) n) ((hd, xs1 ++ n :: xs2) :: L) /\
   changes_only (n :: hd :: xs1 ++ xs2) m (list_head_add_tail m (first_of xs2 hd) n)).
Proof. intros. split; [by apply list_head_add_head_spec|by apply list_head_add_tail_spec]. Qed.

(** [list_head_del_safe] terminates within as many steps as the list has
    members; a member is taken out of the sequence and left as a detached,
    initialised node; a node that is in another list or in none is left alone,
    and so is the whole memory. *)
Theorem list_head_del_safe_refines fuel m hd xs L x :
  dlists m ((hd, xs) :: L) -> (length xs <= fuel)%nat ->
  exists m', list_head_del_safe fuel m hd x = Ok m' /\
    (x ∈ xs -> dlists m' ((hd, filter (fun y => y <> x) xs) :: (x, []) :: L)) /\
    (x ∉ xs -> m' = m).
Proof. apply list_head_del_safe_spec. Qed.

(** Apartness of explicit addresses. *)
Ltac solve_apart := cbn; repeat first [apply Forall_nil; exact I | apply Forall_cons; split]; unfold apart; lia.

(** Two heads and two nodes: [100] is a list with member [200]; [300] is empty. *)
Definition list_demo : mem :=
  list_head_add_head (init_list_head (init_list_head (fun _ => 0) 100) 300) 100 200.

Lemma list_demo_ok : dlists list_demo [(100, [200]); (300, [])].
Proof.
  assert (dlists (init_list_head (fun _ => 0) 100) [(100, [])]) as H.
  { apply init_list_head_spec; [split; constructor|constructor]. }
  apply (init_list_head_spec _ _ 300) in H.
  - rewrite (Permutation_swap (100, [])) in H.
    apply (list_head_add_head_spec _ 100 [] [] [(300, [])] 200) in H; [apply H|].
    solve_apart.
  - solve_apart.
Qed.

Lemma list_head_add_refines_witness :
  dlists (list_head_add_tail list_demo 100 400) [(100, [200; 400]); (300, [])].
Proof.
  refine (proj1 (proj2 (list_head_add_refines list_demo 100 [200] [] [(300, [])] 400 list_demo_ok _))).
  solve_apart.
Defined.

Lemma list_head_del_safe_refines_witness :
  exists m', list_head_del_safe 1 list_demo 100 200 = Ok m' /\
    (200 ∈ [200] -> dlists m' [(100, []); (200, []); (300, [])]) /\
    (200 ∉ [200] -> m' = list_demo).
Proof. exact (list_head_del_safe_refines 1 list_demo 100 [200] [(300, [])] 200 list_demo_ok (le_n 1)). Defined.
