(* ===== verification/MemPool.v ===== *)
(** * Memory pools: data layout and the tiling of an arena
    (include/common/mem_manage.h)

    A pool is a [struct mem_info] and an arena cut into blocks.  Each block
    starts with a 32-byte [struct mem_block] header kept inside the arena;
    blocks are chained by [sprt_prev]/[sprt_next] in address order.  A block
    of [b_len] bytes (header included) has its [b_rem] last bytes unused; the
    allocators hand out memory from that tail.

    This file holds the layout, the arithmetic helpers, and what both
    allocators (mem_block.c and mem_simple.c) preserve: the blocks tile the
    arena and the headers in memory describe them. *)

From stdpp Require Import prelude gmap fin_maps sorting.
From S2P Require Import Prelude Mem ListHead.

(** ** Layout of [struct mem_block] and [struct mem_info] *)
Definition MEMORY_POOL_MAGIC : Z := 0xdfa69fe3.
Definition MEM_BLOCK_HEADER_SIZE : Z := 32.

Definition off_magic : Z := 0.
Definition off_base : Z := 4.
Definition off_lenth : Z := 8.
Definition off_remain : Z := 12.
Definition off_prev : Z := 16.
Definition off_next : Z := 20.
Definition off_link : Z := 24.

Definition NR_MEM_NUM : nat := 14.
Definition NR_MEM_LowerBytes : nat := 4.
Definition NR_MEM_HighBytes : nat := 13.
Definition NR_MEM_LowerLimit : Z := 32.
Definition NR_MEM_HighLimit : Z := 8192.

Definition info_base : Z := 0.
Definition info_lenth : Z := 4.
Definition info_mem : Z := 8.
Definition info_hash (info : Z) (i : nat) : Z := info + 12 + 8 * Z.of_nat i.
Definition info_alloc : Z := 124.
Definition info_free : Z := 128.
Definition info_size : Z := 132.

Definition IS_MEMORYPOOL_VALID (m : mem) (blk : Z) : bool := m (blk + off_magic) =? MEMORY_POOL_MAGIC.

(** [mrt_num_align8] on a 32-bit operand: add 7, then clear the low three bits. *)
Definition mrt_num_align8 (x : Z) : Z := Z.land (u32 (x + 7)) (W32 - 8).

(** [kmemset] stores one byte per step from [dest] up to [dest + size]; null is ignored. *)
Definition kmemset (m : mem) (dest data size : Z) : mem :=
  if dest =? 0 then m
  else fun x => if (dest <=? x) && (x <? u32 (dest + size)) then data else m x.
Definition kmemzero (m : mem) (dest size : Z) : mem := kmemset m dest 0 size.

(** ** Alignment arithmetic *)
Lemma land_align8 y : 0 <= y < W32 -> Z.land y (W32 - 8) = 8 * (y / 8).
Proof.
  intros Hy. change (W32 - 8) with (Z.shiftl (Z.ones 29) 3).
  rewrite (Z.mul_comm 8).
  replace (y / 8 * 8) with (Z.shiftl (Z.shiftr y 3) 3)
    by (rewrite Z.shiftl_mul_pow2, Z.shiftr_div_pow2 by lia; done).
  apply Z.bits_inj'. intros n Hn. rewrite Z.land_spec, !Z.shiftl_spec by done.
  destruct (Z.ltb_spec n 3).
  - rewrite !(Z.testbit_neg_r _ (n - 3)) by lia. apply andb_false_r.
  - rewrite Z.shiftr_spec by lia. replace (n - 3 + 3) with n by lia.
    destruct (Z.ltb_spec n 32).
    + rewrite Z.ones_spec_low by lia. apply andb_true_r.
    + rewrite (Z.bits_above_log2 y n); [done|lia|].
      destruct (Z.eq_dec y 0) as [->|]; [simpl; lia|].
      apply Z.log2_lt_pow2; [lia|]. apply Z.lt_le_trans with (2 ^ 32); [unfold W32 in Hy; lia|].
      apply Z.pow_le_mono_r; lia.
Qed.

(** Without overflow, aligning rounds up to the next multiple of 8. *)
Lemma align8_spec x :
  0 <= x <= W32 - 8 ->
  x <= mrt_num_align8 x < x + 8 /\ (8 | mrt_num_align8 x).
Proof.
  intros Hx. unfold mrt_num_align8. rewrite u32_id by (unfold W32 in *; lia).
  rewrite land_align8 by (unfold W32 in *; lia).
  split; [|by exists ((x + 7) / 8); lia].
  pose proof (Z.div_mod (x + 7) 8). pose proof (Z.mod_pos_bound (x + 7) 8). lia.
Qed.
Lemma align8_aligned x : 0 <= x <= W32 - 8 -> (8 | x) -> mrt_num_align8 x = x.
Proof. intros Hx [k ->]. destruct (align8_spec _ Hx) as [H [j Hj]]. lia. Qed.

(** ** Abstract blocks *)
Record blk := Blk { b_addr : Z; b_len : Z; b_rem : Z }.
Definition b_used (b : blk) : Z := b_len b - b_rem b.
Definition b_link (b : blk) : Z := b_addr b + off_link.
Definition b_end (b : blk) : Z := b_addr b + b_len b.
(** Address handed to the user of a block. *)
Definition b_ptr (b : blk) : Z := b_addr b + MEM_BLOCK_HEADER_SIZE.
#[export] Instance blk_eq_dec : EqDecision blk.
Proof. solve_decision. Defined.

(** A block holds its header; its used part is a multiple of 8; only the first
    block of an arena may be entirely unused. *)
Definition blk_shape (first : bool) (b : blk) : Prop :=
  (8 | b_addr b) /\ (8 | b_used b) /\ 0 <= b_rem b <= b_len b /\ 32 <= b_len b /\
  (32 <= b_used b \/ (first = true /\ b_used b = 0)).

(** The blocks tile the arena [a, e) without gaps or overlaps. *)
Fixpoint tiles (first : bool) (a : Z) (bs : list blk) (e : Z) : Prop :=
  match bs with
  | [] => a = e
  | b :: bs => b_addr b = a /\ blk_shape first b /\ tiles false (b_end b) bs e
  end.

Definition first_addr (bs : list blk) (e : Z) : Z := default e (b_addr <$> head bs).
Definition last_addr (p : Z) (bs : list blk) : Z := default p (b_addr <$> last bs).

(** The header words of a block, with its neighbours in the chain. *)
Definition hdr (m : mem) (b : blk) (p n : Z) : Prop :=
  m (b_addr b + off_base) = b_ptr b /\
  m (b_addr b + off_lenth) = b_len b /\
  m (b_addr b + off_remain) = b_rem b /\
  m (b_addr b + off_prev) = p /\
  m (b_addr b + off_next) = n.

Fixpoint chain (m : mem) (p : Z) (bs : list blk) (e : Z) : Prop :=
  match bs with
  | [] => True
  | b :: bs => hdr m b p (first_addr bs e) /\ chain m (b_addr b) bs e
  end.

(** Blocks in use carry the magic number. *)
Definition magics (m : mem) (bs : list blk) : Prop :=
  Forall (fun b => b_rem b < b_len b -> m (b_addr b + off_magic) = MEMORY_POOL_MAGIC) bs.

(** ** Header code shared by both allocators

    The stores that cut a new block for [lenth] bytes out of the unused tail of
    [sprt_block] (mem_block.c and mem_simple.c carry the same statements). *)
Definition split_block (m : mem) (sprt_block ptr_mem lenth offset : Z) : mem :=
  let sprt_new := u32 (ptr_mem - MEM_BLOCK_HEADER_SIZE) in
  let m := st m (sprt_new + off_base) ptr_mem in
  let m := st m (sprt_new + off_lenth) (m (sprt_block + off_remain)) in
  let m := st m (sprt_new + off_remain) (u32 (m (sprt_block + off_remain) - lenth)) in
  let m := st m (sprt_new + off_prev) sprt_block in
  let m := st m (sprt_new + off_next) (m (sprt_block + off_next)) in
  let m := st m (sprt_new + off_magic) MEMORY_POOL_MAGIC in
  let m := st m (sprt_block + off_lenth) offset in
  let m := st m (sprt_block + off_remain) (u32 (m (sprt_block + off_remain) - m (sprt_new + off_lenth))) in
  let m := if negb (m (sprt_block + off_next) =? 0)
           then st m (m (sprt_block + off_next) + off_prev) sprt_new else m in
  st m (sprt_block + off_next) sprt_new.

(** ** Facts about tilings *)
Lemma tiles_app first a bs1 b bs2 e :
  tiles first a (bs1 ++ b :: bs2) e <->
  tiles first a bs1 (b_addr b) /\
  tiles (match bs1 with [] => first | _ => false end) (b_addr b) (b :: bs2) e.
Proof.
  revert first a. induction bs1 as [|c bs1 IH]; intros first a; simpl.
  - intuition congruence.
  - rewrite IH. simpl. destruct bs1; simpl; tauto.
Qed.

Lemma tiles_weaken a bs e : tiles false a bs e -> tiles true a bs e.
Proof. destruct bs as [|b bs]; simpl; [done|]. unfold blk_shape. intuition. Qed.

Lemma tiles_shape first a bs e b :
  tiles first a bs e -> b ∈ bs -> blk_shape true b.
Proof.
  revert first a. induction bs as [|c bs IH]; intros first a; simpl; [set_solver|].
  intros (_ & Hs & Ht) [->|Hb]%elem_of_cons; [|by eapply IH].
  unfold blk_shape in *. intuition.
Qed.

Lemma tiles_le first a bs e : tiles first a bs e -> a <= e.
Proof.
  revert first a. induction bs as [|c bs IH]; intros first a; simpl; [lia|].
  intros (Ha & Hs & Ht). apply IH in Ht. unfold blk_shape, b_end in *. lia.
Qed.

Lemma tiles_bounds first a bs e b :
  tiles first a bs e -> b ∈ bs -> a <= b_addr b /\ b_end b <= e.
Proof.
  revert first a. induction bs as [|c bs IH]; intros first a; simpl; [set_solver|].
  intros (Ha & Hs & Ht) [->|Hb]%elem_of_cons.
  - apply tiles_le in Ht. lia.
  - destruct (IH false (b_end c) Ht Hb). unfold blk_shape, b_end in *. lia.
Qed.

(** Two blocks of a tiling coincide or do not overlap. *)
Lemma tiles_disjoint first a bs e b c :
  tiles first a bs e -> b ∈ bs -> c ∈ bs -> b = c \/ b_end b <= b_addr c \/ b_end c <= b_addr b.
Proof.
  revert first a. induction bs as [|d bs IH]; intros first a; simpl; [set_solver|].
  intros (Ha & Hs & Ht) Hb Hc.
  apply elem_of_cons in Hb as [->|Hb]; apply elem_of_cons in Hc as [->|Hc].
  - by left.
  - destruct (tiles_bounds _ _ _ _ c Ht Hc). auto.
  - destruct (tiles_bounds _ _ _ _ b Ht Hb). auto.
  - by eapply IH.
Qed.

Lemma tiles_addr_inj first a bs e b c :
  tiles first a bs e -> b ∈ bs -> c ∈ bs -> b_addr b = b_addr c -> b = c.
Proof.
  intros Ht Hb Hc E. destruct (tiles_disjoint _ _ _ _ b c Ht Hb Hc) as [|H]; [done|].
  destruct (tiles_shape _ _ _ _ b Ht Hb) as (_ & _ & _ & ? & _).
  destruct (tiles_shape _ _ _ _ c Ht Hc) as (_ & _ & _ & ? & _). unfold b_end in H. lia.
Qed.

Lemma tiles_NoDup first a bs e : tiles first a bs e -> NoDup bs.
Proof.
  revert first a. induction bs as [|b bs IH]; intros first a; simpl; [constructor|].
  intros (Ha & Hs & Ht). constructor; [|by eapply IH].
  intros Hb. destruct (tiles_bounds _ _ _ _ b Ht Hb). unfold blk_shape, b_end in *. lia.
Qed.

(** In a split tiling every other block lies on one side of the middle one. *)
Lemma tiles_around first a bs1 b bs2 e c :
  tiles first a (bs1 ++ b :: bs2) e -> c ∈ bs1 ++ bs2 ->
  b_end c <= b_addr b \/ b_end b <= b_addr c.
Proof.
  intros Ht Hc. pose proof (tiles_NoDup _ _ _ _ Ht) as Hnd.
  assert (c <> b) as Hne.
  { intros ->. apply NoDup_app in Hnd as (_ & Hd & Hnd). apply NoDup_cons in Hnd as [Hnd _].
    apply elem_of_app in Hc as [Hc|Hc]; [|done]. by apply (Hd b Hc), list_elem_of_here. }
  destruct (tiles_disjoint _ _ _ _ c b Ht); [in_list|in_list|done|done].
Qed.

(** ** Facts about chains *)
Lemma first_addr_app bs1 bs2 e : first_addr (bs1 ++ bs2) e = first_addr bs1 (first_addr bs2 e).
Proof. by destruct bs1. Qed.
Lemma last_addr_cons p b bs : last_addr p (b :: bs) = last_addr (b_addr b) bs.
Proof.
  destruct bs as [|c bs _] using rev_ind; [done|].
  unfold last_addr. rewrite app_comm_cons, !last_snoc. done.
Qed.
Lemma last_addr_snoc p bs b : last_addr p (bs ++ [b]) = b_addr b.
Proof. unfold last_addr. by rewrite last_snoc. Qed.

Lemma chain_app m p bs1 bs2 e :
  chain m p (bs1 ++ bs2) e <-> chain m p bs1 (first_addr bs2 e) /\ chain m (last_addr p bs1) bs2 e.
Proof.
  revert p; induction bs1 as [|b bs1 IH]; intros p; simpl.
  - unfold last_addr; simpl. tauto.
  - rewrite IH, first_addr_app, last_addr_cons. tauto.
Qed.

(** A memory that keeps the header words of the blocks keeps the chain. *)
Definition keeps_hdrs (m m' : mem) (bs : list blk) : Prop :=
  forall b a, b ∈ bs -> b_addr b <= a < b_addr b + off_link -> m' a = m a.

Lemma hdr_keep m m' b p n :
  (forall a, b_addr b <= a < b_addr b + off_link -> m' a = m a) -> hdr m b p n -> hdr m' b p n.
Proof.
  unfold hdr, off_link, off_base, off_lenth, off_remain, off_prev, off_next.
  intros H (H1 & H2 & H3 & H4 & H5). rewrite !H by lia. done.
Qed.
Lemma chain_keep m m' p bs e : keeps_hdrs m m' bs -> chain m p bs e -> chain m' p bs e.
Proof.
  revert p; induction bs as [|b bs IH]; intros p Hk; simpl; [done|]. intros [Hh Hc]. split.
  - eapply hdr_keep; [|exact Hh]. intros a Ha. eapply Hk; [apply list_elem_of_here|done].
  - apply IH; [|done]. intros c a Hin Ha. eapply Hk; [by apply list_elem_of_further|done].
Qed.
Lemma magics_keep m m' bs : keeps_hdrs m m' bs -> magics m bs -> magics m' bs.
Proof.
  unfold magics. rewrite !Forall_forall. intros Hk Hm b Hb Hr. rewrite (Hk b); auto.
  unfold off_magic, off_link. lia.
Qed.

(** The chain is what a walk along [sprt_next] sees. *)
Lemma chain_next m p bs1 b bs2 e :
  chain m p (bs1 ++ b :: bs2) e -> hdr m b (last_addr p bs1) (first_addr bs2 e).
Proof. rewrite chain_app. simpl. tauto. Qed.

(** When only [sprt_prev] of the first block changes, the rest keeps its chain. *)
Lemma chain_repred m m' p p' f a bs e z :
  tiles f a bs e -> chain m p bs z ->
  (bs <> [] -> m' (a + off_prev) = p') ->
  (forall b x, b ∈ bs -> b_addr b <= x < b_addr b + off_link -> x <> a + off_prev -> m' x = m x) ->
  chain m' p' bs z.
Proof.
  destruct bs as [|b bs]; simpl; [done|]. intros (Ha & Hs & Ht) [(H1 & H2 & H3 & H4 & H5) Hc] Hp Hk.
  split.
  - unfold hdr. rewrite Ha, (Hp ltac:(done)), <- Ha.
    unfold off_base, off_lenth, off_remain, off_prev, off_next, off_link in *.
    rewrite !(Hk b) by first [apply list_elem_of_here | lia]. done.
  - apply (chain_keep m); [|done]. intros c x Hin Hx.
    eapply Hk; [by apply list_elem_of_further|done|].
    destruct (tiles_bounds _ _ _ _ c Ht Hin). unfold blk_shape, b_end, off_prev in *. lia.
Qed.

(** The three parts of a split tiling. *)
Lemma tiles_cut f a bs1 b bs2 e :
  tiles f a (bs1 ++ b :: bs2) e ->
  blk_shape true b /\ a <= b_addr b /\ b_end b <= e /\
  (exists f', tiles f' (b_end b) bs2 e) /\
  (forall c, c ∈ bs1 -> a <= b_addr c /\ b_end c <= b_addr b /\ 32 <= b_len c) /\
  (forall c, c ∈ bs2 -> (b_addr c = b_end b \/ b_end b + 32 <= b_addr c) /\ b_end c <= e /\ 32 <= b_len c).
Proof.
  intros Ht. pose proof (tiles_shape _ _ _ _ b Ht ltac:(in_list)) as Hb.
  destruct (tiles_bounds _ _ _ _ b Ht ltac:(in_list)).
  pose proof (fun c => tiles_shape _ _ _ _ c Ht) as Hsh.
  apply tiles_app in Ht as [H1 (_ & _ & H2)].
  split_and!; try done; [by eexists| |].
  - intros c Hc. destruct (tiles_bounds _ _ _ _ c H1 Hc). destruct (Hsh c); [in_list|]. intuition.
  - intros c Hc. destruct (tiles_bounds _ _ _ _ c H2 Hc). destruct (Hsh c); [in_list|].
    split_and!; [|done|tauto]. destruct bs2 as [|d bs2]; [set_solver|]. destruct H2 as (E & Hd & H2).
    apply elem_of_cons in Hc as [->|Hc]; [by left|right].
    destruct (tiles_bounds _ _ _ _ c H2 Hc). unfold blk_shape, b_end in *. lia.
Qed.

(** Replacing the middle block by blocks that cover the same bytes. *)
Lemma tiles_replace f a bs1 b bs2 e cs :
  tiles f a (bs1 ++ b :: bs2) e ->
  (forall f', blk_shape f' b -> tiles f' (b_addr b) cs (b_end b)) -> cs <> [] ->
  tiles f a (bs1 ++ cs ++ bs2) e.
Proof.
  intros Ht Hcs Hne. destruct cs as [|c cs]; [done|]. simpl. apply tiles_app in Ht as [H1 (_ & Hs & H2)].
  specialize (Hcs _ Hs). simpl in Hcs. destruct Hcs as (Ec & Hc & Hcs).
  apply tiles_app. rewrite Ec. split_and!; [done|]. simpl. split_and!; [done..|].
  clear -Hcs H2. revert Hcs. generalize (b_end c). induction cs as [|d cs IH]; simpl; intros z Hz.
  - by subst.
  - destruct Hz as (? & ? & ?). split_and!; auto.
Qed.

(** Cells that are no header word of the blocks. *)
Definition off_headers (bs : list blk) (x : Z) : Prop :=
  forall c, c ∈ bs -> ~ (b_addr c <= x < b_addr c + off_link).

(** The two blocks a split leaves. *)
Definition blk_full (b : blk) : blk := Blk (b_addr b) (b_used b) 0.
Definition blk_tail (b : blk) (lenth : Z) : blk := Blk (b_addr b + b_used b) (b_rem b) (b_rem b - lenth).

Ltac unfold_offsets :=
  unfold off_magic, off_base, off_lenth, off_remain, off_prev, off_next, off_link, MEM_BLOCK_HEADER_SIZE in *.

Section split.
Context (m : mem) (p : Z) (first : bool) (a : Z) (bs1 : list blk) (b : blk) (bs2 : list blk) (e lenth : Z).
Context (Ht : tiles first a (bs1 ++ b :: bs2) e) (Ha : 0 < a) (He : e < W32 - 4096).
Context (Hc : chain m p (bs1 ++ b :: bs2) 0).
Context (Hu : 32 <= b_used b) (Hl : 32 <= lenth <= b_rem b) (H8 : (8 | lenth)).

Lemma split_tiles : tiles first a (bs1 ++ blk_full b :: blk_tail b lenth :: bs2) e.
Proof using Ht Hu Hl H8.
  apply (tiles_replace _ _ _ b _ _ [blk_full b; blk_tail b lenth]); [done| |done].
  intros f' Hs. unfold blk_shape in Hs. simpl. unfold blk_shape, blk_full, blk_tail, b_end, b_used in *.
  simpl. rewrite !Z.sub_0_r. split_and!; try done; try lia.
  - tauto.
  - tauto.
  - apply Z.divide_add_r; tauto.
  - by replace (b_rem b - (b_rem b - lenth)) with lenth by lia.
Qed.

(** What the stores of a split leave in memory, word by word. *)
Lemma split_words (m' := split_block m (b_addr b) (b_addr b + b_used b + 32) lenth (b_used b)) :
  hdr m' (blk_full b) (last_addr p bs1) (b_addr b + b_used b) /\
  hdr m' (blk_tail b lenth) (b_addr b) (first_addr bs2 0) /\
  m' (b_addr b + b_used b + off_magic) = MEMORY_POOL_MAGIC /\
  (bs2 <> [] -> m' (b_end b + off_prev) = b_addr b + b_used b) /\
  forall x, ~ (b_addr b + off_lenth <= x < b_addr b + off_link) ->
    ~ (b_addr b + b_used b <= x < b_addr b + b_used b + off_link) ->
    (bs2 <> [] -> x <> b_end b + off_prev) -> m' x = m x.
Proof using Ht Ha He Hc Hu Hl.
  pose proof (tiles_cut _ _ _ _ _ _ Ht) as (Hs & Hb1 & Hb2 & [f' Ht2] & _ & _).
  destruct (chain_next _ _ _ _ _ _ Hc) as (E1 & E2 & E3 & E4 & E5).
  unfold blk_shape, b_end in *.
  assert (first_addr bs2 0 = 0 /\ bs2 = [] \/ first_addr bs2 0 = b_addr b + b_len b /\ bs2 <> []) as Hn.
  { destruct bs2 as [|c bs2']; [by left|right]. simpl in Ht2. split; [|done]. apply Ht2. }
  subst m'. unfold split_block. unfold_offsets.
  replace (b_addr b + b_used b + 32 - 32) with (b_addr b + b_used b) by lia.
  unfold b_used in *. rewrite u32_id by (unfold W32 in *; lia).
  set (n := b_addr b + (b_len b - b_rem b)) in *.
  assert (n = b_addr b + b_len b - b_rem b) as En by lia. clearbody n.
  mem_simp. rewrite E3, E5. rewrite !u32_id by (unfold W32 in *; lia).
  unfold hdr, blk_full, blk_tail, b_ptr, b_used; simpl. rewrite <- ?En. unfold_offsets.
  replace (b_addr b + (b_len b - b_rem b)) with n by lia.
  destruct Hn as [[Hn Hz]|[Hn Hz]]; rewrite Hn.
  - simpl. split_and!; mem_simp; try done; try lia. intros x X1 X2 _. mem_simp. done.
  - rewrite (proj2 (Z.eqb_neq _ _)) by lia. simpl.
    split_and!; mem_simp; try done; try lia.
    intros x X1 X2 X3. specialize (X3 Hz). mem_simp. done.
Qed.

Lemma split_magic_words (m' := split_block m (b_addr b) (b_addr b + b_used b + 32) lenth (b_used b)) c :
  c ∈ bs1 ++ b :: bs2 -> m' (b_addr c + off_magic) = m (b_addr c + off_magic).
Proof using Ht Ha He Hc Hu Hl.
  intros Hin. destruct split_words as (_ & _ & _ & _ & W5). fold m' in W5.
  pose proof (tiles_cut _ _ _ _ _ _ Ht) as (Hs & _ & _ & _ & Hl1 & Hl2). unfold blk_shape, b_end, b_used in *.
  apply elem_of_app in Hin as [Hin|[->|Hin]%elem_of_cons].
  - specialize (Hl1 c Hin). apply W5; unfold_offsets; lia.
  - apply W5; unfold_offsets; lia.
  - specialize (Hl2 c Hin). apply W5; unfold_offsets; lia.
Qed.

Lemma split_block_spec (m' := split_block m (b_addr b) (b_addr b + b_used b + 32) lenth (b_used b))
    (bs' := bs1 ++ blk_full b :: blk_tail b lenth :: bs2) :
  magics m (bs1 ++ b :: bs2) ->
  chain m' p bs' 0 /\ magics m' bs' /\ agree (off_headers bs') m m'.
Proof using Ht Ha He Hc Hu Hl.
  intros Hm. destruct split_words as (W1 & W2 & W3 & W4 & W5). fold m' in W1, W2, W3, W4, W5.
  pose proof (tiles_cut _ _ _ _ _ _ Ht) as (Hs & Hb1 & Hb2 & [f' Ht2] & Hl1 & Hl2).
  apply chain_app in Hc as [Hc1 [_ Hc2]]. unfold blk_shape, b_end, b_used in *.
  assert (keeps_hdrs m m' bs1) as Hk.
  { intros c x Hin Hx. specialize (Hl1 c Hin). apply W5; unfold_offsets; lia. }
  assert (forall c x, c ∈ bs2 -> b_addr c <= x < b_addr c + off_link ->
            x <> b_addr b + b_len b + off_prev -> m' x = m x) as Hk2.
  { intros c x Hin Hx Hn. specialize (Hl2 c Hin). apply W5; unfold_offsets; lia. }
  subst bs'. split_and!.
  - apply chain_app. split; [by apply (chain_keep m)|]. simpl. split_and!; [done..|].
    eapply chain_repred; [exact Ht2|exact Hc2|done|done].
  - unfold magics in *. apply Forall_app in Hm as [Hm1 [Hmb Hm2]%Forall_cons].
    rewrite Forall_app, !Forall_cons. split_and!; simpl.
    + by apply (magics_keep m).
    + intros _. rewrite W5 by (unfold_offsets; lia). apply Hmb. lia.
    + done.
    + rewrite Forall_forall in Hm2 |- *. intros c Hin Hr.
      specialize (Hl2 c Hin). rewrite (Hk2 c) by (try done; unfold_offsets; lia). auto.
  - intros x Hx. apply W5.
    + specialize (Hx (blk_full b) ltac:(in_list)). simpl in Hx. unfold_offsets; lia.
    + specialize (Hx (blk_tail b lenth) ltac:(in_list)). simpl in Hx. unfold b_used in Hx. lia.
    + intros Hne ->. destruct bs2 as [|c bs2']; [done|]. apply (Hx c ltac:(in_list)).
      simpl in Ht2. unfold_offsets. lia.
Qed.
End split.

(** Rewriting the header of one block in place. *)
Lemma update_block m m' p bs1 b b' bs2 z f a e :
  tiles f a (bs1 ++ b :: bs2) e -> chain m p (bs1 ++ b :: bs2) z -> magics m (bs1 ++ b :: bs2) ->
  b_addr b' = b_addr b -> hdr m' b' (last_addr p bs1) (first_addr bs2 z) ->
  (b_rem b' < b_len b' -> m' (b_addr b + off_magic) = MEMORY_POOL_MAGIC) ->
  (forall x, ~ (b_addr b <= x < b_addr b + off_link) -> m' x = m x) ->
  chain m' p (bs1 ++ b' :: bs2) z /\ magics m' (bs1 ++ b' :: bs2).
Proof.
  intros Ht Hc Hm E Hh Hg Hk. destruct (tiles_cut _ _ _ _ _ _ Ht) as (Hs & _ & _ & _ & H1 & H2).
  apply chain_app in Hc as [Hc1 [_ Hc2]]. unfold magics in Hm. rewrite Forall_app, Forall_cons in Hm.
  destruct Hm as (Hm1 & _ & Hm2). unfold blk_shape, b_end in *.
  assert (keeps_hdrs m m' bs1) as K1.
  { intros c x Hin Hx. specialize (H1 c Hin). apply Hk. unfold_offsets. lia. }
  assert (keeps_hdrs m m' bs2) as K2.
  { intros c x Hin Hx. specialize (H2 c Hin). apply Hk. unfold_offsets. lia. }
  rewrite chain_app. simpl. unfold magics. rewrite Forall_app, Forall_cons.
  change (first_addr (b' :: bs2) z) with (b_addr b'). rewrite E.
  split_and!; [by apply (chain_keep m)|done|by apply (chain_keep m)|by apply (magics_keep m)|done|by apply (magics_keep m)].
Qed.

(** Rebuilding a chain around one block when its successor is relinked to it. *)
Lemma relink_chain m m' q x f1 f2 a s s2 e z bs1 c bs2 :
  tiles f1 a bs1 s -> tiles f2 s2 bs2 e -> b_addr c = s ->
  chain m q bs1 s -> chain m x bs2 z -> magics m bs1 -> magics m bs2 ->
  hdr m' c (last_addr q bs1) (first_addr bs2 z) ->
  (b_rem c < b_len c -> m' (s + off_magic) = MEMORY_POOL_MAGIC) ->
  (bs2 <> [] -> m' (s2 + off_prev) = s) ->
  keeps_hdrs m m' bs1 ->
  (forall d y, d ∈ bs2 -> b_addr d <= y < b_addr d + off_link -> y <> s2 + off_prev -> m' y = m y) ->
  chain m' q (bs1 ++ c :: bs2) z /\ magics m' (bs1 ++ c :: bs2).
Proof.
  intros T1 T2 Ec C1 C2 M1 M2 Hc Hg Hp K1 K2. split.
  - apply chain_app. change (first_addr (c :: bs2) z) with (b_addr c). rewrite Ec.
    split; [by apply (chain_keep m)|]. simpl. split; [done|]. rewrite Ec. by eapply chain_repred.
  - unfold magics. rewrite Forall_app, Forall_cons, Ec. split_and!; [by apply (magics_keep m)|done|].
    unfold magics in M2. rewrite Forall_forall in M2 |- *. intros d Hd Hr.
    rewrite (K2 d); auto; unfold_offsets; [lia|].
    destruct bs2 as [|d0 bs2]; [set_solver|]. destruct T2 as (E0 & S0 & T2). unfold blk_shape in S0.
    apply elem_of_cons in Hd as [->|Hd]; [lia|]. destruct (tiles_bounds _ _ _ _ d T2 Hd). unfold b_end in *. lia.
Qed.

(** The block a release leaves: [b] merged into its predecessor [p]. *)
Definition blk_merge (p b : blk) : blk := Blk (b_addr p) (b_len p + b_len b) (b_rem p + b_len b).
Definition blk_unused (b : blk) : blk := Blk (b_addr b) (b_len b) (b_len b).

Lemma merge_tiles f a bs0 p b bs2 e :
  tiles f a (bs0 ++ p :: b :: bs2) e -> tiles f a (bs0 ++ blk_merge p b :: bs2) e.
Proof.
  rewrite !tiles_app. simpl. intros (T1 & _ & Sp & Eb & Sb & T2).
  unfold blk_merge, blk_shape, b_end, b_used in *; simpl in *. split_and!; try done; try lia; try tauto.
  1, 2: replace (b_len p + b_len b - (b_rem p + b_len b)) with (b_len p - b_rem p) by lia; tauto.
  by replace (b_addr p + (b_len p + b_len b)) with (b_addr b + b_len b) by lia.
Qed.

(** ** Live allocations

    What the client of a pool sees: pointers with the size it may use. *)
Definition allocs (bs : list blk) : list (Z * Z) :=
  (fun b => (b_ptr b, b_used b - MEM_BLOCK_HEADER_SIZE)) <$> filter (fun b => 0 < b_used b) bs.

Lemma elem_of_allocs p s bs :
  (p, s) ∈ allocs bs <-> exists b, b ∈ bs /\ 0 < b_used b /\ p = b_ptr b /\ s = b_used b - 32.
Proof.
  unfold allocs. rewrite list_elem_of_fmap. setoid_rewrite list_elem_of_filter. naive_solver.
Qed.

Lemma allocs_app bs1 bs2 : allocs (bs1 ++ bs2) = allocs bs1 ++ allocs bs2.
Proof. unfold allocs. by rewrite filter_app, fmap_app. Qed.
Lemma allocs_used b bs : 0 < b_used b -> allocs (b :: bs) = (b_ptr b, b_used b - 32) :: allocs bs.
Proof. intros. unfold allocs. by rewrite filter_cons_True. Qed.
Lemma allocs_unused b bs : b_used b = 0 -> allocs (b :: bs) = allocs bs.
Proof. intros. unfold allocs. rewrite filter_cons_False; [done|lia]. Qed.

(** Live allocations are aligned, inside the arena, and do not overlap. *)
Definition disjoint_allocs (L : list (Z * Z)) : Prop :=
  forall i j p s q r, L !! i = Some (p, s) -> L !! j = Some (q, r) -> i <> j -> p + s <= q \/ q + r <= p.

Lemma tiles_allocs f a bs e p s :
  tiles f a bs e -> (p, s) ∈ allocs bs -> (8 | p) /\ (8 | s) /\ 0 <= s /\ a + 32 <= p /\ p + s <= e.
Proof.
  intros Ht (b & Hb & Hu & -> & ->)%elem_of_allocs.
  pose proof (tiles_shape _ _ _ _ b Ht Hb) as (H1 & H2 & H3 & H4 & H5).
  destruct (tiles_bounds _ _ _ _ b Ht Hb). unfold b_ptr, b_end, b_used, MEM_BLOCK_HEADER_SIZE in *.
  split_and!; try lia.
  - apply Z.divide_add_r; [done|by exists 4].
  - apply Z.divide_sub_r; [done|by exists 4].
Qed.

Lemma tiles_allocs_disjoint f a bs e : tiles f a bs e -> disjoint_allocs (allocs bs).
Proof.
  intros Ht i j p s q r Hi Hj Hne.
  assert (NoDup (filter (fun b => 0 < b_used b) bs)) as Hnd by (by eapply NoDup_filter, tiles_NoDup).
  unfold allocs in Hi, Hj. rewrite list_lookup_fmap in Hi, Hj.
  apply fmap_Some in Hi as (b & Hi & E1). apply fmap_Some in Hj as (c & Hj & E2). simplify_eq.
  assert (b <> c) as Hbc by (intros ->; apply Hne; by eapply NoDup_lookup).
  apply list_elem_of_lookup_2, list_elem_of_filter in Hi as [Ub Hb].
  apply list_elem_of_lookup_2, list_elem_of_filter in Hj as [Uc Hc].
  destruct (tiles_shape _ _ _ _ b Ht Hb) as (_ & _ & ? & _).
  destruct (tiles_shape _ _ _ _ c Ht Hc) as (_ & _ & ? & _).
  destruct (tiles_disjoint _ _ _ _ b c Ht Hb Hc) as [|Hd]; [done|].
  unfold b_ptr, b_used, b_end, MEM_BLOCK_HEADER_SIZE in *. lia.
Qed.

(** A payload contains no header of any block. *)
Lemma payload_off_headers f a bs e p s x :
  tiles f a bs e -> (p, s) ∈ allocs bs -> p <= x < p + s ->
  a <= x < e /\ forall c, c ∈ bs -> ~ (b_addr c <= x < b_addr c + 32).
Proof.
  intros Ht Hp Hx. pose proof (tiles_allocs _ _ _ _ _ _ Ht Hp). split; [lia|]. intros c Hc Hcx.
  apply elem_of_allocs in Hp as (b & Hb & Hu & -> & ->).
  destruct (tiles_shape _ _ _ _ b Ht Hb) as (_ & _ & ? & ? & _).
  destruct (tiles_shape _ _ _ _ c Ht Hc) as (_ & _ & ? & ? & _).
  unfold b_ptr, b_used, b_end, MEM_BLOCK_HEADER_SIZE in *.
  destruct (tiles_disjoint _ _ _ _ b c Ht Hb Hc) as [->|Hd]; unfold b_end in *; lia.
Qed.

(** When nothing is live the arena is one unused block: releases coalesce. *)
Lemma tiles_all_free f a bs e : tiles f a bs e -> bs <> [] -> allocs bs = [] -> bs = [Blk a (e - a) (e - a)].
Proof.
  intros Ht Hne Hal. assert (forall b, b ∈ bs -> b_used b <= 0) as Hu.
  { intros b Hb. destruct (Z.lt_ge_cases 0 (b_used b)); [|done].
    assert ((b_ptr b, b_used b - 32) ∈ allocs bs) as Hin by (apply elem_of_allocs; eauto).
    rewrite Hal in Hin. set_solver. }
  destruct bs as [|b [|c bs]]; [done|..].
  - destruct Ht as (Ea & Hs & He). simpl in He. specialize (Hu b ltac:(in_list)).
    unfold blk_shape, b_used, b_end in *. destruct b; simpl in *. repeat f_equal; lia.
  - destruct Ht as (_ & _ & _ & (_ & _ & _ & _ & [?|[? _]]) & _); [|done]. specialize (Hu c ltac:(in_list)). lia.
Qed.

(** Allocating and releasing on the abstract side. *)
Lemma allocs_split bs1 b bs2 t :
  0 < b_used b -> 0 < t -> b_rem b <= b_len b ->
  allocs (bs1 ++ blk_full b :: blk_tail b t :: bs2) ≡ₚ
  (b_addr b + b_used b + 32, t - 32) :: allocs (bs1 ++ b :: bs2).
Proof.
  intros Hu Ht Hr.
  assert (b_used (blk_full b) = b_used b) as E1 by (unfold blk_full, b_used; simpl; lia).
  assert (b_used (blk_tail b t) = t) as E2 by (unfold blk_tail, b_used; simpl; lia).
  rewrite !allocs_app, (allocs_used b), (allocs_used (blk_full b)), (allocs_used (blk_tail b t)), E1, E2 by lia.
  change (b_ptr (blk_full b)) with (b_ptr b). change (b_ptr (blk_tail b t)) with (b_addr b + b_used b + 32).
  rewrite (Permutation_middle (allocs bs1)). apply Permutation_app_head, Permutation_swap.
Qed.
Lemma allocs_merge bs0 p b bs2 :
  0 < b_used b ->
  (b_ptr b, b_used b - 32) :: allocs (bs0 ++ blk_merge p b :: bs2) ≡ₚ allocs (bs0 ++ p :: b :: bs2).
Proof.
  intros Hu. rewrite !allocs_app, Permutation_middle. apply Permutation_app_head.
  assert (b_used (blk_merge p b) = b_used p) as E by (unfold b_used, blk_merge; simpl; lia).
  destruct (decide (0 < b_used p)).
  - rewrite (allocs_used p), (allocs_used (blk_merge p b)), (allocs_used b) by lia. rewrite E. apply Permutation_swap.
  - unfold allocs. rewrite !filter_cons. rewrite !(decide_False (P := 0 < b_used p)), E, decide_False by done.
    by rewrite decide_True.
Qed.

(** ** The pool descriptor *)

(** The descriptor words and the place of the arena. *)
Record pool_frame (m : mem) (info a e : Z) : Prop := {
  pf_base : m (info + info_base) = a;
  pf_lenth : m (info + info_lenth) = e - a;
  pf_mem : m (info + info_mem) = a;
  pf_arena : 0 < a /\ e < W32 - 4096;
  pf_info : 0 < info /\ info + info_size <= W32 - 4096 /\ (info + info_size <= a \/ e <= info);
}.

(** Cells the allocator writes: the pool descriptor up to its function pointers,
    and the block headers. *)
Definition owned (info : Z) (bs : list blk) (x : Z) : Prop :=
  info <= x < info + info_alloc \/ exists b, b ∈ bs /\ b_addr b <= x < b_addr b + MEM_BLOCK_HEADER_SIZE.

(** What creating a pool leaves: the function pointers, and every cell outside
    the descriptor and the first header as it was. *)
Definition created (fa ff : Z) (m m' : mem) (info a : Z) : Prop :=
  m' (info + info_alloc) = fa /\ m' (info + info_free) = ff /\
  agree (fun x => ~ (info <= x < info + info_size) /\ ~ (a <= x < a + MEM_BLOCK_HEADER_SIZE)) m m'.

Lemma next_valid f s bs e :
  tiles f s bs e -> 0 < s -> e < W32 - 4096 ->
  (bs = [] /\ first_addr bs 0 = 0) \/ (bs <> [] /\ first_addr bs 0 = s /\ isValid (first_addr bs 0) = true).
Proof.
  destruct bs as [|c bs]; [by left|right]. destruct H as (Ec & Hs & Ht). unfold first_addr; simpl.
  split_and!; [done..|]. apply isValid_true. apply tiles_le in Ht. unfold blk_shape, b_end in *. lia.
Qed.

(** ** Requests *)

(** The blocks left after cutting [t] bytes from [b]. *)
Definition alloc_blks (b : blk) (t : Z) : list blk :=
  if b_used b =? 0 then [Blk (b_addr b) (b_len b) (b_rem b - t)] else [blk_full b; blk_tail b t].

Lemma allocs_alloc bs1 b bs2 t :
  blk_shape true b -> 32 <= t ->
  allocs (bs1 ++ alloc_blks b t ++ bs2) ≡ₚ (b_addr b + b_used b + 32, t - 32) :: allocs (bs1 ++ b :: bs2).
Proof.
  intros Hs Ht. unfold blk_shape in Hs. unfold alloc_blks. destruct (Z.eqb_spec (b_used b) 0) as [Hu|Hu].
  - simpl. rewrite !allocs_app, (allocs_unused b), allocs_used by (unfold b_used in *; simpl; lia).
    rewrite <- Permutation_middle. unfold b_ptr, b_used, MEM_BLOCK_HEADER_SIZE in *. simpl. do 2 f_equiv; lia.
  - simpl. apply allocs_split; lia.
Qed.

Lemma align8_request size :
  0 <= size <= W32 - 40 ->
  u32 (mrt_num_align8 size + MEM_BLOCK_HEADER_SIZE) = mrt_num_align8 size + 32 /\
  (8 | mrt_num_align8 size + 32) /\ 32 <= mrt_num_align8 size + 32.
Proof.
  intros Hs. destruct (align8_spec size) as [Hr Hd]; [unfold W32 in *; lia|]. unfold MEM_BLOCK_HEADER_SIZE.
  split_and!; [|apply Z.divide_add_r; [done|by exists 4]|lia].
  apply u32_id. destruct Hd as [k Hk]. unfold W32 in *. lia.
Qed.

(** The store into the successor of a released block. *)
Lemma next_store m f s bs e v (m' := if isValid (first_addr bs 0) then st m (first_addr bs 0 + off_prev) v else m) :
  tiles f s bs e -> 0 < s -> e < W32 - 4096 ->
  (bs <> [] -> m' (s + off_prev) = v) /\ forall x, (bs <> [] -> x <> s + off_prev) -> m' x = m x.
Proof.
  intros Ht H0 He. subst m'. destruct (next_valid _ _ _ _ Ht H0 He) as [[-> ->]|(Hn & -> & Hv)].
  - done.
  - rewrite Hv. split; [intros _; apply st_eq|]. intros x Hx. apply st_ne. auto.
Qed.
