(* ===== verification/MemOps.v ===== *)
(** * Copying and comparing memory (include/common/mem_manage.h, common/mempool/mem_malloc.c)

    The loops of [kmemcpy] and [kmemcmp] run while the source pointer is below
    [src + size], computed in 32 bits: a range that wraps is empty. *)

From stdpp Require Import prelude gmap fin_maps sorting.
From S2P Require Import Prelude Mem MemPool.

Definition copy_count (src size : Z) : nat := Z.to_nat (u32 (src + size) - src).

Fixpoint kmemcpy_loop (n : nat) (m : mem) (s1_addr s2_addr : Z) : mem * Z :=
  match n with
  | O => (m, s1_addr)
  | S n => kmemcpy_loop n (st m s1_addr (m s2_addr)) (s1_addr + 1) (s2_addr + 1)
  end.
(** The result is the end of the copy, not its start. *)
Definition kmemcpy (m : mem) (dest src size : Z) : mem * Z :=
  if (dest =? 0) || (src =? 0) then (m, nullptr)
  else kmemcpy_loop (copy_count src size) m dest src.

Fixpoint kmemcmp_loop (n : nat) (m : mem) (s1_addr s2_addr : Z) : Z :=
  match n with
  | O => 0
  | S n => if negb (m s1_addr =? m s2_addr) then 1 else kmemcmp_loop n m (s1_addr + 1) (s2_addr + 1)
  end.
Definition kmemcmp (m : mem) (s1 s2 size : Z) : Z := kmemcmp_loop (copy_count s2 size) m s1 s2.

Definition u32_set2u8 (m : mem) (addr val : Z) : mem := fst (kmemcpy m addr val 4).
Definition u16_set2u8 (m : mem) (addr val : Z) : mem := let m := st m addr (m val) in st m (addr + 1) (m (val + 1)).

Definition memset (m : mem) (__s __c __n : Z) : mem * Z := (kmemset m __s (u8 __c) __n, __s).
Definition memcmp (m : mem) (__s1 __s2 __n : Z) : Z := kmemcmp m __s1 __s2 __n.
Definition memcpy (m : mem) (__dest __src __n : Z) : mem * Z := kmemcpy m __dest __src __n.

Lemma copy_count_fits src size : 0 <= src -> 0 <= size -> src + size < W32 -> copy_count src size = Z.to_nat size.
Proof. intros. unfold copy_count. rewrite u32_id by lia. f_equal. lia. Qed.

(** A forward copy reads each source cell before it overwrites it, unless the
    destination starts inside the source. *)
Lemma kmemcpy_loop_spec n m d s : d <= s \/ s + Z.of_nat n <= d ->
  exists m', kmemcpy_loop n m d s = (m', d + Z.of_nat n) /\
    (forall i, 0 <= i < Z.of_nat n -> m' (d + i) = m (s + i)) /\ agree (fun x => ~ (d <= x < d + Z.of_nat n)) m m'.
Proof.
  revert m d s. induction n as [|n IH]; intros m d s Hd; cbn [kmemcpy_loop].
  - exists m. split_and!; [f_equal; lia|lia|done].
  - destruct (IH (st m d (m s)) (d + 1) (s + 1)) as (m' & -> & Hc & Ha); [lia|]. exists m'. split_and!; [f_equal; lia|..].
    + intros i Hi. destruct (decide (i = 0)) as [->|Hne].
      * rewrite Ha by lia. rewrite !Z.add_0_r, st_eq. done.
      * replace (d + i) with (d + 1 + (i - 1)) by lia. rewrite Hc by lia. rewrite st_ne by lia. f_equal. lia.
    + intros x Hx. rewrite Ha by lia. rewrite st_ne by lia. done.
Qed.
Lemma kmemcmp_loop_spec n m p q : 
  (kmemcmp_loop n m p q = 0 /\ forall i, 0 <= i < Z.of_nat n -> m (p + i) = m (q + i)) \/
  (kmemcmp_loop n m p q = 1 /\ exists i, 0 <= i < Z.of_nat n /\ m (p + i) <> m (q + i)).
Proof.
  revert p q. induction n as [|n IH]; intros p q; cbn [kmemcmp_loop]; [left; split; [done|lia]|].
  destruct (Z.eqb_spec (m p) (m q)) as [E|E]; cbn [negb].
  - destruct (IH (p + 1) (q + 1)) as [[-> H]|(-> & i & Hi & H)]; [left|right]; (split; [done|]).
    + intros i Hi. destruct (decide (i = 0)) as [->|]; [by rewrite !Z.add_0_r|]. replace (p + i) with (p + 1 + (i - 1)) by lia.
      rewrite H by lia. f_equal. lia.
    + exists (i + 1). split; [lia|]. replace (p + (i + 1)) with (p + 1 + i) by lia. by replace (q + (i + 1)) with (q + 1 + i) by lia.
  - right. split; [done|]. exists 0. rewrite !Z.add_0_r. split; [lia|done].
Qed.

(** [memcpy] copies the source bytes whenever the destination does not start
    inside them, changes nothing else and returns the end of the destination;
    [memcmp] is 0 exactly on equal ranges, so it is 0 after a copy between
    ranges that do not overlap. *)
Theorem memory_routines_correct m dest src size :
  0 < dest -> 0 < src -> 0 <= size -> src + size < W32 -> dest <= src \/ src + size <= dest ->
  exists m', memcpy m dest src size = (m', dest + size) /\
    (forall i, 0 <= i < size -> m' (dest + i) = m (src + i)) /\ agree (fun x => ~ (dest <= x < dest + size)) m m' /\
    (memcmp m dest src size = 0 <-> forall i, 0 <= i < size -> m (dest + i) = m (src + i)) /\
    (dest + size <= src \/ src + size <= dest -> memcmp m' dest src size = 0).
Proof.
  intros Hd Hs Hn Hw Ho. unfold memcpy, kmemcpy, memcmp, kmemcmp. rewrite (proj2 (Z.eqb_neq dest 0)), (proj2 (Z.eqb_neq src 0)) by lia. cbn [orb].
  rewrite copy_count_fits by lia.
  destruct (kmemcpy_loop_spec (Z.to_nat size) m dest src) as (m' & -> & Hc & Ha); [lia|]. rewrite Z2Nat.id in * by lia.
  exists m'. split_and!; try done.
  - pose proof (kmemcmp_loop_spec (Z.to_nat size) m dest src) as H. rewrite Z2Nat.id in H by lia.
    destruct H as [[-> H]|(-> & i & Hi & H)]; split; try done. intros Hall. by specialize (Hall i Hi).
  - intros Hap. pose proof (kmemcmp_loop_spec (Z.to_nat size) m' dest src) as H. rewrite Z2Nat.id in H by lia.
    destruct H as [[-> _]|(_ & i & Hi & H)]; [done|]. destruct H. rewrite Hc by done. symmetry. apply Ha. lia.
Qed.
Lemma memory_routines_correct_witness : exists m', memcpy (fun x => x) 100 200 50 = (m', 150) /\ memcmp m' 100 200 50 = 0.
Proof.
  destruct (memory_routines_correct (fun x => x) 100 200 50) as (m' & E & _ & _ & _ & Hc); [unfold W32; lia..|]. exists m'. split; [exact E|]. apply Hc. lia.
Defined.
