(* ===== verification/MemBlock.v ===== *)
(** * The segregated-list allocator (common/mempool/mem_block.c)

    Free space is indexed by fourteen lists of blocks, bucket [i] holding the
    blocks whose unused tail has [i] as the position of its top bit (everything
    below 32 bytes in bucket 4, everything from 8 KiB up in bucket 13).
    Allocation takes the first block of the first bucket that fits and cuts the
    request from that block's unused tail; freeing merges a block into its
    predecessor.

    [pool_inv] ties the memory to the abstract blocks: they tile the arena, the
    headers in memory describe them, and every bucket list holds exactly the
    blocks with unused space of its class, in address order.  The theorems show
    that creation establishes it, that allocation and release preserve it and
    refine a set of live allocations, that payloads are never touched, and that
    the search is complete: null is returned only when no block fits. *)

From stdpp Require Import prelude gmap fin_maps sorting.
From S2P Require Import Prelude Mem ListHead MemPool.

(** ** The code *)

(** [while (!(total_size & (1U << index))) index--;] from [index = n - 1];
    a count below zero is an undefined shift. *)
Fixpoint top_bit_down (total_size : Z) (n : nat) : res nat :=
  match n with
  | O => Fault
  | S index => if negb (Z.land total_size (Z.shiftl 1 (Z.of_nat index)) =? 0) then Ok index
               else top_bit_down total_size index
  end.

Definition memory_block_get_hash (sprt_info total_size : Z) : res Z :=
  if NR_MEM_HighLimit <=? total_size then Ok (info_hash sprt_info NR_MEM_HighBytes)
  else if total_size <? NR_MEM_LowerLimit then Ok (info_hash sprt_info NR_MEM_LowerBytes)
  else index ← top_bit_down total_size (S NR_MEM_HighBytes);
       Ok (info_hash sprt_info index).

Definition memory_block_attach (fuel : nat) (m : mem) (sprt_info sprt_hash sprt_block : Z) : res mem :=
  if m (sprt_block + off_remain) =? 0 then Ok m
  else
    sprt_hash ← (if sprt_hash =? 0
                 then memory_block_get_hash sprt_info (m (sprt_block + off_remain))
                 else Ok sprt_hash);
    let m := init_list_head m (sprt_block + off_link) in
    if mrt_list_head_empty m sprt_hash
    then Ok (list_head_add_head m sprt_hash (sprt_block + off_link))
    else
      sprt_per ← foreach_list_next_entry fuel m sprt_hash (fun pos => sprt_block <? pos - off_link);
      match sprt_per with
      | Some pos => Ok (list_head_add_tail m pos (sprt_block + off_link))
      | None => Ok (list_head_add_tail m sprt_hash (sprt_block + off_link))
      end.

Definition memory_block_detach (m : mem) (sprt_block : Z) : mem :=
  list_head_del m (sprt_block + off_link).

Section create.
(** Addresses of the two functions stored in the pool's operation table. *)
Context (alloc_spare_memory_addr free_employ_memory_addr : Z).

Definition memory_block_create (fuel : nat) (m : mem) (sprt_info mem_addr size : Z) : res (mem * Z) :=
  let header_size := MEM_BLOCK_HEADER_SIZE in
  if negb (isValid sprt_info) || (size <=? header_size) then Ok (m, - ER_UNVALID)
  else if isValid (m (sprt_info + info_mem)) then Ok (m, - ER_UNVALID)
  else
    let m := st m (sprt_info + info_base) (mrt_num_align8 mem_addr) in
    let m := st m (sprt_info + info_lenth) (u32 (size - u32 (m (sprt_info + info_base) - mem_addr))) in
    let sprt_block := m (sprt_info + info_base) in
    let m := st m (sprt_block + off_base) (u32 (m (sprt_info + info_base) + header_size)) in
    let m := st m (sprt_block + off_lenth) (m (sprt_info + info_lenth)) in
    let m := st m (sprt_block + off_remain) (m (sprt_info + info_lenth)) in
    let m := st m (sprt_block + off_prev) nullptr in
    let m := st m (sprt_block + off_next) nullptr in
    let m := st m (sprt_block + off_magic) MEMORY_POOL_MAGIC in
    let m := st m (sprt_info + info_mem) sprt_block in
    let m := foldl (fun m index => init_list_head m (info_hash sprt_info index)) m (seq 0 NR_MEM_NUM) in
    let m := st m (sprt_info + info_alloc) alloc_spare_memory_addr in
    let m := st m (sprt_info + info_free) free_employ_memory_addr in
    m ← memory_block_attach fuel m sprt_info nullptr sprt_block;
    Ok (m, ER_NORMAL).
End create.

Definition memory_block_destroy (m : mem) (sprt_info : Z) : mem :=
  if negb (isValid sprt_info) then m
  else
    let m := kmemzero m (m (sprt_info + info_base)) (m (sprt_info + info_lenth)) in
    kmemzero m sprt_info info_size.

(** Returns the block address, or null. *)
Definition __memory_block_get_avaliable (fuel : nat) (m : mem) (sprt_info : Z) (index : nat)
    (total_size : Z) : res Z :=
  found ← foreach_list_next_entry fuel m (info_hash sprt_info index)
            (fun pos => total_size <=? m (pos - off_link + off_remain));
  match found with
  | Some pos => Ok (pos - off_link)
  | None => Ok nullptr
  end.

(** [while (index < NR_MEM_NUM)]; [n] buckets are left. *)
Fixpoint get_avaliable_from (fuel : nat) (m : mem) (sprt_info : Z) (index n : nat) (total_size : Z) : res Z :=
  match n with
  | O => Ok nullptr
  | S n =>
      sprt_block ← __memory_block_get_avaliable fuel m sprt_info index total_size;
      if negb (sprt_block =? 0) then Ok sprt_block
      else get_avaliable_from fuel m sprt_info (S index) n total_size
  end.

Definition memory_block_get_avaliable (fuel : nat) (m : mem) (sprt_info total_size : Z) : res Z :=
  if NR_MEM_HighLimit <=? total_size
  then __memory_block_get_avaliable fuel m sprt_info NR_MEM_HighBytes total_size
  else
    let search total_size :=
      index ← top_bit_down total_size (S NR_MEM_HighBytes);
      get_avaliable_from fuel m sprt_info index (NR_MEM_NUM - index) total_size in
    if total_size <? NR_MEM_LowerLimit then
      sprt_block ← __memory_block_get_avaliable fuel m sprt_info NR_MEM_LowerBytes total_size;
      if negb (sprt_block =? 0) then Ok sprt_block else search NR_MEM_LowerLimit
    else search total_size.

(** The second half of [alloc_spare_memory]: cut [lenth] bytes from the unused
    tail of [sprt_block]. *)
Definition alloc_from_block (fuel : nat) (m : mem) (sprt_info sprt_block lenth : Z) : res (mem * Z) :=
  let header_size := MEM_BLOCK_HEADER_SIZE in
  let m := memory_block_detach m sprt_block in
  let offset := u32 (m (sprt_block + off_lenth) - m (sprt_block + off_remain)) in
  let ptr_mem := u32 (m (sprt_block + off_base) + offset) in
  m ← (if negb (m (sprt_block + off_lenth) =? m (sprt_block + off_remain)) then
         let m := split_block m sprt_block ptr_mem lenth offset in
         memory_block_attach fuel m sprt_info nullptr (u32 (ptr_mem - header_size))
       else
         let m := st m (sprt_block + off_magic) MEMORY_POOL_MAGIC in
         Ok (st m (sprt_block + off_remain) (u32 (m (sprt_block + off_remain) - lenth))));
  m ← memory_block_attach fuel m sprt_info nullptr sprt_block;
  Ok (m, ptr_mem).

Definition alloc_spare_memory (fuel : nat) (m : mem) (sprt_info size : Z) : res (mem * Z) :=
  if negb (isValid sprt_info) || (m (sprt_info + info_mem) =? 0) then Ok (m, nullptr)
  else
    let header_size := MEM_BLOCK_HEADER_SIZE in
    let lenth := u32 (mrt_num_align8 size + header_size) in
    sprt_block ← memory_block_get_avaliable fuel m sprt_info lenth;
    if sprt_block =? 0 then Ok (m, nullptr)
    else alloc_from_block fuel m sprt_info sprt_block lenth.

Definition check_employ_memory (m : mem) (ptr_head ptr_mem : Z) : Z :=
  let sprt_block := u32 (ptr_mem - MEM_BLOCK_HEADER_SIZE) in
  if negb (isValid sprt_block) || negb (IS_MEMORYPOOL_VALID m sprt_block) then nullptr
  else if negb (m (sprt_block + off_base) =? ptr_mem) then nullptr
  else sprt_block.

(** The second half of [free_employ_memory] up to the final attach: mark the
    block unused, merge it into its predecessor and relink its successor.
    Returns the block to attach. *)
Definition free_block (m : mem) (sprt_block : Z) : mem * Z :=
  let m := st m (sprt_block + off_magic) 0 in
  let sprt_prev := m (sprt_block + off_prev) in
  let sprt_next := m (sprt_block + off_next) in
  let m := st m (sprt_block + off_remain) (m (sprt_block + off_lenth)) in
  let m := memory_block_detach m sprt_block in
  let '(m, sprt_block) :=
    if isValid sprt_prev then
      let m := st m (sprt_prev + off_lenth) (u32 (m (sprt_prev + off_lenth) + m (sprt_block + off_lenth))) in
      let m := st m (sprt_prev + off_remain) (u32 (m (sprt_prev + off_remain) + m (sprt_block + off_remain))) in
      let m := st m (sprt_prev + off_next) sprt_next in
      let m := st m (sprt_block + off_prev) nullptr in
      (memory_block_detach m sprt_prev, sprt_prev)
    else (m, sprt_block) in
  (if isValid sprt_next then st m (sprt_next + off_prev) sprt_block else m, sprt_block).

Definition free_employ_memory (fuel : nat) (m : mem) (sprt_info ptr_mem : Z) : res mem :=
  if negb (isValid ptr_mem) then Ok m
  else
    let sprt_block := check_employ_memory m (m (sprt_info + info_mem)) ptr_mem in
    if sprt_block =? 0 then Ok m
    else
      let '(m, sprt_block) := free_block m sprt_block in
      memory_block_attach fuel m sprt_info nullptr sprt_block.

(** ** Bucket lists of a tiling *)
Definition bucket (r : Z) : nat :=
  if NR_MEM_HighLimit <=? r then NR_MEM_HighBytes
  else if r <? NR_MEM_LowerLimit then NR_MEM_LowerBytes
  else Z.to_nat (Z.log2 r).
Definition in_bucket (i : nat) (b : blk) : Prop := 0 < b_rem b /\ bucket (b_rem b) = i.
#[export] Instance in_bucket_dec i b : Decision (in_bucket i b).
Proof. unfold in_bucket. apply _. Defined.

Definition bucket_list (i : nat) (bs : list blk) : list Z := b_link <$> filter (in_bucket i) bs.
Definition bucket_entry (info : Z) (bs : list blk) (i : nat) : Z * list Z :=
  (info_hash info i, bucket_list i bs).
Definition entries (info : Z) (bs : list blk) : list (Z * list Z) := bucket_entry info bs <$> seq 0 NR_MEM_NUM.
Definition selfs (D : list Z) : list (Z * list Z) := (fun n => (n, [])) <$> D.

(** The bucket lists hold exactly the blocks of [bs] with unused space; the
    nodes of [D] are linked to themselves. *)
Definition lists (m : mem) (info : Z) (bs : list blk) (D : list Z) : Prop :=
  dlists m (entries info bs ++ selfs D).

Lemma top_bit_down_spec t n : 0 < t < 2 ^ Z.of_nat n -> top_bit_down t n = Ok (Z.to_nat (Z.log2 t)).
Proof.
  induction n as [|n IH]; [simpl; lia|]. intros Ht. simpl.
  rewrite Z.shiftl_1_l. destruct (Z.ltb_spec t (2 ^ Z.of_nat n)) as [Hlt|Hge].
  - assert (Z.land t (2 ^ Z.of_nat n) = 0) as ->.
    { apply Z.bits_inj'. intros k Hk. rewrite Z.land_spec, Z.bits_0, Z.pow2_bits_eqb by lia.
      destruct (Z.eqb_spec (Z.of_nat n) k) as [<-|]; [|apply andb_false_r].
      rewrite Z.bits_above_log2; [done|lia|]. apply Z.log2_lt_pow2; lia. }
    simpl. apply IH. lia.
  - assert (Z.log2 t = Z.of_nat n) as El by (apply Z.log2_unique; lia).
    rewrite (proj2 (Z.eqb_neq _ _)); [simpl; by rewrite El, Nat2Z.id|].
    intros E. assert (Z.testbit (Z.land t (2 ^ Z.of_nat n)) (Z.of_nat n) = false) as Hb
      by (rewrite E; apply Z.bits_0).
    rewrite Z.land_spec, Z.pow2_bits_true, andb_true_r, <- El in Hb by lia.
    rewrite Z.bit_log2 in Hb; [done|lia].
Qed.

Lemma bucket_lt r : (bucket r < NR_MEM_NUM)%nat.
Proof.
  unfold bucket, NR_MEM_NUM, NR_MEM_HighBytes, NR_MEM_LowerBytes, NR_MEM_HighLimit, NR_MEM_LowerLimit.
  case_test; [lia|]. case_test; [lia|].
  assert (Z.log2 r < 13) by (apply Z.log2_lt_pow2; lia). lia.
Qed.

Lemma memory_block_get_hash_spec info r :
  0 < r -> memory_block_get_hash info r = Ok (info_hash info (bucket r)).
Proof.
  intros Hr. unfold memory_block_get_hash, bucket, NR_MEM_HighLimit, NR_MEM_LowerLimit.
  case_test; [done|]. case_test; [done|]. rewrite top_bit_down_spec; [done|].
  unfold NR_MEM_HighBytes. change (2 ^ Z.of_nat 14) with 16384. lia.
Qed.

(** *** One bucket singled out *)
Definition others (i : nat) (info : Z) (bs : list blk) : list (Z * list Z) :=
  bucket_entry info bs <$> filter (fun j => j <> i) (seq 0 NR_MEM_NUM).

Lemma entries_split info bs i :
  (i < NR_MEM_NUM)%nat -> entries info bs ≡ₚ bucket_entry info bs i :: others i info bs.
Proof.
  intros Hi. unfold entries, others. change (bucket_entry info bs i :: ?l) with ([bucket_entry info bs i] ++ l).
  assert (i ∈ seq 0 NR_MEM_NUM) as Hin by (apply elem_of_seq; lia).
  pose proof (NoDup_seq 0 NR_MEM_NUM) as Hnd.
  apply elem_of_split_list in Hin as (l1 & l2 & E). rewrite E in Hnd |- *.
  rewrite (filter_ne_split l1 l2 i Hnd), !fmap_app, fmap_cons. by rewrite <- Permutation_middle.
Qed.

Lemma bucket_list_app i bs1 bs2 : bucket_list i (bs1 ++ bs2) = bucket_list i bs1 ++ bucket_list i bs2.
Proof. unfold bucket_list. by rewrite filter_app, fmap_app. Qed.
Lemma bucket_list_cons_in i b bs :
  in_bucket i b -> bucket_list i (b :: bs) = b_link b :: bucket_list i bs.
Proof. intros. unfold bucket_list. by rewrite filter_cons_True. Qed.
Lemma bucket_list_cons_out i b bs :
  ~ in_bucket i b -> bucket_list i (b :: bs) = bucket_list i bs.
Proof. intros. unfold bucket_list. by rewrite filter_cons_False. Qed.
Lemma elem_of_bucket_list n i bs : n ∈ bucket_list i bs <-> exists b, b ∈ bs /\ in_bucket i b /\ n = b_link b.
Proof.
  unfold bucket_list. rewrite list_elem_of_fmap. setoid_rewrite list_elem_of_filter. naive_solver.
Qed.

Lemma others_middle info bs1 b bs2 :
  others (bucket (b_rem b)) info (bs1 ++ b :: bs2) = others (bucket (b_rem b)) info (bs1 ++ bs2).
Proof.
  unfold others. apply list_fmap_ext. intros k j Hj. unfold bucket_entry. f_equal.
  rewrite !bucket_list_app. f_equal. apply bucket_list_cons_out. intros [_ E].
  apply list_elem_of_lookup_2, list_elem_of_filter in Hj as [Hj _]. done.
Qed.

(** A block without unused space is in no bucket. *)
Lemma entries_full info bs1 b bs2 :
  b_rem b = 0 -> entries info (bs1 ++ b :: bs2) = entries info (bs1 ++ bs2).
Proof.
  intros Hr. unfold entries. apply list_fmap_ext. intros k j _. unfold bucket_entry. f_equal.
  rewrite !bucket_list_app. f_equal. apply bucket_list_cons_out. intros [? _]. lia.
Qed.

Lemma lists_split m info bs1 bs2 D i :
  (i < NR_MEM_NUM)%nat ->
  lists m info (bs1 ++ bs2) D <->
  dlists m ((info_hash info i, bucket_list i bs1 ++ bucket_list i bs2)
            :: others i info (bs1 ++ bs2) ++ selfs D).
Proof.
  intros Hi. unfold lists. rewrite (entries_split info _ i Hi). simpl. unfold bucket_entry at 1.
  by rewrite bucket_list_app.
Qed.

Lemma elem_of_lists_nodes n info bs D :
  n ∈ nodes (entries info bs ++ selfs D) <->
  (exists i, (i < NR_MEM_NUM)%nat /\ n = info_hash info i) \/
  (exists b, b ∈ bs /\ 0 < b_rem b /\ n = b_link b) \/ n ∈ D.
Proof.
  rewrite elem_of_nodes. setoid_rewrite elem_of_app. unfold entries, selfs. setoid_rewrite list_elem_of_fmap.
  split.
  - intros ([h xs] & [(i & Ei & Hi)|(k & Ek & Hk)] & Hn); unfold bucket_entry in *; simplify_eq; simpl in Hn.
    + apply elem_of_seq in Hi. apply elem_of_cons in Hn as [->|Hn]; [left; exists i; split; [lia|done]|].
      apply elem_of_bucket_list in Hn as (b & Hb & [Hr _] & ->). right; left; eauto.
    + apply list_elem_of_singleton in Hn as ->. auto.
  - intros [(i & Hi & ->)|[(b & Hb & Hr & ->)|Hn]].
    + exists (bucket_entry info bs i). split; [left; exists i; split; [done|apply elem_of_seq; lia]|].
      apply list_elem_of_here.
    + exists (bucket_entry info bs (bucket (b_rem b))). split.
      * left. eexists; split; [done|]. apply elem_of_seq. pose proof (bucket_lt (b_rem b)). lia.
      * apply list_elem_of_further, elem_of_bucket_list. exists b. done.
    + exists (n, []). split; [right; eauto|apply list_elem_of_here].
Qed.

(** ** Attaching and detaching

    [LU] is the set of link nodes of the arena. *)
Definition link_cell (info : Z) (LU : Z -> Prop) (x : Z) : Prop :=
  info + 12 <= x < info + info_alloc \/ exists n, LU n /\ (x = n \/ x = n + 4).

Lemma link_cell_mono info (P Q : Z -> Prop) x :
  (forall n, P n -> Q n) -> link_cell info P x -> link_cell info Q x.
Proof. intros H [Hx|(n & Hn & Hx)]; [by left|right]. eauto. Qed.

Section links.
Context (info : Z) (LU : Z -> Prop).
Context (Hap : forall n k, LU n -> LU k -> n = k \/ apart n k).
Context (Hhash : forall i n, (i < NR_MEM_NUM)%nat -> LU n -> apart n (info_hash info i)).

Lemma node_cells bs D n x :
  (forall b, b ∈ bs -> LU (b_link b)) -> (forall k, k ∈ D -> LU k) ->
  n ∈ nodes (entries info bs ++ selfs D) -> x = n \/ x = n + 4 -> link_cell info LU x.
Proof using.
  intros Hb HD Hn Hx. apply elem_of_lists_nodes in Hn as [(i & Hi & ->)|[(b & Hin & _ & ->)|Hn]].
  - left. unfold info_hash, info_alloc, NR_MEM_NUM in *. lia.
  - right. exists (b_link b). auto.
  - right. exists n. auto.
Qed.

(** Stores outside the link cells keep the lists. *)
Lemma lists_frame m m' bs D :
  (forall b, b ∈ bs -> LU (b_link b)) -> (forall k, k ∈ D -> LU k) ->
  agree (link_cell info LU) m m' -> lists m info bs D -> lists m' info bs D.
Proof using.
  intros Hb HD Ha. apply dlists_agree. intros n Hn.
  split; apply Ha; eapply node_cells; eauto.
Qed.

Lemma changes_link_cells m m' bs D ns :
  (forall b, b ∈ bs -> LU (b_link b)) -> (forall k, k ∈ D -> LU k) ->
  (forall n, n ∈ ns -> n ∈ nodes (entries info bs ++ selfs D)) ->
  changes_only ns m m' -> agree (fun x => ~ link_cell info LU x) m m'.
Proof using.
  intros Hb HD Hns Hc x Hx. apply Hc. intros n Hn.
  split; intros ->; apply Hx; eapply node_cells; eauto.
Qed.

Lemma lists_fresh n bs D :
  (forall b, b ∈ bs -> LU (b_link b)) -> (forall k, k ∈ D -> LU k) -> LU n ->
  (forall b, b ∈ bs -> b_link b <> n) -> n ∉ D ->
  Forall (apart n) (nodes (entries info bs ++ selfs D)).
Proof using Hap Hhash.
  intros Hb HD Hn Hnb HnD. apply Forall_forall. intros k Hk.
  apply elem_of_lists_nodes in Hk as [(i & Hi & ->)|[(b & Hin & _ & ->)|Hk]].
  - by apply Hhash.
  - destruct (Hap n (b_link b)) as [->|]; auto. by destruct (Hnb b Hin).
  - destruct (Hap n k) as [->|]; auto. done.
Qed.

Lemma lists_self m bs n D :
  lists m info bs (n :: D) <-> dlists m ((n, []) :: entries info bs ++ selfs D).
Proof using.
  unfold lists. change (selfs (n :: D)) with ((n, []) :: selfs D). by rewrite <- Permutation_middle.
Qed.

Lemma lists_drop m bs n D : lists m info bs (n :: D) -> lists m info bs D.
Proof using.
  rewrite lists_self. intros H. by apply dlists_cons in H as (_ & H & _).
Qed.

Lemma lists_perm m bs D D' : D ≡ₚ D' -> lists m info bs D -> lists m info bs D'.
Proof using. unfold lists, selfs. intros <-. done. Qed.

Lemma lists_NoDup m bs D : lists m info bs D -> NoDup D.
Proof using.
  unfold lists. intros [_ Hs]. apply spread_NoDup in Hs. unfold nodes in Hs. rewrite bind_app in Hs.
  apply NoDup_app in Hs as (_ & _ & Hs). revert Hs. clear. induction D as [|n D IH]; simpl; [constructor|].
  rewrite !NoDup_cons. intros [Hn Hs]. split; [|by apply IH].
  intros Hin. apply Hn. apply list_elem_of_bind. exists (n, []). split; [apply list_elem_of_here|].
  apply list_elem_of_fmap. eauto.
Qed.

Lemma bucket_nodes n i bs D :
  (i < NR_MEM_NUM)%nat -> n ∈ info_hash info i :: bucket_list i bs -> n ∈ nodes (entries info bs ++ selfs D).
Proof using.
  intros Hi Hn. apply elem_of_lists_nodes. apply elem_of_cons in Hn as [->|Hn]; [by left; exists i|].
  apply elem_of_bucket_list in Hn as (b & Hb & [Hr _] & ->). right; left. by exists b.
Qed.

Lemma detach_spec m bs1 b bs2 D :
  (forall c, c ∈ bs1 ++ b :: bs2 -> LU (b_link c)) -> (forall k, k ∈ D -> LU k) ->
  0 < b_rem b -> lists m info (bs1 ++ b :: bs2) D ->
  lists (memory_block_detach m (b_addr b)) info (bs1 ++ bs2) (b_link b :: D) /\
  agree (fun x => ~ link_cell info LU x) m (memory_block_detach m (b_addr b)).
Proof using.
  intros Hb HD Hr HL. unfold memory_block_detach. change (b_addr b + off_link) with (b_link b).
  set (i := bucket (b_rem b)). pose proof (bucket_lt (b_rem b)) as Hi. fold i in Hi.
  pose proof HL as HL'. apply (lists_split _ _ _ _ _ i Hi) in HL'.
  rewrite bucket_list_cons_in, (others_middle info bs1 b bs2 : others i _ _ = _) in HL' by done.
  pose proof (list_head_del_spec _ _ _ _ _ _ HL') as [Hd Hc]. split.
  - rewrite lists_self, (entries_split info _ i Hi). unfold bucket_entry. rewrite bucket_list_app. simpl.
    by rewrite <- (Permutation_swap (b_link b, [])).
  - eapply changes_link_cells; [exact Hb|exact HD| |exact Hc].
    intros n Hn. apply (bucket_nodes n i); [done|].
    by rewrite bucket_list_app, (bucket_list_cons_in i b) by done.
Qed.

(** Detaching a self-linked node changes nothing. *)
Lemma detach_self m bs b D :
  lists m info bs D -> b_link b ∈ D -> forall x, memory_block_detach m (b_addr b) x = m x.
Proof using.
  intros HL Hin x. apply elem_of_split_list in Hin as (D1 & D2 & ->).
  apply (lists_perm _ _ _ (b_link b :: D1 ++ D2)) in HL; [|by rewrite Permutation_middle].
  apply lists_self in HL. unfold memory_block_detach. by apply (list_head_del_self _ _ _ _ HL).
Qed.

Lemma lists_take m bs n D :
  n ∈ D -> lists m info bs D -> lists m info bs (n :: filter (fun k => k <> n) D).
Proof using.
  intros Hin HL. pose proof (lists_NoDup _ _ _ HL) as Hnd. revert HL. apply lists_perm.
  apply elem_of_split_list in Hin as (D1 & D2 & ->). by rewrite filter_ne_split, Permutation_middle.
Qed.

(** A block whose link may be passed to [memory_block_detach]: in its bucket,
    or linked to itself. *)
Definition detachable (b : blk) (D : list Z) : Prop :=
  (0 < b_rem b /\ b_link b ∉ D) \/ (b_rem b = 0 /\ b_link b ∈ D).

Lemma detach_any m bs1 b bs2 D :
  (forall c, c ∈ bs1 ++ b :: bs2 -> LU (b_link c)) -> (forall k, k ∈ D -> LU k) ->
  detachable b D -> lists m info (bs1 ++ b :: bs2) D ->
  lists (memory_block_detach m (b_addr b)) info (bs1 ++ bs2) (b_link b :: filter (fun n => n <> b_link b) D) /\
  agree (fun x => ~ link_cell info LU x) m (memory_block_detach m (b_addr b)).
Proof using.
  intros Hb HD [[Hr Hn]|[Hr Hin]] HL.
  - rewrite filter_ne_notin by done. by apply detach_spec.
  - pose proof (detach_self _ _ _ _ HL Hin) as Hs. split; [|intros x _; apply Hs].
    unfold lists in HL. rewrite entries_full in HL by done. apply (lists_take m (bs1 ++ bs2) (b_link b) D Hin) in HL.
    revert HL. apply dlists_agree. intros n _. by rewrite !Hs.
Qed.

Lemma find_sorted (P : Z -> bool) l1 l2 :
  (forall x, x ∈ l1 -> P x = false) -> (forall x, x ∈ l2 -> P x = true) ->
  List.find P (l1 ++ l2) = head l2.
Proof using.
  intros H1 H2. induction l1 as [|x l1 IH]; simpl.
  - destruct l2 as [|y l2]; [done|]. simpl. by rewrite (H2 y) by apply list_elem_of_here.
  - rewrite (H1 x) by apply list_elem_of_here. apply IH. intros y Hy. apply H1. by right.
Qed.

Lemma init_list_head_cells m b :
  LU (b_link b) -> agree (fun x => ~ link_cell info LU x) m (init_list_head m (b_link b)).
Proof using.
  intros Hb x Hx. unfold init_list_head, set_prev, set_next.
  assert (x <> b_link b /\ x <> b_link b + 4) as [??].
  { split; intros ->; apply Hx; right; exists (b_link b); auto. }
  by rewrite !st_ne by done.
Qed.

Section attach.
Context (fuel : nat) (m : mem) (bs1 : list blk) (b : blk) (bs2 : list blk) (D : list Z).
Context (Hb : forall c, c ∈ bs1 ++ b :: bs2 -> LU (b_link c)) (HD : forall k, k ∈ D -> LU k).
Context (H1 : forall c, c ∈ bs1 -> b_addr c < b_addr b) (H2 : forall c, c ∈ bs2 -> b_addr b < b_addr c).
Context (HnD : b_link b ∉ D).

Lemma attach_fresh : Forall (apart (b_link b)) (nodes (entries info (bs1 ++ bs2) ++ selfs D)).
Proof using Hap Hhash Hb HD H1 H2 HnD.
  apply lists_fresh; auto.
  - intros c Hc. apply Hb. in_list.
  - apply Hb. in_list.
  - intros c Hc E. unfold b_link in E. apply elem_of_app in Hc as [Hc|Hc].
    + specialize (H1 c Hc). lia.
    + specialize (H2 c Hc). lia.
Qed.

Context (Hf : (length (bs1 ++ bs2) <= fuel)%nat).

Lemma bucket_find i m1 L :
  dlists m1 ((info_hash info i, bucket_list i bs1 ++ bucket_list i bs2) :: L) ->
  foreach_list_next_entry fuel m1 (info_hash info i) (fun pos => b_addr b <? pos - off_link) =
  Ok (head (bucket_list i bs2)).
Proof using H1 H2 Hf.
  intros HI. rewrite (dlists_find _ _ _ _ _ _ HI).
  - f_equal. apply find_sorted; intros n Hn; apply elem_of_bucket_list in Hn as (c & Hc & _ & ->);
      unfold b_link; rewrite Z.add_simpl_r.
    + apply Z.ltb_ge. specialize (H1 c Hc). lia.
    + apply Z.ltb_lt. auto.
  - rewrite <- bucket_list_app. unfold bucket_list. rewrite length_fmap.
    pose proof (length_filter (in_bucket i) (bs1 ++ bs2)). lia.
Qed.

(** A block with unused space goes to its place in its bucket; one without
    is left as it is. *)
Lemma attach_spec :
  m (b_addr b + off_remain) = b_rem b -> 0 <= b_rem b ->
  lists m info (bs1 ++ bs2) D ->
  exists m', memory_block_attach fuel m info nullptr (b_addr b) = Ok m' /\
    lists m' info (bs1 ++ b :: bs2) D /\
    agree (fun x => ~ link_cell info LU x) m m'.
Proof using Hap Hhash Hb HD H1 H2 HnD Hf.
  intros Em Hr HL. unfold memory_block_attach. rewrite Em.
  destruct (Z.eqb_spec (b_rem b) 0) as [Hz|Hz].
  { exists m. split_and!; [done| |done]. unfold lists. by rewrite entries_full. }
  rewrite Z.eqb_refl, memory_block_get_hash_spec by lia. simpl. change (b_addr b + off_link) with (b_link b).
  set (i := bucket (b_rem b)). pose proof (bucket_lt (b_rem b)) as Hi. fold i in Hi.
  pose proof attach_fresh as Hfr.
  pose proof (init_list_head_spec _ _ _ HL Hfr) as HI. apply dlists_cons in HI as (_ & HI & _).
  set (m1 := init_list_head m (b_link b)) in *.
  pose proof HI as HI'. apply (lists_split m1 info bs1 bs2 D i Hi) in HI'.
  assert (Forall (apart (b_link b)) (nodes ((info_hash info i, bucket_list i bs1 ++ bucket_list i bs2)
            :: others i info (bs1 ++ bs2) ++ selfs D))) as Hfr'.
  { rewrite (entries_split info _ i Hi) in Hfr. unfold bucket_entry in Hfr.
    by rewrite bucket_list_app in Hfr. }
  assert (forall m', dlists m' ((info_hash info i, bucket_list i bs1 ++ b_link b :: bucket_list i bs2)
                         :: others i info (bs1 ++ bs2) ++ selfs D) /\
            changes_only (b_link b :: info_hash info i :: bucket_list i bs1 ++ bucket_list i bs2) m1 m' ->
          lists m' info (bs1 ++ b :: bs2) D /\ agree (fun x => ~ link_cell info LU x) m m') as Fin.
  { intros m' [Hd Hc]. assert (in_bucket i b) as Hib by (split; [lia|done]). split.
    - apply (lists_split _ _ _ _ _ i Hi). rewrite bucket_list_cons_in by done.
      by rewrite (others_middle info bs1 b bs2 : others i _ _ = _).
    - apply (agree_trans _ m m1); [apply init_list_head_cells, Hb; in_list|].
      eapply (changes_link_cells _ _ (bs1 ++ b :: bs2) D); [exact Hb|exact HD| |exact Hc].
      intros n Hn. apply (bucket_nodes n i); [done|].
      rewrite bucket_list_app, (bucket_list_cons_in i b) by done. in_list. }
  rewrite (dlists_empty _ _ _ _ HI'). case_bool_decide as El.
  - apply app_eq_nil in El as [E1 E2]. rewrite E1, E2 in *. simpl in *.
    eexists; split; [done|]. apply Fin. by apply (list_head_add_head_spec m1 _ [] []).
  - rewrite (bucket_find i m1 _ HI'). simpl.
    exists (list_head_add_tail m1 (first_of (bucket_list i bs2) (info_hash info i)) (b_link b)).
    split; [by destruct (bucket_list i bs2)|]. apply Fin. by apply list_head_add_tail_spec.
Qed.
End attach.
End links.

(** ** The search for a block *)
Lemma bucket_mono t r :
  NR_MEM_LowerLimit <= t < NR_MEM_HighLimit -> t <= r -> (Z.to_nat (Z.log2 t) <= bucket r)%nat.
Proof.
  unfold bucket, NR_MEM_LowerLimit, NR_MEM_HighLimit, NR_MEM_HighBytes. intros Ht Hr.
  assert (Z.log2 t < 13) by (apply Z.log2_lt_pow2; lia).
  case_test; [lia|]. case_test; [lia|]. apply Z2Nat.inj_le; try apply Z.log2_nonneg. by apply Z.log2_le_mono.
Qed.

Section search.
Context (fuel : nat) (m : mem) (info : Z) (bs : list blk) (D : list Z).
Context (HL : lists m info bs D) (Hf : (length bs <= fuel)%nat).
Context (Hrem : forall b, b ∈ bs -> m (b_addr b + off_remain) = b_rem b /\ 0 < b_addr b).

(** The outcome [r] of a search for [t] bytes among the blocks satisfying [P]. *)
Definition found (P : blk -> Prop) (t r : Z) : Prop :=
  (exists b, b ∈ bs /\ 0 < b_rem b /\ t <= b_rem b /\ r = b_addr b) \/
  (r = 0 /\ forall b, b ∈ bs -> 0 < b_rem b -> P b -> b_rem b < t).

Lemma get_bucket_spec i t :
  (i < NR_MEM_NUM)%nat ->
  exists r, __memory_block_get_avaliable fuel m info i t = Ok r /\ found (in_bucket i) t r.
Proof using HL Hf Hrem.
  intros Hi. unfold __memory_block_get_avaliable.
  pose proof HL as HL'. unfold lists in HL'. rewrite (entries_split info bs i Hi) in HL'.
  rewrite (dlists_find _ _ _ _ _ _ HL').
  2:{ unfold bucket_list. rewrite length_fmap. pose proof (length_filter (in_bucket i) bs). lia. }
  assert (forall b, b ∈ bs -> m (b_link b - off_link + off_remain) = b_rem b) as Em.
  { intros b Hb. unfold b_link. rewrite Z.add_simpl_r. by apply Hrem. }
  set (P := fun pos : Z => t <=? m (pos - off_link + off_remain)). simpl. destruct (List.find P (bucket_list i bs)) as [n|] eqn:E.
  - apply find_some in E as [Hin HP]. apply list_elem_of_In, elem_of_bucket_list in Hin as (b & Hb & [Hr _] & ->).
    eexists; split; [done|]. left. exists b. subst P; simpl in HP. rewrite Em in HP by done. bool_hyps.
    split_and!; try done. unfold b_link. lia.
  - eexists; split; [done|]. right. split; [done|]. intros b Hb Hr Hin.
    assert (P (b_link b) = false) as HP.
    { eapply find_none; [exact E|]. apply list_elem_of_In, elem_of_bucket_list. eauto. }
    subst P; simpl in HP. rewrite Em in HP by done. by bool_hyps.
Qed.

Lemma get_from_spec n i t :
  (i + n = NR_MEM_NUM)%nat ->
  exists r, get_avaliable_from fuel m info i n t = Ok r /\ found (fun b => (i <= bucket (b_rem b))%nat) t r.
Proof using HL Hf Hrem.
  revert i. induction n as [|n IH]; intros i Hi; simpl.
  - eexists; split; [done|]. right. split; [done|]. intros b _ _ Hb. pose proof (bucket_lt (b_rem b)). lia.
  - destruct (get_bucket_spec i t) as (r & -> & Hr); [lia|]. simpl.
    destruct Hr as [(b & Hb & Hr & Ht & ->)|[-> Hno]].
    + rewrite (proj2 (Z.eqb_neq (b_addr b) 0)) by (destruct (Hrem b Hb); lia).
      eexists; split; [done|]. left. eauto.
    + simpl. destruct (IH (S i)) as (r & -> & Hr); [lia|]. eexists; split; [done|].
      destruct Hr as [Hr|[-> Hr]]; [by left|right]. split; [done|]. intros b Hb H0 Hle.
      destruct (decide (i = bucket (b_rem b))) as [->|]; [by apply Hno|apply Hr; auto; lia].
Qed.

(** The search finds a block whenever one fits. *)
Lemma get_avaliable_spec t :
  MEM_BLOCK_HEADER_SIZE <= t ->
  exists r, memory_block_get_avaliable fuel m info t = Ok r /\ found (fun _ => True) t r.
Proof using HL Hf Hrem.
  intros Ht. unfold memory_block_get_avaliable. case_test.
  - destruct (get_bucket_spec NR_MEM_HighBytes t) as (r & -> & Hr); [unfold NR_MEM_HighBytes, NR_MEM_NUM; lia|].
    eexists; split; [done|]. destruct Hr as [Hr|[-> Hr]]; [by left|right]. split; [done|]. intros b Hb H0 _.
    destruct (Z.lt_ge_cases (b_rem b) t); [done|]. apply Hr; auto. split; [done|].
    unfold bucket. by rewrite (proj2 (Z.leb_le _ _)) by lia.
  - unfold MEM_BLOCK_HEADER_SIZE in Ht. rewrite (proj2 (Z.ltb_ge _ _)) by done.
    rewrite top_bit_down_spec by (unfold NR_MEM_HighLimit, NR_MEM_HighBytes in *; simpl; lia). simpl.
    assert (Z.log2 t < 13) by (apply Z.log2_lt_pow2; unfold NR_MEM_HighLimit in *; lia).
    destruct (get_from_spec (NR_MEM_NUM - Z.to_nat (Z.log2 t)) (Z.to_nat (Z.log2 t)) t) as (r & Er & Hr);
      [unfold NR_MEM_NUM; lia|].
    exists r. split; [exact Er|]. destruct Hr as [Hr|[-> Hr]]; [by left|right]. split; [done|]. intros b Hb H0 _.
    destruct (Z.lt_ge_cases (b_rem b) t); [done|]. apply Hr; auto. apply bucket_mono; [|done].
    unfold NR_MEM_LowerLimit; lia.
Qed.
End search.

(** ** The pool invariant *)
Record pool_inv (m : mem) (info a e : Z) (bs : list blk) (D : list Z) : Prop := {
  pi_frame : pool_frame m info a e;
  pi_tiles : tiles true a bs e;
  pi_some : bs <> [];
  pi_chain : chain m 0 bs 0;
  pi_magics : magics m bs;
  pi_lists : lists m info bs D;
  pi_self : forall n, n ∈ D -> exists b, b ∈ bs /\ n = b_link b /\ b_rem b = 0;
}.

Section pool_fields.
Context {m : mem} {info a e : Z} {bs : list blk} {D : list Z} (HP : pool_inv m info a e bs D).
Lemma pi_mem : m (info + info_mem) = a.
Proof using HP. apply HP. Qed.
Lemma pi_arena : 0 < a /\ e < W32 - 4096.
Proof using HP. apply HP. Qed.
Lemma pi_info : 0 < info /\ info + info_size <= W32 - 4096 /\ (info + info_size <= a \/ e <= info).
Proof using HP. apply HP. Qed.
End pool_fields.

Definition arena_links (bs : list blk) (n : Z) : Prop := exists b, b ∈ bs /\ n = b_link b.

Lemma link_off b : b_link b = b_addr b + 24.
Proof. done. Qed.

Section geometry.
Context (info a e : Z) (f : bool) (bs : list blk).
Context (Ht : tiles f a bs e) (Hi : info + info_size <= a \/ e <= info).

Lemma arena_links_apart n k : arena_links bs n -> arena_links bs k -> n = k \/ apart n k.
Proof using Ht.
  intros (b & Hb & ->) (c & Hc & ->).
  pose proof (tiles_shape _ _ _ _ b Ht Hb) as Sb. pose proof (tiles_shape _ _ _ _ c Ht Hc) as Sc.
  destruct (tiles_disjoint _ _ _ _ b c Ht Hb Hc) as [->|H]; [by left|right].
  unfold apart, blk_shape, b_end in *. rewrite !link_off. lia.
Qed.

Lemma arena_bounds b : b ∈ bs -> a <= b_addr b /\ b_addr b + 32 <= e.
Proof using Ht.
  intros Hb. destruct (tiles_bounds _ _ _ _ b Ht Hb). destruct (tiles_shape _ _ _ _ b Ht Hb) as (_ & _ & _ & ? & _).
  unfold b_end in *. lia.
Qed.

Lemma arena_links_hash i n : (i < NR_MEM_NUM)%nat -> arena_links bs n -> apart n (info_hash info i).
Proof using Ht Hi.
  intros Hn (b & Hb & ->). pose proof (arena_bounds b Hb).
  unfold apart, info_hash, info_size, NR_MEM_NUM in *. rewrite link_off. lia.
Qed.

Lemma header_not_link b x :
  b ∈ bs -> b_addr b <= x < b_addr b + off_link -> ~ link_cell info (arena_links bs) x.
Proof using Ht Hi.
  intros Hb Hx [H|(n & (c & Hc & ->) & H)]; pose proof (arena_bounds b Hb).
  - unfold off_link, info_alloc, info_size in *. lia.
  - pose proof (tiles_shape _ _ _ _ b Ht Hb) as Sb. pose proof (tiles_shape _ _ _ _ c Ht Hc) as Sc.
    unfold blk_shape, off_link, b_end in *. rewrite link_off in H.
    destruct (tiles_disjoint _ _ _ _ b c Ht Hb Hc) as [->|Hd]; unfold b_end in *; lia.
Qed.

Lemma link_not_header x : link_cell info (arena_links bs) x -> off_headers bs x.
Proof using Ht Hi. intros Hx c Hc H. by apply (header_not_link c x Hc H). Qed.

Lemma info_not_link x : info <= x < info + 12 -> ~ link_cell info (arena_links bs) x.
Proof using Ht Hi.
  intros Hx [H|(n & (c & Hc & ->) & H)]; [lia|]. pose proof (arena_bounds c Hc).
  unfold info_size in *. rewrite link_off in H. lia.
Qed.

Lemma info_not_header x : info <= x < info + info_size -> off_headers bs x.
Proof using Ht Hi. intros Hx c Hc H. pose proof (arena_bounds c Hc). unfold off_link in *. lia. Qed.

Lemma link_owned x : link_cell info (arena_links bs) x -> owned info bs x.
Proof using.
  intros [H|(n & (c & Hc & ->) & H)]; [left; unfold info_size, info_alloc in *; lia|].
  right. exists c. split; [done|]. rewrite link_off in H. unfold MEM_BLOCK_HEADER_SIZE. lia.
Qed.

Lemma header_owned x : ~ owned info bs x -> off_headers bs x.
Proof using. intros Hx c Hc H. apply Hx. right. exists c. unfold_offsets. split; [done|lia]. Qed.
End geometry.

Lemma chain_hdr m p bs z b : chain m p bs z -> b ∈ bs -> exists q n, hdr m b q n.
Proof.
  intros Hc Hb. apply elem_of_split_list in Hb as (bs1 & bs2 & ->). eauto using chain_next.
Qed.

Lemma tiles_prefix f a bs1 b bs2 e :
  tiles f a (bs1 ++ b :: bs2) e ->
  (forall c, c ∈ bs1 -> b_addr c < b_addr b) /\ (forall c, c ∈ bs2 -> b_addr b < b_addr c).
Proof.
  intros Ht. destruct (tiles_cut _ _ _ _ _ _ Ht) as (Hs & _ & _ & _ & H1 & H2).
  unfold blk_shape, b_end in *. split; intros c Hc.
  - specialize (H1 c Hc). lia.
  - specialize (H2 c Hc). lia.
Qed.

(** A link operation keeps the chain and the magic numbers. *)
Lemma link_op_keeps m m' info a e f bs :
  tiles f a bs e -> info + info_size <= a \/ e <= info ->
  agree (fun x => ~ link_cell info (arena_links bs) x) m m' -> keeps_hdrs m m' bs.
Proof. intros Ht Hi Ha b x Hb Hx. apply Ha. by eapply header_not_link. Qed.

Lemma pool_inv_rebuild m m' info a e bs' D' :
  pool_frame m info a e ->
  tiles true a bs' e -> bs' <> [] -> chain m' 0 bs' 0 -> magics m' bs' -> lists m' info bs' D' ->
  (forall n, n ∈ D' -> exists b, b ∈ bs' /\ n = b_link b /\ b_rem b = 0) ->
  (forall x, info <= x < info + 12 -> m' x = m x) ->
  pool_inv m' info a e bs' D'.
Proof.
  intros [] Ht Hne Hc Hm HL HD Hx. constructor; try done. constructor; try done.
  all: rewrite Hx by (unfold info_base, info_lenth, info_mem; lia); done.
Qed.

(** Attaching the last detached block completes the pool. *)
Lemma attach_pool fuel m m2 info a e bs1 b bs2 D' :
  pool_frame m info a e ->
  tiles true a (bs1 ++ b :: bs2) e -> chain m2 0 (bs1 ++ b :: bs2) 0 -> magics m2 (bs1 ++ b :: bs2) ->
  lists m2 info (bs1 ++ bs2) D' ->
  (forall n, n ∈ D' -> exists c, c ∈ bs1 ++ b :: bs2 /\ n = b_link c /\ b_rem c = 0) ->
  (forall x, info <= x < info + 12 -> m2 x = m x) -> (length (bs1 ++ bs2) <= fuel)%nat ->
  exists m3, memory_block_attach fuel m2 info nullptr (b_addr b) = Ok m3 /\
    pool_inv m3 info a e (bs1 ++ b :: bs2) D' /\
    agree (fun x => ~ link_cell info (arena_links (bs1 ++ b :: bs2)) x) m2 m3.
Proof.
  intros HP HT Hc Hm HL HD Hx Hf. destruct (pf_info _ _ _ _ HP) as (_ & _ & Hi).
  destruct (tiles_cut _ _ _ _ _ _ HT) as (Hs & _). unfold blk_shape in Hs.
  destruct (chain_next _ _ _ _ _ _ Hc) as (_ & _ & Er & _).
  assert (bs1 ++ b :: bs2 <> []) by (by destruct bs1).
  destruct (decide (b_rem b = 0)) as [Hz|Hz].
  { exists m2. split_and!; [unfold memory_block_attach; by rewrite Er, Hz| |done].
    eapply pool_inv_rebuild; try done. unfold lists. by rewrite entries_full. }
  destruct (tiles_prefix _ _ _ _ _ _ HT) as [P1 P2].
  destruct (attach_spec info (arena_links (bs1 ++ b :: bs2))
    ltac:(by eapply arena_links_apart) ltac:(by eapply arena_links_hash)
    fuel m2 bs1 b bs2 D') as (m3 & E3 & HL3 & Ha3); try done; try lia.
  - intros c Hin. by exists c.
  - intros n Hn. destruct (HD n Hn) as (c & ? & ? & _). by exists c.
  - intros Hn. destruct (HD _ Hn) as (c & Hin & E & Hr). rewrite !link_off in E.
    apply Hz. rewrite (tiles_addr_inj _ _ _ _ b c HT); [done|in_list|done|lia].
  - exists m3. split_and!; [exact E3| |exact Ha3].
    assert (keeps_hdrs m2 m3 (bs1 ++ b :: bs2)) as Hk by (by eapply link_op_keeps).
    eapply pool_inv_rebuild; [exact HP|done|done|by eapply chain_keep|by eapply magics_keep|done..|].
    intros x Hxi. rewrite Ha3, Hx; [done..|by eapply info_not_link].
Qed.

(** ** Allocation *)

(** The self-linked nodes after cutting [t] bytes from [b]. *)
Definition alloc_self (b : blk) (t : Z) (D : list Z) : list Z :=
  if b_used b =? 0 then (if b_rem b - t =? 0 then b_link b :: D else D) else b_link b :: D.

Section alloc.
Context (fuel : nat) (m : mem) (info a e : Z) (bs1 : list blk) (b : blk) (bs2 : list blk) (D : list Z) (t : Z).
Context (HP : pool_inv m info a e (bs1 ++ b :: bs2) D).
Context (Ht : 32 <= t <= b_rem b).

Lemma alloc_self_notin : b_link b ∉ D.
Proof using HP Ht.
  intros Hin. destruct (pi_self _ _ _ _ _ _ HP _ Hin) as (c & Hc & E & Hr). rewrite !link_off in E.
  rewrite (tiles_addr_inj _ _ _ _ b c (pi_tiles _ _ _ _ _ _ HP)) in Ht; [lia|in_list|done|lia].
Qed.

Lemma alloc_self_other n : n ∈ D -> exists c, c ∈ bs1 ++ bs2 /\ n = b_link c /\ b_rem c = 0.
Proof using HP Ht.
  intros Hin. destruct (pi_self _ _ _ _ _ _ HP _ Hin) as (c & Hc & E & Hr). exists c. split; [|done].
  apply elem_of_app in Hc as [Hc|[->|Hc]%elem_of_cons]; [in_list|lia|in_list].
Qed.

(** State after the detach that opens the allocation. *)
Lemma alloc_detached (m1 := memory_block_detach m (b_addr b)) :
  lists m1 info (bs1 ++ bs2) (b_link b :: D) /\
  agree (fun x => ~ link_cell info (arena_links (bs1 ++ b :: bs2)) x) m m1 /\
  chain m1 0 (bs1 ++ b :: bs2) 0 /\ magics m1 (bs1 ++ b :: bs2) /\
  hdr m1 b (last_addr 0 bs1) (first_addr bs2 0).
Proof using HP Ht.
  destruct (detach_spec info (arena_links (bs1 ++ b :: bs2)) m bs1 b bs2 D) as [HL Ha].
  - intros c Hc. by exists c.
  - intros n Hn. destruct (pi_self _ _ _ _ _ _ HP _ Hn) as (c & Hc & E & _). by exists c.
  - lia.
  - apply (pi_lists _ _ _ _ _ _ HP).
  - fold m1 in HL, Ha. assert (keeps_hdrs m m1 (bs1 ++ b :: bs2)) as Hk.
    { eapply link_op_keeps; [exact (pi_tiles _ _ _ _ _ _ HP)|apply (pi_info HP)|exact Ha]. }
    assert (chain m1 0 (bs1 ++ b :: bs2) 0) as Hc by (eapply chain_keep, pi_chain; done).
    split_and!; try done.
    + by eapply magics_keep, pi_magics.
    + by apply (chain_next _ _ _ _ _ _ Hc).
Qed.

Context (H8 : (8 | t)) (Hf : (length (bs1 ++ b :: bs2) <= fuel)%nat).

(** Cutting from a block in use: it becomes full, and a new block takes its tail. *)
Lemma alloc_split (m1 := memory_block_detach m (b_addr b)) (bs' := bs1 ++ blk_full b :: blk_tail b t :: bs2) :
  32 <= b_used b ->
  exists m3, memory_block_attach fuel (split_block m1 (b_addr b) (b_addr b + b_used b + 32) t (b_used b))
      info nullptr (b_addr b + b_used b) = Ok m3 /\
    pool_inv m3 info a e bs' (b_link b :: D) /\ agree (fun x => ~ owned info bs' x) m m3.
Proof using HP Ht H8 Hf.
  intros Hu. destruct alloc_detached as (HL & Ha & Hc & Hm & Hh). fold m1 in HL, Ha, Hc, Hm, Hh.
  pose proof (pi_tiles _ _ _ _ _ _ HP) as HT. destruct (pi_arena HP) as [Ha0 He].
  destruct (pi_info HP) as (Hi0 & Hi1 & Hi).
  pose proof (split_tiles _ _ _ _ _ _ t HT Hu Ht H8) as HT'. fold bs' in HT'.
  destruct (split_block_spec m1 0 _ _ _ _ _ _ t HT Ha0 He Hc Hu Ht Hm) as (Hc2 & Hm2 & Ha2).
  fold bs' in Hc2, Hm2, Ha2. set (m2 := split_block _ _ _ _ _) in *.
  assert (forall n, n ∈ b_link b :: D -> exists c, c ∈ bs' /\ n = b_link c /\ b_rem c = 0) as HD.
  { intros n [->|Hn]%elem_of_cons; [exists (blk_full b); split; [subst bs'; in_list|done]|].
    destruct (alloc_self_other n Hn) as (c & Hin & ?). exists c. split; [subst bs'; in_list|done]. }
  assert (forall x, link_cell info (arena_links (bs1 ++ b :: bs2)) x -> link_cell info (arena_links bs') x) as Hsub.
  { intros x. apply link_cell_mono. intros n (c & Hin & ->).
    apply elem_of_app in Hin as [Hin|[->|Hin]%elem_of_cons];
      [exists c|exists (blk_full b)|exists c]; (split; [subst bs'; in_list|done]). }
  assert (bs' = (bs1 ++ [blk_full b]) ++ blk_tail b t :: bs2) as Ebs by (subst bs'; by rewrite <- app_assoc).
  destruct (attach_pool fuel m m2 info a e (bs1 ++ [blk_full b]) (blk_tail b t) bs2 (b_link b :: D) (pi_frame _ _ _ _ _ _ HP))
    as (m3 & E3 & HP3 & Ha3); rewrite <- ?Ebs in *; try done.
  - rewrite <- app_assoc. simpl. unfold lists. rewrite entries_full by done.
    apply (lists_frame info (arena_links bs') m1); [..|exact HL].
    + intros c Hin. exists c. split; [subst bs'; in_list|done].
    + intros n Hn. destruct (HD n Hn) as (c & ? & ? & _). by exists c.
    + intros x Hx. apply Ha2. by eapply link_not_header.
  - intros x Hx. rewrite Ha2, Ha; [done|by eapply info_not_link|].
    eapply info_not_header; try done. unfold info_size. lia.
  - rewrite !length_app in *. simpl in *. lia.
  - exists m3. split_and!; [exact E3|exact HP3|]. intros x Hx.
    rewrite Ha3, Ha2, Ha; [done|..|by eapply header_owned|]; intros Hl; apply Hx, link_owned; auto.
Qed.

(** Cutting from an entirely unused block keeps it in one piece. *)
Lemma alloc_whole (m1 := memory_block_detach m (b_addr b)) (b' := Blk (b_addr b) (b_len b) (b_rem b - t))
    (m2 := st (st m1 (b_addr b + off_magic) MEMORY_POOL_MAGIC) (b_addr b + off_remain) (b_rem b - t)) :
  b_used b = 0 ->
  exists m3, memory_block_attach fuel m2 info nullptr (b_addr b) = Ok m3 /\
    pool_inv m3 info a e (bs1 ++ b' :: bs2) (alloc_self b t D) /\
    agree (fun x => ~ owned info (bs1 ++ b' :: bs2) x) m m3.
Proof using HP Ht H8 Hf.
  intros Hu. destruct alloc_detached as (HL & Ha & Hc & Hm & Hh). fold m1 in HL, Ha, Hc, Hm, Hh.
  pose proof (pi_tiles _ _ _ _ _ _ HP) as HT. destruct (pi_info HP) as (_ & _ & Hi).
  assert (forall x, ~ (b_addr b <= x < b_addr b + off_link) -> m2 x = m1 x) as Hk.
  { intros x Hx. unfold m2. unfold_offsets. mem_simp. done. }
  destruct (update_block m1 m2 0 bs1 b b' bs2 0 _ _ _ HT Hc Hm) as [Hc2 Hm2]; [done|..|exact Hk|].
  { destruct Hh as (? & ? & ? & ? & ?). unfold hdr, m2, b'. simpl. unfold_offsets. split_and!; mem_simp; done. }
  { intros _. unfold m2. unfold_offsets. mem_simp. done. }
  assert (tiles true a (bs1 ++ b' :: bs2) e) as HT'.
  { apply (tiles_replace _ _ _ b _ _ [b']); [done| |done]. intros f' Hs. simpl. unfold blk_shape, b_end, b_used in *.
    simpl. split_and!; try done; try lia; try tauto.
    replace (b_len b - (b_rem b - t)) with t by lia. done. }
  assert (lists m2 info (bs1 ++ bs2) (b_link b :: D)) as HL2.
  { apply (lists_frame info (arena_links (bs1 ++ b :: bs2)) m1); [..|exact HL].
    - intros c Hin. exists c. split; [in_list|done].
    - intros n [->|Hn]%elem_of_cons; [exists b; split; [in_list|done]|].
      destruct (pi_self _ _ _ _ _ _ HP _ Hn) as (c & ? & ? & _). by exists c.
    - intros x Hx. apply Hk. intros Hin. revert Hx. eapply (header_not_link info a e true _ HT Hi b); [in_list|done]. }
  assert (forall x, info <= x < info + 12 -> m2 x = m x) as Hx2.
  { intros x Hx. rewrite Hk, Ha; [done|by eapply info_not_link|]. intros Hin.
    by apply (info_not_header info a e true _ HT Hi x ltac:(unfold info_size; lia) b ltac:(in_list)). }
  destruct (attach_pool fuel m m2 info a e bs1 b' bs2 (alloc_self b t D) (pi_frame _ _ _ _ _ _ HP)) as (m3 & E3 & HP3 & Ha3); try done.
  { unfold alloc_self. rewrite Hu. simpl. case_test; [done|by eapply lists_drop]. }
  { intros n. unfold alloc_self. rewrite Hu. simpl. case_test; [rewrite elem_of_cons; intros [->|Hn]|intros Hn].
    1: (exists b'; split; [in_list|done]).
    all: destruct (alloc_self_other n Hn) as (c & Hin & ?); exists c; split; [in_list|done]. }
  { rewrite length_app in *. simpl in Hf. lia. }
  exists m3. split_and!; [exact E3|exact HP3|]. intros x Hx. rewrite Ha3, Hk, Ha; [done|..].
  - intros Hl. apply Hx. apply link_owned. revert Hl. apply link_cell_mono. intros n (c & Hin & ->).
    apply elem_of_app in Hin as [Hin|[->|Hin]%elem_of_cons]; [exists c|exists b'|exists c]; (split; [in_list|done]).
  - by apply (header_owned info (bs1 ++ b' :: bs2) x Hx b' ltac:(in_list)).
  - intros Hl. by apply Hx, link_owned.
Qed.

Lemma alloc_from_spec (bs' := bs1 ++ alloc_blks b t ++ bs2) :
  exists m', alloc_from_block fuel m info (b_addr b) t = Ok (m', b_addr b + b_used b + 32) /\
    pool_inv m' info a e bs' (alloc_self b t D) /\ agree (fun x => ~ owned info bs' x) m m'.
Proof using HP Ht H8 Hf.
  destruct alloc_detached as (_ & _ & _ & _ & E1 & E2 & E3 & _).
  pose proof (tiles_cut _ _ _ _ _ _ (pi_tiles _ _ _ _ _ _ HP)) as (Hs & Hb1 & Hb2 & _).
  destruct (pi_arena HP) as [Ha0 He]. unfold blk_shape, b_end, W32 in *.
  subst bs'. unfold alloc_from_block, alloc_blks. rewrite E1, E2, E3.
  change (b_len b - b_rem b) with (b_used b). unfold b_ptr, MEM_BLOCK_HEADER_SIZE.
  rewrite !(u32_id (b_used b)) by (unfold b_used, W32 in *; lia).
  rewrite !(u32_id (b_addr b + 32 + b_used b)) by (unfold b_used, W32 in *; lia).
  replace (b_addr b + 32 + b_used b) with (b_addr b + b_used b + 32) by lia.
  replace (b_addr b + b_used b + 32 - 32) with (b_addr b + b_used b) by lia.
  rewrite u32_id by (unfold b_used, W32 in *; lia).
  destruct (Z.eqb_spec (b_used b) 0) as [Hu|Hu].
  - destruct (alloc_whole Hu) as (m3 & E & HP3 & Ha3). exists m3. split_and!; [|exact HP3|exact Ha3].
    rewrite (proj2 (Z.eqb_eq (b_len b) (b_rem b))) by (unfold b_used in Hu; lia). simpl.
    rewrite st_ne, E3, u32_id, E by (unfold_offsets; unfold W32; lia). done.
  - destruct (alloc_split ltac:(lia)) as (m3 & E & HP3 & Ha3). exists m3.
    unfold alloc_self. rewrite (proj2 (Z.eqb_neq (b_used b) 0) Hu). split_and!; [|exact HP3|exact Ha3].
    rewrite (proj2 (Z.eqb_neq (b_len b) (b_rem b))) by (unfold b_used in Hu; lia). simpl.
    rewrite E. simpl. destruct (chain_next _ _ _ _ _ _ (pi_chain _ _ _ _ _ _ HP3)) as (_ & _ & Er & _).
    unfold memory_block_attach. simpl in Er. by rewrite Er.
Qed.
End alloc.

(** ** Release *)
Lemma pool_links m info a e bs D :
  pool_inv m info a e bs D ->
  (forall c, c ∈ bs -> arena_links bs (b_link c)) /\ (forall k, k ∈ D -> arena_links bs k).
Proof.
  intros HP. split; [intros c Hc; by exists c|]. intros k Hk.
  destruct (pi_self _ _ _ _ _ _ HP _ Hk) as (c & ? & ? & _). by exists c.
Qed.

(** A store to a header word keeps the lists. *)
Lemma lists_st m info a e f bs bs' D c x v :
  tiles f a bs e -> info + info_size <= a \/ e <= info ->
  (forall d, d ∈ bs' -> arena_links bs (b_link d)) -> (forall k, k ∈ D -> arena_links bs k) ->
  c ∈ bs -> b_addr c <= x < b_addr c + off_link ->
  lists m info bs' D -> lists (st m x v) info bs' D.
Proof.
  intros HT Hi Lb LD Hc Hx. apply (lists_frame info (arena_links bs)); [done..|].
  intros y Hy. apply st_ne. intros ->. by apply (link_not_header info a e f bs HT Hi x Hy c Hc).
Qed.

Section free_merge.
Context (m : mem) (info a e : Z) (bs0 : list blk) (p b : blk) (bs2 : list blk) (D : list Z).
Context (HP : pool_inv m info a e (bs0 ++ p :: b :: bs2) D).
Context (Hdb : detachable b D) (Hdp : detachable p D).
Notation bs := (bs0 ++ p :: b :: bs2).
Notation nonlink := (fun x => ~ link_cell info (arena_links bs) x).
Notation D1 := (filter (fun n => n <> b_link b) D).

(** The block marked unused and detached. *)
Lemma free_merge_detach (m1 := st (st m (b_addr b + off_magic) 0) (b_addr b + off_remain) (b_len b))
    (m2 := memory_block_detach m1 (b_addr b)) :
  lists m2 info (bs0 ++ p :: bs2) D1 /\ agree nonlink m1 m2.
Proof using HP Hdb.
  destruct (pool_links _ _ _ _ _ _ HP) as [Lb LD]. pose proof (pi_tiles _ _ _ _ _ _ HP) as HT.
  destruct (pi_info HP) as (_ & _ & Hi).
  destruct (detach_any info (arena_links bs) m1 (bs0 ++ [p]) b bs2 D) as [HL Ha].
  - intros c Hc. apply Lb. in_list.
  - done.
  - done.
  - rewrite <- app_assoc. subst m1.
    do 2 (apply (lists_st _ info a e true bs bs D b); [done..|in_list|unfold_offsets; lia|]).
    apply (pi_lists _ _ _ _ _ _ HP).
  - split; [|exact Ha]. rewrite <- app_assoc in HL. by eapply lists_drop.
Qed.

(** The stores into the predecessor, and its detach. *)
Lemma free_merge_prev m2 v1 v2 v3 v4
    (m3 := st (st (st (st m2 (b_addr p + off_lenth) v1) (b_addr p + off_remain) v2)
                  (b_addr p + off_next) v3) (b_addr b + off_prev) v4)
    (m4 := memory_block_detach m3 (b_addr p)) :
  lists m2 info (bs0 ++ p :: bs2) D1 ->
  lists m4 info (bs0 ++ bs2) (filter (fun n => n <> b_link p) D1) /\ agree nonlink m3 m4.
Proof using HP Hdb Hdp.
  intros HL2. destruct (pool_links _ _ _ _ _ _ HP) as [Lb LD]. pose proof (pi_tiles _ _ _ _ _ _ HP) as HT.
  destruct (pi_info HP) as (_ & _ & Hi).
  assert (b_link p <> b_link b) as Hne.
  { rewrite !link_off. destruct (tiles_cut _ _ _ _ _ _ HT) as (_ & _ & _ & _ & _ & H2).
    destruct (H2 b ltac:(in_list)). destruct (tiles_shape _ _ _ _ p HT ltac:(in_list)) as (_ & _ & _ & ? & _).
    unfold b_end in *. lia. }
  assert (forall c, c ∈ bs0 ++ p :: bs2 -> arena_links bs (b_link c)) as Lb' by (intros c Hc; apply Lb; in_list).
  assert (forall k, k ∈ D1 -> arena_links bs k) as LD' by (intros k [_ Hk]%list_elem_of_filter; auto).
  destruct (detach_any info (arena_links bs) m3 bs0 p bs2 D1) as [HL Ha]; try done.
  - unfold detachable in *. rewrite list_elem_of_filter. tauto.
  - subst m3. apply (lists_st _ info a e true bs _ _ b); [done..|in_list|unfold_offsets; lia|].
    do 3 (apply (lists_st _ info a e true bs _ _ p); [done..|in_list|unfold_offsets; lia|]). done.
  - split; [|exact Ha]. by eapply lists_drop.
Qed.

(** The memory before the final attach, and the cells it changed. *)
Lemma free_merge_words :
  exists m5, free_block m (b_addr b) = (m5, b_addr p) /\
    lists m5 info (bs0 ++ bs2) (filter (fun n => n <> b_link p) D1) /\
    hdr m5 (blk_merge p b) (last_addr 0 bs0) (first_addr bs2 0) /\
    (bs2 <> [] -> m5 (b_end b + off_prev) = b_addr p) /\
    m5 (b_addr b + off_magic) = 0 /\
    forall x, nonlink x -> ~ (b_addr p + off_lenth <= x < b_addr p + off_link) ->
      ~ (b_addr b <= x < b_addr b + off_link) -> (bs2 <> [] -> x <> b_end b + off_prev) -> m5 x = m x.
Proof using HP Hdb Hdp.
  pose proof (pi_tiles _ _ _ _ _ _ HP) as HT. destruct (pi_info HP) as (_ & _ & Hi).
  destruct (pi_arena HP) as [Ha0 He]. destruct (pool_links _ _ _ _ _ _ HP) as [Lb LD].
  assert (bs = (bs0 ++ [p]) ++ b :: bs2) as Ebs by (by rewrite <- app_assoc).
  pose proof (pi_chain _ _ _ _ _ _ HP) as Hc.
  destruct (chain_next _ _ _ _ _ _ Hc) as (P1 & P2 & P3 & P4 & P5).
  rewrite Ebs in Hc. destruct (chain_next _ _ _ _ _ _ Hc) as (B1 & B2 & B3 & B4 & B5).
  rewrite last_addr_snoc in B4. change (first_addr (b :: bs2) 0) with (b_addr b) in P5.
  destruct (tiles_cut _ _ _ _ _ _ HT) as (Sp & ? & ? & _ & _ & Hg). destruct (Hg b ltac:(in_list)) as (Eb & ? & ?).
  pose proof HT as HT'. rewrite Ebs in HT'. destruct (tiles_cut _ _ _ _ _ _ HT') as (Sb & ? & ? & [f' HT2] & _ & _).
  pose proof (fun k H => header_not_link info a e _ _ HT Hi p (b_addr p + k) ltac:(in_list) H) as Np.
  pose proof (fun k H => header_not_link info a e _ _ HT Hi b (b_addr b + k) ltac:(in_list) H) as Nb.
  destruct free_merge_detach as [HL2 Ha2].
  unfold free_block. unfold blk_shape, b_end in *.
  assert (forall k, 0 <= k < off_link -> nonlink (b_addr p + k)) as Np' by (intros; apply Np; lia).
  assert (forall k, 0 <= k < off_link -> nonlink (b_addr b + k)) as Nb' by (intros; apply Nb; lia).
  clear Np Nb.
  assert (b_addr b = b_addr p + b_len p) as Eb' by (apply tiles_app in HT as (_ & _ & _ & E & _); exact E).
  rewrite !(st_ne _ _ _ (b_addr b + off_prev)) by (unfold_offsets; lia).
  rewrite !(st_ne _ _ _ (b_addr b + off_next)) by (unfold_offsets; lia).
  rewrite !(st_ne _ _ _ (b_addr b + off_lenth)) by (unfold_offsets; lia). rewrite B2, B4, B5.
  set (m1 := st _ (b_addr b + off_remain) _) in *. set (m2 := memory_block_detach m1 _) in *.
  rewrite (isValid_true (b_addr p)) by lia.
  rewrite !(st_ne m2) by (unfold_offsets; lia).
  rewrite !Ha2 by (first [apply Np'|apply Nb']; unfold_offsets; lia).
  pose proof (free_merge_prev m2 (b_len p + b_len b) (b_rem p + b_len b) (first_addr bs2 0) nullptr HL2) as [HL4 Ha4].
  unfold m1 at 1 2 3 4 5 6 7 8. unfold_offsets. mem_simp. rewrite P2, P3, B2, !u32_id by (unfold W32 in *; lia).
  set (m4 := memory_block_detach _ (b_addr p)) in *.
  assert (forall k, 0 <= k < 24 -> m4 (b_addr p + k) = if decide (k = 8) then b_len p + b_len b else
            if decide (k = 12) then b_rem p + b_len b else if decide (k = 20) then first_addr bs2 0 else m (b_addr p + k)) as Wp.
  { intros k Hk. rewrite Ha4 by auto. repeat case_decide; subst; mem_simp; try done.
    rewrite Ha2 by auto. subst m1. mem_simp. done. }
  assert (m4 (b_addr b + 0) = 0) as Wb.
  { rewrite Ha4 by (apply Nb'; lia). mem_simp. rewrite Ha2 by (apply Nb'; lia). subst m1. mem_simp. done. }
  assert (forall x, nonlink x -> ~ (b_addr p + 8 <= x < b_addr p + 24) -> ~ (b_addr b <= x < b_addr b + 24) ->
            m4 x = m x) as Wx.
  { intros x Nx ? ?. rewrite Ha4 by done. mem_simp. rewrite Ha2 by done. subst m1. mem_simp. done. }
  assert (hdr m4 (blk_merge p b) (last_addr 0 bs0) (first_addr bs2 0)) as Hh.
  { unfold hdr, blk_merge; simpl. unfold_offsets. rewrite !Wp by lia. simpl. done. }
  clearbody m4. clear HL2 Ha2 Ha4 m1 m2.
  destruct (next_valid _ _ _ _ HT2 ltac:(lia) He) as [[Hn Ef]|(Hn & Ef & Hv)].
  - rewrite Ef in *. simpl. exists m4. split_and!; try done.
    intros x ? ? ? ?. by apply Wx.
  - rewrite Hv, Ef in *. assert (exists c, c ∈ bs2 /\ b_addr c = b_addr b + b_len b) as (c & Hc2 & Ec).
    { destruct bs2 as [|c bs3]; [done|]. exists c. split; [in_list|apply HT2]. }
    eexists. split_and!; [done|..].
    + apply (lists_st _ info a e true bs _ _ c); [done|done|..|in_list|unfold off_link; lia|done].
      * intros d Hd. apply Lb. in_list.
      * intros k Hk. apply LD. rewrite !list_elem_of_filter in Hk. tauto.
    + unfold hdr, blk_merge in *; simpl in *. unfold_offsets. mem_simp. done.
    + intros _. mem_simp. done.
    + mem_simp. done.
    + intros x ? ? ? Hx. specialize (Hx Hn). mem_simp. by apply Wx.
Qed.

Lemma merge_end_header x : off_headers bs x -> bs2 <> [] -> x <> b_end b + off_prev.
Proof using HP.
  intros Hx Hn ->. pose proof (pi_tiles _ _ _ _ _ _ HP) as HT. apply tiles_app in HT as (_ & _ & _ & _ & _ & T2).
  destruct bs2 as [|c bs3]; [done|]. simpl in T2. apply (Hx c); [in_list|]. unfold_offsets. lia.
Qed.

Lemma merge_links x :
  link_cell info (arena_links (bs0 ++ blk_merge p b :: bs2)) x -> link_cell info (arena_links bs) x.
Proof using.
  apply link_cell_mono. intros n (c & Hc & ->).
  apply elem_of_app in Hc as [Hc|[->|Hc]%elem_of_cons]; [exists c|exists p|exists c]; (split; [in_list|done]).
Qed.

Lemma merge_self n :
  n ∈ filter (fun n => n <> b_link p) D1 ->
  exists c, c ∈ bs0 ++ blk_merge p b :: bs2 /\ n = b_link c /\ b_rem c = 0.
Proof using HP.
  rewrite !list_elem_of_filter. intros (Np & Nb & Hn).
  destruct (pi_self _ _ _ _ _ _ HP _ Hn) as (c & Hc & -> & Hr). exists c. split; [|done].
  assert (c <> p /\ c <> b) as [??] by (split; intros ->; done). in_list.
Qed.

Lemma free_merge_spec fuel (bs' := bs0 ++ blk_merge p b :: bs2) (D' := filter (fun n => n <> b_link p) D1) :
  (length bs <= fuel)%nat ->
  exists m5 m', free_block m (b_addr b) = (m5, b_addr p) /\
    memory_block_attach fuel m5 info nullptr (b_addr p) = Ok m' /\ pool_inv m' info a e bs' D' /\
    agree (fun x => ~ owned info bs x) m m' /\ m' (b_addr b + off_magic) = 0.
Proof using HP Hdb Hdp.
  intros Hf. destruct free_merge_words as (m5 & E5 & HL & Hh & Hn & Hz & Hx).
  pose proof (pi_tiles _ _ _ _ _ _ HP) as HT. destruct (pi_info HP) as (_ & _ & Hi).
  pose proof (pi_chain _ _ _ _ _ _ HP) as Hc. pose proof (pi_magics _ _ _ _ _ _ HP) as Hm.
  pose proof (header_not_link info a e _ _ HT Hi) as Nh. pose proof (tiles_shape _ _ _ _ b HT ltac:(in_list)) as Sb.
  pose proof (merge_tiles _ _ _ _ _ _ _ HT) as HT'. destruct (tiles_cut _ _ _ _ _ _ HT) as (Sp & _ & _ & _ & H1 & _).
  destruct (tiles_cut _ _ _ _ _ _ HT') as (_ & _ & _ & [f2 T2] & _ & H2).
  assert (forall x, nonlink x -> off_headers bs x -> m5 x = m x) as Hx'.
  { intros x Nx Hxo. apply Hx; [done|..|by apply merge_end_header].
    - specialize (Hxo p ltac:(in_list)). unfold_offsets. lia.
    - apply (Hxo b). in_list. }
  pose proof HT as (T1 & _ & _ & Eb & _ & _)%tiles_app. apply chain_app in Hc as (C1 & _ & _ & C2).
  unfold magics in Hm. rewrite Forall_app, !Forall_cons in Hm. destruct Hm as (M1 & Mp & _ & M2).
  assert (b_end (blk_merge p b) = b_end b) as Ee by (unfold b_end in *; simpl; lia). rewrite Ee in T2, H2.
  unfold blk_shape, b_end in Sp, Sb, Eb, H1, H2.
  destruct (relink_chain m m5 0 (b_addr b) true f2 a (b_addr p) (b_end b) e 0 bs0 (blk_merge p b) bs2) as [C5 M5]; try done.
  { simpl. intros Hr. rewrite Hx; [apply Mp; lia|apply (Nh p); [in_list|]|..]; unfold_offsets; try lia.
    unfold b_end. lia. }
  { intros c x Hin Hxc. specialize (H1 c Hin). apply Hx; [apply (Nh c); [in_list|done]|..]; unfold_offsets; try lia.
    unfold b_end. lia. }
  { intros c x Hin Hxc Hne. specialize (H2 c Hin). apply Hx; [apply (Nh c); [in_list|done]|..]; unfold_offsets; lia. }
  destruct (attach_pool fuel m m5 info a e bs0 (blk_merge p b) bs2 D' (pi_frame _ _ _ _ _ _ HP) HT' C5 M5 HL merge_self) as (m' & E' & HP' & Ha').
  { intros x Hxi. apply Hx'; [by eapply info_not_link|]. eapply info_not_header; try done. unfold info_size. lia. }
  { rewrite !length_app in *. simpl in *. lia. }
  exists m5, m'. split_and!; [done|exact E'|exact HP'| |].
  - intros x Hxo. rewrite Ha', Hx'; [done|..|by eapply header_owned|].
    + intros Hl. by apply Hxo, link_owned.
    + intros Hl%merge_links. by apply Hxo, link_owned.
  - rewrite Ha'; [done|]. intros Hl%merge_links. revert Hl. apply (Nh b); [in_list|unfold_offsets; lia].
Qed.
End free_merge.

(** Releasing the first block of the arena: it becomes entirely unused. *)
Section free_first.
Context (m : mem) (info a e : Z) (b : blk) (bs2 : list blk) (D : list Z).
Context (HP : pool_inv m info a e (b :: bs2) D) (Hdb : detachable b D).
Notation bs := (b :: bs2).
Notation nonlink := (fun x => ~ link_cell info (arena_links bs) x).
Notation D1 := (filter (fun n => n <> b_link b) D).

Lemma free_first_words :
  exists m5, free_block m (b_addr b) = (m5, b_addr b) /\ lists m5 info bs2 D1 /\
    hdr m5 (blk_unused b) 0 (first_addr bs2 0) /\
    (bs2 <> [] -> m5 (b_end b + off_prev) = b_addr b) /\ m5 (b_addr b + off_magic) = 0 /\
    forall x, nonlink x -> ~ (b_addr b <= x < b_addr b + off_link) ->
      (bs2 <> [] -> x <> b_end b + off_prev) -> m5 x = m x.
Proof using HP Hdb.
  pose proof (pi_tiles _ _ _ _ _ _ HP) as HT. destruct (pi_info HP) as (_ & _ & Hi).
  destruct (pi_arena HP) as [Ha0 He]. destruct (pool_links _ _ _ _ _ _ HP) as [Lb LD].
  destruct (pi_chain _ _ _ _ _ _ HP) as [(B1 & B2 & B3 & B4 & B5) _].
  assert (forall k, 0 <= k < off_link -> nonlink (b_addr b + k)) as Nb.
  { intros k Hk. apply (header_not_link info a e _ _ HT Hi b); [in_list|lia]. }
  destruct (detach_any info (arena_links bs)
    (st (st m (b_addr b + off_magic) 0) (b_addr b + off_remain) (b_len b)) [] b bs2 D Lb LD Hdb) as [HL2 Ha2].
  { do 2 (apply (lists_st _ info a e true bs bs D b); [done..|in_list|unfold_offsets; lia|]).
    apply (pi_lists _ _ _ _ _ _ HP). }
  apply lists_drop in HL2. simpl in HL2. unfold free_block.
  rewrite !(st_ne _ _ _ (b_addr b + off_prev)) by (unfold_offsets; lia).
  rewrite !(st_ne _ _ _ (b_addr b + off_next)) by (unfold_offsets; lia).
  rewrite !(st_ne _ _ _ (b_addr b + off_lenth)) by (unfold_offsets; lia). rewrite B2, B4, B5. simpl.
  set (m2 := memory_block_detach _ _) in *.
  assert (hdr m2 (blk_unused b) 0 (first_addr bs2 0) /\ m2 (b_addr b + off_magic) = 0) as [Hh Hz].
  { unfold hdr. simpl. rewrite !Ha2 by (apply Nb; unfold_offsets; lia). unfold_offsets. mem_simp. done. }
  assert (forall x, nonlink x -> ~ (b_addr b <= x < b_addr b + off_link) -> m2 x = m x) as Hx.
  { intros x Nx ?. rewrite Ha2 by done. unfold_offsets. mem_simp. done. }
  clearbody m2. clear Ha2. simpl in HT. destruct HT as (Ea & Sb & T2). unfold blk_shape, b_end in *.
  destruct (next_valid _ _ _ _ T2 ltac:(lia) He) as [[Hn Ef]|(Hn & Ef & Hv)].
  - rewrite Ef in *. simpl. exists m2. split_and!; try done. intros x ? ? ?. by apply Hx.
  - rewrite Hv, Ef in *. assert (exists c, c ∈ bs2 /\ b_addr c = b_addr b + b_len b) as (c & Hc2 & Ec).
    { destruct bs2 as [|c bs3]; [done|]. exists c. split; [in_list|apply T2]. }
    eexists. split_and!; [done|..].
    + apply (lists_st _ info a e true bs _ _ c); [by apply (pi_tiles _ _ _ _ _ _ HP)|done|..|in_list|unfold_offsets; lia|done].
      * intros d Hd. apply Lb. in_list.
      * intros k Hk. apply LD. rewrite !list_elem_of_filter in Hk. tauto.
    + unfold hdr, blk_unused in *; simpl in *. unfold_offsets. mem_simp. done.
    + intros _. mem_simp. done.
    + unfold_offsets. mem_simp. done.
    + intros x ? ? Hxn. specialize (Hxn Hn). mem_simp. by apply Hx.
Qed.

Lemma free_first_spec fuel :
  (length bs <= fuel)%nat ->
  exists m5 m', free_block m (b_addr b) = (m5, b_addr b) /\
    memory_block_attach fuel m5 info nullptr (b_addr b) = Ok m' /\
    pool_inv m' info a e (blk_unused b :: bs2) D1 /\
    agree (fun x => ~ owned info bs x) m m' /\ m' (b_addr b + off_magic) = 0.
Proof using HP Hdb.
  intros Hf. destruct free_first_words as (m5 & E5 & HL & Hh & Hn & Hz & Hx).
  pose proof (pi_tiles _ _ _ _ _ _ HP) as HT. destruct (pi_info HP) as (_ & _ & Hi).
  pose proof (pi_chain _ _ _ _ _ _ HP) as [_ C2]. pose proof (pi_magics _ _ _ _ _ _ HP) as [_ M2]%Forall_cons.
  pose proof (header_not_link info a e _ _ HT Hi) as Nh.
  destruct (tiles_cut _ _ [] _ _ _ HT) as (Sb & _ & _ & [f2 T2] & _ & H2).
  assert (tiles true a (blk_unused b :: bs2) e) as HT'.
  { destruct HT as (Ea & S & T). unfold blk_shape, b_used, b_end in *. simpl.
    unfold blk_shape, b_used. simpl. rewrite Z.sub_diag. split_and!; try done; try lia; try tauto. by exists 0. }
  assert (forall x, nonlink x -> off_headers bs x -> m5 x = m x) as Hx'.
  { intros x Nx Hxo. apply Hx; [done|apply (Hxo b); in_list|]. intros Hne ->.
    destruct bs2 as [|c bs3]; [done|]. apply (Hxo c); [in_list|]. simpl in T2. unfold_offsets. lia. }
  unfold blk_shape, b_end in Sb, H2.
  destruct (relink_chain m m5 0 (b_addr b) true f2 a a (b_end b) e 0 [] (blk_unused b) bs2) as [C5 M5]; try done.
  { apply HT. }
  { by apply Forall_nil. }
  { simpl. lia. }
  { intros Hne. rewrite Hn by done. apply HT. }
  { intros c x Hin. set_solver. }
  { intros c x Hin Hxc Hne. specialize (H2 c Hin). apply Hx; [apply (Nh c); [in_list|done]|..]; unfold_offsets; lia. }
  destruct (attach_pool fuel m m5 info a e [] (blk_unused b) bs2 D1 (pi_frame _ _ _ _ _ _ HP) HT' C5 M5 HL) as (m' & E' & HP' & Ha').
  { intros n [Nb Hn1]%list_elem_of_filter. destruct (pi_self _ _ _ _ _ _ HP _ Hn1) as (c & Hc & -> & Hr).
    exists c. split; [|done]. assert (c <> b) by (intros ->; done). simpl. in_list. }
  { intros x Hxi. apply Hx'; [by eapply info_not_link|]. eapply info_not_header; try done. unfold info_size. lia. }
  { simpl in *. lia. }
  assert (forall x, link_cell info (arena_links (blk_unused b :: bs2)) x -> link_cell info (arena_links bs) x) as Hl.
  { intros x. apply link_cell_mono. intros n (c & Hc & ->).
    apply elem_of_cons in Hc as [->|Hc]; [exists b|exists c]; (split; [in_list|done]). }
  exists m5, m'. split_and!; [done|exact E'|exact HP'| |].
  - intros x Hxo. rewrite Ha', Hx'; [done|..|by eapply header_owned|]; intros Hlk; apply Hxo, link_owned; auto.
  - rewrite Ha'; [done|]. intros Hlk%Hl. revert Hlk. apply (Nh b); [in_list|unfold_offsets; lia].
Qed.
End free_first.

(** ** Creation *)
Lemma init_hashes info m n :
  (n <= NR_MEM_NUM)%nat ->
  let m' := foldl (fun m index => init_list_head m (info_hash info index)) m (seq 0 n) in
  dlists m' ((fun i => (info_hash info i, [])) <$> seq 0 n) /\
  forall x, ~ (info + 12 <= x < info + info_alloc) -> m' x = m x.
Proof.
  unfold NR_MEM_NUM. induction n as [|n IH]; intros Hn; [split; [split; constructor|done]|].
  destruct IH as [HD Hx]; [lia|]. rewrite seq_S, foldl_app, fmap_app. simpl in *.
  set (m1 := foldl _ _ _) in *. split.
  - rewrite <- Permutation_cons_append. apply init_list_head_spec; [done|].
    apply Forall_forall. intros k Hk. apply elem_of_nodes in Hk as (en & He & Hk).
    apply list_elem_of_fmap in He as (i & -> & Hi%elem_of_seq). simpl in Hk.
    apply list_elem_of_singleton in Hk as ->. unfold apart, info_hash. lia.
  - intros x Hne. unfold init_list_head, set_next, set_prev. unfold info_hash, info_alloc in *.
    rewrite !st_ne by lia. by apply Hx.
Qed.

Lemma create_spec fa ff fuel m info mem_addr size (a := mrt_num_align8 mem_addr)
    (b := Blk a (mem_addr + size - a) (mem_addr + size - a)) :
  0 < info -> info + info_size <= W32 - 4096 -> isValid (m (info + info_mem)) = false ->
  0 < mem_addr -> mem_addr + size < W32 - 4096 -> 39 <= size ->
  info + info_size <= mem_addr \/ mem_addr + size <= info ->
  exists m', memory_block_create fa ff fuel m info mem_addr size = Ok (m', ER_NORMAL) /\
    pool_inv m' info a (mem_addr + size) [b] [] /\ created fa ff m m' info a.
Proof.
  intros Hi0 Hi1 Hv Ha0 Hae Hs Hi.
  destruct (align8_spec mem_addr) as [Hal H8]; [unfold W32 in *; lia|]. fold a in Hal, H8.
  unfold memory_block_create. rewrite isValid_true by (unfold info_size in *; lia).
  rewrite (proj2 (Z.leb_gt _ _)) by (unfold MEM_BLOCK_HEADER_SIZE; lia). cbn [negb orb]. rewrite Hv. fold a.
  unfold info_base, info_lenth, info_mem, info_free, info_size in *. rewrite Z.add_0_r. unfold_offsets. mem_simp.
  rewrite (u32_id (a - mem_addr)), (u32_id (size - (a - mem_addr))), (u32_id (a + 32)) by (unfold W32 in *; lia).
  replace (size - (a - mem_addr)) with (mem_addr + size - a) by lia.
  set (m1 := st _ (info + 8) a).
  destruct (init_hashes info m1 NR_MEM_NUM ltac:(done)) as [HD Hx].
  set (m2 := foldl _ _ _) in *. unfold info_alloc in *. set (m3 := st (st m2 (info + 124) fa) (info + 128) ff).
  assert (forall x, ~ (info + 12 <= x < info + 132) -> m3 x = m1 x) as Hx3.
  { intros x Hn. subst m3. rewrite !st_ne by lia. apply Hx. lia. }
  assert (lists m3 info [] []) as HL3.
  { unfold lists. rewrite app_nil_r. revert HD. apply dlists_agree.
    intros n Hn. apply elem_of_nodes in Hn as (en & He & Hn).
    apply list_elem_of_fmap in He as (i & -> & Hin%elem_of_seq). simpl in Hn.
    apply list_elem_of_singleton in Hn as ->. unfold NR_MEM_NUM, info_hash in *. subst m3. mem_simp. done. }
  assert (m3 (info + 124) = fa /\ m3 (info + 128) = ff) as [Hfa Hff] by (subst m3; by mem_simp).
  clearbody m3. clear HD Hx m2.
  assert (forall x, ~ (info <= x < info + 132) /\ ~ (a <= x < a + 32) -> m3 x = m x) as Hxm.
  { intros x Hn. rewrite Hx3 by lia. subst m1. by mem_simp. }
  assert (hdr m3 b 0 0 /\ m3 (a + 0) = MEMORY_POOL_MAGIC) as [Hh Hg].
  { unfold hdr, b, b_ptr, off_base; simpl. unfold_offsets. rewrite !Hx3 by lia. subst m1. mem_simp. done. }
  assert (pool_frame m3 info a (mem_addr + size)) as Hfr.
  { constructor; unfold info_base, info_lenth, info_mem, info_size; try lia.
    all: rewrite Hx3 by lia; subst m1; rewrite ?Z.add_0_r; mem_simp; done. }
  clearbody m1. clear Hx3.
  destruct (attach_pool fuel m3 m3 info a (mem_addr + size) [] b [] [] Hfr) as (m' & E & HP & Hlk); try done.
  - simpl. unfold blk_shape, b_used, b_end. simpl. rewrite Z.sub_diag.
    split_and!; try done; try lia. by exists 0.
  - unfold magics. by apply Forall_singleton.
  - intros n Hn. set_solver.
  - simpl. lia.
  - change (b_addr b) with a in E. rewrite E. exists m'. split_and!; [done..|].
    assert (forall x, (info + 12 <= x < info + 124 -> False) -> (a + 24 <= x < a + 32 -> False) -> m' x = m3 x) as Hout.
    { intros x H1 H2. apply Hlk. intros [H|(n & (c & Hc & ->) & H)]; [unfold info_alloc in H; lia|].
      apply list_elem_of_singleton in Hc as ->. rewrite link_off in H. simpl in H. lia. }
    unfold created, info_alloc, info_free, info_size, MEM_BLOCK_HEADER_SIZE. split_and!; [rewrite Hout by lia; done..|].
    intros x Hn. rewrite Hout by lia. by apply Hxm.
Qed.
