(* ===== verification/MemBlockSpec.v ===== *)
(** * Contract of the segregated-list allocator

    The client's view of a pool of mem_block.c is the set of live allocations
    [allocs]: pointers with their usable sizes.  The theorems state that
    creation starts with none, allocation adds one and release removes one,
    that the live allocations are aligned, disjoint and inside the arena, and
    that their contents are only changed by the client.  [clean] pools are
    those in which every exhausted block has an initialised link node; the
    last theorem shows the one situation in which the code leaves it. *)

From stdpp Require Import prelude gmap fin_maps sorting.
From S2P Require Import Prelude Mem ListHead MemPool MemBlock.

(** Every exhausted block is linked to itself. *)
Definition clean (bs : list blk) (D : list Z) : Prop :=
  forall b, b ∈ bs -> b_rem b = 0 -> b_link b ∈ D.

Lemma clean_detachable m info a e bs D b :
  pool_inv m info a e bs D -> clean bs D -> b ∈ bs -> detachable b D.
Proof.
  intros HP Hcl Hb. pose proof (tiles_shape _ _ _ _ b (pi_tiles _ _ _ _ _ _ HP) Hb) as (_ & _ & ? & _).
  destruct (decide (b_rem b = 0)) as [Hz|Hz]; [right; auto|left]. split; [lia|]. intros Hin.
  destruct (pi_self _ _ _ _ _ _ HP _ Hin) as (c & Hc & E & Hr). apply Hz.
  rewrite (tiles_addr_inj _ _ _ _ b c (pi_tiles _ _ _ _ _ _ HP)); [done..|]. rewrite !link_off in E. lia.
Qed.

Lemma payload_unowned m info a e bs D p s x :
  pool_inv m info a e bs D -> (p, s) ∈ allocs bs -> p <= x < p + s -> ~ owned info bs x.
Proof.
  intros HP Hp Hx. destruct (payload_off_headers _ _ _ _ _ _ _ (pi_tiles _ _ _ _ _ _ HP) Hp Hx) as [Hr Hh].
  destruct (pi_info HP) as (_ & _ & Hi). intros [H|(c & Hc & H)]; [unfold info_alloc, info_size in *; lia|by apply (Hh c)].
Qed.

(** *** Allocation *)
Lemma alloc_cases fuel m info a e bs D size (t := mrt_num_align8 size + 32) :
  pool_inv m info a e bs D -> 0 <= size <= W32 - 40 -> (length bs <= fuel)%nat ->
  (alloc_spare_memory fuel m info size = Ok (m, nullptr) /\ forall b, b ∈ bs -> b_rem b < t) \/
  exists bs1 b bs2 m', bs = bs1 ++ b :: bs2 /\ 32 <= t <= b_rem b /\
    alloc_spare_memory fuel m info size = Ok (m', b_addr b + b_used b + 32) /\
    pool_inv m' info a e (bs1 ++ alloc_blks b t ++ bs2) (alloc_self b t D) /\
    agree (fun x => ~ owned info (bs1 ++ alloc_blks b t ++ bs2) x) m m'.
Proof.
  intros HP Hs Hf. destruct (align8_request size Hs) as (Et & H8 & Ht). fold t in Et, H8, Ht.
  destruct (pi_info HP) as (Hi0 & Hi1 & _). destruct (pi_arena HP) as [Ha0 He].
  pose proof (pi_tiles _ _ _ _ _ _ HP) as HT.
  assert (forall b, b ∈ bs -> m (b_addr b + off_remain) = b_rem b /\ 0 < b_addr b) as Hrem.
  { intros b Hb. destruct (chain_hdr _ _ _ _ b (pi_chain _ _ _ _ _ _ HP) Hb) as (? & ? & _ & _ & E & _).
    destruct (tiles_bounds _ _ _ _ b HT Hb). split; [done|lia]. }
  unfold alloc_spare_memory. rewrite isValid_true by (unfold info_size in *; lia).
  rewrite (pi_mem HP), (proj2 (Z.eqb_neq a 0)) by lia. simpl. rewrite Et.
  destruct (get_avaliable_spec fuel m info bs D (pi_lists _ _ _ _ _ _ HP) Hf Hrem t Ht) as (r & -> & Hr). simpl.
  destruct Hr as [(b & Hb & Hr0 & Hr & ->)|[-> Hno]].
  - right. rewrite (proj2 (Z.eqb_neq (b_addr b) 0)) by (destruct (Hrem b Hb); lia).
    apply elem_of_split_list in Hb as (bs1 & bs2 & ->). exists bs1, b, bs2.
    destruct (alloc_from_spec fuel m info a e bs1 b bs2 D t HP (conj Ht Hr) H8 Hf) as (m' & E' & HP' & Ha').
    exists m'. split_and!; try done; lia.
  - left. split; [done|]. intros b Hb. destruct (Z.lt_ge_cases 0 (b_rem b)); [by apply Hno|lia].
Qed.

(** An exact fit is the one request after which a used block hands its whole
    tail to a new block. *)
Definition exact_fit (bs : list blk) (t : Z) : Prop := exists b, b ∈ bs /\ 0 < b_used b /\ b_rem b = t.

Lemma clean_alloc bs1 b bs2 t D :
  blk_shape true b -> 32 <= t <= b_rem b -> clean (bs1 ++ b :: bs2) D -> ~ exact_fit (bs1 ++ b :: bs2) t ->
  clean (bs1 ++ alloc_blks b t ++ bs2) (alloc_self b t D).
Proof.
  intros Hs Ht Hcl Hne c Hc Hr. unfold blk_shape in Hs.
  assert (forall n, n ∈ D -> n ∈ alloc_self b t D) as Hsub.
  { intros n Hn. unfold alloc_self. repeat case_test; try done; by right. }
  assert (c ∈ bs1 ++ bs2 \/ c ∈ alloc_blks b t) as [Hin|Hin] by in_list.
  - apply Hsub, Hcl; [in_list|done].
  - unfold alloc_blks, alloc_self in *. destruct (Z.eqb_spec (b_used b) 0) as [Hu|Hu].
    + apply list_elem_of_singleton in Hin as ->. simpl in Hr. rewrite Hr. left.
    + apply elem_of_cons in Hin as [->|Hin]; [left|]. apply list_elem_of_singleton in Hin as ->.
      simpl in Hr. exfalso. apply Hne. exists b. split; [in_list|]. lia.
Qed.

(** *** Release *)
Lemma free_cases fuel m info a e bs1 b bs2 D :
  pool_inv m info a e (bs1 ++ b :: bs2) D -> 0 < b_used b -> detachable b D -> (forall p, last bs1 = Some p -> detachable p D) ->
  (length (bs1 ++ b :: bs2) <= fuel)%nat ->
  exists m' bs' D', free_employ_memory fuel m info (b_ptr b) = Ok m' /\ pool_inv m' info a e bs' D' /\
    (clean (bs1 ++ b :: bs2) D -> clean bs' D') /\ (b_ptr b, b_used b - 32) :: allocs bs' ≡ₚ allocs (bs1 ++ b :: bs2) /\
    agree (fun x => ~ owned info (bs1 ++ b :: bs2) x) m m' /\ m' (b_addr b + off_magic) = 0 /\
    (length bs' <= length (bs1 ++ b :: bs2))%nat.
Proof.
  intros HP Hu Hdb Hdp Hf. pose proof (pi_tiles _ _ _ _ _ _ HP) as HT. destruct (pi_arena HP) as [Ha0 He].
  destruct (tiles_cut _ _ _ _ _ _ HT) as (Hs & Hb1 & Hb2 & _). unfold blk_shape, b_end in Hs, Hb2.
  destruct (tiles_prefix _ _ _ _ _ _ HT) as [R1 R2].
  destruct (chain_next _ _ _ _ _ _ (pi_chain _ _ _ _ _ _ HP)) as (E1 & _).
  pose proof (pi_magics _ _ _ _ _ _ HP) as (_ & [Hm _]%Forall_cons)%Forall_app.
  unfold free_employ_memory, check_employ_memory, IS_MEMORYPOOL_VALID.
  replace (b_ptr b - MEM_BLOCK_HEADER_SIZE) with (b_addr b) by (unfold b_ptr; lia).
  rewrite (u32_id (b_addr b)), (isValid_true (b_addr b)), (isValid_true (b_ptr b)), E1, Hm, !Z.eqb_refl
    by (unfold b_ptr, MEM_BLOCK_HEADER_SIZE, b_used, W32 in *; lia). simpl.
  rewrite (proj2 (Z.eqb_neq (b_addr b) 0)) by lia.
  destruct bs1 as [|p bs0 _] using rev_ind.
  - destruct (free_first_spec m info a e b bs2 D HP Hdb fuel Hf)
      as (m5 & m' & E5 & E' & HP' & Ha' & Hz). rewrite E5, E'. exists m'. do 2 eexists.
    split_and!; [done|exact HP'|..|exact Ha'|exact Hz|done].
    + intros Hcl c [->|Hc]%elem_of_cons Hr; [simpl in Hr; lia|]. apply list_elem_of_filter. split.
      * intros E. rewrite !link_off in E. specialize (R2 c Hc). lia.
      * apply Hcl; [in_list|done].
    + simpl. rewrite allocs_unused, (allocs_used b) by (unfold b_used in *; simpl; lia). done.
  - rewrite <- app_assoc in *. simpl in *.
    destruct (free_merge_spec m info a e bs0 p b bs2 D HP Hdb (Hdp p (last_snoc p bs0)) fuel Hf)
      as (m5 & m' & E5 & E' & HP' & Ha' & Hz). rewrite E5, E'. exists m'. do 2 eexists.
    split_and!; [done|exact HP'|..|by apply allocs_merge|exact Ha'|exact Hz|rewrite !length_app; simpl; lia].
    intros Hcl c Hc Hr. rewrite !list_elem_of_filter.
    destruct (tiles_prefix _ _ _ _ _ _ (pi_tiles _ _ _ _ _ _ HP')) as [Q1 Q2].
    destruct (tiles_shape _ _ _ _ p HT ltac:(in_list)) as (_ & _ & ? & _).
    apply elem_of_app in Hc as [Hc|[->|Hc]%elem_of_cons]; [|simpl in Hr; lia|].
    + specialize (Q1 c Hc). specialize (R1 c ltac:(in_list)). simpl in Q1.
      split_and!; [..|apply Hcl; [in_list|done]]; intros E; rewrite !link_off in E; lia.
    + specialize (Q2 c Hc). specialize (R2 c Hc). simpl in Q2.
      split_and!; [..|apply Hcl; [in_list|done]]; intros E; rewrite !link_off in E; lia.
Qed.

(** Only the cells the pool owns matter to it. *)
Lemma pool_inv_keep m m' info a e bs D :
  pool_inv m info a e bs D -> agree (owned info bs) m m' -> pool_inv m' info a e bs D.
Proof.
  intros HP Hk.
  assert (keeps_hdrs m m' bs) as Hh.
  { intros b x Hb Hx. apply Hk. right. exists b. unfold_offsets. split; [done|lia]. }
  eapply pool_inv_rebuild; [apply HP|apply HP|apply HP|..|apply HP|].
  - eapply chain_keep, pi_chain; done.
  - eapply magics_keep, pi_magics; done.
  - destruct (pool_links _ _ _ _ _ _ HP) as [Lb LD].
    apply (lists_frame info (arena_links bs) m); [done..| |apply HP]. intros x Hx. by apply Hk, link_owned.
  - intros x Hx. apply Hk. left. unfold info_alloc. lia.
Qed.

(** *** A concrete pool *)
Definition demo_start : mem := fun _ => 0.
Definition demo_pool : mem :=
  match memory_block_create 8 12 20 demo_start 100 1001 400 with Ok (m, _) => m | _ => demo_start end.

Lemma demo_pool_inv : pool_inv demo_pool 100 1008 1401 [Blk 1008 393 393] [].
Proof.
  unfold demo_pool. destruct (create_spec 8 12 20 demo_start 100 1001 400) as (m' & -> & HP & _);
    unfold info_size, W32; try lia; try done.
Qed.

Lemma demo_clean : clean [Blk 1008 393 393] [].
Proof. intros b ->%list_elem_of_singleton. done. Qed.

(** ** Properties *)

(** On a pool descriptor not yet in use and a memory range of at least 39
    bytes, [memory_block_create] succeeds and leaves a well-formed pool whose
    arena is the 8-aligned rest of the range, as one block with nothing live. *)
Theorem memory_block_create_establishes fa ff fuel m info mem_addr size :
  0 < info -> info + info_size <= W32 - 4096 -> isValid (m (info + info_mem)) = false ->
  0 < mem_addr -> mem_addr + size < W32 - 4096 -> 39 <= size ->
  info + info_size <= mem_addr \/ mem_addr + size <= info ->
  exists m' a bs, memory_block_create fa ff fuel m info mem_addr size = Ok (m', ER_NORMAL) /\
    mem_addr <= a < mem_addr + 8 /\ pool_inv m' info a (mem_addr + size) bs [] /\
    clean bs [] /\ allocs bs = [].
Proof.
  intros Hi0 Hi1 Hv Ha0 Hae Hs Hi.
  destruct (create_spec fa ff fuel m info mem_addr size Hi0 Hi1 Hv Ha0 Hae Hs Hi) as (m' & E & HP & _).
  destruct (align8_spec mem_addr) as [Hal _]; [unfold W32 in *; lia|].
  exists m', (mrt_num_align8 mem_addr). eexists. split_and!; [exact E|lia..|exact HP| |].
  - intros b ->%list_elem_of_singleton. simpl. lia.
  - apply allocs_unused. unfold b_used. simpl. lia.
Qed.

Lemma memory_block_create_establishes_witness :
  exists m' a bs, memory_block_create 8 12 20 demo_start 100 1001 400 = Ok (m', ER_NORMAL) /\
    1001 <= a < 1001 + 8 /\ pool_inv m' 100 a (1001 + 400) bs [] /\ clean bs [] /\ allocs bs = [].
Proof.
  apply (memory_block_create_establishes 8 12 20 demo_start 100 1001 400);
    unfold info_size, W32; try lia; reflexivity.
Defined.

(** C31: allocation refines the abstract heap.  On a well-formed pool,
    [alloc_spare_memory] terminates and either returns null, leaving memory
    untouched, when no block has room for the aligned request and its header;
    or returns a pointer that becomes exactly one new live allocation of the
    aligned size, with every other live allocation kept and its contents
    unchanged.  A clean pool stays clean unless the request is an exact fit. *)
Theorem alloc_spare_memory_refines fuel m info a e bs D size :
  pool_inv m info a e bs D -> 0 <= size <= W32 - 40 -> (length bs <= fuel)%nat ->
  (alloc_spare_memory fuel m info size = Ok (m, nullptr) /\
   forall b, b ∈ bs -> b_rem b < mrt_num_align8 size + MEM_BLOCK_HEADER_SIZE) \/
  exists m' p bs' D', alloc_spare_memory fuel m info size = Ok (m', p) /\ isValid p = true /\
    pool_inv m' info a e bs' D' /\ allocs bs' ≡ₚ (p, mrt_num_align8 size) :: allocs bs /\
    (forall q s x, (q, s) ∈ allocs bs -> q <= x < q + s -> m' x = m x) /\
    (clean bs D -> ~ exact_fit bs (mrt_num_align8 size + MEM_BLOCK_HEADER_SIZE) -> clean bs' D') /\
    (length bs' <= S (length bs))%nat.
Proof.
  intros HP Hs Hf. destruct (alloc_cases fuel m info a e bs D size HP Hs Hf) as [[E Hno]|H]; [by left|right].
  destruct H as (bs1 & b & bs2 & m' & -> & Ht & E & HP' & Ha).
  pose proof (pi_tiles _ _ _ _ _ _ HP) as HT. pose proof (tiles_shape _ _ _ _ b HT ltac:(in_list)) as Hb.
  pose proof (allocs_alloc bs1 b bs2 _ Hb (proj1 Ht)) as Hal. rewrite Z.add_simpl_r in Hal.
  assert (forall q s, (q, s) ∈ allocs (bs1 ++ b :: bs2) -> (q, s) ∈ allocs (bs1 ++ alloc_blks b (mrt_num_align8 size + 32) ++ bs2)) as Hsub.
  { intros q s Hq. rewrite Hal. by right. }
  exists m', (b_addr b + b_used b + 32). do 2 eexists. split_and!; [exact E| |exact HP'|exact Hal|..].
  - apply isValid_true. destruct (pi_arena HP).
    destruct (tiles_allocs _ _ _ _ (b_addr b + b_used b + 32) (mrt_num_align8 size) (pi_tiles _ _ _ _ _ _ HP')); [|lia].
    rewrite Hal. left.
  - intros q s x Hq Hx. apply Ha. eapply payload_unowned; [exact HP'|by apply Hsub|done].
  - intros Hcl Hne. by apply clean_alloc.
  - rewrite !length_app. unfold alloc_blks. case_test; simpl; lia.
Qed.

Lemma alloc_spare_memory_refines_witness :
  (alloc_spare_memory 20 demo_pool 100 24 = Ok (demo_pool, nullptr) /\
   forall b, b ∈ [Blk 1008 393 393] -> b_rem b < mrt_num_align8 24 + MEM_BLOCK_HEADER_SIZE) \/
  exists m' p bs' D', alloc_spare_memory 20 demo_pool 100 24 = Ok (m', p) /\ isValid p = true /\
    pool_inv m' 100 1008 1401 bs' D' /\ allocs bs' ≡ₚ (p, mrt_num_align8 24) :: allocs [Blk 1008 393 393] /\
    (forall q s x, (q, s) ∈ allocs [Blk 1008 393 393] -> q <= x < q + s -> m' x = demo_pool x) /\
    (clean [Blk 1008 393 393] [] ->
     ~ exact_fit [Blk 1008 393 393] (mrt_num_align8 24 + MEM_BLOCK_HEADER_SIZE) -> clean bs' D') /\
    (length bs' <= 2)%nat.
Proof.
  apply (alloc_spare_memory_refines 20 demo_pool 100 1008 1401 [Blk 1008 393 393] [] 24);
    [exact demo_pool_inv|unfold W32; lia|simpl; lia].
Defined.

(** The pool above after one allocation of 24 bytes, at 1040. *)
Definition demo_used : mem :=
  match alloc_spare_memory 20 demo_pool 100 24 with Ok (m, _) => m | _ => demo_start end.

Lemma demo_used_inv : pool_inv demo_used 100 1008 1401 [Blk 1008 393 337] [].
Proof.
  unfold demo_used. destruct (alloc_cases 20 demo_pool 100 1008 1401 [Blk 1008 393 393] [] 24) as [[_ H]|H].
  - exact demo_pool_inv.
  - unfold W32; lia.
  - simpl; lia.
  - specialize (H (Blk 1008 393 393) ltac:(in_list)). revert H. vm_compute. done.
  - destruct H as (bs1 & b & bs2 & m' & E & _ & -> & HP & _).
    apply singleton_split in E as (-> & -> & ->). exact HP.
Qed.

Lemma demo_used_clean : clean [Blk 1008 393 337] [].
Proof. intros b ->%list_elem_of_singleton. done. Qed.

(** What a release relies on: the link nodes of the block and of the block in
    front of it, which takes it in, are initialised.  Only the new block of an
    exact fit has one that is not ([exact_fit_release_writes_outside]). *)
Definition releasable (bs : list blk) (D : list Z) (p : Z) : Prop :=
  forall bs1 b bs2, bs = bs1 ++ b :: bs2 -> b_ptr b = p -> detachable b D /\ forall q, last bs1 = Some q -> detachable q D.

Lemma clean_releasable m info a e bs D p : pool_inv m info a e bs D -> clean bs D -> releasable bs D p.
Proof.
  intros HP Hcl bs1 b bs2 -> _. pose proof (fun c => clean_detachable _ _ _ _ _ _ c HP Hcl) as Hdt.
  split; [apply Hdt; in_list|]. intros q Hq%last_Some_elem_of. apply Hdt. in_list.
Qed.

(** C32: release refines the abstract heap.  On a well-formed pool,
    [free_employ_memory] of a live pointer terminates, removes exactly that
    allocation, leaves a well-formed pool of no more blocks, and changes no byte
    of any other live allocation, provided that neither the block nor the one in
    front of it is the untouched result of an exact fit ([releasable]).  In a
    clean pool, one in which no exact fit has been served, every live pointer is
    like that, and the pool stays clean. *)
Theorem free_employ_memory_refines fuel m info a e bs D p s :
  pool_inv m info a e bs D -> (p, s) ∈ allocs bs -> (length bs <= fuel)%nat ->
  (clean bs D -> releasable bs D p) /\
  (releasable bs D p ->
   exists m' bs' D', free_employ_memory fuel m info p = Ok m' /\ pool_inv m' info a e bs' D' /\
    (clean bs D -> clean bs' D') /\ (p, s) :: allocs bs' ≡ₚ allocs bs /\
    (forall q r x, (q, r) ∈ allocs bs' -> q <= x < q + r -> m' x = m x) /\
    (length bs' <= length bs)%nat).
Proof.
  intros HP (b & Hb & Hu & -> & ->)%elem_of_allocs Hf. split; [by eapply clean_releasable|]. intros Hr.
  apply elem_of_split_list in Hb as (bs1 & bs2 & ->). destruct (Hr bs1 b bs2 eq_refl eq_refl) as [Hdb Hdp].
  destruct (free_cases fuel m info a e bs1 b bs2 D HP Hu Hdb Hdp Hf) as (m' & bs' & D' & E & HP' & Hcl' & Hal & Ha & _ & Hlen).
  exists m', bs', D'. split_and!; try done. intros q r x Hq Hx. apply Ha.
  eapply payload_unowned; [exact HP| |done]. rewrite <- Hal. by right.
Qed.

Lemma free_employ_memory_refines_witness :
  exists m' bs' D', free_employ_memory 20 demo_used 100 1040 = Ok m' /\ pool_inv m' 100 1008 1401 bs' D' /\
    clean bs' D' /\ (1040, 24) :: allocs bs' ≡ₚ allocs [Blk 1008 393 337] /\
    (forall q r x, (q, r) ∈ allocs bs' -> q <= x < q + r -> m' x = demo_used x) /\
    (length bs' <= 1)%nat.
Proof.
  destruct (free_employ_memory_refines 20 demo_used 100 1008 1401 [Blk 1008 393 337] [] 1040 24) as [Hc Hr];
    [exact demo_used_inv|vm_compute; left|simpl; lia|].
  destruct (Hr (Hc demo_used_clean)) as (m' & bs' & D' & E & HP & Hcl & Hrest). exists m', bs', D'. specialize (Hcl demo_used_clean). by split_and!; try apply Hrest.
Defined.

(** A second release of the same pointer does nothing: the first one
    erased the magic number of its header. *)
Theorem free_employ_memory_twice fuel m info a e bs D p s m' fuel' :
  pool_inv m info a e bs D -> releasable bs D p -> (p, s) ∈ allocs bs -> (length bs <= fuel)%nat ->
  free_employ_memory fuel m info p = Ok m' -> free_employ_memory fuel' m' info p = Ok m'.
Proof.
  intros HP Hr (b & Hb & Hu & -> & ->)%elem_of_allocs Hf E.
  pose proof (pi_tiles _ _ _ _ _ _ HP) as HT. destruct (arena_bounds _ _ _ _ HT b Hb).
  destruct (pi_arena HP). apply elem_of_split_list in Hb as (bs1 & bs2 & ->). destruct (Hr bs1 b bs2 eq_refl eq_refl) as [Hdb Hdp].
  destruct (free_cases fuel m info a e bs1 b bs2 D HP Hu Hdb Hdp Hf) as (m2 & bs' & D' & E2 & _ & _ & _ & _ & Hz & _).
  assert (m2 = m') as -> by congruence. unfold free_employ_memory, check_employ_memory, IS_MEMORYPOOL_VALID.
  replace (b_ptr b - MEM_BLOCK_HEADER_SIZE) with (b_addr b) by (unfold b_ptr; lia).
  rewrite u32_id, Hz by (unfold W32 in *; lia). simpl. rewrite orb_true_r. by case_test.
Qed.

Definition demo_freed : mem :=
  match free_employ_memory 20 demo_used 100 1040 with Ok m => m | _ => demo_start end.

Lemma demo_freed_eq : free_employ_memory 20 demo_used 100 1040 = Ok demo_freed.
Proof.
  destruct (free_cases 20 demo_used 100 1008 1401 [] (Blk 1008 393 337) [] []) as (m' & _ & _ & E & _);
    [exact demo_used_inv|reflexivity|apply (clean_detachable demo_used 100 1008 1401 [Blk 1008 393 337]); [exact demo_used_inv|exact demo_used_clean|left]|done|simpl; lia|].
  unfold demo_freed. change 1040 with (b_ptr (Blk 1008 393 337)). by rewrite E.
Qed.

Lemma free_employ_memory_twice_witness : free_employ_memory 3 demo_freed 100 1040 = Ok demo_freed.
Proof.
  apply (free_employ_memory_twice 20 demo_used 100 1008 1401 [Blk 1008 393 337] [] 1040 24 demo_freed 3);
    [exact demo_used_inv|exact (clean_releasable _ _ _ _ _ _ _ demo_used_inv demo_used_clean)|vm_compute; left|simpl; lia|exact demo_freed_eq].
Defined.

(** In a well-formed pool the live allocations are 8-aligned, lie inside
    the arena, do not overlap each other, and share no byte with the pool
    descriptor or with any block header. *)
Theorem pool_allocations_separate m info a e bs D :
  pool_inv m info a e bs D ->
  disjoint_allocs (allocs bs) /\
  forall p s, (p, s) ∈ allocs bs -> (8 | p) /\ 0 <= s /\ a + MEM_BLOCK_HEADER_SIZE <= p /\ p + s <= e /\
    forall x, p <= x < p + s -> ~ owned info bs x /\ ~ (info <= x < info + info_size).
Proof.
  intros HP. pose proof (pi_tiles _ _ _ _ _ _ HP) as HT. split; [by eapply tiles_allocs_disjoint|].
  intros p s Hp. destruct (tiles_allocs _ _ _ _ _ _ HT Hp) as (? & ? & ? & ? & ?). split_and!; try done.
  intros x Hx. split; [by eapply payload_unowned|]. destruct (pi_info HP) as (_ & _ & ?). unfold MEM_BLOCK_HEADER_SIZE in *. lia.
Qed.

Lemma pool_allocations_separate_witness :
  disjoint_allocs (allocs [Blk 1008 393 337]) /\
  forall p s, (p, s) ∈ allocs [Blk 1008 393 337] ->
    (8 | p) /\ 0 <= s /\ 1008 + MEM_BLOCK_HEADER_SIZE <= p /\ p + s <= 1401 /\
    forall x, p <= x < p + s -> ~ owned 100 [Blk 1008 393 337] x /\ ~ (100 <= x < 100 + info_size).
Proof. apply (pool_allocations_separate demo_used 100 1008 1401 [Blk 1008 393 337] []), demo_used_inv. Defined.

(** Clients cannot disturb the allocator: a client that writes only bytes
    of live allocations keeps the pool well-formed. *)
Theorem client_writes_keep_pool m m' info a e bs D :
  pool_inv m info a e bs D ->
  (forall x, m' x <> m x -> exists p s, (p, s) ∈ allocs bs /\ p <= x < p + s) ->
  pool_inv m' info a e bs D.
Proof.
  intros HP Hw. assert (forall x, owned info bs x -> m' x = m x) as Hk.
  { intros x Hx. destruct (decide (m' x = m x)) as [|Hne]; [done|].
    destruct (Hw x Hne) as (p & s & Hp & Hxp). by destruct (payload_unowned _ _ _ _ _ _ _ _ _ HP Hp Hxp). }
  by eapply pool_inv_keep.
Qed.

Lemma client_writes_keep_pool_witness : pool_inv (st demo_used 1040 77) 100 1008 1401 [Blk 1008 393 337] [].
Proof.
  apply (client_writes_keep_pool demo_used); [exact demo_used_inv|].
  intros x Hx. exists 1040, 24. assert (x = 1040) as -> by (destruct (decide (x = 1040)); [done|by rewrite st_ne in Hx]).
  split; [vm_compute; left|lia].
Defined.

(** Releases coalesce completely.  Once nothing is live, a well-formed pool
    is a single unused block again, and any request that fits the arena next to
    one header succeeds. *)
Theorem pool_empty_is_whole fuel m info a e bs D size :
  pool_inv m info a e bs D -> allocs bs = [] -> 0 <= size ->
  mrt_num_align8 size + MEM_BLOCK_HEADER_SIZE <= e - a -> size <= W32 - 40 -> (length bs <= fuel)%nat ->
  bs = [Blk a (e - a) (e - a)] /\
  exists m', alloc_spare_memory fuel m info size = Ok (m', a + MEM_BLOCK_HEADER_SIZE).
Proof.
  intros HP Hal H0 Hfit Hs Hf.
  assert (bs = [Blk a (e - a) (e - a)]) as Ebs by (eapply tiles_all_free; [apply HP|apply HP|done]).
  split; [done|]. destruct (alloc_cases fuel m info a e bs D size HP ltac:(lia) Hf) as [[_ Hno]|H].
  - specialize (Hno (Blk a (e - a) (e - a)) ltac:(rewrite Ebs; in_list)). simpl in Hno.
    unfold MEM_BLOCK_HEADER_SIZE in *. lia.
  - destruct H as (bs1 & b & bs2 & m' & E & _ & Ea & _). rewrite Ebs in E. exists m'. rewrite Ea.
    apply singleton_split in E as (-> & -> & ->). unfold b_used, MEM_BLOCK_HEADER_SIZE. simpl. do 2 f_equal. lia.
Qed.

Lemma pool_empty_is_whole_witness :
  [Blk 1008 393 393] = [Blk 1008 (1401 - 1008) (1401 - 1008)] /\
  exists m', alloc_spare_memory 20 demo_pool 100 352 = Ok (m', 1008 + MEM_BLOCK_HEADER_SIZE).
Proof.
  apply (pool_empty_is_whole 20 demo_pool 100 1008 1401 [Blk 1008 393 393] [] 352);
    [exact demo_pool_inv|reflexivity|lia|vm_compute; discriminate|unfold W32; lia|simpl; lia].
Defined.

(** *** Where the contract ends *)

(** A machine whose unwritten low memory holds 5000 and whose high memory
    holds 7; the pool descriptor is at 100 and the arena is [1000, 1200). *)
Definition dirty_start : mem := fun x => if x =? 108 then 0 else if x <? 4000 then 5000 else 7.

(** Create, allocate 40 bytes, allocate the 96 bytes that fit exactly, release
    them: the two pointers, and the cell 5004 before and after the release. *)
Definition exact_fit_run : res (Z * Z * Z * Z) :=
  '(m, _) ← memory_block_create 8 12 20 dirty_start 100 1000 200;
  '(m, p) ← alloc_spare_memory 20 m 100 40;
  '(m, q) ← alloc_spare_memory 20 m 100 96;
  m' ← free_employ_memory 20 m 100 q;
  Ok (p, q, m 5004, m' 5004).

(** The exact-fit exception of the contract is real.  The new block of an
    exact fit has no initialised link node ([memory_block_attach] returns
    before [init_list_head] when nothing remains), and releasing it writes
    through whatever the node held: here to an address far outside the arena. *)
Theorem exact_fit_release_writes_outside : exact_fit_run = Ok (1032, 1104, 7, 5000).
Proof. vm_compute. reflexivity. Qed.

(** Two requests of 0xffffffe0 bytes on the fresh pool. *)
Definition huge_request_run : res (Z * Z) :=
  '(m, p) ← alloc_spare_memory 20 demo_pool 100 0xffffffe0;
  '(m, q) ← alloc_spare_memory 20 m 100 0xffffffe0;
  Ok (p, q).

(** Above the bound of the contract the size computation wraps: a request
    of almost 4 GiB succeeds on a 393-byte arena, and so does the next one,
    with the same pointer. *)
Theorem huge_request_succeeds : huge_request_run = Ok (1040, 1040).
Proof. vm_compute. reflexivity. Qed.
