(* ===== verification/MemSimple.v ===== *)
(** * The first-fit allocator (common/mempool/mem_simple.c)

    The simple pool walks the chain of blocks in address order instead of
    keeping bucket lists.  It shares the layout, the tiling of the arena and the
    client's view [allocs] with the segregated allocator. *)

From stdpp Require Import prelude gmap fin_maps sorting.
From S2P Require Import Prelude Mem ListHead MemPool.

(** ** The code *)
Section create.
Context (alloc_spare_simple_memory_addr free_employ_simple_memory_addr : Z).

Definition memory_simple_block_create (m : mem) (sprt_info mem_addr size : Z) : mem * Z :=
  let header_size := MEM_BLOCK_HEADER_SIZE in
  if negb (isValid sprt_info) || (size <=? header_size) then (m, - ER_UNVALID)
  else if isValid (m (sprt_info + info_mem)) then (m, - ER_UNVALID)
  else
    let m := st m (sprt_info + info_base) (mrt_num_align8 mem_addr) in
    let m := st m (sprt_info + info_lenth) (u32 (size - u32 (m (sprt_info + info_base) - mem_addr))) in
    let sprt_block := m (sprt_info + info_base) in
    let m := st m (sprt_block + off_base) (u32 (m (sprt_info + info_base) + header_size)) in
    let m := st m (sprt_block + off_lenth) (m (sprt_info + info_lenth)) in
    let m := st m (sprt_block + off_remain) (m (sprt_info + info_lenth)) in
    let m := st m (sprt_block + off_prev) nullptr in
    let m := st m (sprt_block + off_next) nullptr in
    let m := st m (sprt_block + off_magic) MEMORY_POOL_MAGIC in
    let m := init_list_head m (sprt_block + off_link) in
    let m := st m (sprt_info + info_mem) sprt_block in
    let m := foldl (fun m index => init_list_head m (info_hash sprt_info index)) m (seq 0 NR_MEM_NUM) in
    let m := st m (sprt_info + info_alloc) alloc_spare_simple_memory_addr in
    let m := st m (sprt_info + info_free) free_employ_simple_memory_addr in
    (m, ER_NORMAL).
End create.

Definition memory_simple_block_destroy (m : mem) (sprt_info : Z) : mem :=
  if negb (isValid sprt_info) then m
  else
    let m := kmemzero m (m (sprt_info + info_base)) (m (sprt_info + info_lenth)) in
    kmemzero m sprt_info info_size.

(** [for (block = start; isValid(block); block = block->sprt_next)] up to the
    first block satisfying [P]. *)
Fixpoint chain_find (fuel : nat) (m : mem) (P : Z -> bool) (block : Z) : res (option Z) :=
  if isValid block then
    if P block then Ok (Some block)
    else match fuel with
         | O => Spin
         | S fuel => chain_find fuel m P (m (block + off_next))
         end
  else Ok None.

Definition alloc_spare_simple_memory (fuel : nat) (m : mem) (sprt_info size : Z) : res (mem * Z) :=
  if negb (isValid sprt_info) || (m (sprt_info + info_mem) =? 0) then Ok (m, nullptr)
  else
    let sprt_start := m (sprt_info + info_mem) in
    let header_size := MEM_BLOCK_HEADER_SIZE in
    let lenth := u32 (mrt_num_align8 size + header_size) in
    found ← chain_find fuel m (fun block => lenth <=? m (block + off_remain)) sprt_start;
    match found with
    | None => Ok (m, nullptr)
    | Some sprt_block =>
        let offset := u32 (m (sprt_block + off_lenth) - m (sprt_block + off_remain)) in
        let ptr_mem := u32 (m (sprt_block + off_base) + offset) in
        if negb (m (sprt_block + off_lenth) =? m (sprt_block + off_remain)) then
          let m := split_block m sprt_block ptr_mem lenth offset in
          let m := init_list_head m (u32 (ptr_mem - header_size) + off_link) in
          Ok (m, ptr_mem)
        else
          let m := st m (sprt_block + off_remain) (u32 (m (sprt_block + off_remain) - lenth)) in
          Ok (m, ptr_mem)
    end.

Definition check_employ_simple_memory (fuel : nat) (m : mem) (ptr_head ptr_mem : Z) : res Z :=
  let sprt_block := u32 (ptr_mem - MEM_BLOCK_HEADER_SIZE) in
  if negb (isValid sprt_block) || negb (IS_MEMORYPOOL_VALID m sprt_block) then Ok nullptr
  else
    found ← chain_find fuel m (fun block => m (block + off_base) =? ptr_mem) ptr_head;
    match found with
    | Some _ => Ok sprt_block
    | None => Ok nullptr
    end.

Definition free_employ_simple_memory (fuel : nat) (m : mem) (sprt_info ptr_mem : Z) : res mem :=
  if negb (isValid ptr_mem) then Ok m
  else
    sprt_block ← check_employ_simple_memory fuel m (m (sprt_info + info_mem)) ptr_mem;
    if sprt_block =? 0 then Ok m
    else
      let sprt_prev := m (sprt_block + off_prev) in
      let sprt_next := m (sprt_block + off_next) in
      let m := st m (sprt_block + off_remain) (m (sprt_block + off_lenth)) in
      let '(m, sprt_block) :=
        if isValid sprt_prev then
          let m := st m (sprt_prev + off_lenth) (u32 (m (sprt_prev + off_lenth) + m (sprt_block + off_lenth))) in
          let m := st m (sprt_prev + off_remain) (u32 (m (sprt_prev + off_remain) + m (sprt_block + off_remain))) in
          let m := st m (sprt_prev + off_next) sprt_next in
          (m, sprt_prev)
        else (m, sprt_block) in
      Ok (if isValid sprt_next then st m (sprt_next + off_prev) sprt_block else m).

(** ** The invariant *)
Definition all_magic (m : mem) (bs : list blk) : Prop :=
  forall b, b ∈ bs -> m (b_addr b + off_magic) = MEMORY_POOL_MAGIC.

Record simple_inv (m : mem) (info a e : Z) (bs : list blk) : Prop := {
  si_frame : pool_frame m info a e;
  si_tiles : tiles true a bs e;
  si_some : bs <> [];
  si_chain : chain m 0 bs 0;
  si_magic : all_magic m bs;
}.

Section fields.
Context {m : mem} {info a e : Z} {bs : list blk} (HP : simple_inv m info a e bs).
Lemma si_mem : m (info + info_mem) = a.
Proof using HP. apply HP. Qed.
Lemma si_arena : 0 < a /\ e < W32 - 4096.
Proof using HP. apply HP. Qed.
Lemma si_info : 0 < info /\ info + info_size <= W32 - 4096 /\ (info + info_size <= a \/ e <= info).
Proof using HP. apply HP. Qed.
Lemma si_first : first_addr bs 0 = a.
Proof using HP. destruct HP as [_ Ht Hne _ _]. destruct bs; [done|]. apply Ht. Qed.
Lemma si_bounds b : b ∈ bs -> 0 < b_addr b /\ b_addr b + 32 <= e /\ isValid (b_addr b) = true.
Proof using HP.
  intros Hb. destruct si_arena. destruct (tiles_bounds _ _ _ _ b (si_tiles _ _ _ _ _ HP) Hb).
  destruct (tiles_shape _ _ _ _ b (si_tiles _ _ _ _ _ HP) Hb) as (_ & _ & _ & ? & _). unfold b_end in *.
  split_and!; [lia|lia|apply isValid_true; lia].
Qed.
End fields.

Lemma simple_magics m bs : all_magic m bs -> magics m bs.
Proof. intros H. apply Forall_forall. intros b Hb _. auto. Qed.

Lemma simple_rebuild m m' info a e bs' :
  pool_frame m info a e -> tiles true a bs' e -> bs' <> [] -> chain m' 0 bs' 0 -> all_magic m' bs' ->
  (forall x, info <= x < info + 12 -> m' x = m x) -> simple_inv m' info a e bs'.
Proof.
  intros [] Ht Hne Hc Hm Hx. constructor; try done. constructor; try done.
  all: rewrite Hx by (unfold info_base, info_lenth, info_mem; lia); done.
Qed.

(** The walk visits the blocks in order. *)
Lemma chain_find_spec fuel m p bs P :
  chain m p bs 0 -> (forall b, b ∈ bs -> isValid (b_addr b) = true) -> (length bs <= fuel)%nat ->
  chain_find fuel m P (first_addr bs 0) = Ok (b_addr <$> List.find (fun b => P (b_addr b)) bs).
Proof.
  revert p fuel. induction bs as [|b bs IH]; intros p fuel Hc Hv Hf.
  - by destruct fuel.
  - destruct Hc as [(_ & _ & _ & _ & En) Hc]. change (first_addr (b :: bs) 0) with (b_addr b).
    destruct fuel as [|fuel]; simpl in Hf; [lia|]. simpl. rewrite (Hv b) by in_list.
    destruct (P (b_addr b)); [done|]. rewrite En. apply (IH (b_addr b)); [done| |lia].
    intros c Hc'. apply Hv. in_list.
Qed.

(** ** Creation *)
Lemma init_hashes_cells info m n :
  (n <= NR_MEM_NUM)%nat ->
  forall x, ~ (info + 12 <= x < info + info_alloc) ->
  foldl (fun m index => init_list_head m (info_hash info index)) m (seq 0 n) x = m x.
Proof.
  unfold NR_MEM_NUM. induction n as [|n IH]; intros Hn x Hx; [done|].
  rewrite seq_S, foldl_app. simpl. unfold init_list_head, set_next, set_prev. unfold info_hash, info_alloc in *.
  rewrite !st_ne by lia. apply IH; [lia|done].
Qed.

Lemma simple_create_spec fa ff m info mem_addr size (a := mrt_num_align8 mem_addr)
    (b := Blk a (mem_addr + size - a) (mem_addr + size - a)) :
  0 < info -> info + info_size <= W32 - 4096 -> isValid (m (info + info_mem)) = false ->
  0 < mem_addr -> mem_addr + size < W32 - 4096 -> 39 <= size ->
  info + info_size <= mem_addr \/ mem_addr + size <= info ->
  exists m', memory_simple_block_create fa ff m info mem_addr size = (m', ER_NORMAL) /\
    simple_inv m' info a (mem_addr + size) [b] /\ created fa ff m m' info a.
Proof.
  intros Hi0 Hi1 Hv Ha0 Hae Hs Hi.
  destruct (align8_spec mem_addr) as [Hal H8]; [unfold W32 in *; lia|]. fold a in Hal, H8.
  unfold memory_simple_block_create. rewrite isValid_true by (unfold info_size in *; lia).
  rewrite (proj2 (Z.leb_gt _ _)) by (unfold MEM_BLOCK_HEADER_SIZE; lia). cbn [negb orb]. rewrite Hv. fold a.
  unfold info_base, info_lenth, info_mem, info_free, info_size in *. rewrite Z.add_0_r. unfold_offsets. mem_simp.
  rewrite (u32_id (a - mem_addr)), (u32_id (size - (a - mem_addr))), (u32_id (a + 32)) by (unfold W32 in *; lia).
  replace (size - (a - mem_addr)) with (mem_addr + size - a) by lia.
  unfold init_list_head at 2. unfold set_next, set_prev. set (m1 := st _ (info + 8) a).
  pose proof (init_hashes_cells info m1 NR_MEM_NUM ltac:(done)) as Hx. unfold info_alloc in *.
  set (m2 := foldl _ _ _) in *. clearbody m2. eexists. split; [done|].
  set (m3 := st (st m2 (info + 124) fa) (info + 128) ff).
  assert (forall x, ~ (info + 12 <= x < info + 132) -> m3 x = m1 x) as Hx3.
  { intros x Hn. subst m3. rewrite !st_ne by lia. apply Hx. lia. }
  split.
  2: { unfold created, info_alloc, info_free, info_size, MEM_BLOCK_HEADER_SIZE. split_and!; [subst m3; by mem_simp..|].
       intros x Hn. rewrite Hx3 by lia. subst m1. by mem_simp. }
  clearbody m3. apply (simple_rebuild m3).
  - constructor; unfold info_base, info_lenth, info_mem, info_size; try lia.
    all: rewrite Hx3 by lia; subst m1; rewrite ?Z.add_0_r; mem_simp; done.
  - simpl. unfold blk_shape, b_used, b_end. simpl. rewrite Z.sub_diag.
    split_and!; try done; try lia. by exists 0.
  - done.
  - split; [|done]. unfold hdr, b, b_ptr, off_base; simpl. unfold_offsets. rewrite !Hx3 by lia. subst m1. mem_simp. done.
  - intros c ->%list_elem_of_singleton. unfold_offsets. simpl. rewrite Hx3 by lia. subst m1. mem_simp. done.
  - done.
Qed.

(** ** Allocation *)
Section alloc.
Context (m : mem) (info a e : Z) (bs1 : list blk) (b : blk) (bs2 : list blk) (t : Z).
Context (HP : simple_inv m info a e (bs1 ++ b :: bs2)) (Ht : 32 <= t <= b_rem b) (H8 : (8 | t)).

Lemma simple_split (m1 := split_block m (b_addr b) (b_addr b + b_used b + 32) t (b_used b))
    (m2 := init_list_head m1 (b_addr b + b_used b + off_link)) (bs' := bs1 ++ blk_full b :: blk_tail b t :: bs2) :
  32 <= b_used b -> simple_inv m2 info a e bs' /\ agree (fun x => ~ owned info bs' x) m m2.
Proof using HP Ht H8.
  intros Hu. pose proof (si_tiles _ _ _ _ _ HP) as HT. destruct (si_arena HP) as [Ha0 He]. destruct (si_info HP) as (_ & _ & Hi).
  pose proof (si_chain _ _ _ _ _ HP) as Hc. pose proof (si_magic _ _ _ _ _ HP) as Hm.
  pose proof (split_tiles _ _ _ _ _ _ t HT Hu Ht H8) as HT'. fold bs' in HT'.
  destruct (split_block_spec m 0 _ _ _ _ _ _ t HT Ha0 He Hc Hu Ht (simple_magics _ _ Hm)) as (Hc1 & Hm1 & Ha1).
  destruct (split_words m 0 _ _ _ _ _ _ t HT Ha0 He Hc Hu Ht) as (_ & _ & Hg & _ & _).
  pose proof (split_magic_words m 0 _ _ _ _ _ _ t HT Ha0 He Hc Hu Ht) as Hgk.
  fold bs' in Hc1, Hm1, Ha1. fold m1 in Hc1, Hm1, Ha1, Hg, Hgk.
  assert (forall c, c ∈ bs' -> blk_shape true c /\ a <= b_addr c /\ b_end c <= e) as Hb'.
  { intros c Hin. destruct (tiles_bounds _ _ _ _ c HT' Hin). split; [by eapply tiles_shape|done]. }
  assert (forall x, off_headers bs' x -> x <> b_addr b + b_used b + 24 -> x <> b_addr b + b_used b + 28 -> m2 x = m x) as Hx.
  { intros x Hxo ? ?. subst m2. unfold init_list_head, set_next, set_prev, off_link. mem_simp. by apply Ha1. }
  assert (keeps_hdrs m1 m2 bs') as Hk.
  { intros c x Hin Hxc. subst m2. unfold init_list_head, set_next, set_prev, off_link in *.
    destruct (Hb' c Hin) as (Sc & _). destruct (Hb' (blk_tail b t)) as (St & _); [subst bs'; in_list|].
    destruct (tiles_disjoint _ _ _ _ c (blk_tail b t) HT' Hin) as [->|Hd]; [subst bs'; in_list|..];
      unfold blk_shape, b_end in *; simpl in *; mem_simp; done. }
  split.
  - apply (simple_rebuild m); [apply HP|done|by subst bs'; destruct bs1|by eapply chain_keep|..].
    + intros c Hin. rewrite (Hk c) by (try done; unfold_offsets; lia).
      assert (c = blk_tail b t \/ exists d, d ∈ bs1 ++ b :: bs2 /\ b_addr c = b_addr d) as [->|(d & Hd & ->)].
      { subst bs'. apply elem_of_app in Hin as [Hin|[->|[->|Hin]%elem_of_cons]%elem_of_cons]; [right; exists c|right; exists b|by left|right; exists c]; (split; [in_list|done]). }
      * done.
      * rewrite Hgk by done. by apply Hm.
    + intros x Hxi. apply Hx; [|destruct (Hb' (blk_tail b t)) as (S & ? & ?); [subst bs'; in_list|]..].
      * intros c Hin Hxc. destruct (Hb' c Hin) as (S & ? & ?). unfold_offsets. unfold blk_shape, b_end, info_size in *. lia.
      * unfold blk_shape, b_end, info_size in *. simpl in *. lia.
      * unfold blk_shape, b_end, info_size in *. simpl in *. lia.
  - intros x Hxo. assert (forall c, c ∈ bs' -> ~ (b_addr c <= x < b_addr c + 32)) as Ho.
    { intros c Hin Hxc. apply Hxo. right. by exists c. }
    specialize (Ho (blk_tail b t) ltac:(subst bs'; in_list)) as Hot. simpl in Hot.
    apply Hx; [|lia..]. intros c Hin Hxc. apply (Ho c Hin). unfold_offsets. lia.
Qed.

Lemma simple_whole (b' := Blk (b_addr b) (b_len b) (b_rem b - t)) (m1 := st m (b_addr b + off_remain) (b_rem b - t)) :
  b_used b = 0 ->
  simple_inv m1 info a e (bs1 ++ b' :: bs2) /\ agree (fun x => ~ owned info (bs1 ++ b' :: bs2) x) m m1.
Proof using HP Ht H8.
  intros Hu. pose proof (si_tiles _ _ _ _ _ HP) as HT. destruct (si_info HP) as (_ & _ & Hi).
  destruct (si_bounds HP b ltac:(in_list)) as (? & ? & _). destruct (tiles_bounds _ _ _ _ b HT ltac:(in_list)).
  destruct (chain_next _ _ _ _ _ _ (si_chain _ _ _ _ _ HP)) as (? & ? & ? & ? & ?).
  destruct (update_block m m1 0 bs1 b b' bs2 0 _ _ _ HT (si_chain _ _ _ _ _ HP) (simple_magics _ _ (si_magic _ _ _ _ _ HP)))
    as [Hc _]; [done|..].
  { unfold hdr, m1, b'. simpl. unfold_offsets. split_and!; mem_simp; done. }
  { intros _. unfold m1. unfold_offsets. mem_simp. apply (si_magic _ _ _ _ _ HP). in_list. }
  { intros x Hx. unfold m1. unfold_offsets. mem_simp. done. }
  split; [|intros x Hx; unfold m1; apply st_ne; intros ->; apply Hx; right; exists b'; split; [in_list|simpl; unfold_offsets; lia]].
  apply (simple_rebuild m); [apply HP| |by destruct bs1|done|..].
  - apply (tiles_replace _ _ _ b _ _ [b']); [done| |done]. intros f' Hs. simpl. unfold blk_shape, b_end, b_used in *.
    simpl. split_and!; try done; try lia; try tauto. by replace (b_len b - (b_rem b - t)) with t by lia.
  - intros c Hin. assert (exists d, d ∈ bs1 ++ b :: bs2 /\ b_addr c = b_addr d) as (d & Hd & ->).
    { apply elem_of_app in Hin as [Hin|[->|Hin]%elem_of_cons]; [exists c|exists b|exists c]; (split; [in_list|done]). }
    unfold m1. rewrite st_ne; [by apply (si_magic _ _ _ _ _ HP)|].
    destruct (tiles_disjoint _ _ _ _ b d HT ltac:(in_list) Hd) as [->|Hdj]; [unfold_offsets; lia|].
    pose proof (tiles_shape _ _ _ _ b HT ltac:(in_list)). pose proof (tiles_shape _ _ _ _ d HT Hd).
    unfold blk_shape, b_end in *. unfold_offsets. lia.
  - intros x Hx. unfold m1. apply st_ne. unfold info_size in *. unfold_offsets. lia.
Qed.
End alloc.

Lemma simple_alloc_cases fuel m info a e bs size (t := mrt_num_align8 size + 32) :
  simple_inv m info a e bs -> 0 <= size <= W32 - 40 -> (length bs <= fuel)%nat ->
  (alloc_spare_simple_memory fuel m info size = Ok (m, nullptr) /\ forall b, b ∈ bs -> b_rem b < t) \/
  exists bs1 b bs2 m', bs = bs1 ++ b :: bs2 /\ 32 <= t <= b_rem b /\
    alloc_spare_simple_memory fuel m info size = Ok (m', b_addr b + b_used b + 32) /\
    simple_inv m' info a e (bs1 ++ alloc_blks b t ++ bs2) /\
    agree (fun x => ~ owned info (bs1 ++ alloc_blks b t ++ bs2) x) m m'.
Proof.
  intros HP Hs Hf. destruct (align8_request size Hs) as (Et & H8 & Ht). fold t in Et, H8, Ht.
  destruct (si_info HP) as (Hi0 & Hi1 & _). destruct (si_arena HP) as [Ha0 He].
  unfold alloc_spare_simple_memory. rewrite isValid_true by (unfold info_size in *; lia).
  rewrite (si_mem HP), (proj2 (Z.eqb_neq a 0)) by lia. cbn [negb orb]. rewrite Et, <- (si_first HP).
  rewrite (chain_find_spec fuel m 0 bs _ (si_chain _ _ _ _ _ HP) (fun b Hb => proj2 (proj2 (si_bounds HP b Hb))) Hf).
  assert (forall b, b ∈ bs -> m (b_addr b + off_remain) = b_rem b) as Hrem.
  { intros b Hb. apply elem_of_split_list in Hb as (l1 & l2 & El). destruct HP as [_ _ _ Hc _]. rewrite El in Hc.
    by destruct (chain_next _ _ _ _ _ _ Hc) as (_ & _ & ? & _). }
  rewrite (si_first HP). destruct (List.find _ bs) as [b|] eqn:Ef; cbn [res_bind mbind fmap option_fmap option_map].
  - right. apply find_some in Ef as [Hb Hle]. apply list_elem_of_In in Hb. bool_hyps. rewrite Hrem in Hle by done.
    destruct (si_bounds HP b Hb) as (B1 & B2 & _). apply elem_of_split_list in Hb as (bs1 & bs2 & ->). exists bs1, b, bs2.
    destruct (chain_next _ _ _ _ _ _ (si_chain _ _ _ _ _ HP)) as (E1 & E2 & E3 & _).
    destruct (tiles_cut _ _ _ _ _ _ (si_tiles _ _ _ _ _ HP)) as (Sb & _ & Hbe & _). unfold blk_shape, b_end in *.
    rewrite E1, E2, E3. change (b_len b - b_rem b) with (b_used b). unfold b_ptr, MEM_BLOCK_HEADER_SIZE.
    rewrite !(u32_id (b_used b)) by (unfold b_used, W32 in *; lia).
    rewrite !(u32_id (b_addr b + 32 + b_used b)) by (unfold b_used, W32 in *; lia).
    replace (b_addr b + 32 + b_used b) with (b_addr b + b_used b + 32) by lia.
    replace (b_addr b + b_used b + 32 - 32) with (b_addr b + b_used b) by lia.
    rewrite (u32_id (b_addr b + b_used b)), (u32_id (b_rem b - t)) by (unfold b_used, W32 in *; lia).
    unfold alloc_blks. destruct (Z.eqb_spec (b_used b) 0) as [Hu|Hu].
    + destruct (simple_whole m info a e bs1 b bs2 t HP (conj Ht Hle) H8 Hu) as [HP' Ha'].
      rewrite (proj2 (Z.eqb_eq (b_len b) (b_rem b))) by (unfold b_used in Hu; lia). eexists. split_and!; try done.
    + destruct (simple_split m info a e bs1 b bs2 t HP (conj Ht Hle) H8 ltac:(lia)) as [HP' Ha'].
      rewrite (proj2 (Z.eqb_neq (b_len b) (b_rem b))) by (unfold b_used in Hu; lia). eexists. split_and!; try done.
  - left. split; [done|]. intros b Hb. eapply find_none in Ef; [|by apply list_elem_of_In]. bool_hyps. by rewrite <- Hrem.
Qed.

(** ** Release *)

(** The cells a release writes into, seen from the merged or unused block [c]. *)
Lemma simple_relinked m m5 info a e bs0 mid c bs2 f2 :
  simple_inv m info a e (bs0 ++ mid ++ bs2) -> mid <> [] ->
  tiles true a (bs0 ++ c :: bs2) e -> tiles f2 (b_end c) bs2 e -> b_addr c = first_addr mid 0 ->
  hdr m5 c (last_addr 0 bs0) (first_addr bs2 0) ->
  (bs2 <> [] -> m5 (b_end c + off_prev) = b_addr c) ->
  (forall x, (forall d, d ∈ mid -> ~ (b_addr d + off_base <= x < b_addr d + off_link)) ->
     (bs2 <> [] -> x <> b_end c + off_prev) -> m5 x = m x) ->
  simple_inv m5 info a e (bs0 ++ c :: bs2) /\ agree (fun x => ~ owned info (bs0 ++ mid ++ bs2) x) m m5.
Proof.
  intros HP Hmid HT' T2 Ec Hh Hn Hw. pose proof (si_tiles _ _ _ _ _ HP) as HT. destruct (si_info HP) as (_ & _ & Hi).
  pose proof (si_chain _ _ _ _ _ HP) as Hc. pose proof (si_magic _ _ _ _ _ HP) as Hm.
  assert (forall d, d ∈ bs0 ++ mid ++ bs2 -> a <= b_addr d /\ b_end d <= e /\ 32 <= b_len d) as Hb.
  { intros d Hd. destruct (tiles_bounds _ _ _ _ d HT Hd). by destruct (tiles_shape _ _ _ _ d HT Hd) as (_ & _ & _ & ? & _). }
  assert (bs2 <> [] -> exists d, d ∈ bs2 /\ b_addr d = b_end c) as Hd2.
  { intros Hne. destruct bs2 as [|d bs3]; [done|]. exists d. split; [in_goal|apply T2]. }
  assert (forall x, (forall d, d ∈ bs0 ++ mid ++ bs2 -> ~ (b_addr d <= x < b_addr d + off_link)) -> m5 x = m x) as Hout.
  { intros x Hx. apply Hw; [|intros Hne ->].
    - intros d Hd Hxd. apply (Hx d); [in_goal|]. unfold_offsets. lia.
    - destruct (Hd2 Hne) as (d & Hd & Ed). apply (Hx d); [in_goal|]. unfold_offsets. lia. }
  split.
  2:{ intros x Hx. apply Hout. intros d Hd Hxd. apply Hx. right. exists d. unfold_offsets. split; [done|lia]. }
  assert (forall d d', d ∈ bs0 ++ bs2 -> d' ∈ mid -> b_end d <= b_addr d' \/ b_end d' <= b_addr d) as Hdj.
  { intros d d' Hd Hd'. destruct (tiles_disjoint _ _ _ _ d d' HT ltac:(in_list) ltac:(in_list)) as [->|]; [|tauto].
    pose proof (tiles_NoDup _ _ _ _ HT) as Hnd. apply NoDup_app in Hnd as (_ & N1 & (_ & N2 & _)%NoDup_app).
    apply elem_of_app in Hd as [Hd|Hd]; [by destruct (N1 d' Hd); in_goal|by destruct (N2 d' Hd')]. }
  destruct (tiles_cut _ _ _ _ _ _ HT') as (Sc & _ & _ & _ & H1 & H2). unfold blk_shape, b_end in *.
  assert (keeps_hdrs m m5 bs0) as K0.
  { intros d y Hd Hy. specialize (H1 d Hd). apply Hw; [|unfold_offsets; lia].
    intros d' Hd' Hyd. specialize (Hdj d d' ltac:(in_goal) Hd'). specialize (Hb d' ltac:(in_goal)). unfold_offsets. lia. }
  assert (forall d y, d ∈ bs2 -> b_addr d <= y < b_addr d + off_link -> y <> b_addr c + b_len c + off_prev -> m5 y = m y) as K2.
  { intros d y Hd Hy Hne. specialize (H2 d Hd). apply Hw; [|done].
    intros d' Hd' Hyd. specialize (Hdj d d' ltac:(in_goal) Hd'). specialize (Hb d' ltac:(in_goal)). unfold_offsets. lia. }
  apply chain_app in Hc as [C0 Cm]. apply chain_app in Cm as [_ C2]. rewrite first_addr_app in C0.
  assert (m5 (b_addr c + off_magic) = MEMORY_POOL_MAGIC) as Hcm.
  { destruct mid as [|q mid]; [done|]. unfold first_addr in Ec; simpl in Ec. rewrite Ec, Hw; [apply Hm; in_goal|..].
    - intros d Hd Hx. destruct (tiles_disjoint _ _ _ _ d q HT ltac:(in_goal) ltac:(in_goal)) as [->|Hdq]; [unfold_offsets; lia|].
      pose proof (Hb q ltac:(in_goal)). specialize (Hb d ltac:(in_goal)). unfold b_end in *. unfold_offsets. lia.
    - intros _. unfold_offsets. lia. }
  assert (first_addr mid (first_addr bs2 0) = b_addr c) as Em by (rewrite Ec; by destruct mid). rewrite Em in C0.
  pose proof HT' as [T0 _]%tiles_app.
  destruct (relink_chain m m5 0 _ _ _ a (b_addr c) (b_addr c + b_len c) e 0 bs0 c bs2 T0 T2 eq_refl C0 C2) as [C5 _]; try done.
  { apply simple_magics. intros d Hd. apply Hm. in_goal. }
  { apply simple_magics. intros d Hd. apply Hm. in_goal. }
  apply (simple_rebuild m); [apply HP|done|by destruct bs0|done|..].
  - intros d Hd. apply elem_of_app in Hd as [Hd|[->|Hd]%elem_of_cons]; [|done|].
    + rewrite (K0 d) by (try done; unfold_offsets; lia). apply Hm. in_goal.
    + specialize (H2 d Hd). rewrite (K2 d) by (try done; unfold_offsets; lia). apply Hm. in_goal.
  - intros x Hx. apply Hout. intros d Hd Hxd. specialize (Hb d Hd). unfold info_size in *. unfold_offsets. lia.
Qed.

Lemma simple_free_cases fuel m info a e bs1 b bs2 :
  simple_inv m info a e (bs1 ++ b :: bs2) -> 0 < b_used b -> (length (bs1 ++ b :: bs2) <= fuel)%nat ->
  exists m' bs', free_employ_simple_memory fuel m info (b_ptr b) = Ok m' /\ simple_inv m' info a e bs' /\
    (b_ptr b, b_used b - 32) :: allocs bs' ≡ₚ allocs (bs1 ++ b :: bs2) /\
    agree (fun x => ~ owned info (bs1 ++ b :: bs2) x) m m' /\ (length bs' <= length (bs1 ++ b :: bs2))%nat.
Proof.
  intros HP Hu Hf. pose proof (si_tiles _ _ _ _ _ HP) as HT. destruct (si_arena HP) as [Ha0 He].
  destruct (tiles_cut _ _ _ _ _ _ HT) as (Hs & Hb1 & Hb2 & [f2 T2] & H1 & _). unfold blk_shape, b_end in Hs, Hb2, H1.
  pose proof (si_chain _ _ _ _ _ HP) as Hc. destruct (chain_next _ _ _ _ _ _ Hc) as (E1 & E2 & E3 & E4 & E5).
  unfold free_employ_simple_memory, check_employ_simple_memory, IS_MEMORYPOOL_VALID.
  replace (b_ptr b - MEM_BLOCK_HEADER_SIZE) with (b_addr b) by (unfold b_ptr; lia).
  rewrite (u32_id (b_addr b)), (isValid_true (b_addr b)), (isValid_true (b_ptr b)), (si_magic _ _ _ _ _ HP b), !Z.eqb_refl
    by (try in_goal; unfold b_ptr, MEM_BLOCK_HEADER_SIZE, b_used, W32 in *; lia). cbn [negb orb].
  rewrite (si_mem HP), <- (si_first HP).
  rewrite (chain_find_spec fuel m 0 _ _ Hc (fun b Hb => proj2 (proj2 (si_bounds HP b Hb))) Hf), (si_first HP).
  destruct (List.find _ (bs1 ++ b :: bs2)) as [c|] eqn:Ef; cbn [mbind res_bind fmap option_fmap option_map].
  2:{ pose proof (find_none _ _ Ef b ltac:(apply list_elem_of_In; in_goal)) as Hn. simpl in Hn. by rewrite E1, Z.eqb_refl in Hn. }
  rewrite (proj2 (Z.eqb_neq (b_addr b) 0)), E2, E4, E5 by lia. clear Ef c.
  destruct bs1 as [|p bs0 _] using rev_ind.
  - simpl in *. set (m1 := st m (b_addr b + off_remain) (b_len b)).
    destruct (next_store m1 f2 (b_end b) bs2 e (b_addr b) T2) as [Hn Hx]; [unfold b_end; lia|done|].
    set (m5 := if isValid _ then _ else _) in *. clearbody m5.
    destruct (simple_relinked m m5 info a e [] [b] (blk_unused b) bs2 f2) as [HP' Ha']; try done.
    + destruct HT as (Ea & S & T). unfold blk_shape, b_used, b_end in *. simpl.
      unfold blk_shape, b_used. simpl. rewrite Z.sub_diag. split_and!; try done; try lia; try tauto. by exists 0.
    + unfold hdr, blk_unused; simpl. unfold_offsets.
      rewrite !Hx by (intros _; unfold b_end; lia). subst m1. mem_simp. done.
    + intros x Hxd Hxn. rewrite Hx by done. specialize (Hxd b ltac:(in_goal)). subst m1. apply st_ne. unfold_offsets. lia.
    + exists m5, (blk_unused b :: bs2). split_and!; try done.
      rewrite allocs_unused, (allocs_used b) by (unfold b_used in *; simpl; lia). done.
  - rewrite <- app_assoc in *. simpl in *. rewrite last_addr_snoc in *. specialize (H1 p ltac:(in_goal)).
    destruct (chain_next _ _ _ _ _ _ Hc) as (P1 & P2 & P3 & P4 & P5).
    assert (b_addr b = b_addr p + b_len p) as Eb by (apply tiles_app in HT as (_ & _ & _ & E & _); exact E).
    destruct (tiles_cut _ _ _ _ _ _ HT) as (Sp & ? & ? & _). unfold blk_shape, b_end in Sp.
    rewrite (isValid_true (b_addr p)) by lia.
    set (m1 := st m (b_addr b + off_remain) (b_len b)).
    assert (m1 (b_addr p + off_lenth) = b_len p /\ m1 (b_addr b + off_lenth) = b_len b /\
            m1 (b_addr p + off_remain) = b_rem p /\ m1 (b_addr b + off_remain) = b_len b) as (Q1 & Q2 & Q3 & Q4).
    { subst m1. unfold_offsets. mem_simp. done. }
    rewrite !(st_ne m1), Q1, Q2, Q3, Q4, !u32_id by (unfold_offsets; unfold W32 in *; lia).
    set (m3 := st (st (st m1 _ _) _ _) _ _).
    destruct (next_store m3 f2 (b_end b) bs2 e (b_addr p) T2) as [Hn Hx]; [unfold b_end; lia|done|].
    set (m5 := if isValid _ then _ else _) in *. clearbody m5.
    assert (b_end (blk_merge p b) = b_end b) as Ee by (unfold b_end; simpl; lia).
    destruct (simple_relinked m m5 info a e bs0 [p; b] (blk_merge p b) bs2 f2) as [HP' Ha']; rewrite ?Ee; try done.
    + by apply merge_tiles.
    + unfold hdr, blk_merge; simpl. unfold_offsets. rewrite !Hx by (intros _; unfold b_end; lia). subst m3 m1. mem_simp. done.
    + intros x Hxd Hxn. rewrite Hx by done. pose proof (Hxd p ltac:(in_goal)). pose proof (Hxd b ltac:(in_goal)).
      subst m3 m1. unfold_offsets. mem_simp. done.
    + exists m5, (bs0 ++ blk_merge p b :: bs2). split_and!; try done; [by apply allocs_merge|].
      rewrite !length_app. simpl. lia.
Qed.
