(* ===== verification/PoolClient.v ===== *)
(** * Clients of a memory pool

    Both allocators are reached through the [alloc] and [free] pointers of
    [struct mem_info].  [PoolAllocator] is the contract behind those pointers;
    mem_block.c and mem_simple.c discharge it.  The client theorems are proved
    once against the contract: a client that releases only what it holds and
    writes only into what it holds always finds its data unchanged, whatever
    sequence of requests it makes. *)

From stdpp Require Import prelude gmap fin_maps sorting.
From S2P Require Import Prelude Mem ListHead MemPool MemBlock MemBlockSpec MemSimple.

Class PoolAllocator (alloc : nat -> mem -> Z -> Z -> res (mem * Z)) (free : nat -> mem -> Z -> Z -> res mem) := {
  (** The pool described by [info] over the arena [a, e) holds the blocks [bs]. *)
  pool_ok : mem -> Z -> Z -> Z -> list blk -> Prop;
  (** Requests the contract covers. *)
  pool_permits : list blk -> Z -> Prop;
  pool_ok_frame m info a e bs : pool_ok m info a e bs -> pool_frame m info a e /\ tiles true a bs e;
  pool_alloc fuel m info a e bs size :
    pool_ok m info a e bs -> 0 <= size <= W32 - 40 -> pool_permits bs size -> (length bs <= fuel)%nat ->
    (alloc fuel m info size = Ok (m, nullptr) /\ forall b, b ∈ bs -> b_rem b < mrt_num_align8 size + 32) \/
    exists m' p bs', alloc fuel m info size = Ok (m', p) /\ pool_ok m' info a e bs' /\
      allocs bs' ≡ₚ (p, mrt_num_align8 size) :: allocs bs /\ agree (fun x => ~ owned info bs' x) m m';
  pool_free fuel m info a e bs p s :
    pool_ok m info a e bs -> (p, s) ∈ allocs bs -> (length bs <= fuel)%nat ->
    exists m' bs', free fuel m info p = Ok m' /\ pool_ok m' info a e bs' /\
      (p, s) :: allocs bs' ≡ₚ allocs bs /\ agree (fun x => ~ owned info bs x) m m';
  pool_write m m' info a e bs :
    pool_ok m info a e bs -> agree (owned info bs) m m' -> pool_ok m' info a e bs;
}.

#[export] Instance mem_block_allocator : PoolAllocator alloc_spare_memory free_employ_memory.
Proof.
  refine {| pool_ok := fun m info a e bs => exists D, pool_inv m info a e bs D /\ clean bs D;
            pool_permits := fun bs size => ~ exact_fit bs (mrt_num_align8 size + 32) |}.
  - intros m info a e bs (D & HP & _). split; apply HP.
  - intros fuel m info a e bs size (D & HP & Hcl) Hs Hne Hf.
    destruct (alloc_cases fuel m info a e bs D size HP Hs Hf) as [H|(bs1 & b & bs2 & m' & -> & Ht & E & HP' & Ha)]; [by left|right].
    pose proof (tiles_shape _ _ _ _ b (pi_tiles _ _ _ _ _ _ HP) ltac:(in_goal)) as Hb.
    pose proof (allocs_alloc bs1 b bs2 _ Hb (proj1 Ht)) as Hal. rewrite Z.add_simpl_r in Hal.
    eexists m', _, _. split_and!; [exact E| |exact Hal|exact Ha].
    eexists. split; [exact HP'|]. by apply clean_alloc.
  - intros fuel m info a e bs p s (D & HP & Hcl) (b & Hb & Hu & -> & ->)%elem_of_allocs Hf.
    apply elem_of_split_list in Hb as (bs1 & bs2 & ->). destruct (clean_releasable _ _ _ _ _ _ _ HP Hcl bs1 b bs2 eq_refl eq_refl) as [Hdb Hdp].
    destruct (free_cases fuel m info a e bs1 b bs2 D HP Hu Hdb Hdp Hf) as (m' & bs' & D' & E & HP' & Hcl' & Hal & Ha & _).
    exists m', bs'. split_and!; [done|exists D'; auto|done|done].
  - intros m m' info a e bs (D & HP & Hcl) Hk. exists D. split; [|done]. by eapply pool_inv_keep.
Defined.

#[export] Instance mem_simple_allocator : PoolAllocator alloc_spare_simple_memory free_employ_simple_memory.
Proof.
  refine {| pool_ok := simple_inv; pool_permits := fun _ _ => True |}.
  - intros m info a e bs HP. split; apply HP.
  - intros fuel m info a e bs size HP Hs _ Hf.
    destruct (simple_alloc_cases fuel m info a e bs size HP Hs Hf) as [H|(bs1 & b & bs2 & m' & -> & Ht & E & HP' & Ha)]; [by left|right].
    pose proof (tiles_shape _ _ _ _ b (si_tiles _ _ _ _ _ HP) ltac:(in_goal)) as Hb.
    pose proof (allocs_alloc bs1 b bs2 _ Hb (proj1 Ht)) as Hal. rewrite Z.add_simpl_r in Hal.
    eexists m', _, _. split_and!; [exact E|exact HP'|exact Hal|exact Ha].
  - intros fuel m info a e bs p s HP (b & Hb & Hu & -> & ->)%elem_of_allocs Hf.
    apply elem_of_split_list in Hb as (bs1 & bs2 & ->).
    destruct (simple_free_cases fuel m info a e bs1 b bs2 HP Hu Hf) as (m' & bs' & E & HP' & Hal & Ha & _). eauto 10.
  - intros m m' info a e bs HP Hk. apply (simple_rebuild m); try apply HP.
    + eapply chain_keep, si_chain; [|done]. intros b x Hb Hx. apply Hk. right. exists b. unfold_offsets. split; [done|lia].
    + intros b Hb. rewrite Hk; [by apply HP|]. right. exists b. unfold_offsets. split; [done|lia].
    + intros x Hx. apply Hk. left. unfold info_alloc. lia.
Defined.

(** ** Running a client *)

(** What a client knows: its live allocations, and the bytes it has written. *)
Record client := Client { c_live : list (Z * Z); c_data : gmap Z Z }.

Section client.
Context {alloc : nat -> mem -> Z -> Z -> res (mem * Z)} {free : nat -> mem -> Z -> Z -> res mem}.
Context `{PA : !PoolAllocator alloc free} (fuel : nat) (info a e : Z).

(** One action of a well-behaved client. *)
Inductive client_step : mem * client -> mem * client -> Prop :=
  | step_alloc m m' size p L S :
      0 <= size <= W32 - 40 -> (forall bs, pool_ok m info a e bs -> pool_permits bs size) ->
      alloc fuel m info size = Ok (m', p) -> p <> nullptr ->
      client_step (m, Client L S) (m', Client ((p, mrt_num_align8 size) :: L) S)
  | step_alloc_null m m' size L S :
      0 <= size <= W32 - 40 -> (forall bs, pool_ok m info a e bs -> pool_permits bs size) ->
      alloc fuel m info size = Ok (m', nullptr) ->
      client_step (m, Client L S) (m', Client L S)
  | step_free m m' p s L L' S :
      L ≡ₚ (p, s) :: L' -> free fuel m info p = Ok m' ->
      client_step (m, Client L S) (m', Client L' (filter (fun xv => ~ (p <= xv.1 < p + s)) S))
  | step_write m p s x v L S :
      (p, s) ∈ L -> p <= x < p + s ->
      client_step (m, Client L S) (st m x v, Client L (<[x := v]> S)).

(** The pool and the client agree on what is live, and the data is intact. *)
Definition client_ok (m : mem) (c : client) : Prop :=
  exists bs, pool_ok m info a e bs /\ allocs bs ≡ₚ c_live c /\
    forall x v, c_data c !! x = Some v -> m x = v /\ exists p s, (p, s) ∈ c_live c /\ p <= x < p + s.

Lemma tiles_length f s bs z : tiles f s bs z -> 32 * Z.of_nat (length bs) <= z - s.
Proof using.
  revert f s. induction bs as [|b bs IH]; intros f s; simpl; [lia|]. intros (Hb & Hs & Ht). apply IH in Ht.
  unfold blk_shape, b_end in *. lia.
Qed.

Lemma payload_unowned_tiles m bs p s x :
  pool_ok m info a e bs -> (p, s) ∈ allocs bs -> p <= x < p + s -> ~ owned info bs x.
Proof using.
  intros Hok Hp Hx. apply pool_ok_frame in Hok as [Hfr Ht]. destruct (pf_info _ _ _ _ Hfr) as (_ & _ & Hi).
  destruct (payload_off_headers _ _ _ _ _ _ _ Ht Hp Hx) as [Hr Hh]. intros [H|(c & Hc & H)]; [unfold info_alloc, info_size in *; lia|by apply (Hh c)].
Qed.

Context (Hfuel : e - a <= 32 * Z.of_nat fuel).

Lemma enough_fuel m bs : pool_ok m info a e bs -> (length bs <= fuel)%nat.
Proof using Hfuel. intros [_ Ht]%pool_ok_frame. apply tiles_length in Ht. lia. Qed.

Lemma client_step_ok m c m' c' : client_step (m, c) (m', c') -> client_ok m c -> client_ok m' c'.
Proof using Hfuel.
  intros Hs (bs & Hok & Hal & Hd). pose proof (enough_fuel _ _ Hok) as Hf. 
  inversion Hs as [? ? size p L S Hsz Hpm E0 Hp0|? ? size L S Hsz Hpm E0|? ? p s L L' S HL E0|? p s x v L S HpL Hxr];
    subst; simpl in *.
  - destruct (pool_alloc fuel m info a e bs size Hok ltac:(lia) ltac:(auto) Hf) as [[E _]|(m2 & q & bs' & E & Hok' & Hal' & Ha)];
      [congruence|]. assert (m2 = m' /\ q = p) as [-> ->] by (split; congruence). exists bs'. split_and!; [done|by rewrite Hal', Hal|]. simpl. intros x v Hx.
    destruct (Hd x v Hx) as (Hm & q' & s & Hq & Hr). split; [|exists q', s; split; [by right|done]].
    rewrite Ha; [done|]. eapply payload_unowned_tiles; [exact Hok'| |exact Hr]. rewrite Hal', Hal. by right.
  - destruct (pool_alloc fuel m info a e bs size Hok ltac:(lia) ltac:(auto) Hf) as [[E _]|(m2 & q & bs' & E & Hok' & Hal' & Ha)];
      [assert (m' = m) as -> by congruence; by exists bs|]. assert (q = nullptr) as -> by congruence. exfalso. destruct (pool_ok_frame _ _ _ _ _ Hok') as [Hfr Ht].
    destruct (pf_arena _ _ _ _ Hfr). unfold nullptr in *.
    destruct (tiles_allocs _ _ _ _ 0 (mrt_num_align8 size) Ht); [rewrite Hal'; left|lia].
  - assert ((p, s) ∈ allocs bs) as Hp by (rewrite Hal, HL; by left).
    destruct (pool_free fuel m info a e bs p s Hok Hp Hf) as (m2 & bs' & E & Hok' & Hal' & Ha). assert (m2 = m') as -> by congruence.
    exists bs'. split_and!; [done|by apply (Permutation_cons_inv (a := (p, s))); rewrite Hal', Hal|].
    simpl. intros x v [Hx Hn]%map_lookup_filter_Some. simpl in Hn. destruct (Hd x v Hx) as (Hm & q & r & Hq & Hr).
    split; [rewrite Ha; [done|]|].
    + eapply payload_unowned_tiles; [exact Hok| |exact Hr]. by rewrite Hal.
    + exists q, r. split; [|done]. rewrite HL in Hq. apply elem_of_cons in Hq as [Hq|Hq]; [simplify_eq; lia|done].
  - exists bs. split_and!; [|done|].
    + eapply pool_write; [exact Hok|]. intros y Hy. apply st_ne. intros ->.
      eapply payload_unowned_tiles; [exact Hok| |exact Hxr|exact Hy]. by rewrite Hal.
    + simpl. intros y w. destruct (decide (x = y)) as [->|Hne].
      * rewrite lookup_insert_eq. intros [= ->]. rewrite st_eq. eauto.
      * rewrite lookup_insert_ne by done. intros Hy. rewrite st_ne by done. auto.
Qed.

Lemma client_run_ok s s' : rtc client_step s s' -> client_ok s.1 s.2 -> client_ok s'.1 s'.2.
Proof using Hfuel.
  induction 1 as [|[m c] [m' c'] s' Hs _ IH]; [done|]. intros Hok. apply IH. by eapply client_step_ok.
Qed.

(** Requests and releases always return: no action of the client gets stuck. *)
Lemma client_progress m c :
  client_ok m c ->
  (forall size, 0 <= size <= W32 - 40 -> (forall bs, pool_ok m info a e bs -> pool_permits bs size) ->
     exists m' p, alloc fuel m info size = Ok (m', p)) /\
  (forall p s, (p, s) ∈ c_live c -> exists m', free fuel m info p = Ok m').
Proof using Hfuel.
  intros (bs & Hok & Hal & _). pose proof (enough_fuel _ _ Hok) as Hf. split.
  - intros size Hs Hp. destruct (pool_alloc fuel m info a e bs size Hok Hs ltac:(auto) Hf) as [[E _]|(m' & p & _ & E & _)]; eauto.
  - intros p s Hp. destruct (pool_free fuel m info a e bs p s Hok) as (m' & _ & E & _); [by rewrite Hal|done|eauto].
Qed.
End client.
Arguments client_step alloc free {PA} fuel info a e.
Arguments client_ok alloc free {PA} info a e.

Lemma disjoint_allocs_perm L K : L ≡ₚ K -> disjoint_allocs L -> disjoint_allocs K.
Proof.
  intros HP HL i j p s q r Hi Hj Hne. symmetry in HP. apply Permutation_inj in HP as (_ & f & Hf & Ef).
  apply (HL (f i) (f j) p s q r); [by rewrite <- Ef|by rewrite <- Ef|]. intros E. by apply Hne, Hf.
Qed.

Lemma client_ok_disjoint {alloc free} `{PA : !PoolAllocator alloc free} info a e m c :
  client_ok alloc free info a e m c ->
  disjoint_allocs (c_live c) /\ (forall x v, c_data c !! x = Some v -> m x = v).
Proof.
  intros (bs & Hok & Hal & Hd). split; [|intros x v Hx; by apply Hd].
  apply (disjoint_allocs_perm _ _ Hal). apply pool_ok_frame in Hok as [_ Ht]. by eapply tiles_allocs_disjoint.
Qed.

Section demo.
Definition demo_simple : mem := fst (memory_simple_block_create 8 12 demo_start 100 1001 400).
Definition demo_simple_used : mem :=
  match alloc_spare_simple_memory 20 demo_simple 100 24 with Ok (m, _) => m | _ => demo_start end.

Lemma demo_simple_inv : simple_inv demo_simple 100 1008 1401 [Blk 1008 393 393].
Proof.
  unfold demo_simple. destruct (simple_create_spec 8 12 demo_start 100 1001 400) as (m' & -> & HP & _);
    unfold info_size, W32; try lia; done.
Qed.

Lemma demo_simple_alloc : alloc_spare_simple_memory 20 demo_simple 100 24 = Ok (demo_simple_used, 1040).
Proof.
  unfold demo_simple_used.
  destruct (simple_alloc_cases 20 demo_simple 100 1008 1401 [Blk 1008 393 393] 24) as [[_ H]|H].
  - exact demo_simple_inv.
  - unfold W32; lia.
  - simpl; lia.
  - specialize (H (Blk 1008 393 393) ltac:(in_goal)). revert H. vm_compute. done.
  - destruct H as (bs1 & b & bs2 & m' & E & _ & -> & _). by apply singleton_split in E as (-> & -> & ->).
Qed.

Lemma demo_alloc : alloc_spare_memory 20 demo_pool 100 24 = Ok (demo_used, 1040).
Proof.
  unfold demo_used. destruct (alloc_cases 20 demo_pool 100 1008 1401 [Blk 1008 393 393] [] 24) as [[_ H]|H].
  - exact demo_pool_inv.
  - unfold W32; lia.
  - simpl; lia.
  - specialize (H (Blk 1008 393 393) ltac:(in_goal)). revert H. vm_compute. done.
  - destruct H as (bs1 & b & bs2 & m' & E & _ & -> & _). by apply singleton_split in E as (-> & -> & ->).
Qed.

(** In a one-block arena of an unused block no request is an exact fit. *)
Lemma demo_permits bs : pool_ok (alloc := alloc_spare_memory) (free := free_employ_memory) demo_pool 100 1008 1401 bs ->
  pool_permits (alloc := alloc_spare_memory) (free := free_employ_memory) bs 24.
Proof.
  intros (D & HP & _) (b & Hb & Hu & _).
  pose proof (pi_chain _ _ _ _ _ _ HP) as Hc. pose proof (pi_chain _ _ _ _ _ _ demo_pool_inv) as Hd.
  destruct bs as [|c bs]; [set_solver|]. destruct Hc as [(_ & C2 & C3 & _ & C5) _]. destruct Hd as [(_ & D2 & D3 & _ & D5) _].
  pose proof (pi_tiles _ _ _ _ _ _ HP) as (Ec & _ & Ht). simpl in *. rewrite Ec in *.
  assert (first_addr bs 0 = 0) as Hn by (rewrite <- C5, D5; done).
  destruct bs as [|d bs].
  - apply list_elem_of_singleton in Hb as ->. unfold b_used in Hu. rewrite <- C2, <- C3, D2, D3 in Hu. lia.
  - unfold first_addr in Hn; simpl in Hn. destruct Ht as (Ed & _). unfold b_end in Ed.
    destruct (tiles_shape _ _ _ _ c (pi_tiles _ _ _ _ _ _ HP) ltac:(in_goal)) as (_ & _ & _ & ? & _). lia.
Qed.
End demo.

Definition demo_client : client := Client [(1040, 24)] (<[1041 := 7]> ∅).

(** ** Properties *)

(** C33: the first-fit allocator serves any client.  From the moment
    [memory_simple_block_create] returns, through any sequence of requests,
    releases of live pointers and writes into live allocations, the live
    allocations never overlap, every byte the client wrote and still holds
    reads back, and every further request or release returns. *)
Theorem mem_simple_client_safe fa ff fuel info mem_addr size m0 m1 m c (a := mrt_num_align8 mem_addr) (e := mem_addr + size) :
  0 < info -> info + info_size <= W32 - 4096 -> isValid (m0 (info + info_mem)) = false ->
  0 < mem_addr -> e < W32 - 4096 -> 39 <= size -> info + info_size <= mem_addr \/ e <= info ->
  e - a <= 32 * Z.of_nat fuel ->
  memory_simple_block_create fa ff m0 info mem_addr size = (m1, ER_NORMAL) ->
  rtc (client_step alloc_spare_simple_memory free_employ_simple_memory fuel info a e) (m1, Client [] ∅) (m, c) ->
  disjoint_allocs (c_live c) /\ (forall x v, c_data c !! x = Some v -> m x = v) /\
  (forall n, 0 <= n <= W32 - 40 -> exists m' p, alloc_spare_simple_memory fuel m info n = Ok (m', p)) /\
  (forall p s, (p, s) ∈ c_live c -> exists m', free_employ_simple_memory fuel m info p = Ok m').
Proof.
  intros Hi0 Hi1 Hv Ha0 Hae Hs Hi Hf E Hrun.
  destruct (simple_create_spec fa ff m0 info mem_addr size Hi0 Hi1 Hv Ha0 Hae Hs Hi) as (m' & E' & HP & _).
  assert (m' = m1) as -> by congruence. apply (client_run_ok fuel info a e Hf) in Hrun.
  - destruct (client_ok_disjoint _ _ _ _ _ Hrun). destruct (client_progress fuel info a e Hf _ _ Hrun) as [Hg1 Hg2].
    split_and!; [done..| |exact Hg2]. intros n Hn. by apply Hg1.
  - eexists. split_and!; [exact HP| |intros x v; simpl; rewrite lookup_empty; done].
    simpl. rewrite allocs_unused; [done|]. unfold b_used. simpl. lia.
Qed.

Lemma mem_simple_client_safe_witness :
  disjoint_allocs (c_live demo_client) /\
  (forall x v, c_data demo_client !! x = Some v -> st demo_simple_used 1041 7 x = v) /\
  (forall n, 0 <= n <= W32 - 40 -> exists m' p, alloc_spare_simple_memory 20 (st demo_simple_used 1041 7) 100 n = Ok (m', p)) /\
  (forall p s, (p, s) ∈ c_live demo_client -> exists m', free_employ_simple_memory 20 (st demo_simple_used 1041 7) 100 p = Ok m').
Proof.
  apply (mem_simple_client_safe 8 12 20 100 1001 400 demo_start demo_simple (st demo_simple_used 1041 7) demo_client); unfold info_size, W32; try lia; try reflexivity.
  - vm_compute. discriminate.
  - eapply rtc_l; [apply (step_alloc 20 100 1008 1401 demo_simple demo_simple_used 24 1040 [] ∅)|].
    + unfold W32; lia.
    + intros bs _. exact I.
    + exact demo_simple_alloc.
    + discriminate.
    + apply rtc_once. apply (step_write 20 100 1008 1401 demo_simple_used 1040 24 1041 7 [(1040, 24)] ∅); [left|lia].
Defined.

(** The segregated-list allocator serves any client that makes no exact-fit
    request, with the same guarantees. *)
Theorem mem_block_client_safe fa ff fuel info mem_addr size m0 m1 m c (a := mrt_num_align8 mem_addr) (e := mem_addr + size) :
  0 < info -> info + info_size <= W32 - 4096 -> isValid (m0 (info + info_mem)) = false ->
  0 < mem_addr -> e < W32 - 4096 -> 39 <= size -> info + info_size <= mem_addr \/ e <= info ->
  e - a <= 32 * Z.of_nat fuel ->
  memory_block_create fa ff fuel m0 info mem_addr size = Ok (m1, ER_NORMAL) ->
  rtc (client_step alloc_spare_memory free_employ_memory fuel info a e) (m1, Client [] ∅) (m, c) ->
  disjoint_allocs (c_live c) /\ (forall x v, c_data c !! x = Some v -> m x = v) /\
  (forall p s, (p, s) ∈ c_live c -> exists m', free_employ_memory fuel m info p = Ok m').
Proof.
  intros Hi0 Hi1 Hv Ha0 Hae Hs Hi Hf E Hrun.
  destruct (create_spec fa ff fuel m0 info mem_addr size Hi0 Hi1 Hv Ha0 Hae Hs Hi) as (m' & E' & HP & _).
  assert (m' = m1) as -> by congruence. apply (client_run_ok fuel info a e Hf) in Hrun.
  - destruct (client_ok_disjoint _ _ _ _ _ Hrun). destruct (client_progress fuel info a e Hf _ _ Hrun) as [_ Hg2].
    split_and!; [done..|exact Hg2].
  - eexists. split_and!; [eexists; split; [exact HP|]| |intros x v; simpl; rewrite lookup_empty; done].
    + intros b ->%list_elem_of_singleton. simpl. destruct (align8_spec mem_addr); unfold W32 in *; lia.
    + simpl. rewrite allocs_unused; [done|]. unfold b_used. simpl. lia.
Qed.

Lemma mem_block_client_safe_witness :
  disjoint_allocs (c_live demo_client) /\
  (forall x v, c_data demo_client !! x = Some v -> st demo_used 1041 7 x = v) /\
  (forall p s, (p, s) ∈ c_live demo_client -> exists m', free_employ_memory 20 (st demo_used 1041 7) 100 p = Ok m').
Proof.
  apply (mem_block_client_safe 8 12 20 100 1001 400 demo_start demo_pool (st demo_used 1041 7) demo_client); unfold info_size, W32; try lia; try reflexivity.
  - vm_compute. discriminate.
  - eapply rtc_l; [apply (step_alloc 20 100 1008 1401 demo_pool demo_used 24 1040 [] ∅)|].
    + unfold W32; lia.
    + exact demo_permits.
    + exact demo_alloc.
    + discriminate.
    + apply rtc_once. apply (step_write 20 100 1008 1401 demo_used 1040 24 1041 7 [(1040, 24)] ∅); [left|lia].
Defined.
