(* ===== verification/PqQueue.v ===== *)
(** * Bounded queues (common/generic/queue.c)

    A ring of pointers with a read and a write index.  A full queue refuses a
    new member or drops its oldest one, by type.  The release function of a
    member, when it has one, is called for members the queue drops; the model
    records those calls. *)

From stdpp Require Import prelude gmap fin_maps sorting.
From S2P Require Import Prelude.

Definition NR_PQ_DROP : Z := 0.
Definition NR_PQ_RING : Z := 1.

Record pq_queue := Pq {
  pq_type : Z;
  pq_head : Z;
  pq_tail : Z;
  pq_len : Z;
  pq_tot_len : Z;
  pq_slots : list Z;       (* sprt_data[] *)
}.

(** The function pointers of [struct pq_data]: whether a member has a release
    function, and its check before leaving the queue, if any. *)
Record pq_ops := PqOps {
  has_release : Z -> bool;
  dequeue_chk : Z -> option (Z -> bool);
}.

(** [sprt_data[i]]; an index outside the array is a fault. *)
Definition slot (q : pq_queue) (i : Z) : res Z :=
  if 0 <=? i then deref (pq_slots q !! Z.to_nat i) else Fault.
Definition set_slot (q : pq_queue) (i v : Z) : res pq_queue :=
  _ ← slot q i;
  Ok (Pq (pq_type q) (pq_head q) (pq_tail q) (pq_len q) (pq_tot_len q) (<[Z.to_nat i := v]> (pq_slots q))).

(** [(i + 1) % tot_len], in [kusize_t]. *)
Definition advance (q : pq_queue) (i : Z) : res Z :=
  if pq_tot_len q =? 0 then Fault else Ok (s32 (u32 (i + 1) mod pq_tot_len q)).

Definition set_head (h : Z) (q : pq_queue) : pq_queue := Pq (pq_type q) h (pq_tail q) (pq_len q) (pq_tot_len q) (pq_slots q).
Definition set_tail (t : Z) (q : pq_queue) : pq_queue := Pq (pq_type q) (pq_head q) t (pq_len q) (pq_tot_len q) (pq_slots q).
Definition set_len (n : Z) (q : pq_queue) : pq_queue := Pq (pq_type q) (pq_head q) (pq_tail q) n (pq_tot_len q) (pq_slots q).

Section queue.
Context (ops : pq_ops).

Definition run_release (released : list Z) (d : Z) : list Z := if has_release ops d then released ++ [d] else released.

(** [memory] says whether the allocation succeeded; the array holds whatever
    the memory held. *)
Definition pq_queue_create (memory : option (list Z)) (type data_len : Z) : option pq_queue :=
  match memory with
  | None => None
  | Some garbage => Some (Pq type 0 0 0 data_len garbage)
  end.

Fixpoint destroy_loop (fuel : nat) (q : pq_queue) (released : list Z) : res (list Z) :=
  if pq_len q =? 0 then Ok released
  else match fuel with
       | O => Spin
       | S fuel =>
           let q := set_len (pq_len q - 1) q in
           d ← slot q (pq_tail q);
           t ← advance q (pq_tail q);
           destroy_loop fuel (set_tail t q) (run_release released d)
       end.
(** What the destruction does to memory outside of the queue: the calls of the
    members' release functions, and the release of the queue itself, which lies at
    [sprt_pq]. *)
Inductive pq_event := Released (sprt_pqd : Z) | Freed (sprt_pq : Z).
Definition pq_queue_destroy (fuel : nat) (sprt_pq : Z) (q : pq_queue) : res (list pq_event) :=
  released ← (if pq_len q =? 0 then Ok [] else destroy_loop fuel q []);
  Ok ((Released <$> released) ++ [Freed sprt_pq]).

Definition pq_enqueue (q : pq_queue) (sprt_data : Z) : res (Z * pq_queue * list Z) :=
  let put (q : pq_queue) (released : list Z) : res (Z * pq_queue * list Z) :=
    q ← set_slot q (pq_head q) sprt_data;
    h ← advance q (pq_head q);
    Ok (ER_NORMAL, set_head h q, released) in
  if u32 (pq_len q) <? pq_tot_len q then put (set_len (pq_len q + 1) q) []
  else if negb (pq_type q =? NR_PQ_RING) then Ok (- ER_FULL, q, [])
  else
    old ← slot q (pq_tail q);
    t ← advance q (pq_tail q);
    put (set_tail t q) (run_release [] old).

Definition pq_dequeue (q : pq_queue) : res (Z * pq_queue) :=
  if pq_len q =? 0 then Ok (nullptr, q)
  else
    d ← slot q (pq_tail q);
    t ← advance q (pq_tail q);
    Ok (d, set_len (pq_len q - 1) (set_tail t q)).

Definition pq_dequeue_with_chk (q : pq_queue) (limit : Z) : res (Z * pq_queue) :=
  if pq_len q =? 0 then Ok (nullptr, q)
  else
    d ← slot q (pq_tail q);
    if match dequeue_chk ops d with Some chk => negb (chk limit) | None => false end then Ok (ERR_PTR (- ER_LACK), q)
    else
      t ← advance q (pq_tail q);
      Ok (d, set_len (pq_len q - 1) (set_tail t q)).

Definition pq_queue_get_size (q : pq_queue) : Z := pq_len q.
End queue.

(** ** The ring holds a sequence *)
Record pq_rep (q : pq_queue) (l : list Z) : Prop := {
  rep_tot : 0 < pq_tot_len q < 2147483648;
  rep_len : pq_len q = Z.of_nat (length l);
  rep_cap : Z.of_nat (length l) <= pq_tot_len q;
  rep_slots : pq_tot_len q <= Z.of_nat (length (pq_slots q));
  rep_tail : 0 <= pq_tail q < pq_tot_len q;
  rep_head : pq_head q = (pq_tail q + pq_len q) mod pq_tot_len q;
  rep_data i x : l !! i = Some x -> pq_slots q !! Z.to_nat ((pq_tail q + Z.of_nat i) mod pq_tot_len q) = Some x;
}.

Lemma advance_rep q l i : pq_rep q l -> 0 <= i < pq_tot_len q -> advance q i = Ok ((i + 1) mod pq_tot_len q).
Proof.
  intros HR Hi. pose proof (rep_tot _ _ HR). unfold advance. rewrite (proj2 (Z.eqb_neq _ _)) by lia.
  pose proof (Z.mod_pos_bound (i + 1) (pq_tot_len q)). rewrite u32_id by (unfold W32; lia). rewrite s32_id by lia. done.
Qed.
Lemma slot_tail q x l : pq_rep q (x :: l) -> slot q (pq_tail q) = Ok x.
Proof.
  intros HR. pose proof (rep_tail _ _ HR). pose proof (rep_data _ _ HR 0 x eq_refl) as Hd. unfold slot.
  rewrite (proj2 (Z.leb_le _ _)) by lia. rewrite Z.add_0_r, Z.mod_small in Hd by lia. by rewrite Hd.
Qed.

Lemma mod_add_succ a i n : 0 < n -> ((a + 1) mod n + i) mod n = (a + (1 + i)) mod n.
Proof. intros. rewrite Zplus_mod_idemp_l. f_equal. lia. Qed.

(** Taking the oldest member. *)
Lemma rep_pop q x l :
  pq_rep q (x :: l) -> pq_rep (set_len (pq_len q - 1) (set_tail ((pq_tail q + 1) mod pq_tot_len q) q)) l.
Proof.
  intros HR. pose proof (rep_tot _ _ HR). pose proof (rep_len _ _ HR) as Hl. pose proof (rep_cap _ _ HR). simpl length in *.
  constructor; simpl; try (apply HR); try lia.
  - apply Z.mod_pos_bound. lia.
  - rewrite Zplus_mod_idemp_l, (rep_head _ _ HR). f_equal. lia.
  - intros i y Hi. rewrite mod_add_succ by lia. rewrite <- (rep_data _ _ HR (S i) y Hi). do 3 f_equal. lia.
Qed.

(** Writing the slot behind the youngest member. *)
Lemma rep_push q l x :
  pq_rep q l -> Z.of_nat (length l) < pq_tot_len q ->
  exists q', set_slot (set_len (pq_len q + 1) q) (pq_head q) x = Ok q' /\ pq_head q' = pq_head q /\ 0 <= pq_head q < pq_tot_len q /\
    pq_tot_len q' = pq_tot_len q /\ pq_rep (set_head ((pq_head q + 1) mod pq_tot_len q) q') (l ++ [x]).
Proof.
  intros HR Hlt. pose proof (rep_tot _ _ HR) as Ht. pose proof (rep_len _ _ HR) as Hl. pose proof (rep_slots _ _ HR) as Hs.
  pose proof (Z.mod_pos_bound (pq_tail q + pq_len q) (pq_tot_len q) ltac:(lia)) as Hh. rewrite <- (rep_head _ _ HR) in Hh.
  destruct (lookup_lt_is_Some_2 (pq_slots q) (Z.to_nat (pq_head q))) as [old Hold]; [lia|].
  unfold set_slot, slot. simpl. rewrite (proj2 (Z.leb_le _ _)), Hold by lia. simpl. eexists. split; [done|]. simpl.
  split_and!; try done; try lia. constructor; simpl; try (apply HR); rewrite ?length_app; simpl length; try lia.
  - rewrite length_insert. apply HR.
  - rewrite (rep_head _ _ HR), Zplus_mod_idemp_l. f_equal. lia.
  - intros i y Hi. apply lookup_app_Some in Hi as [Hi|[Hi1 Hi2]].
    + pose proof (lookup_lt_Some _ _ _ Hi). rewrite list_lookup_insert_ne; [by apply HR|].
      rewrite (rep_head _ _ HR). intros E. apply Z2Nat.inj in E; [|apply Z.mod_pos_bound; lia..].
      assert (Z.of_nat i = pq_len q) as Eq; [|lia].
      apply (f_equal (fun z => (z - pq_tail q) mod pq_tot_len q)) in E. rewrite !Zminus_mod_idemp_l in E.
      replace (pq_tail q + pq_len q - pq_tail q) with (pq_len q) in E by lia.
      replace (pq_tail q + Z.of_nat i - pq_tail q) with (Z.of_nat i) in E by lia. rewrite !Z.mod_small in E by lia. lia.
    + destruct (i - length l)%nat as [|k] eqn:Ei; [|done]. injection Hi2 as ->.
      replace (pq_tail q + Z.of_nat i) with (pq_tail q + pq_len q) by lia. rewrite <- (rep_head _ _ HR).
      apply list_lookup_insert_eq. lia.
Qed.

Lemma destroy_loop_spec ops l : forall q released fuel,
  pq_rep q l -> (length l <= fuel)%nat -> destroy_loop ops fuel q released = Ok (released ++ filter (fun d => has_release ops d) l).
Proof.
  induction l as [|x l IH]; intros q released fuel HR Hf.
  - pose proof (rep_len _ _ HR) as Hl. simpl in Hl. destruct fuel; simpl; rewrite Hl; simpl; by rewrite app_nil_r.
  - pose proof (rep_len _ _ HR) as Hl. destruct fuel as [|fuel]; [simpl in Hf; lia|]. simpl in Hl. simpl.
    rewrite (proj2 (Z.eqb_neq _ _)) by lia. change (slot (set_len (pq_len q - 1) q) (pq_tail q)) with (slot q (pq_tail q)).
    rewrite (slot_tail q x l HR). simpl. change (advance (set_len (pq_len q - 1) q) (pq_tail q)) with (advance q (pq_tail q)).
    rewrite (advance_rep q _ _ HR) by apply HR. simpl.
    rewrite (IH (set_tail ((pq_tail q + 1) mod pq_tot_len q) (set_len (pq_len q - 1) q)) _ fuel); [|by apply (rep_pop q x l)|simpl in Hf; lia].
    unfold run_release. rewrite filter_cons. destruct (has_release ops x) eqn:E; simpl; [|done]. by rewrite <- app_assoc.
Qed.

Lemma created_rep garbage type n : 0 < n < 2147483648 -> n <= Z.of_nat (length garbage) -> pq_rep (Pq type 0 0 0 n garbage) [].
Proof. intros Hn Hg. split; cbn; try done; lia. Qed.

(** C39: the ring is a bounded first-in first-out queue: a created queue is empty;
    a member put into a queue with room goes behind all others; a full queue
    refuses it, or, in ring mode, drops and releases exactly its oldest member
    for it; members leave in order, unless their check refuses; destroying
    releases what is left, oldest first, and then frees the queue itself. *)
Theorem pq_queue_fifo ops q l x limit :
  (forall type n, pq_queue_create None type n = None) /\
  (forall garbage type n, 0 < n < 2147483648 -> n <= Z.of_nat (length garbage) ->
     exists q0, pq_queue_create (Some garbage) type n = Some q0 /\ pq_rep q0 [] /\ pq_type q0 = type /\ pq_tot_len q0 = n) /\
  (pq_rep q l ->
  (exists r q' released, pq_enqueue ops q x = Ok (r, q', released) /\
     if decide (Z.of_nat (length l) < pq_tot_len q) then r = ER_NORMAL /\ pq_rep q' (l ++ [x]) /\ released = []
     else if decide (pq_type q = NR_PQ_RING)
     then r = ER_NORMAL /\ pq_rep q' (tail l ++ [x]) /\ released = filter (fun d => has_release ops d) (take 1 l)
     else r = - ER_FULL /\ q' = q /\ released = []) /\
  (exists r q', pq_dequeue q = Ok (r, q') /\ r = default nullptr (head l) /\ pq_rep q' (tail l)) /\
  (exists r q', pq_dequeue_with_chk ops q limit = Ok (r, q') /\
     match l with
     | y :: l' => if match dequeue_chk ops y with Some chk => chk limit | None => true end
                  then r = y /\ pq_rep q' l' else r = ERR_PTR (- ER_LACK) /\ q' = q
     | [] => r = nullptr /\ q' = q
     end) /\
  forall sprt_pq, pq_queue_destroy ops (length l) sprt_pq q = Ok ((Released <$> filter (fun d => has_release ops d) l) ++ [Freed sprt_pq])).
Proof.
  split; [done|]. split; [intros garbage type n Hn Hg; by eexists; split; [done|split; [by apply created_rep|]]|]. intros HR. pose proof (rep_len _ _ HR) as Hl. pose proof (rep_tot _ _ HR) as Ht. pose proof (rep_cap _ _ HR) as Hc.
  split_and!.
  - unfold pq_enqueue. cbv zeta beta. rewrite u32_id by (unfold W32; lia). rewrite Hl.
    destruct (decide (Z.of_nat (length l) < pq_tot_len q)) as [Hlt|Hge].
    + rewrite (proj2 (Z.ltb_lt _ _)) by done. rewrite <- Hl. change (pq_head (set_len (pq_len q + 1) q)) with (pq_head q).
      destruct (rep_push q l x HR Hlt) as (q' & -> & Eh & Hh & Et & HR'). simpl. unfold advance. rewrite Eh, Et.
      pose proof (advance_rep q l (pq_head q) HR Hh) as Ha. unfold advance in Ha. rewrite Ha. simpl. eexists _, _, _. done.
    + rewrite (proj2 (Z.ltb_ge _ _)) by lia. destruct (Z.eqb_spec (pq_type q) NR_PQ_RING) as [Er|Er]; simpl.
      2:{ eexists _, _, _. split; [done|]. by rewrite decide_False. }
      destruct l as [|y l]; [simpl in *; lia|]. rewrite (slot_tail q y l HR). simpl.
      rewrite (advance_rep q _ _ HR) by apply HR. simpl.
      pose proof (rep_pop q y l HR) as HR1. set (q1 := set_len (pq_len q - 1) (set_tail ((pq_tail q + 1) mod pq_tot_len q) q)) in *.
      destruct (rep_push q1 l x HR1) as (q' & E & Eh & Hh & Et & HR'); [simpl in *; lia|].
      assert (set_len (pq_len q1 + 1) q1 = set_tail ((pq_tail q + 1) mod pq_tot_len q) q) as Eq.
      { unfold q1, set_len, set_tail. simpl. f_equal. lia. }
      rewrite Eq in E. change (pq_head q1) with (pq_head q) in *. rewrite E. simpl. unfold advance. rewrite Eh, Et.
      pose proof (advance_rep q1 l (pq_head q) HR1 Hh) as Ha. unfold advance in Ha. rewrite Ha. simpl.
      eexists _, _, _. split; [done|]. rewrite decide_True by done. split_and!; [done|done|]. unfold run_release. rewrite filter_cons. by destruct (has_release ops y).
  - unfold pq_dequeue. destruct l as [|y l].
    + rewrite Hl. simpl. exists nullptr, q. done.
    + rewrite (proj2 (Z.eqb_neq _ _)) by (simpl in Hl; lia). rewrite (slot_tail q y l HR). simpl.
      rewrite (advance_rep q _ _ HR) by apply HR. simpl. eexists _, _. split; [done|]. split; [done|]. by apply (rep_pop q y l).
  - unfold pq_dequeue_with_chk. destruct l as [|y l].
    + rewrite Hl. simpl. exists nullptr, q. done.
    + rewrite (proj2 (Z.eqb_neq _ _)) by (simpl in Hl; lia). rewrite (slot_tail q y l HR). simpl.
      rewrite (advance_rep q _ _ HR) by apply HR. simpl.
      destruct (dequeue_chk ops y) as [chk|]; [destruct (chk limit)|]; simpl; eexists _, _; (split; [done|]); try done.
      * split; [done|]. by apply (rep_pop q y l).
      * split; [done|]. by apply (rep_pop q y l).
  - intros sprt_pq. unfold pq_queue_destroy. pose proof (destroy_loop_spec ops l q [] (length l) HR ltac:(done)) as Hd. rewrite Hl in *. destruct l as [|y l]; [done|]. simpl Z.eqb. rewrite Hd. done.
Qed.
Definition demo_queue : pq_queue := Pq NR_PQ_RING 1 2 2 3 [7; 0; 5].
Definition demo_ops : pq_ops := PqOps (fun _ => true) (fun _ => None).
Lemma demo_queue_rep : pq_rep demo_queue [5; 7].
Proof.
  constructor; try (vm_compute; split; congruence || discriminate); try (vm_compute; congruence || discriminate); try (vm_compute; reflexivity).
  intros i x. destruct i as [|[|i]]; simpl; intros [= <-]; reflexivity.
Qed.
Lemma pq_queue_fifo_witness :
  (exists q0, pq_queue_create (Some [8; 8; 8]) NR_PQ_RING 3 = Some q0 /\ pq_rep q0 []) /\
  (exists r q', pq_dequeue demo_queue = Ok (r, q') /\ r = 5 /\ pq_rep q' [7]) /\
  pq_queue_destroy demo_ops 2 4096 demo_queue = Ok [Released 5; Released 7; Freed 4096].
Proof.
  destruct (pq_queue_fifo demo_ops demo_queue [5; 7] 9 0) as (_ & Hnew & Hq). destruct (Hq demo_queue_rep) as (_ & Hd & _ & Hk). split; [|split; [exact Hd|exact (Hk 4096)]].
  destruct (Hnew [8; 8; 8] NR_PQ_RING 3) as (q0 & E & HR & _); [lia|simpl; lia|]. exists q0. split; [exact E|exact HR].
Defined.
