(* ===== verification/Bytes.v ===== *)
(** * Byte buffers and C strings

    A buffer is a run of byte cells; a C string is a run of non-zero bytes with a
    zero after it.  [st_list] stores a run; the copying loops of the string
    routines are equal to it. *)

From stdpp Require Import prelude gmap fin_maps sorting.
From S2P Require Import Prelude Mem.

Fixpoint st_list (m : mem) (p : Z) (l : list Z) : mem :=
  match l with
  | [] => m
  | x :: l => st_list (st m p x) (p + 1) l
  end.

Fixpoint bytes_at (m : mem) (p : Z) (l : list Z) : Prop :=
  match l with
  | [] => True
  | x :: l => m p = x /\ bytes_at m (p + 1) l
  end.

Definition len (l : list Z) : Z := Z.of_nat (length l).
Definition byte (x : Z) : Prop := 0 <= x < 256.
Definition char (x : Z) : Prop := 0 < x < 256.
Definition cstr (m : mem) (p : Z) (s : list Z) : Prop := bytes_at m p (s ++ [0]) /\ Forall char s.

Lemma len_nil : len [] = 0.
Proof. done. Qed.
Lemma len_cons x l : len (x :: l) = 1 + len l.
Proof. unfold len. simpl length. lia. Qed.
Lemma len_app l k : len (l ++ k) = len l + len k.
Proof. unfold len. rewrite length_app. lia. Qed.
Lemma len_reverse l : len (reverse l) = len l.
Proof. unfold len. by rewrite length_reverse. Qed.
Lemma len_nonneg l : 0 <= len l.
Proof. unfold len. lia. Qed.
#[export] Hint Rewrite len_nil len_cons len_app len_reverse : len.
Ltac len_lia :=
  autorewrite with len in *;
  repeat match goal with |- context [len ?l] =>
    lazymatch goal with H : 0 <= len l |- _ => fail | _ => pose proof (len_nonneg l) end end;
  repeat match goal with H : context [len ?l] |- _ =>
    lazymatch goal with H : 0 <= len l |- _ => fail | _ => pose proof (len_nonneg l) end end;
  lia.

(** ** Runs *)
Lemma st_list_out m p l a : a < p \/ p + len l <= a -> st_list m p l a = m a.
Proof.
  revert m p. induction l as [|x l IH]; simpl; intros m p Ha; [done|].
  rewrite len_cons in Ha. pose proof (len_nonneg l). rewrite IH by lia. apply st_ne. lia.
Qed.
Lemma st_list_read m p l : bytes_at (st_list m p l) p l.
Proof.
  revert m p. induction l as [|x l IH]; simpl; intros m p; [done|]. split; [|apply IH].
  rewrite st_list_out by lia. apply st_eq.
Qed.
Lemma st_list_app m p l k : st_list m p (l ++ k) = st_list (st_list m p l) (p + len l) k.
Proof.
  revert m p. induction l as [|x l IH]; simpl; intros m p; [f_equal; unfold len; simpl; lia|].
  rewrite IH, len_cons. f_equal. lia.
Qed.
Lemma st_list_snoc m p l x : st_list m p (l ++ [x]) = st (st_list m p l) (p + len l) x.
Proof. by rewrite st_list_app. Qed.

Lemma bytes_at_app m p l k : bytes_at m p (l ++ k) <-> bytes_at m p l /\ bytes_at m (p + len l) k.
Proof.
  revert p. induction l as [|x l IH]; simpl; intros p; [rewrite len_nil, Z.add_0_r; tauto|].
  rewrite IH, len_cons, Z.add_assoc. tauto.
Qed.
Lemma bytes_at_lookup m p l i x : bytes_at m p l -> l !! i = Some x -> m (p + Z.of_nat i) = x.
Proof.
  revert p i. induction l as [|y l IH]; intros p i; [done|]. intros [Hy Hl] Hi. destruct i as [|i]; simpl in Hi.
  - injection Hi as <-. by rewrite Z.add_0_r.
  - rewrite <- (IH (p + 1) i Hl Hi). f_equal. lia.
Qed.
Lemma bytes_at_agree m m' p l : (forall a, p <= a < p + len l -> m' a = m a) -> bytes_at m p l -> bytes_at m' p l.
Proof.
  revert p. induction l as [|x l IH]; simpl; intros p H; [done|]. intros [Hx Hl].
  rewrite len_cons in H. pose proof (len_nonneg l). split; [rewrite H by lia; done|]. apply IH; [|done]. intros a Ha. apply H. lia.
Qed.

(** ** Strings *)
Lemma cstr_nil m p : cstr m p [] <-> m p = 0.
Proof. unfold cstr. simpl. split; [tauto|]. intros. split; [done|constructor]. Qed.
Lemma cstr_cons m p x s : cstr m p (x :: s) <-> m p = x /\ char x /\ cstr m (p + 1) s.
Proof. unfold cstr. simpl. rewrite Forall_cons. tauto. Qed.
Lemma cstr_app m p s1 s2 : cstr m p (s1 ++ s2) -> bytes_at m p s1 /\ cstr m (p + len s1) s2.
Proof.
  unfold cstr. rewrite <- app_assoc, bytes_at_app, Forall_app. tauto.
Qed.
Lemma cstr_agree m m' p s : (forall a, p <= a <= p + len s -> m' a = m a) -> cstr m p s -> cstr m' p s.
Proof.
  intros H [Hb Hc]. split; [|done]. eapply bytes_at_agree; [|done]. intros a Ha. apply H. len_lia.
Qed.
Lemma cstr_unique m p s s' : cstr m p s -> cstr m p s' -> s = s'.
Proof.
  revert p s'. induction s as [|x s IH]; intros p [|y s']; rewrite ?cstr_nil, ?cstr_cons; try done.
  - intros H0 (Hy & Hc & _). unfold char in Hc. lia.
  - intros (Hy & Hc & _) H0. unfold char in Hc. lia.
  - intros (<- & _ & Hs) (<- & _ & Hs'). f_equal. eauto.
Qed.

(** ** Words in byte memory

    The processor is little-endian. *)
Definition ld16 (m : mem) (p : Z) : Z := m p + 256 * m (p + 1).
Definition st16 (m : mem) (p v : Z) : mem := st (st m p (v mod 256)) (p + 1) (v / 256 mod 256).
Definition ld32 (m : mem) (p : Z) : Z := m p + 256 * m (p + 1) + 65536 * m (p + 2) + 16777216 * m (p + 3).
Definition st32 (m : mem) (p v : Z) : mem :=
  st (st (st (st m p (v mod 256)) (p + 1) (v / 256 mod 256)) (p + 2) (v / 65536 mod 256)) (p + 3) (v / 16777216 mod 256).
(** The instructions [rev] and [rev16]. *)
Definition reverse_byte32 (val : Z) : Z :=
  val mod 256 * 16777216 + val / 256 mod 256 * 65536 + val / 65536 mod 256 * 256 + val / 16777216 mod 256.
Definition reverse_byte16 (val : Z) : Z := val mod 256 * 256 + val / 256 mod 256.
Definition be32_to_cpu (val : Z) : Z := reverse_byte32 val.
Definition be16_to_cpu (val : Z) : Z := reverse_byte16 val.

(** A word is read back as it was stored, as far as it fits. *)
Lemma ld16_stored m p v : ld16 (st16 m p v) p = u16 v.
Proof.
  unfold ld16, st16, u16. mem_simp. change 65536 with (256 * 256). rewrite Z.rem_mul_r; lia.
Qed.
Lemma ld32_stored m p v : ld32 (st32 m p v) p = u32 v.
Proof.
  unfold ld32, st32, u32, W32. rewrite st_eq. rewrite !(st_ne _ _ _ p), !(st_ne _ _ _ (p + 1)), !(st_ne _ _ _ (p + 2)), !st_eq by lia.
  change 4294967296 with (256 * (256 * (256 * 256))). change 65536 with (256 * 256). change 16777216 with (256 * 256 * 256).
  rewrite <- !Z.div_div, !Z.rem_mul_r by lia. lia.
Qed.
Lemma ld32_st32 m p v : 0 <= v < W32 -> ld32 (st32 m p v) p = v.
Proof. intros. rewrite ld32_stored. by apply u32_id. Qed.
Lemma ld16_st16_ne m a b v : b + 2 <= a \/ a + 2 <= b -> ld16 (st16 m a v) b = ld16 m b.
Proof. intros. unfold ld16, st16. by mem_simp. Qed.
Lemma ld32_st32_ne m a b v : b + 4 <= a \/ a + 4 <= b -> ld32 (st32 m a v) b = ld32 m b.
Proof. intros. unfold ld32, st32. by mem_simp. Qed.
Lemma st32_out m a v x : ~ (a <= x < a + 4) -> st32 m a v x = m x.
Proof. intros. unfold st32. by mem_simp. Qed.
Lemma st16_out m a v x : ~ (a <= x < a + 2) -> st16 m a v x = m x.
Proof. intros. unfold st16. by mem_simp. Qed.

(** ** Digits *)

(** The base-[b] digits of [n], least significant first; at least one. *)
Fixpoint digits (fuel : nat) (b n : Z) : list Z :=
  match fuel with
  | O => []
  | S fuel => n mod b :: (if n / b =? 0 then [] else digits fuel b (n / b))
  end.
Lemma digits_S fuel b n : digits (S fuel) b n = n mod b :: (if n / b =? 0 then [] else digits fuel b (n / b)).
Proof. done. Qed.
Definition digits_value (b : Z) (l : list Z) : Z := foldr (fun d v => d + b * v) 0 l.

Lemma digits_spec fuel b n :
  1 < b -> 0 <= n < b ^ Z.of_nat fuel -> (0 < fuel)%nat ->
  digits_value b (digits fuel b n) = n /\ Forall (fun d => 0 <= d < b) (digits fuel b n) /\
  (0 < length (digits fuel b n) <= fuel)%nat.
Proof.
  intros Hb. revert n. induction fuel as [|fuel IH]; intros n Hn Hf; [lia|]. simpl.
  pose proof (Z.mod_pos_bound n b) as Hm. pose proof (Z.div_mod n b) as Hd.
  destruct (Z.eqb_spec (n / b) 0) as [E|E]; simpl.
  - split_and!; [lia|constructor; [lia|constructor]|lia|lia].
  - assert (0 <= n / b) by (apply Z.div_pos; lia).
    assert (n / b < b ^ Z.of_nat fuel) as Hlt.
    { apply Z.div_lt_upper_bound; [lia|]. rewrite <- Z.pow_succ_r by lia. replace (Z.succ (Z.of_nat fuel)) with (Z.of_nat (S fuel)) by lia. lia. }
    assert (0 < fuel)%nat as Hf'. { destruct fuel; [|lia]. simpl in Hlt. lia. }
    destruct (IH (n / b)) as (Hv & Hr & Hl); [lia|done|]. rewrite Hv.
    split_and!; [lia|constructor; [lia|done]|lia|lia].
Qed.

Lemma digits_last_nonzero fuel b n :
  1 < b -> 0 < n < b ^ Z.of_nat fuel -> exists d l, reverse (digits fuel b n) = d :: l /\ d <> 0.
Proof.
  intros Hb. revert n. induction fuel as [|fuel IH]; intros n Hn; [simpl in Hn; lia|]. simpl.
  pose proof (Z.div_mod n b). pose proof (Z.mod_pos_bound n b).
  destruct (Z.eqb_spec (n / b) 0) as [E|E].
  - exists (n mod b), []. split; [done|]. lia.
  - assert (0 <= n / b) by (apply Z.div_pos; lia). destruct (IH (n / b)) as (d & l & El & Hd).
    + split; [lia|]. apply Z.div_lt_upper_bound; [lia|]. rewrite <- Z.pow_succ_r by lia. replace (Z.succ (Z.of_nat fuel)) with (Z.of_nat (S fuel)) by lia. lia.
    + rewrite reverse_cons, El. by exists d, (l ++ [n mod b]).
Qed.

(** Reading most significant first. *)
Lemma digits_value_rev b l : foldl (fun v d => b * v + d) 0 (reverse l) = digits_value b l.
Proof.
  induction l as [|d l IH]; [done|]. rewrite reverse_cons, foldl_snoc, IH. simpl. lia.
Qed.

(** Keep texts of numbers folded. *)
#[global] Arguments digits : simpl never.
