(* ===== verification/Sync.v ===== *)
(** * Atomics, interrupt masking, preemption and locks
    (include/common/atomic_types.h, include/kernel/kernel.h, kernel/spinlock.c,
    kernel/mutex.c, kernel/semaphore.c)

    The processor state the kernel manipulates is the CPSR word, whose bit 7
    masks interrupts, and the preemption counter.  Lock operations are
    functions on that state and on the lock.  On one processor a held spin lock
    is never released by anyone else, so a call on a held lock does not return:
    [Spin].  The second half runs threads that use the locks under a preemptive
    scheduler, one memory operation per step. *)

From stdpp Require Import prelude gmap fin_maps sorting.
From S2P Require Import Prelude.

(** ** Atomic counters *)
Definition atomic_add (i counter : Z) : Z := u32 (counter + i).
Definition atomic_sub (i counter : Z) : Z := u32 (counter - i).
Definition atomic_mul (i counter : Z) : Z := u32 (counter * i).
Definition atomic_inc (counter : Z) : Z := atomic_add 1 counter.
Definition atomic_dec (counter : Z) : Z := atomic_sub 1 counter.

(** [while (counter >= i) { counter -= i; temp += 1; } counter = temp;] *)
Fixpoint atomic_udiv_loop (fuel : nat) (i counter temp : Z) : res Z :=
  if i <=? counter then
    match fuel with
    | O => Spin
    | S fuel => atomic_udiv_loop fuel i (atomic_sub i counter) (atomic_add 1 temp)
    end
  else Ok temp.
Definition atomic_udiv (fuel : nat) (i counter : Z) : res Z := atomic_udiv_loop fuel i counter 0.

(** [lsl] by a register takes the low byte of the amount; 32 and more give 0. *)
Definition bitmask (nr : Z) : Z := u32 (Z.shiftl 1 (u8 nr)).
Definition atomic_set_bit (nr v : Z) : Z := Z.lor v (bitmask nr).
Definition atomic_clear_bit (nr v : Z) : Z := Z.ldiff v (bitmask nr).
Definition atomic_is_bitset (nr v : Z) : bool := negb (Z.land v (bitmask nr) =? 0).

(** ** The processor *)
Record cpu := Cpu { cpsr : Z; g_sched_preempt_cnt : Z }.
Definition CPSR_BIT_I : Z := 128.

Definition mrt_disable_cpu_irq (c : cpu) : cpu := Cpu (Z.lor (cpsr c) CPSR_BIT_I) (g_sched_preempt_cnt c).
Definition mrt_enable_cpu_irq (c : cpu) : cpu := Cpu (Z.ldiff (cpsr c) CPSR_BIT_I) (g_sched_preempt_cnt c).
Definition mrt_preempt_disable (c : cpu) : cpu := Cpu (cpsr c) (u32 (g_sched_preempt_cnt c + 1)).
Definition mrt_preempt_enable (c : cpu) : cpu :=
  Cpu (cpsr c) (if negb (g_sched_preempt_cnt c =? 0) then g_sched_preempt_cnt c - 1 else g_sched_preempt_cnt c).
Definition mrt_preempt_is_locked (c : cpu) : bool := negb (g_sched_preempt_cnt c =? 0).

(** ** Spin locks *)
Record spin_lock_t := Lock { sgrt_atc : Z; lk_flag : Z }.

Definition spin_is_locked (l : spin_lock_t) : bool := negb (sgrt_atc l =? 0).
Definition spin_lock_init (l : spin_lock_t) : spin_lock_t := Lock 0 (lk_flag l).

Definition spin_lock (c : cpu) (l : spin_lock_t) : res (cpu * spin_lock_t) :=
  if spin_is_locked l then Spin
  else Ok (mrt_preempt_disable c, Lock (atomic_inc (sgrt_atc l)) (lk_flag l)).

Definition spin_unlock (c : cpu) (l : spin_lock_t) : cpu * spin_lock_t :=
  if negb (spin_is_locked l) then (c, l)
  else (mrt_preempt_enable c, Lock (atomic_dec (sgrt_atc l)) (lk_flag l)).

Definition spin_try_lock (c : cpu) (l : spin_lock_t) : Z * cpu * spin_lock_t :=
  if spin_is_locked l then (- ER_LOCKED, c, l)
  else (ER_NORMAL, mrt_preempt_disable c, Lock (atomic_inc (sgrt_atc l)) (lk_flag l)).

Definition spin_lock_irq (c : cpu) (l : spin_lock_t) : res (cpu * spin_lock_t) :=
  '(c, l) ← spin_lock c l;
  Ok (mrt_disable_cpu_irq c, l).

Definition spin_try_lock_irq (c : cpu) (l : spin_lock_t) : Z * cpu * spin_lock_t :=
  let '(r, c, l) := spin_try_lock c l in
  if negb (r =? 0) then (- ER_LOCKED, c, l) else (ER_NORMAL, mrt_disable_cpu_irq c, l).

Definition spin_unlock_irq (c : cpu) (l : spin_lock_t) : cpu * spin_lock_t :=
  if negb (spin_is_locked l) then (c, l)
  else let '(c, l) := spin_unlock c l in (mrt_enable_cpu_irq c, l).

Definition spin_lock_irqsave (c : cpu) (l : spin_lock_t) : res (cpu * spin_lock_t) :=
  '(c, l) ← spin_lock c l;
  let l := Lock (sgrt_atc l) (cpsr c) in
  Ok (mrt_disable_cpu_irq c, l).

Definition spin_try_lock_irqsave (c : cpu) (l : spin_lock_t) : Z * cpu * spin_lock_t :=
  let '(r, c, l) := spin_try_lock c l in
  if negb (r =? 0) then (- ER_LOCKED, c, l)
  else
    let l := Lock (sgrt_atc l) (cpsr c) in
    let l := Lock (sgrt_atc l) (Z.land (lk_flag l) CPSR_BIT_I) in
    (ER_NORMAL, mrt_disable_cpu_irq c, l).

Definition spin_unlock_irqrestore (c : cpu) (l : spin_lock_t) : cpu * spin_lock_t :=
  if negb (spin_is_locked l) then (c, l)
  else
    let '(c, l) := spin_unlock c l in
    let c := if Z.land (lk_flag l) CPSR_BIT_I =? 0 then mrt_enable_cpu_irq c else c in
    (c, Lock (sgrt_atc l) 0).

(** ** Mutexes and semaphores

    [current] says whether a thread is running; without one the operations do
    nothing.  A blocked caller yields to the scheduler in a loop; the model of a
    single call reports that as [Spin]. *)
Definition mutex_init (atc : Z) : Z := 0.
Definition mutex_is_locked (atc : Z) : bool := negb (atc =? 0).
Definition mutex_lock (current : bool) (atc : Z) : res Z :=
  if negb current then Ok atc
  else if mutex_is_locked atc then Spin
  else Ok (atomic_inc atc).
Definition mutex_try_lock (current : bool) (atc : Z) : Z * Z :=
  if negb current then (- ER_FORBID, atc)
  else if mutex_is_locked atc then (- ER_BUSY, atc)
  else (ER_NORMAL, atomic_inc atc).
Definition mutex_unlock (current : bool) (atc : Z) : Z :=
  if negb current || negb (mutex_is_locked atc) then atc else atomic_dec atc.

Definition sema_init (val : Z) : Z := u32 val.
Definition sema_is_locked (atc : Z) : bool := 0 =? atc.
Definition sema_down (current : bool) (atc : Z) : res Z :=
  if negb current then Ok atc
  else if sema_is_locked atc then Spin
  else Ok (atomic_dec atc).
Definition sema_down_try_lock (current : bool) (atc : Z) : Z * Z :=
  if negb current then (- ER_FORBID, atc)
  else if sema_is_locked atc then (- ER_BUSY, atc)
  else (ER_NORMAL, atomic_dec atc).
Definition sema_up (current : bool) (atc : Z) : Z :=
  if negb current || negb (sema_is_locked atc) then atc else atomic_inc atc.

(** ** Facts *)
Lemma atomic_udiv_loop_spec fuel i counter temp :
  0 < i -> 0 <= counter < W32 -> 0 <= temp -> temp + counter / i < W32 -> counter / i <= Z.of_nat fuel ->
  atomic_udiv_loop fuel i counter temp = Ok (temp + counter / i).
Proof.
  intros Hi. revert counter temp. induction fuel as [|fuel IH]; intros counter temp Hc Ht Hb Hf; simpl.
  - assert (counter / i = 0) as E by (pose proof (Z.div_pos counter i); lia).
    apply Z.div_small_iff in E; [|lia]. rewrite (proj2 (Z.leb_gt _ _)) by lia.
    rewrite Z.div_small by lia. f_equal. lia.
  - case_test.
    + assert (counter / i = 1 + (counter - i) / i) as Ed.
      { replace counter with ((counter - i) + 1 * i) at 1 by lia. rewrite Z.div_add by lia. lia. }
      pose proof (Z.div_pos (counter - i) i). unfold atomic_sub, atomic_add. rewrite !u32_id by lia.
      rewrite IH by lia. f_equal. lia.
    + rewrite Z.div_small by lia. f_equal. lia.
Qed.

Lemma bitmask_pow nr : 0 <= nr < 32 -> bitmask nr = 2 ^ nr.
Proof.
  intros H. unfold bitmask. rewrite u8_id, Z.shiftl_1_l by lia. apply u32_id. unfold W32.
  split; [apply Z.pow_nonneg; lia|]. change 4294967296 with (2 ^ 32). apply Z.pow_lt_mono_r; lia.
Qed.

Lemma is_bitset_testbit nr v : 0 <= nr < 32 -> atomic_is_bitset nr v = Z.testbit v nr.
Proof.
  intros H. unfold atomic_is_bitset. rewrite bitmask_pow by done.
  destruct (Z.testbit v nr) eqn:E.
  - rewrite (proj2 (Z.eqb_neq _ _)); [done|]. intros Hz.
    assert (Z.testbit (Z.land v (2 ^ nr)) nr = false) as Hb by (rewrite Hz; apply Z.bits_0).
    rewrite Z.land_spec, Z.pow2_bits_true, E in Hb by lia. done.
  - assert (Z.land v (2 ^ nr) = 0) as ->; [|done]. apply Z.bits_inj'. intros k Hk.
    rewrite Z.land_spec, Z.bits_0, Z.pow2_bits_eqb by lia.
    destruct (Z.eqb_spec nr k) as [<-|]; [by rewrite E|apply andb_false_r].
Qed.

(** Masking and unmasking the interrupt bit. *)
Lemma irq_bit x : Z.land x CPSR_BIT_I = 0 <-> Z.testbit x 7 = false.
Proof.
  unfold CPSR_BIT_I. change 128 with (2 ^ 7). split.
  - intros Hz. assert (Z.testbit (Z.land x (2 ^ 7)) 7 = false) as Hb by (rewrite Hz; apply Z.bits_0).
    rewrite Z.land_spec, Z.pow2_bits_true, andb_true_r in Hb by lia. done.
  - intros Hb. apply Z.bits_inj'. intros k Hk. rewrite Z.land_spec, Z.bits_0, Z.pow2_bits_eqb by lia.
    destruct (Z.eqb_spec 7 k) as [<-|]; [by rewrite Hb|apply andb_false_r].
Qed.
Lemma irq_unmask x : Z.testbit x 7 = false -> Z.ldiff (Z.lor x CPSR_BIT_I) CPSR_BIT_I = x.
Proof.
  intros Hb. unfold CPSR_BIT_I. change 128 with (2 ^ 7). apply Z.bits_inj'. intros k Hk.
  rewrite Z.ldiff_spec, Z.lor_spec, Z.pow2_bits_eqb by lia.
  destruct (Z.eqb_spec 7 k) as [<-|]; [by rewrite Hb|]. by rewrite orb_false_r, andb_true_r.
Qed.
Lemma irq_masked x : Z.testbit x 7 = true -> Z.lor x CPSR_BIT_I = x.
Proof.
  intros Hb. unfold CPSR_BIT_I. change 128 with (2 ^ 7). apply Z.bits_inj'. intros k Hk.
  rewrite Z.lor_spec, Z.pow2_bits_eqb by lia. destruct (Z.eqb_spec 7 k) as [<-|]; [by rewrite Hb|apply orb_false_r].
Qed.

Definition lock_free (l : spin_lock_t) : Prop := sgrt_atc l = 0.

Lemma preempt_balance c : 0 <= g_sched_preempt_cnt c < W32 - 1 -> mrt_preempt_enable (mrt_preempt_disable c) = c.
Proof.
  destruct c as [x n]; simpl. intros Hn. unfold mrt_preempt_enable, mrt_preempt_disable; simpl.
  rewrite u32_id by lia. rewrite (proj2 (Z.eqb_neq (n + 1) 0)) by lia. simpl. f_equal. lia.
Qed.

(** One critical section, from a free lock. *)
Lemma irqsave_restore c l :
  lock_free l -> 0 <= g_sched_preempt_cnt c < W32 - 1 ->
  exists c1 l1, spin_lock_irqsave c l = Ok (c1, l1) /\ Z.testbit (cpsr c1) 7 = true /\
    g_sched_preempt_cnt c1 = g_sched_preempt_cnt c + 1 /\ sgrt_atc l1 = 1 /\
    spin_unlock_irqrestore c1 l1 = (c, Lock 0 0).
Proof.
  destruct l as [n f]. intros Hl Hn. unfold lock_free in Hl; simpl in Hl; subst n.
  exists (mrt_disable_cpu_irq (mrt_preempt_disable c)), (Lock 1 (cpsr c)). split_and!; [done|..].
  - unfold mrt_disable_cpu_irq. cbn [cpsr]. rewrite Z.lor_spec. apply orb_true_r.
  - apply u32_id. lia.
  - done.
  - unfold spin_unlock_irqrestore, spin_is_locked, spin_unlock; simpl.
    pose proof (preempt_balance c Hn) as Hb. destruct c as [x k]. unfold mrt_preempt_enable, mrt_preempt_disable in *; simpl in *.
    f_equal. destruct (Z.eqb_spec (Z.land x CPSR_BIT_I) 0) as [E|E].
    + unfold mrt_enable_cpu_irq; simpl. rewrite irq_unmask by (by apply irq_bit). injection Hb as ->. done.
    + rewrite irq_masked by (destruct (Z.testbit x 7) eqn:T; [done|by apply irq_bit in T]). done.
Qed.

(** Nested critical sections, released in reverse order. *)
Fixpoint lock_all (c : cpu) (ls : list spin_lock_t) : res (cpu * list spin_lock_t) :=
  match ls with
  | [] => Ok (c, [])
  | l :: ls => '(c, l) ← spin_lock_irqsave c l; '(c, ls) ← lock_all c ls; Ok (c, l :: ls)
  end.
Fixpoint unlock_all (c : cpu) (ls : list spin_lock_t) : cpu * list spin_lock_t :=
  match ls with
  | [] => (c, [])
  | l :: ls => let '(c, ls) := unlock_all c ls in let '(c, l) := spin_unlock_irqrestore c l in (c, l :: ls)
  end.

(** ** Threads sharing a spin lock *)

(** The statements of [spin_lock] and [spin_unlock] one by one: each reads or writes
    one variable, and a thread can be preempted between any two of them. *)
Inductive lock_op :=
  | WhileLocked        (* while (spin_is_locked(sprt_lock)); *)
  | PreemptDisable     (* mrt_preempt_disable(); *)
  | AtomicInc          (* atomic_inc(&sprt_lock->sgrt_atc); *)
  | ReturnUnlessLocked (* if (!spin_is_locked(sprt_lock)) return; *)
  | AtomicDec          (* atomic_dec(&sprt_lock->sgrt_atc); *)
  | PreemptEnable.     (* mrt_preempt_enable(); *)
#[export] Instance lock_op_eq_dec : EqDecision lock_op.
Proof. solve_decision. Defined.
Definition spin_lock_ops : list lock_op := [WhileLocked; PreemptDisable; AtomicInc].
Definition spin_unlock_ops : list lock_op := [ReturnUnlessLocked; AtomicDec; PreemptEnable].

(** A statement is executed again, is done, or returns from the function. *)
Inductive op_end := Again | Done | Returns.
Definition op_step (o : lock_op) (c : cpu) (l : spin_lock_t) : op_end * cpu * spin_lock_t :=
  match o with
  | WhileLocked => (if spin_is_locked l then Again else Done, c, l)
  | PreemptDisable => (Done, mrt_preempt_disable c, l)
  | AtomicInc => (Done, c, Lock (atomic_inc (sgrt_atc l)) (lk_flag l))
  | ReturnUnlessLocked => (if negb (spin_is_locked l) then Returns else Done, c, l)
  | AtomicDec => (Done, c, Lock (atomic_dec (sgrt_atc l)) (lk_flag l))
  | PreemptEnable => (Done, mrt_preempt_enable c, l)
  end.
(** Without preemption. *)
Fixpoint run_ops (ops : list lock_op) (c : cpu) (l : spin_lock_t) : res (cpu * spin_lock_t) :=
  match ops with
  | [] => Ok (c, l)
  | o :: ops =>
      match op_step o c l with
      | (Again, _, _) => Spin
      | (Done, c, l) => run_ops ops c l
      | (Returns, c, l) => Ok (c, l)
      end
  end.
Lemma run_ops_lock c l : run_ops spin_lock_ops c l = spin_lock c l.
Proof. unfold spin_lock. cbn. by destruct (spin_is_locked l). Qed.
Lemma run_ops_unlock c l : run_ops spin_unlock_ops c l = Ok (spin_unlock c l).
Proof. unfold spin_unlock. cbn. by destruct (spin_is_locked l). Qed.

(** A thread that takes and releases the lock again and again: what is left of the
    call it is in.  [Locking []] has returned from [spin_lock] and is inside the
    critical section, [Unlocking []] has returned from [spin_unlock]. *)
Inductive lthread := Locking (todo : list lock_op) | Unlocking (todo : list lock_op).
Definition after_op (e : op_end) (call : list lock_op -> lthread) (o : lock_op) (ops : list lock_op) : lthread :=
  match e with Again => call (o :: ops) | Done => call ops | Returns => call [] end.
Definition thread_step (t : lthread) (c : cpu) (l : spin_lock_t) : lthread * cpu * spin_lock_t :=
  match t with
  | Locking [] => (Unlocking spin_unlock_ops, c, l)
  | Unlocking [] => (Locking spin_lock_ops, c, l)
  | Locking (o :: ops) => let '(e, c, l) := op_step o c l in (after_op e Locking o ops, c, l)
  | Unlocking (o :: ops) => let '(e, c, l) := op_step o c l in (after_op e Unlocking o ops, c, l)
  end.

Record machine := Machine { mc_cur : nat; mc_cpu : cpu; mc_lock : spin_lock_t; mc_threads : list lthread }.
(** One statement of the running thread, or a preemption, which the preemption count
    can forbid. *)
Inductive spin_step (s : machine) : machine -> Prop :=
  | spin_run t t' c l :
      mc_threads s !! mc_cur s = Some t -> thread_step t (mc_cpu s) (mc_lock s) = (t', c, l) ->
      spin_step s (Machine (mc_cur s) c l (<[mc_cur s := t']> (mc_threads s)))
  | spin_preempt j :
      mrt_preempt_is_locked (mc_cpu s) = false -> (j < length (mc_threads s))%nat ->
      spin_step s (Machine j (mc_cpu s) (mc_lock s) (mc_threads s)).
Definition spin_start (n : nat) : machine := Machine 0 (Cpu 19 0) (Lock 0 0) (replicate n (Locking spin_lock_ops)).

(** Inside: from the return of [spin_lock] until [spin_unlock] gives the lock back. *)
Definition holds_lock (t : lthread) : bool :=
  match t with Locking [] => true | Locking _ => false | Unlocking ops => bool_decide (AtomicDec ∈ ops) end.

(** Where a thread can be, with its share of the preemption count and of the lock. *)
Inductive at_point : lthread -> Z -> Z -> Prop :=
  | at_test : at_point (Locking [WhileLocked; PreemptDisable; AtomicInc]) 0 0
  | at_passed : at_point (Locking [PreemptDisable; AtomicInc]) 0 0
  | at_disabled : at_point (Locking [AtomicInc]) 1 0
  | at_inside : at_point (Locking []) 1 1
  | at_unlock : at_point (Unlocking [ReturnUnlessLocked; AtomicDec; PreemptEnable]) 1 1
  | at_release : at_point (Unlocking [AtomicDec; PreemptEnable]) 1 1
  | at_free : at_point (Unlocking [PreemptEnable]) 1 0
  | at_end : at_point (Unlocking []) 0 0.
(** Only the running thread has a share, and the counters are its share. *)
Definition spin_inv (s : machine) : Prop :=
  (exists t, mc_threads s !! mc_cur s = Some t /\ at_point t (g_sched_preempt_cnt (mc_cpu s)) (sgrt_atc (mc_lock s))) /\
  (forall i t, mc_threads s !! i = Some t -> i <> mc_cur s -> at_point t 0 0).

Lemma at_point_step t t' c l c' l' : at_point t (g_sched_preempt_cnt c) (sgrt_atc l) -> thread_step t c l = (t', c', l') ->
  at_point t' (g_sched_preempt_cnt c') (sgrt_atc l').
Proof.
  destruct c as [x n], l as [a f]. cbn [g_sched_preempt_cnt sgrt_atc].
  inversion 1; subst; cbn; intros [= <- <- <-]; cbn; constructor.
Qed.
Lemma at_point_count t n a : at_point t n a -> n = 0 -> a = 0.
Proof. by destruct 1. Qed.
Lemma spin_step_inv s s' : spin_step s s' -> spin_inv s -> spin_inv s'.
Proof.
  intros Hs [(t & Ht & Hp) Ho]. destruct Hs as [t1 t' c l Ht1 Hstep|j Hn Hj]; unfold spin_inv; cbn.
  - simplify_eq. split; [exists t'; split; [apply list_lookup_insert_eq; by eapply lookup_lt_Some|by eapply at_point_step]|].
    intros i u Hu Hne. rewrite list_lookup_insert_ne in Hu by done. by apply (Ho i).
  - unfold mrt_preempt_is_locked in Hn. apply negb_false_iff, Z.eqb_eq in Hn. pose proof (at_point_count _ _ _ Hp Hn) as Ha. rewrite Hn, Ha in Hp |- *.
    assert (forall i u, mc_threads s !! i = Some u -> at_point u 0 0) as Hall.
    { intros i u Hu. destruct (decide (i = mc_cur s)) as [->|]; [by simplify_eq|by apply (Ho i)]. }
    apply lookup_lt_is_Some in Hj as [u Hu]. split; [exists u; split; [done|by eapply Hall]|]. intros i v Hv _. by eapply Hall.
Qed.
Lemma spin_reach_inv n s : (0 < n)%nat -> rtc spin_step (spin_start n) s -> spin_inv s.
Proof.
  intros Hn Hr. assert (spin_inv (spin_start n)) as H0.
  { split; cbn; [|intros i t [-> _]%lookup_replicate _; constructor]. exists (Locking spin_lock_ops). split; [by apply lookup_replicate_2|constructor]. }
  revert H0. induction Hr as [|a b c Hs _ IH]; [done|]. intros Ha. by eapply IH, spin_step_inv.
Qed.
Lemma holds_running s i t : spin_inv s -> mc_threads s !! i = Some t -> holds_lock t = true -> i = mc_cur s.
Proof.
  intros [_ Ho] Ht Hh. destruct (decide (i = mc_cur s)) as [|Hne]; [done|]. specialize (Ho i t Ht Hne). exfalso. inversion Ho; subst; done.
Qed.

(** A free mutex is taken and given back. *)
Lemma mutex_cycle c : exists l, mutex_lock c 0 = Ok l /\ mutex_unlock c l = 0.
Proof. destruct c; simpl; eexists; by split. Qed.

(** ** Threads sharing a mutex *)
Inductive xpc := XTest | XPassed | XHold.
Record xmachine := XMachine { xm_cur : nat; xm_atc : Z; xm_pcs : list xpc }.

(** The same for [mutex_lock] and [mutex_unlock].  With [lazy] set the running
    thread is not preempted between the test and the increment. *)
Inductive mutex_step (lazy : bool) (s : xmachine) : xmachine -> Prop :=
  | mutex_test :
      xm_pcs s !! xm_cur s = Some XTest ->
      mutex_step lazy s (if mutex_is_locked (xm_atc s) then s
                         else XMachine (xm_cur s) (xm_atc s) (<[xm_cur s := XPassed]> (xm_pcs s)))
  | mutex_inc :
      xm_pcs s !! xm_cur s = Some XPassed ->
      mutex_step lazy s (XMachine (xm_cur s) (atomic_inc (xm_atc s)) (<[xm_cur s := XHold]> (xm_pcs s)))
  | mutex_dec :
      xm_pcs s !! xm_cur s = Some XHold ->
      mutex_step lazy s (XMachine (xm_cur s) (mutex_unlock true (xm_atc s)) (<[xm_cur s := XTest]> (xm_pcs s)))
  | mutex_switch j :
      (lazy = true -> xm_pcs s !! xm_cur s <> Some XPassed) -> (j < length (xm_pcs s))%nat ->
      mutex_step lazy s (XMachine j (xm_atc s) (xm_pcs s)).

(** At most one thread holds the mutex; nobody else has passed the test. *)
Definition mutex_inv (s : xmachine) : Prop :=
  (forall i, xm_pcs s !! i = Some XPassed -> i = xm_cur s) /\
  ((xm_atc s = 0 /\ forall i, xm_pcs s !! i <> Some XHold) \/
   (xm_atc s = 1 /\ (forall i, xm_pcs s !! i <> Some XPassed) /\
    exists h, xm_pcs s !! h = Some XHold /\ forall i, xm_pcs s !! i = Some XHold -> i = h)).

(** Reading a list after an update of one position. *)
Lemma insert_lookup_cases {A} (l : list A) k x i y :
  <[k := x]> l !! i = Some y -> (i = k /\ y = x) \/ (i <> k /\ l !! i = Some y).
Proof.
  destruct (decide (i = k)) as [->|Hne]; intros H.
  - left. split; [done|]. apply list_lookup_insert_Some in H as [(_ & -> & _)|[? _]]; done.
  - right. split; [done|]. by rewrite list_lookup_insert_ne in H.
Qed.

Lemma mutex_step_inv s s' : mutex_step true s s' -> mutex_inv s -> mutex_inv s'.
Proof.
  intros Hs [Hp Hh]. destruct s as [cur a pcs]; simpl in *. unfold mutex_inv in *.
  destruct Hs as [E|E|E|j Hn Hj]; simpl in *.
  - unfold mutex_is_locked. destruct (Z.eqb_spec a 0) as [->|Ha]; simpl; [|done].
    destruct Hh as [[_ Hno]|[? _]]; [|done]. split; [|left; split; [done|]].
    + intros i [[-> _]|[_ Hi]]%insert_lookup_cases; auto.
    + intros i [[_ ?]|[_ Hi]]%insert_lookup_cases; [done|]. by apply (Hno i).
  - destruct Hh as [[-> Hno]|(_ & Hnp & _)]; [|by destruct (Hnp cur)]. split; [|right; split; [done|split]].
    + intros i [[-> _]|[_ Hi]]%insert_lookup_cases; auto.
    + intros i [[_ ?]|[Hne Hi]]%insert_lookup_cases; [done|]. by apply Hne, Hp.
    + exists cur. apply lookup_lt_Some in E. split; [by apply list_lookup_insert_eq|].
      intros i [[-> _]|[_ Hi]]%insert_lookup_cases; [done|]. by destruct (Hno i).
  - destruct Hh as [[_ Hno]|(-> & Hnp & h & _ & Hu)]; [by destruct (Hno cur)|].
    split; [|left; split; [done|]].
    + intros i [[-> _]|[_ Hi]]%insert_lookup_cases; auto.
    + intros i [[_ ?]|[Hne Hi]]%insert_lookup_cases; [done|]. apply Hne. rewrite (Hu i Hi). symmetry. by apply Hu.
  - specialize (Hn eq_refl). split; [|done]. intros i Hi. exfalso. apply Hn. by rewrite <- (Hp i Hi).
Qed.

(** ** Properties *)

(** Interrupt and preemption state is restored exactly.  Taking any number
    of free spin locks with [spin_lock_irqsave] and releasing them in reverse
    order with [spin_unlock_irqrestore] returns, leaves every lock free, and
    gives back the very CPSR and preemption count it started from, whether or
    not interrupts were masked. *)
Theorem irqsave_nesting_restores c ls :
  Forall lock_free ls -> 0 <= g_sched_preempt_cnt c -> g_sched_preempt_cnt c + Z.of_nat (length ls) < W32 ->
  exists c1 ls1, lock_all c ls = Ok (c1, ls1) /\
    (ls <> [] -> Z.testbit (cpsr c1) 7 = true) /\ Forall (fun l => spin_is_locked l = true) ls1 /\
    unlock_all c1 ls1 = (c, (fun _ => Lock 0 0) <$> ls).
Proof.
  intros Hls. revert c. induction Hls as [|l ls Hl Hls IH]; intros c H0 Hn.
  - by exists c, [].
  - cbn [length] in Hn. destruct (irqsave_restore c l Hl ltac:(lia)) as (c1 & l1 & E1 & Hm & Hp & Ha & Hu).
    destruct (IH c1 ltac:(lia) ltac:(lia)) as (c2 & ls2 & E2 & Hm2 & Hk & Hu2).
    exists c2, (l1 :: ls2). simpl. rewrite E1. simpl. rewrite E2, Hu2, Hu. split_and!; try done.
    + intros _. destruct ls; [|by apply Hm2]. simpl in E2. by simplify_eq.
    + constructor; [|done]. unfold spin_is_locked. by rewrite Ha.
Qed.

Lemma irqsave_nesting_restores_witness :
  exists c1 ls1, lock_all (Cpu 19 0) [Lock 0 0; Lock 0 5] = Ok (c1, ls1) /\
    ([Lock 0 0; Lock 0 5] <> [] -> Z.testbit (cpsr c1) 7 = true) /\ Forall (fun l => spin_is_locked l = true) ls1 /\
    unlock_all c1 ls1 = (Cpu 19 0, [Lock 0 0; Lock 0 0]).
Proof.
  apply (irqsave_nesting_restores (Cpu 19 0) [Lock 0 0; Lock 0 5]); [repeat constructor|simpl; lia|simpl; unfold W32; lia].
Defined.


(** The first of two threads is preempted after its test, the second takes the lock:
    the first is not inside. *)
Definition spin_demo : machine := Machine 1 (Cpu 19 1) (Lock 1 0) [Locking [PreemptDisable; AtomicInc]; Locking []].
Lemma spin_demo_reached : rtc spin_step (spin_start 2) spin_demo.
Proof.
  eapply rtc_l; [by apply (spin_run (spin_start 2) (Locking spin_lock_ops))|]. eapply rtc_l; [apply (spin_preempt _ 1); [done|cbn; lia]|].
  do 3 (eapply rtc_l; [by eapply spin_run|]). apply rtc_refl.
Qed.

(** A mutex excludes as long as [mutex_lock] is not preempted between its
    test and its increment. *)
Theorem mutex_excludes_unless_preempted n s i j :
  rtc (mutex_step true) (XMachine 0 0 (replicate n XTest)) s ->
  xm_pcs s !! i = Some XHold -> xm_pcs s !! j = Some XHold -> i = j.
Proof.
  intros Hr Hi Hj. assert (mutex_inv s) as [_ [[_ Hno]|(_ & _ & h & _ & Hu)]].
  - assert (mutex_inv (XMachine 0 0 (replicate n XTest))) as H0.
    { split; [intros k [? _]%lookup_replicate; done|]. left. split; [done|]. intros k [? _]%lookup_replicate. done. }
    generalize dependent (XMachine 0 0 (replicate n XTest)). intros s0 Hr H0.
    induction Hr as [|a b c Hs _ IH]; [done|]. by eapply IH, mutex_step_inv.
  - by destruct (Hno i).
  - by rewrite (Hu i Hi), (Hu j Hj).
Qed.

(** With preemption allowed there, two threads can hold the mutex at once:
    [mutex_lock] tests and increments in two steps and disables nothing. *)
Theorem mutex_race :
  rtc (mutex_step false) (XMachine 0 0 [XTest; XTest]) (XMachine 1 2 [XHold; XHold]).
Proof.
  eapply rtc_l; [by apply mutex_test|]. simpl. eapply rtc_l; [apply (mutex_switch _ _ 1%nat); [done|simpl; lia]|].
  eapply rtc_l; [by apply mutex_test|]. simpl. eapply rtc_l; [apply (mutex_switch _ _ 0%nat); [done|simpl; lia]|].
  eapply rtc_l; [by apply mutex_inc|]. simpl. eapply rtc_l; [apply (mutex_switch _ _ 1%nat); [done|simpl; lia]|].
  eapply rtc_l; [by apply mutex_inc|]. apply rtc_refl.
Qed.

(** A counting semaphore loses units.  Whatever its value above zero,
    [sema_up] leaves it unchanged, so taking a unit and giving it back ends one
    below the start; only the value 1 survives the pair. *)
Theorem sema_up_loses_units v v' :
  0 < v < W32 -> sema_down true v = Ok v' -> sema_up true v' = (if v =? 1 then v else v - 1).
Proof.
  intros Hv. unfold sema_down, sema_is_locked. rewrite (proj2 (Z.eqb_neq 0 v)) by lia. simpl. intros [= <-].
  unfold atomic_dec, atomic_sub. rewrite u32_id by (unfold W32 in *; lia). unfold sema_up, sema_is_locked.
  destruct (Z.eqb_spec v 1) as [->|]; [done|]. by rewrite (proj2 (Z.eqb_neq 0 (v - 1))) by lia.
Qed.

Lemma sema_up_loses_units_witness : sema_up true 2 = 2.
Proof. apply (sema_up_loses_units 3 2); [unfold W32; lia|reflexivity]. Defined.

(** The bit operations on an atomic word act on exactly the bit they name,
    and the division by repeated subtraction terminates within the quotient's
    number of rounds with the quotient. *)
Theorem atomic_operations_correct nr v i fuel k :
  0 <= nr < 32 -> 0 <= v < W32 -> 0 < i -> v / i <= Z.of_nat fuel -> 0 <= k < 32 ->
  atomic_is_bitset k (atomic_set_bit nr v) = (if k =? nr then true else atomic_is_bitset k v) /\
  atomic_is_bitset k (atomic_clear_bit nr v) = (if k =? nr then false else atomic_is_bitset k v) /\
  atomic_udiv fuel i v = Ok (v / i).
Proof.
  intros Hnr Hv Hi Hf Hk. rewrite !is_bitset_testbit by done. unfold atomic_set_bit, atomic_clear_bit, atomic_udiv.
  rewrite bitmask_pow, Z.lor_spec, Z.ldiff_spec, Z.pow2_bits_eqb, (Z.eqb_sym nr k) by lia. split_and!.
  - destruct (k =? nr); [apply orb_true_r|apply orb_false_r].
  - destruct (k =? nr); [apply andb_false_r|apply andb_true_r].
  - rewrite atomic_udiv_loop_spec; try lia; [done|].
    assert (v / i <= v) by (apply Z.div_le_upper_bound; nia). lia.
Qed.

Lemma atomic_operations_correct_witness :
  atomic_is_bitset 3 (atomic_set_bit 3 50) = true /\
  atomic_is_bitset 3 (atomic_clear_bit 3 50) = false /\ atomic_udiv 10 7 50 = Ok 7.
Proof.
  apply (atomic_operations_correct 3 50 7 10 3); [lia|unfold W32; lia|lia|vm_compute; discriminate|lia].
Defined.
