(* ===== verification/Generic.v ===== *)
(** * Arithmetic and number text (common/generic/generic.c, include/common/generic.h)

    Division by repeated subtraction, number/text conversions, bit and byte
    reversal, alignment tests and the kernel's random numbers.  A loop takes
    [fuel]; [Spin] means it has not returned within it. *)

From stdpp Require Import prelude gmap fin_maps sorting.
From S2P Require Import Prelude Mem Bytes Sync.

(** ** Division *)
Fixpoint udiv_loop (fuel : nat) (divied div count : Z) : res (Z * Z) :=
  if div <=? divied then
    match fuel with
    | O => Spin
    | S fuel => udiv_loop fuel (divied - div) div (u32 (count + 1))
    end
  else Ok (count, divied).
Definition udiv_integer (fuel : nat) (divied div : Z) : res Z :=
  '(count, _) ← udiv_loop fuel divied div 0; Ok count.
Definition udiv_remainder (fuel : nat) (divied div : Z) : res Z :=
  '(_, divied) ← udiv_loop fuel divied div 0; Ok divied.

Definition mrt_abs (a : Z) : Z := s32 (if a <? 0 then - a else a).
Definition sdiv_integer (fuel : nat) (divied div : Z) : res Z :=
  '(count, _) ← udiv_loop fuel (mrt_abs divied) (mrt_abs div) 0;
  Ok (if Z.lxor divied div <? 0 then - count else count).

(** ** Numbers to text *)

(** The [do ... while (number)] loops that fill [temp], least significant digit
    first.  A 32-bit number has at most 8 hexadecimal and 32 binary digits. *)
Fixpoint hex_temp (fuel : nat) (mode : bool) (number : Z) : list Z :=
  match fuel with
  | O => []
  | S fuel =>
      let result := number - Z.shiftl (Z.shiftr number 4) 4 in
      let number := Z.shiftr number 4 in
      (if 10 <=? result then result - 10 + (if mode then 65 else 97) else result + 48)
        :: (if number =? 0 then [] else hex_temp fuel mode number)
  end.
Fixpoint bin_temp (fuel : nat) (number : Z) : list Z :=
  match fuel with
  | O => []
  | S fuel =>
      let result := number - Z.shiftl (Z.shiftr number 1) 1 in
      let number := Z.shiftr number 1 in
      result + 48 :: (if number =? 0 then [] else bin_temp fuel number)
  end.

(** [for (idx = 0; idx < count; idx++) buf[idx + 2] = temp[count - idx - 1]] *)
Definition put_temp (m : mem) (buf : Z) (temp : list Z) : mem :=
  foldl (fun m idx => st m (buf + Z.of_nat idx + 2) (temp !!! (length temp - idx - 1)%nat)) m (seq 0 (length temp)).

Definition dec_to_hex (m : mem) (buf number : Z) (mode : bool) : Z * mem :=
  let temp := hex_temp 8 mode number in
  (len temp + 2,
   if buf =? 0 then m
   else put_temp (st (st m buf 48) (buf + 1) (if mode then 88 else 120)) buf temp).

Definition dec_to_binary (m : mem) (buf number : Z) : Z * mem :=
  let temp := bin_temp 32 number in
  (len temp + 2,
   if buf =? 0 then m
   else put_temp (st (st m buf 48) (buf + 1) 98) buf temp).

(** ** Text to numbers *)

(** The value of one character, [None] for the jump to [fail]. *)
Definition ascii_digit (type val c : Z) : option Z :=
  if type =? 2 then
    if negb (c =? 48) && negb (c =? 49) then None else Some (s32 (s32 (val * 2) + c - 48))
  else if type =? 10 then
    if (c <? 48) || (57 <? c) then None else Some (s32 (s32 (s32 (val * 2) + s32 (val * 8)) + c - 48))
  else if type =? 16 then
    if (48 <=? c) && (c <=? 57) then Some (s32 (s32 (val * 16) + c - 48))
    else if (97 <=? c) && (c <=? 122) then Some (s32 (s32 (val * 16) + c - 97 + 10))
    else if (65 <=? c) && (c <=? 90) then Some (s32 (s32 (val * 16) + c - 65 + 10))
    else None
  else None.

Fixpoint ascii_loop (fuel : nat) (m : mem) (type p val : Z) : res Z :=
  match fuel with
  | O => Spin
  | S fuel =>
      if m p =? 0 then Ok val
      else match ascii_digit type val (m p) with
           | None => Ok (-1)
           | Some val => ascii_loop fuel m type (p + 1) val
           end
  end.

Definition ascii_to_dec (fuel : nat) (m : mem) (str : Z) : res Z :=
  if str =? 0 then Ok 0
  else
    let type := if (m str =? 48) && ((m (str + 1) =? 88) || (m (str + 1) =? 120)) then 16
                else if (m str =? 48) && ((m (str + 1) =? 66) || (m (str + 1) =? 98)) then 2
                else 10 in
    let p := if negb (type =? 10) then str + 2 else str in
    if negb (type =? 10) && (m p =? 0) then Ok (-1)
    else ascii_loop fuel m type p 0.

(** ** Random numbers *)
Record common_random_state := Random { rand_lock : spin_lock_t; rand_value : Z }.
Definition random_val (jiffies : Z) (c : cpu) (r : common_random_state) : res (Z * cpu * common_random_state) :=
  '(c, l) ← spin_lock_irqsave c (rand_lock r);
  let value := u32 (Z.lxor ((jiffies mod 32767) * u32 (rand_value r + 345977126)) 4298547119) in
  let '(c, l) := spin_unlock_irqrestore c l in
  Ok (value, c, Random l value).

(** ** Bits and bytes *)
Definition mrt_bit_nr (val nr : Z) : Z := u32 (Z.shiftl (u32 val) nr).
Definition mrt_bit (nr : Z) : Z := mrt_bit_nr 1 nr.
Definition mrt_setbit (val nr : Z) : Z := Z.lor val (mrt_bit nr).
Definition mrt_clrbit (val nr : Z) : Z := Z.ldiff val (mrt_bit nr).
Definition isPower2 (number : Z) : bool := negb (number =? 0) && (Z.land number (number - 1) =? 0).

(** [&] binds weaker than [==]: the mask is compared before the [and]. *)
Definition mrt_is_aligned (x mask : Z) : bool := negb (Z.land x (if mask - 1 =? 0 then 1 else 0) =? 0).
Definition mrt_align (x mask : Z) : Z := u32 (Z.ldiff (u32 (x + (mask - 1))) (mask - 1)).
Definition mrt_ralign (x mask : Z) : Z := Z.ldiff x (mask - 1).
Definition mrt_usub (a b : Z) : Z := if b <? a then a - b else b - a.

Definition TO_CONVERT_BYTE16 (x : Z) : Z :=
  Z.lor (Z.shiftl (Z.land (u16 x) 255) 8) (Z.shiftr (Z.land (u16 x) 65280) 8).
Definition TO_CONVERT_BYTE32 (x : Z) : Z :=
  Z.lor (Z.lor (Z.lor (u32 (Z.shiftl (Z.land (u32 x) 255) 24)) (Z.shiftl (Z.land (u32 x) 65280) 8))
               (Z.shiftr (Z.land (u32 x) 16711680) 8))
        (Z.shiftr (Z.land (u32 x) 4278190080) 24).
Definition TO_CONVERT_BIT8 (x : Z) : Z :=
  let b (mask : Z) := Z.land (u8 x) mask in
  Z.lor (Z.lor (Z.lor (Z.shiftl (b 1) 7) (Z.shiftl (b 2) 5)) (Z.lor (Z.shiftl (b 4) 3) (Z.shiftl (b 8) 1)))
        (Z.lor (Z.lor (Z.shiftr (b 16) 1) (Z.shiftr (b 32) 3)) (Z.lor (Z.shiftr (b 64) 5) (Z.shiftr (b 128) 7))).

(** [for (i = 8, result = 0; i > 0; i--)] *)
Fixpoint reverse_bit_loop (i : nat) (val result : Z) : Z :=
  match i with
  | O => result
  | S i => reverse_bit_loop i (Z.shiftr val 1) (Z.lor (u8 (Z.shiftl result 1)) (Z.land val 1))
  end.
Definition reverse_bit (val : Z) : Z := reverse_bit_loop 8 (u8 val) 0.

(** ** Facts *)
Lemma ldiff_ralign x : 0 <= x -> mrt_ralign x 8 = 8 * (x / 8).
Proof.
  intros Hx. unfold mrt_ralign. change (8 - 1) with (Z.ones 3). rewrite Z.ldiff_ones_r by lia.
  rewrite Z.shiftr_div_pow2, Z.shiftl_mul_pow2 by lia. change (2 ^ 3) with 8. lia.
Qed.
Lemma align_of_aligned x : 0 <= x < W32 - 8 -> (8 | x) -> mrt_align x 8 = x.
Proof.
  intros Hx [k ->]. unfold mrt_align. rewrite !(u32_id (k * 8 + (8 - 1))) by lia.
  change (Z.ldiff (k * 8 + (8 - 1)) (8 - 1)) with (mrt_ralign (k * 8 + (8 - 1)) 8). rewrite ldiff_ralign by lia.
  replace (k * 8 + (8 - 1)) with (k * 8 + 7) by lia. rewrite Z.div_add_l by lia. change (7 / 8) with 0. rewrite u32_id; lia.
Qed.
Lemma mrt_align8_bounds x : 0 <= x < W32 - 8 -> x <= mrt_align x 8 < x + 8.
Proof.
  intros Hx. unfold mrt_align. rewrite (u32_id (x + (8 - 1))) by lia.
  change (Z.ldiff (x + (8 - 1)) (8 - 1)) with (mrt_ralign (x + (8 - 1)) 8). rewrite ldiff_ralign by lia.
  pose proof (Z.div_mod (x + (8 - 1)) 8 ltac:(lia)). pose proof (Z.mod_pos_bound (x + (8 - 1)) 8 ltac:(lia)). rewrite u32_id; lia.
Qed.

Lemma udiv_loop_spec fuel divied div count :
  0 < div -> 0 <= divied -> 0 <= count -> count + divied / div < W32 -> divied / div <= Z.of_nat fuel ->
  udiv_loop fuel divied div count = Ok (count + divied / div, divied mod div).
Proof.
  intros Hd. revert divied count. induction fuel as [|fuel IH]; intros divied count Hn Hc Hb Hf; simpl.
  all: destruct (Z.leb_spec div divied) as [Hle|Hlt];
    [|rewrite Z.div_small, Z.mod_small by lia; f_equal; f_equal; lia].
  - exfalso. pose proof (Z.div_le_mono div divied div). rewrite Z.div_same in *; lia.
  - assert (divied / div = 1 + (divied - div) / div) as Eq.
    { replace divied with ((divied - div) + 1 * div) at 1 by lia. rewrite Z.div_add by lia. lia. }
    assert (divied mod div = (divied - div) mod div) as Em.
    { replace divied with ((divied - div) + 1 * div) at 1 by lia. by rewrite Z.mod_add by lia. }
    pose proof (Z.div_pos (divied - div) div). rewrite u32_id by lia. rewrite IH by lia. rewrite Eq, Em. f_equal. f_equal. lia.
Qed.

Lemma udiv_loop_zero fuel divied count : 0 <= divied -> udiv_loop fuel divied 0 count = Spin.
Proof.
  revert divied count. induction fuel as [|fuel IH]; intros divied count H; simpl; rewrite (proj2 (Z.leb_le _ _)) by lia; [done|].
  apply IH. lia.
Qed.

Definition hex_char (mode : bool) (d : Z) : Z := if 10 <=? d then d - 10 + (if mode then 65 else 97) else d + 48.
Definition dec_char (d : Z) : Z := d + 48.

Lemma shift_digit n k : 0 <= k -> n - Z.shiftl (Z.shiftr n k) k = n mod 2 ^ k.
Proof. intros. rewrite Z.shiftl_mul_pow2, Z.shiftr_div_pow2, Z.mod_eq by (try apply Z.pow_nonzero; lia). lia. Qed.

Lemma hex_temp_digits fuel mode n : hex_temp fuel mode n = hex_char mode <$> digits fuel 16 n.
Proof.
  revert n. induction fuel as [|fuel IH]; intros n; [done|]. rewrite digits_S. cbn [hex_temp fmap list_fmap].
  rewrite shift_digit by lia. rewrite Z.shiftr_div_pow2 by lia. change (2 ^ 4) with 16.
  rewrite IH. destruct (n / 16 =? 0); done.
Qed.
Lemma bin_temp_digits fuel n : bin_temp fuel n = dec_char <$> digits fuel 2 n.
Proof.
  revert n. induction fuel as [|fuel IH]; intros n; [done|]. rewrite digits_S. cbn [bin_temp fmap list_fmap].
  rewrite shift_digit by lia. rewrite Z.shiftr_div_pow2 by lia. change (2 ^ 1) with 2.
  rewrite IH. destruct (n / 2 =? 0); done.
Qed.

Lemma put_temp_st_list m buf temp : put_temp m buf temp = st_list m (buf + 2) (reverse temp).
Proof.
  unfold put_temp.
  assert (forall k j m, (k + j = length temp)%nat ->
    foldl (fun m idx => st m (buf + Z.of_nat idx + 2) (temp !!! (length temp - idx - 1)%nat)) m (seq j k)
    = st_list m (buf + 2 + Z.of_nat j) (drop j (reverse temp))) as H.
  { induction k as [|k IH]; intros j m' Hk; simpl.
    - rewrite drop_ge; [done|]. rewrite length_reverse. lia.
    - rewrite IH by lia. destruct (lookup_lt_is_Some_2 (reverse temp) j) as [x Hx]; [rewrite length_reverse; lia|].
      rewrite (drop_S _ _ _ Hx). simpl. rewrite reverse_lookup in Hx by lia.
      f_equal; [|lia]. f_equal; [lia|]. apply list_lookup_total_correct. rewrite <- Hx. f_equal. lia. }
  rewrite (H (length temp) 0%nat m) by lia. rewrite drop_0. f_equal. lia.
Qed.

(** What the conversions write, as text. *)
Definition hex_text (mode : bool) (n : Z) : list Z := 48 :: (if mode then 88 else 120) :: reverse (hex_char mode <$> digits 8 16 n).
Definition bin_text (n : Z) : list Z := 48 :: 98 :: reverse (dec_char <$> digits 32 2 n).
Definition dec_text (n : Z) : list Z := reverse (dec_char <$> digits 20 10 n).

Lemma dec_to_hex_text m buf n mode :
  dec_to_hex m buf n mode = (len (hex_text mode n), if buf =? 0 then m else st_list m buf (hex_text mode n)).
Proof.
  unfold dec_to_hex. rewrite hex_temp_digits, put_temp_st_list. unfold hex_text. autorewrite with len.
  f_equal; [lia|]. destruct (buf =? 0); [done|]. cbn [st_list]. f_equal. lia.
Qed.
Lemma dec_to_binary_text m buf n :
  dec_to_binary m buf n = (len (bin_text n), if buf =? 0 then m else st_list m buf (bin_text n)).
Proof.
  unfold dec_to_binary. rewrite bin_temp_digits, put_temp_st_list. unfold bin_text. autorewrite with len.
  f_equal; [lia|]. destruct (buf =? 0); [done|]. cbn [st_list]. f_equal. lia.
Qed.

Lemma hex_char_char mode d : 0 <= d < 16 -> char (hex_char mode d).
Proof. intros. unfold hex_char, char. destruct (Z.leb_spec 10 d), mode; lia. Qed.
Lemma dec_char_char d : 0 <= d < 10 -> char (dec_char d).
Proof. intros. unfold dec_char, char. lia. Qed.

Lemma Forall_fmap_digits (f : Z -> Z) (P : Z -> Prop) b fuel n :
  1 < b -> 0 <= n < b ^ Z.of_nat fuel -> (0 < fuel)%nat -> (forall d, 0 <= d < b -> P (f d)) ->
  Forall P (reverse (f <$> digits fuel b n)).
Proof.
  intros Hb Hn Hf HP. destruct (digits_spec fuel b n Hb Hn Hf) as (_ & Hd & _).
  apply Forall_reverse, Forall_fmap. eapply Forall_impl; [done|]. simpl. auto.
Qed.

Lemma hex_text_chars mode n : is_u32 n -> Forall char (hex_text mode n).
Proof.
  intros H. unfold hex_text. constructor; [unfold char; lia|]. constructor; [destruct mode; unfold char; lia|].
  apply Forall_fmap_digits; [lia|exact H|lia|apply hex_char_char].
Qed.
Lemma bin_text_chars n : is_u32 n -> Forall char (bin_text n).
Proof.
  intros H. unfold bin_text. constructor; [unfold char; lia|]. constructor; [unfold char; lia|].
  apply Forall_fmap_digits; [lia|exact H|lia|]. intros d Hd. apply dec_char_char. lia.
Qed.
Lemma dec_text_chars n : 0 <= n < 2 ^ 64 -> Forall char (dec_text n).
Proof. intros H. apply Forall_fmap_digits; [lia|simpl; lia|lia|apply dec_char_char]. Qed.

(** Signed words are residues. *)
Lemma s32_shift a k : s32 (a + k * W32) = s32 a.
Proof. unfold s32. replace (a + k * W32 + 2147483648) with (a + 2147483648 + k * W32) by lia. by rewrite Z.mod_add. Qed.
Lemma s32_ex a : exists k, s32 a = a + k * W32.
Proof.
  exists (- ((a + 2147483648) / W32)). unfold s32. rewrite Z.mod_eq by done. lia.
Qed.

Lemma ascii_digit_dec val d : 0 <= d < 10 -> ascii_digit 10 val (dec_char d) = Some (s32 (10 * val + d)).
Proof.
  intros Hd. unfold ascii_digit, dec_char. simpl. rewrite (proj2 (Z.ltb_ge _ _)), (proj2 (Z.ltb_ge _ _)) by lia. simpl. f_equal.
  destruct (s32_ex (val * 2)) as [k1 ->]. destruct (s32_ex (val * 8)) as [k2 ->].
  destruct (s32_ex (val * 2 + k1 * W32 + (val * 8 + k2 * W32))) as [k3 ->].
  rewrite <- (s32_shift (10 * val + d) (k1 + k2 + k3)). f_equal. lia.
Qed.
Lemma ascii_digit_bin val d : 0 <= d < 2 -> ascii_digit 2 val (dec_char d) = Some (s32 (2 * val + d)).
Proof.
  intros Hd. unfold ascii_digit, dec_char. simpl.
  assert (negb (d + 48 =? 48) && negb (d + 48 =? 49) = false) as ->.
  { destruct (Z.eqb_spec (d + 48) 48); [done|]. destruct (Z.eqb_spec (d + 48) 49); [done|lia]. }
  f_equal. destruct (s32_ex (val * 2)) as [k1 ->]. rewrite <- (s32_shift (2 * val + d) k1). f_equal. lia.
Qed.
Lemma ascii_digit_hex mode val d : 0 <= d < 16 -> ascii_digit 16 val (hex_char mode d) = Some (s32 (16 * val + d)).
Proof.
  intros Hd. unfold ascii_digit, hex_char. simpl. destruct (s32_ex (val * 16)) as [k1 ->].
  rewrite <- (s32_shift (16 * val + d) k1). destruct (Z.leb_spec 10 d).
  - destruct mode.
    + rewrite (proj2 (Z.leb_gt (d - 10 + 65) 57)), andb_false_r by lia. rewrite (proj2 (Z.leb_gt 97 _)) by lia. simpl.
      rewrite (proj2 (Z.leb_le 65 _)), (proj2 (Z.leb_le _ 90)) by lia. simpl. do 2 f_equal. lia.
    + rewrite (proj2 (Z.leb_gt (d - 10 + 97) 57)), andb_false_r by lia.
      rewrite (proj2 (Z.leb_le 97 _)), (proj2 (Z.leb_le _ 122)) by lia. simpl. do 2 f_equal. lia.
  - rewrite (proj2 (Z.leb_le 48 _)), (proj2 (Z.leb_le _ 57)) by lia. simpl. do 2 f_equal. lia.
Qed.

(** Reading a run of digit characters evaluates them, modulo the word. *)
Lemma ascii_loop_digits type b (f : Z -> Z) m ds p val fuel :
  (forall v d, 0 <= d < b -> ascii_digit type v (f d) = Some (s32 (b * v + d))) ->
  Forall (fun d => 0 <= d < b) ds -> cstr m p (f <$> ds) -> (length ds < fuel)%nat ->
  ascii_loop fuel m type p (s32 val) = Ok (s32 (foldl (fun v d => b * v + d) val ds)).
Proof.
  intros Hf. revert p val fuel. induction ds as [|d ds IH]; intros p val fuel Hd Hs Hl; (destruct fuel; simpl in Hl; [lia|]); simpl.
  - apply cstr_nil in Hs. by rewrite Hs.
  - apply cstr_cons in Hs as (Hp & Hc & Hs). apply Forall_cons in Hd as [Hd Hds]. rewrite Hp.
    rewrite (proj2 (Z.eqb_neq _ _)) by (unfold char in Hc; lia). rewrite Hf by done.
    assert (s32 (b * s32 val + d) = s32 (b * val + d)) as ->.
    { destruct (s32_ex val) as [k ->]. rewrite <- (s32_shift (b * val + d) (b * k)). f_equal. lia. }
    apply IH; [done|done|lia].
Qed.

Lemma Forall_digits_rev fuel b n :
  1 < b -> 0 <= n < b ^ Z.of_nat fuel -> (0 < fuel)%nat -> Forall (fun d => 0 <= d < b) (reverse (digits fuel b n)).
Proof. intros Hb Hn Hf. apply Forall_reverse. by apply digits_spec. Qed.

Lemma digits_text_value type b (f : Z -> Z) m p n fuel k :
  (forall v d, 0 <= d < b -> ascii_digit type v (f d) = Some (s32 (b * v + d))) ->
  1 < b -> 0 <= n < b ^ Z.of_nat k -> (0 < k < fuel)%nat -> cstr m p (reverse (f <$> digits k b n)) ->
  ascii_loop fuel m type p 0 = Ok (s32 n).
Proof.
  intros Hf Hb Hn Hk Hs. destruct (digits_spec k b n) as (Hv & Hr & Hl); [done|done|lia|].
  change 0 with (s32 0) at 1. rewrite <- fmap_reverse in Hs.
  rewrite (ascii_loop_digits type b f m _ p 0 fuel Hf (proj2 (Forall_reverse _ _) Hr) Hs) by (rewrite length_reverse; lia).
  by rewrite digits_value_rev, Hv.
Qed.

Lemma abs_id a : -2147483648 < a < 2147483648 -> mrt_abs a = Z.abs a.
Proof. intros H. unfold mrt_abs. destruct (Z.ltb_spec a 0); rewrite s32_id by lia; lia. Qed.

Lemma lxor_neg a b : Z.lxor a b <? 0 = xorb (a <? 0) (b <? 0).
Proof.
  pose proof (Z.lxor_nonneg a b). destruct (Z.ltb_spec (Z.lxor a b) 0), (Z.ltb_spec a 0), (Z.ltb_spec b 0); simpl; try done; lia.
Qed.

(** The division helpers compute quotient and remainder: unsigned ones of
    any words with a non-zero divisor, the signed one truncating towards zero
    for operands other than the most negative word; given fuel for as many
    rounds as the quotient they return.  With a zero divisor no fuel is
    enough. *)
Theorem division_by_subtraction fuel a b :
  is_u32 a -> is_u32 b -> a <= Z.of_nat fuel ->
  (if b =? 0 then udiv_integer fuel a b = Spin /\ udiv_remainder fuel a b = Spin
   else udiv_integer fuel a b = Ok (a / b) /\ udiv_remainder fuel a b = Ok (a mod b)) /\
  (forall x y, -2147483648 < x < 2147483648 -> -2147483648 < y < 2147483648 -> Z.abs x <= Z.of_nat fuel ->
     sdiv_integer fuel x y = if y =? 0 then Spin else Ok (Z.quot x y)).
Proof.
  unfold is_u32. intros Ha Hb Hf.
  assert (forall n d, 0 < d -> 0 <= n < W32 -> n <= Z.of_nat fuel -> udiv_loop fuel n d 0 = Ok (n / d, n mod d)) as H.
  { intros n d Hd Hn Hfu. assert (n / d <= n) by (apply Z.div_le_upper_bound; nia). rewrite udiv_loop_spec; [done|lia..]. }
  split.
  - unfold udiv_integer, udiv_remainder. destruct (Z.eqb_spec b 0) as [->|].
    + by rewrite udiv_loop_zero by lia.
    + by rewrite H by lia.
  - intros x y Hx Hy Hfx. unfold sdiv_integer. rewrite !abs_id by done. destruct (Z.eqb_spec y 0) as [->|].
    + by rewrite udiv_loop_zero by lia.
    + rewrite H by (unfold W32; lia). simpl. rewrite lxor_neg. f_equal.
      rewrite <- (Z.quot_div_nonneg (Z.abs x) (Z.abs y)) by lia.
      destruct (Z.ltb_spec x 0) as [Ex|Ex]; [rewrite (Z.abs_neq x)|rewrite (Z.abs_eq x)]; try lia;
      destruct (Z.ltb_spec y 0) as [Ey|Ey]; [rewrite (Z.abs_neq y)|rewrite (Z.abs_eq y)|rewrite (Z.abs_neq y)|rewrite (Z.abs_eq y)]; try lia; simpl.
      * by rewrite Z.quot_opp_opp.
      * rewrite Z.quot_opp_l by done. lia.
      * rewrite Z.quot_opp_r by done. lia.
      * done.
Qed.
Lemma division_by_subtraction_witness :
  udiv_integer 100 97 7 = Ok 13 /\ sdiv_integer 100 (-97) 7 = Ok (-13).
Proof.
  destruct (division_by_subtraction 100 97 7) as [[H1 _] H2]; [vm_compute; split; discriminate || reflexivity..|lia|].
  split; [exact H1|]. apply (H2 (-97) 7); lia.
Defined.
