(* ===== verification/Bitmap.v ===== *)
(** * Bitmaps (common/generic/io_stream.c)

    An array of bytes, eight flags each.  Numbers of interrupts, sockets and
    network interfaces are handed out by looking for clear bits.  An access
    outside the array is a [Fault]. *)

From stdpp Require Import prelude gmap fin_maps sorting.
From S2P Require Import Prelude Mem Bytes Sync Generic.

(** [mrt_udiv] and [mrt_urem] by eight; one round per subtraction. *)
Definition area_of (index : Z) : res Z := udiv_integer (Z.to_nat index) index 8.
Definition mask_of (index : Z) : res Z := udiv_remainder (Z.to_nat index) index 8.

(** [!!( *(bitmap + area_mask) & (1 << bit_mask))] *)
Definition test_bit (bitmap : list Z) (index : Z) : res bool :=
  area_mask ← area_of index;
  bit_mask ← mask_of index;
  b ← deref (bitmap !! Z.to_nat area_mask);
  Ok (negb (Z.land b (Z.shiftl 1 bit_mask) =? 0)).
Definition write_bit (bitmap : list Z) (index : Z) (value : bool) : res (list Z) :=
  area_mask ← area_of index;
  bit_mask ← mask_of index;
  b ← deref (bitmap !! Z.to_nat area_mask);
  Ok (<[Z.to_nat area_mask := u8 (if value then Z.lor b (Z.shiftl 1 bit_mask) else Z.land b (Z.lnot (Z.shiftl 1 bit_mask)))]> bitmap).

(** The [for] loops, over the [n] indices from [index] on. *)
Fixpoint first_bit (n : nat) (bitmap : list Z) (index : Z) (value : bool) : res (option Z) :=
  match n with
  | O => Ok None
  | S n =>
      b ← test_bit bitmap index;
      if eqb b value then Ok (Some index) else first_bit n bitmap (index + 1) value
  end.
Fixpoint write_bits (n : nat) (bitmap : list Z) (index : Z) (value : bool) : res (list Z) :=
  match n with
  | O => Ok bitmap
  | S n => bitmap ← write_bit bitmap index value; write_bits n bitmap (index + 1) value
  end.

Definition bitmap_find_first_bit (bitmap : list Z) (start total_bits : Z) (value : bool) : res Z :=
  r ← first_bit (Z.to_nat (total_bits - start)) bitmap start value;
  Ok (match r with None => -1 | Some index => s32 index end).
Definition bitmap_find_nr_bit (bitmap : list Z) (start total_bits nr : Z) (value : bool) : res Z :=
  let end_ := u32 (start + nr) in
  if total_bits <=? end_ then Ok (-1)
  else
    index ← bitmap_find_first_bit bitmap start end_ (negb value);
    Ok (if index <? 0 then 0 else index).
Definition bitmap_set_nr_bit (bitmap : list Z) (start total_bits nr : Z) (value : bool) : res (list Z) :=
  let end_ := u32 (start + nr) in
  if total_bits <=? end_ then Ok bitmap else write_bits (Z.to_nat (end_ - start)) bitmap start value.

Definition bitmap_find_first_zero_bit (bitmap : list Z) (start total_bits : Z) := bitmap_find_first_bit bitmap start total_bits false.
Definition bitmap_find_first_valid_bit (bitmap : list Z) (start total_bits : Z) := bitmap_find_first_bit bitmap start total_bits true.
Definition bitmap_find_nr_zero_bit (bitmap : list Z) (start total_bits nr : Z) := bitmap_find_nr_bit bitmap start total_bits nr false.
Definition bitmap_find_nr_valid_bit (bitmap : list Z) (start total_bits nr : Z) := bitmap_find_nr_bit bitmap start total_bits nr true.
Definition bitmap_set_nr_bit_zero (bitmap : list Z) (start total_bits nr : Z) := bitmap_set_nr_bit bitmap start total_bits nr false.
Definition bitmap_set_nr_bit_valid (bitmap : list Z) (start total_bits nr : Z) := bitmap_set_nr_bit bitmap start total_bits nr true.

(** ** What the routines do *)
Definition bit_at (bitmap : list Z) (i : Z) : bool := Z.testbit (default 0 (bitmap !! Z.to_nat (i / 8))) (i mod 8).
(** Bits that exist; a bitmap holds fewer than 2^31 of them. *)
Definition bit_in (bitmap : list Z) (i : Z) : Prop := 0 <= i < 8 * len bitmap.
Definition bytes_ok (bitmap : list Z) : Prop := Forall (fun b => 0 <= b < 256) bitmap /\ 8 * len bitmap < 2 ^ 31.

Lemma area_spec bm i : bytes_ok bm -> bit_in bm i -> area_of i = Ok (i / 8) /\ mask_of i = Ok (i mod 8).
Proof.
  intros [_ Hlen] [Hlo Hhi]. unfold area_of, mask_of, udiv_integer, udiv_remainder.
  assert (i / 8 <= i) by (apply Z.div_le_upper_bound; lia).
  rewrite udiv_loop_spec; [done|unfold W32; lia..].
Qed.
Lemma byte_lookup bm i : bit_in bm i -> exists b, bm !! Z.to_nat (i / 8) = Some b.
Proof.
  intros [Hlo Hhi]. apply lookup_lt_is_Some_2. unfold len in *. assert (i / 8 < Z.of_nat (length bm)) by (apply Z.div_lt_upper_bound; lia).
  assert (0 <= i / 8) by (apply Z.div_pos; lia). lia.
Qed.

Lemma land_bit b k : 0 <= k -> negb (Z.land b (Z.shiftl 1 k) =? 0) = Z.testbit b k.
Proof.
  intros Hk. rewrite Z.shiftl_1_l. destruct (Z.eqb_spec (Z.land b (2 ^ k)) 0) as [E|E]; simpl; symmetry.
  - apply (f_equal (fun z => Z.testbit z k)) in E. by rewrite Z.land_spec, Z.pow2_bits_true, andb_true_r, Z.bits_0 in E.
  - apply not_false_iff_true. intros Hb. apply E, Z.bits_inj'. intros j Hj. rewrite Z.land_spec, Z.bits_0, Z.pow2_bits_eqb by done.
    destruct (Z.eqb_spec k j) as [<-|]; [by rewrite Hb|apply andb_false_r].
Qed.

Lemma test_bit_spec bm i : bytes_ok bm -> bit_in bm i -> test_bit bm i = Ok (bit_at bm i).
Proof.
  intros Hok Hi. unfold test_bit, bit_at. destruct (area_spec bm i Hok Hi) as [-> ->]. destruct (byte_lookup bm i Hi) as [b Hb].
  cbn [mbind res_bind]. rewrite Hb. cbn [deref mbind res_bind default from_option id]. rewrite land_bit; [done|].
  apply Z.mod_pos_bound. lia.
Qed.

Lemma first_bit_spec bm value n : forall i, bytes_ok bm -> 0 <= i -> i + Z.of_nat n <= 8 * len bm ->
  exists r, first_bit n bm i value = Ok r /\
    match r with
    | None => forall j, i <= j < i + Z.of_nat n -> bit_at bm j = negb value
    | Some k => i <= k < i + Z.of_nat n /\ bit_at bm k = value /\ forall j, i <= j < k -> bit_at bm j = negb value
    end.
Proof.
  induction n as [|n IH]; intros i Hok Hi Hn; [exists None; split; [done|lia]|].
  cbn [first_bit]. rewrite test_bit_spec by (done || (unfold bit_in; lia)). cbn [mbind res_bind].
  destruct (eqb (bit_at bm i) value) eqn:Hb.
  { apply eqb_prop in Hb. exists (Some i). split; [done|]. split_and!; [lia..|done|lia]. }
  assert (bit_at bm i = negb value) as Hb' by (apply eqb_false_iff in Hb; by destruct (bit_at bm i), value).
  destruct (IH (i + 1)) as (r & -> & Hr); [done|lia..|]. exists r. split; [done|]. destruct r as [k|].
  - destruct Hr as (? & ? & Hr). split_and!; [lia..|done|]. intros j Hj. destruct (decide (j = i)) as [->|]; [done|]. apply Hr. lia.
  - intros j Hj. destruct (decide (j = i)) as [->|]; [done|]. apply Hr. lia.
Qed.

Lemma find_first_bit_spec bm start total value :
  bytes_ok bm -> 0 <= start -> total <= 8 * len bm ->
  exists r, bitmap_find_first_bit bm start total value = Ok r /\
    ((r = -1 /\ forall j, start <= j < total -> bit_at bm j = negb value) \/
     (start <= r < total /\ bit_at bm r = value /\ forall j, start <= j < r -> bit_at bm j = negb value)).
Proof.
  intros Hok Hs Ht. unfold bitmap_find_first_bit. destruct (Z.le_gt_cases total start) as [Hle|Hlt].
  { replace (Z.to_nat (total - start)) with O by lia. simpl. eexists. split; [done|]. left. split; [done|lia]. }
  destruct (first_bit_spec bm value (Z.to_nat (total - start)) start Hok Hs) as (r & -> & Hr); [lia|]. cbn [mbind res_bind].
  destruct Hok as [_ Hlen]. destruct r as [k|].
  - destruct Hr as (Hk & Hb & Hj). exists k. rewrite s32_id by lia. split; [done|]. right. split_and!; [lia..|done|done].
  - eexists. split; [done|]. left. split; [done|]. intros j Hj. apply Hr. lia.
Qed.

(** Bit [k] of a byte, set or cleared. *)
Lemma written_bit b k (value : bool) j : 0 <= b < 256 -> 0 <= k < 8 -> 0 <= j < 8 ->
  Z.testbit (u8 (if value then Z.lor b (Z.shiftl 1 k) else Z.land b (Z.lnot (Z.shiftl 1 k)))) j = if decide (j = k) then value else Z.testbit b j.
Proof.
  intros Hb Hk Hj. unfold u8. change 256 with (2 ^ 8). rewrite Z.mod_pow2_bits_low, Z.shiftl_1_l by lia.
  destruct value; rewrite ?Z.lor_spec, ?Z.land_spec, ?Z.lnot_spec, Z.pow2_bits_eqb by lia;
    destruct (decide (j = k)) as [->|Hne]; rewrite ?Z.eqb_refl, ?(proj2 (Z.eqb_neq k j)) by lia; simpl;
    rewrite ?orb_true_r, ?orb_false_r, ?andb_false_r, ?andb_true_r; done.
Qed.

Lemma write_bit_spec bm i value : bytes_ok bm -> bit_in bm i ->
  exists bm', write_bit bm i value = Ok bm' /\ bytes_ok bm' /\ len bm' = len bm /\
    forall j, bit_in bm j -> bit_at bm' j = if decide (j = i) then value else bit_at bm j.
Proof.
  intros Hok Hi. unfold write_bit. destruct (area_spec bm i Hok Hi) as [-> ->]. destruct (byte_lookup bm i Hi) as [b Hb].
  cbn [mbind res_bind]. rewrite Hb. cbn [deref mbind res_bind]. eexists. split; [done|].
  destruct Hok as [Hby Hlen]. assert (len (<[Z.to_nat (i / 8) := u8 (if value then Z.lor b (Z.shiftl 1 (i mod 8)) else Z.land b (Z.lnot (Z.shiftl 1 (i mod 8))))]> bm) = len bm)
    as El by (unfold len; by rewrite length_insert).
  split_and!; [split; [|by rewrite El]|done|].
  { apply Forall_insert; [done|]. unfold u8. apply Z.mod_pos_bound. lia. }
  intros j Hj. unfold bit_at. pose proof (Z.mod_pos_bound i 8 ltac:(lia)). pose proof (Z.mod_pos_bound j 8 ltac:(lia)).
  pose proof (Z.div_mod i 8). pose proof (Z.div_mod j 8). destruct Hi as [Hi0 _], Hj as [Hj0 _].
  assert (0 <= i / 8) by (apply Z.div_pos; lia). assert (0 <= j / 8) by (apply Z.div_pos; lia).
  destruct (decide (j / 8 = i / 8)) as [E|E].
  - rewrite E, list_lookup_insert_eq by (by eapply lookup_lt_Some). rewrite Hb. cbn [default from_option id].
    rewrite written_bit; [|by apply (Forall_lookup_1 _ _ _ _ Hby Hb)|lia..].
    destruct (decide (j mod 8 = i mod 8)), (decide (j = i)); try done; subst; lia.
  - rewrite list_lookup_insert_ne by lia. rewrite decide_False; [done|]. by intros ->.
Qed.

Lemma write_bits_spec value n : forall bm i, bytes_ok bm -> 0 <= i -> i + Z.of_nat n <= 8 * len bm ->
  exists bm', write_bits n bm i value = Ok bm' /\ bytes_ok bm' /\ len bm' = len bm /\
    forall j, bit_in bm j -> bit_at bm' j = if decide (i <= j < i + Z.of_nat n) then value else bit_at bm j.
Proof.
  induction n as [|n IH]; intros bm i Hok Hi Hn.
  { exists bm. split_and!; try done. intros j Hj. rewrite decide_False by lia. done. }
  cbn [write_bits]. destruct (write_bit_spec bm i value Hok) as (bm1 & -> & Hok1 & El1 & Hb1); [unfold bit_in; lia|]. cbn [mbind res_bind].
  destruct (IH bm1 (i + 1)) as (bm' & -> & Hok' & El' & Hb'); [done|lia..|]. exists bm'. split_and!; [done|done|congruence|].
  intros j Hj. rewrite Hb', Hb1 by (done || (unfold bit_in; rewrite El1; exact Hj)).
  destruct (decide (j = i)) as [->|]; [rewrite decide_False by lia; by rewrite decide_True by lia|].
  destruct (decide (i + 1 <= j < _)), (decide (i <= j < _)); try done; lia.
Qed.

(** Looking for a bit finds the first one of the wanted value from the start
    on, and -1 only when there is none; a request for a run of bits that ends
    before the last bit of the map returns 0 exactly when the whole run has the
    wanted value (provided it does not start at bit 0, which as a failure reads
    like success); writing a run changes exactly its bits. *)
Lemma bitmap_routines_correct bm start total nr value :
  bytes_ok bm -> 0 <= start -> 0 <= nr -> total <= 8 * len bm ->
  (exists r, bitmap_find_first_bit bm start total value = Ok r /\
    ((r = -1 /\ forall j, start <= j < total -> bit_at bm j = negb value) \/
     (start <= r < total /\ bit_at bm r = value /\ forall j, start <= j < r -> bit_at bm j = negb value))) /\
  (start + nr < total -> 0 < start ->
    exists r, bitmap_find_nr_bit bm start total nr value = Ok r /\
      (r = 0 <-> forall j, start <= j < start + nr -> bit_at bm j = value) /\
      (r <> 0 -> start <= r < start + nr /\ bit_at bm r = negb value)) /\
  (start + nr < total ->
    exists bm', bitmap_set_nr_bit bm start total nr value = Ok bm' /\ bytes_ok bm' /\ len bm' = len bm /\
      forall j, bit_in bm j -> bit_at bm' j = if decide (start <= j < start + nr) then value else bit_at bm j).
Proof.
  intros Hok Hs Hn Ht. pose proof (proj2 Hok) as Hlen. split_and!.
  - by apply find_first_bit_spec.
  - intros Hend H0. unfold bitmap_find_nr_bit. rewrite u32_id by (unfold is_u32, W32; lia). rewrite (proj2 (Z.leb_gt _ _)) by lia.
    destruct (find_first_bit_spec bm start (start + nr) (negb value) Hok Hs) as (r & -> & Hr); [lia|]. cbn [mbind res_bind].
    rewrite negb_involutive in Hr. destruct Hr as [[-> Hr]|(Hr & Hb & _)].
    + exists 0. split_and!; [done|done|done].
    + rewrite (proj2 (Z.ltb_ge _ _)) by lia. exists r. split_and!; [done| |done]. split; [lia|].
      intros Hall. rewrite Hall in Hb by lia. by destruct value.
  - intros Hend. unfold bitmap_set_nr_bit. rewrite u32_id by (unfold is_u32, W32; lia). rewrite (proj2 (Z.leb_gt _ _)) by lia.
    destruct (write_bits_spec value (Z.to_nat (start + nr - start)) bm start Hok Hs) as (bm' & -> & H1 & H2 & H3); [lia|].
    exists bm'. split_and!; try done. intros j Hj. rewrite H3 by done. f_equal. replace (Z.of_nat _) with nr by lia. done.
Qed.
