(* ===== verification/RadixSpec.v ===== *)
(** * Radix trees are finite maps

    Every node of a tree is given the path that leads to it, deepest group
    first.  [rt_inv] says that branches, parents and paths agree; the number of
    an entry is recovered from its path, so distinct numbers never meet. *)

From stdpp Require Import prelude gmap fin_maps sorting.
From S2P Require Import Prelude Bytes Sync Generic Radix.

(** ** Numbers and paths *)

Fixpoint path (k : nat) (value : Z) : list nat :=
  match k with
  | O => []
  | S k => Z.to_nat (get_radix_node_branch value) :: path k (radix_tree_advance value)
  end.
Definition path_value (p : list nat) : Z := foldr (fun d v => Z.of_nat d + 8 * v) 0 p.

(** The number of three bit groups of a number, and its path. *)
Definition groups (number : Z) : nat :=
  match radix_tree_numlen number with Ok l => Z.to_nat (l / 3) | _ => O end.
Definition key (number : Z) : list nat := reverse (path (groups number) number).

Lemma group_mod n : get_radix_node_branch n = n mod 8.
Proof. exact (Z.land_ones n 3 ltac:(lia)). Qed.
Lemma advance_div n : radix_tree_advance n = n / 8.
Proof. exact (Z.shiftr_div_pow2 n 3 ltac:(lia)). Qed.
Lemma group_lt n : (Z.to_nat (get_radix_node_branch n) < 8)%nat.
Proof. rewrite group_mod. pose proof (Z.mod_pos_bound n 8). lia. Qed.

Lemma path_value_path k : forall n, 0 <= n < 8 ^ Z.of_nat k -> path_value (path k n) = n.
Proof.
  induction k as [|k IH]; intros n Hn; [simpl in *; lia|].
  rewrite Nat2Z.inj_succ, Z.pow_succ_r in Hn by lia. simpl.
  pose proof (Z.mod_pos_bound n 8). pose proof (Z.div_mod n 8).
  rewrite group_mod, advance_div, IH; [rewrite Z2Nat.id; lia|].
  split; [apply Z.div_pos; lia|apply Z.div_lt_upper_bound; lia].
Qed.

Lemma length_path k : forall n, length (path k n) = k.
Proof. induction k; intros; simpl; auto. Qed.

Lemma leading_zeros_spec i : forall n, 0 <= n < 2 ^ Z.of_nat i ->
  0 <= leading_zeros i n <= Z.of_nat i /\ n < 2 ^ (Z.of_nat i - leading_zeros i n).
Proof.
  induction i as [|i IH]; intros n Hn; [simpl in *; lia|].
  simpl leading_zeros. destruct (Z.testbit n (Z.of_nat i)) eqn:Hb.
  { rewrite Z.sub_0_r. lia. }
  assert (n < 2 ^ Z.of_nat i).
  { rewrite Nat2Z.inj_succ, Z.pow_succ_r in Hn by lia. apply Z.testbit_false in Hb; [|lia].
    assert (n / 2 ^ Z.of_nat i < 2) by (apply Z.div_lt_upper_bound; lia).
    assert (0 <= n / 2 ^ Z.of_nat i) by (apply Z.div_pos; lia).
    rewrite Z.mod_small in Hb by lia. apply Z.div_small_iff in Hb; lia. }
  destruct (IH n) as [??]; [lia|].
  replace (Z.of_nat (S i) - (1 + leading_zeros i n)) with (Z.of_nat i - leading_zeros i n) by lia. lia.
Qed.

Lemma remainder_small c : 0 <= c <= 32 -> udiv_remainder 32 c 3 = Ok (c mod 3).
Proof.
  intros. unfold udiv_remainder.
  assert (c / 3 <= c) by (apply Z.div_le_upper_bound; lia).
  rewrite udiv_loop_spec; [done|unfold W32; lia..].
Qed.

Lemma numlen_spec n : is_u32 n ->
  radix_tree_numlen n = Ok (3 * Z.of_nat (groups n)) /\ (1 <= groups n <= 11)%nat /\ n < 8 ^ Z.of_nat (groups n).
Proof.
  intros Hn. destruct (leading_zeros_spec 32 n) as [Hc Hp]; [unfold is_u32, W32 in Hn; lia|].
  assert (exists k : nat, radix_tree_numlen n = Ok (3 * Z.of_nat k) /\ (1 <= k <= 11)%nat /\
    32 - leading_zeros 32 n <= 3 * Z.of_nat k) as (k & Hk & Hb & Hle).
  { unfold radix_tree_numlen, MAX_BRANCH. cbv zeta. generalize dependent (leading_zeros 32 n). intros z Hz _.
    destruct (Z.leb_spec (32 - z) 3); [exists 1%nat; split_and!; [done|lia..]|].
    change (isPower2 3) with false. cbn iota. rewrite remainder_small by lia. cbn [mbind res_bind].
    pose proof (Z.div_mod (32 - z) 3). pose proof (Z.mod_pos_bound (32 - z) 3).
    destruct (Z.eqb_spec ((32 - z) mod 3) 0); cbn [negb].
    - exists (Z.to_nat ((32 - z) / 3)). split_and!; [f_equal; lia|lia..].
    - exists (Z.to_nat ((32 - z) / 3 + 1)). split_and!; [f_equal; lia|lia..]. }
  unfold groups. rewrite Hk, Z.mul_comm, Z.div_mul, Nat2Z.id by lia. split_and!; [f_equal; lia|lia..|].
  change 8 with (2 ^ 3). rewrite <- Z.pow_mul_r by lia. eapply Z.lt_le_trans; [exact Hp|].
  apply Z.pow_le_mono_r; lia.
Qed.

Lemma key_inj n m : is_u32 n -> is_u32 m -> key n = key m -> n = m.
Proof.
  intros Hn Hm H%(inj reverse). destruct (numlen_spec n Hn) as (_ & _ & ?), (numlen_spec m Hm) as (_ & _ & ?).
  unfold is_u32 in *. rewrite <- (path_value_path (groups n) n), <- (path_value_path (groups m) m) by lia. by rewrite H.
Qed.
Lemma key_nonempty n : is_u32 n -> key n <> [].
Proof.
  intros Hn. destruct (numlen_spec n Hn) as (_ & ? & _). unfold key. destruct (groups n); [lia|].
  simpl. rewrite reverse_cons. by destruct (reverse _).
Qed.

(** ** The shape of a tree *)

Section shape.
Context (root : Z).

Notation paths := (gmap Z (list nat)).

Record rt_inv (h : heap) (P : paths) : Prop := {
  rt_dom : forall a, is_Some (h !! a) <-> is_Some (P !! a);
  rt_root : P !! root = Some [];
  rt_inj : forall a b p, P !! a = Some p -> P !! b = Some p -> a = b;
  rt_valid : forall a, is_Some (h !! a) -> a <> 0;
  rt_len : forall a nd, h !! a = Some nd -> length (sgrt_branches nd) = 8%nat;
  rt_down : forall a nd p i c, h !! a = Some nd -> P !! a = Some p ->
    sgrt_branches nd !! i = Some c -> c <> 0 -> P !! c = Some (i :: p);
  rt_up : forall c i p, P !! c = Some (i :: p) -> exists a nd ndc,
    P !! a = Some p /\ h !! a = Some nd /\ h !! c = Some ndc /\
    sgrt_branches nd !! i = Some c /\ sprt_parent ndc = a;
  rt_top : forall nd, h !! root = Some nd -> sprt_parent nd = 0 }.

(** The entry with path [q] holds link [l]. *)
Definition linked (h : heap) (P : paths) (q : list nat) (l : Z) : Prop :=
  exists a nd, P !! a = Some q /\ h !! a = Some nd /\ sprt_link nd = l /\ l <> 0.

(** A node is worth keeping when it holds a link or leads somewhere. *)
Definition useful (nd : radix_node) : Prop :=
  sprt_link nd <> 0 \/ exists i c, sgrt_branches nd !! i = Some c /\ c <> 0.
Definition trimmed_but (x : Z) (h : heap) : Prop :=
  forall a nd, h !! a = Some nd -> a <> root -> a <> x -> useful nd.

Lemma rt_node h P a p : rt_inv h P -> P !! a = Some p -> exists nd, h !! a = Some nd.
Proof. intros I H. apply (rt_dom _ _ I). eauto. Qed.
Lemma rt_path h P a nd : rt_inv h P -> h !! a = Some nd -> exists p, P !! a = Some p.
Proof. intros I H. apply (rt_dom _ _ I). eauto. Qed.

Lemma rt_prefix h P b q : forall p, rt_inv h P -> P !! b = Some (q ++ p) -> exists a, P !! a = Some p.
Proof.
  revert b. induction q as [|i q IH]; intros b p I H; [eauto|].
  destruct (rt_up _ _ I _ _ _ H) as (a & ? & ? & ? & _). eauto.
Qed.

Lemma rt_branch h P a nd i : rt_inv h P -> h !! a = Some nd -> (i < 8)%nat ->
  exists c, sgrt_branches nd !! i = Some c.
Proof. intros I H Hi. apply lookup_lt_is_Some_2. by rewrite (rt_len _ _ I _ _ H). Qed.

(** Branches lead nowhere else than to the node with the longer path. *)
Lemma rt_null h P a nd p i : rt_inv h P -> h !! a = Some nd -> P !! a = Some p ->
  sgrt_branches nd !! i = Some 0 -> forall b q, P !! b <> Some (q ++ i :: p).
Proof.
  intros I Ha Hp Hb b q H. destruct (rt_prefix _ _ _ _ _ I H) as [c Hc].
  destruct (rt_up _ _ I _ _ _ Hc) as (a' & nd' & ndc & Hp' & Ha' & Hc' & Hb' & _).
  rewrite (rt_inj _ _ I _ _ _ Hp' Hp) in Ha'. simplify_eq. by eapply (rt_valid _ _ I).
Qed.

(** *** Setting a link *)
Lemma rt_inv_link h P a nd l : rt_inv h P -> h !! a = Some nd -> rt_inv (<[a := set_link l nd]> h) P.
Proof.
  intros I Ha.
  assert (forall b nd', <[a := set_link l nd]> h !! b = Some nd' -> exists nd0, h !! b = Some nd0 /\
    sgrt_branches nd' = sgrt_branches nd0 /\ sprt_parent nd' = sprt_parent nd0) as Hold.
  { intros b nd'. rewrite lookup_insert_Some. intros [[<- <-]|[? ?]]; eauto. }
  assert (forall b nd0, h !! b = Some nd0 -> exists nd', <[a := set_link l nd]> h !! b = Some nd' /\
    sgrt_branches nd' = sgrt_branches nd0 /\ sprt_parent nd' = sprt_parent nd0) as Hnew.
  { intros b nd0 Hb. destruct (decide (b = a)) as [->|]; simplify_map_eq; eauto. }
  split; try apply I.
  - intros b. rewrite <- (rt_dom _ _ I). split; intros [? H]; [apply Hold in H|apply Hnew in H]; naive_solver.
  - intros b [? H]. apply Hold in H as (? & ? & _). eapply (rt_valid _ _ I). eauto.
  - intros b nd' H. apply Hold in H as (? & ? & -> & _). by eapply (rt_len _ _ I).
  - intros b nd' p i c H ? . apply Hold in H as (? & ? & -> & _). by eapply (rt_down _ _ I).
  - intros c i p H. destruct (rt_up _ _ I _ _ _ H) as (b & nb & nc & ? & Hb & Hc & Hbr & Hpar).
    apply Hnew in Hb as (nb' & ? & E1 & _), Hc as (nc' & ? & _ & E2). exists b, nb', nc'. by rewrite E1, E2.
  - intros nd' H. apply Hold in H as (? & ? & _ & ->). by eapply (rt_top _ _ I).
Qed.

(** *** A new leaf *)
Lemma rt_inv_grow h P a nd p o c :
  rt_inv h P -> h !! a = Some nd -> P !! a = Some p -> sgrt_branches nd !! Z.to_nat o = Some 0 ->
  h !! c = None -> c <> 0 ->
  rt_inv (<[a := set_branch o c nd]> (<[c := RNode a (replicate 8 0) 0]> h)) (<[c := Z.to_nat o :: p]> P).
Proof.
  intros I Ha Hp Hbr Hc Hc0.
  assert (P !! c = None) as HPc.
  { apply eq_None_not_Some. rewrite <- (rt_dom _ _ I), Hc. by apply is_Some_None. }
  assert (a <> c) as Hac by congruence.
  assert (forall b, P !! b <> Some (Z.to_nat o :: p)) as Hfree.
  { intros b. exact (rt_null _ _ _ _ _ _ I Ha Hp Hbr b []). }
  split.
  - intros b. rewrite !lookup_insert_is_Some, (rt_dom _ _ I). assert (is_Some (P !! a)) by eauto.
    destruct (decide (a = b)) as [<-|]; naive_solver.
  - rewrite lookup_insert_ne; [apply I|]. intros E. pose proof (rt_root _ _ I). congruence.
  - intros b b' q. rewrite !lookup_insert_Some. intros [[<- <-]|[? ?]] [[<- ?]|[? ?]]; [done|naive_solver..|].
    by eapply (rt_inj _ _ I).
  - intros b. rewrite !lookup_insert_is_Some. intros [<-|[? [<-|[? ?]]]]; [eapply (rt_valid _ _ I)|done|eapply (rt_valid _ _ I)]; eauto.
  - intros b nb. rewrite !lookup_insert_Some. intros [[<- <-]|[? [[<- <-]|[? ?]]]]; [|done|by eapply (rt_len _ _ I)].
    simpl. rewrite length_insert. by eapply (rt_len _ _ I).
  - intros b nb q i d. rewrite !lookup_insert_Some. intros [[<- <-]|[Hne [[<- <-]|[Hne' Hb]]]].
    + intros [[? ?]|[_ Hq]]; [done|]. simplify_eq. simpl. rewrite list_lookup_insert_Some.
      intros [(<- & <- & _)|[Hi Hd]] Hd0; [by left|]. right.
      pose proof (rt_down _ _ I _ _ _ _ _ Ha Hp Hd Hd0) as HH. split; [congruence|done].
    + intros _ [-> _]%lookup_replicate ?. done.
    + intros [[? ?]|[_ Hq]] Hd Hd0; [done|]. right.
      pose proof (rt_down _ _ I _ _ _ _ _ Hb Hq Hd Hd0) as HH. split; [congruence|done].
  - intros d i q. rewrite lookup_insert_Some. intros [[<- [= <- <-]]|[Hne Hd]].
    + exists a, (set_branch o c nd), (RNode a (replicate 8 0) 0). split_and!; try by simplify_map_eq.
      apply list_lookup_insert_eq. by eapply lookup_lt_Some.
    + destruct (rt_up _ _ I _ _ _ Hd) as (b & nb & nc & Hb & Hhb & Hhd & Hbi & Hpar).
      assert (b <> c) by congruence.
      assert (exists nb', <[a := set_branch o c nd]> (<[c := RNode a (replicate 8 0) 0]> h) !! b = Some nb' /\
        sgrt_branches nb' !! i = Some d) as (nb' & Hb' & Hi').
      { destruct (decide (b = a)) as [->|]; simplify_map_eq; [|eauto]. eexists. split; [done|]. simpl.
        rewrite list_lookup_insert_ne; [done|]. intros <-. rewrite Hbr in Hbi. simplify_eq.
        exact (rt_valid _ _ I 0 ltac:(eauto) eq_refl). }
      exists b, nb'. destruct (decide (d = a)) as [->|]; [exists (set_branch o c nd)|exists nc];
        split_and!; try done; by simplify_map_eq.
  - intros nd'. rewrite lookup_insert_Some. intros [[E <-]|[? H]]; [apply (rt_top _ _ I nd); congruence|].
    apply lookup_insert_Some in H as [[E _]|[_ ?]]; [|by eapply (rt_top _ _ I)].
    pose proof (rt_root _ _ I). congruence.
Qed.

(** *** Taking a leaf away *)
Definition clear_branch (j : nat) (nd : radix_node) : radix_node :=
  RNode (sprt_parent nd) (<[j := 0]> (sgrt_branches nd)) (sprt_link nd).
Definition leaf (nd : radix_node) : Prop := Forall (eq 0) (sgrt_branches nd).

Lemma leaf_branch nd i c : leaf nd -> sgrt_branches nd !! i = Some c -> c = 0.
Proof. intros H Hi. by rewrite (proj1 (Forall_lookup _ _) H _ _ Hi). Qed.

Lemma rt_inv_shrink h P a nd b nb j p :
  rt_inv h P -> h !! a = Some nd -> P !! a = Some (j :: p) -> leaf nd ->
  P !! b = Some p -> h !! b = Some nb -> sgrt_branches nb !! j = Some a ->
  rt_inv (<[b := clear_branch j nb]> (delete a h)) (delete a P).
Proof.
  intros I Ha Hp Hl Hb Hnb Hj.
  assert (b <> a) as Hba by (intros ->; rewrite Hp in Hb; apply (f_equal (from_option length O)) in Hb; simpl in Hb; lia).
  assert (root <> a) as Hra by (pose proof (rt_root _ _ I); congruence).
  assert (forall x nx, <[b := clear_branch j nb]> (delete a h) !! x = Some nx -> x <> a /\ exists n0, h !! x = Some n0 /\
    sprt_parent nx = sprt_parent n0 /\ length (sgrt_branches nx) = length (sgrt_branches n0) /\
    forall i c, sgrt_branches nx !! i = Some c -> c <> 0 -> c <> a /\ sgrt_branches n0 !! i = Some c) as Hold.
  { intros x nx. rewrite lookup_insert_Some, lookup_delete_Some. intros [[<- <-]|(Hbx & Hax & Hx)].
    - split; [done|]. exists nb. split_and!; [done..|simpl; by rewrite length_insert|]. simpl. intros i c.
      rewrite list_lookup_insert_Some. intros [(_ & <- & _)|[Hne Hi]] Hc; [done|]. split; [|done]. intros ->.
      pose proof (rt_down _ _ I _ _ _ _ _ Hnb Hb Hi Hc). congruence.
    - split; [done|]. exists nx. split_and!; [done..|]. intros i c Hi Hc. split; [|done]. intros ->.
      destruct (rt_path _ _ _ _ I Hx) as [q Hq]. pose proof (rt_down _ _ I _ _ _ _ _ Hx Hq Hi Hc) as E.
      rewrite Hp in E. simplify_eq. by pose proof (rt_inj _ _ I _ _ _ Hb Hq). }
  split.
  - intros x. rewrite lookup_insert_is_Some, !lookup_delete_is_Some, (rt_dom _ _ I).
    assert (is_Some (P !! b)) by eauto. destruct (decide (b = x)) as [<-|]; naive_solver.
  - rewrite lookup_delete_ne by done. apply I.
  - intros x y q [_ ?]%lookup_delete_Some [_ ?]%lookup_delete_Some. by eapply (rt_inj _ _ I).
  - intros x [nx Hx]. apply Hold in Hx as (_ & n0 & ? & _). eapply (rt_valid _ _ I). eauto.
  - intros x nx Hx. apply Hold in Hx as (_ & n0 & ? & _ & -> & _). by eapply (rt_len _ _ I).
  - intros x nx q i c Hx [_ Hq]%lookup_delete_Some Hi Hc. apply Hold in Hx as (_ & n0 & Hx & _ & _ & Hn).
    destruct (Hn _ _ Hi Hc). rewrite lookup_delete_ne by done. by eapply (rt_down _ _ I).
  - intros c i q [Hac Hc]%lookup_delete_Some.
    destruct (rt_up _ _ I _ _ _ Hc) as (x & nx & nc & Hx & Hnx & Hnc & Hi & Hpar).
    assert (x <> a) as Hxa.
    { intros ->. simplify_eq. apply (leaf_branch _ _ _ Hl) in Hi as ->. exact (rt_valid _ _ I 0 ltac:(eauto) eq_refl). }
    exists x, (if decide (x = b) then clear_branch j nb else nx), (if decide (c = b) then clear_branch j nb else nc).
    split_and!; repeat case_decide; try by simplify_map_eq. simplify_eq. simpl.
    rewrite list_lookup_insert_ne; [done|]. congruence.
  - intros nr Hr. apply Hold in Hr as (_ & n0 & ? & -> & _). by eapply (rt_top _ _ I).
Qed.
End shape.

(** *** The scan over the branches *)
Definition cleared (c : Z) (bs : list Z) : list Z := (fun b => if b =? c then 0 else b) <$> bs.
Definition all_null (bs : list Z) : bool := forallb (fun b => b =? 0) bs.

Lemma cleared_id c bs : (forall i, bs !! i <> Some c) \/ c = 0 -> cleared c bs = bs.
Proof.
  unfold cleared. intros H. rewrite <- (list_fmap_id bs) at 2. apply list_fmap_ext. intros i b Hi. simpl.
  destruct (Z.eqb_spec b c) as [->|]; [|done]. destruct H as [H| ->]; [by destruct (H i)|done].
Qed.

Lemma del_scan_spec c bs : forall n, 0 <= n ->
  c = 0 \/ (forall i k, bs !! i = Some c -> bs !! k = Some c -> i = k) ->
  exists m out, del_scan bs c n = (cleared c bs, m, out) /\
    out || negb (m =? 0) = negb ((n =? 0) && all_null (cleared c bs)).
Proof.
  induction bs as [|b bs IH]; intros n Hn Hu; [exists n, false; split; [done|by rewrite andb_true_r]|].
  assert (c = 0 \/ (forall i k, bs !! i = Some c -> bs !! k = Some c -> i = k)) as Hu'.
  { destruct Hu as [?|Hu]; [by left|right]. intros i k Hi Hk. by pose proof (Hu (S i) (S k) Hi Hk) as [= ?]. }
  simpl. destruct (Z.eqb_spec b c) as [->|Hb].
  - destruct (Z.eqb_spec n 0) as [->|Hn0]; simpl.
    + destruct (IH 0 ltac:(lia) Hu') as (m & out & -> & E). eauto.
    + exists n, true. split; [|done]. rewrite cleared_id; [done|].
      destruct Hu as [?|Hu]; [by right|left]. intros i Hi. by pose proof (Hu O (S i) eq_refl Hi).
  - destruct (IH (if negb (b =? 0) then n + 1 else n)) as (m & out & -> & E); [destruct (b =? 0); simpl; lia|done|].
    exists m, out. split; [done|]. rewrite E. destruct (Z.eqb_spec b 0); simpl; [done|].
    rewrite (proj2 (Z.eqb_neq (n + 1) 0)) by lia. by rewrite andb_false_r.
Qed.
