(* ===== verification/RadixMap.v ===== *)
(** * The operations of radix trees, as a finite map

    Walking, inserting and removing against the invariant of the tree; the
    representation [radix_rep] relates a tree to the map it stands for. *)

From stdpp Require Import prelude gmap fin_maps sorting.
From S2P Require Import Prelude Bytes Sync Generic Radix RadixSpec.

Section operations.
Context (root : Z).
Notation paths := (gmap Z (list nat)).
Local Notation inv := (rt_inv root).
Local Notation trimmed := (trimmed_but root root).

Definition same_links (h : heap) (P : paths) (h' : heap) (P' : paths) : Prop :=
  forall q l, linked h P q l <-> linked h' P' q l.

(** ** Removing *)

Lemma del_node_S fuel h a child : __del_radix_node root (S fuel) h a child =
  if a =? 0 then Ok h
  else
    nd ← deref (h !! a);
    let '(bs, count, out) := del_scan (sgrt_branches nd) child 0 in
    let h := <[a := RNode (sprt_parent nd) bs (sprt_link nd)]> h in
    if out || negb (count =? 0) then Ok h
    else if sprt_link nd =? 0 then
      h ← __del_radix_node root fuel h (sprt_parent nd) a;
      Ok (if negb (a =? root) then delete a h else h)
    else Ok h.
Proof. done. Qed.

Lemma all_null_leaf bs : all_null bs = true <-> Forall (eq 0) bs.
Proof.
  unfold all_null. rewrite forallb_forall, Forall_forall. setoid_rewrite <- list_elem_of_In.
  split; intros H x Hx; specialize (H x Hx); lia.
Qed.
Lemma not_null_useful nd : all_null (sgrt_branches nd) = false -> useful nd.
Proof.
  intros H. right. unfold all_null in H. apply not_true_iff_false in H. rewrite forallb_forall in H.
  destruct (decide (Exists (fun b => b <> 0) (sgrt_branches nd))) as [He|He].
  - apply Exists_exists in He as (c & [i Hi]%list_elem_of_lookup & Hc). eauto.
  - destruct H. intros b Hb%list_elem_of_In. apply Z.eqb_eq. destruct (decide (b = 0)); [done|].
    destruct He. apply Exists_exists. eauto.
Qed.

Lemma shrink_links h P a nd b nb j p :
  inv h P -> h !! a = Some nd -> sprt_link nd = 0 -> P !! b = Some p -> h !! b = Some nb -> a <> b ->
  same_links h P (<[b := clear_branch j nb]> (delete a h)) (delete a P).
Proof.
  intros I Ha Hl Hb Hnb Hab q l. split; intros (x & nx & Hq & Hx & Hlx & Hl0).
  - assert (x <> a) by congruence. destruct (decide (x = b)) as [->|].
    + exists b, (clear_branch j nb). simplify_map_eq. by split_and!.
    + exists x, nx. by simplify_map_eq.
  - apply lookup_delete_Some in Hq as [? Hq]. destruct (decide (x = b)) as [->|].
    + simplify_map_eq. exists b, nb. by split_and!.
    + simplify_map_eq. exists x, nx. by split_and!.
Qed.

(** The branch to a child is the only one with its address. *)
Lemma scan_child h P b nb p j a :
  inv h P -> h !! b = Some nb -> P !! b = Some p -> sgrt_branches nb !! j = Some a -> a <> 0 ->
  exists m out, del_scan (sgrt_branches nb) a 0 = (<[j := 0]> (sgrt_branches nb), m, out) /\
    out || negb (m =? 0) = negb (all_null (<[j := 0]> (sgrt_branches nb))).
Proof.
  intros I Hb Hp Hj Ha.
  assert (forall i, sgrt_branches nb !! i = Some a -> i = j) as Hu.
  { intros i Hi. pose proof (rt_down _ _ _ I _ _ _ _ _ Hb Hp Hi Ha). pose proof (rt_down _ _ _ I _ _ _ _ _ Hb Hp Hj Ha). congruence. }
  assert (cleared a (sgrt_branches nb) = <[j := 0]> (sgrt_branches nb)) as <-.
  { apply list_eq. intros i. unfold cleared. rewrite list_lookup_fmap. destruct (decide (i = j)) as [->|Hne].
    - rewrite Hj, list_lookup_insert_eq by (by eapply lookup_lt_Some). simpl. by rewrite Z.eqb_refl.
    - rewrite list_lookup_insert_ne by done. destruct (sgrt_branches nb !! i) as [c|] eqn:Hi; [|done]. simpl.
      destruct (Z.eqb_spec c a) as [->|]; [|done]. by apply Hu in Hi. }
  destruct (del_scan_spec a (sgrt_branches nb) 0) as (m & out & -> & E); [lia| |eauto].
  right. intros i k Hi%Hu Hk%Hu. congruence.
Qed.

(** The node to be freed still sits in the heap while its parent is pruned. *)
Lemma detach_heap (T E : heap) a b nd nb :
  T !! a = Some nd -> E !! a = None -> a <> b -> <[b := nb]> (T ∪ E) = <[b := nb]> (delete a T) ∪ <[a := nd]> E.
Proof.
  intros Ha HE Hab. apply map_eq. intros x. destruct (decide (x = b)) as [->|]; [|destruct (decide (x = a)) as [->|]].
  - rewrite lookup_insert_eq, lookup_union, lookup_insert_eq. by destruct (<[a := nd]> E !! b).
  - by rewrite lookup_insert_ne, !lookup_union, Ha, HE, lookup_insert_eq, lookup_insert_ne, lookup_delete_eq by done.
  - by rewrite lookup_insert_ne, !lookup_union, !lookup_insert_ne, lookup_delete_ne by done.
Qed.
Lemma free_heap (T E : heap) a nd : T !! a = None -> E !! a = None -> delete a (T ∪ <[a := nd]> E) = T ∪ E.
Proof.
  intros HT HE. apply map_eq. intros x. destruct (decide (x = a)) as [->|].
  - by rewrite lookup_delete_eq, lookup_union, HT, HE.
  - by rewrite lookup_delete_ne, !lookup_union, lookup_insert_ne by done.
Qed.

Lemma trimmed_close x h : trimmed_but root x h -> (forall nd, h !! x = Some nd -> x <> root -> useful nd) -> trimmed h.
Proof. intros Ht Hx a nd Ha Hr _. destruct (decide (a = x)) as [->|]; [by apply Hx|by eapply Ht]. Qed.
Lemma trimmed_shift a b nb h : trimmed_but root a h -> trimmed_but root b (<[b := nb]> (delete a h)).
Proof.
  intros Ht x nx Hx Hr Hb. rewrite lookup_insert_ne in Hx by done. apply lookup_delete_Some in Hx as [??]. by eapply Ht.
Qed.
Lemma same_links_trans h P h1 P1 h2 P2 : same_links h P h1 P1 -> same_links h1 P1 h2 P2 -> same_links h P h2 P2.
Proof. intros H1 H2 q l. by rewrite (H1 q l), (H2 q l). Qed.

(** One level of the recursion, up to the node it is called for. *)
Lemma prune fuel : forall p T P E a nd,
  inv T P -> T !! a = Some nd -> P !! a = Some p -> p <> [] -> leaf nd -> sprt_link nd = 0 ->
  T ##ₘ E -> (length p <= fuel)%nat ->
  exists T' P', (h ← __del_radix_node root fuel (T ∪ E) (sprt_parent nd) a; Ok (delete a h)) = Ok (T' ∪ E) /\
    inv T' P' /\ same_links T P T' P' /\ dom T' ⊆ dom T ∖ {[a]} /\ (trimmed_but root a T -> trimmed T').
Proof.
  induction fuel as [|fuel IH]; intros p T P E a nd I Ha Hp Hne Hleaf Hl HE Hf; [destruct p; simpl in Hf; [done|lia]|].
  destruct p as [|j p]; [done|].
  destruct (rt_up _ _ _ I _ _ _ Hp) as (b & nb & nd' & Hb & Hnb & Ha' & Hj & Hpar). simplify_eq.
  set (b := sprt_parent nd) in *.
  assert (a <> b) as Hab by (intros <-; rewrite Hp in Hb; apply (f_equal (from_option length O)) in Hb; simpl in Hb; lia).
  assert (a <> 0) as Ha0 by (eapply (rt_valid _ _ _ I); eauto).
  assert (b <> 0) as Hb0 by (eapply (rt_valid _ _ _ I); eauto).
  assert (E !! a = None) as HEa by (eapply map_disjoint_Some_l; eauto).
  pose proof (rt_inv_shrink _ _ _ _ _ _ _ _ _ I Ha Hp Hleaf Hb Hnb Hj) as I1.
  pose proof (shrink_links T P a nd b nb j p I Ha Hl Hb Hnb Hab) as L1.
  set (T1 := <[b := clear_branch j nb]> (delete a T)) in *.
  assert (dom T1 ⊆ dom T ∖ {[a]}) as D1.
  { subst T1. rewrite dom_insert_L, dom_delete_L. apply elem_of_dom_2 in Hnb. set_solver. }
  assert (<[b := clear_branch j nb]> (T ∪ E) = T1 ∪ <[a := nd]> E) as Hh by (by apply detach_heap).
  assert (T1 ##ₘ <[a := nd]> E) as HE1.
  { apply map_disjoint_dom. rewrite dom_insert_L. apply map_disjoint_dom in HE. set_solver. }
  assert (forall T', dom T' ⊆ dom T ∖ {[a]} -> delete a (T' ∪ <[a := nd]> E) = T' ∪ E) as Hdel.
  { intros T' HT'. apply free_heap; [apply not_elem_of_dom; set_solver|done]. }
  destruct (scan_child _ _ _ _ _ _ _ I Hnb Hb Hj Ha0) as (m & out & Hs & Hout).
  simpl. rewrite (proj2 (Z.eqb_neq _ _) Hb0), (lookup_union_Some_l _ _ _ _ Hnb). cbn [deref mbind res_bind].
  rewrite Hs, Hout. change (RNode (sprt_parent nb) _ (sprt_link nb)) with (clear_branch j nb). rewrite Hh.
  assert (useful (clear_branch j nb) \/ b = root -> trimmed_but root a T -> trimmed T1) as Hstop.
  { intros Hu Ht. eapply trimmed_close; [by apply trimmed_shift|]. intros n'. subst T1. rewrite lookup_insert_eq. naive_solver. }
  destruct (all_null _) eqn:Hn; cbn [negb].
  2: { exists T1, (delete a P). cbn [mbind res_bind]. rewrite Hdel by done. pose proof (not_null_useful (clear_branch j nb) Hn). eauto 10. }
  simpl sprt_link. destruct (Z.eqb_spec (sprt_link nb) 0) as [Hlb|Hlb].
  2: { exists T1, (delete a P). cbn [mbind res_bind]. rewrite Hdel by done. assert (useful (clear_branch j nb)) by (by left). eauto 10. }
  destruct (Z.eqb_spec b root) as [Hr|Hr]; simpl sprt_parent; cbn [negb].
  - exists T1, (delete a P). rewrite Hr in Hnb. rewrite (rt_top _ _ _ I _ Hnb).
    destruct fuel; cbn [__del_radix_node Z.eqb mbind res_bind]; rewrite Hdel by done; eauto 10.
  - assert (p <> []) as Hp0 by (intros ->; apply Hr; exact (rt_inj _ _ _ I _ _ _ Hb (rt_root _ _ _ I))).
    destruct (IH p T1 (delete a P) (<[a := nd]> E) b (clear_branch j nb)) as (T' & P' & Hr' & I' & L' & D' & Ht');
      [done|by subst T1; rewrite lookup_insert_eq|by rewrite lookup_delete_ne|done|by apply all_null_leaf|done|done|simpl in Hf; lia|].
    simpl in Hr'. exists T', P'. rewrite Hr'. cbn [mbind res_bind]. rewrite Hdel by set_solver.
    split_and!; [done|done|by eapply same_links_trans|set_solver|]. intros. by apply Ht', trimmed_shift.
Qed.

(** ** Walking *)

Lemma path_snoc k v p :
  reverse (path (S k) v) ++ p = reverse (path k (radix_tree_advance v)) ++ Z.to_nat (get_radix_node_branch v) :: p.
Proof. simpl. by rewrite reverse_cons, <- app_assoc. Qed.

Lemma find_loop_null fuel h i l v : find_loop fuel h 0 i l v = Ok 0.
Proof. by destruct fuel. Qed.
Lemma find_loop_spec k : forall fuel h P a p i v,
  inv h P -> P !! a = Some p -> (k <= fuel)%nat ->
  exists c, find_loop fuel h a i (i + 3 * Z.of_nat k) v = Ok c /\
    ((c = 0 /\ forall b, P !! b <> Some (reverse (path k v) ++ p)) \/ P !! c = Some (reverse (path k v) ++ p)).
Proof.
  induction k as [|k IH]; intros fuel h P a p i v I Hp Hf; destruct (rt_node _ _ _ _ _ I Hp) as [nd Ha];
    assert (a <> 0) as Ha0 by (eapply (rt_valid _ _ _ I); eauto).
  - exists a. split; [|by right]. destruct fuel; simpl; rewrite (proj2 (Z.eqb_neq _ _) Ha0), (proj2 (Z.leb_le _ _)); [done|lia|done|lia].
  - destruct fuel as [|fuel]; [lia|]. destruct (rt_branch _ _ _ _ _ _ I Ha (group_lt v)) as [c Hc].
    cbn [find_loop]. rewrite (proj2 (Z.eqb_neq _ _) Ha0), (proj2 (Z.leb_gt _ _)) by lia.
    unfold branch. rewrite Ha. cbn [deref mbind res_bind]. rewrite Hc. cbn [deref mbind res_bind].
    destruct (decide (c = 0)) as [->|Hc0].
    + exists 0. rewrite find_loop_null. split; [done|left; split; [done|]]. intros b. rewrite path_snoc.
      exact (rt_null _ _ _ _ _ _ _ I Ha Hp Hc b _).
    + pose proof (rt_down _ _ _ I _ _ _ _ _ Ha Hp Hc Hc0) as Hpc.
      replace (i + 3 * Z.of_nat (S k)) with (i + MAX_BRANCH + 3 * Z.of_nat k) by (unfold MAX_BRANCH; lia).
      destruct (IH fuel h P c _ (i + MAX_BRANCH) (radix_tree_advance v) I Hpc) as (d & -> & Hd); [lia|].
      exists d. split; [done|]. by setoid_rewrite path_snoc.
Qed.
Lemma del_walk_find fuel : forall h a i l v, del_walk fuel h a i l v = find_loop fuel h a i l v.
Proof.
  induction fuel as [|fuel IH]; intros h a i l v; simpl; destruct (Z.leb_spec l i), (Z.eqb_spec a 0) as [->|]; try done.
  destruct (h !! a) as [nd|]; [|done]. cbn [deref mbind res_bind]. destruct (branch nd _); [|done..]. apply IH.
Qed.

(** The walk for a number ends at the node with its path, or nowhere. *)
Lemma walk_key h P n : inv h P -> is_u32 n -> exists c,
  radix_tree_numlen n = Ok (3 * Z.of_nat (groups n)) /\ find_loop 12 h root 0 (3 * Z.of_nat (groups n)) n = Ok c /\
  ((c = 0 /\ forall b, P !! b <> Some (key n)) \/ P !! c = Some (key n)).
Proof.
  intros I Hn. destruct (numlen_spec n Hn) as (Hl & ? & _).
  destruct (find_loop_spec (groups n) 12 h P root [] 0 n I (rt_root _ _ _ I)) as (c & Hc & Hw); [lia|].
  rewrite app_nil_r in Hw. eauto.
Qed.

(** ** Representation *)

Definition radix_rep (h : heap) (M : gmap Z Z) : Prop :=
  exists P, inv h P /\ (forall q l, linked h P q l -> exists n, is_u32 n /\ q = key n) /\
    forall n l, M !! n = Some l <-> is_u32 n /\ linked h P (key n) l.

Lemma linked_node h P q l a nd : inv h P -> P !! a = Some q -> h !! a = Some nd -> linked h P q l <-> sprt_link nd = l /\ l <> 0.
Proof.
  intros I Hp Ha. split; [|intros []; by exists a, nd]. intros (b & nb & Hb & Hnb & ? & ?).
  rewrite (rt_inj _ _ _ I _ _ _ Hb Hp) in Hnb. by simplify_eq.
Qed.
Lemma rep_none h P n : (forall b, P !! b <> Some (key n)) -> forall l, ~ linked h P (key n) l.
Proof. intros H l (b & ? & Hb & _). by destruct (H b). Qed.

(** What the walk finds, in terms of the map. *)
Lemma find_radix_node_spec h P (M : gmap Z Z) n : inv h P -> is_u32 n ->
  (forall n l, M !! n = Some l <-> is_u32 n /\ linked h P (key n) l) ->
  match M !! n with
  | Some l => l <> 0 /\ exists a nd, find_radix_node root h n = Ok a /\ a <> 0 /\ h !! a = Some nd /\ sprt_link nd = l
  | None => find_radix_node root h n = Ok 0
  end.
Proof.
  intros I Hn HM. destruct (walk_key h P n I Hn) as (c & Hl & Hw & Hc). unfold find_radix_node.
  rewrite Hl. cbn [mbind res_bind]. rewrite Hw. cbn [mbind res_bind].
  assert (forall l, M !! n = Some l -> linked h P (key n) l) as HM' by (intros l ?; by apply HM).
  destruct Hc as [[-> Hno]|Hp].
  - destruct (M !! n) as [l|] eqn:E; [|done]. by destruct (rep_none h P n Hno l (HM' l eq_refl)).
  - destruct (rt_node _ _ _ _ _ I Hp) as [nd Ha]. assert (c <> 0) as Hc0 by (eapply (rt_valid _ _ _ I); eauto).
    rewrite (proj2 (Z.eqb_neq _ _) Hc0), Ha. cbn [deref mbind res_bind].
    destruct (M !! n) as [l|] eqn:E.
    + destruct (proj1 (linked_node _ _ _ _ _ _ I Hp Ha) (HM' l eq_refl)) as [Hnl ?]. split; [done|]. exists c, nd.
      by rewrite Hnl, (proj2 (Z.eqb_neq _ _)).
    + destruct (Z.eqb_spec (sprt_link nd) 0) as [|Hne]; [done|].
      assert (M !! n = Some (sprt_link nd)); [|congruence]. apply HM. split; [done|]. by exists c, nd.
Qed.

Lemma linked_set h P a nd q l : inv h P -> h !! a = Some nd -> P !! a = Some q -> forall q' l',
  linked (<[a := set_link l nd]> h) P q' l' <-> (q' = q /\ l' = l /\ l <> 0) \/ (q' <> q /\ linked h P q' l').
Proof.
  intros I Ha Hp q' l'. pose proof (rt_inv_link root h P a nd l I Ha) as I'. destruct (decide (q' = q)) as [->|Hq].
  - rewrite (linked_node _ _ _ _ a (set_link l nd) I' Hp) by (by rewrite lookup_insert_eq). simpl. naive_solver.
  - assert (forall b, P !! b = Some q' -> a <> b) as Hne by congruence.
    split; [intros (b & nb & Hb & Hnb & ?)|intros [[? _]|[_ (b & nb & Hb & Hnb & ?)]]; [done|]].
    + right. split; [done|]. exists b, nb. rewrite lookup_insert_ne in Hnb by eauto. done.
    + exists b, nb. by rewrite lookup_insert_ne by eauto.
Qed.

Lemma trimmed_unlink a l nd h : trimmed_but root a h -> trimmed_but root a (<[a := set_link l nd]> h).
Proof. intros Ht x nx Hx Hr Hxa. rewrite lookup_insert_ne in Hx by done. by eapply Ht. Qed.
Lemma trimmed_weaken a h : trimmed h -> trimmed_but root a h.
Proof. intros Ht x nx Hx Hr _. by eapply Ht. Qed.

(** [radix_tree_del] takes the number out of the map and leaves no useless node. *)
Lemma radix_look_up_rep h M n : radix_rep h M -> is_u32 n -> radix_tree_look_up root h n = Ok (default nullptr (M !! n)).
Proof.
  intros (P & I & _ & HM) Hn. pose proof (find_radix_node_spec h P M n I Hn HM) as Hf.
  unfold radix_tree_look_up. destruct (M !! n) as [l0|]; [|by rewrite Hf].
  destruct Hf as (_ & a & nd & -> & Ha & Hnd & Hlk). cbn [mbind res_bind].
  by rewrite (proj2 (Z.eqb_neq _ _) Ha), Hnd, <- Hlk.
Qed.
Lemma radix_rep_entry h M n l : radix_rep h M -> M !! n = Some l -> is_u32 n /\ l <> 0.
Proof. intros (P & I & _ & HM) (Hn & a & nd & _ & _ & _ & Hl)%HM. done. Qed.

Lemma radix_tree_del_spec h M n : radix_rep h M -> is_u32 n ->
  exists h', radix_tree_del root h n = Ok h' /\ radix_rep h' (delete n M) /\ dom h' ⊆ dom h /\ (trimmed h -> trimmed h').
Proof.
  intros (P & I & Hk & HM) Hn. destruct (walk_key h P n I Hn) as (c & Hl & Hw & Hc). unfold radix_tree_del.
  rewrite Hl. cbn [mbind res_bind]. rewrite del_walk_find, Hw. cbn [mbind res_bind].
  assert ((forall l, ~ linked h P (key n) l) -> radix_rep h (delete n M)) as Hnone.
  { intros Hno. rewrite delete_id; [by exists P|]. destruct (M !! n) as [l|] eqn:E; [|done].
    apply HM in E as [_ ?]. by destruct (Hno l). }
  destruct Hc as [[-> Hno]|Hp]; [exists h; split_and!; [done| |done|done]; by apply Hnone, rep_none|].
  destruct (rt_node _ _ _ _ _ I Hp) as [nd Ha]. assert (c <> 0) as Hc0 by (eapply (rt_valid _ _ _ I); eauto).
  rewrite (proj2 (Z.eqb_neq _ _) Hc0), Ha. cbn [deref mbind res_bind].
  assert (c <> root) as Hcr.
  { intros ->. apply (key_nonempty n Hn). pose proof (rt_root _ _ _ I). congruence. }
  rewrite (proj2 (Z.eqb_neq _ _) Hcr), orb_false_r. destruct (Z.eqb_spec (sprt_link nd) 0) as [Hz|Hz].
  { exists h. split_and!; [done| |done|done]. apply Hnone. intros l Hlk. apply (linked_node _ _ _ _ _ _ I Hp Ha) in Hlk. lia. }
  pose proof (rt_inv_link root h P c nd 0 I Ha) as I1. pose proof (linked_set h P c nd _ 0 I Ha Hp) as L1.
  pose proof (trimmed_unlink c 0 nd h) as Ht1.
  assert (<[c := set_link 0 nd]> h !! c = Some (set_link 0 nd)) as Hc1 by apply lookup_insert_eq.
  assert (forall h' P', inv h' P' -> same_links (<[c := set_link 0 nd]> h) P h' P' -> radix_rep h' (delete n M)) as Hrep.
  { intros h' P' I' L'. exists P'. split_and!; [done| |].
    - intros q l Hq. apply L', L1 in Hq as [(_ & _ & ?)|[_ Hq]]; [done|by apply Hk in Hq].
    - intros m l. rewrite <- (L' _ l), L1, lookup_delete_Some, HM.
      assert (is_u32 m -> key m = key n <-> n = m) by (intros; split; [symmetry; by apply key_inj|by intros ->]).
      naive_solver. }
  assert (dom (<[c := set_link 0 nd]> h) = dom h) as D1 by (apply dom_insert_lookup_L; eauto).
  set (h1 := <[c := set_link 0 nd]> h) in *. rewrite del_node_S, (proj2 (Z.eqb_neq _ _) Hc0), Hc1. cbn [deref mbind res_bind].
  destruct (del_scan_spec 0 (sgrt_branches (set_link 0 nd)) 0) as (m & out & Hs & Ho); [lia|by left|].
  rewrite cleared_id in Hs, Ho by (by right). unfold nullptr. rewrite Hs, Ho. cbn [Z.eqb andb].
  change (RNode (sprt_parent (set_link 0 nd)) (sgrt_branches (set_link 0 nd)) (sprt_link (set_link 0 nd))) with (set_link 0 nd). rewrite (insert_id h1 c _ Hc1).
  destruct (all_null _) eqn:Hn0; cbn [negb].
  - simpl sprt_link. cbn [Z.eqb]. rewrite (proj2 (Z.eqb_neq _ _) Hcr). cbn [negb].
    destruct (prune 12 (key n) h1 P ∅ c (set_link 0 nd)) as (h' & P' & Hr & I' & L' & D' & Ht');
      [done|done|done|by apply key_nonempty|by apply all_null_leaf|done|apply map_disjoint_empty_r| |].
    { destruct (numlen_spec n Hn) as (_ & ? & _). unfold key. rewrite length_reverse, length_path. lia. }
    rewrite !map_union_empty in Hr. exists h'. rewrite Hr. split_and!; [done|by eapply Hrep|clear -D1 D'; set_solver|]. intros. by apply Ht', Ht1, trimmed_weaken.
  - exists h1. split_and!; [done|by apply (Hrep h1 P)|by rewrite D1|]. intros. eapply trimmed_close; [by apply Ht1, trimmed_weaken|].
    intros nd' E _. rewrite Hc1 in E. injection E as <-. by apply not_null_useful.
Qed.

(** ** Inserting *)

Lemma grow_links h P a nd p o c : inv h P -> h !! a = Some nd -> P !! a = Some p -> h !! c = None ->
  same_links h P (<[a := set_branch o c nd]> (<[c := RNode a (replicate 8 0) 0]> h)) (<[c := Z.to_nat o :: p]> P).
Proof.
  intros I Ha Hp Hc q l. assert (a <> c) by congruence.
  split; intros (x & nx & Hq & Hx & Hl & Hl0).
  - assert (x <> c) by congruence. destruct (decide (x = a)) as [->|].
    + exists a, (set_branch o c nd). simplify_map_eq. by split_and!.
    + exists x, nx. by simplify_map_eq.
  - destruct (decide (x = c)) as [->|]; [by simplify_map_eq|]. destruct (decide (x = a)) as [->|]; simplify_map_eq.
    + exists a, nd. by split_and!.
    + exists x, nx. by split_and!.
Qed.
Lemma grow_trimmed h a nd o c n' : trimmed_but root a h -> sgrt_branches nd !! Z.to_nat o = Some 0 -> c <> 0 ->
  trimmed_but root c (<[a := set_branch o c nd]> (<[c := n']> h)).
Proof.
  intros Ht Ho Hc x nx Hx Hr Hxc. destruct (decide (x = a)) as [->|]; simplify_map_eq; [|by eapply Ht].
  right. exists (Z.to_nat o), c. split; [|done]. apply list_lookup_insert_eq. by eapply lookup_lt_Some.
Qed.
Lemma walk_trimmed h P a nd i c : trimmed_but root a h -> h !! a = Some nd -> sgrt_branches nd !! i = Some c -> c <> 0 ->
  inv h P -> trimmed_but root c h.
Proof.
  intros Ht Ha Hi Hc I x nx Hx Hr Hxc. destruct (decide (x = a)) as [->|]; [|by eapply Ht]. simplify_eq. right. eauto.
Qed.

Section inserting.
Context (alloc : heap -> Z).
(** Memory handed out is not in use. *)
Hypothesis alloc_fresh : forall g, isValid (alloc g) = true -> g !! alloc g = None.

Lemma add_loop_spec k : forall fuel h P a p i v d, inv h P -> P !! a = Some p -> (k <= fuel)%nat ->
  exists r d' h' P', add_loop alloc fuel h a i (i + 3 * Z.of_nat k) v d = Ok (r, d', h') /\ inv h' P' /\ same_links h P h' P' /\ (size h' <= size h + k)%nat /\
    match r with
    | Some c => P' !! c = Some (reverse (path k v) ++ p) /\ d' = (if decide (k = O) then d else i + 3 * Z.of_nat k - 3) /\
                (trimmed_but root a h -> trimmed_but root c h')
    | None => exists g, isValid (alloc g) = false /\ (size g <= size h + k)%nat
    end.
Proof using alloc_fresh.
  induction k as [|k IH]; intros fuel h P a p i v d I Hp Hf.
  { exists (Some a), d, h, P. split_and!; try done; [|lia]. destruct fuel; simpl; by rewrite (proj2 (Z.leb_le _ _)) by lia. }
  destruct fuel as [|fuel]; [lia|]. destruct (rt_node _ _ _ _ _ I Hp) as [nd Ha].
  destruct (rt_branch _ _ _ _ _ _ I Ha (group_lt v)) as [c Hc].
  assert (forall h1 P1 x, inv h1 P1 -> P1 !! x = Some (Z.to_nat (get_radix_node_branch v) :: p) ->
    same_links h P h1 P1 -> (size h1 <= size h + 1)%nat -> (trimmed_but root a h -> trimmed_but root x h1) ->
    exists r d' h' P', add_loop alloc fuel h1 x (i + MAX_BRANCH) (i + 3 * Z.of_nat (S k)) (radix_tree_advance v) i = Ok (r, d', h') /\
      inv h' P' /\ same_links h P h' P' /\ (size h' <= size h + S k)%nat /\
      match r with
      | Some c => P' !! c = Some (reverse (path (S k) v) ++ p) /\ d' = i + 3 * Z.of_nat (S k) - 3 /\ (trimmed_but root a h -> trimmed_but root c h')
      | None => exists g, isValid (alloc g) = false /\ (size g <= size h + S k)%nat
      end) as Hgo.
  { intros h1 P1 x I1 Hx L1 S1 T1. replace (i + 3 * Z.of_nat (S k)) with (i + MAX_BRANCH + 3 * Z.of_nat k) by (unfold MAX_BRANCH; lia).
    destruct (IH fuel h1 P1 x _ (i + MAX_BRANCH) (radix_tree_advance v) i I1 Hx) as (r & d' & h' & P' & Hr & I' & L' & S' & Hm); [lia|].
    exists r, d', h', P'. split_and!; [done|done|by eapply same_links_trans|lia|]. destruct r as [y|]; [|destruct Hm as (g & ? & ?); exists g; split; [done|lia]].
    destruct Hm as (Hy & -> & Ty). rewrite path_snoc. split_and!; [done| |auto].
    unfold MAX_BRANCH. case_decide; lia. }
  cbn [add_loop]. rewrite (proj2 (Z.leb_gt _ _)), Ha by lia. cbn [deref mbind res_bind]. unfold branch at 1. rewrite Hc. cbn [deref mbind res_bind].
  destruct (Z.eqb_spec c 0) as [->|Hc0].
  - unfold allocate_radix_node. destruct (isValid (alloc h)) eqn:Hv; cbn [negb].
    + rewrite Hv. cbn [negb]. pose proof (isValid_nonzero _ Hv). pose proof (alloc_fresh h Hv).
      apply (Hgo _ (<[alloc h := Z.to_nat (get_radix_node_branch v) :: p]> P));
        [by apply rt_inv_grow|apply lookup_insert_eq|by apply grow_links| |intros; by apply grow_trimmed].
      rewrite map_size_insert, lookup_insert_ne, Ha, map_size_insert_None by (done || congruence). simpl. lia.
    + exists None, d, h, P. cbn. split_and!; try done; [lia|]. exists h. split; [done|lia].
  - apply (Hgo h P c); [done|by eapply rt_down|done|lia|]. intros. by eapply walk_trimmed.
Qed.

(** A number that is new gets its link; one that is known keeps the old one. *)
Lemma radix_tree_add_spec h M n l d : radix_rep h M -> is_u32 n -> l <> 0 ->
  exists d' h', radix_tree_add root alloc h n l d = Ok (d', h') /\ (size h' <= size h + 11)%nat /\
    ((radix_rep h' (if decide (is_Some (M !! n)) then M else <[n := l]> M) /\ (trimmed h -> trimmed h')) \/
     (radix_rep h' M /\ M !! n = None /\ exists g, isValid (alloc g) = false /\ (size g <= size h + 11)%nat)).
Proof using alloc_fresh.
  intros (P & I & Hk & HM) Hn Hl. pose proof (find_radix_node_spec h P M n I Hn HM) as Hfind.
  destruct (numlen_spec n Hn) as (Hlen & ? & _). unfold radix_tree_add. remember 12%nat as fuel eqn:Hfuel. rewrite Hlen. cbn [mbind res_bind].
  rewrite (proj2 (Z.eqb_neq _ _) Hl). destruct (M !! n) as [l0|] eqn:Hmn.
  { destruct Hfind as (_ & a & nd & -> & Ha0 & _). cbn [mbind res_bind]. rewrite (proj2 (Z.eqb_neq _ _) Ha0).
    exists d, h. split; [done|split; [lia|left]]. rewrite decide_True by eauto. split; [by exists P|done]. }
  rewrite Hfind. cbn [mbind res_bind Z.eqb negb].
  destruct (add_loop_spec (groups n) fuel h P root [] 0 n d I (rt_root _ _ _ I)) as (r & d' & h1 & P1 & Hadd & I1 & L1 & S1 & Hr); [lia|].
  rewrite Z.add_0_l in Hadd. rewrite Hadd. cbn [mbind res_bind]. destruct r as [c|].
  2: { exists d', h1. split; [done|split; [lia|right]]. destruct Hr as (g & ? & ?). split_and!; [|done|exists g; split; [done|lia]]. exists P1. split_and!; [done| |].
       - intros q k Hq. by apply L1, Hk in Hq.
       - intros m k. by rewrite HM, (L1 _ k). }
  destruct Hr as (Hc & _ & Ht). rewrite app_nil_r in Hc. fold (key n) in Hc.
  assert (c <> root) as Hcr. { intros ->. apply (key_nonempty n Hn). pose proof (rt_root _ _ _ I1). congruence. }
  destruct (rt_node _ _ _ _ _ I1 Hc) as [nd Hnd]. rewrite (proj2 (Z.eqb_neq _ _) Hcr), Hnd. cbn [negb deref mbind res_bind].
  pose proof (linked_set h1 P1 c nd _ l I1 Hnd Hc) as L2.
  eexists d', _. split; [reflexivity|split; [rewrite map_size_insert, Hnd; simpl; lia|left]]. rewrite decide_False by (by intros [? ?]). split.
  - exists P1. split_and!; [by apply rt_inv_link| |].
    + intros q k Hq. apply L2 in Hq as [[-> _]|[_ Hq]]; [eauto|]. by apply L1, Hk in Hq.
    + intros m k. rewrite L2, <- (L1 _ k), lookup_insert_Some, HM.
      destruct (decide (n = m)) as [<-|Hne].
      * split; [intros [[_ <-]|[? _]]; [by auto|done]|intros (_ & [(_ & -> & _)|[? _]]); [by left|done]].
      * split; [intros [[? _]|(_ & Hm & ?)]; [done|]; split; [done|right; split; [|done]]|].
        -- intros E%key_inj; [by symmetry in E|done..].
        -- intros (Hm & [[E%key_inj _]|[_ ?]]); [by symmetry in E|done|done|by right].
  - intros Htr. eapply trimmed_close; [by apply trimmed_unlink, Ht, trimmed_weaken|].
    intros n' E _. rewrite lookup_insert_eq in E. injection E as <-. by left.
Qed.
End inserting.
End operations.
