(* ===== verification/RadixHistory.v ===== *)
(** * Histories of radix trees

    One step of a tree against the map it stands for, and any sequence of
    additions and removals on a fresh tree. *)

From stdpp Require Import prelude gmap fin_maps sorting.
From S2P Require Import Prelude Bytes Sync Generic Radix RadixSpec RadixMap.

(** ** Histories of a tree *)

Inductive radix_op :=
| OpAdd (number link : Z)
| OpDel (number : Z).

Definition op_ok (o : radix_op) : Prop :=
  match o with OpAdd n l => is_u32 n /\ l <> 0 | OpDel n => is_u32 n end.
Definition run_op (root : Z) (alloc : heap -> Z) (h : heap) (o : radix_op) : res heap :=
  match o with
  | OpAdd n l => '(_, h) ← radix_tree_add root alloc h n l 0; Ok h
  | OpDel n => radix_tree_del root h n
  end.
Fixpoint run_ops (root : Z) (alloc : heap -> Z) (h : heap) (os : list radix_op) : res heap :=
  match os with [] => Ok h | o :: os => h ← run_op root alloc h o; run_ops root alloc h os end.

(** What an operation does to the map: the first link of a number stays. *)
Definition map_op (M : gmap Z Z) (o : radix_op) : gmap Z Z :=
  match o with
  | OpAdd n l => if decide (is_Some (M !! n)) then M else <[n := l]> M
  | OpDel n => delete n M
  end.

(** The tree of [DECLARE_RADIX_TREE]. *)
Definition empty_tree (root : Z) : heap := {[ root := RNode 0 (replicate 8 0) 0 ]}.

Lemma empty_tree_rep root : root <> 0 -> radix_rep root (empty_tree root) ∅.
Proof.
  intros Hr. unfold empty_tree. exists {[ root := [] ]}.
  assert (forall q l, ~ linked {[ root := RNode 0 (replicate 8 0) 0 ]} {[ root := [] ]} q l) as Hno.
  { intros q l (a & nd & _ & [_ <-]%lookup_singleton_Some & ? & ?). by simpl in *. }
  split_and!.
  - split.
    + intros a. rewrite !lookup_singleton_is_Some. done.
    + apply lookup_singleton_eq.
    + intros a b p [<- _]%lookup_singleton_Some [<- _]%lookup_singleton_Some. done.
    + intros a. by rewrite lookup_singleton_is_Some; intros <-.
    + by intros a nd [_ <-]%lookup_singleton_Some.
    + by intros a nd p i c [_ <-]%lookup_singleton_Some _ [-> _]%lookup_replicate ?.
    + by intros c i p [_ ?]%lookup_singleton_Some.
    + by intros nd [_ <-]%lookup_singleton_Some.
  - intros q l H. by destruct (Hno q l).
  - intros n l. rewrite lookup_empty. split; [done|]. intros [_ H]. by destruct (Hno _ _ H).
Qed.
Lemma empty_tree_trimmed root : trimmed_but root root (empty_tree root).
Proof. unfold empty_tree. intros a nd [-> _]%lookup_singleton_Some ?. done. Qed.

(** A useless leaf would be a node of greatest depth: an empty map needs none. *)
Lemma trimmed_empty root h : radix_rep root h ∅ -> trimmed_but root root h -> dom h = {[ root ]}.
Proof.
  intros (P & I & Hk & HM) Ht. assert (forall q l, ~ linked h P q l) as Hno.
  { intros q l H. destruct (Hk _ _ H) as (n & Hn & ->). pose proof (proj2 (HM n l) (conj Hn H)) as E. by rewrite lookup_empty in E. }
  assert (root ∈ dom h) by (apply elem_of_dom, (rt_dom _ _ _ I); rewrite (rt_root _ _ _ I); eauto).
  destruct (decide (dom h ∖ {[ root ]} = ∅)) as [?|Hne]; [apply set_eq; intros x; destruct (decide (x = root)); set_solver|exfalso].
  set (depth a := from_option length O (P !! a)).
  assert (Transitive (fun a b => depth b <= depth a)%nat) by (intros ? ? ?; lia).
  assert (forall a b, Decision ((fun a b => depth b <= depth a)%nat a b)) by (intros a b; apply Nat.le_dec).
  destruct (minimal_exists_elem_of_L (C := gset Z) (fun a b => depth b <= depth a)%nat (dom h ∖ {[ root ]}) Hne) as (a & [Ha Har]%elem_of_difference & Hmax).
  apply elem_of_dom in Ha as [nd Ha]. destruct (rt_path _ _ _ _ _ I Ha) as [p Hp].
  destruct (Ht a nd Ha) as [Hl|(i & c & Hi & Hc)]; [set_solver..| |].
  - apply (Hno p (sprt_link nd)). by exists a, nd.
  - pose proof (rt_down _ _ _ I _ _ _ _ _ Ha Hp Hi Hc) as Hpc. destruct (rt_node _ _ _ _ _ I Hpc) as [nc Hnc].
    assert (depth a = length p /\ depth c = S (length p)) as [??] by (by unfold depth; rewrite Hp, Hpc).
    assert (depth c <= depth a)%nat; [|lia]. apply Hmax; [|lia].
    apply elem_of_difference. split; [by apply elem_of_dom_2 in Hnc|]. intros ->%elem_of_singleton.
    rewrite (rt_root _ _ _ I) in Hpc. done.
Qed.

(** A radix tree is a finite map from 32-bit numbers to links.  Looking a
    number up gives its link or null; removing it takes it out of the map; adding
    a link keeps the first link of a number and otherwise maps it.  An addition
    is lost only when the allocator refuses memory for at most eleven nodes. *)
Theorem radix_tree_is_map root alloc h M n l d :
  (forall g, isValid (alloc g) = true -> g !! alloc g = None) ->
  radix_rep root h M -> is_u32 n -> l <> 0 ->
  radix_tree_look_up root h n = Ok (default nullptr (M !! n)) /\
  (exists h', radix_tree_del root h n = Ok h' /\ radix_rep root h' (delete n M)) /\
  (exists d' h', radix_tree_add root alloc h n l d = Ok (d', h') /\
    (radix_rep root h' (map_op M (OpAdd n l)) \/
     (radix_rep root h' M /\ exists g, isValid (alloc g) = false /\ (size g <= size h + 11)%nat))).
Proof.
  intros Hal Hrep Hn Hl. split_and!.
  - by apply radix_look_up_rep.
  - destruct (radix_tree_del_spec root h M n Hrep Hn) as (h' & ? & ? & _). eauto.
  - destruct (radix_tree_add_spec root alloc Hal h M n l d Hrep Hn Hl) as (d' & h' & ? & _ & [[? _]|(? & _ & ?)]); eauto 10.
Qed.

Lemma run_ops_spec root alloc N os : forall h M,
  (forall g, isValid (alloc g) = true -> g !! alloc g = None) ->
  (forall g, (size g <= N)%nat -> isValid (alloc g) = true) ->
  Forall op_ok os -> (size h + 11 * length os <= N)%nat -> radix_rep root h M -> trimmed_but root root h ->
  exists h', run_ops root alloc h os = Ok h' /\ radix_rep root h' (foldl map_op M os) /\ trimmed_but root root h'.
Proof.
  intros h M Hal Hroom Hos. revert h M. induction Hos as [|o os Ho Hos IH]; intros h M Hs Hrep Ht; [by exists h|].
  simpl in Hs. cbn [run_ops foldl].
  assert (exists h1, run_op root alloc h o = Ok h1 /\ radix_rep root h1 (map_op M o) /\ (size h1 <= size h + 11)%nat /\ trimmed_but root root h1)
    as (h1 & -> & Hrep1 & Hs1 & Ht1); [|apply IH; [lia|done..]].
  destruct o as [n l|n]; cbn [run_op map_op].
  - destruct Ho as [Hn Hl]. destruct (radix_tree_add_spec root alloc Hal h M n l 0 Hrep Hn Hl) as (d & h1 & -> & ? & [[? ?]|(_ & _ & g & Hg & ?)]).
    + exists h1. cbn [mbind res_bind]. auto.
    + rewrite Hroom in Hg by lia. done.
  - destruct (radix_tree_del_spec root h M n Hrep Ho) as (h1 & ? & ? & Hd & ?). exists h1. split_and!; auto.
    rewrite <- !size_dom. apply subseteq_size in Hd. lia.
Qed.

(** C36: any history of additions and removals on a fresh tree, with memory for
    eleven nodes per operation, runs to its end and stands for the map of the
    same history; once the map is empty every node has been given back. *)
Theorem radix_tree_history root alloc N os :
  root <> 0 ->
  (forall g, isValid (alloc g) = true -> g !! alloc g = None) ->
  (forall g, (size g <= N)%nat -> isValid (alloc g) = true) ->
  Forall op_ok os -> (1 + 11 * length os <= N)%nat ->
  exists h, run_ops root alloc (empty_tree root) os = Ok h /\
    radix_rep root h (foldl map_op ∅ os) /\ (foldl map_op ∅ os = ∅ -> dom h = {[ root ]}).
Proof.
  intros Hr Hal Hroom Hos HN.
  destruct (run_ops_spec root alloc N os (empty_tree root) ∅ Hal Hroom Hos) as (h & ? & Hrep & Ht);
    [unfold empty_tree; by rewrite map_size_singleton|by apply empty_tree_rep|apply empty_tree_trimmed|].
  exists h. split_and!; [done|done|]. intros E. rewrite E in Hrep. by apply trimmed_empty.
Qed.

(** ** A concrete allocator *)

Definition demo_slots : list Z := (fun i => 4096 + 64 * Z.of_nat i) <$> seq 0 101.
Definition demo_alloc (g : heap) : Z :=
  default 0 (head (filter (fun a => g !! a = None) demo_slots)).

Lemma demo_alloc_slot g : demo_alloc g <> 0 -> demo_alloc g ∈ demo_slots /\ g !! demo_alloc g = None.
Proof.
  unfold demo_alloc. destruct (filter _ _) as [|a l] eqn:E; [done|]. intros _. simpl.
  assert (a ∈ filter (fun a => g !! a = None) demo_slots) as [??]%list_elem_of_filter by (rewrite E; left). done.
Qed.
Lemma demo_alloc_fresh g : isValid (demo_alloc g) = true -> g !! demo_alloc g = None.
Proof. intros H. by apply demo_alloc_slot, isValid_nonzero. Qed.
Lemma demo_slots_valid a : a ∈ demo_slots -> isValid a = true.
Proof. intros (i & -> & Hi)%list_elem_of_fmap. apply elem_of_seq in Hi. apply isValid_true. unfold W32. lia. Qed.
Lemma demo_slots_nodup : NoDup demo_slots.
Proof. apply NoDup_fmap_2; [intros i j ?; lia|apply NoDup_seq]. Qed.
Lemma demo_alloc_room g : (size g <= 100)%nat -> isValid (demo_alloc g) = true.
Proof.
  intros Hs. destruct (decide (demo_alloc g = 0)) as [E|E]; [|by apply demo_slots_valid, demo_alloc_slot].
  exfalso. unfold demo_alloc in E. destruct (filter _ _) as [|a l] eqn:Hf.
  - assert (list_to_set demo_slots ⊆ dom g) as Hd.
    { intros a Ha%elem_of_list_to_set. apply elem_of_dom. destruct (g !! a) eqn:Hg; [eauto|].
      assert (a ∈ filter (fun a => g !! a = None) demo_slots) as H by (by apply list_elem_of_filter).
      rewrite Hf in H. by apply not_elem_of_nil in H. }
    apply subseteq_size in Hd. rewrite size_list_to_set, size_dom in Hd by apply demo_slots_nodup.
    change (length demo_slots) with 101%nat in Hd. lia.
  - assert (a ∈ filter (fun a => g !! a = None) demo_slots) as [_ Ha]%list_elem_of_filter by (rewrite Hf; left).
    apply demo_slots_valid, isValid_nonzero in Ha. done.
Qed.

Lemma radix_tree_is_map_witness :
  radix_tree_look_up 64 (empty_tree 64) 77 = Ok 0 /\
  exists d' h', radix_tree_add 64 demo_alloc (empty_tree 64) 77 500 0 = Ok (d', h') /\
    (radix_rep 64 h' (map_op ∅ (OpAdd 77 500)) \/
     (radix_rep 64 h' ∅ /\ exists g, isValid (demo_alloc g) = false /\ (size g <= size (empty_tree 64) + 11)%nat)).
Proof.
  destruct (radix_tree_is_map 64 demo_alloc (empty_tree 64) ∅ 77 500 0) as (? & _ & ?);
    [exact demo_alloc_fresh|by apply empty_tree_rep|unfold is_u32, W32; lia|done|]. by split.
Defined.

Lemma radix_tree_history_witness : exists h,
  run_ops 64 demo_alloc (empty_tree 64) [OpAdd 77 500; OpAdd 13 600; OpDel 77; OpDel 13] = Ok h /\ dom h = {[ 64 ]}.
Proof.
  destruct (radix_tree_history 64 demo_alloc 100 [OpAdd 77 500; OpAdd 13 600; OpDel 77; OpDel 13]) as (h & Hr & _ & He);
    [done|exact demo_alloc_fresh|exact demo_alloc_room|repeat constructor; done|simpl; lia|].
  exists h. split; [exact Hr|]. by apply He, (bool_decide_unpack _).
Defined.
