(* ===== verification/KTime.v ===== *)
(** * Time and timers (common/generic/time.c, include/common/time.h)

    The tick counter and unit conversions, the busy-wait counters, the calendar
    conversion, and the global timer list.  Timers are structures in the shared
    memory: the link node, then the expiry tick, the handler and its argument.
    A handler is any function on memory. *)

From stdpp Require Import prelude gmap fin_maps sorting.
From S2P Require Import Prelude Mem ListHead Sync Generic.

(** ** Ticks *)
Definition TICK_HZ : Z := 100.
Definition JIFFIES_INITVAL : Z := 86400000 - 1.
Definition JIFFIES_MAX : Z := W32 - 1.

(** [get_time_counter], the tick handler: [(jiffies, jiffies_out)]. *)
Definition get_time_counter (jiffies jiffies_out : Z) : Z * Z :=
  let jiffies := if JIFFIES_MAX <=? jiffies then 0 else u32 (jiffies + 1) in
  (jiffies, if negb (jiffies =? 0) then jiffies_out else u32 (jiffies_out + 1)).
Definition SYS_RUNTICK (jiffies : Z) : Z :=
  if JIFFIES_INITVAL <=? jiffies then u32 (jiffies - JIFFIES_INITVAL) else u32 (JIFFIES_MAX - u32 (jiffies - JIFFIES_INITVAL)).

Definition mrt_time_after (a b : Z) : bool := b <? a.
Definition mrt_time_after_eq (a b : Z) : bool := b <=? a.
Definition mrt_time_before (a b : Z) : bool := mrt_time_after b a.
Definition mrt_time_before_eq (a b : Z) : bool := mrt_time_after_eq b a.

Definition jiffies_to_secs (j : Z) : Z := j / TICK_HZ.
Definition jiffies_to_msecs (j : Z) : Z := u32 (j * 1000) / TICK_HZ.
Definition jiffies_to_usecs (j : Z) : Z := u32 (u32 (j * 1000) * 1000) / TICK_HZ.
Definition jiffies_to_nsecs (j : Z) : Z := u32 (u32 (u32 (j * 1000) * 1000) * 1000) / TICK_HZ.
Definition secs_to_jiffies (s : Z) : Z := u32 (s * TICK_HZ).
Definition msecs_to_jiffies (m : Z) : Z := if negb (m =? 0) then u32 (u32 (m * TICK_HZ) / 1000 + 1) else 0.
Definition usecs_to_jiffies (u : Z) : Z := if negb (u =? 0) then u32 (u32 (u * TICK_HZ) / 1000 / 1000 + 1) else 0.
Definition nsecs_to_jiffies (n : Z) : Z :=
  if negb (n =? 0) then u32 ((n * TICK_HZ) mod 18446744073709551616 / 1000 / 1000 / 1000 + 1) else 0.

Record time_spec := TimeSpec { tv_sec : Z; tv_nsec : Z }.
Definition time_spec_to_msecs (t : time_spec) : Z := u32 (u32 (tv_sec t * 1000) + tv_nsec t / 1000 / 1000).
Definition msecs_to_time_spec (m : Z) : time_spec :=
  let sec := m / 1000 in TimeSpec sec (u32 (u32 (u32 (m - u32 (sec * 1000)) * 1000) * 1000)).

(** ** Busy-wait counters *)
Definition TIMER_DELAY_COUNTER_MAX : Z := 16777215.
Record delay_counters := Delay { g_simple_delay_timer : Z; g_simple_timeout_cnt : Z; g_delay_timer_counter : Z }.
Definition simple_delay_timer_initial : delay_counters := Delay 0 0 0.
Definition simple_delay_timer_runs (d : delay_counters) : delay_counters :=
  let over := TIMER_DELAY_COUNTER_MAX <=? g_simple_delay_timer d in
  let timer := if over then 0 else u32 (g_simple_delay_timer d + 1) in
  let cnt := if over then (if 255 <=? g_simple_timeout_cnt d then 0 else u32 (g_simple_timeout_cnt d + 1)) else g_simple_timeout_cnt d in
  Delay timer cnt (u32 (Z.land (mrt_bit_nr cnt 24) (W32 - 1 - TIMER_DELAY_COUNTER_MAX) + timer)).

(** [while (mrt_time_before(jiffies, count))]: the clock is a sequence of readings. *)
Fixpoint wait_until (ticks : list Z) (count : Z) : res (list Z) :=
  match ticks with
  | [] => Spin
  | j :: ticks => if mrt_time_before j count then wait_until ticks count else Ok ticks
  end.
Definition wait_secs (ticks : list Z) (jiffies seconds : Z) : res (list Z) := wait_until ticks (u32 (jiffies + secs_to_jiffies seconds)).
Definition wait_msecs (ticks : list Z) (jiffies milseconds : Z) : res (list Z) := wait_until ticks (u32 (jiffies + msecs_to_jiffies milseconds)).
Definition wait_usecs (ticks : list Z) (jiffies useconds : Z) : res (list Z) := wait_until ticks (u32 (jiffies + usecs_to_jiffies useconds)).

(** ** Calendar *)
Record time_clock := Clock { year : Z; month : Z; day : Z; hour : Z; minute : Z; second : Z; milsecond : Z }.

Definition msecs_to_timeclock (fuel : nat) (milseconds : Z) : res time_clock :=
  ms ← udiv_remainder fuel milseconds 1000;
  temp ← udiv_integer fuel milseconds 1000;
  sec ← udiv_remainder fuel temp 60;
  temp ← udiv_integer fuel temp 60;
  min ← udiv_remainder fuel temp 60;
  temp ← udiv_integer fuel temp 60;
  hour ← udiv_remainder fuel temp 60;
  temp ← udiv_integer fuel temp 60;
  day ← udiv_remainder fuel temp 24;
  temp ← udiv_integer fuel temp 24;
  month ← udiv_remainder fuel temp 30;
  temp ← udiv_integer fuel temp 30;
  year ← udiv_remainder fuel temp 12;
  Ok (Clock year (u8 month) (u8 day) (u8 hour) (u8 min) (u8 sec) (u16 ms)).

(** ** The timer list *)

(** [struct timer_list] at [t]: link, expires, entry, data. *)
Definition tm_expires (m : mem) (t : Z) : Z := m (t + 8).
Definition tm_entry (m : mem) (t : Z) : Z := m (t + 12).
Definition tm_data (m : mem) (t : Z) : Z := m (t + 16).

Section timers.
(** The list head's address, and what calling a handler does to memory and to
    the rest of the system. *)
Context (sgrt_global_timer_list : Z) {X : Type} (call : Z -> Z -> X * mem -> res (X * mem)).

Definition setup_timer (m : mem) (t entry data : Z) : mem :=
  if negb (isValid t) then m
  else
    let m := init_list_head m t in
    let m := st m (t + 12) entry in
    st m (t + 16) data.

Definition add_timer (m : mem) (t : Z) : mem :=
  if negb (isValid t) || (tm_expires m t =? 0) then m
  else list_head_add_tail m sgrt_global_timer_list t.

Definition del_timer (fuel : nat) (m : mem) (t : Z) : res mem :=
  if negb (isValid t) then Ok m
  else list_head_del_safe fuel m sgrt_global_timer_list t.

Definition find_timer (fuel : nat) (m : mem) (t : Z) : res bool :=
  r ← foreach_list_next_entry fuel m sgrt_global_timer_list (fun any => t =? any);
  Ok (bool_decide (is_Some r)).

Definition mod_timer (m : mem) (t expires : Z) : mem :=
  if negb (isValid t) then m
  else
    let m := st m (t + 8) expires in
    if mrt_list_head_empty m t then add_timer m t else m.

(** The next position is read after the handler has run. *)
Fixpoint timer_event_loop (fuel : nat) (jiffies : Z) (s : X * mem) (t : Z) : res (X * mem) :=
  if t =? sgrt_global_timer_list then Ok s
  else match fuel with
       | O => Spin
       | S fuel =>
           let m := s.2 in
           s ← (if tm_expires m t =? 0 then Ok s
                else if mrt_time_after jiffies (tm_expires m t) && negb (tm_entry m t =? 0)
                     then call (tm_entry m t) (tm_data m t) s else Ok s);
           timer_event_loop fuel jiffies s (sprt_next s.2 t)
       end.
Definition do_timer_event (fuel : nat) (jiffies : Z) (s : X * mem) : res (X * mem) :=
  timer_event_loop fuel jiffies s (sprt_next s.2 sgrt_global_timer_list).
End timers.

(** ** Conversions *)
Lemma msecs_jiffies_ticks m : 0 < m -> m * TICK_HZ < W32 -> msecs_to_jiffies m = m / 10 + 1.
Proof.
  intros H0 H. unfold msecs_to_jiffies, TICK_HZ in *. rewrite (proj2 (Z.eqb_neq _ _)) by lia. simpl. rewrite (u32_id (m * 100)) by lia.
  change 1000 with (10 * 100). rewrite Z.div_mul_cancel_r by lia. apply u32_id.
  assert (0 <= m / 10) by (apply Z.div_pos; lia). assert (m / 10 <= m) by (apply Z.div_le_upper_bound; lia). unfold W32 in *. lia.
Qed.

(** A delay in milliseconds is rounded up to ticks: it lasts at least as long
    as asked and less than two ticks longer, for every value whose conversion
    does not overflow. *)
Theorem msecs_round_up m :
  0 < m -> m * TICK_HZ < W32 -> (m / 10 + 1) * 1000 < W32 ->
  m <= jiffies_to_msecs (msecs_to_jiffies m) <= m + 10.
Proof.
  intros H0 H H1. rewrite msecs_jiffies_ticks by done. unfold jiffies_to_msecs. rewrite u32_id by (pose proof (Z.div_pos m 10); lia).
  change 1000 with (10 * 100). unfold TICK_HZ. rewrite Z.mul_assoc, Z.div_mul by lia.
  pose proof (Z.div_mod m 10). pose proof (Z.mod_pos_bound m 10). lia.
Qed.
Lemma msecs_round_up_witness : 20 <= jiffies_to_msecs (msecs_to_jiffies 20) <= 20 + 10.
Proof. apply (msecs_round_up 20); reflexivity. Defined.

Lemma timeclock_spec fuel ms :
  is_u32 ms -> ms <= Z.of_nat fuel ->
  msecs_to_timeclock fuel ms = Ok
    (Clock (ms / 1000 / 60 / 60 / 60 / 24 / 30 mod 12) (ms / 1000 / 60 / 60 / 60 / 24 mod 30) (ms / 1000 / 60 / 60 / 60 mod 24)
       (ms / 1000 / 60 / 60 mod 60) (ms / 1000 / 60 mod 60) (ms / 1000 mod 60) (ms mod 1000)).
Proof.
  unfold is_u32. intros Hms Hf.
  assert (forall n d, 0 < d -> 0 <= n <= ms -> udiv_integer fuel n d = Ok (n / d) /\ udiv_remainder fuel n d = Ok (n mod d) /\ 0 <= n / d <= ms) as H.
  { intros n d Hd Hn. assert (0 <= n / d <= n) by (split; [apply Z.div_pos; lia|apply Z.div_le_upper_bound; nia]).
    unfold udiv_integer, udiv_remainder. rewrite udiv_loop_spec by lia. simpl. split_and!; try done; lia. }
  unfold msecs_to_timeclock. destruct (H ms 1000) as (E1 & E2 & E3); [lia..|]. rewrite E1, E2. cbn [mbind res_bind].
  destruct (H (ms / 1000) 60) as (F1 & F2 & F3); [lia..|]. rewrite F1, F2. cbn [mbind res_bind].
  destruct (H (ms / 1000 / 60) 60) as (G1 & G2 & G3); [lia..|]. rewrite G1, G2. cbn [mbind res_bind].
  destruct (H (ms / 1000 / 60 / 60) 60) as (I1 & I2 & I3); [lia..|]. rewrite I1, I2. cbn [mbind res_bind].
  destruct (H (ms / 1000 / 60 / 60 / 60) 24) as (J1 & J2 & J3); [lia..|]. rewrite J1, J2. cbn [mbind res_bind].
  destruct (H (ms / 1000 / 60 / 60 / 60 / 24) 30) as (K1 & K2 & K3); [lia..|]. rewrite K1, K2. cbn [mbind res_bind].
  destruct (H (ms / 1000 / 60 / 60 / 60 / 24 / 30) 12) as (L1 & L2 & L3); [lia..|]. rewrite L2. cbn [mbind res_bind].
  pose proof (Z.mod_pos_bound ms 1000). rewrite u16_id by lia.
  rewrite !u8_id; [done|..]; match goal with |- 0 <= ?a mod ?b < _ => pose proof (Z.mod_pos_bound a b); lia end.
Qed.

(** ** The timer list is the sequence of armed timers *)

(** What one pass of the tick handler does with one timer, and with all. *)
Definition fire {X} (call : Z -> Z -> X * mem -> res (X * mem)) (jiffies : Z) (s : X * mem) (t : Z) : res (X * mem) :=
  if tm_expires s.2 t =? 0 then Ok s
  else if mrt_time_after jiffies (tm_expires s.2 t) && negb (tm_entry s.2 t =? 0)
       then call (tm_entry s.2 t) (tm_data s.2 t) s else Ok s.
Fixpoint fire_all {X} (call : Z -> Z -> X * mem -> res (X * mem)) (jiffies : Z) (s : X * mem) (ts : list Z) : res (X * mem) :=
  match ts with
  | [] => Ok s
  | t :: ts => s ← fire call jiffies s t; fire_all call jiffies s ts
  end.

Lemma dlists_next m hd xs1 t xs2 L : dlists m ((hd, xs1 ++ t :: xs2) :: L) -> sprt_next m t = first_of xs2 hd.
Proof. intros H. by apply (node_links m hd xs1 xs2 L t). Qed.
Lemma dlists_first m hd xs L : dlists m ((hd, xs) :: L) -> sprt_next m hd = first_of xs hd.
Proof. intros [HF _]. apply Forall_cons in HF as [He _]. by apply lseg_first in He. Qed.
Lemma dlists_not_head m hd xs1 t xs2 L : dlists m ((hd, xs1 ++ t :: xs2) :: L) -> t <> hd.
Proof.
  intros H ->. apply entry_NoDup in H. apply NoDup_cons in H as [H _]. apply H. in_goal.
Qed.

(** [P] is what holds between handlers; it includes the list. *)
Section pass.
Context {X : Type} (TL : Z) (call : Z -> Z -> X * mem -> res (X * mem)) (xs : list Z) (L : list (Z * list Z)) (jiffies : Z).
Context (P : X * mem -> Prop) (HP : forall s, P s -> dlists s.2 ((TL, xs) :: L)).
Context (Hfire : forall s t s', P s -> t ∈ xs -> fire call jiffies s t = Ok s' -> P s').

Lemma timer_loop_fires ts : forall ds s fuel,
  xs = ds ++ ts -> P s -> (length ts <= fuel)%nat ->
  timer_event_loop TL call fuel jiffies s (first_of ts TL) = fire_all call jiffies s ts.
Proof using HP Hfire.
  induction ts as [|t ts IH]; intros ds s fuel Hx Hs Hf; [unfold first_of; simpl; destruct fuel; simpl; by rewrite Z.eqb_refl|].
  destruct fuel as [|fuel]; [simpl in Hf; lia|]. pose proof (HP s Hs) as HD.
  assert (t <> TL) as Hne by (rewrite Hx in HD; by eapply dlists_not_head).
  unfold first_of. simpl. rewrite (proj2 (Z.eqb_neq t TL)) by done. fold (fire call jiffies s t).
  destruct (fire call jiffies s t) as [s'| |] eqn:E; try done. simpl.
  assert (P s') as Hs' by (eapply Hfire; [done| |done]; rewrite Hx; in_goal).
  pose proof (HP s' Hs') as HD'. rewrite Hx in HD'. rewrite (dlists_next s'.2 TL ds t ts L HD').
  apply (IH (ds ++ [t])); [by rewrite <- app_assoc|done|simpl in Hf; lia].
Qed.

Lemma timer_event_fires s fuel :
  P s -> (length xs <= fuel)%nat -> do_timer_event TL call fuel jiffies s = fire_all call jiffies s xs.
Proof using HP Hfire.
  intros Hs Hf. unfold do_timer_event. rewrite (dlists_first s.2 TL xs L (HP s Hs)). by apply (timer_loop_fires xs []).
Qed.
End pass.

(** A tick visits every armed timer exactly once, in the order they were
    armed, and calls the handlers of those whose expiry tick has passed; as long
    as handlers keep the timer list (they may change expiry ticks), the pass
    returns, with fuel for one round per timer. *)
Theorem do_timer_event_fires_all {X} TL (call : Z -> Z -> X * mem -> res (X * mem)) xs L jiffies s fuel :
  dlists s.2 ((TL, xs) :: L) -> (length xs <= fuel)%nat ->
  (forall e d s1 s2, dlists s1.2 ((TL, xs) :: L) -> call e d s1 = Ok s2 -> dlists s2.2 ((TL, xs) :: L)) ->
  do_timer_event TL call fuel jiffies s = fire_all call jiffies s xs.
Proof.
  intros HD Hf Hcall. apply (timer_event_fires TL call xs L jiffies (fun s => dlists s.2 ((TL, xs) :: L))); try done.
  intros s1 t s2 H1 _. unfold fire. destruct (_ =? 0); [by intros [= <-]|]. destruct (_ && _); [by apply Hcall|by intros [= <-]].
Qed.

(** Two armed timers at 256 and 320, the list head at 64; handlers add up their
    arguments. *)
Definition demo_timers : mem :=
  let m := init_list_head (fun _ => 0) 64 in
  let m := setup_timer m 256 4096 7 in
  let m := mod_timer 64 m 256 100 in
  let m := setup_timer m 320 4096 9 in
  mod_timer 64 m 320 300.
Definition demo_handler (e d : Z) (s : Z * mem) : res (Z * mem) := Ok (s.1 + d, s.2).
Lemma demo_timers_ok : dlists demo_timers [(64, [256; 320])].
Proof. split; [vm_compute; repeat constructor|]. simpl. unfold apart. repeat (split || constructor); lia. Qed.
Lemma do_timer_event_fires_all_witness : do_timer_event 64 demo_handler 2 200 (0, demo_timers) = Ok (7, demo_timers).
Proof.
  rewrite (do_timer_event_fires_all 64 demo_handler [256; 320] [] 200 (0, demo_timers) 2);
    [vm_compute; reflexivity|exact demo_timers_ok|simpl; lia|].
  intros e d s1 s2 H E. injection E as <-. exact H.
Defined.

(** ** Arming and disarming *)
Lemma dlists_write m L a v : outside (nodes L) a -> dlists m L -> dlists (st m a v) L.
Proof.
  intros Ho. apply dlists_agree. intros n Hn. destruct (Ho n Hn). split; apply st_ne; congruence.
Qed.

Lemma mod_timer_detached TL m t e xs L :
  dlists m ((TL, xs) :: (t, []) :: L) -> isValid t = true -> outside (nodes ((TL, xs) :: (t, []) :: L)) (t + 8) ->
  if e =? 0 then dlists (mod_timer TL m t e) ((TL, xs) :: (t, []) :: L)
  else dlists (mod_timer TL m t e) ((TL, xs ++ [t]) :: L).
Proof.
  intros HD Hv Ho. unfold mod_timer. rewrite Hv. simpl.
  pose proof (dlists_write m _ (t + 8) e Ho HD) as HD1.
  assert (dlists (st m (t + 8) e) ((t, []) :: (TL, xs) :: L)) as HD2 by (by rewrite Permutation_swap).
  rewrite (dlists_empty _ _ _ _ HD2). rewrite bool_decide_eq_true_2 by done.
  unfold add_timer, tm_expires. rewrite Hv, st_eq. simpl. destruct (e =? 0); [done|].
  apply dlists_cons in HD2 as (_ & HD3 & _ & Ha).
  apply (list_head_add_tail_spec _ TL xs [] L t); rewrite app_nil_r; [done|].
  rewrite Forall_forall in Ha |- *. intros x Hx. specialize (Ha x Hx). apply Forall_cons in Ha as [Ha _]. by apply apart_sym.
Qed.

Lemma mod_timer_armed TL m t e xs1 xs2 L :
  dlists m ((TL, xs1 ++ t :: xs2) :: L) -> isValid t = true -> outside (nodes ((TL, xs1 ++ t :: xs2) :: L)) (t + 8) ->
  mod_timer TL m t e = st m (t + 8) e /\ dlists (mod_timer TL m t e) ((TL, xs1 ++ t :: xs2) :: L).
Proof.
  intros HD Hv Ho. pose proof (dlists_write m _ (t + 8) e Ho HD) as HD1.
  assert (mrt_list_head_empty (st m (t + 8) e) t = false) as He.
  { unfold mrt_list_head_empty. destruct (node_links _ _ _ _ _ _ HD1) as [_ ->].
    rewrite (proj2 (Z.eqb_neq (first_of xs2 TL) t)), andb_false_r; [done|].
    pose proof (entry_NoDup _ _ _ _ HD1) as Hnd. simpl in Hnd. pose proof (dlists_not_head _ _ _ _ _ _ HD1).
    destruct xs2 as [|y xs2]; unfold first_of; simpl; [done|]. intros ->.
    apply NoDup_cons in Hnd as [_ Hnd]. apply NoDup_app in Hnd as (_ & _ & Hnd). apply NoDup_cons in Hnd as [Hnd _]. set_solver. }
  unfold mod_timer. rewrite Hv. simpl. by rewrite He.
Qed.

(** Arming a timer that is in no list with a non-zero expiry tick appends it
    to the armed timers; arming an armed one only changes its expiry tick;
    deleting takes it out, whatever its position, and leaves memory alone for a
    timer that is not armed. *)
Theorem timer_list_refines TL m t e xs L fuel :
  isValid t = true -> e <> 0 -> (length xs <= fuel)%nat -> outside (nodes ((TL, xs) :: (t, []) :: L)) (t + 8) ->
  (dlists m ((TL, xs) :: (t, []) :: L) ->
     dlists (mod_timer TL m t e) ((TL, xs ++ [t]) :: L) /\
     exists m', del_timer TL fuel m t = Ok m' /\ m' = m) /\
  (dlists m ((TL, xs) :: L) -> t ∈ xs ->
     mod_timer TL m t e = st m (t + 8) e /\ dlists (mod_timer TL m t e) ((TL, xs) :: L) /\
     exists m', del_timer TL fuel m t = Ok m' /\ dlists m' ((TL, filter (fun y => y <> t) xs) :: (t, []) :: L)).
Proof.
  intros Hv He Hf Ho. split; intros HD.
  - pose proof (mod_timer_detached TL m t e xs L HD Hv Ho) as H. rewrite (proj2 (Z.eqb_neq e 0)) in H by done. split; [done|].
    assert (t ∉ xs) as Hn.
    { destruct HD as [_ Hs]. rewrite !nodes_cons in Hs. apply spread_NoDup in Hs. cbn [fst snd app] in Hs. apply NoDup_cons in Hs as [_ Hs].
      apply NoDup_app in Hs as (_ & Hs & _). intros Hx. apply (Hs t Hx). in_goal. }
    unfold del_timer. rewrite Hv. destruct (list_head_del_safe_spec fuel m TL xs _ t HD Hf) as (m' & E & _ & H2). exists m'. auto.
  - intros Hx. pose proof Hx as (xs1 & xs2 & ->)%elem_of_split_list.
    assert (outside (nodes ((TL, xs1 ++ t :: xs2) :: L)) (t + 8)) as Ho'.
    { intros n Hn. apply Ho. rewrite !nodes_cons in *. cbn [fst snd app] in *. rewrite elem_of_cons, elem_of_app in Hn.
      rewrite !elem_of_cons, elem_of_app, !elem_of_cons. tauto. }
    destruct (mod_timer_armed TL m t e xs1 xs2 L HD Hv Ho') as [E1 E2]. split_and!; [done|done|].
    unfold del_timer. rewrite Hv. destruct (list_head_del_safe_spec fuel m TL _ L t HD Hf) as (m' & E & H1 & _). exists m'. auto.
Qed.
Lemma timer_list_refines_witness :
  exists m', del_timer 64 2 demo_timers 256 = Ok m' /\ dlists m' [(64, [320]); (256, [])].
Proof.
  destruct (timer_list_refines 64 demo_timers 256 500 [256; 320] [] 2) as [_ H]; [reflexivity|discriminate|simpl; lia| |].
  - intros n Hn. unfold nodes in Hn. simpl in Hn. rewrite !elem_of_cons in Hn. set_solver by lia.
  - destruct H as (_ & _ & m' & E & HD).
    + exact demo_timers_ok.
    + in_goal.
    + exists m'. split; [exact E|exact HD].
Defined.
