(* ===== verification/KString.v ===== *)
(** * Strings (common/generic/api_string.c)

    The string routines on byte memory, and the formatted output they support.
    Pointers are addresses; reads past a terminator read whatever is there, as
    the code would.  Loops over strings take [fuel] rounds. *)

From stdpp Require Import prelude gmap fin_maps sorting.
From S2P Require Import Prelude Mem Bytes Sync Generic.

(** ** Lengths *)
Definition W64 : Z := 18446744073709551616.
Definition u64 (z : Z) : Z := z mod W64.

(** [do { num = num / 10; lenth++; } while (num)]: a 64-bit number has at most
    20 decimal digits. *)
Fixpoint integrater_lenth_loop (fuel : nat) (num lenth : Z) : res Z :=
  match fuel with
  | O => Spin
  | S fuel =>
      let num := num / 10 in
      let lenth := u32 (lenth + 1) in
      if num =? 0 then Ok lenth else integrater_lenth_loop fuel num lenth
  end.
Definition get_integrater_lenth (value : Z) : res Z := integrater_lenth_loop 20 value 0.

Fixpoint string_end (fuel : nat) (m : mem) (ptr_ch : Z) : res Z :=
  match fuel with
  | O => Spin
  | S fuel => if m ptr_ch =? 0 then Ok (ptr_ch + 1) else string_end fuel m (ptr_ch + 1)
  end.
Definition get_string_lenth (fuel : nat) (m : mem) (ptr_src : Z) : res Z :=
  ptr_ch ← string_end fuel m ptr_src; Ok (u32 (u32 (ptr_ch - ptr_src) - 1)).

(** ** Copies *)
Fixpoint do_string_split_loop (fuel : nat) (m : mem) (ptr_buf ptr_ch : Z) : res mem :=
  if m ptr_ch =? 0 then Ok m
  else match fuel with
       | O => Spin
       | S fuel => do_string_split_loop fuel (st m ptr_buf (m ptr_ch)) (ptr_buf + 1) (ptr_ch + 1)
       end.
Definition do_string_split (fuel : nat) (m : mem) (ptr_dst offset ptr_src : Z) : res mem :=
  do_string_split_loop fuel m (ptr_dst + offset) ptr_src.

(** A [do ... while] loop: the first byte is copied before the test. *)
Fixpoint do_string_copy_loop (fuel : nat) (m : mem) (ptr_buf ptr_ch : Z) : res mem :=
  match fuel with
  | O => Spin
  | S fuel =>
      let m := st m ptr_buf (m ptr_ch) in
      if m (ptr_ch + 1) =? 0 then Ok m else do_string_copy_loop fuel m (ptr_buf + 1) (ptr_ch + 1)
  end.
Definition do_string_copy (fuel : nat) (m : mem) (ptr_dst ptr_src : Z) : res (Z * mem) :=
  m ← do_string_copy_loop fuel m ptr_dst ptr_src; Ok (ptr_dst, m).

(** The counted loops run on [size] itself. *)
Fixpoint do_string_n_copy_loop (size : nat) (m : mem) (ptr_buf ptr_ch : Z) : mem :=
  if m ptr_ch =? 0 then m
  else match size with
       | O => m
       | S size => do_string_n_copy_loop size (st m ptr_buf (m ptr_ch)) (ptr_buf + 1) (ptr_ch + 1)
       end.
Definition do_string_n_copy (m : mem) (ptr_dst ptr_src size : Z) : Z * mem :=
  (ptr_dst, do_string_n_copy_loop (Z.to_nat size) m ptr_dst ptr_src).

Fixpoint do_string_n_copy_rev_loop (size : nat) (m : mem) (ptr_buf ptr_ch : Z) : mem :=
  match size with
  | O => m
  | S size => do_string_n_copy_rev_loop size (st m ptr_buf (m ptr_ch)) (ptr_buf - 1) (ptr_ch - 1)
  end.
Definition do_string_n_copy_rev (m : mem) (ptr_dst ptr_src size : Z) : Z * mem :=
  (ptr_dst, do_string_n_copy_rev_loop (Z.to_nat size) m (ptr_dst + size - 1) (ptr_src + size - 1)).

Fixpoint do_string_n_copy_safe_loop (size : nat) (m : mem) (ptr_buf ptr_ch : Z) : mem :=
  if m ptr_ch =? 0 then m
  else match size with
       | O => m
       | S size =>
           match size with
           | O => st m ptr_buf 0
           | S _ => do_string_n_copy_safe_loop size (st m ptr_buf (m ptr_ch)) (ptr_buf + 1) (ptr_ch + 1)
           end
       end.
Definition do_string_n_copy_safe (fuel : nat) (m : mem) (ptr_dst ptr_src size : Z) : res (Z * mem) :=
  lenth ← get_string_lenth fuel m ptr_src;
  Ok (lenth, do_string_n_copy_safe_loop (Z.to_nat size) m ptr_dst ptr_src).

(** ** Comparisons: [true] means different *)
Fixpoint do_string_compare_loop (fuel : nat) (m : mem) (ptr_buf ptr_ch : Z) : res bool :=
  match fuel with
  | O => Spin
  | S fuel =>
      if negb (m ptr_buf =? m ptr_ch) then Ok true
      else if m (ptr_ch + 1) =? 0 then Ok false
      else do_string_compare_loop fuel m (ptr_buf + 1) (ptr_ch + 1)
  end.
Definition do_string_compare (fuel : nat) (m : mem) (ptr_dst ptr_src : Z) : res bool :=
  do_string_compare_loop fuel m ptr_dst ptr_src.

Fixpoint do_string_n_compare_loop (size : nat) (m : mem) (ptr_buf ptr_ch : Z) : bool :=
  match size with
  | O => false
  | S size =>
      if negb (m ptr_buf =? m ptr_ch) then true
      else if m (ptr_ch + 1) =? 0 then false
      else do_string_n_compare_loop size m (ptr_buf + 1) (ptr_ch + 1)
  end.
Definition do_string_n_compare (m : mem) (ptr_dst ptr_src size : Z) : bool :=
  if size =? 0 then true else do_string_n_compare_loop (Z.to_nat size) m ptr_dst ptr_src.

(** ** Reversal and numbers *)
Fixpoint do_string_reverse_loop (fuel : nat) (m : mem) (ptr_head ptr_tail : Z) : res mem :=
  if ptr_head <? ptr_tail then
    match fuel with
    | O => Spin
    | S fuel =>
        let ch := m ptr_head in
        let m := st m ptr_head (m ptr_tail) in
        do_string_reverse_loop fuel (st m ptr_tail ch) (ptr_head + 1) (ptr_tail - 1)
    end
  else Ok m.
Definition do_string_reverse (fuel : nat) (m : mem) (ptr_src size : Z) : res mem :=
  n ← (if negb (size =? 0) then Ok size else get_string_lenth fuel m ptr_src);
  let ptr_tail := ptr_src + n in
  if u32 (ptr_tail - ptr_src) <=? 1 then Ok m
  else do_string_reverse_loop fuel m ptr_src (ptr_tail - 1).

Fixpoint number_loop (fuel : nat) (m : mem) (ptr_dst ptr_buf value num lenth : Z) : res (Z * mem) :=
  match fuel with
  | O => Spin
  | S fuel =>
      let num := num / 10 in
      let lenth := u32 (lenth + 1) in
      let '(m, ptr_buf, value) :=
        if isValid ptr_dst
        then (st m ptr_buf (u8 (u64 (value - u64 (u64 (Z.shiftl num 1) + u64 (Z.shiftl num 3))) + 48)), ptr_buf + 1, value / 10)
        else (m, ptr_buf, value) in
      if num =? 0 then Ok (lenth, m) else number_loop fuel m ptr_dst ptr_buf value num lenth
  end.
Definition convert_number_to_string (m : mem) (ptr_dst value : Z) : res (Z * mem) :=
  '(lenth, m) ← number_loop 20 m ptr_dst ptr_dst value value 0;
  m ← (if isValid ptr_dst then do_string_reverse 20 m ptr_dst lenth else Ok m);
  Ok (lenth, m).

(** ** Searches *)
Fixpoint seek_char_in_string (fuel : nat) (m : mem) (ptr_ch ch : Z) : res Z :=
  if m ptr_ch =? 0 then Ok nullptr
  else match fuel with
       | O => Spin
       | S fuel => if ch =? m ptr_ch then Ok ptr_ch else seek_char_in_string fuel m (ptr_ch + 1) ch
       end.
Fixpoint seek_pos_loop (fuel : nat) (m : mem) (ptr_ch ptr_end : Z) : res Z :=
  if m ptr_ch =? 0 then Ok nullptr
  else match fuel with
       | O => Spin
       | S fuel => if ptr_ch =? ptr_end then Ok ptr_ch else seek_pos_loop fuel m (ptr_ch + 1) ptr_end
       end.
Definition seek_char_by_pos (fuel : nat) (m : mem) (ptr_src index : Z) : res Z :=
  seek_pos_loop fuel m ptr_src (ptr_src + index).

(** ** Formatted output *)

(** The variables of [do_fmt_convert]: position in the format, write pointer,
    length so far, remaining arguments, memory. *)
Record fmt_state := Fmt { f_i : Z; f_data : Z; f_lenth : Z; f_list : list Z; f_mem : mem }.

(** [va_arg]: taking an argument that was not passed has no meaning. *)
Definition va_arg (l : list Z) : res (Z * list Z) :=
  match l with
  | [] => Fault
  | x :: l => Ok (x, l)
  end.

(** One character: at the limit nothing happens. *)
Definition fmt_char (ptr_buf size ch : Z) (s : fmt_state) : fmt_state :=
  if size <? u32 (f_lenth s + 1) then s
  else
    let '(d, m) := if isValid ptr_buf then (f_data s + 1, st (f_mem s) (f_data s) ch) else (f_data s, f_mem s) in
    Fmt (f_i s) d (u32 (f_lenth s + 1)) (f_list s) m.

Definition fmt_adv (k : Z) (s : fmt_state) : fmt_state := Fmt (f_i s + k) (f_data s) (f_lenth s) (f_list s) (f_mem s).
Definition fmt_list (l : list Z) (s : fmt_state) : fmt_state := Fmt (f_i s) (f_data s) (f_lenth s) l (f_mem s).

(** [count] characters that are in memory at [data] already. *)
Definition fmt_took (ptr_buf count : Z) (m : mem) (s : fmt_state) : fmt_state :=
  Fmt (f_i s) (if isValid ptr_buf then f_data s + count else f_data s) (u32 (f_lenth s + count)) (f_list s) m.

(** The [%] character kept as it is; the next character is looked at again. *)
Definition fmt_percent (ptr_buf size : Z) (s : fmt_state) : fmt_state :=
  if size <? u32 (f_lenth s + 1) then s else fmt_adv (-1) (fmt_char ptr_buf size 37 s).

(** The [switch] over the character after [%], at [f_i s]. *)
Definition fmt_spec (fuel : nat) (ptr_buf ptr_fmt size : Z) (s : fmt_state) : res fmt_state :=
  let ch := f_mem s (ptr_fmt + f_i s) in
  if ch =? 99 (* c *) then
    '(v, l) ← va_arg (f_list s);
    Ok (fmt_char ptr_buf size (u8 v) (fmt_list l s))
  else if ch =? 100 (* d *) then
    '(v, l) ← va_arg (f_list s);
    let s := fmt_list l s in
    let num := u32 v in
    '(count, m) ← convert_number_to_string (f_mem s) nullptr num;
    if size <? u32 (f_lenth s + count) then Ok s
    else '(_, m) ← convert_number_to_string m (f_data s) num; Ok (fmt_took ptr_buf count m s)
  else if ch =? 108 (* l *) then
    if f_mem s (ptr_fmt + f_i s + 1) =? 100 then
      '(v, l) ← va_arg (f_list s);
      let s := fmt_list l s in
      let num := u64 v in
      '(count, m) ← convert_number_to_string (f_mem s) nullptr num;
      if size <? u32 (f_lenth s + count) then Ok s
      else
        '(_, m) ← (if isValid ptr_buf then convert_number_to_string m (f_data s) num else Ok (count, m));
        Ok (fmt_adv 1 (fmt_took ptr_buf count m s))
    else Ok (fmt_percent ptr_buf size s)
  else if ch =? 115 (* s *) then
    '(ptr_args, l) ← va_arg (f_list s);
    let s := fmt_list l s in
    count ← get_string_lenth fuel (f_mem s) ptr_args;
    if size <? u32 (f_lenth s + count) then Ok s
    else
      m ← (if isValid ptr_buf then do_string_split fuel (f_mem s) (f_data s) 0 ptr_args else Ok (f_mem s));
      Ok (fmt_took ptr_buf count m s)
  else if (ch =? 120) || (ch =? 112) (* x, p *) then
    '(v, l) ← va_arg (f_list s);
    let s := fmt_list l s in
    let num := u32 v in
    let '(count, m) := dec_to_hex (f_mem s) nullptr num false in
    if size <? u32 (f_lenth s + count) then Ok s
    else let '(_, m) := dec_to_hex m (f_data s) num false in Ok (fmt_took ptr_buf count m s)
  else if ch =? 98 (* b *) then
    '(v, l) ← va_arg (f_list s);
    let s := fmt_list l s in
    let num := u32 v in
    let '(count, m) := dec_to_binary (f_mem s) nullptr num in
    if size <? u32 (f_lenth s + count) then Ok s
    else let '(_, m) := dec_to_binary m (f_data s) num in Ok (fmt_took ptr_buf count m s)
  else Ok (fmt_percent ptr_buf size s).

(** The [for] loop; a level prefix at the start is taken off first. *)
Fixpoint fmt_loop (fuel sfuel : nat) (ptr_buf ptr_level ptr_fmt size : Z) (s : fmt_state) : res fmt_state :=
  match fuel with
  | O => Spin
  | S fuel =>
      let ch := f_mem s (ptr_fmt + f_i s) in
      if ch =? 0 then Ok s
      else if (f_i s =? 0) && (ch =? 1) then
        let s := fmt_adv 1 s in
        let m := if negb (ptr_level =? 0)
                 then let m := st (f_mem s) ptr_level 1 in st m (ptr_level + 1) (m (ptr_fmt + f_i s))
                 else f_mem s in
        fmt_loop fuel sfuel ptr_buf ptr_level ptr_fmt size (fmt_adv 1 (Fmt (f_i s) (f_data s) (f_lenth s) (f_list s) m))
      else if negb (ch =? 37) then
        if size <? u32 (f_lenth s + 1) then Ok s
        else fmt_loop fuel sfuel ptr_buf ptr_level ptr_fmt size (fmt_adv 1 (fmt_char ptr_buf size ch s))
      else
        s ← fmt_spec sfuel ptr_buf ptr_fmt size (fmt_adv 1 s);
        fmt_loop fuel sfuel ptr_buf ptr_level ptr_fmt size (fmt_adv 1 s)
  end.

Definition do_fmt_convert (fuel : nat) (m : mem) (ptr_buf ptr_level ptr_fmt : Z) (ptr_list : list Z) (size : Z) : res (Z * mem) :=
  if size <? 1 then Ok (0, m)
  else
    s ← fmt_loop fuel fuel ptr_buf ptr_level ptr_fmt (size - 1) (Fmt 0 ptr_buf 0 ptr_list m);
    Ok (f_lenth s, if isValid ptr_buf then st (f_mem s) (f_data s) 0 else f_mem s).

Definition SIZE_MAX : Z := W32 - 1.

Definition vasprintk (fuel : nat) (m : mem) (ptr_buf ptr_fmt : Z) (l : list Z) : res (Z * mem) :=
  '(size, m) ← do_fmt_convert fuel m ptr_buf nullptr ptr_fmt l SIZE_MAX; Ok (s32 size, m).
Definition sprintk (fuel : nat) (m : mem) (ptr_buf ptr_fmt : Z) (l : list Z) : res (Z * mem) :=
  '(size, m) ← do_fmt_convert fuel m ptr_buf nullptr ptr_fmt l SIZE_MAX; Ok (s32 size, m).

(** The allocating variants measure, allocate and convert again. *)
Section alloc.
Context (kmalloc : Z -> mem -> Z * mem) (kfree : Z -> mem -> mem).

Definition sprintk_alloc (fuel : nat) (m : mem) (ptr_lv ptr_fmt : Z) (l : list Z) : res (Z * Z * mem) :=
  if ptr_fmt =? 0 then Ok (nullptr, 0, m)
  else
    '(lenth, m) ← do_fmt_convert fuel m nullptr nullptr ptr_fmt l SIZE_MAX;
    let '(ptr, m) := kmalloc (u32 (lenth + 1)) m in
    if negb (isValid ptr) then Ok (nullptr, 0, m)
    else
      '(_, m) ← do_fmt_convert fuel m ptr ptr_lv ptr_fmt l (u32 (lenth + 1));
      Ok (ptr, lenth, m).
Definition sprintk_safe (fuel : nat) (m : mem) (ptr_fmt : Z) (l : list Z) : res (Z * mem) :=
  '(ptr, _, m) ← sprintk_alloc fuel m nullptr ptr_fmt l; Ok (ptr, m).

(** [size] is null or the address of the word that gets the length; a null
    result leaves it alone. *)
Definition vasprintk_safe (fuel : nat) (m : mem) (ptr_fmt size : Z) (l : list Z) : res (Z * mem) :=
  '(ptr, lenth, m) ← sprintk_alloc fuel m nullptr ptr_fmt l;
  Ok (ptr, if (ptr =? 0) || (size =? 0) then m else st m size lenth).
Definition lv_vasprintk_safe (fuel : nat) (m : mem) (ptr_fmt size ptr_lv : Z) (l : list Z) : res (Z * mem) :=
  '(ptr, lenth, m) ← sprintk_alloc fuel m ptr_lv ptr_fmt l;
  Ok (ptr, if (ptr =? 0) || (size =? 0) then m else st m size lenth).
Definition fmt_free (ptr : Z) (m : mem) : mem := if ptr =? 0 then m else kfree ptr m.
End alloc.

(** ** The names other components use *)
Definition kstrlen := get_string_lenth.
Definition kstrcpy := do_string_copy.
Definition kstrncpy := do_string_n_copy.
Definition kstrlcpy := do_string_n_copy_safe.
Definition kstrncpyr := do_string_n_copy_rev.
Definition kstrcmp (fuel : nat) (m : mem) (s1 s2 : Z) : res Z := b ← do_string_compare fuel m s1 s2; Ok (if (b : bool) then 1 else 0).
Definition kstrncmp (m : mem) (s1 s2 n : Z) : Z := if do_string_n_compare m s1 s2 n then 1 else 0.
Definition kstrchr := seek_char_in_string.
Definition kstrcat := seek_char_by_pos.
