(* ===== verification/KStringSpec.v ===== *)
(** * What the string routines do

    Each routine against the sequence of bytes it is about; then
    [do_fmt_convert] against [render], the text a format and its arguments
    stand for, and the allocating printers built on it. *)

From stdpp Require Import prelude gmap fin_maps sorting.
From S2P Require Import Prelude Mem Bytes Sync Generic KString.

(** ** Writing a run *)

(** [m'] is [m] with the run [l] at [p]. *)
Definition wrote (m m' : mem) (p : Z) (l : list Z) : Prop :=
  bytes_at m' p l /\ forall a, a < p \/ p + len l <= a -> m' a = m a.

Lemma wrote_nil m p : wrote m m p [].
Proof. done. Qed.
Lemma wrote_st_list m p l : wrote m (st_list m p l) p l.
Proof. split; [apply st_list_read|]. intros a. apply st_list_out. Qed.
Lemma wrote_app m m1 m2 p l k : wrote m m1 p l -> wrote m1 m2 (p + len l) k -> wrote m m2 p (l ++ k).
Proof.
  intros [H1 O1] [H2 O2]. pose proof (len_nonneg l). pose proof (len_nonneg k). split.
  - apply bytes_at_app. split; [|done]. eapply bytes_at_agree; [|done]. intros a Ha. apply O2. lia.
  - intros a. rewrite len_app. intros Ha. rewrite O2, O1; [done|lia..].
Qed.
Lemma wrote_st m p x : wrote m (st m p x) p [x].
Proof. apply (wrote_st_list m p [x]). Qed.
Lemma wrote_cstr m m' p l q s :
  wrote m m' p l -> q + len s < p \/ p + len l <= q -> cstr m q s -> cstr m' q s.
Proof. intros [_ Ho] Hd. apply cstr_agree. intros a Ha. apply Ho. pose proof (len_nonneg l). lia. Qed.

(** ** Lengths and copies *)
Lemma string_end_spec m p s fuel : cstr m p s -> (length s < fuel)%nat -> string_end fuel m p = Ok (p + len s + 1).
Proof.
  revert p fuel. induction s as [|x s IH]; intros p fuel Hs Hf; (destruct fuel; simpl in Hf; [lia|]); simpl.
  - apply cstr_nil in Hs. rewrite Hs, len_nil. simpl. f_equal. lia.
  - apply cstr_cons in Hs as (Hx & Hc & Hs). rewrite (proj2 (Z.eqb_neq _ _)) by (unfold char in Hc; lia).
    rewrite IH by (done || lia). rewrite len_cons. f_equal. lia.
Qed.
Lemma string_lenth_spec m p s fuel :
  cstr m p s -> (length s < fuel)%nat -> get_string_lenth fuel m p = Ok (u32 (len s)).
Proof.
  intros Hs Hf. unfold get_string_lenth. rewrite (string_end_spec m p s fuel Hs Hf). simpl. f_equal.
  unfold u32. rewrite Zminus_mod_idemp_l. f_equal. lia.
Qed.

(** Source and destination runs that do not overlap. *)
Definition apart (p n q k : Z) : Prop := p + n <= q \/ q + k <= p.

Lemma split_spec m p s fuel dst :
  cstr m p s -> (length s <= fuel)%nat -> apart dst (len s) p (len s + 1) ->
  do_string_split_loop fuel m dst p = Ok (st_list m dst s).
Proof.
  revert m p fuel dst. induction s as [|x s IH]; intros m p fuel dst Hs Hf Hd; destruct fuel; simpl in *; try lia.
  - apply cstr_nil in Hs. by rewrite Hs.
  - apply cstr_nil in Hs. by rewrite Hs.
  - pose proof Hs as (Hx & Hc & Hs')%cstr_cons. unfold apart in *. rewrite !len_cons in *. pose proof (len_nonneg s).
    rewrite (proj2 (Z.eqb_neq _ _)) by (unfold char in Hc; lia). rewrite Hx. apply IH; [|lia|lia].
    eapply cstr_agree; [|done]. intros a Ha. apply st_ne. lia.
Qed.

(** [do_string_copy] copies a non-empty string without its terminator. *)
Lemma copy_spec m p x s fuel dst :
  cstr m p (x :: s) -> (length s < fuel)%nat -> apart dst (len s + 1) p (len s + 2) ->
  do_string_copy_loop fuel m dst p = Ok (st_list m dst (x :: s)).
Proof.
  revert m p x fuel dst. induction s as [|y s IH]; intros m p x fuel dst Hs Hf Hd; (destruct fuel; simpl in Hf; [lia|]);
    apply cstr_cons in Hs as (Hx & Hc & Hs); unfold apart in *; rewrite ?len_cons, ?len_nil in *; simpl.
  - apply cstr_nil in Hs. rewrite st_ne by lia. by rewrite Hs, Hx.
  - pose proof (len_nonneg s). pose proof Hs as (Hy & Hcy & _)%cstr_cons. rewrite st_ne by lia.
    rewrite (proj2 (Z.eqb_neq _ _)) by (unfold char in Hcy; lia). rewrite Hx. apply IH; [|lia|lia].
    eapply cstr_agree; [|done]. intros a Ha. rewrite len_cons in Ha. apply st_ne. lia.
Qed.

Lemma n_copy_spec m p s n dst :
  cstr m p s -> apart dst (len (take n s)) p (len s + 1) ->
  do_string_n_copy_loop n m dst p = st_list m dst (take n s).
Proof.
  revert m p n dst. induction s as [|x s IH]; intros m p n dst Hs Hd; destruct n; simpl in *.
  1, 2: apply cstr_nil in Hs; by rewrite Hs.
  { by destruct (m p =? 0). }
  apply cstr_cons in Hs as (Hx & Hc & Hs). rewrite (proj2 (Z.eqb_neq _ _)) by (unfold char in Hc; lia).
  unfold apart in *. rewrite !len_cons in *. pose proof (len_nonneg (take n s)). pose proof (len_nonneg s).
  rewrite Hx. apply IH; [|lia]. eapply cstr_agree; [|done]. intros a Ha. apply st_ne. lia.
Qed.

(** [do_string_n_copy_safe]: a string of [size] bytes or more is cut and
    terminated; a shorter one is copied without a terminator. *)
Lemma n_copy_safe_spec m p s n dst :
  cstr m p s -> (0 < n)%nat -> apart dst (Z.of_nat n) p (len s + 1) ->
  do_string_n_copy_safe_loop n m dst p = st_list m dst (if decide (n <= length s)%nat then take (n - 1) s ++ [0] else s).
Proof.
  revert m p n dst. induction s as [|x s IH]; intros m p n dst Hs Hn Hd; (destruct n as [|n]; [lia|]).
  { apply cstr_nil in Hs. simpl. by rewrite Hs. }
  apply cstr_cons in Hs as (Hx & Hc & Hs). unfold apart in *. rewrite !len_cons in *. pose proof (len_nonneg s).
  destruct n as [|n].
  - simpl. rewrite (proj2 (Z.eqb_neq _ _)) by (unfold char in Hc; lia). done.
  - remember (S n) as k eqn:Ek. cbn [do_string_n_copy_safe_loop]. rewrite (proj2 (Z.eqb_neq _ _)) by (unfold char in Hc; lia).
    rewrite Ek at 1. rewrite IH; [|eapply cstr_agree; [|done]; intros a Ha; apply st_ne; lia|lia|lia].
    rewrite Hx. cbn [length]. destruct (decide (k <= length s)%nat), (decide (S k <= S (length s))%nat); try lia; [|done].
    replace (S k - 1)%nat with (S (k - 1)) by lia. done.
Qed.

(** [do_string_n_copy_rev] moves a run upwards, overlapping or not. *)
Lemma n_copy_rev_spec n m dst src :
  src <= dst ->
  exists m', do_string_n_copy_rev_loop n m (dst + Z.of_nat n - 1) (src + Z.of_nat n - 1) = m' /\
    (forall k, 0 <= k < Z.of_nat n -> m' (dst + k) = m (src + k)) /\
    (forall a, a < dst \/ dst + Z.of_nat n <= a -> m' a = m a).
Proof.
  intros Hle. revert m. induction n as [|n IH]; intros m; [exists m; split_and!; [done|lia|done]|].
  cbn [do_string_n_copy_rev_loop].
  replace (dst + Z.of_nat (S n) - 1 - 1) with (dst + Z.of_nat n - 1) by lia.
  replace (src + Z.of_nat (S n) - 1 - 1) with (src + Z.of_nat n - 1) by lia.
  replace (dst + Z.of_nat (S n) - 1) with (dst + Z.of_nat n) by lia.
  replace (src + Z.of_nat (S n) - 1) with (src + Z.of_nat n) by lia.
  destruct (IH (st m (dst + Z.of_nat n) (m (src + Z.of_nat n)))) as (m' & E & H1 & H2). exists m'. split_and!; [done| |].
  - intros k Hk. destruct (decide (k = Z.of_nat n)) as [->|].
    + rewrite H2 by lia. apply st_eq.
    + rewrite H1 by lia. apply st_ne. lia.
  - intros a Ha. rewrite H2 by lia. apply st_ne. lia.
Qed.

(** ** Comparison *)
Lemma compare_spec m p s q x t fuel :
  cstr m p s -> cstr m q (x :: t) -> (length t < fuel)%nat ->
  exists r, do_string_compare_loop fuel m p q = Ok r /\ (r = false <-> (x :: t) `prefix_of` s).
Proof.
  revert p s q x fuel. induction t as [|y t IH]; intros p s q x fuel Hs Ht Hf; (destruct fuel; simpl in Hf; [lia|]); simpl;
    apply cstr_cons in Ht as (Hx & Hc & Ht); rewrite Hx.
  all: destruct s as [|z s]; [apply cstr_nil in Hs; rewrite Hs, (proj2 (Z.eqb_neq _ _)) by (unfold char in Hc; lia); simpl;
         exists true; split; [done|]; split; [done|by intros ?%prefix_nil_inv]|].
  all: apply cstr_cons in Hs as (Hz & Hcz & Hs); rewrite Hz; destruct (Z.eqb_spec z x) as [->|Hne]; simpl;
         [|exists true; split; [done|]; split; [done|]; intros H; by apply prefix_cons_inv_1 in H as ->].
  - apply cstr_nil in Ht. rewrite Ht. simpl. exists false. split; [done|]. split; [|done]. intros _.
    apply prefix_cons, prefix_nil.
  - pose proof Ht as (Hy & Hcy & _)%cstr_cons. rewrite (proj2 (Z.eqb_neq _ _)) by (unfold char in Hcy; lia).
    destruct (IH (p + 1) s (q + 1) y fuel) as (r & -> & Hr); [done|done|lia|]. exists r. split; [done|]. rewrite Hr.
    split; [by apply prefix_cons|by intros ?%prefix_cons_inv_2].
Qed.

(** ** Reversal *)
Lemma reverse_loop_spec fuel m h t :
  (t - h <= 2 * Z.of_nat fuel) ->
  exists m', do_string_reverse_loop fuel m h t = Ok m' /\
    (forall a, h <= a <= t -> m' a = m (h + t - a)) /\ (forall a, a < h \/ t < a -> m' a = m a).
Proof.
  revert m h t. induction fuel as [|fuel IH]; intros m h t Hf; simpl; destruct (Z.ltb_spec h t) as [Hlt|Hge]; try lia.
  - exists m. split_and!; try done. intros a Ha. f_equal. lia.
  - destruct (IH (st (st m h (m t)) t (m h)) (h + 1) (t - 1)) as (m' & -> & H1 & H2); [lia|].
    exists m'. split_and!; [done| |].
    + intros a Ha. destruct (decide (a = h)) as [->|]; [|destruct (decide (a = t)) as [->|]].
      * rewrite H2 by lia. rewrite st_ne, st_eq by lia. f_equal. lia.
      * rewrite H2 by lia. rewrite st_eq. f_equal. lia.
      * rewrite H1 by lia. rewrite !st_ne by lia. f_equal. lia.
    + intros a Ha. rewrite H2 by lia. rewrite !st_ne by lia. done.
  - exists m. split_and!; try done. intros a Ha. f_equal. lia.
Qed.

Lemma bytes_at_intro m p l : (forall i x, l !! i = Some x -> m (p + Z.of_nat i) = x) -> bytes_at m p l.
Proof.
  revert p. induction l as [|x l IH]; intros p H; simpl; [done|]. split.
  - rewrite <- (H 0%nat x eq_refl). f_equal. lia.
  - apply IH. intros i y Hi. rewrite <- (H (S i) y Hi). f_equal. lia.
Qed.

Lemma reverse_spec fuel m p l :
  bytes_at m p l -> 0 < len l < W32 -> len l <= 2 * Z.of_nat fuel ->
  exists m', do_string_reverse fuel m p (len l) = Ok m' /\ wrote m m' p (reverse l).
Proof.
  intros Hb Hl Hf. unfold do_string_reverse. rewrite (proj2 (Z.eqb_neq _ _)) by lia. simpl.
  replace (p + len l - p) with (len l) by lia. rewrite u32_id by lia. destruct (Z.leb_spec (len l) 1) as [H1|H1].
  - exists m. split; [done|]. unfold len in *. destruct l as [|x [|y l]]; simpl in *; try lia. done.
  - destruct (reverse_loop_spec fuel m p (p + len l - 1)) as (m' & -> & Hin & Hout); [lia|].
    exists m'. split; [done|]. split; [|intros a Ha; rewrite len_reverse in Ha; apply Hout; lia].
    apply bytes_at_intro. intros i x Hi. pose proof (lookup_lt_Some _ _ _ Hi) as Hlt. rewrite length_reverse in Hlt.
    rewrite reverse_lookup in Hi by done. unfold len in *. rewrite Hin by lia.
    rewrite <- (bytes_at_lookup _ _ _ _ _ Hb Hi). f_equal. lia.
Qed.

(** ** Numbers *)
Lemma u64_id z : 0 <= z < W64 -> u64 z = z.
Proof. apply Z.mod_small. Qed.

Lemma digit_store num : 0 <= num < W64 ->
  u8 (u64 (num - u64 (u64 (Z.shiftl (num / 10) 1) + u64 (Z.shiftl (num / 10) 3))) + 48) = dec_char (num mod 10).
Proof.
  intros H. pose proof (Z.div_mod num 10). pose proof (Z.mod_pos_bound num 10). assert (0 <= num / 10) by (apply Z.div_pos; lia).
  rewrite !Z.shiftl_mul_pow2 by lia. change (2 ^ 1) with 2. change (2 ^ 3) with 8.
  rewrite !(u64_id (num / 10 * _)) by (unfold W64 in *; lia). rewrite !u64_id by (rewrite ?u64_id; unfold W64 in *; lia).
  unfold dec_char. rewrite u8_id; lia.
Qed.

Lemma number_loop_valid fuel m dst buf v l :
  isValid dst = true -> 0 <= v < W64 -> 0 <= v < 10 ^ Z.of_nat fuel -> (0 < fuel)%nat -> 0 <= l -> l + Z.of_nat fuel < W32 ->
  number_loop fuel m dst buf v v l = Ok (l + len (digits fuel 10 v), st_list m buf (dec_char <$> digits fuel 10 v)).
Proof.
  intros Hd. revert m buf v l. induction fuel as [|fuel IH]; intros m buf v l Hv Hv2 Hf Hl Hlf; [lia|].
  rewrite digits_S. cbn [number_loop fmap list_fmap st_list]. rewrite Hd, digit_store by done. rewrite u32_id by lia.
  destruct (Z.eqb_spec (v / 10) 0) as [E|E]; [by rewrite !len_cons, len_nil|].
  assert (0 <= v / 10) by (apply Z.div_pos; lia). pose proof (Z.div_mod v 10). pose proof (Z.mod_pos_bound v 10).
  assert (v / 10 < 10 ^ Z.of_nat fuel) as Hlt.
  { apply Z.div_lt_upper_bound; [lia|]. rewrite <- Z.pow_succ_r by lia. replace (Z.succ (Z.of_nat fuel)) with (Z.of_nat (S fuel)) by lia. lia. }
  assert (0 < fuel)%nat by (destruct fuel; [simpl in Hlt; lia|lia]).
  rewrite IH by lia. rewrite len_cons. f_equal. f_equal. lia.
Qed.

Lemma number_loop_invalid fuel m dst buf v v' l :
  isValid dst = false -> 0 <= v < 10 ^ Z.of_nat fuel -> (0 < fuel)%nat -> 0 <= l -> l + Z.of_nat fuel < W32 ->
  number_loop fuel m dst buf v' v l = Ok (l + len (digits fuel 10 v), m).
Proof.
  intros Hd. revert v l. induction fuel as [|fuel IH]; intros v l Hv Hf Hl Hlf; [lia|].
  rewrite digits_S. cbn [number_loop]. rewrite Hd. rewrite u32_id by lia.
  destruct (Z.eqb_spec (v / 10) 0) as [E|E]; [by rewrite len_cons, len_nil|].
  assert (0 <= v / 10) by (apply Z.div_pos; lia). pose proof (Z.div_mod v 10). pose proof (Z.mod_pos_bound v 10).
  assert (v / 10 < 10 ^ Z.of_nat fuel) as Hlt.
  { apply Z.div_lt_upper_bound; [lia|]. rewrite <- Z.pow_succ_r by lia. replace (Z.succ (Z.of_nat fuel)) with (Z.of_nat (S fuel)) by lia. lia. }
  assert (0 < fuel)%nat by (destruct fuel; [simpl in Hlt; lia|lia]).
  rewrite IH by lia. rewrite len_cons. f_equal. f_equal. lia.
Qed.

Lemma len_fmap (f : Z -> Z) l : len (f <$> l) = len l.
Proof. unfold len. by rewrite length_fmap. Qed.
Lemma len_dec_text v : len (dec_text v) = len (digits 20 10 v).
Proof. unfold dec_text. by rewrite len_reverse, len_fmap. Qed.
Lemma dec_text_len v : 0 <= v < W64 -> 0 < len (dec_text v) <= 20.
Proof.
  intros Hv. rewrite len_dec_text. destruct (digits_spec 20 10 v) as (_ & _ & Hl); [lia|unfold W64 in Hv; change (10 ^ Z.of_nat 20) with 100000000000000000000; lia|lia|].
  unfold len. lia.
Qed.

Lemma convert_number_spec m dst v :
  0 <= v < W64 ->
  exists m', convert_number_to_string m dst v = Ok (len (dec_text v), m') /\
    if isValid dst then wrote m m' dst (dec_text v) else m' = m.
Proof.
  intros Hv. unfold convert_number_to_string.
  assert (0 <= v < 10 ^ Z.of_nat 20) as Hv2 by (unfold W64 in Hv; change (10 ^ Z.of_nat 20) with 100000000000000000000; lia).
  pose proof (dec_text_len v Hv) as Hl. rewrite len_dec_text in *.
  destruct (isValid dst) eqn:Hd.
  - rewrite (number_loop_valid 20 m dst dst v 0) by (done || lia). cbn [mbind res_bind].
    destruct (reverse_spec 20 (st_list m dst (dec_char <$> digits 20 10 v)) dst (dec_char <$> digits 20 10 v)) as (m' & E & W).
    { apply st_list_read. }
    { rewrite len_fmap. unfold W32. lia. }
    { rewrite len_fmap. lia. }
    rewrite len_fmap in E. rewrite Z.add_0_l, E. simpl. exists m'. split; [done|]. destruct W as [W1 W2]. split; [done|].
    intros a Ha. rewrite W2 by done. apply st_list_out. rewrite len_dec_text in Ha. by rewrite len_fmap.
  - rewrite (number_loop_invalid 20 m dst dst v v 0) by (done || lia). simpl. by exists m.
Qed.

(** ** Formatted output *)

(** The text of one argument under a conversion character; [str] gives the
    strings that [%s] arguments point to. *)
Definition arg_text (str : Z -> option (list Z)) (k v : Z) : option (list Z) :=
  if k =? 99 then Some [u8 v]
  else if k =? 100 then Some (dec_text (u32 v))
  else if k =? 115 then str v
  else if (k =? 120) || (k =? 112) then Some (hex_text false (u32 v))
  else if k =? 98 then Some (bin_text (u32 v))
  else None.
Definition takes_arg (k : Z) : bool :=
  (k =? 99) || (k =? 100) || (k =? 115) || (k =? 120) || (k =? 112) || (k =? 98).

(** The text of a format within a limit of [lim] bytes, [used] of which are
    taken: a literal that does not fit ends the text, a conversion that does not
    fit is left out.  [None] where an argument is missing, and for a lone [%]
    at the end that does not fit, after which the code reads on. *)
Fixpoint render (str : Z -> option (list Z)) (lim used : Z) (fmt args : list Z) : option (list Z) :=
  match fmt with
  | [] => Some []
  | c :: tl =>
      if negb (c =? 37) then
        if lim <? u32 (used + 1) then Some [] else cons c <$> render str lim (u32 (used + 1)) tl args
      else
        match tl with
        | [] => if lim <? u32 (used + 1) then None else Some [37]
        | k :: tl' =>
            let percent := if lim <? u32 (used + 1) then render str lim used tl' args
                           else cons 37 <$> render str lim (u32 (used + 1)) tl args in
            if takes_arg k then
              match args with
              | [] => None
              | v :: args =>
                  t ← arg_text str k v;
                  if lim <? u32 (used + len t) then render str lim used tl' args
                  else app t <$> render str lim (u32 (used + len t)) tl' args
              end
            else if k =? 108 then
              match tl' with
              | d :: tl'' =>
                  if d =? 100 then
                    match args with
                    | [] => None
                    | v :: args =>
                        if lim <? u32 (used + len (dec_text (u64 v))) then render str lim used tl' args
                        else app (dec_text (u64 v)) <$> render str lim (u32 (used + len (dec_text (u64 v)))) tl'' args
                    end
                  else percent
              | [] => percent
              end
            else percent
        end
  end.

(** What has been put out so far. *)
Definition emitted (buf : Z) (m0 : mem) (s : fmt_state) (out : list Z) : Prop :=
  f_lenth s = u32 (len out) /\
  if isValid buf then f_data s = buf + len out /\ wrote m0 (f_mem s) buf out
  else f_data s = buf /\ f_mem s = m0.

Lemma u32_add_l a b : u32 (u32 a + b) = u32 (a + b).
Proof. unfold u32. apply Zplus_mod_idemp_l. Qed.
Lemma u32_add_r a b : u32 (a + u32 b) = u32 (a + b).
Proof. unfold u32. apply Zplus_mod_idemp_r. Qed.

Lemma emitted_took buf m0 s out t m' :
  emitted buf m0 s out -> (if isValid buf then wrote (f_mem s) m' (f_data s) t else m' = f_mem s) ->
  emitted buf m0 (fmt_took buf (len t) m' s) (out ++ t).
Proof.
  intros [Hl He] Hw. unfold emitted, fmt_took. simpl. rewrite Hl, u32_add_l, len_app. split; [done|].
  destruct (isValid buf); simpl in *.
  - destruct He as [Hd Hm]. rewrite Hd in *. split; [lia|]. by eapply wrote_app.
  - destruct He as [Hd Hm]. split; [done|]. by rewrite Hw.
Qed.
Lemma emitted_char buf m0 s out lim ch :
  emitted buf m0 s out -> lim <? u32 (f_lenth s + 1) = false ->
  emitted buf m0 (fmt_char buf lim ch s) (out ++ [ch]).
Proof.
  intros He Hf. unfold fmt_char. rewrite Hf.
  pose proof (emitted_took buf m0 s out [ch] (if isValid buf then st (f_mem s) (f_data s) ch else f_mem s) He) as H.
  destruct (isValid buf) eqn:Hb.
  - assert (emitted buf m0 (fmt_took buf (len [ch]) (st (f_mem s) (f_data s) ch) s) (out ++ [ch])) as H' by (apply H, wrote_st).
    unfold fmt_took in H'. by rewrite Hb in H'.
  - assert (emitted buf m0 (fmt_took buf (len [ch]) (f_mem s) s) (out ++ [ch])) as H' by (by apply H).
    unfold fmt_took in H'. by rewrite Hb in H'.
Qed.
Lemma emitted_adv buf m0 s out k : emitted buf m0 (fmt_adv k s) out <-> emitted buf m0 s out.
Proof. done. Qed.
Lemma emitted_list buf m0 s out l : emitted buf m0 (fmt_list l s) out <-> emitted buf m0 s out.
Proof. done. Qed.

Section convert.
Context (str : Z -> option (list Z)) (m0 : mem) (sfuel : nat) (buf pf lim cap : Z).

(** The buffer is null, or [cap] bytes apart from the strings that are read. *)
Record fmt_env (F : list Z) : Prop := {
  env_fmt : cstr m0 pf F;
  env_str a t : str a = Some t -> cstr m0 a t /\ (length t < sfuel)%nat /\ len t < W32;
  env_null : isValid buf = false -> buf = nullptr;
  env_buf : isValid buf = true -> 0 < buf /\ buf + cap < W32 - 4096;
  env_fmt_apart : isValid buf = true -> apart buf cap pf (len F + 1);
  env_str_apart a t : isValid buf = true -> str a = Some t -> apart buf cap a (len t + 1);
}.

Definition room (out : list Z) : Prop := isValid buf = true -> len out <= cap.

Context (F : list Z) (E : fmt_env F).

Lemma emitted_reads s out q t :
  emitted buf m0 s out -> room out -> (isValid buf = true -> apart buf cap q (len t + 1)) -> cstr m0 q t -> cstr (f_mem s) q t.
Proof.
  intros [_ He] Hr Ha Hc. unfold room in Hr. destruct (isValid buf).
  - destruct He as [_ Hw]. eapply wrote_cstr; [done| |done]. unfold apart in Ha. specialize (Hr eq_refl). specialize (Ha eq_refl). lia.
  - by destruct He as [_ ->].
Qed.

Lemma emitted_data s out : emitted buf m0 s out -> room out -> isValid (f_data s) = isValid buf.
Proof using E.
  intros [_ He] Hr. unfold room in Hr. destruct (isValid buf) eqn:Hb.
  - destruct He as [-> _]. pose proof (env_buf _ E Hb). specialize (Hr eq_refl). pose proof (len_nonneg out). apply isValid_true. lia.
  - by destruct He as [-> _].
Qed.

Lemma emitted_data_null s out : emitted buf m0 s out -> room out -> (f_data s =? 0) = negb (isValid buf).
Proof using E.
  intros [_ He] Hr. unfold room in Hr. destruct (isValid buf) eqn:Hb.
  - destruct He as [-> _]. pose proof (env_buf _ E Hb). pose proof (len_nonneg out). apply Z.eqb_neq. lia.
  - destruct He as [-> _]. by rewrite (env_null _ E Hb).
Qed.

(** A conversion that knows its text. *)
Lemma took_spec (mk : res (Z * mem)) s out t :
  emitted buf m0 s out ->
  (lim <? u32 (f_lenth s + len t) = false ->
   exists m', mk = Ok (len t, m') /\ if isValid buf then wrote (f_mem s) m' (f_data s) t else m' = f_mem s) ->
  exists s', (if lim <? u32 (f_lenth s + len t) then Ok s else '(_, m) ← mk; Ok (fmt_took buf (len t) m s)) = Ok s' /\
    f_i s' = f_i s /\ f_list s' = f_list s /\
    emitted buf m0 s' (out ++ if lim <? u32 (f_lenth s + len t) then [] else t).
Proof.
  intros He Hmk. destruct (lim <? _).
  - exists s. rewrite app_nil_r. done.
  - destruct (Hmk eq_refl) as (m' & -> & Hw). simpl. eexists. split; [done|]. split_and!; [done|done|]. by apply emitted_took.
Qed.

Lemma number_mk s out v : emitted buf m0 s out -> room out -> 0 <= v < W64 ->
  exists m', convert_number_to_string (f_mem s) (f_data s) v = Ok (len (dec_text v), m') /\
    if isValid buf then wrote (f_mem s) m' (f_data s) (dec_text v) else m' = f_mem s.
Proof using E.
  intros He Hr Hv. destruct (convert_number_spec (f_mem s) (f_data s) v Hv) as (m' & -> & Hw).
  rewrite (emitted_data s out) in Hw by done. by exists m'.
Qed.
Lemma number_measure m v : 0 <= v < W64 -> convert_number_to_string m nullptr v = Ok (len (dec_text v), m).
Proof. intros Hv. destruct (convert_number_spec m nullptr v Hv) as (m' & -> & Hw). simpl in Hw. by rewrite Hw. Qed.

Lemma text_mk s out t : emitted buf m0 s out -> room out ->
  exists m', (Ok (len t, if f_data s =? 0 then f_mem s else st_list (f_mem s) (f_data s) t) : res (Z * mem)) = Ok (len t, m') /\
    if isValid buf then wrote (f_mem s) m' (f_data s) t else m' = f_mem s.
Proof using E.
  intros He Hr. eexists. split; [done|]. rewrite (emitted_data_null s out) by done.
  destruct (isValid buf); simpl; [apply wrote_st_list|done].
Qed.

Lemma string_measure s out a t : emitted buf m0 s out -> room out -> str a = Some t ->
  cstr (f_mem s) a t /\ get_string_lenth sfuel (f_mem s) a = Ok (len t).
Proof using E.
  intros He Hr Ha. destruct (env_str _ E a t Ha) as (Hc & Hf & Hl). pose proof (len_nonneg t).
  assert (cstr (f_mem s) a t) as Hcs by (eapply emitted_reads; try done; intros Hb; by eapply env_str_apart).
  split; [done|]. rewrite (string_lenth_spec _ _ t) by done. by rewrite u32_id by lia.
Qed.

Lemma string_mk s out a t : emitted buf m0 s out -> room (out ++ t) -> str a = Some t ->
  exists m', (m ← (if isValid buf then do_string_split sfuel (f_mem s) (f_data s) 0 a else Ok (f_mem s)); Ok (len t, m)) = Ok (len t, m') /\
    if isValid buf then wrote (f_mem s) m' (f_data s) t else m' = f_mem s.
Proof using E.
  intros He Hr Ha. pose proof (len_nonneg t). unfold room in Hr. rewrite len_app in Hr.
  assert (room out) as Hro by (intros Hb; specialize (Hr Hb); lia).
  destruct (string_measure s out a t He Hro Ha) as [Hcs _]. destruct (env_str _ E a t Ha) as (_ & Hf & _).
  destruct (isValid buf) eqn:Hb; [|by exists (f_mem s)].
  destruct He as [_ He]. rewrite Hb in He. destruct He as [Hd Hw]. pose proof (env_str_apart _ E a t Hb Ha) as Hap.
  unfold do_string_split. rewrite Z.add_0_r, Hd, (split_spec _ a t); [|done|lia|].
  - simpl. eexists. split; [done|]. apply wrote_st_list.
  - unfold apart in *. specialize (Hr eq_refl). pose proof (len_nonneg out). lia.
Qed.

(** The [switch] on a conversion that takes an argument. *)
Lemma spec_arg s out k v args t :
  f_mem s (pf + f_i s) = k -> takes_arg k = true -> f_list s = v :: args -> arg_text str k v = Some t ->
  emitted buf m0 s out -> room out -> room (out ++ if lim <? u32 (f_lenth s + len t) then [] else t) ->
  exists s', fmt_spec sfuel buf pf lim s = Ok s' /\ f_i s' = f_i s /\ f_list s' = args /\
    emitted buf m0 s' (out ++ if lim <? u32 (f_lenth s + len t) then [] else t).
Proof using E.
  intros Hk Hta Hl Ht He Hr Hr2. unfold fmt_spec. rewrite Hk, Hl. unfold arg_text in Ht. cbn [va_arg mbind res_bind].
  set (s1 := fmt_list args s). assert (emitted buf m0 s1 out) as He1 by done.
  change args with (f_list s1). change (f_i s) with (f_i s1). change (f_lenth s) with (f_lenth s1) in *.
  assert (forall z, 0 <= u32 z < W64) as H64 by (intros z; pose proof (u32_range z); unfold W64, W32 in *; lia).
  destruct (Z.eqb_spec k 99) as [->|].
  { injection Ht as <-. change (len [u8 v]) with 1 in *. unfold fmt_char. destruct (lim <? _) eqn:Ef.
    - exists s1. by rewrite app_nil_r.
    - eexists. split; [done|]. pose proof (emitted_char buf m0 s1 out lim (u8 v) He1 Ef) as Hc. unfold fmt_char in Hc. rewrite Ef in Hc.
      split_and!; [| |done]; by destruct (isValid buf). }
  destruct (Z.eqb_spec k 100) as [->|].
  { injection Ht as <-. rewrite number_measure by done. cbn [mbind res_bind].
    apply took_spec; [done|]. intros _. by apply (number_mk s1 out). }
  destruct (Z.eqb_spec k 108) as [->|]; [done|].
  destruct (Z.eqb_spec k 115) as [->|].
  { destruct (string_measure s1 out v t) as [_ ->]; try done. cbn [mbind res_bind].
    destruct (took_spec (m ← (if isValid buf then do_string_split sfuel (f_mem s1) (f_data s1) 0 v else Ok (f_mem s1)); Ok (len t, m)) s1 out t)
      as (s' & E1 & R); [done| |].
    - intros Ef. rewrite Ef in Hr2. by apply (string_mk s1 out).
    - exists s'. split; [|done]. rewrite <- E1. destruct (lim <? _); [done|]. by destruct (if isValid buf then _ else _). }
  destruct ((k =? 120) || (k =? 112)).
  { injection Ht as <-. rewrite !dec_to_hex_text. change (nullptr =? 0) with true. cbn iota.
    apply (took_spec (Ok (len (hex_text false (u32 v)), if f_data s1 =? 0 then f_mem s1 else st_list (f_mem s1) (f_data s1) (hex_text false (u32 v)))) s1 out); [done|].
    intros _. by apply (text_mk s1 out). }
  destruct (Z.eqb_spec k 98) as [->|]; [|done].
  injection Ht as <-. rewrite !dec_to_binary_text. change (nullptr =? 0) with true. cbn iota.
  apply (took_spec (Ok (len (bin_text (u32 v)), if f_data s1 =? 0 then f_mem s1 else st_list (f_mem s1) (f_data s1) (bin_text (u32 v)))) s1 out); [done|].
  intros _. by apply (text_mk s1 out).
Qed.

Lemma spec_percent s k :
  f_mem s (pf + f_i s) = k -> takes_arg k = false -> (k = 108 -> f_mem s (pf + f_i s + 1) <> 100) ->
  fmt_spec sfuel buf pf lim s = Ok (fmt_percent buf lim s).
Proof.
  intros Hk Hta Hd. unfold fmt_spec. rewrite Hk. unfold takes_arg in Hta.
  repeat match type of Hta with (_ || _) = false => apply orb_false_iff in Hta as [Hta ?] end.
  destruct (k =? 99), (k =? 100), (k =? 115), (k =? 120), (k =? 112), (k =? 98); try done.
  destruct (Z.eqb_spec k 108) as [->|]; [|done]. by rewrite (proj2 (Z.eqb_neq _ _)) by auto.
Qed.

Lemma spec_ld s out v args :
  f_mem s (pf + f_i s) = 108 -> f_mem s (pf + f_i s + 1) = 100 -> f_list s = v :: args ->
  emitted buf m0 s out -> room out ->
  let t := dec_text (u64 v) in let fits := negb (lim <? u32 (f_lenth s + len t)) in
  exists s', fmt_spec sfuel buf pf lim s = Ok s' /\ f_i s' = f_i s + (if fits then 1 else 0) /\ f_list s' = args /\
    emitted buf m0 s' (out ++ if fits then t else []).
Proof using E.
  intros Hk Hk1 Hl He Hr t fits. unfold fmt_spec. rewrite Hk, Hk1, Hl. cbn [va_arg mbind res_bind]. simpl (108 =? _). cbn iota. simpl (100 =? 100). cbn iota.
  set (s1 := fmt_list args s). assert (emitted buf m0 s1 out) as He1 by done.
  assert (0 <= u64 v < W64) as H64 by (apply Z.mod_pos_bound; done).
  rewrite number_measure by done. cbn [mbind res_bind]. change (f_mem s) with (f_mem s1). fold t.
  destruct (took_spec ('(_, m) ← (if isValid buf then convert_number_to_string (f_mem s1) (f_data s1) (u64 v) else Ok (len t, f_mem s1)); Ok (len t, m)) s1 out t)
    as (s' & E1 & Ri & Rl & Re); [done| |].
  { intros _. destruct (number_mk s1 out (u64 v) He1 Hr H64) as (m' & -> & Hw). destruct (isValid buf); [by exists m'|by exists (f_mem s1)]. }
  change (f_lenth s) with (f_lenth s1) in fits. unfold fits. destruct (lim <? u32 (f_lenth s1 + len t)); simpl.
  - exists s1. simpl in E1. injection E1 as <-. split_and!; [done|simpl; lia|done|done].
  - exists (fmt_adv 1 s'). split_and!; [|simpl; rewrite Ri; done|done|done].
    destruct (if isValid buf then _ else _) as [[? ?]| |]; simpl in *; try done. by injection E1 as <-.
Qed.

Lemma fmt_reads s out pre rest :
  F = pre ++ rest -> emitted buf m0 s out -> room out -> cstr (f_mem s) (pf + len pre) rest.
Proof using E.
  intros -> He Hr. assert (cstr (f_mem s) pf (pre ++ rest)) as Hc.
  { eapply emitted_reads; [done|done|by apply env_fmt_apart|apply (env_fmt _ E)]. }
  by apply cstr_app in Hc as [_ Hc].
Qed.

Lemma room_app out t : room (out ++ t) -> room out.
Proof. unfold room. rewrite len_app. pose proof (len_nonneg t). intros Hx Hb. specialize (Hx Hb). lia. Qed.

(** The loop puts out exactly the rest of the text. *)
Lemma fmt_loop_render lv fuel : forall pre rest out text s,
  F = pre ++ rest -> f_i s = len pre -> (pre = [] -> head rest <> Some 1) ->
  emitted buf m0 s out -> render str lim (u32 (len out)) rest (f_list s) = Some text -> room (out ++ text) ->
  (length rest < fuel)%nat ->
  exists s', fmt_loop fuel sfuel buf lv pf lim s = Ok s' /\ emitted buf m0 s' (out ++ text).
Proof using E.
  induction fuel as [|fuel IH]; intros pre rest out text s HF Hi H1 He Ht Hr Hf; [lia|].
  pose proof (room_app _ _ Hr) as Hr0. pose proof (fmt_reads s out pre rest HF He Hr0) as Hc. pose proof He as [Hl _].
  cbn [fmt_loop]. rewrite Hi. destruct rest as [|c tl].
  { apply cstr_nil in Hc. rewrite Hc. injection Ht as <-. rewrite app_nil_r. by exists s. }
  apply cstr_cons in Hc as (Hc & Hch & Htl). rewrite Hc. rewrite (proj2 (Z.eqb_neq c 0)) by (unfold char in Hch; lia).
  assert ((len pre =? 0) && (c =? 1) = false) as ->.
  { destruct (Z.eqb_spec (len pre) 0) as [E0|]; [|done]. destruct (Z.eqb_spec c 1) as [->|]; [|done].
    destruct pre; [by destruct (H1 eq_refl)|]. rewrite len_cons in E0. pose proof (len_nonneg pre). lia. }
  assert (forall p rest' out' text' s', c :: tl = p ++ rest' -> p <> [] -> f_i s' = len pre + len p ->
    emitted buf m0 s' out' -> render str lim (u32 (len out')) rest' (f_list s') = Some text' -> out ++ text = out' ++ text' ->
    exists s'', fmt_loop fuel sfuel buf lv pf lim s' = Ok s'' /\ emitted buf m0 s'' (out ++ text)) as Hgo.
  { intros p rest' out' text' s' Ep Hp Hi' He2 Hrd Eo. rewrite Eo in *. apply (IH (pre ++ p) rest'); try done.
    - by rewrite HF, Ep, app_assoc.
    - by rewrite len_app.
    - intros Hnil. by apply app_nil in Hnil as [_ ->].
    - apply (f_equal length) in Ep. rewrite length_app in Ep. simpl in Ep, Hf. destruct p; [done|]. simpl in Ep. lia. }
  clear IH HF. cbn [render] in Ht. rewrite <- Hl in Ht. destruct (negb (c =? 37)) eqn:E37.
  { destruct (lim <? u32 (f_lenth s + 1)) eqn:Ef; [injection Ht as <-; rewrite app_nil_r; by exists s|].
    apply fmap_Some in Ht as (text' & Hrd & ->). apply (Hgo [c] tl (out ++ [c]) text'); try done.
    - rewrite len_cons, len_nil. unfold fmt_char. rewrite Ef. destruct (isValid buf); simpl; lia.
    - by apply emitted_char.
    - rewrite len_app, len_cons, len_nil. rewrite Hl, u32_add_l in Hrd.
      unfold fmt_char. rewrite Ef. destruct (isValid buf); exact Hrd.
    - by rewrite <- app_assoc. }
  apply negb_false_iff, Z.eqb_eq in E37 as ->. set (s1 := fmt_adv 1 s).
  assert (emitted buf m0 s1 out) as He1 by done. assert (f_i s1 = len pre + 1) as Hi1 by (simpl; lia).
  assert (pf + f_i s1 = pf + len pre + 1) as Ep1 by lia.
  (* the percent sign kept *)
  assert (forall text', lim <? u32 (f_lenth s + 1) = false ->
    render str lim (u32 (f_lenth s + 1)) tl (f_list s) = Some text' -> text = 37 :: text' ->
    exists s', fmt_loop fuel sfuel buf lv pf lim (fmt_adv 1 (fmt_percent buf lim s1)) = Ok s' /\ emitted buf m0 s' (out ++ text)) as Hpc.
  { intros text' Ef Hrd ->. apply (Hgo [37] tl (out ++ [37]) text'); try done.
    - unfold fmt_percent, fmt_char. change (f_lenth s1) with (f_lenth s). rewrite Ef, len_cons, len_nil. destruct (isValid buf); simpl; lia.
    - unfold fmt_percent. change (f_lenth s1) with (f_lenth s). rewrite Ef. apply emitted_adv, emitted_adv. by apply emitted_char.
    - rewrite len_app, len_cons, len_nil. rewrite Hl, u32_add_l in Hrd.
      unfold fmt_percent, fmt_char. change (f_lenth s1) with (f_lenth s). rewrite Ef. destruct (isValid buf); exact Hrd.
    - by rewrite <- app_assoc. }
  assert (lim <? u32 (f_lenth s + 1) = true -> fmt_percent buf lim s1 = s1) as Hpn.
  { intros Ef. unfold fmt_percent. change (f_lenth s1) with (f_lenth s). by rewrite Ef. }
  destruct tl as [|k tl'].
  { apply cstr_nil in Htl. rewrite (spec_percent s1 0); [|by rewrite Ep1|done|done]. cbn [mbind res_bind].
    destruct (lim <? u32 (f_lenth s + 1)) eqn:Ef; [done|]. injection Ht as <-. by apply (Hpc []). }
  apply cstr_cons in Htl as (Hk & Hkc & Htl').
  assert (forall text', lim <? u32 (f_lenth s + 1) = true -> render str lim (f_lenth s) tl' (f_list s) = Some text' -> text = text' ->
    exists s', fmt_loop fuel sfuel buf lv pf lim (fmt_adv 1 s1) = Ok s' /\ emitted buf m0 s' (out ++ text)) as Hskip.
  { intros text' Ef Hrd ->. apply (Hgo [37; k] tl' out text'); try done; [|by rewrite <- Hl]. rewrite !len_cons, len_nil. simpl. lia. }
  destruct (takes_arg k) eqn:Hta.
  { destruct (f_list s) as [|v args] eqn:Hargs; [done|]. destruct (arg_text str k v) as [t|] eqn:Hat; [|done]. simpl in Ht.
    set (piece := if lim <? u32 (f_lenth s + len t) then [] else t).
    assert (exists text', render str lim (u32 (len (out ++ piece))) tl' args = Some text' /\ text = piece ++ text') as (text' & Hrd & Etext).
    { unfold piece. rewrite len_app. destruct (lim <? _); [exists text; by rewrite len_nil, Z.add_0_r, <- Hl|].
      apply fmap_Some in Ht as (text' & Hrd & ->). exists text'. split; [|done]. by rewrite <- u32_add_l, <- Hl. }
    destruct (spec_arg s1 out k v args t) as (s2 & Es & Hi2 & Ha2 & He2); try done; [by rewrite Ep1| |].
    { rewrite Etext, app_assoc in Hr. by apply room_app in Hr. }
    rewrite Es. cbn [mbind res_bind]. apply (Hgo [37; k] tl' (out ++ piece) text'); try done.
    - rewrite !len_cons, len_nil. simpl. lia.
    - simpl. by rewrite Ha2.
    - by rewrite Etext, app_assoc. }
  assert (forall text', (if lim <? u32 (f_lenth s + 1) then render str lim (f_lenth s) tl' (f_list s)
      else cons 37 <$> render str lim (u32 (f_lenth s + 1)) (k :: tl') (f_list s)) = Some text' -> text' = text ->
    exists s', fmt_loop fuel sfuel buf lv pf lim (fmt_adv 1 (fmt_percent buf lim s1)) = Ok s' /\ emitted buf m0 s' (out ++ text)) as Hboth.
  { intros text' Hx <-. destruct (lim <? u32 (f_lenth s + 1)) eqn:Ef; [rewrite Hpn by done; by apply (Hskip text')|].
    apply fmap_Some in Hx as (text'' & Hrd & ->). by apply (Hpc text''). }
  destruct (Z.eqb_spec k 108) as [->|Hk108].
  - destruct tl' as [|d tl''].
    { apply cstr_nil in Htl'. rewrite (spec_percent s1 108); [|by rewrite Ep1|done|].
      - cbn [mbind res_bind]. by apply (Hboth text).
      - intros _. change (f_mem s1) with (f_mem s). by rewrite Ep1, Htl'. }
    pose proof Htl' as (Hd & _ & _)%cstr_cons. destruct (Z.eqb_spec d 100) as [->|Hd100].
    + destruct (f_list s) as [|v args] eqn:Hargs; [done|]. set (t := dec_text (u64 v)) in *.
      destruct (spec_ld s1 out v args) as (s2 & Es & Hi2 & Ha2 & He2); try done; [by rewrite Ep1|by rewrite Ep1|].
      rewrite Es. cbn [mbind res_bind]. change (f_lenth s1) with (f_lenth s) in *. fold t in Hi2, He2.
      destruct (lim <? u32 (f_lenth s + len t)) eqn:Ef; simpl in Hi2, He2.
      * rewrite app_nil_r in He2. apply (Hgo [37; 108] (100 :: tl'') out text); try done; [|simpl; by rewrite Ha2, <- Hl].
        rewrite !len_cons, len_nil. simpl. lia.
      * apply fmap_Some in Ht as (text' & Hrd & ->). apply (Hgo [37; 108; 100] tl'' (out ++ t) text'); try done.
        -- rewrite !len_cons, len_nil. simpl. lia.
        -- simpl. by rewrite Ha2, len_app, <- u32_add_l, <- Hl.
        -- by rewrite <- app_assoc.
    + rewrite (spec_percent s1 108); [|by rewrite Ep1|done|].
      * cbn [mbind res_bind]. by apply (Hboth text).
      * intros _. change (f_mem s1) with (f_mem s). rewrite Ep1. by rewrite Hd.
  - rewrite (spec_percent s1 k); [|by rewrite Ep1|done|done]. cbn [mbind res_bind]. by apply (Hboth text).
Qed.
End convert.

(** The text of a format with no limit. *)
Fixpoint text_of (str : Z -> option (list Z)) (fmt args : list Z) : option (list Z) :=
  match fmt with
  | [] => Some []
  | c :: tl =>
      if negb (c =? 37) then cons c <$> text_of str tl args
      else
        match tl with
        | [] => Some [37]
        | k :: tl' =>
            let percent := cons 37 <$> text_of str tl args in
            if takes_arg k then
              match args with
              | [] => None
              | v :: args => t ← arg_text str k v; app t <$> text_of str tl' args
              end
            else if k =? 108 then
              match tl' with
              | d :: tl'' =>
                  if d =? 100 then
                    match args with
                    | [] => None
                    | v :: args => app (dec_text (u64 v)) <$> text_of str tl'' args
                    end
                  else percent
              | [] => percent
              end
            else percent
        end
  end.

Lemma fits_limit lim used n : 0 <= used -> 0 <= n -> used + n <= lim -> lim < W32 -> (lim <? u32 (used + n)) = false /\ u32 (used + n) = used + n.
Proof. intros. rewrite u32_id by lia. split; [apply Z.ltb_ge; lia|done]. Qed.

(** A limit the text fits in changes nothing. *)
Lemma render_text_of str lim : lim < W32 -> forall n fmt args used T,
  (length fmt < n)%nat -> text_of str fmt args = Some T -> 0 <= used -> used + len T <= lim -> render str lim used fmt args = Some T.
Proof.
  intros Hlim. induction n as [|n IH]; intros fmt args used T Hn HT Hu Hf; [lia|]. destruct fmt as [|c tl]; [done|].
  assert (forall t fmt' args' T', text_of str fmt' args' = Some T' -> T = t ++ T' -> (length fmt' < n)%nat ->
    (lim <? u32 (used + len t)) = false /\ app t <$> render str lim (u32 (used + len t)) fmt' args' = Some T) as Hgo.
  { intros t fmt' args' T' HT' -> Hn'. rewrite len_app in Hf. pose proof (len_nonneg t). pose proof (len_nonneg T').
    destruct (fits_limit lim used (len t)) as [-> ->]; [lia..|]. split; [done|]. rewrite (IH _ _ _ T'); [done|done|done|lia|lia]. }
  simpl in Hn. cbn [text_of render] in *. destruct (negb (c =? 37)).
  { apply fmap_Some in HT as (T' & HT' & ->). destruct (Hgo [c] tl args T' HT' eq_refl) as [E1 E2]; [lia|].
    change (len [c]) with 1 in *. by rewrite E1. }
  destruct tl as [|k tl'].
  { injection HT as <-. change (len [37]) with 1 in Hf. by destruct (fits_limit lim used 1) as [-> _]; [lia..|]. }
  simpl in Hn.
  assert (cons 37 <$> text_of str (k :: tl') args = Some T ->
    (if lim <? u32 (used + 1) then render str lim used tl' args else cons 37 <$> render str lim (u32 (used + 1)) (k :: tl') args) = Some T) as Hpc.
  { intros (T' & HT' & ->)%fmap_Some. destruct (Hgo [37] (k :: tl') args T' HT' eq_refl) as [E1 E2]; [simpl; lia|].
    change (len [37]) with 1 in *. by rewrite E1. }
  destruct (takes_arg k).
  { destruct args as [|v args]; [done|]. destruct (arg_text str k v) as [t|]; [|done]. simpl in *.
    apply fmap_Some in HT as (T' & HT' & ->). destruct (Hgo t tl' args T' HT' eq_refl) as [E1 E2]; [lia|]. by rewrite E1. }
  destruct (k =? 108); [|by apply Hpc]. destruct tl' as [|d tl'']; [by apply Hpc|]. destruct (d =? 100); [|by apply Hpc].
  destruct args as [|v args]; [done|]. apply fmap_Some in HT as (T' & HT' & ->).
  destruct (Hgo (dec_text (u64 v)) tl'' args T' HT' eq_refl) as [E1 E2]; [simpl in Hn; lia|]. by rewrite E1.
Qed.

(** A format whose conversions have their arguments has a text within any limit,
    unless it ends with a lone [%]. *)
Lemma last_tail {A} (c : A) tl x : last (c :: tl) <> Some x -> last tl <> Some x.
Proof. by destruct tl. Qed.
Lemma render_defined str lim n : forall fmt args used T,
  (length fmt < n)%nat -> text_of str fmt args = Some T -> last fmt <> Some 37 -> is_Some (render str lim used fmt args).
Proof.
  induction n as [|n IH]; intros fmt args used T Hn HT Hl; [lia|]. destruct fmt as [|c tl]; [done|].
  pose proof (last_tail _ _ _ Hl) as Hl'. simpl in Hn. cbn [text_of render] in *. destruct (Z.eqb_spec c 37) as [->|Hc]; cbn [negb] in *.
  2:{ apply fmap_Some in HT as (T' & HT' & ->). destruct (lim <? _); [done|]. apply fmap_is_Some. eapply IH; [lia|done|done]. }
  destruct tl as [|k tl']; [done|]. simpl in Hn. pose proof (last_tail _ _ _ Hl') as Hl''.
  assert (forall T, text_of str (k :: tl') args = Some T -> k <> 37 -> is_Some (render str lim used tl' args)) as Hlit.
  { intros T' HT' Hk. cbn [text_of] in HT'. rewrite (proj2 (Z.eqb_neq k 37)) in HT' by done. apply fmap_Some in HT' as (T'' & HT'' & _). eapply IH; [lia|done|done]. }
  assert (cons 37 <$> text_of str (k :: tl') args = Some T ->
    is_Some (if lim <? u32 (used + 1) then render str lim used tl' args else cons 37 <$> render str lim (u32 (used + 1)) (k :: tl') args)) as Hpc.
  { intros (T' & HT' & ->)%fmap_Some. destruct (lim <? u32 (used + 1)) eqn:Ef; [|apply fmap_is_Some; eapply IH; [simpl; lia|done|done]].
    destruct (Z.eq_dec k 37) as [->|Hk]; [|by eapply Hlit]. destruct tl' as [|k' tl'']; [done|].
    destruct (Z.eq_dec k' 37) as [->|Hk']; [|cbn [render]; rewrite (proj2 (Z.eqb_neq k' 37)) by done; by rewrite Ef].
    cbn [text_of] in HT'. apply fmap_Some in HT' as (T'' & HT'' & _). eapply (IH (37 :: tl'')); [lia|exact HT''|done]. }
  destruct (takes_arg k).
  { destruct args as [|v args]; [done|]. destruct (arg_text str k v) as [t|]; [|done]. simpl in *.
    apply fmap_Some in HT as (T' & HT' & ->). destruct (lim <? u32 (used + len t)); [|apply fmap_is_Some]; (eapply IH; [lia|done|done]). }
  destruct (k =? 108); [|by apply Hpc]. destruct tl' as [|d tl'']; [by apply Hpc|]. destruct (Z.eqb_spec d 100) as [->|]; [|by apply Hpc].
  destruct args as [|v args]; [done|]. apply fmap_Some in HT as (T' & HT' & ->). pose proof (last_tail _ _ _ Hl'') as Hl3. simpl in Hn.
  destruct (lim <? u32 (used + len (dec_text (u64 v)))); [|apply fmap_is_Some; eapply IH; [lia|done|done]]. eapply (IH (100 :: tl'') args _ (100 :: T')); [simpl; lia| |done]. cbn [text_of]. by rewrite HT'.
Qed.

(** Every piece but a string has at most 34 characters. *)
Lemma arg_text_len str k v t : arg_text str k v = Some t -> str v = Some t \/ len t <= 34.
Proof.
  unfold arg_text. pose proof (u32_range v) as Hv.
  destruct (k =? 99); [intros [= <-]; right; unfold len; simpl; lia|].
  destruct (k =? 100); [intros [= <-]; right; pose proof (dec_text_len (u32 v)); unfold W64, W32 in *; lia|].
  destruct (k =? 115); [by left|].
  destruct ((k =? 120) || (k =? 112)); [intros [= <-]; right|].
  { unfold hex_text. rewrite !len_cons, len_reverse, len_fmap. destruct (digits_spec 8 16 (u32 v)) as (_ & _ & ?); [lia|exact Hv|lia|]. unfold len. lia. }
  destruct (k =? 98); [intros [= <-]; right|done].
  unfold bin_text. rewrite !len_cons, len_reverse, len_fmap. destruct (digits_spec 32 2 (u32 v)) as (_ & _ & ?); [lia|exact Hv|lia|]. unfold len. lia.
Qed.

(** The limit is kept: [lim] and any one piece add up without wrapping. *)
Lemma render_bounded str lim : 0 <= lim -> lim + 40 < W32 -> (forall a t, str a = Some t -> lim + len t < W32) ->
  forall n fmt args used T, (length fmt < n)%nat -> 0 <= used <= lim -> render str lim used fmt args = Some T -> used + len T <= lim.
Proof.
  intros H0 Hlim Hstr. induction n as [|n IH]; intros fmt args used T Hn Hu HT; [lia|]. destruct fmt as [|c tl].
  { injection HT as <-. rewrite len_nil. lia. }
  assert (forall t fmt' args' f, lim + len t < W32 -> (length fmt' < n)%nat ->
    (if lim <? u32 (used + len t) then f else app t <$> render str lim (u32 (used + len t)) fmt' args') = Some T ->
    (f = Some T -> used + len T <= lim) -> used + len T <= lim) as Hgo.
  { intros t fmt' args' f Ht Hn' Hif Hf. pose proof (len_nonneg t). rewrite u32_id in Hif by lia.
    destruct (Z.ltb_spec lim (used + len t)); [auto|]. apply fmap_Some in Hif as (T' & HT' & ->).
    apply IH in HT'; [|done|lia]. rewrite len_app. lia. }
  simpl in Hn. cbn [render] in HT. destruct (negb (c =? 37)).
  { apply (Hgo [c] tl args (Some [])); [unfold len; simpl; lia|lia|exact HT|]. intros [= <-]. rewrite len_nil. lia. }
  destruct tl as [|k tl'].
  { rewrite u32_id in HT by lia. destruct (Z.ltb_spec lim (used + 1)); [done|]. injection HT as <-. change (len [37]) with 1. lia. }
  simpl in Hn. assert (forall args, render str lim used tl' args = Some T -> used + len T <= lim) as Hskip by (intros args'; apply IH; lia).
  assert ((if lim <? u32 (used + 1) then render str lim used tl' args else cons 37 <$> render str lim (u32 (used + 1)) (k :: tl') args) = Some T ->
    used + len T <= lim) as Hpc.
  { intros Hx. apply (Hgo [37] (k :: tl') args (render str lim used tl' args)); [unfold len; simpl; lia|simpl; lia|exact Hx|apply Hskip]. }
  destruct (takes_arg k).
  { destruct args as [|v args]; [done|]. destruct (arg_text str k v) as [t|] eqn:Et; [|done]. simpl in HT.
    apply (Hgo t tl' args (render str lim used tl' args)); [|lia|exact HT|apply Hskip].
    apply arg_text_len in Et as [Es|El]; [by eapply Hstr|lia]. }
  destruct (k =? 108); [|by apply Hpc]. destruct tl' as [|d tl'']; [by apply Hpc|]. destruct (d =? 100); [|by apply Hpc].
  destruct args as [|v args]; [done|].
  apply (Hgo (dec_text (u64 v)) tl'' args (render str lim used (d :: tl'') args)); [|simpl in Hn; lia|exact HT|apply Hskip].
  pose proof (dec_text_len (u64 v)) as Hd. assert (0 <= u64 v < W64) by (apply Z.mod_pos_bound; done). lia.
Qed.
