(* ===== verification/KPrint.v ===== *)
(** * Formatted output and number text: the theorems

    [do_fmt_convert] writes the text of its format, within the size it is given;
    the allocating printers fill their buffer exactly; number text reads back. *)

From stdpp Require Import prelude gmap fin_maps sorting.
From S2P Require Import Prelude Mem Bytes Sync Generic KString KStringSpec.

(** A level prefix is a start-of-heading byte and a level character; it goes to
    [ptr_level] and is not part of the text. *)
Definition fmt_body (F : list Z) : option (list Z) :=
  match F with
  | c :: tl => if c =? 1 then match tl with _ :: body => Some body | [] => None end else Some F
  | [] => Some []
  end.
Definition level_mem (lv : Z) (F : list Z) (m : mem) : mem :=
  match F with
  | c :: l :: _ => if (c =? 1) && negb (lv =? 0) then st (st m lv 1) (lv + 1) l else m
  | _ => m
  end.

Lemma convert_renders str fuel m buf lv pf F args size cap body text :
  fmt_env str (level_mem lv F m) fuel buf pf cap F -> cstr m pf F -> (lv <> 0 -> apart lv 2 pf (len F + 1)) ->
  fmt_body F = Some body -> 1 <= size -> render str (size - 1) 0 body args = Some text ->
  room buf cap (text ++ [0]) -> (length F < fuel)%nat ->
  exists m', do_fmt_convert fuel m buf lv pf args size = Ok (u32 (len text), m') /\
    if isValid buf then wrote (level_mem lv F m) m' buf (text ++ [0]) else m' = level_mem lv F m.
Proof.
  intros HE Hc Hlv Hb Hs Ht Hr Hf. unfold do_fmt_convert. rewrite (proj2 (Z.ltb_ge _ _)) by lia.
  set (m1 := level_mem lv F m) in *.
  assert (forall i, emitted buf m1 (Fmt i buf 0 args m1) []) as He0.
  { intros i. split; [done|]. destruct (isValid buf); simpl; [split; [rewrite len_nil; lia|apply wrote_nil]|done]. }
  assert (exists s', fmt_loop fuel fuel buf lv pf (size - 1) (Fmt 0 buf 0 args m) = Ok s' /\ emitted buf m1 s' text) as (s' & -> & He).
  { pose proof (room_app _ _ _ _ Hr) as Hr0. destruct F as [|c F']; [injection Hb as <-|].
    { change m with m1. apply (fmt_loop_render str m1 fuel buf pf (size - 1) cap [] HE lv fuel [] [] []); done. }
    simpl in Hb, Hf. destruct (Z.eqb_spec c 1) as [->|Hc1].
    - destruct F' as [|l body']; [done|]. injection Hb as ->. destruct fuel as [|fuel]; [lia|]. cbn [fmt_loop].
      pose proof Hc as (E0 & _ & (E1 & _ & _)%cstr_cons)%cstr_cons. cbn [f_i f_mem]. rewrite Z.add_0_r, E0. simpl (_ =? 0). simpl (_ && _). cbn iota.
      assert ((if negb (lv =? 0) then st (st m lv 1) (lv + 1) (st m lv 1 (pf + (0 + 1))) else m) = m1) as Em.
      { unfold m1. simpl. destruct (Z.eqb_spec lv 0) as [->|Hl0]; [done|]. simpl. f_equal. rewrite st_ne; [exact E1|].
        specialize (Hlv Hl0). unfold apart in Hlv. rewrite !len_cons in Hlv. pose proof (len_nonneg body). lia. }
      cbn [fmt_adv f_i f_data f_lenth f_list f_mem]. rewrite Em.
      apply (fmt_loop_render str m1 (S fuel) buf pf (size - 1) cap _ HE lv fuel [1; l] body []); try done; [|simpl in Hf; lia].
      apply emitted_adv, He0.
    - injection Hb as <-. assert (m1 = m) as Em by (unfold m1; simpl; destruct F'; [done|]; by rewrite (proj2 (Z.eqb_neq _ _))).
      rewrite <- Em. apply (fmt_loop_render str m1 fuel buf pf (size - 1) cap _ HE lv fuel [] (c :: F') []); try done.
      intros _ [= ->]. done. }
  simpl. destruct He as [Hl He]. rewrite Hl. eexists. split; [done|]. destruct (isValid buf); destruct He as [Hd Hm]; [|done].
  rewrite Hd. eapply wrote_app; [done|]. apply wrote_st.
Qed.


(** ["n=%d %s!"] at 4096, ["ab"] at 5000, a buffer of 8 bytes at 8192. *)
Definition demo_fmt : list Z := [110; 61; 37; 100; 32; 37; 115; 33].
Definition demo_str (a : Z) : option (list Z) := if a =? 5000 then Some [97; 98] else None.
Definition demo_mem : mem := st_list (st_list (fun _ => 0) 4096 demo_fmt) 5000 [97; 98].
Lemma demo_fmt_env : fmt_env demo_str demo_mem 20 8192 4096 8 demo_fmt.
Proof.
  split.
  - vm_compute. repeat constructor.
  - intros a t. unfold demo_str. destruct (Z.eqb_spec a 5000) as [->|]; [|done]. intros [= <-]. split_and!; [vm_compute; repeat constructor|simpl; lia|done].
  - done.
  - done.
  - intros _. right. vm_compute. discriminate.
  - intros a t _. unfold demo_str. destruct (Z.eqb_spec a 5000) as [->|]; [|done]. intros [= <-]. right. vm_compute. discriminate.
Qed.

(** The allocating printer measures the text of its format, asks for exactly
    that many bytes and one, and returns a buffer that holds the text and a
    terminator; only the buffer is written.  Without memory it returns null. *)
Theorem sprintk_safe_exact kmalloc str fuel m pf F args body T ptr m1 :
  cstr m pf F -> pf <> 0 -> (length F < fuel)%nat -> fmt_body F = Some body ->
  (forall a t, str a = Some t -> cstr m a t /\ (length t < fuel)%nat /\ len t < W32) ->
  text_of str body args = Some T -> len T + 1 < W32 - 1 ->
  kmalloc (len T + 1) m = (ptr, m1) ->
  (isValid ptr = true -> fmt_env str m1 fuel ptr pf (len T + 1) F) ->
  exists m2, sprintk_safe kmalloc fuel m pf args = Ok (if isValid ptr then ptr else nullptr, m2) /\
    if isValid ptr then wrote m1 m2 ptr (T ++ [0]) else m2 = m1.
Proof.
  intros Hc Hpf Hf Hb Hstr HT HlT Hk HE. pose proof (len_nonneg T).
  assert (forall m, level_mem nullptr F m = m) as El by (intros m'; destruct F as [|c [|l F']]; [done|done|simpl; by rewrite andb_false_r]).
  assert (forall lim, len T <= lim -> lim < W32 -> render str lim 0 body args = Some T) as Hren.
  { intros lim H1 H2. apply (render_text_of str lim H2 (S (length body))); [lia|done|lia|lia]. }
  unfold sprintk_safe, sprintk_alloc. rewrite (proj2 (Z.eqb_neq _ _)) by done.
  destruct (convert_renders str fuel m nullptr nullptr pf F args SIZE_MAX 0 body T) as (m' & -> & Em'); try done.
  { rewrite El. by constructor. }
  { apply Hren; unfold SIZE_MAX in *; lia. }
  simpl in Em'. rewrite El in Em'. subst m'. rewrite u32_id by lia. simpl. rewrite u32_id by lia. rewrite Hk.
  destruct (isValid ptr) eqn:Hv; [|by exists m1]. cbn [negb].
  destruct (convert_renders str fuel m1 ptr nullptr pf F args (len T + 1) (len T + 1) body T) as (m2 & -> & W); try done.
  { rewrite El. auto. }
  { apply (HE eq_refl). }
  { lia. }
  { apply Hren; lia. }
  { intros _. rewrite len_app, len_cons, len_nil. lia. }
  rewrite Hv, El in W. simpl. by exists m2.
Qed.
Lemma sprintk_safe_exact_witness :
  exists m2, sprintk_safe (fun _ m => (8192, m)) 20 demo_mem 4096 [42; 5000] = Ok (8192, m2) /\
    wrote demo_mem m2 8192 [110; 61; 52; 50; 32; 97; 98; 33; 0].
Proof.
  destruct (sprintk_safe_exact (fun _ m => (8192, m)) demo_str 20 demo_mem 4096 demo_fmt [42; 5000] demo_fmt
    [110; 61; 52; 50; 32; 97; 98; 33] 8192 demo_mem) as (m2 & E & W);
    [apply demo_fmt_env|discriminate|simpl; lia|reflexivity|apply demo_fmt_env|vm_compute; reflexivity|reflexivity|reflexivity| |].
  - intros _. destruct demo_fmt_env as [H1 H2 _ _ _ _]. split; [exact H1|exact H2|discriminate|intros _; split; reflexivity| |].
    + intros _. right. vm_compute. discriminate.
    + intros a t _. unfold demo_str. destruct (Z.eqb_spec a 5000) as [->|]; [|discriminate]. intros [= <-]. right. vm_compute. discriminate.
  - exists m2. split; [exact E|exact W].
Defined.

(** ** Number text *)
Lemma wrote_cstr_text m m' p t : wrote m m' p t -> Forall char t -> cstr (st m' (p + len t) 0) p t.
Proof.
  intros [Hb _] Hc. split; [|done]. apply bytes_at_app. split; [|split; [by rewrite st_eq|done]].
  eapply bytes_at_agree; [|done]. intros a Ha. apply st_ne. lia.
Qed.

Lemma dec_text_reads m p n fuel :
  0 <= n < 2147483648 -> (20 < fuel)%nat -> p <> 0 -> cstr m p (dec_text n) -> ascii_to_dec fuel m p = Ok n.
Proof.
  intros Hn Hf Hp Hc. unfold ascii_to_dec. rewrite (proj2 (Z.eqb_neq p 0)) by done.
  assert (0 <= n < 10 ^ Z.of_nat 20) as Hn2 by (change (10 ^ Z.of_nat 20) with 100000000000000000000; lia).
  assert (m p =? 48 = true -> m (p + 1) = 0) as Hz.
  { intros E%Z.eqb_eq. destruct (decide (n = 0)) as [->|Hnz].
    - apply cstr_cons in Hc as (_ & _ & Hc). by apply cstr_nil in Hc.
    - destruct (digits_last_nonzero 20 10 n) as (d & l & El & Hd); [lia|lia|]. unfold dec_text in Hc. rewrite <- fmap_reverse, El in Hc.
      simpl in Hc. apply cstr_cons in Hc as (Hc & _). unfold dec_char in Hc. lia. }
  assert ((m p =? 48) && ((m (p + 1) =? 88) || (m (p + 1) =? 120)) = false) as ->.
  { destruct (m p =? 48); [|done]. by rewrite Hz. }
  assert ((m p =? 48) && ((m (p + 1) =? 66) || (m (p + 1) =? 98)) = false) as ->.
  { destruct (m p =? 48); [|done]. by rewrite Hz. }
  simpl. rewrite (digits_text_value 10 10 dec_char m p n fuel 20); [f_equal; apply s32_id; lia|intros; by apply ascii_digit_dec|lia|done|lia|done].
Qed.

Lemma prefixed_reads type b (f : Z -> Z) x m p n fuel k :
  (forall v d, 0 <= d < b -> ascii_digit type v (f d) = Some (s32 (b * v + d))) -> (forall d, 0 <= d < b -> char (f d)) ->
  (type = 16 /\ (x = 88 \/ x = 120)) \/ (type = 2 /\ x = 98) ->
  1 < b -> 0 <= n < b ^ Z.of_nat k -> (0 < k < fuel)%nat -> p <> 0 ->
  cstr m p (48 :: x :: reverse (f <$> digits k b n)) -> ascii_to_dec fuel m p = Ok (s32 n).
Proof.
  intros Hf Hch Htx Hb Hn Hk Hp Hc. unfold ascii_to_dec. rewrite (proj2 (Z.eqb_neq p 0)) by done.
  apply cstr_cons in Hc as (H0 & _ & (H1 & _ & Hc)%cstr_cons). rewrite H0, H1.
  replace (p + 1 + 1) with (p + 2) in Hc by lia.
  assert (m (p + 2) <> 0) as Hnz.
  { destruct (digits_spec k b n Hb Hn) as (_ & Hd & Hl); [lia|].
    assert (reverse (f <$> digits k b n) <> []) as Hne by (intros E; apply (f_equal length) in E; rewrite length_reverse, length_fmap in E; simpl in E; lia).
    destruct (reverse (f <$> digits k b n)) as [|c l] eqn:El; [done|]. apply cstr_cons in Hc as (-> & Hcc & _). unfold char in Hcc. lia. }
  pose proof (digits_text_value type b f m (p + 2) n fuel k Hf Hb Hn Hk Hc) as Hv.
  destruct Htx as [[-> [->| ->]]|[-> ->]]; simpl; rewrite (proj2 (Z.eqb_neq _ _)) by done; done.
Qed.

(** Text of numbers reads back: for a word below 2^31 written by
    [convert_number_to_string], [dec_to_hex] or [dec_to_binary] and terminated,
    [ascii_to_dec] returns the number; each conversion reports the length of
    what it wrote and writes nothing else. *)
Theorem number_text_reads_back m p n mode fuel :
  0 <= n < 2147483648 -> 0 < p < W32 - 4096 -> (40 <= fuel)%nat ->
  (exists l m', convert_number_to_string m p n = Ok (l, m') /\ ascii_to_dec fuel (st m' (p + l) 0) p = Ok n /\
     forall a, a < p \/ p + l <= a -> m' a = m a) /\
  (forall l m', dec_to_hex m p n mode = (l, m') -> ascii_to_dec fuel (st m' (p + l) 0) p = Ok n /\
     forall a, a < p \/ p + l <= a -> m' a = m a) /\
  (forall l m', dec_to_binary m p n = (l, m') -> ascii_to_dec fuel (st m' (p + l) 0) p = Ok n /\
     forall a, a < p \/ p + l <= a -> m' a = m a).
Proof.
  intros Hn Hp Hf. assert (is_u32 n) as Hu by (unfold is_u32, W32; lia).
  assert (s32 n = n) as Hs by (apply s32_id; lia).
  split_and!.
  - destruct (convert_number_spec m p n) as (m' & E & W); [unfold W64; lia|]. rewrite isValid_true in W by done.
    eexists _, m'. split; [done|]. split; [|apply W]. apply dec_text_reads; [done|lia|lia|].
    eapply wrote_cstr_text; [done|]. apply dec_text_chars. lia.
  - intros l m'. rewrite dec_to_hex_text, (proj2 (Z.eqb_neq p 0)) by lia. intros [= <- <-].
    split; [|exact (proj2 (wrote_st_list m p _))]. transitivity (Ok (s32 n)); [|by rewrite Hs].
    apply (prefixed_reads 16 16 (hex_char mode) (if mode then 88 else 120) _ _ _ _ 8);
      [intros; by apply ascii_digit_hex|apply hex_char_char|destruct mode; auto|lia|exact Hu|lia|lia|].
    exact (wrote_cstr_text m _ p _ (wrote_st_list m p (hex_text mode n)) (hex_text_chars mode n Hu)).
  - intros l m'. rewrite dec_to_binary_text, (proj2 (Z.eqb_neq p 0)) by lia. intros [= <- <-].
    split; [|exact (proj2 (wrote_st_list m p _))]. transitivity (Ok (s32 n)); [|by rewrite Hs].
    apply (prefixed_reads 2 2 dec_char 98 _ _ _ _ 32);
      [intros; by apply ascii_digit_bin|intros; apply dec_char_char; lia|auto|lia|exact Hu|lia|lia|].
    exact (wrote_cstr_text m _ p _ (wrote_st_list m p (bin_text n)) (bin_text_chars n Hu)).
Qed.
Lemma number_text_reads_back_witness :
  exists l m', convert_number_to_string (fun _ => 0) 4096 1984 = Ok (l, m') /\ ascii_to_dec 40 (st m' (4096 + l) 0) 4096 = Ok 1984.
Proof.
  destruct (number_text_reads_back (fun _ => 0) 4096 1984 false 40) as [(l & m' & H1 & H2 & _) _];
    [lia|split; reflexivity|lia|]. exists l, m'. split; [exact H1|exact H2].
Defined.

(** ** Copies and comparisons *)

(** On C strings, with a destination apart from the source: lengths are
    right, the bounded copy cuts and terminates strings that do not fit,
    [do_string_split] and [do_string_copy] copy the characters without a
    terminator, and the comparison returns false exactly when the second
    string, not empty, is a prefix of the first. *)
Theorem string_routines_correct m p q x s t fuel dst n :
  cstr m p s -> cstr m q (x :: t) -> (length s < fuel)%nat -> (length t < fuel)%nat -> len s < W32 -> 0 < n ->
  apart dst (len s) p (len s + 1) -> apart dst n p (len s + 1) -> apart dst (len t + 1) q (len t + 2) ->
  get_string_lenth fuel m p = Ok (len s) /\
  do_string_split fuel m dst 0 p = Ok (st_list m dst s) /\
  do_string_copy fuel m dst q = Ok (dst, st_list m dst (x :: t)) /\
  do_string_n_copy_safe fuel m dst p n =
    Ok (len s, st_list m dst (if decide (n <= len s) then take (Z.to_nat (n - 1)) s ++ [0] else s)) /\
  exists r, do_string_compare fuel m p q = Ok r /\ (r = false <-> (x :: t) `prefix_of` s).
Proof.
  intros Hs Ht Hfs Hft Hls Hn Ha1 Ha2 Ha3. pose proof (len_nonneg s).
  assert (get_string_lenth fuel m p = Ok (len s)) as Hl by (rewrite (string_lenth_spec m p s) by done; by rewrite u32_id by lia).
  split_and!; [done| | | |by apply compare_spec].
  - unfold do_string_split. rewrite Z.add_0_r. apply split_spec; [done|lia|done].
  - unfold do_string_copy. by rewrite (copy_spec m q x t).
  - unfold do_string_n_copy_safe. rewrite Hl. simpl. rewrite (n_copy_safe_spec m p s); [|done|lia|by rewrite Z2Nat.id by lia].
    unfold len in *. do 2 f_equal. rewrite Z2Nat.inj_sub by lia. change (Z.to_nat 1) with 1%nat.
    destruct (decide (Z.to_nat n <= length s)%nat), (decide (n <= Z.of_nat (length s))); try done; lia.
Qed.
Lemma string_routines_correct_witness :
  exists r, do_string_compare 20 demo_mem 4096 5000 = Ok r /\ (r = false <-> [97; 98] `prefix_of` demo_fmt).
Proof.
  destruct (string_routines_correct demo_mem 4096 5000 97 demo_fmt [98] 20 8192 4) as (_ & _ & _ & _ & H);
    [vm_compute; repeat constructor|vm_compute; repeat constructor|simpl; lia|simpl; lia|reflexivity|lia| | | |exact H];
    right; vm_compute; discriminate.
Defined.
