(* ===== verification/KName.v ===== *)
(** * Names in byte arrays

    Structures keep names in arrays of fixed size (mailboxes, interrupt actions);
    the text in an array ends at its first zero.  The string routines on arrays
    are those of api_string.c, which KString.v has on memory, and two of the C
    library. *)

From stdpp Require Import prelude gmap fin_maps sorting.
From S2P Require Import Prelude Mem KString.

(** The text of a byte array. *)
Fixpoint text (bytes : list Z) : list Z :=
  match bytes with
  | [] => []
  | b :: bytes => if b =? 0 then [] else b :: text bytes
  end.
(** [strcmp] and [strncmp] are those of the C library (the ones of api_string.c are
    compiled out): [true] means different, and running off an array is a fault. *)
Fixpoint c_strcmp (s1 s2 : list Z) : res bool :=
  match s1, s2 with
  | a :: s1, b :: s2 => if negb (a =? b) then Ok true else if a =? 0 then Ok false else c_strcmp s1 s2
  | _, _ => Fault
  end.
Fixpoint c_strncmp (n : nat) (s1 s2 : list Z) : res bool :=
  match n with
  | O => Ok false
  | S n =>
      match s1, s2 with
      | a :: s1, b :: s2 => if negb (a =? b) then Ok true else if a =? 0 then Ok false else c_strncmp n s1 s2
      | _, _ => Fault
      end
  end.
(** [kstrlcpy]: a shorter text is copied without its terminating zero. *)
Definition name_copy (dest src : list Z) (n : nat) : list Z :=
  if decide (n <= length src)%nat then take (n - 1) src ++ 0 :: drop n dest else src ++ drop (length src) dest.
(** [kstrcpy] copies the text without its terminating zero; of an empty text it
    copies the zero and goes on with what lies behind it. *)
Definition name_strcpy (dest src : list Z) : res (list Z) :=
  match src with
  | [] => Fault
  | _ => if decide (length src <= length dest)%nat then Ok (src ++ drop (length src) dest) else Fault
  end.

(** A text equals what an array begins with, up to and with the zero. *)
Lemma c_strcmp_spec buf name : (length name < length buf)%nat -> 0 ∉ name ->
  c_strcmp buf (name ++ [0]) = Ok (negb (bool_decide (name ++ [0] `prefix_of` buf))).
Proof.
  revert name. induction buf as [|b buf IH]; intros [|c name] Hl Hz; cbn [length app c_strcmp] in *; try lia.
  - destruct (Z.eqb_spec b 0) as [->|Hb]; cbn [negb].
    + rewrite bool_decide_true; [done|]. apply prefix_cons, prefix_nil.
    + rewrite bool_decide_false; [done|]. intros Hp%prefix_cons_inv_1. congruence.
  - apply not_elem_of_cons in Hz as [Hc Hz]. destruct (Z.eqb_spec b c) as [->|Hb]; cbn [negb].
    + rewrite (proj2 (Z.eqb_neq c 0)), IH by (done || lia). f_equal. f_equal. apply bool_decide_ext.
      split; [apply prefix_cons|apply prefix_cons_inv_2].
    + rewrite bool_decide_false; [done|]. intros Hp%prefix_cons_inv_1. congruence.
Qed.
Lemma c_strncmp_total n : forall buf name, length buf = n -> exists d, c_strncmp n buf (name ++ [0]) = Ok d.
Proof.
  induction n as [|n IH]; intros [|b buf] name Hl; simpl in *; try done; [by eexists|].
  destruct name as [|c name]; simpl; [destruct (b =? 0); eauto|]. destruct (b =? c); simpl; [|by eexists].
  destruct (b =? 0); [by eexists|]. apply IH. lia.
Qed.
Lemma text_app s t : Forall (fun c => c <> 0) s -> text (s ++ t) = s ++ text t.
Proof. induction 1 as [|c s Hc Hs IH]; [done|]. simpl. by rewrite (proj2 (Z.eqb_neq c 0) Hc), IH. Qed.
Lemma text_zero_free s : 0 ∉ text s.
Proof.
  induction s as [|c s IH]; simpl; [apply not_elem_of_nil|]. destruct (Z.eqb_spec c 0); [apply not_elem_of_nil|]. apply not_elem_of_cons. by split.
Qed.
Lemma prefix_of_head (l : list Z) x : head l = Some x -> [x] `prefix_of` l.
Proof. destruct l as [|y l]; [done|]. intros [= ->]. by apply prefix_cons, prefix_nil. Qed.
Lemma text_nonzero s : 0 ∉ s -> text s = s.
Proof.
  induction s as [|c s IH]; intros Hz; [done|]. apply not_elem_of_cons in Hz as [Hc Hz]. simpl.
  by rewrite (proj2 (Z.eqb_neq c 0)), IH by done.
Qed.
(** Two texts are compared as a whole. *)
Lemma c_strcmp_text s t : 0 ∉ t -> c_strcmp (s ++ [0]) (t ++ [0]) = Ok (negb (bool_decide (text s = t))).
Proof.
  revert t. induction s as [|b s IH]; intros [|c t] Hz; cbn [app c_strcmp text]; try done.
  - apply not_elem_of_cons in Hz as [Hc Hz]. by rewrite (proj2 (Z.eqb_neq 0 c)).
  - destruct (Z.eqb_spec b 0); cbn [negb]; [done|]. by rewrite bool_decide_false.
  - apply not_elem_of_cons in Hz as [Hc Hz]. destruct (Z.eqb_spec b c) as [->|Hbc]; cbn [negb].
    + rewrite (proj2 (Z.eqb_neq c 0)), IH by done. f_equal. f_equal. apply bool_decide_ext. split; [by intros ->|by intros [= ?]].
    + rewrite bool_decide_false; [done|]. destruct (Z.eqb_spec b 0); congruence.
Qed.
