(* ===== verification/Sched.v ===== *)
(** * The scheduler (kernel/sched.c, include/kernel/sched.h)

    The scheduler table maps thread ids to threads and keeps three lists, ready,
    suspended and sleeping, ordered by priority, plus the running thread.  A
    [struct thread *] of the code is the thread's id here: threads reach the
    table only through [register_new_thread], which stores each at the index of
    its id.  The lists are the sequences that list_types.h represents.

    Reading a null or absent thread is [Fault]; so is indexing the table outside
    its 128 slots.  The configuration is the one in configs/: preemption on,
    [CONFIG_ROLL_POLL] off. *)

From stdpp Require Import prelude gmap fin_maps sorting.
From S2P Require Import Prelude Sync KTime.

(** ** Data *)
Definition NR_THREAD_NONE : Z := 0.
Definition NR_THREAD_RUNNING : Z := 1.
Definition NR_THREAD_READY : Z := 2.
Definition NR_THREAD_SUSPEND : Z := 3.
Definition NR_THREAD_SLEEP : Z := 4.
Definition NR_THREAD_STATUS_MAX : Z := 5.
Definition NR_THREAD_SIG_WAKEUP : Z := 6.
Definition NR_THREAD_SIG_KILL : Z := 7.

Definition THREAD_MAX_NUM : Z := 128.
Definition THREAD_TID_START : Z := 32.
Definition THREAD_TID_IDLE : Z := 0.

(** Words of [struct thread] and of its attribute that the scheduler uses. *)
Record thread := Thread {
  t_status : Z;
  t_to_status : Z;
  t_prio : Z;              (* sprt_attr->sgrt_param.sched_curpriority *)
  t_stack_addr : Z;        (* sprt_attr->stack_addr *)
  t_expires : Z;
  t_flags : Z;
  t_lock : spin_lock_t;
}.

Record sched := Sched {
  s_tids : gmap Z thread;  (* sprt_tid_array *)
  s_work : option Z;       (* sprt_work *)
  s_ready : list Z;
  s_suspend : list Z;
  s_sleep : list Z;
  s_ref : Z;               (* thread_schedule_ref *)
  s_cnt_out : Z;
  s_sched_cnt : Z;
  s_lock : spin_lock_t;
  s_cpu : cpu;
  s_spsr : Z;
}.

Definition upd_thread (f : thread -> thread) (tid : Z) (s : sched) : sched :=
  Sched (alter f tid (s_tids s)) (s_work s) (s_ready s) (s_suspend s) (s_sleep s) (s_ref s)
    (s_cnt_out s) (s_sched_cnt s) (s_lock s) (s_cpu s) (s_spsr s).
Definition set_work (w : option Z) (s : sched) : sched :=
  Sched (s_tids s) w (s_ready s) (s_suspend s) (s_sleep s) (s_ref s)
    (s_cnt_out s) (s_sched_cnt s) (s_lock s) (s_cpu s) (s_spsr s).
Definition set_cpu (c : cpu) (s : sched) : sched :=
  Sched (s_tids s) (s_work s) (s_ready s) (s_suspend s) (s_sleep s) (s_ref s)
    (s_cnt_out s) (s_sched_cnt s) (s_lock s) c (s_spsr s).
Definition set_lock (l : spin_lock_t) (s : sched) : sched :=
  Sched (s_tids s) (s_work s) (s_ready s) (s_suspend s) (s_sleep s) (s_ref s)
    (s_cnt_out s) (s_sched_cnt s) l (s_cpu s) (s_spsr s).

(** The three list heads of the table. *)
Inductive slist := Ready | Suspend | Sleep.
#[export] Instance slist_eq_dec : EqDecision slist.
Proof. solve_decision. Defined.
Definition get_list (h : slist) (s : sched) : list Z :=
  match h with Ready => s_ready s | Suspend => s_suspend s | Sleep => s_sleep s end.
Definition set_list (h : slist) (l : list Z) (s : sched) : sched :=
  match h with
  | Ready => Sched (s_tids s) (s_work s) l (s_suspend s) (s_sleep s) (s_ref s)
               (s_cnt_out s) (s_sched_cnt s) (s_lock s) (s_cpu s) (s_spsr s)
  | Suspend => Sched (s_tids s) (s_work s) (s_ready s) l (s_sleep s) (s_ref s)
               (s_cnt_out s) (s_sched_cnt s) (s_lock s) (s_cpu s) (s_spsr s)
  | Sleep => Sched (s_tids s) (s_work s) (s_ready s) (s_suspend s) l (s_ref s)
               (s_cnt_out s) (s_sched_cnt s) (s_lock s) (s_cpu s) (s_spsr s)
  end.
Definition status_of (h : slist) : Z :=
  match h with Ready => NR_THREAD_READY | Suspend => NR_THREAD_SUSPEND | Sleep => NR_THREAD_SLEEP end.

(** ** The table *)

(** [SCHED_THREAD_HANDLER(tid)] as a possibly null pointer, and dereferenced. *)
Definition thread_handler (s : sched) (tid : Z) : res (option thread) :=
  if (0 <=? tid) && (tid <? THREAD_MAX_NUM) then Ok (s_tids s !! tid) else Fault.
Definition thread_deref (s : sched) (tid : Z) : res thread :=
  o ← thread_handler s tid; deref o.

Definition get_current_thread (s : sched) : option Z := s_work s.

(** A [tid_t] argument is compared unsigned with the table size only through
    [tid >= THREAD_MAX_NUM], so a negative id indexes before the table. *)
Definition get_thread_handle (s : sched) (tid : Z) : res (option thread) :=
  if THREAD_MAX_NUM <=? tid then Ok None else thread_handler s tid.

Definition __SET_THREAD_STATUS (tid value : Z) (s : sched) : res sched :=
  if value <? NR_THREAD_STATUS_MAX then
    _ ← thread_deref s tid;
    Ok (upd_thread (fun t => Thread (t_status t) value (t_prio t) (t_stack_addr t) (t_expires t) (t_flags t) (t_lock t)) tid s)
  else Ok s.

Definition __SYNC_THREAD_STATUS (tid value : Z) (s : sched) : res sched :=
  if value <? NR_THREAD_STATUS_MAX then
    _ ← thread_deref s tid;
    Ok (upd_thread (fun t => Thread value NR_THREAD_NONE (t_prio t) (t_stack_addr t) (t_expires t) (t_flags t) (t_lock t)) tid s)
  else Ok s.

Definition __GET_THREAD_STATUS (tid : Z) (s : sched) : res Z := t ← thread_deref s tid; Ok (t_status t).

Definition thread_set_state (tid state : Z) (s : sched) : res sched := __SET_THREAD_STATUS tid state s.

Definition sched_lock_irqsave (s : sched) : res sched :=
  '(c, l) ← spin_lock_irqsave (s_cpu s) (s_lock s);
  Ok (set_lock l (set_cpu c s)).
Definition sched_unlock_irqrestore (s : sched) : sched :=
  let '(c, l) := spin_unlock_irqrestore (s_cpu s) (s_lock s) in set_lock l (set_cpu c s).

(** [for (i = i_start; i < i_start + count; i++)]: the first free slot. *)
Fixpoint unused_tid (s : sched) (i : Z) (count : nat) : res Z :=
  match count with
  | O => Ok (- ER_MORE)
  | S count =>
      o ← thread_handler s i;
      match o with
      | None => Ok i
      | Some _ => unused_tid s (i + 1) count
      end
  end.
Definition get_unused_tid_from_scheduler (i_start : Z) (count : nat) (s : sched) : res (Z * sched) :=
  s ← sched_lock_irqsave s;
  r ← unused_tid s i_start count;
  Ok (r, sched_unlock_irqrestore s).

Definition __THREAD_MAX_STATS : Z := W32 - 1.
Definition scheduler_record (s : sched) : sched :=
  let over := __THREAD_MAX_STATS <=? s_sched_cnt s in
  Sched (s_tids s) (s_work s) (s_ready s) (s_suspend s) (s_sleep s) (s_ref s)
    (if over then u32 (s_cnt_out s + 1) else s_cnt_out s)
    (if over then 0 else u32 (s_sched_cnt s + 1)) (s_lock s) (s_cpu s) (s_spsr s).
Definition scheduler_stats_get (s : sched) : res (Z * sched) :=
  s ← sched_lock_irqsave s;
  let sum := u32 (u32 (__THREAD_MAX_STATS * s_cnt_out s) + s_sched_cnt s) in
  Ok (sum, sched_unlock_irqrestore s).

(** ** The lists *)
Definition is_ready_thread_empty (s : sched) : bool := bool_decide (s_ready s = []).
Definition is_suspend_thread_empty (s : sched) : bool := bool_decide (s_suspend s = []).
Definition is_sleep_thread_empty (s : sched) : bool := bool_decide (s_sleep s = []).
Definition get_first_ready_thread (s : sched) : option Z := head (s_ready s).
Definition get_first_suspend_thread (s : sched) : option Z := head (s_suspend s).
Definition get_first_sleep_thread (s : sched) : option Z := head (s_sleep s).

Definition is_thread_valid (tid : Z) (s : sched) : res bool :=
  o ← get_thread_handle s tid;
  t ← deref o;
  Ok (negb (t_status t =? NR_THREAD_SLEEP) && negb (t_to_status t =? NR_THREAD_SLEEP)).

Definition __find_thread_from_scheduler (tid : Z) (h : slist) (s : sched) : res Z :=
  _ ← thread_handler s tid;
  if bool_decide (get_list h s = []) then Ok (- ER_NOTFOUND)
  else if decide (tid ∈ get_list h s) then Ok tid else Ok (- ER_NOTFOUND).

(** From the tail towards the head, stop after the first member of the same or
    a higher priority; [rl] is the list reversed. *)
Fixpoint insert_from_tail (s : sched) (prio tid : Z) (rl : list Z) : res (list Z) :=
  match rl with
  | [] => Ok [tid]
  | any :: rl' =>
      t ← thread_deref s any;
      if t_prio t <=? prio then Ok (tid :: any :: rl')
      else rl'' ← insert_from_tail s prio tid rl'; Ok (any :: rl'')
  end.

Definition __schedule_add_status_list (tid : Z) (h : slist) (s : sched) : res (Z * sched) :=
  t ← thread_deref s tid;
  let iPriority := t_prio t in
  if bool_decide (get_list h s = []) then Ok (ER_NORMAL, set_list h [tid] s)
  else
    found ← __find_thread_from_scheduler tid h s;
    if 0 <=? found then Ok (ER_NORMAL, s)
    else
      rl ← insert_from_tail s iPriority tid (reverse (get_list h s));
      Ok (ER_NORMAL, set_list h (reverse rl) s).

(** [list_head_del_safe]: a member is unlinked, anything else left alone. *)
Definition __schedule_del_status_list (tid : Z) (h : slist) (s : sched) : sched :=
  set_list h (filter (fun x => x <> tid) (get_list h s)) s.

(** [schedule_add_ready_list], [schedule_add_suspend_list], [schedule_add_sleep_list]. *)
Definition schedule_add_list (h : slist) (tid : Z) (s : sched) : res (Z * sched) :=
  o ← thread_handler s tid;
  match o with
  | None => Ok (- ER_FAULT, s)
  | Some t => if status_of h =? t_status t then Ok (- ER_UNVALID, s)
              else __schedule_add_status_list tid h s
  end.
Definition schedule_add_ready_list := schedule_add_list Ready.
Definition schedule_add_suspend_list := schedule_add_list Suspend.
Definition schedule_add_sleep_list := schedule_add_list Sleep.

(** [schedule_detach_ready_list], [schedule_detach_suspend_list], [schedule_detach_sleep_list]. *)
Definition schedule_detach_list (h : slist) (tid : Z) (s : sched) : res (Z * sched) :=
  o ← thread_handler s tid;
  match o with
  | None => Ok (- ER_FAULT, s)
  | Some t => if negb (status_of h =? t_status t) then Ok (- ER_UNVALID, s)
              else Ok (ER_NORMAL, __schedule_del_status_list tid h s)
  end.
Definition schedule_detach_ready_list := schedule_detach_list Ready.
Definition schedule_detach_suspend_list := schedule_detach_list Suspend.
Definition schedule_detach_sleep_list := schedule_detach_list Sleep.

(** The list a thread's link is in, if any; a link in none points to itself. *)
Definition link_list (tid : Z) (s : sched) : option slist :=
  if decide (tid ∈ s_ready s) then Some Ready
  else if decide (tid ∈ s_suspend s) then Some Suspend
  else if decide (tid ∈ s_sleep s) then Some Sleep
  else None.

(** [next_ready_thread], [next_suspend_thread], [next_sleep_thread].  The walk
    follows the link of [prev] wherever it is; past the end of another list it
    would take a list head for a thread. *)
Definition next_thread (h : slist) (prev : option Z) (s : sched) : res (option Z) :=
  match prev with
  | None => Ok (head (get_list h s))
  | Some p =>
      if bool_decide (get_list h s = []) then Ok None
      else match link_list p s with
           | None => Ok None
           | Some h' =>
               match list_find (eq p) (get_list h' s) with
               | Some (i, _) =>
                   match get_list h' s !! S i with
                   | Some q => Ok (Some q)
                   | None => if decide (h' = h) then Ok None else Fault
                   end
               | None => Ok None
               end
           end
  end.
Definition next_ready_thread := next_thread Ready.
Definition next_suspend_thread := next_thread Suspend.
Definition next_sleep_thread := next_thread Sleep.

(** ** Switching *)
Definition schedule_despoil_work_role (tid : Z) (s : sched) : res (Z * sched) :=
  o ← thread_handler s tid;
  match o with
  | None => Ok (- ER_FAULT, s)
  | Some t =>
      if negb (NR_THREAD_READY =? t_status t) then Ok (- ER_UNVALID, s)
      else
        match s_work s with
        | Some run =>
            '(retval, s) ← schedule_add_ready_list run s;
            if retval <? 0 then Ok (retval, s)
            else
              s ← __SYNC_THREAD_STATUS run NR_THREAD_READY s;
              Ok (ER_NORMAL, set_work (Some tid) s)
        | None => Ok (ER_NORMAL, set_work (Some tid) s)
        end
  end.

Definition schedule_reinstall_work_role (tid : Z) (s : sched) : res (Z * sched) :=
  run ← deref (s_work s);
  if negb (tid =? run) then Ok (- ER_UNVALID, s)
  else
    match s_ready s with
    | [] => Ok (- ER_FAULT, s)
    | first :: _ =>
        '(_, s) ← schedule_detach_ready_list first s;
        let s := set_work (Some first) s in
        s ← __SYNC_THREAD_STATUS first NR_THREAD_RUNNING s;
        Ok (ER_NORMAL, s)
    end.

(** The [fail] label of [schedule_thread_switch]. *)
Definition switch_fail (tid src : Z) (s : sched) : res (Z * sched) :=
  s ← __SYNC_THREAD_STATUS tid src s;
  Ok (- ER_UNVALID, set_cpu (mrt_preempt_enable (s_cpu s)) s).

(** The two switches over the old and the new status. *)
Definition switch_detach (tid src : Z) (s : sched) : res (Z * sched) :=
  if src =? NR_THREAD_RUNNING then schedule_reinstall_work_role tid s
  else if src =? NR_THREAD_READY then '(_, s) ← schedule_detach_ready_list tid s; Ok (ER_NORMAL, s)
  else if src =? NR_THREAD_SUSPEND then '(_, s) ← schedule_detach_suspend_list tid s; Ok (ER_NORMAL, s)
  else if src =? NR_THREAD_SLEEP then '(_, s) ← schedule_detach_sleep_list tid s; Ok (ER_NORMAL, s)
  else Ok (ER_NORMAL, s).
Definition switch_attach (tid dst : Z) (s : sched) : res (Z * sched) :=
  if dst =? NR_THREAD_RUNNING then schedule_despoil_work_role tid s
  else if dst =? NR_THREAD_READY then schedule_add_ready_list tid s
  else if dst =? NR_THREAD_SUSPEND then schedule_add_suspend_list tid s
  else if dst =? NR_THREAD_SLEEP then schedule_add_sleep_list tid s
  else Ok (- ER_ERROR, s).

Definition schedule_thread_switch (tid : Z) (s : sched) : res (Z * sched) :=
  let s := set_cpu (mrt_preempt_disable (s_cpu s)) s in
  t ← thread_deref s tid;
  let src := t_status t in
  let dst := t_to_status t in
  if (src =? dst) || (NR_THREAD_STATUS_MAX <=? dst) then switch_fail tid src s
  else if (tid =? THREAD_TID_IDLE) && (negb (dst =? NR_THREAD_RUNNING) && negb (dst =? NR_THREAD_READY))
  then switch_fail tid src s
  else
    '(r, s) ← switch_detach tid src s;
    if negb (r =? 0) then switch_fail tid src s
    else
      '(retval, s) ← switch_attach tid dst s;
      if retval <? 0 then switch_fail tid src s
      else if bool_decide (s_work s = None) then switch_fail tid src s
      else
        s ← __SYNC_THREAD_STATUS tid dst s;
        Ok (ER_NORMAL, set_cpu (mrt_preempt_enable (s_cpu s)) s).

(** ** Scheduling *)

(** [__schedule_thread]: [None] is a null context; [Some next] the thread whose
    context is to be restored, [Some prev] the one whose context is saved when
    this is not the first switch. *)
Record context := Context { ctx_next : Z; ctx_prev : option Z }.

Definition __schedule_thread (s : sched) : res (option context * sched) :=
  match s_ready s with
  | [] => Ok (None, s)
  | first :: _ =>
      let go (sprt_prev : Z) (s : sched) : res (option context * sched) :=
        t ← thread_deref s sprt_prev;
        s ← (if t_to_status t =? NR_THREAD_NONE then __SET_THREAD_STATUS sprt_prev NR_THREAD_READY s else Ok s);
        '(retval, s) ← schedule_thread_switch sprt_prev s;
        match s_work s with
        | Some next =>
            if retval <? 0 then Ok (None, s)
            else
              let prev_sp := if negb (s_ref s =? 0) then Some sprt_prev else None in
              Ok (Some (Context next prev_sp), scheduler_record s)
        | None => Ok (None, s)
        end in
      match s_work s with
      | Some prev => go prev s
      | None =>
          if negb (s_ref s =? 0) then Ok (None, s)
          else s ← __SET_THREAD_STATUS first NR_THREAD_RUNNING s; go first s
      end
  end.

Definition set_spsr (v : Z) (s : sched) : sched :=
  Sched (s_tids s) (s_work s) (s_ready s) (s_suspend s) (s_sleep s) (s_ref s)
    (s_cnt_out s) (s_sched_cnt s) (s_lock s) (s_cpu s) v.
Definition __push_psr (s : sched) : sched := set_spsr (cpsr (s_cpu s)) s.
Definition __pop_psr (s : sched) : sched := set_cpu (Cpu (s_spsr s) (g_sched_preempt_cnt (s_cpu s))) s.

(** What the next thread continues with that the table does not hold: the CPSR of its
    frame, the tick of the switch and the milliseconds its attribute gives it
    ([thread_get_sched_msecs], Thread.v). *)
Record resume := Resume { rs_psr : Z; rs_jiffies : Z; rs_milseconds : Z }.

(** [__thread_init_before], called from context.S on the way to the next thread. *)
Definition with_expires (v : Z) (t : thread) : thread :=
  Thread (t_status t) (t_to_status t) (t_prio t) (t_stack_addr t) v (t_flags t) (t_lock t).
Definition __thread_init_before (jiffies milseconds : Z) (s : sched) : sched :=
  match s_work s with
  | Some sprt_thread => upd_thread (with_expires (u32 (jiffies + msecs_to_jiffies milseconds))) sprt_thread s
  | None => s
  end.

(** What [context_switch] leaves in the table when control reaches the next
    thread (arch/arm/kernel/context.S): the first switch is recorded, the next
    thread has a full time slice, the CPSR is the one it resumes with, and
    preemption is enabled again. *)
Definition context_switch (rs : resume) (s : sched) : sched :=
  let s := __thread_init_before (rs_jiffies rs) (rs_milseconds rs) s in
  let c := mrt_preempt_enable (Cpu (rs_psr rs) (g_sched_preempt_cnt (s_cpu s))) in
  Sched (s_tids s) (s_work s) (s_ready s) (s_suspend s) (s_sleep s) 1
    (s_cnt_out s) (s_sched_cnt s) (s_lock s) c (s_spsr s).

Definition schedule_thread (rs : resume) (s : sched) : res sched :=
  let s := set_cpu (mrt_preempt_disable (s_cpu s)) s in
  let s := __push_psr s in
  let s := set_cpu (mrt_disable_cpu_irq (s_cpu s)) s in
  '(ctx, s) ← __schedule_thread s;
  match ctx with
  | Some _ => Ok (context_switch rs s)
  | None => let s := __pop_psr s in Ok (set_cpu (mrt_preempt_enable (s_cpu s)) s)
  end.

(** ** Requests *)
Definition schedule_self (status : Z) (rs : resume) (s : sched) : res sched :=
  s ← sched_lock_irqsave s;
  run ← deref (s_work s);
  s ← __SET_THREAD_STATUS run status s;
  let s := sched_unlock_irqrestore s in
  schedule_thread rs s.
Definition schedule_self_suspend := schedule_self NR_THREAD_SUSPEND.
Definition schedule_self_sleep := schedule_self NR_THREAD_SLEEP.

Definition schedule_thread_park (status : Z) (rs : resume) (tid : Z) (s : sched) : res (Z * sched) :=
  run ← deref (s_work s);
  if tid =? run then s ← schedule_self status rs s; Ok (ER_NORMAL, s)
  else
    s ← sched_lock_irqsave s;
    s ← __SET_THREAD_STATUS tid status s;
    '(retval, s) ← schedule_thread_switch tid s;
    Ok (retval, sched_unlock_irqrestore s).
Definition schedule_thread_suspend := schedule_thread_park NR_THREAD_SUSPEND.
Definition schedule_thread_sleep := schedule_thread_park NR_THREAD_SLEEP.

Definition schedule_thread_wakeup (tid : Z) (s : sched) : res (Z * sched) :=
  s ← sched_lock_irqsave s;
  status ← __GET_THREAD_STATUS tid s;
  if negb (status =? NR_THREAD_SUSPEND) && negb (status =? NR_THREAD_SLEEP)
  then Ok (- ER_UNVALID, sched_unlock_irqrestore s)
  else
    s ← __SET_THREAD_STATUS tid NR_THREAD_READY s;
    '(retval, s) ← schedule_thread_switch tid s;
    Ok (retval, sched_unlock_irqrestore s).

(** [register_new_thread] of a zeroed thread with the given attribute. *)
Definition register_new_thread (t : thread) (tid : Z) (s : sched) : res (Z * sched) :=
  o ← thread_handler s tid;
  match o with
  | Some _ => Ok (- ER_UNVALID, s)
  | None =>
      if t_stack_addr t =? 0 then Ok (- ER_NOMEM, s)
      else
        s ← sched_lock_irqsave s;
        let t := Thread (t_status t) (t_to_status t) (t_prio t) (t_stack_addr t) (t_expires t) (t_flags t)
                   (spin_lock_init (t_lock t)) in
        let s := Sched (<[tid := t]> (s_tids s)) (s_work s) (s_ready s) (s_suspend s) (s_sleep s) (s_ref s)
                   (s_cnt_out s) (s_sched_cnt s) (s_lock s) (s_cpu s) (s_spsr s) in
        '(retval, s) ← schedule_add_ready_list tid s;
        if retval <? 0 then
          let s := Sched (delete tid (s_tids s)) (s_work s) (s_ready s) (s_suspend s) (s_sleep s) (s_ref s)
                     (s_cnt_out s) (s_sched_cnt s) (s_lock s) (s_cpu s) (s_spsr s) in
          Ok (retval, sched_unlock_irqrestore s)
        else
          s ← __SYNC_THREAD_STATUS tid NR_THREAD_READY s;
          Ok (ER_NORMAL, sched_unlock_irqrestore s)
  end.

(** ** Signals of a thread (include/kernel/sched.h) *)
Definition NR_THREAD_SIG_NORMAL : Z := 5.
Definition NR_THREAD_SIG_INTR : Z := 8.

Definition with_flags (f : Z) (l : spin_lock_t) (t : thread) : thread :=
  Thread (t_status t) (t_to_status t) (t_prio t) (t_stack_addr t) (t_expires t) f l.
Definition mrt_thread_is_flags (signal : Z) (t : thread) : bool := atomic_is_bitset signal (t_flags t).

(** Run [f] on the flags of a thread, inside its own lock. *)
Definition flags_critical (f : Z -> Z) (tid : Z) (s : sched) : res sched :=
  t ← thread_deref s tid;
  '(c, l) ← spin_lock_irqsave (s_cpu s) (t_lock t);
  let flags := f (t_flags t) in
  let '(c, l) := spin_unlock_irqrestore c l in
  Ok (set_cpu c (upd_thread (with_flags flags l) tid s)).

Definition thread_state_pending (tid : Z) (s : sched) : res (bool * sched) :=
  t ← thread_deref s tid;
  let is_wakeup := mrt_thread_is_flags NR_THREAD_SIG_WAKEUP t in
  let is_killed := mrt_thread_is_flags NR_THREAD_SIG_KILL t in
  s ← flags_critical (fun f => Z.ldiff (Z.ldiff f (bitmask NR_THREAD_SIG_WAKEUP)) (bitmask NR_THREAD_SIG_KILL)) tid s;
  Ok (is_wakeup || is_killed, s).
Definition thread_state_signal (state : Z) (mode : bool) (tid : Z) (s : sched) : res sched :=
  flags_critical (fun f => if mode then Z.lor f (bitmask state) else Z.ldiff f (bitmask state)) tid s.
