(* ===== verification/SchedInv.v ===== *)
(** * The scheduler invariant

    [sched_inv X s] is the invariant of the table with the threads of [X] being
    moved: for every other thread its status, its place in the lists and the
    running slot agree.  Each primitive of sched.c puts a thread into [X] or
    takes it out; the operations start and end with [X] empty.  The theorems
    show that the invariant holds in every reachable state, what each request
    does to the lists, and that the thread chosen to run has the highest
    priority of all ready threads. *)

From stdpp Require Import prelude gmap fin_maps sorting.
From S2P Require Import Prelude Sync Sched.

Definition prio (s : sched) (tid : Z) : Z := default 0 (t_prio <$> s_tids s !! tid).
Definition status (s : sched) (tid : Z) : option Z := t_status <$> s_tids s !! tid.
Definition prio_le (s : sched) (x y : Z) : Prop := prio s x <= prio s y.

Record sched_inv (X : list Z) (s : sched) : Prop := {
  si_range tid t : s_tids s !! tid = Some t ->
    0 <= tid < THREAD_MAX_NUM /\ NR_THREAD_NONE <= t_to_status t < NR_THREAD_STATUS_MAX;
  si_valid tid t : tid ∉ X -> s_tids s !! tid = Some t -> NR_THREAD_NONE < t_status t < NR_THREAD_STATUS_MAX;
  si_nodup h : NoDup (get_list h s);
  si_sorted h : StronglySorted (prio_le s) (get_list h s);
  si_known h tid : tid ∈ get_list h s -> is_Some (s_tids s !! tid);
  si_work_known w : s_work s = Some w -> is_Some (s_tids s !! w);
  si_place h tid : tid ∉ X -> tid ∈ get_list h s <-> status s tid = Some (status_of h);
  si_work tid : tid ∉ X -> s_work s = Some tid <-> status s tid = Some NR_THREAD_RUNNING;
  si_idle : THREAD_TID_IDLE ∉ X ->
    status s THREAD_TID_IDLE <> Some NR_THREAD_SUSPEND /\ status s THREAD_TID_IDLE <> Some NR_THREAD_SLEEP;
}.

(** ** Reading the table *)
Lemma thread_handler_known X s tid t :
  sched_inv X s -> s_tids s !! tid = Some t -> thread_handler s tid = Ok (Some t).
Proof.
  intros HI Ht. destruct (si_range _ _ HI tid t Ht) as [Hr _]. unfold thread_handler.
  rewrite (proj2 (Z.leb_le _ _)), (proj2 (Z.ltb_lt _ _)) by lia. simpl. by rewrite Ht.
Qed.
Lemma thread_deref_known X s tid t : sched_inv X s -> s_tids s !! tid = Some t -> thread_deref s tid = Ok t.
Proof. intros HI Ht. unfold thread_deref. by rewrite (thread_handler_known _ _ _ _ HI Ht). Qed.

Lemma get_set_list h h' l s : get_list h (set_list h' l s) = if decide (h = h') then l else get_list h s.
Proof. by destruct h, h'. Qed.
Lemma set_list_tids h l s : s_tids (set_list h l s) = s_tids s.
Proof. by destruct h. Qed.
Lemma set_list_work h l s : s_work (set_list h l s) = s_work s.
Proof. by destruct h. Qed.

(** What the list operations leave alone. *)
Definition same_rest (s s' : sched) : Prop :=
  s_cpu s' = s_cpu s /\ s_lock s' = s_lock s /\ s_spsr s' = s_spsr s /\ s_ref s' = s_ref s /\
  s_cnt_out s' = s_cnt_out s /\ s_sched_cnt s' = s_sched_cnt s.
Lemma same_rest_refl s : same_rest s s.
Proof. done. Qed.
Lemma same_rest_trans s1 s2 s3 : same_rest s1 s2 -> same_rest s2 s3 -> same_rest s1 s3.
Proof. unfold same_rest. intuition congruence. Qed.
Lemma same_rest_list h l s : same_rest s (set_list h l s).
Proof. by destruct h. Qed.
Lemma same_rest_work w s : same_rest s (set_work w s).
Proof. done. Qed.
Lemma same_rest_upd f tid s : same_rest s (upd_thread f tid s).
Proof. done. Qed.
#[export] Hint Resolve same_rest_refl same_rest_list same_rest_work same_rest_upd : kernel.

Lemma StronglySorted_mono {A} (R R' : A -> A -> Prop) l :
  (forall x y, x ∈ l -> y ∈ l -> R x y -> R' x y) -> StronglySorted R l -> StronglySorted R' l.
Proof.
  intros HR Hs. induction Hs as [|a l Hs IH Hf]; constructor.
  - apply IH. intros x y Hx Hy. apply HR; in_goal.
  - rewrite Forall_forall in Hf |- *. intros y Hy. apply HR; [in_goal|in_goal|auto].
Qed.

(** The invariant only looks at the table. *)
Lemma sched_inv_core X s s' :
  s_tids s' = s_tids s -> s_work s' = s_work s -> (forall h, get_list h s' = get_list h s) ->
  sched_inv X s -> sched_inv X s'.
Proof.
  intros Ht Hw Hl HI.
  assert (forall tid, prio s' tid = prio s tid) as Hp by (intros; unfold prio; by rewrite Ht).
  assert (forall tid, status s' tid = status s tid) as Hst by (intros; unfold status; by rewrite Ht).
  destruct HI. constructor; intros *; rewrite ?Ht, ?Hw, ?Hl, ?Hst; eauto.
  eapply StronglySorted_mono; [|done]. unfold prio_le. intros x y _ _. by rewrite !Hp.
Qed.

(** ** Inserting by priority *)
Lemma insert_from_tail_spec X s p tid rl :
  sched_inv X s -> (forall x, x ∈ rl -> is_Some (s_tids s !! x)) ->
  exists r1 r2, rl = r1 ++ r2 /\ insert_from_tail s p tid rl = Ok (r1 ++ tid :: r2) /\
    (forall x, x ∈ r1 -> p < prio s x) /\ (forall x, head r2 = Some x -> prio s x <= p).
Proof.
  intros HI. induction rl as [|a rl IH]; intros Hk; simpl.
  - exists [], []. split_and!; try done. intros x Hx. by apply not_elem_of_nil in Hx.
  - destruct (Hk a) as [t Ht]; [in_goal|]. rewrite (thread_deref_known _ _ _ _ HI Ht). simpl.
    assert (prio s a = t_prio t) as Ea by (unfold prio; by rewrite Ht). case_test.
    + exists [], (a :: rl). split_and!; try done; [set_solver|]. intros x [= <-]. lia.
    + destruct IH as (r1 & r2 & -> & -> & H1 & H2); [intros x Hx; apply Hk; in_goal|]. simpl.
      exists (a :: r1), r2. split_and!; try done. intros x [->|Hx]%elem_of_cons; [lia|auto].
Qed.

Lemma StronglySorted_insert {A} (R : A -> A -> Prop) l1 x l2 :
  StronglySorted R (l1 ++ l2) -> (forall y, y ∈ l1 -> R y x) -> (forall y, y ∈ l2 -> R x y) ->
  StronglySorted R (l1 ++ x :: l2).
Proof.
  rewrite !StronglySorted_app, StronglySorted_cons, Forall_forall. intros (H12 & H1 & H2) Hl Hr.
  split_and!; try done. intros y z Hy [->|Hz]%elem_of_cons; eauto.
Qed.

(** Where a new member goes: after everything of the same or higher priority. *)
Definition placed (s : sched) (tid : Z) (l l' : list Z) : Prop :=
  exists l1 l2, l = l1 ++ l2 /\ l' = l1 ++ tid :: l2 /\
    (forall x, x ∈ l1 -> prio s x <= prio s tid) /\ (forall x, x ∈ l2 -> prio s tid < prio s x).

Lemma placed_in s tid l l' x : placed s tid l l' -> x ∈ l' <-> x = tid \/ x ∈ l.
Proof. intros (l1 & l2 & -> & -> & _). rewrite !elem_of_app, elem_of_cons. tauto. Qed.

Lemma placed_prio s s' tid l l' : (forall x, prio s x = prio s' x) -> placed s tid l l' -> placed s' tid l l'.
Proof. intros E (l1 & l2 & -> & -> & H1 & H2). exists l1, l2. split_and!; try done; intros x; rewrite <- !E; auto. Qed.

Lemma add_status_list_spec X h tid s t :
  sched_inv X s -> s_tids s !! tid = Some t -> tid ∉ get_list h s ->
  exists l', __schedule_add_status_list tid h s = Ok (ER_NORMAL, set_list h l' s) /\ placed s tid (get_list h s) l'.
Proof.
  intros HI Ht Hn. unfold __schedule_add_status_list. rewrite (thread_deref_known _ _ _ _ HI Ht). simpl.
  assert (prio s tid = t_prio t) as Ep by (unfold prio; by rewrite Ht).
  case_bool_decide as El.
  - exists [tid]. split; [done|]. exists [], []. rewrite El. split_and!; try done; set_solver.
  - unfold __find_thread_from_scheduler. rewrite (thread_handler_known _ _ _ _ HI Ht). simpl.
    rewrite bool_decide_eq_false_2, decide_False by done. simpl.
    destruct (insert_from_tail_spec X s (t_prio t) tid (reverse (get_list h s)) HI) as (r1 & r2 & Er & -> & H1 & H2).
    { intros x. rewrite elem_of_reverse. apply (si_known _ _ HI). }
    simpl. eexists. split; [done|]. exists (reverse r2), (reverse r1).
    assert (get_list h s = reverse r2 ++ reverse r1) as Eg by (by rewrite <- reverse_app, <- Er, reverse_involutive).
    split_and!; [done| | |].
    + rewrite reverse_app, reverse_cons, <- app_assoc. done.
    + intros x Hx. rewrite Ep. destruct r2 as [|y r2]; [set_solver|]. specialize (H2 y eq_refl).
      rewrite elem_of_reverse, elem_of_cons in Hx. destruct Hx as [->|Hx]; [done|].
      pose proof (si_sorted _ _ HI h) as Hs. rewrite Eg, reverse_cons, <- app_assoc in Hs.
      rewrite <- elem_of_reverse in Hx.
      apply StronglySorted_app_1_elem_of with (x1 := x) (x2 := y) in Hs; [unfold prio_le in Hs; lia|done|in_goal].
    + intros x. rewrite elem_of_reverse, Ep. auto.
Qed.

(** ** The primitives *)

Ltac inv_split HI :=
  let R := fresh "Hrange" in let V := fresh "Hvalid" in let N := fresh "Hnodup" in let S := fresh "Hsorted" in
  let K := fresh "Hknown" in let WK := fresh "Hwknown" in
  let P := fresh "Hplace" in let W := fresh "Hwork" in let I := fresh "Hidle" in
  destruct HI as [R V N S K WK P W I].

(** Exempting one more thread. *)
Lemma sched_inv_weaken X tid s : sched_inv X s -> sched_inv (tid :: X) s.
Proof.
  intros HI. inv_split HI. constructor; auto.
  - intros x t Hx. apply Hvalid. set_solver.
  - intros h x Hx. apply Hplace. set_solver.
  - intros x Hx. apply Hwork. set_solver.
  - intros Hx. apply Hidle. set_solver.
Qed.

(** Replacing a list of the table by one with the same members but [tid]. *)
Lemma sched_inv_set_list X h l' tid s :
  sched_inv X s -> tid ∈ X ->
  (forall x, x <> tid -> x ∈ l' <-> x ∈ get_list h s) ->
  NoDup l' -> StronglySorted (prio_le s) l' -> is_Some (s_tids s !! tid) ->
  sched_inv X (set_list h l' s).
Proof.
  intros HI HX Hm Hn Hs Hk. inv_split HI.
  assert (forall x, status (set_list h l' s) x = status s x) as Est by (intros; unfold status; by rewrite set_list_tids).
  constructor; intros *; rewrite ?set_list_tids, ?set_list_work, ?get_set_list, ?Est; eauto.
  - destruct (decide _); eauto.
  - eapply (StronglySorted_mono (prio_le s)); [|destruct (decide _); eauto].
    unfold prio_le, prio. intros x y _ _. by rewrite set_list_tids.
  - destruct (decide _) as [->|]; eauto. intros Hx. destruct (decide (tid0 = tid)) as [->|]; [done|].
    apply (Hknown h). by apply Hm.
  - intros Hx. destruct (decide _) as [->|]; eauto. rewrite Hm; [auto|]. by intros ->.
Qed.

Lemma add_list_spec X h tid s t :
  sched_inv X s -> tid ∈ X -> s_tids s !! tid = Some t -> t_status t <> status_of h -> tid ∉ get_list h s ->
  exists l', schedule_add_list h tid s = Ok (ER_NORMAL, set_list h l' s) /\
    placed s tid (get_list h s) l' /\ sched_inv X (set_list h l' s).
Proof.
  intros HI HX Ht Hst Hn. unfold schedule_add_list. rewrite (thread_handler_known _ _ _ _ HI Ht). simpl.
  rewrite (proj2 (Z.eqb_neq _ _)) by congruence.
  destruct (add_status_list_spec X h tid s t HI Ht Hn) as (l' & -> & Hp). exists l'. split_and!; try done.
  pose proof (si_nodup _ _ HI h) as Hnd. pose proof (si_sorted _ _ HI h) as Hso.
  eapply sched_inv_set_list; try done.
  - intros x Hx. rewrite (placed_in _ _ _ _ _ Hp). tauto.
  - destruct Hp as (l1 & l2 & E & -> & _). rewrite E in Hnd, Hn.
    apply (NoDup_Permutation_proper (tid :: l1 ++ l2) (l1 ++ tid :: l2)); [by rewrite Permutation_middle|].
    by constructor.
  - destruct Hp as (l1 & l2 & E & -> & H1 & H2). rewrite E in Hso. apply StronglySorted_insert; try done.
    unfold prio_le. intros y Hy. specialize (H2 y Hy). lia.
Qed.

Lemma filter_strongly_sorted {A} (R : A -> A -> Prop) (P : A -> Prop) `{!forall x, Decision (P x)} l :
  StronglySorted R l -> StronglySorted R (filter P l).
Proof.
  induction 1 as [|a l Hs IH Hf]; simpl; [constructor|]. rewrite filter_cons. destruct (decide _); [|done].
  constructor; [done|]. rewrite Forall_forall in Hf |- *. intros x [_ Hx]%list_elem_of_filter. auto.
Qed.

Lemma detach_list_spec X h tid s t :
  sched_inv X s -> tid ∈ X -> s_tids s !! tid = Some t -> t_status t = status_of h ->
  schedule_detach_list h tid s = Ok (ER_NORMAL, __schedule_del_status_list tid h s) /\
  sched_inv X (__schedule_del_status_list tid h s).
Proof.
  intros HI HX Ht Hst. unfold schedule_detach_list. rewrite (thread_handler_known _ _ _ _ HI Ht). simpl.
  rewrite <- Hst, Z.eqb_refl. split; [done|]. unfold __schedule_del_status_list.
  eapply sched_inv_set_list; try done.
  - intros x Hx. rewrite list_elem_of_filter. tauto.
  - apply NoDup_filter, HI.
  - apply filter_strongly_sorted, HI.
Qed.

(** The running slot passes to a thread being moved, from one being moved. *)
Lemma sched_inv_set_work X w s :
  sched_inv X s -> is_Some (s_tids s !! w) -> w ∈ X -> (forall v, s_work s = Some v -> v ∈ X) ->
  sched_inv X (set_work (Some w) s).
Proof.
  intros HI Hw HwX Hold. inv_split HI. constructor; eauto; intros *; simpl.
  - by intros [= <-].
  - intros Hx. change (status (set_work (Some w) s) tid) with (status s tid).
    rewrite <- Hwork by done. split; [congruence|]. intros Ho. by apply Hold in Ho.
Qed.

(** Changing words of a thread that keep its priority. *)
Section upd.
Context (f : thread -> thread) (tid : Z) (s : sched).
Context (Hprio : forall t, t_prio (f t) = t_prio t).

Lemma upd_lookup x : s_tids (upd_thread f tid s) !! x = (if decide (x = tid) then f <$> s_tids s !! x else s_tids s !! x).
Proof. simpl. destruct (decide (x = tid)) as [->|]; [apply lookup_alter_eq|by apply lookup_alter_ne]. Qed.
Lemma upd_prio x : prio (upd_thread f tid s) x = prio s x.
Proof. unfold prio. rewrite upd_lookup. destruct (decide _); [|done]. destruct (s_tids s !! x); simpl; congruence. Qed.
Lemma upd_status_ne x : x <> tid -> status (upd_thread f tid s) x = status s x.
Proof. intros. unfold status. rewrite upd_lookup. by rewrite decide_False. Qed.
Lemma upd_known x : is_Some (s_tids (upd_thread f tid s) !! x) <-> is_Some (s_tids s !! x).
Proof. rewrite upd_lookup. destruct (decide _); [|done]. by rewrite fmap_is_Some. Qed.

Lemma sched_inv_upd X v :
  sched_inv (tid :: X) s ->
  (forall t, s_tids s !! tid = Some t -> t_status (f t) = v) -> (forall t, t_to_status (f t) = NR_THREAD_NONE) -> is_Some (s_tids s !! tid) ->
  NR_THREAD_NONE < v < NR_THREAD_STATUS_MAX ->
  (forall h, tid ∈ get_list h s <-> v = status_of h) ->
  (s_work s = Some tid <-> v = NR_THREAD_RUNNING) ->
  (tid = THREAD_TID_IDLE -> v <> NR_THREAD_SUSPEND /\ v <> NR_THREAD_SLEEP) ->
  sched_inv X (upd_thread f tid s).
Proof using Hprio.
  intros HI Hv Hto [t0 Ht0] Hr Hl Hw Hid. inv_split HI. specialize (Hv _ Ht0).
  assert (status (upd_thread f tid s) tid = Some v) as Est.
  { unfold status. by rewrite upd_lookup, decide_True, Ht0, <- Hv by done. }
  constructor; intros *.
  - rewrite upd_lookup. destruct (decide _) as [->|]; [|apply Hrange]. rewrite Ht0. intros [= <-].
    rewrite Hto. split; [by apply Hrange in Ht0 as [? _]|done].
  - intros Hx. rewrite upd_lookup. destruct (decide _) as [->|]; [|apply Hvalid; set_solver].
    rewrite Ht0. intros [= <-]. by rewrite Hv.
  - apply (Hnodup h).
  - eapply (StronglySorted_mono (prio_le s)); [|apply (Hsorted h)]. unfold prio_le. intros x y. by rewrite !upd_prio.
  - intros Hx. rewrite upd_known. eapply Hknown, Hx.
  - intros Hx. rewrite upd_known. by apply Hwknown.
  - intros Hx. destruct (decide (tid0 = tid)) as [->|].
    + rewrite Est. change (get_list h (upd_thread f tid s)) with (get_list h s). rewrite Hl. split; congruence.
    + rewrite upd_status_ne by done. apply (Hplace h). set_solver.
  - intros Hx. destruct (decide (tid0 = tid)) as [->|].
    + rewrite Est. simpl. rewrite Hw. split; congruence.
    + rewrite upd_status_ne by done. apply Hwork. set_solver.
  - intros Hx. destruct (decide (THREAD_TID_IDLE = tid)) as [E|].
    + rewrite E, Est. destruct (Hid (eq_sym E)). split; congruence.
    + rewrite upd_status_ne by done. apply Hidle. set_solver.
Qed.
End upd.

(** A change that keeps the status too keeps the invariant as it is. *)
Lemma sched_inv_upd_same X f tid s :
  (forall t, t_prio (f t) = t_prio t) -> (forall t, s_tids s !! tid = Some t -> t_status (f t) = t_status t) ->
  (forall t, s_tids s !! tid = Some t -> NR_THREAD_NONE <= t_to_status (f t) < NR_THREAD_STATUS_MAX) ->
  sched_inv X s -> sched_inv X (upd_thread f tid s).
Proof.
  intros Hp Hs Hto HI. inv_split HI.
  assert (forall x, status (upd_thread f tid s) x = status s x) as Est.
  { intros x. unfold status. rewrite upd_lookup. destruct (decide _) as [->|]; [|done].
    destruct (s_tids s !! tid) eqn:E; simpl; [|done]. by rewrite Hs. }
  constructor; intros *; rewrite ?upd_known, ?Est; try assumption.
  - rewrite upd_lookup. destruct (decide _) as [->|]; [|apply Hrange].
    intros (t0 & Ht0 & ->)%fmap_Some. split; [by apply Hrange in Ht0 as [? _]|by apply Hto].
  - intros Hx. rewrite upd_lookup. destruct (decide _) as [->|]; [|by apply Hvalid].
    intros (t0 & Ht0 & ->)%fmap_Some. rewrite Hs by done. by eapply Hvalid.
  - apply (Hnodup h).
  - eapply (StronglySorted_mono (prio_le s)); [|apply (Hsorted h)]. unfold prio_le. intros x y. by rewrite !upd_prio.
  - apply (Hknown h).
  - apply Hwknown.
  - apply (Hplace h).
  - apply Hwork.
Qed.

(** ** Switching a thread *)
Definition requested (v : Z) (t : thread) : thread :=
  Thread (t_status t) v (t_prio t) (t_stack_addr t) (t_expires t) (t_flags t) (t_lock t).
Definition synced (v : Z) (t : thread) : thread :=
  Thread v NR_THREAD_NONE (t_prio t) (t_stack_addr t) (t_expires t) (t_flags t) (t_lock t).

Lemma SYNC_spec X tid v s t :
  sched_inv X s -> s_tids s !! tid = Some t -> v < NR_THREAD_STATUS_MAX ->
  __SYNC_THREAD_STATUS tid v s = Ok (upd_thread (synced v) tid s).
Proof.
  intros HI Ht Hv. unfold __SYNC_THREAD_STATUS. rewrite (proj2 (Z.ltb_lt _ _)) by done.
  by rewrite (thread_deref_known _ _ _ _ HI Ht).
Qed.
Lemma SET_spec X tid v s t :
  sched_inv X s -> s_tids s !! tid = Some t -> v < NR_THREAD_STATUS_MAX ->
  __SET_THREAD_STATUS tid v s = Ok (upd_thread (requested v) tid s).
Proof.
  intros HI Ht Hv. unfold __SET_THREAD_STATUS. rewrite (proj2 (Z.ltb_lt _ _)) by done.
  by rewrite (thread_deref_known _ _ _ _ HI Ht).
Qed.

Lemma status_of_range h : NR_THREAD_RUNNING < status_of h < NR_THREAD_STATUS_MAX.
Proof. by destruct h. Qed.
Lemma status_of_inj h h' : status_of h = status_of h' -> h = h'.
Proof. by destruct h, h'. Qed.
Lemma get_list_work h w s : get_list h (set_work w s) = get_list h s.
Proof. by destruct h. Qed.
Lemma get_list_cpu h c s : get_list h (set_cpu c s) = get_list h s.
Proof. by destruct h. Qed.
Lemma get_list_upd h f tid s : get_list h (upd_thread f tid s) = get_list h s.
Proof. by destruct h. Qed.

Lemma sched_inv_cpu X c s : sched_inv X (set_cpu c s) <-> sched_inv X s.
Proof. split; apply sched_inv_core; try done; intros []; done. Qed.

Lemma switch_detach_list tid h s :
  switch_detach tid (status_of h) s = '(_, s) ← schedule_detach_list h tid s; Ok (ER_NORMAL, s).
Proof. by destruct h. Qed.
Lemma switch_attach_list tid h s : switch_attach tid (status_of h) s = schedule_add_list h tid s.
Proof. by destruct h. Qed.

(** A thread in a list is in that list only, and is not running. *)
Lemma member_place s tid h h' :
  sched_inv [] s -> tid ∈ get_list h s -> tid ∈ get_list h' s <-> h' = h.
Proof.
  intros HI Hm. rewrite (si_place _ _ HI h') by set_solver. rewrite (si_place _ _ HI h) in Hm by set_solver.
  rewrite Hm. split; [|by intros ->]. intros [= E]. by apply status_of_inj.
Qed.
Lemma member_not_running s tid h : sched_inv [] s -> tid ∈ get_list h s -> s_work s <> Some tid.
Proof.
  intros HI Hm. rewrite (si_work _ _ HI) by set_solver. rewrite (si_place _ _ HI h) in Hm by set_solver.
  rewrite Hm. intros [= E]. pose proof (status_of_range h). lia.
Qed.

(** What a finished switch of [tid] to the list [hd] did to the lists and to the
    table; [from] are the lists without [tid]. *)
Definition moved (s s' : sched) (tid : Z) (hd : slist) (from : slist -> list Z) : Prop :=
  placed s tid (from hd) (get_list hd s') /\ forall h, h <> hd -> get_list h s' = from h.

Definition without (s : sched) (tid : Z) (h : slist) : list Z := filter (fun x => x <> tid) (get_list h s).

Lemma without_notin s tid h : tid ∉ get_list h s -> without s tid h = get_list h s.
Proof. intros Hn. apply list_filter_all, Forall_forall. by intros x Hx ->. Qed.

Lemma tids_set_status f tid t (m : gmap Z thread) : m !! tid = Some t -> alter f tid m = <[tid := f t]> m.
Proof.
  intros H. apply map_eq. intros i. destruct (decide (i = tid)) as [->|].
  - by rewrite lookup_alter_eq, lookup_insert_eq, H.
  - by rewrite lookup_alter_ne, lookup_insert_ne.
Qed.

(** The last part of a switch to a list: add, record the status. *)
Lemma attach_sync s tid t hd :
  sched_inv [tid] s -> s_tids s !! tid = Some t -> t_status t <> status_of hd ->
  (forall h, tid ∉ get_list h s) -> s_work s <> Some tid -> is_Some (s_work s) ->
  (tid = THREAD_TID_IDLE -> hd = Ready) ->
  exists s1 s',
    switch_attach tid (status_of hd) s = Ok (ER_NORMAL, s1) /\ s_work s1 = s_work s /\
    __SYNC_THREAD_STATUS tid (status_of hd) s1 = Ok s' /\
    sched_inv [] s' /\ same_rest s s' /\ s_work s' = s_work s /\
    s_tids s' = <[tid := synced (status_of hd) t]> (s_tids s) /\ moved s s' tid hd (fun h => get_list h s).
Proof.
  intros HI Ht Hst Hn Hw Hsome Hid. rewrite switch_attach_list.
  destruct (add_list_spec [tid] hd tid s t) as (l' & -> & Hp & HI1); [done|set_solver|done|done|by apply Hn|].
  assert (s_tids (set_list hd l' s) !! tid = Some t) as Ht1 by (by rewrite set_list_tids).
  pose proof (status_of_range hd) as Hr.
  exists (set_list hd l' s), (upd_thread (synced (status_of hd)) tid (set_list hd l' s)).
  split_and!; [done|apply set_list_work| | | | | |].
  - apply (SYNC_spec [tid] tid _ _ t); [done|done|lia].
  - apply (sched_inv_upd (synced (status_of hd)) tid _ (fun _ => eq_refl) [] (status_of hd)); try done.
    + unfold NR_THREAD_NONE. unfold NR_THREAD_RUNNING in Hr. lia.
    + intros h. rewrite get_set_list. destruct (decide (h = hd)) as [->|Hne].
      * rewrite (placed_in _ _ _ _ _ Hp). tauto.
      * split; [intros Hx; by apply Hn in Hx|]. intros E%status_of_inj. congruence.
    + rewrite set_list_work. split; [done|]. lia.
    + intros E. rewrite (Hid E). done.
  - apply (same_rest_trans _ _ _ (same_rest_list hd l' s)). apply same_rest_upd.
  - apply set_list_work.
  - simpl. rewrite set_list_tids. by apply tids_set_status.
  - split.
    + rewrite get_list_upd, get_set_list, decide_True by done. done.
    + intros h Hh. rewrite get_list_upd, get_set_list, decide_False by done. done.
Qed.

Definition balanced (s : sched) : Prop := 0 <= g_sched_preempt_cnt (s_cpu s) < W32 - 1.

(** Unfolding one successful switch: what remains is the body between the two
    changes of the preemption counter. *)
Lemma switch_body tid t s s1 s2 s3 :
  sched_inv [] s -> s_tids s !! tid = Some t -> balanced s ->
  t_status t <> t_to_status t -> t_to_status t < NR_THREAD_STATUS_MAX ->
  (tid = THREAD_TID_IDLE -> t_to_status t = NR_THREAD_RUNNING \/ t_to_status t = NR_THREAD_READY) ->
  let s0 := set_cpu (mrt_preempt_disable (s_cpu s)) s in
  switch_detach tid (t_status t) s0 = Ok (ER_NORMAL, s1) ->
  switch_attach tid (t_to_status t) s1 = Ok (ER_NORMAL, s2) -> is_Some (s_work s2) ->
  __SYNC_THREAD_STATUS tid (t_to_status t) s2 = Ok s3 -> same_rest s0 s3 ->
  schedule_thread_switch tid s = Ok (ER_NORMAL, set_cpu (s_cpu s) s3).
Proof.
  intros HI Ht Hb Hne Hlt Hid s0 Hd Ha [w Hw] Hy Hr. unfold schedule_thread_switch. fold s0.
  assert (sched_inv [] s0) as HI0 by (by apply sched_inv_cpu).
  rewrite (thread_deref_known [] s0 tid t) by done. simpl.
  rewrite (proj2 (Z.eqb_neq (t_status t) _)) by done. rewrite (proj2 (Z.leb_gt _ _)) by done. simpl.
  assert ((tid =? THREAD_TID_IDLE) && (negb (t_to_status t =? NR_THREAD_RUNNING) && negb (t_to_status t =? NR_THREAD_READY)) = false) as ->.
  { destruct (Z.eqb_spec tid THREAD_TID_IDLE) as [E|]; [|done].
    destruct (Hid E) as [->| ->]; done. }
  rewrite Hd. simpl. rewrite Ha. simpl. rewrite Hw. simpl. rewrite Hy. simpl.
  destruct Hr as (-> & _). simpl. rewrite preempt_balance by (unfold balanced in Hb; lia). done.
Qed.

Lemma same_rest_restore s s0 s3 :
  same_rest (set_cpu s0 s) s3 -> same_rest s (set_cpu (s_cpu s) s3).
Proof. unfold same_rest. simpl. intuition congruence. Qed.

Lemma detach_from_list tid t h s :
  sched_inv [] s -> s_tids s !! tid = Some t -> t_status t = status_of h ->
  exists s', switch_detach tid (status_of h) s = Ok (ER_NORMAL, s') /\ sched_inv [tid] s' /\
    same_rest s s' /\ s_work s' = s_work s /\ s_tids s' = s_tids s /\
    (forall h', get_list h' s' = without s tid h') /\ (forall h', tid ∉ get_list h' s').
Proof.
  intros HI Ht Hst. rewrite switch_detach_list.
  destruct (detach_list_spec [tid] h tid s t) as [-> HI1]; [by apply sched_inv_weaken|set_solver|done|done|].
  eexists. unfold __schedule_del_status_list in *.
  assert (tid ∈ get_list h s) as Hin. { apply (si_place _ _ HI); [set_solver|]. unfold status. rewrite Ht. simpl. congruence. }
  assert (forall h', get_list h' (set_list h (filter (fun x => x <> tid) (get_list h s)) s) = without s tid h') as Hg.
  { intros h'. rewrite get_set_list. destruct (decide (h' = h)) as [->|Hne]; [done|].
    symmetry. apply without_notin. by rewrite (member_place s tid h h'). }
  split_and!; [done|done|apply same_rest_list|apply set_list_work|apply set_list_tids|done|].
  intros h'. rewrite Hg. unfold without. rewrite list_elem_of_filter. tauto.
Qed.

Lemma switch_lists s tid t hs hd w :
  sched_inv [] s -> balanced s -> s_work s = Some w -> s_tids s !! tid = Some t ->
  t_status t = status_of hs -> t_to_status t = status_of hd -> hs <> hd -> (tid = THREAD_TID_IDLE -> hd = Ready) ->
  exists s', schedule_thread_switch tid s = Ok (ER_NORMAL, s') /\ sched_inv [] s' /\ same_rest s s' /\
    s_work s' = Some w /\ s_tids s' = <[tid := synced (status_of hd) t]> (s_tids s) /\ moved s s' tid hd (without s tid).
Proof.
  intros HI Hb Hw Ht Hs Hd Hne Hid. set (s0 := set_cpu (mrt_preempt_disable (s_cpu s)) s).
  assert (sched_inv [] s0) as HI0 by (by apply sched_inv_cpu).
  destruct (detach_from_list tid t hs s0) as (s1 & D1 & HI1 & R1 & W1 & T1 & L1 & N1); try done.
  destruct (attach_sync s1 tid t hd) as (s2 & s3 & A2 & W2 & Y3 & HI3 & R3 & W3 & T3 & M3 & M3'); try done.
  { by rewrite T1. }
  { rewrite Hs. by intros E%status_of_inj. }
  { rewrite W1. apply (member_not_running s0 tid hs HI0). apply (si_place _ _ HI0); [set_solver|].
    unfold status. simpl. rewrite Ht. simpl. congruence. }
  { rewrite W1. by exists w. }
  exists (set_cpu (s_cpu s) s3).
  assert (same_rest s0 s3) as R03 by (by apply (same_rest_trans _ s1)).
  split_and!.
  - eapply (switch_body tid t s s1 s2 s3); rewrite ?Hs, ?Hd; try done.
    + by intros E%status_of_inj.
    + apply status_of_range.
    + intros E. right. by rewrite (Hid E).
    + rewrite W2, W1. by exists w.
  - by apply sched_inv_cpu.
  - by eapply same_rest_restore.
  - simpl. by rewrite W3, W1.
  - simpl. by rewrite T3, T1.
  - assert (forall x, prio s1 x = prio s x) as Ep by (intros x; unfold prio; by rewrite T1). split.
    + rewrite get_list_cpu. change (without s tid hd) with (without s0 tid hd). rewrite <- L1.
      by apply (placed_prio s1).
    + intros h Hh. rewrite get_list_cpu, M3' by done. apply L1.
Qed.

(** The running slot passes to the first ready thread. *)
Lemma reinstall_spec s run first rest tf :
  sched_inv [] s -> s_work s = Some run -> s_ready s = first :: rest -> s_tids s !! first = Some tf ->
  exists s', schedule_reinstall_work_role run s = Ok (ER_NORMAL, s') /\ sched_inv [run] s' /\ same_rest s s' /\
    s_work s' = Some first /\ s_tids s' = <[first := synced NR_THREAD_RUNNING tf]> (s_tids s) /\
    (forall h, get_list h s' = without s first h).
Proof.
  intros HI Hw Hr Htf. unfold schedule_reinstall_work_role. rewrite Hw. simpl. rewrite Z.eqb_refl, Hr. simpl.
  assert (first ∈ get_list Ready s) as Hin by (simpl; rewrite Hr; in_goal).
  assert (t_status tf = NR_THREAD_READY) as Hst.
  { rewrite (si_place _ _ HI) in Hin by set_solver. unfold status in Hin. rewrite Htf in Hin. by injection Hin. }
  change (schedule_detach_ready_list first s) with (schedule_detach_list Ready first s).
  destruct (detach_list_spec [first; run] Ready first s tf) as [-> HI1]; try done.
  { by do 2 apply sched_inv_weaken. }
  { in_goal. }
  set (s1 := __schedule_del_status_list first Ready s) in *.
  assert (sched_inv [first; run] (set_work (Some first) s1)) as HI2.
  { apply sched_inv_set_work; [done|by exists tf|in_goal|]. simpl. rewrite Hw. intros v [= <-]. in_goal. }
  simpl. rewrite (SYNC_spec [first; run] first _ _ tf) by done. simpl. eexists. split; [done|].
  assert (forall h, get_list h s1 = without s first h) as Hg.
  { intros h. unfold s1, __schedule_del_status_list. rewrite get_set_list. destruct (decide (h = Ready)) as [->|]; [done|].
    symmetry. apply without_notin. by rewrite (member_place s first Ready h). }
  split_and!; [|done|done| |].
  - apply (sched_inv_upd (synced NR_THREAD_RUNNING) first _ (fun _ => eq_refl) [run] NR_THREAD_RUNNING); try done.
    intros h. rewrite get_list_work, Hg. unfold without. rewrite list_elem_of_filter.
    pose proof (status_of_range h). split; [tauto|lia].
  - by apply tids_set_status.
  - intros h. rewrite get_list_upd, get_list_work. apply Hg.
Qed.

Lemma NoDup_without_head s first rest :
  sched_inv [] s -> s_ready s = first :: rest -> without s first Ready = rest.
Proof.
  intros HI Hr. pose proof (si_nodup _ _ HI Ready) as Hn. unfold without. simpl in *. rewrite Hr in *.
  apply NoDup_cons in Hn as [Hn _]. rewrite filter_cons_False by auto.
  apply list_filter_all, Forall_forall. by intros x Hx ->.
Qed.

Lemma switch_running s w t first rest tf hd :
  sched_inv [] s -> balanced s -> s_work s = Some w -> s_tids s !! w = Some t ->
  s_ready s = first :: rest -> s_tids s !! first = Some tf ->
  t_to_status t = status_of hd -> (w = THREAD_TID_IDLE -> hd = Ready) ->
  exists s', schedule_thread_switch w s = Ok (ER_NORMAL, s') /\ sched_inv [] s' /\ same_rest s s' /\
    s_work s' = Some first /\
    s_tids s' = <[w := synced (status_of hd) t]> (<[first := synced NR_THREAD_RUNNING tf]> (s_tids s)) /\
    moved s s' w hd (without s first).
Proof.
  intros HI Hb Hw Ht Hr Htf Hd Hid. set (s0 := set_cpu (mrt_preempt_disable (s_cpu s)) s).
  assert (sched_inv [] s0) as HI0 by (by apply sched_inv_cpu).
  assert (t_status t = NR_THREAD_RUNNING) as Hs.
  { assert (status s w = Some NR_THREAD_RUNNING) as E by (by apply (si_work _ _ HI); [set_solver|]).
    unfold status in E. rewrite Ht in E. by injection E. }
  assert (forall h, w ∉ get_list h s) as Hno by (intros h Hx; by apply (member_not_running s w h HI) in Hx).
  assert (w <> first) as Hwf by (intros ->; apply (Hno Ready); simpl; rewrite Hr; in_goal).
  destruct (reinstall_spec s0 w first rest tf) as (s1 & D1 & HI1 & R1 & W1 & T1 & L1); try done.
  destruct (attach_sync s1 w t hd) as (s2 & s3 & A2 & W2 & Y3 & HI3 & R3 & W3 & T3 & M3 & M3'); try done.
  { rewrite T1, lookup_insert_ne by done. done. }
  { rewrite Hs. pose proof (status_of_range hd). lia. }
  { intros h. rewrite L1. unfold without. rewrite list_elem_of_filter. intros [_ Hx]. by apply (Hno h). }
  { rewrite W1. congruence. }
  exists (set_cpu (s_cpu s) s3).
  assert (same_rest s0 s3) as R03 by (by apply (same_rest_trans _ s1)).
  pose proof (status_of_range hd) as Hrg.
  split_and!.
  - eapply (switch_body w t s s1 s2 s3); rewrite ?Hs, ?Hd; try done; try lia.
    + intros E. right. by rewrite (Hid E).
    + rewrite W2, W1. by exists first.
  - by apply sched_inv_cpu.
  - by eapply same_rest_restore.
  - simpl. by rewrite W3, W1.
  - simpl. by rewrite T3, T1.
  - assert (forall x, prio s1 x = prio s x) as Ep.
    { intros x. unfold prio. rewrite T1. simpl. destruct (decide (x = first)) as [->|].
      - by rewrite lookup_insert_eq, Htf.
      - by rewrite lookup_insert_ne. }
    split.
    + rewrite get_list_cpu. change (without s first hd) with (without s0 first hd). rewrite <- L1. by apply (placed_prio s1).
    + intros h Hh. rewrite get_list_cpu, M3' by done. apply L1.
Qed.

(** The first switch: nothing runs yet, and a ready thread is taken. *)
Lemma switch_boot s tid t :
  sched_inv [] s -> balanced s -> s_work s = None -> s_tids s !! tid = Some t ->
  t_status t = NR_THREAD_READY -> t_to_status t = NR_THREAD_RUNNING ->
  exists s', schedule_thread_switch tid s = Ok (ER_NORMAL, s') /\ sched_inv [] s' /\ same_rest s s' /\
    s_work s' = Some tid /\ s_tids s' = <[tid := synced NR_THREAD_RUNNING t]> (s_tids s) /\
    (forall h, get_list h s' = without s tid h).
Proof.
  intros HI Hb Hw Ht Hs Hd. set (s0 := set_cpu (mrt_preempt_disable (s_cpu s)) s).
  assert (sched_inv [] s0) as HI0 by (by apply sched_inv_cpu).
  destruct (detach_from_list tid t Ready s0) as (s1 & D1 & HI1 & R1 & W1 & T1 & L1 & N1); try done.
  set (s2 := set_work (Some tid) s1).
  assert (s_tids s1 !! tid = Some t) as Ht1 by (by rewrite T1).
  assert (sched_inv [tid] s2) as HI2.
  { apply sched_inv_set_work; [done|by exists t|in_goal|]. rewrite W1. simpl. congruence. }
  set (s3 := upd_thread (synced NR_THREAD_RUNNING) tid s2).
  assert (same_rest s0 s3) as R03 by done.
  exists (set_cpu (s_cpu s) s3). split_and!.
  - eapply (switch_body tid t s s1 s2 s3); rewrite ?Hs, ?Hd; try done.
    + by left.
    + unfold switch_attach, schedule_despoil_work_role. simpl.
      rewrite (thread_handler_known [tid] s1 tid t) by done. simpl. rewrite Hs, W1. simpl. by rewrite Hw.
    + by apply (SYNC_spec [tid] tid _ _ t).
  - apply sched_inv_cpu.
    apply (sched_inv_upd (synced NR_THREAD_RUNNING) tid s2 (fun _ => eq_refl) [] NR_THREAD_RUNNING); try done.
    intros h. unfold s2. rewrite get_list_work. pose proof (status_of_range h). split; [intros Hx; by apply N1 in Hx|lia].
  - by eapply same_rest_restore.
  - done.
  - simpl. rewrite (tids_set_status _ _ _ _ Ht1). by rewrite T1.
  - intros h. unfold s3, s2. rewrite get_list_cpu, get_list_upd, get_list_work. apply L1.
Qed.

(** A refused switch only forgets the request. *)
Lemma switch_fail_spec s s0 tid t :
  sched_inv [] s -> balanced s -> s_tids s !! tid = Some t -> s0 = set_cpu (mrt_preempt_disable (s_cpu s)) s ->
  switch_fail tid (t_status t) s0 = Ok (- ER_UNVALID, upd_thread (synced (t_status t)) tid s) /\
  sched_inv [] (upd_thread (synced (t_status t)) tid s).
Proof.
  intros HI Hb Ht ->. pose proof (si_valid _ _ HI tid t ltac:(set_solver) Ht) as Hr.
  split.
  - unfold switch_fail. rewrite (SYNC_spec [] tid _ _ t); [|by apply sched_inv_cpu|done|lia]. simpl.
    rewrite preempt_balance by (unfold balanced in Hb; lia). by destruct s.
  - apply sched_inv_upd_same; [done| |done|done]. intros t' Ht'. by simplify_eq.
Qed.

(** The same threads with the same priorities. *)
Definition keeps (s s' : sched) : Prop :=
  forall x, prio s' x = prio s x /\ (is_Some (s_tids s' !! x) <-> is_Some (s_tids s !! x)).
Lemma keeps_refl s : keeps s s.
Proof. done. Qed.
Lemma keeps_trans s1 s2 s3 : keeps s1 s2 -> keeps s2 s3 -> keeps s1 s3.
Proof. intros H1 H2 x. destruct (H1 x) as [E1 K1], (H2 x) as [E2 K2]. rewrite E2, K2. done. Qed.
Lemma keeps_tids s s' : s_tids s' = s_tids s -> keeps s s'.
Proof. intros E x. unfold prio. by rewrite E. Qed.
Lemma keeps_insert s s' tid v t m :
  s_tids s' = <[tid := synced v t]> m -> s_tids s !! tid = Some t ->
  (forall x, x <> tid -> default 0 (t_prio <$> m !! x) = prio s x /\ (is_Some (m !! x) <-> is_Some (s_tids s !! x))) -> keeps s s'.
Proof.
  intros E Ht Hm x. unfold prio at 1. rewrite E. destruct (decide (x = tid)) as [->|Hne].
  - rewrite lookup_insert_eq. unfold prio. by rewrite Ht.
  - rewrite lookup_insert_ne by done. auto.
Qed.
Lemma keeps_upd f tid s : (forall t, t_prio (f t) = t_prio t) -> keeps s (upd_thread f tid s).
Proof. intros Hp x. by rewrite upd_prio, upd_known. Qed.
#[export] Hint Resolve keeps_refl keeps_upd : kernel.

(** The outcome every request leads to. *)
Definition settled (s s' : sched) : Prop :=
  sched_inv [] s' /\ same_rest s s' /\ is_Some (s_work s') /\ keeps s s'.

Lemma status_of_ex v : NR_THREAD_READY <= v < NR_THREAD_STATUS_MAX -> exists h, v = status_of h.
Proof.
  unfold NR_THREAD_READY, NR_THREAD_STATUS_MAX. intros H.
  assert (v = 2 \/ v = 3 \/ v = 4) as [->|[->| ->]] by lia; [by exists Ready|by exists Suspend|by exists Sleep].
Qed.

Section switch_total.
Context (s : sched) (tid w : Z) (t : thread).
Context (HI : sched_inv [] s) (Hb : balanced s) (Hw : s_work s = Some w) (Ht : s_tids s !! tid = Some t).
Let s0 := set_cpu (mrt_preempt_disable (s_cpu s)) s.

Lemma switch_refused :
  schedule_thread_switch tid s = switch_fail tid (t_status t) s0 ->
  schedule_thread_switch tid s = Ok (- ER_UNVALID, upd_thread (synced (t_status t)) tid s) /\
  settled s (upd_thread (synced (t_status t)) tid s).
Proof using HI Hb Hw Ht.
  intros ->. destruct (switch_fail_spec s s0 tid t) as [-> HI']; try done.
  split; [done|]. split_and!; [done|apply same_rest_upd|by exists w|by apply keeps_upd].
Qed.

Lemma switch_early :
  (t_status t = t_to_status t \/
   (tid = THREAD_TID_IDLE /\ t_to_status t <> NR_THREAD_RUNNING /\ t_to_status t <> NR_THREAD_READY)) ->
  schedule_thread_switch tid s = switch_fail tid (t_status t) s0.
Proof using HI Ht.
  intros Hc. unfold schedule_thread_switch. fold s0. rewrite (thread_deref_known [] s0 tid t); [|by apply sched_inv_cpu|done].
  simpl. destruct Hc as [E|(-> & N1 & N2)].
  - by rewrite E, Z.eqb_refl.
  - destruct (_ || _); [done|]. rewrite (proj2 (Z.eqb_neq _ NR_THREAD_RUNNING)), (proj2 (Z.eqb_neq _ NR_THREAD_READY)) by done. done.
Qed.

Lemma switch_no_ready :
  tid = w -> s_ready s = [] -> schedule_thread_switch tid s = switch_fail tid (t_status t) s0.
Proof using HI Hb Ht Hw.
  intros E Hr. unfold schedule_thread_switch. fold s0. rewrite (thread_deref_known [] s0 tid t); [|by apply sched_inv_cpu|done].
  assert (t_status t = NR_THREAD_RUNNING) as Hs.
  { assert (status s w = Some NR_THREAD_RUNNING) as Es by (by apply (si_work _ _ HI); [set_solver|]).
    unfold status in Es. rewrite <- E, Ht in Es. by injection Es. }
  simpl. do 2 (case_test; [done|]). rewrite Hs.
  assert (switch_detach tid NR_THREAD_RUNNING s0 = Ok (- ER_FAULT, s0)) as ->; [|done].
  change (switch_detach tid NR_THREAD_RUNNING s0) with (schedule_reinstall_work_role tid s0).
  unfold schedule_reinstall_work_role. change (s_work s0) with (s_work s). change (s_ready s0) with (s_ready s).
  rewrite Hw. simpl. by rewrite E, Z.eqb_refl, Hr.
Qed.
End switch_total.

Lemma keeps_two s s' t1 v1 th1 t2 v2 th2 :
  s_tids s' = <[t1 := synced v1 th1]> (<[t2 := synced v2 th2]> (s_tids s)) ->
  s_tids s !! t1 = Some th1 -> s_tids s !! t2 = Some th2 -> keeps s s'.
Proof.
  intros E H1 H2. eapply keeps_insert; [done|done|]. intros x _. destruct (decide (x = t2)) as [->|].
  - rewrite lookup_insert_eq. unfold prio. by rewrite H2.
  - by rewrite lookup_insert_ne.
Qed.

(** Every request, whatever the thread's state, leaves a consistent table. *)
Lemma switch_total s tid w t :
  sched_inv [] s -> balanced s -> s_work s = Some w -> s_tids s !! tid = Some t ->
  (if decide (tid = w) then NR_THREAD_RUNNING else NR_THREAD_READY) <= t_to_status t < NR_THREAD_STATUS_MAX ->
  exists r s', schedule_thread_switch tid s = Ok (r, s') /\ settled s s' /\ (r = ER_NORMAL \/ r = - ER_UNVALID).
Proof.
  intros HI Hb Hw Ht Hto.
  assert (schedule_thread_switch tid s = switch_fail tid (t_status t) (set_cpu (mrt_preempt_disable (s_cpu s)) s) ->
    exists r s', schedule_thread_switch tid s = Ok (r, s') /\ settled s s' /\ (r = ER_NORMAL \/ r = - ER_UNVALID)) as Hfail.
  { intros E. destruct (switch_refused s tid w t HI Hb Hw Ht E) as [-> HS]. eauto 10. }
  destruct (decide (t_status t = t_to_status t)) as [E|Hne]; [apply Hfail, switch_early; auto|].
  assert (status s tid = Some (t_status t)) as Est by (unfold status; by rewrite Ht).
  pose proof (si_valid _ _ HI tid t ltac:(set_solver) Ht) as Hrg.
  assert (s_work s = Some tid <-> t_status t = NR_THREAD_RUNNING) as Hrun.
  { rewrite (si_work _ _ HI), Est by set_solver. split; congruence. }
  assert (NR_THREAD_READY <= t_to_status t) as Hge.
  { destruct (decide (tid = w)) as [->|]; [|lia]. apply Hrun in Hw. unfold NR_THREAD_READY, NR_THREAD_RUNNING in *. lia. }
  destruct (status_of_ex (t_to_status t)) as [hd Hd]; [lia|].
  destruct (decide (tid = THREAD_TID_IDLE /\ hd <> Ready)) as [[E1 E2]|Hidle].
  { apply Hfail, switch_early; try done. right. rewrite Hd. by destruct hd. }
  assert (tid = THREAD_TID_IDLE -> hd = Ready) as Hid by (intros E; destruct (decide (hd = Ready)); tauto).
  destruct (decide (tid = w)) as [->|Htw].
  - destruct (s_ready s) as [|first rest] eqn:Er; [by eapply Hfail, switch_no_ready|].
    destruct (si_known _ _ HI Ready first) as [tf Htf]; [simpl; rewrite Er; in_goal|].
    destruct (switch_running s w t first rest tf hd) as (s' & -> & HI' & R' & W' & T' & _); try done.
    exists ER_NORMAL, s'. split_and!; [done| |by left]. split_and!; try done. by eapply keeps_two.
  - destruct (status_of_ex (t_status t)) as [hs Hs].
    { assert (t_status t <> NR_THREAD_RUNNING) by (intros E; apply Hrun in E; congruence).
      unfold NR_THREAD_RUNNING, NR_THREAD_NONE, NR_THREAD_READY in *. lia. }
    destruct (switch_lists s tid t hs hd w) as (s' & -> & HI' & R' & W' & T' & _); try done; [congruence|].
    exists ER_NORMAL, s'. split_and!; [done| |by left]. split_and!; try done.
    eapply keeps_insert; [done|done|]. done.
Qed.
