(* ===== verification/SchedOps.v ===== *)
(** * Requests to the scheduler

    The calls threads make (sched.c): register, set state, suspend, sleep, wake
    up, yield.  [sched_ok] holds before and after each; [reachable] states
    satisfy it.  The theorems say which thread runs next and where a thread that
    changes state is put. *)

From stdpp Require Import prelude gmap fin_maps sorting.
From S2P Require Import Prelude Sync KTime Sched SchedInv.

Record sched_ok (s : sched) : Prop := {
  ok_inv : sched_inv [] s;
  ok_boot : s_work s = None -> s_suspend s = [] /\ s_sleep s = [];
  ok_lock : lock_free (s_lock s);
  ok_cnt : 0 <= g_sched_preempt_cnt (s_cpu s) < W32 - 3;
}.

(** ** The table's own lock *)
Lemma sched_critical s :
  lock_free (s_lock s) -> 0 <= g_sched_preempt_cnt (s_cpu s) < W32 - 3 ->
  exists c l, sched_lock_irqsave s = Ok (set_lock l (set_cpu c s)) /\ 0 <= g_sched_preempt_cnt c < W32 - 1 /\
    forall s2, s_cpu s2 = c -> s_lock s2 = l ->
      sched_unlock_irqrestore s2 = set_lock (Lock 0 0) (set_cpu (s_cpu s) s2).
Proof.
  intros Hl Hc. destruct (irqsave_restore (s_cpu s) (s_lock s)) as (c & l & E & _ & Ec & _ & Er); [done|lia|].
  exists c, l. unfold sched_lock_irqsave. rewrite E. simpl. split_and!; [done|lia|lia|].
  intros s2 E1 E2. unfold sched_unlock_irqrestore. by rewrite E1, E2, Er.
Qed.

Lemma sched_inv_lock X l c s : sched_inv X (set_lock l (set_cpu c s)) <-> sched_inv X s.
Proof. split; apply sched_inv_core; try done; intros []; done. Qed.
Lemma get_list_lock h l s : get_list h (set_lock l s) = get_list h s.
Proof. by destruct h. Qed.

Lemma requested_inv tid v s :
  NR_THREAD_NONE <= v < NR_THREAD_STATUS_MAX -> sched_inv [] s -> sched_inv [] (upd_thread (requested v) tid s).
Proof. intros Hv. by apply sched_inv_upd_same. Qed.

(** A switch made inside the table's critical section. *)
Definition request_switch (tid v : Z) (s : sched) : res (Z * sched) :=
  s ← sched_lock_irqsave s;
  s ← __SET_THREAD_STATUS tid v s;
  '(retval, s) ← schedule_thread_switch tid s;
  Ok (retval, sched_unlock_irqrestore s).

(** The state a request leaves, given what the switch inside it does. *)
Definition unlocked (s s' : sched) : sched := set_lock (Lock 0 0) (set_cpu (s_cpu s) s').

Lemma request_switch_inner s tid v t :
  sched_ok s -> s_tids s !! tid = Some t -> NR_THREAD_NONE <= v < NR_THREAD_STATUS_MAX ->
  exists s1, s_tids s1 = <[tid := requested v t]> (s_tids s) /\ s_work s1 = s_work s /\
    (forall h, get_list h s1 = get_list h s) /\ sched_inv [] s1 /\ balanced s1 /\
    s_ref s1 = s_ref s /\ s_spsr s1 = s_spsr s /\ s_cnt_out s1 = s_cnt_out s /\ s_sched_cnt s1 = s_sched_cnt s /\
    forall r s2, schedule_thread_switch tid s1 = Ok (r, s2) -> same_rest s1 s2 ->
      request_switch tid v s = Ok (r, unlocked s s2).
Proof.
  intros [HI Hbt Hl Hc] Ht Hv. destruct (sched_critical s Hl Hc) as (c & l & E & Hcc & Hu).
  set (s0 := set_lock l (set_cpu c s)).
  assert (sched_inv [] s0) as HI0 by (by apply sched_inv_lock).
  exists (upd_thread (requested v) tid s0). split_and!; try done.
  - simpl. by rewrite (tids_set_status _ _ _ _ Ht).
  - by apply requested_inv.
  - intros r s2 Hs (Ec & El & _). unfold request_switch. rewrite E. simpl. fold s0.
    rewrite (SET_spec [] tid v s0 t) by (done || lia). simpl. rewrite Hs. simpl. by rewrite Hu.
Qed.

Lemma settled_ok s s1 s2 :
  sched_ok s -> settled s1 s2 -> sched_ok (unlocked s s2).
Proof.
  intros [HI Hbt Hl Hc] (HI2 & R2 & [w Hw] & K2). constructor; simpl; try done.
  - by apply sched_inv_lock.
  - congruence.
Qed.

Lemma request_switch_ok s tid v t w :
  sched_ok s -> s_tids s !! tid = Some t -> s_work s = Some w -> tid <> w -> NR_THREAD_READY <= v < NR_THREAD_STATUS_MAX ->
  exists r s', request_switch tid v s = Ok (r, s') /\ sched_ok s' /\ (r = ER_NORMAL \/ r = - ER_UNVALID).
Proof.
  intros Hok Ht Hw Hne Hv.
  destruct (request_switch_inner s tid v t) as (s1 & T1 & W1 & L1 & HI1 & B1 & _ & _ & _ & _ & Hreq); try done.
  { unfold NR_THREAD_NONE, NR_THREAD_READY in *. lia. }
  destruct (switch_total s1 tid w (requested v t)) as (r & s2 & Hs & HS & Hr); try done.
  { by rewrite W1. }
  { by rewrite T1, lookup_insert_eq. }
  { by rewrite decide_False. }
  exists r, (unlocked s s2). split_and!; [|by eapply settled_ok|done]. apply Hreq; [done|]. by destruct HS as (_ & ? & _).
Qed.

(** ** Giving up the processor *)

(** The thread that runs with a request pending, [NR_THREAD_READY] by default. *)
Definition pending (t : thread) : Z := if t_to_status t =? NR_THREAD_NONE then NR_THREAD_READY else t_to_status t.

Definition after_switch (sprt_prev retval : Z) (s : sched) : option context * sched :=
  match s_work s with
  | Some next =>
      if retval <? 0 then (None, s)
      else (Some (Context next (if negb (s_ref s =? 0) then Some sprt_prev else None)), scheduler_record s)
  | None => (None, s)
  end.

Lemma schedule_inner_running s w t :
  sched_inv [] s -> s_work s = Some w -> s_tids s !! w = Some t -> s_ready s <> [] ->
  exists s1, s_tids s1 = <[w := requested (pending t) t]> (s_tids s) /\ s_work s1 = Some w /\
    (forall h, get_list h s1 = get_list h s) /\ sched_inv [] s1 /\ same_rest s s1 /\
    __schedule_thread s = '(retval, s) ← schedule_thread_switch w s1; Ok (after_switch w retval s).
Proof.
  intros HI Hw Ht Hr. destruct (s_ready s) as [|first rest] eqn:Er; [done|].
  unfold __schedule_thread. rewrite Er, Hw. rewrite (thread_deref_known [] s w t HI Ht). simpl. unfold pending.
  destruct (Z.eqb_spec (t_to_status t) NR_THREAD_NONE) as [E|E].
  - rewrite (SET_spec [] w _ s t) by done. simpl. exists (upd_thread (requested NR_THREAD_READY) w s).
    split_and!; try done; [simpl; by rewrite (tids_set_status _ _ _ _ Ht)|by apply requested_inv|].
    destruct (schedule_thread_switch _ _) as [[r s2]| |]; try done. simpl. unfold after_switch.
    by destruct (s_work s2); [destruct (_ <? _)|].
  - exists s. split_and!; try done.
    + rewrite insert_id; [done|]. by destruct t.
    + simpl. destruct (schedule_thread_switch _ _) as [[r s2]| |]; try done. simpl. unfold after_switch.
      by destruct (s_work s2); [destruct (_ <? _)|].
Qed.

Lemma schedule_inner_boot s first rest t :
  sched_inv [] s -> balanced s -> s_work s = None -> s_ready s = first :: rest -> s_tids s !! first = Some t -> s_ref s = 0 ->
  exists s', __schedule_thread s = Ok (Some (Context first None), scheduler_record s') /\ sched_inv [] s' /\ same_rest s s' /\
    s_work s' = Some first /\ keeps s s' /\ (forall h, get_list h s' = without s first h).
Proof.
  intros HI Hb Hw Hr Ht Href. unfold __schedule_thread. rewrite Hr, Hw, Href. simpl.
  rewrite (SET_spec [] first _ s t) by done. simpl. set (s1 := upd_thread (requested NR_THREAD_RUNNING) first s).
  assert (sched_inv [] s1) as HI1 by (by apply requested_inv).
  assert (s_tids s1 !! first = Some (requested NR_THREAD_RUNNING t)) as Ht1 by (unfold s1; by rewrite upd_lookup, decide_True, Ht).
  rewrite (thread_deref_known [] s1 first _ HI1 Ht1). simpl.
  assert (t_status t = NR_THREAD_READY) as Hst.
  { assert (status s first = Some (status_of Ready)) as E by (apply (si_place _ _ HI); [set_solver|simpl; rewrite Hr; in_goal]).
    unfold status in E. rewrite Ht in E. by injection E. }
  destruct (switch_boot s1 first (requested NR_THREAD_RUNNING t)) as (s2 & -> & HI2 & R2 & W2 & T2 & L2); try done.
  simpl. rewrite W2. destruct R2 as (R2 & R3 & R4 & R5 & R6). simpl. rewrite R5. simpl. rewrite Href. simpl.
  exists s2. split_and!; try done.
  apply (keeps_trans _ s1); [by apply keeps_upd|]. by eapply keeps_insert.
Qed.

Lemma record_inv X s : sched_inv X s -> sched_inv X (scheduler_record s).
Proof. apply sched_inv_core; try done. Qed.

(** Whatever the state, [__schedule_thread] returns with the table consistent. *)
Lemma schedule_inner_ok s :
  sched_inv [] s -> balanced s ->
  exists ctx s', __schedule_thread s = Ok (ctx, s') /\ sched_inv [] s' /\
    s_cpu s' = s_cpu s /\ s_lock s' = s_lock s /\ s_spsr s' = s_spsr s /\ keeps s s' /\ (s' = s \/ is_Some (s_work s')).
Proof.
  intros HI Hb. destruct (s_ready s) as [|first rest] eqn:Er.
  { exists None, s. unfold __schedule_thread. rewrite Er. split_and!; auto with kernel. }
  destruct (s_work s) as [w|] eqn:Hw.
  - destruct (si_work_known _ _ HI w Hw) as [t Ht].
    destruct (schedule_inner_running s w t) as (s1 & T1 & W1 & L1 & HI1 & R1 & ->); try done; [by rewrite Er|].
    destruct (switch_total s1 w w (requested (pending t) t)) as (r & s2 & -> & (HI2 & R2 & W2 & K2) & _); try done.
    { unfold balanced in *. by destruct R1 as (-> & _). }
    { by rewrite T1, lookup_insert_eq. }
    { rewrite decide_True by done. pose proof (si_range _ _ HI w t Ht) as [_ Hr]. simpl. unfold pending.
      unfold NR_THREAD_NONE, NR_THREAD_RUNNING, NR_THREAD_READY, NR_THREAD_STATUS_MAX in *. destruct (Z.eqb_spec (t_to_status t) 0); lia. }
    destruct (same_rest_trans _ _ _ R1 R2) as (Ec & El & Es & _).
    assert (keeps s s2) as K.
    { apply (keeps_trans _ s1); [|done]. intros x. unfold prio. rewrite T1.
      destruct (decide (x = w)) as [->|]; [rewrite lookup_insert_eq, Ht; done|by rewrite lookup_insert_ne]. }
    simpl. unfold after_switch. destruct W2 as [n Hn]. rewrite Hn. destruct (r <? 0); eexists _, _; (split; [done|]).
    + split_and!; eauto.
    + split_and!; eauto using record_inv.
  - destruct (decide (s_ref s = 0)) as [Href|Href].
    + destruct (si_known _ _ HI Ready first) as [t Ht]; [simpl; rewrite Er; in_goal|].
      destruct (schedule_inner_boot s first rest t) as (s' & -> & HI' & (Ec & El & Es & _) & W' & K' & _); try done.
      eexists _, _. split; [done|]. split_and!; eauto using record_inv.
    + exists None, s. unfold __schedule_thread. rewrite Er, Hw, (proj2 (Z.eqb_neq _ _)) by done. split_and!; auto with kernel.
Qed.

(** A new time slice changes neither status nor priority of a thread. *)
Lemma init_before_facts j ms s (s' := __thread_init_before j ms s) :
  s_work s' = s_work s /\ (forall h, get_list h s' = get_list h s) /\ (forall x, status s' x = status s x) /\ keeps s s' /\
  (sched_inv [] s -> sched_inv [] s').
Proof.
  unfold s', __thread_init_before. destruct (s_work s) as [w|] eqn:Hw; [|by split_and!].
  assert (forall x, s_tids (upd_thread (with_expires (u32 (j + msecs_to_jiffies ms))) w s) !! x =
    (if decide (x = w) then with_expires (u32 (j + msecs_to_jiffies ms)) <$> s_tids s !! x else s_tids s !! x)) as E.
  { intros x. cbn. destruct (decide (x = w)) as [->|]; [by rewrite lookup_alter_eq|by rewrite lookup_alter_ne]. }
  split_and!; [done|by intros []|..].
  - intros x. unfold status. rewrite E. destruct (decide (x = w)); [|done]. by destruct (s_tids s !! x).
  - intros x. unfold prio. rewrite E. destruct (decide (x = w)); [|done]. destruct (s_tids s !! x); [done|]. split; [done|]. by split; intros []%is_Some_None.
  - intros HI. apply sched_inv_upd_same; try done. intros t Ht. by apply (si_range _ _ HI w t).
Qed.

(** The two ends of [schedule_thread]: on a null context the processor state is
    put back, otherwise the next thread continues with its own. *)
Definition reloaded (psr : resume) (s : sched) : gmap Z thread :=
  s_tids (__thread_init_before (rs_jiffies psr) (rs_milseconds psr) s).
Definition resumed (psr : resume) (s0 s : sched) : sched :=
  Sched (reloaded psr s) (s_work s) (s_ready s) (s_suspend s) (s_sleep s) 1 (s_cnt_out s) (s_sched_cnt s) (s_lock s)
    (Cpu (rs_psr psr) (g_sched_preempt_cnt (s_cpu s0))) (s_spsr s).

Lemma resumed_status psr s0 s x : status (resumed psr s0 s) x = status s x.
Proof. destruct (init_before_facts (rs_jiffies psr) (rs_milseconds psr) s) as (_ & _ & E & _). exact (E x). Qed.
Definition slice_end (psr : resume) : Z := u32 (rs_jiffies psr + msecs_to_jiffies (rs_milseconds psr)).
Lemma resumed_slice psr s0 s w : s_work s = Some w -> is_Some (s_tids s !! w) -> t_expires <$> s_tids (resumed psr s0 s) !! w = Some (slice_end psr).
Proof. intros Hw [t Ht]. unfold resumed, reloaded, __thread_init_before. rewrite Hw. cbn. by rewrite lookup_alter_eq, Ht. Qed.

Lemma schedule_enter s :
  0 <= g_sched_preempt_cnt (s_cpu s) < W32 - 3 ->
  exists s1, s_tids s1 = s_tids s /\ s_work s1 = s_work s /\ (forall h, get_list h s1 = get_list h s) /\
    s_ref s1 = s_ref s /\ s_lock s1 = s_lock s /\ balanced s1 /\
    forall psr ctx s2, __schedule_thread s1 = Ok (ctx, s2) -> s_cpu s2 = s_cpu s1 -> s_spsr s2 = s_spsr s1 ->
      schedule_thread psr s = Ok (match ctx with Some _ => resumed psr s s2 | None => set_cpu (s_cpu s) s2 end).
Proof.
  intros Hc. destruct (s_cpu s) as [x n] eqn:Ec. simpl in Hc.
  exists (set_cpu (mrt_disable_cpu_irq (mrt_preempt_disable (s_cpu s))) (set_spsr x (set_cpu (mrt_preempt_disable (s_cpu s)) s))).
  split_and!; try done.
  - unfold balanced. simpl. rewrite Ec. simpl. rewrite u32_id by lia. lia.
  - intros psr ctx s2 Hs E1 E2. unfold schedule_thread, __push_psr.
    assert (cpsr (mrt_preempt_disable (s_cpu s)) = x) as Ex by (by rewrite Ec).
    cbn [s_cpu set_cpu set_spsr] in *. rewrite Ex, Hs. simpl. destruct ctx; f_equal.
    + assert (mrt_preempt_enable (Cpu (rs_psr psr) (g_sched_preempt_cnt (s_cpu s2))) = Cpu (rs_psr psr) (g_sched_preempt_cnt (s_cpu s))) as E.
      { rewrite E1, Ec. unfold mrt_preempt_enable. simpl. rewrite u32_id, (proj2 (Z.eqb_neq (n + 1) 0)) by lia. simpl. f_equal. lia. }
      unfold context_switch, resumed, reloaded, __thread_init_before. destruct (s_work s2) eqn:Hw2; cbn [s_cpu s_work upd_thread]; by rewrite E, ?Hw2.
    + unfold __pop_psr. simpl. rewrite E1, E2, Ec. simpl. unfold mrt_preempt_enable. simpl.
      rewrite u32_id by lia. rewrite (proj2 (Z.eqb_neq (n + 1) 0)) by lia. simpl. unfold set_cpu. simpl. do 2 f_equal. lia.
Qed.

Lemma schedule_thread_ok psr s :
  sched_ok s -> exists s', schedule_thread psr s = Ok s' /\ sched_ok s' /\ keeps s s'.
Proof.
  intros [HI Hbt Hl Hc]. destruct (schedule_enter s Hc) as (s1 & T1 & W1 & L1 & R1 & K1 & B1 & Hs).
  assert (sched_inv [] s1) as HI1 by (by apply (sched_inv_core [] s)).
  destruct (schedule_inner_ok s1 HI1 B1) as (ctx & s2 & H2 & HI2 & C2 & LK2 & SP2 & KK2 & W2).
  eexists. split; [by eapply Hs|].
  assert (keeps s s2) as KK by (apply (keeps_trans _ s1); [by apply keeps_tids|done]).
  assert (s_work s2 = None -> s_suspend s2 = [] /\ s_sleep s2 = []) as Hb2.
  { intros Hn. destruct W2 as [->|[w Hw]]; [|congruence]. rewrite W1 in Hn.
    specialize (L1 Suspend) as E1. specialize (L1 Sleep) as E2. simpl in E1, E2. rewrite E1, E2. auto. }
  assert (lock_free (s_lock s2)) as Hl2 by (by rewrite LK2, K1).
  destruct (init_before_facts (rs_jiffies psr) (rs_milseconds psr) s2) as (IW & IL & _ & IK & II).
  destruct ctx; (split; [constructor; simpl; try done|]).
  - eapply sched_inv_core; [..|exact (II HI2)]; [done|by rewrite IW|]. intros h. rewrite IL. by destruct h.
  - by apply (keeps_trans _ s2).
  - by eapply sched_inv_core; [..|exact HI2].
  - done.
Qed.

(** ** The calls *)
Inductive request :=
  | Register (t : thread) (tid : Z)
  | SetState (tid v : Z)
  | SelfSuspend (psr : resume)
  | SelfSleep (psr : resume)
  | SuspendThread (psr : resume) (tid : Z)
  | SleepThread (psr : resume) (tid : Z)
  | Wakeup (tid : Z)
  | Yield (psr : resume)
  | UnusedTid (start : Z) (count : nat)
  | Stats.

Definition perform (q : request) (s : sched) : res sched :=
  match q with
  | Register t tid => '(_, s) ← register_new_thread t tid s; Ok s
  | SetState tid v => thread_set_state tid v s
  | SelfSuspend psr => schedule_self_suspend psr s
  | SelfSleep psr => schedule_self_sleep psr s
  | SuspendThread psr tid => '(_, s) ← schedule_thread_suspend psr tid s; Ok s
  | SleepThread psr tid => '(_, s) ← schedule_thread_sleep psr tid s; Ok s
  | Wakeup tid => '(_, s) ← schedule_thread_wakeup tid s; Ok s
  | Yield psr => schedule_thread psr s
  | UnusedTid start count => '(_, s) ← get_unused_tid_from_scheduler start count s; Ok s
  | Stats => '(_, s) ← scheduler_stats_get s; Ok s
  end.

(** What a caller has to respect: ids are in the table, a thread that calls is
    running, and a new thread is zeroed, as [kzalloc] leaves it. *)
Definition legal (q : request) (s : sched) : Prop :=
  match q with
  | Register t tid => 0 <= tid < THREAD_MAX_NUM /\ t_status t = NR_THREAD_NONE /\ t_to_status t = NR_THREAD_NONE
  | SetState tid v => is_Some (s_tids s !! tid) /\ 0 <= v
  | SelfSuspend _ | SelfSleep _ => is_Some (s_work s)
  | SuspendThread _ tid | SleepThread _ tid => is_Some (s_tids s !! tid) /\ is_Some (s_work s)
  | Wakeup tid => is_Some (s_tids s !! tid)
  | Yield _ | Stats => True
  | UnusedTid start count => 0 <= start /\ start + Z.of_nat count <= THREAD_MAX_NUM
  end.

(** ** Every call keeps the table consistent *)
Lemma unlocked_ok s : sched_ok s -> sched_ok (unlocked s s).
Proof. intros [HI Hbt Hl Hc]. constructor; simpl; try done. by apply sched_inv_lock. Qed.

Definition add_tid (tid : Z) (t : thread) (s : sched) : sched :=
  Sched (<[tid := t]> (s_tids s)) (s_work s) (s_ready s) (s_suspend s) (s_sleep s) (s_ref s)
    (s_cnt_out s) (s_sched_cnt s) (s_lock s) (s_cpu s) (s_spsr s).

Lemma sched_inv_new tid t s :
  sched_inv [] s -> s_tids s !! tid = None -> 0 <= tid < THREAD_MAX_NUM -> t_to_status t = NR_THREAD_NONE ->
  sched_inv [tid] (add_tid tid t s) /\ (forall h, tid ∉ get_list h s) /\ s_work s <> Some tid.
Proof.
  intros HI Hn Hr Hto.
  assert (forall h, tid ∉ get_list h s) as Hno.
  { intros h Hx. apply (si_known _ _ HI) in Hx. rewrite Hn in Hx. by destruct Hx. }
  assert (s_work s <> Some tid) as Hw.
  { intros E. apply (si_work_known _ _ HI) in E. rewrite Hn in E. by destruct E. }
  split; [|done]. inv_split HI.
  assert (forall x, x ∉ [tid] -> status (add_tid tid t s) x = status s x) as Est.
  { intros x Hx. unfold status. simpl. rewrite lookup_insert_ne by set_solver. done. }
  constructor; intros *.
  - simpl. destruct (decide (tid0 = tid)) as [->|]; [rewrite lookup_insert_eq|rewrite lookup_insert_ne by done; eauto].
    intros [= <-]. by rewrite Hto.
  - intros Hx. simpl. rewrite lookup_insert_ne by set_solver. apply Hvalid. set_solver.
  - apply (Hnodup h).
  - eapply (StronglySorted_mono (prio_le s)); [|apply (Hsorted h)]. intros x y Hx Hy. unfold prio_le, prio. simpl.
    rewrite !lookup_insert_ne; [done|intros ->; by apply (Hno h)|intros ->; by apply (Hno h)].
  - intros Hx. simpl. rewrite lookup_insert_ne; [by apply (Hknown h)|intros ->; by apply (Hno h)].
  - intros Hx. simpl in *. rewrite lookup_insert_ne; [by apply Hwknown|congruence].
  - intros Hx. rewrite Est by done. apply (Hplace h). set_solver.
  - intros Hx. rewrite Est by done. apply Hwork. set_solver.
  - intros Hx. rewrite !Est by done. apply Hidle. set_solver.
Qed.

Definition fresh_thread (t : thread) : thread :=
  Thread (t_status t) (t_to_status t) (t_prio t) (t_stack_addr t) (t_expires t) (t_flags t) (spin_lock_init (t_lock t)).

Lemma register_fresh s t tid :
  sched_ok s -> 0 <= tid < THREAD_MAX_NUM -> t_status t = NR_THREAD_NONE -> t_to_status t = NR_THREAD_NONE ->
  s_tids s !! tid = None -> t_stack_addr t <> 0 ->
  exists s', register_new_thread t tid s = Ok (ER_NORMAL, s') /\ sched_ok s' /\
    s_tids s' = <[tid := synced NR_THREAD_READY (fresh_thread t)]> (s_tids s) /\ s_work s' = s_work s /\
    placed s' tid (s_ready s) (s_ready s') /\ s_suspend s' = s_suspend s /\ s_sleep s' = s_sleep s /\ s_cpu s' = s_cpu s.
Proof.
  intros [HI Hbt Hl Hc] Hr Hst Hto Hn Hstk. unfold register_new_thread, thread_handler.
  rewrite (proj2 (Z.leb_le _ _)), (proj2 (Z.ltb_lt _ _)) by lia. simpl. rewrite Hn, (proj2 (Z.eqb_neq _ _)) by done.
  destruct (sched_critical s Hl Hc) as (c & l & -> & Hcc & Hu). simpl.
  set (s0 := set_lock l (set_cpu c s)). fold (fresh_thread t).
  change (Sched (<[tid:=fresh_thread t]> (s_tids s)) _ _ _ _ _ _ _ _ _ _) with (add_tid tid (fresh_thread t) s0).
  destruct (sched_inv_new tid (fresh_thread t) s0) as (HI1 & Hno & Hw); try done; [by apply sched_inv_lock|].
  set (s1 := add_tid tid (fresh_thread t) s0) in *.
  assert (s_tids s1 !! tid = Some (fresh_thread t)) as Ht1 by apply lookup_insert_eq.
  change (schedule_add_ready_list tid s1) with (schedule_add_list Ready tid s1).
  destruct (add_list_spec [tid] Ready tid s1 (fresh_thread t)) as (l' & -> & Hp & HI2); try done; [in_goal|simpl; by rewrite Hst|apply (Hno Ready)|].
  simpl. rewrite (SYNC_spec [tid] tid _ _ (fresh_thread t)) by done. simpl. rewrite Hu by done.
  eexists. split; [done|]. split_and!; simpl; try done.
  - constructor; simpl; try done. apply sched_inv_lock.
    apply (sched_inv_upd (synced NR_THREAD_READY) tid _ (fun _ => eq_refl) [] NR_THREAD_READY); try done.
    intros h. change (tid ∈ get_list h (set_list Ready l' s1) <-> NR_THREAD_READY = status_of h). rewrite get_set_list. destruct (decide (h = Ready)) as [->|Hne].
    + rewrite (placed_in _ _ _ _ _ Hp). simpl. tauto.
    + split; [intros Hx; by apply (Hno h) in Hx|]. intros E. by apply (status_of_inj Ready) in E.
  - rewrite (tids_set_status _ _ _ _ Ht1). simpl. by rewrite insert_insert_eq.
  - apply (placed_prio s1); [|done]. intros x. unfold prio. simpl.
    rewrite (tids_set_status _ _ _ _ Ht1). simpl. rewrite insert_insert_eq.
    destruct (decide (x = tid)) as [->|]; [by rewrite !lookup_insert_eq|by rewrite !lookup_insert_ne].
Qed.

(** A switch of a thread that is in a list, made by another one. *)
Lemma request_switch_moves s tid t w hs hd :
  sched_ok s -> s_work s = Some w -> s_tids s !! tid = Some t -> t_status t = status_of hs -> hs <> hd ->
  (tid = THREAD_TID_IDLE -> hd = Ready) ->
  exists s', request_switch tid (status_of hd) s = Ok (ER_NORMAL, s') /\ sched_ok s' /\ s_work s' = Some w /\
    s_tids s' = <[tid := synced (status_of hd) t]> (s_tids s) /\ s_cpu s' = s_cpu s /\ moved s s' tid hd (without s tid).
Proof.
  intros Hok Hw Ht Hs Hne Hid. pose proof (status_of_range hd) as Hrg.
  destruct (request_switch_inner s tid (status_of hd) t) as (s1 & T1 & W1 & L1 & HI1 & B1 & _ & _ & _ & _ & Hreq); try done.
  { unfold NR_THREAD_NONE, NR_THREAD_RUNNING in *. lia. }
  destruct (switch_lists s1 tid (requested (status_of hd) t) hs hd w) as (s2 & Hs2 & HI2 & R2 & W2 & T2 & M2 & M2'); try done.
  { by rewrite W1. }
  { by rewrite T1, lookup_insert_eq. }
  exists (unlocked s s2).
  assert (keeps s s1) as K1.
  { intros x. unfold prio. rewrite T1. destruct (decide (x = tid)) as [->|]; [by rewrite lookup_insert_eq, Ht|by rewrite lookup_insert_ne]. }
  split_and!; [by apply Hreq| |done| |done|].
  - apply (settled_ok s s1); [done|]. split_and!; try done. eapply keeps_insert; [exact T2|by rewrite T1, lookup_insert_eq|done].
  - simpl. rewrite T2, T1, insert_insert_eq. done.
  - unfold moved, without in *. unfold unlocked. setoid_rewrite get_list_lock. setoid_rewrite get_list_cpu.
    setoid_rewrite <- L1. split; [|done]. eapply placed_prio; [|done]. intros x. apply K1.
Qed.

Lemma park_is_request st psr s tid w :
  s_work s = Some w -> tid <> w -> schedule_thread_park st psr tid s = request_switch tid st s.
Proof.
  intros Hw Hne. unfold schedule_thread_park. rewrite Hw. simpl. by rewrite (proj2 (Z.eqb_neq _ _)).
Qed.

Lemma wakeup_is_request s tid t :
  sched_ok s -> s_tids s !! tid = Some t ->
  schedule_thread_wakeup tid s =
    if negb (t_status t =? NR_THREAD_SUSPEND) && negb (t_status t =? NR_THREAD_SLEEP)
    then Ok (- ER_UNVALID, unlocked s s) else request_switch tid NR_THREAD_READY s.
Proof.
  intros [HI Hbt Hl Hc] Ht. unfold schedule_thread_wakeup, request_switch.
  destruct (sched_critical s Hl Hc) as (c & l & -> & Hcc & Hu). simpl. unfold __GET_THREAD_STATUS.
  rewrite (thread_deref_known [] _ tid t) by (done || by apply sched_inv_lock). simpl.
  destruct (negb (t_status t =? NR_THREAD_SUSPEND) && negb (t_status t =? NR_THREAD_SLEEP)); [|done].
  by rewrite Hu.
Qed.

Lemma schedule_self_split st psr s w t :
  sched_ok s -> s_work s = Some w -> s_tids s !! w = Some t -> NR_THREAD_NONE <= st < NR_THREAD_STATUS_MAX ->
  schedule_self st psr s = schedule_thread psr (upd_thread (requested st) w (unlocked s s)) /\
  sched_ok (upd_thread (requested st) w (unlocked s s)).
Proof.
  intros Hok Hw Ht Hst. pose proof Hok as [HI Hbt Hl Hc]. split.
  - unfold schedule_self. destruct (sched_critical s Hl Hc) as (c & l & -> & Hcc & Hu). simpl. rewrite Hw. simpl.
    rewrite (SET_spec [] w _ _ t); [|by apply sched_inv_lock|done|lia]. simpl. by rewrite Hu.
  - constructor; simpl; try done. apply requested_inv; [done|]. by apply unlocked_ok.
Qed.

Lemma unused_tid_total s i count :
  0 <= i -> i + Z.of_nat count <= THREAD_MAX_NUM ->
  exists r, unused_tid s i count = Ok r /\
    ((i <= r < i + Z.of_nat count /\ s_tids s !! r = None /\ forall j, i <= j < r -> is_Some (s_tids s !! j)) \/
     (r = - ER_MORE /\ forall j, i <= j < i + Z.of_nat count -> is_Some (s_tids s !! j))).
Proof.
  revert i. induction count as [|count IH]; intros i Hi Hc; simpl.
  - exists (- ER_MORE). split; [done|]. right. split; [done|]. lia.
  - unfold thread_handler. rewrite (proj2 (Z.leb_le _ _)), (proj2 (Z.ltb_lt _ _)) by lia. simpl.
    destruct (s_tids s !! i) as [t|] eqn:E.
    + destruct (IH (i + 1)) as (r & -> & Hr); [lia|lia|]. exists r. split; [done|].
      destruct Hr as [(Hr & Hn & Hb)|[-> Hb]].
      * left. split_and!; [lia|lia|done|]. intros j Hj. destruct (decide (j = i)) as [->|]; [by exists t|apply Hb; lia].
      * right. split; [done|]. intros j Hj. destruct (decide (j = i)) as [->|]; [by exists t|apply Hb; lia].
    + exists i. split; [done|]. left. split_and!; [lia|lia|done|lia].
Qed.

Lemma set_state_ok tid v s :
  sched_ok s -> is_Some (s_tids s !! tid) -> 0 <= v -> exists s', thread_set_state tid v s = Ok s' /\ sched_ok s'.
Proof.
  intros Hok [t Ht] Hv. pose proof Hok as [HI Hbt Hl Hc]. unfold thread_set_state.
  destruct (decide (v < NR_THREAD_STATUS_MAX)) as [Hlt|Hge].
  - rewrite (SET_spec [] tid v s t) by done. eexists. split; [done|]. constructor; simpl; try done. by apply requested_inv.
  - exists s. unfold __SET_THREAD_STATUS. rewrite (proj2 (Z.ltb_ge _ _)) by lia. done.
Qed.

Lemma self_ok st psr s :
  sched_ok s -> is_Some (s_work s) -> NR_THREAD_NONE <= st < NR_THREAD_STATUS_MAX ->
  exists s', schedule_self st psr s = Ok s' /\ sched_ok s'.
Proof.
  intros Hok [w Hw] Hst. destruct (si_work_known _ _ (ok_inv _ Hok) w Hw) as [t Ht].
  destruct (schedule_self_split st psr s w t) as [-> Hok1]; try done.
  destruct (schedule_thread_ok psr _ Hok1) as (s' & -> & Hok' & _). by exists s'.
Qed.

Lemma park_ok st psr tid s :
  sched_ok s -> is_Some (s_tids s !! tid) -> is_Some (s_work s) -> NR_THREAD_READY <= st < NR_THREAD_STATUS_MAX ->
  exists r s', schedule_thread_park st psr tid s = Ok (r, s') /\ sched_ok s'.
Proof.
  intros Hok [t Ht] [w Hw] Hst. destruct (decide (tid = w)) as [->|Hne].
  - destruct (self_ok st psr s) as (s' & E & Hok'); [done|by exists w|unfold NR_THREAD_NONE, NR_THREAD_READY in *; lia|].
    exists ER_NORMAL, s'. unfold schedule_thread_park. rewrite Hw. simpl. by rewrite Z.eqb_refl, E.
  - rewrite (park_is_request st psr s tid w) by done.
    destruct (request_switch_ok s tid st t w) as (r & s' & -> & Hok' & _); try done. by exists r, s'.
Qed.

Lemma perform_ok q s : sched_ok s -> legal q s -> exists s', perform q s = Ok s' /\ sched_ok s'.
Proof.
  intros Hok Hq. pose proof Hok as [HI Hbt Hl Hc]. destruct q as [t tid|tid v|psr|psr|psr tid|psr tid|tid|psr|start count|]; simpl in *.
  - destruct Hq as (Hr & Hst & Hto). destruct (s_tids s !! tid) as [t'|] eqn:E.
    { exists s. unfold register_new_thread. by rewrite (thread_handler_known _ _ _ _ HI E). }
    destruct (decide (t_stack_addr t = 0)) as [E0|E0].
    { exists s. unfold register_new_thread, thread_handler. rewrite (proj2 (Z.leb_le _ _)), (proj2 (Z.ltb_lt _ _)) by lia.
      simpl. by rewrite E, E0. }
    destruct (register_fresh s t tid) as (s' & -> & Hok' & _); try done. by exists s'.
  - destruct Hq. by apply set_state_ok.
  - by apply self_ok.
  - by apply self_ok.
  - destruct Hq. destruct (park_ok NR_THREAD_SUSPEND psr tid s) as (r & s' & E & Hok'); try done.
    exists s'. unfold schedule_thread_suspend. by rewrite E.
  - destruct Hq. destruct (park_ok NR_THREAD_SLEEP psr tid s) as (r & s' & E & Hok'); try done.
    exists s'. unfold schedule_thread_sleep. by rewrite E.
  - destruct Hq as [t Ht]. rewrite (wakeup_is_request s tid t) by done. case_test; [eexists; split; [done|by apply unlocked_ok]|].
    assert (status s tid = Some (t_status t)) as Est by (unfold status; by rewrite Ht).
    assert (exists h, t_status t = status_of h /\ h <> Ready) as (h & Hh & Hhr).
    { apply andb_false_iff in E as [E|E]; apply negb_false_iff, Z.eqb_eq in E; [by exists Suspend|by exists Sleep]. }
    assert (tid ∈ get_list h s) as Hin by (apply (si_place _ _ HI); [set_solver|congruence]).
    destruct (s_work s) as [w|] eqn:Hw.
    + destruct (request_switch_moves s tid t w h Ready) as (s' & E1 & Hok' & _); try done.
      exists s'. change (status_of Ready) with NR_THREAD_READY in E1. by rewrite E1.
    + destruct (Hbt eq_refl) as [E1 E2]. destruct h; simpl in Hin; [done|rewrite E1 in Hin|rewrite E2 in Hin]; by apply not_elem_of_nil in Hin.
  - destruct (schedule_thread_ok psr s Hok) as (s' & -> & Hok' & _). by exists s'.
  - destruct Hq. unfold get_unused_tid_from_scheduler. destruct (sched_critical s Hl Hc) as (c & l & -> & Hcc & Hu). simpl.
    destruct (unused_tid_total (set_lock l (set_cpu c s)) start count) as (r & -> & _); try done. simpl. rewrite Hu by done.
    eexists. split; [done|]. exact (unlocked_ok s Hok).
  - unfold scheduler_stats_get. destruct (sched_critical s Hl Hc) as (c & l & -> & Hcc & Hu). simpl. rewrite Hu by done.
    eexists. split; [done|]. exact (unlocked_ok s Hok).
Qed.

(** ** Reachable states *)
Definition sched_step (s s' : sched) : Prop := exists q, legal q s /\ perform q s = Ok s'.
Definition sched_boot : sched := Sched ∅ None [] [] [] 0 0 0 (Lock 0 0) (Cpu 0 0) 0.

Lemma boot_ok : sched_ok sched_boot.
Proof.
  constructor; try done. constructor; intros *; try done.
  - by destruct h; apply NoDup_nil.
  - by destruct h; constructor.
  - destruct h; intros Hx; by apply not_elem_of_nil in Hx.
  - intros _. split; [|done]. destruct h; intros Hx; by apply not_elem_of_nil in Hx.
Qed.

Lemma reachable_ok s : rtc sched_step sched_boot s -> sched_ok s.
Proof.
  intros H. remember sched_boot as s0 eqn:E. assert (sched_ok s0) as Hok by (rewrite E; apply boot_ok). clear E.
  induction H as [|s1 s2 s3 [q [Hq Hp]] _ IH]; [done|]. apply IH.
  destruct (perform_ok q s1 Hok Hq) as (s' & E & Hok'). congruence.
Qed.

(** What a thread that gives up the processor leaves behind. *)
Lemma schedule_thread_running psr s w t first rest hd :
  sched_ok s -> s_work s = Some w -> s_tids s !! w = Some t -> s_ready s = first :: rest ->
  pending t = status_of hd -> (w = THREAD_TID_IDLE -> hd = Ready) ->
  exists s', schedule_thread psr s = Ok s' /\ sched_ok s' /\ s_work s' = Some first /\
    status s' first = Some NR_THREAD_RUNNING /\ status s' w = Some (status_of hd) /\
    moved s s' w hd (without s first) /\ s_cpu s' = Cpu (rs_psr psr) (g_sched_preempt_cnt (s_cpu s)) /\
    t_expires <$> s_tids s' !! first = Some (slice_end psr).
Proof.
  intros Hok Hw Ht Hr Hp Hid. pose proof Hok as [HI Hbt Hl Hc].
  destruct (schedule_enter s Hc) as (s1 & T1 & W1 & L1 & R1 & K1 & B1 & Hs).
  assert (sched_inv [] s1) as HI1 by (by apply (sched_inv_core [] s)).
  assert (s_ready s1 = first :: rest) as Hr1 by (rewrite <- Hr; apply (L1 Ready)).
  destruct (schedule_inner_running s1 w t) as (s2 & T2 & W2 & L2 & HI2 & R2 & E2); try done; [by rewrite W1|by rewrite T1|by rewrite Hr1|].
  assert (first ∈ get_list Ready s) as Hin by (simpl; rewrite Hr; in_goal).
  assert (w <> first) as Hne by (intros ->; by apply (member_not_running s first Ready HI)).
  destruct (si_known _ _ HI Ready first Hin) as [tf Htf].
  destruct (switch_running s2 w (requested (pending t) t) first rest tf hd) as (s3 & E3 & HI3 & R3 & W3 & T3 & M3 & M3'); try done.
  { unfold balanced in *. by destruct R2 as (-> & _). }
  { by rewrite T2, lookup_insert_eq. }
  { rewrite <- Hr1. apply (L2 Ready). }
  { by rewrite T2, T1, lookup_insert_ne. }
  rewrite E3 in E2. simpl in E2. unfold after_switch in E2. rewrite W3 in E2. simpl in E2.
  destruct (same_rest_trans _ _ _ R2 R3) as (C3 & LK3 & S3 & _).
  destruct (schedule_thread_ok psr s Hok) as (s' & E' & Hok' & K').
  rewrite (Hs psr _ _ E2 C3 S3) in E'. injection E' as <-. eexists. split; [by apply (Hs psr _ _ E2)|].
  assert (forall h, get_list h s2 = get_list h s) as L by (intros h; by rewrite L2, L1).
  split_and!; try done.
  - rewrite resumed_status. unfold status. simpl. rewrite T3, lookup_insert_ne, lookup_insert_eq by done. done.
  - rewrite resumed_status. unfold status. simpl. by rewrite T3, lookup_insert_eq.
  - unfold moved, without in *.
    assert (forall h, get_list h (resumed psr s (scheduler_record s3)) = get_list h s3) as Lf by (by intros []).
    rewrite Lf, <- L. split.
    + eapply placed_prio; [|exact M3]. intros x. unfold prio. rewrite T2, T1.
      destruct (decide (x = w)) as [->|]; [by rewrite lookup_insert_eq, Ht|by rewrite lookup_insert_ne].
    + intros h Hh. rewrite Lf, <- L. by apply M3'.
  - apply resumed_slice; [done|]. simpl. rewrite T3, lookup_insert_ne, lookup_insert_eq by done. by eexists.
Qed.

(** The head of the ready list has the highest priority. *)
Lemma ready_head_highest s first rest x :
  sched_ok s -> s_ready s = first :: rest -> status s x = Some NR_THREAD_READY -> prio s first <= prio s x.
Proof.
  intros Hok Hr Hx. pose proof (ok_inv _ Hok) as HI. apply (si_place _ _ HI Ready) in Hx; [|set_solver].
  pose proof (si_sorted _ _ HI Ready) as Hs. simpl in *. rewrite Hr in *. apply StronglySorted_cons in Hs as [Hs _].
  rewrite Forall_forall in Hs. apply elem_of_cons in Hx as [->|Hx]; [lia|by apply Hs].
Qed.

(** Idle is ready whenever another thread runs. *)
Lemma idle_ready s ti w :
  sched_ok s -> s_tids s !! THREAD_TID_IDLE = Some ti -> s_work s = Some w -> w <> THREAD_TID_IDLE ->
  status s THREAD_TID_IDLE = Some NR_THREAD_READY.
Proof.
  intros Hok Hti Hw Hne. pose proof (ok_inv _ Hok) as HI.
  pose proof (si_valid _ _ HI _ _ (not_elem_of_nil _) Hti) as Hv.
  destruct (si_idle _ _ HI (not_elem_of_nil _)) as [N1 N2].
  pose proof (si_work _ _ HI THREAD_TID_IDLE (not_elem_of_nil _)) as Hrun.
  unfold status in *. rewrite Hti in *. simpl in *.
  assert (t_status ti <> NR_THREAD_RUNNING) by (intros E; rewrite E in Hrun; destruct Hrun as [_ Hrun]; specialize (Hrun eq_refl); congruence).
  assert (t_status ti <> NR_THREAD_SUSPEND) by congruence. assert (t_status ti <> NR_THREAD_SLEEP) by congruence.
  unfold NR_THREAD_NONE, NR_THREAD_RUNNING, NR_THREAD_READY, NR_THREAD_SUSPEND, NR_THREAD_SLEEP, NR_THREAD_STATUS_MAX in *.
  f_equal. lia.
Qed.

Lemma self_suspend_switches psr s w :
  sched_ok s -> is_Some (s_tids s !! THREAD_TID_IDLE) -> s_work s = Some w -> w <> THREAD_TID_IDLE ->
  exists s' n, schedule_self_suspend psr s = Ok s' /\ sched_ok s' /\ s_work s' = Some n /\ n <> w /\
    status s n = Some NR_THREAD_READY /\ status s' w = Some NR_THREAD_SUSPEND /\
    (forall x, status s x = Some NR_THREAD_READY -> prio s n <= prio s x).
Proof.
  intros Hok [ti Hti] Hw Hne. pose proof (ok_inv _ Hok) as HI.
  destruct (si_work_known _ _ HI w Hw) as [t Ht].
  destruct (schedule_self_split NR_THREAD_SUSPEND psr s w t) as [Es Hok1]; try done.
  pose proof (idle_ready s ti w Hok Hti Hw Hne) as Hidle.
  destruct (s_ready s) as [|first rest] eqn:Hr.
  { apply (si_place _ _ HI Ready) in Hidle; [|set_solver]. simpl in Hidle. rewrite Hr in Hidle. by apply not_elem_of_nil in Hidle. }
  destruct (schedule_thread_running psr (upd_thread (requested NR_THREAD_SUSPEND) w (unlocked s s)) w (requested NR_THREAD_SUSPEND t) first rest Suspend)
    as (s' & E & Hok' & W' & _ & S' & _); try done.
  { rewrite upd_lookup, decide_True by done. simpl. by rewrite Ht. }
  assert (first ∈ get_list Ready s) as Hin by (simpl; rewrite Hr; in_goal).
  exists s', first. split_and!; try done.
  - unfold schedule_self_suspend. by rewrite Es.
  - intros ->. by apply (member_not_running s w Ready HI).
  - apply (si_place _ _ HI Ready) in Hin; [done|set_solver].
  - intros x. by apply (ready_head_highest s first rest).
Qed.

#[export] Instance legal_dec q s : Decision (legal q s).
Proof. destruct q; simpl; apply _. Defined.

(** Runs of legal calls. *)
Fixpoint performs (qs : list request) (s : sched) : option sched :=
  match qs with
  | [] => Some s
  | q :: qs => if decide (legal q s) then match perform q s with Ok s' => performs qs s' | _ => None end else None
  end.
Lemma performs_reach qs s s' : performs qs s = Some s' -> rtc sched_step s s'.
Proof.
  revert s. induction qs as [|q qs IH]; simpl; intros s E; [injection E as <-; apply rtc_refl|].
  destruct (decide (legal q s)) as [Hq|]; [|done]. destruct (perform q s) as [s1| |] eqn:Hp; try done.
  eapply rtc_l; [by exists q|auto].
Qed.

(** A system with the idle thread, one running thread, two ready, one sleeping. *)
Definition demo_thread (p : Z) : thread := Thread 0 0 p 4096 0 0 (Lock 0 0).
Definition demo_resume : resume := Resume 19 7 20.
Definition demo_calls : list request :=
  [Register (demo_thread 255) 0; Register (demo_thread 20) 32; Register (demo_thread 10) 33;
   Register (demo_thread 10) 34; Register (demo_thread 5) 35; Yield (Resume 0 0 0); SelfSleep (Resume 0 0 0)].
Definition demo_sched : sched := default sched_boot (performs demo_calls sched_boot).
Lemma demo_reachable : rtc sched_step sched_boot demo_sched.
Proof. apply (performs_reach demo_calls). vm_compute. reflexivity. Defined.
Lemma demo_ok : sched_ok demo_sched.
Proof. apply reachable_ok, demo_reachable. Qed.

(** C1: every sequence of scheduler calls from the empty table, by threads that
    respect the callers' obligations, leaves a table in which statuses, the
    three lists and the running slot agree, each list is duplicate-free and
    ordered by priority, the idle thread is neither suspended nor asleep, and
    the table's lock is free; from there every further legal call returns
    (no null access, no deadlock on the lock) in such a state. *)
Theorem scheduler_stays_consistent s :
  rtc sched_step sched_boot s ->
  sched_ok s /\ forall q, legal q s -> exists s', perform q s = Ok s' /\ sched_ok s'.
Proof. intros H%reachable_ok. split; [done|]. intros q. by apply perform_ok. Qed.
Lemma scheduler_stays_consistent_witness :
  rtc sched_step sched_boot demo_sched /\ sched_ok demo_sched /\
  exists s', perform (Wakeup 35) demo_sched = Ok s' /\ sched_ok s'.
Proof.
  destruct (scheduler_stays_consistent demo_sched demo_reachable) as [H1 H2].
  split_and!; [exact demo_reachable|exact H1|]. apply H2. vm_compute. eauto.
Defined.

(** C2: a thread that gives up the processor with others ready is replaced by a
    ready thread of the highest priority; it joins the list its pending request
    names, behind all members of the same or a higher priority, and the next
    thread continues with its own status register, the same preemption depth and
    a new time slice. *)
Theorem schedule_thread_picks_highest psr s w t first rest hd :
  sched_ok s -> s_work s = Some w -> s_tids s !! w = Some t -> s_ready s = first :: rest ->
  pending t = status_of hd -> (w = THREAD_TID_IDLE -> hd = Ready) ->
  exists s', schedule_thread psr s = Ok s' /\ sched_ok s' /\ s_work s' = Some first /\
    (forall x, status s x = Some NR_THREAD_READY -> prio s first <= prio s x) /\
    status s' first = Some NR_THREAD_RUNNING /\ status s' w = Some (status_of hd) /\
    placed s w (if decide (hd = Ready) then rest else get_list hd s) (get_list hd s') /\
    s_cpu s' = Cpu (rs_psr psr) (g_sched_preempt_cnt (s_cpu s)) /\
    t_expires <$> s_tids s' !! first = Some (u32 (rs_jiffies psr + msecs_to_jiffies (rs_milseconds psr))).
Proof.
  intros Hok Hw Ht Hr Hp Hid. pose proof (ok_inv _ Hok) as HI.
  destruct (schedule_thread_running psr s w t first rest hd) as (s' & E & Hok' & W' & S1 & S2 & [M _] & C' & X'); try done.
  exists s'. split_and!; try done; [intros x; by apply (ready_head_highest s first rest)|].
  destruct (decide (hd = Ready)) as [->|Hne]; [by rewrite <- (NoDup_without_head s first rest)|].
  rewrite <- (without_notin s first hd); [done|].
  rewrite (member_place s first Ready hd); [done|done|]. simpl. rewrite Hr. in_goal.
Qed.
Lemma schedule_thread_picks_highest_witness :
  exists s', schedule_thread demo_resume demo_sched = Ok s' /\ s_work s' = Some 34 /\ placed demo_sched 33 [32; 0] (s_ready s').
Proof.
  destruct (schedule_thread_picks_highest demo_resume demo_sched 33 (default (demo_thread 0) (s_tids demo_sched !! 33)) 34 [32; 0] Ready)
    as (s' & E & _ & W & _ & _ & _ & P & _); [exact demo_ok|reflexivity..|discriminate|]. exists s'. split_and!; [exact E|exact W|exact P].
Defined.

(** C3: once the idle thread is registered, a running thread other than idle can
    always suspend itself: the call returns with the highest-priority ready
    thread running and the caller suspended. *)
Theorem self_suspend_never_stuck psr s w :
  rtc sched_step sched_boot s -> is_Some (s_tids s !! THREAD_TID_IDLE) -> s_work s = Some w -> w <> THREAD_TID_IDLE ->
  exists s' n, schedule_self_suspend psr s = Ok s' /\ s_work s' = Some n /\ n <> w /\
    status s n = Some NR_THREAD_READY /\ status s' w = Some NR_THREAD_SUSPEND /\
    (forall x, status s x = Some NR_THREAD_READY -> prio s n <= prio s x).
Proof.
  intros Hreach Hi Hw Hne. destruct (self_suspend_switches psr s w) as (s' & n & H1 & _ & H2); try done; [by apply reachable_ok|].
  exists s', n. done.
Qed.
Lemma self_suspend_never_stuck_witness :
  exists s' n, schedule_self_suspend demo_resume demo_sched = Ok s' /\ s_work s' = Some n /\ n <> 33.
Proof.
  destruct (self_suspend_never_stuck demo_resume demo_sched 33) as (s' & n & H1 & H2 & H3 & _);
    [exact demo_reachable|vm_compute; eauto|reflexivity|discriminate|]. exists s', n. split_and!; [exact H1|exact H2|exact H3].
Defined.

(** Waking a thread moves it from the suspended or the sleeping list to the
    ready list, behind all threads of the same or a higher priority, and leaves
    the running thread, all other threads and the processor state alone; for a
    thread that is neither suspended nor asleep it reports an error and changes
    nothing in the table. *)
Theorem schedule_thread_wakeup_refines s tid t w :
  sched_ok s -> s_work s = Some w -> s_tids s !! tid = Some t ->
  exists r s', schedule_thread_wakeup tid s = Ok (r, s') /\ sched_ok s' /\ s_work s' = Some w /\ s_cpu s' = s_cpu s /\
    (if decide (t_status t = NR_THREAD_SUSPEND \/ t_status t = NR_THREAD_SLEEP)
     then r = ER_NORMAL /\ s_tids s' = <[tid := synced NR_THREAD_READY t]> (s_tids s) /\
          placed s tid (s_ready s) (s_ready s') /\
          s_suspend s' = without s tid Suspend /\ s_sleep s' = without s tid Sleep
     else r = - ER_UNVALID /\ s_tids s' = s_tids s /\ forall h, get_list h s' = get_list h s).
Proof.
  intros Hok Hw Ht. pose proof (ok_inv _ Hok) as HI. rewrite (wakeup_is_request s tid t) by done.
  destruct (decide _) as [Hst|Hst].
  - assert (negb (t_status t =? NR_THREAD_SUSPEND) && negb (t_status t =? NR_THREAD_SLEEP) = false) as ->.
    { destruct Hst as [->| ->]; done. }
    assert (exists h, t_status t = status_of h /\ h <> Ready) as (h & Hh & Hhr).
    { destruct Hst; [by exists Suspend|by exists Sleep]. }
    assert (tid ∈ get_list h s) as Hin by (apply (si_place _ _ HI); [apply not_elem_of_nil|]; unfold status; rewrite Ht; simpl; congruence).
    destruct (request_switch_moves s tid t w h Ready) as (s' & E & Hok' & W' & T' & C' & M & M'); try done.
    exists ER_NORMAL, s'. split_and!; try done; [| |]; [|apply (M' Suspend)|apply (M' Sleep)]; try done.
    rewrite (without_notin s tid Ready) in M; [done|]. rewrite (member_place s tid h Ready); congruence.
  - rewrite (proj2 (Z.eqb_neq _ NR_THREAD_SUSPEND)), (proj2 (Z.eqb_neq _ NR_THREAD_SLEEP)) by tauto. simpl.
    exists (- ER_UNVALID), (unlocked s s). split_and!; try done. by apply unlocked_ok.
Qed.
Lemma schedule_thread_wakeup_refines_witness :
  exists r s', schedule_thread_wakeup 35 demo_sched = Ok (r, s') /\ r = ER_NORMAL /\
    placed demo_sched 35 [34; 32; 0] (s_ready s').
Proof.
  destruct (schedule_thread_wakeup_refines demo_sched 35 (default (demo_thread 0) (s_tids demo_sched !! 35)) 33)
    as (r & s' & E & _ & _ & _ & R); [exact demo_ok|reflexivity..|].
  exists r, s'. rewrite decide_True in R by (vm_compute; auto). destruct R as (R & _ & P & _). split_and!; [exact E|exact R|exact P].
Defined.

(** Parking another thread (suspend or sleep it) that is ready, or parked
    the other way, moves it to the requested list in priority order and leaves
    the caller running. *)
Theorem schedule_thread_park_refines psr s tid t w hs hd :
  sched_ok s -> s_work s = Some w -> s_tids s !! tid = Some t -> tid <> w -> tid <> THREAD_TID_IDLE ->
  t_status t = status_of hs -> hd <> Ready -> hs <> hd ->
  exists s', schedule_thread_park (status_of hd) psr tid s = Ok (ER_NORMAL, s') /\ sched_ok s' /\ s_work s' = Some w /\
    s_cpu s' = s_cpu s /\ s_tids s' = <[tid := synced (status_of hd) t]> (s_tids s) /\
    placed s tid (get_list hd s) (get_list hd s') /\
    forall h, h <> hd -> get_list h s' = filter (fun x => x <> tid) (get_list h s).
Proof.
  intros Hok Hw Ht Hne Hni Hst Hdr Hhd. pose proof (ok_inv _ Hok) as HI.
  rewrite (park_is_request (status_of hd) psr s tid w) by done.
  destruct (request_switch_moves s tid t w hs hd) as (s' & E & Hok' & W' & T' & C' & M & M'); try done.
  exists s'. split_and!; try done. rewrite (without_notin s tid hd) in M; [done|].
  assert (tid ∈ get_list hs s) as Hin by (apply (si_place _ _ HI); [apply not_elem_of_nil|]; unfold status; rewrite Ht; simpl; congruence).
  rewrite (member_place s tid hs hd); congruence.
Qed.
Lemma schedule_thread_park_refines_witness :
  exists s', schedule_thread_suspend demo_resume 32 demo_sched = Ok (ER_NORMAL, s') /\ s_work s' = Some 33.
Proof.
  destruct (schedule_thread_park_refines demo_resume demo_sched 32 (default (demo_thread 0) (s_tids demo_sched !! 32)) 33 Ready Suspend)
    as (s' & E & _ & W & _); [exact demo_ok|reflexivity|reflexivity|discriminate|discriminate|reflexivity|discriminate|discriminate|].
  exists s'. split; [exact E|exact W].
Defined.

(** Looking for a free id in a range of the table returns the smallest one,
    or an error exactly when all are taken; a zeroed thread with a stack
    registered under it becomes ready, in priority order. *)
Theorem new_thread_gets_ready s start count t :
  sched_ok s -> 0 <= start -> start + Z.of_nat count <= THREAD_MAX_NUM ->
  t_status t = NR_THREAD_NONE -> t_to_status t = NR_THREAD_NONE -> t_stack_addr t <> 0 ->
  exists r s1, get_unused_tid_from_scheduler start count s = Ok (r, s1) /\ s_tids s1 = s_tids s /\
    if decide (0 <= r) then
      start <= r < start + Z.of_nat count /\ (forall j, start <= j < r -> is_Some (s_tids s !! j)) /\
      exists s2, register_new_thread t r s1 = Ok (ER_NORMAL, s2) /\ sched_ok s2 /\
        status s r = None /\ status s2 r = Some NR_THREAD_READY /\ placed s2 r (s_ready s) (s_ready s2) /\ s_work s2 = s_work s
    else r = - ER_MORE /\ forall j, start <= j < start + Z.of_nat count -> is_Some (s_tids s !! j).
Proof.
  intros Hok Hs Hc Hst Hto Hstk. pose proof Hok as [HI Hbt Hl Hcc]. unfold get_unused_tid_from_scheduler.
  destruct (sched_critical s Hl Hcc) as (c & l & -> & _ & Hu). simpl.
  destruct (unused_tid_total (set_lock l (set_cpu c s)) start count) as (r & -> & Hr); try done. simpl. rewrite Hu by done.
  eexists _, _. split; [done|]. split; [done|]. simpl in Hr. destruct Hr as [(Hr & Hn & Hb)|[-> Hb]]; [|done].
  rewrite decide_True by lia. split_and!; [lia|lia|done|].
  destruct (register_fresh (unlocked s s) t r) as (s' & E & Hok' & T & W & P & _); try done; [by apply unlocked_ok|lia|].
  exists s'. split_and!; try done; unfold status; [by rewrite Hn|by rewrite T, lookup_insert_eq].
Qed.
Lemma new_thread_gets_ready_witness :
  exists r s1, get_unused_tid_from_scheduler THREAD_TID_START 96 demo_sched = Ok (r, s1) /\ s_tids s1 = s_tids demo_sched.
Proof.
  destruct (new_thread_gets_ready demo_sched THREAD_TID_START 96 (demo_thread 7)) as (r & s1 & E & T & _);
    [exact demo_ok|discriminate|discriminate|reflexivity|reflexivity|discriminate|]. exists r, s1. split; [exact E|exact T].
Defined.
