(* ===== verification/Sleep.v ===== *)
(** * Sleeping and time slices (kernel/sleep.c, kernel/kthread/kthread.c)

    A thread that sleeps arms a timer on its own stack, suspends itself, and
    disarms the timer when it runs again.  The tick handler wakes it; another
    timer decides every 20 ms whether the running thread is to be preempted.
    The state is the scheduler, the preemption request flag and the memory that
    holds the timers.  A [struct thread *] used as a timer argument is the
    thread's id. *)

From stdpp Require Import prelude gmap fin_maps sorting.
From S2P Require Import Prelude Mem ListHead Sync Generic KTime Sched SchedInv SchedOps.

Record ksys := KSys { k_sched : sched; g_asm_sched_flag : bool }.

(** ** Handlers *)
Definition thread_sleep_timeout (args : Z) (s : sched) : res sched :=
  if spin_is_locked (s_lock s) then Ok s
  else
    t ← thread_deref s args;
    if t_status t =? NR_THREAD_SUSPEND then '(_, s) ← schedule_thread_wakeup args s; Ok s else Ok s.

Definition THREAD_PREEMPT_PERIOD : Z := 20.
Definition __THREAD_IS_LOW_PRIO (prio prio2 : Z) : bool := prio2 <=? prio.

(** The decision part of [kthread_schedule_timeout]. *)
Definition preempt_check (jiffies : Z) (k : ksys) : res ksys :=
  let s := k_sched k in
  work ← deref (get_current_thread s);
  t ← thread_deref s work;
  if mrt_time_before jiffies (t_expires t) then Ok k
  else
    let s := upd_thread (with_expires (if u32 (JIFFIES_MAX - jiffies) <=? THREAD_PREEMPT_PERIOD then 0 else jiffies)) work s in
    match get_first_ready_thread s with
    | None => Ok (KSys s (g_asm_sched_flag k))
    | Some ready =>
        t' ← thread_deref s ready;
        Ok (KSys s (if __THREAD_IS_LOW_PRIO (t_prio t) (t_prio t') then true else g_asm_sched_flag k))
    end.

Section handlers.
(** The timer list head and the addresses of the two handlers. *)
Context (TL sleep_entry preempt_entry : Z).

Definition kthread_schedule_timeout (jiffies args : Z) (x : ksys * mem) : res (ksys * mem) :=
  k ← preempt_check jiffies x.1;
  Ok (k, mod_timer TL x.2 args (u32 (jiffies + msecs_to_jiffies THREAD_PREEMPT_PERIOD))).

Definition handler (jiffies entry data : Z) (x : ksys * mem) : res (ksys * mem) :=
  if entry =? sleep_entry then
    s ← thread_sleep_timeout data (k_sched x.1); Ok (KSys s (g_asm_sched_flag x.1), x.2)
  else if entry =? preempt_entry then kthread_schedule_timeout jiffies data x
  else Fault.

(** ** Sleeping

    [schedule_timeout] up to the point where another thread runs, and from
    where the thread runs again; [sgrt_tm] is the timer on its stack. *)
Definition schedule_timeout_enter (psr : resume) (sgrt_tm count : Z) (s : sched) (m : mem) : res (sched * mem) :=
  sprt_thread ← deref (get_current_thread s);
  s ← (if count =? 0 then schedule_thread psr s else Ok s);
  s ← sched_lock_irqsave s;
  let m := setup_timer m sgrt_tm sleep_entry sprt_thread in
  let m := mod_timer TL m sgrt_tm count in
  let s := sched_unlock_irqrestore s in
  s ← schedule_self_suspend psr s;
  Ok (s, m).
Definition schedule_timeout_leave (fuel : nat) (sgrt_tm : Z) (s : sched) (m : mem) : res (sched * mem) :=
  s ← sched_lock_irqsave s;
  m ← del_timer TL fuel m sgrt_tm;
  Ok (sched_unlock_irqrestore s, m).

(** The delays sleep when the expiry tick is ahead. *)
Definition delay_enter (psr : resume) (sgrt_tm jiffies count : Z) (s : sched) (m : mem) : res (sched * mem) :=
  if mrt_time_after count jiffies then schedule_timeout_enter psr sgrt_tm count s m else Ok (s, m).
Definition schedule_delay (psr : resume) (sgrt_tm jiffies seconds : Z) := delay_enter psr sgrt_tm jiffies (u32 (jiffies + secs_to_jiffies seconds)).
Definition schedule_delay_ms (psr : resume) (sgrt_tm jiffies milseconds : Z) := delay_enter psr sgrt_tm jiffies (u32 (jiffies + msecs_to_jiffies milseconds)).
Definition schedule_delay_us (psr : resume) (sgrt_tm jiffies useconds : Z) := delay_enter psr sgrt_tm jiffies (u32 (jiffies + usecs_to_jiffies useconds)).
End handlers.

(** [kthread_systime_record]: the static [systime] and the system clock. *)
Definition kthread_systime_record (fuel : nat) (jiffies systime : Z) (clock : time_clock) : res (Z * time_clock) :=
  if negb (systime =? jiffies) then
    c ← msecs_to_timeclock fuel (jiffies_to_msecs systime); Ok (SYS_RUNTICK jiffies, c)
  else Ok (systime, clock).

(** ** One handler *)

(** The threads a handler may change: it makes suspended threads of the set [W] ready,
    and does nothing else to a status. *)
Definition only_wakes (W : Z -> Prop) (s s' : sched) : Prop :=
  forall tid, status s' tid = status s tid \/
    (W tid /\ status s tid = Some NR_THREAD_SUSPEND /\ status s' tid = Some NR_THREAD_READY).
Lemma only_wakes_refl W s : only_wakes W s s.
Proof. by left. Qed.
Lemma only_wakes_trans (V W X : Z -> Prop) s1 s2 s3 : (forall tid, V tid \/ W tid -> X tid) -> only_wakes V s1 s2 -> only_wakes W s2 s3 -> only_wakes X s1 s3.
Proof.
  intros HX H1 H2 tid. destruct (H1 tid) as [E1|(V1 & E1 & E1')], (H2 tid) as [E2|(W2 & E2 & E2')]; rewrite ?E1 in *; try (left; congruence);
    right; (split; [apply HX; by (left + right)|split; congruence]).
Qed.
Lemma only_wakes_status W s s' : (forall tid, status s' tid = status s tid) -> only_wakes W s s'.
Proof. intros H tid. left. apply H. Qed.

Definition running_ok (s : sched) (w : Z) : Prop := sched_ok s /\ s_work s = Some w.

Lemma wakeup_suspended s tid t w :
  running_ok s w -> s_tids s !! tid = Some t -> t_status t = NR_THREAD_SUSPEND ->
  exists s', schedule_thread_wakeup tid s = Ok (ER_NORMAL, s') /\ running_ok s' w /\ only_wakes (eq tid) s s' /\ status s' tid = Some NR_THREAD_READY.
Proof.
  intros [Hok Hw] Ht Hst. rewrite (wakeup_is_request s tid t) by done. rewrite Hst. cbn [negb andb Z.eqb]. simpl.
  destruct (request_switch_moves s tid t w Suspend Ready) as (s' & E & Hok' & W' & T' & _); try done.
  exists s'. split_and!; [done|done| |unfold status; by rewrite T', lookup_insert_eq].
  intros x. destruct (decide (x = tid)) as [->|Hne].
  - right. split; [done|]. unfold status. rewrite Ht, T', lookup_insert_eq. simpl. by rewrite Hst.
  - left. unfold status. by rewrite T', lookup_insert_ne.
Qed.

Lemma sleep_timeout_spec s tid t w :
  running_ok s w -> s_tids s !! tid = Some t ->
  exists s', thread_sleep_timeout tid s = Ok s' /\ running_ok s' w /\ only_wakes (eq tid) s s' /\
    (t_status t = NR_THREAD_SUSPEND -> status s' tid = Some NR_THREAD_READY).
Proof.
  intros Hrun Ht. pose proof Hrun as [Hok Hw]. pose proof (ok_lock _ Hok) as Hl. unfold lock_free in Hl.
  unfold thread_sleep_timeout, spin_is_locked. rewrite Hl. simpl.
  rewrite (thread_deref_known [] s tid t) by (apply Hok || done). simpl.
  destruct (Z.eqb_spec (t_status t) NR_THREAD_SUSPEND) as [E|E].
  - destruct (wakeup_suspended s tid t w Hrun Ht E) as (s' & -> & H1 & H2 & H3). simpl. exists s'. auto.
  - exists s. split_and!; auto using only_wakes_refl. done.
Qed.

Lemma with_expires_ok v w s : sched_ok s -> sched_ok (upd_thread (with_expires v) w s).
Proof.
  intros [HI Hbt Hl Hc]. constructor; simpl; try done. apply sched_inv_upd_same; try done.
  intros t Ht. simpl. by apply (si_range _ _ HI w t).
Qed.
Lemma with_expires_status v w s x : status (upd_thread (with_expires v) w s) x = status s x.
Proof.
  unfold status. rewrite upd_lookup. destruct (decide _); [|done]. by destruct (s_tids s !! x).
Qed.

(** The preemption decision in full. *)
Lemma preempt_check_spec jiffies k w t :
  running_ok (k_sched k) w -> s_tids (k_sched k) !! w = Some t ->
  exists k', preempt_check jiffies k = Ok k' /\ running_ok (k_sched k') w /\
    (forall tid, status (k_sched k') tid = status (k_sched k) tid) /\
    g_asm_sched_flag k' =
      (if mrt_time_before jiffies (t_expires t) then g_asm_sched_flag k
       else g_asm_sched_flag k || match head (s_ready (k_sched k)) with
                                  | Some ready => prio (k_sched k) ready <=? t_prio t
                                  | None => false
                                  end).
Proof.
  intros [Hok Hw] Ht. unfold preempt_check, get_current_thread. rewrite Hw. simpl.
  rewrite (thread_deref_known [] _ w t) by (apply Hok || done). simpl.
  destruct (mrt_time_before jiffies (t_expires t)); [by exists k|].
  set (v := if u32 (JIFFIES_MAX - jiffies) <=? THREAD_PREEMPT_PERIOD then 0 else jiffies). set (s1 := upd_thread (with_expires v) w (k_sched k)).
  assert (sched_ok s1) as Hok1 by (by apply with_expires_ok).
  unfold get_first_ready_thread. change (s_ready s1) with (s_ready (k_sched k)).
  destruct (s_ready (k_sched k)) as [|first rest] eqn:Er; simpl.
  - eexists. split; [done|]. simpl. rewrite orb_false_r. split_and!; [done|intros; apply with_expires_status|done].
  - destruct (si_known _ _ (ok_inv _ Hok1) Ready first) as [t1 Ht1]; [simpl; rewrite Er; in_goal|].
    rewrite (thread_deref_known [] s1 first t1) by (apply Hok1 || done). simpl.
    eexists. split; [done|]. simpl. split_and!; [done|intros; apply with_expires_status|].
    assert (prio (k_sched k) first = t_prio t1) as ->.
    { rewrite <- (upd_prio (with_expires v) w (k_sched k)) by done. unfold prio. fold s1. by rewrite Ht1. }
    unfold __THREAD_IS_LOW_PRIO. destruct (t_prio t1 <=? t_prio t); [by rewrite orb_true_r|by rewrite orb_false_r].
Qed.

(** ** A pass over the timers *)
Section pass.
Context (TL sleep_entry preempt_entry jiffies : Z) (xs : list Z) (L : list (Z * list Z)).
Context (Hse : sleep_entry <> preempt_entry).

(** Armed timers do not share words. *)
Record timers_apart : Prop := {
  ta_valid t : t ∈ xs -> isValid t = true;
  ta_links t : t ∈ xs -> outside (nodes ((TL, xs) :: L)) (t + 8);
  ta_words t t' : t ∈ xs -> t' ∈ xs -> t <> t' -> t + 8 <> t' + 8;
  ta_tail t t' : t ∈ xs -> t' ∈ xs -> t + 8 <> t' + 12 /\ t + 8 <> t' + 16;
}.
Context (Hta : timers_apart).

(** What each armed timer is for. *)
Definition timer_ok (s : sched) (m : mem) (t : Z) : Prop :=
  (tm_entry m t = sleep_entry /\ is_Some (s_tids s !! tm_data m t)) \/ (tm_entry m t = preempt_entry /\ tm_data m t = t).
Definition pass_inv (w : Z) (x : ksys * mem) : Prop :=
  running_ok (k_sched x.1) w /\ dlists x.2 ((TL, xs) :: L) /\ forall t, t ∈ xs -> timer_ok (k_sched x.1) x.2 t.

Lemma known_status W s s' tid : only_wakes W s s' -> is_Some (s_tids s !! tid) -> is_Some (s_tids s' !! tid).
Proof.
  intros H [t Ht]. specialize (H tid). unfold status in H. rewrite Ht in H. simpl in H.
  destruct (s_tids s' !! tid); [done|]. destruct H as [H|(_ & _ & H)]; done.
Qed.

(** Only the preemption timer is re-armed, and only its expiry tick changes. *)
Lemma handler_spec w x t :
  pass_inv w x -> t ∈ xs ->
  exists x', handler TL sleep_entry preempt_entry jiffies (tm_entry x.2 t) (tm_data x.2 t) x = Ok x' /\
    pass_inv w x' /\ only_wakes (fun tid => tm_entry x.2 t = sleep_entry /\ tid = tm_data x.2 t) (k_sched x.1) (k_sched x'.1) /\
    (forall t', t' ∈ xs -> t' <> t -> tm_expires x'.2 t' = tm_expires x.2 t') /\
    (forall t', t' ∈ xs -> tm_entry x'.2 t' = tm_entry x.2 t' /\ tm_data x'.2 t' = tm_data x.2 t') /\
    (tm_entry x.2 t = sleep_entry -> status (k_sched x.1) (tm_data x.2 t) = Some NR_THREAD_SUSPEND ->
     status (k_sched x'.1) (tm_data x.2 t) = Some NR_THREAD_READY).
Proof using Hse Hta.
  intros (Hrun & HD & Hts) Hin. unfold handler. destruct (Hts t Hin) as [[-> [th Hth]]|[-> Hd]].
  - rewrite Z.eqb_refl. destruct (sleep_timeout_spec _ _ th w Hrun Hth) as (s' & -> & Hrun' & Hwk & Hst). simpl.
    eexists. split; [done|]. split_and!; try done.
    + split_and!; try done. intros t' Ht'. destruct (Hts t' Ht') as [[? ?]|?]; [left; split; [done|by eapply known_status]|by right].
    + intros tid. destruct (Hwk tid) as [?|(<- & ?)]; [by left|by right].
    + intros _ E. apply Hst. unfold status in E. rewrite Hth in E. by injection E.
  - rewrite (proj2 (Z.eqb_neq _ _)), Z.eqb_refl by done. unfold kthread_schedule_timeout.
    destruct (si_work_known _ _ (ok_inv _ (proj1 Hrun)) w (proj2 Hrun)) as [tw Htw].
    destruct (preempt_check_spec jiffies x.1 w tw Hrun Htw) as (k' & -> & Hrun' & Hst & _). simpl. rewrite Hd.
    pose proof Hin as (xs1 & xs2 & Ex)%elem_of_split_list.
    destruct (mod_timer_armed TL x.2 t (u32 (jiffies + msecs_to_jiffies THREAD_PREEMPT_PERIOD)) xs1 xs2 L) as [Em HD'].
    { by rewrite <- Ex. } { by apply Hta. } { rewrite <- Ex. by apply Hta. }
    rewrite <- Ex in HD'. assert (forall W, only_wakes W (k_sched x.1) (k_sched k')) as Hwk by (intros W; by apply only_wakes_status).
    eexists. split; [done|]. simpl. rewrite Em in *. unfold tm_entry, tm_data, tm_expires in *.
    assert (forall t', t' ∈ xs -> (t' + 12 <> t + 8 /\ t' + 16 <> t + 8)) as Hw by (intros t' Ht'; destruct (ta_tail Hta t t' Hin Ht'); split; congruence).
    split_and!; try done.
    + split_and!; try done. intros t' Ht'. destruct (Hw t' Ht'). unfold timer_ok, tm_entry, tm_data. simpl. rewrite !st_ne by done.
      destruct (Hts t' Ht') as [[? ?]|?]; [left; split; [done|by eapply (known_status (fun _ => True))]|by right].
    + intros t' Ht' Hne. apply st_ne. by apply (ta_words Hta).
    + intros t' Ht'. destruct (Hw t' Ht'). rewrite !st_ne by done. done.
Qed.

Notation call := (handler TL sleep_entry preempt_entry jiffies).
Context (Hnz : sleep_entry <> 0).

(** The sleeping threads whose time has come. *)
Definition due (x : ksys * mem) (t : Z) : Prop :=
  tm_entry x.2 t = sleep_entry /\ tm_expires x.2 t <> 0 /\ tm_expires x.2 t < jiffies.

(** Threads with a due timer among [ts]. *)
Definition due_in (ts : list Z) (x : ksys * mem) (tid : Z) : Prop := exists t, t ∈ ts /\ due x t /\ tid = tm_data x.2 t.

Lemma fire_spec w x t :
  pass_inv w x -> t ∈ xs ->
  exists x', fire call jiffies x t = Ok x' /\ pass_inv w x' /\ only_wakes (due_in [t] x) (k_sched x.1) (k_sched x'.1) /\
    (forall t', t' ∈ xs -> t' <> t -> due x t' <-> due x' t') /\
    (forall t', t' ∈ xs -> tm_data x'.2 t' = tm_data x.2 t') /\
    (due x t -> status (k_sched x.1) (tm_data x.2 t) = Some NR_THREAD_SUSPEND ->
     status (k_sched x'.1) (tm_data x.2 t) = Some NR_THREAD_READY).
Proof using Hse Hta Hnz.
  intros Hinv Hin. unfold fire, mrt_time_after.
  destruct (Z.eqb_spec (tm_expires x.2 t) 0) as [E0|E0].
  { exists x. split_and!; auto using only_wakes_refl. by intros (_ & ? & _). }
  destruct ((tm_expires x.2 t <? jiffies) && negb (tm_entry x.2 t =? 0)) eqn:Ed.
  - destruct (handler_spec w x t Hinv Hin) as (x' & -> & H1 & H2 & H3 & H4 & H5). exists x'. split_and!; try done.
    + apply andb_true_iff in Ed as [Hlt%Z.ltb_lt _]. intros tid. destruct (H2 tid) as [?|([He ->] & ?)]; [by left|right]. split; [|done].
      exists t. split_and!; [in_goal|by split_and!|done].
    + intros t' Ht' Hne. unfold due. rewrite (H3 t' Ht' Hne). destruct (H4 t' Ht') as [-> _]. done.
    + intros t' Ht'. by apply H4.
    + intros (He & _). by apply H5.
  - exists x. split_and!; auto using only_wakes_refl. intros (He & _ & Hlt).
    rewrite He, (proj2 (Z.ltb_lt _ _)), (proj2 (Z.eqb_neq _ _)) in Ed by done. done.
Qed.

Lemma fire_all_spec w ts : forall x,
  pass_inv w x -> (forall t, t ∈ ts -> t ∈ xs) -> NoDup ts ->
  exists x', fire_all call jiffies x ts = Ok x' /\ pass_inv w x' /\ only_wakes (due_in ts x) (k_sched x.1) (k_sched x'.1) /\
    forall t, t ∈ ts -> due x t -> status (k_sched x.1) (tm_data x.2 t) = Some NR_THREAD_SUSPEND ->
      status (k_sched x'.1) (tm_data x.2 t) = Some NR_THREAD_READY.
Proof using Hse Hta Hnz.
  induction ts as [|t ts IH]; intros x Hinv Hsub Hnd; simpl.
  { exists x. split_and!; auto using only_wakes_refl. intros t Ht. by apply not_elem_of_nil in Ht. }
  apply NoDup_cons in Hnd as [Hnt Hnd].
  destruct (fire_spec w x t Hinv) as (x1 & -> & Hinv1 & Hwk1 & Hdue1 & Hdat1 & Hst1); [apply Hsub; in_goal|]. simpl.
  destruct (IH x1 Hinv1) as (x2 & -> & Hinv2 & Hwk2 & Hst2); [intros t' Ht'; apply Hsub; in_goal|done|].
  assert (forall t', t' ∈ ts -> (due x t' <-> due x1 t') /\ tm_data x1.2 t' = tm_data x.2 t') as Hrest.
  { intros t' Ht'. assert (t' ∈ xs) as Hx by (apply Hsub; in_goal). split; [apply Hdue1; [done|by intros ->]|by apply Hdat1]. }
  exists x2. split_and!; [done|done| |].
  - eapply only_wakes_trans; [|exact Hwk1|exact Hwk2]. intros tid [(t' & ->%list_elem_of_singleton & Hd)|(t' & Ht' & Hd & ->)].
    + exists t. split; [in_goal|done].
    + destruct (Hrest t' Ht') as [E1 E2]. exists t'. split_and!; [in_goal|by apply E1|done].
  - intros t' Ht' Hdue Hsus. apply elem_of_cons in Ht' as [->|Ht'].
    + specialize (Hst1 Hdue Hsus). destruct (Hwk2 (tm_data x.2 t)) as [->|(_ & E & _)]; [done|]. by rewrite Hst1 in E.
    + destruct (Hrest t' Ht') as [E1 E2]. specialize (Hst2 t' Ht' (proj1 E1 Hdue)). rewrite E2 in Hst2.
      destruct (Hwk1 (tm_data x.2 t')) as [E|(_ & _ & E)]; [apply Hst2; congruence|].
      destruct (Hwk2 (tm_data x.2 t')) as [->|(_ & E' & _)]; [done|]. by rewrite E in E'.
Qed.
End pass.

(** C4: a tick makes every suspended thread ready whose sleep timer has expired, and
    changes the status of no other thread: one whose timer has not expired, or that
    has none, keeps its status, as does one that is not suspended.  The running
    thread stays in place and the scheduler consistent; preemption timers in the
    same list re-arm themselves during the pass, which returns with fuel for one
    round per timer. *)
Theorem tick_wakes_sleepers TL sleep_entry preempt_entry jiffies xs L w x fuel :
  sleep_entry <> preempt_entry -> sleep_entry <> 0 -> timers_apart TL xs L ->
  pass_inv TL sleep_entry preempt_entry xs L w x -> (length xs <= fuel)%nat ->
  exists x', do_timer_event TL (handler TL sleep_entry preempt_entry jiffies) fuel jiffies x = Ok x' /\
    running_ok (k_sched x'.1) w /\
    forall tid,
      (status (k_sched x.1) tid = Some NR_THREAD_SUSPEND -> (exists t, t ∈ xs /\ due sleep_entry jiffies x t /\ tid = tm_data x.2 t) ->
         status (k_sched x'.1) tid = Some NR_THREAD_READY) /\
      (status (k_sched x.1) tid <> Some NR_THREAD_SUSPEND \/ ~ (exists t, t ∈ xs /\ due sleep_entry jiffies x t /\ tid = tm_data x.2 t) ->
         status (k_sched x'.1) tid = status (k_sched x.1) tid).
Proof.
  intros Hse Hnz Hta Hinv Hf.
  assert (NoDup xs) as Hnd. { destruct Hinv as (_ & HD & _). apply entry_NoDup in HD. simpl in HD. by apply NoDup_cons in HD as [_ HD]. }
  rewrite (timer_event_fires TL _ xs L jiffies (pass_inv TL sleep_entry preempt_entry xs L w)); [|by intros s (_ & HD & _)| |done|done].
  - destruct (fire_all_spec TL sleep_entry preempt_entry jiffies xs L Hse Hta Hnz w xs x Hinv) as (x' & -> & (Hrun & _) & Hwk & Hst); [done|done|].
    exists x'. split_and!; [done|done|]. intros tid. split.
    + intros Hsus (t & Ht & Hd & ->). by apply Hst.
    + intros Hno. destruct (Hwk tid) as [?|(Hd & ? & _)]; [done|]. by destruct Hno.
  - intros s t s' Hs Ht E. destruct (fire_spec TL sleep_entry preempt_entry jiffies xs L Hse Hta Hnz w s t Hs Ht) as (x' & E' & H & _). congruence.
Qed.

(** ** Going to sleep *)
Section sleep.
Context (TL sleep_entry tm : Z) (xs : list Z) (L : list (Z * list Z)) (m : mem).
Context (HD : dlists m ((TL, xs) :: L)) (Htm : Forall (apart tm) (nodes ((TL, xs) :: L))) (Hv : isValid tm = true).
Context (Hw : forall k, k = 8 \/ k = 12 \/ k = 16 -> outside (nodes ((TL, xs) :: (tm, []) :: L)) (tm + k)).

Lemma arm_sleep_timer data count :
  count <> 0 ->
  let m' := mod_timer TL (setup_timer m tm sleep_entry data) tm count in
  dlists m' ((TL, xs ++ [tm]) :: L) /\ tm_expires m' tm = count /\ tm_entry m' tm = sleep_entry /\ tm_data m' tm = data.
Proof using HD Htm Hv Hw.
  intros Hc. set (m1 := setup_timer m tm sleep_entry data).
  assert (dlists m1 ((TL, xs) :: (tm, []) :: L)) as HD1.
  { unfold m1, setup_timer. rewrite Hv. simpl. apply dlists_write; [apply Hw; auto|]. apply dlists_write; [apply Hw; auto|].
    rewrite Permutation_swap. by apply init_list_head_spec. }
  pose proof (mod_timer_detached TL m1 tm count xs L HD1 Hv (Hw 8 ltac:(auto))) as H.
  rewrite (proj2 (Z.eqb_neq _ _)) in H by done. simpl. split; [done|].
  assert (forall k v, k = 8 \/ k = 12 \/ k = 16 -> st m1 (tm + 8) count (tm + k) = v -> mod_timer TL m1 tm count (tm + k) = v) as Hk.
  { intros k v Hk <-. unfold mod_timer. rewrite Hv. simpl.
    assert (dlists (st m1 (tm + 8) count) ((tm, []) :: (TL, xs) :: L)) as HD2.
    { rewrite Permutation_swap. by apply dlists_write; [apply Hw; auto|]. }
    rewrite (dlists_empty _ _ _ _ HD2), bool_decide_eq_true_2 by done. unfold add_timer, tm_expires. rewrite Hv, st_eq, (proj2 (Z.eqb_neq _ _)) by done. simpl.
    apply dlists_cons in HD2 as (_ & HD3 & _ & Ha).
    destruct (list_head_add_tail_spec (st m1 (tm + 8) count) TL xs [] L tm) as [_ Hch].
    { by rewrite app_nil_r. }
    { rewrite app_nil_r. rewrite Forall_forall in Ha |- *. intros x Hx. specialize (Ha x Hx). apply Forall_cons in Ha as [Ha _]. by apply apart_sym. }
    apply Hch. intros n Hn. apply (Hw k Hk). rewrite !nodes_cons. cbn [fst snd app]. rewrite app_nil_r in Hn.
    rewrite !elem_of_cons in Hn. rewrite elem_of_cons, elem_of_app, elem_of_cons. tauto. }
  unfold tm_expires, tm_entry, tm_data. split_and!.
  - apply Hk; [auto|apply st_eq].
  - apply Hk; [auto|]. rewrite st_ne by lia. unfold m1, setup_timer. rewrite Hv. simpl. rewrite st_ne, st_eq by lia. done.
  - apply Hk; [auto|]. rewrite st_ne by lia. unfold m1, setup_timer. rewrite Hv. simpl. by rewrite st_eq.
Qed.
End sleep.

(** C5: a thread other than idle that sleeps until a non-zero tick arms its
    timer with that tick and its own identity, behind all timers armed before,
    and is suspended when the call hands over to the next thread. *)
Theorem schedule_timeout_sleeps TL sleep_entry tm xs L m psr count s w :
  rtc sched_step sched_boot s -> is_Some (s_tids s !! THREAD_TID_IDLE) -> s_work s = Some w -> w <> THREAD_TID_IDLE ->
  count <> 0 -> isValid tm = true -> dlists m ((TL, xs) :: L) -> Forall (apart tm) (nodes ((TL, xs) :: L)) ->
  (forall k, k = 8 \/ k = 12 \/ k = 16 -> outside (nodes ((TL, xs) :: (tm, []) :: L)) (tm + k)) ->
  exists s' m', schedule_timeout_enter TL sleep_entry psr tm count s m = Ok (s', m') /\ sched_ok s' /\
    status s' w = Some NR_THREAD_SUSPEND /\ dlists m' ((TL, xs ++ [tm]) :: L) /\
    tm_expires m' tm = count /\ tm_entry m' tm = sleep_entry /\ tm_data m' tm = w.
Proof.
  intros Hreach Hi Hw Hne Hc Hv HD Htm Hwd. pose proof (reachable_ok s Hreach) as Hok. pose proof Hok as [HI Hbt Hl Hcc].
  unfold schedule_timeout_enter, get_current_thread. rewrite Hw. simpl. rewrite (proj2 (Z.eqb_neq _ _)) by done. simpl.
  destruct (sched_critical s Hl Hcc) as (c & l & -> & _ & Hu). simpl. rewrite Hu by done.
  destruct (self_suspend_switches psr (unlocked s s) w) as (s' & n & E & Hok' & _ & _ & _ & S' & _); try done; [by apply unlocked_ok|].
  change (set_lock (Lock 0 0) _) with (unlocked s s). rewrite E. simpl.
  destruct (arm_sleep_timer TL sleep_entry tm xs L m HD Htm Hv Hwd w count Hc) as (H1 & H2 & H3 & H4).
  eexists _, _. split; [done|]. split_and!; done.
Qed.
Definition demo_timer_head : mem := init_list_head (fun _ => 0) 64.
Lemma schedule_timeout_sleeps_witness :
  exists s' m', schedule_timeout_enter 64 4096 demo_resume 256 500 demo_sched demo_timer_head = Ok (s', m') /\
    status s' 33 = Some NR_THREAD_SUSPEND /\ dlists m' [(64, [256])].
Proof.
  destruct (schedule_timeout_sleeps 64 4096 256 [] [] demo_timer_head demo_resume 500 demo_sched 33) as (s' & m' & E & _ & S & D & _).
  - exact demo_reachable.
  - vm_compute. eauto.
  - reflexivity.
  - discriminate.
  - discriminate.
  - reflexivity.
  - split; [vm_compute; repeat constructor|]. simpl. repeat constructor.
  - solve_apart.
  - intros k Hk n Hn. unfold nodes in Hn. simpl in Hn. rewrite !elem_of_cons in Hn. set_solver by lia.
  - exists s', m'. split_and!; [exact E|exact S|exact D].
Defined.

(** The same thread asleep, and a tick after its time. *)
Definition demo_asleep : ksys * mem :=
  match schedule_timeout_enter 64 4096 demo_resume 256 500 demo_sched demo_timer_head with
  | Ok (s, m) => (KSys s false, m)
  | _ => (KSys sched_boot false, demo_timer_head)
  end.

Lemma demo_asleep_inv : pass_inv 64 4096 8192 [256] [] 34 demo_asleep.
Proof.
  assert (demo_asleep.1 = KSys (default sched_boot (performs (demo_calls ++ [SelfSuspend demo_resume]) sched_boot)) false) as E1.
  { vm_compute. reflexivity. }
  split_and!.
  - rewrite E1. simpl. split; [|vm_compute; reflexivity]. apply reachable_ok.
    apply (performs_reach (demo_calls ++ [SelfSuspend demo_resume])). vm_compute. reflexivity.
  - split; [vm_compute; repeat constructor|]. simpl. repeat constructor. unfold apart. lia.
  - intros t Ht%list_elem_of_singleton. subst t. left. vm_compute. eauto.
Qed.
Lemma tick_wakes_sleepers_witness :
  exists x', do_timer_event 64 (handler 64 4096 8192 501) 1 501 demo_asleep = Ok x' /\
    status (k_sched x'.1) 33 = Some NR_THREAD_READY /\ status (k_sched x'.1) 35 = Some NR_THREAD_SLEEP.
Proof.
  destruct (tick_wakes_sleepers 64 4096 8192 501 [256] [] 34 demo_asleep 1) as (x' & E & _ & H).
  - discriminate.
  - discriminate.
  - split.
    + intros t Ht%list_elem_of_singleton. subst t. reflexivity.
    + intros t Ht%list_elem_of_singleton n Hn. subst t. unfold nodes in Hn. simpl in Hn. rewrite !elem_of_cons in Hn. set_solver by lia.
    + intros t t' Ht%list_elem_of_singleton Ht'%list_elem_of_singleton Hne. congruence.
    + intros t t' Ht%list_elem_of_singleton Ht'%list_elem_of_singleton. subst. split; discriminate.
  - exact demo_asleep_inv.
  - simpl. lia.
  - exists x'. split; [exact E|]. split.
    + destruct (H 33) as [H1 _]. apply H1; [vm_compute; reflexivity|]. exists 256. split; [in_goal|].
      vm_compute. split_and!; [reflexivity|discriminate|reflexivity|reflexivity].
    + destruct (H 35) as [_ H2]. rewrite H2; [vm_compute; reflexivity|]. left. vm_compute. discriminate.
Defined.

(** The time-slice timer asks for preemption exactly when the running
    thread's slice is over and the first ready thread has the same or a higher
    priority; it changes no status, and re-arms itself for the next period. *)
Theorem preempt_request_exact TL jiffies tm xs1 xs2 L k m w t :
  running_ok (k_sched k) w -> s_tids (k_sched k) !! w = Some t ->
  dlists m ((TL, xs1 ++ tm :: xs2) :: L) -> isValid tm = true -> outside (nodes ((TL, xs1 ++ tm :: xs2) :: L)) (tm + 8) ->
  exists k' m', kthread_schedule_timeout TL jiffies tm (k, m) = Ok (k', m') /\ running_ok (k_sched k') w /\
    (forall x, status (k_sched k') x = status (k_sched k) x) /\
    g_asm_sched_flag k' = g_asm_sched_flag k ||
      (t_expires t <=? jiffies) && match head (s_ready (k_sched k)) with Some r => prio (k_sched k) r <=? t_prio t | None => false end /\
    m' = st m (tm + 8) (u32 (jiffies + msecs_to_jiffies THREAD_PREEMPT_PERIOD)).
Proof.
  intros Hrun Ht HD Hv Ho. unfold kthread_schedule_timeout. simpl.
  destruct (preempt_check_spec jiffies k w t Hrun Ht) as (k' & -> & Hrun' & Hst & Hfl). simpl.
  destruct (mod_timer_armed TL m tm (u32 (jiffies + msecs_to_jiffies THREAD_PREEMPT_PERIOD)) xs1 xs2 L HD Hv Ho) as [-> _].
  eexists _, _. split_and!; [done|done|done| |done]. rewrite Hfl. unfold mrt_time_before, mrt_time_after.
  destruct (Z.ltb_spec jiffies (t_expires t)), (Z.leb_spec (t_expires t) jiffies); try lia; simpl; [by rewrite orb_false_r|done].
Qed.
Lemma preempt_request_exact_witness :
  exists k' m', kthread_schedule_timeout 64 400 256 (KSys demo_sched false, demo_timers) = Ok (k', m') /\ g_asm_sched_flag k' = true.
Proof.
  destruct (preempt_request_exact 64 400 256 [] [320] [] (KSys demo_sched false) demo_timers 33 (default (demo_thread 0) (s_tids demo_sched !! 33)))
    as (k' & m' & E & _ & _ & F & _).
  - split; [exact demo_ok|reflexivity].
  - reflexivity.
  - exact demo_timers_ok.
  - reflexivity.
  - intros n Hn. unfold nodes in Hn. simpl in Hn. rewrite !elem_of_cons in Hn. set_solver by lia.
  - exists k', m'. split; [exact E|]. rewrite F. vm_compute. reflexivity.
Defined.
