(* ===== verification/Wait.v ===== *)
(** * Wait queues (kernel/wait.c, include/kernel/wait.h)

    A thread that waits for a condition puts an entry of its own stack on a
    queue, marks itself with a signal bit and yields until the condition holds;
    [wake_up] marks the waiting threads.  Queues are the sequences that
    list_types.h represents; the link of an entry is null, its own, or on a
    queue.  Entries and queue heads are known by their addresses. *)

From stdpp Require Import prelude gmap fin_maps sorting.
From S2P Require Import Prelude Sync Sched SchedInv SchedOps.

Record wait_queue_head := WqHead { wqh_lock : spin_lock_t; wqh_task : list Z }.
Inductive wlink := LNull | LSelf | LOn (wqh : Z).
#[export] Instance wlink_eq_dec : EqDecision wlink.
Proof. solve_decision. Defined.
Record wait_queue := Wq { wq_task : option Z; wq_link : wlink }.

Record wsys := WSys { w_sched : sched; w_heads : gmap Z wait_queue_head; w_entries : gmap Z wait_queue }.
Definition with_sched (s : sched) (w : wsys) : wsys := WSys s (w_heads w) (w_entries w).
Definition put_head (a : Z) (h : wait_queue_head) (w : wsys) : wsys := WSys (w_sched w) (<[a := h]> (w_heads w)) (w_entries w).
Definition put_link (a : Z) (l : wlink) (w : wsys) : wsys :=
  WSys (w_sched w) (w_heads w) (alter (fun q => Wq (wq_task q) l) a (w_entries w)).

Definition init_waitqueue_head (h : wait_queue_head) : wait_queue_head := WqHead (spin_lock_init (wqh_lock h)) [].

(** Run [f] on the members of a queue, inside the lock of its head. *)
Definition queue_critical (wqh : Z) (f : list Z -> wsys -> res (list Z * wsys)) (w : wsys) : res wsys :=
  h ← deref (w_heads w !! wqh);
  '(c, l) ← spin_lock_irqsave (s_cpu (w_sched w)) (wqh_lock h);
  '(q, w) ← f (wqh_task h) (with_sched (set_cpu c (w_sched w)) w);
  let '(c, l) := spin_unlock_irqrestore (s_cpu (w_sched w)) l in
  Ok (put_head wqh (WqHead l q) (with_sched (set_cpu c (w_sched w)) w)).

Definition add_wait_queue (wqh wq : Z) (w : wsys) : res wsys :=
  e ← deref (w_entries w !! wq);
  if negb (bool_decide (wq_link e = LSelf)) then Ok w
  else queue_critical wqh (fun q w => Ok (q ++ [wq], put_link wq (LOn wqh) w)) w.

(** [list_head_del] follows the links of the entry: null ones are a fault, its
    own leave every queue alone, and those of another queue would change it. *)
Definition remove_wait_queue (wqh wq : Z) (w : wsys) : res wsys :=
  queue_critical wqh (fun q w =>
    e ← deref (w_entries w !! wq);
    match wq_link e with
    | LNull => Fault
    | LSelf => Ok (q, w)
    | LOn h =>
        if h =? wqh then Ok (filter (fun x => x <> wq) q, put_link wq LSelf w)
        else
          other ← deref (w_heads w !! h);
          Ok (q, put_link wq LSelf (put_head h (WqHead (wqh_lock other) (filter (fun x => x <> wq) (wqh_task other))) w))
    end) w.

Definition __wake_up_common (sprt_thread state : Z) (s : sched) : res sched :=
  t ← thread_deref s sprt_thread;
  if negb (mrt_thread_is_flags state t) then Ok s
  else thread_state_signal NR_THREAD_SIG_WAKEUP true sprt_thread s.

Fixpoint wake_up_entries (state : Z) (q : list Z) (w : wsys) : res wsys :=
  match q with
  | [] => Ok w
  | wq :: q =>
      e ← deref (w_entries w !! wq);
      w ← match wq_task e with
          | Some tid => s ← __wake_up_common tid state (w_sched w); Ok (with_sched s w)
          | None => Ok w
          end;
      wake_up_entries state q w
  end.
Definition wake_up_common (wqh state : Z) (w : wsys) : res wsys :=
  h ← deref (w_heads w !! wqh);
  if bool_decide (wqh_task h = []) then Ok w
  else queue_critical wqh (fun q w => w ← wake_up_entries state q w; Ok (q, w)) w.
Definition wake_up (wqh : Z) : wsys -> res wsys := wake_up_common wqh NR_THREAD_SIG_NORMAL.
Definition wake_up_interruptible (wqh : Z) : wsys -> res wsys := wake_up_common wqh NR_THREAD_SIG_INTR.

(** ** Waiting

    [condition] is the caller's expression and [func] its yield,
    [schedule_thread()] or [schedule_timeout(timeout)], from the call until it
    returns, with everything other threads do meanwhile. *)
Section waiting.
Context (condition : wsys -> bool) (func : wsys -> res wsys).

Definition __wait_is_interruptible (tid : Z) (w : wsys) : res bool :=
  t ← thread_deref (w_sched w) tid; Ok (mrt_thread_is_flags NR_THREAD_SIG_INTR t).

(** The loop; the entry of thread [tid] is on the queue. *)
Fixpoint wait_loop (fuel : nat) (tid : Z) (w : wsys) : res wsys :=
  if condition w then Ok w
  else
    intr ← __wait_is_interruptible tid w;
    '(pending, w) ← (if (intr : bool) then '(p, s) ← thread_state_pending tid (w_sched w); Ok (p, with_sched s w) else Ok (false, w));
    if (pending : bool) then Ok w
    else match fuel with
         | O => Spin
         | S fuel => w ← func w; wait_loop fuel tid w
         end.

(** [sgrt_wq] is the address of the entry on the caller's stack. *)
Definition __wait_event (fuel : nat) (wqh sgrt_wq : Z) (sig_enable : bool) (w : wsys) : res wsys :=
  let task := get_current_thread (w_sched w) in
  let w := WSys (w_sched w) (w_heads w) (<[sgrt_wq := Wq task LNull]> (w_entries w)) in
  let state := if sig_enable then NR_THREAD_SIG_INTR else NR_THREAD_SIG_NORMAL in
  match task with
  | None => if condition w then Ok w else Spin
  | Some tid =>
      let w := put_link sgrt_wq LSelf w in
      w ← add_wait_queue wqh sgrt_wq w;
      s ← thread_state_signal state true tid (w_sched w);
      w ← wait_loop fuel tid (with_sched s w);
      s ← thread_state_signal state false tid (w_sched w);
      remove_wait_queue wqh sgrt_wq (with_sched s w)
  end.

(** [wait_event], [wait_event_timeout] and their interruptible variants differ
    in [func] and in the signal. *)
Definition wait_event (fuel : nat) (wqh sgrt_wq : Z) (sig_enable : bool) (w : wsys) : res wsys :=
  if condition w then Ok w else __wait_event fuel wqh sgrt_wq sig_enable w.
End waiting.

(** ** Well-formed queues *)
Record wait_ok (w : wsys) : Prop := {
  wo_sched : sched_ok (w_sched w);
  wo_tlocks : forall tid t, s_tids (w_sched w) !! tid = Some t -> lock_free (t_lock t);
  wo_hlocks : forall a h, w_heads w !! a = Some h -> lock_free (wqh_lock h);
  wo_nodup : forall a h, w_heads w !! a = Some h -> NoDup (wqh_task h);
  wo_queue : forall a h x, w_heads w !! a = Some h ->
    x ∈ wqh_task h <-> exists e, w_entries w !! x = Some e /\ wq_link e = LOn a;
  wo_task : forall x e tid, w_entries w !! x = Some e -> wq_task e = Some tid -> is_Some (s_tids (w_sched w) !! tid);
}.

Lemma sched_eta s : set_cpu (s_cpu s) s = s.
Proof. by destruct s. Qed.
Lemma with_sched_eta w : with_sched (w_sched w) w = w.
Proof. by destruct w. Qed.

(** *** Signals *)
Definition flags_of (s : sched) (tid : Z) : option Z := t_flags <$> s_tids s !! tid.

(** Everything but flags and thread locks stays. *)
Record same_but_flags (s s' : sched) : Prop := {
  sf_cpu : s_cpu s' = s_cpu s;
  sf_work : s_work s' = s_work s;
  sf_suspend : s_suspend s' = s_suspend s;
  sf_sleep : s_sleep s' = s_sleep s;
  sf_lock : s_lock s' = s_lock s;
  sf_known : forall tid, is_Some (s_tids s' !! tid) <-> is_Some (s_tids s !! tid);
}.

Lemma flags_critical_spec f tid s t :
  sched_inv [] s -> s_tids s !! tid = Some t -> lock_free (t_lock t) -> 0 <= g_sched_preempt_cnt (s_cpu s) < W32 - 1 ->
  flags_critical f tid s = Ok (upd_thread (with_flags (f (t_flags t)) (Lock 0 0)) tid s).
Proof.
  intros HI Ht Hl Hc. unfold flags_critical. rewrite (thread_deref_known _ _ _ _ HI Ht). cbn [mbind res_bind].
  destruct (irqsave_restore _ _ Hl Hc) as (c & l & -> & _ & _ & _ & Hu). cbn [mbind res_bind]. by rewrite Hu.
Qed.

Lemma with_flags_inv f l tid s : sched_inv [] s -> sched_inv [] (upd_thread (with_flags f l) tid s).
Proof.
  intros HI. apply sched_inv_upd_same; try done. intros t Ht. by apply (si_range _ _ HI tid t).
Qed.
Lemma with_flags_lookup f l tid s x :
  s_tids (upd_thread (with_flags f l) tid s) !! x = (if decide (x = tid) then with_flags f l <$> s_tids s !! x else s_tids s !! x).
Proof. apply upd_lookup. Qed.
Lemma with_flags_flags f l tid s t x : s_tids s !! tid = Some t ->
  flags_of (upd_thread (with_flags f l) tid s) x = if decide (x = tid) then Some f else flags_of s x.
Proof.
  intros Ht. unfold flags_of. rewrite with_flags_lookup. destruct (decide (x = tid)) as [->|]; [|done]. by rewrite Ht.
Qed.

(** A state of the scheduler in which threads can be signalled. *)
Definition signal_ok (s : sched) : Prop :=
  sched_inv [] s /\ (forall tid t, s_tids s !! tid = Some t -> lock_free (t_lock t)) /\
  0 <= g_sched_preempt_cnt (s_cpu s) < W32 - 1.

Lemma signal_step f tid s t : signal_ok s -> s_tids s !! tid = Some t ->
  exists s', flags_critical f tid s = Ok s' /\ signal_ok s' /\ same_but_flags s s' /\
    s' = upd_thread (with_flags (f (t_flags t)) (Lock 0 0)) tid s /\
    forall x, flags_of s' x = if decide (x = tid) then Some (f (t_flags t)) else flags_of s x.
Proof.
  intros (HI & Hl & Hc) Ht. eexists. split_and!; [by apply flags_critical_spec; eauto|..|done|].
  - split; [by apply with_flags_inv|split; [|exact Hc]]. intros x t'. rewrite with_flags_lookup.
    destruct (decide _) as [->|]; [|apply Hl]. rewrite Ht. by intros [= <-].
  - split; try done. intros x. rewrite with_flags_lookup. destruct (decide _); [by rewrite fmap_is_Some|done].
  - intros x. by apply (with_flags_flags _ _ _ _ t).
Qed.

(** *** Waking *)
Definition woken (state : Z) (tids : list Z) (f : Z) (tid : Z) : Z :=
  if decide (tid ∈ tids) then if atomic_is_bitset state f then Z.lor f (bitmask NR_THREAD_SIG_WAKEUP) else f else f.

Lemma woken_id state tids f : atomic_is_bitset state f = false -> forall tid, woken state tids f tid = f.
Proof. intros H tid. unfold woken. rewrite H. by case_decide. Qed.

Lemma wake_one state tid s t : signal_ok s -> s_tids s !! tid = Some t ->
  exists s', __wake_up_common tid state s = Ok s' /\ signal_ok s' /\ same_but_flags s s' /\
    (forall x, flags_of s' x = (fun f => woken state [tid] f x) <$> flags_of s x).
Proof.
  intros Hs Ht. unfold __wake_up_common. rewrite (thread_deref_known _ _ _ _ (proj1 Hs) Ht). cbn [mbind res_bind].
  unfold mrt_thread_is_flags. destruct (atomic_is_bitset state (t_flags t)) eqn:E; cbn [negb].
  - destruct (signal_step (fun f => Z.lor f (bitmask NR_THREAD_SIG_WAKEUP)) tid s t Hs Ht) as (s' & Hr & H1 & H2 & Es & H3).
    exists s'. split_and!; [exact Hr|done..|]. intros x. rewrite H3. unfold woken.
    destruct (decide (x = tid)) as [->|Hne].
    + unfold flags_of. rewrite Ht. simpl. rewrite decide_True by by left. by rewrite E.
    + destruct (flags_of s x); [|done]. simpl. by rewrite decide_False by set_solver.
  - exists s. split_and!; [done..|]. intros x. unfold woken. destruct (decide (x ∈ [tid])) as [->%list_elem_of_singleton|].
    + unfold flags_of. rewrite Ht. simpl. by rewrite E.
    + by destruct (flags_of s x).
Qed.

(** The threads whose entries are in a queue. *)
Definition waiters (w : wsys) (q : list Z) : list Z := omap (fun x => w_entries w !! x ≫= wq_task) q.

Lemma bit_keeps state f : 0 <= state < 32 -> state <> NR_THREAD_SIG_WAKEUP ->
  atomic_is_bitset state (Z.lor f (bitmask NR_THREAD_SIG_WAKEUP)) = atomic_is_bitset state f.
Proof.
  intros Hs Hne. rewrite !is_bitset_testbit, Z.lor_spec, bitmask_pow, Z.pow2_bits_false by (unfold NR_THREAD_SIG_WAKEUP in *; lia).
  apply orb_false_r.
Qed.
Lemma woken_cons state a l f x : 0 <= state < 32 -> state <> NR_THREAD_SIG_WAKEUP ->
  woken state l (woken state [a] f x) x = woken state (a :: l) f x.
Proof.
  intros Hs Hne. unfold woken. destruct (atomic_is_bitset state f) eqn:E.
  - destruct (decide (x ∈ [a])) as [Ha|Ha]; rewrite ?bit_keeps, ?E by done.
    + rewrite (decide_True (P := x ∈ a :: l)) by set_solver. case_decide; [|done]. by rewrite <- Z.lor_assoc, Z.lor_diag.
    + destruct (decide (x ∈ l)); [rewrite decide_True by set_solver|rewrite decide_False by set_solver]; done.
  - destruct (decide (x ∈ [a])), (decide (x ∈ l)), (decide (x ∈ a :: l)); by rewrite ?E.
Qed.

Lemma wake_entries_spec state q : 0 <= state < 32 -> state <> NR_THREAD_SIG_WAKEUP -> forall w,
  signal_ok (w_sched w) ->
  (forall x, x ∈ q -> exists e, w_entries w !! x = Some e /\ forall tid, wq_task e = Some tid -> is_Some (s_tids (w_sched w) !! tid)) ->
  exists s', wake_up_entries state q w = Ok (with_sched s' w) /\ signal_ok s' /\ same_but_flags (w_sched w) s' /\
    (forall x, flags_of s' x = (fun f => woken state (waiters w q) f x) <$> flags_of (w_sched w) x).
Proof.
  intros Hs Hne. induction q as [|x q IH]; intros w Hok Hq.
  { exists (w_sched w). rewrite with_sched_eta. split_and!; try done. intros x. by destruct (flags_of _ x). }
  destruct (Hq x ltac:(by left)) as (e & He & Hk). simpl. rewrite He. cbn [deref mbind res_bind].
  assert (exists s1, match wq_task e with Some tid => s ← __wake_up_common tid state (w_sched w); Ok (with_sched s w) | None => Ok w end
      = Ok (with_sched s1 w) /\ signal_ok s1 /\ same_but_flags (w_sched w) s1 /\
      (forall y, flags_of s1 y = (fun f => woken state (waiters w [x]) f y) <$> flags_of (w_sched w) y)) as (s1 & -> & H1 & H2 & H3).
  { unfold waiters. simpl. rewrite He. simpl. destruct (wq_task e) as [tid|].
    - destruct (Hk tid eq_refl) as [t Ht]. destruct (wake_one state tid _ t Hok Ht) as (s1 & -> & ? & ? & ?). by exists s1.
    - exists (w_sched w). rewrite with_sched_eta. split_and!; try done. intros y. by destruct (flags_of _ y). }
  cbn [mbind res_bind]. destruct (IH (with_sched s1 w)) as (s' & -> & I1 & I2 & I3).
  { done. }
  { intros y Hy. destruct (Hq y ltac:(by right)) as (e' & He' & Hk'). exists e'. split; [done|]. intros tid Htid.
    simpl. apply (sf_known _ _ H2). by apply Hk'. }
  exists s'. split; [done|]. split; [done|]. split.
  - destruct H2, I2. simpl in *. split; try congruence. intros tid. by rewrite sf_known1.
  - intros y. rewrite I3. simpl. rewrite H3, <- option_fmap_compose. destruct (flags_of (w_sched w) y) as [f|]; [|done]. simpl. f_equal.
    unfold waiters in *. simpl. rewrite He. simpl. destruct (wq_task e); simpl; [by apply woken_cons|]. done.
Qed.

(** *** Critical sections of a queue *)
Lemma queue_critical_spec wqh f w h :
  w_heads w !! wqh = Some h -> lock_free (wqh_lock h) -> 0 <= g_sched_preempt_cnt (s_cpu (w_sched w)) < W32 - 1 ->
  exists c, g_sched_preempt_cnt c = g_sched_preempt_cnt (s_cpu (w_sched w)) + 1 /\ forall q w1,
    f (wqh_task h) (with_sched (set_cpu c (w_sched w)) w) = Ok (q, w1) -> s_cpu (w_sched w1) = c ->
    queue_critical wqh f w =
      Ok (put_head wqh (WqHead (Lock 0 0) q) (with_sched (set_cpu (s_cpu (w_sched w)) (w_sched w1)) w1)).
Proof.
  intros Hh Hl Hc. destruct (irqsave_restore _ _ Hl Hc) as (c & l & E & _ & Hn & _ & Hu). exists c. split; [done|].
  intros q w1 Hf Hcpu. unfold queue_critical. rewrite Hh. cbn [deref mbind res_bind]. rewrite E. cbn [mbind res_bind].
  rewrite Hf. cbn [mbind res_bind]. by rewrite Hcpu, Hu.
Qed.

Lemma wait_signal_ok w c : wait_ok w -> 0 <= g_sched_preempt_cnt c < W32 - 1 -> signal_ok (set_cpu c (w_sched w)).
Proof. intros [[] ? ? ? ? ?] Hc. split; [by apply sched_inv_cpu|split; [done|exact Hc]]. Qed.

(** Signalling threads and touching the links keeps queues well-formed. *)
Lemma wait_ok_signalled w c s : wait_ok w -> same_but_flags (set_cpu c (w_sched w)) s -> signal_ok s ->
  wait_ok (with_sched (set_cpu (s_cpu (w_sched w)) s) w).
Proof.
  intros [[] ? ? ? ? Ht] [? Hw Hsu Hsl Hl Hk] (? & ? & ?). simpl in *. split; simpl; try done.
  - split; simpl; [by apply sched_inv_cpu|by rewrite Hw, Hsu, Hsl|by rewrite Hl|done].
  - intros x e tid He Hq. apply Hk. by eapply Ht.
Qed.
Lemma wait_ok_unlocked w wqh h : wait_ok w -> w_heads w !! wqh = Some h ->
  wait_ok (put_head wqh (WqHead (Lock 0 0) (wqh_task h)) w).
Proof.
  intros Hw Hh. split; try apply Hw.
  - intros a h'. simpl. rewrite lookup_insert_Some. intros [[<- <-]|[_ Ha]]; [done|by eapply wo_hlocks].
  - intros a h'. simpl. rewrite lookup_insert_Some. intros [[<- <-]|[_ Ha]]; [exact (wo_nodup _ Hw _ _ Hh)|exact (wo_nodup _ Hw _ _ Ha)].
  - intros a h' x. simpl. rewrite lookup_insert_Some. intros [[<- <-]|[_ Ha]]; [exact (wo_queue _ Hw _ _ x Hh)|exact (wo_queue _ Hw _ _ x Ha)].
Qed.

(** What the other threads see of a system. *)
Record same_queues (w w' : wsys) : Prop := {
  sq_entries : w_entries w' = w_entries w;
  sq_tasks : forall a, wqh_task <$> w_heads w' !! a = wqh_task <$> w_heads w !! a;
  sq_cpu : s_cpu (w_sched w') = s_cpu (w_sched w);
}.

(** C6: waking a queue signals exactly the threads that have an entry on it and
    wait in the wanted mode; queues, entries and every other thread's flags stay
    as they are, and the locks are released. *)
Theorem wake_up_signals_waiters wqh state h w :
  wait_ok w -> w_heads w !! wqh = Some h -> 0 <= state < 32 -> state <> NR_THREAD_SIG_WAKEUP ->
  exists w', wake_up_common wqh state w = Ok w' /\ wait_ok w' /\ same_queues w w' /\
    forall tid, flags_of (w_sched w') tid = (fun f => woken state (waiters w (wqh_task h)) f tid) <$> flags_of (w_sched w) tid.
Proof.
  intros Hw Hh Hs Hne. unfold wake_up_common. rewrite Hh. cbn [deref mbind res_bind]. case_bool_decide as Hq.
  { exists w. split_and!; try done. intros tid. rewrite Hq. by destruct (flags_of _ tid). }
  destruct (ok_cnt _ (wo_sched _ Hw)) as [Hc0 Hc1].
  destruct (queue_critical_spec wqh (fun q w => w ← wake_up_entries state q w; Ok (q, w)) w h Hh)
    as (c & Hc & Hgo); [by eapply wo_hlocks|unfold W32 in *; lia|].
  destruct (wake_entries_spec state (wqh_task h) Hs Hne (with_sched (set_cpu c (w_sched w)) w)) as (s' & E & H1 & H2 & H3).
  { apply wait_signal_ok; [done|unfold W32 in *; lia]. }
  { intros x Hx. apply (wo_queue _ Hw wqh h x Hh) in Hx as (e & He & _). exists e. split; [done|]. intros tid. exact (wo_task _ Hw x e tid He). }
  erewrite Hgo; [|simpl; rewrite E; done|by simpl; rewrite (sf_cpu _ _ H2)].
  eexists. split_and!; [done|..].
  - apply (wait_ok_unlocked (with_sched (set_cpu (s_cpu (w_sched w)) s') w) wqh h); [|done]. by apply (wait_ok_signalled w c s').
  - split; try done. intros a. simpl. destruct (decide (a = wqh)) as [->|]; [by rewrite lookup_insert_eq, Hh|by rewrite lookup_insert_ne].
  - exact H3.
Qed.

(** *** Joining and leaving a queue *)
Lemma wait_ok_relink w wqh h wq e l q :
  wait_ok w -> w_heads w !! wqh = Some h -> w_entries w !! wq = Some e ->
  (forall a, wq_link e = LOn a -> a = wqh) -> (forall a, l = LOn a -> a = wqh) ->
  NoDup q -> (forall x, x <> wq -> x ∈ q <-> x ∈ wqh_task h) -> (wq ∈ q <-> l = LOn wqh) ->
  wait_ok (put_head wqh (WqHead (Lock 0 0) q) (put_link wq l w)).
Proof.
  intros Hw Hh He Hold Hnew Hnd Hq Hwq.
  assert (forall x e', alter (fun q => Wq (wq_task q) l) wq (w_entries w) !! x = Some e' <->
    (x = wq /\ e' = Wq (wq_task e) l) \/ (x <> wq /\ w_entries w !! x = Some e')) as Hent.
  { intros x e'. destruct (decide (x = wq)) as [->|Hne]; [rewrite lookup_alter_eq, He|rewrite lookup_alter_ne by done]; naive_solver. }
  split; try apply Hw.
  - intros a h'. simpl. rewrite lookup_insert_Some. intros [[<- <-]|[_ Ha]]; [done|by eapply wo_hlocks].
  - intros a h'. simpl. rewrite lookup_insert_Some. intros [[<- <-]|[_ Ha]]; [done|exact (wo_nodup _ Hw _ _ Ha)].
  - intros a h' x. simpl. setoid_rewrite Hent. rewrite lookup_insert_Some. intros [[<- <-]|[Hne Ha]]; simpl.
    + destruct (decide (x = wq)) as [->|Hx]; [rewrite Hwq|rewrite (Hq x Hx), (wo_queue _ Hw _ _ x Hh)]; naive_solver.
    + rewrite (wo_queue _ Hw _ _ x Ha). destruct (decide (x = wq)) as [->|Hx]; naive_solver.
  - intros x e' tid. simpl. rewrite Hent. intros [[-> ->]|[_ Hx]]; [exact (wo_task _ Hw _ _ _ He)|exact (wo_task _ Hw _ _ _ Hx)].
Qed.

Lemma alter_lookup_insert {A} (f : A -> A) (m : gmap Z A) k x : m !! k = Some x -> alter f k m = <[k := f x]> m.
Proof. intros Hk. apply map_eq. intros j. destruct (decide (j = k)) as [->|]; by simplify_map_eq. Qed.

Lemma add_wait_queue_spec wqh wq h w e :
  wait_ok w -> w_heads w !! wqh = Some h -> w_entries w !! wq = Some e -> wq_link e = LSelf ->
  exists w', add_wait_queue wqh wq w = Ok w' /\ wait_ok w' /\ w_sched w' = w_sched w /\
    w_heads w' = <[wqh := WqHead (Lock 0 0) (wqh_task h ++ [wq])]> (w_heads w) /\
    w_entries w' = <[wq := Wq (wq_task e) (LOn wqh)]> (w_entries w).
Proof.
  intros Hw Hh He Hl. unfold add_wait_queue. rewrite He. cbn [deref mbind res_bind]. rewrite Hl, bool_decide_true by done. cbn [negb].
  destruct (ok_cnt _ (wo_sched _ Hw)).
  destruct (queue_critical_spec wqh (fun q w => Ok (q ++ [wq], put_link wq (LOn wqh) w)) w h Hh) as (c & Hc & Hgo);
    [by eapply wo_hlocks|unfold W32 in *; lia|].
  assert (wq ∉ wqh_task h) as Hn by (intros (e' & ? & ?)%(wo_queue _ Hw _ _ wq Hh); congruence).
  erewrite Hgo; [|done|done]. eexists. split_and!; [done|..].
  - simpl. replace (set_cpu _ _) with (w_sched w) by (by destruct (w_sched w)).
    apply (wait_ok_relink w wqh h wq e (LOn wqh)); try done; try congruence.
    + apply NoDup_app. split_and!; [exact (wo_nodup _ Hw _ _ Hh)|set_solver|apply NoDup_singleton].
    + intros x Hx. set_solver.
    + split; [done|intros _; set_solver].
  - simpl. by destruct (w_sched w).
  - done.
  - simpl. by rewrite (alter_lookup_insert _ _ _ _ He).
Qed.

Lemma remove_wait_queue_spec wqh wq h w e :
  wait_ok w -> w_heads w !! wqh = Some h -> w_entries w !! wq = Some e -> wq_link e = LOn wqh ->
  exists w', remove_wait_queue wqh wq w = Ok w' /\ wait_ok w' /\ w_sched w' = w_sched w /\
    w_heads w' = <[wqh := WqHead (Lock 0 0) (filter (fun x => x <> wq) (wqh_task h))]> (w_heads w) /\
    w_entries w' = <[wq := Wq (wq_task e) LSelf]> (w_entries w).
Proof.
  intros Hw Hh He Hl. unfold remove_wait_queue. destruct (ok_cnt _ (wo_sched _ Hw)).
  match goal with |- context [queue_critical wqh ?f w] => destruct (queue_critical_spec wqh f w h Hh) as (c & Hc & Hgo) end;
    [by eapply wo_hlocks|unfold W32 in *; lia|].
  erewrite Hgo; [|simpl; rewrite He; simpl; rewrite Hl, Z.eqb_refl; done|done]. eexists. split_and!; [done|..].
  - simpl. replace (set_cpu _ _) with (w_sched w) by (by destruct (w_sched w)).
    apply (wait_ok_relink w wqh h wq e LSelf); try done; try congruence.
    + apply NoDup_filter, (wo_nodup _ Hw _ _ Hh).
    + intros x Hx. rewrite list_elem_of_filter. tauto.
    + rewrite list_elem_of_filter. split; [by intros []|done].
  - simpl. by destruct (w_sched w).
  - done.
  - simpl. by rewrite (alter_lookup_insert _ _ _ _ He).
Qed.

(** *** The waiting thread *)
Lemma signal_wait state mode tid w f :
  wait_ok w -> flags_of (w_sched w) tid = Some f ->
  exists s', thread_state_signal state mode tid (w_sched w) = Ok s' /\ wait_ok (with_sched s' w) /\
    flags_of s' tid = Some (if mode then Z.lor f (bitmask state) else Z.ldiff f (bitmask state)) /\ s_work s' = s_work (w_sched w).
Proof.
  intros Hw Hf. unfold flags_of in Hf. apply fmap_Some in Hf as (t & Ht & ->). destruct (ok_cnt _ (wo_sched _ Hw)).
  assert (signal_ok (w_sched w)) as Hs.
  { rewrite <- (sched_eta (w_sched w)). apply wait_signal_ok; [done|unfold W32 in *; lia]. }
  destruct (signal_step (fun f => if mode then Z.lor f (bitmask state) else Z.ldiff f (bitmask state)) tid _ t Hs Ht)
    as (s' & E & H1 & H2 & _ & H3).
  exists s'. split_and!; [exact E| |by rewrite H3, decide_True|by apply H2].
  pose proof (wait_ok_signalled w (s_cpu (w_sched w)) s' Hw) as HW. rewrite sched_eta in HW. specialize (HW H2 H1).
  by rewrite <- (sf_cpu _ _ H2), sched_eta in HW.
Qed.

Section waiting_thread.
Context (condition : wsys -> bool) (func : wsys -> res wsys) (wqh wq tid : Z).

(** What holds whenever the waiting thread runs inside its loop: its entry is
    queued and it is marked as waiting, not interruptibly. *)
Definition waiting (w : wsys) : Prop :=
  wait_ok w /\ is_Some (w_heads w !! wqh) /\ w_entries w !! wq = Some (Wq (Some tid) (LOn wqh)) /\
  exists f, flags_of (w_sched w) tid = Some f /\ atomic_is_bitset NR_THREAD_SIG_INTR f = false.

Fixpoint yields (n : nat) (w : wsys) : res wsys :=
  match n with O => Ok w | S n => w ← func w; yields n w end.

Lemma not_interruptible w : waiting w -> __wait_is_interruptible tid w = Ok false.
Proof.
  intros (Hw & _ & _ & f & Hf & Hb). apply fmap_Some in Hf as (t & Ht & ->). unfold __wait_is_interruptible.
  rewrite (thread_deref_known [] _ _ _ (ok_inv _ (wo_sched _ Hw)) Ht). cbn [mbind res_bind]. unfold mrt_thread_is_flags. by rewrite Hb.
Qed.

(** The environment keeps the entry in place and returns. *)
Hypothesis others : forall w, waiting w -> exists w', func w = Ok w' /\ waiting w'.

Lemma wait_loop_returns n : forall fuel w w1,
  waiting w -> (n <= fuel)%nat -> yields n w = Ok w1 -> condition w1 = true ->
  exists w2, wait_loop condition func fuel tid w = Ok w2 /\ waiting w2 /\ condition w2 = true.
Proof using others.
  induction n as [|n IH]; intros fuel w w1 Hw Hf Hy Hc.
  { simpl in Hy. injection Hy as ->. exists w1. destruct fuel; simpl; by rewrite Hc. }
  destruct fuel as [|fuel]; [lia|]. simpl. destruct (condition w) eqn:E; [by exists w|].
  rewrite not_interruptible by done. cbn [mbind res_bind]. destruct (others w Hw) as (w' & Hfw & Hw'). simpl in Hy.
  rewrite Hfw in Hy |- *. cbn [mbind res_bind] in Hy |- *. apply (IH fuel w' w1); [done|lia|done|done].
Qed.
End waiting_thread.

Lemma bit_off state f : 0 <= state < 32 -> atomic_is_bitset state (Z.ldiff f (bitmask state)) = false.
Proof.
  intros Hs. rewrite is_bitset_testbit, Z.ldiff_spec, bitmask_pow, Z.pow2_bits_true by lia. apply andb_false_r.
Qed.
Lemma bit_or_ne s1 s2 f : 0 <= s1 < 32 -> 0 <= s2 < 32 -> s1 <> s2 ->
  atomic_is_bitset s1 (Z.lor f (bitmask s2)) = atomic_is_bitset s1 f.
Proof.
  intros H1 H2 Hne. rewrite !is_bitset_testbit, Z.lor_spec, bitmask_pow, Z.pow2_bits_false by lia. apply orb_false_r.
Qed.

(** C7: [wait_event] of a running thread returns once the condition holds, if
    the other threads bring that about within [fuel] yields and leave the
    waiter's own entry alone.  On return the condition held, the entry is off
    the queue, all other entries are where the others left them, and the thread
    is no longer marked as waiting. *)
Theorem wait_event_returns condition func fuel wqh wq tid h f w :
  wait_ok w -> s_work (w_sched w) = Some tid -> w_heads w !! wqh = Some h -> w_entries w !! wq = None ->
  flags_of (w_sched w) tid = Some f -> atomic_is_bitset NR_THREAD_SIG_INTR f = false -> condition w = false ->
  (forall w, waiting wqh wq tid w -> exists w', func w = Ok w' /\ waiting wqh wq tid w') ->
  (forall w, waiting wqh wq tid w -> exists n w', (n <= fuel)%nat /\ yields func n w = Ok w' /\ condition w' = true) ->
  exists w1 h1 w', waiting wqh wq tid w1 /\ condition w1 = true /\ w_heads w1 !! wqh = Some h1 /\
    wait_event condition func fuel wqh wq false w = Ok w' /\ wait_ok w' /\
    w_heads w' = <[wqh := WqHead (Lock 0 0) (filter (fun x => x <> wq) (wqh_task h1))]> (w_heads w1) /\
    w_entries w' = <[wq := Wq (Some tid) LSelf]> (w_entries w1) /\
    mrt_thread_is_flags NR_THREAD_SIG_NORMAL <$> s_tids (w_sched w') !! tid = Some false.
Proof.
  intros Hw Hrun Hh Hfresh Hf Hb Hcond Hothers Hprog. unfold wait_event. rewrite Hcond. unfold __wait_event, get_current_thread. rewrite Hrun.
  set (w0 := put_link wq LSelf _).
  assert (w_entries w0 = <[wq := Wq (Some tid) LSelf]> (w_entries w)) as He0.
  { simpl. rewrite (alter_lookup_insert _ _ _ _ (lookup_insert_eq _ _ _)). apply insert_insert_eq. }
  assert (is_Some (s_tids (w_sched w) !! tid)) as Hknown by (apply (fmap_is_Some t_flags); by exists f).
  assert (wait_ok w0) as Hw0.
  { split; try apply Hw.
    - intros a h' x Ha. rewrite He0, (wo_queue _ Hw a h' x Ha). destruct (decide (x = wq)) as [->|]; simplify_map_eq; naive_solver.
    - intros x e tid'. rewrite He0, lookup_insert_Some. intros [[<- <-]|[_ Hx]]; [by intros [= <-]|exact (wo_task _ Hw _ _ _ Hx)]. }
  destruct (add_wait_queue_spec wqh wq h w0 (Wq (Some tid) LSelf) Hw0 Hh) as (w1 & -> & Hw1 & Es1 & Eh1 & Ee1);
    [by rewrite He0, lookup_insert_eq|done|]. cbn [mbind res_bind].
  destruct (signal_wait NR_THREAD_SIG_NORMAL true tid w1 f Hw1) as (s2 & -> & Hw2 & Hf2 & _); [by rewrite Es1|]. cbn [mbind res_bind].
  assert (waiting wqh wq tid (with_sched s2 w1)) as Hwait.
  { split_and!; [done|simpl; rewrite Eh1, lookup_insert_eq; eauto|simpl; by rewrite Ee1, lookup_insert_eq|].
    eexists. split; [exact Hf2|]. simpl. by rewrite bit_or_ne. }
  destruct (Hprog _ Hwait) as (n & w3 & Hn & Hy & Hc3).
  destruct (wait_loop_returns condition func wqh wq tid Hothers n fuel _ w3 Hwait Hn Hy Hc3) as (w4 & -> & Hw4 & Hc4). cbn [mbind res_bind].
  destruct Hw4 as (Hok4 & [h4 Hh4] & He4 & f4 & Hf4 & Hb4).
  destruct (signal_wait NR_THREAD_SIG_NORMAL false tid w4 f4 Hok4 Hf4) as (s5 & -> & Hok5 & Hf5 & _). cbn [mbind res_bind].
  destruct (remove_wait_queue_spec wqh wq h4 (with_sched s5 w4) _ Hok5 Hh4 He4) as (w' & E & Hok' & Es' & Eh' & Ee'); [done|].
  exists w4, h4, w'. split_and!; try done.
  - split_and!; try done. eauto.
  - rewrite Es'. unfold flags_of in Hf5. apply fmap_Some in Hf5 as (t & Ht & Et). simpl. rewrite Ht. simpl. f_equal.
    unfold mrt_thread_is_flags. rewrite <- Et. by apply bit_off.
Qed.

(** ** Concrete systems *)
Definition flagged (s : sched) : sched := upd_thread (with_flags 32 (Lock 0 0)) 34 s.
Definition demo_wait : wsys :=
  WSys (flagged demo_sched) {[ 1000 := WqHead (Lock 0 0) [2000] ]} {[ 2000 := Wq (Some 34) (LOn 1000) ]}.

Lemma with_flags_ok f l tid s : sched_ok s -> sched_ok (upd_thread (with_flags f l) tid s).
Proof. intros []. split; try done. by apply with_flags_inv. Qed.
Lemma demo_locks_free : map_Forall (fun _ t => lock_free (t_lock t)) (s_tids (flagged demo_sched)).
Proof. apply map_Forall_to_list. unfold lock_free. vm_compute. repeat constructor. Qed.

Lemma demo_wait_ok : wait_ok demo_wait.
Proof.
  split; cbn [w_sched w_heads w_entries demo_wait].
  - exact (with_flags_ok _ _ _ _ demo_ok).
  - exact demo_locks_free.
  - by intros a h [_ <-]%lookup_singleton_Some.
  - intros a h [_ <-]%lookup_singleton_Some. apply NoDup_singleton.
  - intros a h x [<- <-]%lookup_singleton_Some. simpl. rewrite list_elem_of_singleton. split.
    + intros ->. eexists. by rewrite lookup_singleton_eq.
    + by intros (e & [<- _]%lookup_singleton_Some & _).
  - intros x e tid [_ <-]%lookup_singleton_Some [= <-]. vm_compute. eauto.
Qed.

Lemma wake_up_signals_waiters_witness : exists w', wake_up 1000 demo_wait = Ok w' /\ flags_of (w_sched w') 34 = Some 96.
Proof.
  destruct (wake_up_signals_waiters 1000 NR_THREAD_SIG_NORMAL (WqHead (Lock 0 0) [2000]) demo_wait) as (w' & E & _ & _ & H);
    [exact demo_wait_ok|reflexivity|unfold NR_THREAD_SIG_NORMAL; lia|discriminate|].
  exists w'. split; [exact E|]. rewrite H. vm_compute. reflexivity.
Defined.

(** A yield that counts. *)
Definition set_count (n : Z) (s : sched) : sched :=
  Sched (s_tids s) (s_work s) (s_ready s) (s_suspend s) (s_sleep s) (s_ref s) (s_cnt_out s) n (s_lock s) (s_cpu s) (s_spsr s).
Definition demo_yield (w : wsys) : res wsys := Ok (with_sched (set_count 1 (w_sched w)) w).
Definition demo_cond (w : wsys) : bool := s_sched_cnt (w_sched w) =? 1.
Definition demo_waiter : wsys := with_sched (set_count 0 (w_sched demo_wait)) demo_wait.

Lemma count_wait_ok n w : wait_ok w -> wait_ok (with_sched (set_count n (w_sched w)) w).
Proof.
  intros [[HI ? ? ?] ? ? ? ? ?]. split; try done. split; try done. revert HI. apply sched_inv_core; try done.
Qed.

Lemma wait_event_returns_witness : exists w', wait_event demo_cond demo_yield 1 1000 3000 false demo_waiter = Ok w' /\ wait_ok w'.
Proof.
  destruct (wait_event_returns demo_cond demo_yield 1 1000 3000 33 (WqHead (Lock 0 0) [2000])
    (default 0 (flags_of (w_sched demo_waiter) 33)) demo_waiter) as (w1 & h1 & w' & _ & _ & _ & E & Hok & _);
    [exact (count_wait_ok 0 _ demo_wait_ok)|vm_compute; reflexivity..| | |].
  - intros w (Hw & Hh & He & Hf). eexists. split; [reflexivity|]. split; [by apply count_wait_ok|]. split; [done|]. split; [done|exact Hf].
  - intros w _. eexists 1%nat, _. split; [lia|]. split; reflexivity.
  - exists w'. split; [exact E|exact Hok].
Defined.
