(* ===== verification/WorkQueue.v ===== *)
(** * Deferred work (include/kernel/workqueue.h, kernel/kthread/kworker.c)

    A queue is the sequence of its entries, as list_types.h represents it
    (ListHead.v).  What the functions of the entries do is a parameter: they run
    on the queue and on a state of their own. *)

From stdpp Require Import prelude gmap fin_maps sorting.
From S2P Require Import Prelude.

Section works.
(** [func x] is the function of entry [x], [None] a null pointer. *)
Context {S : Type} (func : Z -> option (list Z * S -> res (list Z * S))).

(** A null queue is ruled out by the callers; [0] is a null entry. *)
Definition queue_work (wqh : list Z) (wq : Z) : list Z :=
  if wq =? 0 then wqh
  else if decide (wq ∈ wqh) then wqh
  else wqh ++ [wq].
Definition detach_work (wqh : list Z) (wq : Z) : list Z :=
  if wq =? 0 then wqh else filter (fun x => x <> wq) wqh.
Definition detach_work_safe (wqh : list Z) (wq : Z) : list Z :=
  if wq =? 0 then wqh else filter (fun x => x <> wq) wqh.
Definition is_workqueue_empty (wqh : list Z) : bool := bool_decide (wqh = []).
Definition schedule_work (sgrt_kworker_wqh : list Z) (wq : Z) : list Z := queue_work sgrt_kworker_wqh wq.

(** The entry after [x]; [None] is the head. *)
Fixpoint next_work (x : Z) (wqh : list Z) : option Z :=
  match wqh with
  | [] => None
  | y :: wqh => if y =? x then head wqh else next_work x wqh
  end.

(** [foreach_workqueue_safe]: the next entry is read before the function runs;
    an entry that left the queue meanwhile has no way on. *)
Fixpoint worker_round (fuel : nat) (cur : option Z) (q : list Z * S) : res (list Z * S) :=
  match cur with
  | None => Ok q
  | Some x =>
      match fuel with
      | O => Spin
      | Datatypes.S fuel =>
          if decide (x ∈ q.1) then
            let temp := next_work x q.1 in
            q ← (match func x with Some f => f q | None => Ok q end);
            worker_round fuel temp (detach_work q.1 x, q.2)
          else Fault
      end
  end.
(** One turn of the endless loop of [kworker_entry]; [None]: nothing to do, the
    thread sleeps. *)
Definition kworker_entry (fuel : nat) (q : list Z * S) : res (option (list Z * S)) :=
  if is_workqueue_empty q.1 then Ok None
  else q ← worker_round fuel (head q.1) q; Ok (Some q).

(** ** Every entry runs once *)

(** A well-behaved function: it returns, takes nothing off the queue and only
    adds entries, through [queue_work]. *)
Definition adds (f : list Z * S -> res (list Z * S)) (step : S -> S) (new : list Z) : Prop :=
  forall q s, f (q, s) = Ok (foldl queue_work q new, step s).

Lemma queue_work_spec q x : NoDup q -> 0 ∉ q -> exists l, queue_work q x = q ++ l /\ NoDup (q ++ l) /\ 0 ∉ q ++ l /\
  forall y, y ∈ l <-> (y = x /\ x <> 0 /\ x ∉ q).
Proof.
  intros Hnd H0. unfold queue_work. destruct (Z.eqb_spec x 0) as [->|Hx]; [exists []|case_decide as Hin; [exists []|exists [x]]]; rewrite ?app_nil_r;
    split_and!; try done; try (intros y; split; [by intros ?%not_elem_of_nil|naive_solver]).
  - apply NoDup_app. split_and!; [done| |apply NoDup_singleton]. intros y Hy ->%list_elem_of_singleton. done.
  - rewrite elem_of_app, list_elem_of_singleton. naive_solver.
  - intros y. rewrite list_elem_of_singleton. naive_solver.
Qed.
Lemma queue_works_spec new q : NoDup q -> 0 ∉ q -> exists l, foldl queue_work q new = q ++ l /\ NoDup (q ++ l) /\ 0 ∉ q ++ l /\
  forall y, y ∈ l <-> (y ∈ new /\ y <> 0 /\ y ∉ q).
Proof.
  revert q. induction new as [|x new IH]; intros q Hnd H0; simpl.
  - exists []. rewrite app_nil_r. split_and!; try done. intros y. split; [by intros ?%not_elem_of_nil|]. by intros [?%not_elem_of_nil _].
  - destruct (queue_work_spec q x Hnd H0) as (l & -> & Hnd1 & H01 & Hl). destruct (IH (q ++ l) Hnd1 H01) as (k & -> & Hnd2 & H02 & Hk).
    exists (l ++ k). rewrite app_assoc. split_and!; try done. intros y. rewrite elem_of_app, Hl, Hk, !elem_of_cons, elem_of_app, Hl.
    destruct (decide (y = x)) as [->|]; [|naive_solver]. destruct (decide (x ∈ new)); naive_solver.
Qed.
Lemma detach_head x l : x <> 0 -> x ∉ l -> detach_work (x :: l) x = l.
Proof.
  intros H0 Hx. unfold detach_work. rewrite (proj2 (Z.eqb_neq x 0) H0), filter_cons_False by (by intros []).
  induction l as [|y l IH]; [done|]. rewrite filter_cons_True, IH; [done|set_solver|set_solver].
Qed.

(** The abstract worker: take the first entry, run it, put what it queued behind
    the others; done when the entry taken was the only one. *)
Context (step : Z -> S -> S) (new : Z -> list Z).
Definition added (q : list Z) (l : list Z) : list Z := drop (length q) (foldl queue_work q l).
Fixpoint fifo (fuel : nat) (q : list Z) (s : S) : res (list Z * S) :=
  match q with
  | [] => Ok ([], s)
  | x :: rest =>
      match fuel with
      | O => Spin
      | Datatypes.S fuel =>
          let q' := rest ++ added (x :: rest) (new x) in
          match rest with [] => Ok (q', step x s) | _ => fifo fuel q' (step x s) end
      end
  end.

(** What the entry queued goes behind the rest; its own entry is detached. *)
Lemma run_entry x rest : NoDup (x :: rest) -> 0 ∉ x :: rest ->
  detach_work (foldl queue_work (x :: rest) (new x)) x = rest ++ added (x :: rest) (new x) /\
  NoDup (rest ++ added (x :: rest) (new x)) /\ 0 ∉ rest ++ added (x :: rest) (new x).
Proof.
  intros Hnd H0. destruct (queue_works_spec (new x) (x :: rest) Hnd H0) as (l & E & Hnd2 & H02 & _).
  unfold added. rewrite E, drop_app_length. simpl in Hnd2, H02. apply NoDup_cons in Hnd2 as [Hx Hnd2]. split_and!; [|done|set_solver].
  simpl. apply detach_head; [set_solver|done].
Qed.
Lemma round_fifo fuel q s : (forall x, func x = None /\ new x = [] /\ step x = id \/ exists f, func x = Some f /\ adds f (step x) (new x)) ->
  NoDup q -> 0 ∉ q -> worker_round fuel (head q) (q, s) = fifo fuel q s.
Proof.
  intros Hf. revert q s. induction fuel as [|fuel IH]; intros [|x rest] s Hnd H0; try done. cbn [worker_round fifo head].
  rewrite decide_True by (by left). cbn [fst]. destruct (run_entry x rest Hnd H0) as (E & Hnd2 & H02).
  assert ((match func x with Some f => f (x :: rest, s) | None => Ok (x :: rest, s) end) = Ok (foldl queue_work (x :: rest) (new x), step x s)) as ->.
  { destruct (Hf x) as [(-> & -> & Es)|(f & -> & Ha)]; [by rewrite Es|apply Ha]. }
  cbn [mbind res_bind fst snd]. rewrite E. simpl next_work. rewrite Z.eqb_refl. destruct rest as [|y rest]; [by destruct fuel|].
  exact (IH _ (step x s) Hnd2 H02).
Qed.

(** C40: a round of the worker is a first-in first-out queue: the entries run in
    the order they were queued, each one is taken off once it has run, and what
    the functions queue goes behind the others.  When no function queues another
    entry, a round runs every entry exactly once and leaves nothing; an entry
    that queues itself is not run again. *)
Theorem kworker_round_fifo fuel q s :
  (forall x, func x = None /\ new x = [] /\ step x = id \/ exists f, func x = Some f /\ adds f (step x) (new x)) -> NoDup q -> 0 ∉ q -> q <> [] ->
  kworker_entry fuel (q, s) = (q ← fifo fuel q s; Ok (Some q)) /\
  ((forall x y, x ∈ q -> y ∈ new x -> y = x) -> (length q <= fuel)%nat ->
   kworker_entry fuel (q, s) = Ok (Some ([], foldl (fun s x => step x s) s q))).
Proof.
  intros Hf Hnd H0 Hne.
  assert (kworker_entry fuel (q, s) = (q ← fifo fuel q s; Ok (Some q))) as E.
  { unfold kworker_entry, is_workqueue_empty. cbn [fst]. rewrite bool_decide_eq_false_2 by done. by rewrite round_fifo. }
  split; [done|]. intros Hq Hfu. rewrite E. assert (fifo fuel q s = Ok ([], foldl (fun s x => step x s) s q)) as ->; [|done]. clear E Hne Hf.
  revert q s Hnd H0 Hq Hfu. induction fuel as [|fuel IH]; intros [|x rest] s Hnd H0 Hq Hfu; try done; [simpl in *; lia|].
  cbn [fifo]. assert (added (x :: rest) (new x) = []) as ->.
  { destruct (queue_works_spec (new x) (x :: rest) Hnd H0) as (l & E & _ & _ & Hl). unfold added. rewrite E, drop_app_length.
    destruct l as [|y l]; [done|]. destruct (proj1 (Hl y) ltac:(left)) as (Hy & _ & Hy'). rewrite (Hq x y) in Hy' by (by left || done). by destruct Hy'; left. }
  rewrite app_nil_r. destruct rest as [|y rest]; [done|]. cbn [foldl]. apply (IH (y :: rest) (step x s)); [by apply NoDup_cons in Hnd as [_ ?]|set_solver|intros; apply Hq; [by right|done]|simpl in *; lia].
Qed.
End works.

(** Two entries that count; the second queues itself. *)
Definition demo_work (x : Z) (q : list Z * Z) : res (list Z * Z) := Ok (queue_work q.1 6, q.2 * 10 + x).
Definition demo_func (x : Z) : option (list Z * Z -> res (list Z * Z)) :=
  if x =? 5 then Some (fun q => Ok (q.1, q.2 * 10 + 5)) else if x =? 6 then Some (demo_work 6) else None.
Lemma kworker_round_fifo_witness : kworker_entry demo_func 5 ([5; 6], 0) = Ok (Some ([], 56)).
Proof.
  apply (kworker_round_fifo demo_func (fun x s => if (x =? 5) || (x =? 6) then s * 10 + x else s) (fun x => if x =? 6 then [6] else []) 5 [5; 6] 0).
  - intros x. unfold demo_func. destruct (Z.eqb_spec x 5) as [->|H5]; [right; eexists; split; [reflexivity|]; intros q s; reflexivity|].
    destruct (Z.eqb_spec x 6) as [->|H6]; [right; eexists; split; [reflexivity|]; intros q s; reflexivity|left; split_and!; reflexivity].
  - apply NoDup_cons. split; [set_solver|apply NoDup_singleton].
  - set_solver.
  - discriminate.
  - intros x y _ Hy. destruct (Z.eqb_spec x 6) as [->|]; [by apply list_elem_of_singleton in Hy|by apply not_elem_of_nil in Hy].
  - simpl. lia.
Defined.
