(* ===== verification/KMalloc.v ===== *)
(** * The kernel heap (platform/mem/fwk_mempool.c, common/mempool/mem_malloc.c)

    Four pools, each a [struct mem_info] of one array, serve [kmalloc]; the
    flags of a request name the pool, the address of a block names it again on
    release.  Pools reach their allocator through the function pointers of the
    descriptor, which are words of memory here; a pointer to anything else is a
    wild call.  The linker's region symbols are parameters. *)

From stdpp Require Import prelude gmap fin_maps sorting.
From S2P Require Import Prelude Mem ListHead MemPool MemBlock MemBlockSpec MemSimple PoolClient Sync Wait.

(** ** Flags and pools *)
Definition NR_KMEM_ZERO : Z := 1.
Definition NR_KMEM_WAIT : Z := 2.
Definition NR_KMEM_NORMAL : Z := 2 ^ 25.
Definition NR_KMEM_FBUFFER : Z := 2 ^ 26.
Definition NR_KMEM_FIXDATA : Z := 2 ^ 27.
Definition NR_KMEM_SK_BUFF : Z := 2 ^ 28.
Definition GFP_KERNEL : Z := Z.lor NR_KMEM_WAIT NR_KMEM_NORMAL.
Definition GFP_ZERO : Z := NR_KMEM_ZERO.

Definition FWK_MEMPOOL_KERNEL : nat := 1.
Definition FWK_MEMPOOL_FB_DRAM : nat := 2.
Definition FWK_MEMPOOL_SK_BUFF : nat := 3.
Definition FWK_MEMPOOL_TYPE_MAX : nat := 4.

(** [sgrt_kernel_mempool[index].mask] *)
Definition pool_mask (index : nat) : Z :=
  match index with 0%nat => NR_KMEM_FIXDATA | 1%nat => NR_KMEM_NORMAL | 2%nat => NR_KMEM_FBUFFER | _ => NR_KMEM_SK_BUFF end.

Definition has_flag (flags mask : Z) : bool := negb (Z.land flags mask =? 0).

(** The loop every function opens with: the only pool named by the flags;
    [None] when two are. *)
Fixpoint select_pool (flags : Z) (indices : list nat) (found : option nat) : option (option nat) :=
  match indices with
  | [] => Some found
  | index :: rest =>
      if has_flag flags (pool_mask index) then
        match found with None => select_pool flags rest (Some index) | Some _ => None end
      else select_pool flags rest found
  end.
Definition pool_of_flags (flags : Z) : option (option nat) := select_pool flags (seq 0 FWK_MEMPOOL_TYPE_MAX) None.

Record kheap := KHeap {
  kh_mem : mem;
  kh_locks : list spin_lock_t;             (* sgrt_kernel_mempool[].sgrt_lock *)
  kh_wqh : list wait_queue_head;           (* sgrt_kernel_mempool[].sgrt_wqh *)
  kh_cpu : cpu;
}.
Definition with_mem (m : mem) (k : kheap) : kheap := KHeap m (kh_locks k) (kh_wqh k) (kh_cpu k).

Section pools.
(** Addresses of the four allocator functions, of the descriptor array, and
    the regions. *)
Context (block_alloc block_free simple_alloc simple_free : Z) (sgrt_kernel_mem_info : Z).

Definition mem_info (index : nat) : Z := sgrt_kernel_mem_info + info_size * Z.of_nat index.

(** [sprt_info->alloc(sprt_info, size)] and [sprt_info->free(sprt_info, ptr)]. *)
Definition call_alloc (fuel : nat) (m : mem) (sprt_info size : Z) : res (mem * Z) :=
  let f := m (sprt_info + info_alloc) in
  if f =? block_alloc then alloc_spare_memory fuel m sprt_info size
  else if f =? simple_alloc then alloc_spare_simple_memory fuel m sprt_info size
  else Fault.
Definition call_free (fuel : nat) (m : mem) (sprt_info ptr : Z) : res mem :=
  let f := m (sprt_info + info_free) in
  if f =? block_free then free_employ_memory fuel m sprt_info ptr
  else if f =? simple_free then free_employ_simple_memory fuel m sprt_info ptr
  else Fault.

(** Run [f] on memory inside the lock of a pool. *)
Definition pool_critical {A} (index : nat) (f : mem -> res (mem * A)) (k : kheap) : res (A * kheap) :=
  l ← deref (kh_locks k !! index);
  '(c, l) ← spin_lock_irqsave (kh_cpu k) l;
  '(m, a) ← f (kh_mem k);
  let '(c, l) := spin_unlock_irqrestore c l in
  Ok (a, KHeap m (<[index := l]> (kh_locks k)) (kh_wqh k) c).

(** With [NR_KMEM_WAIT] the caller yields while the pool's lock is held; on one
    processor nobody holds it across a yield, and a call that finds it held does
    not return. *)
Definition kmalloc (fuel : nat) (k : kheap) (__size flags : Z) : res (Z * kheap) :=
  match pool_of_flags flags with
  | None | Some None => Ok (nullptr, k)
  | Some (Some index) =>
      l ← deref (kh_locks k !! index);
      if has_flag flags NR_KMEM_WAIT && spin_is_locked l then Spin
      else
        pool_critical index (fun m =>
          let sprt_info := mem_info index in
          if negb (m (sprt_info + info_alloc) =? 0) then
            '(m, p) ← call_alloc fuel m sprt_info __size;
            if negb (isValid p) then Ok (m, nullptr)
            else Ok (if has_flag flags NR_KMEM_ZERO then kmemzero m p __size else m, p)
          else Ok (m, nullptr)) k
  end.
Definition kcalloc (fuel : nat) (k : kheap) (__size __n flags : Z) := kmalloc fuel k (u32 (__size * __n)) flags.
Definition kzalloc (fuel : nat) (k : kheap) (__size flags : Z) := kmalloc fuel k __size (Z.lor flags GFP_ZERO).
Definition default_malloc (fuel : nat) (k : kheap) (size : Z) := kmalloc fuel k size GFP_KERNEL.

(** The first pool whose range holds the pointer. *)
Fixpoint owner (m : mem) (__ptr : Z) (indices : list nat) : option nat :=
  match indices with
  | [] => None
  | index :: rest =>
      let base := m (mem_info index + info_base) in
      let lenth := m (mem_info index + info_lenth) in
      if (base <=? __ptr) && (__ptr <? u32 (base + lenth)) then Some index else owner m __ptr rest
  end.
Definition kfree (fuel : nat) (k : kheap) (__ptr : Z) : res kheap :=
  match owner (kh_mem k) __ptr (seq 0 FWK_MEMPOOL_TYPE_MAX) with
  | None => Ok k
  | Some index =>
      '(_, k) ← pool_critical index (fun m =>
        let sprt_info := mem_info index in
        if negb (m (sprt_info + info_free) =? 0) then m ← call_free fuel m sprt_info __ptr; Ok (m, tt)
        else Ok (m, tt)) k;
      Ok k
  end.

Definition kmget_size (k : kheap) (flags : Z) : Z :=
  match pool_of_flags flags with
  | None => - ER_UNVALID
  | Some None => - ER_NOTFOUND
  | Some (Some index) => kh_mem k (mem_info index + info_lenth)
  end.

(** [init_waitqueue_head] and [spin_lock_init] of a pool. *)
Definition reset_pool (index : nat) (k : kheap) : kheap :=
  KHeap (kh_mem k) (alter spin_lock_init index (kh_locks k)) (alter init_waitqueue_head index (kh_wqh k)) (kh_cpu k).

Definition fwk_mempool_initial (fuel : nat) (MEMORY_POOL_BASE MEMORY_POOL_SIZE FBUFFER_DRAM_BASE FBUFFER_DRAM_SIZE
    SK_BUFFER_BASE SK_BUFFER_SIZE : Z) (k : kheap) : res (bool * kheap) :=
  '(m, retval) ← memory_block_create block_alloc block_free fuel (kh_mem k) (mem_info FWK_MEMPOOL_KERNEL) MEMORY_POOL_BASE MEMORY_POOL_SIZE;
  let k := with_mem m k in
  if negb (retval =? 0) then Ok (false, k)
  else
    let k := reset_pool FWK_MEMPOOL_KERNEL k in
    let '(m, _) := memory_simple_block_create simple_alloc simple_free (kh_mem k) (mem_info FWK_MEMPOOL_FB_DRAM) FBUFFER_DRAM_BASE FBUFFER_DRAM_SIZE in
    let k := reset_pool FWK_MEMPOOL_FB_DRAM (with_mem m k) in
    '(m, _) ← memory_block_create block_alloc block_free fuel (kh_mem k) (mem_info FWK_MEMPOOL_SK_BUFF) SK_BUFFER_BASE SK_BUFFER_SIZE;
    Ok (true, reset_pool FWK_MEMPOOL_SK_BUFF (with_mem m k)).

(** The pool of [memory_block_self_defines]; [flags] is signed there. *)
Definition self_pool (flags : Z) : option nat :=
  if flags <? 0 then Some FWK_MEMPOOL_KERNEL
  else match pool_of_flags flags with None => None | Some found => found end.
Definition memory_block_self_defines (flags base size : Z) (k : kheap) : bool * kheap :=
  match self_pool flags with
  | None => (false, k)
  | Some index =>
      if isValid (kh_mem k (mem_info index + info_mem)) then (false, k)
      else
        let '(m, _) := memory_simple_block_create simple_alloc simple_free (kh_mem k) (mem_info index) base size in
        (true, reset_pool index (with_mem m k))
  end.
Definition memory_block_self_destroy (flags : Z) (k : kheap) : kheap :=
  match self_pool flags with
  | None => k
  | Some index =>
      if negb (isValid (kh_mem k (mem_info index + info_mem))) then k
      else reset_pool index (with_mem (memory_simple_block_destroy (kh_mem k) (mem_info index)) k)
  end.

(** ** The application heap (mem_malloc.c); [info] is [&sgrt_infoMalloc]. *)
Section malloc.
Context (info MEMORY_HEAP_START MEMORY_HEAP_END : Z).

Definition malloc_block_self_defines (fuel : nat) (base size : Z) (m : mem) : res (bool * mem) :=
  if isValid (m (info + info_mem)) then Ok (false, m)
  else '(m, _) ← memory_block_create block_alloc block_free fuel m info base size; Ok (true, m).
Definition malloc_block_initial (fuel : nat) (m : mem) : res (bool * mem) :=
  if isValid (m (info + info_mem)) then Ok (false, m)
  else
    '(m, _) ← memory_block_create block_alloc block_free fuel m info MEMORY_HEAP_START (u32 (MEMORY_HEAP_END - MEMORY_HEAP_START));
    Ok (true, m).
Definition malloc_block_destroy (m : mem) : mem := memory_block_destroy m info.
Definition malloc (fuel : nat) (m : mem) (__size : Z) : res (mem * Z) :=
  if negb (m (info + info_alloc) =? 0) then call_alloc fuel m info __size else Ok (m, nullptr).
Definition free (fuel : nat) (m : mem) (__ptr : Z) : res mem :=
  if negb (m (info + info_free) =? 0) then call_free fuel m info __ptr else Ok m.

(** The static [ptr_heapHead] is the state; the result is -1 when the heap is
    exhausted. *)
Definition _sbrk (ptr_heapHead incr : Z) : Z * Z :=
  let ptr_heapHead := if ptr_heapHead =? 0 then MEMORY_HEAP_START else ptr_heapHead in
  let prev_heap := ptr_heapHead in
  if (u32 (ptr_heapHead + incr) <=? MEMORY_HEAP_END) && negb (prev_heap =? 0)
  then (prev_heap, u32 (ptr_heapHead + incr))
  else (W32 - 1, ptr_heapHead).
End malloc.
End pools.
