(* ===== verification/KMallocSpec.v ===== *)
(** * The kernel heap serves its clients

    [heap_ok] says that each pool that exists satisfies the contract of its
    allocator and that pools do not overlap.  For a segregated pool the contract
    includes that it has served no exact fit ([pools_clean]).  Requests and releases keep it, act
    on the pool they belong to only, and leave all other blocks' contents
    alone. *)

From stdpp Require Import prelude gmap fin_maps sorting.
From S2P Require Import Prelude Mem ListHead MemPool MemBlock MemBlockSpec MemSimple PoolClient Sync Wait KMalloc.

Inductive pool_kind := KBlock | KSimple.
Definition kind_alloc (k : pool_kind) := match k with KBlock => alloc_spare_memory | KSimple => alloc_spare_simple_memory end.
Definition kind_free (k : pool_kind) := match k with KBlock => free_employ_memory | KSimple => free_employ_simple_memory end.
#[export] Instance kind_allocator k : PoolAllocator (kind_alloc k) (kind_free k).
Proof. destruct k; [exact mem_block_allocator|exact mem_simple_allocator]. Defined.
Definition kind_ok (k : pool_kind) := pool_ok (alloc := kind_alloc k) (free := kind_free k).
Definition kind_permits (k : pool_kind) := pool_permits (alloc := kind_alloc k) (free := kind_free k).

(** A pool: its allocator and its arena. *)
Record pool := Pool { p_kind : pool_kind; p_start : Z; p_end : Z }.

Lemma owned_inside m k info a e bs x : kind_ok k m info a e bs -> owned info bs x ->
  info <= x < info + info_alloc \/ a <= x < e.
Proof.
  intros [_ Ht]%pool_ok_frame [H|(b & Hb & Hx)]; [by left|right].
  pose proof (arena_bounds _ _ _ _ Ht b Hb). unfold MEM_BLOCK_HEADER_SIZE in *. lia.
Qed.

Section heap.
Context (block_alloc block_free simple_alloc simple_free infos : Z) (fuel : nat).
Local Notation mem_info := (mem_info infos).
Local Notation call_alloc := (call_alloc block_alloc simple_alloc).
Local Notation call_free := (call_free block_free simple_free).
Definition fn_alloc (k : pool_kind) : Z := match k with KBlock => block_alloc | KSimple => simple_alloc end.
Definition fn_free (k : pool_kind) : Z := match k with KBlock => block_free | KSimple => simple_free end.

(** The functions have addresses of their own. *)
Definition functions_ok : Prop :=
  block_alloc <> 0 /\ simple_alloc <> 0 /\ block_free <> 0 /\ simple_free <> 0 /\ block_alloc <> simple_alloc /\ block_free <> simple_free.

Definition apart_ranges (a e b f : Z) : Prop := e <= b \/ f <= a.

(** The regions of the pools: apart from each other and from the descriptors. *)
Record layout_ok (C : list (option pool)) : Prop := {
  ly_len : length C = FWK_MEMPOOL_TYPE_MAX;
  ly_infos : forall i p, C !! i = Some (Some p) -> apart_ranges infos (infos + 4 * info_size) (p_start p) (p_end p);
  ly_apart : forall i j p q, C !! i = Some (Some p) -> C !! j = Some (Some q) -> i <> j ->
    apart_ranges (p_start p) (p_end p) (p_start q) (p_end q);
  ly_fuel : forall i p, C !! i = Some (Some p) -> p_end p - p_start p <= 32 * Z.of_nat fuel;
}.

(** Pool [i] in memory, with the blocks [L] handed out; a missing pool has an
    empty range and no functions. *)
Definition pool_at (m : mem) (i : nat) (op : option pool) (L : list (Z * Z)) : Prop :=
  match op with
  | Some p =>
      (exists bs, kind_ok (p_kind p) m (mem_info i) (p_start p) (p_end p) bs /\ allocs bs ≡ₚ L) /\
      m (mem_info i + info_alloc) = fn_alloc (p_kind p) /\ m (mem_info i + info_free) = fn_free (p_kind p)
  | None => L = [] /\ m (mem_info i + info_base) = 0 /\ m (mem_info i + info_lenth) = 0 /\ m (mem_info i + info_alloc) = 0
  end.

Record heap_ok (k : kheap) (C : list (option pool)) (L : nat -> list (Z * Z)) : Prop := {
  hk_layout : layout_ok C;
  hk_pools : forall i op, C !! i = Some op -> pool_at (kh_mem k) i op (L i);
  hk_locks : forall i op, C !! i = Some op -> exists l, kh_locks k !! i = Some l /\ lock_free l;
  hk_out : forall i, C !! i = None -> L i = [];
  hk_cnt : 0 <= g_sched_preempt_cnt (kh_cpu k) < W32 - 1;
}.

Lemma info_apart i j : i <> j -> mem_info i + info_size <= mem_info j \/ mem_info j + info_size <= mem_info i.
Proof. unfold KMalloc.mem_info, info_size. lia. Qed.
Lemma info_inside i : (i < FWK_MEMPOOL_TYPE_MAX)%nat -> infos <= mem_info i /\ mem_info i + info_size <= infos + 4 * info_size.
Proof. unfold KMalloc.mem_info, info_size, FWK_MEMPOOL_TYPE_MAX. lia. Qed.

(** Cells of pool [i]: its descriptor and its arena. *)
Definition pool_cell (i : nat) (p : pool) (x : Z) : Prop :=
  mem_info i <= x < mem_info i + info_size \/ p_start p <= x < p_end p.

(** Memory outside the descriptors and all arenas. *)
Definition off_heap (C : list (option pool)) (x : Z) : Prop :=
  ~ (infos <= x < infos + 4 * info_size) /\ forall i p, C !! i = Some (Some p) -> ~ (p_start p <= x < p_end p).

Lemma off_heap_cell C i p x : layout_ok C -> C !! i = Some (Some p) -> off_heap C x -> ~ pool_cell i p x.
Proof.
  intros Hly Hi [Hx Hp] [H|H]; [|by eapply Hp]. pose proof (lookup_lt_Some _ _ _ Hi) as Hlt. rewrite (ly_len _ Hly) in Hlt.
  pose proof (info_inside i Hlt). lia.
Qed.

(** Writing cells of one pool does not disturb another. *)
Lemma pool_at_other m m' C i p j oq L :
  layout_ok C -> C !! i = Some (Some p) -> (j < FWK_MEMPOOL_TYPE_MAX)%nat -> (forall q, oq = Some q -> C !! j = Some (Some q)) -> i <> j ->
  agree (fun x => ~ pool_cell i p x) m m' -> pool_at m j oq L -> pool_at m' j oq L.
Proof.
  intros Hly Hi Hj' Hj Hne Ha. pose proof (lookup_lt_Some _ _ _ Hi) as Hi'. rewrite (ly_len _ Hly) in Hi'.
  pose proof (info_inside j Hj'). pose proof (info_inside i Hi'). pose proof (info_apart i j Hne).
  pose proof (ly_infos _ Hly _ _ Hi) as Hpi. unfold apart_ranges in *.
  assert (forall x, mem_info j <= x < mem_info j + info_size -> m' x = m x) as Hinfo.
  { intros x Hx. apply Ha. unfold pool_cell, info_alloc, info_size in *. lia. }
  destruct oq as [q|]; simpl.
  - intros ((bs & Hok & Hal) & Ef & Eg). rewrite !Hinfo by (unfold info_alloc, info_free, info_size; lia). split; [|done].
    exists bs. split; [|done]. eapply pool_write; [exact Hok|]. intros x Hx. apply Ha.
    destruct (owned_inside _ _ _ _ _ _ _ Hok Hx) as [Hx'|Hx']; unfold pool_cell, info_alloc, info_size in *; [lia|].
    specialize (Hj q eq_refl). pose proof (ly_infos _ Hly _ _ Hj) as Hpj. pose proof (ly_apart _ Hly _ _ _ _ Hi Hj Hne). unfold apart_ranges in *.
    unfold info_size in *. lia.
  - rewrite !Hinfo by (unfold info_alloc, info_base, info_lenth, info_size; lia). done.
Qed.

(** Replacing what happened in one pool. *)
Lemma heap_ok_step k C L i p m' l c L' :
  heap_ok k C L -> C !! i = Some (Some p) -> agree (fun x => ~ pool_cell i p x) (kh_mem k) m' ->
  pool_at m' i (Some p) (L' i) -> (forall j, j <> i -> L' j = L j) -> lock_free l -> c = kh_cpu k ->
  heap_ok (KHeap m' (<[i := l]> (kh_locks k)) (kh_wqh k) c) C L'.
Proof.
  intros [Hly Hp Hlk Hout Hc] Hi Ha Hpi Hother Hl ->. split; [done|..|done]; simpl.
  - intros j oq Hj. destruct (decide (j = i)) as [->|Hne]; [by simplify_eq|]. rewrite Hother by done.
    eapply pool_at_other; [exact Hly|exact Hi| |by intros q ->|done|exact Ha|by apply Hp].
    rewrite <- (ly_len _ Hly). by eapply lookup_lt_Some.
  - intros j oq Hj. destruct (Hlk j oq Hj) as (l' & El & Hl'). destruct (decide (j = i)) as [->|Hne].
    + exists l. split; [|done]. apply list_lookup_insert_eq. by eapply lookup_lt_Some.
    + exists l'. by rewrite list_lookup_insert_ne.
  - intros j Hj. rewrite Hother; [by apply Hout|congruence].
Qed.

Lemma pool_critical_spec {A} i (f : mem -> res (mem * A)) k C L op m' a :
  heap_ok k C L -> C !! i = Some op -> f (kh_mem k) = Ok (m', a) ->
  exists l, lock_free l /\ pool_critical i f k = Ok (a, KHeap m' (<[i := l]> (kh_locks k)) (kh_wqh k) (kh_cpu k)).
Proof.
  intros Hk Hi Hf. destruct (hk_locks _ _ _ Hk i op Hi) as (l & El & Hl). unfold pool_critical. rewrite El. cbn [deref mbind res_bind].
  destruct (irqsave_restore _ _ Hl (hk_cnt _ _ _ Hk)) as (c1 & l1 & -> & _ & _ & _ & Hu). cbn [mbind res_bind].
  rewrite Hf. cbn [mbind res_bind]. rewrite Hu. by exists (Lock 0 0).
Qed.

Lemma call_alloc_kind k m info size : functions_ok -> m (info + info_alloc) = fn_alloc k ->
  negb (m (info + info_alloc) =? 0) = true /\ call_alloc fuel m info size = kind_alloc k fuel m info size.
Proof.
  intros (H1 & H2 & _ & _ & H3 & _) E. unfold KMalloc.call_alloc. rewrite E. destruct k; simpl.
  - by rewrite (proj2 (Z.eqb_neq _ _) H1), Z.eqb_refl.
  - by rewrite (proj2 (Z.eqb_neq _ _) H2), (proj2 (Z.eqb_neq simple_alloc block_alloc)), Z.eqb_refl.
Qed.
Lemma call_free_kind k m info ptr : functions_ok -> m (info + info_free) = fn_free k ->
  negb (m (info + info_free) =? 0) = true /\ call_free fuel m info ptr = kind_free k fuel m info ptr.
Proof.
  intros (_ & _ & H1 & H2 & _ & H3) E. unfold KMalloc.call_free. rewrite E. destruct k; simpl.
  - by rewrite (proj2 (Z.eqb_neq _ _) H1), Z.eqb_refl.
  - by rewrite (proj2 (Z.eqb_neq _ _) H2), (proj2 (Z.eqb_neq simple_free block_free)), Z.eqb_refl.
Qed.

Lemma kind_payload k m info a e bs q s x : kind_ok k m info a e bs -> (q, s) ∈ allocs bs -> q <= x < q + s ->
  ~ owned info bs x /\ a <= x < e.
Proof.
  intros [Hfr Ht]%pool_ok_frame Hq Hx. destruct (payload_off_headers _ _ _ _ _ _ _ Ht Hq Hx) as [Hr Hh]. split; [|done].
  destruct (pf_info _ _ _ _ Hfr) as (_ & _ & Hi). intros [H|(c & Hc & H)]; [unfold info_alloc, info_size in *; lia|by apply (Hh c)].
Qed.
Lemma kind_fuel C i p m bs : layout_ok C -> C !! i = Some (Some p) ->
  kind_ok (p_kind p) m (mem_info i) (p_start p) (p_end p) bs -> (length bs <= fuel)%nat.
Proof.
  intros Hly Hi [_ Ht]%pool_ok_frame. pose proof (ly_fuel _ Hly _ _ Hi). apply tiles_length in Ht. lia.
Qed.

(** Two blocks of the heap are the same or do not overlap. *)
Definition heap_apart (L : nat -> list (Z * Z)) (q s : Z) : Prop :=
  forall j r t, (r, t) ∈ L j -> q + s <= r \/ r + t <= q.

Lemma disjoint_head q s L r t : disjoint_allocs ((q, s) :: L) -> (r, t) ∈ L -> q + s <= r \/ r + t <= q.
Proof. intros H [i Hi]%list_elem_of_lookup. by apply (H 0%nat (S i) q s r t). Qed.

Lemma heap_block k C L i r t : heap_ok k C L -> (r, t) ∈ L i -> exists p, C !! i = Some (Some p).
Proof.
  intros Hk Hr. destruct (C !! i) as [[p|]|] eqn:Hi; [eauto|..].
  - destruct (hk_pools _ _ _ Hk i None Hi) as [E _]. rewrite E in Hr. by apply not_elem_of_nil in Hr.
  - rewrite (hk_out _ _ _ Hk i Hi) in Hr. by apply not_elem_of_nil in Hr.
Qed.
Lemma heap_bounds k C L i p r t : heap_ok k C L -> C !! i = Some (Some p) -> (r, t) ∈ L i ->
  0 <= t /\ p_start p + 32 <= r /\ r + t <= p_end p.
Proof.
  intros Hk Hi Hr. destruct (hk_pools _ _ _ Hk i (Some p) Hi) as ((bs & [_ Ht]%pool_ok_frame & Hal) & _).
  destruct (tiles_allocs _ _ _ _ r t Ht) as (_ & _ & ? & ? & ?); [by rewrite Hal|]. lia.
Qed.

Lemma pool_flags_in flags i : pool_of_flags flags = Some (Some i) -> (i < FWK_MEMPOOL_TYPE_MAX)%nat.
Proof.
  unfold pool_of_flags. assert (forall idx found, select_pool flags idx found = Some (Some i) -> i ∈ idx \/ found = Some i) as H.
  { induction idx as [|j idx IH]; intros found; simpl; [intros [= ->]; by right|].
    destruct (has_flag _ _); [destruct found; [done|]|]; intros [?|?]%IH; simplify_eq; set_solver. }
  intros [[_ ?]%elem_of_seq|?]%H; [lia|done].
Qed.

(** ** Requests *)
Definition add_live (i : nat) (b : Z * Z) (L : nat -> list (Z * Z)) : nat -> list (Z * Z) :=
  fun j => if decide (j = i) then b :: L i else L j.

Lemma kmemzero_spec m q size : 0 < q -> 0 <= size -> q + size < W32 ->
  agree (fun x => ~ (q <= x < q + size)) m (kmemzero m q size) /\ forall x, q <= x < q + size -> kmemzero m q size x = 0.
Proof.
  intros Hq Hs Hw. unfold kmemzero, kmemset. rewrite (proj2 (Z.eqb_neq q 0)), u32_id by lia. split; intros x Hx.
  - destruct (Z.leb_spec q x), (Z.ltb_spec x (q + size)); simpl; try done. lia.
  - by rewrite (proj2 (Z.leb_le _ _)), (proj2 (Z.ltb_lt _ _)) by lia.
Qed.

(** The body of [kmalloc] inside the lock. *)
Lemma alloc_in_pool k C L i p size flags : functions_ok -> heap_ok k C L -> C !! i = Some (Some p) -> 0 <= size <= W32 - 40 ->
  (forall bs, kind_ok (p_kind p) (kh_mem k) (mem_info i) (p_start p) (p_end p) bs -> kind_permits (p_kind p) bs size) ->
  exists m q, ('(m, q) ← call_alloc fuel (kh_mem k) (mem_info i) size;
      if negb (isValid q) then Ok (m, nullptr)
      else Ok (if has_flag flags NR_KMEM_ZERO then kmemzero m q size else m, q)) = Ok (m, q) /\
    ((q = nullptr /\ m = kh_mem k) \/
     (isValid q = true /\ pool_at m i (Some p) ((q, mrt_num_align8 size) :: L i) /\
      agree (fun x => ~ pool_cell i p x) (kh_mem k) m /\
      (forall r t x, (r, t) ∈ L i -> r <= x < r + t -> m x = kh_mem k x) /\
      (has_flag flags NR_KMEM_ZERO = true -> forall x, q <= x < q + size -> m x = 0))).
Proof.
  intros Hfn Hk Hi Hs Hperm. destruct (hk_pools _ _ _ Hk i (Some p) Hi) as ((bs & Hok & Hal) & Ea & Ef).
  destruct (call_alloc_kind (p_kind p) (kh_mem k) (mem_info i) size Hfn Ea) as [_ ->].
  destruct (pool_alloc fuel _ _ _ _ bs size Hok Hs (Hperm bs Hok) (kind_fuel _ _ _ _ _ (hk_layout _ _ _ Hk) Hi Hok))
    as [[E _]|(m1 & q & bs' & E & Hok' & Hal' & Hag)]; rewrite E; cbn [mbind res_bind].
  { exists (kh_mem k), nullptr. split; [done|by left]. }
  pose proof (pool_ok_frame _ _ _ _ _ Hok') as [Hfr Ht]. destruct (pf_arena _ _ _ _ Hfr) as [Ha0 He]. destruct (pf_info _ _ _ _ Hfr) as (_ & _ & Hinf).
  assert ((q, mrt_num_align8 size) ∈ allocs bs') as Hq by (rewrite Hal'; by left).
  destruct (tiles_allocs _ _ _ _ _ _ Ht Hq) as (_ & _ & _ & Hq1 & Hq2). destruct (align8_spec size) as [Hal8 _]; [unfold W32 in *; lia|].
  assert (isValid q = true) as Hv by (apply isValid_true; lia). rewrite Hv. cbn [negb].
  destruct (kmemzero_spec m1 q size) as [Hz1 Hz2]; [lia..|].
  set (m2 := if has_flag flags NR_KMEM_ZERO then kmemzero m1 q size else m1).
  assert (agree (fun x => ~ (q <= x < q + size)) m1 m2) as Hz by (subst m2; destruct (has_flag _ _); [exact Hz1|done]).
  assert (disjoint_allocs ((q, mrt_num_align8 size) :: L i)) as Hdis.
  { eapply disjoint_allocs_perm; [|by eapply tiles_allocs_disjoint]. by rewrite Hal', Hal. }
  exists m2, q. split; [done|right]. split_and!; [done|..].
  - split; [exists bs'|].
    + split; [|by rewrite Hal', Hal]. eapply pool_write; [exact Hok'|]. intros x Hx. apply Hz. intros Hxq.
      destruct (kind_payload _ _ _ _ _ _ _ _ x Hok' Hq) as [Hno _]; [lia|done].
    + assert (forall x, mem_info i + info_alloc <= x < mem_info i + info_size -> m2 x = kh_mem k x) as Hfp.
      { intros x Hx. unfold info_alloc, info_size in *. rewrite Hz by lia. apply Hag. intros Ho.
        destruct (owned_inside _ _ _ _ _ _ _ Hok' Ho); unfold info_alloc in *; lia. }
      unfold info_free, info_alloc, info_size in *. by rewrite !Hfp by lia.
  - intros x Hx. unfold pool_cell in Hx. rewrite Hz by lia. apply Hag. intros Ho.
    destruct (owned_inside _ _ _ _ _ _ _ Hok' Ho); unfold info_alloc, info_size in *; lia.
  - intros r t x Hr Hx. pose proof (disjoint_head _ _ _ _ _ Hdis Hr). rewrite Hz by lia. apply Hag.
    eapply kind_payload; [exact Hok'| |exact Hx]. rewrite Hal', Hal. by right.
  - intros Hf. subst m2. by rewrite Hf.
Qed.

Lemma kmalloc_spec k C L i p size flags :
  functions_ok -> heap_ok k C L -> pool_of_flags flags = Some (Some i) -> C !! i = Some (Some p) -> 0 <= size <= W32 - 40 ->
  (forall bs, kind_ok (p_kind p) (kh_mem k) (mem_info i) (p_start p) (p_end p) bs -> kind_permits (p_kind p) bs size) ->
  exists q k', kmalloc block_alloc simple_alloc infos fuel k size flags = Ok (q, k') /\ kh_cpu k' = kh_cpu k /\
    ((q = nullptr /\ heap_ok k' C L /\ kh_mem k' = kh_mem k) \/
     (isValid q = true /\ heap_ok k' C (add_live i (q, mrt_num_align8 size) L) /\ heap_apart L q (mrt_num_align8 size) /\
      (forall j r t x, (r, t) ∈ L j -> r <= x < r + t -> kh_mem k' x = kh_mem k x) /\
      (forall x, off_heap C x -> kh_mem k' x = kh_mem k x) /\
      (has_flag flags NR_KMEM_ZERO = true -> forall x, q <= x < q + size -> kh_mem k' x = 0))).
Proof.
  intros Hfn Hk Hfl Hi Hs Hperm. destruct (alloc_in_pool k C L i p size flags Hfn Hk Hi Hs Hperm) as (m & q & Hbody & Hcase).
  destruct (hk_pools _ _ _ Hk i (Some p) Hi) as (_ & Ea & Ef). destruct (call_alloc_kind _ _ _ size Hfn Ea) as [Hnz _].
  destruct (hk_locks _ _ _ Hk i _ Hi) as (l0 & El & Hl0). unfold kmalloc. rewrite Hfl, El. cbn [deref mbind res_bind].
  unfold spin_is_locked, lock_free in *. rewrite Hl0, andb_false_r.
  match goal with |- context [pool_critical i ?f k] => destruct (pool_critical_spec i f k C L _ m q Hk Hi) as (l & Hl & ->) end.
  { rewrite Hnz. exact Hbody. }
  eexists q, _. split; [done|]. split; [done|]. destruct Hcase as [[-> ->]|(Hv & Hp & Hag & Hkeep & Hzero)].
  - left. split_and!; [done| |done]. eapply heap_ok_step; [exact Hk|exact Hi|done|by apply Hk|done|done|done].
  - right. assert (heap_ok (KHeap m (<[i := l]> (kh_locks k)) (kh_wqh k) (kh_cpu k)) C (add_live i (q, mrt_num_align8 size) L)) as Hk'.
    { eapply heap_ok_step; [exact Hk|exact Hi|exact Hag|..|done|done]; unfold add_live; [by rewrite decide_True|intros j Hj; by rewrite decide_False]. }
    destruct (heap_bounds _ _ _ i p q (mrt_num_align8 size) Hk' Hi) as (_ & Hq1 & Hq2); [unfold add_live; rewrite decide_True by done; by left|].
    split_and!; [done|done|..|exact Hzero].
    + intros j r t Hr. destruct (heap_block _ _ _ _ _ _ Hk Hr) as [p' Hj]. pose proof (heap_bounds _ _ _ _ _ _ _ Hk Hj Hr) as (? & ? & ?).
      destruct (decide (j = i)) as [->|Hne].
      * destruct Hp as ((bs & Hok & Hal) & _). pose proof (pool_ok_frame _ _ _ _ _ Hok) as [_ Ht].
        eapply disjoint_head; [|exact Hr]. eapply disjoint_allocs_perm; [exact Hal|by eapply tiles_allocs_disjoint].
      * pose proof (ly_apart _ (hk_layout _ _ _ Hk) _ _ _ _ Hi Hj ltac:(congruence)) as Hap. unfold apart_ranges in Hap. lia.
    + intros j r t x Hr Hx. destruct (decide (j = i)) as [->|Hne]; [by eapply Hkeep|].
      destruct (heap_block _ _ _ _ _ _ Hk Hr) as [p' Hj]. pose proof (heap_bounds _ _ _ _ _ _ _ Hk Hj Hr) as (? & ? & ?).
      pose proof (ly_apart _ (hk_layout _ _ _ Hk) _ _ _ _ Hi Hj ltac:(congruence)) as Hap.
      pose proof (ly_infos _ (hk_layout _ _ _ Hk) _ _ Hj) as Hinf. pose proof (info_inside i (pool_flags_in _ _ Hfl)).
      simpl. apply Hag. unfold pool_cell, apart_ranges, info_alloc, info_size in *. lia.
    + intros x Hx. apply Hag. eapply off_heap_cell; [exact (hk_layout _ _ _ Hk)|done|done].
Qed.

(** C8: [kmalloc] returns; it either reports that its pool has no room and
    changes nothing, or hands out a block that overlaps no block of any pool,
    zeroed if asked for, and keeps the whole heap well-formed and the contents of
    every block.  (The segregated allocator is exempt for an exact fit.) *)
Theorem kmalloc_serves k C L i p size flags :
  functions_ok -> heap_ok k C L -> pool_of_flags flags = Some (Some i) -> C !! i = Some (Some p) -> 0 <= size <= W32 - 40 ->
  (forall bs, kind_ok (p_kind p) (kh_mem k) (mem_info i) (p_start p) (p_end p) bs -> kind_permits (p_kind p) bs size) ->
  exists q k', kmalloc block_alloc simple_alloc infos fuel k size flags = Ok (q, k') /\ kh_cpu k' = kh_cpu k /\
    ((q = nullptr /\ heap_ok k' C L /\ kh_mem k' = kh_mem k) \/
     (isValid q = true /\ heap_ok k' C (add_live i (q, mrt_num_align8 size) L) /\ heap_apart L q (mrt_num_align8 size) /\
      (forall j r t x, (r, t) ∈ L j -> r <= x < r + t -> kh_mem k' x = kh_mem k x) /\
      (forall x, off_heap C x -> kh_mem k' x = kh_mem k x) /\
      (has_flag flags NR_KMEM_ZERO = true -> forall x, q <= x < q + size -> kh_mem k' x = 0))).
Proof. apply kmalloc_spec. Qed.

(** ** Releases *)
Definition set_live (i : nat) (l : list (Z * Z)) (L : nat -> list (Z * Z)) : nat -> list (Z * Z) :=
  fun j => if decide (j = i) then l else L j.

Lemma owner_unique m q i idx :
  (forall j, j ∈ idx -> (m (mem_info j + info_base) <=? q) && (q <? u32 (m (mem_info j + info_base) + m (mem_info j + info_lenth))) = true <-> j = i) ->
  i ∈ idx -> owner infos m q idx = Some i.
Proof.
  induction idx as [|j idx IH]; intros H Hi; [by apply not_elem_of_nil in Hi|]. simpl.
  destruct (_ && _) eqn:E; [f_equal; apply H; [by left|done]|].
  apply IH; [intros x Hx; apply H; by right|]. apply elem_of_cons in Hi as [<-|]; [|done].
  by rewrite (proj2 (H i ltac:(by left)) eq_refl) in E.
Qed.
Lemma owner_none m q idx :
  (forall j, j ∈ idx -> (m (mem_info j + info_base) <=? q) && (q <? u32 (m (mem_info j + info_base) + m (mem_info j + info_lenth))) = false) ->
  owner infos m q idx = None.
Proof. induction idx as [|j idx IH]; intros H; simpl; [done|]. rewrite (H j) by by left. apply IH. intros x Hx. apply H. by right. Qed.

(** [heap_ok] in two parts: pools that satisfy their allocator's invariant, and
    segregated pools in which every exhausted block has an initialised link node.
    The second fails once a segregated pool has served an exact fit, and the block
    of that request must not be released ([exact_fit_release_writes_outside]). *)
Definition kind_wf (k : pool_kind) (m : mem) (info a e : Z) (bs : list blk) : Prop :=
  match k with KBlock => exists D, pool_inv m info a e bs D | KSimple => simple_inv m info a e bs end.
Record heap_wf (k : kheap) (C : list (option pool)) (L : nat -> list (Z * Z)) : Prop := {
  hw_layout : layout_ok C;
  hw_pools : forall i p, C !! i = Some (Some p) ->
    (exists bs, kind_wf (p_kind p) (kh_mem k) (mem_info i) (p_start p) (p_end p) bs /\ allocs bs ≡ₚ L i) /\
    kh_mem k (mem_info i + info_alloc) = fn_alloc (p_kind p) /\ kh_mem k (mem_info i + info_free) = fn_free (p_kind p);
  hw_none : forall i, C !! i = Some None -> pool_at (kh_mem k) i None (L i);
  hw_locks : forall i op, C !! i = Some op -> exists l, kh_locks k !! i = Some l /\ lock_free l;
  hw_out : forall i, C !! i = None -> L i = [];
  hw_cnt : 0 <= g_sched_preempt_cnt (kh_cpu k) < W32 - 1;
}.
Definition pools_clean (k : kheap) (C : list (option pool)) (L : nat -> list (Z * Z)) : Prop :=
  forall i p, C !! i = Some (Some p) -> p_kind p = KBlock ->
  exists bs D, pool_inv (kh_mem k) (mem_info i) (p_start p) (p_end p) bs D /\ allocs bs ≡ₚ L i /\ clean bs D.
Lemma heap_ok_split k C L : heap_ok k C L <-> heap_wf k C L /\ pools_clean k C L.
Proof.
  split.
  - intros [Hly Hp Hl Ho Hc]. split; [split; try done|].
    + intros i p Hi. destruct (Hp i _ Hi) as [(bs & Hk & Hb) Hf]. split; [|exact Hf]. exists bs. split; [|done]. destruct (p_kind p); [|exact Hk]. destruct Hk as (D & HP & _). by exists D.
    + intros i Hi. by apply Hp.
    + intros i p Hi Ek. destruct (Hp i _ Hi) as [(bs & Hk & Hb) _]. rewrite Ek in Hk. destruct Hk as (D & HP & Hcl). by exists bs, D.
  - intros [[Hly Hp Hn Hl Ho Hc] Hcl]. split; try done. intros i [p|] Hi; [|by apply Hn]. destruct (Hp i p Hi) as [(bs & Hk & Hb) Hf]. split; [|exact Hf].
    destruct (p_kind p) eqn:Ek; [|by exists bs]. destruct (Hcl i p Hi Ek) as (bs' & D & HP & Hb' & Hd). exists bs'. split; [by exists D|done].
Qed.

Lemma kind_wf_frame k m info a e bs : kind_wf k m info a e bs -> pool_frame m info a e /\ tiles true a bs e.
Proof. destruct k; [intros (D & HP)|intros HP]; split; apply HP. Qed.

(** The range test of [kfree], against the layout. *)
Lemma range_test k C L j op q : heap_wf k C L -> C !! j = Some op -> 0 <= q ->
  (kh_mem k (mem_info j + info_base) <=? q) && (q <? u32 (kh_mem k (mem_info j + info_base) + kh_mem k (mem_info j + info_lenth))) = true <->
  exists p, op = Some p /\ p_start p <= q < p_end p.
Proof.
  intros Hk Hj Hq. destruct op as [p|].
  - destruct (hw_pools _ _ _ Hk j p Hj) as ((bs & [Hfr Ht]%kind_wf_frame & _) & _). destruct (pf_arena _ _ _ _ Hfr). apply tiles_le in Ht.
    rewrite (pf_base _ _ _ _ Hfr), (pf_lenth _ _ _ _ Hfr), Zplus_minus, u32_id by lia.
    rewrite andb_true_iff, Z.leb_le, Z.ltb_lt. naive_solver.
  - destruct (hw_none _ _ _ Hk j Hj) as (_ & -> & -> & _). rewrite andb_true_iff, Z.ltb_lt. change (u32 (0 + 0)) with 0. split; [lia|by intros (? & ? & _)].
Qed.

Lemma pool_index C j : layout_ok C -> j ∈ seq 0 FWK_MEMPOOL_TYPE_MAX -> exists op, C !! j = Some op.
Proof. intros Hly [_ Hj]%elem_of_seq. apply lookup_lt_is_Some_2. rewrite (ly_len _ Hly). lia. Qed.
Lemma kfree_spec k C L q :
  functions_ok -> heap_ok k C L ->
  forall i s, (q, s) ∈ L i -> 0 < s ->
     exists k' rest, kfree block_free simple_free infos fuel k q = Ok k' /\ kh_cpu k' = kh_cpu k /\
       (q, s) :: rest ≡ₚ L i /\ heap_ok k' C (set_live i rest L) /\
       (forall j r t x, (r, t) ∈ set_live i rest L j -> r <= x < r + t -> kh_mem k' x = kh_mem k x) /\
       (forall x, off_heap C x -> kh_mem k' x = kh_mem k x).
Proof.
  intros Hfn Hk i s Hq Hs. pose proof (hk_layout _ _ _ Hk) as Hly. pose proof (ly_len _ Hly) as Hlen.
  destruct (heap_block _ _ _ _ _ _ Hk Hq) as [p Hi]. pose proof (heap_bounds _ _ _ _ _ _ _ Hk Hi Hq) as (_ & Hq1 & Hq2).
  destruct (hk_pools _ _ _ Hk i _ Hi) as ((bs & Hok & Hal) & Ea & Ef). pose proof (pool_ok_frame _ _ _ _ _ Hok) as [Hfr Ht].
  destruct (pf_arena _ _ _ _ Hfr) as [Ha0 He].
  assert (owner infos (kh_mem k) q (seq 0 FWK_MEMPOOL_TYPE_MAX) = Some i) as Hown.
  { apply owner_unique; [|apply elem_of_seq; pose proof (lookup_lt_Some _ _ _ Hi); lia]. intros j Hj.
    destruct (pool_index C j Hly Hj) as [op Hop]. rewrite (range_test k C L j op q (proj1 (proj1 (heap_ok_split k C L) Hk)) Hop) by lia. split.
    - intros (p' & -> & Hr). destruct (decide (j = i)) as [|Hne]; [done|]. pose proof (ly_apart _ Hly _ _ _ _ Hop Hi Hne). unfold apart_ranges in *. lia.
    - intros ->. simplify_eq. exists p. split; [done|lia]. }
  destruct (pool_free fuel _ _ _ _ bs q s Hok) as (m' & bs' & E & Hok' & Hal' & Hag); [by rewrite Hal|by eapply kind_fuel|].
  destruct (call_free_kind _ _ _ q Hfn Ef) as [Hnz Hcall]. unfold kfree. rewrite Hown.
  match goal with |- context [pool_critical i ?f k] => destruct (pool_critical_spec i f k C L _ m' tt Hk Hi) as (l & Hl & ->) end.
  { rewrite Hnz, Hcall, E. done. }
  cbn [mbind res_bind].
  assert (agree (fun x => ~ pool_cell i p x) (kh_mem k) m') as Hcell.
  { intros x Hx. apply Hag. intros Ho. apply Hx. destruct (owned_inside _ _ _ _ _ _ _ Hok Ho); [left|by right]. unfold info_alloc, info_size in *. lia. }
  eexists _, (allocs bs'). split; [done|]. split; [done|]. split; [by rewrite Hal', Hal|]. split_and!.
  - eapply heap_ok_step; [exact Hk|exact Hi|exact Hcell|..|done|done]; unfold set_live; [|intros j Hj; by rewrite decide_False].
    rewrite decide_True by done. split; [by exists bs'|].
    assert (forall x, mem_info i + info_alloc <= x < mem_info i + info_size -> m' x = kh_mem k x) as Hfp.
    { intros x Hx. apply Hag. intros Ho. destruct (pf_info _ _ _ _ Hfr) as (_ & _ & Hinf).
      destruct (owned_inside _ _ _ _ _ _ _ Hok Ho); unfold info_alloc, info_size in *; lia. }
    unfold info_alloc, info_free, info_size in *. by rewrite !Hfp by lia.
  - intros j r t x. unfold set_live. destruct (decide (j = i)) as [->|Hne]; intros Hr Hx; simpl.
    + apply Hag. eapply kind_payload; [exact Hok| |exact Hx]. rewrite <- Hal'. by right.
    + destruct (heap_block _ _ _ _ _ _ Hk Hr) as [p' Hj]. pose proof (heap_bounds _ _ _ _ _ _ _ Hk Hj Hr) as (? & ? & ?).
      pose proof (ly_apart _ Hly _ _ _ _ Hi Hj ltac:(congruence)) as Hap. pose proof (ly_infos _ Hly _ _ Hj) as Hinf.
      pose proof (info_inside i ltac:(rewrite <- Hlen; by eapply lookup_lt_Some)).
      apply Hcell. unfold pool_cell, apart_ranges in *. lia.
  - intros x Hx. apply Hcell. eapply off_heap_cell; [exact Hly|done|done].
Qed.
Lemma kfree_outside k C L q : heap_wf k C L -> 0 <= q -> (forall i p, C !! i = Some (Some p) -> ~ (p_start p <= q < p_end p)) ->
  kfree block_free simple_free infos fuel k q = Ok k.
Proof.
  intros Hk Hq Hout. unfold kfree. rewrite owner_none; [done|]. intros j Hj. destruct (pool_index C j (hw_layout _ _ _ Hk) Hj) as [op Hop].
  apply not_true_iff_false. rewrite (range_test k C L j op q Hk Hop Hq). intros (p & -> & Hr). by apply (Hout j p).
Qed.

(** C9: In a heap whose segregated pools have served no exact fit
    ([pools_clean]), [kfree] of a live, non-empty block finds the pool the block
    came from, returns, and takes exactly that block out, keeping the heap
    well-formed, its segregated pools as they have to be, and the contents of
    every other block.  A pointer outside all pools is ignored, in any well-formed
    heap. *)
Theorem kfree_returns_block k C L q :
  functions_ok -> heap_wf k C L ->
  (pools_clean k C L -> forall i s, (q, s) ∈ L i -> 0 < s ->
     exists k' rest, kfree block_free simple_free infos fuel k q = Ok k' /\ kh_cpu k' = kh_cpu k /\
       (q, s) :: rest ≡ₚ L i /\ heap_wf k' C (set_live i rest L) /\ pools_clean k' C (set_live i rest L) /\
       (forall j r t x, (r, t) ∈ set_live i rest L j -> r <= x < r + t -> kh_mem k' x = kh_mem k x) /\
       (forall x, off_heap C x -> kh_mem k' x = kh_mem k x)) /\
  (0 <= q -> (forall i p, C !! i = Some (Some p) -> ~ (p_start p <= q < p_end p)) ->
     kfree block_free simple_free infos fuel k q = Ok k).
Proof.
  intros Hfn Hw. split.
  - intros Hcl i s Hq Hs. destruct (kfree_spec k C L q Hfn (proj2 (heap_ok_split k C L) (conj Hw Hcl)) i s Hq Hs) as (k' & rest & E & Ec & Hr & Hk & Hd).
    apply heap_ok_split in Hk as [Hw' Hcl']. exists k', rest. by split_and!; try apply Hd.
  - by apply (kfree_outside k C L).
Qed.

(** ** Start-up *)
Definition region (b : Z * Z) : Prop := 0 < b.1 /\ b.1 + b.2 < W32 - 4096 /\ 39 <= b.2 /\ b.2 <= 32 * Z.of_nat fuel.
Definition region_pool (k : pool_kind) (b : Z * Z) : pool := Pool k (mrt_num_align8 b.1) (b.1 + b.2).
Definition boot_pools (kb fb sb : Z * Z) : list (option pool) :=
  [None; Some (region_pool KBlock kb); Some (region_pool KSimple fb); Some (region_pool KBlock sb)].

Lemma region_start k b : region b -> b.1 <= p_start (region_pool k b) /\ p_start (region_pool k b) + 32 <= p_end (region_pool k b).
Proof. intros (? & ? & ? & _). destruct (align8_spec b.1) as [? _]; [unfold W32 in *; lia|]. simpl. lia. Qed.

Lemma created_cells k b i fa ff m m' : region b -> created fa ff m m' (mem_info i) (p_start (region_pool k b)) ->
  agree (fun x => ~ pool_cell i (region_pool k b) x) m m'.
Proof.
  intros Hb (_ & _ & Ha). pose proof (region_start k b Hb). revert Ha. apply agree_mono. intros x Hx.
  unfold pool_cell, MEM_BLOCK_HEADER_SIZE in *. lia.
Qed.

Lemma boot_layout kb fb sb :
  region kb -> region fb -> region sb ->
  apart_ranges infos (infos + 4 * info_size) kb.1 (kb.1 + kb.2) -> apart_ranges infos (infos + 4 * info_size) fb.1 (fb.1 + fb.2) ->
  apart_ranges infos (infos + 4 * info_size) sb.1 (sb.1 + sb.2) -> apart_ranges kb.1 (kb.1 + kb.2) fb.1 (fb.1 + fb.2) ->
  apart_ranges kb.1 (kb.1 + kb.2) sb.1 (sb.1 + sb.2) -> apart_ranges fb.1 (fb.1 + fb.2) sb.1 (sb.1 + sb.2) ->
  layout_ok (boot_pools kb fb sb).
Proof.
  intros Hk Hf Hs. pose proof (region_start KBlock kb Hk). pose proof (region_start KSimple fb Hf). pose proof (region_start KBlock sb Hs).
  unfold region, apart_ranges in *. intros. split; [done|..].
  - intros [|[|[|[|i]]]] p [= <-]; simpl in *; unfold apart_ranges; lia.
  - intros [|[|[|[|i]]]] [|[|[|[|j]]]] p q [= <-] [= <-] Hne; simpl in *; unfold apart_ranges; try done; lia.
  - intros [|[|[|[|i]]]] p [= <-]; simpl in *; lia.
Qed.

Lemma fresh_block m i b fa ff : region b -> fa = block_alloc -> ff = block_free -> (i < FWK_MEMPOOL_TYPE_MAX)%nat -> 0 < infos -> infos + 4 * info_size <= W32 - 4096 ->
  apart_ranges infos (infos + 4 * info_size) b.1 (b.1 + b.2) -> isValid (m (mem_info i + info_mem)) = false ->
  exists m', memory_block_create fa ff fuel m (mem_info i) b.1 b.2 = Ok (m', ER_NORMAL) /\
    pool_at m' i (Some (region_pool KBlock b)) [] /\ agree (fun x => ~ pool_cell i (region_pool KBlock b) x) m m'.
Proof.
  intros Hb -> -> Hi Hi0 Hi1 Hap Hv. pose proof (info_inside i Hi). destruct Hb as (Hb0 & Hb1 & Hb2 & Hb3) eqn:Eb. unfold apart_ranges in *.
  destruct (create_spec block_alloc block_free fuel m (mem_info i) b.1 b.2) as (m' & E & HP & Hcr); [unfold info_size in *; lia..|done|lia|lia|lia|lia|].
  exists m'. split_and!; [done| |by apply (created_cells KBlock b i block_alloc block_free)].
  split; [|by destruct Hcr as (? & ? & _)]. eexists. split.
  - eexists. split; [exact HP|]. intros c ->%list_elem_of_singleton. simpl. destruct (align8_spec b.1); unfold W32 in *; lia.
  - rewrite allocs_unused; [done|]. unfold b_used. simpl. lia.
Qed.
Lemma fresh_simple m i b : region b -> (i < FWK_MEMPOOL_TYPE_MAX)%nat -> 0 < infos -> infos + 4 * info_size <= W32 - 4096 ->
  apart_ranges infos (infos + 4 * info_size) b.1 (b.1 + b.2) -> isValid (m (mem_info i + info_mem)) = false ->
  exists m', memory_simple_block_create simple_alloc simple_free m (mem_info i) b.1 b.2 = (m', ER_NORMAL) /\
    pool_at m' i (Some (region_pool KSimple b)) [] /\ agree (fun x => ~ pool_cell i (region_pool KSimple b) x) m m'.
Proof.
  intros Hb Hi Hi0 Hi1 Hap Hv. pose proof (info_inside i Hi). destruct Hb as (Hb0 & Hb1 & Hb2 & Hb3) eqn:Eb. unfold apart_ranges in *.
  destruct (simple_create_spec simple_alloc simple_free m (mem_info i) b.1 b.2) as (m' & E & HP & Hcr); [unfold info_size in *; lia..|done|lia|lia|lia|lia|].
  exists m'. split_and!; [done| |by apply (created_cells KSimple b i simple_alloc simple_free)].
  split; [|by destruct Hcr as (? & ? & _)]. eexists. split; [exact HP|]. rewrite allocs_unused; [done|]. unfold b_used. simpl. lia.
Qed.

(** After step [n] of the start-up, the pools up to [n] stand and the later ones
    are still zeroed. *)
Definition stage (C : list (option pool)) (n : nat) (m : mem) : Prop :=
  forall j op, C !! j = Some op ->
    if decide (j <= n)%nat then pool_at m j op [] else pool_at m j None [] /\ m (mem_info j + info_mem) = 0.

Lemma stage_next C n p m m' : layout_ok C -> stage C n m -> C !! S n = Some (Some p) -> pool_at m' (S n) (Some p) [] ->
  agree (fun x => ~ pool_cell (S n) p x) m m' -> stage C (S n) m'.
Proof.
  intros Hly Hst Hn Hp Ha j op Hj. destruct (decide (j = S n)) as [->|Hne].
  { rewrite decide_True by lia. rewrite Hn in Hj. by simplify_eq. }
  pose proof (Hst j op Hj) as Hs. assert (j < FWK_MEMPOOL_TYPE_MAX)%nat as Hlt by (rewrite <- (ly_len _ Hly); by eapply lookup_lt_Some).
  destruct (decide (j <= n)%nat).
  - rewrite decide_True by lia. apply (pool_at_other m m' C (S n) p j op); try done. by intros q ->.
  - rewrite decide_False by lia. destruct Hs as [Hs Hz]. split; [by apply (pool_at_other m m' C (S n) p j None)|].
    rewrite <- Hz. apply Ha. pose proof (info_apart (S n) j ltac:(done)). pose proof (info_inside j Hlt). pose proof (ly_infos _ Hly _ _ Hn).
    unfold pool_cell, apart_ranges, info_mem, info_size in *. lia.
Qed.
Lemma stage_vacant C n m op : stage C n m -> C !! S n = Some op -> isValid (m (mem_info (S n) + info_mem)) = false.
Proof. intros Hst Hn. specialize (Hst _ _ Hn). rewrite decide_False in Hst by lia. by destruct Hst as [_ ->]. Qed.

(** At start-up, from zeroed descriptors and three regions of memory apart
    from each other and from the descriptors, [fwk_mempool_initial] succeeds and
    leaves a well-formed heap in which nothing is handed out. *)
Lemma fwk_mempool_initial_spec k kb fb sb :
  0 < infos -> infos + 4 * info_size <= W32 - 4096 -> (forall x, infos <= x < infos + 4 * info_size -> kh_mem k x = 0) ->
  kh_locks k = replicate 4 (Lock 0 0) -> 0 <= g_sched_preempt_cnt (kh_cpu k) < W32 - 1 ->
  region kb -> region fb -> region sb ->
  apart_ranges infos (infos + 4 * info_size) kb.1 (kb.1 + kb.2) -> apart_ranges infos (infos + 4 * info_size) fb.1 (fb.1 + fb.2) ->
  apart_ranges infos (infos + 4 * info_size) sb.1 (sb.1 + sb.2) -> apart_ranges kb.1 (kb.1 + kb.2) fb.1 (fb.1 + fb.2) ->
  apart_ranges kb.1 (kb.1 + kb.2) sb.1 (sb.1 + sb.2) -> apart_ranges fb.1 (fb.1 + fb.2) sb.1 (sb.1 + sb.2) ->
  exists k', fwk_mempool_initial block_alloc block_free simple_alloc simple_free infos fuel kb.1 kb.2 fb.1 fb.2 sb.1 sb.2 k = Ok (true, k') /\
    heap_ok k' (boot_pools kb fb sb) (fun _ => []).
Proof.
  intros Hi0 Hi1 Hz Hlk Hc Hk Hf Hs A1 A2 A3 A4 A5 A6. pose proof (boot_layout kb fb sb Hk Hf Hs A1 A2 A3 A4 A5 A6) as Hly.
  assert (stage (boot_pools kb fb sb) 0 (kh_mem k)) as S0.
  { intros j op Hop. pose proof (lookup_lt_Some _ _ _ Hop) as Hj. pose proof (info_inside j Hj). 
    assert (pool_at (kh_mem k) j None [] /\ kh_mem k (mem_info j + info_mem) = 0) as Hj0.
    { unfold pool_at, info_base, info_lenth, info_alloc, info_mem, info_size in *. by rewrite !Hz by lia. }
    case_decide; [|done]. assert (j = 0%nat) as -> by lia. simplify_eq/=. apply Hj0. }
  assert (2 < FWK_MEMPOOL_TYPE_MAX /\ 3 < FWK_MEMPOOL_TYPE_MAX)%nat as [H2 H3] by (unfold FWK_MEMPOOL_TYPE_MAX; lia).
  unfold fwk_mempool_initial, FWK_MEMPOOL_KERNEL, FWK_MEMPOOL_FB_DRAM, FWK_MEMPOOL_SK_BUFF.
  destruct (fresh_block (kh_mem k) 1 kb block_alloc block_free) as (m1 & -> & P1 & Ag1); try done; [lia|by eapply stage_vacant|].
  pose proof (stage_next _ 0 _ _ _ Hly S0 eq_refl P1 Ag1) as S1. cbn [mbind res_bind negb Z.eqb ER_NORMAL]. simpl kh_mem.
  destruct (fresh_simple m1 2 fb) as (m2 & -> & P2 & Ag2); try done; [by eapply stage_vacant|].
  pose proof (stage_next _ 1 _ _ _ Hly S1 eq_refl P2 Ag2) as S2. simpl kh_mem.
  destruct (fresh_block m2 3 sb block_alloc block_free) as (m3 & -> & P3 & Ag3); try done; [by eapply stage_vacant|].
  pose proof (stage_next _ 2 _ _ _ Hly S2 eq_refl P3 Ag3) as S3. cbn [mbind res_bind].
  eexists. split; [done|]. split; [done|..|done|exact Hc].
  - intros j op Hj. specialize (S3 j op Hj). apply lookup_lt_Some in Hj. simpl in Hj. by rewrite decide_True in S3 by lia.
  - simpl. rewrite Hlk. intros [|[|[|[|j]]]] op [= <-]; by eexists.
Qed.
End heap.

(** ** A running heap: three regions of 16 KiB, as [fwk_mempool_initial] leaves them *)
Definition demo_infos : Z := 256.
Definition demo_zero : kheap := KHeap (fun _ => 0) (replicate 4 (Lock 0 0)) (replicate 4 (WqHead (Lock 0 0) [])) (Cpu 0 0).
Definition demo_region (n : Z) : Z * Z := (65536 * n, 16384).
Definition demo_pools : list (option pool) := boot_pools (demo_region 1) (demo_region 2) (demo_region 3).

Definition demo_heap : kheap :=
  match fwk_mempool_initial 4 8 12 16 demo_infos 512 (demo_region 1).1 (demo_region 1).2
    (demo_region 2).1 (demo_region 2).2 (demo_region 3).1 (demo_region 3).2 demo_zero with
  | Ok (_, k) => k
  | _ => demo_zero
  end.

Lemma demo_heap_ok : heap_ok 4 8 12 16 demo_infos 512 demo_heap demo_pools (fun _ => []).
Proof.
  destruct (fwk_mempool_initial_spec 4 8 12 16 demo_infos 512 demo_zero (demo_region 1) (demo_region 2) (demo_region 3)) as (k & E & Hk);
    [unfold region, apart_ranges, info_size, demo_infos, W32; simpl; try done; lia..|].
  unfold demo_heap. by rewrite E.
Qed.
Lemma demo_functions : functions_ok 4 8 12 16.
Proof. done. Qed.
Definition demo_block : Z := match kmalloc 4 12 demo_infos 512 demo_heap 100 NR_KMEM_FBUFFER with Ok (q, _) => q | _ => 0 end.

(** A frame buffer of 100 bytes: served, and returned. *)
Lemma kmalloc_serves_witness : exists k',
  kmalloc 4 12 demo_infos 512 demo_heap 100 NR_KMEM_FBUFFER = Ok (demo_block, k') /\ isValid demo_block = true /\
  heap_ok 4 8 12 16 demo_infos 512 k' demo_pools (add_live 2 (demo_block, 104) (fun _ => [])).
Proof.
  destruct (kmalloc_serves 4 8 12 16 demo_infos 512 demo_heap demo_pools (fun _ => []) 2 (region_pool KSimple (demo_region 2)) 100 NR_KMEM_FBUFFER
    demo_functions demo_heap_ok eq_refl eq_refl ltac:(unfold W32; lia) ltac:(done)) as (q & k' & E & _ & Hc).
  assert (demo_block = q) as Hq by (unfold demo_block; by rewrite E).
  assert (isValid demo_block = true) as Hv by (vm_compute; reflexivity).
  exists k'. rewrite Hq in *. split; [exact E|]. destruct Hc as [[Hn _]|(_ & Hk & _)]; [rewrite Hn in Hv; discriminate Hv|].
  split; [exact Hv|exact Hk].
Defined.

Lemma demo_served : exists m l,
  heap_ok 4 8 12 16 demo_infos 512 (KHeap m (<[2%nat := l]> (kh_locks demo_heap)) (kh_wqh demo_heap) (kh_cpu demo_heap)) demo_pools
    (add_live 2 (demo_block, 104) (fun _ => [])).
Proof.
  destruct (alloc_in_pool 4 8 12 16 demo_infos 512 demo_heap demo_pools (fun _ => []) 2 (region_pool KSimple (demo_region 2)) 100 NR_KMEM_FBUFFER
    demo_functions demo_heap_ok eq_refl ltac:(unfold W32; lia) ltac:(done)) as (m & q & E & Hc).
  assert (q = demo_block) as ->.
  { match type of E with ?x = _ => assert (match x with Ok (_, q) => q | _ => 0 end = demo_block) as Hx by (vm_compute; reflexivity) end.
    rewrite E in Hx. exact Hx. }
  destruct Hc as [[Hn _]|(_ & Hp & Ha & _)].
  { assert (isValid demo_block = true) as Hv by (vm_compute; reflexivity). rewrite Hn in Hv. discriminate Hv. }
  exists m, (Lock 0 0). eapply heap_ok_step; [exact demo_heap_ok|reflexivity|exact Ha|exact Hp| |reflexivity|reflexivity].
  intros j Hj. unfold add_live. by rewrite decide_False.
Qed.

Lemma kfree_returns_block_witness : exists k k' rest,
  heap_ok 4 8 12 16 demo_infos 512 k demo_pools (add_live 2 (demo_block, 104) (fun _ => [])) /\
  kfree 8 16 demo_infos 512 k demo_block = Ok k' /\
  heap_wf 4 8 12 16 demo_infos 512 k' demo_pools (set_live 2 rest (add_live 2 (demo_block, 104) (fun _ => []))) /\ rest = [].
Proof.
  destruct demo_served as (m & l & Hk). eexists. pose proof (proj1 (heap_ok_split 4 8 12 16 demo_infos 512 _ _ _) Hk) as [Hw Hcl].
  destruct (proj1 (kfree_returns_block 4 8 12 16 demo_infos 512 _ demo_pools _ demo_block demo_functions Hw) Hcl 2%nat 104) as (k' & rest & E & _ & Hp & Hk' & _ & _);
    [unfold add_live; rewrite decide_True by reflexivity; left|lia|].
  exists k', rest. split; [exact Hk|]. split; [exact E|]. split; [exact Hk'|].
  unfold add_live in Hp. rewrite decide_True in Hp by reflexivity. apply Permutation_cons_inv in Hp. by apply Permutation_nil_r.
Defined.
