(* ===== verification/HeapContract.v ===== *)
(** * What the kernel heap promises to its clients

    The clients of [kmalloc] and [kfree] (thread.c, mailbox.c) are verified
    against this contract: a request returns null or an aligned block apart from
    all live ones, a release takes a block out, and writing inside a live block, or to
    storage the heap does not own, does not disturb it.  The processor is passed
    through both operations because they take the pool's lock.

    The heap of KMalloc.v meets the contract when the kernel pool is run by the
    first-fit allocator of mem_simple.c (end of this file); that is the one
    instance.  [fwk_mempool_initial], which start_kernel calls, runs the kernel pool
    with the segregated allocator of mem_block.c.  That one meets the contract for
    every request but an exact fit of the rest of a used block (KMallocSpec.v:
    [kmalloc_serves] with [kind_permits], [kfree_returns_block] with
    [pools_clean]): such a request is served, but releasing its block writes
    outside of the pool ([exact_fit_release_writes_outside]).  What is proved of
    the clients below is therefore proved of the kernel as it boots for runs
    without an exact fit. *)

From stdpp Require Import prelude gmap fin_maps sorting.
From S2P Require Import Prelude Mem ListHead MemPool MemOps MemBlock MemBlockSpec MemSimple PoolClient Sync Wait KMalloc KMallocSpec.

Definition cpu_ok (c : cpu) : Prop := 0 <= g_sched_preempt_cnt c < W32 - 1.
(** Flags that name the kernel pool and no other. *)
Definition kernel_flags (flags : Z) : Prop := pool_of_flags flags = Some (Some FWK_MEMPOOL_KERNEL).

Class KernelHeap (H : Type) := {
  heap_alloc : cpu -> H -> Z -> Z -> res (Z * cpu * H);      (* kmalloc(size, flags) *)
  heap_free : cpu -> H -> Z -> res (cpu * H);                (* kfree(ptr) *)
  heap_fill : H -> Z -> Z -> Z -> H;                         (* memset(ptr, value, size) *)
  heap_copy : H -> Z -> Z -> Z -> H;                         (* memcpy(dest, src, size) *)
  heap_read : H -> Z -> Z;                                   (* the byte at an address *)
  heap_inv : H -> list (Z * Z) -> Prop;                      (* the live blocks *)
  heap_static : Z -> Z -> Prop;                              (* storage outside the heap *)
  heap_inv_perm h L L' : L ≡ₚ L' -> heap_inv h L -> heap_inv h L';
  heap_inv_blocks h L : heap_inv h L -> disjoint_allocs L /\ forall q s, (q, s) ∈ L -> 0 < q /\ 0 <= s /\ q + s <= W32 - 4096;
  heap_alloc_spec c h L size flags : cpu_ok c -> heap_inv h L -> kernel_flags flags -> 0 <= size <= W32 - 40 ->
    exists q h', heap_alloc c h size flags = Ok (q, c, h') /\
      ((q = nullptr /\ heap_inv h' L) \/ (isValid q = true /\ heap_inv h' ((q, mrt_num_align8 size) :: L))) /\
      (forall a n x, heap_static a n \/ (a, n) ∈ L -> a <= x < a + n -> heap_read h' x = heap_read h x);
  heap_free_spec c h L q s : cpu_ok c -> heap_inv h ((q, s) :: L) -> 0 < s ->
    exists h', heap_free c h q = Ok (c, h') /\ heap_inv h' L /\
      (forall a n x, heap_static a n \/ (a, n) ∈ L -> a <= x < a + n -> heap_read h' x = heap_read h x);
  heap_fill_live h L q s a v n : heap_inv h L -> (q, s) ∈ L -> 0 <= n -> q <= a -> a + n <= q + s -> heap_inv (heap_fill h a v n) L;
  heap_fill_static h L a v n : heap_inv h L -> heap_static a n -> heap_inv (heap_fill h a v n) L;
  heap_copy_live h L q s a src n : heap_inv h L -> (q, s) ∈ L -> 0 <= n -> q <= a -> a + n <= q + s ->
    0 < src -> src + n < W32 -> src + n <= a \/ a + n <= src ->
    heap_inv (heap_copy h a src n) L /\ (forall i, 0 <= i < n -> heap_read (heap_copy h a src n) (a + i) = heap_read h (src + i)) /\
    (forall x, ~ (a <= x < a + n) -> heap_read (heap_copy h a src n) x = heap_read h x);
  heap_static_live h L a n q s : heap_inv h L -> heap_static a n -> (q, s) ∈ L -> a + n <= q \/ q + s <= a;
  heap_inv_aligned h L q s : heap_inv h L -> (q, s) ∈ L -> (8 | q);
}.

(** A heap that holds the blocks [L], and perhaps others that a running operation
    has taken meanwhile, refuses a request of [size] bytes. *)
Definition out_of_memory `{KernelHeap H} (L : list (Z * Z)) (size : Z) : Prop :=
  exists c h X q h' flags, heap_inv h (X ++ L) /\ heap_alloc c h size flags = Ok (q, c, h') /\ isValid q = false.
Lemma refused_memory `{KernelHeap H} c h X L size flags h' :
  heap_inv h X -> heap_alloc c h size flags = Ok (nullptr, c, h') -> L `suffix_of` X -> out_of_memory L size.
Proof. intros Hh E [Y ->]. by exists c, h, Y, nullptr, h', flags. Qed.
Lemma out_of_memory_suffix `{KernelHeap H} L X size : L `suffix_of` X -> out_of_memory X size -> out_of_memory L size.
Proof. intros [Y ->] (c & h & Z & q & h' & flags & Hh & E & Hq). exists c, h, (Z ++ Y), q, h', flags. by rewrite <- app_assoc. Qed.
Ltac block_suffix := repeat first [reflexivity|apply suffix_cons_r|apply suffix_app_r].

(** ** The kernel heap over the first-fit allocator *)
Section simple.
Context (block_alloc block_free simple_alloc simple_free infos : Z) (fuel : nat).
Context (functions : functions_ok block_alloc block_free simple_alloc simple_free).
Context (C : list (option pool)) (p : pool) (kernel_pool : C !! FWK_MEMPOOL_KERNEL = Some (Some p)) (simple_pool : p_kind p = KSimple).
Local Notation heap_ok := (heap_ok block_alloc block_free simple_alloc simple_free infos fuel).

Definition on_cpu (c : cpu) (k : kheap) : kheap := KHeap (kh_mem k) (kh_locks k) (kh_wqh k) c.
Definition k_inv (k : kheap) (L : list (Z * Z)) : Prop :=
  exists Lf, heap_ok k C Lf /\ Lf FWK_MEMPOOL_KERNEL ≡ₚ L.
Definition k_static (a n : Z) : Prop :=
  0 < a /\ 0 <= n /\ a + n < W32 /\ apart_ranges infos (infos + 4 * info_size) a (a + n) /\
  forall i q, C !! i = Some (Some q) -> apart_ranges (p_start q) (p_end q) a (a + n).

Lemma heap_ok_cpu k Lf c : cpu_ok c -> heap_ok k C Lf -> heap_ok (on_cpu c k) C Lf.
Proof. intros Hc [H1 H2 H3 H4 _]. by split. Qed.

Lemma heap_ok_write k Lf m' :
  heap_ok k C Lf -> (forall x, infos <= x < infos + 4 * info_size -> m' x = kh_mem k x) ->
  (forall i q bs x, C !! i = Some (Some q) -> kind_ok (p_kind q) (kh_mem k) (mem_info infos i) (p_start q) (p_end q) bs ->
     owned (mem_info infos i) bs x -> allocs bs ≡ₚ Lf i -> m' x = kh_mem k x) ->
  heap_ok (with_mem m' k) C Lf.
Proof.
  intros [Hly Hp Hlk Ho Hc] Hi Hb. split; try done. intros i op Hop. specialize (Hp i op Hop).
  assert (forall y, 0 <= y < info_size -> m' (mem_info infos i + y) = kh_mem k (mem_info infos i + y)) as He.
  { intros y Hy. apply Hi. pose proof (info_inside infos i). pose proof (lookup_lt_Some _ _ _ Hop) as Hlt.
    rewrite (ly_len _ _ _ Hly) in Hlt. specialize (H Hlt). lia. }
  destruct op as [q|]; simpl in *.
  - destruct Hp as ((bs & Hok & Hal) & Ea & Ef). rewrite !He by (unfold info_alloc, info_free, info_size; lia). split; [|done].
    exists bs. split; [|done]. eapply pool_write; [exact Hok|]. intros x Hx. by eapply Hb.
  - by rewrite !He by (unfold info_alloc, info_base, info_lenth, info_size; lia).
Qed.

Lemma kmemset_out m a v n x : 0 < a -> a + n < W32 -> 0 <= n -> ~ (a <= x < a + n) -> kmemset m a v n x = m x.
Proof.
  intros Ha Hw Hn Hx. unfold kmemset. rewrite (proj2 (Z.eqb_neq a 0)), u32_id by lia.
  destruct (Z.leb_spec a x), (Z.ltb_spec x (a + n)); simpl; try done. lia.
Qed.
Lemma owned_apart k Lf i q bs x a n : heap_ok k C Lf -> C !! i = Some (Some q) ->
  kind_ok (p_kind q) (kh_mem k) (mem_info infos i) (p_start q) (p_end q) bs -> owned (mem_info infos i) bs x ->
  apart_ranges infos (infos + 4 * info_size) a (a + n) -> apart_ranges (p_start q) (p_end q) a (a + n) -> ~ (a <= x < a + n).
Proof.
  intros Hk Hi Hok Ho Ha Hb. pose proof (lookup_lt_Some _ _ _ Hi) as Hlt. rewrite (ly_len _ _ _ (hk_layout _ _ _ _ _ _ _ _ _ Hk)) in Hlt.
  pose proof (info_inside infos i Hlt). destruct (owned_inside _ _ _ _ _ _ _ Hok Ho); unfold apart_ranges, info_alloc, info_size in *; lia.
Qed.

(** Writes inside one live block disturb nothing the heap owns. *)
Lemma heap_ok_block k Lf q s m' :
  heap_ok k C Lf -> (q, s) ∈ Lf FWK_MEMPOOL_KERNEL -> agree (fun x => ~ (q <= x < q + s)) (kh_mem k) m' -> heap_ok (with_mem m' k) C Lf.
Proof.
  intros Hk Hq Hm. pose proof (heap_bounds _ _ _ _ _ _ _ _ _ _ _ _ _ Hk kernel_pool Hq) as Hbd.
  pose proof (hk_layout _ _ _ _ _ _ _ _ _ Hk) as Hly. pose proof (ly_infos _ _ _ Hly _ _ kernel_pool) as Hinf.
  apply heap_ok_write; [done|intros x Hx; apply Hm; unfold apart_ranges in *; lia|].
  intros i pi bi x Hi Hok Ho Hal. apply Hm. destruct (decide (i = FWK_MEMPOOL_KERNEL)) as [->|Hne].
  - intros Hx. simplify_eq. destruct (kind_payload _ _ _ _ _ _ q s x Hok) as [Hno _]; [by rewrite Hal|lia|done].
  - pose proof (ly_apart _ _ _ Hly _ _ _ _ Hi kernel_pool Hne). eapply (owned_apart k Lf i pi bi); try done; unfold apart_ranges in *; lia.
Qed.

(** Cells that clients may rely on: of live blocks, or static. *)
Lemma stable_cells k k' Lf L :
  Lf FWK_MEMPOOL_KERNEL ≡ₚ L ->
  (forall j r t x, (r, t) ∈ Lf j -> r <= x < r + t -> kh_mem k' x = kh_mem k x) ->
  (forall x, off_heap infos C x -> kh_mem k' x = kh_mem k x) ->
  forall a n x, k_static a n \/ (a, n) ∈ L -> a <= x < a + n -> kh_mem k' x = kh_mem k x.
Proof.
  intros HL Hl Ho a n x [(_ & _ & _ & Hinf & Hp)|Hin] Hx; [|eapply Hl; [rewrite HL; exact Hin|done]].
  apply Ho. split; [unfold apart_ranges in *; lia|]. intros i q Hi. specialize (Hp i q Hi). unfold apart_ranges in *. lia.
Qed.

#[export] Instance simple_kernel_heap : KernelHeap kheap.
Proof.
  refine {| heap_alloc c k size flags := '(q, k) ← kmalloc block_alloc simple_alloc infos fuel (on_cpu c k) size flags; Ok (q, kh_cpu k, k);
            heap_free c k q := k ← kfree block_free simple_free infos fuel (on_cpu c k) q; Ok (kh_cpu k, k);
            heap_fill k a v n := with_mem (fst (memset (kh_mem k) a v n)) k;
            heap_copy k a src n := with_mem (fst (memcpy (kh_mem k) a src n)) k;
            heap_read k := kh_mem k; heap_inv := k_inv; heap_static := k_static |}.
  - intros h L L' HL (Lf & Hk & HLf). exists Lf. by rewrite HLf.
  - intros h L (Lf & Hk & HLf). destruct (hk_pools _ _ _ _ _ _ _ _ _ Hk _ _ kernel_pool) as ((bs & Hok & Hal) & _).
    pose proof (pool_ok_frame _ _ _ _ _ Hok) as [Hfr Ht]. destruct (pf_arena _ _ _ _ Hfr). split.
    + eapply disjoint_allocs_perm; [|by eapply tiles_allocs_disjoint]. by rewrite Hal, HLf.
    + intros q s Hq. rewrite <- HLf in Hq. pose proof (heap_bounds _ _ _ _ _ _ _ _ _ _ _ _ _ Hk kernel_pool Hq). lia.
  - intros c h L size flags Hc (Lf & Hk & HLf) Hfl Hs.
    destruct (kmalloc_spec block_alloc block_free simple_alloc simple_free infos fuel (on_cpu c h) C Lf _ p size flags functions
      (heap_ok_cpu _ _ _ Hc Hk) Hfl kernel_pool Hs) as (q & k' & E & Ecpu & Hcase); [by intros bs _; rewrite simple_pool|].
    exists q, k'. rewrite E. cbn [mbind res_bind]. split; [by rewrite Ecpu|].
    destruct Hcase as [(? & ? & Em)|(? & Hk' & _ & Hl & Ho & _)].
    + split; [left; split; [done|by exists Lf]|]. intros a n x _ _. by rewrite Em.
    + split; [right; split; [done|]|by eapply (stable_cells h k' Lf)]. eexists. split; [exact Hk'|]. unfold add_live. rewrite decide_True by done. by rewrite HLf.
  - intros c h L q s Hc (Lf & Hk & HLf) Hs.
    destruct (kfree_spec block_alloc block_free simple_alloc simple_free infos fuel (on_cpu c h) C Lf q functions (heap_ok_cpu _ _ _ Hc Hk) FWK_MEMPOOL_KERNEL s)
      as (k' & rest & E & Ecpu & HP & Hk' & Hl & Ho); [rewrite HLf; by left|done|].
    exists k'. rewrite E. cbn [mbind res_bind]. split; [by rewrite Ecpu|]. rewrite HLf in HP. apply Permutation_cons_inv in HP.
    assert (set_live FWK_MEMPOOL_KERNEL rest Lf FWK_MEMPOOL_KERNEL ≡ₚ L) as HL' by (unfold set_live; by rewrite decide_True).
    split; [by eexists|]. by eapply (stable_cells h k' (set_live FWK_MEMPOOL_KERNEL rest Lf)).
  - intros h L q s a v n (Lf & Hk & HLf) Hq Hn Ha He. exists Lf. split; [|done]. rewrite <- HLf in Hq.
    pose proof (heap_bounds _ _ _ _ _ _ _ _ _ _ _ _ _ Hk kernel_pool Hq) as Hbd.
    destruct (hk_pools _ _ _ _ _ _ _ _ _ Hk _ _ kernel_pool) as ((bs & [Hfr _]%pool_ok_frame & _) & _). destruct (pf_arena _ _ _ _ Hfr).
    eapply heap_ok_block; [done|exact Hq|]. intros x Hx. simpl. apply kmemset_out; lia.
  - intros h L a v n (Lf & Hk & HLf) (Ha & Hn & Hw & Hinf & Hpools). exists Lf. split; [|done]. apply heap_ok_write; [done|..].
    + intros x Hx. simpl. apply kmemset_out; unfold apart_ranges in *; lia.
    + intros i pi bi x Hi Hok Ho Hal. simpl. apply kmemset_out; [lia..|]. eapply (owned_apart h Lf i pi bi); try done. by eapply Hpools.
  - intros h L q s a src n (Lf & Hk & HLf) Hq Hn Ha He Hs Hw Hap. rewrite <- HLf in Hq.
    pose proof (heap_bounds _ _ _ _ _ _ _ _ _ _ _ _ _ Hk kernel_pool Hq) as Hbd.
    destruct (hk_pools _ _ _ _ _ _ _ _ _ Hk _ _ kernel_pool) as ((bs & [Hfr _]%pool_ok_frame & _) & _). destruct (pf_arena _ _ _ _ Hfr).
    unfold memcpy, kmemcpy. rewrite (proj2 (Z.eqb_neq a 0)), (proj2 (Z.eqb_neq src 0)) by lia. cbn [orb]. rewrite copy_count_fits by lia.
    destruct (kmemcpy_loop_spec (Z.to_nat n) (kh_mem h) a src) as (m' & E & Hc & Hm); [lia|]. rewrite E. rewrite Z2Nat.id in * by lia. simpl.
    split_and!; try done. exists Lf. split; [|done]. eapply heap_ok_block; [done|exact Hq|]. intros x Hx. apply Hm. lia.
  - intros h L a n q s (Lf & Hk & HLf) (_ & _ & _ & _ & Hpools) Hq. rewrite <- HLf in Hq.
    pose proof (heap_bounds _ _ _ _ _ _ _ _ _ _ _ _ _ Hk kernel_pool Hq). pose proof (Hpools _ _ kernel_pool). unfold apart_ranges in *. lia.
  - intros h L q s (Lf & Hk & HLf) Hq. rewrite <- HLf in Hq. destruct (hk_pools _ _ _ _ _ _ _ _ _ Hk _ _ kernel_pool) as ((bs & [_ Ht]%pool_ok_frame & Hal) & _).
    destruct (tiles_allocs _ _ _ _ q s Ht) as (? & _); [by rewrite Hal|done].
Defined.
End simple.

(** ** An example: a kernel pool of 16 KiB made by [memory_block_self_defines] *)
Definition demo_kpools : list (option pool) := [None; Some (region_pool KSimple (demo_region 1)); None; None].
Definition demo_kheap : kheap :=
  snd (memory_block_self_defines 12 16 demo_infos (-1) (demo_region 1).1 (demo_region 1).2 demo_zero).

Lemma demo_kheap_ok : heap_ok 4 8 12 16 demo_infos 512 demo_kheap demo_kpools (fun _ => []).
Proof.
  assert (region 512 (demo_region 1)) as Hr by (unfold region, W32; simpl; lia).
  assert (layout_ok demo_infos 512 demo_kpools) as Hly.
  { pose proof (region_start 512 KSimple _ Hr). unfold region, W32 in Hr. split; [done|..].
    - intros [|[|[|[|i]]]] p [= <-]. unfold apart_ranges, info_size, demo_infos in *. simpl in *. lia.
    - intros [|[|[|[|i]]]] [|[|[|[|j]]]] p q [= <-] [= <-] Hne. done.
    - intros [|[|[|[|i]]]] p [= <-]. simpl in *. lia. }
  destruct (fresh_simple 4 8 12 16 demo_infos 512 (kh_mem demo_zero) 1 (demo_region 1)) as (m & E & Hp & Ha); try done.
  { unfold FWK_MEMPOOL_TYPE_MAX. lia. } { unfold apart_ranges, demo_infos, info_size. simpl. lia. }
  assert (demo_kheap = reset_pool 1 (with_mem m demo_zero)) as ->.
  { unfold demo_kheap, memory_block_self_defines, self_pool. cbn [Z.ltb Z.compare]. change FWK_MEMPOOL_KERNEL with 1%nat.
    simpl kh_mem. cbn [isValid Z.eqb negb andb]. simpl kh_mem in E. by rewrite E. }
  assert (stage 4 8 12 16 demo_infos demo_kpools 1 m) as Hs.
  { eapply stage_next; [done| |done|exact Hp|exact Ha]. intros [|[|[|[|j]]]] op [= <-]; done. }
  split; [done|..|done|done].
  - intros j op Hj. specialize (Hs j op Hj). simpl kh_mem. destruct j as [|[|[|[|j]]]]; [| | | |done]; simplify_eq/=; [exact Hs..|apply Hs|apply Hs].
  - intros [|[|[|[|j]]]] op [= <-]; by eexists.
Qed.

#[export] Instance demo_kernel_heap : KernelHeap kheap :=
  simple_kernel_heap 4 8 12 16 demo_infos 512 demo_functions demo_kpools (region_pool KSimple (demo_region 1)) eq_refl eq_refl.
Lemma demo_kheap_inv : heap_inv demo_kheap [].
Proof. exists (fun _ => []). split; [exact demo_kheap_ok|done]. Qed.
Lemma demo_heap_static a n : 4096 <= a -> 0 <= n -> a + n <= 65536 -> heap_static a n.
Proof.
  intros Ha Hn He. change (k_static demo_infos demo_kpools a n). unfold k_static, apart_ranges, demo_infos, info_size, W32. split_and!; try lia.
  intros [|[|[|[|i]]]] q [= <-]. right. change (p_start (region_pool KSimple (demo_region 1))) with 65536. lia.
Qed.
