(* ===== verification/Thread.v ===== *)
(** * Creating threads (kernel/thread.c, include/kernel/thread.h)

    Attributes and thread control blocks are records kept at the addresses of
    their blocks; the blocks themselves come from a kernel heap (HeapContract.v)
    and every [memset] also reaches the heap's memory.  The scheduler is that of
    Sched.v, which sees of a thread the words it uses. *)

From stdpp Require Import prelude gmap fin_maps sorting.
From S2P Require Import Prelude Mem MemPool Sync Generic KTime Sched Sleep KMalloc HeapContract.

Definition THREAD_USER : Z := 1.
Definition THREAD_TID_BASE : Z := 1.
Definition THREAD_TID_INIT : Z := 2.
Definition THREAD_STACK8 (byte : Z) : Z := mrt_align byte 4.
Definition THREAD_STACK_MIN : Z := THREAD_STACK8 512.
Definition THREAD_STACK_DEFAULT : Z := THREAD_STACK8 2056.
Definition THREAD_PROTY_DEFAULT : Z := 80.
Definition THREAD_PROTY_MAX : Z := 0.
Definition THREAD_PROTY_IDLE : Z := 98.
Definition THREAD_PROTY_KERNEL : Z := THREAD_PROTY_MAX.
Definition THREAD_PROTY_INIT : Z := THREAD_PROTY_KERNEL + 1.
Definition THREAD_PROTY_KWORKER : Z := THREAD_PROTY_KERNEL + 1.
Definition THREAD_STACK_HALF (page : Z) : Z := THREAD_STACK8 (u32 (Z.shiftl page 11)).
Definition THREAD_STACK_QUAR (page : Z) : Z := THREAD_STACK8 (u32 (Z.shiftl page 10)).
Definition THREAD_TIME_DEFUALT : Z := 40.
Definition THREAD_CREATE_JOINABLE : Z := 0.
Definition THREAD_INHERIT_SCHED : Z := 0.
Definition THREAD_SCHED_FIFO : Z := 1.
(** Eighteen words of [struct scheduler_context_regs]. *)
Definition sizeof_regs : Z := 72.

(** ** Attributes *)
Record thread_attr := Attr {
  detachstate : Z;
  schedpolicy : Z;
  inheritsched : Z;
  sched_priority : Z;
  sched_curpriority : Z;
  mrt_sched_init_budget : time_spec;
  ptr_stack_start : Z;
  stack_addr : Z;
  stacksize : Z;
}.
Definition zero_attr : thread_attr := Attr 0 0 0 0 0 (TimeSpec 0 0) 0 0 0.

Definition thread_get_priority (a : thread_attr) : Z := u32 (sched_curpriority a).
Definition thread_set_priority (priority : Z) (a : thread_attr) : thread_attr :=
  let p := s32 (if __THREAD_IS_LOW_PRIO priority THREAD_PROTY_MAX then priority else THREAD_PROTY_MAX) in
  Attr (detachstate a) (schedpolicy a) (inheritsched a) p p (mrt_sched_init_budget a) (ptr_stack_start a) (stack_addr a) (stacksize a).
Definition thread_set_time_slice (mseconds : Z) (a : thread_attr) : thread_attr :=
  Attr (detachstate a) (schedpolicy a) (inheritsched a) (sched_priority a) (sched_curpriority a) (msecs_to_time_spec mseconds)
    (ptr_stack_start a) (stack_addr a) (stacksize a).
Definition thread_get_sched_msecs (a : thread_attr) : Z := time_spec_to_msecs (mrt_sched_init_budget a).
Definition thread_attr_setstacksize (size : Z) (a : thread_attr) : thread_attr :=
  Attr (detachstate a) (schedpolicy a) (inheritsched a) (sched_priority a) (sched_curpriority a) (mrt_sched_init_budget a)
    (ptr_stack_start a) (stack_addr a) (if THREAD_STACK_MIN <=? size then size else THREAD_STACK_MIN).
Definition thread_attr_getstacksize (a : thread_attr) : Z := stacksize a.
Definition thread_attr_setdetachstate (state : Z) (a : thread_attr) : thread_attr :=
  Attr (s32 state) (schedpolicy a) (inheritsched a) (sched_priority a) (sched_curpriority a) (mrt_sched_init_budget a)
    (ptr_stack_start a) (stack_addr a) (stacksize a).
Definition thread_attr_getdetachstate (a : thread_attr) : Z := u32 (detachstate a).
Definition thread_attr_setinheritsched (sched : Z) (a : thread_attr) : thread_attr :=
  Attr (detachstate a) (schedpolicy a) (s32 sched) (sched_priority a) (sched_curpriority a) (mrt_sched_init_budget a)
    (ptr_stack_start a) (stack_addr a) (stacksize a).
Definition thread_attr_getinheritsched (a : thread_attr) : Z := u32 (inheritsched a).
Definition thread_attr_setschedpolicy (policy : Z) (a : thread_attr) : thread_attr :=
  Attr (detachstate a) (s32 policy) (inheritsched a) (sched_priority a) (sched_curpriority a) (mrt_sched_init_budget a)
    (ptr_stack_start a) (stack_addr a) (stacksize a).
Definition thread_attr_getschedpolicy (a : thread_attr) : Z := u32 (schedpolicy a).
Definition mrt_is_timespec_empty (t : time_spec) : bool := (tv_sec t =? 0) && (tv_nsec t =? 0).

(** The saved registers of a thread that does not run. *)
Definition thread_get_context (a : thread_attr) : Z :=
  let base := u32 (stack_addr a + sizeof_regs) in
  u32 (mrt_align base 8 - sizeof_regs).

(** Top of a stack: 16 bytes are left free, the registers come below them. *)
Definition stack_top (ptr_stack size : Z) : Z :=
  let top := u32 (ptr_stack + size) in
  let top := mrt_ralign (u32 (top - 16)) 8 in
  let top := u32 (top - sizeof_regs) in
  mrt_ralign top 8.
Definition with_stack (ptr_dync ptr_stack size : Z) (a : thread_attr) : thread_attr :=
  Attr (detachstate a) (schedpolicy a) (inheritsched a) (sched_priority a) (sched_curpriority a) (mrt_sched_init_budget a)
    ptr_dync (stack_top ptr_stack size) size.

(** ** Threads over a heap *)
Record tcb := Tcb { tcb_tid : Z; tcb_attr : Z; start_routine : Z; ptr_args : Z }.

Section threads.
Context {H : Type} `{KernelHeap H} (sizeof_attr sizeof_thread : Z).

Record tsys := TSys {
  ts_sched : sched;
  ts_heap : H;
  ts_attrs : gmap Z thread_attr;
  ts_tcbs : gmap Z tcb;
  ts_slots : gmap Z Z;                     (* tid -> its struct thread *)
}.

(** [memset(sprt_attr, 0, sizeof(struct thread_attr))] *)
Definition clear_attr (sprt_attr : Z) (st : tsys) : tsys :=
  TSys (ts_sched st) (heap_fill (ts_heap st) sprt_attr 0 sizeof_attr) (<[sprt_attr := zero_attr]> (ts_attrs st)) (ts_tcbs st) (ts_slots st).
Definition upd_attr (f : thread_attr -> thread_attr) (sprt_attr : Z) (st : tsys) : tsys :=
  TSys (ts_sched st) (ts_heap st) (alter f sprt_attr (ts_attrs st)) (ts_tcbs st) (ts_slots st).
Definition on_sched (s : sched) (st : tsys) : tsys := TSys s (ts_heap st) (ts_attrs st) (ts_tcbs st) (ts_slots st).

Definition t_kmalloc (size flags : Z) (st : tsys) : res (Z * tsys) :=
  '(q, c, h) ← heap_alloc (s_cpu (ts_sched st)) (ts_heap st) size flags;
  Ok (q, TSys (set_cpu c (ts_sched st)) h (ts_attrs st) (ts_tcbs st) (ts_slots st)).
Definition t_kzalloc (size flags : Z) := t_kmalloc size (Z.lor flags GFP_ZERO).
(** A freed block's record is gone. *)
Definition t_kfree (ptr : Z) (st : tsys) : res tsys :=
  '(c, h) ← heap_free (s_cpu (ts_sched st)) (ts_heap st) ptr;
  Ok (TSys (set_cpu c (ts_sched st)) h (delete ptr (ts_attrs st)) (delete ptr (ts_tcbs st)) (ts_slots st)).

Definition thread_set_stack (sprt_attr ptr_dync ptr_stack size : Z) (st : tsys) : res (Z * tsys) :=
  if negb (isValid ptr_stack) || (size <? THREAD_STACK_MIN) then Ok (nullptr, st)
  else if negb (ptr_dync =? 0) && negb (ptr_dync =? ptr_stack) then Ok (nullptr, st)
  else
    a ← deref (ts_attrs st !! sprt_attr);
    st ← (if isValid (ptr_stack_start a) then t_kfree (ptr_stack_start a) st else Ok st);
    let a := with_stack ptr_dync ptr_stack size a in
    let st := upd_attr (fun _ => a) sprt_attr st in
    let st := TSys (ts_sched st) (heap_fill (ts_heap st) (thread_get_context a) 0 sizeof_regs) (ts_attrs st) (ts_tcbs st) (ts_slots st) in
    Ok (stack_addr a, st).

Definition thread_attr_init (sprt_attr : Z) (st : tsys) : res (Z * tsys) :=
  let st := clear_attr sprt_attr st in
  let st := upd_attr (fun a => Attr THREAD_CREATE_JOINABLE THREAD_SCHED_FIFO THREAD_INHERIT_SCHED (sched_priority a) (sched_curpriority a)
    (mrt_sched_init_budget a) (ptr_stack_start a) (stack_addr a) (stacksize a)) sprt_attr st in
  '(ptr_stack, st) ← t_kzalloc THREAD_STACK_DEFAULT GFP_KERNEL st;
  if negb (isValid ptr_stack) then Ok (nullptr, st)
  else
    '(_, st) ← thread_set_stack sprt_attr ptr_stack ptr_stack THREAD_STACK_DEFAULT st;
    let st := upd_attr (thread_set_priority THREAD_PROTY_DEFAULT) sprt_attr st in
    let st := upd_attr (thread_set_time_slice THREAD_TIME_DEFUALT) sprt_attr st in
    a ← deref (ts_attrs st !! sprt_attr);
    Ok (stack_addr a, st).

Definition thread_attr_revise (sprt_attr : Z) (st : tsys) : res (Z * tsys) :=
  if sprt_attr =? 0 then Ok (nullptr, st)
  else
    a ← deref (ts_attrs st !! sprt_attr);
    let st := if sched_priority a =? 0 then upd_attr (thread_set_priority THREAD_PROTY_DEFAULT) sprt_attr st else st in
    let st := if mrt_is_timespec_empty (mrt_sched_init_budget a) then upd_attr (thread_set_time_slice THREAD_TIME_DEFUALT) sprt_attr st else st in
    if stack_addr a =? 0 then
      '(ptr_stack, st) ← t_kzalloc THREAD_STACK_DEFAULT GFP_KERNEL st;
      if negb (isValid ptr_stack) then Ok (nullptr, st)
      else
        '(_, st) ← thread_set_stack sprt_attr ptr_stack ptr_stack THREAD_STACK_DEFAULT st;
        a ← deref (ts_attrs st !! sprt_attr);
        Ok (stack_addr a, st)
    else Ok (stack_addr a, st).

Definition thread_attr_destroy (sprt_attr : Z) (st : tsys) : res tsys :=
  if sprt_attr =? 0 then Ok st
  else
    a ← deref (ts_attrs st !! sprt_attr);
    st ← (if negb (ptr_stack_start a =? 0) then t_kfree (ptr_stack_start a) st else Ok st);
    Ok (clear_attr sprt_attr st).

(** An id in range without a thread is a null dereference. *)
Definition thread_attr_get (tid : Z) (st : tsys) : res Z :=
  if (0 <=? tid) && (tid <? THREAD_MAX_NUM) then
    p ← deref (ts_slots st !! tid); t ← deref (ts_tcbs st !! p); Ok (tcb_attr t)
  else Ok nullptr.

(** [register_new_thread] on the thread at [sprt_thread]. *)
Definition t_register (sprt_thread tid : Z) (st : tsys) : res (Z * tsys) :=
  t ← deref (ts_tcbs st !! sprt_thread);
  a ← deref (ts_attrs st !! tcb_attr t);
  '(retval, s) ← register_new_thread (Thread NR_THREAD_NONE NR_THREAD_NONE (thread_get_priority a) (stack_addr a) 0 0 (Lock 0 0)) tid (ts_sched st);
  Ok (retval, TSys s (ts_heap st) (ts_attrs st) (ts_tcbs st)
                (if 0 <=? retval then <[tid := sprt_thread]> (ts_slots st) else ts_slots st)).

(** The labels [fail], [fail2], [fail3] and [fail4] of [__thread_create]. *)
Definition create_fail (st : tsys) : res (Z * option Z * tsys) :=
  Ok (- ER_FAULT, None, on_sched (set_cpu (mrt_preempt_enable (s_cpu (ts_sched st))) (ts_sched st)) st).
Definition create_fail2 (sprt_attr sprt_it_attr : Z) (st : tsys) : res (Z * option Z * tsys) :=
  st ← (if negb (isValid sprt_attr) then t_kfree sprt_it_attr st else Ok st);
  create_fail st.
Definition create_fail3 (sprt_attr sprt_it_attr : Z) (st : tsys) : res (Z * option Z * tsys) :=
  st ← thread_attr_destroy sprt_it_attr st;
  create_fail2 sprt_attr sprt_it_attr st.
Definition create_fail4 (sprt_attr sprt_it_attr sprt_thread : Z) (st : tsys) : res (Z * option Z * tsys) :=
  st ← t_kfree sprt_thread st;
  create_fail3 sprt_attr sprt_it_attr st.

(** The ids tried; [base] is compared as an unsigned number. *)
Definition tid_range (base flags : Z) : Z * Z :=
  let '(i_start, count) :=
    if Z.land THREAD_USER flags =? THREAD_USER then (THREAD_TID_START, THREAD_MAX_NUM - THREAD_TID_START) else (0, THREAD_TID_START) in
  if (i_start <=? u32 base) && (u32 base <? i_start + count) then (u32 base, 1) else (i_start, count).

(** From the check of the attribute on. *)
Definition create_with_attr (tid sprt_attr sprt_it_attr pfunc args : Z) (ptr_id : bool) (st : tsys) : res (Z * option Z * tsys) :=
  '(ok, st) ← thread_attr_revise sprt_it_attr st;
  if ok =? 0 then create_fail3 sprt_attr sprt_it_attr st
  else
    '(sprt_thread, st) ← t_kzalloc sizeof_thread GFP_KERNEL st;
    if negb (isValid sprt_thread) then create_fail3 sprt_attr sprt_it_attr st
    else
      let st := TSys (ts_sched st) (ts_heap st) (ts_attrs st) (<[sprt_thread := Tcb tid sprt_it_attr pfunc args]> (ts_tcbs st)) (ts_slots st) in
      '(retval, st) ← t_register sprt_thread tid st;
      if retval <? 0 then create_fail4 sprt_attr sprt_it_attr sprt_thread st
      else
        Ok (ER_NORMAL, if ptr_id then Some tid else None,
            on_sched (set_cpu (mrt_preempt_enable (s_cpu (ts_sched st))) (ts_sched st)) st).

(** The result, what is stored through [ptr_id], and the state. *)
Definition __thread_create (ptr_id : bool) (base sprt_attr pfunc args flags : Z) (st : tsys) : res (Z * option Z * tsys) :=
  let st := on_sched (set_cpu (mrt_preempt_disable (s_cpu (ts_sched st))) (ts_sched st)) st in
  let '(i_start, count) := tid_range base flags in
  '(tid, s) ← get_unused_tid_from_scheduler i_start (Z.to_nat count) (ts_sched st);
  let st := on_sched s st in
  if tid <? 0 then create_fail st
  else if sprt_attr =? 0 then
    '(sprt_it_attr, st) ← t_kmalloc sizeof_attr GFP_KERNEL st;
    if negb (isValid sprt_it_attr) then create_fail st
    else
      '(ok, st) ← thread_attr_init sprt_it_attr st;
      if ok =? 0 then create_fail2 sprt_attr sprt_it_attr st
      else create_with_attr tid sprt_attr sprt_it_attr pfunc args ptr_id st
  else create_with_attr tid sprt_attr sprt_attr pfunc args ptr_id st.

Definition __kernel_thread_create (ptr_id : bool) (base sprt_attr pfunc args : Z) := __thread_create ptr_id base sprt_attr pfunc args 0.
Definition __real_user_thread_create (ptr_id : bool) (base sprt_attr pfunc args : Z) := __thread_create ptr_id base sprt_attr pfunc args THREAD_USER.
(** [new_tid] is read only after a successful call, which stored it. *)
Definition kernel_thread_create (tid sprt_attr pfunc args : Z) (st : tsys) : res (Z * tsys) :=
  if tid <? 0 then
    '(retval, new_tid, st) ← __kernel_thread_create true (-1) sprt_attr pfunc args st;
    if negb (retval =? 0) then Ok (-1, st) else new_tid ← deref new_tid; Ok (new_tid, st)
  else
    '(retval, _, st) ← __kernel_thread_create false tid sprt_attr pfunc args st;
    Ok (if negb (retval =? 0) then -1 else tid, st).
Definition thread_create (ptr_id : bool) (sprt_attr pfunc args : Z) := __real_user_thread_create ptr_id (-1) sprt_attr pfunc args.
Definition kernel_thread_idle_create (sprt_attr pfunc args : Z) := __kernel_thread_create false THREAD_TID_IDLE sprt_attr pfunc args.
Definition kernel_thread_base_create (sprt_attr pfunc args : Z) := __kernel_thread_create false THREAD_TID_BASE sprt_attr pfunc args.
Definition kernel_thread_init_create (sprt_attr pfunc args : Z) := __kernel_thread_create false THREAD_TID_INIT sprt_attr pfunc args.

(** ** The kernel's own threads (kernel/kthread/)

    Attributes and stacks are static; a stack is an array of words.  Each entry
    point is an address; names are not modelled. *)
Definition setup_attr (sprt_attr stack size priority : Z) (st : tsys) : res tsys :=
  _ ← deref (ts_attrs st !! sprt_attr);
  let st := upd_attr (fun a => Attr THREAD_CREATE_JOINABLE THREAD_SCHED_FIFO THREAD_INHERIT_SCHED (sched_priority a) (sched_curpriority a)
    (mrt_sched_init_budget a) (ptr_stack_start a) (stack_addr a) (stacksize a)) sprt_attr st in
  '(_, st) ← thread_set_stack sprt_attr nullptr stack size st;
  let st := upd_attr (thread_set_priority priority) sprt_attr st in
  Ok (upd_attr (thread_set_time_slice THREAD_TIME_DEFUALT) sprt_attr st).

Definition rest_init (sgrt_idle_attr g_idle_stack rest_entry : Z) (st : tsys) : res (Z * tsys) :=
  st ← setup_attr sgrt_idle_attr g_idle_stack (4 * THREAD_STACK_QUAR 1) THREAD_PROTY_IDLE st;
  '(r, _, st) ← kernel_thread_idle_create sgrt_idle_attr rest_entry nullptr st; Ok (r, st).
Definition kthread_init (sgrt_kthread_attr g_kthread_stack kthread_entry : Z) (st : tsys) : res (Z * tsys) :=
  st ← setup_attr sgrt_kthread_attr g_kthread_stack (4 * THREAD_STACK_HALF 1) THREAD_PROTY_KERNEL st;
  '(r, _, st) ← kernel_thread_base_create sgrt_kthread_attr kthread_entry nullptr st; Ok (r, st).
Definition init_proc_init (sgrt_init_proc_attr g_init_proc_stack init_proc_entry : Z) (st : tsys) : res (Z * tsys) :=
  st ← setup_attr sgrt_init_proc_attr g_init_proc_stack (4 * THREAD_STACK_HALF 1) THREAD_PROTY_INIT st;
  '(r, _, st) ← kernel_thread_init_create sgrt_init_proc_attr init_proc_entry nullptr st; Ok (r, st).
(** The second result is [g_kworker_tid]. *)
Definition kworker_init (sgrt_kworker_attr g_kworker_stack kworker_entry : Z) (st : tsys) : res (Z * Z * tsys) :=
  st ← setup_attr sgrt_kworker_attr g_kworker_stack (4 * THREAD_STACK_HALF 1) THREAD_PROTY_KWORKER st;
  '(g_kworker_tid, st) ← kernel_thread_create (-1) sgrt_kworker_attr kworker_entry nullptr st;
  Ok (if 0 <=? g_kworker_tid then ER_NORMAL else - ER_FAILD, g_kworker_tid, st).
End threads.

(** ** A thread's own pool

    [attr] is the attribute of the current thread, [None] before the first one
    runs; its descriptor is at [attr + off_pool]. *)
Section pool.
Context (block_alloc block_free simple_alloc simple_free off_pool : Z).

Definition thread_create_mempool (fuel : nat) (m : mem) (sprt_attr base size : Z) : res (mem * Z) :=
  if negb (isValid base) then Ok (m, PTR_ERR base)
  else if negb (Z.land base 7 =? 0) then Ok (m, - ER_NOTALIGN)
  else MemBlock.memory_block_create block_alloc block_free fuel m (sprt_attr + off_pool) base size.
Definition thread_release_mempool (m : mem) (sprt_attr : Z) : mem :=
  if negb (m (sprt_attr + off_pool + info_mem) =? 0) then MemBlock.memory_block_destroy m (sprt_attr + off_pool) else m.
Definition tmalloc (fuel : nat) (m : mem) (current : option Z) (__size flags : Z) : res (mem * Z) :=
  match current with
  | None => Ok (m, nullptr)
  | Some attr =>
      if negb (GFP_KERNEL =? Z.land flags GFP_KERNEL) then Ok (m, nullptr)
      else
        let sprt_info := attr + off_pool in
        if negb (m (sprt_info + info_alloc) =? 0) then
          '(m, p) ← call_alloc block_alloc simple_alloc fuel m sprt_info __size;
          if negb (isValid p) then Ok (m, nullptr)
          else Ok (if has_flag flags NR_KMEM_ZERO then kmemzero m p __size else m, p)
        else Ok (m, nullptr)
  end.
Definition tcalloc (fuel : nat) (m : mem) (current : option Z) (__size __n flags : Z) := tmalloc fuel m current (u32 (__size * __n)) flags.
Definition tzalloc (fuel : nat) (m : mem) (current : option Z) (__size flags : Z) := tmalloc fuel m current __size (Z.lor flags GFP_ZERO).
Definition tfree (fuel : nat) (m : mem) (current : option Z) (__ptr : Z) : res mem :=
  attr ← deref current;
  let sprt_info := attr + off_pool in
  let base := m (sprt_info + info_base) in
  let lenth := m (sprt_info + info_lenth) in
  if (__ptr <? base) || (u32 (base + lenth) <=? __ptr) then Ok m
  else if negb (m (sprt_info + info_free) =? 0) then call_free block_free simple_free fuel m sprt_info __ptr
  else Ok m.
End pool.
