(* ===== verification/ThreadSpec.v ===== *)
(** * Thread creation is all or nothing

    A thread whose creation succeeds is ready, with its control block, attribute
    and stack in memory of their own; when any step fails every block taken on
    the way is given back and the scheduler is as before. *)

From stdpp Require Import prelude gmap fin_maps sorting.
From S2P Require Import Prelude Mem MemPool Sync Generic KTime Sched SchedInv SchedOps Wait KMalloc KMallocSpec HeapContract Thread.

(** ** Stack geometry *)
Lemma stack_top_spec p size : 0 < p -> 512 <= size -> p + size < W32 ->
  (8 | stack_top p size) /\ p + size - 16 - sizeof_regs - 8 < stack_top p size /\ stack_top p size + sizeof_regs <= p + size - 16.
Proof.
  intros Hp Hs Hw. unfold stack_top, sizeof_regs. rewrite (u32_id (p + size)) by lia. rewrite (u32_id (p + size - 16)) by lia.
  rewrite (ldiff_ralign (p + size - 16)) by lia. pose proof (Z.div_mod (p + size - 16) 8 ltac:(lia)). pose proof (Z.mod_pos_bound (p + size - 16) 8 ltac:(lia)).
  rewrite u32_id by lia. rewrite ldiff_ralign by lia. set (y := (p + size - 16) / 8) in *.
  replace (8 * y - 72) with ((y - 9) * 8) by lia. rewrite Z.div_mul by lia. split; [exists (y - 9); lia|lia].
Qed.
Lemma context_at_top a : (8 | stack_addr a) -> 0 <= stack_addr a -> stack_addr a + sizeof_regs < W32 - 8 -> thread_get_context a = stack_addr a.
Proof.
  unfold thread_get_context, sizeof_regs. intros [k E] H0 Hw. rewrite (u32_id (_ + 72)) by lia.
  rewrite align_of_aligned by (try lia; exists (k + 9); lia). rewrite u32_id; lia.
Qed.

(** C12: [thread_set_stack] puts the register frame inside the stack it is given:
    8-byte aligned, at least 16 bytes under the top, and everything below it is
    left for the thread; the frame is where the context switch looks for it. *)
Theorem stack_frame_inside a ptr_dync ptr_stack size :
  0 < ptr_stack -> THREAD_STACK_MIN <= size -> ptr_stack + size < W32 - 8 ->
  let b := with_stack ptr_dync ptr_stack size a in
  let frame := thread_get_context b in
  frame = stack_addr b /\ (8 | frame) /\ frame + sizeof_regs <= ptr_stack + size - 16 /\
  size - 96 < frame - ptr_stack.
Proof.
  change THREAD_STACK_MIN with 512. intros Hp Hs Hw b frame. destruct (stack_top_spec ptr_stack size Hp Hs) as (Hd & Hlo & Hhi); [lia|].
  unfold sizeof_regs in *. assert (frame = stack_addr b) as -> by (apply context_at_top; simpl; unfold sizeof_regs; [done|lia..]).
  simpl. split_and!; try done; lia.
Qed.
Lemma stack_frame_inside_witness : thread_get_context (with_stack 0 4096 4096 zero_attr) = 8104.
Proof.
  destruct (stack_frame_inside zero_attr 0 4096 4096) as (E & _); [lia|discriminate|reflexivity|]. rewrite E. reflexivity.
Defined.

Section creation.
Context {H : Type} `{KernelHeap H} (sizeof_attr sizeof_thread : Z).
Context (attr_size : 0 < sizeof_attr <= 4096) (thread_size : 0 < sizeof_thread <= 4096).
Local Notation tsys := (@tsys H).

Definition with_heap (h : H) (st : tsys) : tsys := TSys (ts_sched st) h (ts_attrs st) (ts_tcbs st) (ts_slots st).
Definition forget (p : Z) (st : tsys) : tsys := TSys (ts_sched st) (ts_heap st) (delete p (ts_attrs st)) (delete p (ts_tcbs st)) (ts_slots st).

(** A block whose bytes may be written: live, or outside the heap. *)
Definition writable (L : list (Z * Z)) (a n : Z) : Prop := heap_static a n \/ exists q s, (q, s) ∈ L /\ q <= a /\ a + n <= q + s.

Lemma heap_fill_writable h L a v n : heap_inv h L -> writable L a n -> 0 <= n -> heap_inv (heap_fill h a v n) L.
Proof. intros Hh [Hs|(q & s & Hq & Ha & He)] Hn; [by apply heap_fill_static|by eapply heap_fill_live]. Qed.
Lemma writable_mono L L' a n : L ⊆ L' -> writable L a n -> writable L' a n.
Proof. intros HL [Hs|(q & s & Hq & Hr)]; [by left|right]. exists q, s. split; [by apply HL|done]. Qed.
Lemma writable_block L q s n : (q, s) ∈ L -> n <= s -> writable L q n.
Proof. intros Hq Hn. right. exists q, s. split; [done|lia]. Qed.

Definition calm (st : tsys) : Prop := cpu_ok (s_cpu (ts_sched st)).

Lemma t_kmalloc_spec st L size flags :
  calm st -> heap_inv (ts_heap st) L -> kernel_flags flags -> 0 <= size <= W32 - 40 ->
  exists q h, t_kmalloc size flags st = Ok (q, with_heap h st) /\
    ((q = nullptr /\ heap_inv h L) \/ (isValid q = true /\ heap_inv h ((q, mrt_num_align8 size) :: L))).
Proof.
  intros Hc Hh Hf Hs. destruct (heap_alloc_spec _ _ _ size flags Hc Hh Hf Hs) as (q & h & E & Hcase & _).
  exists q, h. unfold t_kmalloc. rewrite E. cbn [mbind res_bind]. by rewrite sched_eta.
Qed.
Lemma t_kzalloc_spec st L size :
  calm st -> heap_inv (ts_heap st) L -> 0 <= size <= W32 - 40 ->
  exists q h, t_kzalloc size GFP_KERNEL st = Ok (q, with_heap h st) /\
    ((q = nullptr /\ heap_inv h L) \/ (isValid q = true /\ heap_inv h ((q, mrt_num_align8 size) :: L))).
Proof. intros Hc Hh Hs. by apply t_kmalloc_spec. Qed.
Lemma t_kfree_spec st L q s :
  calm st -> heap_inv (ts_heap st) ((q, s) :: L) -> 0 < s ->
  exists h, t_kfree q st = Ok (forget q (with_heap h st)) /\ heap_inv h L.
Proof.
  intros Hc Hh Hs. destruct (heap_free_spec _ _ _ _ _ Hc Hh Hs) as (h & E & Hh' & _). exists h. split; [|done].
  unfold t_kfree. rewrite E. cbn [mbind res_bind]. by rewrite sched_eta.
Qed.

Definition DS : Z := mrt_num_align8 THREAD_STACK_DEFAULT.
Lemma DS_eq : DS = 2056.
Proof. reflexivity. Qed.

(** The two steps every fresh stack goes through: the request, then the frame. *)
Definition fresh_stack (sprt_attr : Z) (a : thread_attr) (q : Z) (h : H) (st : tsys) : tsys :=
  with_heap (heap_fill h (stack_top q THREAD_STACK_DEFAULT) 0 sizeof_regs)
    (upd_attr (fun _ => with_stack q q THREAD_STACK_DEFAULT a) sprt_attr st).

Lemma set_stack_fresh sprt_attr a q h L st :
  ts_attrs st !! sprt_attr = Some a -> ptr_stack_start a = 0 -> isValid q = true -> heap_inv h ((q, DS) :: L) ->
  thread_set_stack sprt_attr q q THREAD_STACK_DEFAULT (with_heap h st) = Ok (stack_top q THREAD_STACK_DEFAULT, fresh_stack sprt_attr a q h st) /\
  heap_inv (ts_heap (fresh_stack sprt_attr a q h st)) ((q, DS) :: L) /\ 0 < stack_top q THREAD_STACK_DEFAULT.
Proof.
  intros Ha Hs Hv Hh. destruct (proj2 (heap_inv_blocks _ _ Hh) q DS ltac:(left)) as (Hq0 & _ & Hq1). rewrite DS_eq in *.
  change THREAD_STACK_DEFAULT with 2056 in *.
  destruct (stack_top_spec q 2056 Hq0) as (Hd & Hlo & Hhi); [lia|unfold W32 in *; lia|].
  assert (thread_get_context (with_stack q q 2056 a) = stack_top q 2056) as Ec.
  { apply (context_at_top (with_stack q q 2056 a)); simpl; [done|unfold sizeof_regs in *; lia|unfold W32, sizeof_regs in *; lia]. }
  split_and!.
  - unfold thread_set_stack. rewrite Hv. change THREAD_STACK_MIN with 512. cbn [negb orb]. rewrite Z.eqb_refl, andb_false_r.
    replace (2056 <? 512) with false by done. simpl ts_attrs. rewrite Ha. cbn [deref mbind res_bind]. rewrite Hs.
    cbn [isValid Z.eqb negb andb mbind res_bind]. rewrite Ec. done.
  - simpl. change THREAD_STACK_DEFAULT with 2056. eapply heap_fill_live; [exact Hh|by left|unfold sizeof_regs in *; lia..].
  - unfold sizeof_regs in *. lia.
Qed.

(** ** Attributes *)
Definition default_attr (q : Z) : thread_attr :=
  thread_set_time_slice THREAD_TIME_DEFUALT (thread_set_priority THREAD_PROTY_DEFAULT
    (with_stack q q THREAD_STACK_DEFAULT (Attr THREAD_CREATE_JOINABLE THREAD_SCHED_FIFO THREAD_INHERIT_SCHED 0 0 (TimeSpec 0 0) 0 0 0))).
Definition put_attr (p : Z) (a : thread_attr) (st : tsys) : tsys :=
  TSys (ts_sched st) (ts_heap st) (<[p := a]> (ts_attrs st)) (ts_tcbs st) (ts_slots st).

Lemma upd_put f p a st : ts_attrs st !! p = Some a -> upd_attr f p st = put_attr p (f a) st.
Proof.
  intros E. unfold upd_attr, put_attr. f_equal. apply map_eq. intros x. destruct (decide (x = p)) as [->|Hne].
  - by rewrite lookup_alter_eq, lookup_insert_eq, E.
  - by rewrite lookup_alter_ne, lookup_insert_ne.
Qed.
Lemma put_put p a b st : put_attr p b (put_attr p a st) = put_attr p b st.
Proof. unfold put_attr. simpl. by rewrite insert_insert_eq. Qed.
Lemma put_heap p a h st : put_attr p a (with_heap h st) = with_heap h (put_attr p a st).
Proof. done. Qed.
Lemma heap_heap h h' (st : tsys) : with_heap h (with_heap h' st) = with_heap h st.
Proof. done. Qed.
Lemma upd_with_put f p a h st : upd_attr f p (with_heap h (put_attr p a st)) = with_heap h (put_attr p (f a) st).
Proof. rewrite (upd_put f p a) by (simpl; apply lookup_insert_eq). by rewrite put_heap, put_put. Qed.
Lemma put_lookup p a st : ts_attrs (put_attr p a st) !! p = Some a.
Proof. apply lookup_insert_eq. Qed.

(** [thread_attr_init] on storage of its own: the default attribute with a fresh
    stack, or null and a cleared attribute. *)
Lemma attr_init_spec sprt_attr L st :
  calm st -> heap_inv (ts_heap st) L -> writable L sprt_attr sizeof_attr ->
  exists r a h, thread_attr_init sizeof_attr sprt_attr st = Ok (r, with_heap h (put_attr sprt_attr a st)) /\
    ((r = 0 /\ heap_inv h L /\ ptr_stack_start a = 0) \/
     (exists q, r = stack_addr a /\ 0 < r /\ a = default_attr q /\ isValid q = true /\ heap_inv h ((q, DS) :: L))).
Proof.
  intros Hc Hh Hw. unfold thread_attr_init, clear_attr. set (f := fun a => Attr THREAD_CREATE_JOINABLE _ _ _ _ _ _ _ _).
  change (TSys (ts_sched st) (heap_fill (ts_heap st) sprt_attr 0 sizeof_attr) (<[sprt_attr:=zero_attr]> (ts_attrs st)) (ts_tcbs st) (ts_slots st))
    with (with_heap (heap_fill (ts_heap st) sprt_attr 0 sizeof_attr) (put_attr sprt_attr zero_attr st)).
  rewrite (upd_put f sprt_attr zero_attr) by (simpl; apply lookup_insert_eq). rewrite put_heap, put_put.
  set (st1 := put_attr sprt_attr (f zero_attr) st).
  destruct (t_kzalloc_spec (with_heap (heap_fill (ts_heap st) sprt_attr 0 sizeof_attr) st1) L THREAD_STACK_DEFAULT) as (q & h & E & Hcase);
    [done|apply heap_fill_writable; [done|done|lia]|unfold W32; vm_compute; split; discriminate|].
  rewrite E. cbn [mbind res_bind]. rewrite heap_heap. destruct Hcase as [[-> Hh']|[Hv Hh']].
  - simpl. exists 0, (f zero_attr), h. split; [done|]. left. done.
  - rewrite Hv. cbn [negb]. destruct (set_stack_fresh sprt_attr (f zero_attr) q h L st1) as (E2 & Hh2 & Htop); [apply lookup_insert_eq|done..|].
    rewrite E2. cbn [mbind res_bind]. unfold fresh_stack. rewrite (upd_put _ _ (f zero_attr) st1) by apply lookup_insert_eq. subst st1. rewrite put_put.
    rewrite !upd_with_put. simpl ts_attrs. rewrite lookup_insert_eq. cbn [deref mbind res_bind].
    eexists _, _, _. split; [done|]. right. exists q. simpl. by split_and!.
Qed.

(** What [thread_attr_revise] makes of an attribute: defaults for what is unset,
    and a stack if there is none.  [X] are the blocks taken. *)
Definition revised (a : thread_attr) : thread_attr :=
  let b := if sched_priority a =? 0 then thread_set_priority THREAD_PROTY_DEFAULT a else a in
  if mrt_is_timespec_empty (mrt_sched_init_budget a) then thread_set_time_slice THREAD_TIME_DEFUALT b else b.
Definition revised_to (a a' : thread_attr) (X : list (Z * Z)) : Prop :=
  (stack_addr a <> 0 /\ a' = revised a /\ X = []) \/
  (stack_addr a = 0 /\ exists q, isValid q = true /\ 0 < stack_addr a' /\ a' = with_stack q q THREAD_STACK_DEFAULT (revised a) /\ X = [(q, DS)]).

Lemma revised_stack a : stack_addr (revised a) = stack_addr a /\ ptr_stack_start (revised a) = ptr_stack_start a.
Proof. unfold revised. by destruct (_ =? 0), (mrt_is_timespec_empty _). Qed.
Lemma put_same p a st : ts_attrs st !! p = Some a -> put_attr p a st = st.
Proof. intros E. unfold put_attr. rewrite insert_id by done. by destruct st. Qed.

Lemma attr_revise_spec p a L st :
  calm st -> heap_inv (ts_heap st) L -> p <> 0 -> ts_attrs st !! p = Some a -> (stack_addr a = 0 -> ptr_stack_start a = 0) ->
  exists r a' h, thread_attr_revise p st = Ok (r, with_heap h (put_attr p a' st)) /\
    ((r = 0 /\ a' = revised a /\ heap_inv h L) \/
     (exists X, r <> 0 /\ r = stack_addr a' /\ revised_to a a' X /\ heap_inv h (X ++ L))).
Proof.
  intros Hc Hh Hp Ha Hs. unfold thread_attr_revise. rewrite (proj2 (Z.eqb_neq p 0) Hp), Ha. cbn [deref mbind res_bind].
  set (st1 := if sched_priority a =? 0 then _ else st). set (st2 := if mrt_is_timespec_empty _ then _ else st1).
  assert (st2 = put_attr p (revised a) st) as Est.
  { assert (st1 = put_attr p (if sched_priority a =? 0 then thread_set_priority THREAD_PROTY_DEFAULT a else a) st) as E1.
    { subst st1. destruct (_ =? 0); [by apply upd_put|by rewrite put_same]. }
    subst st2. unfold revised. rewrite E1. destruct (mrt_is_timespec_empty _); [|done]. exact (upd_with_put _ p _ (ts_heap st) st). }
  clearbody st2. clear st1. subst st2. destruct (revised_stack a) as [Er1 Er2]. destruct (Z.eqb_spec (stack_addr a) 0) as [E0|E0].
  - destruct (t_kzalloc_spec (put_attr p (revised a) st) L THREAD_STACK_DEFAULT) as (q & h & E & Hcase); [done|done|unfold W32; vm_compute; split; discriminate|].
    rewrite E. cbn [mbind res_bind]. destruct Hcase as [[-> Hh']|[Hv Hh']]; [simpl; eexists 0, _, _; split; [done|by left]|].
    rewrite Hv. cbn [negb].
    destruct (set_stack_fresh p (revised a) q h L (put_attr p (revised a) st)) as (E2 & Hh2 & Htop); [apply lookup_insert_eq|by rewrite Er2, Hs|done..|].
    rewrite E2. cbn [mbind res_bind]. unfold fresh_stack. rewrite (upd_put _ _ (revised a)) by apply lookup_insert_eq. rewrite put_put.
    simpl ts_attrs. rewrite lookup_insert_eq. cbn [deref mbind res_bind]. eexists _, _, _. split; [done|]. right. exists [(q, DS)].
    simpl stack_addr. split_and!; [lia|done| |exact Hh2]. right. split; [done|]. exists q. done.
  - exists (stack_addr a), (revised a), (ts_heap st). split; [done|]. right. exists []. split_and!; [done|done| |done]. by left.
Qed.

(** The block of the attribute's stack, if it was allocated. *)
Definition stack_block (a : thread_attr) (B : list (Z * Z)) : Prop :=
  (ptr_stack_start a = 0 /\ B = []) \/ (exists s, ptr_stack_start a <> 0 /\ 0 < s /\ B = [(ptr_stack_start a, s)]).

Lemma revised_block a a' X B : (stack_addr a = 0 -> ptr_stack_start a = 0) ->
  stack_block a B -> revised_to a a' X -> stack_block a' (X ++ B).
Proof.
  intros Hs HB [(_ & -> & ->)|(E0 & q & Hv & _ & -> & ->)]; unfold stack_block.
  - by rewrite (proj2 (revised_stack a)).
  - destruct HB as [[_ ->]|(s & Hn & _)]; [|by rewrite Hs in Hn]. right. exists DS. simpl. split_and!; [by apply isValid_nonzero|rewrite DS_eq; lia|done].
Qed.

(** Records the system must not lose: those of live blocks and static ones. *)
Definition known (L : list (Z * Z)) (x : Z) : Prop := (exists s, (x, s) ∈ L /\ 0 < s) \/ heap_static x sizeof_attr.
Record kept (P : Z -> Prop) (st st' : tsys) : Prop := {
  kept_attrs x : P x -> ts_attrs st' !! x = ts_attrs st !! x;
  kept_tcbs x : P x -> ts_tcbs st' !! x = ts_tcbs st !! x;
}.
Lemma kept_refl P st : kept P st st.
Proof. by split. Qed.
Lemma kept_trans P st1 st2 st3 : kept P st1 st2 -> kept P st2 st3 -> kept P st1 st3.
Proof. intros [A1 A2] [B1 B2]. split; intros x Hx; [by rewrite B1, A1|by rewrite B2, A2]. Qed.
Lemma kept_put (P : Z -> Prop) p a st : ~ P p -> kept P st (put_attr p a st).
Proof. intros Hp. split; [|done]. intros x Hx. apply lookup_insert_ne. by intros ->. Qed.
Lemma kept_forget (P : Z -> Prop) p st : ~ P p -> kept P st (forget p st).
Proof. intros Hp. split; intros x Hx; apply lookup_delete_ne; by intros ->. Qed.

Lemma fresh_unknown h L q s : heap_inv h ((q, s) :: L) -> 0 < s -> ~ known L q.
Proof.
  intros Hh Hs [(t & Ht & Ht0)|Hst].
  - pose proof (proj1 (heap_inv_blocks _ _ Hh)) as Hd. pose proof (disjoint_head _ _ _ _ _ Hd Ht). lia.
  - pose proof (heap_static_live _ _ _ _ q s Hh Hst ltac:(left)). lia.
Qed.

(** Giving an attribute up: its stack goes back to the heap. *)
Lemma attr_destroy_spec p a B L st :
  calm st -> p <> 0 -> ts_attrs st !! p = Some a -> stack_block a B -> heap_inv (ts_heap st) (B ++ L) -> writable L p sizeof_attr ->
  exists h st1, thread_attr_destroy sizeof_attr p st = Ok (with_heap h (put_attr p zero_attr st1)) /\ heap_inv h L /\
    ts_sched st1 = ts_sched st /\ ts_slots st1 = ts_slots st /\ kept (known L) st st1.
Proof.
  intros Hc Hp Ha HB Hh Hw. unfold thread_attr_destroy. rewrite (proj2 (Z.eqb_neq p 0) Hp), Ha. cbn [deref mbind res_bind].
  destruct HB as [[E ->]|(s & Hne & Hs & ->)].
  - rewrite E. cbn [Z.eqb negb mbind res_bind]. eexists _, st. split; [done|]. split_and!; [|done|done|apply kept_refl].
    apply heap_fill_writable; [done|done|lia].
  - rewrite (proj2 (Z.eqb_neq _ 0) Hne). cbn [negb]. destruct (t_kfree_spec st L _ s Hc Hh Hs) as (h & E & Hh').
    rewrite E. cbn [mbind res_bind]. eexists _, (forget (ptr_stack_start a) st). split; [done|]. split_and!; [|done|done|].
    + simpl. apply heap_fill_writable; [done|done|lia].
    + apply kept_forget. by eapply fresh_unknown.
Qed.

Lemma kept_mono (P Q : Z -> Prop) st st' : (forall x, Q x -> P x) -> kept P st st' -> kept Q st st'.
Proof. intros HQ [A B]. split; auto. Qed.

Lemma kept_eq P st st1 st2 : ts_attrs st2 = ts_attrs st1 -> ts_tcbs st2 = ts_tcbs st1 -> kept P st st1 -> kept P st st2.
Proof. intros E1 E2 [A B]. by split; rewrite ?E1, ?E2. Qed.

(** Where the attribute in use came from: a block of its own, or the caller. *)
Definition holds (sprt_attr it : Z) (D L : list (Z * Z)) : Prop :=
  (sprt_attr = 0 /\ exists s, sizeof_attr <= s /\ D = [(it, s)]) \/
  (sprt_attr = it /\ isValid it = true /\ D = [] /\ writable L it sizeof_attr).

Definition reenabled (s : sched) : sched := set_cpu (mrt_preempt_enable (s_cpu s)) s.

(** The label [fail3]: everything taken so far is given back. *)
Lemma create_fail3_spec sprt_attr it a B D L st :
  calm st -> it <> 0 -> ts_attrs st !! it = Some a -> stack_block a B -> holds sprt_attr it D L -> heap_inv (ts_heap st) (B ++ D ++ L) ->
  exists st', create_fail3 sizeof_attr sprt_attr it st = Ok (- ER_FAULT, None, st') /\ heap_inv (ts_heap st') L /\
    ts_sched st' = reenabled (ts_sched st) /\ ts_slots st' = ts_slots st /\ kept (fun x => known L x /\ x <> it) st st' /\
    (sprt_attr <> 0 -> ts_attrs st' !! it = Some zero_attr).
Proof.
  intros Hc Hit Ha HB HD Hh. unfold create_fail3. destruct (attr_destroy_spec it a B (D ++ L) st) as (h & st1 & E & Hh1 & Es & Esl & Hk); try done.
  { destruct HD as [(_ & s & Hs & ->)|(_ & _ & -> & Hw)]; [|done]. apply (writable_block _ it s); [by left|done]. }
  rewrite E. cbn [mbind res_bind]. unfold create_fail2, create_fail.
  assert (forall Q : Z -> Prop, (forall x, Q x -> known (D ++ L) x /\ x <> it) -> kept Q st (with_heap h (put_attr it zero_attr st1))) as Hk'.
  { intros Q HQ. eapply kept_trans; [eapply kept_mono; [|exact Hk]; intros x Hx; by destruct (HQ x Hx)|].
    apply (kept_eq Q st1 (put_attr it zero_attr st1)); [done..|]. apply kept_put. intros Hx. by destruct (HQ it Hx). }
  destruct HD as [(-> & s & Hs & ->)|(-> & Hv & -> & Hw)].
  - cbn [isValid Z.eqb negb andb]. destruct (t_kfree_spec (with_heap h (put_attr it zero_attr st1)) L it s) as (h2 & E2 & Hh2);
      [unfold calm; simpl; by rewrite Es|done|lia|].
    rewrite E2. cbn [mbind res_bind]. eexists. split; [done|]. simpl. split_and!; [done|by rewrite Es|done| |done].
    eapply kept_trans; [|eapply kept_eq; [| |apply (kept_forget (fun x => known L x /\ x <> it) it (with_heap h (put_attr it zero_attr st1)));by intros [_ []]]; done].
    apply Hk'. intros x [[(t & Ht & Ht0)|Hx] Hne]; (split; [|done]); [left; exists t; split; [by right|done]|by right].
  - rewrite Hv. cbn [negb mbind res_bind]. eexists. split; [done|]. simpl. split_and!; [done|by rewrite Es|done| |].
    + eapply kept_eq; [| |by apply Hk']; done.
    + intros _. apply lookup_insert_eq.
Qed.

(** The new entry of the scheduler's table. *)
Definition entry_of (a : thread_attr) : thread :=
  synced NR_THREAD_READY (fresh_thread (Thread NR_THREAD_NONE NR_THREAD_NONE (thread_get_priority a) (stack_addr a) 0 0 (Lock 0 0))).

(** What a successful creation leaves: thread [tid] with control block [th] and
    attribute [a] at [it], ready in priority order. *)
Record born (tid it th pfunc args : Z) (a : thread_attr) (P : Z -> Prop) (st st' : tsys) : Prop := {
  born_entry : s_tids (ts_sched st') = <[tid := entry_of a]> (s_tids (ts_sched st));
  born_ready : placed (ts_sched st') tid (s_ready (ts_sched st)) (s_ready (ts_sched st'));
  born_work : s_work (ts_sched st') = s_work (ts_sched st);
  born_slot : ts_slots st' = <[tid := th]> (ts_slots st);
  born_tcb : ts_tcbs st' !! th = Some (Tcb tid it pfunc args);
  born_attr : ts_attrs st' !! it = Some a;
  born_kept : kept P st st';
}.

Lemma create_with_attr_spec tid sprt_attr it a B D L pfunc args (ptr_id : bool) st :
  sched_ok (ts_sched st) -> calm st -> 0 <= tid < THREAD_MAX_NUM -> s_tids (ts_sched st) !! tid = None ->
  it <> 0 -> ts_attrs st !! it = Some a -> stack_block a B -> (stack_addr a = 0 -> ptr_stack_start a = 0) ->
  holds sprt_attr it D L -> heap_inv (ts_heap st) (B ++ D ++ L) ->
  exists r out st', create_with_attr sizeof_attr sizeof_thread tid sprt_attr it pfunc args ptr_id st = Ok (r, out, st') /\
    ((r = - ER_FAULT /\ out = None /\ heap_inv (ts_heap st') L /\ ts_sched st' = reenabled (ts_sched st) /\ ts_slots st' = ts_slots st /\
      kept (fun x => known L x /\ x <> it) st st' /\ (sprt_attr <> 0 -> ts_attrs st' !! it = Some zero_attr)) \/
     (exists th a' X s', r = ER_NORMAL /\ out = (if ptr_id then Some tid else None) /\ isValid th = true /\
        revised_to a a' X /\ heap_inv (ts_heap st') ((th, mrt_num_align8 sizeof_thread) :: X ++ B ++ D ++ L) /\
        sched_ok s' /\ s_cpu s' = s_cpu (ts_sched st) /\ ts_sched st' = reenabled s' /\
        born tid it th pfunc args a' (fun x => known L x /\ x <> it) st st')).
Proof.
  intros Hok Hc Ht Hn Hit Ha HB Hs HD Hh. unfold create_with_attr.
  destruct (attr_revise_spec it a (B ++ D ++ L) st) as (r & a' & h & E & Hcase); try done. rewrite E. cbn [mbind res_bind].
  assert (forall h, kept (fun x => known L x /\ x <> it) st (with_heap h (put_attr it a' st))) as Hkp.
  { intros h'. apply (kept_eq _ st (put_attr it a' st)); [done..|]. apply kept_put. by intros [_ []]. }
  destruct Hcase as [(-> & -> & Hh')|(X & Hr & -> & HX & Hh')].
  { cbn [Z.eqb]. destruct (create_fail3_spec sprt_attr it (revised a) B D L (with_heap h (put_attr it (revised a) st)))
      as (st' & E2 & H1 & H2 & H3 & H4 & H5); try done; [apply lookup_insert_eq|unfold stack_block; by rewrite (proj2 (revised_stack a))|].
    eexists _, _, _. split; [exact E2|]. left. split_and!; try done. by eapply kept_trans. }
  rewrite (proj2 (Z.eqb_neq _ 0) Hr). pose proof (revised_block _ _ _ _ Hs HB HX) as HB'.
  destruct (t_kzalloc_spec (with_heap h (put_attr it a' st)) (X ++ B ++ D ++ L) sizeof_thread) as (th & h2 & E2 & Hcase); [done|done|unfold W32; lia|].
  rewrite E2. cbn [mbind res_bind]. rewrite heap_heap. destruct Hcase as [[-> Hh2]|[Hv Hh2]].
  { cbn [isValid Z.eqb negb andb nullptr]. destruct (create_fail3_spec sprt_attr it a' (X ++ B) D L (with_heap h2 (put_attr it a' st)))
      as (st' & E3 & H1 & H2 & H3 & H4 & H5); try done; [apply lookup_insert_eq|by rewrite <- app_assoc|].
    eexists _, _, _. split; [exact E3|]. left. split_and!; try done. by eapply kept_trans. }
  rewrite Hv. cbn [negb]. unfold t_register. simpl ts_tcbs. rewrite lookup_insert_eq. cbn [deref mbind res_bind tcb_attr]. simpl ts_attrs.
  rewrite lookup_insert_eq. cbn [deref mbind res_bind]. simpl ts_sched.
  destruct (register_fresh (ts_sched st) (Thread NR_THREAD_NONE NR_THREAD_NONE (thread_get_priority a') (stack_addr a') 0 0 (Lock 0 0)) tid)
    as (s' & E3 & Hok' & T1 & T2 & T3 & _ & _ & T4); try done.
  rewrite E3. cbn [mbind res_bind]. eexists _, _, _. split; [done|]. right. exists th, a', X, s'. split_and!; try done.
  destruct (align8_spec sizeof_thread) as [Hal _]; [unfold W32; lia|].
  assert (~ known L th) as Hth.
  { intros [(t & Ht' & Ht0)|Hst].
    - pose proof (disjoint_head _ _ _ _ _ (proj1 (heap_inv_blocks _ _ Hh2)) (ltac:(set_solver) : (th, t) ∈ X ++ B ++ D ++ L)). lia.
    - pose proof (heap_static_live _ _ _ _ th (mrt_num_align8 sizeof_thread) Hh2 Hst ltac:(left)). lia. }
  split; simpl; try done; [apply lookup_insert_eq..|].
  split; intros x [Hx Hne]; simpl; apply lookup_insert_ne; [done|]. by intros ->.
Qed.

(** ** The whole call *)

(** The system with the blocks [X ++ L] live; control blocks are among [L]. *)
Record ts_ok (X L : list (Z * Z)) (st : tsys) : Prop := {
  tk_sched : sched_ok (ts_sched st);
  tk_cnt : g_sched_preempt_cnt (s_cpu (ts_sched st)) < W32 - 4;
  tk_heap : heap_inv (ts_heap st) (X ++ L);
  tk_slot tid p : ts_slots st !! tid = Some p ->
    exists t s, ts_tcbs st !! p = Some t /\ tcb_tid t = tid /\ (p, s) ∈ L /\ 0 < s;
  tk_dom tid : is_Some (ts_slots st !! tid) <-> is_Some (s_tids (ts_sched st) !! tid);
}.

Lemma sched_ok_cpu s c : sched_ok s -> 0 <= g_sched_preempt_cnt c < W32 - 3 -> sched_ok (set_cpu c s).
Proof. intros [HI Hb Hl _] Hc. split; try done. by apply sched_inv_cpu. Qed.
Lemma unused_spec i n s : sched_ok s -> 0 <= i -> i + Z.of_nat n <= THREAD_MAX_NUM ->
  exists r, get_unused_tid_from_scheduler i n s = Ok (r, unlocked s s) /\
    ((i <= r < i + Z.of_nat n /\ s_tids s !! r = None) \/ (r = - ER_MORE /\ forall j, i <= j < i + Z.of_nat n -> is_Some (s_tids s !! j))).
Proof.
  intros [HI Hbt Hl Hc] Hi Hn. unfold get_unused_tid_from_scheduler. destruct (sched_critical s Hl Hc) as (c & l & -> & _ & Hu). simpl.
  destruct (unused_tid_total (set_lock l (set_cpu c s)) i n) as (r & -> & Hr); try done. simpl. rewrite Hu by done.
  exists r. split; [done|]. destruct Hr as [(? & ? & _)|[-> ?]]; [by left|by right].
Qed.

(** Kernel threads have the ids below 32, user threads those from 32 on. *)
Definition allowed (flags tid : Z) : Prop :=
  if Z.land THREAD_USER flags =? THREAD_USER then THREAD_TID_START <= tid < THREAD_MAX_NUM else 0 <= tid < THREAD_TID_START.
(** The ids a call may use: the one asked for if it is of the kind, else any of the
    kind.  The request is compared as an unsigned number. *)
Definition wanted (base flags tid : Z) : Prop := allowed flags tid /\ (allowed flags (u32 base) -> tid = u32 base).
Lemma tid_range_spec base flags i n : tid_range base flags = (i, n) ->
  0 <= i /\ 0 <= n /\ i + n <= THREAD_MAX_NUM /\ (forall tid, i <= tid < i + n <-> wanted base flags tid).
Proof.
  unfold tid_range, wanted, allowed, THREAD_TID_START, THREAD_MAX_NUM. pose proof (Z.mod_pos_bound base W32 ltac:(done)). fold (u32 base) in *.
  destruct (_ =? THREAD_USER); cbn [fst snd];
    match goal with |- context [(?x <=? u32 base) && (u32 base <? ?y)] => destruct (Z.leb_spec x (u32 base)), (Z.ltb_spec (u32 base) y) end;
    cbn [andb]; intros [= <- <-]; split_and!; try lia; intros; lia.
Qed.

Lemma reenabled_ok s s' : sched_ok s' -> g_sched_preempt_cnt (s_cpu s) < W32 - 4 -> sched_ok s ->
  s_cpu s' = mrt_preempt_disable (s_cpu s) -> sched_ok (reenabled s') /\ s_cpu (reenabled s') = s_cpu s.
Proof.
  intros Hok' Hc Hok E. pose proof (ok_cnt _ Hok). unfold reenabled. rewrite E, preempt_balance by lia. split; [|done].
  apply sched_ok_cpu; [done|lia].
Qed.

Record same_table (s s' : sched) : Prop := {
  sb_tids : s_tids s' = s_tids s;
  sb_work : s_work s' = s_work s;
  sb_lists : forall h, get_list h s' = get_list h s;
  sb_cpu : s_cpu s' = s_cpu s;
}.

(** The scheduler inside the call, once an id was looked up. *)
Definition inside (s : sched) : sched :=
  let d := set_cpu (mrt_preempt_disable (s_cpu s)) s in unlocked d d.
Lemma inside_ok X L st : ts_ok X L st ->
  sched_ok (set_cpu (mrt_preempt_disable (s_cpu (ts_sched st))) (ts_sched st)) /\ sched_ok (inside (ts_sched st)) /\
  cpu_ok (s_cpu (inside (ts_sched st))) /\ sched_ok (reenabled (inside (ts_sched st))) /\ same_table (ts_sched st) (reenabled (inside (ts_sched st))).
Proof.
  intros [Hok Hcnt _ _ _]. pose proof (ok_cnt _ Hok) as Hc.
  assert (sched_ok (set_cpu (mrt_preempt_disable (s_cpu (ts_sched st))) (ts_sched st))) as Hd.
  { apply sched_ok_cpu; [done|]. simpl. rewrite u32_id by lia. lia. }
  assert (sched_ok (inside (ts_sched st))) as Hi by (by apply unlocked_ok).
  destruct (reenabled_ok (ts_sched st) (inside (ts_sched st)) Hi Hcnt Hok eq_refl) as [Hr Ecpu].
  refine (conj Hd (conj Hi (conj _ (conj Hr _)))); [unfold cpu_ok; simpl; rewrite u32_id by lia; lia|].
  by split.
Qed.

Lemma slots_kept (P : Z -> Prop) X L L' st st' :
  ts_ok X L st -> (forall tid p s, ts_slots st !! tid = Some p -> (p, s) ∈ L -> 0 < s -> P p) -> kept P st st' -> L ⊆ L' ->
  forall tid p, ts_slots st !! tid = Some p -> exists t s, ts_tcbs st' !! p = Some t /\ tcb_tid t = tid /\ (p, s) ∈ L' /\ 0 < s.
Proof.
  intros Hst HP Hk HL tid p Hp. destruct (tk_slot _ _ _ Hst tid p Hp) as (t & s & Ht & E & Hin & Hs).
  exists t, s. rewrite (kept_tcbs _ _ _ Hk) by eauto. split_and!; auto.
Qed.

(** Outcomes of a call on state [st] that was given the attribute [it]. *)
Definition gave_up (L : list (Z * Z)) (it : Z) (st st' : tsys) : Prop :=
  ts_ok [] L st' /\ same_table (ts_sched st) (ts_sched st') /\ ts_slots st' = ts_slots st /\ kept (fun x => known L x /\ x <> it) st st'.

Lemma create_finish tid sprt_attr it a B D L X pfunc args (ptr_id : bool) st st1 :
  ts_ok X L st -> ts_sched st1 = inside (ts_sched st) -> ts_slots st1 = ts_slots st ->
  kept (fun x => known L x /\ x <> it) st st1 -> (forall t, ts_slots st !! t <> Some it) ->
  0 <= tid < THREAD_MAX_NUM -> s_tids (ts_sched st) !! tid = None -> it <> 0 -> ts_attrs st1 !! it = Some a -> stack_block a B ->
  (stack_addr a = 0 -> ptr_stack_start a = 0) -> holds sprt_attr it D L -> heap_inv (ts_heap st1) (B ++ D ++ L) ->
  exists r out st', create_with_attr sizeof_attr sizeof_thread tid sprt_attr it pfunc args ptr_id st1 = Ok (r, out, st') /\
    ((r = - ER_FAULT /\ out = None /\ gave_up L it st st' /\ (sprt_attr <> 0 -> ts_attrs st' !! it = Some zero_attr)) \/
     (exists th a' X', r = ER_NORMAL /\ out = (if ptr_id then Some tid else None) /\ revised_to a a' X' /\
        ts_ok [] ((th, mrt_num_align8 sizeof_thread) :: X' ++ B ++ D ++ L) st' /\
        born tid it th pfunc args a' (fun x => known L x /\ x <> it) st st')).
Proof.
  intros Hst Es Esl Hk Hit0 Ht Hn Hit Ha HB Hs HD Hh. destruct (inside_ok X L st Hst) as (_ & Hok1 & Hc1 & Hok2 & Hsame).
  assert (forall t p s, ts_slots st !! t = Some p -> (p, s) ∈ L -> 0 < s -> known L p /\ p <> it) as HP.
  { intros t p s Hp Hin Hs0. split; [left; by exists s|]. intros ->. by apply (Hit0 t). }
  destruct (create_with_attr_spec tid sprt_attr it a B D L pfunc args ptr_id st1) as (r & out & st' & E & Hcase); try done.
  { by rewrite Es. } { unfold calm. by rewrite Es. } { by rewrite Es. }
  exists r, out, st'. split; [exact E|]. rewrite Es, Esl in Hcase.
  destruct Hcase as [(-> & -> & Hh' & Esc & Esl' & Hk' & Hz)|(th & a' & X' & s' & -> & -> & Hv & HX & Hh' & Hoks & Ecpu & Esc & [T1 T2 T3 T4 T5 T6 T7])].
  - left. split_and!; try done. assert (kept (fun x => known L x /\ x <> it) st st') as Hk2 by (by eapply kept_trans).
    split_and!; [|by rewrite Esc|done|done]. split; try done.
    + by rewrite Esc.
    + rewrite Esc. rewrite (sb_cpu _ _ Hsame). by apply (tk_cnt _ _ _ Hst).
    + rewrite Esl'. exact (slots_kept _ X L L st st' Hst HP Hk2 (reflexivity _)).
    + intros t. rewrite Esl', Esc, (sb_tids _ _ Hsame). apply (tk_dom _ _ _ Hst).
  - right. exists th, a', X'. assert (kept (fun x => known L x /\ x <> it) st st') as Hk2 by (by eapply kept_trans).
    destruct (reenabled_ok (ts_sched st) s' Hoks (tk_cnt _ _ _ Hst) (tk_sched _ _ _ Hst) Ecpu) as [Hokr Ecr].
    split_and!; try done; [split|]; rewrite ?Esc, ?Es in *; try done.
    + rewrite Ecr. by apply (tk_cnt _ _ _ Hst).
    + intros t p Hp. rewrite T4, Esl in Hp. destruct (decide (t = tid)) as [->|Hne].
      * rewrite lookup_insert_eq in Hp. simplify_eq. eexists _, _. split_and!; [exact T5|done|by left|].
        destruct (align8_spec sizeof_thread); unfold W32; lia.
      * rewrite lookup_insert_ne in Hp by done. eapply (slots_kept _ X L _ st st' Hst HP Hk2); [|done]. intros y Hy. right. rewrite !elem_of_app. auto.
    + intros t. rewrite T1, T4, Esl. destruct (decide (t = tid)) as [->|Hne]; [by rewrite !lookup_insert_eq|].
      rewrite !lookup_insert_ne by done. apply (tk_dom _ _ _ Hst).
    + split; rewrite ?Esc; try done. by rewrite T4, Esl.
Qed.

(** The first part of the call: an id, or nothing at all. *)
Lemma create_tid base flags X L st : ts_ok X L st ->
  exists i n tid, tid_range base flags = (i, n) /\
    get_unused_tid_from_scheduler i (Z.to_nat n) (set_cpu (mrt_preempt_disable (s_cpu (ts_sched st))) (ts_sched st)) = Ok (tid, inside (ts_sched st)) /\
    (tid < 0 /\ (forall j, wanted base flags j -> is_Some (s_tids (ts_sched st) !! j)) \/
     (0 <= tid < THREAD_MAX_NUM /\ wanted base flags tid /\ allowed flags tid /\ (allowed flags base -> tid = base) /\ s_tids (ts_sched st) !! tid = None)).
Proof.
  intros Hst. destruct (tid_range base flags) as [i n] eqn:E. destruct (tid_range_spec _ _ _ _ E) as (Hi & Hn & Hin & Hall).
  destruct (inside_ok _ _ _ Hst) as (Hd & _). destruct (unused_spec i (Z.to_nat n) _ Hd Hi ltac:(lia)) as (r & Er & Hr).
  exists i, n, r. split_and!; [done|exact Er|]. rewrite Z2Nat.id in Hr by lia. destruct Hr as [[Hr Hnone]|[-> Hfull]]; [right|left; split; [done|]; intros j Hj; by apply Hfull, Hall].
  pose proof (proj1 (Hall r) Hr) as [Hal Hb]. split_and!; [lia|lia|done|done| |done]. intros Hab. assert (u32 base = base) as Eb.
  { apply u32_id. unfold allowed, THREAD_TID_START, THREAD_MAX_NUM in Hab. unfold W32. destruct (_ =? THREAD_USER); lia. }
  rewrite Eb in Hb. by apply Hb.
Qed.

(** The call left no trace: blocks, table, lists, processor and records. *)
Definition undone (L : list (Z * Z)) (st st' : tsys) : Prop :=
  ts_ok [] L st' /\ same_table (ts_sched st) (ts_sched st') /\ ts_slots st' = ts_slots st /\ kept (known L) st st'.
Lemma undone_intro L st st' :
  ts_ok [] L st -> heap_inv (ts_heap st') L -> ts_sched st' = reenabled (inside (ts_sched st)) -> ts_slots st' = ts_slots st ->
  kept (known L) st st' -> undone L st st'.
Proof.
  intros Hst Hh Es Esl Hk. destruct (inside_ok _ _ _ Hst) as (_ & _ & _ & Hok & Hs). unfold undone. rewrite Es.
  split_and!; try done. split; rewrite ?Es, ?Esl; try done.
  - rewrite (sb_cpu _ _ Hs). exact (tk_cnt _ _ _ Hst).
  - exact (slots_kept (known L) [] L L st _ Hst (fun t p s _ Hp Hs => or_introl (ex_intro _ s (conj Hp Hs))) Hk (reflexivity _)).
  - intros t. rewrite (sb_tids _ _ Hs). exact (tk_dom _ _ _ Hst t).
Qed.

Lemma revised_default q : 0 < stack_top q THREAD_STACK_DEFAULT -> forall a X, revised_to (default_attr q) a X -> a = default_attr q /\ X = [].
Proof. intros Hq a X [(_ & -> & ->)|(E & _)]; [done|]. simpl in E. lia. Qed.

(** C10: creating a thread with the default attribute returns, and is all or
    nothing.  On success the thread has a free id of its kind (the one asked for
    if that is one), is ready in priority order, and has a control block, an
    attribute and a stack in three new blocks.  On failure exactly the blocks
    that were live before are live, and table, lists, interrupt mask and
    preemption depth are as before.  Other threads' records never change. *)
Theorem thread_create_all_or_nothing (ptr_id : bool) base pfunc args flags L st :
  ts_ok [] L st ->
  exists r out st', __thread_create sizeof_attr sizeof_thread ptr_id base 0 pfunc args flags st = Ok (r, out, st') /\
    ((r = - ER_FAULT /\ out = None /\ undone L st st') \/
     (exists tid it sk th, r = ER_NORMAL /\ out = (if ptr_id then Some tid else None) /\
        allowed flags tid /\ (allowed flags base -> tid = base) /\ s_tids (ts_sched st) !! tid = None /\
        ts_ok [] ((th, mrt_num_align8 sizeof_thread) :: (sk, DS) :: (it, mrt_num_align8 sizeof_attr) :: L) st' /\
        born tid it th pfunc args (default_attr sk) (known L) st st')).
Proof.
  intros Hst. unfold __thread_create, create_fail. destruct (create_tid base flags [] L st Hst) as (i & n & tid & -> & E & Ht).
  simpl ts_sched. rewrite E. cbn [mbind res_bind]. destruct (inside_ok _ _ _ Hst) as (_ & _ & Hcalm & _).
  destruct (Z.ltb_spec tid 0) as [Hneg|Hpos].
  { eexists _, _, _. split; [done|]. left. split_and!; try done. by apply undone_intro; [|exact (tk_heap _ _ _ Hst)|..]. }
  destruct Ht as [[? _]|(Ht & Hwant & Hal & Hbase & Hn)]; [lia|]. cbn [Z.eqb].
  change (on_sched (inside (ts_sched st)) (on_sched _ st)) with (on_sched (inside (ts_sched st)) st).
  destruct (t_kmalloc_spec (on_sched (inside (ts_sched st)) st) L sizeof_attr GFP_KERNEL) as (it & h & E2 & Hcase); [done|exact (tk_heap _ _ _ Hst)|done|unfold W32; lia|].
  rewrite E2. cbn [mbind res_bind]. destruct Hcase as [[-> Hh]|[Hv Hh]].
  { cbn [isValid Z.eqb negb andb nullptr]. eexists _, _, _. split; [done|]. left. split_and!; try done. by apply undone_intro. }
  rewrite Hv. cbn [negb]. destruct (align8_spec sizeof_attr) as [Hsz _]; [unfold W32; lia|].
  assert (~ known L it) as Hunk by (eapply fresh_unknown; [exact Hh|lia]).
  assert (forall x, known L x -> known L x /\ x <> it) as Hkn by (intros x Hx; split; [done|by intros ->]).
  set (st1 := with_heap h (on_sched (inside (ts_sched st)) st)).
  destruct (attr_init_spec it ((it, mrt_num_align8 sizeof_attr) :: L) st1) as (r & a & h2 & E3 & Hcase);
    [exact Hcalm|exact Hh|eapply writable_block; [by left|lia]|]. rewrite E3. cbn [mbind res_bind].
  destruct Hcase as [(-> & Hh2 & Hs0)|(q & Er & Hr & -> & Hq & Hh2)].
  { cbn [Z.eqb]. unfold create_fail2, create_fail. cbn [isValid Z.eqb negb andb].
    destruct (t_kfree_spec (with_heap h2 (put_attr it a st1)) L it (mrt_num_align8 sizeof_attr)) as (h3 & E4 & Hh3); [exact Hcalm|exact Hh2|lia|].
    rewrite E4. cbn [mbind res_bind]. eexists _, _, _. split; [done|]. left. split_and!; try done. apply undone_intro; try done.
    eapply kept_eq; [| |eapply kept_trans; [apply (kept_put (known L) it a st Hunk)|by apply kept_forget]]; done. }
  assert (r <> 0) as Hr0 by lia. rewrite (proj2 (Z.eqb_neq r 0) Hr0). change (stack_addr (default_attr q)) with (stack_top q THREAD_STACK_DEFAULT) in Er. subst r.
  destruct (create_finish tid 0 it (default_attr q) [(q, DS)] [(it, mrt_num_align8 sizeof_attr)] L [] pfunc args ptr_id st (with_heap h2 (put_attr it (default_attr q) st1)))
    as (r & out & st' & E5 & Hcase); try done.
  { apply (kept_eq _ st (put_attr it (default_attr q) st)); [done..|]. apply kept_put. by intros [_ []]. }
  { intros t Hp. destruct (tk_slot _ _ _ Hst t it Hp) as (? & s & _ & _ & Hin & Hs). apply Hunk. left. by exists s. }
  { by apply isValid_nonzero. } { apply lookup_insert_eq. }
  { right. exists DS. simpl. split_and!; [by apply isValid_nonzero|rewrite DS_eq; lia|done]. }
  { left. split; [done|]. eexists. split; [|done]. lia. }
  exists r, out, st'. split; [exact E5|]. destruct Hcase as [(-> & -> & (G1 & G2 & G3 & G4) & _)|(th & a' & X' & -> & -> & HX & G1 & G2)].
  - left. unfold undone. split_and!; try done. exact (kept_mono _ _ _ _ Hkn G4).
  - destruct (revised_default q Hr a' X' HX) as [-> ->]. right. exists tid, it, q, th. split_and!; try done.
    destruct G2. split; try done. by eapply (kept_mono _ _ _ _ Hkn).
Qed.

Lemma reenabled_st X L st : ts_ok X L st -> ts_ok X L (on_sched (reenabled (inside (ts_sched st))) st).
Proof.
  intros Hst. destruct (inside_ok _ _ _ Hst) as (_ & _ & _ & Hok & Hs). destruct Hst as [H1 H2 H3 H4 H5].
  split; try done. simpl ts_sched. by rewrite (sb_cpu _ _ Hs).
Qed.
Lemma create_caller_spec (ptr_id : bool) base p a B pfunc args flags L st :
  ts_ok B L st -> isValid p = true -> ts_attrs st !! p = Some a -> stack_block a B -> (stack_addr a = 0 -> ptr_stack_start a = 0) ->
  writable L p sizeof_attr -> (forall t, ts_slots st !! t <> Some p) ->
  exists r out st', __thread_create sizeof_attr sizeof_thread ptr_id base p pfunc args flags st = Ok (r, out, st') /\
    ((r = - ER_FAULT /\ out = None /\ (forall j, wanted base flags j -> is_Some (s_tids (ts_sched st) !! j)) /\
        ts_ok B L st' /\ same_table (ts_sched st) (ts_sched st') /\ st' = on_sched (ts_sched st') st) \/
     (r = - ER_FAULT /\ out = None /\ (exists j, wanted base flags j /\ s_tids (ts_sched st) !! j = None) /\
        gave_up L p st st' /\ ts_attrs st' !! p = Some zero_attr) \/
     (exists tid th a' X, r = ER_NORMAL /\ out = (if ptr_id then Some tid else None) /\
        allowed flags tid /\ (allowed flags base -> tid = base) /\ s_tids (ts_sched st) !! tid = None /\ revised_to a a' X /\
        ts_ok [] ((th, mrt_num_align8 sizeof_thread) :: X ++ B ++ L) st' /\
        born tid p th pfunc args a' (fun x => known L x /\ x <> p) st st')).
Proof.
  intros Hst Hv Ha HB Hs Hw Hslot. unfold __thread_create, create_fail. destruct (create_tid base flags B L st Hst) as (i & n & tid & -> & E & Ht).
  simpl ts_sched. rewrite E. cbn [mbind res_bind]. destruct (inside_ok _ _ _ Hst) as (_ & _ & Hcalm & _ & Hsame).
  destruct (Z.ltb_spec tid 0) as [Hneg|Hpos].
  { destruct Ht as [[_ Hfull]|(? & _)]; [|lia]. eexists _, _, _. split; [done|]. left. split_and!; try done. exact (reenabled_st _ _ _ Hst). }
  destruct Ht as [[? _]|(Ht & Hwant & Hal & Hbase & Hn)]; [lia|]. pose proof (isValid_nonzero _ Hv) as Hp. rewrite (proj2 (Z.eqb_neq p 0) Hp).
  destruct (create_finish tid p p a B [] L B pfunc args ptr_id st (on_sched (inside (ts_sched st)) st)) as (r & out & st' & E5 & Hcase); try done.
  { right. by split_and!. } { exact (tk_heap _ _ _ Hst). }
  exists r, out, st'. split; [exact E5|]. right. destruct Hcase as [(-> & -> & G1 & G2)|(th & a' & X' & -> & -> & HX & G1 & G2)].
  - left. split_and!; try done; [by exists tid|by apply G2].
  - right. exists tid, th, a', X'. by split_and!.
Qed.

(** C11: creating a thread with the caller's attribute at [p].  If every id the call
    may use is taken, nothing changes.  Otherwise it succeeds, with defaults filled in and a stack
    allocated if the attribute had none, or fails with the attribute cleared and
    its own stack (the blocks [B]) given back; in both cases no other record
    changes and no block is lost. *)
Theorem thread_create_with_attribute (ptr_id : bool) base p a B pfunc args flags L st :
  ts_ok B L st -> isValid p = true -> ts_attrs st !! p = Some a -> stack_block a B -> (stack_addr a = 0 -> ptr_stack_start a = 0) ->
  writable L p sizeof_attr -> (forall t, ts_slots st !! t <> Some p) ->
  exists r out st', __thread_create sizeof_attr sizeof_thread ptr_id base p pfunc args flags st = Ok (r, out, st') /\
    ((r = - ER_FAULT /\ out = None /\ (forall j, wanted base flags j -> is_Some (s_tids (ts_sched st) !! j)) /\
        ts_ok B L st' /\ same_table (ts_sched st) (ts_sched st') /\ st' = on_sched (ts_sched st') st) \/
     (r = - ER_FAULT /\ out = None /\ (exists j, wanted base flags j /\ s_tids (ts_sched st) !! j = None) /\
        gave_up L p st st' /\ ts_attrs st' !! p = Some zero_attr) \/
     (exists tid th a' X, r = ER_NORMAL /\ out = (if ptr_id then Some tid else None) /\
        allowed flags tid /\ (allowed flags base -> tid = base) /\ s_tids (ts_sched st) !! tid = None /\ revised_to a a' X /\
        ts_ok [] ((th, mrt_num_align8 sizeof_thread) :: X ++ B ++ L) st' /\
        born tid p th pfunc args a' (fun x => known L x /\ x <> p) st st')).
Proof. apply create_caller_spec. Qed.

(** ** Attributes are well-formed once checked *)
Definition attr_wf (a : thread_attr) : Prop :=
  sched_priority a <> 0 /\ mrt_is_timespec_empty (mrt_sched_init_budget a) = false /\ stack_addr a <> 0.
Lemma revised_set a : sched_priority (revised a) <> 0 /\ mrt_is_timespec_empty (mrt_sched_init_budget (revised a)) = false.
Proof. unfold revised. destruct (Z.eqb_spec (sched_priority a) 0), (mrt_is_timespec_empty (mrt_sched_init_budget a)) eqn:E; done. Qed.
(** Every attribute that leaves [thread_attr_init] or [thread_attr_revise]
    with success is well-formed: it has a priority, a time slice and a stack.  On
    a well-formed attribute [thread_attr_revise] changes nothing. *)
Theorem attributes_well_formed p a L st :
  calm st -> heap_inv (ts_heap st) L -> p <> 0 -> writable L p sizeof_attr ->
  ts_attrs st !! p = Some a -> (stack_addr a = 0 -> ptr_stack_start a = 0) ->
  (exists r st' b, thread_attr_init sizeof_attr p st = Ok (r, st') /\ ts_attrs st' !! p = Some b /\ (r <> 0 -> attr_wf b /\ r = stack_addr b)) /\
  (exists r st' b, thread_attr_revise p st = Ok (r, st') /\ ts_attrs st' !! p = Some b /\ (r <> 0 -> attr_wf b /\ r = stack_addr b)) /\
  (attr_wf a -> thread_attr_revise p st = Ok (stack_addr a, st)).
Proof.
  intros Hc Hh Hp Hw Ha Hs. split_and!.
  - destruct (attr_init_spec p L st Hc Hh Hw) as (r & b & h & -> & Hcase). eexists _, _, b. split; [done|]. split; [apply lookup_insert_eq|].
    intros Hr. destruct Hcase as [(? & _)|(q & Er & Hr0 & -> & _)]; [done|]. split; [|done]. split_and!; [done..|lia].
  - destruct (attr_revise_spec p a L st Hc Hh Hp Ha Hs) as (r & b & h & -> & Hcase). eexists _, _, b. split; [done|]. split; [apply lookup_insert_eq|].
    intros Hr. destruct Hcase as [(? & _)|(X & _ & Er & HX & _)]; [done|]. split; [|done].
    destruct HX as [(Hsa & -> & _)|(Hsa & q & _ & Hpos & -> & _)]; [|].
    { destruct (revised_set a), (revised_stack a) as [Es _]. by rewrite <- Es in Hsa. }
    destruct (revised_set a). split_and!; [done..|]. simpl in *. lia.
  - intros Hwf. pose proof Hwf as (H1 & H2 & H3). unfold thread_attr_revise. rewrite (proj2 (Z.eqb_neq p 0) Hp), Ha. cbn [deref mbind res_bind].
    by rewrite (proj2 (Z.eqb_neq _ 0) H1), H2, (proj2 (Z.eqb_neq _ 0) H3).
Qed.

(** ** The kernel's own threads *)
Record static_thread (p stack size : Z) (st : tsys) : Prop := {
  sx_attr : isValid p = true /\ heap_static p sizeof_attr /\ ts_attrs st !! p = Some zero_attr;
  sx_stack : isValid stack = true /\ 0 < stack /\ 512 <= size /\ stack + size < W32 - 8 /\ heap_static (stack_top stack size) sizeof_regs;
}.
Definition static_attr (stack size priority : Z) : thread_attr :=
  thread_set_time_slice THREAD_TIME_DEFUALT (thread_set_priority priority
    (with_stack 0 stack size (Attr THREAD_CREATE_JOINABLE THREAD_SCHED_FIFO THREAD_INHERIT_SCHED 0 0 (TimeSpec 0 0) 0 0 0))).

Lemma set_stack_static p a stack size st :
  ts_attrs st !! p = Some a -> ptr_stack_start a = 0 -> isValid stack = true -> 0 < stack -> 512 <= size -> stack + size < W32 - 8 ->
  thread_set_stack p nullptr stack size st =
    Ok (stack_top stack size, with_heap (heap_fill (ts_heap st) (stack_top stack size) 0 sizeof_regs) (put_attr p (with_stack 0 stack size a) st)) /\
  0 < stack_top stack size.
Proof.
  intros Ha Hz Hs Hs0 Hs1 Hs2. destruct (stack_top_spec stack size Hs0 Hs1) as (Hd & Hlo & Hhi); [lia|].
  split; [|unfold sizeof_regs in *; lia]. assert (thread_get_context (with_stack 0 stack size a) = stack_top stack size) as Ec.
  { apply (context_at_top (with_stack 0 stack size a)); simpl; unfold sizeof_regs in *; [done|lia..]. }
  unfold thread_set_stack, nullptr. rewrite Hs. change THREAD_STACK_MIN with 512. rewrite (proj2 (Z.ltb_ge size 512) Hs1).
  cbn [negb orb andb Z.eqb]. rewrite Ha. cbn [deref mbind res_bind]. rewrite Hz. cbn [isValid Z.eqb negb andb mbind res_bind].
  by rewrite Ec, (upd_put _ p a).
Qed.
Lemma setup_attr_spec p stack size priority L st :
  heap_inv (ts_heap st) L -> static_thread p stack size st ->
  exists h, setup_attr p stack size priority st = Ok (with_heap h (put_attr p (static_attr stack size priority) st)) /\ heap_inv h L /\
    0 < stack_top stack size.
Proof.
  intros Hh [(Hv & _ & Ha) (Hs & Hs0 & Hs1 & Hs2 & Hst)]. unfold setup_attr. rewrite Ha. cbn [deref mbind res_bind].
  rewrite (upd_put _ p zero_attr) by done. cbn [sched_priority sched_curpriority mrt_sched_init_budget ptr_stack_start stack_addr stacksize zero_attr].
  set (a0 := Attr THREAD_CREATE_JOINABLE _ _ _ _ _ _ _ _).
  destruct (set_stack_static p a0 stack size (put_attr p a0 st)) as [E Htop]; [apply put_lookup|done..|].
  rewrite E. cbn [mbind res_bind]. rewrite put_put, !upd_with_put. eexists. split; [done|]. split; [by apply heap_fill_static|done].
Qed.

(** A static attribute is no control block. *)
Lemma static_no_slot X L st p t : ts_ok X L st -> heap_static p sizeof_attr -> ts_slots st !! t <> Some p.
Proof.
  intros Hst Hp Ht. destruct (tk_slot _ _ _ Hst t p Ht) as (_ & s & _ & _ & Hin & Hs).
  pose proof (heap_static_live _ _ _ _ p s (tk_heap _ _ _ Hst) Hp ltac:(apply elem_of_app; by right)). lia.
Qed.

(** Setting up a static attribute and creating kernel thread [tid] with it. *)
Lemma start_static_spec p stack size priority tid entry L st :
  ts_ok [] L st -> static_thread p stack size st -> 0 <= tid < THREAD_TID_START ->
  exists st1 r st', setup_attr p stack size priority st = Ok st1 /\
    __kernel_thread_create sizeof_attr sizeof_thread false tid p entry nullptr st1 = Ok (r, None, st') /\
    ((r = - ER_FAULT /\ ts_ok [] L st' /\ same_table (ts_sched st) (ts_sched st')) \/
     (r = ER_NORMAL /\ s_tids (ts_sched st) !! tid = None /\ exists th, ts_ok [] ((th, mrt_num_align8 sizeof_thread) :: L) st' /\
        born tid p th entry nullptr (revised (static_attr stack size priority)) (fun x => known L x /\ x <> p) st st')).
Proof.
  intros Hst Hx Ht. destruct (setup_attr_spec p stack size priority L st (tk_heap _ _ _ Hst) Hx) as (h & E & Hh & Htop).
  destruct Hx as [(Hv & Hps & Ha) _]. set (a := static_attr stack size priority) in *. set (st1 := with_heap h (put_attr p a st)).
  assert (kept (fun x => known L x /\ x <> p) st st1) as Hk.
  { apply (kept_eq _ st (put_attr p a st)); [done..|]. apply kept_put. by intros [_ []]. }
  assert (ts_ok [] L st1) as Hst1 by (destruct Hst as [H1 H2 H3 H4 H5]; by split).
  destruct (create_caller_spec false tid p a [] entry nullptr 0 L st1 Hst1 Hv) as (r & out & st' & E2 & Hcase).
  { apply put_lookup. } { by left. } { done. } { by left. } { intros t. by apply (static_no_slot [] L st1). }
  exists st1. destruct Hcase as [(-> & -> & _ & G1 & G2 & _)|[(-> & -> & _ & (G1 & G2 & _) & _)|(tid' & th & a' & X & -> & -> & _ & Hb & Hn & HX & G1 & G2)]].
  - eexists _, _. split_and!; [done|done|]. left. by split_and!.
  - eexists _, _. split_and!; [done|done|]. left. by split_and!.
  - specialize (Hb Ht). subst tid'. destruct HX as [(_ & -> & ->)|(Hz & _)]; [|change (stack_top stack size = 0) in Hz; lia].
    eexists _, _. split_and!; [done|done|]. right. split_and!; try done. exists th. split; [done|].
    destruct G2 as [T1 T2 T3 T4 T5 T6 T7]. split; try done. by eapply kept_trans.
Qed.

(** Starting kernel thread [tid] from static storage either fails and leaves the
    system as it was, or makes it ready with the given priority. *)
Definition starts (tid p stack entry priority : Z) (L : list (Z * Z)) (st : tsys) (o : res (Z * tsys)) : Prop :=
  exists r st', o = Ok (r, st') /\
    ((r = - ER_FAULT /\ ts_ok [] L st' /\ same_table (ts_sched st) (ts_sched st')) \/
     (r = ER_NORMAL /\ s_tids (ts_sched st) !! tid = None /\ exists th a, ts_ok [] ((th, mrt_num_align8 sizeof_thread) :: L) st' /\
        thread_get_priority a = priority /\ ptr_stack_start a = 0 /\ stack < stack_addr a /\
        born tid p th entry nullptr a (fun x => known L x /\ x <> p) st st')).

Lemma starts_intro p stack size asked priority tid entry L st (f : tsys -> res (Z * option Z * tsys)) :
  ts_ok [] L st -> static_thread p stack size st -> 0 <= tid < THREAD_TID_START ->
  thread_get_priority (revised (static_attr stack size asked)) = priority ->
  (forall st1, f st1 = __kernel_thread_create sizeof_attr sizeof_thread false tid p entry nullptr st1) ->
  starts tid p stack entry priority L st (st ← setup_attr p stack size asked st; '(r, _, st) ← f st; Ok (r, st)).
Proof.
  intros Hst Hx Ht Hpr Hf. destruct (start_static_spec p stack size asked tid entry L st Hst Hx Ht) as (st1 & r & st' & E1 & E2 & Hcase).
  exists r, st'. rewrite E1. cbn [mbind res_bind]. rewrite Hf, E2. cbn [mbind res_bind]. split; [done|].
  destruct Hcase as [?|(-> & Hn & th & G1 & G2)]; [by left|right]. split_and!; try done. eexists th, _. split_and!; [done|done| | |done].
  - by rewrite (proj2 (revised_stack _)).
  - rewrite (proj1 (revised_stack _)). destruct Hx as [_ (_ & Hs0 & Hs1 & Hs2 & _)].
    destruct (stack_top_spec stack size Hs0 Hs1) as (_ & Hlo & _); [lia|]. change (stack < stack_top stack size). unfold sizeof_regs in *. lia.
Qed.

(** The idle, base and init threads start under their fixed ids from their
    static stacks, or the call fails and leaves the system as it was.  The idle
    thread gets priority 98 and the init thread 1; the base thread asks for the
    highest priority, 0, and gets the default, 80. *)
Theorem kernel_threads_start p stack entry L st :
  ts_ok [] L st ->
  (static_thread p stack (4 * THREAD_STACK_QUAR 1) st ->
    starts THREAD_TID_IDLE p stack entry THREAD_PROTY_IDLE L st (rest_init sizeof_attr sizeof_thread p stack entry st)) /\
  (static_thread p stack (4 * THREAD_STACK_HALF 1) st ->
    starts THREAD_TID_BASE p stack entry THREAD_PROTY_DEFAULT L st (kthread_init sizeof_attr sizeof_thread p stack entry st) /\
    starts THREAD_TID_INIT p stack entry THREAD_PROTY_INIT L st (init_proc_init sizeof_attr sizeof_thread p stack entry st)).
Proof.
  intros Hst. split; [|split]; intros; eapply starts_intro; try done; lia.
Qed.
End creation.

(** ** An example: the empty scheduler over the 16 KiB heap, with one static attribute *)
Definition demo_tsys : @tsys kheap := TSys sched_boot demo_kheap {[ 8192 := zero_attr ]} ∅ ∅.
Lemma demo_tsys_ok : ts_ok [] [] demo_tsys.
Proof.
  split; [exact boot_ok|reflexivity|exact demo_kheap_inv|done|]. intros t. simpl. split; intros [x Hx]; by rewrite lookup_empty in Hx.
Qed.
Definition demo_result : Z :=
  match __thread_create 200 128 true (-1) 0 4000 0 THREAD_USER demo_tsys with Ok (r, _, _) => r | _ => 1 end.

Lemma thread_create_all_or_nothing_witness : exists tid it sk th st',
  __thread_create 200 128 true (-1) 0 4000 0 THREAD_USER demo_tsys = Ok (ER_NORMAL, Some tid, st') /\
  ts_ok [] [(th, 128); (sk, 2056); (it, 200)] st' /\ born tid it th 4000 0 (default_attr sk) (known 200 []) demo_tsys st'.
Proof.
  destruct (thread_create_all_or_nothing 200 128 ltac:(lia) ltac:(lia) true (-1) 4000 0 THREAD_USER [] demo_tsys demo_tsys_ok)
    as (r & out & st' & E & Hcase).
  assert (demo_result = r) as Hr by (unfold demo_result; rewrite E; reflexivity).
  assert (demo_result = ER_NORMAL) as Hd by (vm_compute; reflexivity).
  destruct Hcase as [(Hf & _)|(tid & it & sk & th & Hn & Ho & _ & _ & _ & G1 & G2)]; [rewrite <- Hr, Hd in Hf; discriminate Hf|].
  exists tid, it, sk, th, st'. split; [rewrite E, Hn, Ho; reflexivity|]. split; [exact G1|exact G2].
Defined.

(** The static attribute at 8192 without a stack: one is allocated. *)
Lemma demo_static : k_static demo_infos demo_kpools 8192 200.
Proof.
  unfold k_static, apart_ranges, demo_infos, info_size, W32. split_and!; try lia. intros [|[|[|[|i]]]] q [= <-]. right. vm_compute. discriminate.
Qed.
Definition demo_result2 : Z :=
  match __thread_create 200 128 true (-1) 8192 4000 0 0 demo_tsys with Ok (r, _, _) => r | _ => 1 end.
Lemma thread_create_with_attribute_witness : exists tid th a X st',
  __thread_create 200 128 true (-1) 8192 4000 0 0 demo_tsys = Ok (ER_NORMAL, Some tid, st') /\
  ts_ok [] ((th, 128) :: X ++ [] ++ []) st' /\ born tid 8192 th 4000 0 a (fun x => known 200 [] x /\ x <> 8192) demo_tsys st'.
Proof.
  destruct (thread_create_with_attribute 200 128 ltac:(lia) ltac:(lia) true (-1) 8192 zero_attr [] 4000 0 0 [] demo_tsys demo_tsys_ok)
    as (r & out & st' & E & Hcase); [reflexivity|reflexivity|left; split; reflexivity|reflexivity|left; exact demo_static|intros t; discriminate|].
  assert (demo_result2 = r) as Hr by (unfold demo_result2; rewrite E; reflexivity).
  assert (demo_result2 = ER_NORMAL) as Hd by (vm_compute; reflexivity).
  destruct Hcase as [(Hf & _)|[(Hf & _)|(tid & th & a & X & Hn & Ho & _ & _ & _ & _ & G1 & G2)]]; [rewrite <- Hr, Hd in Hf; discriminate Hf..|].
  exists tid, th, a, X, st'. split; [rewrite E, Hn, Ho; reflexivity|]. split; [exact G1|exact G2].
Defined.
Lemma attributes_well_formed_witness : exists r st' b,
  thread_attr_revise 8192 demo_tsys = Ok (r, st') /\ ts_attrs st' !! 8192 = Some b /\ (r <> 0 -> attr_wf b /\ r = stack_addr b).
Proof.
  apply (attributes_well_formed 200 ltac:(lia) 8192 zero_attr [] demo_tsys);
    [split; [discriminate|reflexivity]|exact demo_kheap_inv|discriminate|left; exact demo_static|reflexivity|reflexivity].
Defined.
Lemma demo_static_thread : static_thread 200 8192 12288 (4 * THREAD_STACK_HALF 1) demo_tsys.
Proof.
  split; [split_and!; [reflexivity|exact demo_static|reflexivity]|]. change (4 * THREAD_STACK_HALF 1) with 8192. unfold W32. split_and!; try lia; [reflexivity|].
  assert (stack_top 12288 8192 = 20392) as -> by (vm_compute; reflexivity). unfold sizeof_regs, heap_static. simpl.
  unfold k_static, apart_ranges, demo_infos, info_size, W32. split_and!; try lia. intros [|[|[|[|i]]]] q [= <-]. right. vm_compute. discriminate.
Qed.
Lemma kernel_threads_start_witness :
  starts 200 128 THREAD_TID_BASE 8192 12288 4000 THREAD_PROTY_DEFAULT [] demo_tsys (kthread_init 200 128 8192 12288 4000 demo_tsys).
Proof. apply (kernel_threads_start 200 128 ltac:(lia) ltac:(lia) 8192 12288 4000 [] demo_tsys demo_tsys_ok), demo_static_thread. Defined.
