(* ===== verification/Mailbox.v ===== *)
(** * Mailboxes (kernel/mailbox.c, include/kernel/mailbox.h)

    Mailboxes and mails are records kept at the addresses of their blocks, the
    message arrays at the address inside the mail's block; message contents are
    bytes of the heap's memory (HeapContract.v).  A name is an array of 32 bytes;
    the text in it ends at the first zero. *)

From stdpp Require Import prelude gmap fin_maps sorting.
From S2P Require Import Prelude Mem MemPool Sync Generic KMalloc KName HeapContract.

Definition MAILBOX_NAME_LEN : nat := 32.
Definition NR_MAIL_NONE : Z := 0.

Record mail_msg := Msg { msg_type : Z; msg_code : Z; msg_buffer : Z; msg_size : Z }.
Record mail := Mail {
  src_name : Z;            (* the name of the mailbox at this address *)
  sprt_msg : Z;
  num_msgs : Z;
  mail_status : Z;
  mail_lock : Z;
}.
Record mailbox := Mailbox {
  mb_name : list Z;
  mb_tid : Z;
  num_mails : Z;
  sgrt_mail : list Z;
  mb_lock : Z;
}.

(** ** Names *)

(** ["mailbox-tid-%d"] *)
Definition mailbox_tid_name (tid : Z) : list Z :=
  [109; 97; 105; 108; 98; 111; 120; 45; 116; 105; 100; 45] ++ dec_text tid.

Section mailboxes.
Context {H : Type} `{KernelHeap H}.
(** Sizes of the structures, and what a fresh block holds where a name goes. *)
Context (sizeof_mailbox sizeof_mail : Z) (garbage : Z -> list Z).
Definition sizeof_msg : Z := 16.

Record msys := MSys {
  ms_heap : H;
  ms_cpu : cpu;
  ms_current : bool;                       (* a thread is running *)
  ms_boxes : list Z;                       (* sgrt_kernel_mailboxs *)
  ms_mbs : gmap Z mailbox;
  ms_mails : gmap Z mail;
  ms_msgs : gmap Z (list mail_msg);
  ms_threads : gmap Z Z;                   (* tid -> sprt_mb of the thread *)
}.
Definition set_heap (c : cpu) (h : H) (w : msys) : msys :=
  MSys h c (ms_current w) (ms_boxes w) (ms_mbs w) (ms_mails w) (ms_msgs w) (ms_threads w).
Definition set_boxes (l : list Z) (w : msys) : msys :=
  MSys (ms_heap w) (ms_cpu w) (ms_current w) l (ms_mbs w) (ms_mails w) (ms_msgs w) (ms_threads w).
Definition put_mb (p : Z) (mb : mailbox) (w : msys) : msys :=
  MSys (ms_heap w) (ms_cpu w) (ms_current w) (ms_boxes w) (<[p := mb]> (ms_mbs w)) (ms_mails w) (ms_msgs w) (ms_threads w).
Definition put_mail (p : Z) (ml : mail) (w : msys) : msys :=
  MSys (ms_heap w) (ms_cpu w) (ms_current w) (ms_boxes w) (ms_mbs w) (<[p := ml]> (ms_mails w)) (ms_msgs w) (ms_threads w).
Definition put_msgs (p : Z) (ms : list mail_msg) (w : msys) : msys :=
  MSys (ms_heap w) (ms_cpu w) (ms_current w) (ms_boxes w) (ms_mbs w) (ms_mails w) (<[p := ms]> (ms_msgs w)) (ms_threads w).
Definition put_thread (tid p : Z) (w : msys) : msys :=
  MSys (ms_heap w) (ms_cpu w) (ms_current w) (ms_boxes w) (ms_mbs w) (ms_mails w) (ms_msgs w) (<[tid := p]> (ms_threads w)).

Definition m_kmalloc (size flags : Z) (w : msys) : res (Z * msys) :=
  '(q, c, h) ← heap_alloc (ms_cpu w) (ms_heap w) size flags; Ok (q, set_heap c h w).
(** A freed block's record is gone. *)
Definition m_kfree (p : Z) (w : msys) : res msys :=
  '(c, h) ← heap_free (ms_cpu w) (ms_heap w) p;
  Ok (MSys h c (ms_current w) (ms_boxes w) (delete p (ms_mbs w)) (delete p (ms_mails w)) (ms_msgs w) (ms_threads w)).

(** ** Mailboxes *)
Fixpoint find_box (name : list Z) (boxes : list Z) (w : msys) : res (option Z) :=
  match boxes with
  | [] => Ok None
  | p :: boxes =>
      mb ← deref (ms_mbs w !! p);
      differs ← c_strcmp (mb_name mb) (name ++ [0]);
      if (differs : bool) then find_box name boxes w else Ok (Some p)
  end.
(** [None] is a null pointer. *)
Definition mailbox_find (name : option (list Z)) (w : msys) : res Z :=
  match name with
  | None | Some [] => Ok nullptr
  | Some name => o ← find_box name (ms_boxes w) w; Ok (default nullptr o)
  end.

(** The boxes up to the last one before the first with a larger id. *)
Fixpoint lower_run (tid : Z) (boxes : list Z) (w : msys) : res nat :=
  match boxes with
  | [] => Ok 0%nat
  | p :: boxes =>
      mb ← deref (ms_mbs w !! p);
      if tid <? mb_tid mb then Ok 0%nat else n ← lower_run tid boxes w; Ok (S n)
  end.
(** [list_head_add_tail(sprt_last, ...)] puts the new box before [sprt_last]. *)
Definition mailbox_insert (p : Z) (w : msys) : res msys :=
  mb ← deref (ms_mbs w !! p);
  n ← lower_run (mb_tid mb) (ms_boxes w) w;
  match n with
  | O => Ok (set_boxes (ms_boxes w ++ [p]) w)
  | S n => Ok (set_boxes (take n (ms_boxes w) ++ p :: drop n (ms_boxes w)) w)
  end.

Definition box_label (tid : Z) (name : option (list Z)) : list Z :=
  let label := replicate MAILBOX_NAME_LEN 0 in
  match name with
  | Some (c :: name) => name_copy label (c :: name) MAILBOX_NAME_LEN
  | _ => let s := mailbox_tid_name tid in s ++ drop (length s) label
  end.
Definition mailbox_init (p tid : Z) (name : option (list Z)) (w : msys) : res (Z * msys) :=
  t ← deref (ms_threads w !! tid);
  if negb (t =? 0) then Ok (- ER_FORBID, w)
  else
    let label := text (box_label tid name) in
    box ← mailbox_find (Some label) w;
    if negb (box =? 0) then Ok (- ER_EXISTED, w)
    else
      mb ← deref (ms_mbs w !! p);
      let w := put_mb p (Mailbox (name_copy (mb_name mb) label MAILBOX_NAME_LEN) tid 0 [] (mutex_init (mb_lock mb))) w in
      w ← mailbox_insert p w;
      Ok (ER_NORMAL, put_thread tid p w).
Definition mailbox_deinit (p : Z) (w : msys) : res msys :=
  mb ← deref (ms_mbs w !! p);
  _ ← deref (ms_threads w !! mb_tid mb);
  let w := put_thread (mb_tid mb) nullptr w in
  let w := set_boxes (filter (fun x => x <> p) (ms_boxes w)) w in
  Ok (put_mb p (Mailbox (mb_name mb) (mb_tid mb) (num_mails mb) (sgrt_mail mb) (mutex_init (mb_lock mb))) w).
Definition mailbox_create (tid : Z) (name : option (list Z)) (w : msys) : res (Z * msys) :=
  '(p, w) ← m_kmalloc sizeof_mailbox GFP_KERNEL w;
  if negb (isValid p) then Ok (p, w)
  else
    let w := put_mb p (Mailbox (garbage p) 0 0 [] 0) w in
    '(r, w) ← mailbox_init p tid name w;
    if negb (r =? 0) then w ← m_kfree p w; Ok (ERR_PTR (- ER_FAILD), w)
    else Ok (p, w).
Definition mailbox_destroy (p : Z) (w : msys) : res msys :=
  if p =? 0 then Ok w else w ← mailbox_deinit p w; m_kfree p w.

(** ** Mails *)
Definition mail_init (mb p : Z) (w : msys) : msys :=
  if (mb =? 0) || (p =? 0) then w
  else
    let h := heap_fill (ms_heap w) p 0 sizeof_mail in
    put_mail p (Mail mb 0 0 0 (mutex_init 0)) (set_heap (ms_cpu w) h w).
Definition mail_create (mb : Z) (w : msys) : res (Z * msys) :=
  '(p, w) ← m_kmalloc sizeof_mail GFP_KERNEL w;
  if negb (isValid p) then Ok (p, w) else Ok (p, mail_init mb p w).
(** The sender's mailbox is read through [src_name]. *)
Definition mail_destroy (mb p : Z) (w : msys) : res msys :=
  if p =? 0 then Ok w
  else if mb =? 0 then Ok w
  else
    b ← deref (ms_mbs w !! mb);
    ml ← deref (ms_mails w !! p);
    src ← deref (ms_mbs w !! src_name ml);
    differs ← c_strcmp (mb_name b) (mb_name src);
    if (differs : bool) then Ok w else m_kfree p w.

(** The copying loop: message [msg_idx] and the [n] after it.  [copied] are the
    messages so far; the boolean says whether all could be copied. *)
Fixpoint copy_msgs (n : nat) (src : list mail_msg) (msg_idx : nat) (copied : list mail_msg) (w : msys) : res (bool * list mail_msg * msys) :=
  match n with
  | O => Ok (true, copied, w)
  | S n =>
      m ← deref (src !! msg_idx);
      '(buffer, w) ← m_kmalloc (u32 (1 * msg_size m)) GFP_KERNEL w;
      if negb (isValid buffer) then Ok (false, copied, w)
      else
        let w := set_heap (ms_cpu w) (heap_copy (ms_heap w) buffer (msg_buffer m) (msg_size m)) w in
        copy_msgs n src (S msg_idx) (copied ++ [Msg (msg_type m) (msg_code m) buffer (msg_size m)]) w
  end.
(** [while (msg_idx) kfree(sprt_msg[--msg_idx].buffer)] *)
Fixpoint free_copied (rev_copied : list mail_msg) (w : msys) : res msys :=
  match rev_copied with
  | [] => Ok w
  | m :: rest => w ← m_kfree (msg_buffer m) w; free_copied rest w
  end.

Definition mail_send (mb_name : option (list Z)) (p : Z) (w : msys) : res (Z * msys) :=
  if p =? 0 then Ok (- ER_NOMEM, w)
  else
    ml ← deref (ms_mails w !! p);
    if sprt_msg ml =? 0 then Ok (- ER_NOMEM, w)
    else
      mb ← mailbox_find mb_name w;
      if negb (isValid mb) then Ok (PTR_ERR mb, w)
      else
        let size := mrt_align sizeof_mail 8 in
        let msg_bytes := u32 (num_msgs ml * sizeof_msg) in
        '(to, w) ← m_kmalloc (u32 (size + msg_bytes)) (Z.lor GFP_KERNEL GFP_ZERO) w;
        if negb (isValid to) then Ok (PTR_ERR to, w)
        else
          src ← deref (ms_msgs w !! sprt_msg ml);
          '(all, copied, w) ← copy_msgs (Z.to_nat (num_msgs ml)) src 0 [] w;
          if negb (all : bool) then
            w ← free_copied (reverse copied) w;
            w ← m_kfree to w;
            Ok (ER_FAILD, w)
          else
            let w := put_msgs (u32 (to + size)) copied w in
            let w := put_mail to (Mail (src_name ml) (u32 (to + size)) (num_msgs ml) NR_MAIL_NONE (mutex_init 0)) w in
            b ← deref (ms_mbs w !! mb);
            l ← mutex_lock (ms_current w) (mb_lock b);
            let b := Mailbox (Mailbox.mb_name b) (mb_tid b) (u32 (num_mails b + 1)) (sgrt_mail b ++ [to]) (mutex_unlock (ms_current w) l) in
            Ok (ER_NORMAL, put_mb mb b w).

(** [yield] is [schedule_delay_ms(timeout)] with everything other threads do
    meanwhile. *)
Fixpoint recv_wait (yield : msys -> res msys) (fuel : nat) (mb timeout : Z) (w : msys) : res (bool * msys) :=
  b ← deref (ms_mbs w !! mb);
  match sgrt_mail b with
  | _ :: _ => Ok (true, w)
  | [] =>
      if timeout =? 0 then Ok (false, w)
      else match fuel with
           | O => Spin
           | S fuel => w ← yield w; recv_wait yield fuel mb timeout w
           end
  end.
Definition mail_recv (yield : msys -> res msys) (fuel : nat) (mb timeout : Z) (w : msys) : res (Z * msys) :=
  if mb =? 0 then Ok (ERR_PTR (- ER_NOMEM), w)
  else
    '(some, w) ← recv_wait yield fuel mb timeout w;
    if negb (some : bool) then Ok (ERR_PTR (- ER_EMPTY), w)
    else
      b ← deref (ms_mbs w !! mb);
      l ← mutex_lock (ms_current w) (mb_lock b);
      match sgrt_mail b with
      | [] =>
          (* the entry of an empty list is its own head *)
          Ok (ERR_PTR (- ER_EMPTY), put_mb mb (Mailbox (mb_name b) (mb_tid b) (num_mails b) [] (mutex_unlock (ms_current w) l)) w)
      | recv :: rest =>
          Ok (recv, put_mb mb (Mailbox (mb_name b) (mb_tid b) (u32 (num_mails b - 1)) rest (mutex_unlock (ms_current w) l)) w)
      end.

Fixpoint free_buffers (n : nat) (msgs : list mail_msg) (idx : nat) (w : msys) : res msys :=
  match n with
  | O => Ok w
  | S n =>
      m ← deref (msgs !! idx);
      w ← (if negb (msg_buffer m =? 0) then m_kfree (msg_buffer m) w else Ok w);
      free_buffers n msgs (S idx) w
  end.
Definition mail_recv_finish (p : Z) (w : msys) : res msys :=
  ml ← deref (ms_mails w !! p);
  w ← (if negb (sprt_msg ml =? 0) then
         msgs ← deref (ms_msgs w !! sprt_msg ml);
         free_buffers (Z.to_nat (num_msgs ml)) msgs 0 w
       else Ok w);
  m_kfree p w.
End mailboxes.
