(* ===== verification/MailboxSpec.v ===== *)
(** * Mail is delivered whole or not at all

    A sent mail is a deep copy at the end of the receiver's queue; a send that
    runs out of memory gives back what it took.  Receiving takes the oldest mail,
    and finishing with it returns all its blocks. *)

From stdpp Require Import prelude gmap fin_maps sorting.
From S2P Require Import Prelude Mem MemPool Sync Generic KMalloc KMallocSpec KName HeapContract Mailbox.

Section mail.
Context {H : Type} `{KernelHeap H}.
Context (sizeof_mail : Z) (mail_size : 0 < sizeof_mail <= 4096).
Local Notation msys := (@msys H).

(** Addresses of records: live blocks and static storage. *)
Definition record_at (L : list (Z * Z)) (x : Z) : Prop := (exists s, (x, s) ∈ L /\ 0 < s) \/ heap_static x 1.
(** Bytes that can be read: of a live block or static. *)
Definition readable (L : list (Z * Z)) (a n : Z) : Prop :=
  0 < a /\ a + n < W32 /\ exists b k, (heap_static b k \/ (b, k) ∈ L) /\ b <= a /\ a + n <= b + k.

Record mw_ok (L : list (Z * Z)) (w : msys) : Prop := {
  mw_cpu : cpu_ok (ms_cpu w);
  mw_heap : heap_inv (ms_heap w) L;
  mw_mbs x : is_Some (ms_mbs w !! x) -> record_at L x;
  mw_mails x : is_Some (ms_mails w !! x) -> record_at L x;
}.
(** Live and static cells keep their contents. *)
Definition stable (L : list (Z * Z)) (h h' : H) : Prop :=
  forall a n x, heap_static a n \/ (a, n) ∈ L -> a <= x < a + n -> heap_read h' x = heap_read h x.
Lemma stable_trans L h1 h2 h3 : stable L h1 h2 -> stable L h2 h3 -> stable L h1 h3.
Proof. intros A B a n x Ha Hx. by rewrite (B a n), (A a n). Qed.
Lemma stable_mono L L' h h' : L ⊆ L' -> stable L' h h' -> stable L h h'.
Proof. intros HL A a n x [Ha|Ha] Hx; (eapply A; [|exact Hx]); [by left|right; by apply HL]. Qed.
Lemma stable_readable L h h' a n i : stable L h h' -> readable L a n -> 0 <= i < n -> heap_read h' (a + i) = heap_read h (a + i).
Proof. intros Hs (_ & _ & b & k & Hb & Hlo & Hhi) Hi. eapply Hs; [exact Hb|lia]. Qed.

(** A block apart from the live ones has no record. *)
Lemma fresh_record h L q s : heap_inv h ((q, s) :: L) -> 0 < s -> ~ record_at L q.
Proof.
  intros Hh Hs [(t & Ht & Ht0)|Hst].
  - pose proof (disjoint_head _ _ _ _ _ (proj1 (heap_inv_blocks _ _ Hh)) Ht). lia.
  - pose proof (heap_static_live _ _ _ _ q s Hh Hst ltac:(left)). lia.
Qed.
Lemma record_mono L L' x : L ⊆ L' -> record_at L x -> record_at L' x.
Proof. intros HL [(s & Hs & H0')|Hx]; [left|by right]. exists s. split; [by apply HL|done]. Qed.

Definition at_heap (h : H) (w : msys) : msys := set_heap (ms_cpu w) h w.
Lemma at_heap_self w : at_heap (ms_heap w) w = w.
Proof. by destruct w. Qed.

Lemma m_kmalloc_spec L w size flags : cpu_ok (ms_cpu w) -> heap_inv (ms_heap w) L -> kernel_flags flags -> 0 <= size <= W32 - 40 ->
  exists q h, m_kmalloc size flags w = Ok (q, at_heap h w) /\
    ((q = nullptr /\ heap_inv h L) \/ (isValid q = true /\ heap_inv h ((q, mrt_num_align8 size) :: L))) /\ stable L (ms_heap w) h.
Proof.
  intros Hc Hh Hf Hs. destruct (heap_alloc_spec _ _ _ size flags Hc Hh Hf Hs) as (q & h & E & Hcase & Hr).
  exists q, h. unfold m_kmalloc. rewrite E. done.
Qed.
(** Freeing a block without a record changes the heap only. *)
Lemma m_kfree_spec L w q s : cpu_ok (ms_cpu w) -> heap_inv (ms_heap w) ((q, s) :: L) -> 0 < s ->
  ms_mbs w !! q = None -> ms_mails w !! q = None ->
  exists h, m_kfree q w = Ok (at_heap h w) /\ heap_inv h L /\ stable L (ms_heap w) h.
Proof.
  intros Hc Hh Hs Hb Hm. destruct (heap_free_spec _ _ _ _ _ Hc Hh Hs) as (h & E & Hh' & Hr). exists h. split; [|done].
  unfold m_kfree. rewrite E. cbn [mbind res_bind]. by rewrite !delete_id.
Qed.

(** ** Copying messages *)
Definition good_msg (L : list (Z * Z)) (m : mail_msg) : Prop :=
  0 < msg_size m <= W32 - 40 /\ readable L (msg_buffer m) (msg_size m).
Definition blocks (ms : list mail_msg) : list (Z * Z) := (fun m => (msg_buffer m, mrt_num_align8 (msg_size m))) <$> ms.
(** [m'], read in [h'], says what [m] said in [h]. *)
Definition copy_of (h h' : H) (m m' : mail_msg) : Prop :=
  msg_type m' = msg_type m /\ msg_code m' = msg_code m /\ msg_size m' = msg_size m /\
  forall i, 0 <= i < msg_size m -> heap_read h' (msg_buffer m' + i) = heap_read h (msg_buffer m + i).

Lemma live_apart h L q s a n : heap_inv h ((q, s) :: L) -> heap_static a n \/ (a, n) ∈ L -> a + n <= q \/ q + s <= a.
Proof.
  intros Hh [Hs|Hin]; [by eapply heap_static_live; [exact Hh|exact Hs|left]|].
  pose proof (disjoint_head _ _ _ _ _ (proj1 (heap_inv_blocks _ _ Hh)) Hin). lia.
Qed.

(** One message: filling a fresh block. *)
Lemma fill_fresh h L q s m : heap_inv h ((q, s) :: L) -> msg_size m <= s -> good_msg L m ->
  let h' := heap_copy h q (msg_buffer m) (msg_size m) in
  heap_inv h' ((q, s) :: L) /\ stable L h h' /\
  forall i, 0 <= i < msg_size m -> heap_read h' (q + i) = heap_read h (msg_buffer m + i).
Proof.
  intros Hh Hsz (Hn & H0' & Hw & b & k & Hb & Hlo & Hhi). pose proof (live_apart _ _ _ _ _ _ Hh Hb) as Hap.
  destruct (heap_copy_live h _ q s q (msg_buffer m) (msg_size m) Hh ltac:(left)) as (Hh' & Hc & Ho); [lia..|].
  split; [done|]. split; [|done]. intros a n x Ha Hx. apply Ho. pose proof (live_apart _ _ _ _ _ _ Hh Ha). lia.
Qed.

Lemma copy_of_stable L h h1 h2 m m' : copy_of h h1 m m' -> stable L h1 h2 -> 0 <= msg_size m -> (msg_buffer m', mrt_num_align8 (msg_size m')) ∈ L ->
  msg_size m <= mrt_num_align8 (msg_size m) -> copy_of h h2 m m'.
Proof.
  intros (E1 & E2 & E3 & Hc) Hs Hn Hin Hle. split_and!; try done. intros i Hi. rewrite <- Hc by done.
  eapply Hs; [right; exact Hin|]. rewrite E3. lia.
Qed.

Lemma copies_stable L h h1 h2 src copied : Forall2 (copy_of h h1) src copied -> stable L h1 h2 ->
  (forall m, m ∈ src -> 0 < msg_size m <= W32 - 40) -> blocks copied ⊆ L -> Forall2 (copy_of h h2) src copied.
Proof.
  intros HF Hs Hm HL. induction HF as [|m m' src copied Hc HF IH]; [done|]. destruct (Hm m ltac:(left)) as [Hm0 Hm1].
  destruct (align8_spec (msg_size m)) as [Hal _]; [unfold W32 in *; lia|]. constructor.
  - eapply copy_of_stable; [exact Hc|exact Hs|lia|apply HL; left|lia].
  - apply IH; [intros x Hx; apply Hm; by right|intros x Hx; apply HL; by right].
Qed.

Lemma copies_sizes L h h' idx src copied : Forall2 (copy_of h h') (take idx src) copied -> (forall m, m ∈ src -> good_msg L m) ->
  forall m, m ∈ copied -> 0 < msg_size m <= W32 - 40.
Proof.
  intros HF Hg m' [i Hi]%list_elem_of_lookup. destruct (Forall2_lookup_r _ _ _ _ _ HF Hi) as (m & Hm & (_ & _ & E & _)).
  rewrite E. apply Hg. apply list_elem_of_lookup. exists i. by apply lookup_take_Some in Hm as [? _].
Qed.

Lemma copy_msgs_spec n src idx copied w L h0 :
  cpu_ok (ms_cpu w) -> heap_inv (ms_heap w) (blocks (reverse copied) ++ L) -> (forall m, m ∈ src -> good_msg L m) ->
  (idx + n <= length src)%nat -> Forall2 (copy_of h0 (ms_heap w)) (take idx src) copied -> stable L h0 (ms_heap w) ->
  exists all copied' h, copy_msgs n src idx copied w = Ok (all, copied', at_heap h w) /\
    heap_inv h (blocks (reverse copied') ++ L) /\ stable L h0 h /\ (forall m, m ∈ copied' -> 0 < msg_size m <= W32 - 40) /\
    (all = true -> Forall2 (copy_of h0 h) (take (idx + n) src) copied').
Proof.
  revert idx copied w. induction n as [|n IH]; intros idx copied w Hc Hh Hg Hlen HF Hst; cbn [copy_msgs].
  - exists true, copied, (ms_heap w). rewrite at_heap_self. split_and!; try done; [by eapply copies_sizes|intros _; by rewrite Nat.add_0_r].
  - destruct (lookup_lt_is_Some_2 src idx) as [m Hm]; [lia|]. rewrite Hm. cbn [deref mbind res_bind].
    destruct (Hg m) as [Hm0 Hr]; [apply list_elem_of_lookup; by exists idx|]. rewrite Z.mul_1_l, u32_id by (unfold W32 in *; lia).
    destruct (m_kmalloc_spec _ w (msg_size m) GFP_KERNEL Hc Hh eq_refl) as (q & h & E & Hcase & Hs1); [lia|]. rewrite E. cbn [mbind res_bind].
    assert (stable L (ms_heap w) h) as Hs1' by (eapply stable_mono; [|exact Hs1]; intros x Hx; apply elem_of_app; by right).
    destruct Hcase as [[-> Hh1]|[Hv Hh1]].
    + cbn [isValid Z.eqb negb andb nullptr]. exists false, copied, h. split_and!; try done; [by eapply stable_trans|by eapply copies_sizes].
    + rewrite Hv. cbn [negb]. destruct (align8_spec (msg_size m)) as [Hal _]; [unfold W32 in *; lia|].
      assert (good_msg (blocks (reverse copied) ++ L) m) as Hgm.
      { split; [done|]. destruct Hr as (? & ? & b & k & Hb & ?). split_and!; try done. exists b, k. split; [|done]. rewrite elem_of_app. tauto. }
      destruct (fill_fresh h _ q (mrt_num_align8 (msg_size m)) m Hh1 ltac:(lia) Hgm) as (Hh2 & Hs2 & Hc2). simpl ms_heap. simpl ms_cpu.
      set (m' := Msg (msg_type m) (msg_code m) q (msg_size m)). set (h2 := heap_copy h q (msg_buffer m) (msg_size m)) in *.
      assert (stable (blocks (reverse copied) ++ L) (ms_heap w) h2) as Hs12 by (by eapply stable_trans).
      assert (Forall2 (copy_of h0 h2) (take (S idx) src) (copied ++ [m'])) as HF2.
      { rewrite (take_S_r _ _ _ Hm). apply Forall2_app.
        - eapply (copies_stable _ _ _ _ _ _ HF Hs12).
          + intros y Hy. apply elem_of_take in Hy as (i & Hi & _). apply Hg, list_elem_of_lookup. by exists i.
          + intros y Hy. apply elem_of_app. left. unfold blocks in *. by rewrite fmap_reverse, elem_of_reverse.
        - constructor; [|done]. split_and!; try done. intros i Hi. simpl. rewrite Hc2 by done.
          rewrite (stable_readable L (ms_heap w) h _ (msg_size m)) by done. by apply (stable_readable L h0 (ms_heap w) _ (msg_size m)). }
      destruct (IH (S idx) (copied ++ [m']) (at_heap h2 w)) as (all & copied' & h3 & E3 & R1 & R2 & R3 & R4); try done.
      { rewrite reverse_app. simpl. exact Hh2. } { lia. } { eapply stable_trans; [exact Hst|]. eapply stable_mono; [|exact Hs12]. intros x Hx. apply elem_of_app. by right. }
      exists all, copied', h3. split_and!; try done. intros Ha. replace (idx + S n)%nat with (S idx + n)%nat by lia. by apply R4.
Qed.

(** ** Giving messages back *)
Definition unrecorded (L : list (Z * Z)) (w : msys) : Prop :=
  forall x, is_Some (ms_mbs w !! x) \/ is_Some (ms_mails w !! x) -> record_at L x.
Lemma unrecorded_fresh L L' w h q s : unrecorded L w -> L ⊆ L' -> heap_inv h ((q, s) :: L') -> 0 < s -> ms_mbs w !! q = None /\ ms_mails w !! q = None.
Proof.
  intros Hu HL Hh Hs. pose proof (fresh_record _ _ _ _ Hh Hs) as Hf.
  split; apply eq_None_not_Some; intros Hx; apply Hf; eapply record_mono; [exact HL|apply Hu; by left|exact HL|apply Hu; by right].
Qed.

Lemma free_copied_spec ms w L :
  cpu_ok (ms_cpu w) -> heap_inv (ms_heap w) (blocks ms ++ L) -> (forall m, m ∈ ms -> 0 < msg_size m <= W32 - 40) -> unrecorded L w ->
  exists h, free_copied ms w = Ok (at_heap h w) /\ heap_inv h L /\ stable L (ms_heap w) h.
Proof.
  revert w. induction ms as [|m ms IH]; intros w Hc Hh Hm Hu; cbn [free_copied].
  - exists (ms_heap w). by rewrite at_heap_self.
  - destruct (Hm m ltac:(left)) as [Hm0 Hm1]. destruct (align8_spec (msg_size m)) as [Hal _]; [unfold W32 in *; lia|].
    destruct (unrecorded_fresh L (blocks ms ++ L) w _ _ _ Hu ltac:(intros x Hx; apply elem_of_app; by right) Hh ltac:(lia)) as [Hb Hml].
    destruct (m_kfree_spec _ w _ _ Hc Hh ltac:(lia) Hb Hml) as (h & -> & Hh' & Hs). cbn [mbind res_bind].
    destruct (IH (at_heap h w)) as (h2 & -> & Hh2 & Hs2); try done; [intros y Hy; apply Hm; by right|].
    exists h2. split; [done|]. split; [done|]. eapply stable_trans; [|exact Hs2]. eapply stable_mono; [|exact Hs]. intros x Hx. apply elem_of_app. by right.
Qed.
Lemma free_buffers_eq n ms idx w : (forall m, m ∈ ms -> msg_buffer m <> 0) -> (idx + n = length ms)%nat ->
  free_buffers n ms idx w = free_copied (drop idx ms) w.
Proof.
  revert idx w. induction n as [|n IH]; intros idx w Hm Hl; cbn [free_buffers].
  - rewrite drop_ge by lia. done.
  - destruct (lookup_lt_is_Some_2 ms idx) as [m Hi]; [lia|]. rewrite Hi, (drop_S _ _ _ Hi). cbn [deref mbind res_bind free_copied].
    rewrite (proj2 (Z.eqb_neq (msg_buffer m) 0)) by (apply Hm, list_elem_of_lookup; by exists idx). cbn [negb].
    destruct (m_kfree (msg_buffer m) w) as [w'| |]; [|done|done]. cbn [mbind res_bind]. apply IH; [done|lia].
Qed.

(** ** Sending *)
Definition mail_bytes (n : nat) : Z := mrt_align sizeof_mail 8 + 16 * Z.of_nat n.
Definition queued (to : Z) (b : mailbox) : mailbox :=
  Mailbox (mb_name b) (mb_tid b) (u32 (num_mails b + 1)) (sgrt_mail b ++ [to]) 0.

(** What a mail in a box looks like: its messages [ms] are in the array behind
    it, and say what [src] said in [h0]. *)
Record delivered (to : Z) (ml : mail) (h0 : H) (src ms : list mail_msg) (w : msys) : Prop := {
  dv_mail : ms_mails w !! to = Some (Mail (src_name ml) (u32 (to + mrt_align sizeof_mail 8)) (num_msgs ml) NR_MAIL_NONE 0);
  dv_msgs : ms_msgs w !! u32 (to + mrt_align sizeof_mail 8) = Some ms;
  dv_copy : Forall2 (copy_of h0 (ms_heap w)) src ms;
}.


Lemma copies_source L h0 h1 h2 src ms : Forall2 (copy_of h1 h2) src ms -> stable L h0 h1 -> (forall m, m ∈ src -> good_msg L m) ->
  Forall2 (copy_of h0 h2) src ms.
Proof.
  intros HF Hs Hg. induction HF as [|m m' src ms (E1 & E2 & E3 & Hc) HF IH]; [done|]. constructor; [|apply IH; intros y Hy; apply Hg; by right].
  split_and!; try done. intros i Hi. rewrite Hc by done. destruct (Hg m ltac:(left)) as [_ Hr]. by apply (stable_readable L h0 h1 _ (msg_size m)).
Qed.

Lemma mw_at_heap L L' h w : mw_ok L w -> L ⊆ L' -> heap_inv h L' -> mw_ok L' (at_heap h w).
Proof. intros [A B C D] HL Hh. split; try done; intros x Hx; eapply record_mono; eauto. Qed.
Lemma mw_unrecorded L w : mw_ok L w -> unrecorded L w.
Proof. intros Hw x [Hx|Hx]; [by eapply mw_mbs|by eapply mw_mails]. Qed.

(** A letter that can be sent, and the box it goes to. *)
Record sendable (p : Z) (ml : mail) (src : list mail_msg) (mb : Z) (b : mailbox) (L : list (Z * Z)) (w : msys) : Prop := {
  sd_mail : p <> 0 /\ ms_mails w !! p = Some ml;
  sd_msgs : sprt_msg ml <> 0 /\ ms_msgs w !! sprt_msg ml = Some src /\ num_msgs ml = Z.of_nat (length src) /\ Z.of_nat (length src) <= 65536;
  sd_good m : m ∈ src -> good_msg L m;
  sd_box : isValid mb = true /\ ms_mbs w !! mb = Some b /\ mb_lock b = 0;
}.

Lemma mail_send_spec name p ml src mb b L w :
  mw_ok L w -> sendable p ml src mb b L w -> mailbox_find name w = Ok mb ->
  exists r w', mail_send sizeof_mail name p w = Ok (r, w') /\ stable L (ms_heap w) (ms_heap w') /\
    (((r = - ER_NOMEM \/ r = ER_FAILD) /\ mw_ok L w' /\ w' = at_heap (ms_heap w') w) \/
     (exists to ms, r = ER_NORMAL /\ mw_ok (blocks (reverse ms) ++ (to, mrt_num_align8 (mail_bytes (length src))) :: L) w' /\
        delivered to ml (ms_heap w) src ms w' /\ ms_mbs w' = <[mb := queued to b]> (ms_mbs w) /\
        ms_boxes w' = ms_boxes w /\ ms_threads w' = ms_threads w /\ ms_current w' = ms_current w /\
        ms_mails w' = <[to := Mail (src_name ml) (u32 (to + mrt_align sizeof_mail 8)) (num_msgs ml) NR_MAIL_NONE 0]> (ms_mails w))).
Proof.
  intros Hw [(Hp & Hml) (Hs0 & Hsrc & Hnum & Hlen) Hgood (Hmb & Hb & Hlk)] Hfind. unfold mail_send.
  rewrite (proj2 (Z.eqb_neq p 0) Hp), Hml. cbn [deref mbind res_bind]. rewrite (proj2 (Z.eqb_neq _ 0) Hs0), Hfind. cbn [mbind res_bind].
  rewrite Hmb. cbn [negb]. destruct (mrt_align8_bounds sizeof_mail) as [Hal1 Hal2]; [unfold W32; lia|].
  assert (u32 (mrt_align sizeof_mail 8 + u32 (num_msgs ml * sizeof_msg)) = mail_bytes (length src)) as ->.
  { unfold mail_bytes, sizeof_msg. rewrite Hnum. rewrite (u32_id (_ * 16)) by (unfold W32; lia). rewrite u32_id; unfold W32; lia. }
  assert (0 < mail_bytes (length src) <= W32 - 40) as Hmbz by (unfold mail_bytes, W32; lia).
  destruct (align8_spec (mail_bytes (length src))) as [Ha8 _]; [unfold W32 in *; lia|].
  destruct (m_kmalloc_spec L w (mail_bytes (length src)) (Z.lor GFP_KERNEL GFP_ZERO) (mw_cpu _ _ Hw) (mw_heap _ _ Hw) eq_refl ltac:(lia)) as (to & h1 & -> & Hcase & Hst1).
  cbn [mbind res_bind]. destruct Hcase as [[-> Hh1]|[Hv Hh1]].
  { cbn [isValid Z.eqb negb andb nullptr]. eexists _, _. split; [done|]. split; [exact Hst1|]. left. split; [by left|]. split; [|done]. by eapply mw_at_heap. }
  rewrite Hv. cbn [negb]. simpl ms_msgs. rewrite Hsrc. cbn [deref mbind res_bind]. set (T := (to, mrt_num_align8 (mail_bytes (length src)))) in *.
  assert (L ⊆ T :: L) as Hsub by (intros x Hx; by right).
  destruct (copy_msgs_spec (Z.to_nat (num_msgs ml)) src 0 [] (at_heap h1 w) (T :: L) h1) as (all & ms & h2 & -> & Hh2 & Hst2 & Hms & Hall); try done.
  { by apply (mw_cpu _ _ Hw). } { intros m Hm. destruct (Hgood m Hm) as [? (? & ? & x & k & Hx & ?)]. split; [done|]. split_and!; try done. exists x, k. split; [|done]. destruct Hx; [by left|right; by apply Hsub]. }
  { rewrite Hnum, Nat2Z.id. simpl. lia. }
  cbn [mbind res_bind]. assert (stable L (ms_heap w) h2) as Hst12 by (eapply stable_trans; [exact Hst1|by eapply stable_mono]).
  destruct all; cbn [negb].
  - change (at_heap h2 (at_heap h1 w)) with (at_heap h2 w). simpl ms_mbs. rewrite Hb. cbn [deref mbind res_bind]. simpl ms_current.
    destruct (mutex_cycle (ms_current w)) as (l & El & Eu). rewrite Hlk, El. cbn [mbind res_bind]. rewrite Eu.
    eexists _, _. split; [done|]. split; [exact Hst12|]. right. exists to, ms. split_and!; try done.
    + destruct Hw as [A1 A2 A3 A4]. assert (L ⊆ blocks (reverse ms) ++ T :: L) as HL by (intros x Hx; apply elem_of_app; right; by right).
      split; try done; simpl; intros x Hx.
      * apply (record_mono L); [done|]. apply A3. apply lookup_insert_is_Some' in Hx as [<-|Hx]; [by exists b|done].
      * apply lookup_insert_is_Some' in Hx as [<-|Hx]; [|apply (record_mono L); [done|by apply A4]].
        left. eexists. split; [apply elem_of_app; right; by left|lia].
    + split; simpl; [apply lookup_insert_eq..|]. specialize (Hall eq_refl). rewrite Hnum, Nat2Z.id in Hall. simpl in Hall. rewrite firstn_all in Hall. by eapply copies_source.
  - destruct (free_copied_spec (reverse ms) (at_heap h2 (at_heap h1 w)) (T :: L)) as (h3 & -> & Hh3 & Hst3); try done.
    { by apply (mw_cpu _ _ Hw). } { intros m Hm. apply Hms. by rewrite <- elem_of_reverse. }
    { intros x Hx. eapply record_mono; [exact Hsub|]. by apply (mw_unrecorded _ _ Hw). }
    cbn [mbind res_bind]. change (at_heap h3 (at_heap h2 (at_heap h1 w))) with (at_heap h3 w).
    destruct (unrecorded_fresh L L (at_heap h3 w) h3 to _ (mw_unrecorded _ _ Hw) ltac:(done) Hh3 ltac:(lia)) as [Hn1 Hn2].
    destruct (m_kfree_spec L (at_heap h3 w) to _ (mw_cpu _ _ Hw) Hh3 ltac:(lia) Hn1 Hn2) as (h4 & -> & Hh4 & Hst4). cbn [mbind res_bind].
    eexists _, _. split; [done|]. simpl ms_heap in *. split.
    { eapply stable_trans; [exact Hst12|]. eapply stable_trans; [eapply stable_mono; [exact Hsub|exact Hst3]|exact Hst4]. }
    left. split; [by right|]. split; [|done]. by apply (mw_at_heap L L h4 w).
Qed.

(** C13: sending to a box that exists returns.  Either memory ran out, everything
    taken is given back and nothing else changed; or a deep copy of the mail is
    at the end of the box's queue, with every message's type, code, size and
    bytes, in new blocks.  The contents of all live and static memory stay. *)
Theorem mail_send_delivers name p ml src mb b L w :
  mw_ok L w -> sendable p ml src mb b L w -> mailbox_find name w = Ok mb ->
  exists r w', mail_send sizeof_mail name p w = Ok (r, w') /\ stable L (ms_heap w) (ms_heap w') /\
    (((r = - ER_NOMEM \/ r = ER_FAILD) /\ mw_ok L w' /\ w' = at_heap (ms_heap w') w) \/
     (exists to ms, r = ER_NORMAL /\ mw_ok (blocks (reverse ms) ++ (to, mrt_num_align8 (mail_bytes (length src))) :: L) w' /\
        delivered to ml (ms_heap w) src ms w' /\ ms_mbs w' = <[mb := queued to b]> (ms_mbs w) /\
        ms_boxes w' = ms_boxes w /\ ms_threads w' = ms_threads w)).
Proof.
  intros Hw Hsd Hf. destruct (mail_send_spec name p ml src mb b L w Hw Hsd Hf) as (r & w' & E & Hs & Hcase).
  exists r, w'. split; [done|]. split; [done|]. destruct Hcase as [Hcase|(to & ms & E1 & E2 & E3 & E4 & E5 & E6 & _)]; [by left|right].
  exists to, ms. by split_and!.
Qed.

(** ** Receiving *)
Definition taken (rest : list Z) (b : mailbox) : mailbox := Mailbox (mb_name b) (mb_tid b) (u32 (num_mails b - 1)) rest 0.
Lemma mail_recv_spec (yield : msys -> res msys) fuel mb timeout b to rest (w : msys) :
  mb <> 0 -> ms_mbs w !! mb = Some b -> mb_lock b = 0 -> sgrt_mail b = to :: rest ->
  mail_recv yield fuel mb timeout w = Ok (to, put_mb mb (taken rest b) w).
Proof.
  intros Hmb Hb Hl Hq. unfold mail_recv. rewrite (proj2 (Z.eqb_neq mb 0) Hmb).
  assert (recv_wait yield fuel mb timeout w = Ok (true, w)) as -> by (destruct fuel; simpl; rewrite Hb; cbn [deref mbind res_bind]; by rewrite Hq).
  cbn [mbind res_bind negb]. rewrite Hb. cbn [deref mbind res_bind]. destruct (mutex_cycle (ms_current w)) as (l & El & Eu).
  rewrite Hl, El. cbn [mbind res_bind]. by rewrite Hq, Eu.
Qed.

Definition finished (to : Z) (h : H) (w : msys) : msys :=
  MSys h (ms_cpu w) (ms_current w) (ms_boxes w) (ms_mbs w) (delete to (ms_mails w)) (ms_msgs w) (ms_threads w).
Lemma mail_recv_finish_spec to ml h0 src ms s L (w : msys) :
  cpu_ok (ms_cpu w) -> heap_inv (ms_heap w) (blocks (reverse ms) ++ (to, s) :: L) -> sizeof_mail <= s ->
  delivered to ml h0 src ms w -> num_msgs ml = Z.of_nat (length src) -> (forall m, m ∈ src -> 0 < msg_size m <= W32 - 40) ->
  unrecorded ((to, s) :: L) w -> ms_mbs w !! to = None ->
  exists h, mail_recv_finish to w = Ok (finished to h w) /\ heap_inv h L /\ stable L (ms_heap w) h.
Proof.
  intros Hc Hh Hs [D1 D2 D3] Hn Hsz Hu Hb. unfold mail_recv_finish. rewrite D1. cbn [deref mbind res_bind sprt_msg num_msgs].
  destruct (proj2 (heap_inv_blocks _ _ Hh) to s ltac:(apply elem_of_app; right; by left)) as (Hto & _ & Htos).
  destruct (mrt_align8_bounds sizeof_mail) as [Ha1 Ha2]; [unfold W32; lia|].
  rewrite (proj2 (Z.eqb_neq (u32 (to + mrt_align sizeof_mail 8)) 0)) by (rewrite u32_id; unfold W32 in *; lia). cbn [negb].
  rewrite D2. cbn [deref mbind res_bind]. pose proof (Forall2_length _ _ _ D3) as Hlen.
  assert (forall m, m ∈ ms -> 0 < msg_size m <= W32 - 40) as Hms.
  { intros m' [i Hi]%list_elem_of_lookup. destruct (Forall2_lookup_r _ _ _ _ _ D3 Hi) as (m & Hm & (_ & _ & E & _)).
    rewrite E. apply Hsz, list_elem_of_lookup. by exists i. }
  assert (blocks ms ≡ₚ blocks (reverse ms)) as HP by (unfold blocks; by rewrite fmap_reverse, reverse_Permutation).
  assert (heap_inv (ms_heap w) (blocks ms ++ (to, s) :: L)) as Hh' by (eapply heap_inv_perm; [|exact Hh]; by rewrite HP).
  rewrite free_buffers_eq; [|intros m Hm|rewrite Hn; lia].
  2:{ destruct (proj2 (heap_inv_blocks _ _ Hh') (msg_buffer m) (mrt_num_align8 (msg_size m))) as [? _]; [|lia].
      apply elem_of_app. left. unfold blocks. apply list_elem_of_fmap. by exists m. }
  rewrite drop_0. destruct (free_copied_spec ms w ((to, s) :: L) Hc Hh' Hms Hu) as (h & -> & Hh1 & Hs1). cbn [mbind res_bind].
  destruct (heap_free_spec (ms_cpu w) h L to s Hc Hh1 ltac:(lia)) as (h2 & E & Hh2 & Hs2). exists h2.
  unfold m_kfree. simpl ms_cpu. simpl ms_heap. rewrite E. cbn [mbind res_bind]. split; [unfold finished; simpl; by rewrite delete_id|]. split; [done|].
  eapply stable_trans; [eapply stable_mono; [|exact Hs1]; intros x Hx; by right|exact Hs2].
Qed.

Lemma count_back n : 0 <= n < W32 -> u32 (u32 (n + 1) - 1) = n.
Proof.
  intros Hn. unfold u32. rewrite Zminus_mod_idemp_l. replace (n + 1 - 1) with n by lia. by apply Z.mod_small.
Qed.
Lemma queue_back to b : sgrt_mail b = [] -> mb_lock b = 0 -> 0 <= num_mails b < W32 -> taken [] (queued to b) = b.
Proof. destruct b. simpl. intros -> -> Hn. unfold taken, queued. simpl. by rewrite count_back. Qed.

(** C14: a mail sent to an empty box is what the next receive returns, with the
    contents it had when it was sent, and once the receiver is done with it all
    its memory is back: live blocks, boxes and mails are as before the send. *)
Theorem mail_roundtrip yield fuel timeout name p ml src mb b L w w1 :
  mw_ok L w -> sendable p ml src mb b L w -> mailbox_find name w = Ok mb -> sgrt_mail b = [] -> 0 <= num_mails b < W32 ->
  mail_send sizeof_mail name p w = Ok (ER_NORMAL, w1) ->
  exists to ms w2 w3, mail_recv yield fuel mb timeout w1 = Ok (to, w2) /\ delivered to ml (ms_heap w) src ms w2 /\
    mail_recv_finish to w2 = Ok w3 /\ mw_ok L w3 /\ ms_mbs w3 = ms_mbs w /\ ms_mails w3 = ms_mails w /\ ms_boxes w3 = ms_boxes w /\
    stable L (ms_heap w) (ms_heap w3).
Proof.
  intros Hw Hsd Hf Hq Hn E. destruct (mail_send_spec name p ml src mb b L w Hw Hsd Hf) as (r & w' & E1 & Hs & Hcase).
  rewrite E1 in E. injection E as -> ->. destruct Hcase as [[[?|?] _]|(to & ms & _ & Hw1 & [D1 D2 D3] & Ebs & Ebx & _ & _ & Eml)]; [done..|].
  destruct Hsd as [_ (_ & _ & Hnum & Hlen) Hgood (Hmb & Hb & Hlk)]. pose proof (isValid_nonzero _ Hmb) as Hmb0.
  destruct (mrt_align8_bounds sizeof_mail) as [Ha1 Ha2]; [unfold W32; lia|].
  assert (sizeof_mail <= mail_bytes (length src) <= W32 - 40) as Hmbz by (unfold mail_bytes, W32; lia).
  destruct (align8_spec (mail_bytes (length src))) as [Ha8 _]; [unfold W32 in *; lia|]. set (s := mrt_num_align8 (mail_bytes (length src))) in *.
  assert (heap_inv (ms_heap w1) ((to, s) :: blocks (reverse ms) ++ L)) as Hperm.
  { eapply heap_inv_perm; [|exact (mw_heap _ _ Hw1)]. by rewrite Permutation_middle. }
  destruct (unrecorded_fresh L _ w _ to s (mw_unrecorded _ _ Hw) ltac:(intros x Hx; apply elem_of_app; by right) Hperm ltac:(lia)) as [Hn1 Hn2].
  assert (mb <> to) as Hne by (intros ->; by rewrite Hb in Hn1).
  exists to, ms. eexists (put_mb mb b w1). set (w2 := put_mb mb b w1).
  assert (ms_mbs w2 = ms_mbs w) as E2 by (simpl; rewrite Ebs, insert_insert_eq; by apply insert_id).
  destruct (mail_recv_finish_spec to ml (ms_heap w) src ms s L w2) as (h3 & E3 & Hh3 & Hs3).
  { exact (mw_cpu _ _ Hw1). } { exact (mw_heap _ _ Hw1). } { lia. } { by split. } { done. } { intros m Hm. by apply Hgood. }
  { intros x Hx. rewrite E2 in Hx. simpl in Hx. rewrite Eml in Hx. destruct Hx as [Hx|Hx].
    - apply (record_mono L); [intros y Hy; by right|by apply (mw_mbs _ _ Hw)].
    - apply lookup_insert_is_Some' in Hx as [<-|Hx]; [left; exists s; split; [left|lia]|].
      apply (record_mono L); [intros y Hy; by right|by apply (mw_mails _ _ Hw)]. }
  { by rewrite E2. }
  assert (ms_mails (finished to h3 w2) = ms_mails w) as E4 by (simpl; rewrite Eml; by rewrite delete_insert_id).
  exists (finished to h3 w2). split_and!; try done.
  - rewrite (mail_recv_spec yield fuel mb timeout (queued to b) to []); [by rewrite queue_back|done|by rewrite Ebs, lookup_insert_eq|done|simpl; by rewrite Hq].
  - destruct Hw as [A1 A2 A3 A4]. split; [exact (mw_cpu _ _ Hw1)|exact Hh3|..]; intros x; [change (ms_mbs (finished to h3 w2)) with (ms_mbs w2); rewrite E2|rewrite E4]; auto.
  - eapply stable_trans; [exact Hs|exact Hs3].
Qed.

End mail.

(** ** Opening and closing boxes *)
Section box.
Context {H : Type} `{KernelHeap H}.
Context (sizeof_mailbox : Z) (garbage : Z -> list Z) (mailbox_size : 0 < sizeof_mailbox <= 4096).
Local Notation msys := (@msys H).

Definition boxes_ok (w : msys) : Prop :=
  (forall p, p ∈ ms_boxes w -> exists b, ms_mbs w !! p = Some b /\ length (mb_name b) = MAILBOX_NAME_LEN) /\ 0 ∉ ms_boxes w.
Definition answers (name : list Z) (w : msys) (p : Z) : Prop := exists b, ms_mbs w !! p = Some b /\ name ++ [0] `prefix_of` mb_name b.

Lemma find_box_spec name l (w : msys) : 0 ∉ name -> (length name < MAILBOX_NAME_LEN)%nat ->
  (forall p, p ∈ l -> exists b, ms_mbs w !! p = Some b /\ length (mb_name b) = MAILBOX_NAME_LEN) ->
  exists o, find_box name l w = Ok o /\
    match o with Some p => exists l1 l2, l = l1 ++ p :: l2 /\ answers name w p /\ (forall x, x ∈ l1 -> ~ answers name w x)
            | None => forall x, x ∈ l -> ~ answers name w x end.
Proof.
  intros Hnz Hlen. induction l as [|p l IH]; intros Hok; simpl.
  - exists None. split; [done|]. intros x Hx. by apply not_elem_of_nil in Hx.
  - destruct (Hok p ltac:(left)) as (b & Hb & Hbl). rewrite Hb. cbn [deref mbind res_bind].
    rewrite c_strcmp_spec by (done || lia). cbn [mbind res_bind]. case_bool_decide as Hd; cbn [negb].
    + exists (Some p). split; [done|]. exists [], l. split_and!; [done| |intros x Hx; by apply not_elem_of_nil in Hx]. by exists b.
    + destruct IH as (o & -> & Ho); [intros x Hx; apply Hok; by right|]. exists o. split; [done|].
      assert (~ answers name w p) as Hno by (intros (b' & Hb' & Hp); by simplify_eq).
      destruct o as [x|]; [destruct Ho as (l1 & l2 & -> & Ha & Hl1); exists (p :: l1), l2; split_and!; try done|]; intros y [->|Hy]%elem_of_cons; auto.
Qed.

(** Every label is a text of 1 to 31 characters. *)
Definition label_ok (s : list Z) : bool := negb (bool_decide (s = [])) && (length s <? MAILBOX_NAME_LEN)%nat.
Lemma tid_labels : forallb (fun t => label_ok (text (box_label t None))) (seqZ 0 128) = true.
Proof. vm_compute. reflexivity. Qed.
Lemma box_label_ok tid name : 0 <= tid < 128 -> (forall s, name = Some s -> Forall (fun c => c <> 0) s) ->
  let s := text (box_label tid name) in s <> [] /\ (length s < MAILBOX_NAME_LEN)%nat /\ 0 ∉ s.
Proof.
  intros Ht Hn s0. assert (0 ∉ s0) as Hz by apply text_zero_free. revert Hz. unfold s0. clear s0. intros Hz.
  cut (text (box_label tid name) <> [] /\ (length (text (box_label tid name)) < MAILBOX_NAME_LEN)%nat); [naive_solver|]. clear Hz. destruct name as [[|c s]|].
  2:{ specialize (Hn _ eq_refl). unfold box_label, name_copy, MAILBOX_NAME_LEN. case_decide as Hl.
      - rewrite text_app by (by apply Forall_take). simpl text. rewrite app_nil_r, length_take. split; [done|lia].
      - rewrite text_app by done. rewrite drop_replicate.
        assert (forall k, text (replicate k 0) = []) as -> by (by intros [|k]). rewrite app_nil_r. split; [done|lia]. }
  all: pose proof tid_labels as Hf; rewrite forallb_forall in Hf;
    assert (In tid (seqZ 0 128)) as Hin by (apply list_elem_of_In, elem_of_seqZ; lia); specialize (Hf tid Hin);
    apply andb_true_iff in Hf as [H1 H2]; apply negb_true_iff, bool_decide_eq_false in H1; apply Nat.ltb_lt in H2; by split.
Qed.

Lemma lower_run_spec tid l (w : msys) : (forall p, p ∈ l -> is_Some (ms_mbs w !! p)) -> exists n, lower_run tid l w = Ok n /\ (n <= length l)%nat.
Proof.
  induction l as [|p l IH]; intros Hl; simpl; [by exists 0%nat|]. destruct (Hl p ltac:(left)) as [b Hb]. rewrite Hb. cbn [deref mbind res_bind].
  destruct (tid <? mb_tid b); [exists 0%nat; split; [done|lia]|]. destruct IH as (n & -> & Hn); [intros x Hx; apply Hl; by right|].
  exists (S n). split; [done|lia].
Qed.
(** Where ever it goes, the new box goes between others. *)
Lemma mailbox_insert_spec p b (w : msys) : ms_mbs w !! p = Some b -> (forall x, x ∈ ms_boxes w -> is_Some (ms_mbs w !! x)) ->
  exists l1 l2, ms_boxes w = l1 ++ l2 /\ mailbox_insert p w = Ok (set_boxes (l1 ++ p :: l2) w).
Proof.
  intros Hb Hl. unfold mailbox_insert. rewrite Hb. cbn [deref mbind res_bind]. destruct (lower_run_spec (mb_tid b) (ms_boxes w) w Hl) as (n & -> & Hn).
  cbn [mbind res_bind]. destruct n as [|n]; [exists (ms_boxes w), []; by rewrite app_nil_r|].
  exists (take n (ms_boxes w)), (drop n (ms_boxes w)). by rewrite take_drop.
Qed.
Lemma filter_out (p : Z) (l1 l2 : list Z) : p ∉ l1 ++ l2 -> filter (fun x => x <> p) (l1 ++ p :: l2) = l1 ++ l2.
Proof.
  intros Hp. rewrite filter_app, (filter_cons_False _ p) by (by intros []). rewrite elem_of_app in Hp.
  assert (forall l : list Z, p ∉ l -> filter (fun x => x <> p) l = l) as Hf.
  { induction l as [|x l IH]; intros Hx; [done|]. rewrite filter_cons_True, IH; [done|set_solver|set_solver]. }
  rewrite !Hf; [done|tauto|tauto].
Qed.

Definition opened (p tid : Z) (label : list Z) : mailbox := Mailbox (name_copy (garbage p) label MAILBOX_NAME_LEN) tid 0 [] 0.

(** [kstrlcpy] does not write the zero behind a short label: whether the new box
    answers to it depends on the byte the block held there. *)
Definition reached (p : Z) (label : list Z) : Z := if decide (garbage p !! length label = Some 0) then p else nullptr.

(** A box opened for [tid], as [mailbox_init] leaves it: [w'] is [w] with the
    box at [p]. *)
Lemma mailbox_init_spec p tid name g (w : msys) :
  boxes_ok w -> 0 <= tid < 128 -> (forall s, name = Some s -> Forall (fun c => c <> 0) s) -> is_Some (ms_threads w !! tid) ->
  p ∉ ms_boxes w -> p <> 0 ->
  ms_mbs w !! p = Some (Mailbox (garbage p) g g [] 0) -> length (garbage p) = MAILBOX_NAME_LEN ->
  let label := text (box_label tid name) in
  (exists r, mailbox_init p tid name w = Ok (r, w) /\ r <> 0) \/
  (exists l1 l2, ms_boxes w = l1 ++ l2 /\ ms_threads w !! tid = Some 0 /\ mailbox_find (Some label) w = Ok nullptr /\
     mailbox_init p tid name w = Ok (ER_NORMAL, put_thread tid p (set_boxes (l1 ++ p :: l2) (put_mb p (opened p tid label) w))) /\
     mailbox_find (Some label) (put_thread tid p (set_boxes (l1 ++ p :: l2) (put_mb p (opened p tid label) w))) = Ok (reached p label)).
Proof.
  intros [Hok Hnz] Ht Hname [t Hth] Hp Hp0 Hb Hg label. destruct (box_label_ok tid name Ht Hname) as (Hl0 & Hl1 & Hlz). fold label in Hl0, Hl1, Hlz.
  assert (forall w' : msys, mailbox_find (Some label) w' = (o ← find_box label (ms_boxes w') w'; Ok (default nullptr o))) as Hfind.
  { intros w'. unfold mailbox_find. by destruct label. }
  unfold mailbox_init. rewrite Hth. cbn [deref mbind res_bind]. fold label. destruct (Z.eqb_spec t 0) as [->|Ht0]; cbn [negb].
  2:{ left. eexists. by split. }
  rewrite Hfind. destruct (find_box_spec label (ms_boxes w) w Hlz Hl1 Hok) as ([x|] & Eo & Ho); rewrite Eo; cbn [mbind res_bind from_option id].
  { left. destruct Ho as (l1 & l2 & El & _). rewrite (proj2 (Z.eqb_neq x 0)); [|intros ->; apply Hnz; rewrite El; set_solver]. eexists. by split. }
  right. cbn [nullptr Z.eqb negb]. rewrite Hb. cbn [deref mbind res_bind mb_name mb_lock].
  change (Mailbox (name_copy (garbage p) label MAILBOX_NAME_LEN) tid 0 [] (mutex_init 0)) with (opened p tid label).
  destruct (mailbox_insert_spec p (opened p tid label) (put_mb p (opened p tid label) w)) as (l1 & l2 & El & Ei).
  { apply lookup_insert_eq. } { intros x Hx. simpl. apply lookup_insert_is_Some'. right. destruct (Hok x Hx) as (b & ? & _). by exists b. }
  exists l1, l2. simpl in El. rewrite Ei. cbn [mbind res_bind]. split_and!; try done.
  set (w' := put_thread tid p (set_boxes (l1 ++ p :: l2) (put_mb p (opened p tid label) w))).
  assert (forall x, x <> p -> answers label w' x <-> answers label w x) as Hother.
  { intros x Hx. unfold answers. simpl. by rewrite lookup_insert_ne. }
  assert (mb_name (opened p tid label) = label ++ drop (length label) (garbage p)) as Enm.
  { simpl. unfold name_copy. rewrite decide_False; [done|lia]. }
  rewrite Hfind. destruct (find_box_spec label (ms_boxes w') w' Hlz Hl1) as (o & -> & Ho').
  { intros x Hx. simpl in Hx. simpl ms_mbs. destruct (decide (x = p)) as [->|Hxp].
    - rewrite lookup_insert_eq. eexists. split; [done|]. rewrite Enm, length_app, length_drop. lia.
    - rewrite lookup_insert_ne by done. apply Hok. rewrite El. set_solver. }
  cbn [mbind res_bind]. f_equal.
  assert (answers label w' p <-> garbage p !! length label = Some 0) as Hself.
  { unfold answers. simpl ms_mbs. rewrite lookup_insert_eq. split.
    - intros (b & [= <-] & [k Hk]). rewrite Enm, <- app_assoc in Hk. apply (inj (app label)) in Hk. apply (f_equal head) in Hk. by rewrite head_lookup, lookup_drop, Nat.add_0_r in Hk.
    - intros Hz. eexists. split; [done|]. rewrite Enm. apply prefix_app, prefix_of_head. by rewrite head_lookup, lookup_drop, Nat.add_0_r. }
  assert (forall x, x ∈ l1 ++ p :: l2 -> answers label w' x -> x = p) as Honly.
  { intros x Hx Ha. destruct (decide (x = p)) as [|Hxp]; [done|]. exfalso. apply (Ho x); [|by apply Hother]. rewrite El. set_solver. }
  unfold reached. destruct o as [x|]; simpl in *.
  - destruct Ho' as (k1 & k2 & Ek & Ha & _). assert (x = p) as -> by (apply Honly; [rewrite Ek; set_solver|done]). by rewrite decide_True by (by apply Hself).
  - rewrite decide_False; [done|]. intros Hz. apply (Ho' p); [set_solver|by apply Hself].
Qed.

Lemma find_box_ext name l (w w' : msys) : (forall x, x ∈ l -> ms_mbs w' !! x = ms_mbs w !! x) -> find_box name l w = find_box name l w'.
Proof.
  induction l as [|p l IH]; intros Hm; [done|]. simpl. rewrite (Hm p) by left. destruct (ms_mbs w !! p); cbn [deref mbind res_bind]; [|done].
  destruct (c_strcmp _ _) as [[]| |]; cbn [mbind res_bind]; try done. apply IH. intros x Hx. apply Hm. by right.
Qed.
Lemma mailbox_find_ext name (w w' : msys) : ms_boxes w' = ms_boxes w -> (forall x, x ∈ ms_boxes w -> ms_mbs w' !! x = ms_mbs w !! x) ->
  mailbox_find name w = mailbox_find name w'.
Proof.
  intros Eb Hm. unfold mailbox_find. destruct name as [[|c name]|]; [done| |done]. by rewrite Eb, (find_box_ext _ _ w w').
Qed.

(** Opening a box for a thread either fails and changes nothing, or takes one
    block and registers the box: no box answered to its label before, the thread
    points to the box now, and the box answers if the block held a zero behind the
    place of the label (nothing writes one there).  Closing it again gives the block back
    and restores list, boxes and thread. *)
Theorem mailbox_create_destroy tid name L w :
  mw_ok L w -> boxes_ok w -> 0 <= tid < 128 -> (forall s, name = Some s -> Forall (fun c => c <> 0) s) ->
  is_Some (ms_threads w !! tid) -> (forall p, length (garbage p) = MAILBOX_NAME_LEN) ->
  let label := text (box_label tid name) in
  exists r w', mailbox_create sizeof_mailbox garbage tid name w = Ok (r, w') /\
    ((isValid r = false /\ mw_ok L w' /\ w' = at_heap (ms_heap w') w) \/
     (isValid r = true /\ mw_ok ((r, mrt_num_align8 sizeof_mailbox) :: L) w' /\ boxes_ok w' /\ ms_boxes w' ≡ₚ r :: ms_boxes w /\
      mailbox_find (Some label) w = Ok nullptr /\ mailbox_find (Some label) w' = Ok (reached r label) /\
      ms_threads w !! tid = Some 0 /\ ms_threads w' = <[tid := r]> (ms_threads w) /\
      exists h, mailbox_destroy r w' = Ok (at_heap h w) /\ mw_ok L (at_heap h w))).
Proof.
  intros Hw Hbx Ht Hname Hth Hg label. unfold mailbox_create.
  destruct (m_kmalloc_spec L w sizeof_mailbox GFP_KERNEL (mw_cpu _ _ Hw) (mw_heap _ _ Hw) eq_refl) as (p & h & -> & Hcase & Hst); [unfold W32; lia|].
  cbn [mbind res_bind]. destruct (align8_spec sizeof_mailbox) as [Ha _]; [unfold W32; lia|]. set (s := mrt_num_align8 sizeof_mailbox) in *.
  destruct Hcase as [[-> Hh]|[Hv Hh]].
  { cbn [isValid Z.eqb negb andb nullptr]. eexists _, _. split; [done|]. left. split_and!; try done. by eapply mw_at_heap. }
  rewrite Hv. cbn [negb]. pose proof (isValid_nonzero _ Hv) as Hp0.
  destruct (unrecorded_fresh L L w h p s (mw_unrecorded _ _ Hw) ltac:(done) Hh ltac:(lia)) as [Hn1 Hn2].
  assert (p ∉ ms_boxes w) as Hpb by (intros Hin; destruct (proj1 Hbx p Hin) as (b & Hb & _); by rewrite Hb in Hn1).
  set (w0 := put_mb p (Mailbox (garbage p) 0 0 [] 0) (at_heap h w)).
  assert (delete p (ms_mbs w0) = ms_mbs w) as Edel by (simpl; by rewrite delete_insert_id).
  destruct (mailbox_init_spec p tid name 0 w0) as [(r & E & Hr)|(l1 & l2 & El & Hth0 & Hf0 & E & Hf1)]; try done.
  { split; [|exact (proj2 Hbx)]. intros x Hx. destruct (proj1 Hbx x Hx) as (b & Hb & Hl). exists b. split; [|done]. simpl. rewrite lookup_insert_ne; [done|]. by intros ->. }
  { apply lookup_insert_eq. }
  - rewrite E. cbn [mbind res_bind]. rewrite (proj2 (Z.eqb_neq r 0) Hr). cbn [negb].
    destruct (heap_free_spec (ms_cpu w) h L p s (mw_cpu _ _ Hw) Hh ltac:(lia)) as (h2 & E2 & Hh2 & _). unfold m_kfree. simpl ms_cpu. simpl ms_heap.
    rewrite E2. cbn [mbind res_bind]. rewrite Edel. simpl ms_mails. rewrite (delete_id (ms_mails w)) by done.
    eexists _, _. split; [done|]. left. split_and!; [done|by apply (mw_at_heap L L h2 w)|done].
  - rewrite E. cbn [mbind res_bind]. cbn [Z.eqb negb ER_NORMAL]. eexists _, _. split; [done|]. right. simpl in El.
    assert (p ∉ l1 ++ l2) as Hp12 by (by rewrite <- El). destruct (box_label_ok tid name Ht Hname) as (_ & Hl1 & _). fold label in Hl1.
    split_and!; try done.
    + destruct Hw as [A1 A2 A3 A4]. split; try done; simpl; intros x Hx; [|apply (record_mono L); [intros y Hy; by right|by apply A4]].
      rewrite insert_insert_eq in Hx. apply lookup_insert_is_Some' in Hx as [<-|Hx]; [left; exists s; split; [left|lia]|].
      apply (record_mono L); [intros y Hy; by right|by apply A3].
    + split; simpl; [|destruct Hbx as [_ Hz]; rewrite El in Hz; clear -Hz Hp0; set_solver]. intros x Hx. rewrite insert_insert_eq. destruct (decide (x = p)) as [->|Hne].
      * rewrite lookup_insert_eq. eexists. split; [done|]. simpl. unfold name_copy. fold label. rewrite decide_False by lia. rewrite length_app, length_drop, Hg. lia.
      * rewrite lookup_insert_ne by done. apply (proj1 Hbx). rewrite El. set_solver.
    + simpl. by rewrite El, Permutation_middle.
    + rewrite <- Hf0. apply mailbox_find_ext; [done|]. intros x Hx. simpl. rewrite lookup_insert_ne; [done|]. by intros ->.
    + destruct (heap_free_spec (ms_cpu w) h L p s (mw_cpu _ _ Hw) Hh ltac:(lia)) as (h2 & E2 & Hh2 & _). exists h2. split; [|by apply (mw_at_heap L L h2 w)].
      unfold mailbox_destroy, mailbox_deinit. rewrite (proj2 (Z.eqb_neq p 0) Hp0). simpl ms_mbs. rewrite lookup_insert_eq. cbn [deref mbind res_bind].
      simpl ms_threads. rewrite lookup_insert_eq. cbn [deref mbind res_bind]. unfold m_kfree. simpl ms_cpu. simpl ms_heap. rewrite E2. cbn [mbind res_bind].
      f_equal. unfold at_heap, set_heap. f_equal; simpl.
      * by rewrite filter_out, El.
      * by rewrite !insert_insert_eq, delete_insert_id.
      * by rewrite delete_id.
      * rewrite insert_insert_eq. by apply insert_id.
Qed.
End box.

(** ** An example: a static box "ab" and a static mail with one message *)
Lemma demo_static_range a n : 4096 <= a -> 0 <= n -> a + n <= 65536 -> k_static demo_infos demo_kpools a n.
Proof.
  intros Ha Hn He. unfold k_static, apart_ranges, demo_infos, info_size, W32. split_and!; try lia.
  intros [|[|[|[|i]]]] q [= <-]. right. change (p_start (region_pool KSimple (demo_region 1))) with 65536. lia.
Qed.
Definition demo_box : mailbox := Mailbox (97 :: 98 :: replicate 30 0) 33 0 [] 0.
Definition demo_mail : mail := Mail 8704 8320 1 0 0.
Definition demo_msg : mail_msg := Msg 1 2 8448 16.
Definition demo_msys : @msys kheap :=
  MSys demo_kheap (Cpu 0 0) true [8704] {[8704 := demo_box]} {[8192 := demo_mail]} {[8320 := [demo_msg]]} (<[34 := 0]> {[33 := 8704]}).
Lemma demo_msys_ok : mw_ok [] demo_msys.
Proof.
  split; [split; [discriminate|reflexivity]|exact demo_kheap_inv|..]; simpl; intros x [y [<- _]%lookup_singleton_Some]; right; by apply demo_static_range.
Qed.
Lemma demo_sendable : sendable 8192 demo_mail [demo_msg] 8704 demo_box [] demo_msys.
Proof.
  split; [by split|by split_and!| |by split_and!]. intros m ->%list_elem_of_singleton. split; [unfold W32; simpl; lia|].
  split_and!; [done..|]. exists 8448, 16. split; [left; by apply demo_static_range|done].
Qed.
Definition demo_sent : Z * @msys kheap :=
  match mail_send 40 (Some [97; 98]) 8192 demo_msys with Ok x => x | _ => (1, demo_msys) end.

Lemma mail_send_delivers_witness : exists w' to ms,
  mail_send 40 (Some [97; 98]) 8192 demo_msys = Ok (ER_NORMAL, w') /\ delivered 40 to demo_mail (ms_heap demo_msys) [demo_msg] ms w' /\
  ms_mbs w' = <[8704 := queued to demo_box]> (ms_mbs demo_msys).
Proof.
  destruct (mail_send_delivers 40 ltac:(lia) (Some [97; 98]) 8192 demo_mail [demo_msg] 8704 demo_box [] demo_msys demo_msys_ok demo_sendable eq_refl)
    as (r & w' & E & _ & Hcase).
  assert (fst demo_sent = r) as Hr by (unfold demo_sent; rewrite E; reflexivity).
  assert (fst demo_sent = 0) as Hd by (vm_compute; reflexivity).
  destruct Hcase as [[[Hf|Hf] _]|(to & ms & Hn & _ & G1 & G2 & _)]; [rewrite <- Hr, Hd in Hf; discriminate Hf..|].
  exists w', to, ms. split; [rewrite E, Hn; reflexivity|]. split; [exact G1|exact G2].
Defined.
Lemma demo_sent_ok : mail_send 40 (Some [97; 98]) 8192 demo_msys = Ok (ER_NORMAL, snd demo_sent).
Proof.
  destruct (mail_send_spec 40 ltac:(lia) (Some [97; 98]) 8192 demo_mail [demo_msg] 8704 demo_box [] demo_msys demo_msys_ok demo_sendable eq_refl) as (r & w' & E & _).
  assert (fst demo_sent = r /\ snd demo_sent = w') as [Hr Hw] by (unfold demo_sent; rewrite E; split; reflexivity).
  assert (fst demo_sent = ER_NORMAL) as Hd by (vm_compute; reflexivity). rewrite E. congruence.
Qed.
Lemma mail_roundtrip_witness : exists to ms w2 w3,
  mail_recv Ok 0 8704 0 (snd demo_sent) = Ok (to, w2) /\ delivered 40 to demo_mail (ms_heap demo_msys) [demo_msg] ms w2 /\
  mail_recv_finish to w2 = Ok w3 /\ mw_ok [] w3 /\ ms_mbs w3 = ms_mbs demo_msys.
Proof.
  destruct (mail_roundtrip 40 ltac:(lia) Ok 0 0 (Some [97; 98]) 8192 demo_mail [demo_msg] 8704 demo_box [] demo_msys (snd demo_sent)
    demo_msys_ok demo_sendable eq_refl eq_refl ltac:(unfold W32; simpl; lia) demo_sent_ok) as (to & ms & w2 & w3 & G1 & G2 & G3 & G4 & G5 & _).
  exists to, ms, w2, w3. split; [exact G1|]. split; [exact G2|]. split; [exact G3|]. split; [exact G4|exact G5].
Defined.
Lemma demo_boxes_ok : boxes_ok demo_msys.
Proof. split; [intros p ->%list_elem_of_singleton; by exists demo_box|simpl; set_solver]. Qed.
Lemma mailbox_create_destroy_witness : exists r w', mailbox_create 80 (fun _ => replicate 32 7) 34 (Some [99]) demo_msys = Ok (r, w').
Proof.
  destruct (mailbox_create_destroy 80 (fun _ => replicate 32 7) ltac:(lia) 34 (Some [99]) [] demo_msys demo_msys_ok demo_boxes_ok ltac:(lia))
    as (r & w' & E & _); [intros s [= <-]; apply Forall_singleton; discriminate|eexists; reflexivity|reflexivity|]. exists r, w'. exact E.
Defined.
