(* ===== verification/Irq.v ===== *)
(** * Interrupts (platform/irq/, arch/arm/cpu/armv7/irq.c)

    Every interrupt has a number, handed out from a bitmap, and a descriptor,
    found by its number in a radix tree.  Controllers are domains: each maps its
    hardware lines to numbers.  A descriptor holds the actions registered for the
    interrupt and the chip operations that switch it.

    Descriptors, actions, domains and chips are records at the addresses of their
    blocks, which come from a kernel heap (HeapContract.v).  The radix tree is that
    of Radix.v: its inner nodes come from an allocation callback of its own,
    [ralloc], of which only is known that it returns null or an unused address.  In the
    source the callback is [default_malloc], so these nodes are blocks of the same
    heap (fwk_irq_desc.c:25); here they are kept apart from the blocks that the heap
    counts, and a request of the tree does not use up memory of the heap.  The links
    that chain the domains are words of memory (ListHead.v); lists of actions are
    sequences. *)

From stdpp Require Import prelude gmap fin_maps sorting.
From S2P Require Import Prelude Mem ListHead MemPool Bytes Sync Generic Bitmap Radix RadixSpec RadixMap KMalloc KName HeapContract.

Definition FWK_IRQ_DESC_MAX : Z := 1024.
Definition FWK_IRQ_DESC_NAME_LENTH : nat := 16.
Definition IRQ_TYPE_SENSE_MASK : Z := 15.
Definition CA7_MAX_GPC_NR : Z := 128.

(** ** Data

    Fields that no function reads or writes (the descriptor's name, the data's
    node and parent, a domain's group and flags) are left out; [de_depth] is the
    one field of the radix link in the descriptor. *)
Record irq_data := IrqData {
  id_irq : Z; id_hwirq : Z; id_chip : Z; id_domain : Z; id_handler_data : Z; id_chip_data : Z; id_mask : Z;
}.
Record irq_action := IrqAction { ia_name : list Z; ia_handler : Z; ia_flags : Z; ia_args : Z }.
Record irq_desc := IrqDesc { de_irq : Z; de_flags : Z; de_action : list Z; de_depth : Z; de_data : irq_data }.
Record irq_domain := IrqDomain {
  dm_hwirq : Z; dm_node : Z; dm_name : option (list Z); dm_ops : Z; dm_host_data : Z; dm_parent : Z;
  dm_hwirq_max : Z; dm_revmap : list Z;
}.
(** A chip's operations work on the device registers. *)
Record irq_chip := Chip {
  irq_enable : option (irq_data -> mem -> mem);
  irq_disable : option (irq_data -> mem -> mem);
  irq_mask : option (irq_data -> mem -> mem);
  irq_unmask : option (irq_data -> mem -> mem);
  irq_ack : option (irq_data -> mem -> bool);
  irq_is_enabled : option (irq_data -> mem -> bool);
  irq_set_type : option (irq_data -> Z -> mem -> mem);
}.
Record irq_generic := Generic { manage_reg : Z; status_reg : Z; gc_chip : irq_chip }.

(** Offsets of [sgrt_radix] and [sgrt_data] in a descriptor, of [sgrt_link] in a
    domain and of [sgrt_chip] in [struct fwk_irq_generic]. *)
Definition desc_radix : Z := 40.
Definition desc_data : Z := 44.
Definition domain_link : Z := 20.
Definition generic_chip : Z := 8.

Definition zero_data : irq_data := IrqData 0 0 0 0 0 0 0.
Definition zero_desc : irq_desc := IrqDesc 0 0 [] 0 zero_data.
Definition with_data (f : irq_data -> irq_data) (d : irq_desc) : irq_desc :=
  IrqDesc (de_irq d) (de_flags d) (de_action d) (de_depth d) (f (de_data d)).
Definition with_action (f : list Z -> list Z) (d : irq_desc) : irq_desc :=
  IrqDesc (de_irq d) (de_flags d) (f (de_action d)) (de_depth d) (de_data d).
Definition or_flags (type : Z) (d : irq_desc) : irq_desc :=
  IrqDesc (de_irq d) (Z.lor (de_flags d) type) (de_action d) (de_depth d) (de_data d).
Definition with_revmap (r : list Z) (d : irq_domain) : irq_domain :=
  IrqDomain (dm_hwirq d) (dm_node d) (dm_name d) (dm_ops d) (dm_host_data d) (dm_parent d) (dm_hwirq_max d) r.

(** ** Chips *)
Definition setbitl (bit addr : Z) (r : mem) : mem := st r addr (Z.lor (r addr) bit).
Definition clrbitl (bit addr : Z) (r : mem) : mem := st r addr (Z.land (r addr) (Z.lnot bit)).
Definition getbitl (bit addr : Z) (r : mem) : Z := Z.land (r addr) bit.

Definition sgrt_fwk_irq_dummy_chip : irq_chip :=
  Chip (Some (fun _ r => r)) (Some (fun _ r => r)) (Some (fun _ r => r)) (Some (fun _ r => r)) None None None.

(** The functions of the generic chip; [gcs] finds [handler_data]. *)
Definition fwk_irq_chip_gc_enable (d : irq_data) (r : mem) : mem := r.
Definition fwk_irq_chip_gc_disable (d : irq_data) (r : mem) : mem := r.
Definition fwk_irq_chip_gc_mask (gcs : Z -> option irq_generic) (d : irq_data) (r : mem) : mem :=
  match gcs (id_handler_data d) with
  | None => r
  | Some gc => setbitl (id_mask d) (status_reg gc) (setbitl (id_mask d) (manage_reg gc) r)
  end.
Definition fwk_irq_chip_gc_unmask (gcs : Z -> option irq_generic) (d : irq_data) (r : mem) : mem :=
  match gcs (id_handler_data d) with None => r | Some gc => clrbitl (id_mask d) (manage_reg gc) r end.
Definition fwk_irq_chip_gc_ack (gcs : Z -> option irq_generic) (d : irq_data) (r : mem) : bool :=
  match gcs (id_handler_data d) with None => false | Some gc => negb (getbitl (id_mask d) (status_reg gc) r =? 0) end.
Definition fwk_irq_chip_gc_is_enabled (gcs : Z -> option irq_generic) (d : irq_data) (r : mem) : bool :=
  match gcs (id_handler_data d) with None => false | Some gc => negb (getbitl (id_mask d) (manage_reg gc) r =? 0) end.
Definition sgrt_fwk_irq_generic_chip (gcs : Z -> option irq_generic) : irq_chip :=
  Chip (Some fwk_irq_chip_gc_enable) (Some fwk_irq_chip_gc_disable) (Some (fwk_irq_chip_gc_mask gcs)) (Some (fwk_irq_chip_gc_unmask gcs))
    (Some (fwk_irq_chip_gc_ack gcs)) (Some (fwk_irq_chip_gc_is_enabled gcs)) None.

(** ** Numbers *)

(** [index] and [temp] are unsigned: the test for a negative [index] is never
    true. *)
Fixpoint find_areas (fuel : nat) (bitmap : list Z) (index total_bits nr_irqs : Z) : res Z :=
  if total_bits <=? u32 (index + nr_irqs) then Ok (- ER_MORE)
  else
    index ← bitmap_find_first_zero_bit bitmap index total_bits;
    let index := u32 index in
    temp ← bitmap_find_nr_zero_bit bitmap index total_bits nr_irqs;
    let temp := u32 temp in
    if temp =? 0 then Ok (s32 index)
    else match fuel with
         | O => Spin
         | S fuel => find_areas fuel bitmap (u32 (temp + 1)) total_bits nr_irqs
         end.
Definition fwk_irq_bitmap_find_areas (fuel : nat) (bitmap : list Z) (irq_base total_bits nr_irqs : Z) : res Z :=
  find_areas fuel bitmap (if 0 <=? irq_base then irq_base else 0) total_bits nr_irqs.

Section irqs.
Context {H : Type} `{KernelHeap H}.
(** Structure sizes; the root of the tree and its allocation callback; the
    dummy chip, the head of the list of domains and the default handler. *)
Context (sizeof_desc sizeof_action sizeof_domain sizeof_generic : Z).
Context (root : Z) (ralloc : gmap Z radix_node -> Z).
Context (dummy_chip sgrt_fwk_irq_domain fwk_default_irq_isr : Z).

Record isys := ISys {
  is_cpu : cpu;
  is_heap : H;
  is_tree : gmap Z radix_node;                (* sgrt_fwk_irq_radix_tree *)
  is_bitmap : list Z;                         (* g_fwk_allocated_irqs *)
  is_descs : gmap Z irq_desc;
  is_actions : gmap Z irq_action;
  is_domains : gmap Z irq_domain;
  is_gcs : gmap Z irq_generic;
  is_links : mem;                             (* the links of the domains *)
  is_regs : mem;                              (* device registers *)
}.
Definition put_cpu_heap (c : cpu) (h : H) (w : isys) : isys :=
  ISys c h (is_tree w) (is_bitmap w) (is_descs w) (is_actions w) (is_domains w) (is_gcs w) (is_links w) (is_regs w).
Definition put_tree (t : gmap Z radix_node) (w : isys) : isys :=
  ISys (is_cpu w) (is_heap w) t (is_bitmap w) (is_descs w) (is_actions w) (is_domains w) (is_gcs w) (is_links w) (is_regs w).
Definition put_bitmap (b : list Z) (w : isys) : isys :=
  ISys (is_cpu w) (is_heap w) (is_tree w) b (is_descs w) (is_actions w) (is_domains w) (is_gcs w) (is_links w) (is_regs w).
Definition put_descs (d : gmap Z irq_desc) (w : isys) : isys :=
  ISys (is_cpu w) (is_heap w) (is_tree w) (is_bitmap w) d (is_actions w) (is_domains w) (is_gcs w) (is_links w) (is_regs w).
Definition put_actions (a : gmap Z irq_action) (w : isys) : isys :=
  ISys (is_cpu w) (is_heap w) (is_tree w) (is_bitmap w) (is_descs w) a (is_domains w) (is_gcs w) (is_links w) (is_regs w).
Definition put_domains (d : gmap Z irq_domain) (w : isys) : isys :=
  ISys (is_cpu w) (is_heap w) (is_tree w) (is_bitmap w) (is_descs w) (is_actions w) d (is_gcs w) (is_links w) (is_regs w).
Definition put_gcs (g : gmap Z irq_generic) (w : isys) : isys :=
  ISys (is_cpu w) (is_heap w) (is_tree w) (is_bitmap w) (is_descs w) (is_actions w) (is_domains w) g (is_links w) (is_regs w).
Definition put_links (l : mem) (w : isys) : isys :=
  ISys (is_cpu w) (is_heap w) (is_tree w) (is_bitmap w) (is_descs w) (is_actions w) (is_domains w) (is_gcs w) l (is_regs w).
Definition put_regs (r : mem) (w : isys) : isys :=
  ISys (is_cpu w) (is_heap w) (is_tree w) (is_bitmap w) (is_descs w) (is_actions w) (is_domains w) (is_gcs w) (is_links w) r.

Definition i_kzalloc (size : Z) (w : isys) : res (Z * isys) :=
  '(q, c, h) ← heap_alloc (is_cpu w) (is_heap w) size (Z.lor GFP_KERNEL GFP_ZERO);
  Ok (q, put_cpu_heap c h w).
Definition i_kfree (ptr : Z) (w : isys) : res isys :=
  '(c, h) ← heap_free (is_cpu w) (is_heap w) ptr;
  Ok (put_cpu_heap c h w).

(** ** Descriptors *)
Definition fwk_allocate_irq_desc (w : isys) : res (Z * isys) :=
  '(p, w) ← i_kzalloc sizeof_desc w;
  if negb (isValid p) then Ok (nullptr, w) else Ok (p, put_descs (<[p := zero_desc]> (is_descs w)) w).

Definition fwk_irq_to_desc (virq : Z) (w : isys) : res Z :=
  link ← radix_tree_look_up root (is_tree w) (u32 virq);
  Ok (if link =? 0 then nullptr else link - desc_radix).
Definition fwk_irq_data_to_desc (sprt_data : Z) : Z := if sprt_data =? 0 then nullptr else sprt_data - desc_data.
Definition fwk_irq_get_data (virq : Z) (w : isys) : res Z :=
  sprt_desc ← fwk_irq_to_desc virq w;
  Ok (if sprt_desc =? 0 then nullptr else sprt_desc + desc_data).
(** The descriptor that a pointer to its [sgrt_data] is in. *)
Definition data_desc (sprt_data : Z) (w : isys) : res irq_desc := deref (is_descs w !! (sprt_data - desc_data)).
Definition upd_desc (f : irq_desc -> irq_desc) (p : Z) (w : isys) : isys := put_descs (alter f p (is_descs w)) w.
Definition upd_data (f : irq_data -> irq_data) (sprt_data : Z) (w : isys) : isys := upd_desc (with_data f) (sprt_data - desc_data) w.

(** The loop of [fwk_irq_domain_alloc_descs]; [false] is the return without
    memory. *)
Fixpoint create_descs (n : nat) (virq i : Z) (w : isys) : res (bool * isys) :=
  match n with
  | O => Ok (true, w)
  | S n =>
      '(p, w) ← fwk_allocate_irq_desc w;
      if negb (isValid p) then Ok (false, w)
      else
        '(depth, t) ← radix_tree_add root ralloc (is_tree w) (u32 (virq + i)) (p + desc_radix) 0;
        let w := put_tree t (upd_desc (fun d => IrqDesc (s32 (u32 (virq + i))) (de_flags d) (de_action d) depth (de_data d)) p w) in
        create_descs n virq (i + 1) w
  end.
(** [virq] is unsigned there: the test for a negative number is never true. *)
Definition fwk_irq_domain_alloc_descs (fuel : nat) (irq_base nr_irqs : Z) (w : isys) : res (Z * isys) :=
  virq ← fwk_irq_bitmap_find_areas fuel (is_bitmap w) irq_base FWK_IRQ_DESC_MAX nr_irqs;
  let virq := u32 virq in
  '(ok, w) ← create_descs (Z.to_nat nr_irqs) virq 0 w;
  if negb (ok : bool) then Ok (- ER_NOMEM, w)
  else
    bm ← bitmap_set_nr_bit_valid (is_bitmap w) virq FWK_IRQ_DESC_MAX nr_irqs;
    Ok (s32 virq, put_bitmap bm w).

(** A line outside [revmap] is an access outside its array. *)
Definition set_revmap (sprt_domain hwirq virq : Z) (w : isys) : res isys :=
  d ← deref (is_domains w !! sprt_domain);
  if hwirq <? len (dm_revmap d)
  then Ok (put_domains (<[sprt_domain := with_revmap (<[Z.to_nat hwirq := s32 virq]> (dm_revmap d)) d]> (is_domains w)) w)
  else Fault.
Definition get_revmap (sprt_domain hwirq : Z) (w : isys) : res Z :=
  d ← deref (is_domains w !! sprt_domain);
  if (0 <=? hwirq) && (hwirq <? len (dm_revmap d)) then deref (dm_revmap d !! Z.to_nat hwirq) else Fault.

Fixpoint fill_data (n : nat) (sprt_domain virq hwirq i : Z) (w : isys) : res (bool * isys) :=
  match n with
  | O => Ok (true, w)
  | S n =>
      sprt_data ← fwk_irq_get_data (virq + i) w;
      if negb (isValid sprt_data) then Ok (false, w)
      else
        let w := upd_data (fun d => IrqData (u32 (virq + i)) (u32 (hwirq + i)) dummy_chip sprt_domain (id_handler_data d) (id_chip_data d) 0) sprt_data w in
        w ← set_revmap sprt_domain (u32 (hwirq + i)) (u32 (virq + i)) w;
        fill_data n sprt_domain virq hwirq (i + 1) w
  end.
Definition irq_domain_alloc_irq_data (sprt_domain virq hwirq nr_irqs : Z) (w : isys) : res (Z * isys) :=
  '(ok, w) ← fill_data (Z.to_nat nr_irqs) sprt_domain virq hwirq 0 w;
  Ok (if (ok : bool) then s32 virq else - ER_NOTFOUND, w).
Definition fwk_irq_domain_alloc_irqs (fuel : nat) (sprt_domain irq_base hwirq nr_irqs : Z) (w : isys) : res (Z * isys) :=
  '(virq, w) ← fwk_irq_domain_alloc_descs fuel irq_base nr_irqs w;
  if virq <? 0 then Ok (virq, w) else irq_domain_alloc_irq_data sprt_domain virq hwirq nr_irqs w.

Definition fwk_irq_domain_get_data (sprt_domain hwirq : Z) (w : isys) : res Z :=
  if negb (isValid sprt_domain) then Ok nullptr
  else
    virq ← get_revmap sprt_domain hwirq w;
    if virq <? 0 then Ok nullptr
    else
      sprt_data ← fwk_irq_get_data virq w;
      if isValid sprt_data then
        d ← data_desc sprt_data w;
        Ok (if (id_hwirq (de_data d) =? hwirq) && (id_domain (de_data d) =? sprt_domain) then sprt_data else nullptr)
      else Ok nullptr.
Definition fwk_irq_domain_find_map (sprt_domain hwirq type : Z) (w : isys) : res (Z * isys) :=
  sprt_data ← fwk_irq_domain_get_data sprt_domain hwirq w;
  if negb (isValid sprt_data) then Ok (- ER_UNVALID, w)
  else
    d ← data_desc sprt_data w;
    let w := if type =? 0 then w
             else
               let type := Z.land type IRQ_TYPE_SENSE_MASK in
               if Z.land (de_flags d) type =? 0 then upd_desc (or_flags type) (fwk_irq_data_to_desc sprt_data) w else w in
    Ok (s32 (id_irq (de_data d)), w).
Definition fwk_irq_desc_set_type (virq type : Z) (w : isys) : res isys :=
  sprt_desc ← fwk_irq_to_desc virq w;
  if negb (isValid sprt_desc) then Ok w
  else _ ← deref (is_descs w !! sprt_desc); Ok (upd_desc (or_flags type) sprt_desc w).

(** ** Actions *)
Fixpoint find_action (l : list Z) (name : option (list Z)) (ptrDev : Z) (w : isys) : res Z :=
  match l with
  | [] => Ok nullptr
  | p :: l =>
      a ← deref (is_actions w !! p);
      differs ← match name with Some s => c_strncmp FWK_IRQ_DESC_NAME_LENTH (ia_name a) (s ++ [0]) | None => Ok false end;
      if negb (differs : bool) && (ia_args a =? ptrDev) then Ok p else find_action l name ptrDev w
  end.
Definition fwk_find_irq_action (irq : Z) (name : option (list Z)) (ptrDev : Z) (w : isys) : res Z :=
  sprt_desc ← fwk_irq_to_desc irq w;
  if negb (isValid sprt_desc) then Ok nullptr
  else d ← deref (is_descs w !! sprt_desc); find_action (de_action d) name ptrDev w.

(** The release of one action of a descriptor: it leaves the list and its block
    is freed. *)
Definition drop_action (sprt_desc p : Z) (w : isys) : res isys :=
  let w := upd_desc (with_action (filter (fun x => x <> p))) sprt_desc w in
  w ← i_kfree p w;
  Ok (put_actions (delete p (is_actions w)) w).
Fixpoint drop_actions (l : list Z) (sprt_desc : Z) (w : isys) : res isys :=
  match l with
  | [] => Ok w
  | p :: l => w ← drop_action sprt_desc p w; drop_actions l sprt_desc w
  end.
Definition fwk_destroy_irq_action (irq : Z) (w : isys) : res isys :=
  sprt_desc ← fwk_irq_to_desc irq w;
  if negb (isValid sprt_desc) then Ok w
  else d ← deref (is_descs w !! sprt_desc); drop_actions (de_action d) sprt_desc w.

(** ** Switching an interrupt *)
Definition chip_at (p : Z) (w : isys) : res irq_chip :=
  if p =? dummy_chip then Ok sgrt_fwk_irq_dummy_chip
  else gc ← deref (is_gcs w !! (p - generic_chip)); Ok (gc_chip gc).
(** Run [f] on the data of an interrupt and its chip; nothing without data. *)
Definition with_chip (irq : Z) (f : irq_data -> irq_desc -> irq_chip -> res mem) (w : isys) : res isys :=
  sprt_data ← fwk_irq_get_data irq w;
  if sprt_data =? 0 then Ok w
  else
    d ← data_desc sprt_data w;
    c ← chip_at (id_chip (de_data d)) w;
    r ← f (de_data d) d c;
    Ok (put_regs r w).
Definition fwk_enable_irq (irq : Z) (w : isys) : res isys :=
  with_chip irq (fun d _ c =>
    match irq_enable c with
    | Some f => Ok (f d (is_regs w))
    | None => Ok (match irq_mask c with Some f => f d (is_regs w) | None => is_regs w end)
    end) w.
(** The test is for [irq_mask], the call is [irq_unmask]. *)
Definition fwk_disable_irq (irq : Z) (w : isys) : res isys :=
  with_chip irq (fun d _ c =>
    match irq_disable c with
    | Some f => Ok (f d (is_regs w))
    | None => match irq_mask c with
              | Some _ => f ← deref (irq_unmask c); Ok (f d (is_regs w))
              | None => Ok (is_regs w)
              end
    end) w.
Definition fwk_irq_set_type (irq flags : Z) (w : isys) : res isys :=
  with_chip irq (fun d desc c =>
    let type := Z.land flags IRQ_TYPE_SENSE_MASK in
    let type := if type =? 0 then Z.land (de_flags desc) IRQ_TYPE_SENSE_MASK else type in
    Ok (match irq_set_type c with Some f => f d type (is_regs w) | None => is_regs w end)) w.
Definition irq_query (query : irq_chip -> option (irq_data -> mem -> bool)) (irq : Z) (w : isys) : res bool :=
  sprt_data ← fwk_irq_get_data irq w;
  if sprt_data =? 0 then Ok false
  else
    d ← data_desc sprt_data w;
    c ← chip_at (id_chip (de_data d)) w;
    Ok (match query c with Some f => f (de_data d) (is_regs w) | None => false end).
Definition fwk_irq_is_acked := irq_query irq_ack.
Definition fwk_irq_is_enabled := irq_query irq_is_enabled.

Definition fwk_irq_set_chip_data (data : Z) (d : irq_data) : irq_data :=
  IrqData (id_irq d) (id_hwirq d) (id_chip d) (id_domain d) (id_handler_data d) data (id_mask d).
Definition fwk_irq_set_chip_handler (sprt_chip data : Z) (d : irq_data) : irq_data :=
  IrqData (id_irq d) (id_hwirq d) sprt_chip (id_domain d) data (id_chip_data d) (id_mask d).
Definition set_mask (mask : Z) (d : irq_data) : irq_data :=
  IrqData (id_irq d) (id_hwirq d) (id_chip d) (id_domain d) (id_handler_data d) (id_chip_data d) mask.

(** The loops over [irq_max] numbers from [irq_base] on, at number [i]. *)
Fixpoint setup_chips (n : nat) (irq_base i sprt_gc chip_data : Z) (w : isys) : res isys :=
  match n with
  | O => Ok w
  | S n =>
      sprt_data ← fwk_irq_get_data (irq_base + i) w;
      let w := if sprt_data =? 0 then w
               else upd_data (fun d => fwk_irq_set_chip_handler (sprt_gc + generic_chip) sprt_gc (fwk_irq_set_chip_data chip_data (set_mask (mrt_bit i) d))) sprt_data w in
      setup_chips n irq_base (i + 1) sprt_gc chip_data w
  end.
Definition fwk_irq_setup_generic_chip (irq_base irq_max sprt_gc chip_data : Z) : isys -> res isys :=
  setup_chips (Z.to_nat irq_max) irq_base 0 sprt_gc chip_data.
Fixpoint shutdown_chips (n : nat) (irq_base i : Z) (w : isys) : res isys :=
  match n with
  | O => Ok w
  | S n =>
      sprt_data ← fwk_irq_get_data (irq_base + i) w;
      let w := if sprt_data =? 0 then w
               else upd_data (fun d => fwk_irq_set_chip_handler dummy_chip nullptr (fwk_irq_set_chip_data nullptr (set_mask 0 d))) sprt_data w in
      shutdown_chips n irq_base (i + 1) w
  end.
Definition fwk_irq_shutdown_generic_chip (irq_base irq_max : Z) : isys -> res isys := shutdown_chips (Z.to_nat irq_max) irq_base 0.
Definition fwk_irq_get_generic_data (d : irq_data) : Z := id_chip d - generic_chip.

(** ** Requests *)
Definition fwk_request_irq (irq handler flags : Z) (name : option (list Z)) (ptrDev : Z) (w : isys) : res (Z * isys) :=
  name ← deref name;                                 (* kstrlen(name) comes first *)
  if ptrDev =? 0 then Ok (- ER_FAULT, w)
  else
    found ← fwk_find_irq_action irq (Some name) ptrDev w;
    if negb (found =? 0) then Ok (- ER_EXISTED, w)
    else
      sprt_desc ← fwk_irq_to_desc irq w;
      if negb (isValid sprt_desc) then Ok (- ER_NOMEM, w)
      else
        '(p, w) ← i_kzalloc sizeof_action w;
        if negb (isValid p) then Ok (- ER_NOMEM, w)
        else if (FWK_IRQ_DESC_NAME_LENTH <=? length name)%nat then w ← i_kfree p w; Ok (- ER_CHECKERR, w)
        else
          text ← name_strcpy (replicate FWK_IRQ_DESC_NAME_LENTH 0) name;
          let a := IrqAction text (if handler =? 0 then fwk_default_irq_isr else handler) flags ptrDev in
          let w := put_actions (<[p := a]> (is_actions w)) w in
          w ← fwk_irq_set_type irq flags w;
          let w := upd_desc (with_action (fun l => l ++ [p])) sprt_desc w in
          w ← fwk_enable_irq irq w;
          Ok (ER_NORMAL, w).
Definition fwk_free_irq (irq ptrDev : Z) (w : isys) : res isys :=
  if (irq <? 0) || (ptrDev =? 0) then Ok w
  else
    w ← fwk_disable_irq irq w;
    p ← fwk_find_irq_action irq None ptrDev w;
    if isValid p then
      sprt_desc ← fwk_irq_to_desc irq w;
      drop_action sprt_desc p w
    else Ok w.

(** What handlers do is a parameter: they run on a state of their own. *)
Definition fwk_do_irq_handler {D} (run : Z -> Z -> D -> D) (softIrq : Z) (w : isys) (s : D) : res D :=
  if softIrq <? 0 then Ok s
  else
    sprt_desc ← fwk_irq_to_desc softIrq w;
    if negb (isValid sprt_desc) then Ok s
    else
      d ← deref (is_descs w !! sprt_desc);
      (fix go (l : list Z) (s : D) : res D :=
         match l with
         | [] => Ok s
         | p :: l => a ← deref (is_actions w !! p); go l (if ia_handler a =? 0 then s else run (ia_handler a) (ia_args a) s)
         end) (de_action d) s.

(** ** Releasing interrupts *)
Definition fwk_irq_desc_free (irq : Z) (w : isys) : res isys :=
  sprt_desc ← fwk_irq_to_desc irq w;
  d ← deref (is_descs w !! sprt_desc);
  let irq := id_irq (de_data d) in
  bm ← bitmap_set_nr_bit_zero (is_bitmap w) irq FWK_IRQ_DESC_MAX 1;
  w ← fwk_destroy_irq_action irq (put_bitmap bm w);
  t ← radix_tree_del root (is_tree w) irq;
  w ← i_kfree sprt_desc (put_tree t w);
  Ok (put_descs (delete sprt_desc (is_descs w)) w).

(** [for (idx = 0; idx < sprt_domain->hwirq_max; idx++)], from [idx] on. *)
Fixpoint free_lines (n : nat) (sprt_domain idx : Z) (w : isys) : res isys :=
  match n with
  | O => Ok w
  | S n =>
      virq ← get_revmap sprt_domain idx w;
      w ← (if virq <? 0 then Ok w
           else w ← fwk_irq_desc_free virq w; set_revmap sprt_domain idx (-1) w);
      free_lines n sprt_domain (idx + 1) w
  end.
Definition fwk_irq_domain_free_irqs (sprt_domain : Z) (w : isys) : res isys :=
  d ← deref (is_domains w !! sprt_domain);
  free_lines (Z.to_nat (dm_hwirq_max d)) sprt_domain 0 w.

(** ** Domains *)

(** [foreach_list_next_entry] over the domains, from the link [pos] on. *)
Fixpoint walk_domains (fuel : nat) (P : irq_domain -> res bool) (pos : Z) (w : isys) : res Z :=
  if pos =? sgrt_fwk_irq_domain then Ok nullptr
  else match fuel with
       | O => Spin
       | S fuel =>
           d ← deref (is_domains w !! (pos - domain_link));
           b ← P d;
           if (b : bool) then Ok (pos - domain_link) else walk_domains fuel P (sprt_next (is_links w) pos) w
       end.
Definition find_domain (fuel : nat) (P : irq_domain -> res bool) (w : isys) : res Z :=
  walk_domains fuel P (sprt_next (is_links w) sgrt_fwk_irq_domain) w.
Definition fwk_of_irq_host (fuel : nat) (sprt_node : Z) : isys -> res Z :=
  find_domain fuel (fun d => Ok (sprt_node =? dm_node d)).
(** [hwirq < hwirq_max] compares unsigned. *)
Definition fwk_irq_get_domain_by_name (fuel : nat) (name : list Z) (hwirq : Z) : isys -> res Z :=
  find_domain fuel (fun d =>
    match dm_name d with
    | None => Ok false
    | Some s => differs ← c_strcmp (s ++ [0]) (name ++ [0]); Ok (negb differs && (u32 hwirq <? dm_hwirq_max d))
    end).
Definition fwk_irq_get_by_domain (sprt_domain hwirq : Z) (w : isys) : res Z :=
  if sprt_domain =? 0 then Ok (-1) else get_revmap sprt_domain hwirq w.
Definition fwk_irq_get_by_domain_name (fuel : nat) (name : list Z) (hwirq : Z) (w : isys) : res Z :=
  sprt_domain ← fwk_irq_get_domain_by_name fuel name hwirq w;
  fwk_irq_get_by_domain sprt_domain hwirq w.

Definition fwk_irq_domain_add_linear (sprt_node size ops host_data : Z) (w : isys) : res (Z * isys) :=
  '(p, w) ← i_kzalloc (u32 (sizeof_domain + u32 (4 * size))) w;
  if negb (isValid p) then Ok (nullptr, w)
  else
    let d := IrqDomain 0 sprt_node None ops host_data 0 size (replicate (Z.to_nat size) (-1)) in
    let w := put_domains (<[p := d]> (is_domains w)) w in
    Ok (p, put_links (list_head_add_tail (is_links w) sgrt_fwk_irq_domain (p + domain_link)) w).
Definition fwk_irq_domain_add_hierarchy (sprt_parent sprt_node : Z) (name : option (list Z)) (size ops host_data : Z) (w : isys) : res (Z * isys) :=
  '(p, w) ← fwk_irq_domain_add_linear sprt_node size ops host_data w;
  if isValid p then
    Ok (p, put_domains (alter (fun d => IrqDomain (dm_hwirq d) (dm_node d) name (dm_ops d) (dm_host_data d) sprt_parent (dm_hwirq_max d) (dm_revmap d)) p
             (is_domains w)) w)
  else Ok (p, w).
(** [list_head_del_tail] takes the link of the domain for a list head. *)
Definition fwk_irq_domain_del_hierarchy (sprt_domain : Z) (w : isys) : res isys :=
  if sprt_domain =? 0 then Ok w
  else
    w ← fwk_irq_domain_free_irqs sprt_domain w;
    Ok (put_links (list_head_del_tail (is_links w) (sprt_domain + domain_link)) w).

(** *** Mapping a line

    The operations of a domain: [xlate] gives the result code, the line and the
    trigger type; [alloc] prepares the chip of new interrupts. *)
Record domain_ops := DomainOps {
  xlate : option (irq_domain -> Z -> list Z -> Z -> res (Z * Z * Z));
  alloc : option (Z -> Z -> Z -> isys -> res (Z * isys));
}.
Definition fwk_irq_find_mapping (sprt_domain type hwirq : Z) := fwk_irq_domain_find_map sprt_domain hwirq type.
Definition fwk_irq_create_of_mapping (ops_at : Z -> option domain_ops) (fuel : nat) (sprt_node : Z) (args : list Z) (args_count : Z) (w : isys) : res (Z * isys) :=
  if negb (isValid sprt_node) then Ok (- ER_NOMEM, w)
  else
    sprt_domain ← fwk_of_irq_host fuel sprt_node w;
    if negb (isValid sprt_domain) then Ok (- ER_NOTFOUND, w)
    else
      dom ← deref (is_domains w !! sprt_domain);
      ops ← deref (ops_at (dm_ops dom));
      match xlate ops with
      | None => Ok (- ER_NOTFOUND, w)
      | Some f =>
          '(retval, hwirq, type) ← f dom sprt_node args args_count;
          if retval <? 0 then Ok (retval, w)
          else
            '(virq, w) ← fwk_irq_find_mapping sprt_domain type hwirq w;
            if 0 <=? virq then Ok (virq, w)
            else
              '(virq, w) ← fwk_irq_domain_alloc_irqs fuel sprt_domain (-1) hwirq 1 w;
              if virq <? 0 then Ok (virq, w)
              else
                w ← match alloc ops with Some g => '(_, w) ← g sprt_domain virq 1 w; Ok w | None => Ok w end;
                w ← fwk_irq_desc_set_type virq type w;
                Ok (virq, w)
      end.

(** *** The controllers of armv7/irq.c *)
Definition gic_irq_domain_xlate (sprt_domain : irq_domain) (sprt_intc : Z) (intspec : list Z) (intsize : Z) : res (Z * Z * Z) :=
  if negb (dm_node sprt_domain =? sprt_intc) then Ok (- ER_UNVALID, 0, 0)
  else if intsize <? 3 then Ok (- ER_UNVALID, 0, 0)
  else
    kind ← deref (intspec !! 0%nat); line ← deref (intspec !! 1%nat); trigger ← deref (intspec !! 2%nat);
    Ok (ER_NORMAL, if kind =? 0 then u32 (line + 16) else line, Z.land trigger IRQ_TYPE_SENSE_MASK).
Definition gpc_irq_domain_xlate (sprt_domain : irq_domain) (sprt_intc : Z) (intspec : list Z) (intsize : Z) : res (Z * Z * Z) :=
  if negb (dm_node sprt_domain =? sprt_intc) then Ok (- ER_UNVALID, 0, 0)
  else if negb (intsize =? 3) then Ok (- ER_UNVALID, 0, 0)
  else
    kind ← deref (intspec !! 0%nat); line ← deref (intspec !! 1%nat); trigger ← deref (intspec !! 2%nat);
    if negb (kind =? 0) then Ok (- ER_UNVALID, 0, 0) else Ok (ER_NORMAL, line, trigger).

(** [chip] holds the functions that access the controller's registers. *)
Definition gic_irq_domain_alloc (chip : irq_chip) (sprt_domain virq nr_irqs : Z) (w : isys) : res (Z * isys) :=
  if sprt_domain =? 0 then Ok (- ER_NODEV, w)
  else
    '(p, w) ← i_kzalloc sizeof_generic w;
    if negb (isValid p) then Ok (- ER_NOMEM, w)
    else
      let w := put_gcs (<[p := Generic 0 0 chip]> (is_gcs w)) w in
      w ← fwk_irq_setup_generic_chip virq nr_irqs p nullptr w;
      Ok (ER_NORMAL, w).
Definition gic_irq_domain_free (virq nr_irqs : Z) (w : isys) : res isys :=
  sprt_data ← fwk_irq_get_data virq w;
  if negb (isValid sprt_data) then Ok w
  else
    d ← data_desc sprt_data w;
    let sprt_gc := fwk_irq_get_generic_data (de_data d) in
    w ← fwk_irq_shutdown_generic_chip virq nr_irqs w;
    w ← i_kfree sprt_gc w;
    Ok (put_gcs (delete sprt_gc (is_gcs w)) w).

(** ["interrupt-controller"] and ["gpc"] *)
Definition intc_text : list Z := [105; 110; 116; 101; 114; 114; 117; 112; 116; 45; 99; 111; 110; 116; 114; 111; 108; 108; 101; 114].
Definition gpc_text : list Z := [103; 112; 99].
(** From a hardware line to the handlers (arch/arm/lib/interrupt.c).  [direct]
    is [g_isIntcGicDirect]; [hardirq] is the line the controller reports. *)
Definition fwk_gic_to_actual_irq (direct : bool) (fuel : nat) (hwirq : Z) (w : isys) : res Z :=
  let irq_base := if direct then 16 else 32 in
  let hwirq := s32 (hwirq - irq_base) in
  if hwirq <? 0 then Ok hwirq
  else fwk_irq_get_by_domain_name fuel (if direct then intc_text else gpc_text) hwirq w.
Definition fwk_gpc_to_gic_irq (virq : Z) (w : isys) : res Z :=
  sprt_data ← fwk_irq_get_data virq w;
  if isValid sprt_data then d ← data_desc sprt_data w; Ok (s32 (id_hwirq (de_data d) + 32)) else Ok (-1).
Definition exec_irq_handler {D} (run : Z -> Z -> D -> D) (direct : bool) (fuel : nat) (hardirq : Z) (w : isys) (s : D) : res D :=
  softIrq ← fwk_gic_to_actual_irq direct fuel hardirq w;
  fwk_do_irq_handler run softIrq w s.
End irqs.
