(* ===== verification/IrqSpec.v ===== *)
(** * Interrupts are mapped one to one and dispatched to their handlers

    [irq_inv] ties domains, descriptors, the radix tree and the bitmap together:
    every line that is mapped has a number of its own, whose descriptor points
    back at the line.  All operations keep it, failures included. *)

From stdpp Require Import prelude gmap fin_maps sorting.
From S2P Require Import Prelude Mem ListHead MemPool Bytes Sync Generic Bitmap Radix RadixSpec RadixMap RadixHistory KMalloc KMallocSpec KName HeapContract Irq.

(** ** Numbers *)
Definition clear_run (bm : list Z) (s nr : Z) : Prop := forall j, s <= j < s + nr -> bit_at bm j = false.

Lemma first_zero_least bm total index s :
  bytes_ok bm -> 0 <= index <= s -> s < total -> total <= 8 * len bm -> bit_at bm s = false ->
  exists k, bitmap_find_first_zero_bit bm index total = Ok k /\ index <= k <= s /\ bit_at bm k = false /\ forall j, index <= j < k -> bit_at bm j = true.
Proof.
  intros Hok Hi Hs Ht Hb. destruct (find_first_bit_spec bm index total false Hok) as (r & E & Hr); [lia..|].
  exists r. split; [exact E|]. destruct Hr as [[-> Hall]|(Hr & Hbr & Hall)]; [rewrite Hall in Hb by lia; done|].
  split_and!; [lia| |done|done]. destruct (Z.le_gt_cases r s); [done|]. rewrite Hall in Hb by lia. done.
Qed.

Lemma find_areas_least total nr bm fuel : forall index s,
  bytes_ok bm -> total <= 8 * len bm -> 1 <= nr -> 0 <= index <= s -> s + nr < total -> clear_run bm s nr ->
  (forall j, index <= j < s -> ~ clear_run bm j nr) -> s - index <= 2 * Z.of_nat fuel ->
  find_areas fuel bm index total nr = Ok s.
Proof.
  induction fuel as [|fuel IH]; intros index s Hok Ht Hnr Hi Hs Hrun Hleast Hf; pose proof (proj2 Hok) as Hlen.
  all: assert (bit_at bm s = false) as Hb by (apply Hrun; lia).
  all: destruct (first_zero_least bm total index s) as (k & E & Hk & Hbk & Hones); [done|lia|lia|lia|done|].
  all: cbn [find_areas]; rewrite u32_id by (unfold is_u32, W32; lia); rewrite (proj2 (Z.leb_gt _ _)) by lia; rewrite E; cbn [mbind res_bind].
  all: rewrite (u32_id k) by (unfold is_u32, W32; lia); unfold bitmap_find_nr_zero_bit, bitmap_find_nr_bit.
  all: rewrite (u32_id (k + nr)) by (unfold is_u32, W32; lia); rewrite (proj2 (Z.leb_gt _ _)) by lia.
  all: destruct (find_first_bit_spec bm k (k + nr) (negb false) Hok) as (r & -> & Hr); [lia..|]; cbn [mbind res_bind].
  all: destruct Hr as [[-> Hall]|(Hr & Hbr & Hall)].
  1,3: assert (k = s) as -> by (destruct (Z.eq_dec k s); [done|]; exfalso; apply (Hleast k); [lia|exact Hall]).
  1,2: cbn [Z.ltb Z.compare]; change (u32 0) with 0; cbn [Z.eqb]; by rewrite s32_id by lia.
  all: assert (r <> k) by (intros ->; rewrite Hbk in Hbr; done).
  all: assert (r < s) by (destruct (Z.lt_ge_cases r s); [done|]; rewrite (Hrun r) in Hbr by lia; done).
  all: rewrite (proj2 (Z.ltb_ge r 0)) by lia; rewrite (u32_id r) by (unfold is_u32, W32; lia); rewrite (proj2 (Z.eqb_neq r 0)) by lia.
  1: lia.
  rewrite u32_id by (unfold is_u32, W32; lia). apply IH; try done; [lia| |lia]. intros j Hj. apply Hleast. lia.
Qed.

(** When only the last number is free, the search starts over for ever: the run
    would end at the last bit, which is taken for a failure at bit 2^32 - 1. *)
Lemma find_areas_hangs fuel : find_areas fuel (replicate 127 255 ++ [127]) 0 FWK_IRQ_DESC_MAX 1 = Spin.
Proof.
  induction fuel as [|fuel IH]; [vm_compute; reflexivity|].
  transitivity (find_areas fuel (replicate 127 255 ++ [127]) 0 FWK_IRQ_DESC_MAX 1); [|exact IH].
  cbn [find_areas]. change (FWK_IRQ_DESC_MAX <=? u32 (0 + 1)) with false. cbn iota.
  assert (bitmap_find_first_zero_bit (replicate 127 255 ++ [127]) 0 FWK_IRQ_DESC_MAX = Ok 1023) as -> by (vm_compute; reflexivity).
  cbn [mbind res_bind].
  assert (bitmap_find_nr_zero_bit (replicate 127 255 ++ [127]) (u32 1023) FWK_IRQ_DESC_MAX 1 = Ok (-1)) as -> by (vm_compute; reflexivity).
  done.
Qed.

Section irq.
Context {H : Type} `{KernelHeap H}.
Context (sizeof_desc sizeof_action sizeof_domain sizeof_generic : Z).
Context (root : Z) (ralloc : gmap Z radix_node -> Z) (dummy_chip head isr : Z).
Local Notation isys := (@isys H).
Local Notation dsz := (mrt_num_align8 sizeof_desc).
Local Notation asz := (mrt_num_align8 sizeof_action).

(** ** The invariant

    [M] maps numbers to the radix links of their descriptors, [L] are the live
    blocks of the heap. *)
Definition chip_ok (p : Z) (w : isys) : Prop := exists c, chip_at dummy_chip p w = Ok c.
Definition points (d : irq_data) (v h p : Z) : Prop := id_irq d = v /\ id_hwirq d = h /\ id_domain d = p.

Record irq_inv (M : gmap Z Z) (L : list (Z * Z)) (w : isys) : Prop := {
  iv_cpu : cpu_ok (is_cpu w);
  iv_heap : heap_inv (is_heap w) L;
  iv_tree : radix_rep root (is_tree w) M;
  iv_bits : bytes_ok (is_bitmap w) /\ len (is_bitmap w) = 128;
  iv_entry : forall v l, M !! v = Some l -> is_Some (is_descs w !! (l - desc_radix));
  iv_inj : forall v v' l, M !! v = Some l -> M !! v' = Some l -> v = v';
  iv_desc : forall p d, is_descs w !! p = Some d ->
    isValid p = true /\ (p, dsz) ∈ L /\ NoDup (de_action d) /\ forall a, a ∈ de_action d -> is_Some (is_actions w !! a);
  iv_act : forall p a, is_actions w !! p = Some a ->
    isValid p = true /\ (p, asz) ∈ L /\ length (ia_name a) = FWK_IRQ_DESC_NAME_LENTH /\ ia_handler a <> 0;
  iv_own : forall p1 p2 d1 d2 a, is_descs w !! p1 = Some d1 -> is_descs w !! p2 = Some d2 ->
    a ∈ de_action d1 -> a ∈ de_action d2 -> p1 = p2;
  iv_apart : forall p, is_Some (is_descs w !! p) -> is_actions w !! p = None;
  iv_dom : forall p dm, is_domains w !! p = Some dm ->
    isValid p = true /\ len (dm_revmap dm) = dm_hwirq_max dm /\ dm_hwirq_max dm < 2 ^ 31 /\ Forall (fun v => -1 <= v < FWK_IRQ_DESC_MAX) (dm_revmap dm);
  iv_map : forall p dm h v, is_domains w !! p = Some dm -> dm_revmap dm !! h = Some v -> 0 <= v ->
    bit_at (is_bitmap w) v = true /\
    exists l d, M !! v = Some l /\ is_descs w !! (l - desc_radix) = Some d /\ points (de_data d) v (Z.of_nat h) p /\ chip_ok (id_chip (de_data d)) w;
}.

(** The number that line [h] of domain [p] is mapped to. *)
Definition line (w : isys) (p h : Z) : option Z :=
  match is_domains w !! p with
  | Some dm => match dm_revmap dm !! Z.to_nat h with Some v => if 0 <=? v then Some v else None | None => None end
  | None => None
  end.
(** The handlers of a number with their arguments, in order. *)
Definition handlers (M : gmap Z Z) (w : isys) (v : Z) : list (Z * Z) :=
  match M !! v ≫= fun l => is_descs w !! (l - desc_radix) with
  | Some d => omap (fun p => (fun a => (ia_handler a, ia_args a)) <$> is_actions w !! p) (de_action d)
  | None => []
  end.

Lemma line_spec M L w p h v : irq_inv M L w -> line w p h = Some v -> 0 <= v < FWK_IRQ_DESC_MAX /\ bit_at (is_bitmap w) v = true /\
  exists l d, M !! v = Some l /\ is_descs w !! (l - desc_radix) = Some d /\ points (de_data d) v (Z.of_nat (Z.to_nat h)) p /\ chip_ok (id_chip (de_data d)) w.
Proof.
  intros I. unfold line. destruct (is_domains w !! p) as [dm|] eqn:Hp; [|done]. destruct (dm_revmap dm !! Z.to_nat h) as [u|] eqn:Hh; [|done].
  destruct (Z.leb_spec 0 u) as [Hu|Hu]; [|done]. intros [= <-]. destruct (iv_dom _ _ _ I p dm Hp) as (_ & _ & _ & Hall).
  pose proof (Forall_lookup_1 _ _ _ _ Hall Hh) as Hr. simpl in Hr. split; [lia|]. exact (iv_map _ _ _ I p dm _ u Hp Hh Hu).
Qed.
(** Lines do not share numbers. *)
Lemma line_inj M L w p h p' h' v : irq_inv M L w -> 0 <= h -> 0 <= h' -> line w p h = Some v -> line w p' h' = Some v -> p = p' /\ h = h'.
Proof.
  intros I Hh Hh' E E'. destruct (line_spec M L w p h v I E) as (_ & _ & l & d & Hl & Hd & (_ & H1 & H2) & _).
  destruct (line_spec M L w p' h' v I E') as (_ & _ & l' & d' & Hl' & Hd' & (_ & H1' & H2') & _). simplify_eq. split; [congruence|]. rewrite H1 in H1'. lia.
Qed.

(** ** Frames *)
Lemma inv_heap M L L' w c h : irq_inv M L w -> cpu_ok c -> heap_inv h L' -> (forall b, b ∈ L -> b ∈ L') -> irq_inv M L' (put_cpu_heap c h w).
Proof.
  intros I Hc Hh HL. split; try apply I; try done.
  - intros p d Hd. destruct (iv_desc _ _ _ I p d Hd) as (? & ? & ?). auto.
  - intros p a Ha. destruct (iv_act _ _ _ I p a Ha) as (? & ? & ?). auto.
Qed.
Lemma inv_bitmap M L w bm : irq_inv M L w -> bytes_ok bm -> len bm = 128 ->
  (forall v, 0 <= v < 1024 -> bit_at (is_bitmap w) v = true -> bit_at bm v = true) -> irq_inv M L (put_bitmap bm w).
Proof.
  intros I Hb Hl Hm. split; try apply I; try done. intros p dm h v Hp Hh Hv. destruct (iv_map _ _ _ I p dm h v Hp Hh Hv) as (Hbit & Hex).
  split; [|exact Hex]. apply Hm; [|done]. destruct (iv_dom _ _ _ I p dm Hp) as (_ & _ & _ & Hall).
  pose proof (Forall_lookup_1 _ _ _ _ Hall Hh) as Hr. simpl in Hr. unfold FWK_IRQ_DESC_MAX in Hr. lia.
Qed.
Lemma inv_regs M L w r : irq_inv M L w -> irq_inv M L (put_regs r w).
Proof. intros I. by split; try apply I. Qed.
Lemma inv_links M L w r : irq_inv M L w -> irq_inv M L (put_links r w).
Proof. intros I. by split; try apply I. Qed.

(** A descriptor rewritten by [f], which keeps its actions and, if it is mapped,
    what its data points to and a chip. *)
Definition keeps_desc (w : isys) (f : irq_desc -> irq_desc) : Prop :=
  forall d, de_action (f d) = de_action d /\
    (forall v h p, points (de_data d) v h p -> points (de_data (f d)) v h p) /\
    (chip_ok (id_chip (de_data d)) w -> chip_ok (id_chip (de_data (f d))) w).
Lemma inv_upd_desc M L w f p : irq_inv M L w -> keeps_desc w f -> irq_inv M L (upd_desc f p w).
Proof.
  intros I Hf.
  assert (forall q d', is_descs (upd_desc f p w) !! q = Some d' -> exists d, is_descs w !! q = Some d /\ (d' = d \/ d' = f d)) as Hback.
  { intros q d'. simpl. destruct (decide (q = p)) as [->|].
    - rewrite lookup_alter_eq. intros (d & ? & ?)%fmap_Some. eauto.
    - rewrite lookup_alter_ne by done. eauto. }
  assert (forall q d', is_descs (upd_desc f p w) !! q = Some d' -> exists d, is_descs w !! q = Some d /\ de_action d' = de_action d) as Hact.
  { intros q d' Hd. destruct (Hback q d' Hd) as (d & ? & [->| ->]); exists d; split; try done. by apply Hf. }
  split; try apply I.
  - intros v l Hl. destruct (iv_entry _ _ _ I v l Hl) as [d Hd]. simpl. destruct (decide (l - desc_radix = p)) as [<-|].
    + rewrite lookup_alter_eq, Hd. eauto.
    + rewrite lookup_alter_ne by done. eauto.
  - intros q d' Hd. destruct (Hact q d' Hd) as (d & Hd0 & ->). exact (iv_desc _ _ _ I q d Hd0).
  - intros p1 p2 d1 d2 a H1 H2. destruct (Hact _ _ H1) as (e1 & He1 & ->), (Hact _ _ H2) as (e2 & He2 & ->). by eapply (iv_own _ _ _ I).
  - intros q [d' Hd]. destruct (Hact q d' Hd) as (d & Hd0 & _). apply (iv_apart _ _ _ I). eauto.
  - intros q dm h v Hq Hh Hv. destruct (iv_map _ _ _ I q dm h v Hq Hh Hv) as (Hb & l & d & Hl & Hd & Hp & Hc). split; [done|].
    destruct (Hf d) as (_ & Hf1 & Hf2). exists l. simpl. destruct (decide (l - desc_radix = p)) as [<-|].
    + rewrite lookup_alter_eq, Hd. exists (f d). split_and!; [done|done|by apply Hf1|exact (Hf2 Hc)].
    + rewrite lookup_alter_ne by done. by exists d.
Qed.
Lemma upd_desc_line f p w q h : line (upd_desc f p w) q h = line w q h.
Proof. done. Qed.

(** ** Allocation *)
Lemma i_kzalloc_spec M L w size : irq_inv M L w -> 0 <= size <= W32 - 40 ->
  exists q h, i_kzalloc size w = Ok (q, put_cpu_heap (is_cpu w) h w) /\
    ((q = nullptr /\ irq_inv M L (put_cpu_heap (is_cpu w) h w)) \/
     (isValid q = true /\ irq_inv M ((q, mrt_num_align8 size) :: L) (put_cpu_heap (is_cpu w) h w))).
Proof.
  intros I Hs. destruct (heap_alloc_spec _ _ _ size (Z.lor GFP_KERNEL GFP_ZERO) (iv_cpu _ _ _ I) (iv_heap _ _ _ I)) as (q & h & E & Hcase & _); [done..|].
  exists q, h. unfold i_kzalloc. rewrite E. split; [done|]. destruct Hcase as [[-> Hh]|[Hv Hh]]; [left|right]; (split; [done|]).
  - eapply inv_heap; [exact I|apply I|exact Hh|done].
  - eapply inv_heap; [exact I|apply I|exact Hh|by right].
Qed.
(** A new block is at none of the recorded addresses. *)
Lemma irq_block_apart (h : H) L q s r t : heap_inv h ((q, s) :: L) -> 0 < s -> (r, t) ∈ L -> 0 < t -> r <> q.
Proof.
  intros Hh Hs Hr Ht ->. pose proof (proj1 (heap_inv_blocks _ _ Hh)) as Hd. pose proof (disjoint_head _ _ _ _ _ Hd Hr). lia.
Qed.

Context (desc_size : 48 <= sizeof_desc <= 4096) (action_size : 0 < sizeof_action <= 4096).
Lemma dsz_bounds : 48 <= dsz <= 4104.
Proof using desc_size. destruct (align8_spec sizeof_desc) as [? _]; unfold W32 in *; lia. Qed.
Lemma asz_bounds : 0 < asz <= 4104.
Proof using action_size. destruct (align8_spec sizeof_action) as [? _]; unfold W32 in *; lia. Qed.

Lemma desc_alloc_spec M L w : irq_inv M L w ->
  exists q w', fwk_allocate_irq_desc sizeof_desc w = Ok (q, w') /\
    ((q = nullptr /\ irq_inv M L w' /\ is_descs w' = is_descs w) \/
     (isValid q = true /\ irq_inv M ((q, dsz) :: L) w' /\ is_descs w !! q = None /\ is_descs w' = <[q := zero_desc]> (is_descs w))) /\
    is_tree w' = is_tree w /\ is_bitmap w' = is_bitmap w /\ is_domains w' = is_domains w /\ is_actions w' = is_actions w /\
    is_gcs w' = is_gcs w /\ is_links w' = is_links w /\ is_regs w' = is_regs w.
Proof using desc_size action_size.
  intros I. destruct (i_kzalloc_spec M L w sizeof_desc I) as (q & h & E & Hcase); [unfold W32; lia|].
  unfold fwk_allocate_irq_desc. rewrite E. cbn [mbind res_bind]. destruct Hcase as [[-> I']|[Hv I']].
  { eexists _, _. split; [done|]. split; [|done]. left. by split_and!. }
  rewrite Hv. cbn [negb]. eexists _, _. split; [done|]. split; [|done]. right.
  assert (is_descs w !! q = None) as Hn.
  { apply eq_None_not_Some. intros [d Hd]. destruct (iv_desc _ _ _ I q d Hd) as (_ & Hin & _). pose proof dsz_bounds.
    by eapply (irq_block_apart h L q dsz q dsz); [exact (iv_heap _ _ _ I')|lia|exact Hin|lia|]. }
  split_and!; try done.
  assert (forall p d, <[q := zero_desc]> (is_descs w) !! p = Some d -> (p = q /\ d = zero_desc) \/ (p <> q /\ is_descs w !! p = Some d)) as Hback.
  { intros p d [[<- <-]|[? ?]]%lookup_insert_Some; auto. }
  split; try apply I'.
  - intros v l Hl. destruct (iv_entry _ _ _ I' v l Hl) as [d Hd]. simpl in *. rewrite lookup_insert_ne; [by exists d|]. intros ->. by rewrite Hd in Hn.
  - intros p d [[-> ->]|[_ Hd]]%Hback; [|exact (iv_desc _ _ _ I' p d Hd)]. split_and!; [done|by left|constructor|]. intros a Ha. by apply not_elem_of_nil in Ha.
  - intros p1 p2 d1 d2 a [[-> ->]|[_ H1]]%Hback [[-> ->]|[_ H2]]%Hback Ha1 Ha2; try (by apply not_elem_of_nil in Ha1); try (by apply not_elem_of_nil in Ha2).
    exact (iv_own _ _ _ I p1 p2 d1 d2 a H1 H2 Ha1 Ha2).
  - intros p [d [[-> ->]|[_ Hd]]%Hback]; [|apply (iv_apart _ _ _ I); eauto]. apply eq_None_not_Some. intros [a Ha].
    destruct (iv_act _ _ _ I q a Ha) as (_ & Hin & _). pose proof dsz_bounds. pose proof asz_bounds.
    by eapply (irq_block_apart h L q dsz q asz); [exact (iv_heap _ _ _ I')|lia|exact Hin|lia|].
  - intros p dm j v Hp Hj Hv0. destruct (iv_map _ _ _ I' p dm j v Hp Hj Hv0) as (Hb & l & d & Hl & Hd & Hpt & Hc). split; [done|].
    exists l, d. simpl in *. split_and!; try done. rewrite lookup_insert_ne; [done|]. intros ->. by rewrite Hd in Hn.
Qed.

(** The link of a descriptor that no number has yet. *)
Lemma inv_tree M L w t n q : irq_inv M L w -> is_Some (is_descs w !! q) -> M !! n = None -> (forall v, M !! v <> Some (q + desc_radix)) ->
  radix_rep root t (<[n := q + desc_radix]> M) -> irq_inv (<[n := q + desc_radix]> M) L (put_tree t w).
Proof.
  intros I Hq Hn Hno Ht. split; try apply I; try done.
  - intros v l [[<- <-]|[_ Hl]]%lookup_insert_Some; [by replace (q + desc_radix - desc_radix) with q by lia|exact (iv_entry _ _ _ I v l Hl)].
  - intros v v' l [[<- <-]|[? Hl]]%lookup_insert_Some [[<- E]|[? Hl']]%lookup_insert_Some; try done.
    + by apply Hno in Hl'. + subst. by apply Hno in Hl. + exact (iv_inj _ _ _ I v v' l Hl Hl').
  - intros p dm j v Hp Hj Hv. destruct (iv_map _ _ _ I p dm j v Hp Hj Hv) as (Hb & l & d & Hl & Hd & Hpt & Hc). split; [done|].
    exists l, d. split_and!; try done. rewrite lookup_insert_ne; [done|]. by intros ->; rewrite Hl in Hn.
Qed.
Lemma inv_same_tree M L w t : irq_inv M L w -> radix_rep root t M -> irq_inv M L (put_tree t w).
Proof. intros I Ht. by split; try apply I. Qed.

(** What allocating descriptors leaves alone. *)
Record same_but_descs (w w' : isys) : Prop := {
  sd_bitmap : is_bitmap w' = is_bitmap w;
  sd_domains : is_domains w' = is_domains w;
  sd_actions : is_actions w' = is_actions w;
  sd_links : is_links w' = is_links w;
  sd_gcs : is_gcs w' = is_gcs w;
  sd_descs : forall p d, is_descs w !! p = Some d -> is_descs w' !! p = Some d;
}.
Lemma same_but_descs_trans w1 w2 w3 : same_but_descs w1 w2 -> same_but_descs w2 w3 -> same_but_descs w1 w3.
Proof. intros [] []. split; try congruence. auto. Qed.

Context (ralloc_fresh : forall g, isValid (ralloc g) = true -> g !! ralloc g = None).
Lemma create_descs_spec n : forall M L w virq i, irq_inv M L w ->
  exists ok M' L' w', create_descs sizeof_desc root ralloc n virq i w = Ok (ok, w') /\ irq_inv M' L' w' /\ same_but_descs w w' /\ M ⊆ M'.
Proof using desc_size action_size ralloc_fresh.
  induction n as [|n IH]; intros M L w virq i I; cbn [create_descs].
  { exists true, M, L, w. split_and!; [done|done|by split|done]. }
  destruct (desc_alloc_spec M L w I) as (q & w1 & -> & Hcase & Et & Eb & Ed & Ea & Eg & El & Er). cbn [mbind res_bind].
  destruct Hcase as [(-> & I1 & Ed1)|(Hv & I1 & Hn & Ed1)].
  { cbn [isValid Z.eqb negb andb nullptr]. exists false, M, L, w1. split_and!; [done|done|split; try done; by rewrite Ed1|done]. }
  rewrite Hv. cbn [negb]. set (v := u32 (virq + i)).
  assert (is_u32 v) as Hv32 by (unfold v, u32, is_u32; apply Z.mod_pos_bound; done).
  assert (0 < q) as Hq0 by (apply (proj2 (heap_inv_blocks _ _ (iv_heap _ _ _ I1)) q dsz); by left).
  assert (q + desc_radix <> 0) as Hl0 by (unfold desc_radix; lia).
  destruct (radix_tree_add_spec root ralloc ralloc_fresh (is_tree w1) M v (q + desc_radix) 0 (iv_tree _ _ _ I1) Hv32 Hl0) as (dep & t & -> & _ & Hadd).
  cbn [mbind res_bind]. set (f := fun d => IrqDesc (s32 v) (de_flags d) (de_action d) dep (de_data d)).
  assert (irq_inv M ((q, dsz) :: L) (upd_desc f q w1)) as I2 by (apply inv_upd_desc; [done|]; done).
  assert (exists M', irq_inv M' ((q, dsz) :: L) (put_tree t (upd_desc f q w1)) /\ M ⊆ M') as (M' & I3 & HM).
  { destruct Hadd as [[Ht _]|(Ht & _ & _)]; [|exists M; split; [by apply inv_same_tree|done]]. case_decide as Hs; [exists M; split; [by apply inv_same_tree|done]|].
    apply eq_None_not_Some in Hs. exists (<[v := q + desc_radix]> M). split; [|by apply insert_subseteq]. apply inv_tree; try done.
    - simpl. rewrite lookup_alter_eq, Ed1, lookup_insert_eq. eauto.
    - intros u Hu. destruct (iv_entry _ _ _ I u _ Hu) as [d Hd]. replace (q + desc_radix - desc_radix) with q in Hd by lia. by rewrite Hd in Hn. }
  destruct (IH M' ((q, dsz) :: L) (put_tree t (upd_desc f q w1)) virq (i + 1) I3) as (ok & M2 & L2 & w2 & -> & I4 & S4 & HM2).
  exists ok, M2, L2, w2. split_and!; [done|done| |by etrans]. eapply same_but_descs_trans; [|exact S4].
  split; try done. intros p d Hd. simpl. rewrite lookup_alter_ne by (intros <-; by rewrite Hd in Hn).
  rewrite Ed1, lookup_insert_ne; [done|]. intros <-. by rewrite Hd in Hn.
Qed.

(** ** Finding descriptors *)
Lemma to_desc_spec M L w v : irq_inv M L w -> fwk_irq_to_desc root v w = Ok (match M !! u32 v with Some l => l - desc_radix | None => nullptr end).
Proof.
  intros I. unfold fwk_irq_to_desc. assert (is_u32 (u32 v)) as Hv by (unfold u32, is_u32; apply Z.mod_pos_bound; done).
  rewrite (radix_look_up_rep root _ M _ (iv_tree _ _ _ I) Hv). cbn [mbind res_bind].
  destruct (M !! u32 v) as [l|] eqn:E; [|done]. cbn [default from_option id].
  destruct (radix_rep_entry root _ _ _ _ (iv_tree _ _ _ I) E) as [_ Hl]. by rewrite (proj2 (Z.eqb_neq l 0) Hl).
Qed.
Lemma entry_valid M L w v l : irq_inv M L w -> M !! v = Some l ->
  exists d, is_descs w !! (l - desc_radix) = Some d /\ isValid (l - desc_radix) = true /\ isValid (l - desc_radix + desc_data) = true.
Proof using desc_size.
  intros I Hl. destruct (iv_entry _ _ _ I v l Hl) as [d Hd]. exists d. destruct (iv_desc _ _ _ I _ d Hd) as (Hv & Hin & _). split_and!; [done..|].
  destruct (proj2 (heap_inv_blocks _ _ (iv_heap _ _ _ I)) _ _ Hin) as (? & _ & ?). pose proof dsz_bounds. apply isValid_true. unfold desc_data. lia.
Qed.
Lemma get_data_spec M L w v : irq_inv M L w ->
  fwk_irq_get_data root v w = Ok (match M !! u32 v with Some l => l - desc_radix + desc_data | None => nullptr end).
Proof using desc_size.
  intros I. unfold fwk_irq_get_data. rewrite (to_desc_spec M L w v I). cbn [mbind res_bind]. destruct (M !! u32 v) as [l|] eqn:E; [|done].
  destruct (entry_valid M L w _ l I E) as (d & _ & Hv & _). by rewrite (proj2 (Z.eqb_neq _ 0) (isValid_nonzero _ Hv)).
Qed.

(** ** Filling in the data *)
Lemma inv_domains M L w p dm : irq_inv M L w -> isValid p = true -> len (dm_revmap dm) = dm_hwirq_max dm -> dm_hwirq_max dm < 2 ^ 31 ->
  Forall (fun v => -1 <= v < FWK_IRQ_DESC_MAX) (dm_revmap dm) ->
  (forall h v, dm_revmap dm !! h = Some v -> 0 <= v -> bit_at (is_bitmap w) v = true /\
     exists l d, M !! v = Some l /\ is_descs w !! (l - desc_radix) = Some d /\ points (de_data d) v (Z.of_nat h) p /\ chip_ok (id_chip (de_data d)) w) ->
  irq_inv M L (put_domains (<[p := dm]> (is_domains w)) w).
Proof.
  intros I Hv Hl Hm Ha Hmap. split; try apply I.
  - intros q dm'. simpl. intros [[<- <-]|[_ Hq]]%lookup_insert_Some; [by split_and!|exact (iv_dom _ _ _ I q dm' Hq)].
  - intros q dm' h v. simpl. intros [[<- <-]|[_ Hq]]%lookup_insert_Some Hh Hv0; [by apply Hmap|exact (iv_map _ _ _ I q dm' h v Hq Hh Hv0)].
Qed.

(** Line [h] of domain [p] takes over a number that no line has. *)
Lemma fill_one M L w p dm v h l : irq_inv M L w -> is_domains w !! p = Some dm -> 0 <= h < len (dm_revmap dm) -> 0 <= v < FWK_IRQ_DESC_MAX ->
  bit_at (is_bitmap w) v = true -> (forall q k, line w q k <> Some v) -> M !! v = Some l ->
  let w1 := upd_data (fun d => IrqData v h dummy_chip p (id_handler_data d) (id_chip_data d) 0) (l - desc_radix + desc_data) w in
  exists w2, set_revmap p h v w1 = Ok w2 /\ irq_inv M L w2 /\ is_bitmap w2 = is_bitmap w /\ is_actions w2 = is_actions w /\
    (forall q, is_descs w2 !! q = if decide (q = l - desc_radix) then with_data (fun d => IrqData v h dummy_chip p (id_handler_data d) (id_chip_data d) 0) <$> is_descs w !! q else is_descs w !! q) /\
    is_domains w2 = <[p := with_revmap (<[Z.to_nat h := v]> (dm_revmap dm)) dm]> (is_domains w) /\ is_links w2 = is_links w.
Proof.
  intros I Hp Hh Hv Hb Hno Hl w1. set (f := fun d => IrqData v h dummy_chip p (id_handler_data d) (id_chip_data d) 0) in *.
  unfold set_revmap. simpl is_domains. rewrite Hp. cbn [deref mbind res_bind]. rewrite (proj2 (Z.ltb_lt _ _)) by lia. unfold FWK_IRQ_DESC_MAX in *. rewrite s32_id by lia.
  eexists. split; [done|]. split; [|split_and!; try done].
  2:{ intros q. simpl. replace (l - desc_radix + desc_data - desc_data) with (l - desc_radix) by lia. case_decide as Hq; [subst q; by rewrite lookup_alter_eq|by rewrite lookup_alter_ne]. }
  destruct (iv_entry _ _ _ I v l Hl) as [d0 Hd0].
  assert (forall q d', is_descs w1 !! q = Some d' -> exists d, is_descs w !! q = Some d /\ de_action d' = de_action d) as Hback.
  { intros q d'. unfold w1. simpl. replace (l - desc_radix + desc_data - desc_data) with (l - desc_radix) by lia. destruct (decide (q = l - desc_radix)) as [->|].
    - rewrite lookup_alter_eq. intros (d & -> & ->)%fmap_Some. by exists d.
    - rewrite lookup_alter_ne by done. eauto. }
  assert (is_descs w1 !! (l - desc_radix) = Some (with_data f d0)) as Hnew.
  { unfold w1. simpl. replace (l - desc_radix + desc_data - desc_data) with (l - desc_radix) by lia. by rewrite lookup_alter_eq, Hd0. }
  assert (forall q, q <> l - desc_radix -> is_descs w1 !! q = is_descs w !! q) as Hold.
  { intros q Hq. unfold w1. simpl. rewrite lookup_alter_ne; [done|]. unfold desc_radix, desc_data in *. lia. }
  assert (forall q dm' k u, is_domains w !! q = Some dm' -> dm_revmap dm' !! k = Some u -> 0 <= u -> bit_at (is_bitmap w) u = true /\
    exists l d, M !! u = Some l /\ is_descs w1 !! (l - desc_radix) = Some d /\ points (de_data d) u (Z.of_nat k) q /\ chip_ok (id_chip (de_data d)) w1) as Hkeep.
  { intros q dm' k u Hq Hk Hu. destruct (iv_map _ _ _ I q dm' k u Hq Hk Hu) as (Hbu & l' & d & Hl' & Hd & Hpt & Hc). split; [done|]. exists l', d. split_and!; try done.
    rewrite Hold; [done|]. intros E. assert (l' = l) as -> by lia. rewrite (iv_inj _ _ _ I _ _ _ Hl' Hl) in *. apply (Hno q (Z.of_nat k)).
    unfold line. rewrite Hq, Nat2Z.id, Hk. by rewrite (proj2 (Z.leb_le 0 v)) by lia. }
  destruct (iv_dom _ _ _ I p dm Hp) as (Hpv & Hlen & Hmax & Hall).
  assert (irq_inv M L w1) as I1.
  { split; try apply I.
    - intros u l' Hl'. destruct (decide (l' - desc_radix = l - desc_radix)) as [->|]; [by eexists|]. rewrite Hold by done. exact (iv_entry _ _ _ I u l' Hl').
    - intros q d' Hd'. destruct (Hback q d' Hd') as (d & Hd & ->). exact (iv_desc _ _ _ I q d Hd).
    - intros p1 p2 d1 d2 a H1 H2. destruct (Hback _ _ H1) as (e1 & He1 & ->), (Hback _ _ H2) as (e2 & He2 & ->). exact (iv_own _ _ _ I p1 p2 e1 e2 a He1 He2).
    - intros q [d' Hd']. destruct (Hback q d' Hd') as (d & Hd & _). apply (iv_apart _ _ _ I). eauto.
    - exact Hkeep. }
  apply (inv_domains M L w1 p); try done.
  - simpl. unfold len in *. by rewrite length_insert.
  - simpl. apply Forall_insert; [done|unfold FWK_IRQ_DESC_MAX; lia].
  - intros k u. simpl. intros [(<- & <- & _)|[Hk Hu]]%list_lookup_insert_Some Hu0; [|exact (Hkeep p dm k u Hp Hu Hu0)].
    split; [done|]. exists l, (with_data f d0). split_and!; [done|done| |]; unfold points, f; simpl.
    + split_and!; [done|lia|done].
    + exists sgrt_fwk_irq_dummy_chip. unfold chip_at. by rewrite Z.eqb_refl.
Qed.

Lemma line_set (w w2 : isys) p dm h0 v : is_domains w !! p = Some dm -> 0 <= h0 < len (dm_revmap dm) -> 0 <= v ->
  is_domains w2 = <[p := with_revmap (<[Z.to_nat h0 := v]> (dm_revmap dm)) dm]> (is_domains w) ->
  forall q h, 0 <= h -> line w2 q h = if decide (q = p /\ h = h0) then Some v else line w q h.
Proof using Type.
  clear desc_size action_size ralloc_fresh. intros Hp Hh0 Hv E q h Hh. unfold line. rewrite E. destruct (decide (q = p)) as [->|Hne].
  - rewrite lookup_insert_eq, Hp. simpl. destruct (decide (h = h0)) as [->|Hhne].
    + rewrite list_lookup_insert_eq by (unfold len in *; lia). rewrite decide_True by done. by rewrite (proj2 (Z.leb_le 0 v)).
    + rewrite list_lookup_insert_ne by lia. by rewrite decide_False by tauto.
  - rewrite lookup_insert_ne by done. by rewrite decide_False by tauto.
Qed.

(** The actions of descriptors stay when only their data changes. *)
Definition same_acts (w w' : isys) : Prop :=
  is_actions w' = is_actions w /\ forall q, de_action <$> is_descs w' !! q = de_action <$> is_descs w !! q.
Lemma same_acts_trans w1 w2 w3 : same_acts w1 w2 -> same_acts w2 w3 -> same_acts w1 w3.
Proof. intros [H1 H2] [H3 H4]. split; [congruence|]. intros q. by rewrite H4, H2. Qed.

(** A domain without its lines. *)
Definition bare : irq_domain -> irq_domain := with_revmap [].
Definition same_domains (w w' : isys) : Prop := forall q, bare <$> is_domains w' !! q = bare <$> is_domains w !! q.

Lemma fill_data_spec n : forall M L w p m virq hwirq i, irq_inv M L w -> dm_hwirq_max <$> is_domains w !! p = Some m ->
  0 <= virq -> 0 <= i -> virq + i + Z.of_nat n <= FWK_IRQ_DESC_MAX -> 0 <= hwirq -> hwirq + i + Z.of_nat n <= m ->
  (forall v, virq + i <= v < virq + i + Z.of_nat n -> bit_at (is_bitmap w) v = true /\ forall q k, 0 <= k -> line w q k <> Some v) ->
  exists ok w', fill_data root dummy_chip n p virq hwirq i w = Ok (ok, w') /\ irq_inv M L w' /\ same_acts w w' /\ is_links w' = is_links w /\
    same_domains w w' /\
    (ok = true -> forall q h, 0 <= h ->
       line w' q h = if decide (q = p /\ hwirq + i <= h < hwirq + i + Z.of_nat n) then Some (virq + (h - hwirq)) else line w q h).
Proof using desc_size.
  clear ralloc_fresh action_size. induction n as [|n IH]; intros M L w p m virq hwirq i I Hm Hv Hi Hvn Hh Hhn Hfree; cbn [fill_data].
  { exists true, w. split_and!; try done. intros _ q h Hq. rewrite decide_False by lia. done. }
  apply fmap_Some in Hm as (dm & Hp & ->). destruct (iv_dom _ _ _ I p dm Hp) as (_ & Hlen & Hmax & _). unfold FWK_IRQ_DESC_MAX in *.
  rewrite (get_data_spec M L w _ I). rewrite (u32_id (virq + i)) by (unfold is_u32, W32; lia). cbn [mbind res_bind].
  destruct (M !! (virq + i)) as [l|] eqn:Hl; [|exists false, w; by split_and!].
  destruct (entry_valid M L w _ l I Hl) as (d & Hd & _ & Hval). rewrite Hval. cbn [negb].
  destruct (Hfree (virq + i)) as [Hbit Hno]; [lia|]. rewrite (u32_id (hwirq + i)) by (unfold is_u32, W32; lia).
  assert (forall q k, line w q k <> Some (virq + i)) as Hno'.
  { intros q k. destruct (Z.le_gt_cases 0 k); [by apply Hno|]. specialize (Hno q 0 ltac:(lia)). unfold line in *. by replace (Z.to_nat k) with (Z.to_nat 0) by lia. }
  destruct (fill_one M L w p dm (virq + i) (hwirq + i) l I Hp) as (w2 & -> & I2 & Eb & Ea & Ed & Edm & El); [lia|unfold FWK_IRQ_DESC_MAX; lia|done..|].
  cbn [mbind res_bind]. pose proof (line_set w w2 p dm (hwirq + i) (virq + i) Hp ltac:(lia) ltac:(lia) Edm) as Hline.
  destruct (IH M L w2 p (dm_hwirq_max dm) virq hwirq (i + 1) I2) as (ok & w' & -> & I' & Sa & El' & Edm' & Hok); try lia.
  { rewrite Edm, lookup_insert_eq. done. }
  { intros v Hv'. destruct (Hfree v) as [Hb' Hn']; [lia|]. rewrite Eb. split; [done|]. intros q k Hk. rewrite (Hline q k Hk).
    case_decide; [intros [= ?]; lia|by apply Hn']. }
  exists ok, w'. split_and!; [done|done| |congruence| |].
  - eapply same_acts_trans; [|exact Sa]. split; [done|]. intros q. rewrite Ed. case_decide; [|done]. by destruct (is_descs w !! q).
  - intros q. rewrite Edm', Edm. destruct (decide (q = p)) as [->|]; [by rewrite lookup_insert_eq, Hp|by rewrite lookup_insert_ne].
  - intros Hok0 q h Hh0. rewrite (Hok Hok0 q h Hh0), (Hline q h Hh0).
    destruct (decide (q = p /\ hwirq + (i + 1) <= h < _)), (decide (q = p /\ h = hwirq + i)), (decide (q = p /\ hwirq + i <= h < _)); try done; try lia; f_equal; lia.
Qed.

Lemma free_number M L w v : irq_inv M L w -> bit_at (is_bitmap w) v = false -> forall q k, line w q k <> Some v.
Proof. intros I Hb q k E. destruct (line_spec M L w q k v I E) as (_ & Hb' & _). congruence. Qed.

Lemma alloc_irqs_spec fuel M L w p m irq_base hwirq nr s :
  irq_inv M L w -> dm_hwirq_max <$> is_domains w !! p = Some m -> 1 <= nr -> 0 <= hwirq -> hwirq + nr <= m ->
  let base := if 0 <=? irq_base then irq_base else 0 in
  base <= s -> s + nr < FWK_IRQ_DESC_MAX -> clear_run (is_bitmap w) s nr -> (forall j, base <= j < s -> ~ clear_run (is_bitmap w) j nr) ->
  s - base <= 2 * Z.of_nat fuel ->
  exists r M' L' w', fwk_irq_domain_alloc_irqs sizeof_desc root ralloc dummy_chip fuel p irq_base hwirq nr w = Ok (r, w') /\ irq_inv M' L' w' /\ M ⊆ M' /\
    is_actions w' = is_actions w /\ is_links w' = is_links w /\ same_domains w w' /\
    (forall q d, is_descs w !! q = Some d -> de_action <$> is_descs w' !! q = Some (de_action d)) /\
    ((r = - ER_NOMEM /\ is_domains w' = is_domains w) \/ r = - ER_NOTFOUND \/
     (r = s /\ forall q h, 0 <= h -> line w' q h = if decide (q = p /\ hwirq <= h < hwirq + nr) then Some (s + (h - hwirq)) else line w q h)).
Proof using desc_size action_size ralloc_fresh.
  intros I Hm Hnr Hh Hhm base Hs Hsn Hrun Hleast Hfuel. destruct (iv_bits _ _ _ I) as [Hby Hlen]. unfold FWK_IRQ_DESC_MAX in *.
  assert (0 <= base) by (unfold base; destruct (Z.leb_spec 0 irq_base); lia).
  unfold fwk_irq_domain_alloc_irqs, fwk_irq_domain_alloc_descs, fwk_irq_bitmap_find_areas. fold base.
  rewrite (find_areas_least FWK_IRQ_DESC_MAX nr (is_bitmap w) fuel base s) by (done || (unfold FWK_IRQ_DESC_MAX; lia)). cbn [mbind res_bind].
  rewrite (u32_id s) by (unfold is_u32, W32; lia).
  destruct (create_descs_spec (Z.to_nat nr) M L w s 0 I) as (ok & M1 & L1 & w1 & -> & I1 & [Eb Ed Ea El Eg Eds] & HM). cbn [mbind res_bind].
  assert (forall q d, is_descs w !! q = Some d -> de_action <$> is_descs w1 !! q = Some (de_action d)) as Hacts by (intros q d Hd; by rewrite (Eds q d Hd)).
  destruct ok; cbn [negb].
  2:{ change (- ER_NOMEM <? 0) with true. cbn [mbind res_bind]. exists (- ER_NOMEM), M1, L1, w1. split_and!; try done; [intros q; by rewrite Ed|]. by left. }
  unfold bitmap_set_nr_bit_valid, bitmap_set_nr_bit. rewrite u32_id by (unfold is_u32, W32; lia). rewrite (proj2 (Z.leb_gt _ _)) by (unfold FWK_IRQ_DESC_MAX; lia).
  replace (s + nr - s) with nr by lia. destruct (write_bits_spec true (Z.to_nat nr) (is_bitmap w1) s) as (bm & -> & Hbm & Hbl & Hbits); [by rewrite Eb|lia|rewrite Eb; lia|].
  cbn [mbind res_bind]. rewrite s32_id by lia. rewrite (proj2 (Z.ltb_ge s 0)) by lia.
  assert (irq_inv M1 L1 (put_bitmap bm w1)) as I2.
  { apply inv_bitmap; [done|done|by rewrite Hbl, Eb|]. intros v Hv Hb. rewrite Hbits by (unfold bit_in; rewrite Eb; lia). by case_decide. }
  unfold irq_domain_alloc_irq_data.
  destruct (fill_data_spec (Z.to_nat nr) M1 L1 (put_bitmap bm w1) p m s hwirq 0 I2) as (ok & w' & -> & I' & [Sa1 Sa2] & El' & Edm & Hok);
    [by simpl; rewrite Ed|lia|lia|unfold FWK_IRQ_DESC_MAX; lia|lia|lia| |].
  { intros v Hv. simpl is_bitmap. split; [rewrite Hbits by (unfold bit_in; rewrite Eb; lia); by rewrite decide_True by lia|].
    intros q k Hk. assert (line (put_bitmap bm w1) q k = line w q k) as -> by (unfold line; simpl; by rewrite Ed).
    eapply free_number; [exact I|]. apply Hrun. lia. }
  cbn [mbind res_bind]. eexists _, M1, L1, w'. split; [done|]. split_and!; try done.
  - by rewrite Sa1. - by rewrite El'. - intros q. rewrite Edm. simpl. by rewrite Ed. - intros q d Hd. rewrite Sa2. exact (Hacts q d Hd).
  - destruct ok; [right; right|by right; left]. rewrite s32_id by lia. split; [done|]. intros q h Hq. rewrite (Hok eq_refl q h Hq).
    assert (line (put_bitmap bm w1) q h = line w q h) as -> by (unfold line; simpl; by rewrite Ed).
    destruct (decide (q = p /\ hwirq + 0 <= h < _)), (decide (q = p /\ hwirq <= h < _)); try done; lia.
Qed.

(** ** Looking a line up *)
Lemma get_revmap_spec M L w p m h : irq_inv M L w -> dm_hwirq_max <$> is_domains w !! p = Some m -> 0 <= h < m ->
  exists v, get_revmap p h w = Ok v /\ line w p h = if 0 <=? v then Some v else None.
Proof using Type.
  intros I Hm Hh. apply fmap_Some in Hm as (dm & Hp & ->). destruct (iv_dom _ _ _ I p dm Hp) as (_ & Hlen & _). unfold get_revmap, line. rewrite Hp.
  cbn [deref mbind res_bind]. rewrite (proj2 (Z.leb_le 0 h)), (proj2 (Z.ltb_lt h _)) by (clear desc_size action_size; lia). cbn [andb].
  destruct (lookup_lt_is_Some_2 (dm_revmap dm) (Z.to_nat h)) as [v Hv]; [clear desc_size action_size; unfold len in *; lia|]. rewrite Hv. by exists v.
Qed.
Lemma domain_get_data_spec M L w p m h : irq_inv M L w -> dm_hwirq_max <$> is_domains w !! p = Some m -> 0 <= h < m ->
  match line w p h with
  | Some v => exists l d, M !! v = Some l /\ is_descs w !! (l - desc_radix) = Some d /\ points (de_data d) v h p /\
                fwk_irq_domain_get_data root p h w = Ok (l - desc_radix + desc_data)
  | None => fwk_irq_domain_get_data root p h w = Ok nullptr
  end.
Proof using desc_size.
  intros I Hm Hh. destruct (get_revmap_spec M L w p m h I Hm Hh) as (v & E & El). pose proof Hm as (dm & Hp & _)%fmap_Some.
  destruct (iv_dom _ _ _ I p dm Hp) as (Hv & _). unfold fwk_irq_domain_get_data. rewrite Hv, E. cbn [negb mbind res_bind].
  destruct (line w p h) as [u|] eqn:Eu; destruct (Z.leb_spec 0 v) as [Hv0|Hv0]; try done; rewrite ?(proj2 (Z.ltb_lt v 0)), ?(proj2 (Z.ltb_ge v 0)) by lia; [|done].
  injection El as ->. destruct (line_spec M L w p h v I Eu) as (Hvr & _ & l & d & Hl & Hd & Hpt & _). exists l, d.
  rewrite Z2Nat.id in Hpt by (clear desc_size; lia). split_and!; try done. rewrite (get_data_spec M L w v I).
  rewrite u32_id by (unfold FWK_IRQ_DESC_MAX, is_u32, W32 in *; lia). rewrite Hl. cbn [mbind res_bind].
  destruct (entry_valid M L w v l I Hl) as (d' & Hd' & _ & Hval). rewrite Hval. unfold data_desc.
  replace (l - desc_radix + desc_data - desc_data) with (l - desc_radix) by (clear; lia). rewrite Hd. cbn [deref mbind res_bind].
  destruct Hpt as (_ & -> & ->). by rewrite !Z.eqb_refl.
Qed.

(** What changes only flags and chips of descriptors. *)
Record same_lines (w w' : isys) : Prop := {
  sl_domains : is_domains w' = is_domains w;
  sl_links : is_links w' = is_links w;
  sl_bitmap : is_bitmap w' = is_bitmap w;
  sl_acts : same_acts w w';
}.
Lemma same_lines_refl w : same_lines w w.
Proof. done. Qed.
Lemma same_lines_trans w1 w2 w3 : same_lines w1 w2 -> same_lines w2 w3 -> same_lines w1 w3.
Proof. intros [? ? ? ?] [? ? ? ?]. split; try congruence. by eapply same_acts_trans. Qed.
Lemma same_lines_line w w' p h : same_lines w w' -> line w' p h = line w p h.
Proof. intros [E _ _ _]. unfold line. by rewrite E. Qed.
Lemma same_lines_upd w f q : (forall d, de_action (f d) = de_action d) -> same_lines w (upd_desc f q w).
Proof.
  intros Hf. split; try done. split; [done|]. intros x. simpl. destruct (decide (x = q)) as [->|]; [|by rewrite lookup_alter_ne].
  rewrite lookup_alter_eq. destruct (is_descs w !! q) as [d|]; [|done]. simpl. by rewrite Hf.
Qed.

Lemma find_map_spec M L w p m h type : irq_inv M L w -> dm_hwirq_max <$> is_domains w !! p = Some m -> 0 <= h < m ->
  exists r w', fwk_irq_domain_find_map root p h type w = Ok (r, w') /\ irq_inv M L w' /\ same_lines w w' /\
    match line w p h with Some v => r = v | None => r = - ER_UNVALID end.
Proof using desc_size.
  intros I Hm Hh. pose proof (domain_get_data_spec M L w p m h I Hm Hh) as Hg. unfold fwk_irq_domain_find_map.
  destruct (line w p h) as [v|] eqn:El; [|rewrite Hg; by eexists _, _].
  destruct Hg as (l & d & Hl & Hd & (Hirq & _) & ->). cbn [mbind res_bind]. destruct (entry_valid M L w v l I Hl) as (_ & _ & _ & Hval). rewrite Hval. cbn [negb].
  unfold data_desc. replace (l - desc_radix + desc_data - desc_data) with (l - desc_radix) by (clear; lia). rewrite Hd. cbn [deref mbind res_bind].
  eexists _, _. split; [done|]. destruct (line_spec M L w p h v I El) as (Hvr & _). rewrite Hirq, s32_id by (unfold FWK_IRQ_DESC_MAX in *; clear desc_size; lia).
  destruct (type =? 0); [by split_and!|]. case_match; [|by split_and!]. split_and!; [|by apply same_lines_upd|done].
  apply inv_upd_desc; [done|]. intros d'. by split_and!.
Qed.
Lemma set_type_spec M L w v type : irq_inv M L w -> exists w', fwk_irq_desc_set_type root v type w = Ok w' /\ irq_inv M L w' /\ same_lines w w'.
Proof using desc_size.
  intros I. unfold fwk_irq_desc_set_type. rewrite (to_desc_spec M L w v I). cbn [mbind res_bind]. destruct (M !! u32 v) as [l|] eqn:E; [|by exists w].
  destruct (entry_valid M L w _ l I E) as (d & Hd & Hv & _). rewrite Hv, Hd. cbn [negb deref mbind res_bind].
  eexists. split; [done|]. split; [|by apply same_lines_upd]. apply inv_upd_desc; [done|]. intros d'. by split_and!.
Qed.

(** ** The chips of new interrupts *)
Lemma inv_gcs M L w p gc : irq_inv M L w -> irq_inv M L (put_gcs (<[p := gc]> (is_gcs w)) w).
Proof.
  intros I. split; try apply I. intros q dm h v Hq Hh Hv. destruct (iv_map _ _ _ I q dm h v Hq Hh Hv) as (Hb & l & d & Hl & Hd & Hpt & (c & Hc)). split; [done|].
  exists l, d. split_and!; try done. unfold chip_ok, chip_at in *. destruct (_ =? dummy_chip); [by eexists|]. simpl.
  destruct (decide (p = id_chip (de_data d) - generic_chip)) as [->|]; [rewrite lookup_insert_eq; by eexists|]. rewrite lookup_insert_ne by done. by exists c.
Qed.
Lemma setup_chips_spec n : forall M L w base i gc data, irq_inv M L w -> is_Some (is_gcs w !! gc) ->
  exists w', setup_chips root n base i gc data w = Ok w' /\ irq_inv M L w' /\ same_lines w w'.
Proof using desc_size.
  induction n as [|n IH]; intros M L w base i gc data I Hgc; cbn [setup_chips]; [by exists w|].
  rewrite (get_data_spec M L w _ I). cbn [mbind res_bind].
  set (w1 := if _ =? 0 then w else _). assert (irq_inv M L w1 /\ same_lines w w1 /\ is_gcs w1 = is_gcs w) as (I1 & S1 & E1).
  { unfold w1. case_match; [done|]. split_and!; [|by apply same_lines_upd|done]. apply inv_upd_desc; [done|]. intros d. split_and!; [done|done|].
    intros _. unfold chip_ok, chip_at. simpl. destruct (_ =? dummy_chip); [by eexists|]. replace (gc + generic_chip - generic_chip) with gc by (clear; lia).
    destruct Hgc as [g ->]. by eexists. }
  destruct (IH M L w1 base (i + 1) gc data I1) as (w' & E & I' & S'); [by rewrite E1|]. exists w'. split_and!; [done..|]. by eapply same_lines_trans.
Qed.

(** The contract of a domain's [alloc]. *)
Definition prepares (g : Z -> Z -> Z -> isys -> res (Z * isys)) : Prop :=
  forall M L w p v, irq_inv M L w -> isValid p = true -> exists r L' w', g p v 1 w = Ok (r, w') /\ irq_inv M L' w' /\ same_lines w w'.
Lemma gic_alloc_prepares chip : 0 < sizeof_generic <= 4096 -> prepares (gic_irq_domain_alloc sizeof_generic root chip).
Proof using desc_size.
  intros Hs M L w p v I Hp. unfold gic_irq_domain_alloc. rewrite (proj2 (Z.eqb_neq p 0) (isValid_nonzero _ Hp)).
  destruct (i_kzalloc_spec M L w sizeof_generic I) as (q & h & E & Hcase); [unfold W32; lia|]. rewrite E. cbn [mbind res_bind].
  destruct Hcase as [[-> I1]|[Hv I1]]; [by eexists _, _, _|]. rewrite Hv. cbn [negb].
  destruct (setup_chips_spec (Z.to_nat 1) M _ _ v 0 q nullptr (inv_gcs M _ _ q (Generic 0 0 chip) I1)) as (w' & E' & I' & S'); [simpl; rewrite lookup_insert_eq; eauto|].
  unfold fwk_irq_setup_generic_chip. rewrite E'. cbn [mbind res_bind]. eexists _, _, w'. split_and!; [done|exact I'|]. destruct S' as [? ? ? ?]. by split.
Qed.

(** ** The list of domains *)
Definition dom_list (doms : list Z) (w : isys) : Prop :=
  dlists (is_links w) [(head, (fun p => p + domain_link) <$> doms)] /\ forall p, p ∈ doms -> is_Some (is_domains w !! p).
Fixpoint first_dom (b : irq_domain -> bool) (w : isys) (doms : list Z) : Z :=
  match doms with
  | [] => nullptr
  | p :: doms => match is_domains w !! p with Some dm => if b dm then p else first_dom b w doms | None => nullptr end
  end.
Lemma walk_domains_spec (P : irq_domain -> res bool) b w doms : forall fuel a,
  lseg (is_links w) a ((fun p => p + domain_link) <$> doms) head -> head ∉ ((fun p => p + domain_link) <$> doms) ->
  (forall p, p ∈ doms -> exists dm, is_domains w !! p = Some dm /\ P dm = Ok (b dm)) -> (length doms <= fuel)%nat ->
  walk_domains head fuel P (sprt_next (is_links w) a) w = Ok (first_dom b w doms).
Proof using Type.
  clear desc_size action_size ralloc_fresh. induction doms as [|p doms IH]; intros fuel a Hs Hh Hd Hf; simpl in Hs.
  { destruct Hs as [-> _]. destruct fuel; simpl; by rewrite Z.eqb_refl. }
  destruct Hs as (Hn & _ & Hs). rewrite Hn. simpl in Hf. destruct fuel as [|fuel]; [lia|]. cbn [walk_domains first_dom].
  rewrite (proj2 (Z.eqb_neq _ head)) by (intros E; apply Hh; rewrite <- E; left).
  replace (p + domain_link - domain_link) with p by lia. destruct (Hd p ltac:(left)) as (dm & -> & E). cbn [deref mbind res_bind]. rewrite E. cbn [mbind res_bind].
  destruct (b dm); [done|]. apply IH; [done|intros Hx; apply Hh; by right|intros q Hq; apply Hd; by right|lia].
Qed.
Lemma find_domain_spec (P : irq_domain -> res bool) b w doms fuel : dom_list doms w -> (forall p dm, p ∈ doms -> is_domains w !! p = Some dm -> P dm = Ok (b dm)) ->
  (length doms <= fuel)%nat -> find_domain head fuel P w = Ok (first_dom b w doms).
Proof using Type.
  intros [HD Hin] HP Hf. unfold find_domain. pose proof (entry_NoDup _ _ _ _ HD) as Hnd. apply NoDup_cons in Hnd as [Hnot _].
  destruct HD as [HD _]. apply Forall_cons in HD as [HD _]. apply (walk_domains_spec P b); [exact HD|exact Hnot| |done].
  intros p Hp. destruct (Hin p Hp) as [dm Hdm]. exists dm. eauto.
Qed.

Lemma bare_fields d d' : bare d = bare d' -> dm_node d = dm_node d' /\ dm_ops d = dm_ops d' /\ dm_hwirq_max d = dm_hwirq_max d' /\ dm_name d = dm_name d'.
Proof. destruct d, d'. intros [= -> -> -> -> -> -> ->]. done. Qed.
Lemma same_domains_lookup w w' q dm : same_domains w w' -> is_domains w !! q = Some dm -> exists dm', is_domains w' !! q = Some dm' /\ bare dm' = bare dm.
Proof. intros Hs Hq. specialize (Hs q). rewrite Hq in Hs. by apply fmap_Some in Hs as (dm' & ? & E); eauto. Qed.
Lemma same_domains_sym w w' : same_domains w w' -> same_domains w' w.
Proof. intros Hs q. by rewrite (Hs q). Qed.
Lemma dom_list_same doms w w' : dom_list doms w -> is_links w' = is_links w -> same_domains w w' -> dom_list doms w'.
Proof.
  intros [HD Hin] El Hs. split; [by rewrite El|]. intros p Hp. destruct (Hin p Hp) as [dm Hdm]. destruct (same_domains_lookup w w' p dm Hs Hdm) as (dm' & ? & _). eauto.
Qed.
Lemma first_dom_same b w w' doms : same_domains w w' -> (forall d d', bare d = bare d' -> b d = b d') -> first_dom b w' doms = first_dom b w doms.
Proof.
  intros Hs Hb. induction doms as [|p doms IH]; [done|]. simpl. pose proof (Hs p) as Hp.
  destruct (is_domains w' !! p) as [d'|], (is_domains w !! p) as [d|]; try done. apply (inj Some) in Hp. by rewrite (Hb _ _ Hp), IH.
Qed.

(** ** Mapping a line *)
Definition hosts (node : Z) (d : irq_domain) : bool := node =? dm_node d.
(** The specifier in the device tree names line [h], whatever is mapped. *)
Definition translates (f : irq_domain -> Z -> list Z -> Z -> res (Z * Z * Z)) (dm : irq_domain) (node : Z) (args : list Z) (n h type : Z) : Prop :=
  forall dm', bare dm' = bare dm -> f dm' node args n = Ok (ER_NORMAL, h, type).

Lemma least_free bm N : bytes_ok bm -> N <= 8 * len bm -> (exists v, 0 <= v < N /\ bit_at bm v = false) ->
  exists s, 0 <= s < N /\ clear_run bm s 1 /\ forall j, 0 <= j < s -> ~ clear_run bm j 1.
Proof using Type.
  clear desc_size action_size ralloc_fresh. intros Hb HN (v & Hv & Hbv). destruct (find_first_bit_spec bm 0 N false Hb) as (s & _ & Hs); [lia|done|].
  destruct Hs as [[_ Hs]|(Hs & Hbs & Hl)]; [rewrite Hs in Hbv by lia; done|]. exists s. split; [lia|]. split.
  - intros j Hj. by replace j with s by lia.
  - intros j Hj Hr. specialize (Hr j ltac:(lia)). rewrite (Hl j Hj) in Hr. done.
Qed.

Section mapping.
Context (ops_at : Z -> option (@domain_ops H)) (fuel : nat) (node : Z) (args : list Z) (n : Z).
Context (doms : list Z) (p : Z) (dm : irq_domain) (ops : @domain_ops H) (f : irq_domain -> Z -> list Z -> Z -> res (Z * Z * Z)) (h type : Z).
Context (fuel_doms : (length doms <= fuel)%nat) (fuel_numbers : (512 <= fuel)%nat) (node_valid : isValid node = true).
Context (ops_known : ops_at (dm_ops dm) = Some ops) (ops_xlate : xlate ops = Some f) (ops_alloc : forall g, alloc ops = Some g -> prepares g).
Context (specifier : translates f dm node args n h type) (line_exists : 0 <= h < dm_hwirq_max dm).
Local Notation create := (fwk_irq_create_of_mapping sizeof_desc root ralloc dummy_chip head ops_at fuel node args n).

(** The call once the domain has been found. *)
Definition map_line (w : isys) : res (Z * isys) :=
  '(virq, w) ← fwk_irq_find_mapping root p type h w;
  if 0 <=? virq then Ok (virq, w)
  else
    '(virq, w) ← fwk_irq_domain_alloc_irqs sizeof_desc root ralloc dummy_chip fuel p (-1) h 1 w;
    if virq <? 0 then Ok (virq, w)
    else
      w ← match alloc ops with Some g => '(_, w) ← g p virq 1 w; Ok w | None => Ok w end;
      w ← fwk_irq_desc_set_type root virq type w;
      Ok (virq, w).
Lemma create_is_map_line M L w dm' : irq_inv M L w -> dom_list doms w -> first_dom (hosts node) w doms = p -> is_domains w !! p = Some dm' -> bare dm' = bare dm ->
  create w = map_line w.
Proof using node_valid fuel_doms ops_known ops_xlate specifier.
  intros I HD Hfirst Hp Hbare. unfold fwk_irq_create_of_mapping. rewrite node_valid. cbn [negb].
  unfold fwk_of_irq_host. rewrite (find_domain_spec _ (hosts node) w doms fuel HD) by done. cbn [mbind res_bind]. rewrite Hfirst.
  destruct (iv_dom _ _ _ I p dm' Hp) as (Hv & _). rewrite Hv, Hp. cbn [negb deref mbind res_bind].
  destruct (bare_fields _ _ Hbare) as (_ & -> & _). rewrite ops_known. cbn [deref mbind res_bind]. rewrite ops_xlate, (specifier dm' Hbare). done.
Qed.

Lemma map_line_spec M L w dm' : irq_inv M L w -> is_domains w !! p = Some dm' -> bare dm' = bare dm ->
  (line w p h = None -> exists v, 0 <= v < 1023 /\ bit_at (is_bitmap w) v = false) ->
  exists r M' L' w', map_line w = Ok (r, w') /\ irq_inv M' L' w' /\ is_links w' = is_links w /\ same_domains w w' /\
    (r = - ER_NOMEM \/ r = - ER_NOTFOUND \/ 0 <= r) /\ (forall v, line w p h = Some v -> r = v) /\
    (0 <= r -> forall q k, 0 <= k -> line w' q k = if decide (q = p /\ k = h) then Some r else line w q k) /\ (0 <= r -> line w p h = None -> forall q k, 0 <= k -> line w q k <> Some r).
Proof using desc_size action_size ralloc_fresh fuel_numbers line_exists ops_alloc.
  clear fuel_doms. intros I Hp Hbare Hroom. destruct (bare_fields _ _ Hbare) as (_ & _ & Hmax & _).
  assert (dm_hwirq_max <$> is_domains w !! p = Some (dm_hwirq_max dm)) as Hm by (by rewrite Hp; simpl; rewrite Hmax).
  unfold map_line, fwk_irq_find_mapping. destruct (find_map_spec M L w p _ h type I Hm line_exists) as (r0 & w0 & -> & I0 & S0 & Hr0). cbn [mbind res_bind].
  destruct (line w p h) as [v|] eqn:El.
  { subst r0. destruct (line_spec M L w p h v I El) as (Hv & _). rewrite (proj2 (Z.leb_le 0 v)) by lia. exists v, M, L, w0.
    split_and!; try done; [exact (sl_links _ _ S0)|intros q; by rewrite (sl_domains _ _ S0)|lia|congruence|].
    intros _ q k Hk. rewrite (same_lines_line w w0 q k S0). case_decide as Hq; [by destruct Hq as [-> ->]|done]. }
  subst r0. change (0 <=? - ER_UNVALID) with false. cbn iota. destruct (iv_bits _ _ _ I0) as [Hby Hlen].
  destruct (least_free (is_bitmap w0) 1023 Hby) as (s & Hs & Hrun & Hleast); [lia|rewrite (sl_bitmap _ _ S0); by apply Hroom|].
  destruct (alloc_irqs_spec fuel M L w0 p (dm_hwirq_max dm) (-1) h 1 s I0) as (r & M1 & L1 & w1 & -> & I1 & HM & Ea & El1 & Sd & _ & Hcase);
    [by rewrite (sl_domains _ _ S0)|lia|lia|lia|simpl; lia|unfold FWK_IRQ_DESC_MAX; lia|done|simpl; exact Hleast|simpl; lia|]. cbn [mbind res_bind].
  assert (is_links w1 = is_links w) as E1 by (rewrite El1; exact (sl_links _ _ S0)).
  assert (same_domains w w1) as S1 by (intros q; rewrite (Sd q); by rewrite (sl_domains _ _ S0)).
  destruct Hcase as [[-> _]|[->|[-> Hl1]]].
  1,2: eexists _, M1, L1, w1; split; [reflexivity|]; split_and!; try done; auto; intros Hc; exfalso; revert Hc; vm_compute; congruence.
  rewrite (proj2 (Z.ltb_ge s 0)) by lia.
  assert (exists L2 w2, match alloc ops with Some g => '(_, w) ← g p s 1 w1; Ok w | None => Ok w1 end = Ok w2 /\ irq_inv M1 L2 w2 /\ same_lines w1 w2) as (L2 & w2 & -> & I2 & S2).
  { destruct (alloc ops) as [g|]; [|by exists L1, w1]. destruct (iv_dom _ _ _ I p dm' Hp) as (Hv & _).
    destruct (ops_alloc g eq_refl M1 L1 w1 p s I1 Hv) as (r & L2 & w2 & -> & ? & ?). by exists L2, w2. }
  cbn [mbind res_bind]. destruct (set_type_spec M1 L2 w2 s type I2) as (w3 & -> & I3 & S3). cbn [mbind res_bind].
  pose proof (same_lines_trans _ _ _ S2 S3) as S4. exists s, M1, L2, w3. split; [done|]. split_and!; try done; [by rewrite (sl_links _ _ S4)| |lia| |].
  - intros q. by rewrite (sl_domains _ _ S4), (S1 q).
  - intros _ q k Hk. rewrite (same_lines_line w1 w3 q k S4), (Hl1 q k Hk), (same_lines_line w w0 q k S0).
    destruct (decide (q = p /\ h <= k < h + 1)), (decide (q = p /\ k = h)); try done; try lia. f_equal. lia.
  - intros _ _ q k Hk. rewrite <- (same_lines_line w w0 q k S0). eapply free_number; [exact I0|]. apply Hrun. lia.
Qed.

(** C16: mapping the line that a device-tree specifier names returns, with the
    number the line has if it has one; otherwise a number no line has becomes
    its number, unless memory is short.  No other line changes, no two lines
    share a number, and asking again gives the same number. *)
Theorem irq_mapping_stable M L w dm' :
  irq_inv M L w -> dom_list doms w -> first_dom (hosts node) w doms = p -> is_domains w !! p = Some dm' -> bare dm' = bare dm ->
  (line w p h = None -> exists v, 0 <= v < 1023 /\ bit_at (is_bitmap w) v = false) ->
  exists r M' L' w', create w = Ok (r, w') /\ irq_inv M' L' w' /\ dom_list doms w' /\
    (r = - ER_NOMEM \/ r = - ER_NOTFOUND \/ 0 <= r) /\ (forall v, line w p h = Some v -> r = v) /\
    (0 <= r -> (forall q k, 0 <= k -> line w' q k = if decide (q = p /\ k = h) then Some r else line w q k) /\
      (forall q k, 0 <= k -> line w' q k = Some r -> q = p /\ k = h) /\
      exists w2, create w' = Ok (r, w2)).
Proof using desc_size action_size ralloc_fresh fuel_doms fuel_numbers node_valid ops_known ops_xlate ops_alloc specifier line_exists.
  intros I HD Hfirst Hp Hbare Hroom. rewrite (create_is_map_line M L w dm' I HD Hfirst Hp Hbare).
  destruct (map_line_spec M L w dm' I Hp Hbare Hroom) as (r & M' & L' & w' & -> & I' & El & Sd & Hr & Hold & Hnew & _).
  pose proof (dom_list_same doms w w' HD El Sd) as HD'. exists r, M', L', w'. split_and!; try done. intros Hr0. specialize (Hnew Hr0).
  assert (line w' p h = Some r) as Hl by (rewrite Hnew by lia; by rewrite decide_True by done). split_and!; [done| |].
  - intros q k Hk Hq. exact (line_inj M' L' w' q k p h r I' Hk ltac:(lia) Hq Hl).
  - destruct (same_domains_lookup w w' p dm' Sd Hp) as (dm2 & Hp2 & Hb2). assert (bare dm2 = bare dm) as Hb3 by congruence.
    assert (first_dom (hosts node) w' doms = p) as Hf2.
    { rewrite (first_dom_same (hosts node) w w' doms Sd); [done|]. intros d d' Hd. unfold hosts. by destruct (bare_fields _ _ Hd) as (-> & _). }
    rewrite (create_is_map_line M' L' w' dm2 I' HD' Hf2 Hp2 Hb3).
    destruct (map_line_spec M' L' w' dm2 I' Hp2 Hb3) as (r2 & _ & _ & w2 & E & _ & _ & _ & _ & Hold2 & _); [by rewrite Hl|].
    rewrite (Hold2 r Hl) in E. by exists w2.
Qed.
End mapping.
End irq.

(** ** An example: a controller of 128 lines, nothing mapped *)
(** [node] is the controller's node in the device tree. *)
Definition demo_domain_of (node : Z) : irq_domain := IrqDomain 32 node (Some gpc_text) 600 0 0 128 (replicate 128 (-1)).
Definition demo_domain : irq_domain := demo_domain_of 500.
Definition demo_links : mem := list_head_add_tail (init_list_head (fun _ => 0) 64) 64 (8192 + domain_link).
Definition demo_irqs_of (node : Z) : @isys kheap :=
  ISys (Cpu 0 0) demo_kheap (empty_tree 32) (replicate 128 0) ∅ ∅ {[ 8192 := demo_domain_of node ]} ∅ demo_links (fun _ => 0).
Definition demo_irqs : @isys kheap := demo_irqs_of 500.
Definition demo_ops : @domain_ops kheap := DomainOps (Some gpc_irq_domain_xlate) (Some (gic_irq_domain_alloc 52 32 sgrt_fwk_irq_dummy_chip)).
Definition demo_ops_at (p : Z) : option domain_ops := if p =? 600 then Some demo_ops else None.

Lemma demo_irqs_of_inv node : irq_inv 80 40 32 16 ∅ [] (demo_irqs_of node).
Proof.
  split.
  - split; done.
  - exact demo_kheap_inv.
  - by apply empty_tree_rep.
  - split; [split|]; [|done..]. apply Forall_replicate. lia.
  - intros v l Hl. by rewrite lookup_empty in Hl.
  - intros v v' l Hl. by rewrite lookup_empty in Hl.
  - intros p d Hd. simpl in Hd. by rewrite lookup_empty in Hd.
  - intros p a Ha. simpl in Ha. by rewrite lookup_empty in Ha.
  - intros p1 p2 d1 d2 a Hd. simpl in Hd. by rewrite lookup_empty in Hd.
  - intros p [d Hd]. simpl in Hd. by rewrite lookup_empty in Hd.
  - intros p dm. simpl. intros [<- <-]%lookup_singleton_Some. split_and!; try done. apply (Forall_replicate _ 128). unfold FWK_IRQ_DESC_MAX. lia.
  - intros p dm h v. simpl. intros [<- <-]%lookup_singleton_Some Hv. change (replicate 128 (-1) !! h = Some v) in Hv. apply lookup_replicate in Hv as [-> _]. lia.
Qed.
Lemma demo_irqs_inv : irq_inv 80 40 32 16 ∅ [] demo_irqs.
Proof. exact (demo_irqs_of_inv 500). Qed.
Lemma demo_dom_list_of node : dom_list 64 [8192] (demo_irqs_of node).
Proof.
  split; [|intros p ->%list_elem_of_singleton; simpl; rewrite lookup_singleton_eq; eauto].
  split; [apply Forall_singleton; unfold entry_ok; simpl lseg; split_and!; reflexivity|]. simpl. split_and!; [|constructor|done]. apply Forall_singleton. unfold apart, domain_link. lia.
Qed.
Lemma demo_dom_list : dom_list 64 [8192] demo_irqs.
Proof. exact (demo_dom_list_of 500). Qed.
(** Line 5, triggered by a rising edge. *)
Definition demo_create (w : @isys kheap) : res (Z * isys) :=
  fwk_irq_create_of_mapping 80 32 demo_alloc 16 64 demo_ops_at 512 500 [0; 5; 1] 3 w.
Lemma demo_specifier_of node : translates gpc_irq_domain_xlate (demo_domain_of node) node [0; 5; 1] 3 5 1.
Proof. intros dm' Hb. destruct (bare_fields _ _ Hb) as (E & _). unfold gpc_irq_domain_xlate. rewrite E. cbn [demo_domain_of dm_node]. by rewrite Z.eqb_refl. Qed.
Lemma demo_specifier : translates gpc_irq_domain_xlate demo_domain 500 [0; 5; 1] 3 5 1.
Proof. exact (demo_specifier_of 500). Qed.
Lemma demo_ops_prepare g : alloc demo_ops = Some g -> prepares 80 40 32 16 g.
Proof. intros [= <-]. apply (gic_alloc_prepares 80 40 52 32 16); lia. Qed.

Lemma irq_mapping_stable_witness : exists M L w', demo_create demo_irqs = Ok (0, w') /\ irq_inv 80 40 32 16 M L w' /\ line w' 8192 5 = Some 0.
Proof.
  destruct (irq_mapping_stable 80 40 32 demo_alloc 16 64 ltac:(lia) ltac:(lia) demo_alloc_fresh demo_ops_at 512 500 [0; 5; 1] 3 [8192] 8192 demo_domain demo_ops
    gpc_irq_domain_xlate 5 1 ltac:(simpl; lia) ltac:(lia) eq_refl eq_refl eq_refl demo_ops_prepare demo_specifier ltac:(simpl; lia) ∅ [] demo_irqs demo_domain
    demo_irqs_inv demo_dom_list eq_refl eq_refl eq_refl) as (r & M & L & w' & E & I & _ & _ & _ & Hr); [intros _; exists 0; split; [lia|reflexivity]|].
  assert (match demo_create demo_irqs with Ok (r, _) => r | _ => 1 end = 0) as Hd by (vm_compute; reflexivity).
  unfold demo_create in Hd. rewrite E in Hd. rewrite Hd in *. destruct (Hr ltac:(lia)) as (Hl & _). exists M, L, w'. split; [exact E|]. split; [exact I|].
  rewrite (Hl 8192 5 ltac:(lia)). reflexivity.
Defined.
(** The state with line 5 mapped. *)
Definition demo_mapped : @isys kheap := match demo_create demo_irqs with Ok (_, w) => w | _ => demo_irqs end.
Lemma demo_mapped_spec : exists M L, irq_inv 80 40 32 16 M L demo_mapped /\ is_links demo_mapped = demo_links /\ same_domains demo_irqs demo_mapped.
Proof.
  destruct (map_line_spec 80 40 32 demo_alloc 16 ltac:(lia) ltac:(lia) demo_alloc_fresh 512 8192 demo_domain demo_ops 5 1 ltac:(lia) demo_ops_prepare ltac:(simpl; lia)
    ∅ [] demo_irqs demo_domain demo_irqs_inv eq_refl eq_refl) as (r & M & L & w' & E & I & El & Sd & _); [intros _; exists 0; split; [lia|reflexivity]|].
  assert (demo_create demo_irqs = Ok (r, w')) as E2.
  { rewrite <- E. apply (create_is_map_line 80 40 32 demo_alloc 16 64 demo_ops_at 512 500 [0; 5; 1] 3 [8192] 8192 demo_domain demo_ops gpc_irq_domain_xlate 5 1
      ltac:(simpl; lia) eq_refl eq_refl eq_refl demo_specifier ∅ [] demo_irqs demo_domain demo_irqs_inv demo_dom_list eq_refl eq_refl eq_refl). }
  exists M, L. unfold demo_mapped. rewrite E2. split; [exact I|]. split; [exact El|exact Sd].
Qed.
Lemma demo_mapped_inv : exists M L, irq_inv 80 40 32 16 M L demo_mapped /\ line demo_mapped 8192 5 = Some 0.
Proof. destruct demo_mapped_spec as (M & L & I & _). exists M, L. split; [exact I|vm_compute; reflexivity]. Qed.
Lemma demo_mapped_dom_list : dom_list 64 [8192] demo_mapped.
Proof. destruct demo_mapped_spec as (M & L & _ & El & Sd). exact (dom_list_same 64 [8192] demo_irqs demo_mapped demo_dom_list El Sd). Qed.
Lemma demo_mapped_domain : exists dm, is_domains demo_mapped !! 8192 = Some dm.
Proof. destruct demo_mapped_spec as (M & L & _ & _ & Sd). destruct (same_domains_lookup _ _ 8192 demo_domain Sd eq_refl) as (dm & E & _). by exists dm. Qed.
