(* ===== verification/IrqActions.v ===== *)
(** * Registering and running interrupt handlers

    Requests append an action to the descriptor of a mapped interrupt, releases
    take one out and give its block back, and an interrupt of a hardware line
    runs the handlers of the number the line is mapped to, in order. *)

From stdpp Require Import prelude gmap fin_maps sorting.
From S2P Require Import Prelude Mem ListHead MemPool Bytes Sync Generic Bitmap Radix RadixSpec RadixMap KMalloc KMallocSpec KName HeapContract Irq IrqSpec.

Section actions.
Context {H : Type} `{KernelHeap H}.
Context (sizeof_desc sizeof_action root dummy_chip head isr : Z).
Context (desc_size : 48 <= sizeof_desc <= 4096) (action_size : 0 < sizeof_action <= 4096) (isr_known : isr <> 0).
Local Notation isys := (@isys H).
Local Notation inv := (irq_inv sizeof_desc sizeof_action root dummy_chip).
Local Notation asz := (mrt_num_align8 sizeof_action).

(** ** Handlers of a number *)
Definition handler_of (a : irq_action) : Z * Z := (ia_handler a, ia_args a).
Definition acts (w : isys) (l : list Z) : list (Z * Z) := omap (fun p => handler_of <$> is_actions w !! p) l.
Lemma handlers_desc M (w : isys) v l d : M !! v = Some l -> is_descs w !! (l - desc_radix) = Some d -> handlers M w v = acts w (de_action d).
Proof. intros Hl Hd. unfold handlers. rewrite Hl. simpl. by rewrite Hd. Qed.
Lemma acts_ext w w' l : (forall p, p ∈ l -> is_actions w' !! p = is_actions w !! p) -> acts w' l = acts w l.
Proof.
  induction l as [|p l IH]; intros Hp; [done|]. unfold acts in *. cbn. rewrite (Hp p ltac:(left)), IH; [done|]. intros q Hq. apply Hp. by right.
Qed.
Lemma acts_app w l k : acts w (l ++ k) = acts w l ++ acts w k.
Proof. unfold acts. by rewrite omap_app. Qed.

(** Handlers depend on the lists of actions and on the actions only. *)
Lemma handlers_same M (w w' : isys) v : same_acts w w' -> handlers M w' v = handlers M w v.
Proof.
  intros [Ea Ed]. unfold handlers. destruct (M !! v) as [l|]; [|done]. simpl. specialize (Ed (l - desc_radix)). rewrite Ea.
  destruct (is_descs w' !! (l - desc_radix)) as [d'|], (is_descs w !! (l - desc_radix)) as [d|]; try done. simpl in Ed. injection Ed as Ed. by rewrite Ed.
Qed.
Lemma same_acts_refl (w : isys) : same_acts w w.
Proof. done. Qed.

Definition not_of (dev : Z) (l : list (Z * Z)) : Prop := Forall (fun x => x.2 <> dev) l.
Lemma find_action_spec M L w l name dev : inv M L w -> (forall p, p ∈ l -> is_Some (is_actions w !! p)) ->
  exists r, find_action l name dev w = Ok r /\
    ((r = nullptr /\ (name = None -> not_of dev (acts w l))) \/
     (isValid r = true /\ exists l1 l2 a, l = l1 ++ r :: l2 /\ is_actions w !! r = Some a /\ ia_args a = dev /\ (name = None -> not_of dev (acts w l1)))).
Proof.
  intros I. induction l as [|p l IH]; intros Hin; cbn [find_action]; [exists 0; split; [done|]; left; split; [done|]; by constructor|].
  destruct (Hin p ltac:(left)) as [a Ha]. rewrite Ha. cbn [deref mbind res_bind]. destruct (iv_act _ _ _ _ _ _ _ I p a Ha) as (Hv & _ & Hlen & _).
  assert (exists d, match name with Some s => c_strncmp FWK_IRQ_DESC_NAME_LENTH (ia_name a) (s ++ [0]) | None => Ok false end = Ok d /\ (name = None -> d = false)) as (d & -> & Hd).
  { destruct name as [s|]; [|by exists false]. destruct (c_strncmp_total _ _ s Hlen) as [d ->]. by exists d. }
  cbn [mbind res_bind]. destruct (negb d && (ia_args a =? dev)) eqn:Hm.
  - apply andb_true_iff in Hm as [_ Hm]. apply Z.eqb_eq in Hm. exists p. split; [done|]. right. split; [done|]. exists [], l, a. split_and!; try done. constructor.
  - destruct IH as (r & -> & Hr); [intros q Hq; apply Hin; by right|]. exists r. split; [done|].
    assert (name = None -> forall k, not_of dev (acts w k) -> not_of dev (acts w (p :: k))) as Hcons.
    { intros Hn k Hk. rewrite (Hd Hn) in Hm. apply Z.eqb_neq in Hm. unfold acts. cbn. rewrite Ha. simpl. by constructor. }
    destruct Hr as [[-> Hn]|(Hvr & l1 & l2 & b & -> & Hb & Hdev & Hn)]; [left; split; [done|]; intros E; by apply Hcons, Hn|right].
    split; [done|]. exists (p :: l1), l2, b. split_and!; try done. intros E. by apply Hcons, Hn.
Qed.

(** ** The chip of a mapped interrupt *)
Lemma with_chip_spec M L w v l d f : inv M L w -> is_u32 v -> M !! v = Some l -> is_descs w !! (l - desc_radix) = Some d ->
  chip_ok dummy_chip (id_chip (de_data d)) w -> (forall c, chip_at dummy_chip (id_chip (de_data d)) w = Ok c -> exists r, f (de_data d) d c = Ok r) ->
  exists r, with_chip root dummy_chip v f w = Ok (put_regs r w).
Proof using desc_size.
  intros I Hv Hl Hd (c & Hc) Hf. unfold with_chip. rewrite (get_data_spec _ _ _ _ desc_size M L w v I), (u32_id v Hv), Hl. cbn [mbind res_bind].
  destruct (entry_valid _ _ _ _ desc_size M L w v l I Hl) as (_ & _ & _ & Hval). rewrite (proj2 (Z.eqb_neq _ 0) (isValid_nonzero _ Hval)).
  unfold data_desc. replace (l - desc_radix + desc_data - desc_data) with (l - desc_radix) by lia. rewrite Hd. cbn [deref mbind res_bind]. rewrite Hc. cbn [mbind res_bind].
  destruct (Hf c Hc) as [r ->]. by exists r.
Qed.

(** ** Adding and removing actions *)
Lemma action_unlisted M L w p q d : inv M L w -> is_actions w !! p = None -> is_descs w !! q = Some d -> p ∉ de_action d.
Proof. intros I Hp Hd Hin. destruct (iv_desc _ _ _ _ _ _ _ I q d Hd) as (_ & _ & _ & Ha). destruct (Ha p Hin) as [a E]. by rewrite E in Hp. Qed.

(** A new action, on no list yet. *)
Definition new_action (p : Z) (a : irq_action) (w : isys) : isys := put_actions (<[p := a]> (is_actions w)) w.
Lemma inv_new_action M L w p a : inv M L w -> isValid p = true -> (p, asz) ∈ L -> is_descs w !! p = None ->
  length (ia_name a) = FWK_IRQ_DESC_NAME_LENTH -> ia_handler a <> 0 -> inv M L (new_action p a w).
Proof.
  intros I Hv Hin Hpd Hn Hh. split; try apply I.
  - intros x d Hd. destruct (iv_desc _ _ _ _ _ _ _ I x d Hd) as (? & ? & ? & Hall). split_and!; try done. intros y Hy. simpl.
    destruct (decide (y = p)) as [->|]; [rewrite lookup_insert_eq; eauto|rewrite lookup_insert_ne by done; by apply Hall].
  - intros x b. simpl. intros [[<- <-]|[_ Hb]]%lookup_insert_Some; [by split_and!|exact (iv_act _ _ _ _ _ _ _ I x b Hb)].
  - intros x Hx. simpl in *. rewrite lookup_insert_ne; [by apply (iv_apart _ _ _ _ _ _ _ I)|]. intros ->. rewrite Hpd in Hx. by destruct Hx.
Qed.
(** Action [p] joins descriptor [q]. *)
Lemma inv_append M L w p q : inv M L w -> is_Some (is_actions w !! p) -> (forall x d, is_descs w !! x = Some d -> p ∉ de_action d) ->
  inv M L (upd_desc (with_action (fun l => l ++ [p])) q w).
Proof.
  intros I Hp Hun.
  assert (forall x d', is_descs (upd_desc (with_action (fun l => l ++ [p])) q w) !! x = Some d' -> exists e, is_descs w !! x = Some e /\
    (x = q /\ de_action d' = de_action e ++ [p] \/ x <> q /\ de_action d' = de_action e)) as Hback.
  { intros x d'. simpl. destruct (decide (x = q)) as [->|].
    - rewrite lookup_alter_eq. intros (d & Hq & ->)%fmap_Some. exists d. split; [done|]. by left.
    - rewrite lookup_alter_ne by done. intros Hd'. exists d'. split; [done|]. by right. }
  split; try apply I.
  - intros v l Hl. destruct (iv_entry _ _ _ _ _ _ _ I v l Hl) as [e He]. simpl. destruct (decide (l - desc_radix = q)) as [E|].
    + rewrite E in *. rewrite lookup_alter_eq, He. eauto.
    + rewrite lookup_alter_ne by done. eauto.
  - intros x d' Hd'. destruct (Hback x d' Hd') as (e & He & Hact). destruct (iv_desc _ _ _ _ _ _ _ I x e He) as (? & ? & Hnd & Hall). split_and!; [done..| |].
    + destruct Hact as [[_ ->]|[_ ->]]; [|done]. apply NoDup_app. split_and!; [done| |apply NoDup_singleton].
      intros y Hy ->%list_elem_of_singleton. by apply (Hun x e).
    + intros y Hy. destruct (decide (y = p)) as [->|]; [done|]. apply Hall.
      destruct Hact as [[_ E]|[_ E]]; rewrite E in Hy; [|done]. apply elem_of_app in Hy as [Hy|Hy]; [done|]. by apply list_elem_of_singleton in Hy.
  - intros p1 p2 d1 d2 y H1 H2 Hy1 Hy2. destruct (Hback _ _ H1) as (e1 & He1 & A1), (Hback _ _ H2) as (e2 & He2 & A2).
    pose proof (Hun p1 e1 He1). pose proof (Hun p2 e2 He2).
    destruct A1 as [[-> E1]|[N1 E1]], A2 as [[-> E2]|[N2 E2]]; rewrite E1 in Hy1; rewrite E2 in Hy2; try done;
      rewrite ?elem_of_app, ?list_elem_of_singleton in Hy1; rewrite ?elem_of_app, ?list_elem_of_singleton in Hy2;
      (destruct (decide (y = p)) as [->|]; [tauto|]); eapply (iv_own _ _ _ _ _ _ _ I); try done; tauto.
  - intros x [d' Hd']. destruct (Hback x d' Hd') as (e & He & _). apply (iv_apart _ _ _ _ _ _ _ I). eauto.
  - intros x dm h v Hx Hhv Hv0. destruct (iv_map _ _ _ _ _ _ _ I x dm h v Hx Hhv Hv0) as (Hb & l & e & Hl & He & Hpt & Hc). split; [done|]. exists l. simpl.
    destruct (decide (l - desc_radix = q)) as [E|]; [|rewrite lookup_alter_ne by done; by exists e].
    rewrite E in *. rewrite lookup_alter_eq, He. by eexists.
Qed.
Definition joined (p q : Z) (a : irq_action) (w : isys) : isys := upd_desc (with_action (fun l => l ++ [p])) q (new_action p a w).
Lemma handlers_joined M L w p q a v : inv M L w -> is_actions w !! p = None -> (exists l, M !! v = Some l /\ q = l - desc_radix) -> is_Some (is_descs w !! q) ->
  handlers M (joined p q a w) v = handlers M w v ++ [handler_of a] /\ (forall u, u <> v -> handlers M (joined p q a w) u = handlers M w u).
Proof.
  intros I Hp (l & Hl & ->) [d Hd].
  assert (forall k e, is_descs w !! k = Some e -> acts (joined p (l - desc_radix) a w) (de_action e) = acts w (de_action e)) as Hext.
  { intros k e He. apply acts_ext. intros x Hx. simpl. rewrite lookup_insert_ne; [done|]. intros <-. by eapply action_unlisted in Hx. }
  split.
  - rewrite (handlers_desc M w v l d Hl Hd).
    rewrite (handlers_desc M _ v l (with_action (fun l => l ++ [p]) d) Hl) by (simpl; by rewrite lookup_alter_eq, Hd).
    simpl. rewrite acts_app, (Hext _ d Hd). f_equal. unfold acts. cbn. by rewrite lookup_insert_eq.
  - intros u Hu. unfold handlers. destruct (M !! u) as [k|] eqn:Hk; [|done]. simpl.
    assert (k - desc_radix <> l - desc_radix) by (intros E; apply Hu; eapply (iv_inj _ _ _ _ _ _ _ I); [exact Hk|]; by replace k with l by lia).
    rewrite lookup_alter_ne by done. destruct (is_descs w !! (k - desc_radix)) as [e|] eqn:He; [|done]. exact (Hext _ e He).
Qed.

(** C18: a request for a mapped interrupt returns.  It is refused when the device
    has registered that name already, when memory is short or when the name is
    too long, and then no handler changes and no memory stays taken; otherwise
    the handler, or the default one, joins the end of that interrupt's list, and
    no other interrupt is affected. *)
Theorem irq_request_registers M L w p h v handler flags name dev :
  inv M L w -> line w p h = Some v -> dev <> 0 -> name <> [] ->
  exists r w', fwk_request_irq sizeof_action root dummy_chip isr v handler flags (Some name) dev w = Ok (r, w') /\
    is_domains w' = is_domains w /\
    (((r = - ER_EXISTED \/ r = - ER_NOMEM \/ r = - ER_CHECKERR) /\ inv M L w' /\ forall u, handlers M w' u = handlers M w u) \/
     (r = ER_NORMAL /\ (exists q, inv M ((q, asz) :: L) w') /\
      handlers M w' v = handlers M w v ++ [(if handler =? 0 then isr else handler, dev)] /\ forall u, u <> v -> handlers M w' u = handlers M w u)).
Proof using desc_size action_size isr_known.
  intros I Hline Hdev Hname. destruct (line_spec _ _ _ _ M L w p h v I Hline) as (Hv & _ & l & d & Hl & Hd & _ & Hc).
  assert (is_u32 v) as Hv32 by (unfold FWK_IRQ_DESC_MAX, is_u32, W32 in *; lia).
  assert (fwk_irq_to_desc root v w = Ok (l - desc_radix)) as Etd by (by rewrite (to_desc_spec _ _ _ _ M L w v I), (u32_id v Hv32), Hl).
  destruct (entry_valid _ _ _ _ desc_size M L w v l I Hl) as (_ & _ & Hval & _).
  unfold fwk_request_irq. cbn [deref mbind res_bind]. rewrite (proj2 (Z.eqb_neq dev 0) Hdev). unfold fwk_find_irq_action. rewrite Etd. cbn [mbind res_bind].
  rewrite Hval, Hd. cbn [negb deref mbind res_bind].
  destruct (find_action_spec M L w (de_action d) (Some name) dev I) as (r & -> & Hr); [apply (iv_desc _ _ _ _ _ _ _ I _ d Hd)|]. cbn [mbind res_bind].
  destruct Hr as [[-> _]|(Hvr & _)]; [|rewrite (proj2 (Z.eqb_neq r 0) (isValid_nonzero _ Hvr)); eexists _, w; split; [done|]; split; [done|]; left; by auto].
  cbn [nullptr Z.eqb negb]. destruct (i_kzalloc_spec _ _ _ _ M L w sizeof_action I) as (q & hp & E & Hcase); [unfold W32; lia|]. rewrite E. cbn [mbind res_bind].
  destruct Hcase as [[-> I1]|[Hq I1]]; [eexists _, _; split; [done|]; split; [done|]; left; by auto|]. rewrite Hq. cbn [negb].
  destruct (Nat.leb_spec FWK_IRQ_DESC_NAME_LENTH (length name)) as [Hlong|Hshort].
  { assert (0 < asz) as Hasz by (destruct (align8_spec sizeof_action) as [? _]; unfold W32 in *; lia).
    destruct (heap_free_spec _ _ _ _ _ (iv_cpu _ _ _ _ _ _ _ I1) (iv_heap _ _ _ _ _ _ _ I1) Hasz) as (h2 & E2 & Hh2 & _).
    unfold i_kfree. simpl is_cpu in *. simpl is_heap in *. rewrite E2. cbn [mbind res_bind]. eexists _, _. split; [done|]. split; [done|]. left. split; [by auto|]. split; [|done].
    apply (inv_heap _ _ _ _ M L L w (is_cpu w) h2 I); [apply I|done|done]. }
  set (w1 := put_cpu_heap (is_cpu w) hp w) in *.
  assert (is_actions w1 !! q = None /\ is_descs w1 !! q = None) as [Hfa Hfd].
  { destruct (align8_spec sizeof_action) as [? _]; [unfold W32; lia|]. destruct (align8_spec sizeof_desc) as [? _]; [unfold W32; lia|].
    split; apply eq_None_not_Some; intros [b Hb].
    - destruct (iv_act _ _ _ _ _ _ _ I q b Hb) as (_ & Hin & _). by eapply (irq_block_apart hp L q asz q asz); [exact (iv_heap _ _ _ _ _ _ _ I1)|lia|exact Hin|lia|].
    - destruct (iv_desc _ _ _ _ _ _ _ I q b Hb) as (_ & Hin & _). by eapply (irq_block_apart hp L q asz q); [exact (iv_heap _ _ _ _ _ _ _ I1)|lia|exact Hin|lia|]. }
  assert (name_strcpy (replicate FWK_IRQ_DESC_NAME_LENTH 0) name = Ok (name ++ drop (length name) (replicate FWK_IRQ_DESC_NAME_LENTH 0))) as ->.
  { destruct name; [done|]. unfold name_strcpy. rewrite decide_True by (rewrite length_replicate; lia). done. }
  cbn [mbind res_bind]. set (a := IrqAction _ (if handler =? 0 then isr else handler) flags dev).
  set (w2 := new_action q a w1).
  assert (inv M ((q, asz) :: L) w2) as I2.
  { apply inv_new_action; try done; [by left|..]; unfold a; cbn [ia_name ia_handler].
    - rewrite length_app, length_drop, length_replicate. lia.
    - destruct (Z.eqb_spec handler 0); done. }
  assert (exists rg, fwk_irq_set_type root dummy_chip v flags w2 = Ok (put_regs rg w2)) as (rg & Est) by (eapply with_chip_spec; try done; intros c _; by eexists).
  change (put_actions _ w1) with w2. rewrite Est.
  cbn [mbind res_bind]. change (upd_desc _ (l - desc_radix) (put_regs rg w2)) with (put_regs rg (joined q (l - desc_radix) a w1)).
  set (w3 := put_regs rg (joined q (l - desc_radix) a w1)). 
  assert (inv M ((q, asz) :: L) w3) as I3.
  { apply inv_regs, inv_append; [done|simpl; rewrite lookup_insert_eq; eauto|]. intros x e He. by apply (action_unlisted M L w q x e). }
  assert (exists rg2, fwk_enable_irq root dummy_chip v w3 = Ok (put_regs rg2 w3)) as (rg2 & ->).
  { eapply (with_chip_spec M _ w3 v l (with_action (fun k => k ++ [q]) d)); try done; [by simpl; rewrite lookup_alter_eq, Hd|intros c _; destruct (irq_enable c); by eexists]. }
  cbn [mbind res_bind]. eexists _, _. split; [done|]. split; [done|]. right. split; [done|]. split; [exists q; by apply inv_regs|].
  destruct (handlers_joined M _ w1 q (l - desc_radix) a v I1 Hfa ltac:(by exists l) ltac:(by exists d)) as [Hh1 Hh2]. split; [exact Hh1|exact Hh2].
Qed.

(** Action [p] leaves descriptor [q] and its block goes back to the heap. *)
Definition dropped (p q : Z) (h : H) (w : isys) : isys :=
  put_actions (delete p (is_actions w)) (put_cpu_heap (is_cpu w) h (upd_desc (with_action (filter (fun x => x <> p))) q w)).
Lemma inv_dropped M L L' w p q d h : inv M L w -> is_descs w !! q = Some d -> p ∈ de_action d -> (p, asz) :: L' ≡ₚ L -> heap_inv h L' -> inv M L' (dropped p q h w).
Proof.
  intros I Hq Hp HL Hh.
  assert (forall b, b ∈ L -> b <> (p, asz) -> b ∈ L') as Hkeep.
  { intros b Hb Hne. rewrite <- HL in Hb. by apply elem_of_cons in Hb as [?|?]. }
  assert (forall x d', is_descs (dropped p q h w) !! x = Some d' -> exists e, is_descs w !! x = Some e /\ p ∉ de_action d' /\
    (NoDup (de_action e) -> NoDup (de_action d')) /\ forall y, y ∈ de_action d' -> y ∈ de_action e) as Hback.
  { intros x d'. simpl. destruct (decide (x = q)) as [->|Hx].
    - rewrite lookup_alter_eq, Hq. intros [= <-]. exists d. simpl. split_and!; [done| |by apply NoDup_filter|].
      + by intros [? _]%list_elem_of_filter.
      + by intros y [_ ?]%list_elem_of_filter.
    - rewrite lookup_alter_ne by done. intros Hd'. exists d'. split_and!; try done. intros Hin. apply Hx. by eapply (iv_own _ _ _ _ _ _ _ I). }
  assert (forall x, is_Some (is_descs w !! x) -> x <> p) as Hne.
  { intros x Hx ->. destruct (iv_desc _ _ _ _ _ _ _ I q d Hq) as (_ & _ & _ & Hall). destruct (Hall p Hp) as [a Ha]. by rewrite (iv_apart _ _ _ _ _ _ _ I p Hx) in Ha. }
  split; try apply I; try done.
  - intros v l Hl. destruct (iv_entry _ _ _ _ _ _ _ I v l Hl) as [e He]. simpl. destruct (decide (l - desc_radix = q)) as [E|].
    + rewrite E, lookup_alter_eq, Hq. eauto.
    + rewrite lookup_alter_ne by done. eauto.
  - intros x d' Hd'. destruct (Hback x d' Hd') as (e & He & Hn & Hnd & Hsub). destruct (iv_desc _ _ _ _ _ _ _ I x e He) as (? & ? & ? & Hall). split_and!; [done| |by apply Hnd|].
    + apply Hkeep; [done|]. intros [= E _]. by apply (Hne x); [eexists|].
    + intros y Hy. simpl. rewrite lookup_delete_ne by (intros <-; done). by apply Hall, Hsub.
  - intros x a. simpl. intros [Hx Ha]%lookup_delete_Some. destruct (iv_act _ _ _ _ _ _ _ I x a Ha) as (? & ? & ? & ?). split_and!; try done. apply Hkeep; [done|]. by intros [= ?].
  - intros p1 p2 d1 d2 y H1 H2 Hy1 Hy2. destruct (Hback _ _ H1) as (e1 & He1 & _ & _ & S1), (Hback _ _ H2) as (e2 & He2 & _ & _ & S2). eapply (iv_own _ _ _ _ _ _ _ I); eauto.
  - intros x [d' Hd']. destruct (Hback x d' Hd') as (e & He & _). simpl. apply lookup_delete_None. right. apply (iv_apart _ _ _ _ _ _ _ I). eauto.
  - intros x dm k v Hx Hk Hv0. destruct (iv_map _ _ _ _ _ _ _ I x dm k v Hx Hk Hv0) as (Hb & l & e & Hl & He & Hpt & Hc). split; [done|]. exists l. simpl.
    destruct (decide (l - desc_radix = q)) as [E|]; [|rewrite lookup_alter_ne by done; by exists e].
    rewrite E in *. rewrite lookup_alter_eq, He. by eexists.
Qed.
Lemma drop_action_spec M L w p q d l1 l2 v l : inv M L w -> M !! v = Some l -> q = l - desc_radix -> is_descs w !! q = Some d -> de_action d = l1 ++ p :: l2 ->
  exists L' w', drop_action q p w = Ok w' /\ (p, asz) :: L' ≡ₚ L /\ inv M L' w' /\ is_domains w' = is_domains w /\
    handlers M w' v = acts w l1 ++ acts w l2 /\ forall u, u <> v -> handlers M w' u = handlers M w u.
Proof using action_size.
  intros I Hl -> Hd Hact. destruct (iv_desc _ _ _ _ _ _ _ I _ d Hd) as (_ & _ & Hnd & Hall).
  assert (p ∈ de_action d) as Hp by (rewrite Hact; apply elem_of_app; right; left). destruct (Hall p Hp) as [a Ha].
  destruct (iv_act _ _ _ _ _ _ _ I p a Ha) as (_ & Hin & _). apply elem_of_Permutation in Hin as [L' HL].
  assert (0 < asz) as Hasz by (destruct (align8_spec sizeof_action) as [? _]; unfold W32 in *; lia).
  destruct (heap_free_spec (is_cpu w) (is_heap w) L' p asz (iv_cpu _ _ _ _ _ _ _ I)) as (h & E & Hh & _); [by eapply heap_inv_perm; [|exact (iv_heap _ _ _ _ _ _ _ I)]|done|].
  exists L', (dropped p (l - desc_radix) h w). split; [unfold drop_action, i_kfree; simpl; by rewrite E|]. symmetry in HL. split; [done|]. split; [by eapply inv_dropped|]. split; [done|].
  assert (forall k, p ∉ k -> acts (dropped p (l - desc_radix) h w) k = acts w k) as Hext.
  { intros k Hk. apply acts_ext. intros x Hx. simpl. rewrite lookup_delete_ne; [done|]. by intros <-. }
  split.
  - rewrite (handlers_desc M _ v l (with_action (filter (fun x => x <> p)) d) Hl) by (simpl; by rewrite lookup_alter_eq, Hd).
    simpl. rewrite Hact in *. rewrite filter_ne_split by done. rewrite <- acts_app. apply Hext. apply NoDup_app in Hnd as (_ & H1 & [H2 _]%NoDup_cons).
    intros [Hx|Hx]%elem_of_app; [by apply (H1 p Hx); left|done].
  - intros u Hu. unfold handlers. destruct (M !! u) as [k|] eqn:Hk; [|done]. simpl.
    assert (k - desc_radix <> l - desc_radix) as Hne by (intros E2; apply Hu; eapply (iv_inj _ _ _ _ _ _ _ I); [exact Hk|]; by replace k with l by lia).
    rewrite lookup_alter_ne by done. destruct (is_descs w !! (k - desc_radix)) as [e|] eqn:He; [|done]. apply Hext. intros Hx. apply Hne. by eapply (iv_own _ _ _ _ _ _ _ I).
Qed.

(** ** Running the handlers *)
Definition run_all {D} (run : Z -> Z -> D -> D) (s : D) (l : list (Z * Z)) : D := foldl (fun s x => run x.1 x.2 s) s l.
Lemma do_irq_handler_spec {D} (run : Z -> Z -> D -> D) M L w v s : inv M L w -> 0 <= v < FWK_IRQ_DESC_MAX -> fwk_do_irq_handler root run v w s = Ok (run_all run s (handlers M w v)).
Proof using desc_size.
  intros I Hv. unfold fwk_do_irq_handler. rewrite (proj2 (Z.ltb_ge v 0)) by lia.
  rewrite (to_desc_spec _ _ _ _ M L w v I), u32_id by (unfold FWK_IRQ_DESC_MAX, is_u32, W32 in *; lia). cbn [mbind res_bind]. unfold handlers. destruct (M !! v) as [l|] eqn:Hl; [|done].
  destruct (entry_valid _ _ _ _ desc_size M L w v l I Hl) as (d & Hd & Hval & _). rewrite Hval, Hd. cbn [negb deref mbind res_bind option_bind]. rewrite Hd.
  pose proof (proj2 (proj2 (proj2 (iv_desc _ _ _ _ _ _ _ I _ d Hd)))) as Hall. generalize dependent (de_action d). intros k. revert s. induction k as [|p k IH]; intros s Hall; [done|].
  destruct (Hall p ltac:(left)) as [a Ha]. destruct (iv_act _ _ _ _ _ _ _ I p a Ha) as (_ & _ & _ & Hh). cbn. rewrite Ha. cbn [deref mbind res_bind fmap option_fmap option_map].
  rewrite (proj2 (Z.eqb_neq _ 0) Hh). rewrite IH; [done|]. intros x Hx. apply Hall. by right.
Qed.

(** The domain that answers to a name and has the line. *)
Definition named (name : list Z) (hw : Z) (d : irq_domain) : bool :=
  match dm_name d with None => false | Some s => bool_decide (text s = name) && (hw <? dm_hwirq_max d) end.
Lemma controller_text (direct : bool) : 0 ∉ (if direct then intc_text else gpc_text).
Proof. destruct direct; unfold intc_text, gpc_text; rewrite !not_elem_of_cons; split_and!; try done; apply not_elem_of_nil. Qed.

(** C17: an interrupt of a hardware line runs, in the order of their registration,
    exactly the handlers of the number that the line is mapped to in the domain of
    the controller; a line below the controller's first one, of no domain, or
    without a number runs none. *)
Theorem irq_line_runs_handlers {D} (run : Z -> Z -> D -> D) (direct : bool) fuel doms M L w hardirq s :
  inv M L w -> dom_list head doms w -> (length doms <= fuel)%nat -> 0 <= hardirq < 2 ^ 31 ->
  let hw := hardirq - (if direct then 16 else 32) in
  let p := first_dom (named (if direct then intc_text else gpc_text) hw) w doms in
  exec_irq_handler root head run direct fuel hardirq w s =
    Ok (match (if 0 <=? hw then line w p hw else None) with Some v => run_all run s (handlers M w v) | None => s end).
Proof using desc_size.
  intros I HD Hf Hhi hw p. unfold exec_irq_handler, fwk_gic_to_actual_irq. fold hw. assert (s32 hw = hw) as -> by (apply s32_id; unfold hw; destruct direct; lia).
  destruct (Z.ltb_spec hw 0) as [Hneg|Hpos]; [rewrite (proj2 (Z.leb_gt 0 hw)) by lia; cbn [mbind res_bind]; unfold fwk_do_irq_handler; by rewrite (proj2 (Z.ltb_lt hw 0))|].
  rewrite (proj2 (Z.leb_le 0 hw)) by lia. unfold fwk_irq_get_by_domain_name, fwk_irq_get_domain_by_name.
  rewrite (find_domain_spec head _ (named (if direct then intc_text else gpc_text) hw) w doms fuel HD); [|intros q dm _ _|done].
  2:{ unfold named. destruct (dm_name dm) as [t|]; [|done]. rewrite c_strcmp_text by apply controller_text.
      cbn [mbind res_bind]. rewrite negb_involutive. f_equal. f_equal. rewrite u32_id; [done|]. unfold is_u32, W32, hw in *. destruct direct; lia. }
  cbn [mbind res_bind]. fold p. unfold fwk_irq_get_by_domain.
  assert (p = 0 \/ exists dm, is_domains w !! p = Some dm /\ named (if direct then intc_text else gpc_text) hw dm = true) as Hp.
  { unfold p. clear. induction doms as [|q doms IH]; [by left|]. simpl. destruct (is_domains w !! q) as [dm|] eqn:E; [|by left]. destruct (named _ _ dm) eqn:En; [|exact IH]. right. eauto. }
  destruct Hp as [->|(dm & Hdm & Hn)].
  { cbn [Z.eqb mbind res_bind]. unfold fwk_do_irq_handler. cbn [Z.ltb Z.compare]. unfold line. destruct (is_domains w !! 0) as [dm|] eqn:E; [|done].
    by destruct (iv_dom _ _ _ _ _ _ _ I 0 dm E) as [? _]. }
  destruct (iv_dom _ _ _ _ _ _ _ I p dm Hdm) as (Hv & _). rewrite (proj2 (Z.eqb_neq p 0) (isValid_nonzero _ Hv)).
  assert (hw < dm_hwirq_max dm) as Hlt. { unfold named in Hn. destruct (dm_name dm); [|done]. apply andb_true_iff in Hn as [_ Hn]. lia. }
  destruct (get_revmap_spec _ _ _ _ M L w p (dm_hwirq_max dm) hw I) as (v & -> & El); [by rewrite Hdm|lia|]. cbn [mbind res_bind]. rewrite El.
  destruct (Z.leb_spec 0 v) as [Hv0|Hv0]; [|unfold fwk_do_irq_handler; by rewrite (proj2 (Z.ltb_lt v 0))].
  destruct (line_spec _ _ _ _ M L w p hw v I El) as (Hvr & _). by apply (do_irq_handler_spec run M L).
Qed.

(** ** Releasing a handler *)

(** [fwk_disable_irq] finds a function to call. *)
Definition switchable (c : irq_chip) : Prop := irq_disable c <> None \/ irq_mask c = None \/ irq_unmask c <> None.
Definition chip_switchable (M : gmap Z Z) (w : isys) (v : Z) : Prop :=
  forall l d c, M !! v = Some l -> is_descs w !! (l - desc_radix) = Some d -> chip_at dummy_chip (id_chip (de_data d)) w = Ok c -> switchable c.

(** Releasing a device's handler of a mapped interrupt returns; it takes out
    the first handler the device has there, with its block, and nothing else. *)
Theorem irq_free_unregisters M L w p h v dev :
  inv M L w -> line w p h = Some v -> dev <> 0 -> chip_switchable M w v ->
  exists L' w', fwk_free_irq root dummy_chip v dev w = Ok w' /\ inv M L' w' /\ is_domains w' = is_domains w /\ (forall u, u <> v -> handlers M w' u = handlers M w u) /\
    ((not_of dev (handlers M w v) /\ handlers M w' v = handlers M w v /\ L' = L) \/
     (exists h1 f h2 q, handlers M w v = h1 ++ (f, dev) :: h2 /\ not_of dev h1 /\ handlers M w' v = h1 ++ h2 /\ (q, asz) :: L' ≡ₚ L)).
Proof using desc_size action_size.
  intros I Hline Hdev Hsw. destruct (line_spec _ _ _ _ M L w p h v I Hline) as (Hv & _ & l & d & Hl & Hd & _ & Hc).
  assert (is_u32 v) as Hv32 by (unfold FWK_IRQ_DESC_MAX, is_u32, W32 in *; lia).
  unfold fwk_free_irq. rewrite (proj2 (Z.ltb_ge v 0)), (proj2 (Z.eqb_neq dev 0) Hdev) by lia. cbn [orb].
  assert (exists rg, fwk_disable_irq root dummy_chip v w = Ok (put_regs rg w)) as (rg & ->).
  { eapply with_chip_spec; try done. intros c Hc'. destruct (irq_disable c) eqn:E1; [by eexists|]. destruct (irq_mask c) eqn:E2; [|by eexists].
    destruct (irq_unmask c) eqn:E3; [by eexists|]. by destruct (Hsw l d c Hl Hd Hc') as [?|[?|?]]; congruence. }
  cbn [mbind res_bind]. set (w1 := put_regs rg w). assert (inv M L w1) as I1 by (by apply inv_regs).
  assert (fwk_irq_to_desc root v w1 = Ok (l - desc_radix)) as Etd by (by rewrite (to_desc_spec _ _ _ _ M L w1 v I1), (u32_id v Hv32), Hl).
  destruct (entry_valid _ _ _ _ desc_size M L w1 v l I1 Hl) as (_ & _ & Hval & _).
  unfold fwk_find_irq_action. rewrite Etd. cbn [mbind res_bind]. rewrite Hval. simpl is_descs. rewrite Hd. cbn [negb deref mbind res_bind].
  destruct (find_action_spec M L w1 (de_action d) None dev I1) as (r & -> & Hr); [apply (iv_desc _ _ _ _ _ _ _ I _ d Hd)|]. cbn [mbind res_bind].
  destruct Hr as [[-> Hno]|(Hvr & l1 & l2 & a & Hact & Ha & Hargs & Hno)].
  { exists L, w1. split_and!; try done. left. split_and!; try done. rewrite (handlers_desc M w v l d Hl Hd). by apply Hno. }
  rewrite Hvr. cbn [mbind res_bind]. destruct (drop_action_spec M L w1 r (l - desc_radix) d l1 l2 v l I1 Hl eq_refl Hd Hact) as (L' & w' & E & HL & I' & Ed & H1 & H2).
  exists L', w'. split_and!; try done. right. exists (acts w l1), (ia_handler a), (acts w l2), r. split_and!; [|by apply Hno|exact H1|done].
  rewrite (handlers_desc M w v l d Hl Hd), Hact, acts_app. f_equal. unfold acts. cbn. simpl in Ha. rewrite Ha. by rewrite <- Hargs.
Qed.

(** ** Releasing interrupts *)
Lemma drop_actions_spec q v l k : forall M L w d, inv M L w -> M !! v = Some l -> q = l - desc_radix -> is_descs w !! q = Some d -> de_action d = k ->
  exists L' w', drop_actions k q w = Ok w' /\ inv M L' w' /\ map (fun a => (a, asz)) k ++ L' ≡ₚ L /\ (forall x, x <> q -> is_descs w' !! x = is_descs w !! x) /\ is_domains w' = is_domains w /\ is_bitmap w' = is_bitmap w /\ is_tree w' = is_tree w /\ is_links w' = is_links w /\
    is_descs w' !! q = Some (with_action (fun _ => []) d) /\ handlers M w' v = [] /\ (forall u, u <> v -> handlers M w' u = handlers M w u).
Proof using action_size.
  induction k as [|p k IH]; intros M L w d I Hl Hq Hd Hk; cbn [drop_actions].
  { exists L, w. split_and!; try done; [rewrite Hd; by destruct d; simpl in *; subst|]. subst q. rewrite (handlers_desc M w v l d Hl Hd), Hk. done. }
  destruct (iv_desc _ _ _ _ _ _ _ I q d Hd) as (_ & _ & Hnd & Hall). rewrite Hk in Hnd, Hall.
  destruct (Hall p ltac:(left)) as [a Ha]. destruct (iv_act _ _ _ _ _ _ _ I p a Ha) as (_ & Hin & _). apply elem_of_Permutation in Hin as [L' HL].
  assert (0 < asz) as Hasz by (destruct (align8_spec sizeof_action) as [? _]; unfold W32 in *; lia).
  destruct (heap_free_spec (is_cpu w) (is_heap w) L' p asz (iv_cpu _ _ _ _ _ _ _ I)) as (h & E & Hh & _); [by eapply heap_inv_perm; [|exact (iv_heap _ _ _ _ _ _ _ I)]|done|].
  assert (drop_action q p w = Ok (dropped p q h w)) as -> by (unfold drop_action, i_kfree; simpl; by rewrite E). cbn [mbind res_bind].
  symmetry in HL. assert (inv M L' (dropped p q h w)) as I1 by (eapply inv_dropped; try done; rewrite Hk; left).
  assert (is_descs (dropped p q h w) !! q = Some (with_action (filter (fun x => x <> p)) d)) as Hd1 by (simpl; by rewrite lookup_alter_eq, Hd).
  assert (filter (fun x => x <> p) (p :: k) = k) as Hf by (exact (filter_ne_split [] k p Hnd)).
  destruct (IH M L' (dropped p q h w) _ I1 Hl Hq Hd1) as (L2 & w2 & -> & I2 & S2 & X2 & E1 & E2 & E3 & E4 & Hd2 & Hh2 & Ho2); [simpl; by rewrite Hk|].
  exists L2, w2. split_and!; try done; [rewrite <- HL, <- S2; done|intros x Hx; rewrite (X2 x Hx); simpl; by rewrite lookup_alter_ne|].
  intros u Hu. rewrite (Ho2 u Hu). subst q. destruct (drop_action_spec M L w p (l - desc_radix) d [] k v l I Hl eq_refl Hd Hk) as (_ & w3 & E5 & _ & _ & _ & _ & Ho).
  unfold drop_action, i_kfree in E5. simpl in E5. rewrite E in E5. injection E5 as <-. exact (Ho u Hu).
Qed.

(** The blocks of a number: its descriptor and the handlers registered on it. *)
Definition blocks (M : gmap Z Z) (w : isys) (v : Z) : list (Z * Z) :=
  match M !! v with
  | Some l => (l - desc_radix, mrt_num_align8 sizeof_desc) :: map (fun a => (a, asz)) (from_option de_action [] (is_descs w !! (l - desc_radix)))
  | None => []
  end.
(** The numbers of the lines [idx], [idx + 1], ... of a controller. *)
Definition numbers (w : isys) (p idx : Z) (n : nat) : list Z := omap (line w p) (seqZ idx (Z.of_nat n)).

(** What releasing leaves of the numbers [vs]: their blocks are free, the tree and
    the bitmap do not know them, and all the other numbers are as they were.  (The
    bitmap functions do not reach the last bit, and no number is taken there.) *)
Definition released (vs : list Z) (M M' : gmap Z Z) (L L' : list (Z * Z)) (w w' : isys) : Prop :=
  (vs ≫= blocks M w) ++ L' ≡ₚ L /\
  (forall u, u ∈ vs -> M' !! u = None /\ (u < FWK_IRQ_DESC_MAX - 1 -> bit_at (is_bitmap w') u = false)) /\
  (forall u, u ∉ vs -> M' !! u = M !! u /\ blocks M' w' u = blocks M w u /\ handlers M' w' u = handlers M w u) /\
  (forall u, 0 <= u < FWK_IRQ_DESC_MAX -> u ∉ vs -> bit_at (is_bitmap w') u = bit_at (is_bitmap w) u).

Lemma released_nil M L w : released [] M M L L w w.
Proof using Type. split_and!; try done; by intros u Hu%elem_of_nil. Qed.
Lemma released_app vs vs' M M1 M2 L L1 L2 w w1 w2 : released vs M M1 L L1 w w1 -> released vs' M1 M2 L1 L2 w1 w2 ->
  (forall u, u ∈ vs -> 0 <= u < FWK_IRQ_DESC_MAX /\ u ∉ vs') -> released (vs ++ vs') M M2 L L2 w w2.
Proof using Type.
  clear desc_size action_size. intros (P & F & O & B) (P' & F' & O' & B') Hd. split_and!.
  - rewrite bind_app, <- P, <- P', app_assoc. apply Permutation_app; [|done]. apply Permutation_app; [done|].
    assert (forall u, u ∈ vs' -> blocks M1 w1 u = blocks M w u) as Hb by (intros u Hu; apply O; intros Hv; by apply (Hd u Hv)).
    clear -Hb. induction vs' as [|v vs' IH]; [done|]. cbn. rewrite (Hb v) by left. apply Permutation_app; [done|]. apply IH. intros u Hu. apply Hb. by right.
  - intros u Hu. destruct (decide (u ∈ vs')) as [Hu'|Hu']; [by apply F'|]. apply elem_of_app in Hu as [Hu|Hu]; [|done].
    destruct (F u Hu) as [E Eb], (O' u Hu') as [-> _]. split; [done|]. rewrite (B' u) by (done || apply (Hd u Hu)). done.
  - intros u [Hu Hu']%not_elem_of_app. destruct (O u Hu) as (<- & <- & <-). by apply O'.
  - intros u Hr [Hu Hu']%not_elem_of_app. rewrite (B' u Hr Hu'). by apply B.
Qed.
Lemma numbers_cons w p idx n : numbers w p idx (S n) = option_list (line w p idx) ++ numbers w p (idx + 1) n.
Proof using Type. unfold numbers. rewrite seqZ_cons by lia. cbn. replace (Z.succ idx) with (idx + 1) by lia. replace (Z.pred (Z.of_nat (S n))) with (Z.of_nat n) by lia. by destruct (line w p idx). Qed.
Lemma elem_of_numbers w p idx n u : u ∈ numbers w p idx n <-> exists k, idx <= k < idx + Z.of_nat n /\ line w p k = Some u.
Proof using Type. unfold numbers. rewrite list_elem_of_omap. by setoid_rewrite elem_of_seqZ. Qed.

(** The state once number [v] of line [h] is gone; [w] has no actions for it. *)
Lemma inv_release M L L' w p dm h v l d bm t hp : inv M L w -> is_domains w !! p = Some dm -> dm_revmap dm !! Z.to_nat h = Some v -> 0 <= h -> 0 <= v ->
  M !! v = Some l -> is_descs w !! (l - desc_radix) = Some d -> de_action d = [] -> (l - desc_radix, mrt_num_align8 sizeof_desc) :: L' ≡ₚ L -> heap_inv hp L' ->
  bytes_ok bm -> len bm = 128 -> (forall u, 0 <= u < 1024 -> u <> v -> bit_at bm u = bit_at (is_bitmap w) u) -> radix_rep root t (delete v M) ->
  inv (delete v M) L' (put_domains (<[p := with_revmap (<[Z.to_nat h := -1]> (dm_revmap dm)) dm]> (is_domains w))
    (put_descs (delete (l - desc_radix) (is_descs w)) (put_cpu_heap (is_cpu w) hp (put_tree t (put_bitmap bm w))))).
Proof.
  intros I Hp Hh Hh0 Hv Hl Hd Hact HL Hheap Hbm Hbl Hbits Ht.
  assert (forall b, b ∈ L -> b <> (l - desc_radix, mrt_num_align8 sizeof_desc) -> b ∈ L') as Hkeep.
  { intros b Hb Hne. rewrite <- HL in Hb. by apply elem_of_cons in Hb as [?|?]. }
  assert (forall u l', delete v M !! u = Some l' -> u <> v /\ M !! u = Some l' /\ l' - desc_radix <> l - desc_radix) as Hother.
  { intros u l' [Hu Hl']%lookup_delete_Some. split_and!; [done..|]. intros E. apply Hu. eapply (iv_inj _ _ _ _ _ _ _ I); [exact Hl|]. by replace l with l' by lia. }
  destruct (iv_dom _ _ _ _ _ _ _ I p dm Hp) as (Hpv & Hlen & Hmax & Hall).
  assert (forall q dm' k u, is_domains w !! q = Some dm' -> dm_revmap dm' !! k = Some u -> 0 <= u -> (q, k) <> (p, Z.to_nat h) -> bit_at bm u = true /\
    exists l' e, delete v M !! u = Some l' /\ delete (l - desc_radix) (is_descs w) !! (l' - desc_radix) = Some e /\ points (de_data e) u (Z.of_nat k) q /\ chip_ok dummy_chip (id_chip (de_data e)) w) as Hmap.
  { intros q dm' k u Hq Hk Hu Hne. destruct (iv_map _ _ _ _ _ _ _ I q dm' k u Hq Hk Hu) as (Hb & l' & e & Hl' & He & Hpt & Hc).
    assert (u <> v) as Huv.
    { intros ->. apply Hne. destruct (iv_map _ _ _ _ _ _ _ I p dm _ v Hp Hh Hv) as (_ & l2 & e2 & Hl2 & He2 & (_ & P1 & P2) & _).
      destruct Hpt as (_ & Q1 & Q2). simplify_eq. f_equal. rewrite P1 in Q1. lia. }
    assert (0 <= u < 1024) as Hur. { destruct (iv_dom _ _ _ _ _ _ _ I q dm' Hq) as (_ & _ & _ & Ha). pose proof (Forall_lookup_1 _ _ _ _ Ha Hk) as Hr. unfold FWK_IRQ_DESC_MAX in Hr. simpl in Hr. lia. }
    rewrite Hbits by done. split; [done|]. exists l', e. rewrite lookup_delete_ne by done. split_and!; try done.
    rewrite lookup_delete_ne; [done|]. intros E. apply Huv. eapply (iv_inj _ _ _ _ _ _ _ I); [exact Hl'|]. by replace l' with l by lia. }
  split; try apply I; try done.
  - intros u l' Hl'. destruct (Hother u l' Hl') as (_ & Hl2 & Hne). simpl. rewrite lookup_delete_ne by done. exact (iv_entry _ _ _ _ _ _ _ I u l' Hl2).
  - intros u u' l' (_ & H1 & _)%Hother (_ & H2 & _)%Hother. exact (iv_inj _ _ _ _ _ _ _ I u u' l' H1 H2).
  - intros x e. simpl. intros [Hx He]%lookup_delete_Some. destruct (iv_desc _ _ _ _ _ _ _ I x e He) as (? & ? & ? & ?). split_and!; try done. apply Hkeep; [done|]. intros [= E]. by apply Hx.
  - intros x a Ha. simpl in Ha. destruct (iv_act _ _ _ _ _ _ _ I x a Ha) as (? & ? & ? & ?). split_and!; try done. apply Hkeep; [done|]. intros [= E _]. subst x.
    by rewrite (iv_apart _ _ _ _ _ _ _ I (l - desc_radix) ltac:(by eexists)) in Ha.
  - intros p1 p2 d1 d2 y. simpl. intros [_ H1]%lookup_delete_Some [_ H2]%lookup_delete_Some. exact (iv_own _ _ _ _ _ _ _ I p1 p2 d1 d2 y H1 H2).
  - intros x [e He]. simpl in He. apply lookup_delete_Some in He as [_ He]. apply (iv_apart _ _ _ _ _ _ _ I). eauto.
  - intros q dm'. simpl. intros [[<- <-]|[_ Hq]]%lookup_insert_Some; [|exact (iv_dom _ _ _ _ _ _ _ I q dm' Hq)]. split_and!; try done; simpl.
    + unfold len in *. by rewrite length_insert.
    + by apply Forall_insert.
  - intros q dm' k u. simpl. intros [[<- <-]|[Hq Hdm]]%lookup_insert_Some Hk Hu; [|apply (Hmap q dm' k u Hdm Hk Hu); congruence].
    simpl in Hk. apply list_lookup_insert_Some in Hk as [(_ & <- & _)|[Hne Hk]]; [done|]. apply (Hmap p dm k u Hp Hk Hu). congruence.
Qed.

Lemma release_line M L w p dm h v : inv M L w -> is_domains w !! p = Some dm -> 0 <= h < dm_hwirq_max dm -> line w p h = Some v ->
  exists L' w1 w2, fwk_irq_desc_free root v w = Ok w1 /\ set_revmap p h (-1) w1 = Ok w2 /\ inv (delete v M) L' w2 /\ released [v] M (delete v M) L L' w w2 /\ is_links w2 = is_links w /\
    is_domains w2 = <[p := with_revmap (<[Z.to_nat h := -1]> (dm_revmap dm)) dm]> (is_domains w).
Proof using desc_size action_size.
  intros I Hp Hh Hline. destruct (line_spec _ _ _ _ M L w p h v I Hline) as (Hv & _ & l & d & Hl & Hd & (Hirq & _) & _). destruct (iv_dom _ _ _ _ _ _ _ I p dm Hp) as (_ & Hlen & _).
  assert (is_u32 v) as Hv32 by (unfold FWK_IRQ_DESC_MAX, is_u32, W32 in *; lia). destruct (iv_bits _ _ _ _ _ _ _ I) as [Hby Hbl].
  assert (dm_revmap dm !! Z.to_nat h = Some v) as Hrev.
  { unfold line in Hline. rewrite Hp in Hline. destruct (dm_revmap dm !! Z.to_nat h) as [u|]; [|done]. destruct (0 <=? u); congruence. }
  unfold fwk_irq_desc_free. rewrite (to_desc_spec _ _ _ _ M L w v I), (u32_id v Hv32), Hl. cbn [mbind res_bind]. rewrite Hd. cbn [deref mbind res_bind]. rewrite Hirq.
  assert (exists bm, bitmap_set_nr_bit_zero (is_bitmap w) v FWK_IRQ_DESC_MAX 1 = Ok bm /\ bytes_ok bm /\ len bm = 128 /\ (v < 1023 -> bit_at bm v = false) /\ forall u, 0 <= u < 1024 -> u <> v -> bit_at bm u = bit_at (is_bitmap w) u)
    as (bm & -> & Hbm & Hbml & Hclr & Hbits).
  { unfold bitmap_set_nr_bit_zero, bitmap_set_nr_bit, FWK_IRQ_DESC_MAX in *. rewrite u32_id by (unfold is_u32, W32; lia). destruct (Z.leb_spec 1024 (v + 1)) as [?|Hlt]; [exists (is_bitmap w); split_and!; try done; lia|].
    destruct (write_bits_spec false (Z.to_nat (v + 1 - v)) (is_bitmap w) v Hby) as (bm & -> & ? & ? & Hb); [lia..|]. exists bm.
    split_and!; try done; [congruence|intros _|intros u Hu Hne]; rewrite Hb by (unfold bit_in; lia); [by rewrite decide_True by lia|by rewrite decide_False by lia]. }
  cbn [mbind res_bind]. set (w0 := put_bitmap bm w).
  assert (fwk_irq_to_desc root v w0 = Ok (l - desc_radix)) as Etd by (change (fwk_irq_to_desc root v w0) with (fwk_irq_to_desc root v w); by rewrite (to_desc_spec _ _ _ _ M L w v I), (u32_id v Hv32), Hl).
  destruct (entry_valid _ _ _ _ desc_size M L w v l I Hl) as (_ & _ & Hval & _). unfold fwk_destroy_irq_action. rewrite Etd. cbn [mbind res_bind]. rewrite Hval.
  simpl is_descs. rewrite Hd. cbn [negb deref mbind res_bind].
  destruct (drop_actions_spec (l - desc_radix) v l (de_action d) M L w d I Hl eq_refl Hd eq_refl) as (L1 & w1 & E1 & I1 & S1 & Xd & Edm & Ebm & Etr & Eln & Hd1 & _ & Hoth).
  assert (forall k x, drop_actions k (l - desc_radix) (put_bitmap bm x) = (y ← drop_actions k (l - desc_radix) x; Ok (put_bitmap bm y))) as Hcomm.
  { clear. induction k as [|a k IH]; intros x; [done|]. cbn [drop_actions]. unfold drop_action, i_kfree. simpl is_cpu. simpl is_heap.
    destruct (heap_free (is_cpu x) (is_heap x) a) as [[c hh]| |]; cbn [mbind res_bind]; [|done..]. rewrite <- IH. done. }
  unfold w0. rewrite (Hcomm (de_action d) w), E1. cbn [mbind res_bind]. simpl is_tree.
  destruct (radix_tree_del_spec root (is_tree w1) M v (iv_tree _ _ _ _ _ _ _ I1) Hv32) as (t & -> & Ht & _). cbn [mbind res_bind].
  destruct (iv_desc _ _ _ _ _ _ _ I1 _ _ Hd1) as (_ & Hin & _). apply elem_of_Permutation in Hin as [L' HL].
  assert (0 < mrt_num_align8 sizeof_desc) as Hdsz by (destruct (align8_spec sizeof_desc) as [? _]; unfold W32 in *; lia).
  destruct (heap_free_spec (is_cpu w1) (is_heap w1) L' _ _ (iv_cpu _ _ _ _ _ _ _ I1) (heap_inv_perm _ _ _ HL (iv_heap _ _ _ _ _ _ _ I1)) Hdsz) as (hp & E2 & Hhp & _).
  unfold i_kfree. simpl is_cpu. simpl is_heap. rewrite E2. cbn [mbind res_bind]. eexists L', _, _. split; [done|].
  unfold set_revmap. simpl is_domains. rewrite Edm, Hp. cbn [deref mbind res_bind]. rewrite (proj2 (Z.ltb_lt h _)) by lia. split; [done|].
  symmetry in HL. split; [|split; [|done]].
  { rewrite <- Edm. rewrite <- Edm in Hp. apply (inv_release M L1 L' w1 p dm h v l (with_action (fun _ => []) d) bm t hp); try done; try lia. by rewrite Ebm. }
  assert (forall u k, u <> v -> M !! u = Some k -> k - desc_radix <> l - desc_radix) as Hfar.
  { intros u k Hu Hk E. apply Hu. eapply (iv_inj _ _ _ _ _ _ _ I); [exact Hk|]. by replace k with l by lia. }
  split_and!.
  - cbn. unfold blocks. rewrite Hl, Hd, app_nil_r. cbn. rewrite <- S1, <- HL. by rewrite Permutation_middle.
  - intros u ->%list_elem_of_singleton. by rewrite lookup_delete_eq.
  - intros u Hu%not_elem_of_cons. destruct Hu as [Hu _]. unfold blocks. rewrite <- (Hoth u Hu). unfold handlers. rewrite lookup_delete_ne by done.
    destruct (M !! u) as [k|] eqn:Hk; [|done]. simpl. pose proof (Hfar u k Hu Hk). rewrite lookup_delete_ne by done. by rewrite Xd.
  - intros u Hr [Hu _]%not_elem_of_cons. by apply Hbits.
Qed.

Lemma line_cleared (w w2 : isys) p dm h0 : is_domains w !! p = Some dm -> 0 <= h0 < len (dm_revmap dm) ->
  is_domains w2 = <[p := with_revmap (<[Z.to_nat h0 := -1]> (dm_revmap dm)) dm]> (is_domains w) ->
  forall q k, 0 <= k -> line w2 q k = if decide (q = p /\ k = h0) then None else line w q k.
Proof using Type.
  clear desc_size action_size. intros Hp Hh0 E q k Hk. unfold line. rewrite E. destruct (decide (q = p)) as [->|Hne].
  - rewrite lookup_insert_eq, Hp. simpl. destruct (decide (k = h0)) as [->|Hkne].
    + rewrite list_lookup_insert_eq by (unfold len in *; lia). by rewrite decide_True by done.
    + rewrite list_lookup_insert_ne by lia. by rewrite decide_False by tauto.
  - rewrite lookup_insert_ne by done. by rewrite decide_False by tauto.
Qed.
Lemma free_lines_spec n : forall M L w p dm idx, inv M L w -> is_domains w !! p = Some dm -> 0 <= idx -> idx + Z.of_nat n <= dm_hwirq_max dm ->
  exists M' L' w', free_lines root n p idx w = Ok w' /\ inv M' L' w' /\ released (numbers w p idx n) M M' L L' w w' /\ is_links w' = is_links w /\ same_domains w w' /\
    (forall q k, 0 <= k -> line w' q k = if decide (q = p /\ idx <= k < idx + Z.of_nat n) then None else line w q k).
Proof using desc_size action_size.
  induction n as [|n IH]; intros M L w p dm idx I Hp Hi Hn; cbn [free_lines].
  { exists M, L, w. split_and!; try done; [apply released_nil|]. intros q k Hk. by rewrite decide_False by lia. }
  destruct (iv_dom _ _ _ _ _ _ _ I p dm Hp) as (_ & Hlen & _).
  destruct (get_revmap_spec _ _ _ _ M L w p (dm_hwirq_max dm) idx I) as (v & -> & El); [by rewrite Hp|lia|]. cbn [mbind res_bind].
  assert (exists M1 L1 w1 dm1, (if v <? 0 then Ok w else w ← fwk_irq_desc_free root v w; set_revmap p idx (-1) w) = Ok w1 /\ inv M1 L1 w1 /\ released (option_list (line w p idx)) M M1 L L1 w w1 /\ is_links w1 = is_links w /\
    same_domains w w1 /\ is_domains w1 !! p = Some dm1 /\ dm_hwirq_max dm1 = dm_hwirq_max dm /\
    (forall q k, 0 <= k -> line w1 q k = if decide (q = p /\ k = idx) then None else line w q k)) as (M1 & L1 & w1 & dm1 & -> & I1 & S1 & E1 & D1 & Hp1 & Hm1 & Hl1).
  { destruct (Z.ltb_spec v 0) as [Hneg|Hpos].
    - rewrite (proj2 (Z.leb_gt 0 v)) in El by lia. exists M, L, w, dm. rewrite El. split_and!; try done; [apply released_nil|]. intros q k Hk. case_decide as Hq; [by destruct Hq as [-> ->]|done].
    - rewrite (proj2 (Z.leb_le 0 v)) in El by lia. destruct (release_line M L w p dm idx v I Hp ltac:(lia) El) as (L1 & wa & w1 & -> & E & I1 & S1 & E1 & Ed).
      cbn [mbind res_bind]. exists (delete v M), L1, w1, (with_revmap (<[Z.to_nat idx := -1]> (dm_revmap dm)) dm). rewrite El. split_and!; try done.
      + intros q. rewrite Ed. destruct (decide (q = p)) as [->|]; [by rewrite lookup_insert_eq, Hp|by rewrite lookup_insert_ne].
      + by rewrite Ed, lookup_insert_eq.
      + apply (line_cleared w w1 p dm); [done|lia|done]. }
  cbn [mbind res_bind]. destruct (IH M1 L1 w1 p dm1 (idx + 1) I1 Hp1) as (M' & L' & w' & -> & I' & S' & E' & D' & Hl'); [lia|lia|].
  assert (numbers w1 p (idx + 1) n = numbers w p (idx + 1) n) as En.
  { apply list_omap_ext, Forall_Forall2_diag, Forall_forall. intros k Hk%elem_of_seqZ. rewrite (Hl1 p k) by lia. by rewrite decide_False by lia. }
  rewrite En in S'. exists M', L', w'. split_and!; try done; [|congruence|intros q; by rewrite (D' q), (D1 q)|].
  - rewrite numbers_cons. eapply released_app; [exact S1|exact S'|]. intros u Hu. rewrite elem_of_numbers. destruct (line w p idx) as [u'|] eqn:Ei; [|by apply elem_of_nil in Hu].
    apply list_elem_of_singleton in Hu as ->. split; [by apply (line_spec _ _ _ _ M L w p idx u' I)|]. intros (k & Hk & Ek). destruct (line_inj _ _ _ _ M L w p idx p k u' I); try done; lia.
  - intros q k Hk. rewrite (Hl' q k Hk), (Hl1 q k Hk).
    destruct (decide (q = p /\ idx + 1 <= k < _)), (decide (q = p /\ k = idx)), (decide (q = p /\ idx <= k < _)); try done; lia.
Qed.

(** C19: releasing a controller's interrupts returns; afterwards none of its lines
    has a number, the numbers are free again together with the blocks of their
    descriptors and handlers, and the lines and handlers of every other controller
    are as before. *)
Theorem irq_domain_released M L w p dm :
  inv M L w -> is_domains w !! p = Some dm ->
  exists M' L' w', fwk_irq_domain_free_irqs root p w = Ok w' /\ inv M' L' w' /\
    released (numbers w p 0 (Z.to_nat (dm_hwirq_max dm))) M M' L L' w w' /\
    (forall k, 0 <= k -> line w' p k = None) /\ (forall q k, 0 <= k -> q <> p -> line w' q k = line w q k).
Proof using desc_size action_size.
  intros I Hp. destruct (iv_dom _ _ _ _ _ _ _ I p dm Hp) as (_ & Hlen & _). assert (0 <= dm_hwirq_max dm) as Hpos by (unfold len in *; lia).
  unfold fwk_irq_domain_free_irqs. rewrite Hp. cbn [deref mbind res_bind].
  destruct (free_lines_spec (Z.to_nat (dm_hwirq_max dm)) M L w p dm 0 I Hp) as (M' & L' & w' & E & I' & S & _ & D & Hl); [lia|lia|].
  exists M', L', w'. split_and!; try done.
  - intros k Hk. rewrite (Hl p k Hk). case_decide as Hd; [done|]. unfold line. rewrite Hp, lookup_ge_None_2; [done|]. unfold len in *. lia.
  - intros q k Hk Hq. rewrite (Hl q k Hk). by rewrite decide_False by tauto.
Qed.
End actions.

(** ** The example: line 5 of a controller, mapped to number 0 *)
Definition demo_handler : Z := 4000.
Definition demo_request : res (Z * @isys kheap) := fwk_request_irq 40 32 16 900 0 demo_handler 0 (Some [107; 101; 121]) 7000 demo_mapped.
Lemma irq_request_registers_witness : exists M L q w', demo_request = Ok (ER_NORMAL, w') /\ irq_inv 80 40 32 16 M ((q, 40) :: L) w' /\
  handlers M w' 0 = handlers M demo_mapped 0 ++ [(4000, 7000)].
Proof.
  destruct demo_mapped_inv as (M & L & I & Hl).
  destruct (irq_request_registers 80 40 32 16 900 ltac:(lia) ltac:(lia) ltac:(lia) M L demo_mapped 8192 5 0 demo_handler 0 [107; 101; 121] 7000 I Hl ltac:(lia) ltac:(discriminate))
    as (r & w' & E & _ & Hcase).
  assert (match demo_request with Ok (r, _) => r | _ => 1 end = 0) as Hd by (vm_compute; reflexivity). unfold demo_request in Hd. rewrite E in Hd. rewrite Hd in *.
  destruct Hcase as [([Hc|[Hc|Hc]] & _)|(_ & (q & Iq) & Hh & _)]; [discriminate Hc..|]. exists M, L, q, w'. split; [exact E|]. split; [exact Iq|exact Hh].
Defined.
Lemma demo_mapped_first : first_dom (named gpc_text 5) demo_mapped [8192] = 8192.
Proof. vm_compute. reflexivity. Qed.
Lemma irq_line_runs_handlers_witness : exists M L, irq_inv 80 40 32 16 M L demo_mapped /\
  exec_irq_handler 32 64 (fun f a s => f :: s) false 512 37 demo_mapped [] = Ok (run_all (fun f a s => f :: s) [] (handlers M demo_mapped 0)).
Proof.
  destruct demo_mapped_inv as (M & L & I & Hl). exists M, L. split; [exact I|]. pose proof demo_mapped_dom_list as Hd.
  rewrite (irq_line_runs_handlers 80 40 32 16 64 ltac:(lia) (fun f a s => f :: s) false 512 [8192] M L demo_mapped 37 [] I Hd ltac:(simpl; lia) ltac:(lia)).
  cbv zeta. change (37 - 32) with 5. rewrite demo_mapped_first, Hl. reflexivity.
Defined.
Lemma demo_mapped_gcs : is_gcs demo_mapped = {[ 65680 := Generic 0 0 sgrt_fwk_irq_dummy_chip ]}.
Proof. vm_compute. reflexivity. Qed.
Lemma demo_mapped_switchable M : chip_switchable 16 M demo_mapped 0.
Proof.
  intros l d c _ _. unfold chip_at. destruct (_ =? 16); [intros [= <-]; left; discriminate|].
  destruct (is_gcs demo_mapped !! _) as [gc|] eqn:E; [|discriminate]. intros [= <-].
  assert (map_Forall (fun _ gc => irq_disable (gc_chip gc) <> None) (is_gcs demo_mapped)) as Hall.
  { rewrite demo_mapped_gcs. apply map_Forall_singleton. discriminate. }
  left. exact (Hall _ _ E).
Qed.
Lemma irq_free_unregisters_witness : exists w', fwk_free_irq 32 16 0 7000 demo_mapped = Ok w'.
Proof.
  destruct demo_mapped_inv as (M & L & I & Hl).
  destruct (irq_free_unregisters 80 40 32 16 ltac:(lia) ltac:(lia) M L demo_mapped 8192 5 0 7000 I Hl ltac:(lia) (demo_mapped_switchable M)) as (L' & w' & E & _).
  exists w'. exact E.
Defined.
Lemma irq_domain_released_witness : exists w', fwk_irq_domain_free_irqs 32 8192 demo_mapped = Ok w' /\ line w' 8192 5 = None.
Proof.
  destruct demo_mapped_inv as (M & L & I & _). destruct demo_mapped_domain as [dm Hdm].
  destruct (irq_domain_released 80 40 32 16 ltac:(lia) ltac:(lia) M L demo_mapped 8192 dm I Hdm) as (M' & L' & w' & E & _ & _ & Hl & _).
  exists w'. split; [exact E|]. apply Hl. lia.
Defined.
