(* ===== verification/Fdt.v ===== *)
(** * The device tree (platform/of/fwk_of.c: building)

    The boot loader hands the kernel a flattened device tree, a run of bytes.  Two
    passes turn it into linked nodes and properties: the first one measures (its
    nodes live in temporary blocks), the second one fills one block of that size.

    Names, property values and the flattened tree are bytes of memory; nodes and
    properties are records at their addresses, which lie in blocks of a kernel
    heap (HeapContract.v).  A block from [kzalloc] is zero, so a record begins
    with all fields zero.  [strlen], [strcmp] and [strcpy] are the C library's. *)

From Stdlib Require Import Strings.String Strings.Ascii.
From stdpp Require Import prelude gmap fin_maps sorting.
From S2P Require Import Prelude Mem Bytes MemPool MemOps Sync Generic KMalloc HeapContract.

(** The bytes of a string constant. *)
Definition lit (s : string) : list Z := List.map (fun c => Z.of_N (N_of_ascii c)) (list_ascii_of_string s).

Definition FDT_MAGIC_VERIFY : Z := 3490578157.               (* 0xd00dfeed *)
Definition FDT_NODE_START : Z := 1.
Definition FDT_NODE_END : Z := 2.
Definition FDT_NODE_PROP : Z := 3.
Definition FDT_NODE_NOP : Z := 4.
Definition FDT_ALL_NODE_START : Z := FDT_NODE_START.
Definition FDT_ALL_NODE_END : Z := 9.

(** ** Words and strings in memory *)

(** The tree's words are big-endian. *)
Definition fdt32 (m : mem) (p : Z) : Z := be32_to_cpu (ld32 m p).

Fixpoint strlen (fuel : nat) (m : mem) (p : Z) : res Z :=
  match fuel with
  | O => Spin
  | S fuel => if m p =? 0 then Ok 0 else n ← strlen fuel m (p + 1); Ok (n + 1)
  end.
Fixpoint strcmp (fuel : nat) (m : mem) (p q : Z) : res bool :=
  match fuel with
  | O => Spin
  | S fuel => if negb (m p =? m q) then Ok true else if m p =? 0 then Ok false else strcmp fuel m (p + 1) (q + 1)
  end.
(** [strcmp] with a string constant. *)
Fixpoint lit_differs (s : list Z) (m : mem) (q : Z) : bool :=
  match s with
  | [] => negb (m q =? 0)
  | c :: s => if negb (m q =? c) then true else lit_differs s m (q + 1)
  end.
Fixpoint strcpy (fuel : nat) (m : mem) (dst src : Z) : res mem :=
  match fuel with
  | O => Spin
  | S fuel => let m' := st m dst (m src) in if m src =? 0 then Ok m' else strcpy fuel m' (dst + 1) (src + 1)
  end.
Definition zero_bytes (m : mem) (p n : Z) : mem := fun a => if (p <=? a) && (a <? p + n) then 0 else m a.

(** ** Data *)
Record of_property := OfProp { pr_name : Z; pr_length : Z; pr_value : Z; pr_next : Z }.
Record device_node := DevNode {
  dn_name : Z; dn_type : Z; dn_phandle : Z; dn_full_name : Z; dn_properties : Z; dn_deadprops : Z;
  dn_parent : Z; dn_child : Z; dn_sibling : Z; dn_next : Z; dn_allnext : Z; dn_flags : Z; dn_data : Z;
}.
Definition sizeof_node : Z := 52.
Definition sizeof_prop : Z := 16.
Definition zero_node : device_node := DevNode 0 0 0 0 0 0 0 0 0 0 0 0 0.

Definition set_name v (d : device_node) := DevNode v (dn_type d) (dn_phandle d) (dn_full_name d) (dn_properties d) (dn_deadprops d) (dn_parent d) (dn_child d) (dn_sibling d) (dn_next d) (dn_allnext d) (dn_flags d) (dn_data d).
Definition set_type v (d : device_node) := DevNode (dn_name d) v (dn_phandle d) (dn_full_name d) (dn_properties d) (dn_deadprops d) (dn_parent d) (dn_child d) (dn_sibling d) (dn_next d) (dn_allnext d) (dn_flags d) (dn_data d).
Definition set_phandle v (d : device_node) := DevNode (dn_name d) (dn_type d) v (dn_full_name d) (dn_properties d) (dn_deadprops d) (dn_parent d) (dn_child d) (dn_sibling d) (dn_next d) (dn_allnext d) (dn_flags d) (dn_data d).
Definition set_full_name v (d : device_node) := DevNode (dn_name d) (dn_type d) (dn_phandle d) v (dn_properties d) (dn_deadprops d) (dn_parent d) (dn_child d) (dn_sibling d) (dn_next d) (dn_allnext d) (dn_flags d) (dn_data d).
Definition set_properties v (d : device_node) := DevNode (dn_name d) (dn_type d) (dn_phandle d) (dn_full_name d) v (dn_deadprops d) (dn_parent d) (dn_child d) (dn_sibling d) (dn_next d) (dn_allnext d) (dn_flags d) (dn_data d).
Definition set_parent v (d : device_node) := DevNode (dn_name d) (dn_type d) (dn_phandle d) (dn_full_name d) (dn_properties d) (dn_deadprops d) v (dn_child d) (dn_sibling d) (dn_next d) (dn_allnext d) (dn_flags d) (dn_data d).
Definition set_child v (d : device_node) := DevNode (dn_name d) (dn_type d) (dn_phandle d) (dn_full_name d) (dn_properties d) (dn_deadprops d) (dn_parent d) v (dn_sibling d) (dn_next d) (dn_allnext d) (dn_flags d) (dn_data d).
Definition set_sibling v (d : device_node) := DevNode (dn_name d) (dn_type d) (dn_phandle d) (dn_full_name d) (dn_properties d) (dn_deadprops d) (dn_parent d) (dn_child d) v (dn_next d) (dn_allnext d) (dn_flags d) (dn_data d).
Definition set_next v (d : device_node) := DevNode (dn_name d) (dn_type d) (dn_phandle d) (dn_full_name d) (dn_properties d) (dn_deadprops d) (dn_parent d) (dn_child d) (dn_sibling d) v (dn_allnext d) (dn_flags d) (dn_data d).
Definition set_allnext v (d : device_node) := DevNode (dn_name d) (dn_type d) (dn_phandle d) (dn_full_name d) (dn_properties d) (dn_deadprops d) (dn_parent d) (dn_child d) (dn_sibling d) (dn_next d) v (dn_flags d) (dn_data d).
Definition set_flags v (d : device_node) := DevNode (dn_name d) (dn_type d) (dn_phandle d) (dn_full_name d) (dn_properties d) (dn_deadprops d) (dn_parent d) (dn_child d) (dn_sibling d) (dn_next d) (dn_allnext d) v (dn_data d).
Definition set_data v (d : device_node) := DevNode (dn_name d) (dn_type d) (dn_phandle d) (dn_full_name d) (dn_properties d) (dn_deadprops d) (dn_parent d) (dn_child d) (dn_sibling d) (dn_next d) (dn_allnext d) (dn_flags d) v.

(** [void **allNext]: null, the head of the list of all nodes, or the field
    [allnext] of a node. *)
Inductive slot := SNull | SHead | SNext (node : Z).
Definition slot_valid (s : slot) : bool := match s with SNull => false | _ => true end.
(** [sprt_prev]: the field [properties] of a node or [sprt_next] of a property. *)
Inductive pslot := PNode (node : Z) | PProp (prop : Z).

Section fdt.
Context {H : Type} `{KernelHeap H}.
(** Addresses of the string constants that nodes and properties keep pointers to,
    and the fuel of the loops. *)
Context (lit_name lit_null : Z) (fuel : nat).

(** [ds_entry] is [ptr_fdt_memBuffer], [ds_allNodes] the head of all nodes. *)
Record dsys := DSys {
  ds_cpu : cpu; ds_heap : H; ds_mem : mem;
  ds_nodes : gmap Z device_node; ds_props : gmap Z of_property; ds_allNodes : Z; ds_entry : Z;
}.
Definition dput_heap (c : cpu) (h : H) (w : dsys) : dsys := DSys c h (ds_mem w) (ds_nodes w) (ds_props w) (ds_allNodes w) (ds_entry w).
Definition dput_mem (m : mem) (w : dsys) : dsys := DSys (ds_cpu w) (ds_heap w) m (ds_nodes w) (ds_props w) (ds_allNodes w) (ds_entry w).
Definition dput_nodes (n : gmap Z device_node) (w : dsys) : dsys := DSys (ds_cpu w) (ds_heap w) (ds_mem w) n (ds_props w) (ds_allNodes w) (ds_entry w).
Definition dput_props (p : gmap Z of_property) (w : dsys) : dsys := DSys (ds_cpu w) (ds_heap w) (ds_mem w) (ds_nodes w) p (ds_allNodes w) (ds_entry w).
Definition dput_all (a : Z) (w : dsys) : dsys := DSys (ds_cpu w) (ds_heap w) (ds_mem w) (ds_nodes w) (ds_props w) a (ds_entry w).
Definition dput_entry (e : Z) (w : dsys) : dsys := DSys (ds_cpu w) (ds_heap w) (ds_mem w) (ds_nodes w) (ds_props w) (ds_allNodes w) e.

Definition put_node (p : Z) (d : device_node) (w : dsys) : dsys := dput_nodes (<[p := d]> (ds_nodes w)) w.
Definition put_prop (p : Z) (d : of_property) (w : dsys) : dsys := dput_props (<[p := d]> (ds_props w)) w.
Definition upd_node (f : device_node -> device_node) (p : Z) (w : dsys) : res dsys :=
  d ← deref (ds_nodes w !! p); Ok (put_node p (f d) w).
Definition set_slot (s : slot) (v : Z) (w : dsys) : res dsys :=
  match s with
  | SNull => Fault
  | SHead => Ok (dput_all v w)
  | SNext p => upd_node (set_allnext v) p w
  end.
Definition set_pslot (s : pslot) (v : Z) (w : dsys) : res dsys :=
  match s with
  | PNode p => upd_node (set_properties v) p w
  | PProp p => d ← deref (ds_props w !! p); Ok (put_prop p (OfProp (pr_name d) (pr_length d) (pr_value d) v) w)
  end.

Definition d_kzalloc (size : Z) (w : dsys) : res (Z * dsys) :=
  '(q, c, h) ← heap_alloc (ds_cpu w) (ds_heap w) size (Z.lor GFP_KERNEL GFP_ZERO);
  Ok (q, if isValid q then dput_mem (zero_bytes (ds_mem w) q size) (dput_heap c h w) else dput_heap c h w).
(** The record of a freed node is gone. *)
Definition d_kfree (p : Z) (w : dsys) : res dsys :=
  '(c, h) ← heap_free (ds_cpu w) (ds_heap w) p;
  Ok (dput_nodes (delete p (ds_nodes w)) (dput_heap c h w)).

(** ** One property *)

(** The place of the next object of [size] bytes, and the end of it. *)
Definition fwk_fdt_memory_calculate (mem size align : Z) : Z * Z :=
  let mem := mrt_align mem align in (mem, u32 (mem + size)).
Definition fwk_fdt_memory_alloc (size align : Z) (w : dsys) : res (Z * dsys) := d_kzalloc (mrt_align size align) w.

(** [FDT_PTR_MOVE_BYTE] *)
Definition ptr_move_byte (ptr len : Z) : Z := mrt_align (u32 (ptr + len)) 4.

(** What a property says about its node. *)
Definition note_property (ptr_name ptr_value node : Z) (w : dsys) : res dsys :=
  if negb (lit_differs (lit "name") (ds_mem w) ptr_name) then upd_node (set_name ptr_value) node w
  else if negb (lit_differs (lit "device_type") (ds_mem w) ptr_name) then upd_node (set_type ptr_value) node w
  else if negb (lit_differs (lit "phandle") (ds_mem w) ptr_name) then upd_node (set_phandle (s32 (fdt32 (ds_mem w) ptr_value))) node w
  else Ok w.

(** Results: the property or null, then the updated [*ptr_offset], [*mem],
    [*has_name] and the state. *)
Definition fwk_fdt_populate_properties (blob ptr_move mem node : Z) (allNext : slot) (has_name : bool) (w : dsys) : res (Z * Z * Z * bool * dsys) :=
  let m := ds_mem w in
  if negb (fdt32 m ptr_move =? FDT_NODE_PROP) then Ok (nullptr, ptr_move, mem, has_name, w)
  else
    let ptr_move := u32 (ptr_move + 4) in
    let iPropLenth := fdt32 m ptr_move in
    let ptr_move := u32 (ptr_move + 4) in
    let iPropOffset := fdt32 m ptr_move in
    let ptr_move := u32 (ptr_move + 4) in
    let ptr_move := if fdt32 m (blob + 20) <? 16 then mrt_align ptr_move (if 8 <=? iPropLenth then 8 else 4) else ptr_move in
    let ptr_value := ptr_move in
    let ptr_str_start := u32 (blob + fdt32 m (blob + 12)) in
    let ptr_name := u32 (ptr_str_start + iPropOffset) in
    let has_name := if negb (lit_differs (lit "name") m ptr_name) then true else has_name in
    let '(sprt_prop, mem) := fwk_fdt_memory_calculate mem sizeof_prop 4 in
    w ← (if slot_valid allNext then
           note_property ptr_name ptr_value node (put_prop sprt_prop (OfProp ptr_name (s32 iPropLenth) ptr_value nullptr) w)
         else Ok w);
    Ok (sprt_prop, ptr_move_byte ptr_move iPropLenth, mem, has_name, w).

(** The only caller passes the name "name". *)
Definition fwk_fdt_add_string_properties (mem node value size : Z) (allNext : slot) (w : dsys) : res (Z * Z * dsys) :=
  let '(sprt_prop, mem) := fwk_fdt_memory_calculate mem (u32 (sizeof_prop + size)) 4 in
  w ← (if slot_valid allNext then
         let ptr := u32 (sprt_prop + sizeof_prop) in
         let w := put_prop sprt_prop (OfProp lit_name (s32 size) ptr nullptr) w in
         let '(m, _) := memcpy (ds_mem w) ptr value (u32 (size - 1)) in
         let w := dput_mem (st m (u32 (ptr + size - 1)) 0) w in
         upd_node (set_name ptr) node w
       else Ok w);
  Ok (sprt_prop, mem, w).

(** ** One node *)

(** The loop over the properties of a node. *)
Fixpoint populate_loop (n : nat) (blob ptr_move mem node : Z) (allNext : slot) (has_name : bool) (prev : pslot) (w : dsys) : res (Z * Z * bool * pslot * dsys) :=
  match n with
  | O => Spin
  | S n =>
      if fdt32 (ds_mem w) ptr_move =? FDT_NODE_NOP then populate_loop n blob (u32 (ptr_move + 4)) mem node allNext has_name prev w
      else
        '(sprt_prop, ptr_move, mem, has_name, w) ← fwk_fdt_populate_properties blob ptr_move mem node allNext has_name w;
        if negb (isValid sprt_prop) then Ok (ptr_move, mem, has_name, prev, w)
        else if slot_valid allNext then
          w ← set_pslot prev sprt_prop w; populate_loop n blob ptr_move mem node allNext has_name (PProp sprt_prop) w
        else populate_loop n blob ptr_move mem node allNext has_name prev w
  end.

(** [while ( *ptr_1 )]: the last slash and the last at-sign of a path. *)
Fixpoint scan_path (n : nat) (m : mem) (ptr_1 ptr_2 ptr_3 : Z) : res (Z * Z * Z) :=
  match n with
  | O => Spin
  | S n =>
      if m ptr_1 =? 0 then Ok (ptr_1, ptr_2, ptr_3)
      else
        let ptr_3 := if m ptr_1 =? 64 then ptr_1 else ptr_3 in
        let ptr_2 := if m ptr_1 =? 47 then u32 (ptr_1 + 1) else ptr_2 in
        scan_path n m (u32 (ptr_1 + 1)) ptr_2 ptr_3
  end.
(** A node without a property "name" gets one, made from its path. *)
Definition add_name (mem node : Z) (allNext : slot) (prev : pslot) (w : dsys) : res (Z * dsys) :=
  d ← deref (ds_nodes w !! node);
  '(ptr_1, ptr_2, ptr_3) ← scan_path fuel (ds_mem w) (dn_full_name d) (dn_full_name d) nullptr;
  let ptr_3 := if ptr_3 <? ptr_2 then ptr_1 else ptr_3 in
  '(sprt_prop, mem, w) ← fwk_fdt_add_string_properties mem node ptr_2 (u32 (ptr_3 + 1 - ptr_2)) allNext w;
  w ← (if isValid sprt_prop && slot_valid allNext then set_pslot prev sprt_prop w else Ok w);
  Ok (mem, w).

(** The full name: the path of the parent, a slash, the name ([new_format]); or
    the name itself, when it is a path. *)
Definition fill_full_name (node parent ptr_path ipathLenth : Z) (new_format : bool) (w : dsys) : res dsys :=
  let full_name := u32 (node + sizeof_node) in
  w ← upd_node (set_full_name full_name) node w;
  '(ptr_fullName, w) ←
    (if new_format then
       '(ptr, w) ←
         (if isValid parent then
            pd ← deref (ds_nodes w !! parent);
            if isValid (dn_parent pd) then
              m ← strcpy fuel (ds_mem w) full_name (dn_full_name pd);
              n ← strlen fuel m (dn_full_name pd);
              Ok (u32 (full_name + n), dput_mem m w)
            else Ok (full_name, w)
          else Ok (full_name, w));
       Ok (u32 (ptr + 1), dput_mem (st (ds_mem w) ptr 47) w)
     else Ok (full_name, w));
  let '(m, _) := memcpy (ds_mem w) ptr_fullName ptr_path ipathLenth in
  Ok (dput_mem m w).

(** The node becomes the last child of its parent. *)
Definition link_child (node parent : Z) (w : dsys) : res dsys :=
  pd ← deref (ds_nodes w !! parent);
  w ← (if negb (isValid (dn_next pd)) then upd_node (set_child node) parent w else upd_node (set_sibling node) (dn_next pd) w);
  upd_node (set_next node) parent w.

Definition default_names (node : Z) (w : dsys) : res dsys :=
  w ← upd_node (fun d => if dn_name d =? 0 then set_name lit_null d else d) node w;
  upd_node (fun d => if dn_type d =? 0 then set_type lit_null d else d) node w.

(** Results: the node or null, then [*ptr_offset], [*mem], [*allNext] and the
    state. *)
Definition fwk_fdt_populate_node (blob offset mem0 parent : Z) (allNext : slot) (w : dsys) : res (Z * Z * Z * slot * dsys) :=
  if negb (fdt32 (ds_mem w) offset =? FDT_NODE_START) then Ok (nullptr, offset, mem0, allNext, w)
  else
    let ptr_path := u32 (offset + 4) in
    len ← strlen fuel (ds_mem w) ptr_path;
    let new_format := negb (ds_mem w ptr_path =? 47) in
    '(iLenthNeed, ipathLenth, w) ←
      (if new_format then
         if negb (isValid parent) then Ok (2, 1, dput_mem (st (ds_mem w) ptr_path 0) w)
         else
           pd ← deref (ds_nodes w !! parent);
           plen ← strlen fuel (ds_mem w) (dn_full_name pd);
           Ok (u32 (u32 (len + 1) + 1 + plen), u32 (len + 1), w)
       else Ok (u32 (len + 1), u32 (len + 1), w));
    let '(place, mem) := fwk_fdt_memory_calculate mem0 (u32 (sizeof_node + iLenthNeed)) 4 in
    '(node, next, w) ←
      (if slot_valid allNext then
         w ← set_slot allNext place (put_node place zero_node w); Ok (place, SNext place, w)
       else
         '(q, w) ← d_kzalloc (u32 (sizeof_node + iLenthNeed)) w;
         Ok (q, SNull, if isValid q then put_node q zero_node w else w));
    if negb (slot_valid allNext) && negb (isValid node) then Ok (nullptr, offset, mem0, allNext, w)
    else
      w ← fill_full_name node parent ptr_path ipathLenth new_format w;
      w ← upd_node (fun d => set_phandle (-1) (set_parent parent d)) node w;
      w ← (if isValid parent && slot_valid next then link_child node parent w else Ok w);
      '(ptr_move, mem, has_name, prev, w) ← populate_loop fuel blob (ptr_move_byte ptr_path ipathLenth) mem node next false (PNode node) w;
      '(mem, w) ← (if negb has_name then add_name mem node next prev w else Ok (mem, w));
      w ← (if slot_valid next then default_names node w else Ok w);
      Ok (node, ptr_move, mem, next, w).

(** ** All nodes *)
Fixpoint free_parents (n : nat) (sprt_list : Z) (w : dsys) : res dsys :=
  match n with
  | O => Spin
  | S n =>
      if negb (isValid sprt_list) then Ok w
      else d ← deref (ds_nodes w !! sprt_list); w ← d_kfree sprt_list w; free_parents n (dn_parent d) w
  end.

Fixpoint unflatten_loop (n : nat) (blob ptr_move mem sprt_list : Z) (allNodes : slot) (w : dsys) : res (Z * dsys) :=
  match n with
  | O => Spin
  | S n =>
      let iTag := fdt32 (ds_mem w) ptr_move in
      if iTag =? FDT_NODE_NOP then unflatten_loop n blob (u32 (ptr_move + 4)) mem sprt_list allNodes w
      else if iTag =? FDT_NODE_END then
        '(sprt_list, w) ←
          (if isValid sprt_list then
             d ← deref (ds_nodes w !! sprt_list);
             w ← (if negb (slot_valid allNodes) then d_kfree sprt_list w else Ok w);
             Ok (dn_parent d, w)
           else Ok (sprt_list, w));
        unflatten_loop n blob (u32 (ptr_move + 4)) mem sprt_list allNodes w
      else if iTag =? FDT_ALL_NODE_END then Ok (mem, w)
      else
        '(sprt_node, ptr_move, mem, allNodes, w) ← fwk_fdt_populate_node blob ptr_move mem sprt_list allNodes w;
        if negb (isValid sprt_node) && negb (slot_valid allNodes) then w ← free_parents fuel sprt_list w; Ok (nullptr, w)
        else unflatten_loop n blob ptr_move mem sprt_node allNodes w
  end.

Definition fwk_unflatten_dt_nodes (blob ptr_mem ptr_start : Z) (allNext : slot) (w : dsys) : res (Z * dsys) :=
  if negb (isValid blob) then Ok (ptr_mem, w)
  else if negb (fdt32 (ds_mem w) ptr_start =? FDT_ALL_NODE_START) then Ok (ptr_mem, w)
  else unflatten_loop fuel blob ptr_start ptr_mem nullptr allNext w.

(** The magic number at the end is written and read back; nothing depends on it. *)
Definition __fwk_unflatten_device_tree (blob : Z) (w : dsys) : res dsys :=
  if negb (isValid blob) then Ok w
  else if negb (fdt32 (ds_mem w) blob =? FDT_MAGIC_VERIFY) then Ok w
  else
    let ptr_start := u32 (blob + fdt32 (ds_mem w) (blob + 8)) in
    '(size, w) ← fwk_unflatten_dt_nodes blob nullptr ptr_start SNull w;
    let size := mrt_align size 4 in
    if size =? 0 then Ok w
    else
      '(ptr_dt_mem, w) ← fwk_fdt_memory_alloc (u32 (size + 4)) 4 w;
      if negb (isValid ptr_dt_mem) then Ok w
      else
        let w := dput_mem (st32 (ds_mem w) (u32 (ptr_dt_mem + size)) (be32_to_cpu FDT_MAGIC_VERIFY)) w in
        let ptr_start := u32 (blob + fdt32 (ds_mem w) (blob + 8)) in
        '(_, w) ← fwk_unflatten_dt_nodes blob ptr_dt_mem ptr_start SHead w;
        Ok w.
Definition fwk_unflatten_device_tree (w : dsys) : res dsys := __fwk_unflatten_device_tree (ds_entry w) w.

Definition fwk_early_init_dt_params (ptr_dt : Z) (w : dsys) : dsys :=
  dput_all nullptr (if negb (isValid (ds_entry w)) then dput_entry ptr_dt w else w).
Definition fwk_early_init_dt_verify (ptr_dt : Z) (w : dsys) : bool := fdt32 (ds_mem w) ptr_dt =? FDT_MAGIC_VERIFY.
(** [base] is the field [sgrt_fdt.base] of the parameters at [ptr]. *)
Definition setup_machine_fdt (ptr base : Z) (w : dsys) : res dsys :=
  if negb (isValid ptr) then Ok w
  else if negb (isValid base) || negb (fwk_early_init_dt_verify base w) then Ok w
  else fwk_unflatten_device_tree (fwk_early_init_dt_params base w).
Definition destroy_machine_fdt (w : dsys) : res dsys :=
  if isValid (ds_allNodes w) then w ← d_kfree (ds_allNodes w) w; Ok (dput_all nullptr w) else Ok w.
End fdt.
