(* ===== verification/FdtSpec.v ===== *)
(** * Flattened trees and what one node becomes

    [dtree] is a device tree; [node_at] says that a range of memory holds it in
    flattened form, as the device-tree format defines it, with padding tags
    anywhere they are allowed.  [lay] is the memory a tree takes.  Then: the string
    functions, and one property and one node of the two passes. *)

From Stdlib Require Import Strings.String.
From stdpp Require Import prelude gmap fin_maps sorting.
From S2P Require Import Prelude Mem Bytes MemPool MemOps Sync Generic KMalloc HeapContract Fdt.

(** ** Arithmetic *)
Definition up4 (x : Z) : Z := (x + 3) / 4 * 4.
Lemma align4_up x : 0 <= x < W32 - 4 -> mrt_align x 4 = up4 x.
Proof.
  intros Hx. unfold mrt_align, up4. rewrite (u32_id (x + (4 - 1))) by lia. change (4 - 1) with (Z.ones 2) at 2. rewrite Z.ldiff_ones_r by lia.
  rewrite Z.shiftr_div_pow2, Z.shiftl_mul_pow2 by lia. change (2 ^ 2) with 4. replace (x + (4 - 1)) with (x + 3) by lia.
  pose proof (Z.div_mod (x + 3) 4). pose proof (Z.mod_pos_bound (x + 3) 4). rewrite u32_id; lia.
Qed.
Lemma up4_bounds x : x <= up4 x < x + 4 /\ (4 | up4 x).
Proof.
  unfold up4. pose proof (Z.div_mod (x + 3) 4). pose proof (Z.mod_pos_bound (x + 3) 4). split; [lia|]. by exists ((x + 3) / 4).
Qed.
Lemma up4_shift b x : (4 | b) -> up4 (b + x) = b + up4 x.
Proof. intros [k ->]. unfold up4. replace (k * 4 + x + 3) with (x + 3 + k * 4) by lia. rewrite Z.div_add by lia. lia. Qed.
Lemma up4_id x : (4 | x) -> up4 x = x.
Proof. intros [k ->]. unfold up4. rewrite Z.add_comm, Z.div_add by lia. change (3 / 4) with 0. lia. Qed.

Definition bytes_in (m : mem) (lo hi : Z) : Prop := forall a, lo <= a < hi -> byte (m a).
Lemma fdt32_agree m m' p : (forall a, p <= a < p + 4 -> m' a = m a) -> fdt32 m' p = fdt32 m p.
Proof. intros Ha. unfold fdt32, ld32. by rewrite !Ha by lia. Qed.
Lemma reverse_byte32_involutive v : 0 <= v < W32 -> reverse_byte32 (reverse_byte32 v) = v.
Proof.
  intros Hv. unfold reverse_byte32, W32 in *.
  pose proof (Z.mod_pos_bound v 256 ltac:(lia)). pose proof (Z.mod_pos_bound (v / 256) 256 ltac:(lia)).
  pose proof (Z.mod_pos_bound (v / 65536) 256 ltac:(lia)). pose proof (Z.mod_pos_bound (v / 16777216) 256 ltac:(lia)).
  set (a := v mod 256) in *. set (b := v / 256 mod 256) in *. set (c := v / 65536 mod 256) in *. set (d := v / 16777216 mod 256) in *.
  assert (v = a + 256 * b + 65536 * c + 16777216 * d) as E.
  { unfold a, b, c, d. change 65536 with (256 * 256). change 16777216 with (256 * 256 * 256). rewrite <- !Z.div_div by lia.
    pose proof (Z.div_mod v 256). pose proof (Z.div_mod (v / 256) 256). pose proof (Z.div_mod (v / 256 / 256) 256).
    rewrite (Z.mod_small (v / 256 / 256 / 256) 256); [lia|]. rewrite !Z.div_div by lia. split; [apply Z.div_pos; lia|]. apply Z.div_lt_upper_bound; lia. }
  set (r := a * 16777216 + b * 65536 + c * 256 + d).
  assert (r mod 256 = d) as -> by (unfold r; symmetry; apply Z.mod_unique_pos with (a * 65536 + b * 256 + c); lia).
  assert (r / 256 = a * 65536 + b * 256 + c) as -> by (unfold r; symmetry; apply Z.div_unique_pos with d; lia).
  assert (r / 65536 = a * 256 + b) as -> by (unfold r; symmetry; apply Z.div_unique_pos with (c * 256 + d); lia).
  assert (r / 16777216 = a) as -> by (unfold r; symmetry; apply Z.div_unique_pos with (b * 65536 + c * 256 + d); lia).
  rewrite (Z.mod_small a), <- (Z.mod_unique_pos (a * 65536 + b * 256 + c) 256 (a * 256 + b) c), <- (Z.mod_unique_pos (a * 256 + b) 256 a b) by lia. lia.
Qed.

(** ** Strings *)
Lemma strlen_spec m p s fuel : cstr m p s -> (length s < fuel)%nat -> strlen fuel m p = Ok (len s).
Proof.
  revert p fuel. induction s as [|c s IH]; intros p [|fuel] Hs Hf; simpl in *; try lia.
  - apply cstr_nil in Hs. by rewrite Hs.
  - apply cstr_cons in Hs as (Hx & Hc & Hs). unfold char in Hc. rewrite (proj2 (Z.eqb_neq _ _)) by lia. rewrite IH by (done || lia).
    cbn [mbind res_bind]. rewrite len_cons. f_equal. lia.
Qed.
Lemma lit_differs_spec s m q t : Forall char s -> cstr m q t -> lit_differs s m q = negb (bool_decide (t = s)).
Proof.
  revert q t. induction s as [|c s IH]; intros q [|d t] Hs Ht; simpl.
  - apply cstr_nil in Ht. by rewrite Ht.
  - apply cstr_cons in Ht as (Hx & Hc & _). unfold char in Hc. by rewrite (proj2 (Z.eqb_neq _ _)) by lia.
  - apply cstr_nil in Ht. apply Forall_cons in Hs as [Hc _]. unfold char in Hc. by rewrite Ht, (proj2 (Z.eqb_neq _ _)) by lia.
  - apply cstr_cons in Ht as (Hx & Hc & Ht). apply Forall_cons in Hs as [_ Hs]. rewrite Hx. destruct (Z.eqb_spec d c) as [->|Hne]; simpl.
    + rewrite (IH _ t Hs Ht). f_equal. apply bool_decide_ext. split; [by intros ->|by intros [= ?]].
    + rewrite bool_decide_false; [done|congruence].
Qed.
Lemma strcmp_spec m p s q t fuel : cstr m p s -> cstr m q t -> (length s < fuel)%nat -> strcmp fuel m p q = Ok (negb (bool_decide (s = t))).
Proof.
  revert p q t fuel. induction s as [|c s IH]; intros p q [|d t] [|fuel] Hs Ht Hf; simpl in *; try lia.
  - apply cstr_nil in Hs, Ht. by rewrite Hs, Ht.
  - apply cstr_nil in Hs. apply cstr_cons in Ht as (Hx & Hc & _). unfold char in Hc. by rewrite Hs, (proj2 (Z.eqb_neq _ _)) by lia.
  - apply cstr_nil in Ht. apply cstr_cons in Hs as (Hx & Hc & _). unfold char in Hc. by rewrite Ht, (proj2 (Z.eqb_neq _ _)) by lia.
  - apply cstr_cons in Hs as (Hx & Hc & Hs). apply cstr_cons in Ht as (Hy & _ & Ht). unfold char in Hc. rewrite Hx, Hy.
    destruct (Z.eqb_spec c d) as [->|Hne]; simpl; [|rewrite bool_decide_false; [done|congruence]].
    rewrite (proj2 (Z.eqb_neq _ _)) by lia. rewrite (IH _ _ t) by (done || lia). f_equal. f_equal. apply bool_decide_ext. split; [by intros ->|by intros [= ?]].
Qed.
Lemma strcpy_spec m p s fuel dst : cstr m p s -> (length s < fuel)%nat -> dst + len s < p \/ p + len s < dst ->
  strcpy fuel m dst p = Ok (st_list m dst (s ++ [0])).
Proof.
  revert m p fuel dst. induction s as [|c s IH]; intros m p [|fuel] dst Hs Hf Hd; simpl in *; try lia.
  - apply cstr_nil in Hs. by rewrite Hs.
  - pose proof Hs as (Hx & Hc & Hs')%cstr_cons. unfold char in Hc. rewrite len_cons in Hd. pose proof (len_nonneg s).
    rewrite (proj2 (Z.eqb_neq _ _)) by lia. rewrite Hx. apply IH; [|lia|lia]. eapply cstr_agree; [|exact Hs']. intros a Ha. apply st_ne. lia.
Qed.
(** [memcpy] of a known run. *)
Lemma memcpy_list m dst src l : 0 < dst -> 0 < src -> src + len l < W32 -> dst + len l <= src \/ src + len l <= dst ->
  Bytes.bytes_at m src l -> forall m', (memcpy m dst src (len l)).1 = m' ->
  (forall a, m' a = st_list m dst l a).
Proof.
  intros Hd Hs Hw Hap Hb m' <- a. unfold memcpy, kmemcpy. rewrite (proj2 (Z.eqb_neq dst 0)), (proj2 (Z.eqb_neq src 0)) by lia. cbn [orb].
  pose proof (len_nonneg l). rewrite copy_count_fits by lia. unfold len in *. rewrite Nat2Z.id. clear -Hb Hap.
  revert m dst src Hb Hap. induction l as [|x l IH]; intros m dst src Hb Hap; [done|]. destruct Hb as [Hx Hb]. cbn [length kmemcpy_loop st_list].
  rewrite Hx. cbn [length] in Hap. apply IH; [|lia]. eapply bytes_at_agree; [|exact Hb]. intros b Hbb. unfold len in Hbb. apply st_ne. lia.
Qed.

(** ** Trees and their flattened form *)
Record dprop := DProp { dp_name : list Z; dp_value : list Z }.
Inductive dtree := DTree (name : list Z) (props : list dprop) (children : list dtree).

Section dtree_ind.
Context (P : dtree -> Prop) (step : forall name props ch, Forall P ch -> P (DTree name props ch)).
Fixpoint dtree_nested_ind (t : dtree) : P t :=
  match t with
  | DTree name props ch =>
      step name props ch ((fix go (l : list dtree) : Forall P l := match l with [] => Forall_nil_2 _ | t :: l => Forall_cons_2 _ _ _ (dtree_nested_ind t) (go l) end) ch)
  end.
End dtree_ind.

Section format.
(** The flattened tree lies in [lo, hi); the names of properties start at [strs]. *)
Context (lo hi strs : Z).

Definition word_at (m : mem) (p v : Z) : Prop := lo <= p /\ p + 4 <= hi /\ fdt32 m p = v.
Definition text_at (m : mem) (p : Z) (s : list Z) : Prop := lo <= p /\ p + len s + 1 <= hi /\ cstr m p s.
Inductive nops (m : mem) : Z -> Z -> Prop :=
  | nops_end p : nops m p p
  | nops_tag p q : word_at m p FDT_NODE_NOP -> nops m (p + 4) q -> nops m p q.
Definition prop_at (m : mem) (x : dprop) (p q : Z) : Prop :=
  word_at m p FDT_NODE_PROP /\ word_at m (p + 4) (len (dp_value x)) /\
  (exists off, word_at m (p + 8) off /\ text_at m (strs + off) (dp_name x)) /\
  p + 12 + len (dp_value x) <= hi /\ Bytes.bytes_at m (p + 12) (dp_value x) /\ q = up4 (p + 12 + len (dp_value x)).
(** Padding may stand before every property and behind the last one. *)
Fixpoint props_at (m : mem) (l : list dprop) (p q : Z) : Prop :=
  match l with
  | [] => nops m p q /\ exists v, word_at m q v /\ v <> FDT_NODE_NOP /\ v <> FDT_NODE_PROP
  | x :: l => exists p1 p2, nops m p p1 /\ prop_at m x p1 p2 /\ props_at m l p2 q
  end.
Fixpoint node_at (m : mem) (t : dtree) (p q : Z) : Prop :=
  match t with
  | DTree name props ch =>
      word_at m p FDT_NODE_START /\ text_at m (p + 4) name /\
      exists r s, props_at m props (up4 (p + 4 + len name + 1)) r /\
        (fix forest_at (l : list dtree) (r : Z) : Prop :=
           match l with
           | [] => nops m r s
           | t :: l => exists r1 r2, nops m r r1 /\ node_at m t r1 r2 /\ forest_at l r2
           end) ch r /\
        word_at m s FDT_NODE_END /\ q = s + 4
  end.
Fixpoint forest_at (m : mem) (l : list dtree) (r s : Z) : Prop :=
  match l with
  | [] => nops m r s
  | t :: l => exists r1 r2, nops m r r1 /\ node_at m t r1 r2 /\ forest_at m l r2 s
  end.
Lemma node_at_eq m name props ch p q : node_at m (DTree name props ch) p q <->
  word_at m p FDT_NODE_START /\ text_at m (p + 4) name /\
  exists r s, props_at m props (up4 (p + 4 + len name + 1)) r /\ forest_at m ch r s /\ word_at m s FDT_NODE_END /\ q = s + 4.
Proof.
  assert (forall l r s, (fix forest_at (l : list dtree) (r : Z) : Prop :=
           match l with
           | [] => nops m r s
           | t :: l => exists r1 r2, nops m r r1 /\ node_at m t r1 r2 /\ forest_at l r2
           end) l r <-> forest_at m l r s) as E.
  { induction l as [|t l IH]; intros r s; [done|]. cbn. by setoid_rewrite IH. }
  cbn [node_at]. by setoid_rewrite E.
Qed.

(** Memory matters in [lo, hi) only. *)
Definition same_blob (m m' : mem) : Prop := agree (fun a => lo <= a < hi) m m'.
Lemma word_at_agree m m' p v : same_blob m m' -> word_at m p v -> word_at m' p v.
Proof. intros Ha (? & ? & <-). split_and!; try done. apply fdt32_agree. intros a ?. apply Ha. lia. Qed.
Lemma text_at_agree m m' p s : same_blob m m' -> text_at m p s -> text_at m' p s.
Proof. intros Ha (? & ? & Hs). split_and!; try done. eapply cstr_agree; [|exact Hs]. intros a ?. apply Ha. lia. Qed.
Lemma nops_agree m m' p q : same_blob m m' -> nops m p q -> nops m' p q.
Proof. intros Ha. induction 1; [constructor|]. econstructor; [by eapply word_at_agree|done]. Qed.
Lemma prop_at_agree m m' x p q : same_blob m m' -> prop_at m x p q -> prop_at m' x p q.
Proof.
  intros Ha (H1 & H2 & (off & H3 & H4) & H5 & H6 & ->). split_and!; [by eapply word_at_agree..| |done| |done].
  - exists off. split; [by eapply word_at_agree|by eapply text_at_agree].
  - eapply bytes_at_agree; [|exact H6]. intros a ?. destruct H1 as (? & _). apply Ha. lia.
Qed.
Lemma props_at_agree m m' l p q : same_blob m m' -> props_at m l p q -> props_at m' l p q.
Proof.
  intros Ha. revert p. induction l as [|x l IH]; intros p; simpl.
  - intros [Hn (v & Hv & ? & ?)]. split; [by eapply nops_agree|]. exists v. split; [by eapply word_at_agree|done].
  - intros (p1 & p2 & ? & ? & ?). exists p1, p2. split_and!; [by eapply nops_agree|by eapply prop_at_agree|by apply IH].
Qed.
Lemma forest_at_agree m m' l r s : same_blob m m' -> Forall (fun t => forall p q, node_at m t p q -> node_at m' t p q) l -> forest_at m l r s -> forest_at m' l r s.
Proof.
  intros Ha Hl. revert r. induction Hl as [|t l Ht Hl IH]; intros r; simpl; [by apply nops_agree|].
  intros (r1 & r2 & ? & ? & ?). exists r1, r2. split_and!; [by eapply nops_agree|by apply Ht|by apply IH].
Qed.
Lemma node_at_agree m m' t : same_blob m m' -> forall p q, node_at m t p q -> node_at m' t p q.
Proof.
  intros Ha. induction t as [name props ch IH] using dtree_nested_ind. intros p q. rewrite !node_at_eq.
  intros (? & ? & r & s & ? & ? & ? & ->). split; [by eapply word_at_agree|]. split; [by eapply text_at_agree|]. exists r, s.
  split_and!; [by eapply props_at_agree|by eapply forest_at_agree|by eapply word_at_agree|done].
Qed.
Lemma forest_agree m m' l r s : same_blob m m' -> forest_at m l r s -> forest_at m' l r s.
Proof. intros Ha. apply forest_at_agree; [done|]. apply Forall_forall. intros t _. by apply node_at_agree. Qed.

(** Positions grow and stay in the range. *)
Lemma nops_le m p q : nops m p q -> p <= q.
Proof. induction 1; lia. Qed.
Lemma prop_at_le m x p q : prop_at m x p q -> lo <= p /\ p + 12 + len (dp_value x) <= q.
Proof. intros ((? & _) & _ & _ & _ & _ & ->). pose proof (up4_bounds (p + 12 + len (dp_value x))). lia. Qed.
Lemma props_at_le m l p q : props_at m l p q -> p + 12 * Z.of_nat (length l) <= q /\ q + 4 <= hi.
Proof.
  revert p. induction l as [|x l IH]; intros p; simpl.
  - intros [Hn%nops_le (v & (? & ? & _) & _)]. lia.
  - intros (p1 & p2 & Hn%nops_le & Hx%prop_at_le & Hl%IH). pose proof (len_nonneg (dp_value x)). lia.
Qed.
Lemma forest_at_le m l : Forall (fun t => forall p q, node_at m t p q -> p + 8 <= q <= hi) l -> forall r s, forest_at m l r s -> r <= s.
Proof.
  induction 1 as [|t l Ht Hl IH]; intros r s; simpl; [by apply nops_le|].
  intros (r1 & r2 & Hn%nops_le & Hq%Ht & Hs%IH). lia.
Qed.
Lemma node_at_le m t : forall p q, node_at m t p q -> p + 8 <= q <= hi.
Proof.
  induction t as [name props ch IH] using dtree_nested_ind. intros p q. rewrite node_at_eq.
  intros (_ & _ & r & s & Hp%props_at_le & Hf%(forest_at_le m ch IH) & (? & ? & _) & ->).
  pose proof (up4_bounds (p + 4 + len name + 1)). pose proof (len_nonneg name). lia.
Qed.
Lemma forest_le m l r s : forest_at m l r s -> r <= s.
Proof. apply forest_at_le, Forall_forall. intros t _. apply node_at_le. Qed.
End format.

(** ** Names, paths and sizes *)

(** For a node: the path of its parent, and whether the parent is the root. *)
Definition place := option (list Z * bool).
Definition path_of (par : place) (name : list Z) : list Z :=
  match par with
  | None => [47]
  | Some (pp, true) => 47 :: name
  | Some (pp, false) => pp ++ 47 :: name
  end.
Definition below (par : place) (name : list Z) : place := Some (path_of par name, bool_decide (par = None)).
(** The bytes set aside for the path. *)
Definition path_room (par : place) (name : list Z) : Z :=
  match par with None => 2 | Some (pp, _) => len name + 2 + len pp end.

(** A name up to its last at-sign. *)
Fixpoint unit_name (name : list Z) : list Z :=
  match name with
  | [] => []
  | c :: name => if bool_decide (c = 64 /\ 64 ∉ name) then [] else c :: unit_name name
  end.
Definition has_name (props : list dprop) : bool := existsb (fun x => bool_decide (dp_name x = lit "name")) props.
(** The properties a node ends up with. *)
Definition full_props (name : list Z) (props : list dprop) : list dprop :=
  props ++ if has_name props then [] else [DProp (lit "name") (unit_name name ++ [0])].

Definition lay_prop (mem : Z) : Z := up4 mem + sizeof_prop.
Definition lay_own (par : place) (name : list Z) (props : list dprop) (mem : Z) : Z :=
  let mem := Nat.iter (length props) lay_prop (up4 mem + sizeof_node + path_room par name) in
  if has_name props then mem else lay_prop mem + len (unit_name name) + 1.
Fixpoint lay (par : place) (t : dtree) (mem : Z) : Z :=
  match t with
  | DTree name props ch => foldl (fun mem t => lay (below par name) t mem) (lay_own par name props mem) ch
  end.

(** The root has no name; other names have no slash. *)
Fixpoint names_ok (t : dtree) : Prop :=
  match t with
  | DTree name props ch => 47 ∉ name /\ (fix all l := match l with [] => True | t :: l => names_ok t /\ all l end) ch
  end.
Definition tree_ok (t : dtree) : Prop := names_ok t /\ match t with DTree name _ _ => name = [] end.

(** ** The path of a node *)
Lemma names_ok_eq name props ch : names_ok (DTree name props ch) <-> 47 ∉ name /\ Forall names_ok ch.
Proof.
  cbn [names_ok]. assert (forall l, (fix all l := match l with [] => True | t :: l => names_ok t /\ all l end) l <-> Forall names_ok l) as E.
  { induction l as [|t l IH]; [done|]. by rewrite Forall_cons, IH. }
  by rewrite E.
Qed.
Lemma path_of_char par name : Forall char name -> match par with Some (pp, _) => Forall char pp | None => True end -> Forall char (path_of par name).
Proof.
  intros Hn Hp. assert (char 47) as H47 by done. destruct par as [[pp [|]]|]; simpl; [by constructor| |repeat constructor; done].
  apply Forall_app. split; [done|]. by constructor.
Qed.
Lemma path_room_ok par name : len (path_of par name) + 1 <= path_room par name.
Proof.
  destruct par as [[pp [|]]|]; simpl; rewrite ?len_app, ?len_cons, ?len_nil; pose proof (len_nonneg name); try pose proof (len_nonneg pp); lia.
Qed.
Lemma bytes_cstr m p s : Forall char s -> Bytes.bytes_at m p (s ++ [0]) -> cstr m p s.
Proof. by split. Qed.

(** ** The name in a path *)
Lemma unit_name_prefix name : unit_name name `prefix_of` name.
Proof.
  induction name as [|c name IH]; simpl; [done|]. case_bool_decide; [apply prefix_nil|by apply prefix_cons].
Qed.
Lemma unit_name_plain name : 64 ∉ name -> unit_name name = name.
Proof.
  induction name as [|c name IH]; intros Hn; simpl; [done|]. apply not_elem_of_cons in Hn as [Hc Hn].
  rewrite bool_decide_false by (intros [-> _]; done). by rewrite IH.
Qed.
Lemma unit_name_len name : len (unit_name name) <= len name.
Proof. destruct (unit_name_prefix name) as [k E]. rewrite E at 2. rewrite len_app. pose proof (len_nonneg k). lia. Qed.
Lemma scan_name m p p2 p3 name n : cstr m p name -> 47 ∉ name -> (length name < n)%nat -> 0 <= p -> p + len name < W32 ->
  scan_path n m p p2 p3 = Ok (p + len name, p2, if decide (64 ∈ name) then p + len (unit_name name) else p3).
Proof.
  revert p p3 n. induction name as [|c name IH]; intros p p3 [|n] Hs Hz Hn Hp Hw; simpl in Hn; try lia; cbn [scan_path].
  - apply cstr_nil in Hs. rewrite Hs, len_nil, decide_False by apply not_elem_of_nil. by rewrite Z.add_0_r.
  - apply cstr_cons in Hs as (Hc & Hch & Hs). unfold char in Hch. apply not_elem_of_cons in Hz as [Hz1 Hz]. rewrite len_cons in *. pose proof (len_nonneg name).
    rewrite Hc. rewrite (proj2 (Z.eqb_neq c 0)), (proj2 (Z.eqb_neq c 47)) by lia. rewrite u32_id by lia. rewrite IH by (done || lia). replace (p + (1 + len name)) with (p + 1 + len name) by lia. apply (f_equal (fun x => Ok (p + 1 + len name, p2, x))).
    simpl unit_name. destruct (decide (64 ∈ name)) as [Hin|Hin].
    + rewrite bool_decide_false by tauto. rewrite decide_True by (by right). rewrite len_cons. lia.
    + destruct (Z.eqb_spec c 64) as [->|Hne].
      * rewrite bool_decide_true by done. rewrite decide_True by left. rewrite len_nil. lia.
      * rewrite decide_False; [done|]. intros [?|?]%elem_of_cons; [congruence|done].
Qed.
Lemma scan_prefix m pre : forall p p2 p3 s n, cstr m p (pre ++ s) -> 0 <= p -> p3 < p \/ p3 = 0 -> p + len pre < W32 -> (length pre <= n)%nat ->
  exists p2' p3', scan_path n m p p2 p3 = scan_path (n - length pre) m (p + len pre) p2' p3' /\ (p3' < p + len pre \/ p3' = 0).
Proof.
  induction pre as [|c pre IH]; intros p p2 p3 s n Hs Hp H3 Hw Hn.
  - exists p2, p3. rewrite len_nil. replace (p + 0) with p by lia. by replace (n - length (A := Z) [])%nat with n by (simpl; lia).
  - cbn [app] in Hs. apply cstr_cons in Hs as (Hc & Hch & Hs). unfold char in Hch. rewrite len_cons in *. pose proof (len_nonneg pre). destruct n as [|n]; [simpl in Hn; lia|].
    cbn [scan_path]. rewrite Hc, (proj2 (Z.eqb_neq c 0)) by lia. rewrite u32_id by lia. simpl in Hn.
    destruct (IH (p + 1) (if c =? 47 then p + 1 else p2) (if c =? 64 then p else p3) s n Hs) as (p2' & p3' & -> & H3'); [lia|destruct (c =? 64); lia|lia|lia|].
    exists p2', p3'. cbn [length Nat.sub]. by replace (p + (1 + len pre)) with (p + 1 + len pre) by lia.
Qed.
(** The name property made from a path: where its text starts and how long it is. *)
Lemma scan_path_spec m f par name n : cstr m f (path_of par name) -> 47 ∉ name -> (par = None -> name = []) ->
  (length (path_of par name) < n)%nat -> 0 < f -> f + len (path_of par name) < W32 ->
  let v := f + len (path_of par name) - len name in
  exists p1 p3, scan_path n m f f nullptr = Ok (p1, v, p3) /\ (if p3 <? v then p1 else p3) + 1 - v = len (unit_name name) + 1 /\
    f < v /\ Bytes.bytes_at m v (unit_name name).
Proof.
  intros Hs Hz Hroot Hn Hf Hw v. assert (exists pre, path_of par name = pre ++ 47 :: name) as (pre & E).
  { destruct par as [[pp [|]]|]; simpl; [by exists []|by exists pp|]. exists []. by rewrite (Hroot eq_refl). }
  assert (v = f + len pre + 1) as Ev by (unfold v; rewrite E, len_app, len_cons; lia). clearbody v. rewrite E in Hs, Hn, Hw. rewrite length_app in Hn. rewrite len_app, len_cons in Hw. pose proof (len_nonneg pre). pose proof (len_nonneg name). cbn [length] in Hn.
  destruct (scan_prefix m pre f f nullptr (47 :: name) n Hs) as (p2' & p3' & -> & H3); [lia|by right|lia|lia|].
  apply cstr_app in Hs as [_ Hs]. apply cstr_cons in Hs as (Hc & _ & Hs). destruct (n - length pre)%nat as [|k] eqn:Ek; [lia|]. cbn [scan_path].
  rewrite Hc. cbn [Z.eqb Pos.eqb]. rewrite u32_id by lia. rewrite (scan_name _ _ _ _ name) by (done || lia).
  rewrite Ev. eexists _, _. split; [done|]. split; [|split; [lia|]].
  - pose proof (len_nonneg (unit_name name)). destruct (decide (64 ∈ name)) as [Hin|Hin].
    + destruct (Z.ltb_spec (f + len pre + 1 + len (unit_name name)) (f + len pre + 1)); lia.
    + rewrite unit_name_plain by done. destruct (Z.ltb_spec p3' (f + len pre + 1)); lia.
  - destruct Hs as [Hs _]. apply bytes_at_app in Hs as [Hs _]. destruct (unit_name_prefix name) as [k' Hk]. rewrite Hk in Hs. by apply bytes_at_app in Hs as [Hs _].
Qed.

Section parts.
Context {H : Type} `{KernelHeap H}.
Context (lit_name lit_null : Z) (fuel : nat).
Local Notation dsys := (@dsys H).

Lemma upd_node_alter f p (w : dsys) d : ds_nodes w !! p = Some d -> upd_node f p w = Ok (dput_nodes (alter f p (ds_nodes w)) w).
Proof.
  intros Hd. unfold upd_node, put_node. rewrite Hd. cbn [deref mbind res_bind]. f_equal. f_equal. apply map_eq. intros i.
  destruct (decide (p = i)) as [->|Hne]; [by rewrite lookup_insert_eq, lookup_alter_eq, Hd|by rewrite lookup_insert_ne, lookup_alter_ne].
Qed.

(** The node that is to be the parent, with its path at a place that stays. *)
Definition parent_ok (K : Z -> Prop) (par : place) (parent : Z) (w : dsys) : Prop :=
  match par with
  | None => parent = 0
  | Some (pp, top) => isValid parent = true /\ exists pd, ds_nodes w !! parent = Some pd /\ isValid (dn_parent pd) = negb top /\
      cstr (ds_mem w) (dn_full_name pd) pp /\ (forall a, dn_full_name pd <= a <= dn_full_name pd + len pp -> K a) /\ (length pp < fuel)%nat
  end.

Lemma fill_full_name_spec par parent node ptr_path name d (w : dsys) :
  ds_nodes w !! node = Some d -> 0 < node -> node + sizeof_node + path_room par name < W32 -> 0 < ptr_path -> ptr_path + len name + 1 < W32 ->
  cstr (ds_mem w) ptr_path name -> (par = None -> name = []) -> (node <> parent) ->
  let a := node + sizeof_node in let K := fun x => x < a \/ a + path_room par name <= x in
  (forall x, ptr_path <= x <= ptr_path + len name -> K x) -> parent_ok K par parent w ->
  exists m', fill_full_name fuel node parent ptr_path (len name + 1) true w = Ok (dput_mem m' (dput_nodes (alter (set_full_name a) node (ds_nodes w)) w)) /\
    cstr m' a (path_of par name) /\ agree K (ds_mem w) m'.
Proof.
  intros Hd Hn Hw Hp Hpw Hname Hroot Hne a K HKn Hpar. pose proof (len_nonneg name) as Hlen. pose proof (path_room_ok par name) as Hroom.
  assert (u32 a = a) as Ea by (apply u32_id; unfold a, sizeof_node in *; pose proof (len_nonneg (path_of par name)); lia).
  unfold fill_full_name. rewrite (upd_node_alter _ _ w d Hd). cbn [mbind res_bind]. fold a. rewrite Ea.
  set (w1 := dput_nodes (alter (set_full_name a) node (ds_nodes w)) w).
  assert (exists pre m1, path_of par name = pre ++ 47 :: name /\
    (if isValid parent then pd ← deref (ds_nodes w1 !! parent); if isValid (dn_parent pd) then m ← strcpy fuel (ds_mem w1) a (dn_full_name pd); n ← strlen fuel m (dn_full_name pd); Ok (u32 (a + n), dput_mem m w1) else Ok (a, w1) else Ok (a, w1))
      = Ok (a + len pre, dput_mem m1 w1) /\ Bytes.bytes_at m1 a pre /\ agree K (ds_mem w) m1) as (pre & m1 & Epath & -> & Hpre & Hag1).
  { destruct par as [[pp top]|].
    2:{ simpl in Hpar. rewrite Hpar. exists [], (ds_mem w). rewrite (Hroot eq_refl). split; [done|]. split; [|by split].
        cbn [isValid Z.eqb negb andb]. f_equal. f_equal. rewrite len_nil. lia. }
    destruct Hpar as (Hv & pd & Hpd & Htop & Hpp & HK & Hf). rewrite Hv. simpl ds_nodes. rewrite lookup_alter_ne, Hpd by done. cbn [deref mbind res_bind]. rewrite Htop.
    destruct top; cbn [negb].
    { exists [], (ds_mem w). split; [done|]. split; [|by split]. f_equal. f_equal. rewrite len_nil. lia. }
    assert (a + len pp < dn_full_name pd \/ dn_full_name pd + len pp < a) as Hap.
    { simpl in Hroom. rewrite len_app, len_cons in Hroom. pose proof (len_nonneg pp). pose proof (HK (dn_full_name pd)). pose proof (HK (dn_full_name pd + len pp)). unfold K in *. simpl path_room in *.
      destruct (decide (dn_full_name pd + len pp < a)); [lia|]. destruct (decide (a + len pp < dn_full_name pd)); [lia|].
      destruct (decide (dn_full_name pd < a)); [specialize (HK a); unfold K in HK; simpl in HK; lia|lia]. }
    simpl ds_mem. rewrite (strcpy_spec _ _ pp) by done. cbn [mbind res_bind].
    assert (agree K (ds_mem w) (st_list (ds_mem w) a (pp ++ [0]))) as Hag.
    { intros x Hx. apply st_list_out. rewrite len_app, len_cons, len_nil. unfold K in Hx. simpl path_room in Hx. lia. }
    rewrite (strlen_spec _ _ pp) by (done || (eapply cstr_agree; [|exact Hpp]; intros x Hx; by apply Hag, HK)). cbn [mbind res_bind].
    exists pp. eexists. split; [done|]. split; [|split; [|exact Hag]].
    - f_equal. f_equal. apply u32_id. pose proof (len_nonneg pp). unfold sizeof_node in *. simpl path_room in *. lia.
    - pose proof (st_list_read (ds_mem w) a (pp ++ [0])) as Hr. by apply bytes_at_app in Hr as [Hr _]. }
  cbn [mbind res_bind]. simpl ds_mem. pose proof (len_nonneg pre) as Hlp. rewrite Epath, len_app, len_cons in Hroom.
  rewrite (u32_id (a + len pre + 1)) by (unfold a, sizeof_node in *; lia).
  set (m2 := st m1 (a + len pre) 47).
  assert (agree K m1 m2) as Hag2 by (intros x Hx; apply st_ne; unfold K in Hx; lia).
  assert (Bytes.bytes_at m2 ptr_path (name ++ [0])) as Hsrc.
  { eapply bytes_at_agree; [|exact (proj1 Hname)]. intros x Hx. rewrite len_app, len_cons, len_nil in Hx. rewrite Hag2, Hag1 by (apply HKn; lia). done. }
  destruct (memcpy m2 (a + len pre + 1) ptr_path (len name + 1)) as [m3 ret] eqn:E3.
  assert (forall x, m3 x = st_list m2 (a + len pre + 1) (name ++ [0]) x) as Hm3.
  { assert (len (name ++ [0]) = len name + 1) as El by (rewrite len_app, len_cons, len_nil; lia).
    apply (memcpy_list m2 (a + len pre + 1) ptr_path (name ++ [0])); rewrite ?El; try done; try (unfold a, sizeof_node in *; lia); [|by rewrite E3].
    pose proof (HKn ptr_path) as HK1. pose proof (HKn (ptr_path + len name)) as HK2. unfold K in HK1, HK2.
    destruct (decide (ptr_path < a)); [|lia]. destruct (decide (ptr_path + len name < a)); [lia|]. specialize (HKn a). unfold K in HKn. lia. }
  exists m3. split; [done|]. split.
  - rewrite Epath. apply bytes_cstr.
    + rewrite <- Epath. apply path_of_char; [apply Hname|]. destruct par as [[pp top]|]; [|done]. destruct Hpar as (_ & pd & _ & _ & Hpp & _). apply Hpp.
    + rewrite <- app_assoc. cbn [app]. apply bytes_at_app. split.
      * eapply bytes_at_agree; [|exact Hpre]. intros x Hx. rewrite Hm3, st_list_out by lia. unfold m2. apply st_ne. lia.
      * cbn [Bytes.bytes_at]. split; [rewrite Hm3, st_list_out by lia; apply st_eq|].
        eapply bytes_at_agree; [|apply (st_list_read m2 (a + len pre + 1))]. intros x Hx. apply Hm3.
  - intros x Hx. rewrite Hm3, st_list_out by (rewrite len_app, len_cons, len_nil; unfold K in Hx; lia). rewrite Hag2 by done. by apply Hag1.
Qed.

(** ** Properties *)
Context (lo hi strs : Z).
(** The header of the flattened tree, at its start. *)
Record header_ok (m : mem) : Prop := {
  ho_range : 0 < lo /\ hi <= W32 - 4096 /\ hi - lo < 2147483648;
  ho_version : exists v, word_at lo hi m (lo + 20) v /\ 16 <= v;
  ho_strings : word_at lo hi m (lo + 12) (strs - lo) /\ lo <= strs;
}.
Lemma header_agree m m' : same_blob lo hi m m' -> header_ok m -> header_ok m'.
Proof.
  intros Ha [Hr (v & Hv & H16) [Hs Hle]]. split; [done|exists v; split; [by eapply word_at_agree|done]|split; [by eapply word_at_agree|done]].
Qed.
Lemma fdt32_range m p : 0 <= fdt32 m p < W32.
Proof.
  unfold fdt32, be32_to_cpu, reverse_byte32, W32. set (v := ld32 m p).
  pose proof (Z.mod_pos_bound v 256 ltac:(lia)). pose proof (Z.mod_pos_bound (v / 256) 256 ltac:(lia)).
  pose proof (Z.mod_pos_bound (v / 65536) 256 ltac:(lia)). pose proof (Z.mod_pos_bound (v / 16777216) 256 ltac:(lia)). lia.
Qed.

Definition is_name (x : dprop) : bool := bool_decide (dp_name x = lit "name").
(** What a property whose value is at [vp] changes in its node. *)
Definition noted (m : mem) (x : dprop) (vp : Z) (d : device_node) : device_node :=
  if is_name x then set_name vp d
  else if bool_decide (dp_name x = lit "device_type") then set_type vp d
  else if bool_decide (dp_name x = lit "phandle") then set_phandle (s32 (fdt32 m vp)) d
  else d.
Lemma lit_char s : forallb (fun c => (0 <? c) && (c <? 256)) s = true -> Forall char s.
Proof. rewrite forallb_forall. intros Hs. apply Forall_forall. intros c Hc%list_elem_of_In. specialize (Hs c Hc). unfold char. lia. Qed.
Lemma note_property_spec x np vp node d (w : dsys) : cstr (ds_mem w) np (dp_name x) -> ds_nodes w !! node = Some d ->
  note_property np vp node w = Ok (dput_nodes (alter (noted (ds_mem w) x vp) node (ds_nodes w)) w).
Proof.
  intros Hn Hd. unfold note_property. rewrite (lit_differs_spec (lit "name") _ _ _ ltac:(by apply lit_char) Hn), (lit_differs_spec (lit "device_type") _ _ _ ltac:(by apply lit_char) Hn),
    (lit_differs_spec (lit "phandle") _ _ _ ltac:(by apply lit_char) Hn), !negb_involutive.
  assert (forall f g, (forall d, f d = g d) -> alter f node (ds_nodes w) = alter g node (ds_nodes w)) as Hext.
  { intros f g E. apply map_eq. intros i. destruct (decide (node = i)) as [->|]; [rewrite !lookup_alter_eq; destruct (ds_nodes w !! i); simpl; by rewrite ?E|by rewrite !lookup_alter_ne]. }
  unfold noted, is_name. repeat case_bool_decide; try (by rewrite (upd_node_alter _ _ w d Hd)).
  rewrite (Hext _ id) by done. rewrite alter_id by done. by destruct w.
Qed.

Lemma no_property p mem node sl has (w : dsys) v : word_at lo hi (ds_mem w) p v -> v <> FDT_NODE_PROP ->
  fwk_fdt_populate_properties lo p mem node sl has w = Ok (nullptr, p, mem, has, w).
Proof. intros (_ & _ & Hv) Hne. unfold fwk_fdt_populate_properties. by rewrite Hv, (proj2 (Z.eqb_neq v FDT_NODE_PROP) Hne). Qed.
Lemma one_property x p q mem node sl has (w : dsys) : header_ok (ds_mem w) -> prop_at lo hi strs (ds_mem w) x p q -> 0 <= mem -> lay_prop mem < W32 - 4 ->
  exists np, text_at lo hi (ds_mem w) np (dp_name x) /\
  fwk_fdt_populate_properties lo p mem node sl has w =
    (w ← (if slot_valid sl then note_property np (p + 12) node (put_prop (up4 mem) (OfProp np (len (dp_value x)) (p + 12) nullptr) w) else Ok w);
     Ok (up4 mem, q, lay_prop mem, is_name x || has, w)).
Proof.
  intros [(Hlo & Hhi & Hspan) (v & (_ & _ & Hv) & H16) ((_ & _ & Hs) & Hsl)] Hx Hm Hlay. destruct (prop_at_le _ _ _ _ _ _ _ Hx) as [Hp _].
  destruct Hx as ((_ & _ & H1) & (_ & _ & H2) & (off & (_ & _ & H3) & Ht) & Hend & Hb & ->). pose proof (len_nonneg (dp_value x)). destruct Ht as (Hn1 & Hn2 & Hn).
  pose proof (len_nonneg (dp_name x)). pose proof (fdt32_range (ds_mem w) (p + 8)). pose proof (up4_bounds mem) as [Hup _]. unfold lay_prop, sizeof_prop in *.
  exists (strs + off). split; [done|]. unfold fwk_fdt_populate_properties. rewrite H1. cbn [FDT_NODE_PROP Z.eqb Pos.eqb negb].
  rewrite !(u32_id (p + 4)) by lia. replace (p + 4 + 4) with (p + 8) by lia. rewrite !(u32_id (p + 8)) by lia. replace (p + 8 + 4) with (p + 12) by lia.
  rewrite (u32_id (p + 12)) by lia. rewrite H2, H3, Hv, (proj2 (Z.ltb_ge v 16)) by lia. rewrite Hs. replace (lo + (strs - lo)) with strs by lia.
  rewrite (u32_id strs) by lia. rewrite (u32_id (strs + off)) by lia. rewrite (lit_differs_spec (lit "name") _ _ _ ltac:(by apply lit_char) Hn), negb_involutive.
  unfold fwk_fdt_memory_calculate. rewrite align4_up by lia. rewrite (u32_id (up4 mem + _)) by (unfold sizeof_prop; lia).
  rewrite (s32_id (len (dp_value x))) by lia. unfold ptr_move_byte. rewrite (u32_id (p + 12 + _)) by lia. rewrite align4_up by lia.
  fold (is_name x). replace (if is_name x then true else has) with (is_name x || has) by (by destruct (is_name x)). done.
Qed.

(** Padding in the loop over the properties. *)
Lemma populate_nops p q n mem node sl has prev (w : dsys) : header_ok (ds_mem w) -> nops lo hi (ds_mem w) p q ->
  exists k, 4 * Z.of_nat k = q - p /\ populate_loop (k + n) lo p mem node sl has prev w = populate_loop n lo q mem node sl has prev w.
Proof.
  intros Hh Hn. remember (ds_mem w) as m eqn:Em. induction Hn as [p|p q Hw Hn IH]; [exists 0%nat; split; [lia|done]|].
  destruct IH as (k & Hk & E). exists (S k). split; [lia|]. cbn [Nat.add populate_loop]. destruct Hw as (Hlo & Hhi & Hw). subst m.
  rewrite Hw. cbn [FDT_NODE_NOP Z.eqb Pos.eqb]. destruct (ho_range _ Hh) as (? & ? & ?). rewrite u32_id by lia. exact E.
Qed.

Lemma populate_skip p q r n mem node sl has prev (w : dsys) : header_ok (ds_mem w) -> nops lo hi (ds_mem w) p q -> q <= r -> r - p < Z.of_nat n ->
  exists n', populate_loop n lo p mem node sl has prev w = populate_loop (S n') lo q mem node sl has prev w /\ r - q <= Z.of_nat n'.
Proof.
  intros Hh Hn Hq Hr. destruct (populate_nops p q 0 mem node sl has prev w Hh Hn) as (k & Hk & _). exists (n - k - 1)%nat. split; [|lia].
  destruct (populate_nops p q (S (n - k - 1)) mem node sl has prev w Hh Hn) as (k' & Hk' & <-). f_equal. lia.
Qed.

(** ** The head of a node *)
Lemma first_not_slash m p name : cstr m p name -> 47 ∉ name -> (m p =? 47) = false.
Proof.
  intros Hs Hz. apply Z.eqb_neq. destruct name as [|c name]; [apply cstr_nil in Hs; lia|]. apply cstr_cons in Hs as (-> & _). intros ->. apply Hz. left.
Qed.
(** Room for the path; for the root the (empty) name is overwritten by itself. *)
Lemma node_head K par parent p name (w : dsys) : header_ok (ds_mem w) -> text_at lo hi (ds_mem w) (p + 4) name -> 47 ∉ name -> (par = None -> name = []) ->
  parent_ok K par parent w -> path_room par name < W32 ->
  exists m0, (if negb (isValid parent) then Ok (2, 1, dput_mem (st (ds_mem w) (p + 4) 0) w)
       else
         pd ← deref (ds_nodes w !! parent);
         plen ← strlen fuel (ds_mem w) (dn_full_name pd);
         Ok (u32 (u32 (len name + 1) + 1 + plen), u32 (len name + 1), w)) = Ok (path_room par name, len name + 1, dput_mem m0 w) /\
    forall a, m0 a = ds_mem w a.
Proof.
  intros Hh (Ht1 & Ht2 & Ht) Hz Hroot Hpar Hw. pose proof (len_nonneg name). destruct par as [[pp top]|]; simpl in Hpar.
  - destruct Hpar as (-> & pd & Hpd & _ & Hpp & _ & Hf). cbn [negb]. rewrite Hpd. cbn [deref mbind res_bind]. rewrite (strlen_spec _ _ pp) by done. cbn [mbind res_bind].
    exists (ds_mem w). split; [|done]. simpl path_room in *. pose proof (len_nonneg pp). rewrite !(u32_id (len name + 1)) by lia. rewrite u32_id by lia.
    replace (dput_mem (ds_mem w) w) with w by (by destruct w). f_equal. f_equal. f_equal. lia.
  - subst parent. cbn [isValid Z.eqb negb andb]. rewrite (Hroot eq_refl) in *. exists (st (ds_mem w) (p + 4) 0). split; [done|]. intros a.
    apply cstr_nil in Ht. destruct (decide (a = p + 4)) as [->|Hne]; [by rewrite st_eq|by apply st_ne].
Qed.
End parts.
