(* ===== verification/FdtMeasure.v ===== *)
(** * The first pass measures the tree

    It runs over the flattened tree with one temporary node per open node and adds
    up what the second pass will take ([lay]).  All temporary nodes are released,
    also when memory runs out half-way. *)

From Stdlib Require Import Strings.String.
From stdpp Require Import prelude gmap fin_maps sorting.
From S2P Require Import Prelude Mem Bytes MemPool MemOps MemBlock MemBlockSpec Sync Generic KMalloc KMallocSpec HeapContract Fdt FdtSpec.

Lemma lay_prop_grows mem : mem + 16 <= lay_prop mem < mem + 20.
Proof. unfold lay_prop, sizeof_prop. pose proof (up4_bounds mem). lia. Qed.
Lemma lay_props_grow k mem : mem <= Nat.iter k lay_prop mem.
Proof. induction k as [|k IH]; simpl; [lia|]. pose proof (lay_prop_grows (Nat.iter k lay_prop mem)). lia. Qed.
Lemma path_room_pos par name : 2 <= path_room par name.
Proof. destruct par as [[pp ?]|]; simpl; [|lia]. pose proof (len_nonneg name). pose proof (len_nonneg pp). lia. Qed.
Lemma lay_own_grows par name props mem : mem + 54 <= lay_own par name props mem.
Proof.
  unfold lay_own. pose proof (lay_props_grow (length props) (up4 mem + sizeof_node + path_room par name)). pose proof (up4_bounds mem). pose proof (path_room_pos par name).
  unfold sizeof_node in *. pose proof (lay_prop_grows (Nat.iter (length props) lay_prop (up4 mem + 52 + path_room par name))). pose proof (len_nonneg (unit_name name)).
  destruct (has_name props); lia.
Qed.
Lemma lay_forest_grows par l mem : Forall (fun t => forall mem, mem <= lay par t mem) l -> mem <= foldl (fun mem t => lay par t mem) mem l.
Proof. intros Hl. revert mem. induction Hl as [|t l Ht Hl IH]; intros mem; simpl; [lia|]. specialize (Ht mem). specialize (IH (lay par t mem)). lia. Qed.
Lemma lay_grows t : forall par mem, mem <= lay par t mem.
Proof.
  induction t as [name props ch IH] using dtree_nested_ind. intros par mem. simpl. pose proof (lay_own_grows par name props mem).
  pose proof (lay_forest_grows (below par name) ch (lay_own par name props mem)) as Hf. etransitivity; [|apply Hf]; [lia|].
  eapply Forall_impl; [exact IH|]. intros t Ht. apply Ht.
Qed.

(** Sizes do not depend on where the memory starts, as long as it is aligned. *)
Lemma lay_shift b t : (4 | b) -> forall par mem, lay par t (b + mem) = b + lay par t mem.
Proof.
  intros Hb. assert (forall mem, lay_prop (b + mem) = b + lay_prop mem) as Hp by (intros; unfold lay_prop; rewrite up4_shift by done; lia).
  induction t as [name props ch IH] using dtree_nested_ind. intros par mem. simpl.
  assert (lay_own par name props (b + mem) = b + lay_own par name props mem) as ->.
  { unfold lay_own. rewrite up4_shift by done. replace (b + up4 mem + sizeof_node + path_room par name) with (b + (up4 mem + sizeof_node + path_room par name)) by lia.
    assert (forall k x, Nat.iter k lay_prop (b + x) = b + Nat.iter k lay_prop x) as ->.
    { induction k as [|k IHk]; intros x; [done|]. simpl. by rewrite IHk, Hp. }
    rewrite Hp. destruct (has_name props); lia. }
  generalize (lay_own par name props mem). induction IH as [|t l Ht Hl IHl]; intros x; [done|]. simpl. by rewrite Ht, IHl.
Qed.

Section measure.
Context {H : Type} `{KernelHeap H}.
Context (lit_name lit_null : Z) (fuel : nat) (lo hi strs : Z).
Context (enough : hi - lo < Z.of_nat fuel) (static : heap_static lo (hi - lo)).
Local Notation dsys := (@dsys H).
Local Notation header_ok := (header_ok lo hi strs).

(** ** Properties *)
Lemma measure_props props p q n mem node has prev (w : dsys) : header_ok (ds_mem w) -> props_at lo hi strs (ds_mem w) props p q -> q - p < Z.of_nat n ->
  0 < mem -> Nat.iter (length props) lay_prop mem < W32 - 4096 ->
  populate_loop n lo p mem node SNull has prev w = Ok (q, Nat.iter (length props) lay_prop mem, has_name props || has, prev, w).
Proof using Type.
  clear enough static. intros Hh. revert p n mem has. induction props as [|x props IH]; intros p n mem has Hp Hn Hm Hw; cbn [props_at] in Hp.
  - destruct Hp as [Hnop (v & Hv & Hv1 & Hv2)]. destruct (populate_skip lo hi strs p q q n mem node SNull has prev w Hh Hnop) as (n' & -> & _); [lia|lia|]. cbn [populate_loop].
    rewrite (proj2 (proj2 Hv)), (proj2 (Z.eqb_neq v FDT_NODE_NOP)) by done. rewrite (no_property lo hi q mem node SNull has w v Hv Hv2). done.
  - destruct Hp as (p1 & p2 & Hnop & Hx & Hrest). pose proof (prop_at_le _ _ _ _ _ _ _ Hx) as [Hlo Hle]. pose proof (props_at_le _ _ _ _ _ _ _ Hrest). pose proof (len_nonneg (dp_value x)).
    destruct (populate_skip lo hi strs p p1 q n mem node SNull has prev w Hh Hnop) as (n' & -> & Hn'); [lia|lia|]. cbn [populate_loop].
    pose proof Hx as ((_ & _ & Htag) & _). rewrite Htag. cbn [FDT_NODE_PROP FDT_NODE_NOP Z.eqb Pos.eqb].
    cbn [length] in Hw. rewrite Nat.iter_succ_r in Hw. pose proof (lay_props_grow (length props) (lay_prop mem)). pose proof (lay_prop_grows mem). pose proof (up4_bounds mem).
    destruct (one_property lo hi strs x p1 p2 mem node SNull has w Hh Hx) as (np & _ & ->); [lia|lia|]. cbn [slot_valid mbind res_bind].
    rewrite isValid_true by (unfold lay_prop, sizeof_prop in *; lia). cbn [negb]. rewrite IH by (done || lia). cbn [length]. rewrite Nat.iter_succ_r.
    replace (has_name (x :: props)) with (is_name x || has_name props) by done. by destruct (is_name x), (has_name props).
Qed.
Lemma measure_name par name d mem node prev (w : dsys) : ds_nodes w !! node = Some d -> cstr (ds_mem w) (dn_full_name d) (path_of par name) -> 47 ∉ name ->
  (par = None -> name = []) -> (length (path_of par name) < fuel)%nat -> 0 < dn_full_name d -> dn_full_name d + len (path_of par name) < W32 -> 0 <= mem ->
  lay_prop mem + len (unit_name name) + 1 < W32 - 4096 ->
  add_name lit_name fuel mem node SNull prev w = Ok (lay_prop mem + len (unit_name name) + 1, w).
Proof using Type.
  intros Hd Hs Hz Hroot Hf Hp Hw Hm Hl. unfold add_name. rewrite Hd. cbn [deref mbind res_bind].
  destruct (scan_path_spec (ds_mem w) (dn_full_name d) par name fuel Hs Hz Hroot Hf Hp Hw) as (p1 & p3 & -> & E & _). cbn [mbind res_bind].
  rewrite E. unfold fwk_fdt_add_string_properties, fwk_fdt_memory_calculate. pose proof (len_nonneg (unit_name name)). pose proof (up4_bounds mem). unfold lay_prop, sizeof_prop in *.
  rewrite (u32_id (len (unit_name name) + 1)) by lia. rewrite (u32_id (16 + _)) by lia. rewrite align4_up by lia. rewrite (u32_id (up4 mem + _)) by lia.
  cbn [slot_valid mbind res_bind]. rewrite andb_false_r. cbn [mbind res_bind]. f_equal. f_equal. lia.
Qed.

(** ** One node *)

(** The state of a temporary node at [node]. *)
Definition temp_node (m : mem) (par : place) (parent node : Z) (name : list Z) (d : device_node) : Prop :=
  isValid node = true /\ dn_parent d = parent /\ dn_full_name d = node + sizeof_node /\ cstr m (node + sizeof_node) (path_of par name).

Lemma measure_node par parent p r name props mem L (w : dsys) :
  header_ok (ds_mem w) -> cpu_ok (ds_cpu w) -> heap_inv (ds_heap w) L ->
  word_at lo hi (ds_mem w) p FDT_NODE_START -> text_at lo hi (ds_mem w) (p + 4) name -> props_at lo hi strs (ds_mem w) props (up4 (p + 4 + len name + 1)) r ->
  47 ∉ name -> (par = None -> name = []) -> (length (path_of par name) < fuel)%nat -> parent_ok fuel (fun a => exists q s, (q, s) ∈ L /\ q <= a < q + s) par parent w ->
  (forall x, is_Some (ds_nodes w !! x) -> exists s, (x, s) ∈ L /\ 0 < s) ->
  0 <= mem -> lay_own par name props mem < W32 - 4096 ->
  (exists h m, fwk_fdt_populate_node lit_name lit_null fuel lo p mem parent SNull w = Ok (nullptr, p, mem, SNull, dput_heap (ds_cpu w) h (dput_mem m w)) /\
    heap_inv h L /\ forall a, m a = ds_mem w a) \/
  (exists node s h m d, fwk_fdt_populate_node lit_name lit_null fuel lo p mem parent SNull w =
      Ok (node, r, lay_own par name props mem, SNull, put_node node d (dput_heap (ds_cpu w) h (dput_mem m w))) /\
    heap_inv h ((node, s) :: L) /\ sizeof_node + len (path_of par name) < s /\ ds_nodes w !! node = None /\
    agree (fun a => ~ (node <= a < node + s)) (ds_mem w) m /\ temp_node m par parent node name d).
Proof using enough static.
  intros Hh Hcpu Hheap (Hp1 & Hp2 & Htag) Ht Hprops Hz Hroot Hf Hpar Hnodes Hm Hlay. pose proof (eq_refl : sizeof_node = 52) as Hsz.
  pose proof (ho_range _ _ _ _ Hh) as (Hlo & Hhi & Hspan). pose proof Ht as (Ht1 & Ht2 & Hname). pose proof (len_nonneg name) as Hln. pose proof (path_room_pos par name) as Hroom.
  pose proof (path_room_ok par name) as Hroom2. pose proof (lay_props_grow (length props) (up4 mem + sizeof_node + path_room par name)) as Hgrow. pose proof (up4_bounds mem) as [Hup _].
  assert (lay_own par name props mem = if has_name props then Nat.iter (length props) lay_prop (up4 mem + sizeof_node + path_room par name) else
    lay_prop (Nat.iter (length props) lay_prop (up4 mem + sizeof_node + path_room par name)) + len (unit_name name) + 1) as El by done.
  set (mem2 := Nat.iter (length props) lay_prop (up4 mem + sizeof_node + path_room par name)) in *. pose proof (lay_prop_grows mem2) as Hg2. pose proof (len_nonneg (unit_name name)) as Hlu.
  assert (mem2 < W32 - 4096) as Hm2 by (destruct (has_name props); lia).
  unfold fwk_fdt_populate_node. rewrite Htag. cbn [FDT_NODE_START Z.eqb Pos.eqb negb]. rewrite (u32_id (p + 4)) by lia.
  rewrite (strlen_spec _ _ name) by (done || (unfold len in *; lia)). cbn [mbind res_bind]. rewrite (first_not_slash _ _ _ Hname Hz). cbn [negb].
  destruct (node_head fuel lo hi strs _ par parent p name w Hh Ht Hz Hroot Hpar) as (m0 & -> & Hm0); [lia|]. cbn [mbind res_bind].
  unfold fwk_fdt_memory_calculate. rewrite (u32_id (sizeof_node + path_room par name)) by (lia). rewrite align4_up by lia.
  rewrite (u32_id (up4 mem + _)) by (lia). cbn [slot_valid]. unfold d_kzalloc. simpl ds_cpu. simpl ds_heap.
  destruct (heap_alloc_spec (ds_cpu w) (ds_heap w) L (sizeof_node + path_room par name) (Z.lor GFP_KERNEL GFP_ZERO) Hcpu Hheap eq_refl) as (node & h & -> & Hcase & _);
    [lia|]. cbn [mbind res_bind].
  destruct Hcase as [[-> Hh']|[Hv Hh']]; [left; exists h, m0; by split_and!|right]. rewrite Hv. cbn [negb andb].
  destruct (align8_spec (sizeof_node + path_room par name)) as [Ha8 _]; [unfold W32 in *; lia|]. set (s := mrt_num_align8 (sizeof_node + path_room par name)) in *.
  destruct (heap_inv_blocks _ _ Hh') as [Hdis Hblk]. destruct (Hblk node s) as (Hn0 & _ & Hnw); [left|].
  assert (ds_nodes w !! node = None) as Hfresh.
  { apply eq_None_not_Some. intros Hx. destruct (Hnodes node Hx) as (s' & Hin & Hs'). assert (0 < s) as Hs0 by (lia).
    pose proof (disjoint_head _ _ _ _ _ Hdis Hin). lia. }
  assert (forall q s', (q, s') ∈ L -> q + s' <= node \/ node + s <= q) as Hapart by (intros q s' Hin; pose proof (disjoint_head _ _ _ _ _ Hdis Hin); lia).
  pose proof (heap_static_live h _ lo (hi - lo) node s Hh' static ltac:(left)) as Hblob.
  set (w1 := put_node node zero_node (dput_mem (zero_bytes m0 node (sizeof_node + path_room par name)) (dput_heap (ds_cpu w) h (dput_mem m0 w)))).
  assert (agree (fun a => ~ (node <= a < node + s)) (ds_mem w) (ds_mem w1)) as Hag1.
  { intros a Ha. simpl. unfold zero_bytes. rewrite <- Hm0. destruct (Z.leb_spec node a), (Z.ltb_spec a (node + (sizeof_node + path_room par name))); simpl; try done. lia. }
  destruct (fill_full_name_spec fuel par parent node (p + 4) name zero_node w1) as (m' & E & Hpath & Hag2).
  { apply lookup_insert_eq. } { done. } { lia. } { lia. } { lia. } { eapply cstr_agree; [|exact Hname]. intros a Ha. apply Hag1. lia. } { done. }
  { destruct par as [[pp top]|]; simpl in Hpar; [|lia]. destruct Hpar as (_ & pd & Hpd & _). intros <-. by rewrite Hpd in Hfresh. }
  { intros a Ha. lia. }
  { destruct par as [[pp top]|]; simpl in Hpar; simpl; [|done]. destruct Hpar as (Hpv & pd & Hpd & Htop & Hpp & HK & Hpf). split; [done|]. exists pd.
    rewrite lookup_insert_ne by (intros ->; by rewrite Hpd in Hfresh). split_and!; try done.
    - eapply cstr_agree; [|exact Hpp]. intros a Ha. destruct (HK a Ha) as (q & s' & Hin & Hr). apply Hag1. specialize (Hapart q s' Hin). lia.
    - intros a Ha. destruct (HK a Ha) as (q & s' & Hin & Hr). specialize (Hapart q s' Hin). simpl path_room in *. lia. }
  change (ds_mem (dput_mem m0 w)) with m0. fold w1. rewrite E. cbn [mbind res_bind].
  assert (agree (fun a => ~ (node <= a < node + s)) (ds_mem w) m') as Hag3.
  { intros a Ha. rewrite <- (Hag1 a Ha). apply Hag2. lia. }
  rewrite (upd_node_alter _ _ _ (set_full_name (node + sizeof_node) zero_node)) by (simpl; by rewrite lookup_alter_eq, lookup_insert_eq). cbn [mbind res_bind].
  rewrite andb_false_r. cbn [mbind res_bind].
  set (d1 := set_phandle (-1) (set_parent parent (set_full_name (node + sizeof_node) zero_node))).
  match goal with |- context [populate_loop fuel lo _ _ node SNull false _ ?w'] => assert (w' = put_node node d1 (dput_heap (ds_cpu w) h (dput_mem m' w))) as -> end.
  { unfold put_node, dput_nodes, dput_mem, dput_heap. simpl. f_equal. apply map_eq. intros i. destruct (decide (node = i)) as [->|Hne];
      [by rewrite !lookup_alter_eq, !lookup_insert_eq|by rewrite !lookup_alter_ne, !lookup_insert_ne by done]. }
  assert (same_blob lo hi (ds_mem w) m') as Hsb by (intros a Ha; apply Hag3; lia).
  unfold ptr_move_byte. rewrite (u32_id (p + 4 + _)) by lia. rewrite align4_up by lia. replace (p + 4 + (len name + 1)) with (p + 4 + len name + 1) by lia.
  assert (up4 mem + (sizeof_node + path_room par name) = up4 mem + sizeof_node + path_room par name) as -> by lia.
  pose proof (up4_bounds (p + 4 + len name + 1)) as [Hupp _]. pose proof (props_at_le _ _ _ _ _ _ _ Hprops) as Hple.
  rewrite (measure_props props _ r) by (simpl; (by eapply header_agree) || (by eapply props_at_agree) || (fold mem2; lia)). fold mem2. cbn [mbind res_bind]. rewrite orb_false_r.
  exists node, s, h, m', d1. split; [|split_and!; [done|lia|done|done|by split_and!]].
  rewrite El. destruct (has_name props); cbn [negb mbind res_bind slot_valid]; [done|].
  rewrite (measure_name par name d1) by (simpl; (done || apply lookup_insert_eq || (pose proof (len_nonneg (path_of par name)); lia))). done.
Qed.

(** ** The open nodes *)
Inductive open_nodes (m : mem) (L0 : list (Z * Z)) : gmap Z device_node -> place -> Z -> list (Z * Z) -> Prop :=
  | open_none : open_nodes m L0 ∅ None 0 L0
  | open_one N par parent L node d name s :
      open_nodes m L0 N par parent L -> N !! node = None -> temp_node m par parent node name d ->
      sizeof_node + len (path_of par name) < s -> (length (path_of par name) < fuel)%nat ->
      open_nodes m L0 (<[node := d]> N) (below par name) node ((node, s) :: L).

(** Memory that the temporary blocks do not touch. *)
Definition kept (L : list (Z * Z)) (a : Z) : Prop := exists b n, (heap_static b n \/ (b, n) ∈ L) /\ b <= a < b + n.
Lemma kept_cons L x a : kept L a -> kept (x :: L) a.
Proof.
  clear enough static. intros (b & n & [Hs|Hin] & Ha); exists b, n; split; [by left|done|right; by right|done]. Qed.
Lemma kept_apart (h : H) L q s a : heap_inv h ((q, s) :: L) -> kept L a -> ~ (q <= a < q + s).
Proof.
  clear enough static.
  intros Hh (b & n & Hb & Ha) Hq. destruct (heap_inv_blocks _ _ Hh) as [Hdis _]. destruct Hb as [Hs|Hin].
  - pose proof (heap_static_live _ _ _ _ q s Hh Hs ltac:(left)). lia.
  - pose proof (disjoint_head _ _ _ _ _ Hdis Hin). lia.
Qed.
Lemma kept_blob L a : lo <= a < hi -> kept L a.
Proof using static. clear enough. intros Ha. exists lo, (hi - lo). split; [by left|lia]. Qed.

Lemma open_base m L0 N par parent L a : open_nodes m L0 N par parent L -> kept L0 a -> kept L a.
Proof.
  clear enough static. induction 1; [done|]. intros Ha. apply kept_cons. auto. Qed.
Lemma open_len m L0 N par parent L : open_nodes m L0 N par parent L -> (length L0 <= length L)%nat.
Proof. clear enough static. induction 1; simpl; lia. Qed.
Lemma open_valid m L0 N par parent L : open_nodes m L0 N par parent L -> match par with None => parent = 0 | Some _ => isValid parent = true end.
Proof.
  clear enough static. destruct 1 as [|? ? ? ? ? ? ? ? ? ? (? & _)]; done. Qed.
Lemma open_keys m L0 N par parent L x : open_nodes m L0 N par parent L -> is_Some (N !! x) -> exists s, (x, s) ∈ L /\ 0 < s.
Proof.
  clear enough static.
  induction 1 as [|N par parent L node d name s Ho IH Hn Ht Hs Hf]; [by intros [? ?]|]. rewrite lookup_insert_is_Some'. intros [<-|Hx].
  - exists s. split; [left|]. pose proof (len_nonneg (path_of par name)). unfold sizeof_node in *. lia.
  - destruct (IH Hx) as (s' & ? & ?). exists s'. split; [by right|done].
Qed.
Lemma open_agree m m' L0 N par parent L : open_nodes m L0 N par parent L -> agree (fun a => exists q s, (q, s) ∈ L /\ q <= a < q + s) m m' -> open_nodes m' L0 N par parent L.
Proof.
  clear enough static.
  induction 1 as [|N par parent L node d name s Ho IH Hn (Hv & Hp & Hf' & Hc) Hs Hf]; intros Ha; [constructor|].
  econstructor; try done.
  - apply IH. intros a (q & t & Hin & Hr). apply Ha. exists q, t. split; [by right|done].
  - split_and!; try done. eapply cstr_agree; [|exact Hc]. intros a Hr. apply Ha. exists node, s. split; [left|]. unfold sizeof_node in *. lia.
Qed.
Lemma open_parent L0 par parent L (w : dsys) : open_nodes (ds_mem w) L0 (ds_nodes w) par parent L ->
  parent_ok fuel (fun a => exists q s, (q, s) ∈ L /\ q <= a < q + s) par parent w.
Proof.
  clear enough static.
  remember (ds_nodes w) as N eqn:EN. destruct 1 as [|N par parent L node d name s Ho Hn (Hv & Hp & Hf' & Hc) Hs Hf]; [done|]. simpl. split; [done|]. exists d.
  rewrite <- EN, lookup_insert_eq. split_and!; try done.
  - rewrite Hp. pose proof (open_valid _ _ _ _ _ _ Ho) as Hpv. destruct par as [x|]; [by rewrite Hpv|]. by rewrite Hpv.
  - by rewrite Hf'.
  - intros a Ha. exists node, s. split; [left|]. rewrite Hf' in Ha. unfold sizeof_node in *. lia.
Qed.

(** ** Releasing *)
Lemma d_kfree_spec q s L (w : dsys) : cpu_ok (ds_cpu w) -> heap_inv (ds_heap w) ((q, s) :: L) -> 0 < s ->
  exists h, d_kfree q w = Ok (dput_nodes (delete q (ds_nodes w)) (dput_heap (ds_cpu w) h w)) /\ heap_inv h L.
Proof.
  clear enough static.
  intros Hc Hh Hs. destruct (heap_free_spec _ _ _ _ _ Hc Hh Hs) as (h & E & Hh' & _). exists h. split; [|done]. unfold d_kfree. by rewrite E.
Qed.
Lemma free_parents_spec L0 par parent L m : forall n (w : dsys), cpu_ok (ds_cpu w) -> heap_inv (ds_heap w) L -> open_nodes m L0 (ds_nodes w) par parent L ->
  (length L < n + length L0)%nat ->
  exists h, free_parents n parent w = Ok (dput_nodes ∅ (dput_heap (ds_cpu w) h w)) /\ heap_inv h L0.
Proof.
  clear enough static.
  intros n w. revert n. remember (ds_nodes w) as N eqn:EN. intros n Hc Hh Ho. revert n w EN Hc Hh.
  induction Ho as [|N par parent L node d name s Ho IH Hn (Hv & Hp & Hf' & Hcs) Hs Hf]; intros n w EN Hc Hh Hlen;
    (destruct n as [|n]; [try apply open_len in Ho; simpl in Hlen; lia|]); cbn [free_parents].
  - exists (ds_heap w). split; [|done]. cbn [isValid Z.eqb negb andb]. f_equal. destruct w; simpl in *; by subst.
  - rewrite Hv. cbn [negb]. rewrite <- EN, lookup_insert_eq. cbn [deref mbind res_bind].
    assert (0 < s) as Hs0 by (pose proof (len_nonneg (path_of par name)); unfold sizeof_node in *; lia).
    destruct (d_kfree_spec node s L w Hc Hh Hs0) as (h & -> & Hh'). cbn [mbind res_bind]. rewrite Hp, <- EN, delete_insert_id by done.
    destruct (IH n (dput_nodes N (dput_heap (ds_cpu w) h w)) eq_refl Hc Hh') as (h' & -> & Hh''); [simpl in Hlen; lia|]. by exists h'.
Qed.

(** ** All nodes *)
Lemma loop_nops p q n mem parent sl (w : dsys) : header_ok (ds_mem w) -> nops lo hi (ds_mem w) p q ->
  exists k, 4 * Z.of_nat k = q - p /\ unflatten_loop lit_name lit_null fuel (k + n) lo p mem parent sl w = unflatten_loop lit_name lit_null fuel n lo q mem parent sl w.
Proof.
  clear enough static. intros Hh Hn. remember (ds_mem w) as m eqn:Em. induction Hn as [p|p q Hw Hn IH]; [exists 0%nat; split; [lia|done]|].
  destruct IH as (k & Hk & E). exists (S k). split; [lia|]. cbn [Nat.add unflatten_loop]. destruct Hw as (Hlo & Hhi & Hw). subst m.
  rewrite Hw. cbn [FDT_NODE_NOP Z.eqb Pos.eqb]. destruct (ho_range _ _ _ _ Hh) as (? & ? & ?). rewrite u32_id by lia. exact E.
Qed.

Definition plen (par : place) : Z := match par with Some (pp, _) => len pp | None => 0 end.
Lemma path_len par name : 0 <= plen par -> len (path_of par name) <= plen par + len name + 1.
Proof.
  clear enough static. pose proof (len_nonneg name). destruct par as [[pp []]|]; simpl; intros ?; rewrite ?len_app, ?len_cons, ?len_nil; lia.
Qed.
Lemma plen_pos par : 0 <= plen par.
Proof. clear enough static. destruct par as [[pp ?]|]; simpl; [apply len_nonneg|lia]. Qed.

(** How the loop gets from [p] to [q]: it arrives with [mem'] bytes used, or gives
    up with everything released. *)
Definition measured (L0 L : list (Z * Z)) (parent p q mem mem' : Z) (w : dsys) : Prop :=
  exists k, Z.of_nat k <= q - p /\
  ((exists h m, heap_inv h L /\ agree (kept L) (ds_mem w) m /\
      forall n, unflatten_loop lit_name lit_null fuel (k + n) lo p mem parent SNull w =
                unflatten_loop lit_name lit_null fuel n lo q mem' parent SNull (dput_heap (ds_cpu w) h (dput_mem m w))) \/
   (exists h m, heap_inv h L0 /\ agree (kept L0) (ds_mem w) m /\
      forall n, unflatten_loop lit_name lit_null fuel (k + n) lo p mem parent SNull w =
                Ok (nullptr, dput_nodes ∅ (dput_heap (ds_cpu w) h (dput_mem m w))))).

Lemma measured_nops L0 L parent p q mem (w : dsys) : header_ok (ds_mem w) -> heap_inv (ds_heap w) L -> nops lo hi (ds_mem w) p q -> measured L0 L parent p q mem mem w.
Proof.
  clear enough static. intros Hh Hi Hn. destruct (loop_nops p q 0 mem parent SNull w Hh Hn) as (k & Hk & _). exists k. split; [lia|]. left.
  exists (ds_heap w), (ds_mem w). split; [done|]. split; [done|]. intros n. destruct (loop_nops p q n mem parent SNull w Hh Hn) as (k' & Hk' & E).
  assert (k' = k) as -> by lia. rewrite E. by destruct w.
Qed.
Lemma measured_trans L0 L N par parent p q r mem mem1 mem2 (w : dsys) : open_nodes (ds_mem w) L0 N par parent L -> measured L0 L parent p q mem mem1 w -> q <= r ->
  (forall h m, heap_inv h L -> agree (kept L) (ds_mem w) m -> measured L0 L parent q r mem1 mem2 (dput_heap (ds_cpu w) h (dput_mem m w))) ->
  measured L0 L parent p r mem mem2 w.
Proof.
  clear enough static. intros Ho (k & Hk & [(h & m & Hh & Ha & E)|(h & m & Hh & Ha & E)]) Hqr Hnext.
  - destruct (Hnext h m Hh Ha) as (k' & Hk' & [(h' & m' & Hh' & Ha' & E')|(h' & m' & Hh' & Ha' & E')]); exists (k + k')%nat; (split; [lia|]); [left|right]; exists h', m'; (split; [done|]); split.
    + intros a Hx. by rewrite Ha', Ha.
    + intros n. by rewrite <- Nat.add_assoc, E, E'.
    + intros a Hx. rewrite Ha' by done. apply Ha. by eapply open_base.
    + intros n. by rewrite <- Nat.add_assoc, E, E'.
  - exists k. split; [lia|]. right. exists h, m. by split_and!.
Qed.
Record measuring (L0 : list (Z * Z)) (par : place) (parent p : Z) (L : list (Z * Z)) (w : dsys) : Prop := {
  mg_header : header_ok (ds_mem w);
  mg_cpu : cpu_ok (ds_cpu w);
  mg_heap : heap_inv (ds_heap w) L;
  mg_open : open_nodes (ds_mem w) L0 (ds_nodes w) par parent L;
  mg_path : plen par <= p - lo;
  mg_depth : Z.of_nat (length L) <= Z.of_nat (length L0) + (p - lo);
}.
Lemma kept_same_blob L m m' : agree (kept L) m m' -> same_blob lo hi m m'.
Proof using static. clear enough. intros Ha a Hr. by apply Ha, kept_blob. Qed.
Lemma measuring_on L0 par parent p q L h m (w : dsys) : measuring L0 par parent p L w -> p <= q -> heap_inv h L -> agree (kept L) (ds_mem w) m ->
  measuring L0 par parent q L (dput_heap (ds_cpu w) h (dput_mem m w)).
Proof using static.
  clear enough. intros [Hh Hc Hi Ho Hp Hd] Hq Hh' Ha. split; try done; [|by simpl; eapply open_agree; [exact Ho|]; intros a (b & s & Hin & Hr); apply Ha; exists b, s; split; [by right|]|lia|lia].
  eapply header_agree; [|exact Hh]. by eapply kept_same_blob.
Qed.
Definition measures (t : dtree) : Prop := forall L0 par parent p q mem L w, measuring L0 par parent p L w -> node_at lo hi strs (ds_mem w) t p q -> names_ok t ->
  (par = None -> match t with DTree name _ _ => name = [] end) -> 0 <= mem -> lay par t mem < W32 - 4096 -> measured L0 L parent p q mem (lay par t mem) w.
Lemma measure_forest ch : Forall measures ch -> forall L0 par parent r s mem L w, measuring L0 par parent r L w -> par <> None -> forest_at lo hi strs (ds_mem w) ch r s -> Forall names_ok ch ->
  0 <= mem -> foldl (fun mem t => lay par t mem) mem ch < W32 - 4096 -> measured L0 L parent r s mem (foldl (fun mem t => lay par t mem) mem ch) w.
Proof using static.
  clear enough. induction 1 as [|t ch Ht Hch IH]; intros L0 par parent r s mem L w Hg Hpar Hf Hn Hm Hl; cbn [forest_at foldl] in *.
  { apply measured_nops; [apply Hg|apply Hg|done]. }
  destruct Hf as (r1 & r2 & Hnop & Ht' & Hrest). apply Forall_cons in Hn as [Hnt Hn]. pose proof (nops_le _ _ _ _ _ Hnop). pose proof (node_at_le _ _ _ _ _ _ _ Ht'). pose proof (forest_le _ _ _ _ _ _ _ Hrest).
  pose proof (lay_grows t par mem). pose proof (lay_forest_grows par ch (lay par t mem)) as Hlf. specialize (Hlf ltac:(apply Forall_forall; intros; apply lay_grows)).
  eapply (measured_trans L0 L _ par parent r r1); [apply Hg|apply measured_nops; [apply Hg|apply Hg|done]|lia|]. intros h m Hh Ha.
  pose proof (measuring_on _ _ _ _ r1 _ h m w Hg ltac:(lia) Hh Ha) as Hg1. pose proof (kept_same_blob _ _ _ Ha) as Hb.
  eapply (measured_trans L0 L _ par parent r1 r2); [apply Hg1|apply Ht; try done; [by eapply node_at_agree|lia]|lia|]. intros h' m' Hh' Ha'.
  pose proof (kept_same_blob _ _ _ Ha') as Hb'. apply IH; try done; [eapply measuring_on; [exact Hg1|lia|done|done]|by do 2 (eapply forest_agree; [done|])|lia].
Qed.
(** The end of a node releases it. *)
Lemma measure_end L N parent node d s p mem (w : dsys) : header_ok (ds_mem w) -> cpu_ok (ds_cpu w) -> heap_inv (ds_heap w) ((node, s) :: L) -> 0 < s -> isValid node = true ->
  ds_nodes w = <[node := d]> N -> N !! node = None -> dn_parent d = parent -> word_at lo hi (ds_mem w) p FDT_NODE_END ->
  exists h, heap_inv h L /\ forall n, unflatten_loop lit_name lit_null fuel (S n) lo p mem node SNull w =
    unflatten_loop lit_name lit_null fuel n lo (p + 4) mem parent SNull (dput_nodes N (dput_heap (ds_cpu w) h w)).
Proof.
  clear enough static. intros Hh Hc Hi Hs Hv EN HN Hd (Hp1 & Hp2 & Hw). destruct (d_kfree_spec node s L w Hc Hi Hs) as (h & E & Hh'). exists h. split; [done|]. intros n.
  cbn [unflatten_loop]. rewrite Hw. cbn [FDT_NODE_NOP FDT_NODE_END Z.eqb Pos.eqb]. rewrite Hv, EN, lookup_insert_eq. cbn [deref mbind res_bind slot_valid negb].
  rewrite E. cbn [mbind res_bind]. destruct (ho_range _ _ _ _ Hh) as (? & ? & ?). rewrite u32_id by lia. by rewrite EN, delete_insert_id, Hd by done.
Qed.
Lemma measuring_child L0 par parent p r name s node d h m L (w : dsys) : measuring L0 par parent p L w -> text_at lo hi (ds_mem w) (p + 4) name -> p + 4 + len name + 1 <= r -> r <= hi ->
  heap_inv h ((node, s) :: L) -> sizeof_node + len (path_of par name) < s -> ds_nodes w !! node = None ->
  agree (fun a => ~ (node <= a < node + s)) (ds_mem w) m -> temp_node m par parent node name d -> (length (path_of par name) < fuel)%nat ->
  measuring L0 (below par name) node r ((node, s) :: L) (put_node node d (dput_heap (ds_cpu w) h (dput_mem m w))).
Proof using static.
  clear enough. intros [Hh Hc Hi Ho Hp Hd] (Ht1 & Ht2 & Ht) Hr Hrh Hh' Hs Hn Ha Htmp Hf. split; try done.
  - eapply header_agree; [|exact Hh]. intros a Hr'. apply Ha. eapply kept_apart; [exact Hh'|]. by apply kept_blob.
  - simpl. eapply open_one; try done. eapply open_agree; [exact Ho|]. intros a (b & s' & Hin & Hr'). apply Ha. eapply kept_apart; [exact Hh'|]. exists b, s'. split; [by right|done].
  - pose proof (path_len par name (plen_pos par)). change (plen (below par name)) with (len (path_of par name)). pose proof (len_nonneg name). lia.
  - cbn [length]. pose proof (len_nonneg name). lia.
Qed.
Lemma measure_tree t : measures t.
Proof using enough static.
  induction t as [name props ch IH] using dtree_nested_ind. intros L0 par parent p q mem L w Hg Hat [Hz Hch]%names_ok_eq Hroot Hm Hl.
  apply node_at_eq in Hat as (Htag & Ht & r & s' & Hprops & Hforest & Hend & ->). cbn [lay] in *. pose proof Ht as (Ht1 & Ht2 & Hname). pose proof (len_nonneg name).
  pose proof (props_at_le _ _ _ _ _ _ _ Hprops) as Hpr. pose proof (forest_le _ _ _ _ _ _ _ Hforest). pose proof (up4_bounds (p + 4 + len name + 1)) as [Hup _].
  pose proof (path_len par name (plen_pos par)). pose proof (mg_path _ _ _ _ _ _ Hg). pose proof (mg_depth _ _ _ _ _ _ Hg).
  pose proof (lay_own_grows par name props mem). pose proof (lay_forest_grows (below par name) ch (lay_own par name props mem)) as Hlf. specialize (Hlf ltac:(apply Forall_forall; intros; apply lay_grows)).
  assert (length (path_of par name) < fuel)%nat as Hfuel by (unfold len in *; lia).
  assert (forall n, unflatten_loop lit_name lit_null fuel (S n) lo p mem parent SNull w =
    ('(sprt_node, ptr_move, mem, allNodes, w) ← fwk_fdt_populate_node lit_name lit_null fuel lo p mem parent SNull w;
        if negb (isValid sprt_node) && negb (slot_valid allNodes) then w ← free_parents fuel parent w; Ok (nullptr, w)
        else unflatten_loop lit_name lit_null fuel n lo ptr_move mem sprt_node allNodes w)) as Estep by (intros n; cbn [unflatten_loop]; by rewrite (proj2 (proj2 Htag))).
  destruct (measure_node par parent p r name props mem L w) as [(h & m & E & Hh & Ha)|(node & s & h & m & d & E & Hh & Hs & Hfresh & Ha & Htmp)]; try apply Hg; try done; try lia.
  { apply open_parent with L0, Hg. } { intros x. eapply open_keys, Hg. }
  - destruct (free_parents_spec L0 par parent L (ds_mem w) fuel (dput_heap (ds_cpu w) h (dput_mem m w))) as (h' & Ef & Hh'); [apply Hg|done|apply Hg|lia|].
    exists 1%nat. split; [lia|]. right. exists h', m. split; [done|]. split; [intros a _; apply Ha|]. intros n. cbn [Nat.add]. rewrite Estep, E. cbn [mbind res_bind slot_valid negb andb isValid Z.eqb]. by rewrite Ef.
  - pose proof (measuring_child _ _ _ _ r _ _ _ _ _ _ _ _ Hg Ht ltac:(lia) ltac:(lia) Hh Hs Hfresh Ha Htmp Hfuel) as Hg1. pose proof Htmp as (Hv & Hdp & _).
    assert (agree (kept L) (ds_mem w) m) as Hk by (intros a Hx; apply Ha; by eapply kept_apart).
    pose proof (kept_same_blob _ _ _ Hk) as Hb. pose proof (len_nonneg (path_of par name)).
    destruct (measure_forest ch IH _ _ _ r s' (lay_own par name props mem) _ _ Hg1 ltac:(done) ltac:(by eapply forest_agree) Hch ltac:(lia) Hl) as (k & Hk' & [(h1 & m1 & Hh1 & Ha1 & E1)|(h1 & m1 & Hh1 & Ha1 & E1)]).
    + pose proof (measuring_on _ _ _ _ s' _ h1 m1 _ Hg1 ltac:(lia) Hh1 Ha1) as Hg2.
      destruct (measure_end L (ds_nodes w) parent node d s s' (foldl (fun mem t => lay (below par name) t mem) (lay_own par name props mem) ch) _ (mg_header _ _ _ _ _ _ Hg2) (mg_cpu _ _ _ _ _ _ Hg2) Hh1) as (h2 & Hh2 & E2); try done; [unfold sizeof_node in *; lia|..].
      { eapply word_at_agree; [|exact Hend]. intros a Hx. simpl. rewrite Ha1 by (by apply kept_blob). by apply Hb. }
      exists (S k + 1)%nat. split; [lia|]. left. exists h2, m1. split; [done|]. split; [intros a Hx; rewrite Ha1 by (by apply kept_cons); by apply Hk|].
      intros n. cbn [Nat.add]. rewrite Estep, E. cbn [mbind res_bind]. rewrite Hv. cbn [negb andb]. rewrite <- Nat.add_assoc, E1. cbn [Nat.add]. rewrite E2. by destruct w.
    + exists (S k). split; [lia|]. right. exists h1, m1. split; [done|]. split.
      { intros a Hx. pose proof (open_base _ _ _ _ _ _ a (mg_open _ _ _ _ _ _ Hg) Hx). simpl in Ha1. rewrite Ha1 by done. by apply Hk. }
      intros n. cbn [Nat.add]. rewrite Estep, E. cbn [mbind res_bind]. rewrite Hv. cbn [negb andb]. rewrite E1. by destruct w.
Qed.
(** ** The whole pass *)
Lemma measure_pass L0 t p q e (w : dsys) : header_ok (ds_mem w) -> cpu_ok (ds_cpu w) -> heap_inv (ds_heap w) L0 -> ds_nodes w = ∅ ->
  lo <= p -> node_at lo hi strs (ds_mem w) t p q -> nops lo hi (ds_mem w) q e -> word_at lo hi (ds_mem w) e FDT_ALL_NODE_END -> tree_ok t -> lay None t 0 < W32 - 4096 ->
  exists r h m, fwk_unflatten_dt_nodes lit_name lit_null fuel lo nullptr p SNull w = Ok (r, dput_heap (ds_cpu w) h (dput_mem m w)) /\
    heap_inv h L0 /\ agree (kept L0) (ds_mem w) m /\ (r = 0 \/ r = lay None t 0).
Proof using enough static.
  intros Hh Hc Hi HN Hp Hat Hn He [Hok Hname] Hl. pose proof (node_at_le _ _ _ _ _ _ _ Hat). pose proof (nops_le _ _ _ _ _ Hn). destruct (ho_range _ _ _ _ Hh) as (Hlo & Hhi & Hspan).
  assert (measuring L0 None 0 p L0 w) as Hg by (split; try done; [rewrite HN; constructor|simpl; lia|lia]).
  unfold fwk_unflatten_dt_nodes. rewrite isValid_true by lia. cbn [negb].
  assert (fdt32 (ds_mem w) p = FDT_ALL_NODE_START) as -> by (destruct t; apply node_at_eq in Hat as ((_ & _ & ?) & _); done). rewrite Z.eqb_refl. cbn [negb].
  assert (measured L0 L0 0 p e 0 (lay None t 0) w) as (k & Hk & Hcase).
  { eapply (measured_trans L0 L0 _ None 0 p q); [apply Hg|by apply measure_tree|lia|]. intros h m Hh' Ha.
    pose proof (kept_same_blob _ _ _ Ha). apply measured_nops; [by eapply header_agree|done|by eapply nops_agree]. }
  pose proof He as (He1 & He2 & _). assert (fuel = k + S (fuel - k - 1))%nat as Ef by lia.
  apply (f_equal (fun z => unflatten_loop lit_name lit_null fuel z lo p 0 0 SNull w)) in Ef. cbn beta in Ef. change nullptr with 0. rewrite Ef.
  destruct Hcase as [(h & m & Hh' & Ha & E)|(h & m & Hh' & Ha & E)]; rewrite E.
  - exists (lay None t 0), h, m. split; [|by auto]. pose proof (kept_same_blob _ _ _ Ha) as Hb. cbn [unflatten_loop].
    destruct (word_at_agree _ _ _ _ _ _ Hb He) as (_ & _ & Hw). simpl ds_mem. by rewrite Hw.
  - exists 0, h, m. split; [|by auto]. rewrite <- HN. by destruct w.
Qed.
End measure.
