(* ===== verification/FdtBuild.v ===== *)
(** * The second pass builds the tree

    The nodes built so far are a sequence of entries, in the order of the
    flattened tree; all the links of a node ([child], [sibling], [sprt_next],
    [allnext]) are functions of that sequence ([record]).  Adding a node appends an
    entry; its properties are then filled in one by one. *)

From Stdlib Require Import Strings.String.
From stdpp Require Import prelude gmap fin_maps sorting.
From S2P Require Import Prelude Mem Bytes MemPool MemOps Sync Generic KMalloc KMallocSpec HeapContract Fdt FdtSpec FdtMeasure.

(** ** Sequences *)

(** The element behind [x], or null. *)
Fixpoint after (x : Z) (l : list Z) : Z :=
  match l with
  | [] => 0
  | y :: l => if decide (x = y) then hd 0 l else after x l
  end.
Definition lastz (l : list Z) : Z := default 0 (last l).
Lemma lastz_snoc l a : lastz (l ++ [a]) = a.
Proof. unfold lastz. by rewrite last_snoc. Qed.
Lemma hd_snoc (l : list Z) a : hd 0 (l ++ [a]) = if decide (l = []) then a else hd 0 l.
Proof. by destruct l. Qed.
Lemma lastz_in l : l <> [] -> lastz l ∈ l.
Proof. destruct l as [|x l _] using rev_ind; [done|]. intros _. rewrite lastz_snoc. set_solver. Qed.
Lemma after_snoc l a x : NoDup l -> x ∈ l -> after x (l ++ [a]) = if decide (x = lastz l) then a else after x l.
Proof.
  induction l as [|y l IH]; intros Hnd Hx; [by apply not_elem_of_nil in Hx|]. apply NoDup_cons in Hnd as [Hy Hnd]. cbn [app after].
  destruct (decide (x = y)) as [->|Hne].
  - rewrite hd_snoc. destruct l as [|z l]; [unfold lastz; cbn; by destruct (decide (y = y))|]. rewrite (decide_False (P := z :: l = [])) by done.
    rewrite decide_False; [done|]. unfold lastz. change (last (y :: z :: l)) with (last (z :: l)). intros E. apply Hy. rewrite E. by apply lastz_in.
  - apply elem_of_cons in Hx as [?|Hx]; [done|]. rewrite (IH Hnd Hx). destruct l as [|z l]; [by apply not_elem_of_nil in Hx|]. done.
Qed.
Lemma after_notin l x : x ∉ l -> after x l = 0.
Proof. induction l as [|y l IH]; [done|]. intros [Hne Hx]%not_elem_of_cons. cbn. rewrite decide_False by done. auto. Qed.
Lemma after_snoc_new l a : a ∉ l -> after a (l ++ [a]) = 0.
Proof.
  induction l as [|y l IH]; intros Ha; cbn; [by rewrite decide_True|]. apply not_elem_of_cons in Ha as [Hne Ha]. rewrite decide_False by done. auto.
Qed.
(** Walking from the [i]-th element meets the rest. *)
Lemma after_app l1 x l2 : NoDup (l1 ++ x :: l2) -> after x (l1 ++ x :: l2) = hd 0 l2.
Proof.
  induction l1 as [|y l1 IH]; cbn; intros Hnd; [by rewrite decide_True|]. apply NoDup_cons in Hnd as [Hy Hnd].
  rewrite decide_False; [auto|]. intros ->. apply Hy. set_solver.
Qed.

Lemma alter_dec {A} (f : A -> A) (m : gmap Z A) i j : alter f i m !! j = (if decide (j = i) then f else id) <$> m !! j.
Proof.
  destruct (decide (j = i)) as [->|Hne]; [by rewrite lookup_alter_eq|]. rewrite lookup_alter_ne by done. by destruct (m !! j).
Qed.

(** ** Entries *)
Record entry := Entry { en_addr : Z; en_parent : Z; en_name : Z; en_type : Z; en_phandle : Z; en_props : list Z }.
Definition addrs (es : list entry) : list Z := en_addr <$> es.
Definition children (a : Z) (es : list entry) : list Z := en_addr <$> filter (fun e => en_parent e = a) es.
Definition record (es : list entry) (e : entry) : device_node :=
  DevNode (en_name e) (en_type e) (en_phandle e) (en_addr e + sizeof_node) (hd 0 (en_props e)) 0
    (en_parent e) (hd 0 (children (en_addr e) es)) (after (en_addr e) (children (en_parent e) es)) (lastz (children (en_addr e) es))
    (after (en_addr e) (addrs es)) 0 0.

Lemma children_snoc x es e : children x (es ++ [e]) = children x es ++ if decide (en_parent e = x) then [en_addr e] else [].
Proof.
  unfold children. rewrite filter_app, fmap_app. f_equal. destruct (decide (en_parent e = x)) as [<-|Hne]; [by rewrite filter_cons_True|by rewrite filter_cons_False].
Qed.
Lemma addrs_snoc es e : addrs (es ++ [e]) = addrs es ++ [en_addr e].
Proof. unfold addrs. by rewrite fmap_app. Qed.
Lemma children_in x es a : a ∈ children x es -> a ∈ addrs es.
Proof. unfold children, addrs. intros (e & -> & [_ He]%list_elem_of_filter)%list_elem_of_fmap. by apply list_elem_of_fmap_2. Qed.
Lemma children_NoDup x es : NoDup (addrs es) -> NoDup (children x es).
Proof.
  induction es as [|e es IH]; [done|]. unfold addrs, children in *. cbn [fmap list_fmap]. intros [He Hnd]%NoDup_cons.
  destruct (decide (en_parent e = x)); [rewrite filter_cons_True by done|rewrite filter_cons_False by done; auto].
  cbn. apply NoDup_cons. split; [|auto]. intros Hin. apply He. by apply (children_in x).
Qed.
Lemma own_child e es : e ∈ es -> en_addr e ∈ children (en_parent e) es.
Proof. intros He. unfold children. apply list_elem_of_fmap_2. by apply list_elem_of_filter. Qed.

(** What appending [e] changes in the record of an earlier entry. *)
Definition relink (es : list entry) (e : entry) (x : Z) (d : device_node) : device_node :=
  let d := if decide (x = lastz (addrs es)) then set_allnext (en_addr e) d else d in
  let d := if decide (children (en_parent e) es = []) then (if decide (x = en_parent e) then set_child (en_addr e) d else d)
           else (if decide (x = lastz (children (en_parent e) es)) then set_sibling (en_addr e) d else d) in
  if decide (x = en_parent e) then set_next (en_addr e) d else d.
Lemma record_snoc es e e' : NoDup (addrs es) -> e' ∈ es -> (forall f, f ∈ es -> en_addr f = en_addr e' -> f = e') ->
  record (es ++ [e]) e' = relink es e (en_addr e') (record es e').
Proof.
  intros Hnd He' Hun. set (x := en_addr e'). pose proof (own_child e' es He') as Hown. fold x in Hown.
  assert (x ∈ addrs es) as Hx by (by eapply children_in).
  assert (forall p, x ∈ children p es -> p = en_parent e') as Hpar.
  { intros p. unfold children. intros (f & E & Hf)%list_elem_of_fmap. apply list_elem_of_filter in Hf as [<- Hf]. by rewrite (Hun f Hf). }
  unfold record, relink. rewrite !children_snoc, addrs_snoc. fold x. rewrite (after_snoc _ _ x Hnd Hx).
  assert (hd 0 (children x es ++ (if decide (en_parent e = x) then [en_addr e] else [])) =
    if decide (x = en_parent e) then (if decide (children (en_parent e) es = []) then en_addr e else hd 0 (children x es)) else hd 0 (children x es)) as ->.
  { destruct (decide (x = en_parent e)) as [->|]; [rewrite decide_True by done; apply hd_snoc|]. rewrite decide_False by done. by rewrite app_nil_r. }
  assert (lastz (children x es ++ (if decide (en_parent e = x) then [en_addr e] else [])) = if decide (x = en_parent e) then en_addr e else lastz (children x es)) as ->.
  { destruct (decide (x = en_parent e)) as [->|]; [rewrite decide_True by done; apply lastz_snoc|]. rewrite decide_False by done. by rewrite app_nil_r. }
  assert (after x (children (en_parent e') es ++ (if decide (en_parent e = en_parent e') then [en_addr e] else [])) =
    if decide (children (en_parent e) es = []) then after x (children (en_parent e') es)
    else if decide (x = lastz (children (en_parent e) es)) then en_addr e else after x (children (en_parent e') es)) as ->.
  { destruct (decide (en_parent e = en_parent e')) as [Ep|Ep].
    - rewrite Ep, after_snoc by (done || by apply children_NoDup). rewrite (decide_False (P := children _ es = [])); [done|]. intros E. rewrite E in Hown. by apply not_elem_of_nil in Hown.
    - rewrite app_nil_r. destruct (decide (children (en_parent e) es = [])) as [|Hne]; [done|]. rewrite decide_False; [done|]. intros E. apply Ep. apply Hpar. rewrite E. by apply lastz_in. }
  destruct (decide (x = lastz (addrs es))), (decide (x = en_parent e)), (decide (children (en_parent e) es = []));
    try destruct (decide (x = lastz (children (en_parent e) es))); reflexivity.
Qed.
Lemma record_new es e : en_addr e ∉ addrs es -> en_parent e <> en_addr e -> (forall f, f ∈ es -> en_parent f <> en_addr e) ->
  record (es ++ [e]) e = DevNode (en_name e) (en_type e) (en_phandle e) (en_addr e + sizeof_node) (hd 0 (en_props e)) 0 (en_parent e) 0 0 0 0 0 0.
Proof.
  intros Hn Hp Hc. unfold record. rewrite !children_snoc, addrs_snoc, (decide_False (P := en_parent e = en_addr e)), app_nil_r by done. rewrite decide_True by done.
  assert (children (en_addr e) es = []) as ->.
  { destruct (children (en_addr e) es) as [|c l] eqn:E; [done|]. assert (c ∈ children (en_addr e) es) as Hin by (rewrite E; left).
    unfold children in Hin. apply list_elem_of_fmap in Hin as (f & _ & [Hf Hin]%list_elem_of_filter). by destruct (Hc f Hin). }
  rewrite !after_snoc_new; [done|done|]. intros Hx. apply Hn. by eapply children_in.
Qed.

(** ** The nodes of a sequence *)
Definition node_map (es : list entry) : gmap Z device_node := list_to_map ((fun e => (en_addr e, record es e)) <$> es).
Lemma map_fst_addrs es0 es : ((fun e => (en_addr e, record es0 e)) <$> es).*1 = addrs es.
Proof. unfold addrs. by rewrite <- list_fmap_compose. Qed.
Lemma node_map_in es e : NoDup (addrs es) -> e ∈ es -> node_map es !! en_addr e = Some (record es e).
Proof.
  intros Hnd He. apply elem_of_list_to_map_1; [by rewrite map_fst_addrs|]. by apply (list_elem_of_fmap_2 (fun e => (en_addr e, record es e))).
Qed.
Lemma node_map_out es x : x ∉ addrs es -> node_map es !! x = None.
Proof. intros Hx. apply not_elem_of_list_to_map_1. by rewrite map_fst_addrs. Qed.
Lemma addr_unique es e f : NoDup (addrs es) -> e ∈ es -> f ∈ es -> en_addr e = en_addr f -> e = f.
Proof.
  intros Hnd He Hf E. apply list_elem_of_lookup in He as [i Hi], Hf as [j Hj].
  assert (i = j) as ->; [|congruence]. eapply NoDup_lookup; [exact Hnd|unfold addrs; by rewrite list_lookup_fmap, Hi|]. unfold addrs. rewrite list_lookup_fmap, Hj. simpl. by rewrite E.
Qed.
(** A map agrees with the nodes of [es] when it does so entry by entry. *)
Lemma node_map_eq (N : gmap Z device_node) es : NoDup (addrs es) -> (forall e, e ∈ es -> N !! en_addr e = Some (record es e)) -> (forall x, x ∉ addrs es -> N !! x = None) -> N = node_map es.
Proof.
  intros Hnd Hin Hout. apply map_eq. intros x. destruct (decide (x ∈ addrs es)) as [Hx|Hx]; [|by rewrite Hout, node_map_out].
  unfold addrs in Hx. apply list_elem_of_fmap in Hx as (e & -> & He). by rewrite Hin, node_map_in.
Qed.
(** Links depend on addresses and parents only. *)
Lemma record_same es es' e : addrs es = addrs es' -> (forall x, children x es = children x es') -> record es e = record es' e.
Proof. intros Ea Ec. unfold record. by rewrite Ea, !Ec. Qed.
Lemma node_map_last es e e' f : NoDup (addrs (es ++ [e])) -> en_addr e' = en_addr e -> en_parent e' = en_parent e ->
  (forall es, record es e' = f (record es e)) -> node_map (es ++ [e']) = alter f (en_addr e) (node_map (es ++ [e])).
Proof.
  intros Hnd Ea Ep Hf. assert (addrs (es ++ [e']) = addrs (es ++ [e])) as Eas by (by rewrite !addrs_snoc, Ea).
  assert (forall x, children x (es ++ [e']) = children x (es ++ [e])) as Ech by (intros x; by rewrite !children_snoc, Ea, Ep).
  symmetry. apply node_map_eq; [by rewrite Eas|..].
  - intros g Hg. rewrite (record_same _ _ g Eas Ech). apply elem_of_app in Hg as [Hg| ->%list_elem_of_singleton].
    + rewrite lookup_alter_ne; [by apply node_map_in; [|set_solver]|]. rewrite addrs_snoc in Hnd. apply NoDup_app in Hnd as (_ & Hnd & _). intros E. apply (Hnd (en_addr g)); [by apply list_elem_of_fmap_2|]. rewrite <- E. left.
    + rewrite Ea, lookup_alter_eq, node_map_in by (done || set_solver). simpl. by rewrite Hf.
  - intros x Hx. rewrite Eas in Hx. rewrite alter_dec, node_map_out by done. done.
Qed.

(** ** Linking a new node *)
Definition slot_of (es : list entry) : slot := if decide (es = []) then SHead else SNext (lastz (addrs es)).
Definition new_entry (a parent : Z) : entry := Entry a parent 0 0 (-1) [].
(** The nodes when the new one is filled but not yet hung below its parent. *)
Definition unlinked (es : list entry) (a parent : Z) (N : gmap Z device_node) : gmap Z device_node :=
  let N := <[a := zero_node]> N in
  let N := if decide (es = []) then N else alter (set_allnext a) (lastz (addrs es)) N in
  alter (fun d => set_phandle (-1) (set_parent parent d)) a (alter (set_full_name (a + sizeof_node)) a N).
Lemma lastz_addrs es : es <> [] -> lastz (addrs es) ∈ addrs es.
Proof. intros He. apply lastz_in. by destruct es. Qed.
Definition hung (es : list entry) (a parent : Z) (N : gmap Z device_node) : gmap Z device_node :=
  if decide (parent = 0) then N
  else alter (set_next a) parent (if decide (children parent es = []) then alter (set_child a) parent N else alter (set_sibling a) (lastz (children parent es)) N).

Lemma node_map_snoc es a parent : NoDup (addrs es) -> a ∉ addrs es -> a <> 0 -> (if decide (parent = 0) then es = [] else parent ∈ addrs es) -> (forall f, f ∈ es -> en_parent f <> a) ->
  node_map (es ++ [new_entry a parent]) = hung es a parent (unlinked es a parent (node_map es)).
Proof.
  intros Hnd Ha Ha0 Hpar Hno. set (e := new_entry a parent). symmetry.
  assert (parent <> a) as Hpa by (intros ->; destruct (decide (a = 0)); done).
  assert (forall x, x ∈ addrs es -> x <> a) as Hne by (intros x Hx ->; done).
  assert (es <> [] -> lastz (addrs es) <> a) as Hl1 by (intros He; by apply Hne, lastz_addrs).
  assert (children parent es <> [] -> lastz (children parent es) <> a) as Hl2 by (intros He; apply Hne; eapply children_in; by apply lastz_in).
  apply node_map_eq.
  - rewrite addrs_snoc. apply NoDup_app. split; [done|]. split; [|apply NoDup_singleton]. intros x Hx ->%list_elem_of_singleton. done.
  - intros g [Hg| ->%list_elem_of_singleton]%elem_of_app.
    + rewrite (record_snoc es e g Hnd Hg) by (intros f Hf E; by apply (addr_unique es)). assert (en_addr g ∈ addrs es) as Hx by (by apply list_elem_of_fmap_2).
      specialize (Hne _ Hx). unfold hung, unlinked, relink. change (en_parent e) with parent. change (en_addr e) with a.
      rewrite (decide_False (P := es = [])) by (intros ->; by apply not_elem_of_nil in Hg). destruct (decide (parent = 0)) as [->|Hp]; [subst es; by apply not_elem_of_nil in Hg|].
      destruct (decide (children parent es = [])); rewrite !alter_dec, lookup_insert_ne, (node_map_in es g) by done; rewrite !(decide_False (P := en_addr g = a)) by done;
        destruct (decide (en_addr g = parent)), (decide (en_addr g = lastz (addrs es))); try destruct (decide (en_addr g = lastz (children parent es))); reflexivity.
    + rewrite record_new by done. change (en_addr e) with a. unfold hung, unlinked.
      destruct (decide (parent = 0)), (decide (children parent es = [])), (decide (es = [])); rewrite !alter_dec, lookup_insert_eq;
        repeat match goal with |- context [decide (a = ?x)] => first [rewrite (decide_True (P := a = a)) by done|rewrite (decide_False (P := a = x)) by (first [apply not_eq_sym|idtac]; auto)] end; reflexivity.
  - intros x Hx. rewrite addrs_snoc in Hx. apply not_elem_of_app in Hx as [Hx Hx2]. assert (a <> x) by (intros <-; apply Hx2; left). unfold hung, unlinked.
    destruct (decide (parent = 0)), (decide (children parent es = [])), (decide (es = [])); rewrite !alter_dec, lookup_insert_ne, node_map_out by done; done.
Qed.

(** ** What an entry stands for *)

(** The last property called [nm]. *)
Definition last_prop (nm : list Z) (xs : list dprop) : option dprop := last (filter (fun x => dp_name x = nm) xs).
Lemma last_prop_snoc nm xs x : last_prop nm (xs ++ [x]) = if decide (dp_name x = nm) then Some x else last_prop nm xs.
Proof.
  unfold last_prop. rewrite filter_app. destruct (decide (dp_name x = nm)).
  - by rewrite filter_cons_True, filter_nil, last_snoc.
  - by rewrite filter_cons_False, filter_nil, app_nil_r.
Qed.
Definition be32 (l : list Z) : Z :=
  match l with a :: b :: c :: d :: _ => a * 16777216 + b * 65536 + c * 256 + d | _ => 0 end.
Lemma fdt32_be32 m p l : Bytes.bytes_at m p l -> 4 <= len l -> Forall byte l -> fdt32 m p = be32 l.
Proof.
  intros Hb Hl Hr. destruct l as [|a [|b [|c [|d l]]]]; try (rewrite ?len_cons, ?len_nil in Hl; lia). cbn [Bytes.bytes_at] in Hb. destruct Hb as (Ea & Eb & Ec & Ed & _).
  rewrite !Forall_cons in Hr. destruct Hr as (Ha & Hb & Hc & Hd & _). unfold byte in *. cbn [be32]. unfold fdt32, be32_to_cpu, reverse_byte32, ld32.
  replace (p + 2) with (p + 1 + 1) by lia. replace (p + 3) with (p + 1 + 1 + 1) by lia. rewrite Ea, Eb, Ec, Ed. Z.to_euclidean_division_equations; lia.
Qed.

(** An object of [n] bytes that does not reach the error codes. *)
Definition in_range (p n : Z) : Prop := 0 < p /\ p + n <= W32 - 4096.

Section entries.
Context (K : Z -> Prop) (m : mem) (P : gmap Z of_property).

(** The property [x] at [a], followed by the one at [next]. *)
Definition prop_ok (a next : Z) (x : dprop) : Prop :=
  K a /\ isValid a = true /\ exists np vp, P !! a = Some (OfProp np (len (dp_value x)) vp next) /\ in_range vp (len (dp_value x)) /\
    cstr m np (dp_name x) /\ (forall z, np <= z <= np + len (dp_name x) -> K z) /\
    Bytes.bytes_at m vp (dp_value x) /\ (forall z, vp <= z < vp + len (dp_value x) -> K z).
Fixpoint chain (l : list Z) (xs : list dprop) : Prop :=
  match l, xs with
  | [], [] => True
  | a :: l, x :: xs => a ∉ l /\ prop_ok a (hd 0 l) x /\ chain l xs
  | _, _ => False
  end.
Definition field_ok (dflt ptr : Z) (o : option dprop) : Prop :=
  match o with
  | Some x => 0 < ptr /\ Bytes.bytes_at m ptr (dp_value x) /\ forall z, ptr <= z < ptr + len (dp_value x) -> K z
  | None => ptr = dflt
  end.
Definition phandle_ok (ph : Z) (o : option dprop) : Prop :=
  match o with
  | Some x => 4 <= len (dp_value x) -> Forall byte (dp_value x) -> ph = s32 (be32 (dp_value x))
  | None => ph = -1
  end.
(** [dflt] is the name and the type of a node that has none. *)
Record entry_ok (dflt : Z) (par : place) (name : list Z) (xs : list dprop) (e : entry) : Prop := {
  eo_addr : K (en_addr e) /\ isValid (en_addr e) = true;
  eo_path : cstr m (en_addr e + sizeof_node) (path_of par name);
  eo_room : forall z, en_addr e + sizeof_node <= z <= en_addr e + sizeof_node + len (path_of par name) -> K z;
  eo_props : chain (en_props e) xs;
  eo_name : field_ok dflt (en_name e) (last_prop (lit "name") xs);
  eo_type : field_ok dflt (en_type e) (last_prop (lit "device_type") xs);
  eo_phandle : phandle_ok (en_phandle e) (last_prop (lit "phandle") xs);
}.
End entries.

(** Nothing of this depends on what happens outside of [K]. *)
Section frame.
Context (K K' : Z -> Prop) (m m' : mem) (P P' : gmap Z of_property).
Context (sub : forall a, K a -> K' a) (mem_same : agree K m m').
Lemma prop_ok_frame a next x : (K a -> P' !! a = P !! a) -> prop_ok K m P a next x -> prop_ok K' m' P' a next x.
Proof using sub mem_same.
  intros HP (Ha & Hpos & np & vp & Hl & Hv & Hn & Hnk & Hb & Hbk). split; [auto|]. split; [done|]. exists np, vp. rewrite HP by done. split_and!; auto.
  - eapply cstr_agree; [|exact Hn]. intros z Hz. by apply mem_same, Hnk.
  - eapply bytes_at_agree; [|exact Hb]. intros z Hz. by apply mem_same, Hbk.
Qed.
Lemma chain_frame l xs : (forall a, a ∈ l -> P' !! a = P !! a) -> chain K m P l xs -> chain K' m' P' l xs.
Proof using sub mem_same.
  revert xs. induction l as [|a l IH]; intros [|x xs] HP; try done. intros (Hn & Hp & Hc). split; [done|]. split.
  - eapply prop_ok_frame; [|exact Hp]. intros _. apply HP. left.
  - apply IH; [|done]. intros b Hb. apply HP. by right.
Qed.
Lemma field_ok_frame dflt ptr o : field_ok K m dflt ptr o -> field_ok K' m' dflt ptr o.
Proof using sub mem_same.
  destruct o as [x|]; [|done]. intros (Hp & Hb & Hk). split; [done|]. split; [|auto]. eapply bytes_at_agree; [|exact Hb]. intros z Hz. by apply mem_same, Hk.
Qed.
Lemma entry_ok_frame dflt par name xs e : (forall a, a ∈ en_props e -> P' !! a = P !! a) -> entry_ok K m P dflt par name xs e -> entry_ok K' m' P' dflt par name xs e.
Proof using sub mem_same.
  intros HP [[Ha Hv] Hp Hr Hc Hn Ht Hph]. split; [split; auto| |auto|by eapply chain_frame|by apply field_ok_frame..|done].
  eapply cstr_agree; [|exact Hp]. intros z Hz. by apply mem_same, Hr.
Qed.
End frame.
Lemma chain_in K m P l xs a : chain K m P l xs -> a ∈ l -> K a.
Proof.
  revert xs. induction l as [|b l IH]; intros [|x xs]; try done; [by intros _ ?%not_elem_of_nil|]. intros (_ & (Hk & _) & Hc) [->|Hin]%elem_of_cons; [done|eauto].
Qed.

(** ** Properties are added one by one *)
Definition set_prop_next (v : Z) (d : of_property) : of_property := OfProp (pr_name d) (pr_length d) (pr_value d) v.
(** The properties [P] with [d] at [pa] behind the last one of [l]. *)
Definition hang_prop (l : list Z) (pa : Z) (d : of_property) (P : gmap Z of_property) : gmap Z of_property :=
  let P := <[pa := d]> P in if decide (l = []) then P else alter (set_prop_next pa) (lastz l) P.
Lemma hang_prop_other l pa d P a : a <> pa -> (l <> [] -> a <> lastz l) -> hang_prop l pa d P !! a = P !! a.
Proof. intros Hne Hl. unfold hang_prop. destruct (decide (l = [])); [by rewrite lookup_insert_ne|]. rewrite lookup_alter_ne by (apply not_eq_sym; auto). by rewrite lookup_insert_ne. Qed.
Lemma lastz_cons a b l : lastz (a :: b :: l) = lastz (b :: l).
Proof. done. Qed.
Lemma chain_snoc K m P l xs pa d x : chain K m P l xs -> pa ∉ l -> prop_ok K m (<[pa := d]> P) pa 0 x -> chain K m (hang_prop l pa d P) (l ++ [pa]) (xs ++ [x]).
Proof.
  revert xs. induction l as [|a l IH]; intros [|x0 xs]; [done..|].
  - intros (Ha & Hp & Hc) [Hne Hpa]%not_elem_of_cons Hx. cbn [app chain]. split; [rewrite elem_of_app, list_elem_of_singleton; naive_solver|].
    destruct l as [|b l].
    + destruct xs; [|done]. cbn [app chain hd]. unfold hang_prop. rewrite decide_False by done. change (lastz [a]) with a. split; [|split; [by apply not_elem_of_nil|]].
      * destruct Hp as (? & ? & np & vp & Hl & Hr). split; [done|]. split; [done|]. exists np, vp. by rewrite lookup_alter_eq, lookup_insert_ne, Hl by done.
      * split; [|done]. destruct Hx as (? & ? & np & vp & Hl & Hr). split; [done|]. split; [done|]. exists np, vp. by rewrite lookup_alter_ne.
    + split; [|exact (IH xs Hc Hpa Hx)]. cbn [app hd] in *. eapply prop_ok_frame; [done|done| |exact Hp]. intros _.
      apply hang_prop_other; [done|]. intros _ E. apply Ha. rewrite E. by apply (lastz_in (b :: l)).
Qed.

(** A property seen by its node, and hung below it. *)
Definition note_entry (m : mem) (x : dprop) (vp : Z) (e : entry) : entry :=
  if bool_decide (dp_name x = lit "name") then Entry (en_addr e) (en_parent e) vp (en_type e) (en_phandle e) (en_props e)
  else if bool_decide (dp_name x = lit "device_type") then Entry (en_addr e) (en_parent e) (en_name e) vp (en_phandle e) (en_props e)
  else if bool_decide (dp_name x = lit "phandle") then Entry (en_addr e) (en_parent e) (en_name e) (en_type e) (s32 (fdt32 m vp)) (en_props e)
  else e.
Definition push_entry (pa : Z) (e : entry) : entry := Entry (en_addr e) (en_parent e) (en_name e) (en_type e) (en_phandle e) (en_props e ++ [pa]).
Definition prev_of (e : entry) : pslot := if decide (en_props e = []) then PNode (en_addr e) else PProp (lastz (en_props e)).
Lemma note_entry_same m x vp e : en_addr (note_entry m x vp e) = en_addr e /\ en_parent (note_entry m x vp e) = en_parent e /\ en_props (note_entry m x vp e) = en_props e.
Proof. unfold note_entry. repeat case_bool_decide; done. Qed.
Lemma record_note m x vp e es : record es (note_entry m x vp e) = noted m x vp (record es e).
Proof. unfold note_entry, noted, is_name. repeat case_bool_decide; done. Qed.
Lemma record_push pa e es : record es (push_entry pa e) = (if decide (en_props e = []) then set_properties pa else id) (record es e).
Proof. unfold record, push_entry. cbn. rewrite hd_snoc. by destruct (decide (en_props e = [])). Qed.
Lemma entry_ok_push K m P dflt par name xs e x np vp pa : entry_ok K m P dflt par name xs e -> pa ∉ en_props e ->
  prop_ok K m (<[pa := OfProp np (len (dp_value x)) vp 0]> P) pa 0 x -> 0 < vp -> Bytes.bytes_at m vp (dp_value x) -> (forall z, vp <= z < vp + len (dp_value x) -> K z) ->
  entry_ok K m (hang_prop (en_props e) pa (OfProp np (len (dp_value x)) vp 0) P) dflt par name (xs ++ [x]) (push_entry pa (note_entry m x vp e)).
Proof.
  intros [Ha Hp Hr Hc Hn Ht Hph] Hpa Hx Hv Hb Hk. destruct (note_entry_same m x vp e) as (E1 & E2 & E3).
  split; cbn [push_entry en_addr en_props en_name en_type en_phandle]; rewrite ?E1, ?E3; try done; [by apply chain_snoc|..]; rewrite last_prop_snoc;
    (destruct (decide _) as [E|E]; unfold note_entry; [rewrite E|]).
  - done.
  - rewrite bool_decide_eq_false_2 by done. by repeat case_bool_decide.
  - done.
  - repeat case_bool_decide; done.
  - intros Hl Hby. by rewrite <- (fdt32_be32 m vp).
  - repeat case_bool_decide; done.
Qed.

Section build.
Context {H : Type} `{KernelHeap H}.
Context (lit_name lit_null : Z) (fuel : nat) (lo hi strs base top : Z).
Context (enough : hi - lo < Z.of_nat fuel).
(** The block [base, top) is apart from the flattened tree and the constant "name". *)
Context (room : 0 < base /\ top <= W32 - 4096) (apart : hi <= base \/ top <= lo).
Context (lit_apart : 0 < lit_name /\ (lit_name + 5 <= base \/ top <= lit_name)).
Local Notation dsys := (@dsys H).
Local Notation header_ok := (header_ok lo hi strs).

(** What the rest of the pass does not touch when it has come to [mem]. *)
Definition settled (mem a : Z) : Prop := a < mem \/ top <= a.
Lemma settled_le mem mem' a : mem <= mem' -> settled mem a -> settled mem' a.
Proof. clear. unfold settled. lia. Qed.
Lemma settled_blob mem a : base <= mem -> lo <= a < hi -> settled mem a.
Proof using apart. clear -apart. unfold settled. lia. Qed.

Lemma set_pslot_prev (es : list entry) e pa d (w : dsys) m1 x vp P : NoDup (addrs (es ++ [e])) -> en_props (note_entry m1 x vp e) = en_props e ->
  (forall a, a ∈ en_props e -> is_Some (P !! a)) -> pa ∉ en_props e ->
  set_pslot (prev_of e) pa (dput_nodes (node_map (es ++ [note_entry m1 x vp e])) (dput_props (<[pa := d]> P) w)) =
    Ok (dput_nodes (node_map (es ++ [push_entry pa (note_entry m1 x vp e)])) (dput_props (hang_prop (en_props e) pa d P) w)).
Proof.
  clear. intros Hnd Ep HP Hpa. destruct (note_entry_same m1 x vp e) as (E1 & E2 & _). set (e1 := note_entry m1 x vp e) in *.
  assert (NoDup (addrs (es ++ [e1]))) as Hnd1 by (rewrite addrs_snoc, E1; by rewrite addrs_snoc in Hnd).
  rewrite (node_map_last es e1 (push_entry pa e1) (if decide (en_props e = []) then set_properties pa else id)); [|done..|intros es'; rewrite <- Ep; apply record_push].
  unfold prev_of, hang_prop. destruct (decide (en_props e = [])) as [E|E]; cbn [set_pslot].
  - rewrite <- E1. by erewrite upd_node_alter by (apply node_map_in; [done|set_solver]).
  - rewrite alter_id by done. destruct (HP (lastz (en_props e))) as [y Hy]; [by apply lastz_in|]. simpl ds_props.
    assert (pa <> lastz (en_props e)) as Hne by (intros ->; apply Hpa; by apply lastz_in).
    rewrite lookup_insert_ne, Hy by done. cbn [deref mbind res_bind]. f_equal. unfold put_prop, dput_props, dput_nodes. cbn. f_equal. apply map_eq. intros i. destruct (decide (lastz (en_props e) = i)) as [<-|Hi];
      [by rewrite lookup_insert_eq, lookup_alter_eq, lookup_insert_ne, Hy|by rewrite lookup_insert_ne, lookup_alter_ne].
Qed.
Lemma chain_some K m P l xs a : chain K m P l xs -> a ∈ l -> is_Some (P !! a).
Proof.
  clear. revert xs. induction l as [|b l IH]; intros [|x xs]; try done; [by intros _ ?%not_elem_of_nil|].
  intros (_ & (_ & _ & np & vp & Hp & _) & Hc) [->|Hin]%elem_of_cons; [by rewrite Hp|eauto].
Qed.

(** One step of the loop over the properties. *)
Lemma fill_one_prop es e par name xs x p q n mem has (w : dsys) : header_ok (ds_mem w) -> NoDup (addrs (es ++ [e])) -> ds_nodes w = node_map (es ++ [e]) ->
  entry_ok (settled mem) (ds_mem w) (ds_props w) 0 par name xs e -> prop_at lo hi strs (ds_mem w) x p q -> base <= mem -> lay_prop mem <= top ->
  exists e' P', populate_loop (S n) lo p mem (en_addr e) (SNext (en_addr e)) has (prev_of e) w =
      populate_loop n lo q (lay_prop mem) (en_addr e) (SNext (en_addr e)) (is_name x || has) (prev_of e') (dput_nodes (node_map (es ++ [e'])) (dput_props P' w)) /\
    en_addr e' = en_addr e /\ en_parent e' = en_parent e /\ en_props e' = en_props e ++ [up4 mem] /\
    entry_ok (settled (lay_prop mem)) (ds_mem w) P' 0 par name (xs ++ [x]) e' /\
    (forall a, settled mem a -> a ∉ en_props e -> P' !! a = ds_props w !! a).
Proof using room apart.
  clear enough lit_apart. intros Hh Hnd EN Hok Hx Hb Hl. destruct room as [Hr1 Hr2]. destruct (ho_range _ _ _ _ Hh) as (Hlo & Hhi & _). pose proof (up4_bounds mem) as [Hup _]. pose proof (lay_prop_grows mem) as Hg.
  destruct (one_property lo hi strs x p q mem (en_addr e) (SNext (en_addr e)) has w Hh Hx) as (np & (Hn1 & Hn2 & Hn) & E); [lia|lia|].
  set (pa := up4 mem) in *. set (d := OfProp np (len (dp_value x)) (p + 12) 0).
  pose proof (prop_at_le _ _ _ _ _ _ _ Hx) as [Hp1 Hp2]. pose proof Hx as (Htag & _ & _ & Hend & Hval & _). pose proof (len_nonneg (dp_value x)).
  assert (pa ∉ en_props e) as Hpa.
  { intros Hin. pose proof (chain_in _ _ _ _ _ _ (eo_props _ _ _ _ _ _ _ _ Hok) Hin) as Hs. unfold settled, lay_prop, sizeof_prop in *. lia. }
  assert (e ∈ es ++ [e]) as He by set_solver. destruct (note_entry_same (ds_mem w) x (p + 12) e) as (E1 & E2 & E3).
  assert (forall z, lo <= z < hi -> settled (lay_prop mem) z) as Hblob by (intros z Hz; apply settled_blob; lia).
  exists (push_entry pa (note_entry (ds_mem w) x (p + 12) e)), (hang_prop (en_props e) pa d (ds_props w)). split_and!.
  - cbn [populate_loop]. rewrite (proj2 (proj2 Htag)). cbn [FDT_NODE_PROP FDT_NODE_NOP Z.eqb Pos.eqb]. rewrite E. cbn [slot_valid].
    assert (ds_nodes (put_prop pa d w) !! en_addr e = Some (record (es ++ [e]) e)) as Hd by (simpl; rewrite EN; by apply node_map_in).
    change (OfProp np (len (dp_value x)) (p + 12) nullptr) with d. rewrite (note_property_spec x np (p + 12) (en_addr e) _ (put_prop pa d w) Hn Hd). cbn [mbind res_bind].
    rewrite isValid_true by (unfold lay_prop, sizeof_prop in *; lia). cbn [negb].
    assert (dput_nodes (alter (noted (ds_mem (put_prop pa d w)) x (p + 12)) (en_addr e) (ds_nodes (put_prop pa d w))) (put_prop pa d w) =
      dput_nodes (node_map (es ++ [note_entry (ds_mem w) x (p + 12) e])) (dput_props (<[pa := d]> (ds_props w)) w)) as ->.
    { simpl. rewrite EN. rewrite (node_map_last es e (note_entry (ds_mem w) x (p + 12) e) (noted (ds_mem w) x (p + 12))); [done|done|done|done|]. intros es'. apply record_note. }
    rewrite set_pslot_prev by (done || (intros a Ha; by eapply chain_some; [apply Hok|])). cbn [mbind res_bind].
    unfold prev_of at 1. cbn [push_entry en_props]. rewrite (decide_False (P := _ ++ [pa] = [])) by (by destruct (en_props (note_entry (ds_mem w) x (p + 12) e))). by rewrite lastz_snoc.
  - done.
  - done.
  - cbn [push_entry en_props]. by rewrite E3.
  - apply entry_ok_push; try done; [|split_and!; [|apply isValid_true; unfold lay_prop, sizeof_prop in *; lia|]|lia|intros z Hz; apply Hblob; lia].
    + eapply entry_ok_frame; [|done|done|exact Hok]. intros a. apply settled_le. lia.
    + unfold settled, lay_prop, sizeof_prop in *. lia.
    + exists np, (p + 12). rewrite lookup_insert_eq. split_and!; try done; [unfold in_range; lia|intros z Hz; apply Hblob; lia|intros z Hz; apply Hblob; lia].
  - intros a Ha Hin. apply hang_prop_other; [unfold settled, lay_prop, sizeof_prop in *; lia|]. intros Hne ->. apply Hin. by apply lastz_in.
Qed.
Lemma fill_props props : forall es e par name xs p q n mem has (w : dsys), header_ok (ds_mem w) -> NoDup (addrs (es ++ [e])) -> ds_nodes w = node_map (es ++ [e]) ->
  entry_ok (settled mem) (ds_mem w) (ds_props w) 0 par name xs e -> props_at lo hi strs (ds_mem w) props p q -> q - p < Z.of_nat n -> base <= mem -> Nat.iter (length props) lay_prop mem <= top ->
  exists e' P', populate_loop n lo p mem (en_addr e) (SNext (en_addr e)) has (prev_of e) w =
      Ok (q, Nat.iter (length props) lay_prop mem, has_name props || has, prev_of e', dput_nodes (node_map (es ++ [e'])) (dput_props P' w)) /\
    en_addr e' = en_addr e /\ en_parent e' = en_parent e /\ entry_ok (settled (Nat.iter (length props) lay_prop mem)) (ds_mem w) P' 0 par name (xs ++ props) e' /\
    (forall a, settled mem a -> a ∉ en_props e -> P' !! a = ds_props w !! a) /\ (forall a, a ∈ en_props e' -> a ∈ en_props e \/ ~ settled mem a).
Proof using room apart.
  clear enough lit_apart. induction props as [|x props IH]; intros es e par name xs p q n mem has w Hh Hnd EN Hok Hp Hn Hm Hl; cbn [props_at] in Hp.
  - destruct Hp as [Hnop (v & Hv & Hv1 & Hv2)]. destruct (populate_skip lo hi strs p q q n mem (en_addr e) (SNext (en_addr e)) has (prev_of e) w Hh Hnop) as (n' & -> & _); [lia|lia|].
    cbn [populate_loop]. rewrite (proj2 (proj2 Hv)), (proj2 (Z.eqb_neq v FDT_NODE_NOP)) by done. rewrite (no_property lo hi q mem (en_addr e) (SNext (en_addr e)) has w v Hv Hv2).
    exists e, (ds_props w). rewrite app_nil_r. split_and!; try done; [|auto]. cbn [mbind res_bind isValid nullptr Z.eqb negb andb has_name existsb orb length Nat.iter]. rewrite <- EN. by destruct w.
  - destruct Hp as (p1 & p2 & Hnop & Hx & Hrest). pose proof (prop_at_le _ _ _ _ _ _ _ Hx) as [Hlo Hle]. pose proof (props_at_le _ _ _ _ _ _ _ Hrest). pose proof (len_nonneg (dp_value x)).
    destruct (populate_skip lo hi strs p p1 q n mem (en_addr e) (SNext (en_addr e)) has (prev_of e) w Hh Hnop) as (n' & -> & Hn'); [lia|lia|].
    cbn [length] in *. rewrite Nat.iter_succ_r in *. pose proof (lay_props_grow (length props) (lay_prop mem)). pose proof (lay_prop_grows mem).
    destruct (fill_one_prop es e par name xs x p1 p2 n' mem has w Hh Hnd EN Hok Hx Hm) as (e1 & P1 & -> & Ea & Ep & Eps & Hok1 & HP1); [lia|]. rewrite <- Ea.
    assert (NoDup (addrs (es ++ [e1]))) as Hnd1 by (rewrite addrs_snoc, Ea; by rewrite addrs_snoc in Hnd).
    destruct (IH es e1 par name (xs ++ [x]) p2 q n' (lay_prop mem) (is_name x || has) (dput_nodes (node_map (es ++ [e1])) (dput_props P1 w)) Hh Hnd1 eq_refl Hok1 Hrest) as (e2 & P2 & E2 & Ea2 & Ep2 & Hok2 & HP2 & Hin2);
      [lia|lia|done|].
    exists e2, P2. split_and!; [rewrite E2|by rewrite Ea2|by rewrite Ep2|by rewrite <- app_assoc in Hok2|..].
    + replace (has_name (x :: props)) with (is_name x || has_name props) by done. by rewrite orb_assoc, (orb_comm (has_name props)).
    + intros a Ha Hin. rewrite HP2; [by apply HP1|by eapply settled_le; [|exact Ha]; lia|]. rewrite Eps, elem_of_app, list_elem_of_singleton. intros [?| ->]; [done|].
      pose proof (up4_bounds mem). unfold settled, lay_prop, sizeof_prop in *. lia.
    + intros a [Hin|Hs]%Hin2; [|right; intros Ha; apply Hs; eapply settled_le; [|exact Ha]; lia]. rewrite Eps, elem_of_app, list_elem_of_singleton in Hin. destruct Hin as [?| ->]; [by left|right].
      pose proof (up4_bounds mem). unfold settled, lay_prop, sizeof_prop in *. lia.
Qed.
(** A node without a property "name" gets one. *)
Lemma settled_lit mem z : base <= mem -> lit_name <= z <= lit_name + len (lit "name") -> settled mem z.
Proof using lit_apart. clear -lit_apart. change (len (lit "name")) with 4. unfold settled. lia. Qed.
Lemma fill_name es e par name xs mem (w : dsys) : NoDup (addrs (es ++ [e])) -> ds_nodes w = node_map (es ++ [e]) -> entry_ok (settled mem) (ds_mem w) (ds_props w) 0 par name xs e ->
  47 ∉ name -> (par = None -> name = []) -> len name < 2147483647 -> (length (path_of par name) < fuel)%nat -> 0 < en_addr e -> en_addr e + sizeof_node + len (path_of par name) < mem -> base <= mem ->
  cstr (ds_mem w) lit_name (lit "name") -> lay_prop mem + len (unit_name name) + 1 <= top ->
  exists e' P' m', add_name lit_name fuel mem (en_addr e) (SNext (en_addr e)) (prev_of e) w =
      Ok (lay_prop mem + len (unit_name name) + 1, dput_nodes (node_map (es ++ [e'])) (dput_props P' (dput_mem m' w))) /\
    en_addr e' = en_addr e /\ en_parent e' = en_parent e /\
    entry_ok (settled (lay_prop mem + len (unit_name name) + 1)) m' P' 0 par name (xs ++ [DProp (lit "name") (unit_name name ++ [0])]) e' /\
    agree (fun a => ~ (mem <= a < lay_prop mem + len (unit_name name) + 1)) (ds_mem w) m' /\
    (forall a, settled mem a -> a ∉ en_props e -> P' !! a = ds_props w !! a) /\ (forall a, a ∈ en_props e' -> a ∈ en_props e \/ ~ settled mem a).
Proof using room lit_apart.
  clear enough apart. intros Hnd EN Hok Hz Hroot Hshort Hf Ha Hbelow Hb Hlit Hl. destruct room as [Hr1 Hr2]. pose proof (up4_bounds mem) as [Hup _]. pose proof (len_nonneg (unit_name name)) as Hlu.
  pose proof (len_nonneg (path_of par name)) as Hlp. pose proof (eq_refl : sizeof_node = 52) as Hsz. pose proof (unit_name_len name) as Hul. unfold lay_prop, sizeof_prop in *.
  assert (e ∈ es ++ [e]) as He by set_solver. unfold add_name. rewrite EN, (node_map_in _ e Hnd He). cbn [deref mbind res_bind record dn_full_name].
  destruct (scan_path_spec (ds_mem w) (en_addr e + sizeof_node) par name fuel (eo_path _ _ _ _ _ _ _ _ Hok) Hz Hroot Hf) as (p1 & p3 & -> & E & Hv & Hsrc); [lia|lia|]. cbn [mbind res_bind].
  set (v := en_addr e + sizeof_node + len (path_of par name) - len name) in *. assert (v + len name < mem) as Hvm by lia. rewrite E. clear E.
  rewrite (u32_id (len (unit_name name) + 1)) by lia. unfold fwk_fdt_add_string_properties, fwk_fdt_memory_calculate, sizeof_prop.
  rewrite (u32_id (16 + _)) by lia. rewrite align4_up by lia. rewrite (u32_id (up4 mem + (16 + _))) by lia. cbn [slot_valid].
  set (pa := up4 mem) in *. rewrite (u32_id (pa + 16)) by lia. rewrite (u32_id (_ - 1)) by lia. replace (len (unit_name name) + 1 - 1) with (len (unit_name name)) by lia.
  rewrite (u32_id (pa + 16 + (len (unit_name name) + 1) - 1)) by lia. rewrite (s32_id (len (unit_name name) + 1)) by lia. simpl ds_mem.
  destruct (memcpy (ds_mem w) (pa + 16) v (len (unit_name name))) as [m1 ret] eqn:Em.
  pose proof (memcpy_list (ds_mem w) (pa + 16) v (unit_name name) ltac:(lia) ltac:(lia) ltac:(lia) ltac:(lia) Hsrc m1 ltac:(by rewrite Em)) as Hm1.
  set (m' := st m1 (pa + 16 + (len (unit_name name) + 1) - 1) 0). set (x := DProp (lit "name") (unit_name name ++ [0])).
  assert (len (dp_value x) = len (unit_name name) + 1) as Elx by (simpl; rewrite len_app, len_cons, len_nil; lia). rewrite <- Elx. set (d := OfProp lit_name (len (dp_value x)) (pa + 16) 0).
  assert (agree (fun a => ~ (mem <= a < pa + 16 + len (unit_name name) + 1)) (ds_mem w) m') as Hag by (intros a Hx; unfold m'; rewrite st_ne, Hm1 by lia; apply st_list_out; lia).
  assert (Bytes.bytes_at m' (pa + 16) (dp_value x)) as Hbx.
  { simpl. apply bytes_at_app. split; [|split; [|done]; unfold m'; replace (pa + 16 + (len (unit_name name) + 1) - 1) with (pa + 16 + len (unit_name name)) by lia; apply st_eq].
    eapply bytes_at_agree; [|apply (st_list_read (ds_mem w))]. intros a Hx. unfold m'. rewrite st_ne by lia. apply Hm1. }
  assert (pa ∉ en_props e) as Hpa.
  { intros Hin. pose proof (chain_in _ _ _ _ _ _ (eo_props _ _ _ _ _ _ _ _ Hok) Hin) as Hs. unfold settled in *. lia. }
  destruct (note_entry_same m' x (pa + 16) e) as (E1 & E2 & E3).
  erewrite upd_node_alter by (simpl; rewrite EN; by apply node_map_in). cbn [mbind res_bind].
  match goal with |- context [set_pslot _ _ ?w1] => assert (w1 = dput_nodes (node_map (es ++ [note_entry m' x (pa + 16) e])) (dput_props (<[pa := d]> (ds_props w)) (dput_mem m' w))) as -> end.
  { simpl. rewrite EN, (node_map_last es e (note_entry m' x (pa + 16) e) (set_name (pa + 16))) by done. done. }
  rewrite isValid_true by lia. cbn [andb]. rewrite set_pslot_prev by (done || (intros a Hin; by eapply chain_some; [apply Hok|])). cbn [mbind res_bind].
  exists (push_entry pa (note_entry m' x (pa + 16) e)), (hang_prop (en_props e) pa d (ds_props w)), m'. split_and!; try done.
  - f_equal. f_equal. lia.
  - apply entry_ok_push; try done; [|split_and!; [unfold settled; lia|apply isValid_true; lia|]|lia|intros z Hx; unfold settled; lia].
    + eapply entry_ok_frame; [| |done|exact Hok]; [intros a; apply settled_le; lia|]. intros a Hs. apply Hag. unfold settled in Hs. lia.
    + exists lit_name, (pa + 16). rewrite lookup_insert_eq. split_and!; try done; [unfold in_range; lia| |intros z Hx; apply settled_lit; [lia|done]|intros z Hx; unfold settled; lia].
      eapply cstr_agree; [|exact Hlit]. intros z Hx. apply Hag. pose proof (settled_lit mem z Hb Hx) as Hs. unfold settled in Hs. lia.
  - intros a Hs Hin. apply hang_prop_other; [unfold settled in *; lia|]. intros Hne ->. apply Hin. by apply lastz_in.
  - intros a. cbn [push_entry en_props]. rewrite E3, elem_of_app, list_elem_of_singleton. intros [?| ->]; [by left|right; unfold settled; lia].
Qed.
(** ** One node *)
Lemma set_slot_new es a parent (w : dsys) : ds_nodes w = node_map es -> NoDup (addrs es) -> a ∉ addrs es -> (es <> [] -> ds_allNodes w = hd 0 (addrs es)) ->
  set_slot (slot_of es) a (put_node a zero_node w) =
    Ok (dput_all (hd 0 (addrs (es ++ [new_entry a parent]))) (dput_nodes (if decide (es = []) then <[a := zero_node]> (node_map es) else alter (set_allnext a) (lastz (addrs es)) (<[a := zero_node]> (node_map es))) w)).
Proof.
  clear. intros EN Hnd Ha Hall. unfold slot_of. destruct (decide (es = [])) as [->|Hne]; cbn [set_slot].
  - unfold put_node. by rewrite EN.
  - pose proof (lastz_addrs es Hne) as Hl. unfold addrs in Hl. apply list_elem_of_fmap in Hl as (e & El & He). fold (addrs es) in El.
    erewrite upd_node_alter by (simpl; rewrite EN, El, lookup_insert_ne; [by apply node_map_in|intros ->; apply Ha; by apply list_elem_of_fmap_2]).
    simpl. rewrite EN, addrs_snoc, hd_snoc, decide_False by (by destruct es). rewrite <- Hall by done. by destruct w.
Qed.
Lemma link_new es a parent (w : dsys) : ds_nodes w = unlinked es a parent (node_map es) -> NoDup (addrs es) -> a ∉ addrs es -> 0 < a ->
  (forall e, e ∈ es -> isValid (en_addr e) = true /\ en_parent e <> a) -> (if decide (parent = 0) then es = [] else parent ∈ addrs es) ->
  (if isValid parent && slot_valid (SNext a) then link_child a parent w else Ok w) = Ok (dput_nodes (node_map (es ++ [new_entry a parent])) w).
Proof.
  clear. intros EN Hnd Ha Ha0 Hes Hpar. rewrite (node_map_snoc es a parent) by (done || lia || (intros f Hf; by apply Hes)). unfold hung.
  destruct (decide (parent = 0)) as [->|Hp]; [cbn; rewrite <- EN; by destruct w|].
  pose proof Hpar as Hpar'. unfold addrs in Hpar'. apply list_elem_of_fmap in Hpar' as (e & -> & He). destruct (Hes e He) as [Hpos _].
  assert (en_addr e <> a) as Hne by (intros E; apply Ha; by rewrite <- E).
  assert (forall x, x ∈ addrs es -> exists d, ds_nodes w !! x = Some d) as Hsome.
  { intros x Hx. unfold addrs in Hx. apply list_elem_of_fmap in Hx as (f & -> & Hf). rewrite EN. unfold unlinked. destruct (decide (es = []));
      rewrite !alter_dec, lookup_insert_ne, (node_map_in es f) by (done || (intros ->; apply Ha; by apply list_elem_of_fmap_2)); eauto. }
  assert (exists pd, ds_nodes w !! en_addr e = Some pd /\ dn_next pd = lastz (children (en_addr e) es)) as (pd & Hpd & Hnx).
  { rewrite EN. unfold unlinked. rewrite (decide_False (P := es = [])) by (intros ->; by apply not_elem_of_nil in He). rewrite !alter_dec, lookup_insert_ne, (node_map_in es e) by done.
    rewrite !(decide_False (P := en_addr e = a)) by done. destruct (decide (en_addr e = lastz (addrs es))); eexists; split; done. }
  rewrite Hpos. cbn [slot_valid andb]. unfold link_child. rewrite Hpd. cbn [deref mbind res_bind]. rewrite Hnx.
  destruct (decide (children (en_addr e) es = [])) as [E|E].
  - rewrite E. cbn [lastz last default isValid Z.eqb negb andb]. rewrite (upd_node_alter _ _ w _ Hpd). cbn [mbind res_bind].
    erewrite upd_node_alter by (simpl; by rewrite lookup_alter_eq, Hpd). simpl. by rewrite EN.
  - pose proof (children_in _ _ _ (lastz_in _ E)) as Hin. destruct (Hsome _ Hin) as [d Hd]. unfold addrs in Hin. apply list_elem_of_fmap in Hin as (g & Eg & Hg). destruct (Hes g Hg) as [Hgp _].
    rewrite Eg, Hgp, <- Eg. cbn [negb]. rewrite (upd_node_alter _ _ w _ Hd). cbn [mbind res_bind].
    assert (exists pd', alter (set_sibling a) (lastz (children (en_addr e) es)) (ds_nodes w) !! en_addr e = Some pd') as [pd' Hpd'] by (rewrite alter_dec, Hpd; eauto).
    rewrite (upd_node_alter _ _ _ pd') by done. simpl. by rewrite EN.
Qed.
Lemma last_name name props : exists x, last_prop (lit "name") (full_props name props) = Some x.
Proof.
  clear. unfold full_props. destruct (has_name props) eqn:E; [|exists (DProp (lit "name") (unit_name name ++ [0])); rewrite last_prop_snoc; by rewrite decide_True].
  rewrite app_nil_r. unfold has_name in E. apply existsb_exists in E as (x & Hx & Hn%bool_decide_eq_true). apply list_elem_of_In in Hx.
  destruct (last_prop (lit "name") props) as [y|] eqn:El; [eauto|]. unfold last_prop in El. apply last_None in El.
  assert (x ∈ filter (fun x => dp_name x = lit "name") props) as Hin by (by apply list_elem_of_filter). rewrite El in Hin. by apply not_elem_of_nil in Hin.
Qed.
Definition default_entry (e : entry) : entry :=
  Entry (en_addr e) (en_parent e) (en_name e) (if en_type e =? 0 then lit_null else en_type e) (en_phandle e) (en_props e).
Lemma fill_defaults K m P par name props es e (w : dsys) : NoDup (addrs (es ++ [e])) -> ds_nodes w = node_map (es ++ [e]) -> entry_ok K m P 0 par name (full_props name props) e ->
  default_names lit_null (en_addr e) w = Ok (dput_nodes (node_map (es ++ [default_entry e])) w) /\ entry_ok K m P lit_null par name (full_props name props) (default_entry e).
Proof.
  clear. intros Hnd EN Hok. assert (e ∈ es ++ [e]) as He by set_solver. destruct (last_name name props) as [x Hx].
  pose proof (eo_name _ _ _ _ _ _ _ _ Hok) as Hname. rewrite Hx in Hname. destruct Hname as (Hpos & _).
  split.
  - unfold default_names. rewrite (upd_node_alter _ _ w (record (es ++ [e]) e)) by (rewrite EN; by apply node_map_in). cbn [mbind res_bind].
    erewrite upd_node_alter by (simpl; by rewrite lookup_alter_eq, EN, node_map_in). simpl. rewrite EN, alter_alter_eq.
    rewrite (node_map_last es e (default_entry e) ((fun d => if dn_type d =? 0 then set_type lit_null d else d) ∘ (fun d => if dn_name d =? 0 then set_name lit_null d else d))); try done.
    intros es'. unfold record at 1, default_entry. cbn. rewrite (proj2 (Z.eqb_neq (en_name e) 0)) by lia. cbn. by destruct (en_type e =? 0).
  - destruct Hok as [Ha Hp Hr Hc Hn Ht Hph]. split; try done; [cbn [default_entry en_name]; by rewrite Hx in Hn |- *|]. cbn [default_entry en_type].
    destruct (last_prop (lit "device_type") _) as [y|]; simpl in *; [|by rewrite Ht]. destruct Ht as (Hty & ?). by rewrite (proj2 (Z.eqb_neq (en_type e) 0)) by lia.
Qed.
(** The pass has come to [mem] with the nodes [es]; the next node hangs below
    [parent], whose path is [par]. *)
Definition parent_in (es : list entry) (par : place) (parent mem : Z) (m : Mem.mem) : Prop :=
  match par with
  | None => parent = 0 /\ es = []
  | Some (pp, root) => exists e, e ∈ es /\ en_addr e = parent /\ isValid (en_parent e) = negb root /\ cstr m (parent + sizeof_node) pp /\
      (forall z, parent + sizeof_node <= z <= parent + sizeof_node + len pp -> settled mem z) /\ (length pp < fuel)%nat
  end.
Record building (es : list entry) (par : place) (parent mem : Z) (w : dsys) : Prop := {
  bg_header : header_ok (ds_mem w);
  bg_lit : cstr (ds_mem w) lit_name (lit "name");
  bg_nodes : ds_nodes w = node_map es;
  bg_nodup : NoDup (addrs es);
  bg_addrs : forall e, e ∈ es -> isValid (en_addr e) = true /\ settled mem (en_addr e) /\ settled mem (en_parent e);
  bg_head : es <> [] -> ds_allNodes w = hd 0 (addrs es);
  bg_parent : parent_in es par parent mem (ds_mem w);
  bg_mem : base <= mem;
}.
Lemma building_parent es par parent mem (w : dsys) : building es par parent mem w -> parent_ok fuel (settled mem) par parent w /\ (if decide (parent = 0) then es = [] else parent ∈ addrs es).
Proof.
  clear. intros [_ _ EN Hnd Hes _ Hpar _]. destruct par as [[pp root]|]; simpl in *; [|destruct Hpar as [-> ->]; by rewrite decide_True].
  destruct Hpar as (e & He & <- & Hroot & Hpp & Hk & Hf). destruct (Hes e He) as [Hv _]. rewrite decide_False by (intros E; by rewrite E in Hv).
  split; [|by apply list_elem_of_fmap_2]. split; [done|]. exists (record es e). rewrite EN, node_map_in by done. by split_and!.
Qed.

(** The part of a node's making that precedes its properties. *)
Lemma start_node es par parent p name mem (w : dsys) : building es par parent mem w -> text_at lo hi (ds_mem w) (p + 4) name -> lo <= p -> (par = None -> name = []) ->
  up4 mem + sizeof_node + path_room par name <= top ->
  let a := up4 mem in let e := new_entry a parent in
  exists m', (w ← set_slot (slot_of es) a (put_node a zero_node w);
     w ← fill_full_name fuel a parent (p + 4) (len name + 1) true w;
     w ← upd_node (fun d => set_phandle (-1) (set_parent parent d)) a w;
     (if isValid parent && slot_valid (SNext a) then link_child a parent w else Ok w)) =
      Ok (dput_nodes (node_map (es ++ [e])) (dput_all (hd 0 (addrs (es ++ [e]))) (dput_mem m' w))) /\
    NoDup (addrs (es ++ [e])) /\ agree (fun x => x < a + sizeof_node \/ a + sizeof_node + path_room par name <= x) (ds_mem w) m' /\ cstr m' (a + sizeof_node) (path_of par name).
Proof using room apart.
  clear enough lit_apart. intros Hg Ht Hp Hroot Hl a e. pose proof (building_parent _ _ _ _ _ Hg) as [Hpok Hpin]. destruct Hg as [Hh Hlit EN Hnd Hes Hhd _ Hb]. destruct room as [Hr1 Hr2].
  destruct (ho_range _ _ _ _ Hh) as (Hlo & Hhi & Hspan). destruct Ht as (Ht1 & Ht2 & Ht). pose proof (len_nonneg name). pose proof (path_room_pos par name). pose proof (up4_bounds mem) as [Hup _]. fold a in Hup, Hl.
  pose proof (eq_refl : sizeof_node = 52) as Hsz.
  assert (forall x, settled mem x -> x <> a) as Hfresh by (intros x Hs ->; unfold settled in Hs; lia).
  assert (a ∉ addrs es) as Ha.
  { unfold addrs. intros (f & E & Hf)%list_elem_of_fmap. destruct (Hes f Hf) as (_ & Hs & _). by apply (Hfresh _ Hs). }
  rewrite (set_slot_new es a parent w EN Hnd Ha Hhd). cbn [mbind res_bind]. fold e.
  set (N1 := if decide (es = []) then <[a := zero_node]> (node_map es) else alter (set_allnext a) (lastz (addrs es)) (<[a := zero_node]> (node_map es))).
  assert (forall x, x <> a -> N1 !! x = (if decide (x = lastz (addrs es)) then set_allnext a else id) <$> node_map es !! x) as HN1.
  { intros x Hx. unfold N1. destruct (decide (es = [])) as [->|]; rewrite ?alter_dec, lookup_insert_ne by done; [|done]. rewrite node_map_out; [done|apply not_elem_of_nil]. }
  assert (exists d, N1 !! a = Some d) as [d Hd] by (unfold N1; destruct (decide (es = [])); rewrite ?alter_dec, lookup_insert_eq; eauto).
  destruct (fill_full_name_spec fuel par parent a (p + 4) name d (dput_all (hd 0 (addrs (es ++ [e]))) (dput_nodes N1 w))) as (m' & E & Hpath & Hag); try done; try lia.
  { intros <-. destruct (decide (a = 0)); [lia|]. by apply Ha. }
  { destruct par as [[pp root]|]; simpl in Hpok |- *; [|done]. destruct Hpok as (Hv & pd & Hpd & Htop & Hpp & HK & Hf). split; [done|].
    assert (parent <> a) as Hpa by (intros ->; destruct (decide (a = 0)); [lia|]; by apply Ha). rewrite (HN1 parent Hpa), <- EN, Hpd. cbn [fmap option_fmap option_map].
    eexists. split; [done|]. destruct (decide (parent = lastz (addrs es))); (split_and!; try done); intros x Hx; specialize (HK x Hx); unfold settled in HK; simpl path_room in *; lia. }
  rewrite E. cbn [mbind res_bind]. erewrite upd_node_alter by (simpl; by rewrite lookup_alter_eq, Hd). cbn [mbind res_bind]. exists m'. split; [|split_and!; try done].
  - rewrite (link_new es a parent); try done; try lia.
    + intros f Hf. destruct (Hes f Hf) as (Hv & _ & Hs). split; [done|]. by apply Hfresh.
  - rewrite addrs_snoc. apply NoDup_app. split; [done|]. split; [|apply NoDup_singleton]. intros x Hx ->%list_elem_of_singleton. done.
Qed.
Lemma building_frame es par parent mem m (w : dsys) : agree (settled mem) (ds_mem w) m -> building es par parent mem w -> building es par parent mem (dput_mem m w).
Proof using apart lit_apart.
  clear -apart lit_apart. intros Ha [Hh Hlit EN Hnd Hes Hhd Hpar Hb]. split; try done.
  - eapply header_agree; [|exact Hh]. intros a Hr. by apply Ha, settled_blob.
  - eapply cstr_agree; [|exact Hlit]. intros z Hz. by apply Ha, settled_lit.
  - destruct par as [[pp root]|]; [|done]. destruct Hpar as (e & He & Hpa & Hroot & Hpp & Hk & Hf). exists e. split_and!; try done.
    eapply cstr_agree; [|exact Hpp]. intros z Hz. by apply Ha, Hk.
Qed.
Lemma bind_start {A} (x : res dsys) (pl : Z) (f : Z * slot * dsys -> res A) : (y ← (w ← x; Ok (pl, SNext pl, w)); f y) = (w ← x; f (pl, SNext pl, w)).
Proof. clear. by destruct x. Qed.
Lemma bind_steps {A} (x : res dsys) (f g h : dsys -> res dsys) (k : dsys -> res A) :
  (w ← x; w ← f w; w ← g w; w ← h w; k w) = (w ← (w ← x; w ← f w; w ← g w; h w); k w).
Proof. clear. destruct x as [w| |]; try done. cbn. destruct (f w) as [w'| |]; try done. cbn. by destruct (g w'). Qed.
Lemma slot_of_snoc es e : slot_of (es ++ [e]) = SNext (en_addr e).
Proof. clear. unfold slot_of. rewrite decide_False by (by destruct es). by rewrite addrs_snoc, lastz_snoc. Qed.

(** The properties of a new node, with the one made from its name. *)
Lemma finish_node es e par name props p r mem (w : dsys) : header_ok (ds_mem w) -> cstr (ds_mem w) lit_name (lit "name") -> NoDup (addrs (es ++ [e])) -> ds_nodes w = node_map (es ++ [e]) ->
  en_props e = [] -> entry_ok (settled mem) (ds_mem w) (ds_props w) 0 par name [] e -> props_at lo hi strs (ds_mem w) props p r -> r - p < Z.of_nat fuel ->
  47 ∉ name -> (par = None -> name = []) -> len name < 2147483647 -> (length (path_of par name) < fuel)%nat -> 0 < en_addr e -> en_addr e + sizeof_node + len (path_of par name) < mem -> base <= mem ->
  let mem1 := Nat.iter (length props) lay_prop mem in let mem2 := if has_name props then mem1 else lay_prop mem1 + len (unit_name name) + 1 in mem2 <= top ->
  exists e' P' m', ('(ptr_move, mem, has_name, prev, w) ← populate_loop fuel lo p mem (en_addr e) (SNext (en_addr e)) false (PNode (en_addr e)) w;
      '(mem, w) ← (if negb has_name then add_name lit_name fuel mem (en_addr e) (SNext (en_addr e)) prev w else Ok (mem, w));
      w ← default_names lit_null (en_addr e) w;
      Ok (en_addr e, ptr_move, mem, SNext (en_addr e), w)) = Ok (en_addr e, r, mem2, SNext (en_addr e), dput_nodes (node_map (es ++ [e'])) (dput_props P' (dput_mem m' w))) /\
    en_addr e' = en_addr e /\ en_parent e' = en_parent e /\ entry_ok (settled mem2) m' P' lit_null par name (full_props name props) e' /\
    agree (fun a => ~ (mem <= a < mem2)) (ds_mem w) m' /\ (forall a, settled mem a -> P' !! a = ds_props w !! a) /\ (forall a, a ∈ en_props e' -> ~ settled mem a).
Proof using room apart lit_apart.
  clear enough. intros Hh Hlit Hnd EN Hep Hok Hp Hfuel Hz Hroot Hshort Hf Ha Hbelow Hb mem1 mem2 Hl. pose proof (len_nonneg (unit_name name)). pose proof (lay_prop_grows mem1).
  assert (mem <= mem1 <= mem2) as [Hm1 Hm2] by (split; [apply lay_props_grow|unfold mem2; destruct (has_name props); lia]).
  assert (PNode (en_addr e) = prev_of e) as -> by (unfold prev_of; by rewrite Hep, decide_True).
  destruct (fill_props props es e par name [] p r fuel mem false w Hh Hnd EN Hok Hp Hfuel Hb) as (e1 & P1 & -> & Ea1 & Ep1 & Hok1 & HP1 & Hin1); [fold mem1; lia|]. fold mem1 in Hok1 |- *.
  cbn [mbind res_bind]. rewrite orb_false_r. assert (NoDup (addrs (es ++ [e1]))) as Hnd1 by (rewrite addrs_snoc, Ea1; by rewrite addrs_snoc in Hnd). cbn [app] in Hok1.
  set (w1 := dput_nodes (node_map (es ++ [e1])) (dput_props P1 w)).
  assert (exists e2 P2 m2, (if negb (has_name props) then add_name lit_name fuel mem1 (en_addr e) (SNext (en_addr e)) (prev_of e1) w1 else Ok (mem1, w1)) =
      Ok (mem2, dput_nodes (node_map (es ++ [e2])) (dput_props P2 (dput_mem m2 w))) /\ en_addr e2 = en_addr e /\ en_parent e2 = en_parent e /\
      entry_ok (settled mem2) m2 P2 0 par name (full_props name props) e2 /\ agree (fun a => ~ (mem <= a < mem2)) (ds_mem w) m2 /\
      (forall a, settled mem a -> P2 !! a = ds_props w !! a) /\ (forall a, a ∈ en_props e2 -> ~ settled mem a)) as (e2 & P2 & m2 & -> & Ea2 & Ep2 & Hok2 & Hag2 & HP2 & Hin2).
  { unfold full_props, mem2. rewrite Hep in HP1, Hin1. destruct (has_name props) eqn:En; cbn [negb].
    - exists e1, P1, (ds_mem w). rewrite app_nil_r. split_and!; try done; [intros a Hs; apply HP1; [done|apply not_elem_of_nil]|].
      intros a [Hin|]%Hin1; [by apply not_elem_of_nil in Hin|done].
    - rewrite <- Ea1. destruct (fill_name es e1 par name props mem1 w1) as (e2 & P2 & m2 & E2 & Ea2 & Ep2 & Hok2 & Hag2 & HP2 & Hin2); try done; try lia.
      exists e2, P2, m2. split_and!; try done; [by rewrite Ep2|intros a Hx; apply Hag2; lia|..].
      + intros a Hs. rewrite HP2; [apply HP1; [done|apply not_elem_of_nil]|by eapply settled_le; [|exact Hs]|]. intros [Hin|Hn]%Hin1; [by apply not_elem_of_nil in Hin|done].
      + intros a [Hin|Hn]%Hin2; [|by intros Hs; apply Hn; eapply settled_le; [|exact Hs]]. apply Hin1 in Hin as [Hin|]; [by apply not_elem_of_nil in Hin|done]. }
  cbn [mbind res_bind]. assert (NoDup (addrs (es ++ [e2]))) as Hnd2 by (rewrite addrs_snoc, Ea2; by rewrite addrs_snoc in Hnd).
  destruct (fill_defaults (settled mem2) m2 P2 par name props es e2 (dput_nodes (node_map (es ++ [e2])) (dput_props P2 (dput_mem m2 w))) Hnd2 eq_refl Hok2) as [Ed Hokd].
  rewrite <- Ea2, Ed. cbn [mbind res_bind]. exists (default_entry e2), P2, m2. by split_and!.
Qed.
(** What a step of the pass from [mem] to [mem'] leaves alone; the nodes are now [es']. *)
Definition built_to (es' : list entry) (mem mem' : Z) (w w' : dsys) : Prop :=
  exists P m, w' = dput_nodes (node_map es') (dput_all (hd 0 (addrs es')) (dput_props P (dput_mem m w))) /\
    agree (fun a => ~ (mem <= a < mem')) (ds_mem w) m /\ forall a, settled mem a -> P !! a = ds_props w !! a.
Lemma build_node es par parent p r name props mem (w : dsys) : building es par parent mem w ->
  word_at lo hi (ds_mem w) p FDT_NODE_START -> text_at lo hi (ds_mem w) (p + 4) name -> props_at lo hi strs (ds_mem w) props (up4 (p + 4 + len name + 1)) r ->
  47 ∉ name -> (par = None -> name = []) -> (length (path_of par name) < fuel)%nat -> lay_own par name props mem <= top ->
  exists e w', fwk_fdt_populate_node lit_name lit_null fuel lo p mem parent (slot_of es) w = Ok (en_addr e, r, lay_own par name props mem, slot_of (es ++ [e]), w') /\
    en_addr e = up4 mem /\ en_parent e = parent /\ NoDup (addrs (es ++ [e])) /\ built_to (es ++ [e]) mem (lay_own par name props mem) w w' /\
    entry_ok (settled (lay_own par name props mem)) (ds_mem w') (ds_props w') lit_null par name (full_props name props) e /\ (forall a, a ∈ en_props e -> ~ settled mem a).
Proof using room apart lit_apart enough.
  intros Hg (Hp1 & Hp2 & Htag) Ht Hprops Hz Hroot Hf Hlay. pose proof (eq_refl : sizeof_node = 52) as Hsz. pose proof (proj1 (building_parent _ _ _ _ _ Hg)) as Hpar. pose proof (bg_header _ _ _ _ _ Hg) as Hh.
  pose proof (bg_mem _ _ _ _ _ Hg) as Hb. destruct (ho_range _ _ _ _ Hh) as (Hlo & Hhi & Hspan). pose proof Ht as (Ht1 & Ht2 & Hname). pose proof (len_nonneg name) as Hln. pose proof (path_room_pos par name) as Hroom.
  pose proof (path_room_ok par name) as Hroom2. pose proof (up4_bounds mem) as [Hup _]. destruct room as [Hr1 Hr2]. pose proof (lay_props_grow (length props) (up4 mem + sizeof_node + path_room par name)) as Hgrow.
  pose proof (lay_prop_grows (Nat.iter (length props) lay_prop (up4 mem + sizeof_node + path_room par name))) as Hg2. pose proof (len_nonneg (unit_name name)) as Hlu.
  assert (up4 mem + sizeof_node + path_room par name <= lay_own par name props mem) as Hlow by (unfold lay_own; destruct (has_name props); lia).
  unfold fwk_fdt_populate_node. rewrite Htag. cbn [FDT_NODE_START Z.eqb Pos.eqb negb]. rewrite (u32_id (p + 4)) by lia.
  rewrite (strlen_spec _ _ name) by (done || (unfold len in *; lia)). cbn [mbind res_bind]. rewrite (first_not_slash _ _ _ Hname Hz). cbn [negb].
  destruct (node_head fuel lo hi strs _ par parent p name w Hh Ht Hz Hroot Hpar) as (m0 & -> & Hm0); [lia|]. cbn [mbind res_bind].
  assert (building es par parent mem (dput_mem m0 w)) as Hg0 by (apply building_frame; [intros a _; apply Hm0|done]).
  unfold fwk_fdt_memory_calculate. rewrite (u32_id (sizeof_node + path_room par name)) by lia. rewrite align4_up by lia. rewrite (u32_id (up4 mem + _)) by lia.
  assert (slot_valid (slot_of es) = true) as -> by (unfold slot_of; by destruct (decide (es = []))). cbn [negb andb]. rewrite bind_start. cbn [slot_valid].
  destruct (start_node es par parent p name mem (dput_mem m0 w) Hg0) as (m1 & E1 & Hnd1 & Hag1 & Hpath); [eapply text_at_agree; [|exact Ht]; intros a _; apply Hm0|lia|done|lia|].
  assert (agree (fun a => ~ (mem <= a < up4 mem + sizeof_node + path_room par name)) (ds_mem w) m1) as Hag by (intros a Ha; rewrite Hag1 by lia; apply Hm0).
  rewrite bind_steps. cbn [slot_valid] in E1. rewrite E1. clear E1. cbn [mbind res_bind]. set (e0 := new_entry (up4 mem) parent) in *. set (mem1 := up4 mem + sizeof_node + path_room par name) in *.
  set (w1 := dput_nodes (node_map (es ++ [e0])) (dput_all (hd 0 (addrs (es ++ [e0]))) (dput_mem m1 (dput_mem m0 w)))).
  assert (same_blob lo hi (ds_mem w) m1) as Hsb by (intros a Ha; apply Hag; pose proof (settled_blob mem a Hb Ha) as Hs; unfold settled in Hs; lia).
  unfold ptr_move_byte. rewrite (u32_id (p + 4 + _)) by lia. rewrite align4_up by lia. replace (p + 4 + (len name + 1)) with (p + 4 + len name + 1) by lia.
  replace (up4 mem + (sizeof_node + path_room par name)) with mem1 by lia. pose proof (up4_bounds (p + 4 + len name + 1)) as [Hupp _]. pose proof (props_at_le _ _ _ _ _ _ _ Hprops) as Hple.
  destruct (finish_node es e0 par name props (up4 (p + 4 + len name + 1)) r mem1 w1) as (e & P & m & E & Ea & Ep & Hok & Hagm & HP & Hin); try done; try (by eapply header_agree); try (by eapply props_at_agree); try (simpl; lia).
  { eapply cstr_agree; [|apply Hg]. intros a Ha. pose proof (settled_lit mem a Hb Ha) as Hs. unfold settled in Hs. apply Hag. lia. }
  { split; try done; cbn [en_addr e0 new_entry]; [split; [unfold settled; lia|apply isValid_true; lia]|]. intros z Hz'. unfold settled. lia. }
  cbn [en_addr e0 new_entry] in E, Ea. rewrite E. clear E.
  assert (addrs (es ++ [e]) = addrs (es ++ [e0])) as Eas by (by rewrite !addrs_snoc, Ea).
  exists e, (dput_nodes (node_map (es ++ [e])) (dput_all (hd 0 (addrs (es ++ [e]))) (dput_props P (dput_mem m w)))). split_and!; try done.
  - rewrite slot_of_snoc, Ea, Eas. done.
  - by rewrite Eas.
  - exists P, m. split_and!; [done| |].
    + intros a Ha. assert (agree (fun a => ~ (mem1 <= a < lay_own par name props mem)) m1 m) as Hagm' by exact Hagm. rewrite Hagm' by lia. apply Hag. lia.
    + intros a Ha. apply HP. eapply settled_le; [|exact Ha]. lia.
  - intros a Ha Hs. apply (Hin a Ha). eapply settled_le; [|exact Hs]. lia.
Qed.
(** ** All nodes *)

(** The entries [es] are the tree [t] below [parent], in order. *)
Fixpoint built (K : Z -> Prop) (m : mem) (P : gmap Z of_property) (par : place) (parent : Z) (t : dtree) (es : list entry) : Prop :=
  match t with
  | DTree name props ch =>
      match es with
      | [] => False
      | e :: es => en_parent e = parent /\ entry_ok K m P lit_null par name (full_props name props) e /\
          (fix forest (l : list dtree) (es : list entry) : Prop :=
             match l with
             | [] => es = []
             | t :: l => exists es1 es2, es = es1 ++ es2 /\ built K m P (below par name) (en_addr e) t es1 /\ forest l es2
             end) ch es
      end
  end.
Fixpoint built_forest (K : Z -> Prop) (m : mem) (P : gmap Z of_property) (par : place) (parent : Z) (l : list dtree) (es : list entry) : Prop :=
  match l with
  | [] => es = []
  | t :: l => exists es1 es2, es = es1 ++ es2 /\ built K m P par parent t es1 /\ built_forest K m P par parent l es2
  end.
Lemma built_eq K m P par parent name props ch e es : built K m P par parent (DTree name props ch) (e :: es) <->
  en_parent e = parent /\ entry_ok K m P lit_null par name (full_props name props) e /\ built_forest K m P (below par name) (en_addr e) ch es.
Proof.
  clear. cbn [built]. assert (forall l es, (fix forest (l : list dtree) (es : list entry) : Prop :=
             match l with
             | [] => es = []
             | t :: l => exists es1 es2, es = es1 ++ es2 /\ built K m P (below par name) (en_addr e) t es1 /\ forest l es2
             end) l es <-> built_forest K m P (below par name) (en_addr e) l es) as E.
  { induction l as [|t l IH]; intros es'; [done|]. cbn. by setoid_rewrite IH. }
  by rewrite E.
Qed.
Section built_frame.
Context (K K' : Z -> Prop) (m m' : mem) (P P' : gmap Z of_property).
Context (sub : forall a, K a -> K' a) (mem_same : agree K m m') (props_same : forall a, K a -> P' !! a = P !! a).
Lemma built_forest_frame l : Forall (fun t => forall par parent es, built K m P par parent t es -> built K' m' P' par parent t es) l ->
  forall par parent es, built_forest K m P par parent l es -> built_forest K' m' P' par parent l es.
Proof using Type.
  induction 1 as [|t l Ht Hl IH]; intros par parent es; [done|]. cbn. intros (es1 & es2 & ? & ? & ?). exists es1, es2. split_and!; auto.
Qed.
Lemma built_frame t : forall par parent es, built K m P par parent t es -> built K' m' P' par parent t es.
Proof using sub mem_same props_same.
  clear enough room apart lit_apart. induction t as [name props ch IH] using dtree_nested_ind. intros par parent [|e es]; [done|]. rewrite !built_eq. intros (Hp & Hok & Hf). split; [done|].
  split; [|by apply built_forest_frame]. eapply entry_ok_frame; [done|done| |exact Hok]. intros a Ha. apply props_same. eapply chain_in; [apply Hok|done].
Qed.
Lemma built_forest_frame' l par parent es : built_forest K m P par parent l es -> built_forest K' m' P' par parent l es.
Proof using sub mem_same props_same. apply built_forest_frame. apply Forall_forall. intros t _. apply built_frame. Qed.
End built_frame.

(** The loop gets from [p] to [q], adding the entries [new]. *)
Definition advance (es new : list entry) (parent p q mem mem' : Z) (w w' : dsys) : Prop :=
  (exists k, Z.of_nat k <= q - p /\ forall n, unflatten_loop lit_name lit_null fuel (k + n) lo p mem parent (slot_of es) w = unflatten_loop lit_name lit_null fuel n lo q mem' parent (slot_of (es ++ new)) w') /\
  NoDup (addrs (es ++ new)) /\ (forall e, e ∈ new -> isValid (en_addr e) = true /\ settled mem' (en_addr e) /\ settled mem' (en_parent e)) /\ built_to (es ++ new) mem mem' w w' /\
  (forall e a, e ∈ new -> a = en_addr e \/ a ∈ en_props e -> ~ settled mem a).
Lemma advance_nops es par parent p q mem (w : dsys) : building es par parent mem w -> es <> [] -> nops lo hi (ds_mem w) p q -> advance es [] parent p q mem mem w w.
Proof.
  clear enough room apart lit_apart. intros Hg Hne Hn. unfold advance. rewrite app_nil_r. split_and!; [|apply Hg|by intros e ?%not_elem_of_nil| |by intros e a ?%not_elem_of_nil].
  - destruct (loop_nops lit_name lit_null fuel lo hi strs p q 0 mem parent (slot_of es) w (bg_header _ _ _ _ _ Hg) Hn) as (k & Hk & _). exists k. split; [lia|]. intros n.
    destruct (loop_nops lit_name lit_null fuel lo hi strs p q n mem parent (slot_of es) w (bg_header _ _ _ _ _ Hg) Hn) as (k' & Hk' & E). by replace k with k' by lia.
  - exists (ds_props w), (ds_mem w). split; [|done]. rewrite <- (bg_nodes _ _ _ _ _ Hg), <- (bg_head _ _ _ _ _ Hg Hne). by destruct w.
Qed.
Lemma built_to_trans es es' mem mem1 mem2 (w w1 w2 : dsys) : mem <= mem1 <= mem2 -> built_to es mem mem1 w w1 -> built_to es' mem1 mem2 w1 w2 -> built_to es' mem mem2 w w2.
Proof.
  clear. intros Hm (P1 & m1 & -> & Ha1 & HP1) (P2 & m2 & -> & Ha2 & HP2). exists P2, m2. split; [done|]. split.
  - intros a Ha. simpl in Ha2. rewrite Ha2 by lia. apply Ha1. lia.
  - intros a Ha. simpl in HP2. rewrite HP2 by (eapply settled_le; [|exact Ha]; lia). by apply HP1.
Qed.
Lemma advance_trans es new new' parent p q r mem mem1 mem2 (w w1 w2 : dsys) : mem <= mem1 <= mem2 -> advance es new parent p q mem mem1 w w1 -> advance (es ++ new) new' parent q r mem1 mem2 w1 w2 ->
  advance es (new ++ new') parent p r mem mem2 w w2.
Proof.
  clear. intros Hm ((k & Hk & E) & _ & Hn & Hb & Hi) ((k' & Hk' & E') & Hnd & Hn' & Hb' & Hi'). unfold advance. rewrite app_assoc. split_and!; [|done| |by eapply built_to_trans|].
  - exists (k + k')%nat. split; [lia|]. intros n. by rewrite <- Nat.add_assoc, E, E'.
  - intros e [He|He]%elem_of_app; [|by apply Hn']. destruct (Hn e He) as (? & ? & ?). split_and!; [done|by eapply settled_le; [|done]; lia..].
  - intros e a [He|He]%elem_of_app Ha; [by eapply Hi|]. intros Hs. apply (Hi' e a He Ha). eapply settled_le; [|exact Hs]. lia.
Qed.
Lemma building_on es new par parent p q mem mem' (w w' : dsys) : mem <= mem' <= top -> par <> None -> building es par parent mem w -> advance es new parent p q mem mem' w w' ->
  building (es ++ new) par parent mem' w'.
Proof using apart lit_apart.
  clear enough room. intros Hm Hpar Hg (_ & Hnd & Hn & (P & m & -> & Ha & HP) & _).
  assert (agree (settled mem) (ds_mem w) m) as Has by (intros a Hs; apply Ha; unfold settled in Hs; lia).
  pose proof (building_frame _ _ _ _ _ _ Has Hg) as [Hh Hlit _ _ Hes _ Hp Hb]. split; try done.
  - intros e [He|He]%elem_of_app; [|by apply Hn]. destruct (Hes e He) as (? & ? & ?). split_and!; [done|by eapply settled_le; [|done]; lia..].
  - destruct par as [[pp root]|]; [|done]. destruct Hp as (e & He & Hpa & Hroot & Hpp & Hk & Hf). exists e. split_and!; try done; [set_solver|].
    intros z Hz. eapply settled_le; [|by apply Hk]. lia.
  - lia.
Qed.
Lemma building_child es e par parent name props mem mem' (w w' : dsys) : mem <= mem' <= top -> building es par parent mem w -> en_addr e = up4 mem -> up4 mem < mem' -> en_parent e = parent ->
  NoDup (addrs (es ++ [e])) -> built_to (es ++ [e]) mem mem' w w' -> entry_ok (settled mem') (ds_mem w') (ds_props w') lit_null par name (full_props name props) e ->
  (length (path_of par name) < fuel)%nat -> building (es ++ [e]) (below par name) (en_addr e) mem' w'.
Proof using apart lit_apart room.
  clear enough. intros Hm Hg Ea Hup Ep Hnd (P & m & -> & Ha & HP) Hok Hf. pose proof (proj2 (building_parent _ _ _ _ _ Hg)) as Hpin. destruct room as [Hr1 Hr2].
  assert (agree (settled mem) (ds_mem w) m) as Has by (intros a Hs; apply Ha; unfold settled in Hs; lia).
  pose proof (building_frame _ _ _ _ _ _ Has Hg) as [Hh Hlit _ _ Hes _ Hp Hb]. split; try done; [| |lia].
  - intros f [He| ->%list_elem_of_singleton]%elem_of_app.
    + destruct (Hes f He) as (? & ? & ?). split_and!; [done|by eapply settled_le; [|done]; lia..].
    + destruct (eo_addr _ _ _ _ _ _ _ _ Hok) as [? ?]. split_and!; [done|done|]. rewrite Ep. destruct (decide (parent = 0)) as [->|Hne]; [unfold settled; lia|].
      unfold addrs in Hpin. apply list_elem_of_fmap in Hpin as (f & -> & Hin). destruct (Hes f Hin) as (_ & Hs & _). eapply settled_le; [|exact Hs]. lia.
  - exists e. split_and!; [set_solver|done| |apply Hok|apply Hok|done]. rewrite Ep. destruct par as [[pp root]|].
    + rewrite bool_decide_eq_false_2 by done. destruct Hp as (f & Hin & <- & _). by destruct (Hes f Hin) as (-> & _).
    + simpl in Hp. destruct Hp as [-> _]. by rewrite bool_decide_eq_true_2.
Qed.
Definition builds (t : dtree) : Prop := forall es par parent p q mem w, building es par parent mem w -> node_at lo hi strs (ds_mem w) t p q -> names_ok t ->
  (par = None -> match t with DTree name _ _ => name = [] end) -> plen par <= p - lo -> lay par t mem <= top ->
  exists new w', advance es new parent p q mem (lay par t mem) w w' /\ built (settled (lay par t mem)) (ds_mem w') (ds_props w') par parent t new /\ hd 0 (addrs new) = up4 mem.
Lemma built_to_blob es mem mem' (w w' : dsys) : base <= mem -> mem' <= top -> built_to es mem mem' w w' -> same_blob lo hi (ds_mem w) (ds_mem w').
Proof using apart.
  clear enough room lit_apart. intros Hb Ht (P & m & -> & Ha & _) a Hr. apply Ha. pose proof (settled_blob mem a Hb Hr) as Hs. unfold settled in Hs. lia.
Qed.
Lemma built_to_frame es mem mem' (w w' : dsys) : mem <= mem' <= top -> built_to es mem mem' w w' ->
  (forall a, settled mem a -> settled mem' a) /\ agree (settled mem) (ds_mem w) (ds_mem w') /\ (forall a, settled mem a -> ds_props w' !! a = ds_props w !! a).
Proof.
  clear. intros Hm (P & m & -> & Ha & HP). split_and!; [intros a; apply settled_le; lia| |done]. intros a Hs. apply Ha. unfold settled in Hs. lia.
Qed.
Lemma build_forest ch : Forall builds ch -> forall es par parent r s mem w, building es par parent mem w -> par <> None -> es <> [] -> forest_at lo hi strs (ds_mem w) ch r s -> Forall names_ok ch ->
  plen par <= r - lo -> foldl (fun mem t => lay par t mem) mem ch <= top ->
  exists new w', advance es new parent r s mem (foldl (fun mem t => lay par t mem) mem ch) w w' /\
    built_forest (settled (foldl (fun mem t => lay par t mem) mem ch)) (ds_mem w') (ds_props w') par parent ch new.
Proof using apart lit_apart.
  clear enough room. induction 1 as [|t ch Ht Hch IH]; intros es par parent r s mem w Hg Hpar Hne Hf Hn Hpl Hl; cbn [forest_at foldl] in *.
  { exists [], w. split; [|done]. by eapply advance_nops. }
  destruct Hf as (r1 & r2 & Hnop & Ht' & Hrest). apply Forall_cons in Hn as [Hnt Hn]. pose proof (nops_le _ _ _ _ _ Hnop). pose proof (node_at_le _ _ _ _ _ _ _ Ht').
  pose proof (lay_grows t par mem). pose proof (lay_forest_grows par ch (lay par t mem)) as Hlf. specialize (Hlf ltac:(apply Forall_forall; intros; apply lay_grows)).
  set (mem1 := lay par t mem) in *. set (mem2 := foldl (fun mem t => lay par t mem) mem1 ch) in *.
  pose proof (advance_nops es par parent r r1 mem w Hg Hne Hnop) as Ha0. destruct (Ht es par parent r1 r2 mem w Hg Ht' Hnt ltac:(done) ltac:(lia) ltac:(lia)) as (new1 & w1 & Ha1 & Hb1 & _). fold mem1 in Ha1, Hb1.
  pose proof (bg_mem _ _ _ _ _ Hg). pose proof Ha1 as (_ & _ & _ & Hbt1 & _). pose proof (built_to_blob _ mem mem1 w w1 ltac:(lia) ltac:(lia) Hbt1) as Hsb.
  pose proof (building_on _ _ _ _ _ _ mem mem1 _ _ ltac:(lia) Hpar Hg Ha1) as Hg1.
  destruct (IH (es ++ new1) par parent r2 s mem1 w1 Hg1 Hpar ltac:(by destruct es) ltac:(by eapply forest_agree) Hn ltac:(lia) Hl) as (new2 & w2 & Ha2 & Hb2). fold mem2 in Ha2, Hb2.
  exists (new1 ++ new2), w2. split.
  - rewrite <- (app_nil_r es) in Ha1. rewrite <- (app_nil_l new1). rewrite <- app_assoc. eapply (advance_trans es [] _ parent r r1 s mem mem); [lia|exact Ha0|].
    eapply (advance_trans (es ++ []) new1 new2); [|exact Ha1|by rewrite app_nil_r]. lia.
  - exists new1, new2. split_and!; [done| |done]. pose proof Ha2 as (_ & _ & _ & Hbt2 & _). destruct (built_to_frame _ mem1 mem2 _ _ ltac:(lia) Hbt2) as (F1 & F2 & F3). by eapply built_frame.
Qed.
Lemma slot_of_valid es : slot_valid (slot_of es) = true.
Proof. clear. unfold slot_of. by destruct (decide (es = [])). Qed.
Lemma build_end es e p mem n (w : dsys) : header_ok (ds_mem w) -> ds_nodes w = node_map es -> NoDup (addrs es) -> e ∈ es -> isValid (en_addr e) = true -> word_at lo hi (ds_mem w) p FDT_NODE_END ->
  unflatten_loop lit_name lit_null fuel (S n) lo p mem (en_addr e) (slot_of es) w = unflatten_loop lit_name lit_null fuel n lo (p + 4) mem (en_parent e) (slot_of es) w.
Proof.
  clear. intros Hh EN Hnd He Hv (Hp1 & Hp2 & Hw). cbn [unflatten_loop]. rewrite Hw. cbn [FDT_NODE_NOP FDT_NODE_END Z.eqb Pos.eqb]. rewrite Hv, EN, (node_map_in _ e Hnd He).
  cbn [deref mbind res_bind]. rewrite slot_of_valid. cbn [negb mbind res_bind record dn_parent]. destruct (ho_range _ _ _ _ Hh) as (? & ? & ?). by rewrite u32_id by lia.
Qed.
Lemma build_tree t : builds t.
Proof using room apart lit_apart enough.
  induction t as [name props ch IH] using dtree_nested_ind. intros es par parent p q mem w Hg Hat [Hz Hch]%names_ok_eq Hroot Hpl Hl.
  apply node_at_eq in Hat as (Htag & Ht & r & s' & Hprops & Hforest & Hend & ->). cbn [lay] in *. pose proof Ht as (Ht1 & Ht2 & Hname). pose proof (len_nonneg name).
  pose proof (props_at_le _ _ _ _ _ _ _ Hprops) as Hpr. pose proof (forest_le _ _ _ _ _ _ _ Hforest). pose proof (up4_bounds (p + 4 + len name + 1)) as [Hup _].
  pose proof (path_len par name (plen_pos par)). pose proof (bg_mem _ _ _ _ _ Hg) as Hb.
  pose proof (lay_own_grows par name props mem). pose proof (up4_bounds mem) as [Hupm _]. pose proof (lay_forest_grows (below par name) ch (lay_own par name props mem)) as Hlf. specialize (Hlf ltac:(apply Forall_forall; intros; apply lay_grows)).
  assert (length (path_of par name) < fuel)%nat as Hfuel by (unfold len in *; lia). set (mem1 := lay_own par name props mem) in *. set (mem2 := foldl (fun mem t => lay (below par name) t mem) mem1 ch) in *.
  destruct (build_node es par parent p r name props mem w Hg Htag Ht Hprops Hz Hroot Hfuel ltac:(lia)) as (e & w1 & E1 & Ea & Ep & Hnd1 & Hbt1 & Hok1 & Hi1). fold mem1 in E1, Hbt1, Hok1.
  pose proof (building_child es e par parent name props mem mem1 w w1 ltac:(lia) Hg Ea ltac:(lia) Ep Hnd1 Hbt1 Hok1 Hfuel) as Hg1.
  pose proof (built_to_blob _ mem mem1 w w1 ltac:(lia) ltac:(lia) Hbt1) as Hsb1. destruct (eo_addr _ _ _ _ _ _ _ _ Hok1) as [Hse Hve].
  destruct (build_forest ch IH (es ++ [e]) (below par name) (en_addr e) r s' mem1 w1 Hg1) as (new & w2 & Ha2 & Hf2); try done; [by destruct es|by eapply forest_agree|change (plen (below par name)) with (len (path_of par name)); lia|]. fold mem2 in Ha2, Hf2.
  pose proof (building_on _ _ (below par name) _ _ _ mem1 mem2 _ _ ltac:(lia) ltac:(done) Hg1 Ha2) as Hg2. pose proof Ha2 as ((k & Hk & E2) & Hnd2 & Hn2 & Hbt2 & Hi2).
  pose proof (built_to_blob _ mem1 mem2 w1 w2 ltac:(lia) ltac:(lia) Hbt2) as Hsb2. destruct (built_to_frame _ mem1 mem2 _ _ ltac:(lia) Hbt2) as (F1 & F2 & F3).
  exists (e :: new), w2. unfold advance. replace (es ++ e :: new) with ((es ++ [e]) ++ new) by (by rewrite <- app_assoc). split_and!; try done.
  - exists (S k + 1)%nat. split; [lia|]. intros n. cbn [Nat.add unflatten_loop]. rewrite (proj2 (proj2 Htag)). cbn [FDT_NODE_NOP FDT_NODE_END FDT_NODE_START FDT_ALL_NODE_END Z.eqb Pos.eqb].
    rewrite E1. cbn [mbind res_bind]. rewrite Hve. cbn [negb andb]. rewrite <- Nat.add_assoc, E2. cbn [Nat.add]. rewrite build_end, Ep; try done; try apply Hg2; [set_solver|].
    eapply word_at_agree; [exact Hsb2|]. by eapply word_at_agree.
  - pose proof (bg_addrs _ _ _ _ _ Hg2) as Hall. intros f Hf. apply Hall. set_solver.
  - eapply built_to_trans; [|exact Hbt1|exact Hbt2]. lia.
  - intros f a [->|Hf]%elem_of_cons Ha; [destruct Ha as [->|Ha]; [rewrite Ea; unfold settled; lia|by apply Hi1]|].
    intros Hs. apply (Hi2 f a Hf Ha). eapply settled_le; [|exact Hs]. lia.
  - apply built_eq. split; [done|]. split; [|done]. eapply entry_ok_frame; [exact F1|exact F2| |exact Hok1]. intros a Ha. apply F3. eapply chain_in; [apply Hok1|done].
Qed.
End build.
