(* ===== verification/FdtTree.v ===== *)
(** * From the flattened tree to the linked one, and back to free memory

    The two passes together: what [setup_machine_fdt] leaves behind is the tree the
    boot loader passed, in one block of memory that the measuring pass sized
    exactly; [destroy_machine_fdt] gives the block back. *)

From Stdlib Require Import Strings.String.
From stdpp Require Import prelude gmap fin_maps sorting.
From S2P Require Import Prelude Mem Bytes MemPool MemOps MemBlock MemBlockSpec Sync Generic KMalloc KMallocSpec HeapContract Fdt FdtSpec FdtMeasure FdtBuild.

Section tree.
Context {H : Type} `{KernelHeap H}.
Context (lit_name lit_null : Z) (fuel : nat) (lo hi strs : Z).
Local Notation dsys := (@dsys H).

(** A flattened tree in [lo, hi). *)
Record blob_ok (m : mem) (t : dtree) : Prop := {
  bo_header : header_ok lo hi strs m;
  bo_magic : word_at lo hi m lo FDT_MAGIC_VERIFY;
  bo_tree : tree_ok t;
  bo_nodes : exists p q e, word_at lo hi m (lo + 8) (p - lo) /\ lo <= p /\ node_at lo hi strs m t p q /\ nops lo hi m q e /\ word_at lo hi m e FDT_ALL_NODE_END;
}.
Lemma blob_agree m m' t : same_blob lo hi m m' -> blob_ok m t -> blob_ok m' t.
Proof.
  intros Ha [Hh Hm Ht (p & q & e & H1 & H2 & H3 & H4 & H5)]. split; [by eapply header_agree|by eapply word_at_agree|done|]. exists p, q, e.
  split_and!; [by eapply word_at_agree|done|by eapply node_at_agree|by eapply nops_agree|by eapply word_at_agree].
Qed.

(** The linked tree: its nodes are [es], in the order of the flattened tree. *)
Record dev_tree (t : dtree) (es : list entry) (w : dsys) : Prop := {
  dt_nodes : ds_nodes w = node_map es;
  dt_nodup : NoDup (addrs es);
  dt_head : ds_allNodes w = hd 0 (addrs es);
  dt_built : exists K, built lit_null K (ds_mem w) (ds_props w) None 0 t es;
}.

Context (enough : hi - lo < Z.of_nat fuel) (static : heap_static lo (hi - lo)).
Context (lit_static : heap_static lit_name 5) (lit_pos : 0 < lit_name).

(** ** The second pass *)
Lemma build_pass base top t p q e (w : dsys) : header_ok lo hi strs (ds_mem w) -> cstr (ds_mem w) lit_name (lit "name") -> ds_nodes w = ∅ ->
  0 < base /\ top <= W32 - 4096 -> hi <= base \/ top <= lo -> lit_name + 5 <= base \/ top <= lit_name -> lay None t base <= top ->
  lo <= p -> node_at lo hi strs (ds_mem w) t p q -> nops lo hi (ds_mem w) q e -> word_at lo hi (ds_mem w) e FDT_ALL_NODE_END -> tree_ok t ->
  exists es w', fwk_unflatten_dt_nodes lit_name lit_null fuel lo base p SHead w = Ok (lay None t base, w') /\
    NoDup (addrs es) /\ es <> [] /\ built_to top es base (lay None t base) w w' /\ built lit_null (settled top (lay None t base)) (ds_mem w') (ds_props w') None 0 t es /\
    (forall e a, e ∈ es -> a = en_addr e \/ a ∈ en_props e -> base <= a < top) /\ hd 0 (addrs es) = up4 base.
Proof using enough lit_pos.
  clear static lit_static. intros Hh Hlit HN Hroom Hap Hlap Hl Hp Hat Hn He [Hok Hname]. pose proof (node_at_le _ _ _ _ _ _ _ Hat). pose proof (nops_le _ _ _ _ _ Hn). destruct (ho_range _ _ _ _ Hh) as (Hlo & Hhi & Hspan).
  assert (building lit_name fuel lo hi strs base top [] None 0 base w) as Hg by (split; try done; [constructor|by intros f ?%not_elem_of_nil]).
  destruct (build_tree lit_name lit_null fuel lo hi strs base top enough Hroom Hap (conj lit_pos Hlap) t [] None 0 p q base w Hg Hat Hok) as (es & w' & ((k & Hk & E) & Hnd & Hes & Hbt & Hi) & Hb & Hhd);
    [by destruct t|simpl; lia|done|]. cbn [app] in *.
  pose proof (lay_grows t None base). pose proof (built_to_blob lo hi base top Hap _ base _ w w' ltac:(lia) Hl Hbt) as Hsb.
  exists es, w'. split_and!; try done; [|by intros ->; destruct t|intros f a Hf Ha; specialize (Hi f a Hf Ha); unfold settled in Hi; lia].
  unfold fwk_unflatten_dt_nodes. rewrite isValid_true by lia. cbn [negb].
  assert (fdt32 (ds_mem w) p = FDT_ALL_NODE_START) as -> by (destruct t; apply node_at_eq in Hat as ((_ & _ & ?) & _); done). rewrite Z.eqb_refl. cbn [negb].
  pose proof He as (He1 & He2 & _). destruct (loop_nops lit_name lit_null fuel lo hi strs q e 0 (lay None t base) 0 (slot_of es) w') as (k1 & Hk1 & _); [by eapply header_agree|by eapply nops_agree|].
  destruct (loop_nops lit_name lit_null fuel lo hi strs q e (S (fuel - k - k1 - 1)) (lay None t base) 0 (slot_of es) w') as (k2 & Hk2 & E2); [by eapply header_agree|by eapply nops_agree|].
  assert (fuel = k + (k2 + S (fuel - k - k1 - 1)))%nat as Ef by lia.
  apply (f_equal (fun z => unflatten_loop lit_name lit_null fuel z lo p base 0 SHead w)) in Ef. cbn beta in Ef. change nullptr with 0. rewrite Ef. change SHead with (slot_of []). rewrite E, E2. cbn [unflatten_loop].
  destruct (word_at_agree _ _ _ _ _ _ Hsb He) as (_ & _ & Hw). by rewrite Hw.
Qed.
(** ** Both passes *)
Lemma lay_start t par mem : lay par t mem = lay par t (up4 mem).
Proof. clear. destruct t as [name props ch]. simpl. unfold lay_own. pose proof (up4_bounds mem) as [_ Hd]. by rewrite (up4_id (up4 mem) Hd). Qed.
Lemma lay_base t q : lay None t q = up4 q + lay None t 0.
Proof. clear. rewrite lay_start. pose proof (up4_bounds q) as [_ Hd]. rewrite <- (lay_shift (up4 q) t Hd). f_equal. lia. Qed.
Lemma kept_lit L z : lit_name <= z <= lit_name + len (lit "name") -> kept L z.
Proof using lit_static. clear -lit_static. change (len (lit "name")) with 4. intros Hz. exists lit_name, 5. split; [by left|lia]. Qed.
(** What is left: nothing but the block of the tree. *)
Definition unflattened (t : dtree) (L : list (Z * Z)) (w w' : dsys) : Prop :=
  ds_cpu w' = ds_cpu w /\ ds_entry w' = ds_entry w /\ agree (kept L) (ds_mem w) (ds_mem w') /\
  ((ds_nodes w' = ∅ /\ ds_allNodes w' = 0 /\ heap_inv (ds_heap w') L) \/
   (exists q es, heap_inv (ds_heap w') ((q, mrt_num_align8 (up4 (lay None t 0) + 4)) :: L) /\ dev_tree t es w' /\ ds_allNodes w' = q /\
      (forall e a, e ∈ es -> a = en_addr e \/ a ∈ en_props e -> q <= a < q + mrt_num_align8 (up4 (lay None t 0) + 4)) /\
      fdt32 (ds_mem w') (q + up4 (lay None t 0)) = FDT_MAGIC_VERIFY)).
Lemma be_magic m p : fdt32 (st32 m p (be32_to_cpu FDT_MAGIC_VERIFY)) p = FDT_MAGIC_VERIFY.
Proof. clear. unfold fdt32. rewrite ld32_st32 by (by vm_compute). unfold be32_to_cpu. by rewrite reverse_byte32_involutive. Qed.
Lemma unflatten_tree t L (w : dsys) : blob_ok (ds_mem w) t -> cstr (ds_mem w) lit_name (lit "name") -> cpu_ok (ds_cpu w) -> heap_inv (ds_heap w) L ->
  ds_nodes w = ∅ -> ds_allNodes w = 0 -> lay None t 0 < W32 - 8192 ->
  exists w', __fwk_unflatten_device_tree lit_name lit_null fuel lo w = Ok w' /\ unflattened t L w w'.
Proof using enough static lit_static lit_pos.
  intros [Hh Hmagic Hok (p & q & e & (_ & Hst8 & Hst) & Hp & Hat & Hn & He)] Hlit Hc Hi HN Hall Hsz. destruct (ho_range _ _ _ _ Hh) as (Hlo & Hhi & Hspan). pose proof (node_at_le _ _ _ _ _ _ _ Hat).
  unfold __fwk_unflatten_device_tree. rewrite isValid_true by lia. cbn [negb]. rewrite (proj2 (proj2 Hmagic)), Z.eqb_refl. cbn [negb]. rewrite Hst. replace (lo + (p - lo)) with p by lia. rewrite (u32_id p) by lia.
  destruct (measure_pass lit_name lit_null fuel lo hi strs enough static L t p q e w Hh Hc Hi HN Hp Hat Hn He Hok ltac:(lia)) as (r & h & m & -> & Hh' & Ha & Hr). cbn [mbind res_bind].
  set (w1 := dput_heap (ds_cpu w) h (dput_mem m w)). pose proof (lay_grows t None 0). pose proof (up4_bounds (lay None t 0)) as [Hup Hd4]. set (size := up4 (lay None t 0)) in *.
  assert (0 < lay None t 0) as Hpos by (destruct t as [name props ch]; simpl; pose proof (lay_own_grows None name props 0);
    pose proof (lay_forest_grows (below None name) ch (lay_own None name props 0) ltac:(apply Forall_forall; intros; apply lay_grows)); lia).
  destruct Hr as [-> | ->].
  { change (mrt_align 0 4 =? 0) with true. cbn iota. exists w1. split; [done|]. split_and!; try done. left. by split_and!. }
  rewrite align4_up by lia. fold size. rewrite (proj2 (Z.eqb_neq size 0)) by lia. unfold fwk_fdt_memory_alloc, d_kzalloc. rewrite (u32_id (size + 4)), align4_up by lia.
  rewrite (up4_id (size + 4)) by (destruct Hd4 as [z ->]; exists (z + 1); lia).
  destruct (heap_alloc_spec (ds_cpu w1) (ds_heap w1) L (size + 4) (Z.lor GFP_KERNEL GFP_ZERO) Hc Hh' eq_refl ltac:(lia)) as (b & h' & -> & Hcase & _). cbn [mbind res_bind].
  destruct Hcase as [[-> Hh2]|[Hv Hh2]]; [cbn [isValid nullptr Z.eqb negb andb]; eexists; split; [done|]; split_and!; try done; left; by split_and!|].
  rewrite Hv. cbn [negb]. destruct (align8_spec (size + 4)) as [Ha8 _]; [unfold W32 in *; lia|]. set (s := mrt_num_align8 (size + 4)) in *.
  destruct (heap_inv_blocks _ _ Hh2) as [_ Hblk]. destruct (Hblk b s) as (Hb0 & _ & Hbw); [left|]. rewrite (u32_id (b + size)) by lia.
  set (m2 := st32 (zero_bytes m b (size + 4)) (b + size) (be32_to_cpu FDT_MAGIC_VERIFY)).
  match goal with |- context [fwk_unflatten_dt_nodes _ _ _ _ _ _ _ ?x] => set (w2 := x) end.
  assert (agree (kept L) m m2) as Ham.
  { intros a Hk. pose proof (kept_apart _ _ _ _ a Hh2 Hk) as Hx. unfold m2, st32. rewrite !st_ne by lia. unfold zero_bytes. destruct (Z.leb_spec b a), (Z.ltb_spec a (b + (size + 4))); simpl; try done. lia. }
  assert (agree (kept L) (ds_mem w) m2) as Hak by (intros a Hk; rewrite Ham by done; by apply Ha).
  pose proof (kept_same_blob lo hi static _ _ _ Hak) as Hsb. pose proof (heap_static_live h' _ _ _ b s Hh2 static ltac:(left)) as Hap. pose proof (heap_static_live h' _ _ _ b s Hh2 lit_static ltac:(left)) as Hlap.
  assert (fdt32 (ds_mem w2) (lo + 8) = p - lo) as -> by (rewrite <- Hst; apply fdt32_agree; intros a Hx; apply Hsb; lia). replace (lo + (p - lo)) with p by lia. rewrite (u32_id p) by lia.
  assert (up4 b = b) as Eb by (apply up4_id; destruct (heap_inv_aligned _ _ b s Hh2 ltac:(left)) as [z ->]; exists (2 * z); lia).
  pose proof (lay_base t b) as Elb. rewrite Eb in Elb.
  destruct (build_pass b (b + s) t p q e w2) as (es & w3 & -> & Hnd & Hne & Hbt & Hbuilt & Hin & Hhd); try done; try lia; [by eapply header_agree| |by eapply node_at_agree|by eapply nops_agree|by eapply word_at_agree|].
  { eapply cstr_agree; [|exact Hlit]. intros z Hz. by apply Hak, kept_lit. }
  cbn [mbind res_bind]. exists w3. split; [done|]. destruct Hbt as (P & m3 & -> & Ha3 & _). split_and!; try done.
  - intros a Hk. pose proof (kept_apart _ _ _ _ a Hh2 Hk) as Hx. simpl. rewrite Ha3 by lia. by apply Hak.
  - right. exists b, es. split; [done|]. split; [split; [done|done|done|by eexists]|]. split; [by rewrite <- Eb, <- Hhd|]. split; [done|].
    simpl. rewrite <- (be_magic (zero_bytes m b (size + 4)) (b + size)). apply fdt32_agree. intros a Hx. rewrite Ha3 by lia. done.
Qed.
Lemma setup_enters t ptr (w : dsys) : blob_ok (ds_mem w) t -> isValid ptr = true -> isValid (ds_entry w) = false ->
  setup_machine_fdt lit_name lit_null fuel ptr lo w = __fwk_unflatten_device_tree lit_name lit_null fuel lo (DSys (ds_cpu w) (ds_heap w) (ds_mem w) (ds_nodes w) (ds_props w) 0 lo).
Proof.
  clear enough static lit_static lit_pos. intros Hb Hptr Hent. destruct (ho_range _ _ _ _ (bo_header _ _ Hb)) as (Hlo & Hhi & Hspan). pose proof (proj1 (proj2 (bo_magic _ _ Hb))). unfold setup_machine_fdt. rewrite Hptr. cbn [negb].
  unfold fwk_early_init_dt_verify. rewrite (proj2 (proj2 (bo_magic _ _ Hb))), Z.eqb_refl, isValid_true by lia. cbn [negb orb].
  unfold fwk_unflatten_device_tree, fwk_early_init_dt_params. by rewrite Hent.
Qed.

(** ** The theorems *)

(** C20: Starting from the flattened tree the boot loader passed, [setup_machine_fdt]
    ends, within as many steps as the tree has bytes.  Either memory ran out, then
    no node exists and the heap holds what it held before; or exactly one block was
    taken, its nodes and properties are the tree ([dev_tree]: paths, links between
    parents, children and siblings, the order of all nodes, property names, lengths
    and values, the added "name" property, node name, type and phandle), all of
    them lie in the block, and the word behind them is intact.  Memory in use
    before is unchanged. *)
Theorem setup_machine_fdt_represents t L ptr (w : dsys) : blob_ok (ds_mem w) t -> cstr (ds_mem w) lit_name (lit "name") -> cpu_ok (ds_cpu w) -> heap_inv (ds_heap w) L ->
  ds_nodes w = ∅ -> isValid ptr = true -> isValid (ds_entry w) = false -> lay None t 0 < W32 - 8192 ->
  exists w', setup_machine_fdt lit_name lit_null fuel ptr lo w = Ok w' /\ unflattened t L (fwk_early_init_dt_params lo w) w'.
Proof using enough static lit_static lit_pos.
  intros Hb Hlit Hc Hi HN Hptr Hent Hsz. rewrite (setup_enters t) by done. unfold fwk_early_init_dt_params. rewrite Hent. cbn [negb]. by apply unflatten_tree.
Qed.

(** Setting the tree up and destroying it again restores the heap: after a
    failed set-up nothing is left to destroy, and after a successful one
    [destroy_machine_fdt] finds the block of the tree through the root node and
    releases it. *)
Theorem setup_destroy_restores t L ptr (w : dsys) : blob_ok (ds_mem w) t -> cstr (ds_mem w) lit_name (lit "name") -> cpu_ok (ds_cpu w) -> heap_inv (ds_heap w) L ->
  ds_nodes w = ∅ -> isValid (ds_entry w) = false -> lay None t 0 < W32 - 8192 -> isValid ptr = true ->
  exists w' w'', setup_machine_fdt lit_name lit_null fuel ptr lo w = Ok w' /\ destroy_machine_fdt w' = Ok w'' /\
    ds_allNodes w'' = 0 /\ heap_inv (ds_heap w'') L /\ ds_mem w'' = ds_mem w' /\ agree (kept L) (ds_mem w) (ds_mem w').
Proof using enough static lit_static lit_pos.
  intros Hb Hlit Hc Hi HN Hent Hsz Hptr. rewrite (setup_enters t) by done.
  destruct (unflatten_tree t L (DSys (ds_cpu w) (ds_heap w) (ds_mem w) (ds_nodes w) (ds_props w) 0 lo)) as (w' & -> & Hcpu & _ & Ha & Hcase); try done. simpl in Hcpu, Ha. exists w'. unfold destroy_machine_fdt. destruct Hcase as [(HN' & Hall & Hh)|(q & es & Hh & Ht & Hall & Hin & _)]; rewrite Hall.
  - exists w'. by split_and!.
  - destruct (heap_inv_blocks _ _ Hh) as [_ Hblk]. destruct (Hblk q (mrt_num_align8 (up4 (lay None t 0) + 4))) as (Hq & Hs0 & Hqw); [left|].
    destruct (align8_spec (up4 (lay None t 0) + 4)) as [Ha8 _]; [pose proof (up4_bounds (lay None t 0)); pose proof (lay_grows t None 0); unfold W32 in *; lia|].
    pose proof (up4_bounds (lay None t 0)). pose proof (lay_grows t None 0). rewrite isValid_true by lia.
    destruct (d_kfree_spec q _ L w' ltac:(by rewrite Hcpu) Hh ltac:(lia)) as (h & -> & Hh'). cbn [mbind res_bind]. eexists. by split_and!.
Qed.
End tree.

(** ** An example: a root, an interrupt controller and a device *)
Definition demo_word (v : Z) : list Z := [v / 16777216; v / 65536 mod 256; v / 256 mod 256; v mod 256].
Definition demo_prop (off : Z) (value : list Z) : list Z := demo_word FDT_NODE_PROP ++ demo_word (len value) ++ demo_word off ++ value.
Definition demo_blob : list Z :=
  concat (demo_word <$> [FDT_MAGIC_VERIFY; 296; 40; 208; 40; 17; 16; 0; 85; 168]) ++
  demo_word FDT_NODE_START ++ [0; 0; 0; 0] ++ demo_prop 0 (lit "a,b" ++ [0]) ++
  demo_word FDT_NODE_START ++ lit "gpc@2" ++ [0; 0; 0] ++ demo_prop 11 (demo_word 5) ++ demo_prop 19 (demo_word 3) ++ demo_prop 36 [] ++ demo_prop 0 (lit "c,d" ++ [0]) ++ demo_word FDT_NODE_END ++
  demo_word FDT_NODE_NOP ++
  demo_word FDT_NODE_START ++ lit "uart@1" ++ [0; 0] ++ demo_prop 57 (demo_word 5) ++ demo_prop 74 (demo_word 0 ++ demo_word 5 ++ demo_word 1) ++ demo_word FDT_NODE_END ++
  demo_word FDT_NODE_END ++ demo_word FDT_ALL_NODE_END ++
  lit "compatible" ++ [0] ++ lit "phandle" ++ [0] ++ lit "#interrupt-cells" ++ [0] ++ lit "interrupt-controller" ++ [0] ++ lit "interrupt-parent" ++ [0] ++ lit "interrupts" ++ [0; 0; 0; 0].
Definition demo_tree : dtree :=
  DTree [] [DProp (lit "compatible") (lit "a,b" ++ [0])]
    [DTree (lit "gpc@2") [DProp (lit "phandle") [0; 0; 0; 5]; DProp (lit "#interrupt-cells") [0; 0; 0; 3]; DProp (lit "interrupt-controller") []; DProp (lit "compatible") (lit "c,d" ++ [0])] [];
     DTree (lit "uart@1") [DProp (lit "interrupt-parent") [0; 0; 0; 5]; DProp (lit "interrupts") [0; 0; 0; 0; 0; 0; 0; 5; 0; 0; 0; 1]] []].
Definition demo_bytes : mem := st_list (st_list (st_list (fun _ => 0) 16384 (lit "name" ++ [0])) 16400 (lit "<null>" ++ [0])) 8192 demo_blob.
Definition demo_dsys : @dsys kheap := DSys (Cpu 0 0) demo_kheap demo_bytes ∅ ∅ 0 0.

Ltac demo_word := split_and!; [lia|lia|by vm_compute].
Ltac demo_text := split_and!; [lia|vm_compute; discriminate|split; [by vm_compute|by apply lit_char]].
(** The properties from [p] on, and the tag behind them. *)
Ltac demo_prop off := split_and!; [demo_word|demo_word|exists off; split; [demo_word|demo_text]|vm_compute; discriminate|by vm_compute|by vm_compute].
Ltac demo_last v := split; [constructor|]; exists v; split; [demo_word|done].
Lemma demo_node : node_at 8192 8488 8400 demo_bytes demo_tree 8232 8396.
Proof.
  apply node_at_eq. split; [demo_word|]. split; [split_and!; [lia|vm_compute; discriminate|by split; [vm_compute|constructor]]|]. exists 8256, 8392. split_and!; [| |demo_word|done].
  - exists 8240, 8256. split_and!; [constructor|demo_prop 0|demo_last FDT_NODE_START].
  - exists 8256, 8332. split_and!; [constructor| |exists 8336, 8392; split_and!; [eapply nops_tag; [demo_word|constructor]| |constructor]]; apply node_at_eq; (split; [demo_word|]); (split; [demo_text|]).
    + exists 8328, 8328. split_and!; [|constructor|demo_word|done].
      exists 8268, 8284. split_and!; [constructor|demo_prop 11|]. exists 8284, 8300. split_and!; [constructor|demo_prop 19|]. exists 8300, 8312. split_and!; [constructor|demo_prop 36|]. exists 8312, 8328. split_and!; [constructor|demo_prop 0|demo_last FDT_NODE_END].
    + exists 8388, 8388. split_and!; [|constructor|demo_word|done].
      exists 8348, 8364. split_and!; [constructor|demo_prop 57|]. exists 8364, 8388. split_and!; [constructor|demo_prop 74|demo_last FDT_NODE_END].
Qed.
Lemma demo_blob_ok : blob_ok 8192 8488 8400 demo_bytes demo_tree.
Proof.
  split.
  - split; [unfold W32; lia|exists 17; split; [demo_word|lia]|split; [demo_word|lia]].
  - demo_word.
  - split; [|done]. apply names_ok_eq. split; [apply not_elem_of_nil|]. repeat constructor; by apply (bool_decide_unpack _).
  - exists 8232, 8396, 8396. split_and!; [demo_word|lia|exact demo_node|constructor|demo_word].
Qed.
Lemma demo_fdt_static : heap_static 8192 (8488 - 8192) /\ heap_static 16384 5.
Proof. split; apply demo_heap_static; lia. Qed.
Lemma demo_lit : cstr demo_bytes 16384 (lit "name").
Proof. split; [by vm_compute|by apply lit_char]. Qed.
Definition demo_unflattened : @dsys kheap := match setup_machine_fdt 16384 16400 400 4 8192 demo_dsys with Ok w => w | _ => demo_dsys end.
Lemma demo_unflattened_root : ds_allNodes demo_unflattened = 65568.
Proof. by vm_compute. Qed.
Lemma setup_machine_fdt_represents_witness : exists w' q es, setup_machine_fdt 16384 16400 400 4 8192 demo_dsys = Ok w' /\
  heap_inv (ds_heap w') [(q, mrt_num_align8 (up4 (lay None demo_tree 0) + 4))] /\ dev_tree 16400 demo_tree es w'.
Proof.
  destruct (setup_machine_fdt_represents 16384 16400 400 8192 8488 8400 ltac:(lia) (proj1 demo_fdt_static) (proj2 demo_fdt_static) ltac:(lia) demo_tree [] 4 demo_dsys
    demo_blob_ok demo_lit ltac:(split; [discriminate|reflexivity]) demo_kheap_inv eq_refl eq_refl eq_refl ltac:(by vm_compute)) as (w' & E & _ & _ & _ & Hcase).
  assert (ds_allNodes w' = 65568) as Hr by (rewrite <- demo_unflattened_root; unfold demo_unflattened; rewrite E; reflexivity).
  destruct Hcase as [(_ & Hall & _)|(q & es & Hh & Ht & _)]; [rewrite Hr in Hall; discriminate|]. exists w', q, es. by split_and!.
Defined.
Lemma setup_destroy_restores_witness : exists w' w'', setup_machine_fdt 16384 16400 400 4 8192 demo_dsys = Ok w' /\ destroy_machine_fdt w' = Ok w'' /\ heap_inv (ds_heap w'') [].
Proof.
  destruct (setup_destroy_restores 16384 16400 400 8192 8488 8400 ltac:(lia) (proj1 demo_fdt_static) (proj2 demo_fdt_static) ltac:(lia) demo_tree [] 4 demo_dsys
    demo_blob_ok demo_lit ltac:(split; [discriminate|reflexivity]) demo_kheap_inv eq_refl eq_refl ltac:(by vm_compute) eq_refl) as (w' & w'' & E1 & E2 & _ & Hh & _).
  exists w', w''. by split_and!.
Defined.
(** The tree of the example, for the components that use device trees. *)
Lemma demo_built_heap : exists es L, dev_tree 16400 demo_tree es demo_unflattened /\ heap_inv (ds_heap demo_unflattened) L /\ ds_cpu demo_unflattened = Cpu 0 0.
Proof.
  destruct (unflatten_tree 16384 16400 400 8192 8488 8400 ltac:(lia) (proj1 demo_fdt_static) (proj2 demo_fdt_static) ltac:(lia) demo_tree [] (DSys (Cpu 0 0) demo_kheap demo_bytes ∅ ∅ 0 8192)
    demo_blob_ok demo_lit ltac:(split; [discriminate|reflexivity]) demo_kheap_inv eq_refl eq_refl ltac:(by vm_compute)) as (w' & E & Hcpu & _ & _ & Hcase).
  pose proof (setup_enters 16384 16400 400 8192 8488 8400 demo_tree 4 demo_dsys demo_blob_ok eq_refl eq_refl) as Es. cbn [ds_cpu ds_heap ds_mem ds_nodes ds_props demo_dsys] in Es.
  apply eq_trans with (1 := Es) in E. clear Es. assert (demo_unflattened = w') as Ew by (unfold demo_unflattened; rewrite E; reflexivity). clear E.
  pose proof demo_unflattened_root as Hr. rewrite Ew in Hr. rewrite Ew.
  destruct Hcase as [(_ & Hall & _)|(q & es & Hh & Ht & _)]; [rewrite Hr in Hall; discriminate Hall|]. exists es, ((q, mrt_num_align8 (up4 (lay None demo_tree 0) + 4)) :: []). split; [exact Ht|]. split; [exact Hh|exact Hcpu].
Qed.
Lemma demo_built : exists es, dev_tree 16400 demo_tree es demo_unflattened.
Proof. destruct demo_built_heap as (es & L & Ht & _). by exists es. Qed.
