(* ===== verification/OfNode.v ===== *)
(** * The device tree in use (platform/of/fwk_of_prop.c, fwk_of.c: searching)

    Drivers look nodes up by path, name, type, phandle or compatible string, and
    read properties of a node as integers, strings or references to other nodes.
    All of this only reads the tree built by Fdt.v.

    String arguments are given by their bytes, null ones by [None].  What a
    function stores through pointer arguments is part of its result: a list of the
    array elements stored, or [None] where the pointer is not written. *)

From Stdlib Require Import Strings.String.
From stdpp Require Import prelude gmap fin_maps sorting.
From S2P Require Import Prelude Mem Bytes MemPool MemOps Sync Generic KMalloc HeapContract KString Fdt.

Definition FWK_OF_MAX_PHANDLE_ARGS : Z := 16.
(** [sprt_node], [args]; [args_count] is the length of [args]. *)
Record of_phandle_args := PhandleArgs { pa_node : Z; pa_args : list Z }.
(** Strings of the tables are values; [None] is null. *)
Record of_device_id := DeviceId { di_name : option (list Z); di_type : option (list Z); di_compatible : option (list Z); di_data : Z }.

Definition ld16 (m : mem) (p : Z) : Z := m p + 256 * m (p + 1).

Section nodes.
Context {H : Type} `{KernelHeap H}.
Context (fuel : nat).
Local Notation dsys := (@dsys H).
Implicit Types (w : dsys) (sprt_node : Z) (ptr_name : list Z).

(** ** Properties *)
Fixpoint find_property_loop (n : nat) (sprt_list : Z) ptr_name w : res Z :=
  match n with
  | O => Spin
  | S n =>
      if sprt_list =? nullptr then Ok nullptr
      else
        d ← deref (ds_props w !! sprt_list);
        if negb (lit_differs ptr_name (ds_mem w) (pr_name d)) then Ok sprt_list else find_property_loop n (pr_next d) ptr_name w
  end.
(** The property, and its length ([*ptr_lenth]). *)
Definition fwk_of_find_property sprt_node ptr_name w : res (Z * Z) :=
  sprt_head ← (if isValid sprt_node then d ← deref (ds_nodes w !! sprt_node); Ok (dn_properties d) else Ok nullptr);
  sprt_list ← find_property_loop fuel sprt_head ptr_name w;
  if sprt_list =? nullptr then Ok (nullptr, 0) else d ← deref (ds_props w !! sprt_list); Ok (sprt_list, u32 (pr_length d)).
Definition fwk_of_get_property sprt_node ptr_name w : res (Z * Z) :=
  '(sprt_prop, lenth) ← fwk_of_find_property sprt_node ptr_name w;
  if isValid sprt_prop then d ← deref (ds_props w !! sprt_prop); Ok (pr_value d, lenth) else Ok (nullptr, lenth).

(** The three array readers differ in the width of an element: [2 ^ shift] bytes,
    read by [load]. *)
Definition read_array_index (shift : Z) (load : mem -> Z -> Z) sprt_node ptr_name (index size : Z) w : res (Z * list Z) :=
  '(sprt_prop, _) ← fwk_of_find_property sprt_node ptr_name w;
  if negb (isValid sprt_prop) then Ok (- ER_FAULT, [])
  else
    d ← deref (ds_props w !! sprt_prop);
    let lenth := u32 (Z.shiftr (pr_length d) shift) in
    if (lenth <=? index) || (size =? 0) then Ok (- ER_FAULT, [])
    else
      let size := if lenth <=? u32 (index + size) then lenth else u32 (index + size) in
      Ok (ER_NORMAL, (fun i => load (ds_mem w) (pr_value d + Z.shiftl i shift)) <$> seqZ index (size - index)).
Definition fwk_of_property_read_u8_array_index : Z -> list Z -> Z -> Z -> dsys -> res (Z * list Z) := read_array_index 0 (fun m p => m p).
Definition fwk_of_property_read_u16_array_index : Z -> list Z -> Z -> Z -> dsys -> res (Z * list Z) := read_array_index 1 (fun m p => be16_to_cpu (ld16 m p)).
Definition fwk_of_property_read_u32_array_index : Z -> list Z -> Z -> Z -> dsys -> res (Z * list Z) := read_array_index 2 fdt32.
Definition fwk_of_property_read_u32_index sprt_node ptr_name (index : Z) w : res (Z * list Z) := fwk_of_property_read_u32_array_index sprt_node ptr_name index 1 w.
Definition fwk_of_property_read_u8_array sprt_node ptr_name (size : Z) w : res (Z * list Z) := fwk_of_property_read_u8_array_index sprt_node ptr_name 0 size w.
Definition fwk_of_property_read_u16_array sprt_node ptr_name (size : Z) w : res (Z * list Z) := fwk_of_property_read_u16_array_index sprt_node ptr_name 0 size w.
Definition fwk_of_property_read_u32_array sprt_node ptr_name (size : Z) w : res (Z * list Z) := fwk_of_property_read_u32_array_index sprt_node ptr_name 0 size w.
Definition fwk_of_property_read_u8 sprt_node ptr_name w : res (Z * list Z) := fwk_of_property_read_u8_array_index sprt_node ptr_name 0 1 w.
Definition fwk_of_property_read_u16 sprt_node ptr_name w : res (Z * list Z) := fwk_of_property_read_u16_array_index sprt_node ptr_name 0 1 w.
Definition fwk_of_property_read_u32 sprt_node ptr_name w : res (Z * list Z) := fwk_of_property_read_u32_array_index sprt_node ptr_name 0 1 w.

Definition fwk_of_property_read_string sprt_node ptr_name w : res (Z * Z) :=
  '(sprt_prop, _) ← fwk_of_find_property sprt_node ptr_name w;
  if negb (isValid sprt_prop) then Ok (- ER_FAULT, nullptr) else d ← deref (ds_props w !! sprt_prop); Ok (ER_NORMAL, pr_value d).

(** The loop over the strings of a property: position, bytes passed, string. *)
Fixpoint string_loop (n : nat) (m : mem) (i index total length value ptr_value : Z) : res (Z * Z) :=
  match n with
  | O => Spin
  | S n =>
      if (i <=? index) && (total <? length) then
        str ← (if ptr_value =? 0 then Ok 0 else k ← strlen fuel m ptr_value; Ok (u32 (k + 1)));
        string_loop n m (u32 (i + 1)) index (u32 (total + str)) length value (if ptr_value =? 0 then value else u32 (ptr_value + str))
      else Ok (total, ptr_value)
  end.
Definition fwk_of_property_read_string_index sprt_node ptr_name (index : Z) w : res (Z * option Z) :=
  '(sprt_prop, _) ← fwk_of_find_property sprt_node ptr_name w;
  if negb (isValid sprt_prop) then Ok (- ER_FAULT, Some nullptr)
  else
    d ← deref (ds_props w !! sprt_prop);
    '(total, ptr_value) ← string_loop fuel (ds_mem w) 0 index 0 (u32 (pr_length d)) (pr_value d) nullptr;
    if u32 (pr_length d) <=? total then Ok (- ER_MORE, None) else Ok (ER_NORMAL, Some ptr_value).
(** The value of a cell count, from the node up to the root; 0 if nobody has it. *)
Fixpoint n_cells (n : nat) ptr_name (sprt_np : Z) w : res Z :=
  match n with
  | O => Spin
  | S n =>
      if negb (isValid sprt_np) then Ok 0
      else
        '(retval, value) ← fwk_of_property_read_u32 sprt_np ptr_name w;
        if retval =? 0 then Ok (hd 0 value) else d ← deref (ds_nodes w !! sprt_np); n_cells n ptr_name (dn_parent d) w
  end.
Definition fwk_of_n_size_cells sprt_node w : res Z := n_cells fuel (lit "#size-cells") sprt_node w.
Definition fwk_of_n_addr_cells sprt_node w : res Z := n_cells fuel (lit "#address-cells") sprt_node w.

Fixpoint is_compatible_loop (n : nat) sprt_node (ptr_compat : list Z) (index : Z) w : res bool :=
  match n with
  | O => Spin
  | S n =>
      '(retval, ptr_info) ← fwk_of_property_read_string_index sprt_node (lit "compatible") index w;
      if negb (retval =? 0) then Ok false
      else
        ptr_info ← deref ptr_info;
        if negb (lit_differs ptr_compat (ds_mem w) ptr_info) then Ok true else is_compatible_loop n sprt_node ptr_compat (u32 (index + 1)) w
  end.
Definition fwk_of_device_is_compatible sprt_node (ptr_compat : list Z) w : res bool := is_compatible_loop fuel sprt_node ptr_compat 0 w.

Fixpoint match_string_loop (n : nat) (m : mem) (idx str end_ : Z) (match_name : list Z) : res Z :=
  match n with
  | O => Spin
  | S n =>
      if str <? end_ then
        k ← strlen fuel m str;
        let lenth := u32 (k + 1) in
        if end_ <? u32 (str + lenth) then Ok (- ER_MORE)
        else if negb (lit_differs match_name m str) then Ok idx
        else match_string_loop n m (u32 (idx + 1)) (u32 (str + lenth)) end_ match_name
      else Ok (- ER_CHECKERR)
  end.
Definition fwk_of_property_match_string sprt_node (list_name match_name : list Z) w : res Z :=
  '(sprt_prop, size) ← fwk_of_find_property sprt_node list_name w;
  if negb (isValid sprt_prop) || (size =? 0) then Ok (- ER_NOTFOUND)
  else d ← deref (ds_props w !! sprt_prop); match_string_loop fuel (ds_mem w) 0 (pr_value d) (u32 (pr_value d + size)) match_name.

(** ** Nodes *)

(** [foreach_list_odd] over all nodes from [sprt_list] on, to the first that passes. *)
Fixpoint search_nodes (n : nat) (test : Z -> device_node -> res bool) (sprt_list : Z) w : res Z :=
  match n with
  | O => Spin
  | S n =>
      if sprt_list =? nullptr then Ok nullptr
      else
        d ← deref (ds_nodes w !! sprt_list);
        found ← test sprt_list d;
        if (found : bool) then Ok sprt_list else search_nodes n test (dn_allnext d) w
  end.
Definition search_head (sprt_from : Z) w : Z := if isValid sprt_from then sprt_from else ds_allNodes w.
Definition fwk_of_find_node_by_path (ptr_path : list Z) w : res Z :=
  search_nodes fuel (fun _ d => Ok (negb (lit_differs ptr_path (ds_mem w) (dn_full_name d)))) (ds_allNodes w) w.
Definition fwk_of_find_node_by_name (sprt_from : Z) ptr_name w : res Z :=
  search_nodes fuel (fun _ d => Ok (negb (lit_differs ptr_name (ds_mem w) (dn_name d)))) (search_head sprt_from w) w.
Definition fwk_of_find_node_by_type (sprt_from : Z) (ptr_type : list Z) w : res Z :=
  search_nodes fuel (fun _ d => Ok (negb (lit_differs ptr_type (ds_mem w) (dn_type d)))) (search_head sprt_from w) w.
Definition fwk_of_find_node_by_phandle (sprt_from phandle : Z) w : res Z :=
  search_nodes fuel (fun _ d => Ok (phandle =? u32 (dn_phandle d))) (search_head sprt_from w) w.
Definition fwk_of_find_compatible_node (sprt_from : Z) (ptr_type : option (list Z)) (ptr_compat : list Z) w : res Z :=
  search_nodes fuel (fun p d =>
    if match ptr_type with Some t => lit_differs t (ds_mem w) (dn_type d) | None => false end then Ok false
    else fwk_of_device_is_compatible p ptr_compat w) (search_head sprt_from w) w.

(** The table of a driver ends with an entry without [compatible]; the result is the
    position of the entry that matches. *)
Fixpoint match_table (sprt_node : Z) (ids : list of_device_id) (i : nat) w : res (option nat) :=
  match ids with
  | [] => Fault
  | id :: ids =>
      match di_compatible id with
      | None => Ok None
      | Some compatible =>
          yes ← fwk_of_device_is_compatible sprt_node compatible w;
          if (yes : bool) then Ok (Some i) else match_table sprt_node ids (S i) w
      end
  end.
Definition fwk_of_match_node (sprt_matches : option (list of_device_id)) sprt_node w : res (option nat) :=
  match sprt_matches with Some ids => match_table sprt_node ids 0 w | None => Ok None end.
(** The node or null, and [*sprt_match]. *)
Definition fwk_of_node_try_matches sprt_node (sprt_matches : option (list of_device_id)) w : res (Z * option nat) :=
  if negb (isValid sprt_node) then Ok (nullptr, None)
  else i ← fwk_of_match_node sprt_matches sprt_node w; Ok (match i with Some _ => sprt_node | None => nullptr end, i).
Fixpoint matching_node_loop (n : nat) (np : Z) (sprt_matches : option (list of_device_id)) w : res (Z * option nat) :=
  match n with
  | O => Spin
  | S n =>
      if negb (isValid np) then Ok (nullptr, None)
      else
        '(r, i) ← fwk_of_node_try_matches np sprt_matches w;
        if np =? r then Ok (np, i) else d ← deref (ds_nodes w !! np); matching_node_loop n (dn_allnext d) sprt_matches w
  end.
Definition fwk_of_find_matching_node_and_match (sprt_from : Z) (sprt_matches : option (list of_device_id)) w : res (Z * option nat) :=
  matching_node_loop fuel (search_head sprt_from w) sprt_matches w.

Definition fwk_of_get_parent sprt_node w : res Z := if isValid sprt_node then d ← deref (ds_nodes w !! sprt_node); Ok (dn_parent d) else Ok nullptr.
Definition fwk_of_get_next_child sprt_node (ptr_prev : Z) w : res Z :=
  if negb (isValid sprt_node) then Ok nullptr
  else if ptr_prev =? 0 then d ← deref (ds_nodes w !! sprt_node); Ok (dn_child d)
  else d ← deref (ds_nodes w !! ptr_prev); Ok (dn_sibling d).
Fixpoint matching_child_loop (n : nat) (sprt_parent np : Z) (sprt_matches : option (list of_device_id)) w : res (Z * option nat) :=
  match n with
  | O => Spin
  | S n =>
      if np =? 0 then Ok (nullptr, None)
      else
        '(r, i) ← fwk_of_node_try_matches np sprt_matches w;
        if np =? r then Ok (np, i) else np ← fwk_of_get_next_child sprt_parent np w; matching_child_loop n sprt_parent np sprt_matches w
  end.
Definition fwk_of_find_matching_child_and_match (sprt_parent : Z) (sprt_matches : option (list of_device_id)) w : res (Z * option nat) :=
  np ← fwk_of_get_next_child sprt_parent nullptr w; matching_child_loop fuel sprt_parent np sprt_matches w.
Fixpoint child_count_loop (n : nat) sprt_node (sprt_child num : Z) w : res Z :=
  match n with
  | O => Spin
  | S n => if sprt_child =? 0 then Ok num else c ← fwk_of_get_next_child sprt_node sprt_child w; child_count_loop n sprt_node c (u32 (num + 1)) w
  end.
Definition fwk_of_get_child_count sprt_node w : res Z :=
  if negb (isValid sprt_node) then Ok 0 else c ← fwk_of_get_next_child sprt_node nullptr w; child_count_loop fuel sprt_node c 0 w.
Definition fwk_of_device_is_avaliable sprt_node w : res bool :=
  '(ptr_value, _) ← fwk_of_get_property sprt_node (lit "status") w;
  Ok ((ptr_value =? 0) || negb (lit_differs (lit "ok") (ds_mem w) ptr_value) || negb (lit_differs (lit "okay") (ds_mem w) ptr_value)).
(** ** References *)

(** [args] has sixteen elements; storing more runs over its end. *)
Definition store_args (m : mem) (ptr cells : Z) : res (list Z) :=
  if FWK_OF_MAX_PHANDLE_ARGS <? cells then Fault else Ok ((fun i => fdt32 m (ptr + 4 * i)) <$> seqZ 0 cells).
Fixpoint phandle_loop (n : nat) (cells_name : option (list Z)) (cell_count index ptr_value ptr_end cur_index : Z) w : res (Z * option of_phandle_args) :=
  match n with
  | O => Spin
  | S n =>
      if ptr_value <? ptr_end then
        let phandle := fdt32 (ds_mem w) ptr_value in
        let ptr_value := u32 (ptr_value + 4) in
        sprt_np ← fwk_of_find_node_by_phandle nullptr phandle w;
        if sprt_np =? 0 then Ok (- ER_NOTFOUND, None)
        else
          '(retval, cells) ← (match cells_name with
                              | Some name => '(retval, value) ← fwk_of_property_read_u32 sprt_np name w; Ok (retval, hd 0 value)
                              | None => Ok (0, cell_count)
                              end);
          if negb (retval =? 0) then Ok (- ER_EMPTY, None)
          else if cells =? 0 then Ok (- ER_CHECKERR, None)
          else if ptr_end <? u32 (ptr_value + 4 * cells) then Ok (- ER_MORE, None)
          else if cur_index =? u32 index then args ← store_args (ds_mem w) ptr_value cells; Ok (ER_NORMAL, Some (PhandleArgs sprt_np args))
          else phandle_loop n cells_name cell_count index (u32 (ptr_value + 4 * cells)) ptr_end (u32 (cur_index + 1)) w
      else Ok (- ER_ERROR, None)
  end.
Definition fwk_of_parse_phandle_with_args sprt_node (list_name : list Z) (cells_name : option (list Z)) (cell_count index : Z) w : res (Z * option of_phandle_args) :=
  if (sprt_node =? 0) || (index <? 0) then Ok (- ER_NODEV, None)
  else
    '(ptr_value, size) ← fwk_of_get_property sprt_node list_name w;
    if (ptr_value =? 0) || (size =? 0) then Ok (- ER_NOTFOUND, None)
    else phandle_loop fuel cells_name cell_count index ptr_value (u32 (ptr_value + 4 * (size / 4))) 0 w.

(** ** Interrupts *)

(** One round of the search for the node that takes the interrupts: the node named
    by the reference, or the parent. *)
Definition irq_parent_step (sprt_root sprt_np : Z) w : res Z :=
  '(retval, handle) ← fwk_of_property_read_u32 sprt_np (lit "interrupt-parent") w;
  sprt_np ← (if retval =? 0 then fwk_of_find_node_by_phandle sprt_root (hd 0 handle) w else Ok sprt_np);
  if (retval =? 0) && isValid sprt_np then Ok sprt_np
  else
    '(retval, handle) ← fwk_of_property_read_u32 sprt_np (lit "interrupt-extended") w;
    sprt_np ← (if retval =? 0 then fwk_of_find_node_by_phandle sprt_root (hd 0 handle) w else Ok sprt_np);
    if (retval =? 0) && isValid sprt_np then Ok sprt_np
    else d ← deref (ds_nodes w !! sprt_np); Ok (dn_parent d).
Fixpoint irq_parent_loop (n : nat) (sprt_root sprt_np p : Z) w : res Z :=
  match n with
  | O => Spin
  | S n =>
      if isValid sprt_np && negb (isValid p) then
        sprt_np ← irq_parent_step sprt_root sprt_np w;
        p ← (if isValid sprt_np then '(q, _) ← fwk_of_find_property sprt_np (lit "#interrupt-cells") w; Ok q else Ok nullptr);
        irq_parent_loop n sprt_root sprt_np p w
      else Ok sprt_np
  end.
Definition fwk_of_irq_parent sprt_node w : res Z :=
  sprt_root ← fwk_of_find_node_by_path (lit "/") w; irq_parent_loop fuel sprt_root sprt_node nullptr w.
Definition fwk_of_n_irq_cells sprt_node w : res Z :=
  sprt_np ← fwk_of_irq_parent sprt_node w;
  if isValid sprt_np then '(_, cells) ← fwk_of_property_read_u32 sprt_np (lit "#interrupt-cells") w; Ok (hd 0 cells) else Ok 0.
Fixpoint irq_count_loop (n : nat) sprt_node (cells count : Z) w : res Z :=
  match n with
  | O => Spin
  | S n =>
      '(retval, _) ← fwk_of_property_read_u32_index sprt_node (lit "interrupts") (u32 (count * cells)) w;
      if negb (retval =? 0) then Ok count else irq_count_loop n sprt_node cells (u32 (count + 1)) w
  end.
Definition fwk_of_irq_count sprt_node w : res Z :=
  cells ← fwk_of_n_irq_cells sprt_node w;
  if cells =? 0 then Ok 0 else irq_count_loop fuel sprt_node cells 0 w.

(** ** Names of devices *)

(** The number at the end of an alias: digits add up, anything else starts over. *)
Fixpoint alias_number (n : nat) (m : mem) (p id : Z) : Z :=
  match n with
  | O => id
  | S n =>
      let id := s32 (10 * id) in
      let ch := m p in
      alias_number n m (p + 1) (if (57 <? ch) || (ch <? 48) then 0 else s32 (id + (ch - 48)))
  end.
Fixpoint alias_loop (n : nat) sprt_node (sprt_prop : Z) w : res Z :=
  match n with
  | O => Spin
  | S n =>
      if sprt_prop =? 0 then Ok (-1)
      else
        d ← deref (ds_props w !! sprt_prop);
        np ← deref (ds_nodes w !! sprt_node);
        differs ← strcmp fuel (ds_mem w) (dn_full_name np) (pr_value d);
        if (differs : bool) then alias_loop n sprt_node (pr_next d) w
        else
          lenth ← strlen fuel (ds_mem w) (pr_name d);
          if lenth =? 0 then Ok (-1)
          else
            let ch := ds_mem w (pr_name d + lenth - 1) in
            if (57 <? ch) || (ch <? 48) then Ok (-1) else Ok (alias_number (Z.to_nat lenth) (ds_mem w) (pr_name d) 0)
  end.
Definition fwk_of_get_alias_id sprt_node w : res Z :=
  sprt_alias ← fwk_of_find_node_by_name nullptr (lit "aliases") w;
  if sprt_alias =? 0 then Ok (-1)
  else a ← deref (ds_nodes w !! sprt_alias); alias_loop fuel sprt_node (dn_properties a) w.

(** The first comma of a string, or null. *)
Fixpoint strchr (n : nat) (m : mem) (p c : Z) : res Z :=
  match n with
  | O => Spin
  | S n => if m p =? c then Ok p else if m p =? 0 then Ok nullptr else strchr n m (p + 1) c
  end.
Definition fwk_of_modalias_node sprt_node (modalias len : Z) w : res (Z * dsys) :=
  '(compatible, cplen) ← fwk_of_get_property sprt_node (lit "compatible") w;
  if compatible =? 0 then Ok (- ER_CHECKERR, w)
  else
    k ← strlen fuel (ds_mem w) compatible;
    if cplen <? k then Ok (- ER_CHECKERR, w)
    else
      p ← strchr fuel (ds_mem w) compatible 44;
      '(_, m) ← kstrlcpy fuel (ds_mem w) modalias (if p =? 0 then compatible else p + 1) len;
      Ok (ER_NORMAL, dput_mem m w).
End nodes.
