(* ===== verification/OfSpec.v ===== *)
(** * Searches and property reads answer from the tree

    A linked tree (FdtTree.v) stands for a tree of names and properties; here the
    results of the functions in OfNode.v are expressed in terms of that tree. *)

From Stdlib Require Import Strings.String.
From stdpp Require Import prelude gmap fin_maps sorting.
From S2P Require Import Prelude Mem Bytes MemPool MemOps Sync Generic KMalloc HeapContract Fdt FdtSpec FdtMeasure FdtBuild FdtTree OfNode.

(** What is known of a node: where it hangs, its name and its properties. *)
Record info := Info { in_place : place; in_name : list Z; in_props : list dprop }.
Definition in_path (x : info) : list Z := path_of (in_place x) (in_name x).
Fixpoint nodes_of (par : place) (t : dtree) : list info :=
  match t with
  | DTree name props ch => Info par name (full_props name props) :: List.flat_map (nodes_of (below par name)) ch
  end.

(** The address of the first node whose information passes. *)
Fixpoint pick (f : info -> bool) (es : list entry) (xs : list info) : Z :=
  match es, xs with
  | e :: es, x :: xs => if f x then en_addr e else pick f es xs
  | _, _ => 0
  end.
Definition first_prop (nm : list Z) (xs : list dprop) : option dprop := head (filter (fun x => dp_name x = nm) xs).
Lemma first_prop_cons nm x xs : first_prop nm (x :: xs) = if decide (dp_name x = nm) then Some x else first_prop nm xs.
Proof. unfold first_prop. destruct (decide (dp_name x = nm)); [by rewrite filter_cons_True|by rewrite filter_cons_False]. Qed.

(** ** Paths tell nodes apart *)

(** Children of a node have names of their own. *)
Fixpoint names_distinct (t : dtree) : Prop :=
  match t with
  | DTree name props ch =>
      NoDup ((fun t => match t with DTree name _ _ => name end) <$> ch) /\
      (fix all (l : list dtree) : Prop := match l with [] => True | DTree name _ _ as t :: l => name <> [] /\ names_distinct t /\ all l end) ch
  end.
Definition root_name (t : dtree) : list Z := match t with DTree name _ _ => name end.
Lemma names_distinct_eq name props ch : names_distinct (DTree name props ch) <-> NoDup (root_name <$> ch) /\ Forall (fun t => root_name t <> [] /\ names_distinct t) ch.
Proof.
  cbn [names_distinct]. apply and_iff_compat_l. induction ch as [|[n p c] ch IH]; [done|]. rewrite Forall_cons, <- IH. cbn [root_name]. tauto.
Qed.
Definition path_base (par : place) : list Z := match par with Some (pp, false) => pp | _ => [] end.
Lemma path_of_base par name : par <> None -> path_of par name = path_base par ++ 47 :: name.
Proof. by destruct par as [[pp []]|]. Qed.
(** Every path below a node continues the node's own. *)
Lemma path_below t : forall par x, par <> None -> x ∈ nodes_of par t ->
  in_path x = path_base par ++ 47 :: root_name t \/ exists r, in_path x = path_base par ++ (47 :: root_name t) ++ 47 :: r.
Proof.
  induction t as [name props ch IH] using dtree_nested_ind. intros par x Hpar. cbn [nodes_of root_name]. intros [->|Hx]%elem_of_cons; [left; by apply path_of_base|right].
  apply list_elem_of_In, in_flat_map in Hx as (c & Hc & Hx). apply list_elem_of_In in Hc, Hx. rewrite Forall_forall in IH. assert (path_base (below par name) = path_base par ++ 47 :: name) as Eb.
  { unfold below. rewrite bool_decide_eq_false_2 by done. cbn [path_base]. by apply path_of_base. }
  destruct (IH c Hc (below par name) x ltac:(done) Hx) as [->|[r ->]]; rewrite Eb; [exists (root_name c)|exists (root_name c ++ 47 :: r)]; by rewrite <- app_assoc.
Qed.
Lemma slash_free_eq n1 n2 k1 k2 : 47 ∉ n1 -> 47 ∉ n2 -> n1 ++ 47 :: k1 = n2 ++ 47 :: k2 -> n1 = n2.
Proof.
  revert n2. induction n1 as [|c n1 IH]; intros [|d n2] H1 H2 E; cbn in E; [done|..]; injection E as E1 E.
  - destruct H2. rewrite <- E1. left.
  - destruct H1. rewrite E1. left.
  - f_equal; [done|]. apply (IH n2); set_solver.
Qed.
Lemma sibling_paths par t1 t2 x : par <> None -> names_ok t1 -> names_ok t2 -> x ∈ in_path <$> nodes_of par t1 -> x ∈ in_path <$> nodes_of par t2 -> root_name t1 = root_name t2.
Proof.
  intros Hpar Hn1 Hn2 (y1 & -> & H1)%list_elem_of_fmap (y2 & E & H2)%list_elem_of_fmap. apply path_below in H1, H2; try done. destruct t1 as [n1 p1 c1], t2 as [n2 p2 c2].
  apply names_ok_eq in Hn1 as [Hz1 _], Hn2 as [Hz2 _]. cbn [root_name] in *.
  assert (forall k1 k2, (n1 ++ k1) = (n2 ++ k2) -> (k1 = [] \/ exists r, k1 = 47 :: r) -> (k2 = [] \/ exists r, k2 = 47 :: r) -> n1 = n2) as Hd.
  { intros k1 k2 Ek H1' H2'. apply (slash_free_eq n1 n2 (tail k1) (tail k2)); [done..|]. destruct H1' as [->|[r1 ->]], H2' as [->|[r2 ->]]; rewrite ?app_nil_r in Ek; cbn [tail]; [by rewrite Ek| | |done].
    - rewrite Ek in Hz1. destruct Hz1. set_solver.
    - rewrite <- Ek in Hz2. destruct Hz2. set_solver. }
  destruct H1 as [E1|[r1 E1]], H2 as [E2|[r2 E2]]; rewrite E1, E2 in E; apply app_inv_head in E; cbn [app] in E; injection E as E.
  - apply (Hd [] []); [by rewrite !app_nil_r|by left|by left].
  - apply (Hd [] (47 :: r2)); [by rewrite app_nil_r|by left|right; eauto].
  - apply (Hd (47 :: r1) []); [by rewrite app_nil_r|right; eauto|by left].
  - apply (Hd (47 :: r1) (47 :: r2)); [done|right; eauto|right; eauto].
Qed.

Lemma forest_paths par l : par <> None -> Forall names_ok l -> NoDup (root_name <$> l) -> Forall (fun t => NoDup (in_path <$> nodes_of par t)) l ->
  NoDup (in_path <$> List.flat_map (nodes_of par) l).
Proof.
  intros Hpar Hok Hnd Hl. induction Hl as [|t l Ht Hl IH]; [constructor|]. cbn [List.flat_map]. apply Forall_cons in Hok as [Hokt Hok]. cbn [fmap list_fmap] in Hnd. apply NoDup_cons in Hnd as [Hn Hnd].
  rewrite fmap_app. apply NoDup_app. split; [done|]. split; [|auto]. intros x H1 (y & -> & H2)%list_elem_of_fmap. apply list_elem_of_In, in_flat_map in H2 as (c & Hc & H2). apply list_elem_of_In in Hc, H2.
  rewrite Forall_forall in Hok. apply Hn. rewrite (sibling_paths par t c (in_path y) Hpar Hokt (Hok c Hc) H1) by (by apply list_elem_of_fmap_2). by apply list_elem_of_fmap_2.
Qed.
Lemma tree_paths t : forall par, par <> None -> names_ok t -> names_distinct t -> NoDup (in_path <$> nodes_of par t).
Proof.
  induction t as [name props ch IH] using dtree_nested_ind. intros par Hpar [_ Hok]%names_ok_eq [Hnd Hch]%names_distinct_eq. cbn [nodes_of fmap list_fmap]. apply NoDup_cons. split.
  - intros (y & E & Hy)%list_elem_of_fmap. apply list_elem_of_In, in_flat_map in Hy as (c & _ & Hy). apply list_elem_of_In in Hy. cbn [in_path in_place in_name] in E. unfold in_path at 1 in E. cbn [in_place in_name] in E.
    rewrite (path_of_base par name Hpar) in E. assert (path_base (below par name) = path_base par ++ 47 :: name) as Eb.
    { unfold below. rewrite bool_decide_eq_false_2 by done. cbn [path_base]. by apply path_of_base. }
    apply path_below in Hy; [|done]. rewrite Eb in Hy. apply (f_equal length) in E. destruct Hy as [Ey|[r Ey]]; rewrite Ey, !length_app in E; cbn [length] in E; rewrite ?length_app in E; lia.
  - apply forest_paths; try done. rewrite Forall_forall in IH, Hok, Hch |- *. intros c Hc. apply IH; [done|done|by apply Hok|by apply Hch].
Qed.
Lemma paths_distinct t : tree_ok t -> names_distinct t -> NoDup (in_path <$> nodes_of None t).
Proof.
  destruct t as [name props ch]. intros [[_ Hok]%names_ok_eq ->] [Hnd Hch]%names_distinct_eq. cbn [nodes_of fmap list_fmap]. apply NoDup_cons. split.
  - intros (y & E & Hy)%list_elem_of_fmap. apply list_elem_of_In, in_flat_map in Hy as (c & Hc & Hy). apply list_elem_of_In in Hc, Hy. change (in_path (Info None [] _)) with [47] in E.
    rewrite Forall_forall in Hch. destruct (Hch c Hc) as [Hne _]. apply path_below in Hy; [|done]. change (path_base (below None [])) with (@nil Z) in Hy.
    destruct Hy as [Ey|[r Ey]]; rewrite Ey in E; cbn [app] in E; injection E as E; [by rewrite <- E in Hne|]. by destruct (root_name c).
  - apply forest_paths; try done. rewrite Forall_forall in Hok, Hch |- *. intros c Hc. apply tree_paths; [done|by apply Hok|by apply Hch].
Qed.

(** ** Values as arrays of big-endian numbers *)
Fixpoint cells (l : list Z) : list Z :=
  match l with
  | a :: b :: c :: d :: l => be32 [a; b; c; d] :: cells l
  | _ => []
  end.
Fixpoint halves (l : list Z) : list Z :=
  match l with
  | a :: b :: l => (a * 256 + b) :: halves l
  | _ => []
  end.
(** [elems] are the elements of [2 ^ shift] bytes that [load] finds from [p] on. *)
Definition array_at (shift : Z) (load : mem -> Z -> Z) (m : mem) (p : Z) (l elems : list Z) : Prop :=
  Z.of_nat (length elems) = Z.shiftr (len l) shift /\ forall i v, elems !! i = Some v -> load m (p + Z.shiftl (Z.of_nat i) shift) = v.
Lemma array_cons shift load m p k l v elems : 0 <= shift -> len k = 2 ^ shift -> array_at shift load m (p + 2 ^ shift) l elems -> load m p = v -> array_at shift load m p (k ++ l) (v :: elems).
Proof.
  intros Hs Hk [Hl He] Hv. assert (0 < 2 ^ shift) as Hp by (apply Z.pow_pos_nonneg; lia). split.
  - rewrite len_app, Hk, Z.shiftr_div_pow2, Z.add_comm by lia. replace (len l + 2 ^ shift) with (len l + 1 * 2 ^ shift) by lia. rewrite Z.div_add by lia.
    rewrite <- Z.shiftr_div_pow2 by lia. cbn [length]. lia.
  - intros [|i] u; cbn [lookup list_lookup]; [intros [= <-]; by rewrite Z.shiftl_0_l, Z.add_0_r|]. intros Hu%He. rewrite <- Hu. f_equal.
    rewrite !Z.shiftl_mul_pow2 by lia. lia.
Qed.
Lemma array_nil shift load m p l : 0 <= shift -> len l < 2 ^ shift -> array_at shift load m p l [].
Proof. intros Hs Hl. split; [|by intros i v]. rewrite Z.shiftr_div_pow2, Z.div_small by (pose proof (len_nonneg l); lia). done. Qed.
Lemma cells_at m : forall l p, Bytes.bytes_at m p l -> Forall byte l -> array_at 2 fdt32 m p l (cells l).
Proof.
  fix IH 1. intros [|a [|b [|c [|d l]]]] p Hb Hr; try (apply array_nil; [lia|done]). cbn [cells].
  apply (array_cons 2 fdt32 m p [a; b; c; d]); [lia|done| |].
  - apply IH; [|by repeat (apply Forall_cons in Hr as [_ Hr])]. destruct Hb as (_ & _ & _ & _ & Hb). by replace (p + 2 ^ 2) with (p + 1 + 1 + 1 + 1) by lia.
  - change (be32 [a; b; c; d]) with (be32 (a :: b :: c :: d :: l)). apply fdt32_be32; [done| |done]. rewrite !len_cons. pose proof (len_nonneg l). lia.
Qed.
Lemma halves_at m : forall l p, Bytes.bytes_at m p l -> Forall byte l -> array_at 1 (fun m p => be16_to_cpu (ld16 m p)) m p l (halves l).
Proof.
  fix IH 1. intros [|a [|b l]] p Hb Hr; try (apply array_nil; [lia|done]). cbn [halves]. apply (array_cons 1 _ m p [a; b]); [lia|done| |].
  - apply IH; [|by repeat (apply Forall_cons in Hr as [_ Hr])]. destruct Hb as (_ & _ & Hb). by replace (p + 2 ^ 1) with (p + 1 + 1) by lia.
  - destruct Hb as (Ea & Eb & _). rewrite !Forall_cons in Hr. destruct Hr as (Ha & Hb' & _). unfold byte in *. unfold ld16. rewrite Ea, Eb. unfold be16_to_cpu, reverse_byte16. Z.to_euclidean_division_equations. lia.
Qed.
Lemma bytes_array m p l : Bytes.bytes_at m p l -> array_at 0 (fun m p => m p) m p l l.
Proof. intros Hb. split; [by rewrite Z.shiftr_0_r|]. intros i v Hi. rewrite Z.shiftl_0_r. by eapply bytes_at_lookup. Qed.

(** ** Values as lists of strings *)
Definition strings (ss : list (list Z)) : list Z := List.flat_map (fun s => s ++ [0]) ss.
Lemma strings_cons s ss : strings (s :: ss) = s ++ [0] ++ strings ss.
Proof. unfold strings. cbn. by rewrite <- app_assoc. Qed.
Lemma strings_len ss : Z.of_nat (length ss) <= len (strings ss).
Proof. induction ss as [|s ss IH]; [done|]. rewrite strings_cons, !len_app, len_cons, len_nil. pose proof (len_nonneg s). cbn [length]. lia. Qed.
Lemma string_loop_spec fuel rs : forall n m i index total length vp ptr, Bytes.bytes_at m ptr (strings rs) -> Forall (Forall char) rs -> 0 < ptr -> ptr + len (strings rs) < W32 -> 0 <= total ->
  total + len (strings rs) = length -> length < W32 - 1 -> 1 <= i <= index + 1 -> index < W32 - 1 -> (Z.to_nat (len (strings rs)) < fuel)%nat -> (List.length rs < n)%nat ->
  string_loop fuel n m i index total length vp ptr = Ok (total + len (strings (take (Z.to_nat (index + 1 - i)) rs)), ptr + len (strings (take (Z.to_nat (index + 1 - i)) rs))).
Proof.
  induction rs as [|s rs IH]; intros n m i index total length vp ptr Hb Hc Hp Hpw Ht Hl Hlw Hi Hiw Hf Hn; (destruct n as [|n]; [simpl in Hn; lia|]); cbn [string_loop].
  { rewrite take_nil. cbn [strings List.flat_map] in *. rewrite len_nil in *. destruct (Z.leb_spec i index), (Z.ltb_spec total length); cbn [andb]; try lia; do 2 f_equal; lia. }
  rewrite strings_cons, !len_app, len_cons, len_nil in *. pose proof (len_nonneg s). pose proof (len_nonneg (strings rs)). apply Forall_cons in Hc as [Hs Hc].
  apply bytes_at_app in Hb as [Hb1 Hb2]. apply bytes_at_app in Hb2 as [Hb0 Hb2].
  assert (cstr m ptr s) as Hcs by (apply bytes_cstr; [done|]; apply bytes_at_app; by split).
  rewrite (proj2 (Z.ltb_lt total length)) by lia. destruct (Z.leb_spec i index); cbn [andb].
  - rewrite (proj2 (Z.eqb_neq ptr 0)) by lia. rewrite (strlen_spec m ptr s) by (done || (unfold len in *; lia)). cbn [mbind res_bind]. rewrite (u32_id (len s + 1)), (u32_id (total + _)), (u32_id (ptr + _)), (u32_id (i + 1)) by lia.
    replace (ptr + len s + len [0]) with (ptr + (len s + 1)) in Hb2 by (rewrite len_cons, len_nil; lia).
    rewrite IH; try done; try lia; [|simpl in Hn; lia]. replace (Z.to_nat (index + 1 - i)) with (S (Z.to_nat (index + 1 - (i + 1)))) by lia. cbn [take].
    rewrite strings_cons, !len_app, len_cons, len_nil. do 2 f_equal; lia.
  - replace (Z.to_nat (index + 1 - i)) with 0%nat by lia. cbn [take strings List.flat_map]. rewrite len_nil. do 2 f_equal; lia.
Qed.
(** The strings of a value. *)
Fixpoint split_strings (acc l : list Z) : list (list Z) :=
  match l with
  | [] => []
  | c :: l => if c =? 0 then acc :: split_strings [] l else split_strings (acc ++ [c]) l
  end.
Definition string_list (l : list Z) : Prop := strings (split_strings [] l) = l /\ Forall (Forall char) (split_strings [] l).
(** The strings of the property [nm]. *)
Definition strings_of (nm : list Z) (xs : list dprop) : list (list Z) :=
  match first_prop nm xs with Some y => split_strings [] (dp_value y) | None => [] end.
(** The [k]-th string of a value at [vp]. *)
Lemma nth_string m vp ss k s : Bytes.bytes_at m vp (strings ss) -> Forall (Forall char) ss -> ss !! k = Some s -> cstr m (vp + len (strings (take k ss))) s.
Proof.
  revert vp k. induction ss as [|s0 ss IH]; intros vp k Hb Hc Hk; [done|]. rewrite strings_cons in Hb. apply Forall_cons in Hc as [Hs Hc].
  apply bytes_at_app in Hb as [Hb1 Hb2]. apply bytes_at_app in Hb2 as [Hb0 Hb2]. destruct k as [|k]; cbn [lookup list_lookup] in Hk.
  - injection Hk as ->. cbn [take strings List.flat_map]. rewrite len_nil, Z.add_0_r. apply bytes_cstr; [done|]. apply bytes_at_app. by split.
  - cbn [take]. rewrite strings_cons, !len_app, len_cons, len_nil. specialize (IH _ _ Hb2 Hc Hk). rewrite len_cons, len_nil in IH.
    by replace (vp + (len s0 + (1 + 0 + len (strings (take k ss))))) with (vp + len s0 + (1 + 0) + len (strings (take k ss))) by lia.
Qed.
Lemma strings_take k ss : (k < length ss)%nat -> len (strings (take k ss)) < len (strings ss).
Proof.
  revert k. induction ss as [|s ss IH]; intros k Hk; [simpl in Hk; lia|]. rewrite strings_cons, !len_app, len_cons, len_nil. pose proof (len_nonneg s). pose proof (len_nonneg (strings ss)).
  destruct k as [|k]; cbn [take]; [cbn [strings List.flat_map]; rewrite len_nil; lia|]. rewrite strings_cons, !len_app, len_cons, len_nil. specialize (IH k). simpl in Hk. lia.
Qed.

Section spec.
Context {H : Type} `{KernelHeap H}.
Context (lit_null : Z) (fuel : nat).
Local Notation dsys := (@dsys H).
Local Notation dev_tree := (dev_tree lit_null).

(** An entry and what is known of its node. *)
Definition knows (K : Z -> Prop) (w : dsys) (e : entry) (x : info) : Prop := entry_ok K (ds_mem w) (ds_props w) lit_null (in_place x) (in_name x) (in_props x) e.
Lemma built_nodes K (w : dsys) t : forall par parent es, built lit_null K (ds_mem w) (ds_props w) par parent t es -> Forall2 (knows K w) es (nodes_of par t).
Proof.
  induction t as [name props ch IH] using dtree_nested_ind. intros par parent [|e es]; [done|]. rewrite built_eq. intros (_ & Hok & Hf). cbn [nodes_of]. constructor; [done|].
  revert es Hf. generalize (en_addr e). induction IH as [|t l Ht Hl IHl]; intros p es Hf; cbn in *; [by subst|]. destruct Hf as (es1 & es2 & -> & H1 & H2). apply Forall2_app; eauto.
Qed.
Lemma tree_nodes t es (w : dsys) : dev_tree t es w -> exists K, Forall2 (knows K w) es (nodes_of None t).
Proof. intros [_ _ _ (K & Hb)]. exists K. by eapply built_nodes. Qed.

(** ** Walking over all nodes *)
Lemma search_from test f es2 xs : forall es1 n (w : dsys), ds_nodes w = node_map (es1 ++ es2) -> NoDup (addrs (es1 ++ es2)) -> Forall2 (fun e x => isValid (en_addr e) = true /\ test (en_addr e) (record (es1 ++ es2) e) = Ok (f x)) es2 xs ->
  (length es2 < n)%nat -> search_nodes n test (hd 0 (addrs es2)) w = Ok (pick f es2 xs).
Proof.
  revert xs. induction es2 as [|e es2 IH]; intros xs es1 n w EN Hnd Hf Hn; (destruct n as [|n]; [simpl in Hn; lia|]); inversion Hf as [|? x ? xs' (Hv & Ht) Hrest]; subst; [done|].
  cbn [search_nodes addrs fmap list_fmap hd pick]. pose proof (isValid_nonzero _ Hv) as Hnz. rewrite (proj2 (Z.eqb_neq (en_addr e) nullptr)) by done.
  assert (e ∈ es1 ++ e :: es2) as He by set_solver. rewrite EN, (node_map_in _ e Hnd He). cbn [deref mbind res_bind]. rewrite Ht. cbn [mbind res_bind]. destruct (f x); [done|].
  assert (dn_allnext (record (es1 ++ e :: es2) e) = hd 0 (addrs es2)) as ->.
  { cbn [record dn_allnext]. unfold addrs in *. rewrite fmap_app in Hnd |- *. by apply after_app. }
  replace (es1 ++ e :: es2) with ((es1 ++ [e]) ++ es2) in * by (by rewrite <- app_assoc). apply (IH xs' (es1 ++ [e])); try done. simpl in Hn. lia.
Qed.
Lemma search_all test f t es (w : dsys) : dev_tree t es w -> (length es < fuel)%nat -> (forall K e x, e ∈ es -> x ∈ nodes_of None t -> knows K w e x -> test (en_addr e) (record es e) = Ok (f x)) ->
  search_nodes fuel test (ds_allNodes w) w = Ok (pick f es (nodes_of None t)).
Proof.
  intros Ht Hn Htest. destruct (tree_nodes _ _ _ Ht) as (K & Hk). destruct Ht as [EN Hnd Hhd _]. rewrite Hhd. apply (search_from test f es _ []); try done.
  apply Forall2_same_length_lookup. split; [by eapply Forall2_length|]. intros i e x He Hx. pose proof (Forall2_lookup_lr _ _ _ _ _ _ Hk He Hx) as Hex.
  split; [apply Hex|]. eapply Htest; [by eapply list_elem_of_lookup_2|by eapply list_elem_of_lookup_2|exact Hex].
Qed.
(** ** Properties *)
Lemma pick_property K nm l xs : forall n (w : dsys), chain K (ds_mem w) (ds_props w) l xs -> (length l < n)%nat -> Forall char nm ->
  exists a, find_property_loop n (hd 0 l) nm w = Ok a /\
    match first_prop nm xs with
    | Some x => isValid a = true /\ exists np vp nx, ds_props w !! a = Some (OfProp np (len (dp_value x)) vp nx) /\ in_range vp (len (dp_value x)) /\ Bytes.bytes_at (ds_mem w) vp (dp_value x)
    | None => a = 0
    end.
Proof.
  revert xs. induction l as [|a l IH]; intros [|x xs] n w Hc Hn Hnm; try done; (destruct n as [|n]; [simpl in Hn; lia|]); cbn [find_property_loop hd].
  { by exists 0. }
  destruct Hc as (_ & (_ & Hv & np & vp & Hp & Hpos & Hname & _ & Hb & _) & Hc). pose proof (isValid_nonzero _ Hv). rewrite (proj2 (Z.eqb_neq a nullptr)) by done.
  rewrite Hp. cbn [deref mbind res_bind pr_name pr_next]. rewrite (lit_differs_spec nm _ _ _ Hnm Hname), negb_involutive, first_prop_cons. case_bool_decide as E.
  - exists a. rewrite decide_True by done. split; [done|]. split; [done|]. by exists np, vp, (hd 0 l).
  - rewrite decide_False by done. apply IH; [done|simpl in Hn; lia|done].
Qed.
Lemma chain_length K m P l xs : chain K m P l xs -> length l = length xs.
Proof. revert xs. induction l as [|a l IH]; intros [|x xs]; try done. intros (_ & _ & Hc). simpl. f_equal. by apply IH. Qed.

Section node.
Context (t : dtree) (es : list entry) (w : dsys) (tree : dev_tree t es w).
Context (K : Z -> Prop) (e : entry) (x : info) (here : e ∈ es) (known : knows K w e x) (few : (length (in_props x) < fuel)%nat).

Lemma node_record : isValid (en_addr e) = true /\ ds_nodes w !! en_addr e = Some (record es e).
Proof using tree here known. split; [apply known|]. rewrite (dt_nodes _ _ _ _ tree). apply node_map_in; [apply tree|done]. Qed.
(** The property called [nm], if there is one. *)
Lemma find_property_spec nm : Forall char nm ->
  match first_prop nm (in_props x) with
  | Some y => exists a np vp nx, fwk_of_find_property fuel (en_addr e) nm w = Ok (a, u32 (len (dp_value y))) /\ isValid a = true /\
      ds_props w !! a = Some (OfProp np (len (dp_value y)) vp nx) /\ in_range vp (len (dp_value y)) /\ Bytes.bytes_at (ds_mem w) vp (dp_value y)
  | None => fwk_of_find_property fuel (en_addr e) nm w = Ok (0, 0)
  end.
Proof using tree here known few.
  intros Hnm. destruct node_record as [Hv Hd]. unfold fwk_of_find_property. rewrite Hv, Hd. cbn [deref mbind res_bind record dn_properties].
  pose proof (eo_props _ _ _ _ _ _ _ _ known) as Hc. destruct (pick_property K nm (en_props e) (in_props x) fuel w Hc) as (a & -> & Ha); [by rewrite (chain_length _ _ _ _ _ Hc)|done|].
  cbn [mbind res_bind]. destruct (first_prop nm (in_props x)) as [y|]; [|by subst]. destruct Ha as (Hav & np & vp & nx & Hp & Hpos & Hb).
  pose proof (isValid_nonzero _ Hav). rewrite (proj2 (Z.eqb_neq a nullptr)) by done. rewrite Hp. cbn [deref mbind res_bind pr_length]. by exists a, np, vp, nx.
Qed.
Lemma get_property_spec nm : Forall char nm ->
  match first_prop nm (in_props x) with
  | Some y => exists vp, fwk_of_get_property fuel (en_addr e) nm w = Ok (vp, u32 (len (dp_value y))) /\ in_range vp (len (dp_value y)) /\ Bytes.bytes_at (ds_mem w) vp (dp_value y)
  | None => fwk_of_get_property fuel (en_addr e) nm w = Ok (0, 0)
  end.
Proof using tree here known few.
  intros Hnm. pose proof (find_property_spec nm Hnm) as Hf. unfold fwk_of_get_property. destruct (first_prop nm (in_props x)) as [y|]; [|by rewrite Hf].
  destruct Hf as (a & np & vp & nx & -> & Hv & Hp & Hpos & Hb). cbn [mbind res_bind]. rewrite Hv, Hp. by exists vp.
Qed.
(** Reading [size] elements from [index] on: as many as there are. *)
Definition slice (index size : Z) (l : list Z) : Z * list Z :=
  if (Z.of_nat (length l) <=? index) || (size =? 0) then (- ER_FAULT, []) else (ER_NORMAL, take (Z.to_nat size) (drop (Z.to_nat index) l)).
Lemma seqZ_slice (f : Z -> Z) (l : list Z) a b : 0 <= a <= b -> b <= Z.of_nat (length l) -> (forall i v, l !! i = Some v -> f (Z.of_nat i) = v) ->
  f <$> seqZ a (b - a) = take (Z.to_nat (b - a)) (drop (Z.to_nat a) l).
Proof using Type.
  clear. intros Ha Hb Hf. apply list_eq. intros i. rewrite list_lookup_fmap. destruct (decide (Z.of_nat i < b - a)) as [Hi|Hi].
  - rewrite (proj2 (lookup_seqZ a (b - a) i (a + Z.of_nat i))) by lia. rewrite lookup_take_lt, lookup_drop by lia. simpl.
    destruct (l !! (Z.to_nat a + i)%nat) as [v|] eqn:E; [|apply lookup_ge_None in E; lia]. rewrite <- (Hf _ _ E). do 2 f_equal. lia.
  - rewrite lookup_seqZ_ge by lia. rewrite lookup_take_ge by lia. done.
Qed.
Lemma read_array_spec shift load nm index size (elems : list Z -> list Z) : 0 <= shift -> Forall char nm -> 0 <= index -> 0 <= size -> index + size < W32 ->
  (forall y vp, first_prop nm (in_props x) = Some y -> Bytes.bytes_at (ds_mem w) vp (dp_value y) -> len (dp_value y) < W32 /\ array_at shift load (ds_mem w) vp (dp_value y) (elems (dp_value y))) ->
  read_array_index fuel shift load (en_addr e) nm index size w =
    Ok (match first_prop nm (in_props x) with Some y => slice index size (elems (dp_value y)) | None => (- ER_FAULT, []) end).
Proof using tree here known few.
  intros Hs Hnm Hi Hsz Hw Hel. pose proof (find_property_spec nm Hnm) as Hf. unfold read_array_index. destruct (first_prop nm (in_props x)) as [y|]; [|by rewrite Hf].
  destruct Hf as (a & np & vp & nx & -> & Hv & Hp & Hpos & Hb). destruct (Hel y vp eq_refl Hb) as [Hlen [Hl He]]. cbn [mbind res_bind]. rewrite Hv, Hp. cbn [negb deref mbind res_bind pr_length pr_value].
  pose proof (len_nonneg (dp_value y)) as Hln. assert (0 <= Z.shiftr (len (dp_value y)) shift <= len (dp_value y)) as Hsh.
  { rewrite Z.shiftr_div_pow2 by lia. assert (0 < 2 ^ shift) by (apply Z.pow_pos_nonneg; lia). split; [apply Z.div_pos; lia|]. apply Z.div_le_upper_bound; nia. }
  rewrite (u32_id (Z.shiftr _ _)) by lia. rewrite <- Hl. unfold slice. destruct (Z.leb_spec (Z.of_nat (length (elems (dp_value y)))) index), (Z.eqb_spec size 0); cbn [orb]; try done.
  rewrite (u32_id (index + size)) by lia. do 2 f_equal. set (b := if _ <=? index + size then _ else _).
  assert (index <= b <= Z.of_nat (length (elems (dp_value y))) /\ (b = index + size \/ (b = Z.of_nat (length (elems (dp_value y))) /\ b <= index + size))) as [Hb1 Hb2] by (unfold b; destruct (Z.leb_spec (Z.of_nat (length (elems (dp_value y)))) (index + size)); lia).
  rewrite (seqZ_slice (fun i => load (ds_mem w) (vp + Z.shiftl i shift)) (elems (dp_value y)) index b) by (done || lia). destruct Hb2 as [-> | [Eb Hle]]; [f_equal; lia|].
  rewrite !take_ge by (rewrite length_drop; lia). done.
Qed.

(** *** Strings *)
Context (strings_fit : forall nm y, first_prop nm (in_props x) = Some y -> (length (dp_value y) + 1 < fuel)%nat).
Lemma read_string_index_spec nm index : Forall char nm -> 0 <= index < W32 - 1 ->
  match first_prop nm (in_props x) with
  | Some y => string_list (dp_value y) -> 
      match split_strings [] (dp_value y) !! Z.to_nat index with
      | Some s => exists p, fwk_of_property_read_string_index fuel (en_addr e) nm index w = Ok (ER_NORMAL, Some p) /\ cstr (ds_mem w) p s
      | None => fwk_of_property_read_string_index fuel (en_addr e) nm index w = Ok (- ER_MORE, None)
      end
  | None => fwk_of_property_read_string_index fuel (en_addr e) nm index w = Ok (- ER_FAULT, Some nullptr)
  end.
Proof using tree here known few strings_fit.
  intros Hnm Hi. pose proof (find_property_spec nm Hnm) as Hf. unfold fwk_of_property_read_string_index. destruct (first_prop nm (in_props x)) as [y|] eqn:Ey; [|by rewrite Hf].
  destruct Hf as (a & np & vp & nx & -> & Hv & Hp & [Hpos Hpw] & Hb). specialize (strings_fit nm y Ey). intros [Es Hc]. set (ss := split_strings [] (dp_value y)) in *. cbn [mbind res_bind].
  rewrite Hv, Hp. cbn [negb deref mbind res_bind pr_length pr_value]. rewrite <- Es in Hb, Hpw, strings_fit |- *. pose proof (strings_len ss) as Hsl. pose proof (len_nonneg (strings ss)).
  rewrite (u32_id (len (strings ss))) by lia. destruct fuel as [|n] eqn:En; [lia|]. cbn [string_loop]. rewrite (proj2 (Z.leb_le 0 index)) by lia. cbn [andb].
  destruct (Z.ltb_spec 0 (len (strings ss))) as [Hl|Hl].
  - cbn [Z.eqb nullptr mbind res_bind]. change (u32 (0 + 1)) with 1. change (u32 (0 + 0)) with 0. rewrite (string_loop_spec (S n) ss n); try done; try lia; [|unfold len in *; lia..]. cbn [mbind res_bind].
    replace (index + 1 - 1) with index by lia. destruct (ss !! Z.to_nat index) as [s|] eqn:Ess.
    + pose proof (lookup_lt_Some _ _ _ Ess) as Hlt. pose proof (strings_take _ _ Hlt). destruct (Z.leb_spec (len (strings ss)) (0 + len (strings (take (Z.to_nat index) ss)))); [lia|].
      eexists. split; [done|]. by apply nth_string.
    + apply lookup_ge_None in Ess. rewrite take_ge by done. by rewrite (proj2 (Z.leb_le _ _)) by lia.
  - cbn [mbind res_bind]. destruct ss as [|s ss']; [|cbn [length] in Hsl; lia]. rewrite lookup_nil. by rewrite (proj2 (Z.leb_le _ _)) by lia.
Qed.
Lemma compatible_loop compat y rs : forall n k, Forall char compat -> first_prop (lit "compatible") (in_props x) = Some y -> string_list (dp_value y) ->
  rs = drop k (split_strings [] (dp_value y)) -> (length rs < n)%nat -> Z.of_nat k + Z.of_nat (length rs) < W32 - 1 ->
  is_compatible_loop fuel n (en_addr e) compat (Z.of_nat k) w = Ok (bool_decide (compat ∈ rs)).
Proof using tree here known few strings_fit.
  induction rs as [|s rs IH]; intros n k Hco Ey Hs Er Hn Hk; (destruct n as [|n]; [simpl in Hn; lia|]); cbn [is_compatible_loop];
    pose proof (read_string_index_spec (lit "compatible") (Z.of_nat k) ltac:(by apply lit_char) ltac:(lia)) as Hr; rewrite Ey, Nat2Z.id in Hr; specialize (Hr Hs).
  - assert (split_strings [] (dp_value y) !! k = None) as E by (apply lookup_ge_None; apply (f_equal length) in Er; rewrite length_drop in Er; simpl in Er; lia). rewrite E in Hr. rewrite Hr. done.
  - assert (split_strings [] (dp_value y) !! k = Some s) as E by (rewrite <- (Nat.add_0_r k), <- lookup_drop, <- Er; done). rewrite E in Hr. destruct Hr as (p & -> & Hp). cbn [mbind res_bind ER_NORMAL Z.eqb negb deref].
    rewrite (lit_differs_spec compat _ _ _ Hco Hp), negb_involutive. destruct (decide (s = compat)) as [->|Esc]; [rewrite !bool_decide_eq_true_2; [done|left|done]|]. rewrite (bool_decide_eq_false_2 (s = compat)) by done.
    cbn [length] in Hn, Hk. rewrite u32_id by lia. replace (Z.of_nat k + 1) with (Z.of_nat (S k)) by lia. rewrite IH; try done; [|by rewrite <- Nat.add_1_r, <- drop_drop, <- Er|lia|lia].
    f_equal. apply bool_decide_ext. rewrite elem_of_cons. naive_solver.
Qed.
Lemma compatible_spec compat : Forall char compat -> (forall y, first_prop (lit "compatible") (in_props x) = Some y -> string_list (dp_value y) /\ len (dp_value y) < W32 - 1) ->
  fwk_of_device_is_compatible fuel (en_addr e) compat w = Ok (bool_decide (compat ∈ strings_of (lit "compatible") (in_props x))).
Proof using tree here known few strings_fit.
  intros Hco Hs. unfold fwk_of_device_is_compatible, strings_of. destruct (first_prop (lit "compatible") (in_props x)) as [y|] eqn:Ey.
  - destruct (Hs y eq_refl) as [Hsl Hlen]. apply (compatible_loop compat y _ fuel 0); try done.
    + pose proof (strings_len (split_strings [] (dp_value y))) as Hl. rewrite (proj1 Hsl) in Hl. specialize (strings_fit _ _ Ey). unfold len in Hl. lia.
    + pose proof (strings_len (split_strings [] (dp_value y))) as Hl. rewrite (proj1 Hsl) in Hl. lia.
  - pose proof (read_string_index_spec (lit "compatible") 0 ltac:(by apply lit_char) ltac:(unfold W32; lia)) as Hr. rewrite Ey in Hr. destruct fuel as [|n] eqn:En; [pose proof few as Hfew; rewrite ?En in Hfew; lia|]. cbn [is_compatible_loop]. by rewrite Hr.
Qed.
End node.

(** ** The searches *)
Lemma pick_own {A} `{EqDecision A} (g : info -> A) es xs i e x : NoDup (g <$> xs) -> es !! i = Some e -> xs !! i = Some x -> pick (fun y => bool_decide (g y = g x)) es xs = en_addr e.
Proof.
  clear. revert es i. induction xs as [|y xs IH]; intros [|e0 es] [|i] Hnd He Hx; try done; cbn [lookup list_lookup] in *.
  - injection He as ->. injection Hx as ->. cbn [pick]. by rewrite bool_decide_eq_true_2.
  - cbn [pick fmap list_fmap] in *. apply NoDup_cons in Hnd as [Hy Hnd]. rewrite bool_decide_eq_false_2; [by eapply IH|]. intros E. apply Hy. rewrite E. apply list_elem_of_fmap_2. by eapply list_elem_of_lookup_2.
Qed.
Lemma pick_none f es xs : (forall x, x ∈ xs -> f x = false) -> pick f es xs = 0.
Proof. clear. revert es. induction xs as [|y xs IH]; intros [|e es] Hf; try done. cbn [pick]. rewrite Hf by left. apply IH. intros x Hx. apply Hf. by right. Qed.
Lemma nodes_length t es (w : dsys) : dev_tree t es w -> length es = length (nodes_of None t).
Proof. intros Ht. destruct (tree_nodes _ _ _ Ht) as (K & Hk). by eapply Forall2_length. Qed.
Lemma find_by_path t es (w : dsys) path : dev_tree t es w -> (length (nodes_of None t) < fuel)%nat -> Forall char path ->
  fwk_of_find_node_by_path fuel path w = Ok (pick (fun x => bool_decide (in_path x = path)) es (nodes_of None t)).
Proof.
  intros Ht Hn Hp. unfold fwk_of_find_node_by_path. apply search_all; [done|by rewrite (nodes_length _ _ _ Ht)|]. intros K e x He _ Hk. f_equal. cbn [record dn_full_name].
  rewrite (lit_differs_spec path _ _ (in_path x) Hp); [apply negb_involutive|]. apply Hk.
Qed.
(** C21: In a tree whose siblings have different names, looking a node up by its full
    path finds that node, and looking up any other path finds none. *)
Theorem node_found_by_path t es (w : dsys) : dev_tree t es w -> tree_ok t -> names_distinct t -> (length (nodes_of None t) < fuel)%nat ->
  (forall i e x, es !! i = Some e -> nodes_of None t !! i = Some x -> fwk_of_find_node_by_path fuel (in_path x) w = Ok (en_addr e)) /\
  (forall path, Forall char path -> path ∉ in_path <$> nodes_of None t -> fwk_of_find_node_by_path fuel path w = Ok 0).
Proof.
  intros Ht Hok Hd Hn. split.
  - intros i e x He Hx. destruct (tree_nodes _ _ _ Ht) as (K & Hk). pose proof (Forall2_lookup_lr _ _ _ _ _ _ Hk He Hx) as Hex.
    rewrite (find_by_path t es) by (done || apply Hex). f_equal. apply (pick_own in_path) with i; [by apply paths_distinct|done|done].
  - intros path Hp Hnot. rewrite (find_by_path t es) by done. f_equal. apply pick_none. intros x Hx. apply bool_decide_eq_false_2. intros <-. apply Hnot. by apply list_elem_of_fmap_2.
Qed.

(** Values are bytes, and small compared with the loops' bound. *)
Definition node_fits (x : info) : Prop :=
  (length (in_props x) < fuel)%nat /\ Forall (fun y => (length (dp_value y) + 1 < fuel)%nat /\ Forall byte (dp_value y) /\ len (dp_value y) < 2147483648) (in_props x).
Lemma first_prop_in nm xs y : first_prop nm xs = Some y -> y ∈ xs /\ dp_name y = nm.
Proof.
  clear. unfold first_prop. intros E. assert (y ∈ filter (fun x => dp_name x = nm) xs) as Hin by (destruct (filter _ xs); [done|injection E as ->; left]). by apply list_elem_of_filter in Hin as [? ?].
Qed.
Lemma last_prop_in nm xs y : last_prop nm xs = Some y -> y ∈ xs.
Proof. clear. unfold last_prop. intros E%last_Some_elem_of. by apply list_elem_of_filter in E as [_ ?]. Qed.
Lemma fits_first x nm y : node_fits x -> first_prop nm (in_props x) = Some y -> (length (dp_value y) + 1 < fuel)%nat /\ Forall byte (dp_value y) /\ len (dp_value y) < 2147483648.
Proof. intros [_ Hf] [Hin _]%first_prop_in. rewrite Forall_forall in Hf. by apply Hf. Qed.

(** The reference of a node: its phandle, or the number that stands for none. *)
Definition handle_of (x : info) : Z := match last_prop (lit "phandle") (in_props x) with Some y => be32 (dp_value y) | None => W32 - 1 end.
Lemma be32_range l : Forall byte l -> 0 <= be32 l < W32.
Proof.
  clear. intros Hl. unfold W32. destruct l as [|a [|b [|c [|d l]]]]; cbn [be32]; try lia. rewrite !Forall_cons in Hl. destruct Hl as (Ha & Hb & Hc & Hd & _). unfold byte in *. lia.
Qed.
Lemma u32_s32 v : 0 <= v < W32 -> u32 (s32 v) = v.
Proof. clear. intros Hv. unfold u32, s32, W32 in *. Z.to_euclidean_division_equations; lia. Qed.
Lemma find_by_phandle t es (w : dsys) ph : dev_tree t es w -> (length (nodes_of None t) < fuel)%nat -> Forall node_fits (nodes_of None t) ->
  (forall x y, x ∈ nodes_of None t -> last_prop (lit "phandle") (in_props x) = Some y -> 4 <= len (dp_value y)) ->
  search_nodes fuel (fun _ d => Ok (ph =? u32 (dn_phandle d))) (ds_allNodes w) w = Ok (pick (fun x => ph =? handle_of x) es (nodes_of None t)).
Proof.
  intros Ht Hn Hfit Hph. apply search_all; [done|by rewrite (nodes_length _ _ _ Ht)|]. intros K e x He Hx Hex. f_equal. f_equal. cbn [record dn_phandle]. unfold handle_of.
  pose proof (eo_phandle _ _ _ _ _ _ _ _ Hex) as Hp. destruct (last_prop (lit "phandle") (in_props x)) as [y|] eqn:Ey; [|by rewrite Hp].
  rewrite Forall_forall in Hfit. destruct (Hfit x Hx) as [_ Hf]. rewrite Forall_forall in Hf. destruct (Hf y (last_prop_in _ _ _ Ey)) as (_ & Hb & _). rewrite (Hp (Hph x y Hx Ey) Hb). by apply u32_s32, be32_range.
Qed.

(** The name or the type of a node: the text at the start of the property that
    gives it, or the literal that stands for none. *)
Definition field_of (nm : list Z) (x : info) : list Z :=
  match last_prop nm (in_props x) with Some y => default [] (head (split_strings [] (dp_value y))) | None => lit "<null>" end.
Lemma field_text K m ptr nm x : field_ok K m lit_null ptr (last_prop nm (in_props x)) -> cstr m lit_null (lit "<null>") ->
  (forall y, last_prop nm (in_props x) = Some y -> string_list (dp_value y) /\ dp_value y <> []) -> cstr m ptr (field_of nm x).
Proof.
  clear. unfold field_of. intros Hf Hl Hs. destruct (last_prop nm (in_props x)) as [y|]; [|by rewrite Hf]. destruct Hf as (_ & Hb & _). destruct (Hs y eq_refl) as [[Es Hc] Hne].
  destruct (split_strings [] (dp_value y)) as [|s ss] eqn:E; [by rewrite <- Es in Hne|]. rewrite <- Es in Hb. pose proof (nth_string _ _ _ 0 s Hb Hc eq_refl) as H0.
  cbn [take strings List.flat_map] in H0. by rewrite len_nil, Z.add_0_r in H0.
Qed.

(** C22: Searching from the start of the tree, by name, by type, by reference
    (phandle), or by compatible string with or without a type, ends with the first
    node in the order of the flattened tree that has what is asked, and with null
    when no node has it; a node without name or type counts as one of the name or
    type <null>. *)
Theorem searches_answer t es (w : dsys) : dev_tree t es w -> (length (nodes_of None t) < fuel)%nat -> Forall node_fits (nodes_of None t) ->
  cstr (ds_mem w) lit_null (lit "<null>") ->
  (forall x nm y, x ∈ nodes_of None t -> nm ∈ [lit "name"; lit "device_type"] -> last_prop nm (in_props x) = Some y -> string_list (dp_value y) /\ dp_value y <> []) ->
  (forall x y, x ∈ nodes_of None t -> last_prop (lit "phandle") (in_props x) = Some y -> 4 <= len (dp_value y)) ->
  (forall x y, x ∈ nodes_of None t -> first_prop (lit "compatible") (in_props x) = Some y -> string_list (dp_value y)) ->
  (forall name, Forall char name -> fwk_of_find_node_by_name fuel nullptr name w = Ok (pick (fun x => bool_decide (field_of (lit "name") x = name)) es (nodes_of None t))) /\
  (forall type, Forall char type -> fwk_of_find_node_by_type fuel nullptr type w = Ok (pick (fun x => bool_decide (field_of (lit "device_type") x = type)) es (nodes_of None t))) /\
  (forall ph, fwk_of_find_node_by_phandle fuel nullptr ph w = Ok (pick (fun x => ph =? handle_of x) es (nodes_of None t))) /\
  (forall otype compat, (forall type, otype = Some type -> Forall char type) -> Forall char compat ->
     fwk_of_find_compatible_node fuel nullptr otype compat w =
     Ok (pick (fun x => from_option (fun type => bool_decide (field_of (lit "device_type") x = type)) true otype && bool_decide (compat ∈ strings_of (lit "compatible") (in_props x))) es (nodes_of None t))).
Proof.
  intros Ht Hn Hfit Hl Hfs Hph Hc. assert (length es < fuel)%nat as Hes by (by rewrite (nodes_length _ _ _ Ht)).
  assert (forall K e x, x ∈ nodes_of None t -> knows K w e x -> cstr (ds_mem w) (en_type e) (field_of (lit "device_type") x)) as Hty.
  { intros K e x Hx Hk. eapply field_text; [apply Hk|done|]. intros y. apply Hfs; [done|set_solver]. }
  split_and!.
  - intros name Hcn. apply search_all; [done..|]. intros K e x He Hx Hk. f_equal. cbn [record dn_name]. rewrite (lit_differs_spec name _ _ (field_of (lit "name") x) Hcn); [apply negb_involutive|].
    eapply field_text; [apply Hk|done|]. intros y. apply Hfs; [done|set_solver].
  - intros type Hct. apply search_all; [done..|]. intros K e x He Hx Hk. f_equal. cbn [record dn_type]. by rewrite (lit_differs_spec type _ _ _ Hct (Hty K e x Hx Hk)), negb_involutive.
  - intros ph. by apply find_by_phandle.
  - intros otype compat Hco Hcc. apply search_all; [done..|]. intros K e x He Hx Hk. rewrite Forall_forall in Hfit. specialize (Hfit x Hx).
    assert (fwk_of_device_is_compatible fuel (en_addr e) compat w = Ok (bool_decide (compat ∈ strings_of (lit "compatible") (in_props x)))) as Hcs.
    { apply (compatible_spec t es w Ht K e x He Hk); [apply Hfit| |done|].
      - intros nm y Hy. by destruct (fits_first _ _ _ Hfit Hy) as (? & _).
      - intros y Hy. destruct (fits_first _ _ _ Hfit Hy) as (_ & _ & Hlen). split; [by eapply Hc|unfold W32; lia]. }
    rewrite Hcs. destruct otype as [type|]; [|done]. cbn [record dn_type from_option]. rewrite (lit_differs_spec type _ _ _ (Hco type eq_refl) (Hty K e x Hx Hk)). by destruct (bool_decide (field_of (lit "device_type") x = type)).
Qed.

(** C23: Reading a property of a node as bytes, halfwords or words returns the asked
    part of the array the tree gives for it, cut at its end; the first property of
    that name counts, and a missing property, a position behind the end or a size
    of nothing is an error. *)
Theorem property_reads t es (w : dsys) i e x nm index size : dev_tree t es w -> es !! i = Some e -> nodes_of None t !! i = Some x -> node_fits x ->
  Forall char nm -> 0 <= index -> 0 <= size -> index + size < W32 ->
  let answer f := Ok (match first_prop nm (in_props x) with Some y => slice index size (f (dp_value y)) | None => (- ER_FAULT, []) end) in
  fwk_of_property_read_u8_array_index fuel (en_addr e) nm index size w = answer (fun v => v) /\
  fwk_of_property_read_u16_array_index fuel (en_addr e) nm index size w = answer halves /\
  fwk_of_property_read_u32_array_index fuel (en_addr e) nm index size w = answer cells.
Proof.
  intros Ht He Hx Hfit Hnm Hi Hs Hw answer. destruct (tree_nodes _ _ _ Ht) as (K & Hk). pose proof (Forall2_lookup_lr _ _ _ _ _ _ Hk He Hx) as Hex. apply list_elem_of_lookup_2 in He.
  split_and!; (eapply read_array_spec; try done; [apply Hfit|]); intros y vp Hy Hb; destruct (fits_first _ _ _ Hfit Hy) as (_ & Hby & Hl); (split; [unfold W32; lia|]).
  - by apply bytes_array.
  - by apply halves_at.
  - by apply cells_at.
Qed.
End spec.

(** ** The example of FdtTree.v *)
Lemma demo_nodes_fit : Forall (node_fits 200) (nodes_of None demo_tree).
Proof. cbn [demo_tree nodes_of List.flat_map app full_props]. repeat constructor; simpl; try lia. Qed.
Lemma demo_names : tree_ok demo_tree /\ names_distinct demo_tree.
Proof. split; [apply demo_blob_ok|]. apply names_distinct_eq. split; [by apply (bool_decide_unpack _)|]. repeat constructor; done. Qed.
Lemma demo_nodes_three : length (nodes_of None demo_tree) = 3%nat.
Proof. done. Qed.
Lemma demo_second es : dev_tree 16400 demo_tree es demo_unflattened -> exists e x, es !! 1%nat = Some e /\ nodes_of None demo_tree !! 1%nat = Some x /\ in_path x = lit "/gpc@2" /\ handle_of x = 5.
Proof.
  intros Ht. pose proof (nodes_length _ _ _ _ Ht) as Hl. rewrite demo_nodes_three in Hl. destruct es as [|e0 [|e [|e2 es]]]; try done. exists e. eexists. split; [done|]. by split_and!.
Qed.
Lemma node_found_by_path_witness : exists e, fwk_of_find_node_by_path 200 (lit "/gpc@2") demo_unflattened = Ok e /\ fwk_of_find_node_by_path 200 (lit "/led") demo_unflattened = Ok 0.
Proof.
  destruct demo_built as (es & Ht). destruct (demo_second es Ht) as (e & x & He & Hx & Hp & _). exists (en_addr e).
  destruct (node_found_by_path 16400 200 demo_tree es demo_unflattened Ht (proj1 demo_names) (proj2 demo_names)) as [Hown Hnone]; [rewrite demo_nodes_three; lia|].
  rewrite <- Hp. split; [exact (Hown 1%nat e x He Hx)|]. apply Hnone; [by apply lit_char|]. by apply (bool_decide_unpack _).
Defined.
Lemma searches_answer_witness : exists e, fwk_of_find_node_by_phandle 200 nullptr 5 demo_unflattened = Ok (en_addr e) /\ fwk_of_find_node_by_name 200 nullptr (lit "gpc") demo_unflattened = Ok (en_addr e) /\
  fwk_of_find_compatible_node 200 nullptr (Some (lit "<null>")) (lit "c,d") demo_unflattened = Ok (en_addr e) /\ fwk_of_find_compatible_node 200 nullptr (Some (lit "cpu")) (lit "c,d") demo_unflattened = Ok 0 /\
  fwk_of_find_node_by_type 200 nullptr (lit "cpu") demo_unflattened = Ok 0 /\ fwk_of_find_compatible_node 200 nullptr None (lit "c") demo_unflattened = Ok 0.
Proof.
  destruct demo_built as (es & Ht). destruct (demo_second es Ht) as (e & x & He & Hx & _). exists e.
  destruct (searches_answer 16400 200 demo_tree es demo_unflattened Ht) as (Hnm & Hty & Hph & Hc); [rewrite demo_nodes_three; lia|exact demo_nodes_fit|..].
  - split; [by vm_compute|by apply lit_char].
  - intros y nm z Hy Hnm. apply elem_of_cons in Hnm as [->|Hnm]; [|apply elem_of_cons in Hnm as [->|Hnm]; [|by apply not_elem_of_nil in Hnm]];
      (repeat (apply elem_of_cons in Hy as [->|Hy]; [intros Hz; vm_compute in Hz; first [discriminate Hz|injection Hz as <-; split; [split; [done|repeat constructor]|done]]|])); by apply not_elem_of_nil in Hy.
  - intros y z Hy. repeat (apply elem_of_cons in Hy as [->|Hy]; [intros Hz; vm_compute in Hz; first [discriminate Hz|injection Hz as <-; vm_compute; discriminate]|]). by apply not_elem_of_nil in Hy.
  - intros y z Hy. repeat (apply elem_of_cons in Hy as [->|Hy]; [intros Hz; vm_compute in Hz; first [discriminate Hz|injection Hz as <-; split; [done|repeat constructor]]|]). by apply not_elem_of_nil in Hy.
  - assert (forall type s, Some (lit s) = Some type -> Forall char (lit s) -> Forall char type) as Hs by (intros ? ? [= <-]; done).
    pose proof (nodes_length _ _ _ _ Ht) as Hl. rewrite demo_nodes_three in Hl. destruct es as [|e0 [|e1 [|e2 [|? es]]]]; try discriminate Hl. injection He as ->.
    split_and!; [rewrite Hph|rewrite Hnm by (by apply lit_char)|rewrite Hc by first [intros ? E; eapply Hs; [exact E|]; by apply lit_char|by apply lit_char]..|rewrite Hty by (by apply lit_char)|rewrite Hc by first [intros ? E; discriminate E|by apply lit_char]]; vm_compute; reflexivity.
Defined.
Lemma property_reads_witness : exists e, fwk_of_property_read_u32_array_index 200 e (lit "phandle") 0 1 demo_unflattened = Ok (ER_NORMAL, [5]).
Proof.
  destruct demo_built as (es & Ht). destruct (demo_second es Ht) as (e & x & He & Hx & _). exists (en_addr e).
  destruct (property_reads 16400 200 demo_tree es demo_unflattened 1 e x (lit "phandle") 0 1 Ht He Hx) as (_ & _ & ->); try lia.
  - pose proof demo_nodes_fit as Hf. rewrite Forall_forall in Hf. apply Hf. by eapply list_elem_of_lookup_2.
  - by apply lit_char.
  - unfold W32. lia.
  - vm_compute in Hx. injection Hx as <-. by vm_compute.
Defined.
