(* ===== verification/OfIrq.v ===== *)
(** * Interrupts in the device tree (platform/irq/fwk_irq_domain.c, fwk_irq.c)

    A device's node lists its interrupts as groups of words; how many words make a
    group, and what they mean, is up to the interrupt controller the node is routed
    to.  [fwk_of_irq_parse_one] takes a group out of the tree, and
    [fwk_irq_of_parse_and_map] has the controller's domain (Irq.v) give the line a
    number.  [fwk_of_irq_init] starts the controllers themselves, those that others
    depend on first. *)

From Stdlib Require Import Strings.String.
From stdpp Require Import prelude gmap fin_maps sorting.
From S2P Require Import Prelude Mem Bytes MemPool MemOps Sync Generic KMalloc HeapContract Irq Fdt OfNode.

Section parse.
Context {H : Type} `{KernelHeap H}.
Context (fuel : nat).
Local Notation dsys := (@dsys H).

(** The words [first] to [first + cells - 1] of "interrupts"; [None] on an error. *)
Fixpoint read_group (n : nat) (sprt_node first : Z) (w : dsys) : res (option (list Z)) :=
  match n with
  | O => Ok (Some [])
  | S n =>
      '(retval, value) ← fwk_of_property_read_u32_index fuel sprt_node (lit "interrupts") first w;
      if retval <? 0 then Ok None
      else l ← read_group n sprt_node (u32 (first + 1)) w; Ok (match l with Some l => Some (hd 0 value :: l) | None => None end)
  end.
Definition fwk_of_irq_parse_one (sprt_node index : Z) (w : dsys) : res (Z * option of_phandle_args) :=
  if negb (isValid sprt_node) then Ok (- ER_NULLPTR, None)
  else
    '(ptr_value, lenth) ← fwk_of_get_property fuel sprt_node (lit "interrupts") w;
    let lenth := lenth / 4 in
    cells ← fwk_of_n_irq_cells fuel sprt_node w;
    if (cells =? 0) || (FWK_OF_MAX_PHANDLE_ARGS <=? cells) then Ok (- ER_FAULT, None)
    else if (ptr_value =? 0) || (lenth <? u32 (u32 (index + 1) * cells)) then Ok (- ER_FAULT, None)
    else
      args ← read_group (Z.to_nat cells) sprt_node (u32 (index * cells)) w;
      match args with
      | None => Ok (- ER_FAULT, None)
      | Some args =>
          sprt_parent ← fwk_of_irq_parent fuel sprt_node w;
          if negb (isValid sprt_parent) then Ok (- ER_FAULT, None)
          else Ok (ER_NORMAL, Some (PhandleArgs sprt_parent args))
      end.

(** [create] is [fwk_irq_create_of_mapping] of Irq.v, on the state of the interrupts. *)
Definition fwk_irq_of_parse_and_map {I} (create : Z -> list Z -> Z -> I -> res (Z * I)) (sprt_node index : Z) (w : dsys) (i : I) : res (Z * I) :=
  '(retval, args) ← fwk_of_irq_parse_one sprt_node index w;
  if retval <? 0 then Ok (- ER_FAILD, i)
  else args ← deref args; create (pa_node args) (pa_args args) (Z.of_nat (length (pa_args args))) i.
Definition fwk_of_irq_get {I} (create : Z -> list Z -> Z -> I -> res (Z * I)) (sprt_node index : Z) (w : dsys) (i : I) : res (Z * I) :=
  fwk_irq_of_parse_and_map create sprt_node index w i.

(** ** Starting the controllers *)

(** A descriptor: its address, the controller's node and the one it depends on. *)
Record intcs_desc := IntcsDesc { ic_addr : Z; ic_np : Z; ic_parent : Z }.
Context (sizeof_intcs : Z).
(** [init data np parent] is the function a table entry holds in [data]; it may
    take and give back memory, and works on a state of its own. *)
Context {S : Type} (init : Z -> Z -> Z -> dsys -> S -> res (Z * dsys * S)).
Context (sprt_matches : option (list of_device_id)).

(** [foreach_fwk_of_dt_node]: a descriptor for every controller the table knows.
    [false] when memory ran out. *)
Fixpoint collect (n : nat) (np : Z) (descs : list intcs_desc) (w : dsys) : res (bool * list intcs_desc * dsys) :=
  match n with
  | O => Spin
  | Datatypes.S n =>
      if negb (isValid np) then Ok (true, descs, w)
      else
        d ← deref (ds_nodes w !! np);
        '(sprt_prop, _) ← fwk_of_find_property fuel np (lit "interrupt-controller") w;
        of_status ← fwk_of_device_is_avaliable fuel np w;
        if negb (isValid sprt_prop) || negb of_status then collect n (dn_allnext d) descs w
        else
          '(r, _) ← fwk_of_node_try_matches fuel np sprt_matches w;
          if r =? 0 then collect n (dn_allnext d) descs w
          else
            '(p, c, h) ← heap_alloc (ds_cpu w) (ds_heap w) sizeof_intcs (Z.lor GFP_KERNEL GFP_ZERO);
            let w := dput_heap c h w in
            if negb (isValid p) then Ok (false, descs, w)
            else
              parent ← fwk_of_irq_parent fuel np w;
              collect n (dn_allnext d) (descs ++ [IntcsDesc p np (if np =? parent then nullptr else parent)]) w
  end.
Definition intcs_free (d : intcs_desc) (w : dsys) : res dsys := '(c, h) ← heap_free (ds_cpu w) (ds_heap w) (ic_addr d); Ok (dput_heap c h w).
Fixpoint free_list (l : list intcs_desc) (w : dsys) : res dsys :=
  match l with
  | [] => Ok w
  | d :: l => w ← intcs_free d w; free_list l w
  end.
(** One round over the descriptors: those that depend on [parent] are taken out and
    started.  Results: the descriptors left, those started, the calls made (node,
    parent, result). *)
Fixpoint start_round (parent : Z) (descs : list intcs_desc) (w : dsys) (s : S) : res (list intcs_desc * list intcs_desc * list (Z * Z * Z) * dsys * S) :=
  match descs with
  | [] => Ok ([], [], [], w, s)
  | d :: descs =>
      i ← fwk_of_match_node fuel sprt_matches (ic_np d) w;
      if negb (parent =? ic_parent d) then
        '(rest, started, calls, w, s) ← start_round parent descs w s; Ok (d :: rest, started, calls, w, s)
      else
        let data := match i, sprt_matches with Some i, Some ids => from_option di_data 0 (ids !! i) | _, _ => 0 end in
        if data =? 0 then w ← intcs_free d w; start_round parent descs w s
        else
          '(retval, w, s) ← init data (ic_np d) (ic_parent d) w s;
          w ← (if retval <? 0 then intcs_free d w else Ok w);
          '(rest, started, calls, w, s) ← start_round parent descs w s;
          Ok (rest, if retval <? 0 then started else d :: started, (ic_np d, ic_parent d, retval) :: calls, w, s)
  end.
Fixpoint start_all (n : nat) (parent : Z) (descs parents : list intcs_desc) (w : dsys) (s : S) : res (list (Z * Z * Z) * dsys * S) :=
  match n with
  | O => Spin
  | Datatypes.S n =>
      match descs with
      | [] => w ← free_list parents w; Ok ([], w, s)
      | _ :: _ =>
          '(descs, started, calls, w, s) ← start_round parent descs w s;
          match parents ++ started with
          | [] => w ← free_list descs w; Ok (calls, w, s)
          | d :: parents =>
              w ← intcs_free d w;
              '(calls', w, s) ← start_all n (ic_np d) descs parents w s;
              Ok (calls ++ calls', w, s)
          end
      end
  end.
Definition fwk_of_irq_init (w : dsys) (s : S) : res (list (Z * Z * Z) * dsys * S) :=
  '(ok, descs, w) ← collect fuel (ds_allNodes w) [] w;
  if (ok : bool) then start_all fuel nullptr descs [] w s else w ← free_list descs w; Ok ([], w, s).
End parse.
