(* ===== verification/OfIrqSpec.v ===== *)
(** * Interrupt routing, mapping and start-up

    The interrupt of a device is taken from the tree, routed to a controller by
    references and parents ([leads]), and mapped through the controller's domain;
    controllers are started after those they depend on. *)

From Stdlib Require Import Strings.String.
From stdpp Require Import prelude gmap fin_maps sorting.
From S2P Require Import Prelude Mem Bytes MemPool MemOps Sync Generic RadixHistory KMalloc KMallocSpec HeapContract Irq IrqSpec Fdt FdtSpec FdtMeasure FdtBuild FdtTree OfNode OfSpec OfIrq.

Definition first_cell (nm : list Z) (x : info) : option Z := match first_prop nm (in_props x) with Some y => head (cells (dp_value y)) | None => None end.

Section routing.
Context {H : Type} `{KernelHeap H}.
Context (lit_null : Z) (fuel : nat).
Local Notation dsys := (@dsys H).
Local Notation dev_tree := (dev_tree lit_null).
Context (t : dtree) (es : list entry) (w : dsys) (tree : dev_tree t es w).
Context (few : (length (nodes_of None t) < fuel)%nat) (fit : Forall (node_fits fuel) (nodes_of None t)).
Context (handles : forall x y, x ∈ nodes_of None t -> last_prop (lit "phandle") (in_props x) = Some y -> 4 <= len (dp_value y)).

(** The node at address [a]. *)
Definition is_node (a : Z) (e : entry) (x : info) : Prop := en_addr e = a /\ exists i, es !! i = Some e /\ nodes_of None t !! i = Some x.
Lemma is_node_knows a e x : is_node a e x -> exists K, e ∈ es /\ knows lit_null K w e x /\ node_fits fuel x /\ isValid a = true.
Proof using tree fit few.
  intros (<- & i & He & Hx). destruct (tree_nodes _ _ _ _ tree) as (K & Hk). pose proof (Forall2_lookup_lr _ _ _ _ _ _ Hk He Hx) as Hex. exists K. rewrite Forall_forall in fit.
  split_and!; [by eapply list_elem_of_lookup_2|done|apply fit; by eapply list_elem_of_lookup_2|apply Hex].
Qed.
Lemma read_word_index a e x nm y index : is_node a e x -> Forall char nm -> first_prop nm (in_props x) = Some y -> 0 <= index < W32 - 1 ->
  fwk_of_property_read_u32_index fuel a nm index w = Ok (match cells (dp_value y) !! Z.to_nat index with Some v => (ER_NORMAL, [v]) | None => (- ER_FAULT, []) end).
Proof using tree fit few.
  intros Hn Hnm Hy Hi. destruct (is_node_knows _ _ _ Hn) as (K & He & Hk & Hf & _). destruct Hn as (<- & _). unfold fwk_of_property_read_u32_index, fwk_of_property_read_u32_array_index.
  rewrite (read_array_spec lit_null fuel t es w tree K e x He Hk (proj1 Hf) 2 fdt32 nm index 1 cells) by (done || lia || (intros z vp Hz Hb; destruct (fits_first _ _ _ _ Hf Hz) as (_ & Hby & Hl); split; [unfold W32; lia|by apply cells_at])).
  rewrite Hy. unfold slice. change (1 =? 0) with false. rewrite orb_false_r. destruct (cells (dp_value y) !! Z.to_nat index) as [v|] eqn:E.
  - pose proof (lookup_lt_Some _ _ _ E). destruct (Z.leb_spec (Z.of_nat (length (cells (dp_value y)))) index); [lia|]. by rewrite (drop_S _ v) by done.
  - apply lookup_ge_None in E. destruct (Z.leb_spec (Z.of_nat (length (cells (dp_value y)))) index); [done|lia].
Qed.
Lemma read_word a e x nm : is_node a e x -> Forall char nm -> fwk_of_property_read_u32 fuel a nm w = Ok (match first_cell nm x with Some v => (ER_NORMAL, [v]) | None => (- ER_FAULT, []) end).
Proof using tree fit few.
  intros Hn Hnm. unfold first_cell. destruct (first_prop nm (in_props x)) as [y|] eqn:Ey.
  - pose proof (read_word_index a e x nm y 0 Hn Hnm Ey ltac:(unfold W32; lia)) as Hr. change (fwk_of_property_read_u32_index fuel a nm 0 w) with (fwk_of_property_read_u32 fuel a nm w) in Hr.
    rewrite Hr. by destruct (cells (dp_value y)).
  - destruct (is_node_knows _ _ _ Hn) as (K & He & Hk & Hf & _). destruct Hn as (<- & _). unfold fwk_of_property_read_u32, fwk_of_property_read_u32_array_index, read_array_index.
    pose proof (find_property_spec lit_null fuel t es w tree K e x He Hk (proj1 Hf) nm Hnm) as Hp. rewrite Ey in Hp. by rewrite Hp.
Qed.

(** ** Routing *)

(** Where interrupts of a node go: to the node it refers to, or to its parent. *)
Definition by_handle (h : Z) : Z := pick (fun x => h =? handle_of x) es (nodes_of None t).
Definition route_next (e : entry) (x : info) (b : Z) : Prop :=
  match first_cell (lit "interrupt-parent") x, first_cell (lit "interrupt-extended") x with
  | Some h, _ => b = by_handle h /\ isValid b = true
  | None, Some h => b = by_handle h /\ isValid b = true
  | None, None => b = en_parent e
  end.
(** Following these steps from [a] ends at the controller [c], in [n] of them; at
    null when it leaves the root. *)
Inductive leads : nat -> Z -> Z -> Prop :=
  | leads_here a e x b f y : is_node a e x -> route_next e x b -> is_node b f y -> first_prop (lit "#interrupt-cells") (in_props y) <> None -> leads 1 a b
  | leads_on n a e x b f y c : is_node a e x -> route_next e x b -> is_node b f y -> first_prop (lit "#interrupt-cells") (in_props y) = None -> leads n b c -> leads (S n) a c
  | leads_none a e x : is_node a e x -> route_next e x 0 -> leads 1 a 0.

Lemma step_spec a e x b : is_node a e x -> route_next e x b -> irq_parent_step fuel (ds_allNodes w) a w = Ok b.
Proof using tree few fit handles.
  intros Hn Hr. unfold irq_parent_step. rewrite (read_word a e x) by (done || by apply lit_char). unfold route_next in Hr.
  assert (forall h, fwk_of_find_node_by_phandle fuel (ds_allNodes w) h w = Ok (by_handle h)) as Hfind.
  { intros h. unfold fwk_of_find_node_by_phandle. replace (search_head (ds_allNodes w) w) with (ds_allNodes w) by (unfold search_head; by destruct (isValid (ds_allNodes w))). by apply (find_by_phandle lit_null fuel). }
  destruct (first_cell (lit "interrupt-parent") x) as [h|]; cbn [mbind res_bind ER_NORMAL Z.eqb hd].
  { rewrite Hfind. destruct Hr as [-> Hv]. cbn [mbind res_bind]. by rewrite Hv. }
  change (- ER_FAULT =? 0) with false. cbn [mbind res_bind andb]. rewrite (read_word a e x) by (done || by apply lit_char). destruct (first_cell (lit "interrupt-extended") x) as [h|]; cbn [mbind res_bind ER_NORMAL Z.eqb hd].
  { rewrite Hfind. destruct Hr as [-> Hv]. cbn [mbind res_bind]. by rewrite Hv. }
  change (- ER_FAULT =? 0) with false. cbn [mbind res_bind andb]. destruct (is_node_knows _ _ _ Hn) as (K & He & Hk & _). destruct Hn as (<- & _).
  destruct (node_record lit_null t es w tree K e x He Hk) as [_ ->]. by rewrite Hr.
Qed.
Lemma irq_parent_loop_spec n a c : leads n a c -> forall k, (n < k)%nat -> irq_parent_loop fuel k (ds_allNodes w) a nullptr w = Ok c.
Proof using tree few fit handles.
  induction 1 as [a e x b f y Hn Hr Hb Hc|n a e x b f y c Hn Hr Hb Hc Hl IH|a e x Hn Hr]; intros k Hk; (destruct k as [|k]; [lia|]);
    destruct (is_node_knows _ _ _ Hn) as (K & _ & _ & _ & Hva); cbn [irq_parent_loop]; rewrite Hva; cbn [isValid nullptr Z.eqb negb andb]; rewrite (step_spec _ _ _ _ Hn Hr); cbn [mbind res_bind].
  3: destruct k as [|k]; [lia|done].
  all: destruct (is_node_knows _ _ _ Hb) as (K' & Hf & Hkf & Hff & Hvb); rewrite Hvb; pose proof Hb as (<- & _);
    pose proof (find_property_spec lit_null fuel t es w tree K' f y Hf Hkf (proj1 Hff) (lit "#interrupt-cells") ltac:(by apply lit_char)) as Hp.
  - destruct (first_prop (lit "#interrupt-cells") (in_props y)) as [z|]; [|done]. destruct Hp as (q & np & vp & nx & -> & Hq & _). cbn [mbind res_bind]. destruct k as [|k]; [lia|]. cbn [irq_parent_loop]. by rewrite Hvb, Hq.
  - rewrite Hc in Hp. rewrite Hp. cbn [mbind res_bind]. apply IH. lia.
Qed.
Lemma irq_parent_spec n a c : leads n a c -> (n < fuel)%nat -> fwk_of_irq_parent fuel a w = Ok c.
Proof using tree few fit handles.
  intros Hl Hn. unfold fwk_of_irq_parent. rewrite (find_by_path lit_null fuel t es w (lit "/") tree few ltac:(by apply lit_char)). cbn [mbind res_bind].
  assert (pick (fun x => bool_decide (in_path x = lit "/")) es (nodes_of None t) = ds_allNodes w) as ->; [|by eapply irq_parent_loop_spec].
  rewrite (dt_head _ _ _ _ tree). pose proof (nodes_length _ _ _ _ tree) as Hlen. destruct t as [name props ch]. destruct es as [|e es']; [done|]. done.
Qed.

(** ** One group *)
Lemma read_group_spec a e x y : is_node a e x -> first_prop (lit "interrupts") (in_props x) = Some y -> forall n first, 0 <= first -> first + Z.of_nat n <= Z.of_nat (length (cells (dp_value y))) ->
  Z.of_nat (length (cells (dp_value y))) < W32 - 1 -> read_group fuel n a first w = Ok (Some (take n (drop (Z.to_nat first) (cells (dp_value y))))).
Proof using tree fit few.
  intros Hn Hy. induction n as [|n IH]; intros first Hf Hl Hw; [by rewrite take_0|]. cbn [read_group].
  rewrite (read_word_index a e x (lit "interrupts") y) by (done || lia || by apply lit_char). destruct (cells (dp_value y) !! Z.to_nat first) as [v|] eqn:E; [|apply lookup_ge_None in E; lia].
  cbn [mbind res_bind ER_NORMAL Z.ltb Z.compare hd]. rewrite u32_id, IH by lia. cbn [mbind res_bind]. rewrite (drop_S _ v _ E). cbn [take]. by replace (Z.to_nat (first + 1)) with (S (Z.to_nat first)) by lia.
Qed.
Lemma parse_one_spec n a c e x y f z k index : leads n a c -> (n < fuel)%nat -> is_node a e x -> is_node c f z -> first_cell (lit "#interrupt-cells") z = Some k -> 0 < k < FWK_OF_MAX_PHANDLE_ARGS ->
  first_prop (lit "interrupts") (in_props x) = Some y -> 0 <= index -> (index + 1) * k < W32 ->
  fwk_of_irq_parse_one fuel a index w =
    Ok (if (index + 1) * k <=? Z.of_nat (length (cells (dp_value y))) then (ER_NORMAL, Some (PhandleArgs c (take (Z.to_nat k) (drop (Z.to_nat (index * k)) (cells (dp_value y)))))) else (- ER_FAULT, None)).
Proof using tree few fit handles.
  intros Hl Hnf Hn Hc Hk Hkr Hy Hi Hw. destruct (is_node_knows _ _ _ Hn) as (K & He & Hke & Hfe & Hva). destruct (is_node_knows _ _ _ Hc) as (_ & _ & _ & _ & Hvc). pose proof (irq_parent_spec _ _ _ Hl Hnf) as Hp.
  unfold fwk_of_irq_parse_one. rewrite Hva. cbn [negb]. pose proof (get_property_spec lit_null fuel t es w tree K e x He Hke (proj1 Hfe) (lit "interrupts") ltac:(by apply lit_char)) as Hg.
  rewrite Hy in Hg. destruct Hg as (vp & Eg & [Hvp Hvw] & Hb). pose proof Hn as (Ea & _). rewrite Ea in Eg. rewrite Eg. cbn [mbind res_bind].
  destruct (fits_first _ _ _ _ Hfe Hy) as (_ & Hby & Hlen). destruct (cells_at (ds_mem w) (dp_value y) vp Hb Hby) as [Hcl _]. rewrite Z.shiftr_div_pow2 in Hcl by lia. change (2 ^ 2) with 4 in Hcl.
  pose proof (len_nonneg (dp_value y)). rewrite (u32_id (len (dp_value y))) by (unfold W32; lia). rewrite <- Hcl. set (l := cells (dp_value y)) in *.
  assert (Z.of_nat (length l) < W32 - 1) as Hll by (assert (len (dp_value y) / 4 <= len (dp_value y)) by (apply Z.div_le_upper_bound; lia); unfold W32; lia).
  unfold fwk_of_n_irq_cells. rewrite Hp. cbn [mbind res_bind]. rewrite Hvc, (read_word c f z) by (done || by apply lit_char). rewrite Hk. cbn [mbind res_bind hd].
  unfold FWK_OF_MAX_PHANDLE_ARGS in *. rewrite (proj2 (Z.eqb_neq k 0)), (proj2 (Z.leb_gt 16 k)), (proj2 (Z.eqb_neq vp 0)) by lia. cbn [orb].
  rewrite (u32_id (index + 1)) by nia. rewrite (u32_id ((index + 1) * k)) by nia. destruct (Z.ltb_spec (Z.of_nat (length l)) ((index + 1) * k)) as [Hlt|Hge]; [by rewrite (proj2 (Z.leb_gt _ _)) by lia|].
  rewrite (proj2 (Z.leb_le _ _)) by lia. rewrite (u32_id (index * k)) by nia. rewrite (read_group_spec a e x y Hn Hy) by (fold l; nia). done.
Qed.

(** ** From the tree to a number *)
Context (sizeof_desc sizeof_action root : Z) (ralloc : gmap Z Radix.radix_node -> Z) (dummy_chip head : Z).
Context (desc_size : 48 <= sizeof_desc <= 4096) (action_size : 0 < sizeof_action <= 4096) (ralloc_fresh : forall g, isValid (ralloc g) = true -> g !! ralloc g = None).
Context (ops_at : Z -> option (@domain_ops H)) (fuel_irq : nat) (fuel_numbers : (512 <= fuel_irq)%nat).
Local Notation create := (fwk_irq_create_of_mapping sizeof_desc root ralloc dummy_chip head ops_at fuel_irq).

(** C24: The number of a device's interrupt.  The node's interrupts lead to a
    controller, whose "#interrupt-cells" says how many words make one; the asked
    group is cut out of the node's "interrupts".  If there is no such group the call
    fails and changes nothing, whatever the state of the interrupt system.  If there
    is, the domain of that controller translates the group to one of its lines, which
    keeps the number it has or gets one no line has (unless memory is short); every
    other line keeps its number. *)
Theorem device_irq_mapped n a c e x y ctl z k index :
  leads n a c -> (n < fuel)%nat -> is_node a e x -> is_node c ctl z -> first_cell (lit "#interrupt-cells") z = Some k -> 0 < k < FWK_OF_MAX_PHANDLE_ARGS ->
  first_prop (lit "interrupts") (in_props x) = Some y -> 0 <= index -> (index + 1) * k < W32 ->
  let l := cells (dp_value y) in let group := take (Z.to_nat k) (drop (Z.to_nat (index * k)) l) in
  (Z.of_nat (length l) < (index + 1) * k -> forall i : @isys H, fwk_of_irq_get fuel create a index w i = Ok (- ER_FAILD, i)) /\
  ((index + 1) * k <= Z.of_nat (length l) -> forall doms p dm ops f h type M L (i : @isys H) dm',
   irq_inv sizeof_desc sizeof_action root dummy_chip M L i -> dom_list head doms i -> (length doms <= fuel_irq)%nat -> first_dom (hosts c) i doms = p -> is_domains i !! p = Some dm' -> bare dm' = bare dm ->
   ops_at (dm_ops dm) = Some ops -> xlate ops = Some f -> (forall g, alloc ops = Some g -> prepares sizeof_desc sizeof_action root dummy_chip g) ->
   translates f dm c group k h type -> 0 <= h < dm_hwirq_max dm -> (line i p h = None -> exists v, 0 <= v < 1023 /\ Bitmap.bit_at (is_bitmap i) v = false) ->
   exists r M' L' i', fwk_of_irq_get fuel create a index w i = Ok (r, i') /\ irq_inv sizeof_desc sizeof_action root dummy_chip M' L' i' /\
     (r = - ER_NOMEM \/ r = - ER_NOTFOUND \/ 0 <= r) /\ (forall v, line i p h = Some v -> r = v) /\
     (0 <= r -> forall q j, 0 <= j -> line i' q j = if decide (q = p /\ j = h) then Some r else line i q j)).
Proof using tree few fit handles desc_size action_size ralloc_fresh fuel_numbers.
  intros Hl Hn Ha Hc Hk Hkr Hy Hi Hw l group. destruct (is_node_knows _ _ _ Hc) as (_ & _ & _ & _ & Hvc).
  unfold fwk_of_irq_get, fwk_irq_of_parse_and_map. rewrite (parse_one_spec n a c e x y ctl z k index) by done. fold l. fold group.
  split; intros Hlen; [intros i; by rewrite (proj2 (Z.leb_gt _ _)) by lia|].
  intros doms p dm ops f h type M L i dm' I HD Hdf Hfirst Hp Hbare Hops Hx Hal Htr Hline Hroom.
  rewrite (proj2 (Z.leb_le _ _)) by lia. cbn [mbind res_bind ER_NORMAL Z.ltb Z.compare deref pa_node pa_args].
  assert (Z.of_nat (length group) = k) as -> by (unfold group; rewrite length_take, length_drop; nia).
  rewrite (create_is_map_line sizeof_desc sizeof_action root ralloc dummy_chip head ops_at fuel_irq c group k doms p dm ops f h type Hdf Hvc Hops Hx Htr M L i dm' I HD Hfirst Hp Hbare).
  destruct (map_line_spec sizeof_desc sizeof_action root ralloc dummy_chip desc_size action_size ralloc_fresh fuel_irq p dm ops h type fuel_numbers Hal Hline M L i dm' I Hp Hbare Hroom)
    as (r & M' & L' & i' & -> & I' & _ & _ & Hr & Hold & Hnew & _). by exists r, M', L', i'.
Qed.
End routing.

(** ** The example of FdtTree.v *)
Lemma demo_handles x y : x ∈ nodes_of None demo_tree -> last_prop (lit "phandle") (in_props x) = Some y -> 4 <= len (dp_value y).
Proof. intros Hx. repeat (apply elem_of_cons in Hx as [->|Hx]; [intros Hz; vm_compute in Hz; first [discriminate Hz|injection Hz as <-; vm_compute; discriminate]|]). by apply not_elem_of_nil in Hx. Qed.
Lemma demo_three es : dev_tree 16400 demo_tree es demo_unflattened -> exists e0 e1 e2, es = [e0; e1; e2].
Proof. intros Ht. pose proof (nodes_length _ _ _ _ Ht) as Hl. rewrite demo_nodes_three in Hl. destruct es as [|e0 [|e1 [|e2 [|? es]]]]; try discriminate Hl. by exists e0, e1, e2. Qed.
Lemma demo_host node : first_dom (hosts node) (demo_irqs_of node) [8192] = 8192.
Proof. cbn [first_dom demo_irqs_of is_domains]. rewrite lookup_singleton_eq. unfold hosts. cbn [demo_domain_of dm_node]. by rewrite Z.eqb_refl. Qed.
(** The first interrupt of the device is line 5 of the controller; it has no second. *)
Lemma device_irq_mapped_witness : exists a c r i', fwk_of_irq_get 200 (fwk_irq_create_of_mapping 80 32 demo_alloc 16 64 demo_ops_at 512) a 0 demo_unflattened (demo_irqs_of c) = Ok (r, i') /\
  (0 <= r -> line i' 8192 5 = Some r) /\
  fwk_of_irq_get 200 (fwk_irq_create_of_mapping 80 32 demo_alloc 16 64 demo_ops_at 512) a 1 demo_unflattened (demo_irqs_of c) = Ok (- ER_FAILD, demo_irqs_of c).
Proof.
  destruct demo_built as (es & Ht). destruct (demo_three es Ht) as (e0 & e1 & e2 & ->). exists (en_addr e2), (en_addr e1).
  destruct (tree_nodes _ _ _ _ Ht) as (K & Hk). pose proof (Forall2_lookup_lr _ _ _ 1 e1 _ Hk eq_refl eq_refl) as Hk1.
  assert (is_node demo_tree [e0; e1; e2] (en_addr e1) e1 (Info (below None []) (lit "gpc@2") (full_props (lit "gpc@2") [DProp (lit "phandle") [0; 0; 0; 5]; DProp (lit "#interrupt-cells") [0; 0; 0; 3]; DProp (lit "interrupt-controller") []; DProp (lit "compatible") (lit "c,d" ++ [0])]))) as Hn1 by (split; [done|by exists 1%nat]).
  assert (is_node demo_tree [e0; e1; e2] (en_addr e2) e2 (Info (below None []) (lit "uart@1") (full_props (lit "uart@1") [DProp (lit "interrupt-parent") [0; 0; 0; 5]; DProp (lit "interrupts") [0; 0; 0; 0; 0; 0; 0; 5; 0; 0; 0; 1]]))) as Hn2 by (split; [done|by exists 2%nat]).
  assert (leads demo_tree [e0; e1; e2] 1 (en_addr e2) (en_addr e1)) as Hl.
  { eapply leads_here; [exact Hn2| |exact Hn1|by vm_compute]. split; [vm_compute; reflexivity|apply Hk1]. }
  pose proof (fun index => device_irq_mapped 16400 200 demo_tree _ demo_unflattened Ht ltac:(rewrite demo_nodes_three; lia) demo_nodes_fit demo_handles 80 40 32 demo_alloc 16 64 ltac:(lia) ltac:(lia) demo_alloc_fresh demo_ops_at 512 ltac:(lia)
    1 (en_addr e2) (en_addr e1) e2 _ (DProp (lit "interrupts") [0; 0; 0; 0; 0; 0; 0; 5; 0; 0; 0; 1]) e1 _ 3 index
    Hl ltac:(lia) Hn2 Hn1 eq_refl ltac:(unfold FWK_OF_MAX_PHANDLE_ARGS; lia) eq_refl) as Hmap.
  destruct (Hmap 0 ltac:(lia) ltac:(unfold W32; lia)) as [_ Hfirst]. destruct (Hmap 1 ltac:(lia) ltac:(unfold W32; lia)) as [Hsecond _].
  destruct (Hfirst ltac:(vm_compute; discriminate) [8192] 8192 (demo_domain_of (en_addr e1)) demo_ops gpc_irq_domain_xlate 5 1 ∅ [] (demo_irqs_of (en_addr e1)) (demo_domain_of (en_addr e1))
    (demo_irqs_of_inv _) (demo_dom_list_of _) ltac:(simpl; lia)
    (demo_host _) eq_refl eq_refl eq_refl eq_refl demo_ops_prepare (demo_specifier_of _) ltac:(simpl; lia) ltac:(intros _; exists 0; split; [lia|reflexivity])) as (r & _ & _ & i' & E & _ & _ & _ & Hr).
  exists r, i'. split; [exact E|]. split; [|exact (Hsecond ltac:(vm_compute; reflexivity) _)]. intros Hr0. rewrite (Hr Hr0 8192 5 ltac:(lia)). reflexivity.
Defined.
