(* ===== verification/OfIrqInit.v ===== *)
(** * Controllers are started after those they depend on

    [fwk_of_irq_init] keeps descriptors in two lists and starts, round by round, the
    controllers whose parent was started last.  The proof separates the rounds
    (lists of descriptors, this file's first half) from the collection of the
    descriptors, which reads the tree. *)

From Stdlib Require Import Strings.String.
From stdpp Require Import prelude gmap fin_maps sorting.
From S2P Require Import Prelude Mem Bytes MemPool MemOps MemBlock MemBlockSpec Sync Generic KMalloc KMallocSpec HeapContract Fdt FdtSpec FdtMeasure FdtBuild FdtTree OfNode OfSpec OfIrq OfIrqSpec.

(** Calls of the start functions: node, parent, result. *)
Definition call_np (c : Z * Z * Z) : Z := c.1.1.
(** Each parent of a call was started successfully before: [ok] at the outset, or by
    an earlier call. *)
Fixpoint ordered (ok : list Z) (calls : list (Z * Z * Z)) : Prop :=
  match calls with
  | [] => True
  | (np, p, r) :: calls => (p = 0 \/ p ∈ ok) /\ ordered (if r <? 0 then ok else np :: ok) calls
  end.
Definition started_ok (ok : list Z) (calls : list (Z * Z * Z)) : list Z := (call_np <$> filter (fun c => 0 <= c.2) calls) ++ ok.
Lemma ordered_mono ok ok' calls : (forall p, p ∈ ok -> p ∈ ok') -> ordered ok calls -> ordered ok' calls.
Proof.
  revert ok ok'. induction calls as [|[[np p] r] calls IH]; intros ok ok' Hs; [done|]. cbn. intros [Hp Ho]. split; [naive_solver|]. eapply IH; [|exact Ho]. destruct (r <? 0); [done|]. set_solver.
Qed.
Lemma ordered_app ok c1 c2 : ordered ok c1 -> ordered (started_ok ok c1) c2 -> ordered ok (c1 ++ c2).
Proof.
  revert ok. induction c1 as [|[[np p] r] c1 IH]; intros ok; [done|]. cbn [ordered app]. intros [Hp Ho] H2. split; [done|]. apply IH; [done|]. eapply ordered_mono; [|exact H2].
  intros q. unfold started_ok. rewrite filter_cons. cbn [snd]. destruct (Z.ltb_spec r 0); [rewrite decide_False by lia; done|]. rewrite decide_True by lia. cbn. rewrite !elem_of_cons, !elem_of_app, !elem_of_cons. tauto.
Qed.

Lemma ordered_same ok parent calls : parent = 0 \/ parent ∈ ok -> Forall (fun c => c.1.2 = parent) calls -> ordered ok calls.
Proof.
  intros Hp Hc. revert ok Hp. induction Hc as [|[[np p] r] calls E Hc IH]; intros ok Hp; [done|]. cbn in *. subst p. split; [done|]. apply IH. destruct (r <? 0); [done|]. set_solver.
Qed.
Lemma filter_split (parent : Z) (f : intcs_desc -> Z) l :
  filter (fun d => f d <> 0) l ≡ₚ filter (fun d => ic_parent d = parent /\ f d <> 0) l ++ filter (fun d => f d <> 0) (filter (fun d => ic_parent d <> parent) l).
Proof.
  induction l as [|d l IH]; [done|]. rewrite !filter_cons. destruct (decide (ic_parent d = parent)) as [E|E].
  - rewrite (decide_False (P := ic_parent d <> parent)) by tauto. destruct (decide (f d <> 0)); [rewrite decide_True by done; cbn; by constructor|rewrite decide_False by tauto; done].
  - rewrite (decide_True (P := ic_parent d <> parent)), (decide_False (P := _ /\ _)) by tauto. rewrite filter_cons. destruct (decide (f d <> 0)); [|done]. rewrite <- Permutation_middle. by constructor.
Qed.

Lemma filter_split_length (parent : Z) (f : intcs_desc -> Z) l :
  (length (filter (fun d => ic_parent d = parent /\ f d <> 0%Z) l) + length (filter (fun d => ic_parent d <> parent) l) <= length l)%nat.
Proof.
  induction l as [|d l IH]; [done|]. rewrite !filter_cons. destruct (decide (ic_parent d = parent)) as [E|E].
  - rewrite (decide_False (P := ic_parent d <> parent)) by tauto. destruct (decide (_ /\ _)); cbn; lia.
  - rewrite (decide_True (P := ic_parent d <> parent)), (decide_False (P := _ /\ _)) by tauto. cbn. lia.
Qed.

Section rounds.
Context {H : Type} `{KernelHeap H}.
Context (fuel : nat) (sizeof_intcs : Z) (size_ok : 0 < sizeof_intcs <= 4096).
Local Notation dsys := (@dsys H).
Context {S : Type} (init : Z -> Z -> Z -> dsys -> S -> res (Z * dsys * S)) (sprt_matches : option (list of_device_id)).
(** The start functions return, leave the tree alone, and of the heap they have the
    blocks [held], which is up to their state. *)
Context (held : S -> list (Z * Z)) (init_ok : forall data np parent (w : dsys) s L, cpu_ok (ds_cpu w) -> heap_inv (ds_heap w) (held s ++ L) ->
  exists r h s', init data np parent w s = Ok (r, dput_heap (ds_cpu w) h w, s') /\ heap_inv h (held s' ++ L)).
Context (w0 : dsys) (cpu0 : cpu_ok (ds_cpu w0)).
(** The state differs from [w0] in the heap only. *)
Local Notation at_heap h := (dput_heap (ds_cpu w0) h w0).
Local Notation isz := (mrt_num_align8 sizeof_intcs).
Definition blocks (l : list intcs_desc) : list (Z * Z) := (fun d => (ic_addr d, isz)) <$> l.
(** The table entry of a node, and what it holds. *)
Definition data_at (np : Z) : Z :=
  match fwk_of_match_node fuel sprt_matches np w0, sprt_matches with Ok (Some i), Some ids => from_option di_data 0 (ids !! i) | _, _ => 0 end.
Definition matches_ok (d : intcs_desc) : Prop := exists i, forall h, fwk_of_match_node fuel sprt_matches (ic_np d) (at_heap h) = Ok i.

Lemma isz_pos : 0 < isz.
Proof using size_ok. clear -size_ok. destruct (align8_spec sizeof_intcs) as [? _]; [unfold W32; lia|lia]. Qed.
Lemma intcs_free_spec d L h : heap_inv h ((ic_addr d, isz) :: L) -> exists h', intcs_free d (at_heap h) = Ok (at_heap h') /\ heap_inv h' L.
Proof using cpu0 size_ok.
  intros Hh. destruct (heap_free_spec (ds_cpu w0) h L (ic_addr d) isz cpu0 Hh isz_pos) as (h' & E & Hh' & _). exists h'. split; [|done]. unfold intcs_free. simpl. by rewrite E.
Qed.
Lemma free_list_spec l : forall L h, heap_inv h (blocks l ++ L) -> exists h', free_list l (at_heap h) = Ok (at_heap h') /\ heap_inv h' L.
Proof using cpu0 size_ok.
  induction l as [|d l IH]; intros L h Hh; [by exists h|]. cbn [free_list]. destruct (intcs_free_spec d _ h Hh) as (h1 & -> & Hh1). cbn [mbind res_bind]. by apply IH.
Qed.

(** ** One round *)
Lemma round_spec parent descs : Forall matches_ok descs -> forall L h s, heap_inv h (held s ++ blocks descs ++ L) ->
  exists started calls h' s', start_round fuel init sprt_matches parent descs (at_heap h) s = Ok (filter (fun d => ic_parent d <> parent) descs, started, calls, at_heap h', s') /\
    heap_inv h' (held s' ++ blocks (filter (fun d => ic_parent d <> parent) descs) ++ blocks started ++ L) /\
    calls.*1 = (fun d => (ic_np d, parent)) <$> filter (fun d => ic_parent d = parent /\ data_at (ic_np d) <> 0) descs /\
    ic_np <$> started = call_np <$> filter (fun c => 0 <= c.2) calls /\ (forall d, d ∈ started -> d ∈ descs /\ ic_parent d = parent).
Proof using cpu0 size_ok init_ok.
  induction 1 as [|d descs [i Hm] Hds IH]; intros L h s Hh; [exists [], [], h, s; split_and!; try done; by intros d ?%not_elem_of_nil|].
  cbn [start_round]. rewrite (Hm h). cbn [mbind res_bind].  rewrite (filter_cons (fun d => _ <> _)), (filter_cons (fun d => _ /\ _)).
  assert (data_at (ic_np d) = match i, sprt_matches with Some i, Some ids => from_option di_data 0 (ids !! i) | _, _ => 0 end) as Hdata.
  { unfold data_at. specialize (Hm (ds_heap w0)). replace (at_heap (ds_heap w0)) with w0 in Hm by (by destruct w0). by rewrite Hm. }
  assert (forall h s, heap_inv h (held s ++ blocks (d :: descs) ++ L) -> heap_inv h ((ic_addr d, isz) :: held s ++ blocks descs ++ L)) as Hout.
  { intros h1 s1 Hh1. eapply heap_inv_perm; [|exact Hh1]. cbn. by rewrite <- Permutation_middle. }
  assert (forall h s, heap_inv h (held s ++ blocks (d :: descs) ++ L) -> heap_inv h (held s ++ blocks descs ++ (ic_addr d, isz) :: L)) as Hback.
  { intros h1 s1 Hh1. eapply heap_inv_perm; [|exact Hh1]. cbn. by rewrite Permutation_middle. }
  destruct (Z.eqb_spec parent (ic_parent d)) as [Ep|Ep]; cbn [negb].
  2:{ rewrite decide_True, (decide_False (P := _ /\ _)) by naive_solver. destruct (IH ((ic_addr d, isz) :: L) h s (Hback h s Hh)) as (st & calls & h' & s' & -> & Hh' & Hc & Hs & Hin).
      cbn [mbind res_bind]. exists st, calls, h', s'. split_and!; try done; [|intros d' Hd'; destruct (Hin d' Hd'); split; [by right|done]].
      eapply heap_inv_perm; [|exact Hh']. cbn. rewrite <- !Permutation_middle. done. }
  rewrite decide_False by naive_solver. rewrite <- Hdata. destruct (Z.eqb_spec (data_at (ic_np d)) 0) as [E0|E0].
  - rewrite decide_False by naive_solver. destruct (intcs_free_spec d _ h (Hout h s Hh)) as (h1 & -> & Hh1). cbn [mbind res_bind].
    destruct (IH L h1 s Hh1) as (st & calls & h' & s' & E & Hh' & Hc & Hs & Hin). exists st, calls, h', s'. split_and!; try done. intros d' Hd'. destruct (Hin d' Hd'). split; [by right|done].
  - rewrite decide_True by naive_solver. destruct (init_ok (data_at (ic_np d)) (ic_np d) (ic_parent d) (at_heap h) s _ cpu0 Hh) as (r & h1 & s1 & -> & Hh1). cbn [mbind res_bind ds_cpu dput_heap].
    change (dput_heap (ds_cpu w0) h1 (at_heap h)) with (at_heap h1).
    destruct (Z.ltb_spec r 0) as [Hr|Hr].
    + destruct (intcs_free_spec d _ h1 (Hout h1 s1 Hh1)) as (h2 & -> & Hh2). cbn [mbind res_bind].
      destruct (IH L h2 s1 Hh2) as (st & calls & h' & s' & -> & Hh' & Hc & Hs & Hin). cbn [mbind res_bind].
      exists st, ((ic_np d, ic_parent d, r) :: calls), h', s'. split_and!; try done.
      * cbn [fmap list_fmap fst]. by rewrite Hc, Ep.
      * rewrite filter_cons_False by (cbn; lia). done.
      * intros d' Hd'. destruct (Hin d' Hd'). split; [by right|done].
    + cbn [mbind res_bind]. destruct (IH ((ic_addr d, isz) :: L) h1 s1 (Hback h1 s1 Hh1)) as (st & calls & h' & s' & -> & Hh' & Hc & Hs & Hin). cbn [mbind res_bind].
      exists (d :: st), ((ic_np d, ic_parent d, r) :: calls), h', s'. split_and!; try done.
      * eapply heap_inv_perm; [|exact Hh']. cbn. by rewrite <- !Permutation_middle.
      * cbn [fmap list_fmap fst]. by rewrite Hc, Ep.
      * rewrite filter_cons_True by (cbn; lia). cbn. by rewrite Hs.
      * intros d' [->|Hd']%elem_of_cons; [split; [left|done]|]. destruct (Hin d' Hd'). split; [by right|done].
Qed.

(** ** All rounds *)
Definition pair_of (d : intcs_desc) : Z * Z := (ic_np d, ic_parent d).
Lemma round_pairs parent (descs : list intcs_desc) : (fun d => (ic_np d, parent)) <$> filter (fun d => ic_parent d = parent /\ data_at (ic_np d) <> 0) descs =
  pair_of <$> filter (fun d => ic_parent d = parent /\ data_at (ic_np d) <> 0) descs.
Proof. apply list_fmap_ext. intros i d Hd. apply list_elem_of_lookup_2, list_elem_of_filter in Hd as [[<- _] _]. done. Qed.
Lemma start_all_spec n : forall parent descs parents ok L h s, Forall matches_ok descs -> heap_inv h (held s ++ blocks descs ++ blocks parents ++ L) -> (length descs + length parents < n)%nat ->
  parent = 0 \/ parent ∈ ok -> (forall d, d ∈ parents -> ic_np d ∈ ok) ->
  exists calls h' s', start_all fuel init sprt_matches n parent descs parents (at_heap h) s = Ok (calls, at_heap h', s') /\ heap_inv h' (held s' ++ L) /\ ordered ok calls /\
    calls.*1 ⊆+ (pair_of <$> filter (fun d => data_at (ic_np d) <> 0) descs) /\
    (forall d, d ∈ descs -> data_at (ic_np d) <> 0 -> ic_parent d = parent \/ ic_parent d ∈ ic_np <$> parents \/ ic_parent d ∈ started_ok [] calls -> pair_of d ∈ calls.*1).
Proof using cpu0 size_ok init_ok.
  induction n as [|n IH]; intros parent descs parents ok L h s Hm Hh Hn Hp Hps; [lia|]. destruct descs as [|d0 descs0]; cbn [start_all].
  { destruct (free_list_spec parents (held s ++ L) h) as (h' & -> & Hh'); [eapply heap_inv_perm; [exact (Permutation_app_swap_app (held s) (blocks parents) L)|exact Hh]|]. exists [], h', s. split_and!; try done. by intros d ?%not_elem_of_nil. }
  set (descs := d0 :: descs0) in *. destruct (round_spec parent descs Hm (blocks parents ++ L) h s Hh) as (st & calls & h1 & s1 & -> & Hh1 & Hc & Hst & Hin). cbn [mbind res_bind].
  set (rest := filter (fun d => ic_parent d <> parent) descs) in *. rewrite round_pairs in Hc.
  assert (Forall (fun c => c.1.2 = parent) calls) as Hpar.
  { apply Forall_forall. intros c Hcc. assert (c.1 ∈ calls.*1) as Hc1 by (by apply list_elem_of_fmap_2). rewrite Hc in Hc1. apply list_elem_of_fmap in Hc1 as (d & -> & [[<- _] _]%list_elem_of_filter). done. }
  pose proof (ordered_same ok parent calls Hp Hpar) as Ho. assert (Forall matches_ok rest) as Hmr by (apply Forall_forall; intros d [_ Hd]%list_elem_of_filter; by apply (proj1 (Forall_forall _ _) Hm)).
  assert (forall d, d ∈ descs -> data_at (ic_np d) <> 0 -> ic_parent d = parent -> pair_of d ∈ calls.*1) as Hround.
  { intros d Hd Hdat Hdp. rewrite Hc. apply list_elem_of_fmap_2. by apply list_elem_of_filter. }
  assert (forall d, d ∈ descs -> ic_parent d = parent \/ d ∈ rest) as Hsplit by (intros d Hd; destruct (decide (ic_parent d = parent)); [by left|right; by apply list_elem_of_filter]).
  assert (length st + length rest <= length descs)%nat as Hlen.
  { pose proof (filter_split_length parent (fun d => data_at (ic_np d)) descs). pose proof (f_equal length Hc) as Hl1. pose proof (f_equal length Hst) as Hl2. rewrite !length_fmap in Hl1. rewrite !length_fmap in Hl2. pose proof (length_filter (fun c : Z * Z * Z => 0 <= c.2) calls). unfold rest. lia. }
  destruct (parents ++ st) as [|d parents'] eqn:Epl.
  - apply app_nil in Epl as [-> ->]. cbn [fmap list_fmap app] in Hh1. destruct (free_list_spec rest (held s1 ++ L) h1) as (h2 & -> & Hh2); [eapply heap_inv_perm; [exact (Permutation_app_swap_app (held s1) (blocks rest) L)|exact Hh1]|]. cbn [mbind res_bind]. exists calls, h2, s1. split_and!; try done.
    + rewrite Hc, (filter_split parent (fun d => data_at (ic_np d))). rewrite fmap_app. by apply submseteq_inserts_r.
    + intros d Hd Hdat [?|[?%not_elem_of_nil|Hs]]; [by apply Hround|done|]. unfold started_ok in Hs. rewrite <- Hst in Hs. by apply not_elem_of_nil in Hs.
  - assert (forall x, x ∈ ic_np <$> (d :: parents') <-> x ∈ ic_np <$> parents \/ x ∈ started_ok [] calls) as Hpl.
    { intros x. rewrite <- Epl, fmap_app, elem_of_app, Hst. unfold started_ok. by rewrite app_nil_r. }
    assert (forall d', d' ∈ d :: parents' -> ic_np d' ∈ started_ok ok calls) as Hok.
    { intros d' Hd'. unfold started_ok. rewrite elem_of_app, <- Hst. rewrite <- Epl, elem_of_app in Hd'. destruct Hd' as [?|?]; [right; by apply Hps|left; by apply list_elem_of_fmap_2]. }
    destruct (intcs_free_spec d (held s1 ++ blocks rest ++ blocks parents' ++ L) h1) as (h2 & -> & Hh2).
    { eapply heap_inv_perm; [|exact Hh1]. rewrite (Permutation_middle (held s1)), (Permutation_middle (blocks rest)).
      change ((ic_addr d, isz) :: blocks parents' ++ L) with (blocks (d :: parents') ++ L). rewrite <- Epl. unfold blocks. rewrite fmap_app, <- app_assoc.
      do 2 apply Permutation_app_head. apply Permutation_app_swap_app. }
    cbn [mbind res_bind]. destruct (IH (ic_np d) rest parents' (started_ok ok calls) L h2 s1) as (calls' & h' & s' & -> & Hh' & Ho' & Hsub & Hcomp); try done.
    { apply (f_equal length) in Epl. rewrite length_app in Epl. cbn in Epl. lia. }
    { right. apply Hok. left. }
    { intros d' Hd'. apply Hok. by right. }
    cbn [mbind res_bind]. exists (calls ++ calls'), h', s'. split_and!; try done.
    + by apply ordered_app.
    + rewrite fmap_app, Hc, (filter_split parent (fun d => data_at (ic_np d))), fmap_app. by apply submseteq_app.
    + intros d' Hd' Hdat Hcase. rewrite fmap_app, elem_of_app. destruct (Hsplit d' Hd') as [Ep|Hr]; [left; by apply Hround|]. destruct (decide (ic_parent d' = parent)) as [Ep|Ep]; [left; by apply Hround|]. right. apply Hcomp; [done..|].
      assert (ic_parent d' ∈ ic_np <$> (d :: parents') \/ ic_parent d' ∈ started_ok [] calls') as Hx.
      { rewrite Hpl. destruct Hcase as [?|[?|Hs]]; [done|tauto|]. unfold started_ok in *. rewrite filter_app, fmap_app, !app_nil_r, elem_of_app in Hs. rewrite !app_nil_r. tauto. }
      destruct Hx as [Hx|Hx]; [|tauto]. cbn in Hx. apply elem_of_cons in Hx. tauto.
Qed.
End rounds.

(** ** What the tree says of a node *)

(** A device is available without "status", or when that is "ok" or "okay". *)
Definition available (x : info) : bool :=
  match strings_of (lit "status") (in_props x) with [] => true | s :: _ => bool_decide (s = lit "ok") || bool_decide (s = lit "okay") end.
(** The table's first entry, up to its end mark, that names one of the node's models. *)
Fixpoint entry_of (ids : list of_device_id) (i : nat) (x : info) : option nat :=
  match ids with
  | [] => None
  | id :: ids =>
      match di_compatible id with
      | None => None
      | Some c => if bool_decide (c ∈ strings_of (lit "compatible") (in_props x)) then Some i else entry_of ids (S i) x
      end
  end.
Definition table_ok (ids : list of_device_id) : Prop := Exists (fun id => di_compatible id = None) ids /\ Forall (fun id => match di_compatible id with Some c => Forall char c | None => True end) ids.
Definition controls (ids : list of_device_id) (x : info) : bool :=
  bool_decide (first_prop (lit "interrupt-controller") (in_props x) <> None) && available x && bool_decide (entry_of ids 0 x <> None).
(** The strings among the properties are strings. *)
Definition texts_ok (x : info) : Prop :=
  (forall y, first_prop (lit "compatible") (in_props x) = Some y -> string_list (dp_value y)) /\
  (forall y, first_prop (lit "status") (in_props x) = Some y -> string_list (dp_value y) /\ dp_value y <> []).

Section matching.
Context {H : Type} `{KernelHeap H}.
Context (lit_null : Z) (fuel : nat) (t : dtree) (es : list entry) (w : @dsys H) (tree : dev_tree lit_null t es w).
Context (few : (length (nodes_of None t) < fuel)%nat) (fit : Forall (node_fits fuel) (nodes_of None t)) (texts : Forall texts_ok (nodes_of None t)).

Lemma is_node_texts a e x : is_node t es a e x -> texts_ok x.
Proof using texts. intros (_ & i & _ & Hx). rewrite Forall_forall in texts. apply texts. by eapply list_elem_of_lookup_2. Qed.
Lemma available_spec a e x : is_node t es a e x -> fwk_of_device_is_avaliable fuel a w = Ok (available x).
Proof using tree few fit texts.
  intros Hn. destruct (is_node_knows lit_null fuel t es w tree few fit _ _ _ Hn) as (K & He & Hk & Hf & _). pose proof (proj2 (is_node_texts _ _ _ Hn)) as Ht. destruct Hn as (<- & _). unfold fwk_of_device_is_avaliable, available, strings_of.
  pose proof (get_property_spec lit_null fuel t es w tree K e x He Hk (proj1 Hf) (lit "status") ltac:(by apply lit_char)) as Hg. destruct (first_prop (lit "status") (in_props x)) as [y|]; [|by rewrite Hg].
  destruct (Ht y eq_refl) as ([Hs Hc] & Hne). destruct Hg as (vp & -> & [Hvp _] & Hb). cbn [mbind res_bind]. rewrite (proj2 (Z.eqb_neq vp 0)) by lia. cbn [orb].
  destruct (split_strings [] (dp_value y)) as [|s ss] eqn:E; [by rewrite <- Hs in Hne|]. rewrite <- Hs in Hb. pose proof (nth_string _ _ _ 0 s Hb Hc eq_refl) as Hcs. cbn [take strings List.flat_map] in Hcs. rewrite len_nil, Z.add_0_r in Hcs.
  rewrite (lit_differs_spec (lit "ok") _ _ _ ltac:(by apply lit_char) Hcs), (lit_differs_spec (lit "okay") _ _ _ ltac:(by apply lit_char) Hcs), !negb_involutive. done.
Qed.
Lemma match_table_spec a e x ids : is_node t es a e x -> table_ok ids -> forall i, match_table fuel a ids i w = Ok (entry_of ids i x).
Proof using tree few fit texts.
  intros Hn [He Hc]. destruct (is_node_knows lit_null fuel t es w tree few fit _ _ _ Hn) as (K & Hin & Hk & Hf & _). pose proof (proj1 (is_node_texts _ _ _ Hn)) as Ht. destruct Hn as (<- & _).
  induction ids as [|id ids IH]; intros i; [by apply Exists_nil in He|]. cbn [match_table entry_of]. apply Forall_cons in Hc as [Hid Hc]. destruct (di_compatible id) as [c|] eqn:E; [|done].
  apply Exists_cons in He as [He|He]; [congruence|]. rewrite (compatible_spec lit_null fuel t es w tree K e x Hin Hk (proj1 Hf) (fun nm y Hy => proj1 (fits_first _ _ _ _ Hf Hy)) c Hid).
  - cbn [mbind res_bind]. destruct (bool_decide _); [done|]. by apply IH.
  - intros y Hy. split; [by apply Ht|]. destruct (fits_first _ _ _ _ Hf Hy) as (_ & _ & ?). unfold W32. lia.
Qed.
End matching.

(** ** The descriptors *)
Definition driver (ids : list of_device_id) (x : info) : Z := match entry_of ids 0 x with Some i => from_option di_data 0 (ids !! i) | None => 0 end.
(** The controllers to start, in the tree's order. *)
Fixpoint to_start (ids : list of_device_id) (es : list entry) (xs : list info) : list Z :=
  match es, xs with
  | e :: es, x :: xs => (if controls ids x && negb (driver ids x =? 0) then [en_addr e] else []) ++ to_start ids es xs
  | _, _ => []
  end.
Lemma to_start_sublist ids es xs : to_start ids es xs `sublist_of` addrs es.
Proof.
  revert xs. induction es as [|e es IH]; intros [|x xs]; cbn [to_start]; try apply sublist_nil_l. cbn. destruct (controls ids x && negb (driver ids x =? 0)); cbn; [by apply sublist_skip|by apply sublist_cons].
Qed.
(** The parent a controller is given: none when its interrupts lead to itself. *)
Definition parent_of (route : Z -> Z) (a : Z) : Z := if a =? route a then 0 else route a.

Section collecting.
Context {H : Type} `{KernelHeap H}.
Context (lit_null : Z) (fuel : nat) (sizeof_intcs : Z) (size_ok : 0 < sizeof_intcs <= 4096).
Context (t : dtree) (es : list entry) (w0 : @dsys H) (tree : dev_tree lit_null t es w0) (cpu0 : cpu_ok (ds_cpu w0)).
Context (few : (length (nodes_of None t) < fuel)%nat) (fit : Forall (node_fits fuel) (nodes_of None t)) (texts : Forall texts_ok (nodes_of None t)).
Context (handles : forall x y, x ∈ nodes_of None t -> last_prop (lit "phandle") (in_props x) = Some y -> 4 <= len (dp_value y)).
Context (ids : list of_device_id) (table : table_ok ids).
Context (route : Z -> Z) (routed : forall a e x, is_node t es a e x -> controls ids x = true -> exists n, leads t es n a (route a) /\ (n < fuel)%nat).
Local Notation at_heap h := (dput_heap (ds_cpu w0) h w0).
Local Notation blocks := (blocks sizeof_intcs).
Local Notation data_at := (data_at fuel (Some ids) w0).
Local Notation matches_ok := (matches_ok fuel (Some ids) w0).

Lemma tree_at h : dev_tree lit_null t es (at_heap h).
Proof using tree. destruct tree as [? ? ? ?]. by split. Qed.
Lemma node_matches a e x addr parent : is_node t es a e x -> matches_ok (IntcsDesc addr a parent) /\ data_at a = driver ids x.
Proof using tree few fit texts table.
  intros Hn. split.
  - exists (entry_of ids 0 x). intros h. by apply (match_table_spec lit_null fuel t es _ (tree_at h) few fit texts a e).
  - unfold OfIrqInit.data_at, fwk_of_match_node. by rewrite (match_table_spec lit_null fuel t es w0 tree few fit texts a e x ids Hn table 0).
Qed.
(** Whether the heap has room for [n] descriptors, one after the other. *)
Fixpoint memory_for (n : nat) (h : H) : bool :=
  match n with
  | O => true
  | Datatypes.S n =>
      match heap_alloc (ds_cpu w0) h sizeof_intcs (Z.lor GFP_KERNEL GFP_ZERO) with
      | Ok (q, _, h) => isValid q && memory_for n h
      | _ => false
      end
  end.
Definition controllers (xs : list info) : nat := length (filter (fun x => controls ids x = true) xs).
(** The descriptors of the controllers from [es2] on have been added to [descs]. *)
Definition collected (es2 : list entry) (xs2 : list info) (n : nat) (descs : list intcs_desc) (L : list (Z * Z)) (h : H) : Prop :=
  exists ok new h', collect fuel sizeof_intcs (Some ids) n (hd 0 (addrs es2)) descs (at_heap h) = Ok (ok, descs ++ new, at_heap h') /\ heap_inv h' (blocks (descs ++ new) ++ L) /\
    Forall matches_ok new /\ (length new <= length es2)%nat /\
    ok = memory_for (controllers xs2) h /\ (ok = true -> pair_of <$> filter (fun d => data_at (ic_np d) <> 0) new = (fun a => (a, parent_of route a)) <$> to_start ids es2 xs2).
Lemma collect_step e x es2 xs2 n descs L h : is_node t es (en_addr e) e x -> dn_allnext (record es e) = hd 0 (addrs es2) -> heap_inv h (blocks descs ++ L) ->
  (forall descs h, heap_inv h (blocks descs ++ L) -> collected es2 xs2 n descs L h) -> collected (e :: es2) (x :: xs2) (Datatypes.S n) descs L h.
Proof using tree few fit texts handles table routed cpu0 size_ok.
  intros Hnode Hall Hh Hnext. destruct (is_node_knows lit_null fuel t es _ (tree_at h) few fit _ _ _ Hnode) as (K & He & Hk & Hf & Hv). destruct (node_record lit_null t es _ (tree_at h) K e x He Hk) as [_ Hrec].
  unfold collected. cbn [collect addrs fmap list_fmap hd to_start]. rewrite Hv, Hrec. cbn [negb deref mbind res_bind]. rewrite Hall.
  assert (forall b, controls ids x = false -> b = collect fuel sizeof_intcs (Some ids) n (hd 0 (addrs es2)) descs (at_heap h) ->
    exists ok new h', b = Ok (ok, descs ++ new, at_heap h') /\ heap_inv h' (blocks (descs ++ new) ++ L) /\ Forall matches_ok new /\ (length new <= length (e :: es2))%nat /\
    ok = memory_for (controllers (x :: xs2)) h /\ (ok = true -> pair_of <$> filter (fun d => data_at (ic_np d) <> 0) new = (fun a => (a, parent_of route a)) <$> to_start ids (e :: es2) (x :: xs2))) as Hskip.
  { intros b Hno ->. destruct (Hnext descs h Hh) as (ok & new & h' & E & Hh' & Hm & Hl & Ho & Hc). exists ok, new, h'. cbn [to_start]. unfold controllers. rewrite Hno, filter_cons_False by (rewrite Hno; done).
    split_and!; try done. simpl. lia. }
  pose proof (find_property_spec lit_null fuel t es _ (tree_at h) K e x He Hk (proj1 Hf) (lit "interrupt-controller") ltac:(by apply lit_char)) as Hp.
  pose proof (available_spec lit_null fuel t es _ (tree_at h) few fit texts _ _ _ Hnode) as Hav. 
  assert (controls ids x = bool_decide (first_prop (lit "interrupt-controller") (in_props x) <> None) && available x && bool_decide (entry_of ids 0 x <> None)) as Hctl by done.
  destruct (first_prop (lit "interrupt-controller") (in_props x)) as [y|] eqn:Ey.
  2:{ rewrite Hp. cbn [mbind res_bind]. rewrite Hav. cbn [mbind res_bind]. apply Hskip; [|done]. rewrite Hctl. by rewrite bool_decide_eq_false_2 by tauto. }
  destruct Hp as (a & np & vp & nx & -> & Ha & _). cbn [mbind res_bind]. rewrite Hav. cbn [mbind res_bind]. rewrite Ha. cbn [negb orb]. rewrite (bool_decide_eq_true_2 (Some y <> None)) in Hctl by done.
  destruct (available x) eqn:Eav; cbn [negb andb] in *; [|by apply Hskip].
  unfold fwk_of_node_try_matches, fwk_of_match_node. rewrite Hv, (match_table_spec lit_null fuel t es _ (tree_at h) few fit texts _ _ _ ids Hnode table 0). cbn [negb mbind res_bind].
  destruct (entry_of ids 0 x) as [i|] eqn:Ei; [|by apply Hskip].
  rewrite (bool_decide_eq_true_2 (Some i <> None)) in Hctl by done. clear Hskip. unfold controllers. rewrite filter_cons_True by done. fold (controllers xs2). cbn [length].
  pose proof (isValid_nonzero _ Hv) as Hnz. rewrite (proj2 (Z.eqb_neq (en_addr e) 0)) by done.
  destruct (heap_alloc_spec (ds_cpu w0) h _ sizeof_intcs (Z.lor GFP_KERNEL GFP_ZERO) cpu0 Hh eq_refl ltac:(unfold W32; lia)) as (q & h1 & Eal & Hcase & _). simpl ds_cpu. simpl ds_heap. rewrite Eal. cbn [mbind res_bind].
  change (dput_heap (ds_cpu w0) h1 (at_heap h)) with (at_heap h1). destruct Hcase as [[-> Hh1]|[Hq Hh1]].
  { cbn [isValid nullptr]. exists false, [], h1. rewrite app_nil_r. split_and!; try done; [simpl; lia|]. cbn [memory_for]. by rewrite Eal. }
  rewrite Hq. cbn [negb]. destruct (routed _ _ _ Hnode Hctl) as (k & Hlead & Hkf).
  rewrite (irq_parent_spec lit_null fuel t es _ (tree_at h1) few fit handles k _ _ Hlead Hkf). cbn [mbind res_bind].
  set (d := IntcsDesc q (en_addr e) (if en_addr e =? route (en_addr e) then nullptr else route (en_addr e))).
  destruct (Hnext (descs ++ [d]) h1) as (ok & new & h' & E & Hh' & Hm & Hl & Ho & Hc).
  { eapply heap_inv_perm; [|exact Hh1]. unfold OfIrqInit.blocks. rewrite fmap_app, <- app_assoc. cbn. by rewrite <- Permutation_middle. }
  rewrite E. destruct (node_matches _ _ _ q (ic_parent d) Hnode) as [Hmd Hdd]. exists ok, (d :: new), h'. rewrite <- app_assoc in *. split_and!; try done; [by constructor|simpl; lia|cbn [memory_for]; by rewrite Eal, Hq|].
  intros Hok. specialize (Hc Hok). cbn [to_start]. rewrite Hctl. rewrite filter_cons. cbn [ic_np d]. rewrite Hdd. cbn [andb].
  destruct (Z.eqb_spec (driver ids x) 0) as [E0|E0]; [rewrite decide_False by tauto; done|]. rewrite decide_True by done. cbn [negb app fmap list_fmap]. rewrite Hc. done.
Qed.
Lemma collect_spec es2 xs2 : forall es1 xs1 n descs L h, es = es1 ++ es2 -> nodes_of None t = xs1 ++ xs2 -> length es1 = length xs1 -> heap_inv h (blocks descs ++ L) -> (length es2 < n)%nat ->
  collected es2 xs2 n descs L h.
Proof using tree few fit texts handles table routed cpu0 size_ok.
  revert xs2. induction es2 as [|e es2 IH]; intros xs2 es1 xs1 n descs L h Ees Exs Hl Hh Hn; (destruct n as [|n]; [simpl in Hn; lia|]).
  { pose proof (nodes_length _ _ _ _ tree) as Hlen. rewrite Ees, Exs, !length_app in Hlen. destruct xs2 as [|x xs2]; [|simpl in Hlen; lia].
    exists true, [], h. cbn [collect addrs fmap list_fmap hd isValid]. rewrite app_nil_r. by split_and!. }
  pose proof (nodes_length _ _ _ _ tree) as Hlen. rewrite Ees, Exs, !length_app in Hlen. destruct xs2 as [|x xs2]; [simpl in Hlen; lia|]. apply collect_step; [| |done|].
  - split; [done|]. exists (length es1). rewrite Ees, Exs. split; [|rewrite Hl]; by apply list_lookup_middle.
  - cbn [record dn_allnext]. rewrite Ees. pose proof (dt_nodup _ _ _ _ tree) as Hnd. rewrite Ees in Hnd. unfold addrs in *. rewrite fmap_app in Hnd |- *. by apply after_app.
  - intros descs' h1 Hh1. apply (IH xs2 (es1 ++ [e]) (xs1 ++ [x])); [by rewrite <- app_assoc|by rewrite <- app_assoc|by rewrite !length_app, Hl|done|simpl in Hn; lia].
Qed.

Context {S : Type} (init : Z -> Z -> Z -> @dsys H -> S -> res (Z * @dsys H * S)).
(** A start function returns and leaves the tree alone; the blocks it has of the heap
    are [held] in its state. *)
Context (held : S -> list (Z * Z)) (init_ok : forall data np parent (w : @dsys H) s L, cpu_ok (ds_cpu w) -> heap_inv (ds_heap w) (held s ++ L) ->
  exists r h s', init data np parent w s = Ok (r, dput_heap (ds_cpu w) h w, s') /\ heap_inv h (held s' ++ L)).

(** C15: The start of the interrupt controllers ends, on every tree whose references
    lead somewhere.  A controller is started at most once, with the parent the tree
    gives it, and not before that parent was started successfully.  No controller is
    forgotten: one whose parent is started, or that has none, is started too, if the
    heap has room for a descriptor of each controller; if not, none is started.  In
    the end the live blocks are those from before and those the start functions hold:
    every descriptor has been released. *)
Theorem irq_controllers_started L s : heap_inv (ds_heap w0) (held s ++ L) ->
  exists calls h' s', fwk_of_irq_init fuel sizeof_intcs init (Some ids) w0 s = Ok (calls, at_heap h', s') /\ heap_inv h' (held s' ++ L) /\
    NoDup (call_np <$> calls) /\ (forall np p r, (np, p, r) ∈ calls -> np ∈ to_start ids es (nodes_of None t) /\ p = parent_of route np) /\ ordered [] calls /\
    if memory_for (controllers (nodes_of None t)) (ds_heap w0)
    then forall np, np ∈ to_start ids es (nodes_of None t) -> parent_of route np = 0 \/ parent_of route np ∈ started_ok [] calls -> np ∈ call_np <$> calls
    else calls = [] /\ s' = s.
Proof using tree few fit texts handles table routed cpu0 size_ok init_ok.
  intros Hh. pose proof (nodes_length _ _ _ _ tree) as Hlen. unfold fwk_of_irq_init. rewrite (dt_head _ _ _ _ tree).
  destruct (collect_spec es (nodes_of None t) [] [] fuel [] (held s ++ L) (ds_heap w0) eq_refl eq_refl eq_refl Hh ltac:(lia)) as (ok & descs & h1 & E & Hh1 & Hm & Hl & Ho & Hc).
  replace (at_heap (ds_heap w0)) with w0 in E by (by destruct w0). rewrite E. cbn [mbind res_bind app] in *. rewrite <- Ho. clear Ho. destruct ok.
  - specialize (Hc eq_refl). destruct (start_all_spec fuel sizeof_intcs size_ok init (Some ids) held init_ok w0 cpu0 fuel nullptr descs [] [] L h1 s Hm) as (calls & h' & s' & -> & Hh' & Ho & Hsub & Hcomp);
      [eapply heap_inv_perm; [|exact Hh1]; apply Permutation_app_swap_app|simpl; lia|by left|by intros d ?%not_elem_of_nil|].
    rewrite Hc in Hsub. assert (call_np <$> calls ⊆+ to_start ids es (nodes_of None t)) as Hnp.
    { apply (fmap_submseteq fst) in Hsub. rewrite <- !list_fmap_compose in Hsub. cbn in Hsub. by rewrite list_fmap_id in Hsub. }
    exists calls, h', s'. split_and!; try done.
    + apply submseteq_Permutation in Hnp as (k & Hnp). eapply (NoDup_app _ k). rewrite <- Hnp. eapply sublist_NoDup; [apply (dt_nodup _ _ _ _ tree)|apply to_start_sublist].
    + intros np p r Hin. assert ((np, p) ∈ calls.*1) as Hin' by (apply list_elem_of_fmap; by exists (np, p, r)). apply (elem_of_submseteq _ _ _ Hin') in Hsub. apply list_elem_of_fmap in Hsub as (a & [= -> ->] & Ha). done.
    + intros np Hnp' Hpar. assert ((np, parent_of route np) ∈ (fun a => (a, parent_of route a)) <$> to_start ids es (nodes_of None t)) as Hin by (by apply (list_elem_of_fmap_2 (fun a => (a, parent_of route a)))).
      rewrite <- Hc in Hin. apply list_elem_of_fmap in Hin as (d & Ed & [Hd Hin]%list_elem_of_filter). injection Ed as En Ep. rewrite Ep in Hpar. specialize (Hcomp d Hin Hd ltac:(tauto)).
      apply list_elem_of_fmap in Hcomp as ([[np' p'] r] & Epr & Hcall). injection Epr as E1 E2. apply list_elem_of_fmap. exists (np', p', r). split; [by rewrite En, E1|done].
  - destruct (free_list_spec sizeof_intcs size_ok w0 cpu0 descs (held s ++ L) h1 Hh1) as (h' & -> & Hh'). exists [], h', s. split_and!; try done; [constructor|by intros np p r ?%not_elem_of_nil].
Qed.
End collecting.

(** ** The example of FdtTree.v: its controller is started *)
Definition demo_intc_ids : list of_device_id := [DeviceId None None (Some (lit "c,d")) 1; DeviceId None None None 0].
Definition demo_intc_init (data np parent : Z) (w : @dsys kheap) (s : list Z) : res (Z * @dsys kheap * list Z) := Ok (0, w, np :: s).
Lemma demo_texts : Forall texts_ok (nodes_of None demo_tree).
Proof.
  cbn [demo_tree nodes_of List.flat_map app].
  repeat (apply Forall_cons; split; [split; intros y Hy; vm_compute in Hy; first [discriminate Hy|injection Hy as <-; split; [reflexivity|repeat constructor; vm_compute; done]]|]). constructor.
Qed.
Lemma demo_intc_table : table_ok demo_intc_ids.
Proof. split; [right; by left|]. repeat constructor; by apply lit_char. Qed.
Lemma demo_intc_route es a e x : dev_tree 16400 demo_tree es demo_unflattened -> is_node demo_tree es a e x -> controls demo_intc_ids x = true -> exists n, leads demo_tree es n a 0 /\ (n < 200)%nat.
Proof.
  intros Ht Hn Hc. destruct (demo_three es Ht) as (e0 & e1 & e2 & ->). destruct (dt_built _ _ _ _ Ht) as (K & Hb). apply built_eq in Hb as (Hp0 & _ & es1 & es2 & Ees & Hb1 & _).
  destruct es1 as [|e1' es1]; [done|]. injection Ees as <- _. apply built_eq in Hb1 as (Hp1 & _).
  pose proof Hn as (Ea & i & He & Hx). destruct i as [|[|[|i]]]; [injection Hx as <-; vm_compute in Hc; discriminate Hc| |injection Hx as <-; vm_compute in Hc; discriminate Hc|discriminate He].
  injection He as <-. exists 2%nat. split; [|lia]. assert (exists x0, nodes_of None demo_tree !! 0%nat = Some x0) as (x0 & Hx0) by eauto.
  assert (is_node demo_tree [e0; e1; e2] (en_addr e0) e0 x0) as H0 by (split; [done|by exists 0%nat]). injection Hx as <-. injection Hx0 as <-.
  eapply leads_on; [exact Hn| |exact H0|by vm_compute|]; [unfold route_next; change (en_addr e0 = en_parent e1); done|].
  eapply leads_none; [exact H0|]. unfold route_next. change (0 = en_parent e0). done.
Qed.
Lemma irq_controllers_started_witness : exists L calls w' s', heap_inv (ds_heap demo_unflattened) L /\
  fwk_of_irq_init 200 16 demo_intc_init (Some demo_intc_ids) demo_unflattened [] = Ok (calls, w', s') /\ heap_inv (ds_heap w') L /\ length calls = 1%nat /\ ordered [] calls.
Proof.
  destruct demo_built_heap as (es & L & Ht & Hh & Hcpu).
  destruct (irq_controllers_started 16400 200 16 ltac:(lia) demo_tree es demo_unflattened Ht ltac:(rewrite Hcpu; split; [discriminate|reflexivity]) ltac:(rewrite demo_nodes_three; lia) demo_nodes_fit demo_texts demo_handles demo_intc_ids demo_intc_table
    (fun _ => 0) (fun a e x => demo_intc_route es a e x Ht) demo_intc_init (fun _ => [])) with (L := L) (s := @nil Z) as (calls & h' & s' & E & Hlive & _ & _ & Ho & _).
  - intros data np parent w s L' _ Hw. exists 0, (ds_heap w), (np :: s). split; [by destruct w|exact Hw].
  - exact Hh.
  - exists L, calls, (dput_heap (ds_cpu demo_unflattened) h' demo_unflattened), s'. split; [exact Hh|]. split; [exact E|]. split; [exact Hlive|]. split; [|exact Ho].
    assert (match fwk_of_irq_init 200 16 demo_intc_init (Some demo_intc_ids) demo_unflattened [] with Ok (calls, _, _) => length calls | _ => 0%nat end = 1%nat) as Hlen by (vm_compute; reflexivity).
    rewrite E in Hlen. exact Hlen.
Defined.
