(* ===== verification/Bus.v ===== *)
(** * Buses, devices and drivers (platform/bus_type/, i2c/fwk_i2c.c: its bus)

    A bus keeps a list of devices and a list of drivers.  A device that is added is
    tried with the drivers in order, a driver that is registered with the devices
    without one; the functions of the bus decide what fits, and start and stop the
    pair.  All devices of all buses are also in one list, for their names.

    Lists are sequences of addresses (ListHead.v); devices, drivers and what
    [mrt_container_of] finds around them are records at the address of the
    [sgrt_dev] or [sgrt_driver] member; they hold the fields that the functions here
    use.  Names are strings by value, null where the code asks for it.  The functions of drivers and the pin control framework are
    parameters, on a state [S] of their own; they do not call the bus themselves. *)

From Stdlib Require Import Strings.String.
From stdpp Require Import prelude gmap fin_maps sorting.
From S2P Require Import Prelude Mem Bytes MemPool MemOps Sync Generic KMalloc HeapContract Fdt OfNode.

Record fwk_device := Device {
  dv_init_name : option (list Z); dv_kobj_name : option (list Z);
  dv_bus : Z; dv_type : Z; dv_driver : Z; dv_node : Z }.
Record fwk_driver := Driver { dr_name : list Z; dr_matches : Z; dr_table : option (list of_device_id); dr_bus : Z }.
(** [struct fwk_SysPrivate]; a bus without one has no entry in the state. *)
Record bus_lists := BusLists { bl_devices : list Z; bl_drivers : list Z }.

Definition set_driver (v : Z) (d : fwk_device) : fwk_device := Device (dv_init_name d) (dv_kobj_name d) (dv_bus d) (dv_type d) v (dv_node d).
Definition set_kobj_name (v : option (list Z)) (d : fwk_device) : fwk_device := Device (dv_init_name d) v (dv_bus d) (dv_type d) (dv_driver d) (dv_node d).
Definition set_bus (b t : Z) (d : fwk_device) : fwk_device := Device (dv_init_name d) (dv_kobj_name d) b t (dv_driver d) (dv_node d).
Definition set_matches (v : Z) (r : fwk_driver) : fwk_driver := Driver (dr_name r) v (dr_table r) (dr_bus r).

(** [bs_leaf] is [sgrt_fwk_devices]. *)
Record bsys := BSys { bs_devs : gmap Z fwk_device; bs_drvs : gmap Z fwk_driver; bs_buses : gmap Z bus_lists; bs_leaf : list Z }.
Definition bput_devs (m : gmap Z fwk_device) (w : bsys) : bsys := BSys m (bs_drvs w) (bs_buses w) (bs_leaf w).
Definition bput_drvs (m : gmap Z fwk_driver) (w : bsys) : bsys := BSys (bs_devs w) m (bs_buses w) (bs_leaf w).
Definition bput_buses (m : gmap Z bus_lists) (w : bsys) : bsys := BSys (bs_devs w) (bs_drvs w) m (bs_leaf w).
Definition bput_leaf (l : list Z) (w : bsys) : bsys := BSys (bs_devs w) (bs_drvs w) (bs_buses w) l.
Definition upd_dev (f : fwk_device -> fwk_device) (p : Z) (w : bsys) : bsys := bput_devs (alter f p (bs_devs w)) w.
Definition upd_drv (f : fwk_driver -> fwk_driver) (p : Z) (w : bsys) : bsys := bput_drvs (alter f p (bs_drvs w)) w.
Definition upd_bus (f : bus_lists -> bus_lists) (b : Z) (w : bsys) : bsys := bput_buses (alter f b (bs_buses w)) w.

Definition fwk_dev_get_name (d : fwk_device) : option (list Z) := match dv_init_name d with Some n => Some n | None => dv_kobj_name d end.

Section bus.
Context {S : Type}.

(** What a bus brings along. *)
Record bus_type := BusType {
  bt_match : option (Z -> Z -> bsys -> res Z);
  bt_probe : option (Z -> bsys -> S -> res (Z * S));
  bt_remove : option (Z -> bsys -> S -> res (Z * S)) }.
Context (bus_at : Z -> bus_type).
(** [fwk_pinctrl_bind_pins], [fwk_pinctrl_unbind_pins] *)
Context (bind_pins : Z -> S -> res (Z * S)) (unbind_pins : Z -> S -> res S).

(** ** Device and driver together *)
Definition fwk_device_driver_probe (sprt_dev : Z) (w : bsys) (s : S) : res (Z * S) :=
  d ← deref (bs_devs w !! sprt_dev);
  '(_, s) ← bind_pins sprt_dev s;
  match bt_probe (bus_at (dv_bus d)) with
  | Some probe =>
      '(retval, s) ← probe sprt_dev w s;
      if negb (retval =? 0) then s ← unbind_pins sprt_dev s; Ok (retval, s) else Ok (ER_NORMAL, s)
  | None => Ok (- ER_NSUPPORT, s)
  end.
Definition fwk_device_driver_remove (sprt_dev : Z) (w : bsys) (s : S) : res (Z * S) :=
  d ← deref (bs_devs w !! sprt_dev);
  match bt_remove (bus_at (dv_bus d)) with Some remove => remove sprt_dev w s | None => Ok (- ER_NSUPPORT, s) end.
Definition fwk_device_driver_match (sprt_dev bus sprt_driver : Z) (w : bsys) (s : S) : res (Z * bsys * S) :=
  pmatch ← deref (bt_match (bus_at bus));
  retval ← pmatch sprt_dev sprt_driver w;
  if retval <? 0 then Ok (- ER_NOTFOUND, w, s)
  else
    let w := upd_dev (set_driver sprt_driver) sprt_dev w in
    '(retval, s) ← fwk_device_driver_probe sprt_dev w s;
    Ok (retval, w, s).

(** ** Devices *)
Fixpoint find_device (l : list Z) (sprt_dev : Z) (w : bsys) : res Z :=
  match l with
  | [] => Ok (- ER_NOTFOUND)
  | sprt_leaf :: l =>
      if sprt_leaf =? sprt_dev then Ok ER_NORMAL
      else
        d1 ← deref (bs_devs w !! sprt_leaf); n1 ← deref (fwk_dev_get_name d1);
        d2 ← deref (bs_devs w !! sprt_dev); n2 ← deref (fwk_dev_get_name d2);
        if bool_decide (n1 = n2) then Ok ER_NORMAL else find_device l sprt_dev w
  end.
Definition fwk_device_find (sprt_dev : Z) (w : bsys) : res Z := find_device (bs_leaf w) sprt_dev w.

(** The loop over the drivers of the bus. *)
Fixpoint try_drivers (l : list Z) (sprt_dev bus : Z) (w : bsys) (s : S) : res (Z * bsys * S) :=
  match l with
  | [] => Ok (- ER_PERMIT, w, s)
  | sprt_driver :: l =>
      '(retval, w, s) ← fwk_device_driver_match sprt_dev bus sprt_driver w s;
      if (retval =? 0) || (retval =? - ER_PERMIT) then Ok (ER_NORMAL, w, s) else try_drivers l sprt_dev bus w s
  end.
Definition fwk_device_attach (sprt_dev bus : Z) (w : bsys) (s : S) : res (Z * bsys * S) :=
  d ← deref (bs_devs w !! sprt_dev);
  if negb (dv_driver d =? 0) then Ok (ER_NORMAL, w, s)
  else
    match bt_match (bus_at bus) with
    | None => Ok (- ER_NSUPPORT, w, s)
    | Some _ => b ← deref (bs_buses w !! bus); try_drivers (bl_drivers b) sprt_dev bus w s
    end.
Definition fwk_device_detach (sprt_dev : Z) (w : bsys) (s : S) : res (Z * bsys * S) :=
  d ← deref (bs_devs w !! sprt_dev);
  let sprt_driver := dv_driver d in
  if sprt_driver =? 0 then Ok (ER_NORMAL, w, s)
  else
    '(_, s) ← fwk_device_driver_remove sprt_dev w s;
    r ← deref (bs_drvs w !! sprt_driver);
    Ok (ER_NORMAL, upd_drv (set_matches (s32 (dr_matches r - 1))) sprt_driver (upd_dev (set_driver 0) sprt_dev w), s).
Definition fwk_device_to_bus (sprt_dev bus : Z) (w : bsys) (s : S) : res (Z * bsys * S) :=
  let w := upd_bus (fun b => BusLists (bl_devices b ++ [sprt_dev]) (bl_drivers b)) bus w in
  '(retval, w, s) ← fwk_device_attach sprt_dev bus w s;
  Ok (if (retval =? 0) || (retval =? - ER_PERMIT) then ER_NORMAL else retval, w, s).
Definition fwk_bus_del_device (sprt_dev bus : Z) (w : bsys) (s : S) : res (Z * bsys * S) :=
  '(_, w, s) ← fwk_device_detach sprt_dev w s;
  Ok (ER_NORMAL, upd_bus (fun b => BusLists (filter (fun x => x <> sprt_dev) (bl_devices b)) (bl_drivers b)) bus w, s).
Definition fwk_device_add (sprt_dev : Z) (w : bsys) (s : S) : res (Z * bsys * S) :=
  d ← deref (bs_devs w !! sprt_dev);
  let bus := dv_bus d in
  found ← fwk_device_find sprt_dev w;
  if found =? 0 then Ok (- ER_EXISTED, w, s)
  else if bus =? 0 then Ok (ER_NORMAL, bput_leaf (bs_leaf w ++ [sprt_dev]) w, s)
  else
    match bs_buses w !! bus with
    | None => Ok (- ER_ERROR, w, s)
    | Some _ =>
        '(retval, w, s) ← fwk_device_to_bus sprt_dev bus (upd_dev (set_driver 0) sprt_dev w) s;
        if negb (retval =? 0) then Ok (retval, w, s) else Ok (ER_NORMAL, bput_leaf (bs_leaf w ++ [sprt_dev]) w, s)
    end.
(** The name goes, and with it the device's place in the list of all. *)
Definition drop_device (sprt_dev : Z) (w : bsys) : bsys :=
  bput_leaf (filter (fun x => x <> sprt_dev) (bs_leaf w)) (upd_dev (set_kobj_name None) sprt_dev w).
Definition fwk_device_del (sprt_dev : Z) (w : bsys) (s : S) : res (Z * bsys * S) :=
  d ← deref (bs_devs w !! sprt_dev);
  let bus := dv_bus d in
  found ← fwk_device_find sprt_dev w;
  if negb (found =? 0) then Ok (- ER_NOTFOUND, w, s)
  else if bus =? 0 then Ok (ER_NORMAL, drop_device sprt_dev w, s)
  else
    match bs_buses w !! bus with
    | None => Ok (- ER_ERROR, w, s)
    | Some _ =>
        '(retval, w, s) ← fwk_bus_del_device sprt_dev bus w s;
        if negb (retval =? 0) then Ok (retval, w, s) else Ok (ER_NORMAL, drop_device sprt_dev w, s)
    end.

(** ** Drivers *)

(** The loop over the devices of the bus; the result is [matches] and [retval]. *)
Fixpoint try_devices (l : list Z) (sprt_driver bus matches retval : Z) (w : bsys) (s : S) : res (Z * Z * bsys * S) :=
  match l with
  | [] => Ok (matches, retval, w, s)
  | sprt_dev :: l =>
      d ← deref (bs_devs w !! sprt_dev);
      if negb (dv_driver d =? 0) then try_devices l sprt_driver bus matches retval w s
      else
        '(retval, w, s) ← fwk_device_driver_match sprt_dev bus sprt_driver w s;
        try_devices l sprt_driver bus (if (retval =? 0) || (retval =? - ER_PERMIT) then s32 (matches + 1) else matches) retval w s
  end.
Definition fwk_driver_attach (sprt_driver bus : Z) (w : bsys) (s : S) : res (Z * bsys * S) :=
  match bt_match (bus_at bus) with
  | None => Ok (- ER_ERROR, w, s)
  | Some _ =>
      b ← deref (bs_buses w !! bus);
      '(matches, retval, w, s) ← try_devices (bl_devices b) sprt_driver bus 0 0 w s;
      r ← deref (bs_drvs w !! sprt_driver);
      let w := upd_drv (set_matches (s32 (dr_matches r + matches))) sprt_driver w in
      Ok (if (retval =? - ER_NOTFOUND) || negb (matches =? 0) then matches else retval, w, s)
  end.
Fixpoint part_devices (l : list Z) (sprt_driver : Z) (w : bsys) (s : S) : res (bsys * S) :=
  match l with
  | [] => Ok (w, s)
  | sprt_dev :: l =>
      d ← deref (bs_devs w !! sprt_dev);
      if negb (dv_driver d =? sprt_driver) then part_devices l sprt_driver w s
      else
        '(_, s) ← fwk_device_driver_remove sprt_dev w s;
        r ← deref (bs_drvs w !! sprt_driver);
        part_devices l sprt_driver (upd_drv (set_matches (s32 (dr_matches r - 1))) sprt_driver (upd_dev (set_driver 0) sprt_dev w)) s
  end.
Definition fwk_driver_detach (sprt_driver bus : Z) (w : bsys) (s : S) : res (Z * bsys * S) :=
  b ← deref (bs_buses w !! bus);
  '(w, s) ← part_devices (bl_devices b) sprt_driver w s;
  Ok (ER_NORMAL, w, s).
Fixpoint find_driver (l : list Z) (name : list Z) (w : bsys) : res Z :=
  match l with
  | [] => Ok (- ER_ERROR)
  | sprt_drv :: l => r ← deref (bs_drvs w !! sprt_drv); if bool_decide (dr_name r = name) then Ok ER_NORMAL else find_driver l name w
  end.
Definition fwk_driver_find (sprt_driver bus : Z) (w : bsys) : res Z :=
  b ← deref (bs_buses w !! bus);
  r ← deref (bs_drvs w !! sprt_driver);
  find_driver (bl_drivers b) (dr_name r) w.
Definition fwk_driver_to_bus (sprt_driver bus : Z) (w : bsys) (s : S) : res (Z * bsys * S) :=
  let w := upd_bus (fun b => BusLists (bl_devices b) (bl_drivers b ++ [sprt_driver])) bus w in
  fwk_driver_attach sprt_driver bus w s.
Definition fwk_bus_del_driver (sprt_driver bus : Z) (w : bsys) (s : S) : res (Z * bsys * S) :=
  '(retval, w, s) ← fwk_driver_detach sprt_driver bus w s;
  Ok (retval, upd_bus (fun b => BusLists (bl_devices b) (filter (fun x => x <> sprt_driver) (bl_drivers b))) bus w, s).
Definition fwk_driver_register (sprt_driver : Z) (w : bsys) (s : S) : res (Z * bsys * S) :=
  r ← deref (bs_drvs w !! sprt_driver);
  let bus := dr_bus r in
  if bus =? 0 then Ok (- ER_ERROR, w, s)
  else
    match bs_buses w !! bus with
    | None => Ok (- ER_ERROR, w, s)
    | Some _ =>
        retval ← fwk_driver_find sprt_driver bus w;
        if retval =? 0 then Ok (- ER_ERROR, w, s) else fwk_driver_to_bus sprt_driver bus (upd_drv (set_matches 0) sprt_driver w) s
    end.
Definition fwk_driver_unregister (sprt_driver : Z) (w : bsys) (s : S) : res (Z * bsys * S) :=
  r ← deref (bs_drvs w !! sprt_driver);
  let bus := dr_bus r in
  if bus =? 0 then Ok (- ER_ERROR, w, s)
  else
    match bs_buses w !! bus with
    | None => Ok (- ER_ERROR, w, s)
    | Some _ =>
        retval ← fwk_driver_find sprt_driver bus w;
        if retval <? 0 then Ok (- ER_ERROR, w, s) else fwk_bus_del_driver sprt_driver bus w s
    end.
End bus.
Arguments bus_type : clear implicits.
