(* ===== verification/BusTypes.v ===== *)
(** * The platform bus and the I2C bus (fwk_platform.c, fwk_platdrv.c, fwk_i2c.c)

    The match, start and stop functions of the two buses of the kernel.  A driver
    fits a device by the device's node, through the table of models (OfNode.v), or
    by names.  As in Bus.v, records hold the fields in use here. *)

From Stdlib Require Import Strings.String.
From stdpp Require Import prelude gmap fin_maps sorting.
From S2P Require Import Prelude Mem Bytes MemPool MemOps Sync Generic KMalloc HeapContract Fdt OfNode Bus.

Record platdev := PlatDev { pv_name : list Z; pv_id : Z; pv_override : option (list Z) }.
(** [pr_probe] and [pr_remove]: whether there are such functions; [sprt_idTable] has [num_idTable] entries. *)
Record platdrv := PlatDrv { pr_probe : bool; pr_remove : bool; pr_idTable : list (list Z) }.
Record i2c_client := I2cClient { cl_name : list Z }.
(** The table of names ends with an entry without name or with an empty one. *)
Record i2c_driver := I2cDriver { id_probe : bool; id_remove : bool; id_table : option (list (option (list Z))) }.

Section buses.
Context {H : Type} `{KernelHeap H} {S : Type}.
Context (fuel : nat) (tree : @dsys H).
(** [mrt_container_of] *)
Context (platdev_of : Z -> platdev) (platdrv_of : Z -> platdrv).
(** The functions of the drivers: driver, device. *)
Context (drv_probe drv_remove : Z -> Z -> S -> res (Z * S)).

Definition fwk_platform_match (sprt_dev sprt_driver : Z) (w : bsys) : res Z :=
  d ← deref (bs_devs w !! sprt_dev);
  r ← deref (bs_drvs w !! sprt_driver);
  match pv_override (platdev_of sprt_dev) with
  | Some name => Ok (if bool_decide (name = dr_name r) then ER_NORMAL else - ER_FAILD)
  | None =>
      '(sprt_np, _) ← fwk_of_node_try_matches fuel (dv_node d) (dr_table r) tree;
      if isValid sprt_np && (dv_node d =? sprt_np) then Ok ER_NORMAL
      else if bool_decide (pv_name (platdev_of sprt_dev) ∈ pr_idTable (platdrv_of sprt_driver)) then Ok ER_NORMAL
      else if bool_decide (pv_name (platdev_of sprt_dev) = dr_name r) then Ok ER_NORMAL
      else Ok (- ER_NOTFOUND)
  end.
Definition fwk_platform_probe (sprt_dev : Z) (w : bsys) (s : S) : res (Z * S) :=
  d ← deref (bs_devs w !! sprt_dev);
  if dv_driver d =? 0 then Ok (- ER_NOTFOUND, s)
  else if negb (pr_probe (platdrv_of (dv_driver d))) then Ok (- ER_PERMIT, s)
  else '(retval, s) ← drv_probe (dv_driver d) sprt_dev s; Ok (if retval <? 0 then - ER_PERMIT else ER_NORMAL, s).
Definition fwk_platform_remove (sprt_dev : Z) (w : bsys) (s : S) : res (Z * S) :=
  d ← deref (bs_devs w !! sprt_dev);
  if dv_driver d =? 0 then Ok (- ER_NOTFOUND, s)
  else if negb (pr_remove (platdrv_of (dv_driver d))) then Ok (- ER_PERMIT, s)
  else '(retval, s) ← drv_remove (dv_driver d) sprt_dev s; Ok (if retval <? 0 then - ER_PERMIT else ER_NORMAL, s).
Definition sgrt_fwk_platform_bus_type : bus_type S := BusType (Some fwk_platform_match) (Some fwk_platform_probe) (Some fwk_platform_remove).

(** ** I2C *)
Context (client_of : Z -> i2c_client) (i2c_driver_of : Z -> i2c_driver) (client_type : Z).
(** The field [irq] of a client, which is part of [S]; [fwk_of_irq_get] for a node;
    the driver's function with the entry of its table. *)
Context (client_irq : Z -> S -> Z) (set_client_irq : Z -> Z -> S -> S).
Context (irq_get : Z -> Z -> S -> res (Z * S)) (i2c_probe : Z -> Z -> option (list Z) -> S -> res (Z * S)).

Fixpoint fwk_i2c_match_id (ids : list (option (list Z))) (name : list Z) : res (option (list Z)) :=
  match ids with
  | [] => Fault
  | None :: _ | Some [] :: _ => Ok None
  | Some n :: ids => if bool_decide (name = n) then Ok (Some n) else fwk_i2c_match_id ids name
  end.
Definition fwk_i2c_device_match (sprt_dev sprt_drv : Z) (w : bsys) : res Z :=
  d ← deref (bs_devs w !! sprt_dev);
  if negb (dv_type d =? client_type) then Ok (- ER_CHECKERR)
  else
    r ← deref (bs_drvs w !! sprt_drv);
    '(sprt_np, _) ← fwk_of_node_try_matches fuel (dv_node d) (dr_table r) tree;
    if isValid sprt_np && (dv_node d =? sprt_np) then Ok ER_NORMAL
    else
      match id_table (i2c_driver_of sprt_drv) with
      | Some ids => e ← fwk_i2c_match_id ids (cl_name (client_of sprt_dev)); Ok (match e with Some _ => ER_NORMAL | None => - ER_NOTFOUND end)
      | None => Ok (- ER_NOTFOUND)
      end.
Definition fwk_i2c_device_probe (sprt_dev : Z) (w : bsys) (s : S) : res (Z * S) :=
  d ← deref (bs_devs w !! sprt_dev);
  if dv_driver d =? 0 then Ok (- ER_FAULT, s)
  else
    ids ← deref (id_table (i2c_driver_of (dv_driver d)));
    e ← fwk_i2c_match_id ids (cl_name (client_of sprt_dev));
    s ← (if client_irq sprt_dev s =? 0 then '(irq, s) ← irq_get (dv_node d) 0 s; Ok (set_client_irq sprt_dev (if irq <? 0 then -1 else irq) s) else Ok s);
    if id_probe (i2c_driver_of (dv_driver d)) then
      '(retval, s) ← i2c_probe (dv_driver d) sprt_dev e s; Ok (if negb (retval =? 0) then - ER_PERMIT else ER_NORMAL, s)
    else Ok (ER_NORMAL, s).
Definition fwk_i2c_device_remove (sprt_dev : Z) (w : bsys) (s : S) : res (Z * S) :=
  d ← deref (bs_devs w !! sprt_dev);
  if dv_driver d =? 0 then Ok (- ER_FAULT, s)
  else if negb (id_remove (i2c_driver_of (dv_driver d))) then Ok (- ER_PERMIT, s)
  else '(retval, s) ← drv_remove (dv_driver d) sprt_dev s; Ok (if retval <? 0 then - ER_PERMIT else ER_NORMAL, s).
Definition sgrt_fwk_i2c_bus_type : bus_type S := BusType (Some fwk_i2c_device_match) (Some fwk_i2c_device_probe) (Some fwk_i2c_device_remove).

(** ** Both buses, at their addresses *)
Context (platform_bus i2c_bus : Z) (bind_pins : Z -> S -> res (Z * S)) (unbind_pins : Z -> S -> res S).
Definition kernel_bus (b : Z) : bus_type S := if b =? i2c_bus then sgrt_fwk_i2c_bus_type else sgrt_fwk_platform_bus_type.
Definition set_drv_bus (b : Z) (r : fwk_driver) : fwk_driver := Driver (dr_name r) (dr_matches r) (dr_table r) b.
Definition fwk_register_platdriver (sprt_driver : Z) (w : bsys) (s : S) : res (Z * bsys * S) :=
  fwk_driver_register kernel_bus bind_pins unbind_pins sprt_driver (upd_drv (set_drv_bus platform_bus) sprt_driver w) s.
Definition fwk_unregister_platdriver (sprt_driver : Z) (w : bsys) (s : S) : res (Z * bsys * S) := fwk_driver_unregister kernel_bus sprt_driver w s.
Definition fwk_i2c_register_driver (sprt_driver : Z) (w : bsys) (s : S) : res (Z * bsys * S) :=
  fwk_driver_register kernel_bus bind_pins unbind_pins sprt_driver (upd_drv (set_drv_bus i2c_bus) sprt_driver w) s.
Definition fwk_i2c_unregister_driver (sprt_driver : Z) (w : bsys) (s : S) : res (Z * bsys * S) := fwk_driver_unregister kernel_bus sprt_driver w s.
Definition fwk_register_i2c_device (sprt_dev : Z) (w : bsys) (s : S) : res (Z * bsys * S) :=
  fwk_device_add kernel_bus bind_pins unbind_pins sprt_dev (upd_dev (fun d => set_bus i2c_bus (dv_type d) d) sprt_dev w) s.
Definition fwk_unregister_i2c_device (sprt_dev : Z) (w : bsys) (s : S) : res (Z * bsys * S) := fwk_device_del kernel_bus sprt_dev w s.
End buses.
