(* ===== verification/BusSpec.v ===== *)
(** * What fits is bound

    The buses are used through one interface, [LawfulBuses]: what their functions
    promise to the code that keeps the lists.  Against it: every call keeps the
    lists, names and bindings consistent, a new device goes to the first driver
    that fits, a new driver takes every free device that fits it. *)

From Stdlib Require Import Strings.String.
From stdpp Require Import prelude gmap fin_maps sorting.
From S2P Require Import Prelude Bus.

(** Devices and drivers are fit for use ([dev_ok], [drv_ok]), and a driver fits a
    device or not, whoever either of them is bound to; start functions succeed or
    report [ER_PERMIT]. *)
Class LawfulBuses {S : Type} (bus_at : Z -> bus_type S) (bind_pins : Z -> S -> res (Z * S)) (unbind_pins : Z -> S -> res S)
    (fits : Z -> fwk_device -> Z -> fwk_driver -> bool) (dev_ok : Z -> fwk_device -> Prop) (drv_ok : Z -> fwk_driver -> Prop) : Prop := {
  fits_stable dev d drv r v k : fits dev (set_driver v d) drv (set_matches k r) = fits dev d drv r;
  dev_ok_driver dev d v : dev_ok dev d -> dev_ok dev (set_driver v d);
  dev_ok_name dev d : dev_ok dev d -> dev_ok dev (set_kobj_name None d);
  drv_ok_matches drv r k : drv_ok drv r -> drv_ok drv (set_matches k r);
  match_some b : is_Some (bt_match (bus_at b));
  match_law dev d drv r w : dev_ok dev d -> drv_ok drv r -> dr_bus r = dv_bus d -> bs_devs w !! dev = Some d -> bs_drvs w !! drv = Some r ->
    exists f v, bt_match (bus_at (dv_bus d)) = Some f /\ f dev drv w = Ok v /\ (0 <=? v) = fits dev d drv r;
  probe_law dev d drv r w s : dev_ok dev d -> drv_ok drv r -> dr_bus r = dv_bus d -> bs_devs w !! dev = Some d -> dv_driver d = drv -> drv <> 0 -> bs_drvs w !! drv = Some r -> fits dev d drv r = true ->
    exists f v s', bt_probe (bus_at (dv_bus d)) = Some f /\ f dev w s = Ok (v, s') /\ (v = 0 \/ v = - ER_PERMIT);
  remove_law dev d f w s : bs_devs w !! dev = Some d -> bt_remove (bus_at (dv_bus d)) = Some f -> exists v s', f dev w s = Ok (v, s');
  bind_law dev s : exists v s', bind_pins dev s = Ok (v, s');
  unbind_law dev s : exists s', unbind_pins dev s = Ok s';
}.

Section spec.
Context {S : Type} {bus_at : Z -> bus_type S} {bind_pins : Z -> S -> res (Z * S)} {unbind_pins : Z -> S -> res S} {fits : Z -> fwk_device -> Z -> fwk_driver -> bool} {dev_ok : Z -> fwk_device -> Prop} {drv_ok : Z -> fwk_driver -> Prop}.
Context `{!LawfulBuses bus_at bind_pins unbind_pins fits dev_ok drv_ok}.
Implicit Types (w : bsys) (d : fwk_device) (r : fwk_driver) (s : S).

(** ** The state as its users see it *)
Definition name_of (w : bsys) (dev : Z) : option (list Z) := bs_devs w !! dev ≫= fwk_dev_get_name.
Definition bus_of (w : bsys) (dev : Z) : option Z := dv_bus <$> bs_devs w !! dev.
Definition bound_to (w : bsys) (dev : Z) : Z := from_option dv_driver 0 (bs_devs w !! dev).
Definition dname_of (w : bsys) (drv : Z) : option (list Z) := dr_name <$> bs_drvs w !! drv.
Definition dbus_of (w : bsys) (drv : Z) : option Z := dr_bus <$> bs_drvs w !! drv.
Definition fit (w : bsys) (dev drv : Z) : bool := match bs_devs w !! dev, bs_drvs w !! drv with Some d, Some r => fits dev d drv r | _, _ => false end.
(** All devices and drivers are fit for use. *)
Definition wf (w : bsys) : Prop := (forall dev d, bs_devs w !! dev = Some d -> dev_ok dev d) /\ (forall drv r, bs_drvs w !! drv = Some r -> drv_ok drv r).
(** The first driver that fits; 0 if none does. *)
Fixpoint first_fit (w : bsys) (dev : Z) (l : list Z) : Z :=
  match l with
  | [] => 0
  | drv :: l => if fit w dev drv then drv else first_fit w dev l
  end.

(** ** The invariant *)
Record bus_inv (w : bsys) : Prop := {
  bi_wf : wf w;
  bi_leaf : NoDup (bs_leaf w);
  bi_named dev : dev ∈ bs_leaf w -> is_Some (name_of w dev);
  bi_names x y : x ∈ bs_leaf w -> y ∈ bs_leaf w -> name_of w x = name_of w y -> x = y;
  bi_lists b l : bs_buses w !! b = Some l -> b <> 0 /\ NoDup (bl_devices l) /\ NoDup (bl_drivers l);
  bi_devices b l dev : bs_buses w !! b = Some l -> dev ∈ bl_devices l <-> dev ∈ bs_leaf w /\ bus_of w dev = Some b;
  bi_drivers b l drv : bs_buses w !! b = Some l -> drv ∈ bl_drivers l -> drv <> 0 /\ dbus_of w drv = Some b;
  bi_drv_names b l x y : bs_buses w !! b = Some l -> x ∈ bl_drivers l -> y ∈ bl_drivers l -> dname_of w x = dname_of w y -> x = y;
  bi_bound b l dev : bs_buses w !! b = Some l -> dev ∈ bl_devices l -> bound_to w dev <> 0 -> bound_to w dev ∈ bl_drivers l /\ fit w dev (bound_to w dev) = true;
}.
(** No free device is left that a registered driver fits. *)
Definition all_bound (w : bsys) : Prop :=
  forall b l dev drv, bs_buses w !! b = Some l -> dev ∈ bl_devices l -> bound_to w dev = 0 -> drv ∈ bl_drivers l -> fit w dev drv = false.
(** What a step leaves alone: names, buses and what fits. *)
Record same_info (w w' : bsys) : Prop := {
  si_name x : name_of w' x = name_of w x;
  si_bus x : bus_of w' x = bus_of w x;
  si_dname x : dname_of w' x = dname_of w x;
  si_dbus x : dbus_of w' x = dbus_of w x;
  si_fit x y : fit w' x y = fit w x y;
  si_wf : wf w -> wf w';
}.
#[local] Instance same_info_refl : Reflexive same_info.
Proof. by intros w. Qed.
#[local] Instance same_info_trans : Transitive same_info.
Proof. intros w1 w2 w3 [] []. split; intros; try congruence. auto. Qed.

(** ** Trying one pair *)
Lemma fits_set_driver dev d drv r v : fits dev (set_driver v d) drv r = fits dev d drv r.
Proof using All. rewrite <- (fits_stable dev d drv r v (dr_matches r)). by destruct r. Qed.
Lemma fits_set_matches dev d drv r k : fits dev d drv (set_matches k r) = fits dev d drv r.
Proof using All. rewrite <- (fits_stable dev d drv r (dv_driver d) k). by destruct d. Qed.
Lemma pair_spec dev d drv r w s : wf w -> dr_bus r = dv_bus d -> bs_devs w !! dev = Some d -> bs_drvs w !! drv = Some r -> drv <> 0 ->
  exists v s', fwk_device_driver_match bus_at bind_pins unbind_pins dev (dv_bus d) drv w s = Ok (v, (if fits dev d drv r then upd_dev (set_driver drv) dev w else w), s') /\
    if fits dev d drv r then (v =? 0) || (v =? - ER_PERMIT) = true else v = - ER_NOTFOUND.
Proof using All.
  intros [Hwd Hwr] Hbus Hd Hr Hnz. destruct (match_law dev d drv r w (Hwd _ _ Hd) (Hwr _ _ Hr) Hbus Hd Hr) as (f & v & Ef & Ev & Hv). unfold fwk_device_driver_match. rewrite Ef. cbn [deref mbind res_bind]. rewrite Ev. cbn [mbind res_bind].
  destruct (fits dev d drv r) eqn:Efit; [apply Z.leb_le in Hv; rewrite (proj2 (Z.ltb_ge v 0)) by lia|apply Z.leb_gt in Hv; rewrite (proj2 (Z.ltb_lt v 0)) by lia; by exists (- ER_NOTFOUND), s].
  set (w' := upd_dev (set_driver drv) dev w). assert (bs_devs w' !! dev = Some (set_driver drv d)) as Hd' by (cbn; by rewrite lookup_alter_eq, Hd).
  unfold fwk_device_driver_probe. rewrite Hd'. cbn [deref mbind res_bind]. destruct (bind_law dev s) as (v1 & s1 & ->). cbn [mbind res_bind].
  destruct (probe_law dev (set_driver drv d) drv r w' s1 (dev_ok_driver _ _ _ (Hwd _ _ Hd)) (Hwr _ _ Hr) Hbus Hd' eq_refl Hnz Hr) as (g & v2 & s2 & Eg & Ev2 & Hv2); [by rewrite fits_set_driver|]. rewrite Eg, Ev2. cbn [mbind res_bind].
  destruct Hv2 as [-> | ->]; cbn [Z.eqb negb ER_PERMIT Z.opp]; [by exists ER_NORMAL, s2|]. destruct (unbind_law dev s2) as (s3 & ->). by exists (- ER_PERMIT), s3.
Qed.
Lemma set_driver_info v dev w : same_info w (upd_dev (set_driver v) dev w).
Proof using All.
  assert (forall x, bs_devs (upd_dev (set_driver v) dev w) !! x = (if bool_decide (x = dev) then set_driver v else id) <$> bs_devs w !! x) as E.
  { intros x. cbn. case_bool_decide as Hx; [subst; by rewrite lookup_alter_eq|]. rewrite lookup_alter_ne by done. by destruct (bs_devs w !! x). }
  split; [intros x; unfold name_of, bus_of, dname_of, dbus_of; rewrite ?E; try (destruct (bs_devs w !! x) as [d|]; cbn; [by case_bool_decide|done]); done..| |].
  - intros x y. unfold fit. rewrite E. destruct (bs_devs w !! x) as [d|]; cbn; [|done]. case_bool_decide; [|done]. destruct (bs_drvs w !! y); [apply fits_set_driver|done].
  - intros [Hwd Hwr]. split; [|done]. intros x d0 Hx. rewrite E in Hx. destruct (bs_devs w !! x) as [d|] eqn:Ed; [|done]. injection Hx as <-. case_bool_decide; [by apply dev_ok_driver, Hwd|by apply Hwd].
Qed.
Lemma set_matches_info k drv w : same_info w (upd_drv (set_matches k) drv w).
Proof using All.
  assert (forall x, bs_drvs (upd_drv (set_matches k) drv w) !! x = (if bool_decide (x = drv) then set_matches k else id) <$> bs_drvs w !! x) as E.
  { intros x. cbn. case_bool_decide as Hx; [subst; by rewrite lookup_alter_eq|]. rewrite lookup_alter_ne by done. by destruct (bs_drvs w !! x). }
  split; [intros x; unfold name_of, bus_of, dname_of, dbus_of; rewrite ?E; try (destruct (bs_drvs w !! x) as [r|]; cbn; [by case_bool_decide|done]); done..| |].
  - intros x y. unfold fit. cbn [bs_devs upd_drv bput_drvs]. rewrite E. destruct (bs_devs w !! x); [|done]. destruct (bs_drvs w !! y); cbn; [|done]. case_bool_decide; [apply fits_set_matches|done].
  - intros [Hwd Hwr]. split; [done|]. intros x r0 Hx. rewrite E in Hx. destruct (bs_drvs w !! x) as [r|] eqn:Er; [|done]. injection Hx as <-. case_bool_decide; [by apply drv_ok_matches, Hwr|by apply Hwr].
Qed.
Lemma bound_upd v dev w x : is_Some (bs_devs w !! dev) -> bound_to (upd_dev (set_driver v) dev w) x = if bool_decide (x = dev) then v else bound_to w x.
Proof. clear. intros [d Hd]. unfold bound_to. cbn. case_bool_decide as E; [subst; by rewrite lookup_alter_eq, Hd|by rewrite lookup_alter_ne]. Qed.
Lemma upd_free dev w : bound_to w dev = 0 -> upd_dev (set_driver 0) dev w = w.
Proof.
  clear. intros Hb. destruct w as [D R B L]. unfold upd_dev, bput_devs. cbn. f_equal. apply alter_id. intros d Hd. unfold bound_to in Hb. cbn in Hb. rewrite Hd in Hb. cbn in Hb. destruct d; cbn in *. by subst.
Qed.
Lemma dbus_drv w drv b : dbus_of w drv = Some b -> exists r, bs_drvs w !! drv = Some r /\ dr_bus r = b.
Proof. clear. unfold dbus_of. destruct (bs_drvs w !! drv) as [r|]; [|done]. intros [= <-]. by exists r. Qed.
Lemma pair_step dev b drv w s : wf w -> bus_of w dev = Some b -> dbus_of w drv = Some b -> drv <> 0 ->
  exists v s', fwk_device_driver_match bus_at bind_pins unbind_pins dev b drv w s = Ok (v, (if fit w dev drv then upd_dev (set_driver drv) dev w else w), s') /\
    (v =? 0) || (v =? - ER_PERMIT) = fit w dev drv /\ (v =? - ER_NOTFOUND) = negb (fit w dev drv).
Proof using All.
  unfold bus_of, fit. intros Hw Hb (r & Hr & Hbus)%dbus_drv Hnz. destruct (bs_devs w !! dev) as [d|] eqn:Hd; [|done]. injection Hb as Hb. rewrite Hr. rewrite <- Hb in *. destruct (pair_spec dev d drv r w s Hw Hbus Hd Hr Hnz) as (v & s' & -> & Hv).
  exists v, s'. split; [done|]. destruct (fits dev d drv r); [|by subst]. split; [done|]. apply orb_true_iff in Hv as [->%Z.eqb_eq| ->%Z.eqb_eq]; done.
Qed.
Definition drivers_known (w : bsys) (b : Z) (l : list Z) : Prop := forall drv, drv ∈ l -> drv <> 0 /\ dbus_of w drv = Some b.

Lemma upd_bus_info f b w : same_info w (upd_bus f b w).
Proof. clear. by split. Qed.
Lemma first_fit_same w w' dev l : same_info w w' -> first_fit w' dev l = first_fit w dev l.
Proof. clear. intros Hs. induction l as [|drv l IH]; cbn; [done|]. rewrite (si_fit _ _ Hs), IH. done. Qed.
Lemma alter_insert_some {A} (f : A -> A) (m : gmap Z A) k x : m !! k = Some x -> alter f k m = <[k := f x]> m.
Proof. clear. intros Hk. apply map_eq. intros j. destruct (decide (j = k)) as [->|E]; [by rewrite lookup_alter_eq, Hk, lookup_insert_eq|by rewrite lookup_alter_ne, lookup_insert_ne]. Qed.

(** ** Adding a device *)
Lemma try_drivers_spec l dev b w s : wf w -> bus_of w dev = Some b -> bound_to w dev = 0 -> drivers_known w b l ->
  exists v s', try_drivers bus_at bind_pins unbind_pins l dev b w s = Ok (v, upd_dev (set_driver (first_fit w dev l)) dev w, s') /\ (v =? 0) || (v =? - ER_PERMIT) = true.
Proof using All.
  intros Hw Hb Hf Hl. revert s. induction l as [|drv l IH]; intros s; cbn [try_drivers first_fit]; [exists (- ER_PERMIT), s; by rewrite upd_free|].
  destruct (Hl drv ltac:(left)) as [Hnz Hr]. destruct (pair_step dev b drv w s Hw Hb Hr Hnz) as (v & s' & -> & Hv & _). cbn [mbind res_bind]. rewrite Hv. destruct (fit w dev drv); [by exists ER_NORMAL, s'|].
  apply IH. intros x Hx. apply Hl. by right.
Qed.
(** The name of a device is taken, or the device is there already. *)
Definition taken (w : bsys) (dev : Z) : Prop := exists x, x ∈ bs_leaf w /\ (x = dev \/ name_of w x = name_of w dev).
Lemma find_device_spec dev w l : (forall x, x ∈ l -> is_Some (name_of w x)) -> is_Some (name_of w dev) ->
  exists v, find_device l dev w = Ok v /\ (v =? 0 = true <-> exists x, x ∈ l /\ (x = dev \/ name_of w x = name_of w dev)).
Proof.
  clear. intros Hl [n Hn]. unfold name_of in *. destruct (bs_devs w !! dev) as [d|] eqn:Ed; [|done]. cbn in Hn. induction l as [|x l IH]; cbn [find_device].
  { exists (- ER_NOTFOUND). split; [done|]. split; [done|]. by intros (x & ?%not_elem_of_nil & _). }
  destruct (Z.eqb_spec x dev) as [->|Ex]; [exists ER_NORMAL; split; [done|]; split; [|done]; intros _; exists dev; split; [left|by left]|].
  destruct (Hl x ltac:(left)) as [nx Hx]. destruct (bs_devs w !! x) as [dx|] eqn:Edx; [|done]. cbn in Hx. cbn [deref mbind res_bind]. rewrite Hx. cbn [deref mbind res_bind]. rewrite Ed. cbn [deref mbind res_bind]. rewrite Hn. cbn [deref mbind res_bind].
  case_bool_decide as En. { exists ER_NORMAL. split; [done|]. split; [|done]. intros _. exists x. split; [left|]. right. rewrite Edx. cbn. congruence. }
  destruct IH as (v & -> & Hv); [intros y Hy; apply Hl; by right|]. exists v. split; [done|]. rewrite Hv. split; intros (y & Hy & Hc); exists y; [split; [by right|done]|].
  apply elem_of_cons in Hy as [->|Hy]; [|done]. destruct Hc as [?|Hc]; [done|]. rewrite Edx in Hc. cbn in Hc. congruence.
Qed.
Lemma find_spec dev w : bus_inv w -> is_Some (name_of w dev) -> exists v, fwk_device_find dev w = Ok v /\ (v =? 0 = true <-> taken w dev).
Proof. clear. intros I Hn. by apply find_device_spec; [apply I|]. Qed.
(** The device joins the lists, bound to [drv]. *)
Definition added (dev b drv : Z) (l : bus_lists) (w : bsys) : bsys :=
  BSys (alter (set_driver drv) dev (bs_devs w)) (bs_drvs w) (<[b := BusLists (bl_devices l ++ [dev]) (bl_drivers l)]> (bs_buses w)) (bs_leaf w ++ [dev]).
Lemma add_spec dev b l w s : bus_inv w -> is_Some (name_of w dev) -> bus_of w dev = Some b -> bs_buses w !! b = Some l -> ~ taken w dev ->
  exists s', fwk_device_add bus_at bind_pins unbind_pins dev w s = Ok (ER_NORMAL, added dev b (first_fit w dev (bl_drivers l)) l w, s').
Proof using All.
  intros I Hn Hb Hl Ht. destruct (find_spec dev w I Hn) as (v & Ev & Hv). destruct (bi_lists w I b l Hl) as (Hb0 & _). pose proof Hb as Hb'. unfold bus_of in Hb'. destruct (bs_devs w !! dev) as [d|] eqn:Ed; [|done]. injection Hb' as Eb.
  unfold fwk_device_add. rewrite Ed. cbn [deref mbind res_bind]. rewrite Ev, Eb. cbn [mbind res_bind]. destruct (v =? 0); [tauto|]. rewrite (proj2 (Z.eqb_neq b 0)) by done. rewrite Hl.
  set (w1 := upd_dev (set_driver 0) dev w). unfold fwk_device_to_bus, fwk_device_attach. set (w2 := upd_bus _ b w1).
  assert (bs_devs w2 !! dev = Some (set_driver 0 d)) as Ed2 by (cbn; by rewrite lookup_alter_eq, Ed). rewrite Ed2. cbn [deref mbind res_bind dv_driver set_driver Z.eqb negb].
  destruct (match_some (bus_at := bus_at) b) as [f ->]. cbn [bs_buses w2 upd_bus bput_buses w1 upd_dev bput_devs]. rewrite lookup_alter_eq, Hl. cbn [fmap option_fmap option_map deref mbind res_bind bl_drivers].
  assert (same_info w w2) as Hs by (transitivity w1; [apply set_driver_info|apply upd_bus_info]).
  destruct (try_drivers_spec (bl_drivers l) dev b w2 s) as (v2 & s' & -> & Hv2); [by apply (si_wf _ _ Hs), I|by rewrite (si_bus _ _ Hs)|unfold bound_to; by rewrite Ed2| |].
  { intros drv Hdrv. rewrite (si_dbus _ _ Hs). by apply (bi_drivers w I b l). }
  cbn [mbind res_bind]. rewrite Hv2. cbn [mbind res_bind negb Z.eqb ER_NORMAL]. exists s'. rewrite (first_fit_same w w2 dev _ Hs). do 3 f_equal. unfold added, w2, w1, upd_dev, bput_devs, upd_bus, bput_buses, bput_leaf. cbn [bs_devs bs_drvs bs_buses bs_leaf].
  f_equal; [|by apply (alter_insert_some (fun b0 => BusLists (bl_devices b0 ++ [dev]) (bl_drivers b0)))]. rewrite alter_alter_eq. by apply alter_ext.
Qed.
Lemma first_fit_in w dev l : first_fit w dev l <> 0 -> first_fit w dev l ∈ l /\ fit w dev (first_fit w dev l) = true.
Proof. clear. induction l as [|drv l IH]; cbn; [done|]. destruct (fit w dev drv) eqn:E; [intros _; split; [left|done]|]. intros H0. destruct (IH H0). split; [by right|done]. Qed.
Lemma first_fit_none w dev l drv : (forall x, x ∈ l -> x <> 0) -> first_fit w dev l = 0 -> drv ∈ l -> fit w dev drv = false.
Proof.
  clear. induction l as [|x l IH]; cbn; intros Hl E Hin; [by apply not_elem_of_nil in Hin|]. destruct (fit w dev x) eqn:Ex; [exfalso; apply (Hl x); [left|done]|].
  apply elem_of_cons in Hin as [->|Hin]; [done|]. apply IH; [|done..]. intros y Hy. apply Hl. by right.
Qed.
Lemma added_info dev b drv l w : same_info w (added dev b drv l w).
Proof using All. destruct (set_driver_info drv dev w). by split. Qed.
Lemma added_bound dev b drv l w x : is_Some (bs_devs w !! dev) -> bound_to (added dev b drv l w) x = if bool_decide (x = dev) then drv else bound_to w x.
Proof. apply bound_upd. Qed.
Lemma name_dev w dev : is_Some (name_of w dev) -> is_Some (bs_devs w !! dev).
Proof. clear. unfold name_of. destruct (bs_devs w !! dev); [done|]. by intros [? ?]. Qed.
Lemma add_inv dev b l w : bus_inv w -> is_Some (name_of w dev) -> bus_of w dev = Some b -> bs_buses w !! b = Some l -> ~ taken w dev ->
  let w' := added dev b (first_fit w dev (bl_drivers l)) l w in bus_inv w' /\ (all_bound w -> all_bound w').
Proof using All.
  intros I Hn Hb Hl Ht w'. pose proof (added_info dev b (first_fit w dev (bl_drivers l)) l w) as Hs. fold w' in Hs. pose proof (fun x => added_bound dev b (first_fit w dev (bl_drivers l)) l w x (name_dev w dev Hn)) as Hbd. fold w' in Hbd.
  assert (dev ∉ bs_leaf w) as Hnew by (intros Hin; apply Ht; exists dev; auto). destruct (bi_lists w I b l Hl) as (Hb0 & Hnd & Hndr).
  assert (forall c k, bs_buses w' !! c = Some k -> exists k0, bs_buses w !! c = Some k0 /\ bl_drivers k = bl_drivers k0 /\ forall x, x ∈ bl_devices k <-> x ∈ bl_devices k0 \/ c = b /\ x = dev) as Hk.
  { intros c k Hk. unfold w', added in Hk. cbn in Hk. destruct (decide (c = b)) as [->|Ec]; [rewrite lookup_insert_eq in Hk|rewrite lookup_insert_ne in Hk by done].
    - injection Hk as <-. exists l. split_and!; [done..|]. intros x. cbn. rewrite elem_of_app, list_elem_of_singleton. tauto.
    - exists k. split_and!; [done..|]. tauto. }
  assert (forall c k x, bs_buses w !! c = Some k -> x ∈ bl_devices k -> x <> dev) as Hold by (intros c k x Hc Hx ->; apply (bi_devices w I c k dev Hc) in Hx as [? _]; done).
  split; [split|].
  - apply (si_wf _ _ Hs), I.
  - cbn. apply NoDup_app. split_and!; [apply I| |apply NoDup_singleton]. intros x Hx ->%list_elem_of_singleton. done.
  - intros x Hx. rewrite (si_name _ _ Hs). cbn in Hx. apply elem_of_app in Hx as [Hx| ->%list_elem_of_singleton]; [by apply I|done].
  - intros x y Hx Hy. rewrite !(si_name _ _ Hs). cbn in Hx, Hy. apply elem_of_app in Hx as [Hx| ->%list_elem_of_singleton]; apply elem_of_app in Hy as [Hy| ->%list_elem_of_singleton]; try done; [by apply (bi_names w I)|intros E; exfalso; apply Ht; by exists x; auto|intros E; exfalso; apply Ht; exists y; auto].
  - intros c k Hc. pose proof Hc as Hc'. unfold w', added in Hc'. cbn in Hc'. destruct (decide (c = b)) as [->|Ec]; [rewrite lookup_insert_eq in Hc'; injection Hc' as <-|rewrite lookup_insert_ne in Hc' by done; by apply (bi_lists w I)].
    split_and!; [done| |done]. apply NoDup_app. split_and!; [done| |apply NoDup_singleton]. intros x Hx ->%list_elem_of_singleton. by apply (Hold b l dev).
  - intros c k x Hc. destruct (Hk c k Hc) as (k0 & Hk0 & _ & Hdev). rewrite Hdev, (si_bus _ _ Hs), (bi_devices w I c k0 x Hk0). cbn. rewrite elem_of_app, list_elem_of_singleton. split; [intros [?|[-> ->]]; tauto|].
    intros [[?| ->] Hx]; [tauto|]. right. split; [congruence|done].
  - intros c k x Hc Hx. destruct (Hk c k Hc) as (k0 & Hk0 & E & _). rewrite E in Hx. rewrite (si_dbus _ _ Hs). by apply (bi_drivers w I c k0).
  - intros c k x y Hc Hx Hy. destruct (Hk c k Hc) as (k0 & Hk0 & E & _). rewrite E in Hx, Hy. rewrite !(si_dname _ _ Hs). by apply (bi_drv_names w I c k0).
  - intros c k x Hc Hx. destruct (Hk c k Hc) as (k0 & Hk0 & E & Hdev). rewrite E, (si_fit _ _ Hs), Hbd. destruct (proj1 (Hdev x) Hx) as [Hx'|[Ec Ex]]; [|subst c x].
    + rewrite bool_decide_eq_false_2 by (by apply (Hold c k0)). by apply (bi_bound w I c k0).
    + rewrite bool_decide_eq_true_2 by done. rewrite Hk0 in Hl. injection Hl as ->. apply first_fit_in.
  - intros Hall c k x y Hc Hx Hfree Hy. destruct (Hk c k Hc) as (k0 & Hk0 & E & Hdev). rewrite E in Hy. rewrite (si_fit _ _ Hs). rewrite Hbd in Hfree. destruct (proj1 (Hdev x) Hx) as [Hx'|[Ec Ex]]; [|subst c x].
    + rewrite bool_decide_eq_false_2 in Hfree by (by apply (Hold c k0)). by apply (Hall c k0).
    + rewrite bool_decide_eq_true_2 in Hfree by done. rewrite Hk0 in Hl. injection Hl as ->. apply (first_fit_none w dev (bl_drivers l)); [|done..]. intros z Hz. by apply (bi_drivers w I b l).
Qed.

(** ** Registering a driver *)
Lemma filter_same (P Q : Z -> Prop) `{!forall x, Decision (P x)} `{!forall x, Decision (Q x)} (l : list Z) : (forall x, x ∈ l -> P x <-> Q x) -> filter P l = filter Q l.
Proof.
  clear. induction l as [|x l IH]; intros Hl; [done|]. rewrite !filter_cons. pose proof (Hl x ltac:(left)). rewrite IH by (intros y Hy; apply Hl; by right). do 2 case_decide; tauto.
Qed.
Lemma mem_cons (x y : Z) l : x <> y -> bool_decide (x ∈ y :: l) = bool_decide (x ∈ l).
Proof. clear. intros Hx. apply bool_decide_ext. rewrite elem_of_cons. naive_solver. Qed.
Definition takes (w : bsys) (drv : Z) (x : Z) : bool := (bound_to w x =? 0) && fit w x drv.
Lemma try_devices_spec b drv l : forall w s m v, wf w -> NoDup l -> (forall x, x ∈ l -> bus_of w x = Some b) -> drv <> 0 -> dbus_of w drv = Some b -> 0 <= m -> m + Z.of_nat (length l) < 2147483648 ->
  exists v' w' s', try_devices bus_at bind_pins unbind_pins l drv b m v w s = Ok (m + Z.of_nat (length (filter (fun x => takes w drv x = true) l)), v', w', s') /\ same_info w w' /\
    bs_drvs w' = bs_drvs w /\ bs_buses w' = bs_buses w /\ bs_leaf w' = bs_leaf w /\
    (forall x, bound_to w' x = if bool_decide (x ∈ l) && takes w drv x then drv else bound_to w x) /\
    (filter (fun x => takes w drv x = true) l = [] -> v' = v \/ v' = - ER_NOTFOUND).
Proof using All.
  induction l as [|dev l IH]; intros w s m v Hw Hnd Hb Hnz Hr Hm0 Hm; cbn [try_devices].
  { exists v, w, s. rewrite Z.add_0_r. split_and!; try done. by left. }
  apply NoDup_cons in Hnd as [Hni Hnd]. pose proof (Hb dev ltac:(left)) as Hbd. assert (is_Some (bs_devs w !! dev)) as [d Ed] by (unfold bus_of in Hbd; by destruct (bs_devs w !! dev)).
  rewrite Ed. cbn [deref mbind res_bind]. assert (bound_to w dev = dv_driver d) as Ebd by (unfold bound_to; by rewrite Ed). cbn [length] in Hm. rewrite filter_cons.
  destruct (Z.eqb_spec (dv_driver d) 0) as [Ez|Ez]; cbn [negb].
  2:{ assert (takes w drv dev = false) as Ht by (unfold takes; by rewrite Ebd, (proj2 (Z.eqb_neq _ _) Ez)). rewrite decide_False by (rewrite Ht; done).
      destruct (IH w s m v Hw Hnd) as (v' & w' & s' & -> & Hs & H1 & H2 & H3 & H4 & H5); try done; [intros x Hx; apply Hb; by right|lia|].
      exists v', w', s'. split_and!; try done. intros x. rewrite H4. destruct (decide (x = dev)) as [->|Ex]; [by rewrite Ht, !andb_false_r|]. by rewrite mem_cons. }
  assert (takes w drv dev = fit w dev drv) as Ht by (unfold takes; by rewrite Ebd, Ez). destruct (pair_step dev b drv w s Hw Hbd Hr Hnz) as (v1 & s1 & -> & Hv1 & Hv1'). cbn [mbind res_bind]. rewrite Hv1, Ht.
  destruct (fit w dev drv) eqn:Ef.
  - rewrite decide_True by done. set (w1 := upd_dev (set_driver drv) dev w). pose proof (set_driver_info drv dev w) as Hs1. fold w1 in Hs1.
    assert (forall x, x <> dev -> takes w1 drv x = takes w drv x) as Htx by (intros x Hx; unfold takes, w1; rewrite bound_upd, bool_decide_eq_false_2 by (done || by eauto); by rewrite (si_fit _ _ Hs1)).
    rewrite s32_id by lia. destruct (IH w1 s1 (m + 1) v1 (si_wf _ _ Hs1 Hw) Hnd) as (v' & w' & s' & E & Hs & H1 & H2 & H3 & H4 & H5); try done; [intros x Hx; rewrite (si_bus _ _ Hs1); apply Hb; by right|lia|lia|].
    assert (filter (fun x => takes w1 drv x = true) l = filter (fun x => takes w drv x = true) l) as Efl by (apply filter_same; intros x Hx; rewrite Htx; [done|]; intros ->; done).
    rewrite Efl in E, H5. exists v', w', s'. split_and!; try done.
    + rewrite E. do 4 f_equal. cbn [length]. lia.
    + by etransitivity.
    + intros x. rewrite H4. unfold w1 at 2. rewrite bound_upd by eauto. destruct (decide (x = dev)) as [->|Ex].
      * rewrite (bool_decide_eq_false_2 (dev ∈ l)) by done. cbn. rewrite !bool_decide_eq_true_2 by (done || left). by rewrite Ht.
      * rewrite (bool_decide_eq_false_2 (x = dev)), Htx by done. by rewrite mem_cons.
  - rewrite decide_False by done. destruct (IH w s1 m v1 Hw Hnd) as (v' & w' & s' & -> & Hs & H1 & H2 & H3 & H4 & H5); try done; [intros x Hx; apply Hb; by right|lia|].
    exists v', w', s'. split_and!; try done.
    + intros x. rewrite H4. destruct (decide (x = dev)) as [->|Ex]; [by rewrite Ht, !andb_false_r|]. by rewrite mem_cons.
    + intros E. right. apply Z.eqb_eq in Hv1'. destruct (H5 E) as [->|?]; done.
Qed.
(** The name of a driver is in use on its bus. *)
Definition drv_taken (w : bsys) (l : list Z) (drv : Z) : Prop := exists x, x ∈ l /\ dname_of w x = dname_of w drv.
Lemma find_driver_spec w drv r l : bs_drvs w !! drv = Some r -> (forall x, x ∈ l -> is_Some (bs_drvs w !! x)) ->
  exists v, find_driver l (dr_name r) w = Ok v /\ (v = 0 \/ v = - ER_ERROR) /\ (v = 0 <-> drv_taken w l drv).
Proof.
  clear. intros Hr Hl. induction l as [|x l IH]; cbn [find_driver].
  { exists (- ER_ERROR). split_and!; [done|by right|]. split; [done|]. by intros (x & ?%not_elem_of_nil & _). }
  destruct (Hl x ltac:(left)) as [rx Hx]. rewrite Hx. cbn [deref mbind res_bind]. case_bool_decide as En.
  { exists ER_NORMAL. split_and!; [done|by left|]. split; [|done]. intros _. exists x. split; [left|]. unfold dname_of. rewrite Hx, Hr. cbn. by f_equal. }
  destruct IH as (v & -> & Hv & Hi); [intros y Hy; apply Hl; by right|]. exists v. split_and!; [done..|]. rewrite Hi. split; intros (y & Hy & Hc); exists y; [split; [by right|done]|].
  apply elem_of_cons in Hy as [->|Hy]; [|done]. unfold dname_of in Hc. rewrite Hx, Hr in Hc. cbn in Hc. congruence.
Qed.
Lemma drivers_known_inv b l w : bus_inv w -> bs_buses w !! b = Some l -> forall drv, drv ∈ bl_drivers l -> is_Some (bs_drvs w !! drv).
Proof. clear. intros I Hl drv Hd. destruct (bi_drivers w I b l drv Hl Hd) as [_ (r & Hr & _)%dbus_drv]. by eauto. Qed.
Lemma register_spec drv b l w s : bus_inv w -> drv <> 0 -> dbus_of w drv = Some b -> bs_buses w !! b = Some l -> ~ drv_taken w (bl_drivers l) drv -> Z.of_nat (length (bl_devices l)) < 2147483648 ->
  exists w' s', fwk_driver_register bus_at bind_pins unbind_pins drv w s = Ok (Z.of_nat (length (filter (fun x => takes w drv x = true) (bl_devices l))), w', s') /\ same_info w w' /\
    bs_leaf w' = bs_leaf w /\ bs_buses w' = <[b := BusLists (bl_devices l) (bl_drivers l ++ [drv])]> (bs_buses w) /\
    (forall x, bound_to w' x = if bool_decide (x ∈ bl_devices l) && takes w drv x then drv else bound_to w x).
Proof using All.
  intros I Hnz Hb Hl Ht Hlen. destruct (bi_lists w I b l Hl) as (Hb0 & Hnd & _). pose proof Hb as Hb'. unfold dbus_of in Hb'. destruct (bs_drvs w !! drv) as [r|] eqn:Er; [|done]. injection Hb' as Eb.
  unfold fwk_driver_register. rewrite Er. cbn [deref mbind res_bind]. rewrite Eb, (proj2 (Z.eqb_neq b 0)), Hl by done. unfold fwk_driver_find. rewrite Hl. cbn [deref mbind res_bind]. rewrite Er. cbn [deref mbind res_bind].
  destruct (find_driver_spec w drv r (bl_drivers l) Er (drivers_known_inv b l w I Hl)) as (v & -> & Hv & Hi). cbn [mbind res_bind]. destruct (Z.eqb_spec v 0) as [E|_]; [tauto|].
  unfold fwk_driver_to_bus, fwk_driver_attach. destruct (match_some (bus_at := bus_at) b) as [f ->]. set (w1 := upd_drv (set_matches 0) drv w). set (w2 := upd_bus _ b w1).
  assert (same_info w w2) as Hs2 by (transitivity w1; [apply set_matches_info|apply upd_bus_info]). assert (forall x, bound_to w2 x = bound_to w x) as Hbd2 by done.
  assert (bs_buses w2 = <[b := BusLists (bl_devices l) (bl_drivers l ++ [drv])]> (bs_buses w)) as Eb2 by (by apply (alter_insert_some (fun b0 => BusLists (bl_devices b0) (bl_drivers b0 ++ [drv])))).
  rewrite Eb2, lookup_insert_eq. cbn [deref mbind res_bind bl_devices].
  destruct (try_devices_spec b drv (bl_devices l) w2 s 0 0) as (v' & w3 & s3 & -> & Hs3 & H1 & H2 & H3 & H4 & H5); [by apply (si_wf _ _ Hs2), I|done| |done|by rewrite (si_dbus _ _ Hs2)|lia|lia|].
  { intros x Hx. rewrite (si_bus _ _ Hs2). by apply (bi_devices w I b l). }
  assert (forall x, takes w2 drv x = takes w drv x) as Htk by (intros x; unfold takes; by rewrite (si_fit _ _ Hs2), Hbd2).
  rewrite (filter_same _ (fun x => takes w drv x = true)) in H5 |- * by (intros x _; by rewrite Htk). set (k := filter _ _) in *. cbn [mbind res_bind].
  assert (bs_drvs w3 !! drv = Some (set_matches 0 r)) as Er3 by (rewrite H1; cbn; by rewrite lookup_alter_eq, Er). rewrite Er3. cbn [deref mbind res_bind].
  eexists _, s3. split; [|split_and!].
  - do 3 f_equal. destruct (Z.eqb_spec (0 + Z.of_nat (length k)) 0) as [E0|E0]; cbn [negb]; [|by rewrite orb_true_r]. rewrite orb_false_r. destruct (H5 ltac:(destruct k; [done|simpl in E0; lia])) as [-> | ->]; [change (0 =? - ER_NOTFOUND) with false|change (- ER_NOTFOUND =? - ER_NOTFOUND) with true]; lia.
  - etransitivity; [exact Hs2|]. etransitivity; [exact Hs3|apply set_matches_info].
  - done.
  - cbn. by rewrite H2.
  - intros x. cbn. unfold bound_to at 1. cbn. change (from_option dv_driver 0 (bs_devs w3 !! x)) with (bound_to w3 x). by rewrite H4, Htk, Hbd2.
Qed.
(** Steps that keep the devices of all buses: what is left to show concerns drivers. *)
Definition same_devices (w w' : bsys) : Prop :=
  bs_leaf w' = bs_leaf w /\ forall c k, bs_buses w' !! c = Some k -> exists k0, bs_buses w !! c = Some k0 /\ bl_devices k = bl_devices k0.
Lemma inv_drivers w w' : bus_inv w -> same_info w w' -> same_devices w w' ->
  (forall c k, bs_buses w' !! c = Some k -> NoDup (bl_drivers k) /\ (forall drv, drv ∈ bl_drivers k -> drv <> 0 /\ dbus_of w drv = Some c) /\
    (forall x y, x ∈ bl_drivers k -> y ∈ bl_drivers k -> dname_of w x = dname_of w y -> x = y) /\
    forall x, x ∈ bl_devices k -> bound_to w' x <> 0 -> bound_to w' x ∈ bl_drivers k /\ fit w x (bound_to w' x) = true) -> bus_inv w'.
Proof.
  clear. intros I Hs [El Hk] Hd. split.
  - apply (si_wf _ _ Hs), I.
  - rewrite El. apply I.
  - intros x. rewrite El, (si_name _ _ Hs). apply I.
  - intros x y. rewrite El, !(si_name _ _ Hs). apply I.
  - intros c k Hc. destruct (Hk c k Hc) as (k0 & Hk0 & ->). destruct (bi_lists w I c k0 Hk0) as (? & ? & _). split_and!; [done..|]. by eapply Hd.
  - intros c k x Hc. destruct (Hk c k Hc) as (k0 & Hk0 & ->). rewrite El, (si_bus _ _ Hs). by apply (bi_devices w I).
  - intros c k x Hc Hx. rewrite (si_dbus _ _ Hs). by apply (Hd c k Hc).
  - intros c k x y Hc. rewrite !(si_dname _ _ Hs). by apply (Hd c k Hc).
  - intros c k x Hc. rewrite (si_fit _ _ Hs). by apply (Hd c k Hc).
Qed.
Lemma other_bus {w b k c l} : bs_buses w !! b = Some l -> forall w', bs_buses w' = <[b := k]> (bs_buses w) -> forall k', bs_buses w' !! c = Some k' -> (c = b /\ k' = k) \/ (c <> b /\ bs_buses w !! c = Some k').
Proof. clear. intros Hl w' E k' Hc. rewrite E in Hc. destruct (decide (c = b)) as [->|Ec]; [rewrite lookup_insert_eq in Hc; left; split; congruence|rewrite lookup_insert_ne in Hc by done; by right]. Qed.
Lemma register_inv drv b l w w' : bus_inv w -> drv <> 0 -> dbus_of w drv = Some b -> bs_buses w !! b = Some l -> ~ drv_taken w (bl_drivers l) drv -> same_info w w' ->
  bs_leaf w' = bs_leaf w -> bs_buses w' = <[b := BusLists (bl_devices l) (bl_drivers l ++ [drv])]> (bs_buses w) ->
  (forall x, bound_to w' x = if bool_decide (x ∈ bl_devices l) && takes w drv x then drv else bound_to w x) -> bus_inv w' /\ (all_bound w -> all_bound w').
Proof.
  clear. intros I Hnz Hb Hl Ht Hs El Eb Hbd. pose proof (fun c k => @other_bus w b (BusLists (bl_devices l) (bl_drivers l ++ [drv])) c l Hl w' Eb k) as Hcase.
  assert (forall c k x, c <> b -> bs_buses w !! c = Some k -> x ∈ bl_devices k -> bound_to w' x = bound_to w x) as Hother.
  { intros c k x Hc Hk Hx. rewrite Hbd, bool_decide_eq_false_2; [done|]. intros Hx'. apply (bi_devices w I c k x Hk) in Hx as [_ E1]. apply (bi_devices w I b l x Hl) in Hx' as [_ E2]. congruence. }
  split.
  - apply (inv_drivers w w' I Hs).
    + split; [done|]. intros c k Hc. destruct (Hcase c k Hc) as [[-> ->]|[_ Hk]]; [by exists l|by exists k].
    + intros c k Hc. destruct (Hcase c k Hc) as [[-> ->]|[Ecb Hk]]; cbn [bl_drivers bl_devices].
      * destruct (bi_lists w I b l Hl) as (_ & _ & Hnd). split_and!.
        -- apply NoDup_app. split_and!; [done| |apply NoDup_singleton]. intros x Hx ->%list_elem_of_singleton. apply Ht. by exists drv.
        -- intros x [Hx| ->%list_elem_of_singleton]%elem_of_app; [by apply (bi_drivers w I b l)|done].
        -- intros x y [Hx| ->%list_elem_of_singleton]%elem_of_app [Hy| ->%list_elem_of_singleton]%elem_of_app E; [by apply (bi_drv_names w I b l)|exfalso; apply Ht; by exists x|exfalso; apply Ht; by exists y|done].
        -- intros x Hx. rewrite Hbd, (bool_decide_eq_true_2 _ Hx). cbn [andb]. unfold takes. destruct (bound_to w x =? 0) eqn:Ez; cbn [andb]; [destruct (fit w x drv) eqn:Ef|].
           ++ intros _. split; [apply elem_of_app; right; by left|done].
           ++ apply Z.eqb_eq in Ez. by rewrite Ez.
           ++ intros Hx0. destruct (bi_bound w I b l x Hl Hx Hx0). split; [apply elem_of_app; by left|done].
      * destruct (bi_lists w I c k Hk) as (_ & _ & Hnd). split_and!; [done|by intros; apply (bi_drivers w I c k)|by intros; apply (bi_drv_names w I c k)|]. intros x Hx. rewrite (Hother c k x Ecb Hk Hx). by apply (bi_bound w I c k).
  - intros Hall c k x y Hc Hx Hfree Hy. rewrite (si_fit _ _ Hs). destruct (Hcase c k Hc) as [[-> ->]|[Ecb Hk]]; [|rewrite (Hother c k x Ecb Hk Hx) in Hfree; by apply (Hall c k)].
    cbn [bl_drivers bl_devices] in *. rewrite Hbd, (bool_decide_eq_true_2 _ Hx) in Hfree. cbn [andb] in Hfree. unfold takes in Hfree. destruct (Z.eqb_spec (bound_to w x) 0) as [Ez|Ez]; [|done]. cbn [andb] in Hfree.
    destruct (fit w x drv) eqn:Ef; [done|]. apply elem_of_app in Hy as [Hy| ->%list_elem_of_singleton]; [by apply (Hall b l)|done].
Qed.

(** ** Taking a driver out *)
Definition parted (k dev drv : Z) (w : bsys) : bsys := upd_drv (set_matches k) drv (upd_dev (set_driver 0) dev w).
Lemma parted_info k dev drv w : same_info w (parted k dev drv w).
Proof using All. etransitivity; [apply set_driver_info|apply set_matches_info]. Qed.
Lemma parted_bound k dev drv w x : is_Some (bs_devs w !! dev) -> bound_to (parted k dev drv w) x = if bool_decide (x = dev) then 0 else bound_to w x.
Proof. apply bound_upd. Qed.
Lemma stop_spec dev w s : is_Some (bs_devs w !! dev) -> exists v s', fwk_device_driver_remove bus_at dev w s = Ok (v, s').
Proof using All.
  intros [d Hd]. unfold fwk_device_driver_remove. rewrite Hd. cbn [deref mbind res_bind]. destruct (bt_remove (bus_at (dv_bus d))) as [f|] eqn:Ef; [|by eauto]. destruct (remove_law dev d f w s Hd Ef) as (v & s' & ->). by eauto.
Qed.
Lemma bound_dev w dev d : bs_devs w !! dev = Some d -> bound_to w dev = dv_driver d.
Proof. clear. unfold bound_to. by intros ->. Qed.
Lemma part_devices_spec drv l : forall w s, drv <> 0 -> NoDup l -> (forall x, x ∈ l -> is_Some (bs_devs w !! x)) -> is_Some (bs_drvs w !! drv) ->
  exists w' s', part_devices bus_at l drv w s = Ok (w', s') /\ same_info w w' /\ bs_buses w' = bs_buses w /\ bs_leaf w' = bs_leaf w /\
    (forall x, bound_to w' x = if bool_decide (x ∈ l) && (bound_to w x =? drv) then 0 else bound_to w x).
Proof using All.
  induction l as [|dev l IH]; intros w s Hnz Hnd Hl [r Hr]; cbn [part_devices]; [exists w, s; by split_and!|]. apply NoDup_cons in Hnd as [Hni Hnd]. destruct (Hl dev ltac:(left)) as [d Hd]. rewrite Hd. cbn [deref mbind res_bind].
  pose proof (bound_dev w dev d Hd) as Ebd. destruct (Z.eqb_spec (dv_driver d) drv) as [Ed|Ed]; cbn [negb].
  - destruct (stop_spec dev w s ltac:(eauto)) as (v & s1 & ->). cbn [mbind res_bind]. rewrite Hr. cbn [deref mbind res_bind]. fold (parted (s32 (dr_matches r - 1)) dev drv w). set (w1 := parted _ dev drv w).
    assert (forall x, bound_to w1 x = if bool_decide (x = dev) then 0 else bound_to w x) as Hb1 by (intros x; apply parted_bound; eauto).
    destruct (IH w1 s1 Hnz Hnd) as (w' & s' & -> & Hs & H1 & H2 & H3).
    { intros x Hx. cbn. destruct (decide (x = dev)) as [->|Ex]; [done|]. rewrite lookup_alter_ne by done. apply Hl. by right. }
    { cbn. rewrite lookup_alter_eq, Hr. by eauto. }
    exists w', s'. split_and!; try done; [etransitivity; [apply parted_info|exact Hs]|]. intros x. rewrite H3, Hb1. destruct (decide (x = dev)) as [->|Ex].
    + rewrite (bool_decide_eq_false_2 (dev ∈ l)) by done. cbn [andb]. rewrite !bool_decide_eq_true_2 by (done || left). cbn [andb]. by rewrite Ebd, Ed, Z.eqb_refl.
    + by rewrite (bool_decide_eq_false_2 (x = dev)), mem_cons by done.
  - destruct (IH w s Hnz Hnd) as (w' & s' & -> & Hs & H1 & H2 & H3); [intros x Hx; apply Hl; by right|by eauto|]. exists w', s'. split_and!; try done. intros x. rewrite H3. destruct (decide (x = dev)) as [->|Ex]; [|by rewrite mem_cons].
    by rewrite Ebd, (proj2 (Z.eqb_neq _ _) Ed), !andb_false_r.
Qed.
Lemma unregister_spec drv b l w s : bus_inv w -> bs_buses w !! b = Some l -> drv ∈ bl_drivers l ->
  exists w' s', fwk_driver_unregister bus_at drv w s = Ok (ER_NORMAL, w', s') /\ same_info w w' /\
    bs_leaf w' = bs_leaf w /\ bs_buses w' = <[b := BusLists (bl_devices l) (filter (fun x => x <> drv) (bl_drivers l))]> (bs_buses w) /\
    (forall x, bound_to w' x = if bool_decide (x ∈ bl_devices l) && (bound_to w x =? drv) then 0 else bound_to w x).
Proof using All.
  intros I Hl Hin. destruct (bi_lists w I b l Hl) as (Hb0 & Hnd & _). destruct (bi_drivers w I b l drv Hl Hin) as [Hnz Hb]. unfold dbus_of in Hb. destruct (bs_drvs w !! drv) as [r|] eqn:Er; [|done]. injection Hb as Eb.
  unfold fwk_driver_unregister. rewrite Er. cbn [deref mbind res_bind]. rewrite Eb, (proj2 (Z.eqb_neq b 0)), Hl by done. unfold fwk_driver_find. rewrite Hl. cbn [deref mbind res_bind]. rewrite Er. cbn [deref mbind res_bind].
  destruct (find_driver_spec w drv r (bl_drivers l) Er (drivers_known_inv b l w I Hl)) as (v & -> & _ & Hi). cbn [mbind res_bind]. rewrite (proj2 Hi) by (by exists drv). cbn [Z.ltb Z.compare].
  unfold fwk_bus_del_driver, fwk_driver_detach. rewrite Hl. cbn [deref mbind res_bind].
  destruct (part_devices_spec drv (bl_devices l) w s Hnz Hnd) as (w1 & s1 & -> & Hs & H1 & H2 & H3); [|by eauto|].
  { intros x Hx. apply (bi_devices w I b l x Hl) in Hx as [_ Hx]. unfold bus_of in Hx. by destruct (bs_devs w !! x). }
  cbn [mbind res_bind]. eexists _, s1. split; [done|]. split_and!; [etransitivity; [exact Hs|apply upd_bus_info]|done| |exact H3].
  cbn. rewrite H1. by apply (alter_insert_some (fun b0 => BusLists (bl_devices b0) (filter (fun x => x <> drv) (bl_drivers b0)))).
Qed.
Lemma unregister_inv drv b l w w' : bus_inv w -> bs_buses w !! b = Some l -> drv ∈ bl_drivers l -> same_info w w' ->
  bs_leaf w' = bs_leaf w -> bs_buses w' = <[b := BusLists (bl_devices l) (filter (fun x => x <> drv) (bl_drivers l))]> (bs_buses w) ->
  (forall x, bound_to w' x = if bool_decide (x ∈ bl_devices l) && (bound_to w x =? drv) then 0 else bound_to w x) -> bus_inv w'.
Proof.
  clear. intros I Hl Hin Hs El Eb Hbd. pose proof (fun c k => @other_bus w b (BusLists (bl_devices l) (filter (fun x => x <> drv) (bl_drivers l))) c l Hl w' Eb k) as Hcase.
  apply (inv_drivers w w' I Hs).
  - split; [done|]. intros c k Hc. destruct (Hcase c k Hc) as [[-> ->]|[_ Hk]]; [by exists l|by exists k].
  - intros c k Hc. destruct (Hcase c k Hc) as [[-> ->]|[Ecb Hk]]; cbn [bl_drivers bl_devices].
    + destruct (bi_lists w I b l Hl) as (_ & _ & Hnd). split_and!; [by apply NoDup_filter|intros x [_ Hx]%list_elem_of_filter; by apply (bi_drivers w I b l)|intros x y [_ Hx]%list_elem_of_filter [_ Hy]%list_elem_of_filter; by apply (bi_drv_names w I b l)|].
      intros x Hx. rewrite Hbd, (bool_decide_eq_true_2 _ Hx). cbn [andb]. destruct (Z.eqb_spec (bound_to w x) drv) as [E|E]; [done|]. intros Hx0. destruct (bi_bound w I b l x Hl Hx Hx0). split; [by apply list_elem_of_filter|done].
    + destruct (bi_lists w I c k Hk) as (_ & _ & Hnd). split_and!; [done|by intros; apply (bi_drivers w I c k)|by intros; apply (bi_drv_names w I c k)|]. intros x Hx. rewrite Hbd.
      destruct (bool_decide (x ∈ bl_devices l) && (bound_to w x =? drv)); [done|]. by apply (bi_bound w I c k).
Qed.

(** ** Taking a device out *)
Lemma filter_absent (dev : Z) (l : list Z) : dev ∉ l -> filter (fun x => x <> dev) l = l.
Proof. clear. induction l as [|x l IH]; [done|]. intros [Hx Hl]%not_elem_of_cons. rewrite filter_cons_True by done. by rewrite IH. Qed.
(** [dev] is gone; everything said of others is still so. *)
Record removed (dev : Z) (w w' : bsys) : Prop := {
  rm_leaf : bs_leaf w' = filter (fun x => x <> dev) (bs_leaf w);
  rm_buses c k : bs_buses w' !! c = Some k -> exists k0, bs_buses w !! c = Some k0 /\ bl_drivers k = bl_drivers k0 /\ bl_devices k = filter (fun x => x <> dev) (bl_devices k0);
  rm_wf : wf w -> wf w';
  rm_drv x : dname_of w' x = dname_of w x /\ dbus_of w' x = dbus_of w x;
  rm_dev x : x <> dev -> name_of w' x = name_of w x /\ bus_of w' x = bus_of w x /\ bound_to w' x = bound_to w x /\ forall y, fit w' x y = fit w x y;
}.
Lemma drop_views dev w x : x <> dev -> bs_devs (drop_device dev w) !! x = bs_devs w !! x.
Proof. clear. intros Hx. cbn. by rewrite lookup_alter_ne. Qed.
Lemma removed_inv dev w w' : bus_inv w -> removed dev w w' -> bus_inv w' /\ (all_bound w -> all_bound w').
Proof.
  clear. intros I [El Hk Hwf Hdr Hdv]. assert (forall x, x ∈ bs_leaf w' -> x <> dev /\ x ∈ bs_leaf w) as Hleaf by (intros x; rewrite El; by intros []%list_elem_of_filter). split; [split|].
  - apply Hwf, I.
  - rewrite El. apply NoDup_filter, I.
  - intros x [Hx Hin]%Hleaf. rewrite (proj1 (Hdv x Hx)). by apply I.
  - intros x y [Hx Hxin]%Hleaf [Hy Hyin]%Hleaf. rewrite (proj1 (Hdv x Hx)), (proj1 (Hdv y Hy)). by apply I.
  - intros c k Hc. destruct (Hk c k Hc) as (k0 & Hk0 & -> & ->). destruct (bi_lists w I c k0 Hk0) as (? & ? & ?). split_and!; [done|by apply NoDup_filter|done].
  - intros c k x Hc. destruct (Hk c k Hc) as (k0 & Hk0 & _ & ->). rewrite El, !list_elem_of_filter, (bi_devices w I c k0 x Hk0). split; intros; [destruct (Hdv x) as (_ & -> & _); tauto|]. destruct (Hdv x) as (_ & E & _); [tauto|]. rewrite E in *. tauto.
  - intros c k x Hc. destruct (Hk c k Hc) as (k0 & Hk0 & -> & _). rewrite (proj2 (Hdr x)). by apply (bi_drivers w I).
  - intros c k x y Hc. destruct (Hk c k Hc) as (k0 & Hk0 & -> & _). rewrite (proj1 (Hdr x)), (proj1 (Hdr y)). by apply (bi_drv_names w I c k0).
  - intros c k x Hc. destruct (Hk c k Hc) as (k0 & Hk0 & -> & ->). intros [Hx Hin]%list_elem_of_filter. destruct (Hdv x Hx) as (_ & _ & -> & Ef). rewrite Ef. by apply (bi_bound w I c k0).
  - intros Hall c k x y Hc. destruct (Hk c k Hc) as (k0 & Hk0 & -> & ->). intros [Hx Hin]%list_elem_of_filter. destruct (Hdv x Hx) as (_ & _ & -> & Ef). rewrite Ef. by apply (Hall c k0).
Qed.
Lemma detach_device_spec dev w s : is_Some (bs_devs w !! dev) -> (bound_to w dev <> 0 -> is_Some (bs_drvs w !! bound_to w dev)) ->
  exists w' s', fwk_device_detach bus_at dev w s = Ok (ER_NORMAL, w', s') /\ same_info w w' /\ bs_buses w' = bs_buses w /\ bs_leaf w' = bs_leaf w /\ (forall x, x <> dev -> bound_to w' x = bound_to w x).
Proof using All.
  intros [d Hd] Hr. unfold fwk_device_detach. rewrite Hd. cbn [deref mbind res_bind]. pose proof (bound_dev w dev d Hd) as Eb. rewrite Eb in Hr. destruct (Z.eqb_spec (dv_driver d) 0) as [E|E]; [exists w, s; by split_and!|].
  destruct (stop_spec dev w s ltac:(eauto)) as (v & s1 & ->). cbn [mbind res_bind]. destruct (Hr E) as [r Er]. rewrite Er. cbn [deref mbind res_bind].
  eexists _, s1. split; [done|]. split_and!; [apply (parted_info (s32 (dr_matches r - 1)) dev (dv_driver d) w)|done|done|]. intros x Hx. etransitivity; [apply (parted_bound (s32 (dr_matches r - 1)) dev (dv_driver d) w x); eauto|]. by rewrite bool_decide_eq_false_2.
Qed.
Lemma drop_removed dev w w1 w2 : same_info w w1 -> bs_leaf w1 = bs_leaf w -> (forall x, x <> dev -> bound_to w1 x = bound_to w x) -> bs_devs w2 = bs_devs w1 -> bs_drvs w2 = bs_drvs w1 -> bs_leaf w2 = bs_leaf w1 ->
  (forall c k, bs_buses w2 !! c = Some k -> exists k0, bs_buses w !! c = Some k0 /\ bl_drivers k = bl_drivers k0 /\ bl_devices k = filter (fun x => x <> dev) (bl_devices k0)) -> removed dev w (drop_device dev w2).
Proof.
  intros Hs El Hb E1 E2 E3 Hk. assert (forall x, x <> dev -> bs_devs (drop_device dev w2) !! x = bs_devs w1 !! x) as Hx by (intros x Hx; by rewrite drop_views, E1). split.
  - cbn. by rewrite E3, El.
  - done.
  - intros Hw. destruct (si_wf _ _ Hs Hw) as [Hwd Hwr]. split; [|intros x r; cbn; rewrite E2; apply Hwr]. intros x d. destruct (decide (x = dev)) as [->|Hne]; [|rewrite (Hx x Hne); apply Hwd]. cbn. rewrite lookup_alter_eq, E1.
    destruct (bs_devs w1 !! dev) as [d1|] eqn:Ed; [|done]. intros [= <-]. by apply dev_ok_name, Hwd.
  - intros x. rewrite <- (si_dname _ _ Hs), <- (si_dbus _ _ Hs). unfold dname_of, dbus_of. cbn. by rewrite E2.
  - intros x Hne. rewrite <- (si_name _ _ Hs), <- (si_bus _ _ Hs), <- (Hb x Hne). unfold name_of, bus_of, bound_to. rewrite (Hx x Hne). split_and!; [done..|]. intros y. rewrite <- (si_fit _ _ Hs). unfold fit. rewrite (Hx x Hne). cbn. by rewrite E2.
Qed.
Lemma delete_spec dev b w s : bus_inv w -> dev ∈ bs_leaf w -> bus_of w dev = Some b -> b = 0 \/ is_Some (bs_buses w !! b) ->
  exists w' s', fwk_device_del bus_at dev w s = Ok (ER_NORMAL, w', s') /\ removed dev w w'.
Proof using All.
  intros I Hin Hb Hbus. destruct (find_spec dev w I (bi_named w I dev Hin)) as (v & Ev & Hv). pose proof Hb as Hb'. unfold bus_of in Hb'. destruct (bs_devs w !! dev) as [d|] eqn:Ed; [|done]. injection Hb' as Eb.
  unfold fwk_device_del. rewrite Ed. cbn [deref mbind res_bind]. rewrite Ev, Eb. cbn [mbind res_bind]. rewrite (proj2 Hv) by (exists dev; by auto). cbn [negb].
  assert (forall c k, bs_buses w !! c = Some k -> c <> b -> dev ∉ bl_devices k) as Hnot by (intros c k Hc Hcb [_ E]%(bi_devices w I c k dev Hc); congruence).
  destruct (Z.eqb_spec b 0) as [E0|E0].
  - eexists _, s. split; [done|]. apply (drop_removed dev w w w); try done. intros c k Hc. exists k. split_and!; [done..|]. symmetry. apply filter_absent, (Hnot c k Hc). destruct (bi_lists w I c k Hc). congruence.
  - destruct Hbus as [?|[l Hl]]; [done|]. rewrite Hl. unfold fwk_bus_del_device. pose proof (proj2 (bi_devices w I b l dev Hl) (conj Hin Hb)) as Hdev.
    destruct (detach_device_spec dev w s) as (w1 & s1 & -> & Hs & H1 & H2 & H3); [by eauto| |]. { intros Hnz. apply (drivers_known_inv b l w I Hl). by apply (bi_bound w I b l). }
    cbn [mbind res_bind negb Z.eqb ER_NORMAL]. eexists _, s1. split; [done|]. apply (drop_removed dev w w1); try done. intros c k. cbn. rewrite H1. destruct (decide (c = b)) as [->|Ec].
    + rewrite lookup_alter_eq, Hl. intros [= <-]. by exists l.
    + rewrite lookup_alter_ne by done. intros Hc. exists k. split_and!; [done..|]. symmetry. by apply filter_absent, (Hnot c k).
Qed.

(** ** Histories *)
Inductive bus_op := AddDevice (dev : Z) | DelDevice (dev : Z) | AddDriver (drv : Z) | DelDriver (drv : Z).
Definition run_op (op : bus_op) (w : bsys) (s : S) : res (Z * bsys * S) :=
  match op with
  | AddDevice dev => fwk_device_add bus_at bind_pins unbind_pins dev w s
  | DelDevice dev => fwk_device_del bus_at dev w s
  | AddDriver drv => fwk_driver_register bus_at bind_pins unbind_pins drv w s
  | DelDriver drv => fwk_driver_unregister bus_at drv w s
  end.
Fixpoint run_ops (ops : list bus_op) (w : bsys) (s : S) : res (list Z * bsys * S) :=
  match ops with
  | [] => Ok ([], w, s)
  | op :: ops => '(v, w, s) ← run_op op w s; '(vs, w, s) ← run_ops ops w s; Ok (v :: vs, w, s)
  end.
(** Devices have names; who is taken out is in, or shares its name with nobody who
    is. *)
Definition legal (op : bus_op) (w : bsys) : Prop :=
  match op with
  | AddDevice dev => is_Some (name_of w dev)
  | DelDevice dev => is_Some (name_of w dev) /\ (dev ∈ bs_leaf w \/ ~ taken w dev)
  | AddDriver drv => drv <> 0 /\ is_Some (bs_drvs w !! drv) /\ forall b l, bs_buses w !! b = Some l -> Z.of_nat (length (bl_devices l)) < 2147483648
  | DelDriver drv => is_Some (bs_drvs w !! drv) /\ forall b l, dbus_of w drv = Some b -> bs_buses w !! b = Some l -> drv ∈ bl_drivers l \/ ~ drv_taken w (bl_drivers l) drv
  end.
Fixpoint legal_history (ops : list bus_op) (w : bsys) (s : S) : Prop :=
  match ops with
  | [] => True
  | op :: ops => legal op w /\ forall v w' s', run_op op w s = Ok (v, w', s') -> legal_history ops w' s'
  end.
Definition keeps_drivers (op : bus_op) : Prop := match op with DelDriver _ => False | _ => True end.

Lemma leaf_inv dev w : bus_inv w -> is_Some (name_of w dev) -> bus_of w dev = Some 0 -> ~ taken w dev -> bus_inv (bput_leaf (bs_leaf w ++ [dev]) w).
Proof.
  clear. intros I Hn Hb Ht. assert (dev ∉ bs_leaf w) as Hnew by (intros Hin; apply Ht; exists dev; auto). split; cbn; try apply I.
  - apply NoDup_app. split_and!; [apply I| |apply NoDup_singleton]. by intros x Hx ->%list_elem_of_singleton.
  - intros x [Hx| ->%list_elem_of_singleton]%elem_of_app; [by apply I|done].
  - intros x y [Hx| ->%list_elem_of_singleton]%elem_of_app [Hy| ->%list_elem_of_singleton]%elem_of_app E; [by apply I|exfalso; apply Ht; exists x; auto|exfalso; apply Ht; exists y; auto|done].
  - intros c k x Hc. rewrite (bi_devices w I c k x Hc), elem_of_app, list_elem_of_singleton. split; [tauto|]. intros [[?| ->] E]; [done|]. exfalso. apply (bi_lists w I c k Hc). change (bus_of w dev = Some c) in E. congruence.
Qed.
(** What each step is shown to do. *)
Definition good_step (op : bus_op) (w : bsys) (s : S) : Prop :=
  exists v w' s', run_op op w s = Ok (v, w', s') /\ bus_inv w' /\ (keeps_drivers op -> all_bound w -> all_bound w').
Lemma add_step dev w s : bus_inv w -> legal (AddDevice dev) w -> good_step (AddDevice dev) w s.
Proof using All.
  intros I Hn. destruct (find_spec dev w I Hn) as (v & Ev & Hv). destruct (name_dev w dev Hn) as [d Ed]. assert (bus_of w dev = Some (dv_bus d)) as Hb by (unfold bus_of; by rewrite Ed).
  destruct (v =? 0) eqn:E0; [exists (- ER_EXISTED), w, s; split; [|done]; cbn; unfold fwk_device_add; rewrite Ed; cbn [deref mbind res_bind]; rewrite Ev; cbn [mbind res_bind]; by rewrite E0|].
  assert (~ taken w dev) as Ht by (intros Ht; apply Hv in Ht; congruence). destruct (Z.eq_dec (dv_bus d) 0) as [Z0|Z0]; [|destruct (bs_buses w !! dv_bus d) as [l|] eqn:El].
  - exists ER_NORMAL, (bput_leaf (bs_leaf w ++ [dev]) w), s. split; [|split; [apply leaf_inv; try done; congruence|done]]. cbn. unfold fwk_device_add. rewrite Ed. cbn [deref mbind res_bind]. rewrite Ev. cbn [mbind res_bind]. by rewrite E0, Z0.
  - destruct (add_spec dev (dv_bus d) l w s I Hn Hb El Ht) as (s' & E). eexists _, _, s'. split; [exact E|]. destruct (add_inv dev (dv_bus d) l w I Hn Hb El Ht). by split.
  - exists (- ER_ERROR), w, s. split; [|done]. cbn. unfold fwk_device_add. rewrite Ed. cbn [deref mbind res_bind]. rewrite Ev. cbn [mbind res_bind]. by rewrite E0, (proj2 (Z.eqb_neq _ _) Z0), El.
Qed.
Lemma del_step dev w s : bus_inv w -> legal (DelDevice dev) w -> good_step (DelDevice dev) w s.
Proof using All.
  intros I [Hn Hcase]. destruct (find_spec dev w I Hn) as (v & Ev & Hv). destruct (name_dev w dev Hn) as [d Ed]. assert (bus_of w dev = Some (dv_bus d)) as Hb by (unfold bus_of; by rewrite Ed).
  destruct (v =? 0) eqn:E0.
  2:{ exists (- ER_NOTFOUND), w, s. split; [|done]. cbn. unfold fwk_device_del. rewrite Ed. cbn [deref mbind res_bind]. rewrite Ev. cbn [mbind res_bind]. by rewrite E0. }
  destruct Hcase as [Hin|Hnt]; [|tauto]. destruct (Z.eq_dec (dv_bus d) 0) as [Z0|Z0]; [|destruct (bs_buses w !! dv_bus d) as [l|] eqn:El].
  3:{ exists (- ER_ERROR), w, s. split; [|done]. cbn. unfold fwk_device_del. rewrite Ed. cbn [deref mbind res_bind]. rewrite Ev. cbn [mbind res_bind]. by rewrite E0, (proj2 (Z.eqb_neq _ _) Z0), El. }
  all: destruct (delete_spec dev (dv_bus d) w s I Hin Hb ltac:(eauto)) as (w' & s' & E & Hrm); exists ER_NORMAL, w', s'; destruct (removed_inv dev w w' I Hrm); by split.
Qed.
Lemma register_step drv w s : bus_inv w -> legal (AddDriver drv) w -> good_step (AddDriver drv) w s.
Proof using All.
  intros I (Hnz & [r Er] & Hlen). assert (dbus_of w drv = Some (dr_bus r)) as Hb by (unfold dbus_of; by rewrite Er).
  destruct (Z.eq_dec (dr_bus r) 0) as [Z0|Z0]; [|destruct (bs_buses w !! dr_bus r) as [l|] eqn:El].
  - exists (- ER_ERROR), w, s. split; [|done]. cbn. unfold fwk_driver_register. rewrite Er. cbn [deref mbind res_bind]. by rewrite Z0.
  - destruct (find_driver_spec w drv r (bl_drivers l) Er (drivers_known_inv _ l w I El)) as (v & Ev & Hv & Hi). destruct Hv as [-> | ->].
    + exists (- ER_ERROR), w, s. split; [|done]. cbn. unfold fwk_driver_register, fwk_driver_find. rewrite Er. cbn [deref mbind res_bind]. rewrite (proj2 (Z.eqb_neq _ _) Z0), El. cbn [deref mbind res_bind]. rewrite Ev. done.
    + assert (~ drv_taken w (bl_drivers l) drv) as Ht by (intros Ht; apply Hi in Ht; done). destruct (register_spec drv _ l w s I Hnz Hb El Ht (Hlen _ _ El)) as (w' & s' & E & Hs & H1 & H2 & H3). eexists _, w', s'. split; [exact E|].
      destruct (register_inv drv _ l w w' I Hnz Hb El Ht Hs H1 H2 H3). by split.
  - exists (- ER_ERROR), w, s. split; [|done]. cbn. unfold fwk_driver_register. rewrite Er. cbn [deref mbind res_bind]. by rewrite (proj2 (Z.eqb_neq _ _) Z0), El.
Qed.
Lemma unregister_step drv w s : bus_inv w -> legal (DelDriver drv) w -> good_step (DelDriver drv) w s.
Proof using All.
  intros I ([r Er] & Hcase). assert (dbus_of w drv = Some (dr_bus r)) as Hb by (unfold dbus_of; by rewrite Er).
  destruct (Z.eq_dec (dr_bus r) 0) as [Z0|Z0]; [|destruct (bs_buses w !! dr_bus r) as [l|] eqn:El].
  - exists (- ER_ERROR), w, s. split; [|done]. cbn. unfold fwk_driver_unregister. rewrite Er. cbn [deref mbind res_bind]. by rewrite Z0.
  - destruct (Hcase _ l Hb El) as [Hin|Ht].
    + destruct (unregister_spec drv _ l w s I El Hin) as (w' & s' & E & Hs & H1 & H2 & H3). eexists _, w', s'. split; [exact E|]. split; [by eapply unregister_inv|done].
    + destruct (find_driver_spec w drv r (bl_drivers l) Er (drivers_known_inv _ l w I El)) as (v & Ev & [->|Hv] & Hi); [tauto|].
      exists (- ER_ERROR), w, s. split; [|done]. cbn. unfold fwk_driver_unregister, fwk_driver_find. rewrite Er. cbn [deref mbind res_bind]. rewrite (proj2 (Z.eqb_neq _ _) Z0), El. cbn [deref mbind res_bind]. rewrite Ev. by rewrite Hv.
  - exists (- ER_ERROR), w, s. split; [|done]. cbn. unfold fwk_driver_unregister. rewrite Er. cbn [deref mbind res_bind]. by rewrite (proj2 (Z.eqb_neq _ _) Z0), El.
Qed.
Lemma op_step op w s : bus_inv w -> legal op w -> good_step op w s.
Proof using All. destruct op; [apply add_step|apply del_step|apply register_step|apply unregister_step]. Qed.
Lemma history_inv ops : forall w s, bus_inv w -> legal_history ops w s ->
  exists vs w' s', run_ops ops w s = Ok (vs, w', s') /\ bus_inv w' /\ (Forall keeps_drivers ops -> all_bound w -> all_bound w').
Proof using All.
  induction ops as [|op ops IH]; intros w s I Hl; cbn [run_ops]; [exists [], w, s; by split_and!|]. destruct Hl as [Hop Hrest]. destruct (op_step op w s I Hop) as (v & w1 & s1 & E & I1 & Ha1).
  destruct (IH w1 s1 I1 (Hrest _ _ _ E)) as (vs & w2 & s2 & E2 & I2 & Ha2). rewrite E. cbn [mbind res_bind]. rewrite E2. cbn [mbind res_bind]. exists (v :: vs), w2, s2. split_and!; [done..|]. intros [Hk Hks]%Forall_cons Ha. auto.
Qed.

(** The state at boot: devices and drivers exist, none is on a bus. *)
Definition no_members (w : bsys) : Prop := bs_leaf w = [] /\ forall b l, bs_buses w !! b = Some l -> b <> 0 /\ l = BusLists [] [].
Lemma no_members_inv w : wf w -> no_members w -> bus_inv w /\ all_bound w.
Proof.
  clear. intros Hw [El Hb]. split; [split|]; try done.
  - rewrite El. constructor.
  - intros x. rewrite El. by intros ?%not_elem_of_nil.
  - intros x y. rewrite El. by intros ?%not_elem_of_nil.
  - intros b l Hl. destruct (Hb b l Hl) as [? ->]. split_and!; [done|constructor..].
  - intros b l x Hl. destruct (Hb b l Hl) as [? ->]. rewrite El. cbn. split; [by intros ?%not_elem_of_nil|by intros [?%not_elem_of_nil _]].
  - intros b l x Hl. destruct (Hb b l Hl) as [? ->]. by intros ?%not_elem_of_nil.
  - intros b l x y Hl. destruct (Hb b l Hl) as [? ->]. by intros ?%not_elem_of_nil.
  - intros b l x Hl. destruct (Hb b l Hl) as [? ->]. by intros ?%not_elem_of_nil.
  - intros b l x y Hl. destruct (Hb b l Hl) as [? ->]. by intros ?%not_elem_of_nil.
Qed.

(** C25: Any sequence of adding and removing devices and drivers, from the empty
    buses of the boot on, returns and keeps them consistent: names are unique, a
    device is on its bus exactly when it is in the list of all devices, and it is
    bound only to a registered driver of its bus that fits it.  As long as no driver
    was taken out, no device is free that a registered driver fits. *)
Theorem bus_history_consistent ops w s : wf w -> no_members w -> legal_history ops w s ->
  exists vs w' s', run_ops ops w s = Ok (vs, w', s') /\ bus_inv w' /\ (Forall keeps_drivers ops -> all_bound w').
Proof using All.
  intros Hw Hm Hl. destruct (no_members_inv w Hw Hm) as [I Ha]. destruct (history_inv ops w s I Hl) as (vs & w' & s' & E & I' & Ha'). exists vs, w', s'. auto.
Qed.

(** A new driver takes exactly the free devices of its bus that it fits, and says
    how many; taking it out again gives back the lists and bindings as they were. *)
Theorem driver_takes_and_returns drv b l w s : bus_inv w -> drv <> 0 -> dbus_of w drv = Some b -> bs_buses w !! b = Some l -> ~ drv_taken w (bl_drivers l) drv -> Z.of_nat (length (bl_devices l)) < 2147483648 ->
  exists w1 s1 w2 s2, fwk_driver_register bus_at bind_pins unbind_pins drv w s = Ok (Z.of_nat (length (filter (fun x => takes w drv x = true) (bl_devices l))), w1, s1) /\
    (forall x, bound_to w1 x = if bool_decide (x ∈ bl_devices l) && takes w drv x then drv else bound_to w x) /\
    fwk_driver_unregister bus_at drv w1 s1 = Ok (ER_NORMAL, w2, s2) /\ bs_leaf w2 = bs_leaf w /\ bs_buses w2 = bs_buses w /\ forall x, bound_to w2 x = bound_to w x.
Proof using All.
  intros I Hnz Hb Hl Ht Hlen. destruct (register_spec drv b l w s I Hnz Hb Hl Ht Hlen) as (w1 & s1 & E1 & Hs1 & El1 & Eb1 & Hbd1). destruct (register_inv drv b l w w1 I Hnz Hb Hl Ht Hs1 El1 Eb1 Hbd1) as [I1 _].
  assert (bs_buses w1 !! b = Some (BusLists (bl_devices l) (bl_drivers l ++ [drv]))) as Hl1 by (by rewrite Eb1, lookup_insert_eq).
  assert (drv ∉ bl_drivers l) as Hni by (intros Hin; apply Ht; by exists drv).
  destruct (unregister_spec drv b _ w1 s1 I1 Hl1) as (w2 & s2 & E2 & Hs2 & El2 & Eb2 & Hbd2); [apply elem_of_app; right; by left|]. cbn [bl_devices bl_drivers] in *.
  exists w1, s1, w2, s2. split_and!; [done..|by rewrite El2, El1| |].
  - rewrite Eb2, Eb1, insert_insert_eq, filter_app, filter_absent by done. rewrite filter_cons_False by tauto. rewrite app_nil_r. apply insert_id. rewrite Hl. by destruct l.
  - intros x. rewrite Hbd2, Hbd1. case_bool_decide as Hx; cbn [andb]; [|done]. unfold takes. destruct (Z.eqb_spec (bound_to w x) 0) as [E0|E0]; cbn [andb]; [destruct (fit w x drv); [by rewrite Z.eqb_refl|by destruct (_ =? _)]|].
    destruct (Z.eqb_spec (bound_to w x) drv) as [Ed|]; [|done]. destruct (bi_bound w I b l x Hl Hx E0) as [Hd _]. by rewrite Ed in Hd.
Qed.
End spec.
