(* ===== verification/BusBind.v ===== *)
(** * The two buses of the kernel, and the device tree

    The platform bus and the I2C bus keep the promises of [LawfulBuses]; what fits
    is read off the tree.  So a device made from a node of the tree goes to the first
    driver whose table names one of the node's models. *)

From Stdlib Require Import Strings.String.
From stdpp Require Import prelude gmap fin_maps sorting.
From S2P Require Import Prelude Mem Bytes MemPool MemOps Sync Generic KMalloc KMallocSpec HeapContract Fdt FdtSpec FdtMeasure FdtBuild FdtTree OfNode OfSpec OfIrq OfIrqSpec OfIrqInit Bus BusTypes BusSpec.

(** The node at an address. *)
Fixpoint info_at (a : Z) (es : list entry) (xs : list info) : option info :=
  match es, xs with
  | e :: es, x :: xs => if en_addr e =? a then Some x else info_at a es xs
  | _, _ => None
  end.
Lemma info_at_node t es a e x : NoDup (addrs es) -> is_node t es a e x -> info_at a es (nodes_of None t) = Some x.
Proof.
  intros Hnd (<- & i & He & Hx). revert i es Hnd He Hx. generalize (nodes_of None t) as xs. induction xs as [|y xs IH]; intros i es Hnd He Hx; [done|]. destruct es as [|e0 es]; [done|]. cbn [info_at].
  destruct i as [|i]; [injection He as ->; injection Hx as ->; by rewrite Z.eqb_refl|]. cbn in He, Hx. apply NoDup_cons in Hnd as [Hni Hnd].
  rewrite (proj2 (Z.eqb_neq _ _)); [by eapply IH|]. intros E. apply Hni. rewrite E. apply (list_elem_of_fmap_2 en_addr). by eapply list_elem_of_lookup_2.
Qed.
Lemma info_at_some a es xs x : info_at a es xs = Some x -> exists i e, es !! i = Some e /\ xs !! i = Some x /\ en_addr e = a.
Proof.
  revert xs. induction es as [|e es IH]; intros [|y xs]; cbn [info_at]; try done. destruct (Z.eqb_spec (en_addr e) a) as [E|E]; [intros [= ->]; by exists 0%nat, e|]. intros (i & e' & ? & ? & ?)%IH. by exists (Datatypes.S i), e'.
Qed.
(** A table of I2C names that ends. *)
Definition ids_end (ids : list (option (list Z))) : Prop := Exists (fun o => o = None \/ o = Some []) ids.
Fixpoint id_listed (ids : list (option (list Z))) (name : list Z) : bool :=
  match ids with
  | Some (c :: n) :: ids => bool_decide (name = c :: n) || id_listed ids name
  | _ => false
  end.
Lemma match_id_spec ids name : ids_end ids -> exists e, fwk_i2c_match_id ids name = Ok e /\ (if e then true else false) = id_listed ids name.
Proof.
  induction ids as [|[[|c n]|] ids IH]; intros He; cbn [fwk_i2c_match_id id_listed]; [by apply Exists_nil in He|by exists None| |by exists None].
  case_bool_decide; [by eexists|]. apply IH. apply Exists_cons in He as [[?|?]|He]; done.
Qed.

Section bind.
Context {H : Type} `{KernelHeap H} {S : Type}.
Context (lit_null : Z) (fuel : nat) (t : dtree) (es : list entry) (tree : @dsys H) (is_tree : dev_tree lit_null t es tree).
Context (few : (length (nodes_of None t) < fuel)%nat) (fit_nodes : Forall (node_fits fuel) (nodes_of None t)) (texts : Forall texts_ok (nodes_of None t)).
Context (platdev_of : Z -> platdev) (platdrv_of : Z -> platdrv) (client_of : Z -> i2c_client) (i2c_driver_of : Z -> i2c_driver) (client_type platform_bus i2c_bus : Z).
Context (drv_probe drv_remove : Z -> Z -> S -> res (Z * S)) (client_irq : Z -> S -> Z) (set_client_irq : Z -> Z -> S -> S) (irq_get : Z -> Z -> S -> res (Z * S)) (i2c_probe : Z -> Z -> option (list Z) -> S -> res (Z * S)).
Context (bind_pins : Z -> S -> res (Z * S)) (unbind_pins : Z -> S -> res S).
(** The functions of drivers and of pin control return. *)
Context (probe_returns : forall drv dev s, exists v s', drv_probe drv dev s = Ok (v, s')) (remove_returns : forall drv dev s, exists v s', drv_remove drv dev s = Ok (v, s')).
Context (irq_returns : forall node i s, exists v s', irq_get node i s = Ok (v, s')) (i2c_probe_returns : forall drv dev e s, exists v s', i2c_probe drv dev e s = Ok (v, s')).
Context (bind_returns : forall dev s, exists v s', bind_pins dev s = Ok (v, s')) (unbind_returns : forall dev s, exists s', unbind_pins dev s = Ok s').
Local Notation buses := (kernel_bus fuel tree platdev_of platdrv_of drv_probe drv_remove client_of i2c_driver_of client_type client_irq set_client_irq irq_get i2c_probe i2c_bus).

(** What fits, by the tree and by names. *)
Definition node_listed (node : Z) (table : option (list of_device_id)) : bool :=
  match info_at node es (nodes_of None t), table with Some x, Some ids => bool_decide (entry_of ids 0 x <> None) | _, _ => false end.
Definition platform_fits (dev : Z) (d : fwk_device) (drv : Z) (r : fwk_driver) : bool :=
  match pv_override (platdev_of dev) with
  | Some name => bool_decide (name = dr_name r)
  | None => node_listed (dv_node d) (dr_table r) || bool_decide (pv_name (platdev_of dev) ∈ pr_idTable (platdrv_of drv)) || bool_decide (pv_name (platdev_of dev) = dr_name r)
  end.
Definition i2c_fits (dev : Z) (d : fwk_device) (drv : Z) (r : fwk_driver) : bool :=
  (dv_type d =? client_type) && (node_listed (dv_node d) (dr_table r) || match id_table (i2c_driver_of drv) with Some ids => id_listed ids (cl_name (client_of dev)) | None => false end).
Definition kernel_fits (dev : Z) (d : fwk_device) (drv : Z) (r : fwk_driver) : bool := if dv_bus d =? i2c_bus then i2c_fits dev d drv r else platform_fits dev d drv r.
(** A device has no node or one of the tree; the tables of drivers end, and I2C
    drivers have one of names. *)
Definition dev_ok (dev : Z) (d : fwk_device) : Prop := isValid (dv_node d) = false \/ exists e x, is_node t es (dv_node d) e x.
Definition drv_ok (drv : Z) (r : fwk_driver) : Prop :=
  match dr_table r with Some ids => table_ok ids | None => True end /\ (dr_bus r = i2c_bus -> exists ids, id_table (i2c_driver_of drv) = Some ids /\ ids_end ids).

Lemma try_matches_spec dev d drv r : dev_ok dev d -> drv_ok drv r ->
  exists np i, fwk_of_node_try_matches fuel (dv_node d) (dr_table r) tree = Ok (np, i) /\ isValid np && (dv_node d =? np) = node_listed (dv_node d) (dr_table r).
Proof using is_tree few fit_nodes texts.
  intros Hd [Hr _]. unfold fwk_of_node_try_matches, node_listed. destruct Hd as [Hv|(e & x & Hn)].
  { destruct (info_at (dv_node d) es (nodes_of None t)) as [x|] eqn:Ex; [|rewrite Hv; cbn [negb]; by exists nullptr, None]. apply info_at_some in Ex as (i & e & He & Hx & Ea). exfalso.
    destruct (is_node_knows lit_null fuel t es tree is_tree few fit_nodes (dv_node d) e x) as (_ & _ & _ & _ & Hv'); [split; [done|by exists i]|congruence]. }
  destruct (is_node_knows lit_null fuel t es tree is_tree few fit_nodes _ _ _ Hn) as (_ & _ & _ & _ & Hv). rewrite Hv, (info_at_node t es _ e x (dt_nodup _ _ _ _ is_tree) Hn). cbn [negb]. unfold fwk_of_match_node.
  destruct (dr_table r) as [ids|]; [|by exists nullptr, None]. rewrite (match_table_spec lit_null fuel t es tree is_tree few fit_nodes texts _ e x ids Hn Hr 0). cbn [mbind res_bind]. eexists _, _. split; [done|].
  destruct (entry_of ids 0 x); [rewrite bool_decide_eq_true_2 by done; by rewrite Hv, Z.eqb_refl|done].
Qed.
Local Notation pmatch := (fwk_platform_match fuel tree platdev_of platdrv_of).
Local Notation imatch := (fwk_i2c_device_match fuel tree client_of i2c_driver_of client_type).
Local Notation pprobe := (fwk_platform_probe platdrv_of drv_probe).
Local Notation iprobe := (fwk_i2c_device_probe client_of i2c_driver_of client_irq set_client_irq irq_get i2c_probe).
Lemma platform_match_spec dev d drv r w : dev_ok dev d -> drv_ok drv r -> bs_devs w !! dev = Some d -> bs_drvs w !! drv = Some r ->
  exists v, pmatch dev drv w = Ok v /\ (0 <=? v) = platform_fits dev d drv r.
Proof using is_tree few fit_nodes texts.
  intros Hdo Hro Hd Hr. destruct (try_matches_spec dev d drv r Hdo Hro) as (np & i & Etry & Hnp). unfold fwk_platform_match, platform_fits. rewrite Hd. cbn [deref mbind res_bind]. rewrite Hr. cbn [deref mbind res_bind].
  destruct (pv_override (platdev_of dev)) as [name|]; [eexists; split; [done|]; by case_bool_decide|]. rewrite Etry. cbn [mbind res_bind]. rewrite Hnp. destruct (node_listed (dv_node d) (dr_table r)); cbn [orb]; [by eexists|].
  case_bool_decide; cbn [orb]; [by eexists|]. case_bool_decide; by eexists.
Qed.
Lemma i2c_match_spec dev d drv r w : dev_ok dev d -> drv_ok drv r -> dr_bus r = i2c_bus -> bs_devs w !! dev = Some d -> bs_drvs w !! drv = Some r ->
  exists v, imatch dev drv w = Ok v /\ (0 <=? v) = i2c_fits dev d drv r.
Proof using is_tree few fit_nodes texts.
  intros Hdo Hro Hb Hd Hr. destruct (try_matches_spec dev d drv r Hdo Hro) as (np & i & Etry & Hnp). unfold fwk_i2c_device_match, i2c_fits. rewrite Hd. cbn [deref mbind res_bind].
  destruct (dv_type d =? client_type); cbn [negb andb]; [|by eexists]. rewrite Hr. cbn [deref mbind res_bind]. rewrite Etry. cbn [mbind res_bind]. rewrite Hnp. destruct (node_listed (dv_node d) (dr_table r)); cbn [orb]; [by eexists|].
  destruct (proj2 Hro Hb) as (ids & -> & Hend). destruct (match_id_spec ids (cl_name (client_of dev)) Hend) as (o & -> & <-). cbn [mbind res_bind]. eexists. split; [done|]. by destruct o.
Qed.
Lemma platform_probe_spec dev d w s : bs_devs w !! dev = Some d -> dv_driver d <> 0 -> exists v s', pprobe dev w s = Ok (v, s') /\ (v = 0 \/ v = - ER_PERMIT).
Proof using probe_returns.
  intros Hd Hnz. unfold fwk_platform_probe. rewrite Hd. cbn [deref mbind res_bind]. rewrite (proj2 (Z.eqb_neq _ _) Hnz). destruct (pr_probe _); cbn [negb]; [|by eauto].
  destruct (probe_returns (dv_driver d) dev s) as (v & s' & ->). cbn [mbind res_bind]. destruct (v <? 0); eauto.
Qed.
Lemma i2c_probe_spec dev d r w s : bs_devs w !! dev = Some d -> dv_driver d <> 0 -> drv_ok (dv_driver d) r -> dr_bus r = i2c_bus -> exists v s', iprobe dev w s = Ok (v, s') /\ (v = 0 \/ v = - ER_PERMIT).
Proof using irq_returns i2c_probe_returns.
  intros Hd Hnz Hro Hb. unfold fwk_i2c_device_probe. rewrite Hd. cbn [deref mbind res_bind]. rewrite (proj2 (Z.eqb_neq _ _) Hnz). destruct (proj2 Hro Hb) as (ids & -> & Hend). cbn [deref mbind res_bind].
  destruct (match_id_spec ids (cl_name (client_of dev)) Hend) as (o & -> & _). cbn [mbind res_bind].
  assert (exists s1, (if client_irq dev s =? 0 then '(irq, s) ← irq_get (dv_node d) 0 s; Ok (set_client_irq dev (if irq <? 0 then -1 else irq) s) else Ok s) = Ok s1) as [s1 ->].
  { destruct (client_irq dev s =? 0); [|by eauto]. destruct (irq_returns (dv_node d) 0 s) as (v & s' & ->). by eexists. }
  cbn [mbind res_bind]. destruct (id_probe _); [|by eauto]. destruct (i2c_probe_returns (dv_driver d) dev o s1) as (v & s' & ->). cbn [mbind res_bind]. destruct (negb (v =? 0)); eauto.
Qed.
#[export] Instance kernel_buses_lawful : LawfulBuses buses bind_pins unbind_pins kernel_fits dev_ok drv_ok.
Proof using is_tree few fit_nodes texts probe_returns remove_returns irq_returns i2c_probe_returns bind_returns unbind_returns.
  split; try done.
  - intros b. unfold kernel_bus. by destruct (b =? i2c_bus).
  - intros dev d drv r w Hdo Hro Hbus Hd Hr. unfold kernel_bus, kernel_fits. destruct (Z.eqb_spec (dv_bus d) i2c_bus) as [Eb|Eb]; eexists; [destruct (i2c_match_spec dev d drv r w) as (v & ? & ?)|destruct (platform_match_spec dev d drv r w) as (v & ? & ?)]; try done; [congruence|by exists v..].
  - intros dev d drv r w s Hdo Hro Hbus Hd Hdrv Hnz Hr _. subst drv. unfold kernel_bus. destruct (Z.eqb_spec (dv_bus d) i2c_bus) as [Eb|Eb]; eexists; [destruct (i2c_probe_spec dev d r w s) as (v & s' & ? & ?)|destruct (platform_probe_spec dev d w s) as (v & s' & ? & ?)]; try done; [congruence|by exists v, s'..].
  - intros dev d f w s Hd Hf. unfold kernel_bus in Hf. destruct (dv_bus d =? i2c_bus); injection Hf as <-; unfold fwk_i2c_device_remove, fwk_platform_remove; rewrite Hd; cbn [deref mbind res_bind]; (destruct (dv_driver d =? 0); [by eauto|]); (destruct (negb _); [by eauto|]);
      destruct (remove_returns (dv_driver d) dev s) as (v & s' & ->); by eexists _, s'.
Qed.

(** ** Devices of the tree *)

(** The driver is made for the node's models, or shares a name with the device. *)
Definition serves (w : bsys) (x : info) (dev drv : Z) : bool :=
  match bs_drvs w !! drv with
  | Some r => match dr_table r with Some ids => bool_decide (entry_of ids 0 x <> None) | None => false end ||
      bool_decide (pv_name (platdev_of dev) ∈ pr_idTable (platdrv_of drv)) || bool_decide (pv_name (platdev_of dev) = dr_name r)
  | None => false
  end.
Lemma fit_serves w dev d e x drv : bs_devs w !! dev = Some d -> dv_bus d <> i2c_bus -> pv_override (platdev_of dev) = None -> is_node t es (dv_node d) e x ->
  fit (fits := kernel_fits) w dev drv = serves w x dev drv.
Proof using is_tree.
  intros Hd Hb Ho Hn. unfold fit, serves. rewrite Hd. destruct (bs_drvs w !! drv) as [r|]; [|done]. unfold kernel_fits, platform_fits, node_listed. rewrite (proj2 (Z.eqb_neq _ _) Hb), Ho.
  by rewrite (info_at_node t es _ e x (dt_nodup _ _ _ _ is_tree) Hn).
Qed.
Lemma first_fit_filter w x dev l : (forall drv, fit (fits := kernel_fits) w dev drv = serves w x dev drv) -> first_fit (fits := kernel_fits) w dev l = hd 0 (filter (fun drv => serves w x dev drv = true) l).
Proof. clear. intros Hf. induction l as [|drv l IH]; cbn [first_fit]; [done|]. rewrite Hf, filter_cons. destruct (serves w x dev drv); [by rewrite decide_True|by rewrite decide_False]. Qed.

(** C26: A device of a node of the tree is bound, when it is added, to the first driver
    on the platform bus whose table names one of the node's models, or that shares
    its name; to none if there is no such driver.  It joins the devices, and no other
    device is bound anew.  A device whose name is taken is refused. *)
Theorem device_gets_first_driver dev d e x l w s : bus_inv (fits := kernel_fits) (dev_ok := dev_ok) (drv_ok := drv_ok) w -> bs_devs w !! dev = Some d -> is_Some (fwk_dev_get_name d) -> dv_bus d <> i2c_bus ->
  bs_buses w !! dv_bus d = Some l -> is_node t es (dv_node d) e x -> pv_override (platdev_of dev) = None ->
  (taken w dev -> fwk_device_add buses bind_pins unbind_pins dev w s = Ok (- ER_EXISTED, w, s)) /\
  (~ taken w dev -> exists w' s', fwk_device_add buses bind_pins unbind_pins dev w s = Ok (ER_NORMAL, w', s') /\
    bs_leaf w' = bs_leaf w ++ [dev] /\ bs_buses w' = <[dv_bus d := BusLists (bl_devices l ++ [dev]) (bl_drivers l)]> (bs_buses w) /\
    bound_to w' dev = hd 0 (filter (fun drv => serves w x dev drv = true) (bl_drivers l)) /\ forall y, y <> dev -> bound_to w' y = bound_to w y).
Proof using is_tree few fit_nodes texts probe_returns remove_returns irq_returns i2c_probe_returns bind_returns unbind_returns.
  intros I Hd Hname Hb Hl Hn Ho. assert (is_Some (name_of w dev)) as Hnm by (unfold name_of; by rewrite Hd). split; intros Ht.
  - destruct (find_spec dev w I Hnm) as (v & Ev & Hv). unfold fwk_device_add. rewrite Hd. cbn [deref mbind res_bind]. rewrite Ev. cbn [mbind res_bind]. by rewrite (proj2 Hv Ht).
  - assert (bus_of w dev = Some (dv_bus d)) as Hbus by (unfold bus_of; by rewrite Hd). destruct (add_spec (fits := kernel_fits) dev (dv_bus d) l w s I Hnm Hbus Hl Ht) as (s' & E).
    eexists _, s'. split; [exact E|]. split_and!; [done..| |].
    + rewrite added_bound by (by eauto). rewrite bool_decide_eq_true_2 by done. apply first_fit_filter. intros drv. by eapply fit_serves.
    + intros y Hy. rewrite added_bound by (by eauto). by rewrite bool_decide_eq_false_2.
Qed.
End bind.

(** ** An example: the tree of FdtTree.v, a platform bus at 100, an I2C bus at 200 *)
Definition demo_start (_ _ : Z) (s : unit) : res (Z * unit) := Ok (0, s).
Definition demo_bind (_ : Z) (s : unit) : res (Z * unit) := Ok (0, s).
Definition demo_unbind (_ : Z) (s : unit) : res unit := Ok s.
Definition demo_buses : Z -> bus_type unit :=
  kernel_bus 200 demo_unflattened (fun _ => PlatDev (lit "gpc") 0 None) (fun _ => PlatDrv true true []) demo_start demo_start (fun _ => I2cClient []) (fun _ => I2cDriver true true (Some [None])) 1
    (fun _ _ => 0) (fun _ _ s => s) demo_start (fun _ _ _ s => Ok (0, s)) 200.
(** The device 1000 of the node [node], and the driver 2000. *)
Definition demo_bsys (node : Z) (devices drivers : list Z) : bsys :=
  BSys {[1000 := Device (Some (lit "/gpc@2")) None 100 0 0 node]} {[2000 := Driver (lit "gpc") 0 (Some demo_intc_ids) 100]} (<[100 := BusLists devices drivers]> {[200 := BusLists [] []]}) devices.
Notation demo_fits es := (kernel_fits demo_tree es (fun _ => PlatDev (lit "gpc") 0 None) (fun _ => PlatDrv true true []) (fun _ => I2cClient []) (fun _ => I2cDriver true true (Some [None])) 1 200).
Notation demo_dev_ok es := (dev_ok demo_tree es).
Notation demo_drv_ok := (drv_ok (fun _ => I2cDriver true true (Some [None])) 200).
Lemma demo_lawful es : dev_tree 16400 demo_tree es demo_unflattened -> LawfulBuses demo_buses demo_bind demo_unbind (demo_fits es) (demo_dev_ok es) demo_drv_ok.
Proof.
  intros Ht. apply (kernel_buses_lawful 16400 200 demo_tree es demo_unflattened Ht); [rewrite demo_nodes_three; lia|exact demo_nodes_fit|exact demo_texts|..]; intros; first [by eexists _, _|by eexists _].
Qed.
Lemma demo_bus_wf es node devices drivers : demo_dev_ok es 1000 (Device (Some (lit "/gpc@2")) None 100 0 0 node) -> wf (dev_ok := demo_dev_ok es) (drv_ok := demo_drv_ok) (demo_bsys node devices drivers).
Proof.
  intros Hok. split; cbn; intros a v [<- <-]%lookup_singleton_Some; [exact Hok|]. split; [exact demo_intc_table|done].
Qed.
Lemma demo_bus_lists node b l : bs_buses (demo_bsys node [] [2000]) !! b = Some l -> (b = 100 /\ l = BusLists [] [2000]) \/ (b = 200 /\ l = BusLists [] []).
Proof. cbn. intros [[<- <-]|[_ [<- <-]%lookup_singleton_Some]]%lookup_insert_Some; auto. Qed.
Lemma demo_bus_inv es node : demo_dev_ok es 1000 (Device (Some (lit "/gpc@2")) None 100 0 0 node) -> bus_inv (fits := demo_fits es) (dev_ok := demo_dev_ok es) (drv_ok := demo_drv_ok) (demo_bsys node [] [2000]).
Proof.
  intros Hok. split.
  - by apply demo_bus_wf.
  - constructor.
  - by intros x ?%not_elem_of_nil.
  - by intros x y ?%not_elem_of_nil.
  - intros b l [[-> ->]|[-> ->]]%demo_bus_lists; (split_and!; [done|constructor|]); [apply NoDup_singleton|constructor].
  - intros b l x [[-> ->]|[-> ->]]%demo_bus_lists; cbn; (split; [by intros ?%not_elem_of_nil|by intros [?%not_elem_of_nil _]]).
  - intros b l x [[-> ->]|[-> ->]]%demo_bus_lists; cbn; [intros ->%list_elem_of_singleton; by vm_compute|by intros ?%not_elem_of_nil].
  - intros b l x y [[-> ->]|[-> ->]]%demo_bus_lists; cbn; [by intros ->%list_elem_of_singleton ->%list_elem_of_singleton|by intros ?%not_elem_of_nil].
  - intros b l x [[-> ->]|[-> ->]]%demo_bus_lists; cbn; by intros ?%not_elem_of_nil.
Qed.
(** The controller's node is served by the driver through its table. *)
Lemma device_gets_first_driver_witness : exists node w' s', fwk_device_add demo_buses demo_bind demo_unbind 1000 (demo_bsys node [] [2000]) tt = Ok (ER_NORMAL, w', s') /\ bound_to w' 1000 = 2000.
Proof.
  destruct demo_built as (es & Ht). destruct (demo_three es Ht) as (e0 & e1 & e2 & Ees). assert (exists x, nodes_of None demo_tree !! 1%nat = Some x) as (x & Hx) by eauto.
  assert (is_node demo_tree es (en_addr e1) e1 x) as Hn by (split; [done|]; exists 1%nat; by rewrite Ees).
  destruct (device_gets_first_driver 16400 200 demo_tree es demo_unflattened Ht ltac:(rewrite demo_nodes_three; lia) demo_nodes_fit demo_texts (fun _ => PlatDev (lit "gpc") 0 None) (fun _ => PlatDrv true true []) (fun _ => I2cClient []) (fun _ => I2cDriver true true (Some [None])) 1 200
    demo_start demo_start (fun _ _ => 0) (fun _ _ s => s) demo_start (fun _ _ _ s => Ok (0, s)) demo_bind demo_unbind ltac:(by eexists _, _) ltac:(by eexists _, _) ltac:(by eexists _, _) ltac:(by eexists _, _) ltac:(by eexists _, _) (fun _ s => ex_intro _ s eq_refl)
    1000 (Device (Some (lit "/gpc@2")) None 100 0 0 (en_addr e1)) e1 x (BusLists [] [2000]) (demo_bsys (en_addr e1) [] [2000]) tt (demo_bus_inv es (en_addr e1) ltac:(right; by exists e1, x)) eq_refl ltac:(by eexists) ltac:(done) eq_refl Hn eq_refl)
    as (_ & Hadd). destruct Hadd as (w' & s' & E & _ & _ & Hb & _); [by intros (y & ?%not_elem_of_nil & _)|]. exists (en_addr e1), w', s'. split; [exact E|]. rewrite Hb. injection Hx as <-. by vm_compute.
Defined.
(** The driver first, then the device, which has no node and goes by its name; then
    the device is taken out again. *)
Lemma bus_history_consistent_witness : exists vs w' s', run_ops (bus_at := demo_buses) (bind_pins := demo_bind) (unbind_pins := demo_unbind) [AddDriver 2000; AddDevice 1000] (demo_bsys 0 [] []) tt = Ok (vs, w', s') /\ vs = [0; 0] /\ bound_to w' 1000 = 2000.
Proof.
  destruct demo_built as (es & Ht). pose proof (demo_lawful es Ht) as Hlaw.
  destruct (bus_history_consistent (LawfulBuses0 := Hlaw) [AddDriver 2000; AddDevice 1000] (demo_bsys 0 [] []) tt) as (vs & w' & s' & E & _ & _).
  - apply demo_bus_wf. by left.
  - split; [done|]. intros b l. cbn. intros [[<- <-]|[_ [<- <-]%lookup_singleton_Some]]%lookup_insert_Some; done.
  - split; [split_and!; [done|by eexists|]; intros b l; cbn; intros [[<- <-]|[_ [<- <-]%lookup_singleton_Some]]%lookup_insert_Some; simpl; lia|]. intros v w s E. vm_compute in E. injection E as <- <- <-. split; [by eexists|done].
  - exists vs, w', s'. split; [exact E|]. vm_compute in E. injection E as <- <- <-. by vm_compute.
Defined.
(** A driver that fits by its name takes the device that waits, and gives it back. *)
Lemma driver_takes_and_returns_witness : exists w1 s1 w2 s2, fwk_driver_register demo_buses demo_bind demo_unbind 2000 (demo_bsys 0 [1000] []) tt = Ok (1, w1, s1) /\ bound_to w1 1000 = 2000 /\
  fwk_driver_unregister demo_buses 2000 w1 s1 = Ok (ER_NORMAL, w2, s2) /\ bound_to w2 1000 = 0.
Proof.
  destruct demo_built as (es & Ht). pose proof (demo_lawful es Ht) as Hlaw.
  assert (bus_inv (fits := demo_fits es) (dev_ok := demo_dev_ok es) (drv_ok := demo_drv_ok) (demo_bsys 0 [1000] [])) as I.
  { assert (forall b l, bs_buses (demo_bsys 0 [1000] []) !! b = Some l -> (b = 100 /\ l = BusLists [1000] []) \/ (b = 200 /\ l = BusLists [] [])) as Hl by (cbn; intros b l [[<- <-]|[_ [<- <-]%lookup_singleton_Some]]%lookup_insert_Some; auto).
    split.
    - apply demo_bus_wf. by left.
    - apply NoDup_singleton.
    - intros x ->%list_elem_of_singleton. by eexists.
    - by intros x y ->%list_elem_of_singleton ->%list_elem_of_singleton.
    - intros b l [[-> ->]|[-> ->]]%Hl; (split_and!; [done| |constructor]); [apply NoDup_singleton|constructor].
    - intros b l x [[-> ->]|[-> ->]]%Hl; cbn; [split; [intros ->%list_elem_of_singleton; split; [by left|done]|by intros [? _]]|]. split; [by intros ?%not_elem_of_nil|]. intros [->%list_elem_of_singleton E]. by vm_compute in E.
    - intros b l x [[-> ->]|[-> ->]]%Hl; by intros ?%not_elem_of_nil.
    - intros b l x y [[-> ->]|[-> ->]]%Hl; by intros ?%not_elem_of_nil.
    - intros b l x [[-> ->]|[-> ->]]%Hl; cbn; [by intros ->%list_elem_of_singleton|by intros ?%not_elem_of_nil]. }
  destruct (driver_takes_and_returns (LawfulBuses0 := Hlaw) 2000 100 (BusLists [1000] []) (demo_bsys 0 [1000] []) tt I) as (w1 & s1 & w2 & s2 & E1 & Hb1 & E2 & _ & _ & Hb2); [done..| |simpl; lia|]; [by intros (x & ?%not_elem_of_nil & _)|].
  exists w1, s1, w2, s2. assert (takes (fits := demo_fits es) (demo_bsys 0 [1000] []) 2000 1000 = true) as Htk.
  { unfold takes, fit. apply andb_true_iff. split; [done|]. unfold demo_bsys. cbn [bs_devs bs_drvs]. rewrite !lookup_singleton_eq. unfold kernel_fits, platform_fits. cbn [dv_bus pv_override]. apply orb_true_iff. right. by vm_compute. }
  split; [rewrite E1; cbn [bl_devices]; by rewrite filter_cons_True by exact Htk|]. split; [by rewrite Hb1, Htk|]. split; [exact E2|]. by rewrite Hb2.
Defined.
(** [matches] counts devices a driver took when it was registered, but is counted down
    for every device: it goes below zero. *)
Lemma matches_below_zero : exists vs w' s' r, run_ops (bus_at := demo_buses) (bind_pins := demo_bind) (unbind_pins := demo_unbind) [AddDriver 2000; AddDevice 1000; DelDevice 1000] (demo_bsys 0 [] []) tt = Ok (vs, w', s') /\
  bs_drvs w' !! 2000 = Some r /\ dr_matches r = -1.
Proof.
  destruct (run_ops (bus_at := demo_buses) (bind_pins := demo_bind) (unbind_pins := demo_unbind) [AddDriver 2000; AddDevice 1000; DelDevice 1000] (demo_bsys 0 [] []) tt) as [[[vs w'] s']| |] eqn:E; [|vm_compute in E; discriminate E..].
  exists vs, w', s'. vm_compute in E. injection E as <- <- <-. eexists. split; [done|]. split; [by vm_compute|done].
Qed.
