(* ===== verification/Disp.v ===== *)
(** * Drawing on a frame buffer (platform/framebuffer/fwk_disp.c,
      include/platform/video/fwk_disp.h)

    Points, straight lines, rectangles, clearing and text of the display
    framework, on the byte memory of the kernel.  A pixel takes four bytes on 24
    and 32 bit screens and two on 16 bit screens, lowest byte first. *)

From stdpp Require Import prelude gmap fin_maps sorting.
From S2P Require Import Prelude Mem Bytes MemPool MemOps Sync Generic.

Definition FWK_RGB_PIXEL16 : Z := 16.
Definition FWK_RGB_PIXEL24 : Z := 24.
Definition FWK_RGB_PIXEL32 : Z := 32.

(** The assembly loop [__memset_ex]: a word per step while the address is
    below the end. *)
Fixpoint __memset_ex (n : nat) (m : mem) (start data : Z) : mem :=
  match n with
  | O => m
  | S n => __memset_ex n (st32 m start data) (start + 4) data
  end.
Definition kmemset_ex (m : mem) (dest data size : Z) : mem :=
  if dest =? 0 then m
  else
    let start_addr := dest in
    let end_addr := u32 (start_addr + size) in
    if negb (Z.land start_addr 3 =? 0) || negb (Z.land end_addr 3 =? 0) then kmemset m dest (u8 data) size
    else __memset_ex (Z.to_nat ((end_addr - start_addr + 3) / 4)) m start_addr data.
Definition memset_ex (m : mem) (__s __c __n : Z) : mem := kmemset_ex m __s __c __n.

(** ** Screens *)

Record fwk_disp_info := DispInfo {
  buffer : Z; buffer_bak : Z; buf_size : Z; width : Z; height : Z; bpp : Z; sgrt_lock : Z }.

Definition set_lock (l : Z) (di : fwk_disp_info) : fwk_disp_info :=
  DispInfo (buffer di) (buffer_bak di) (buf_size di) (width di) (height di) (bpp di) l.

(** A test of the pixel format, one store per format, nothing for the others. *)
Definition fwk_display_write_pixel (m : mem) (buffer offset bpp data : Z) : mem :=
  if bpp =? FWK_RGB_PIXEL32 then st32 m (u32 (buffer + 4 * offset)) data
  else if bpp =? FWK_RGB_PIXEL24 then st32 m (u32 (buffer + 4 * offset)) data
  else if bpp =? FWK_RGB_PIXEL16 then st16 m (u32 (buffer + 2 * offset)) data
  else m.

Definition mrt_fwk_disp_bpp_get (bpp : Z) : Z := if bpp =? FWK_RGB_PIXEL24 then FWK_RGB_PIXEL32 else bpp.
Definition fwk_display_advance_position (x y x_max : Z) : Z := u32 (u32 (y * x_max) + x).

Definition to_rgb565 (data : Z) : Z :=
  let b_data := Z.shiftr (Z.land data 255) 3 in
  let g_data := Z.shiftr (Z.land (Z.shiftr data 8) 255) 2 in
  let r_data := Z.shiftr (Z.land (Z.shiftr data 16) 255) 3 in
  Z.land (Z.lor (Z.lor (u32 (Z.shiftl r_data 11)) (u32 (Z.shiftl g_data 5))) b_data) 65535.
Definition to_rgb888 (data : Z) : Z :=
  let b_data := u32 (Z.shiftl (Z.land data 255) 3) in
  let g_data := u32 (Z.shiftl (Z.land (Z.shiftr data 5) 255) 2) in
  let r_data := u32 (Z.shiftl (Z.land (Z.shiftr data 11) 255) 3) in
  Z.lor (Z.lor (u32 (Z.shiftl r_data 16)) (u32 (Z.shiftl g_data 8))) b_data.
(** The case of 24 bit falls through to the one of 32 bit. *)
Definition fwk_display_convert_rgbbit (srctype destype data : Z) : Z :=
  if srctype =? destype then data
  else if destype =? FWK_RGB_PIXEL16 then to_rgb565 data
  else if destype =? FWK_RGB_PIXEL24 then
    if srctype =? FWK_RGB_PIXEL32 then data
    else if srctype =? FWK_RGB_PIXEL24 then data
    else to_rgb888 data
  else if destype =? FWK_RGB_PIXEL32 then
    if srctype =? FWK_RGB_PIXEL24 then data else to_rgb888 data
  else data.
(** The formats are passed to the function as bytes. *)
Definition mrt_fwk_disp_convert_rgb (src dest data : Z) : Z :=
  if src =? dest then data else fwk_display_convert_rgbbit (u8 src) (u8 dest) data.

Section drawing.
(** The colour depth the kernel is configured with, and whether a thread runs. *)
Context (FWK_RGB_PIXELBIT : Z) (current : bool).

Definition fwk_display_write_frame_data (m : mem) (buffer offset bpp data : Z) : mem :=
  let pixelbits := mrt_fwk_disp_bpp_get bpp in
  let rgb_data := mrt_fwk_disp_convert_rgb FWK_RGB_PIXELBIT pixelbits data in
  fwk_display_write_pixel m buffer offset pixelbits rgb_data.

Definition fwk_display_write_point (m : mem) (sprt_disp : fwk_disp_info) (xpos ypos data : Z) : mem :=
  let offset := fwk_display_advance_position xpos ypos (width sprt_disp) in
  let pixelbits := mrt_fwk_disp_bpp_get (bpp sprt_disp) in
  let rgb_data := mrt_fwk_disp_convert_rgb FWK_RGB_PIXELBIT pixelbits data in
  fwk_display_write_pixel m (buffer sprt_disp) offset pixelbits rgb_data.

(** ** Lines *)

(** The loop over [pcnt]; all variables keep the width they have in C. *)
Fixpoint line_loop (n : nat) (m : mem) (sprt_disp : fwk_disp_info) (is_x_max : bool) (x_inc y_inc distance_max distance_min : Z)
    (x_start y_start distance_err data : Z) : mem :=
  match n with
  | O => m
  | S n =>
      let m := fwk_display_write_point m sprt_disp x_start y_start data in
      let x_start := if is_x_max then u32 (x_start + x_inc) else x_start in
      let y_start := if is_x_max then y_start else u32 (y_start + y_inc) in
      let distance_err := s32 (distance_err + s32 (Z.shiftl distance_min 1)) in
      if 0 <=? distance_err then
        let distance_err := s32 (distance_err - s32 (Z.shiftl distance_max 1)) in
        let y_start := if is_x_max then u32 (y_start + y_inc) else y_start in
        let x_start := if is_x_max then x_start else u32 (x_start + x_inc) in
        line_loop n m sprt_disp is_x_max x_inc y_inc distance_max distance_min x_start y_start distance_err data
      else line_loop n m sprt_disp is_x_max x_inc y_inc distance_max distance_min x_start y_start distance_err data
  end.

Definition fwk_display_write_straight_line (m : mem) (sprt_disp : fwk_disp_info) (x_start y_start x_end y_end data : Z) :
    res (fwk_disp_info * mem) :=
  let x_distance := s32 (mrt_usub x_end x_start) in
  let y_distance := s32 (mrt_usub y_end y_start) in
  let is_x_max := y_distance <=? x_distance in
  let x_inc := if x_start <=? x_end then 1 else -1 in
  let y_inc := if y_start <=? y_end then 1 else -1 in
  let distance_max := if is_x_max then x_distance else y_distance in
  let distance_min := if is_x_max then y_distance else x_distance in
  let distance_err := s32 (- distance_max) in
  l ← mutex_lock current (sgrt_lock sprt_disp);
  let m := line_loop (Z.to_nat (distance_max + 1)) m sprt_disp is_x_max x_inc y_inc distance_max distance_min
             x_start y_start distance_err data in
  Ok (set_lock (mutex_unlock current l) sprt_disp, m).

Definition fwk_display_write_rectangle (m : mem) (sprt_disp : fwk_disp_info) (x_start y_start x_end y_end data : Z) :
    res (fwk_disp_info * mem) :=
  '(sprt_disp, m) ← fwk_display_write_straight_line m sprt_disp x_start y_start x_end y_start data;
  '(sprt_disp, m) ← fwk_display_write_straight_line m sprt_disp x_start y_start x_start y_end data;
  '(sprt_disp, m) ← fwk_display_write_straight_line m sprt_disp x_start y_end x_end y_end data;
  fwk_display_write_straight_line m sprt_disp x_end y_start x_end y_end data.

(** ** Areas *)

(** [for (x_cnt = 0; x_cnt < width; x_cnt++)], [n] pixels to go. *)
Fixpoint fill_row (n : nat) (m : mem) (buffer offset pixelbits rgb_data x_cnt : Z) : mem :=
  match n with
  | O => m
  | S n =>
      fill_row n (fwk_display_write_pixel m buffer (u32 (x_cnt + offset)) pixelbits rgb_data) buffer offset pixelbits rgb_data (x_cnt + 1)
  end.
Fixpoint fill_rows (n : nat) (m : mem) (sprt_disp : fwk_disp_info) (x_start y_start w pixelbits rgb_data y_cnt : Z) : mem :=
  match n with
  | O => m
  | S n =>
      let offset := fwk_display_advance_position x_start (u32 (y_start + y_cnt)) (width sprt_disp) in
      let m :=
        if (pixelbits =? FWK_RGB_PIXEL24) || (pixelbits =? FWK_RGB_PIXEL32)
        then memset_ex m (u32 (buffer sprt_disp + u32 (Z.shiftl offset 2))) rgb_data (u32 (Z.shiftl w 2))
        else fill_row (Z.to_nat w) m (buffer sprt_disp) offset pixelbits rgb_data 0 in
      fill_rows n m sprt_disp x_start y_start w pixelbits rgb_data (y_cnt + 1)
  end.
Definition fwk_display_fill_rectangle (m : mem) (sprt_disp : fwk_disp_info) (x_start y_start x_end y_end data : Z) :
    res (fwk_disp_info * mem) :=
  if (width sprt_disp <? x_start) || (height sprt_disp <? y_start) || (width sprt_disp <? x_end) || (height sprt_disp <? y_end)
  then Ok (sprt_disp, m)
  else
    let '(x_start, x_end) := if x_end <? x_start then (x_end, x_start) else (x_start, x_end) in
    let '(y_start, y_end) := if y_end <? y_start then (y_end, y_start) else (y_start, y_end) in
    let w := mrt_usub x_end x_start in
    let h := mrt_usub y_end y_start in
    let pixelbits := mrt_fwk_disp_bpp_get (bpp sprt_disp) in
    let rgb_data := mrt_fwk_disp_convert_rgb FWK_RGB_PIXELBIT pixelbits data in
    l ← mutex_lock current (sgrt_lock sprt_disp);
    let m := fill_rows (Z.to_nat h) m sprt_disp x_start y_start w pixelbits rgb_data 0 in
    Ok (set_lock (mutex_unlock current l) sprt_disp, m).

Definition fwk_display_clear (m : mem) (sprt_disp : fwk_disp_info) (data : Z) : mem :=
  let pixelbits := mrt_fwk_disp_bpp_get (bpp sprt_disp) in
  let rgb_data := mrt_fwk_disp_convert_rgb FWK_RGB_PIXELBIT pixelbits data in
  memset_ex m (buffer sprt_disp) rgb_data (buf_size sprt_disp).
End drawing.

(** A screen is set up on two frame buffers; an invalid record is left alone. *)
Definition fwk_display_ctrl_init (ptr : Z) (sprt_disp : fwk_disp_info) (fbuffer fbuffer2 size w h b : Z) : fwk_disp_info :=
  if negb (isValid ptr) then sprt_disp
  else DispInfo fbuffer fbuffer2 size w h (u8 b) (mutex_init (sgrt_lock sprt_disp)).

Definition fwk_display_frame_exchange (di : fwk_disp_info) : fwk_disp_info :=
  if buffer_bak di =? 0 then di
  else DispInfo (buffer_bak di) (buffer di) (buf_size di) (width di) (height di) (bpp di) (sgrt_lock di).

(** The copies between the two frame buffers. *)
Definition fwk_display_frame_flush (m : mem) (di : fwk_disp_info) (size : Z) : mem :=
  if negb (buffer_bak di =? 0) then fst (memcpy m (buffer di) (buffer_bak di) size) else m.
Definition fwk_display_frame_sync (m : mem) (di : fwk_disp_info) (size : Z) : mem :=
  if negb (buffer_bak di =? 0) then fst (memcpy m (buffer_bak di) (buffer di) size) else m.
