(* ===== verification/DispSpec.v ===== *)
(** * What drawing does to the screen

    A screen is read back pixel by pixel.  [painted] says that an operation gave
    one colour to a set of pixels and touched nothing else; each drawing operation
    is shown to paint the set its geometry promises.  For a straight line that is
    the set of rounded points of the ideal segment. *)

From stdpp Require Import prelude gmap fin_maps sorting.
From S2P Require Import Prelude Mem Bytes MemPool MemOps Sync Generic Disp.

(** ** Pixels *)

Definition pixel_size (di : fwk_disp_info) : Z := if bpp di =? FWK_RGB_PIXEL16 then 2 else 4.
Definition pixel_addr (di : fwk_disp_info) (x y : Z) : Z := buffer di + pixel_size di * (y * width di + x).
Definition pixel (m : mem) (di : fwk_disp_info) (x y : Z) : Z :=
  if bpp di =? FWK_RGB_PIXEL16 then ld16 m (pixel_addr di x y) else ld32 m (pixel_addr di x y).
Definition on_screen (di : fwk_disp_info) (x y : Z) : Prop := 0 <= x < width di /\ 0 <= y < height di.
Definition frame (di : fwk_disp_info) (a : Z) : Prop :=
  buffer di <= a < buffer di + pixel_size di * (width di * height di).

(** A screen of one of the formats that can be drawn, inside the address
    space and small enough for the signed distances of lines. *)
Record screen (di : fwk_disp_info) : Prop := {
  sc_buffer : 0 < buffer di;
  sc_width : 0 < width di < 1073741824;
  sc_height : 0 < height di < 1073741824;
  sc_bpp : bpp di = FWK_RGB_PIXEL16 \/ bpp di = FWK_RGB_PIXEL24 \/ bpp di = FWK_RGB_PIXEL32;
  sc_fit : buffer di + pixel_size di * (width di * height di) < W32 }.

(** What a write of [v] in the format of the screen reads back as. *)
Definition stored (di : fwk_disp_info) (v : Z) : Z := if bpp di =? FWK_RGB_PIXEL16 then u16 v else u32 v.

Definition painted (di : fwk_disp_info) (c : Z) (S : Z -> Z -> bool) (m m' : mem) : Prop :=
  (forall x y, on_screen di x y -> pixel m' di x y = if S x y then c else pixel m di x y) /\
  agree (fun a => ~ frame di a) m m'.

Lemma painted_none di c S m : (forall x y, on_screen di x y -> S x y = false) -> painted di c S m m.
Proof. intros H. split; [|done]. intros x y Hxy. by rewrite H. Qed.
Lemma painted_seq di c S1 S2 m m1 m2 : painted di c S1 m m1 -> painted di c S2 m1 m2 ->
  painted di c (fun x y => S1 x y || S2 x y) m m2.
Proof.
  intros [H1 A1] [H2 A2]. split; [|by eapply agree_trans]. intros x y Hxy. rewrite H2, H1 by done.
  by destruct (S1 x y), (S2 x y).
Qed.
Lemma painted_ext di c S S' m m' : (forall x y, on_screen di x y -> S x y = S' x y) -> painted di c S m m' -> painted di c S' m m'.
Proof. intros E [H A]. split; [|done]. intros x y Hxy. by rewrite <- E, H. Qed.

Section pixels.
Context (di : fwk_disp_info) (Hsc : screen di).

Lemma pixel_size_cases : pixel_size di = 2 /\ bpp di = 16 \/ pixel_size di = 4 /\ (bpp di = 24 \/ bpp di = 32).
Proof. destruct Hsc as [_ _ _ [E|[E|E]] _]; unfold pixel_size; rewrite E; cbn; auto. Qed.

(** The index of a pixel on the screen is below the number of pixels, and
    different pixels have different indices. *)
Lemma index_bound x y : on_screen di x y -> 0 <= y * width di + x < width di * height di.
Proof. intros [??]. nia. Qed.
Lemma index_inj x y x' y' : on_screen di x y -> on_screen di x' y' -> y * width di + x = y' * width di + x' -> x = x' /\ y = y'.
Proof. intros [??] [??] E. assert (y = y') by nia. subst. lia. Qed.

Lemma write_pixel_spec m i v pb : 0 <= i < width di * height di ->
  pb = bpp di \/ pb = mrt_fwk_disp_bpp_get (bpp di) ->
  fwk_display_write_pixel m (buffer di) i pb v =
    if bpp di =? FWK_RGB_PIXEL16 then st16 m (buffer di + pixel_size di * i) v else st32 m (buffer di + pixel_size di * i) v.
Proof.
  intros Hi Hpb. destruct Hsc as [Hb Hw Hh Hbpp Hf]. unfold fwk_display_write_pixel, mrt_fwk_disp_bpp_get, pixel_size in *.
  destruct Hbpp as [E|[E|E]]; rewrite E in *; destruct Hpb as [-> | ->]; cbn in *; rewrite u32_id by nia; done.
Qed.

(** Pixels are written by index; the picture of a write is one pixel. *)
Lemma index_write m i v pb : 0 <= i < width di * height di -> pb = bpp di \/ pb = mrt_fwk_disp_bpp_get (bpp di) ->
  painted di (stored di v) (fun x y => y * width di + x =? i) m (fwk_display_write_pixel m (buffer di) i pb v).
Proof.
  intros Hi Hpb. rewrite write_pixel_spec by done. split.
  - intros x y Hxy. unfold pixel, stored, pixel_addr. destruct (Z.eqb_spec (y * width di + x) i) as [->|Hne].
    + destruct (bpp di =? FWK_RGB_PIXEL16); [apply ld16_stored|apply ld32_stored].
    + unfold pixel_size. destruct (bpp di =? FWK_RGB_PIXEL16); [apply ld16_st16_ne|apply ld32_st32_ne]; lia.
  - intros a Ha. unfold frame, pixel_size in *. destruct (bpp di =? FWK_RGB_PIXEL16); [apply st16_out|apply st32_out]; nia.
Qed.
Lemma pixel_write m x y v pb : on_screen di x y -> pb = bpp di \/ pb = mrt_fwk_disp_bpp_get (bpp di) ->
  painted di (stored di v) (fun x' y' => (x' =? x) && (y' =? y)) m (fwk_display_write_pixel m (buffer di) (y * width di + x) pb v).
Proof.
  intros Hxy Hpb. eapply painted_ext; [|apply index_write; [by apply index_bound|done]]. intros x' y' Hxy'. simpl.
  destruct (Z.eqb_spec (y' * width di + x') (y * width di + x)) as [E|E].
  - destruct (index_inj _ _ _ _ Hxy' Hxy E) as [-> ->]. by rewrite !Z.eqb_refl.
  - symmetry. apply andb_false_iff. rewrite !Z.eqb_neq. destruct (decide (x' = x)) as [->|]; [|by left]. right. by intros ->.
Qed.
Lemma position_spec x y : on_screen di x y -> fwk_display_advance_position x y (width di) = y * width di + x.
Proof.
  intros Hxy. pose proof (index_bound x y Hxy). destruct Hsc as [Hb Hw Hh Hbpp Hf], Hxy. unfold fwk_display_advance_position.
  assert (pixel_size di = 2 \/ pixel_size di = 4) by (unfold pixel_size; case_match; auto).
  rewrite (u32_id (y * width di)) by nia. apply u32_id. nia.
Qed.
End pixels.

(** ** Straight lines *)

(** The ideal segment, stepped along its longer axis: [D] and [d] are the longer
    and the shorter distance, and after [k] steps the shorter axis has advanced by
    [k * d / D], rounded to the nearest whole number. *)
Definition minor (D d k : Z) : Z := (2 * k * d + D) / (2 * D).

Lemma minor_error D d k : 0 < D -> -2 * D <= 2 * k * d - D - 2 * D * minor D d k < 0.
Proof. intros. unfold minor. pose proof (Z.div_mod (2 * k * d + D) (2 * D)). pose proof (Z.mod_pos_bound (2 * k * d + D) (2 * D)). lia. Qed.
Lemma minor_unique D d k q : 0 < D -> -2 * D <= 2 * k * d - D - 2 * D * q < 0 -> q = minor D d k.
Proof. intros. unfold minor. apply (Z.div_unique _ _ q (2 * k * d + D - 2 * D * q)); lia. Qed.
Lemma minor_0 D d : 0 <= D -> minor D d 0 = 0.
Proof.
  intros. destruct (decide (D = 0)) as [-> |]; [done|]. symmetry. apply minor_unique; lia.
Qed.
Lemma minor_end D d : 0 <= d <= D -> minor D d D = d.
Proof.
  intros. destruct (decide (D = 0)) as [-> |]; [unfold minor; rewrite Z.div_0_r; lia|]. symmetry. apply minor_unique; lia.
Qed.
Lemma minor_range D d k : 0 <= d <= D -> 0 <= k <= D -> 0 <= minor D d k <= d.
Proof.
  intros Hd Hk. destruct (decide (D = 0)) as [-> |]; [unfold minor; rewrite Z.div_0_r; lia|].
  pose proof (minor_error D d k ltac:(lia)). nia.
Qed.
(** The error of the loop decides when the shorter axis advances. *)
Lemma minor_step D d k : 0 < D -> 0 <= d <= D ->
  minor D d (k + 1) = if 0 <=? 2 * k * d - D - 2 * D * minor D d k + 2 * d then minor D d k + 1 else minor D d k.
Proof. intros HD Hd. pose proof (minor_error D d k HD). symmetry. apply minor_unique; [done|]. case_match; lia. Qed.

Section segment.
Context (xs ys xe ye : Z).

Definition x_longer : bool := Z.abs (ye - ys) <=? Z.abs (xe - xs).
Definition longer : Z := if x_longer then Z.abs (xe - xs) else Z.abs (ye - ys).
Definition shorter : Z := if x_longer then Z.abs (ye - ys) else Z.abs (xe - xs).
Definition dir (a b : Z) : Z := if a <=? b then 1 else -1.
Definition point_x (k : Z) : Z := xs + dir xs xe * (if x_longer then k else minor longer shorter k).
Definition point_y (k : Z) : Z := ys + dir ys ye * (if x_longer then minor longer shorter k else k).
Definition hits (k n x y : Z) : bool := existsb (fun i => (x =? point_x i) && (y =? point_y i)) (seqZ k n).
(** The pixels of the segment. *)
Definition segment (x y : Z) : bool := hits 0 (longer + 1) x y.

Lemma shorter_longer : 0 <= shorter <= longer.
Proof. unfold shorter, longer, x_longer. case_match; bool_hyps; lia. Qed.
Lemma dir_cases a b : dir a b = 1 /\ a <= b \/ dir a b = -1 /\ b < a.
Proof. unfold dir. case_match; bool_hyps; lia. Qed.

(** Both ends are on the segment, and no point leaves the box they span. *)
Lemma point_start : point_x 0 = xs /\ point_y 0 = ys.
Proof. unfold point_x, point_y. rewrite minor_0 by (pose proof shorter_longer; lia). case_match; lia. Qed.
Lemma point_end : point_x longer = xe /\ point_y longer = ye.
Proof.
  unfold point_x, point_y. rewrite minor_end by apply shorter_longer. unfold longer, shorter.
  pose proof (dir_cases xs xe). pose proof (dir_cases ys ye). case_match; nia.
Qed.
Lemma point_box k : 0 <= k <= longer ->
  Z.min xs xe <= point_x k <= Z.max xs xe /\ Z.min ys ye <= point_y k <= Z.max ys ye.
Proof.
  intros Hk. pose proof (minor_range longer shorter k shorter_longer Hk) as Hm. unfold point_x, point_y.
  pose proof (dir_cases xs xe). pose proof (dir_cases ys ye). unfold longer, shorter in *. case_match; nia.
Qed.
Lemma hits_cons k n x y : 0 < n -> hits k n x y = (x =? point_x k) && (y =? point_y k) || hits (k + 1) (n - 1) x y.
Proof. intros. unfold hits. rewrite seqZ_cons by done. done. Qed.
Lemma segment_iff x y : segment x y = true <-> exists k, 0 <= k <= longer /\ x = point_x k /\ y = point_y k.
Proof.
  unfold segment, hits. rewrite existsb_exists. setoid_rewrite <- list_elem_of_In. setoid_rewrite elem_of_seqZ.
  setoid_rewrite andb_true_iff. setoid_rewrite Z.eqb_eq. split; intros (k & ? & ?); exists k; (split; [lia|done]).
Qed.
End segment.

(** ** Operations *)

Section operations.
Context (FWK_RGB_PIXELBIT : Z) (di : fwk_disp_info) (Hsc : screen di).

(** The colour a pixel of the screen shows after [data] was drawn on it. *)
Definition color (data : Z) : Z :=
  stored di (mrt_fwk_disp_convert_rgb FWK_RGB_PIXELBIT (mrt_fwk_disp_bpp_get (bpp di)) data).

Lemma write_point_spec m x y data : on_screen di x y ->
  painted di (color data) (fun x' y' => (x' =? x) && (y' =? y)) m (fwk_display_write_point FWK_RGB_PIXELBIT m di x y data).
Proof. intros Hxy. unfold fwk_display_write_point. rewrite position_spec by done. apply pixel_write; auto. Qed.

(** The variables of the loop after [k] steps along the segment. *)
Lemma line_loop_spec xs ys xe ye data : on_screen di xs ys -> on_screen di xe ye -> forall n k m x y err,
  Z.of_nat n = longer xs ys xe ye + 1 - k -> 0 <= k ->
  (k <= longer xs ys xe ye -> x = point_x xs ys xe ye k /\ y = point_y xs ys xe ye k /\
    err = 2 * k * shorter xs ys xe ye - longer xs ys xe ye - 2 * longer xs ys xe ye * minor (longer xs ys xe ye) (shorter xs ys xe ye) k) ->
  painted di (color data) (hits xs ys xe ye k (Z.of_nat n)) m
    (line_loop FWK_RGB_PIXELBIT n m di (x_longer xs ys xe ye) (dir xs xe) (dir ys ye) (longer xs ys xe ye) (shorter xs ys xe ye) x y err data).
Proof.
  intros Hs He. set (D := longer xs ys xe ye). set (d := shorter xs ys xe ye). pose proof (shorter_longer xs ys xe ye : 0 <= d <= D) as Hd.
  assert (D < 1073741824) as HD by (destruct Hsc, Hs, He; subst D; unfold longer; case_match; lia).
  assert (forall k, 0 <= k <= D -> on_screen di (point_x xs ys xe ye k) (point_y xs ys xe ye k)) as Hon.
  { intros k Hk. pose proof (point_box xs ys xe ye k Hk). destruct Hs, He. unfold on_screen. lia. }
  induction n as [|n IH]; intros k m x y err Hn Hk Hst; [by apply painted_none|].
  destruct Hst as (-> & -> & ->); [lia|]. cbn [line_loop].
  eapply painted_ext; [intros x' y' _; symmetry; apply hits_cons; lia|].
  replace (Z.of_nat (S n) - 1) with (Z.of_nat n) by lia.
  eapply painted_seq; [apply write_point_spec, Hon; lia|].
  destruct (decide (k = D)) as [->|HkD].
  { assert (n = 0%nat) as -> by lia. cbn [line_loop]. by case_match; apply painted_none. }
  rewrite Z.shiftl_mul_pow2, (Z.shiftl_mul_pow2 D) by lia. change (2 ^ 1) with 2.
  pose proof (minor_error D d k ltac:(lia)) as Herr. pose proof (minor_step D d k ltac:(lia) Hd) as Hstep.
  set (e := 2 * k * d - D - 2 * D * minor D d k) in *.
  rewrite (s32_id (d * 2)), (s32_id (D * 2)), (s32_id (e + d * 2)) by lia.
  destruct (Hon (k + 1) ltac:(lia)) as [Hx Hy].
  assert (0 <= point_x xs ys xe ye (k + 1) < W32 /\ 0 <= point_y xs ys xe ye (k + 1) < W32) as [Hx' Hy']
    by (destruct Hsc; unfold W32; lia). clear Hx Hy.
  replace (e + 2 * d) with (e + d * 2) in Hstep by lia. unfold point_x, point_y in Hx', Hy' |- *. fold D d in Hx', Hy' |- *.
  destruct (Z.leb_spec 0 (e + d * 2)) as [Ht|Ht]; rewrite ?s32_id by lia; (apply IH; [lia..|intros _]); unfold point_x, point_y; fold D d;
    rewrite Hstep in Hx', Hy' |- *; destruct (x_longer xs ys xe ye); subst e; (split_and!; first [lia | rewrite u32_id by lia; lia]).
Qed.

(** The distances and directions of the code are those of the segment. *)
Lemma usub_abs a b : 0 <= a < 1073741824 -> 0 <= b < 1073741824 -> s32 (mrt_usub b a) = Z.abs (b - a).
Proof. intros. unfold mrt_usub. rewrite s32_id; case_match; bool_hyps; lia. Qed.
Lemma on_screen_small x y : on_screen di x y -> 0 <= x < 1073741824 /\ 0 <= y < 1073741824.
Proof. intros [??]. destruct Hsc. lia. Qed.

Lemma straight_line_spec current m xs ys xe ye data : sgrt_lock di = 0 -> on_screen di xs ys -> on_screen di xe ye -> exists m',
  fwk_display_write_straight_line FWK_RGB_PIXELBIT current m di xs ys xe ye data = Ok (di, m') /\
  painted di (color data) (segment xs ys xe ye) m m'.
Proof.
  intros Hl Hs He. destruct (on_screen_small _ _ Hs), (on_screen_small _ _ He).
  unfold fwk_display_write_straight_line. rewrite !usub_abs by done.
  destruct (mutex_cycle current) as (l & El & Eu). rewrite Hl, El. cbn [mbind res_bind]. rewrite Eu.
  fold (x_longer xs ys xe ye) (dir xs xe) (dir ys ye). fold (longer xs ys xe ye) (shorter xs ys xe ye).
  pose proof (shorter_longer xs ys xe ye).
  assert (longer xs ys xe ye < 1073741824) by (unfold longer; case_match; lia).
  eexists. split.
  { f_equal. f_equal. unfold set_lock. destruct di; simpl in *. by subst. }
  unfold segment. pose proof (line_loop_spec xs ys xe ye data Hs He (Z.to_nat (longer xs ys xe ye + 1)) 0) as HL. rewrite Z2Nat.id in HL by lia.
  apply HL; [lia..|]. intros _. destruct (point_start xs ys xe ye) as [-> ->]. rewrite s32_id, minor_0 by lia. lia.
Qed.

(** A segment along an axis is a run of pixels. *)
Lemma segment_row xs xe y x' y' : segment xs y xe y x' y' = (y' =? y) && (Z.min xs xe <=? x') && (x' <=? Z.max xs xe).
Proof.
  apply eq_bool_prop_intro. rewrite !Is_true_true, segment_iff, !andb_true_iff, Z.eqb_eq, !Z.leb_le.
  assert (x_longer xs y xe y = true) as Hx by (unfold x_longer; rewrite Z.sub_diag; apply Z.leb_le; simpl; lia).
  unfold point_x, point_y, longer, shorter. rewrite Hx, Z.sub_diag. pose proof (dir_cases xs xe). change (Z.abs 0) with 0.
  assert (forall D k, 0 <= k <= D -> minor D 0 k = 0) as Hm.
  { intros D k Hk. pose proof (minor_range D 0 k ltac:(lia) Hk). lia. }
  split.
  - intros (k & Hk & -> & ->). rewrite Hm by lia. nia.
  - intros [[-> ?] ?]. exists (Z.abs (x' - xs)). rewrite Hm by lia. nia.
Qed.
Lemma segment_column ys ye x x' y' : segment x ys x ye x' y' = (x' =? x) && (Z.min ys ye <=? y') && (y' <=? Z.max ys ye).
Proof.
  apply eq_bool_prop_intro. rewrite !Is_true_true, segment_iff, !andb_true_iff, Z.eqb_eq, !Z.leb_le.
  assert (forall D k, 0 <= k <= D -> minor D 0 k = 0) as Hm.
  { intros D k Hk. pose proof (minor_range D 0 k ltac:(lia) Hk). lia. }
  unfold point_x, point_y, longer, shorter, x_longer. rewrite Z.sub_diag. pose proof (dir_cases ys ye). change (Z.abs 0) with 0.
  destruct (Z.leb_spec (Z.abs (ye - ys)) 0) as [E|E].
  - assert (ye = ys) as -> by lia. rewrite Z.sub_diag. change (Z.abs 0) with 0. split.
    + intros (k & Hk & -> & ->). rewrite Hm by lia. assert (k = 0) as -> by lia. nia.
    + intros [[-> ?] ?]. exists 0. rewrite Hm by lia. nia.
  - split.
    + intros (k & Hk & -> & ->). rewrite Hm by lia. nia.
    + intros [[-> ?] ?]. exists (Z.abs (y' - ys)). rewrite Hm by lia. nia.
Qed.

(** ** Areas *)

(** The pixels with an index in a range. *)
Definition run (i n : Z) (x y : Z) : bool := (i <=? y * width di + x) && (y * width di + x <? i + n).
Lemma run_cons i n x y : 0 <= n -> (y * width di + x =? i) || run (i + 1) n x y = run i (n + 1) x y.
Proof.
  intros. apply eq_bool_prop_intro. unfold run. rewrite !Is_true_true, orb_true_iff, !andb_true_iff, Z.eqb_eq, !Z.leb_le, !Z.ltb_lt. lia.
Qed.
Lemma run_nil i x y : run i 0 x y = false.
Proof. unfold run. apply andb_false_iff. rewrite Z.leb_gt, Z.ltb_ge. lia. Qed.
(** A run within a row is a row of a box. *)
Definition box (x0 y0 w h x y : Z) : bool := (x0 <=? x) && (x <? x0 + w) && (y0 <=? y) && (y <? y0 + h).
Lemma run_row x0 y0 w x y : 0 <= x0 -> 0 <= w -> x0 + w <= width di -> on_screen di x y ->
  run (y0 * width di + x0) w x y = box x0 y0 w 1 x y.
Proof.
  intros ? ? ? [??]. apply eq_bool_prop_intro. unfold run, box.
  rewrite !Is_true_true, !andb_true_iff, !Z.leb_le, !Z.ltb_lt. split; [intros []|intros [[[]]]].
  - assert (y = y0) by nia. subst. lia.
  - assert (y = y0) by lia. subst. lia.
Qed.
Lemma box_rows x0 y0 w h x y : 0 <= h -> box x0 y0 w 1 x y || box x0 (y0 + 1) w h x y = box x0 y0 w (h + 1) x y.
Proof.
  intros. apply eq_bool_prop_intro. unfold box. rewrite !Is_true_true, orb_true_iff, !andb_true_iff, !Z.leb_le, !Z.ltb_lt. lia.
Qed.

Lemma pixels_bound : width di * height di < W32.
Proof. pose proof (pixel_size_cases di Hsc). destruct Hsc. nia. Qed.
Lemma fill_row_spec v offset pb : pb = bpp di \/ pb = mrt_fwk_disp_bpp_get (bpp di) -> 0 <= offset -> forall n m x_cnt,
  0 <= x_cnt -> x_cnt + offset + Z.of_nat n <= width di * height di ->
  painted di (stored di v) (run (x_cnt + offset) (Z.of_nat n)) m (fill_row n m (buffer di) offset pb v x_cnt).
Proof.
  intros Hpb Ho. pose proof pixels_bound.
  induction n as [|n IH]; intros m x_cnt Hx Hn; cbn [fill_row]; [apply painted_none; intros; apply run_nil|].
  rewrite u32_id by lia. eapply painted_ext; [|eapply painted_seq; [apply (index_write di Hsc m (x_cnt + offset) v pb); [lia|done]|apply IH; lia]].
  intros x y _. replace (x_cnt + 1 + offset) with (x_cnt + offset + 1) by lia. cbv beta. rewrite run_cons by lia. f_equal. lia.
Qed.

(** A run of words filled at once. *)
Lemma memset_words v : bpp di = 24 \/ bpp di = 32 -> forall n m i, 0 <= i -> i + Z.of_nat n <= width di * height di ->
  painted di (u32 v) (run i (Z.of_nat n)) m (__memset_ex n m (buffer di + 4 * i) v).
Proof.
  intros Hb. assert (pixel_size di = 4) as Hp by (unfold pixel_size; destruct Hb as [-> | ->]; done).
  assert (stored di v = u32 v) as <- by (unfold stored; destruct Hb as [-> | ->]; done).
  induction n as [|n IH]; intros m i Hi Hn; cbn [__memset_ex]; [apply painted_none; intros; apply run_nil|].
  replace (buffer di + 4 * i + 4) with (buffer di + 4 * (i + 1)) by lia.
  apply (painted_ext di _ (fun x y => (y * width di + x =? i) || run (i + 1) (Z.of_nat n) x y));
    [|eapply (painted_seq di _ (fun x y => y * width di + x =? i)); [|apply IH; lia]].
  - intros x y _. rewrite run_cons by lia. f_equal. lia.
  - pose proof (index_write di Hsc m i v (bpp di) ltac:(lia) ltac:(by left)) as H. rewrite (write_pixel_spec di Hsc), Hp in H by (lia || by left).
    destruct Hb as [E|E]; rewrite E in H; exact H.
Qed.
Lemma memset_ex_words v n m i : bpp di = 24 \/ bpp di = 32 -> Z.land (buffer di) 3 = 0 -> 0 <= i -> 0 <= n -> i + n <= width di * height di ->
  painted di (u32 v) (run i n) m (memset_ex m (buffer di + 4 * i) v (4 * n)).
Proof.
  intros Hb Ha Hi Hn Hf. assert (pixel_size di = 4) as Hp by (unfold pixel_size; destruct Hb as [-> | ->]; done).
  destruct Hsc as [Hb0 ? ? _ Hfit]. rewrite Hp in Hfit.
  assert (forall z, Z.land (buffer di + 4 * z) 3 = 0) as Hal.
  { intros z. change 3 with (Z.ones 2) in *. rewrite Z.land_ones in * by lia. change (2 ^ 2) with 4 in *. rewrite Z.add_mod, Ha by lia.
    rewrite (Z.mul_comm 4 z), Z.mod_mul by lia. done. }
  unfold memset_ex, kmemset_ex. rewrite (proj2 (Z.eqb_neq _ _)) by lia. rewrite (u32_id (buffer di + 4 * i + 4 * n)) by lia.
  replace (buffer di + 4 * i + 4 * n) with (buffer di + 4 * (i + n)) by lia. rewrite !Hal. cbn [Z.eqb negb orb].
  replace (Z.to_nat ((buffer di + 4 * (i + n) - (buffer di + 4 * i) + 3) / 4)) with (Z.to_nat n).
  - pose proof (memset_words v Hb (Z.to_nat n) m i Hi) as H. rewrite Z2Nat.id in H by lia. apply H. lia.
  - f_equal. symmetry. replace (buffer di + 4 * (i + n) - (buffer di + 4 * i) + 3) with (3 + n * 4) by lia. rewrite Z.div_add by lia. done.
Qed.

(** Whole words are only filled at word addresses. *)
Definition aligned : Prop := bpp di = FWK_RGB_PIXEL16 \/ Z.land (buffer di) 3 = 0.

Lemma fill_one_row v m x0 y0 w : aligned -> 0 <= x0 -> 0 <= w -> x0 + w <= width di -> 0 <= y0 < height di ->
  painted di (stored di v) (box x0 y0 w 1) m
    (let offset := fwk_display_advance_position x0 y0 (width di) in
     let pixelbits := mrt_fwk_disp_bpp_get (bpp di) in
     if (pixelbits =? FWK_RGB_PIXEL24) || (pixelbits =? FWK_RGB_PIXEL32)
     then memset_ex m (u32 (buffer di + u32 (Z.shiftl offset 2))) v (u32 (Z.shiftl w 2))
     else fill_row (Z.to_nat w) m (buffer di) offset pixelbits v 0).
Proof.
  intros Ha Hx Hw Hxw Hy. pose proof pixels_bound as Hb.
  assert (y0 * width di + x0 + w <= width di * height di) as Hi by nia.
  assert (fwk_display_advance_position x0 y0 (width di) = y0 * width di + x0) as ->
    by (unfold fwk_display_advance_position; rewrite (u32_id (y0 * width di)), u32_id; nia).
  apply (painted_ext di _ (run (y0 * width di + x0) w)); [intros; by apply run_row|]. cbv zeta.
  destruct (pixel_size_cases di Hsc) as [[Hp E]|[Hp E]].
  - unfold mrt_fwk_disp_bpp_get. rewrite E. cbn [Z.eqb orb Pos.eqb FWK_RGB_PIXEL24 FWK_RGB_PIXEL32 FWK_RGB_PIXEL16].
    pose proof (fill_row_spec v (y0 * width di + x0) 16 ltac:(left; done) ltac:(nia) (Z.to_nat w) m 0 ltac:(lia)) as H.
    rewrite Z2Nat.id in H by lia. apply H. lia.
  - assert (mrt_fwk_disp_bpp_get (bpp di) = 32) as -> by (unfold mrt_fwk_disp_bpp_get; destruct E as [-> | ->]; done).
    cbn [Z.eqb orb Pos.eqb FWK_RGB_PIXEL24 FWK_RGB_PIXEL32]. destruct Hsc as [? ? ? _ Hf]. rewrite Hp in Hf.
    rewrite !Z.shiftl_mul_pow2 by lia. change (2 ^ 2) with 4. set (i := y0 * width di + x0) in *. assert (0 <= i) by (subst i; nia).
    rewrite (u32_id (i * 4)), (u32_id (w * 4)), (u32_id (buffer di + i * 4)), (Z.mul_comm i), (Z.mul_comm w) by lia.
    replace (stored di v) with (u32 v) by (unfold stored; destruct E as [-> | ->]; done).
    apply memset_ex_words; [done| |lia..]. destruct Ha as [Ha|Ha]; [|done]. unfold FWK_RGB_PIXEL16 in Ha. lia.
Qed.
Lemma fill_rows_spec v x0 y0 w : aligned -> 0 <= x0 -> 0 <= y0 -> 0 <= w -> x0 + w <= width di -> forall n m y_cnt,
  0 <= y_cnt -> y0 + y_cnt + Z.of_nat n <= height di ->
  painted di (stored di v) (box x0 (y0 + y_cnt) w (Z.of_nat n)) m (fill_rows n m di x0 y0 w (mrt_fwk_disp_bpp_get (bpp di)) v y_cnt).
Proof.
  intros Ha Hx Hy Hw Hxw. induction n as [|n IH]; intros m y_cnt Hc Hn; cbn [fill_rows].
  - apply painted_none. intros x y _. unfold box. rewrite !andb_false_iff, !Z.leb_gt, !Z.ltb_ge. lia.
  - rewrite (u32_id (y0 + y_cnt)) by (destruct Hsc; unfold W32; lia).
    apply (painted_ext di _ (fun x y => box x0 (y0 + y_cnt) w 1 x y || box x0 (y0 + (y_cnt + 1)) w (Z.of_nat n) x y)).
    + intros x y _. rewrite Z.add_assoc, box_rows by lia. f_equal. lia.
    + eapply painted_seq; [apply (fill_one_row v m x0 (y0 + y_cnt) w); (done || lia)|]. apply IH; lia.
Qed.

Lemma fill_rectangle_spec current m xs ys xe ye data : sgrt_lock di = 0 -> aligned ->
  0 <= xs <= width di -> 0 <= xe <= width di -> 0 <= ys <= height di -> 0 <= ye <= height di -> exists m',
  fwk_display_fill_rectangle FWK_RGB_PIXELBIT current m di xs ys xe ye data = Ok (di, m') /\
  painted di (color data) (box (Z.min xs xe) (Z.min ys ye) (Z.abs (xe - xs)) (Z.abs (ye - ys))) m m'.
Proof.
  intros Hl Ha H1 H2 H3 H4. unfold fwk_display_fill_rectangle. rewrite !(proj2 (Z.ltb_ge _ _)) by lia. cbn [orb].
  replace (if xe <? xs then (xe, xs) else (xs, xe)) with (Z.min xs xe, Z.max xs xe) by (case_match; bool_hyps; f_equal; lia).
  replace (if ye <? ys then (ye, ys) else (ys, ye)) with (Z.min ys ye, Z.max ys ye) by (case_match; bool_hyps; f_equal; lia).
  cbv beta iota zeta. assert (forall a b, mrt_usub (Z.max a b) (Z.min a b) = Z.abs (b - a)) as Hu by (intros a b; unfold mrt_usub; case_match; bool_hyps; lia).
  destruct (mutex_cycle current) as (l & El & Eu). rewrite !Hu, Hl, El. cbn [mbind res_bind]. rewrite Eu. eexists. split.
  { f_equal. f_equal. unfold set_lock. destruct di; simpl in *. by subst. }
  set (v := mrt_fwk_disp_convert_rgb _ _ _). change (color data) with (stored di v).
  pose proof (fill_rows_spec v (Z.min xs xe) (Z.min ys ye) (Z.abs (xe - xs)) Ha ltac:(lia) ltac:(lia) ltac:(lia) ltac:(lia)
    (Z.to_nat (Z.abs (ye - ys))) m 0 ltac:(lia)) as H.
  rewrite Z2Nat.id, Z.add_0_r in H by lia. apply H. lia.
Qed.
Lemma clear_spec m data : bpp di = 24 \/ bpp di = 32 -> Z.land (buffer di) 3 = 0 -> buf_size di = 4 * (width di * height di) ->
  painted di (color data) (fun _ _ => true) m (fwk_display_clear FWK_RGB_PIXELBIT m di data).
Proof.
  intros Hb Ha Hs. unfold fwk_display_clear. rewrite Hs. unfold color. set (v := mrt_fwk_disp_convert_rgb _ _ _).
  replace (stored di v) with (u32 v) by (unfold stored; destruct Hb as [-> | ->]; done).
  pose proof Hsc as [? ? ? _ _]. rewrite <- (Z.add_0_r (buffer di)). change 0 with (4 * 0) at 1.
  eapply painted_ext; [|apply memset_ex_words; [done|done|lia|nia|lia]].
  intros x y Hxy. pose proof (index_bound di x y Hxy). unfold run. apply andb_true_iff. rewrite Z.leb_le, Z.ltb_lt. lia.
Qed.
End operations.

(** The border of the rectangle with the given corners. *)
Definition border (xs ys xe ye x y : Z) : bool :=
  (Z.min xs xe <=? x) && (x <=? Z.max xs xe) && (Z.min ys ye <=? y) && (y <=? Z.max ys ye) &&
  ((x =? xs) || (x =? xe) || (y =? ys) || (y =? ye)).

(** How far a point of a segment is from the line through its ends: twice the
    area it spans with them. *)
Lemma segment_near xs ys xe ye x y : segment xs ys xe ye x y = true ->
  2 * Z.abs ((x - xs) * (ye - ys) - (y - ys) * (xe - xs)) <= longer xs ys xe ye.
Proof.
  intros (k & Hk & -> & ->)%segment_iff. set (D := longer xs ys xe ye) in *. set (d := shorter xs ys xe ye).
  destruct (decide (D = 0)) as [E|E].
  { unfold D, longer in E. unfold point_x, point_y. assert (xe = xs /\ ye = ys) as [-> ->]; [|lia].
    unfold x_longer in E. case_match; bool_hyps; lia. }
  pose proof (minor_error D d k ltac:(unfold D, longer in *; case_match; lia)) as He. unfold point_x, point_y. fold D d.
  set (q := minor D d k) in *. subst D d. unfold longer, shorter in *.
  pose proof (dir_cases xs xe) as Hx. pose proof (dir_cases ys ye) as Hy.
  destruct (x_longer xs ys xe ye).
  - assert ((xs + dir xs xe * k - xs) * (ye - ys) - (ys + dir ys ye * q - ys) * (xe - xs) =
      dir xs xe * dir ys ye * (k * Z.abs (ye - ys) - q * Z.abs (xe - xs))) as -> by nia. nia.
  - assert ((xs + dir xs xe * q - xs) * (ye - ys) - (ys + dir ys ye * k - ys) * (xe - xs) =
      dir xs xe * dir ys ye * (q * Z.abs (ye - ys) - k * Z.abs (xe - xs))) as -> by nia. nia.
Qed.

(** Drawing a straight line between two points of a screen paints exactly
    the pixels of the rounded ideal segment, in the colour asked for, and changes no
    other memory: both ends are painted, each step along the longer axis has its
    pixel, and no pixel is more than half a step of the shorter axis away from the
    line through the ends.  The lock of the screen is free afterwards. *)
Theorem straight_line_exact FWK_RGB_PIXELBIT current di m xs ys xe ye data :
  screen di -> sgrt_lock di = 0 -> on_screen di xs ys -> on_screen di xe ye -> exists m',
  fwk_display_write_straight_line FWK_RGB_PIXELBIT current m di xs ys xe ye data = Ok (di, m') /\
  painted di (color FWK_RGB_PIXELBIT di data) (segment xs ys xe ye) m m' /\
  segment xs ys xe ye xs ys = true /\ segment xs ys xe ye xe ye = true /\
  (forall k, 0 <= k <= longer xs ys xe ye -> exists x y, segment xs ys xe ye x y = true /\
    (if x_longer xs ys xe ye then x - xs else y - ys) = k * (if x_longer xs ys xe ye then dir xs xe else dir ys ye)) /\
  (forall x y, segment xs ys xe ye x y = true ->
    2 * Z.abs ((x - xs) * (ye - ys) - (y - ys) * (xe - xs)) <= longer xs ys xe ye).
Proof.
  intros Hsc Hl Hs He. destruct (straight_line_spec FWK_RGB_PIXELBIT di Hsc current m xs ys xe ye data Hl Hs He) as (m' & -> & Hp).
  pose proof (shorter_longer xs ys xe ye). exists m'. split_and!; try done.
  - apply segment_iff. exists 0. destruct (point_start xs ys xe ye) as [-> ->]. lia.
  - apply segment_iff. exists (longer xs ys xe ye). destruct (point_end xs ys xe ye) as [-> ->]. lia.
  - intros k Hk. exists (point_x xs ys xe ye k), (point_y xs ys xe ye k). split; [apply segment_iff; eauto|].
    unfold point_x, point_y. destruct (x_longer xs ys xe ye); lia.
  - intros x y. apply segment_near.
Qed.

Lemma border_segments xs ys xe ye x y :
  segment xs ys xe ys x y || segment xs ys xs ye x y || segment xs ye xe ye x y || segment xe ys xe ye x y = border xs ys xe ye x y.
Proof.
  rewrite !segment_row, !segment_column. apply eq_bool_prop_intro. unfold border.
  rewrite !Is_true_true, !orb_true_iff, !andb_true_iff, !orb_true_iff, !Z.eqb_eq, !Z.leb_le. lia.
Qed.


(** ** A small screen *)

Definition demo_screen : fwk_disp_info := DispInfo 4096 0 192 8 6 32 0.
Lemma demo_screen_ok : screen demo_screen.
Proof. split; cbn; unfold W32, FWK_RGB_PIXEL16, FWK_RGB_PIXEL24, FWK_RGB_PIXEL32; (lia || auto). Qed.

Definition demo_pixels : list (Z * Z) := x ← seqZ 0 8; y ← seqZ 0 6; [(x, y)].

Lemma straight_line_exact_witness : exists m',
  fwk_display_write_straight_line 32 true (fun _ => 0) demo_screen 1 4 6 2 255 = Ok (demo_screen, m') /\
  (forall x y, on_screen demo_screen x y -> pixel m' demo_screen x y = if segment 1 4 6 2 x y then 255 else 0) /\
  filter (fun p => segment 1 4 6 2 p.1 p.2 = true) demo_pixels = [(1, 4); (2, 4); (3, 3); (4, 3); (5, 2); (6, 2)].
Proof.
  destruct (straight_line_exact 32 true demo_screen (fun _ => 0) 1 4 6 2 255) as (m' & E & [Hp _] & _);
    [apply demo_screen_ok|done|by split; cbn; lia..|].
  exists m'. split_and!; [done|exact Hp|vm_compute; reflexivity].
Defined.


(** Clearing a 16 bit screen stores the colour as whole words: every second
    pixel is cleared to zero instead. *)
Example clear_16bit_alternates :
  let di := DispInfo 4096 0 8 2 2 16 0 in
  let m := fwk_display_clear 32 (fun _ => 0) di 16777215 in
  (pixel m di 0 0, pixel m di 1 0, pixel m di 0 1, pixel m di 1 1) = (65535, 0, 65535, 0).
Proof. reflexivity. Qed.

(** Widening a 16 bit colour does not mask the channels: the low bits of green
    spill over, and a colour changes on its way to 24 bits and back. *)
Example widened_green : to_rgb888 128 = 5120 /\ to_rgb565 (to_rgb888 128) = 160.
Proof. split; reflexivity. Qed.
