(* ===== verification/DispText.v ===== *)
(** * Text on the screen (platform/framebuffer/fwk_disp.c)

    The cursor of a window, the position of a glyph in a font and the loop that
    draws a string.  Text never leaves its window. *)

From stdpp Require Import prelude gmap fin_maps sorting.
From S2P Require Import Prelude Mem Bytes MemPool MemOps Sync Generic Disp DispSpec.

Definition ASCII_SPACE : Z := 32.
Definition ASCII_MAX : Z := 127.
Definition AREA_FIRST_CODE : Z := 161.
Definition BITS_FIRST_CODE : Z := 161.
Definition NR_FWK_FONT_SONG : Z := 0.

Record fwk_font_setting := FontSetting {
  ptr_ascii : Z; ptr_hz : Z; font : Z; fcolor : Z; background : Z; fsize : Z; line_spacing : Z; word_spacing : Z;
  left_spacing : Z; right_spacing : Z; upper_spacing : Z; down_spacing : Z }.
Record fwk_disp_ctrl := DispCtrl {
  sprt_di : fwk_disp_info; sgrt_set : fwk_font_setting;
  dc_x_start : Z; dc_y_start : Z; dc_x_end : Z; dc_y_end : Z; dc_x_next : Z; dc_y_next : Z }.

Definition fwk_display_set_cursor (sprt_dctrl : fwk_disp_ctrl) (x_start y_start x_end y_end : Z) : fwk_disp_ctrl :=
  let di := sprt_di sprt_dctrl in
  let set := sgrt_set sprt_dctrl in
  let xs := u32 (x_start + left_spacing set) in
  let ys := u32 (y_start + upper_spacing set) in
  let xe := if x_end <? width di then x_end else width di in
  let xe := if right_spacing set <? xe then xe - right_spacing set else xe in
  let ye := if y_end <? height di then y_end else height di in
  let ye := if down_spacing set <? ye then ye - down_spacing set else ye in
  DispCtrl di set xs ys xe ye xs ys.

(** ** Fonts *)

Definition fwk_font_ascii_lseek (ptr_lib size ch : Z) : Z :=
  let pixel_bits := mrt_align (Z.shiftr size 1) 8 in
  let pixel_bytes := Z.shiftr pixel_bits 3 in
  let offset := u32 (u32 (ch - ASCII_SPACE) * u32 (size * pixel_bytes)) in
  if negb (ptr_lib =? 0) then u32 (ptr_lib + offset) else nullptr.
Definition fwk_fontlib_lseek (ptr_lib font size word : Z) : Z :=
  let pixel_bytes := Z.shiftr size 3 in
  let offset :=
    if font =? NR_FWK_FONT_SONG then
      let area_code := u32 (Z.land (Z.shiftr word 8) 255 - AREA_FIRST_CODE) in
      let bit_code := u32 (Z.land word 255 - BITS_FIRST_CODE) in
      let offset := u32 (u32 (Z.shiftl area_code 7) - u32 (Z.shiftl area_code 5) - u32 (Z.shiftl area_code 1) + bit_code) in
      u32 (offset * u32 (size * pixel_bytes))
    else 0 in
  if negb (ptr_lib =? 0) then u32 (ptr_lib + offset) else nullptr.

Section text.
Context (FWK_RGB_PIXELBIT : Z) (current : bool).

(** ** Glyphs *)

(** The eight dots of a byte, the bytes of a line and the lines of a glyph. *)
Fixpoint glyph_bits (n : nat) (m : mem) (di : fwk_disp_info) (x y x_data color : Z) : mem :=
  match n with
  | O => m
  | S n =>
      let m := if negb (Z.land x_data 128 =? 0) then fwk_display_write_point FWK_RGB_PIXELBIT m di x y color else m in
      glyph_bits n m di (u32 (x + 1)) y (u32 (Z.shiftl x_data 1)) color
  end.
Fixpoint glyph_bytes (n : nat) (m : mem) (di : fwk_disp_info) (ptr x_pos y color byte_cnt : Z) : mem :=
  match n with
  | O => m
  | S n =>
      let x_data := m (u32 (ptr + byte_cnt)) in
      let m := glyph_bits 8 m di (u32 (x_pos + u32 (Z.shiftl byte_cnt 3))) y x_data color in
      glyph_bytes n m di ptr x_pos y color (byte_cnt + 1)
  end.
Fixpoint glyph_rows (n : nat) (m : mem) (di : fwk_disp_info) (ptr_dmatx x_pos y_pos arr_inc color y_cnt : Z) : mem :=
  match n with
  | O => m
  | S n =>
      let m := glyph_bytes (Z.to_nat arr_inc) m di (u32 (ptr_dmatx + u32 (y_cnt * arr_inc))) x_pos (u32 (y_pos + y_cnt)) color 0 in
      glyph_rows n m di ptr_dmatx x_pos y_pos arr_inc color (y_cnt + 1)
  end.

(** ** Strings *)

(** A character of the string: a byte, or two bytes with the highest bit set.
    [None] is a character that is skipped. *)
Definition glyph_of (set : fwk_font_setting) (str : list Z) : option (Z * Z) * list Z :=
  match str with
  | [] => (None, [])
  | c :: str =>
      if (c <? ASCII_SPACE) || (c =? ASCII_MAX) then (None, str)
      else if negb (Z.land c 128 =? 0) then
        match str with
        | d :: str' =>
            if Z.land d 128 =? 0 then (None, str)
            else
              let flib_index := Z.land (Z.lor (Z.shiftl c 8) d) 65535 in
              if ptr_hz set =? 0 then (None, str')
              else
                let ptr_dmatx := fwk_fontlib_lseek (ptr_hz set) (font set) (fsize set) flib_index in
                (if ptr_dmatx =? 0 then None else Some (fsize set, ptr_dmatx), str')
        | [] => (None, [])
        end
      else if ptr_ascii set =? 0 then (None, str)
      else
        let ptr_dmatx := fwk_font_ascii_lseek (ptr_ascii set) (fsize set) c in
        (if ptr_dmatx =? 0 then None else Some (Z.shiftr (fsize set) 1, ptr_dmatx), str)
  end.

(** The loop of [__fwk_display_dot_matrix_word]; each step takes a character,
    so the length of the string is fuel enough. *)
Fixpoint word_loop (fuel : nat) (m : mem) (dc : fwk_disp_ctrl) (str : list Z) (x_pos y_pos : Z) : res (fwk_disp_ctrl * list Z * mem) :=
  let done x_pos y_pos := DispCtrl (sprt_di dc) (sgrt_set dc) (dc_x_start dc) (dc_y_start dc) (dc_x_end dc) (dc_y_end dc) x_pos y_pos in
  match str with
  | [] => Ok (done x_pos y_pos, [], m)
  | c :: _ =>
      match fuel with
      | O => Spin
      | S fuel =>
          let set := sgrt_set dc in
          let '(x_pos, y_pos) :=
            if (dc_x_end dc <? u32 (x_pos + fsize set)) || (c =? 10)
            then (dc_x_start dc, u32 (y_pos + u32 (fsize set + line_spacing set))) else (x_pos, y_pos) in
          if dc_y_end dc <? u32 (y_pos + fsize set) then Ok (done x_pos y_pos, str, m)
          else
            match glyph_of set str with
            | (None, str) => word_loop fuel m dc str x_pos y_pos
            | (Some (x_inc, ptr_dmatx), str) =>
                let di := sprt_di dc in
                let arr_inc := Z.shiftr x_inc 3 in
                l ← mutex_lock current (sgrt_lock di);
                let m := glyph_rows (Z.to_nat (fsize set)) m di ptr_dmatx x_pos y_pos arr_inc (fcolor set) 0 in
                let dc := DispCtrl (set_lock (mutex_unlock current l) di) set (dc_x_start dc) (dc_y_start dc) (dc_x_end dc) (dc_y_end dc)
                            (dc_x_next dc) (dc_y_next dc) in
                word_loop fuel m dc str (u32 (x_pos + u32 (x_inc + word_spacing set))) y_pos
            end
      end
  end.
(** The result is the number of bytes taken from the string. *)
Definition fwk_display_word (m : mem) (dc : fwk_disp_ctrl) (fmt : list Z) : res (Z * fwk_disp_ctrl * mem) :=
  '(dc, rest, m) ← word_loop (length fmt) m dc fmt (dc_x_next dc) (dc_y_next dc);
  Ok (len fmt - len rest, dc, m).
End text.

(** ** Windows *)

(** Some pixels of an area were given one colour; nothing else changed. *)
Definition inked (di : fwk_disp_info) (c : Z) (W : Z -> Z -> Prop) (m m' : mem) : Prop :=
  exists S, painted di c S m m' /\ forall x y, on_screen di x y -> S x y = true -> W x y.

Lemma inked_refl di c W m : inked di c W m m.
Proof. exists (fun _ _ => false). split; [by apply painted_none|done]. Qed.
Lemma inked_trans di c W m1 m2 m3 : inked di c W m1 m2 -> inked di c W m2 m3 -> inked di c W m1 m3.
Proof.
  intros (S1 & P1 & H1) (S2 & P2 & H2). exists (fun x y => S1 x y || S2 x y). split; [by eapply painted_seq|].
  intros x y Hxy [?|?]%orb_true_iff; auto.
Qed.
Lemma inked_mono di c (W W' : Z -> Z -> Prop) m m' : (forall x y, W x y -> W' x y) -> inked di c W m m' -> inked di c W' m m'.
Proof. intros HW (S & P & H). exists S. split; [done|]. intros x y Hxy HS. by apply HW, H. Qed.
#[export] Hint Resolve inked_refl : kernel.

Definition area (x0 y0 x1 y1 x y : Z) : Prop := x0 <= x < x1 /\ y0 <= y < y1.

Section inked.
Context (FWK_RGB_PIXELBIT : Z) (di : fwk_disp_info) (Hsc : screen di) (data : Z).
Notation ink := (inked di (color FWK_RGB_PIXELBIT di data)).

Lemma inked_point m x y : on_screen di x y -> ink (area x y (x + 1) (y + 1)) m (fwk_display_write_point FWK_RGB_PIXELBIT m di x y data).
Proof using Hsc.
  intros Hxy. eexists. split; [by apply write_point_spec|]. intros x' y' _ E. cbv beta in E. bool_hyps. unfold area. lia.
Qed.
Lemma glyph_bits_inked y n : forall m x x_data, 0 <= x -> x + Z.of_nat n <= width di -> 0 <= y < height di ->
  ink (area x y (x + Z.of_nat n) (y + 1)) m (glyph_bits FWK_RGB_PIXELBIT n m di x y x_data data).
Proof using Hsc.
  induction n as [|n IH]; intros m x x_data Hx Hn Hy; cbn [glyph_bits]; [apply inked_refl|].
  eapply (inked_trans _ _ _ _ (if negb (Z.land x_data 128 =? 0) then fwk_display_write_point FWK_RGB_PIXELBIT m di x y data else m)).
  - destruct (negb _); [|apply inked_refl]. eapply inked_mono; [|apply inked_point; split; lia]. unfold area. lia.
  - rewrite u32_id by (destruct Hsc; unfold W32; lia). eapply inked_mono; [|apply IH; lia]. unfold area. lia.
Qed.
Lemma glyph_bytes_inked ptr x_pos y n : forall m byte_cnt, 0 <= x_pos -> 0 <= byte_cnt -> x_pos + 8 * (byte_cnt + Z.of_nat n) <= width di ->
  0 <= y < height di -> ink (area x_pos y (x_pos + 8 * (byte_cnt + Z.of_nat n)) (y + 1)) m
    (glyph_bytes FWK_RGB_PIXELBIT n m di ptr x_pos y data byte_cnt).
Proof using Hsc.
  induction n as [|n IH]; intros m b Hx Hb Hn Hy; cbn [glyph_bytes]; [apply inked_refl|].
  assert (u32 (x_pos + u32 (Z.shiftl b 3)) = x_pos + 8 * b) as ->.
  { rewrite Z.shiftl_mul_pow2 by lia. change (2 ^ 3) with 8. destruct Hsc. rewrite (u32_id (b * 8)), u32_id by (unfold W32; lia). lia. }
  eapply inked_trans; [eapply inked_mono; [|apply (glyph_bits_inked y 8 m (x_pos + 8 * b)); lia]|eapply inked_mono; [|apply IH; lia]]; unfold area; lia.
Qed.
Lemma glyph_rows_inked ptr x_pos y_pos arr_inc n : forall m y_cnt, 0 <= x_pos -> 0 <= arr_inc -> x_pos + 8 * arr_inc <= width di ->
  0 <= y_pos -> 0 <= y_cnt -> y_pos + y_cnt + Z.of_nat n <= height di ->
  ink (area x_pos y_pos (x_pos + 8 * arr_inc) (y_pos + y_cnt + Z.of_nat n)) m
    (glyph_rows FWK_RGB_PIXELBIT n m di ptr x_pos y_pos arr_inc data y_cnt).
Proof using Hsc.
  induction n as [|n IH]; intros m y_cnt Hx Ha Hxa Hy Hc Hn; cbn [glyph_rows]; [apply inked_refl|].
  rewrite (u32_id (y_pos + y_cnt)) by (destruct Hsc; unfold W32; lia).
  eapply inked_trans; [eapply inked_mono; [|apply (glyph_bytes_inked (u32 (ptr + u32 (y_cnt * arr_inc))) x_pos (y_pos + y_cnt) (Z.to_nat arr_inc) m 0); lia]|
    eapply inked_mono; [|apply IH; lia]]; unfold area; lia.
Qed.
End inked.

(** A window on a screen that is wide enough for a character; the cursor is
    in it or behind its right or lower edge. *)
Definition small (z : Z) : Prop := 0 <= z < 268435456.
Record window (dc : fwk_disp_ctrl) : Prop := {
  wn_screen : screen (sprt_di dc);
  wn_lock : sgrt_lock (sprt_di dc) = 0;
  wn_size : small (fsize (sgrt_set dc));
  wn_line : small (line_spacing (sgrt_set dc));
  wn_word : small (word_spacing (sgrt_set dc));
  wn_x : 0 <= dc_x_start dc /\ dc_x_start dc + fsize (sgrt_set dc) <= dc_x_end dc <= width (sprt_di dc);
  wn_y : 0 <= dc_y_start dc /\ dc_y_end dc <= height (sprt_di dc) }.
Definition cursor (dc : fwk_disp_ctrl) (x_pos y_pos : Z) : Prop :=
  dc_x_start dc <= x_pos <= dc_x_end dc + word_spacing (sgrt_set dc) /\ dc_y_start dc <= y_pos < 2147483648.
Definition move_cursor (dc : fwk_disp_ctrl) (x_pos y_pos : Z) : fwk_disp_ctrl :=
  DispCtrl (sprt_di dc) (sgrt_set dc) (dc_x_start dc) (dc_y_start dc) (dc_x_end dc) (dc_y_end dc) x_pos y_pos.
Definition in_window (dc : fwk_disp_ctrl) : Z -> Z -> Prop := area (dc_x_start dc) (dc_y_start dc) (dc_x_end dc) (dc_y_end dc).

Lemma glyph_of_spec set str : str <> [] -> 0 <= fsize set -> exists pre, str = pre ++ snd (glyph_of set str) /\ pre <> [] /\
  forall x_inc p, fst (glyph_of set str) = Some (x_inc, p) -> 0 <= x_inc <= fsize set.
Proof.
  intros Hs Hz. destruct str as [|c str]; [done|]. unfold glyph_of.
  assert (0 <= Z.shiftr (fsize set) 1 <= fsize set) as Hh.
  { rewrite Z.shiftr_div_pow2 by lia. change (2 ^ 1) with 2. pose proof (Z.div_mod (fsize set) 2). pose proof (Z.mod_pos_bound (fsize set) 2). lia. }
  repeat case_match; simplify_eq; simpl; first [exists [c]; split_and!; [done..|intros; simplify_eq; lia] | eexists [c; _]; split_and!; [done..|intros; simplify_eq; lia]].
Qed.

(** Where the next character goes: a new line when it does not fit. *)
Lemma line_break dc c x y : window dc -> cursor dc x y -> exists x' y',
  (if (dc_x_end dc <? u32 (x + fsize (sgrt_set dc))) || (c =? 10)
   then (dc_x_start dc, u32 (y + u32 (fsize (sgrt_set dc) + line_spacing (sgrt_set dc)))) else (x, y)) = (x', y') /\
  dc_x_start dc <= x' /\ x' + fsize (sgrt_set dc) <= dc_x_end dc /\ dc_y_start dc <= y' < W32 - 268435456.
Proof.
  intros [Hsc _ Hz Hl Hw Hx Hy] [Hcx Hcy]. unfold small in *. pose proof (sc_width _ Hsc). pose proof (sc_height _ Hsc). unfold W32.
  rewrite (u32_id (x + _)), (u32_id (_ + line_spacing _)) by (unfold W32; lia).
  destruct (Z.ltb_spec (dc_x_end dc) (x + fsize (sgrt_set dc))), (c =? 10); cbn [orb]; rewrite ?(u32_id (y + _)) by (unfold W32; lia);
    eexists _, _; (split; [reflexivity|lia]).
Qed.

Lemma word_loop_spec FWK_RGB_PIXELBIT current dc : window dc -> forall fuel m str x y, cursor dc x y -> (length str <= fuel)%nat -> exists x' y' pre rest m',
  word_loop FWK_RGB_PIXELBIT current fuel m dc str x y = Ok (move_cursor dc x' y', rest, m') /\ str = pre ++ rest /\
  inked (sprt_di dc) (color FWK_RGB_PIXELBIT (sprt_di dc) (fcolor (sgrt_set dc))) (in_window dc) m m' /\
  dc_x_start dc <= x' <= dc_x_end dc + word_spacing (sgrt_set dc) /\ dc_y_start dc <= y'.
Proof.
  intros Hwn. pose proof Hwn as [Hsc Hlk Hz Hl Hw Hx Hy]. unfold small in *. pose proof (sc_width _ Hsc). pose proof (sc_height _ Hsc).
  induction fuel as [|fuel IH]; intros m str x y Hc Hn.
  { destruct str; [|simpl in Hn; lia]. exists x, y, [], [], m. unfold cursor in Hc. split_and!; [done|done|apply inked_refl|lia..]. }
  destruct str as [|c str]; [exists x, y, [], [], m; unfold cursor in Hc; split_and!; [done|done|apply inked_refl|lia..]|].
  cbn [word_loop]. destruct (line_break dc c x y Hwn Hc) as (x1 & y1 & -> & Hx1 & Hx1' & Hy1).
  rewrite (u32_id (y1 + _)) by lia. destruct (Z.ltb_spec (dc_y_end dc) (y1 + fsize (sgrt_set dc))) as [Hend|Hfit].
  { exists x1, y1, [], (c :: str), m. split_and!; [done|done|apply inked_refl|lia..]. }
  destruct (glyph_of_spec (sgrt_set dc) (c :: str)) as (pre & Ep & Hpre & Hinc); [done|lia|].
  assert (length (snd (glyph_of (sgrt_set dc) (c :: str))) <= fuel)%nat as Hlen.
  { apply (f_equal length) in Ep. rewrite length_app in Ep. destruct pre; [done|]. cbn [length] in Ep, Hn. lia. }
  destruct (glyph_of (sgrt_set dc) (c :: str)) as [[[x_inc ptr]|] str'] eqn:Eg; cbn [fst snd] in *.
  - destruct (mutex_cycle current) as (l & El & Eu). rewrite Hlk, El. cbn [mbind res_bind]. rewrite Eu.
    assert (DispCtrl (set_lock 0 (sprt_di dc)) (sgrt_set dc) (dc_x_start dc) (dc_y_start dc) (dc_x_end dc) (dc_y_end dc) (dc_x_next dc) (dc_y_next dc) = dc) as ->.
    { destruct dc as [di ? ? ? ? ? ? ?]. unfold set_lock. destruct di. simpl in *. by subst. }
    specialize (Hinc _ _ eq_refl). set (m1 := glyph_rows _ _ _ _ _ _ _ _ _ _).
    assert (0 <= 8 * Z.shiftr x_inc 3 <= x_inc) as Ha.
    { rewrite Z.shiftr_div_pow2 by lia. change (2 ^ 3) with 8. pose proof (Z.div_mod x_inc 8). pose proof (Z.mod_pos_bound x_inc 8). lia. }
    rewrite (u32_id (x_inc + _)), (u32_id (x1 + _)) by (unfold W32; lia).
    destruct (IH m1 str' (x1 + (x_inc + word_spacing (sgrt_set dc))) y1) as (x2 & y2 & pre' & rest & m2 & E & Es & Hi & Hx2); [unfold cursor; lia|done|].
    exists x2, y2, (pre ++ pre'), rest, m2. split_and!; [done|by rewrite <- app_assoc, <- Es| |lia..]. eapply inked_trans; [|exact Hi].
    eapply inked_mono; [|apply (glyph_rows_inked FWK_RGB_PIXELBIT (sprt_di dc) Hsc (fcolor (sgrt_set dc)) ptr x1 y1 (Z.shiftr x_inc 3)); lia].
    unfold in_window, area. lia.
  - destruct (IH m str' x1 y1) as (x2 & y2 & pre' & rest & m2 & E & Es & Hi & Hx2); [unfold cursor; lia|done|].
    exists x2, y2, (pre ++ pre'), rest, m2. split_and!; [done|by rewrite <- app_assoc, <- Es|done|lia..].
Qed.

(** Writing a string inks only pixels of the window, in the colour of the
    text, and takes a prefix of the string: it returns for every string and font. *)
Theorem text_stays_in_window FWK_RGB_PIXELBIT current m dc fmt : window dc -> cursor dc (dc_x_next dc) (dc_y_next dc) -> exists n x y m',
  fwk_display_word FWK_RGB_PIXELBIT current m dc fmt = Ok (n, move_cursor dc x y, m') /\ 0 <= n <= len fmt /\
  inked (sprt_di dc) (color FWK_RGB_PIXELBIT (sprt_di dc) (fcolor (sgrt_set dc))) (in_window dc) m m' /\
  dc_x_start dc <= x <= dc_x_end dc + word_spacing (sgrt_set dc) /\ dc_y_start dc <= y.
Proof.
  intros Hw Hc. destruct (word_loop_spec FWK_RGB_PIXELBIT current dc Hw (length fmt) m fmt _ _ Hc ltac:(done)) as (x & y & pre & rest & m' & E & Es & Hi & Hx).
  exists (len fmt - len rest), x, y, m'. unfold fwk_display_word. rewrite E. cbn [mbind res_bind]. split_and!; [done|rewrite Es; len_lia|rewrite Es; len_lia|done|lia..].
Qed.
