(* ===== verification/Bmp.v ===== *)
(** * Images (platform/framebuffer/fwk_bitmap.c, include/platform/video/fwk_bitmap.h)

    Dot matrix images and uncompressed BMP images in memory, drawn at once or
    in pieces. *)

From stdpp Require Import prelude gmap fin_maps sorting.
From S2P Require Import Prelude Mem Bytes MemPool MemOps Sync Generic Disp.

(** ** Formats *)

(** Byte order of colours: the loops of the image readers leave the first byte
    in the highest place. *)
Definition fwk_pixel_rgbform_convert (srctype data : Z) : Z :=
  if srctype =? FWK_RGB_PIXEL16 then be16_to_cpu data
  else if srctype =? FWK_RGB_PIXEL24 then Z.shiftr (be32_to_cpu data) 8
  else if srctype =? FWK_RGB_PIXEL32 then be32_to_cpu data
  else data.

(** The first [n] bytes at [p]: highest place first, as the shifting loops
    gather them, and lowest place first, as they lie in a word. *)
Fixpoint be_bytes (n : nat) (m : mem) (p rgb_data : Z) : Z :=
  match n with
  | O => rgb_data
  | S n => be_bytes n m (p + 1) (Z.lor (u32 (Z.shiftl rgb_data 8)) (m p))
  end.
Fixpoint le_bytes (n : nat) (m : mem) (p : Z) : Z :=
  match n with
  | O => 0
  | S n => m p + 256 * le_bytes n m (p + 1)
  end.
(** [kmemcpy(&rgb_data, p, n)] over a cleared word: more than four bytes
    overwrite what lies behind it. *)
Definition load_rgb (m : mem) (p n : Z) : res Z := if 4 <? n then Fault else Ok (le_bytes (Z.to_nat n) m p).

(** ** Rows of pixels

    The loops over a row and over the rows are the same for both kinds of image;
    [read] gives the colour of the pixel whose data starts at an offset, [row] the
    line of the screen for a line of the image. *)
Section rows.
Context (read : mem -> Z -> res Z) (row : Z -> Z) (sprt_disp : fwk_disp_info) (image_bpp : Z).

Fixpoint px_loop (n : nat) (m : mem) (offset px_cnt rgb_inc : Z) : res (mem * Z) :=
  match n with
  | O => Ok (m, rgb_inc)
  | S n =>
      rgb_data ← read m rgb_inc;
      let m := fwk_display_write_pixel m (buffer sprt_disp) (u32 (offset + px_cnt)) (bpp sprt_disp) rgb_data in
      px_loop n m offset (px_cnt + 1) (u32 (rgb_inc + image_bpp))
  end.
Fixpoint py_loop (n : nat) (m : mem) (x_start w py_cnt rgb_inc : Z) : res mem :=
  match n with
  | O => Ok m
  | S n =>
      let offset := fwk_display_advance_position x_start (row py_cnt) (width sprt_disp) in
      '(m, rgb_inc) ← px_loop (Z.to_nat w) m offset 0 rgb_inc;
      py_loop n m x_start w (py_cnt + 1) rgb_inc
  end.
End rows.

(** ** Dot matrix images: a header of six bytes, then the pixels *)

Definition sizeof_dotmat_header : Z := 6.
Definition dot_read (image : Z) (sprt_disp : fwk_disp_info) (image_bpp : Z) (m : mem) (rgb_inc : Z) : res Z :=
  let pixelbit := m (image + 1) in
  let rgb_data := be_bytes (Z.to_nat image_bpp) m (u32 (image + sizeof_dotmat_header + rgb_inc)) 0 in
  let rgb_data := fwk_pixel_rgbform_convert pixelbit rgb_data in
  Ok (fwk_display_convert_rgbbit pixelbit (bpp sprt_disp) rgb_data).
Definition fwk_display_dot_matrix_image (m : mem) (sprt_disp : option fwk_disp_info) (x_start y_start image : Z) : res mem :=
  match sprt_disp with
  | None => Ok m
  | Some di =>
      if image =? 0 then Ok m
      else
        let w := ld16 m (image + 2) in
        let h := ld16 m (image + 4) in
        if (width di <? u32 (x_start + w)) || (height di <? u32 (y_start + h)) then Ok m
        else
          let image_bpp := Z.shiftr (m (image + 1)) 3 in
          py_loop (dot_read image di image_bpp) (fun py_cnt => u32 (y_start + py_cnt)) di image_bpp (Z.to_nat h) m x_start w 0 0
  end.

(** ** BMP images *)

Definition FWK_BMP_FILE_HDR_LEN : Z := 14.
Definition FWK_BMP_INFO_HDR_LEN : Z := 40.

Record fwk_bmp_info_header := BmpInfo {
  infoSize : Z; bi_width : Z; bi_height : Z; plane : Z; pixelbit : Z; compression : Z; imageSize : Z;
  X_pixelPerM : Z; Y_pixelPerM : Z; colorIndex : Z; importanIndex : Z }.
Record fwk_bmp_ctrl := BmpCtrl {
  bc_disp : option fwk_disp_info; sgrt_bi : fwk_bmp_info_header;
  x_start : Z; y_start : Z; x_next : Z; y_next : Z }.

Definition fwk_bitmap_ctrl_init (sprt_disp : option fwk_disp_info) (x_start y_start : Z) : fwk_bmp_ctrl :=
  BmpCtrl sprt_disp (BmpInfo 0 0 0 0 0 0 0 0 0 0 0) x_start y_start 0 0.

(** The packed header as it lies in memory. *)
Definition bmp_info_at (m : mem) (p : Z) : fwk_bmp_info_header :=
  BmpInfo (ld32 m p) (s32 (ld32 m (p + 4))) (s32 (ld32 m (p + 8))) (ld16 m (p + 12)) (ld16 m (p + 14)) (ld32 m (p + 16))
    (ld32 m (p + 20)) (ld32 m (p + 24)) (ld32 m (p + 28)) (ld32 m (p + 32)) (ld32 m (p + 36)).

(** The information header is stored before the mark of the file is tested. *)
Definition fwk_bitmap_get_and_check (m : mem) (sprt_bctl : fwk_bmp_ctrl) (image : Z) : Z * fwk_bmp_ctrl :=
  if image =? 0 then (- ER_NOMEM, sprt_bctl)
  else
    let picType := ld16 m image in
    let bi := bmp_info_at m (image + FWK_BMP_FILE_HDR_LEN) in
    let sprt_bctl := BmpCtrl (bc_disp sprt_bctl) bi (x_start sprt_bctl) (y_start sprt_bctl) (x_next sprt_bctl) (y_next sprt_bctl) in
    if negb (picType =? 66 + 256 * 77) then (- ER_FAULT, sprt_bctl)
    else (FWK_BMP_FILE_HDR_LEN + FWK_BMP_INFO_HDR_LEN, sprt_bctl).

Definition bmp_read (ptr_bitmap : Z) (bi : fwk_bmp_info_header) (sprt_disp : fwk_disp_info) (image_bpp : Z) (m : mem) (rgb_inc : Z) : res Z :=
  rgb_data ← load_rgb m (u32 (ptr_bitmap + rgb_inc)) image_bpp;
  Ok (mrt_fwk_disp_convert_rgb (pixelbit bi) (bpp sprt_disp) rgb_data).

Definition fwk_display_whole_bitmap (m : mem) (sprt_bctl : fwk_bmp_ctrl) (image : Z) : res (Z * fwk_bmp_ctrl * mem) :=
  match bc_disp sprt_bctl with
  | None => Ok (- ER_NULLPTR, sprt_bctl, m)
  | Some di =>
      if image =? 0 then Ok (- ER_NULLPTR, sprt_bctl, m)
      else
        let '(image_offset, sprt_bctl) := fwk_bitmap_get_and_check m sprt_bctl image in
        if image_offset <? 0 then Ok (- ER_CHECKERR, sprt_bctl, m)
        else
          let ptr_bitmap := u32 (image + image_offset) in
          let bi := sgrt_bi sprt_bctl in
          let w := u32 (mrt_abs (bi_width bi)) in
          let h := u32 (mrt_abs (bi_height bi)) in
          if (width di <? u32 (x_start sprt_bctl + w)) || (height di <? u32 (y_start sprt_bctl + h)) then Ok (- ER_MORE, sprt_bctl, m)
          else
            let image_bpp := u8 (Z.shiftr (pixelbit bi) 3) in
            let row py_cnt :=
              let y_offset := if bi_height bi <? 0 then py_cnt else u32 (u32 (h - 1) - py_cnt) in
              u32 (y_start sprt_bctl + y_offset) in
            m ← py_loop (bmp_read ptr_bitmap bi di image_bpp) row di image_bpp (Z.to_nat h) m (x_start sprt_bctl) w 0 0;
            Ok (s32 (u32 (u32 (w * h) * Z.shiftr (bpp di) 3)), sprt_bctl, m)
  end.

(** ** BMP images in pieces *)

(** The loop of [fwk_display_bitmap]: a position is drawn per step, and it
    runs over the image row by row. *)
Fixpoint piece_loop (fuel : nat) (m : mem) (di : fwk_disp_info) (bi : fwk_bmp_info_header) (x0 y0 w h ptr_bitmap image_bpp size : Z)
    (x_pos y_pos rgb_inc : Z) : res (mem * Z * Z) :=
  if negb (rgb_inc <? size) then Ok (m, x_pos, y_pos)
  else match fuel with
  | O => Spin
  | S fuel =>
      let '(x_pos, y_pos) := if u32 (x0 + w) <=? x_pos then (x0, u32 (y_pos + 1)) else (x_pos, y_pos) in
      if u32 (y0 + h) <=? y_pos then Ok (m, x_pos, y_pos)
      else
        let y_offset := if bi_height bi <? 0 then y_pos else u32 (Z.shiftr y0 1 + h - y_pos - 1) in
        let offset := fwk_display_advance_position x_pos y_offset (width di) in
        rgb_data ← bmp_read ptr_bitmap bi di image_bpp m rgb_inc;
        let m := fwk_display_write_pixel m (buffer di) offset (bpp di) rgb_data in
        piece_loop fuel m di bi x0 y0 w h ptr_bitmap image_bpp size (u32 (x_pos + 1)) y_pos (u32 (rgb_inc + image_bpp))
  end.

(** A step ends the loop, draws a pixel or starts a row: the fuel is enough for
    every pixel of the image and the start of every row. *)
Definition fwk_display_bitmap (m : mem) (sprt_bctl : fwk_bmp_ctrl) (image size : Z) : res (Z * fwk_bmp_ctrl * mem) :=
  match bc_disp sprt_bctl with
  | None => Ok (- ER_NOMEM, sprt_bctl, m)
  | Some di =>
      if (image =? 0) || (size =? 0) then Ok (- ER_NOMEM, sprt_bctl, m)
      else
        let bi := sgrt_bi sprt_bctl in
        let image_bpp := u8 (Z.shiftr (pixelbit bi) 3) in
        let w := u32 (mrt_abs (bi_width bi)) in
        let h := u32 (mrt_abs (bi_height bi)) in
        let x0 := x_start sprt_bctl in
        let y0 := y_start sprt_bctl in
        let draw x_pos y_pos :=
          '(m, x_pos, y_pos) ← piece_loop (Z.to_nat ((w + 1) * (h + 1) + 1)) m di bi x0 y0 w h image image_bpp size x_pos y_pos 0;
          Ok (ER_NORMAL, BmpCtrl (bc_disp sprt_bctl) bi x0 y0 x_pos y_pos, m) in
        if (x_next sprt_bctl =? 0) && (y_next sprt_bctl =? 0) then
          if (width di <? u32 (x0 + w)) || (height di <? u32 (y0 + h)) then Ok (- ER_CHECKERR, sprt_bctl, m)
          else draw x0 y0
        else if u32 (y0 + h) <=? y_next sprt_bctl then Ok (- ER_FORBID, sprt_bctl, m)
        else draw (x_next sprt_bctl) (y_next sprt_bctl)
  end.
