(* ===== verification/BmpSpec.v ===== *)
(** * Images on the screen

    The pixels of an image are numbered in the order of its data.  Drawing it at
    once and drawing it in pieces both put pixel [k] where the image says, so they
    give the same picture. *)

From stdpp Require Import prelude gmap fin_maps sorting.
From S2P Require Import Prelude Mem Bytes MemPool MemOps Sync Generic Disp DispSpec Bmp.

(** ** Pictures *)

(** The screen shows [f] where it is given and is as before elsewhere. *)
Definition shows (di : fwk_disp_info) (f : Z -> Z -> option Z) (m m' : mem) : Prop :=
  (forall x y, on_screen di x y -> pixel m' di x y = default (pixel m di x y) (f x y)) /\
  agree (fun a => ~ frame di a) m m'.

Lemma shows_none di f m : (forall x y, on_screen di x y -> f x y = None) -> shows di f m m.
Proof. intros H. split; [|done]. intros x y Hxy. by rewrite H. Qed.
Lemma shows_seq di f1 f2 f m m1 m2 : shows di f1 m m1 -> shows di f2 m1 m2 ->
  (forall x y, on_screen di x y -> f x y = match f2 x y with Some c => Some c | None => f1 x y end) -> shows di f m m2.
Proof.
  intros [H1 A1] [H2 A2] Hf. split; [|by eapply agree_trans]. intros x y Hxy. rewrite H2, H1, Hf by done. by destruct (f2 x y).
Qed.
(** Two drawings of the same picture agree on the whole screen. *)
Lemma shows_same di f m m1 m2 : shows di f m m1 -> shows di f m m2 ->
  (forall x y, on_screen di x y -> pixel m1 di x y = pixel m2 di x y) /\ agree (fun a => ~ frame di a) m1 m2.
Proof.
  intros [H1 A1] [H2 A2]. split; [intros x y Hxy; by rewrite H1, H2|]. intros a Ha. by rewrite A1, A2.
Qed.

Section image.
(** A screen, the place and size of an image on it, whether its first line is
    the top one, and the colour of each of its pixels. *)
Context (di : fwk_disp_info) (x0 y0 w h : Z) (top : bool) (col : Z -> Z).
Context (Hsc : screen di) (Hx0 : 0 <= x0) (Hy0 : 0 <= y0) (Hw : 0 < w) (Hh : 0 <= h)
  (Hxw : x0 + w <= width di) (Hyh : y0 + h <= height di).

(** The line of the screen of a line of the image, counted from the top of
    the image, and back. *)
Definition flip (j : Z) : Z := if top then j else h - 1 - j.
Definition cell (x y : Z) : Z := flip (y - y0) * w + (x - x0).
Definition cells (a b : Z) (x y : Z) : option Z :=
  if box x0 y0 w h x y && (a <=? cell x y) && (cell x y <? b) then Some (stored di (col (cell x y))) else None.

Lemma flip_flip j : flip (flip j) = j.
Proof using Type. unfold flip. destruct top; lia. Qed.
Lemma flip_range j : 0 <= j < h -> 0 <= flip j < h.
Proof using Type. unfold flip. destruct top; lia. Qed.
Lemma cell_at i j : 0 <= i < w -> cell (x0 + i) (y0 + flip j) = j * w + i.
Proof using Type. intros. unfold cell. rewrite !Z.add_simpl_l, flip_flip. done. Qed.
Lemma cells_nil a x y : cells a a x y = None.
Proof using Type. unfold cells. destruct (Z.leb_spec a (cell x y)), (Z.ltb_spec (cell x y) a); rewrite ?andb_false_r; done || lia. Qed.
Lemma cells_seq a b c m m1 m2 : a <= b <= c -> shows di (cells a b) m m1 -> shows di (cells b c) m1 m2 -> shows di (cells a c) m m2.
Proof using Type.
  intros Hab H1 H2. eapply shows_seq; [done..|]. intros x y _. unfold cells.
  destruct (box x0 y0 w h x y); [|done]. cbn [andb].
  destruct (Z.leb_spec a (cell x y)), (Z.leb_spec b (cell x y)), (Z.ltb_spec (cell x y) b), (Z.ltb_spec (cell x y) c); (done || lia).
Qed.

(** Writing the colour of a pixel of the image at its place. *)
Lemma draw_cell m i j : 0 <= i < w -> 0 <= j < h ->
  shows di (cells (j * w + i) (j * w + i + 1)) m
    (fwk_display_write_pixel m (buffer di) ((y0 + flip j) * width di + (x0 + i)) (bpp di) (col (j * w + i))).
Proof using All.
  intros Hi Hj. pose proof (flip_range j Hj). assert (on_screen di (x0 + i) (y0 + flip j)) as Hon by (split; lia).
  destruct (pixel_write di Hsc m (x0 + i) (y0 + flip j) (col (j * w + i)) (bpp di) Hon ltac:(by left)) as [Hp Ha].
  split; [|done]. intros x y Hxy. rewrite Hp by done. unfold cells.
  destruct ((x =? x0 + i) && (y =? y0 + flip j)) eqn:E.
  - bool_hyps. subst x y. rewrite cell_at by done. unfold box.
    rewrite !(proj2 (Z.leb_le _ _)), !(proj2 (Z.ltb_lt _ _)) by lia. done.
  - destruct (box x0 y0 w h x y && (j * w + i <=? cell x y) && (cell x y <? j * w + i + 1)) eqn:E2; [|done]. exfalso.
    unfold box in E2. bool_hyps. assert (cell x y = j * w + i) as Ec by lia. unfold cell in Ec.
    assert (flip (y - y0) = j) as Ef by nia. assert (x = x0 + i) by nia. rewrite <- Ef, flip_flip in E.
    apply andb_false_iff in E. rewrite !Z.eqb_neq in E. lia.
Qed.
Lemma place_index i j : 0 <= i < w -> 0 <= j < h ->
  fwk_display_advance_position (x0 + i) (y0 + flip j) (width di) = (y0 + flip j) * width di + (x0 + i).
Proof using All. intros Hi Hj. pose proof (flip_range j Hj). apply position_spec; [done|]. split; lia. Qed.

(** ** The loops *)

(** The data of the pixels does not lie in the frame buffer. *)
Section loops.
Context (read : mem -> Z -> res Z) (B : Z) (m0 : mem).
Context (HB : 0 <= B) (HBw : B * (w * h) < W32).
Context (Hread : forall m k, agree (fun a => ~ frame di a) m0 m -> 0 <= k < w * h -> read m (B * k) = Ok (col k)).

Lemma px_loop_spec j : 0 <= j < h -> forall n m i, 0 <= i -> i + Z.of_nat n = w -> agree (fun a => ~ frame di a) m0 m -> exists m',
  px_loop read di B n m ((y0 + flip j) * width di + x0) i (B * (j * w + i)) = Ok (m', B * ((j + 1) * w)) /\
  shows di (cells (j * w + i) ((j + 1) * w)) m m'.
Proof using All.
  intros Hj. induction n as [|n IH]; intros m i Hi Hn Hm; cbn [px_loop].
  { exists m. replace i with w by lia. replace (j * w + w) with ((j + 1) * w) by lia. split; [done|]. apply shows_none. intros. apply cells_nil. }
  rewrite Hread by (done || nia). cbn [mbind res_bind]. pose proof (pixels_bound di Hsc). pose proof (flip_range j Hj).
  assert (j * w + i + 1 <= w * h) by nia.
  rewrite (u32_id ((y0 + flip j) * width di + x0 + i)) by nia. rewrite (u32_id (B * (j * w + i) + B)) by nia.
  replace ((y0 + flip j) * width di + x0 + i) with ((y0 + flip j) * width di + (x0 + i)) by lia.
  replace (B * (j * w + i) + B) with (B * (j * w + (i + 1))) by lia.
  pose proof (draw_cell m i j ltac:(lia) Hj) as Hd. set (m1 := fwk_display_write_pixel _ _ _ _ _) in *.
  destruct (IH m1 (i + 1)) as (m' & -> & Hs); [lia|lia|eapply agree_trans; [exact Hm|apply Hd]|]. exists m'. split; [done|].
  eapply (cells_seq (j * w + i) (j * w + i + 1)); [nia|exact Hd|]. by replace (j * w + i + 1) with (j * w + (i + 1)) by lia.
Qed.
Lemma py_loop_spec row : (forall j, 0 <= j < h -> row j = y0 + flip j) -> forall n m j, 0 <= j -> j + Z.of_nat n = h ->
  agree (fun a => ~ frame di a) m0 m -> exists m',
  py_loop read row di B n m x0 w j (B * (j * w)) = Ok m' /\ shows di (cells (j * w) (h * w)) m m'.
Proof using All.
  intros Hrow. induction n as [|n IH]; intros m j Hj Hn Hm; cbn [py_loop].
  { exists m. replace j with h by lia. split; [done|]. apply shows_none. intros. apply cells_nil. }
  rewrite Hrow by lia. pose proof (place_index 0 j ltac:(lia) ltac:(lia)) as E. rewrite Z.add_0_r in E. rewrite E.
  destruct (px_loop_spec j ltac:(lia) (Z.to_nat w) m 0 ltac:(lia) ltac:(lia) Hm) as (m1 & E1 & H1). rewrite Z.add_0_r in E1, H1.
  rewrite E1. cbn [mbind res_bind].
  destruct (IH m1 (j + 1)) as (m' & -> & H2); [lia|lia|eapply agree_trans; [exact Hm|apply H1]|].
  exists m'. split; [done|]. eapply cells_seq; [|exact H1|exact H2]. nia.
Qed.
End loops.

(** The position after [k] pixels; the end of a row is left on the next step. *)
Definition position (k x_pos y_pos : Z) : Prop :=
  exists i j, x_pos = x0 + i /\ y_pos = y0 + j /\ 0 <= i <= w /\ 0 <= j /\ j * w + i = k.
Lemma next_position k x_pos y_pos : position k x_pos y_pos -> 0 <= k < w * h -> exists i j,
  (if u32 (x0 + w) <=? x_pos then (x0, u32 (y_pos + 1)) else (x_pos, y_pos)) = (x0 + i, y0 + j) /\
  0 <= i < w /\ 0 <= j < h /\ j * w + i = k.
Proof using All.
  intros (i & j & -> & -> & Hi & Hj & Hk) Hr. destruct Hsc as [_ ? ? _ _]. rewrite (u32_id (x0 + w)) by (unfold W32; lia).
  destruct (Z.leb_spec (x0 + w) (x0 + i)).
  - exists 0, (j + 1). assert (i = w) as -> by lia. assert (j + 1 < h) by nia.
    rewrite u32_id by (unfold W32; lia). split_and!; [f_equal; lia|lia..].
  - exists i, j. assert (j < h) by nia. split_and!; [done|lia..].
Qed.

Lemma piece_loop_spec bi B m0 ptr k0 n : 0 <= B -> 0 < n -> B * n < W32 -> 0 < B -> 0 <= k0 -> k0 + n <= w * h ->
  top = (bi_height bi <? 0) -> top = true \/ y0 = 0 ->
  (forall m t, agree (fun a => ~ frame di a) m0 m -> 0 <= t < n -> bmp_read ptr bi di B m (B * t) = Ok (col (k0 + t))) ->
  forall fuel m t x_pos y_pos, 0 <= t <= n -> n - t <= Z.of_nat fuel -> agree (fun a => ~ frame di a) m0 m -> position (k0 + t) x_pos y_pos ->
  exists m' x' y', piece_loop fuel m di bi x0 y0 w h ptr B (B * n) x_pos y_pos (B * t) = Ok (m', x', y') /\
    shows di (cells (k0 + t) (k0 + n)) m m' /\ position (k0 + n) x' y' /\ (x0 < x_pos \/ t < n -> x0 < x').
Proof using All.
  intros HB Hn HBn HB0 Hk0 Hkn Htop Hy Hread. induction fuel as [|fuel IH]; intros m t x_pos y_pos Ht Hf Hm Hpos; cbn [piece_loop].
  { assert (t = n) as -> by lia. rewrite Z.ltb_irrefl. simpl. exists m, x_pos, y_pos. split_and!; [done| |done|intros; lia].
    apply shows_none. intros. apply cells_nil. }
  destruct (decide (t = n)) as [->|Htn].
  { rewrite Z.ltb_irrefl. simpl. exists m, x_pos, y_pos. split_and!; [done| |done|intros; lia]. apply shows_none. intros. apply cells_nil. }
  rewrite (proj2 (Z.ltb_lt _ _)) by nia. cbn [negb].
  destruct (next_position (k0 + t) x_pos y_pos Hpos ltac:(lia)) as (i & j & -> & Hi & Hj & Hk).
  pose proof Hsc as [_ ? ? _ _]. rewrite (u32_id (y0 + h)) by (unfold W32; lia). rewrite (proj2 (Z.leb_gt _ _)) by lia.
  assert ((if bi_height bi <? 0 then y0 + j else u32 (Z.shiftr y0 1 + h - (y0 + j) - 1)) = y0 + flip j) as ->.
  { unfold flip. rewrite <- Htop. destruct Hy as [-> | ->]; [done|]. destruct top; [done|]. change (Z.shiftr 0 1) with 0. rewrite u32_id; unfold W32; lia. }
  rewrite place_index, Hread by (done || lia). cbn [mbind res_bind].
  pose proof (draw_cell m i j Hi Hj) as Hd. rewrite Hk in Hd. set (m1 := fwk_display_write_pixel _ _ _ _ _) in *.
  rewrite (u32_id (x0 + i + 1)) by (unfold W32; lia). rewrite (u32_id (B * t + B)) by nia.
  replace (B * t + B) with (B * (t + 1)) by lia.
  destruct (IH m1 (t + 1) (x0 + i + 1) (y0 + j)) as (m' & x' & y' & -> & Hs & Hp & Hx); [lia|lia|eapply agree_trans; [exact Hm|apply Hd]| |].
  { exists (i + 1), j. split_and!; lia. }
  exists m', x', y'. split_and!; [done| |done|].
  - eapply cells_seq; [|exact Hd|]; [lia|]. by replace (k0 + t + 1) with (k0 + (t + 1)) by lia.
  - intros _. apply Hx. lia.
Qed.
End image.

(** ** BMP images *)

Lemma le_bytes_agree n (P : Z -> Prop) m m' : agree P m m' -> forall p, (forall a, p <= a < p + Z.of_nat n -> P a) -> le_bytes n m' p = le_bytes n m p.
Proof.
  intros Hm. induction n as [|n IH]; intros p Hp; [done|]. cbn [le_bytes]. rewrite IH by (intros a Ha; apply Hp; lia).
  rewrite Hm by (apply Hp; lia). done.
Qed.

Definition bmp_bytes (bi : fwk_bmp_info_header) : Z := u8 (Z.shiftr (pixelbit bi) 3).
Definition bmp_width (bi : fwk_bmp_info_header) : Z := u32 (mrt_abs (bi_width bi)).
Definition bmp_height (bi : fwk_bmp_info_header) : Z := u32 (mrt_abs (bi_height bi)).
Definition bmp_data (image : Z) : Z := image + 54.

(** The colour of pixel [k] of the data, in the format of the screen. *)
Definition bmp_color (m : mem) (ptr : Z) (bi : fwk_bmp_info_header) (di : fwk_disp_info) (k : Z) : Z :=
  mrt_fwk_disp_convert_rgb (pixelbit bi) (bpp di) (le_bytes (Z.to_nat (bmp_bytes bi)) m (ptr + bmp_bytes bi * k)).

(** What the screen shows of an image: each of its pixels at its place, lines
    from the top when the height is negative and from the bottom otherwise. *)
Definition bmp_picture (m : mem) (image : Z) (bi : fwk_bmp_info_header) (di : fwk_disp_info) (x0 y0 : Z) : Z -> Z -> option Z :=
  cells di x0 y0 (bmp_width bi) (bmp_height bi) (bi_height bi <? 0) (bmp_color m (bmp_data image) bi di) 0 (bmp_height bi * bmp_width bi).

(** An image in memory that fits on the screen and lies outside of its buffer. *)
Record bmp_image (m : mem) (image : Z) (di : fwk_disp_info) (x0 y0 : Z) (bi : fwk_bmp_info_header) : Prop := {
  bm_image : 0 < image;
  bm_mark : ld16 m image = 66 + 256 * 77;
  bm_info : bmp_info_at m (image + FWK_BMP_FILE_HDR_LEN) = bi;
  bm_bytes : 1 <= bmp_bytes bi <= 4;
  bm_width : 0 < bmp_width bi;
  bm_place : 0 <= x0 /\ 0 <= y0 /\ x0 + bmp_width bi <= width di /\ y0 + bmp_height bi <= height di;
  bm_fit : bmp_data image + bmp_bytes bi * (bmp_width bi * bmp_height bi) < W32;
  bm_apart : forall a, bmp_data image <= a < bmp_data image + bmp_bytes bi * (bmp_width bi * bmp_height bi) -> ~ frame di a }.

Section bmp.
Context (m0 : mem) (image : Z) (di : fwk_disp_info) (x0 y0 : Z) (bi : fwk_bmp_info_header).
Context (Hsc : screen di) (Hbm : bmp_image m0 image di x0 y0 bi).

Lemma bmp_height_nonneg : 0 <= bmp_height bi.
Proof using Type. apply u32_range. Qed.

(** Reading pixel [k0 + t] of the data through a pointer to pixel [k0]. *)
Lemma bmp_read_spec m k0 t : agree (fun a => ~ frame di a) m0 m -> 0 <= k0 -> 0 <= t -> k0 + t < bmp_width bi * bmp_height bi ->
  bmp_read (bmp_data image + bmp_bytes bi * k0) bi di (bmp_bytes bi) m (bmp_bytes bi * t) = Ok (bmp_color m0 (bmp_data image) bi di (k0 + t)).
Proof using All.
  intros Hm Hk Ht Hkt. destruct Hbm as [Hi _ _ HB Hw _ Hf Ha]. unfold bmp_read, load_rgb, bmp_color.
  rewrite (proj2 (Z.ltb_ge _ _)) by lia. cbn [mbind res_bind]. unfold bmp_data in *. rewrite u32_id by nia.
  replace (image + 54 + bmp_bytes bi * k0 + bmp_bytes bi * t) with (image + 54 + bmp_bytes bi * (k0 + t)) by lia.
  rewrite (le_bytes_agree _ _ m0 m Hm); [done|]. intros a Ha'. apply Ha. nia.
Qed.

(** The header of the image is put into the control record. *)
Lemma get_and_check_spec c : fwk_bitmap_get_and_check m0 c image = (54, BmpCtrl (bc_disp c) bi (x_start c) (y_start c) (x_next c) (y_next c)).
Proof using Hbm. destruct Hbm as [Hi Hmk Hin _ _ _ _ _]. unfold fwk_bitmap_get_and_check. by rewrite (proj2 (Z.eqb_neq _ _)), Hmk, Hin by lia. Qed.

(** The number of bytes drawn, as the signed result of the whole image. *)
Lemma drawn_bytes : u32 (u32 (bmp_width bi * bmp_height bi) * Z.shiftr (bpp di) 3) = bmp_width bi * bmp_height bi * Z.shiftr (bpp di) 3.
Proof using All.
  pose proof Hbm as [_ _ _ _ Hw (? & ? & ? & ?) _ _]. pose proof Hsc as [? ? ? Hb Hf]. pose proof bmp_height_nonneg.
  assert (0 <= bmp_width bi * bmp_height bi <= width di * height di) by nia.
  assert (2 <= Z.shiftr (bpp di) 3 <= pixel_size di) by (unfold pixel_size; destruct Hb as [->|[->| ->]]; by vm_compute).
  assert (bmp_width bi * bmp_height bi * Z.shiftr (bpp di) 3 <= pixel_size di * (width di * height di)) by nia.
  rewrite (u32_id (bmp_width bi * bmp_height bi)), u32_id by nia. done.
Qed.
Lemma whole_bitmap_spec c : bc_disp c = Some di -> x_start c = x0 -> y_start c = y0 -> exists c' m',
  fwk_display_whole_bitmap m0 c image = Ok (s32 (bmp_width bi * bmp_height bi * Z.shiftr (bpp di) 3), c', m') /\ sgrt_bi c' = bi /\ shows di (bmp_picture m0 image bi di x0 y0) m0 m'.
Proof using All.
  intros Hd Hx Hy. pose proof Hbm as [Hi Hmk Hin HB Hw (? & ? & ? & ?) Hf Ha]. pose proof Hsc as [_ ? ? _ _]. pose proof bmp_height_nonneg.
  unfold fwk_display_whole_bitmap. rewrite Hd, (proj2 (Z.eqb_neq _ _)), get_and_check_spec by lia. cbn [Z.ltb Z.compare sgrt_bi x_start y_start].
  rewrite Hx, Hy.
  fold (bmp_width bi) (bmp_height bi). rewrite (u32_id (x0 + _)), (u32_id (y0 + _)) by (unfold W32; lia).
  rewrite !(proj2 (Z.ltb_ge _ _)) by lia. cbn [orb]. fold (bmp_bytes bi).
  rewrite (u32_id (image + 54)) by (unfold bmp_data in *; nia). fold (bmp_data image).
  match goal with |- context [py_loop _ ?r] => set (row := r) end.
  destruct (py_loop_spec di x0 y0 (bmp_width bi) (bmp_height bi) (bi_height bi <? 0) (bmp_color m0 (bmp_data image) bi di) Hsc
    ltac:(lia) ltac:(lia) Hw ltac:(lia) ltac:(lia) ltac:(lia) (bmp_read (bmp_data image) bi di (bmp_bytes bi)) (bmp_bytes bi) m0
    ltac:(lia) ltac:(unfold bmp_data in *; lia)) with (row := row) (n := Z.to_nat (bmp_height bi)) (m := m0) (j := 0) as (m' & E & Hs).
  - intros m k Hm Hk. pose proof (bmp_read_spec m 0 k Hm ltac:(lia) ltac:(lia) ltac:(lia)) as E. by rewrite Z.mul_0_r, Z.add_0_r in E.
  - intros j Hj. subst row. cbv beta zeta. unfold flip. destruct (bi_height bi <? 0); [apply u32_id; unfold W32; lia|].
    rewrite (u32_id (bmp_height bi - 1)), (u32_id (bmp_height bi - 1 - j)), u32_id; unfold W32; lia.
  - lia.
  - lia.
  - done.
  - rewrite Z.mul_0_l, Z.mul_0_r in E. rewrite E. cbn [mbind res_bind]. rewrite drawn_bytes. eauto 10.
Qed.

(** A call that continues (or starts) an image after [k0] pixels. *)
Definition at_pixel (k0 : Z) (c : fwk_bmp_ctrl) : Prop :=
  bc_disp c = Some di /\ sgrt_bi c = bi /\ x_start c = x0 /\ y_start c = y0 /\
  (k0 = 0 /\ x_next c = 0 /\ y_next c = 0 \/
   x0 < x_next c /\ position x0 y0 (bmp_width bi) k0 (x_next c) (y_next c)).

Lemma bitmap_piece m c k0 n : agree (fun a => ~ frame di a) m0 m -> at_pixel k0 c -> bi_height bi < 0 \/ y0 = 0 ->
  0 <= k0 -> 0 < n -> k0 + n <= bmp_width bi * bmp_height bi -> exists c' m',
  fwk_display_bitmap m c (bmp_data image + bmp_bytes bi * k0) (bmp_bytes bi * n) = Ok (ER_NORMAL, c', m') /\ at_pixel (k0 + n) c' /\
  shows di (cells di x0 y0 (bmp_width bi) (bmp_height bi) (bi_height bi <? 0) (bmp_color m0 (bmp_data image) bi di) k0 (k0 + n)) m m'.
Proof using All.
  intros Hm (Hd & Hb & Hxs & Hys & Hst) Hy Hk Hn Hkn. pose proof Hbm as [Hi _ _ HB Hw (? & ? & ? & ?) Hf Ha].
  pose proof Hsc as [_ ? ? _ _]. pose proof bmp_height_nonneg. unfold bmp_data in *.
  pose proof (piece_loop_spec di x0 y0 (bmp_width bi) (bmp_height bi) (bi_height bi <? 0) (bmp_color m0 (image + 54) bi di) Hsc
    ltac:(lia) ltac:(lia) Hw ltac:(lia) ltac:(lia) ltac:(lia) bi (bmp_bytes bi) m0 (image + 54 + bmp_bytes bi * k0) k0 n
    ltac:(lia) Hn ltac:(nia) ltac:(lia) Hk Hkn eq_refl ltac:(destruct Hy; [left; by apply Z.ltb_lt|by right])
    ltac:(intros; apply bmp_read_spec; (done || lia)) (Z.to_nat ((bmp_width bi + 1) * (bmp_height bi + 1) + 1)) m 0) as HL.
  rewrite Z.mul_0_r, Z.add_0_r in HL.
  assert (exists xp yp, position x0 y0 (bmp_width bi) k0 xp yp /\ fwk_display_bitmap m c (image + 54 + bmp_bytes bi * k0) (bmp_bytes bi * n) =
    '(m, x_pos, y_pos) ← piece_loop (Z.to_nat ((bmp_width bi + 1) * (bmp_height bi + 1) + 1)) m di bi x0 y0 (bmp_width bi) (bmp_height bi)
       (image + 54 + bmp_bytes bi * k0) (bmp_bytes bi) (bmp_bytes bi * n) xp yp 0;
    Ok (ER_NORMAL, BmpCtrl (bc_disp c) bi x0 y0 x_pos y_pos, m)) as (xp & yp & Hp & ->).
  { unfold fwk_display_bitmap. rewrite Hd, Hb, Hxs, Hys, !(proj2 (Z.eqb_neq _ 0)) by nia. cbn [orb]. cbv zeta.
    fold (bmp_width bi) (bmp_height bi) (bmp_bytes bi). rewrite (u32_id (x0 + _)), (u32_id (y0 + _)) by (unfold W32; lia).
    destruct Hst as [(-> & -> & ->)|(Hx & Hpos)].
    - exists x0, y0. split; [exists 0, 0; lia|]. rewrite !(proj2 (Z.ltb_ge _ _)) by lia. done.
    - exists (x_next c), (y_next c). split; [done|]. rewrite (proj2 (Z.eqb_neq _ _)) by lia. cbn [andb].
      destruct Hpos as (i & j & Ex & Ey & ? & ? & ?). rewrite Ey, (proj2 (Z.leb_gt _ _)) by nia. done. }
  destruct (HL xp yp) as (m' & x' & y' & -> & Hs & Hp' & Hx'); [lia|nia|done|done|]. cbn [mbind res_bind].
  eexists _, m'. split_and!; [done| |done]. split_and!; try done. right. split; [apply Hx'; lia|done].
Qed.

(** The data handed over in pieces of so many pixels, one after the other. *)
Fixpoint show_pieces (m : mem) (c : fwk_bmp_ctrl) (ptr B : Z) (ns : list Z) : res (Z * mem) :=
  match ns with
  | [] => Ok (ER_NORMAL, m)
  | n :: ns =>
      '(r, c, m) ← fwk_display_bitmap m c ptr (B * n);
      if negb (r =? ER_NORMAL) then Ok (r, m) else show_pieces m c (ptr + B * n) B ns
  end.
Lemma show_pieces_spec ns : bi_height bi < 0 \/ y0 = 0 -> Forall (fun n => 0 < n) ns -> forall m c k0,
  agree (fun a => ~ frame di a) m0 m -> at_pixel k0 c -> 0 <= k0 -> k0 + foldr Z.add 0 ns <= bmp_width bi * bmp_height bi -> exists m',
  show_pieces m c (bmp_data image + bmp_bytes bi * k0) (bmp_bytes bi) ns = Ok (ER_NORMAL, m') /\
  shows di (cells di x0 y0 (bmp_width bi) (bmp_height bi) (bi_height bi <? 0) (bmp_color m0 (bmp_data image) bi di) k0 (k0 + foldr Z.add 0 ns)) m m'.
Proof using All.
  intros Hy. induction 1 as [|n ns Hn HF IH]; intros m c k0 Hm Hc Hk Hs; cbn [show_pieces foldr].
  { exists m. split; [done|]. apply shows_none. intros. rewrite Z.add_0_r. apply cells_nil. }
  assert (0 <= foldr Z.add 0 ns) by (clear -HF; induction HF; simpl; lia). cbn [foldr] in Hs.
  destruct (bitmap_piece m c k0 n Hm Hc Hy Hk Hn ltac:(lia)) as (c' & m1 & -> & Hc' & Hs1). cbn [mbind res_bind negb Z.eqb ER_NORMAL].
  replace (bmp_data image + bmp_bytes bi * k0 + bmp_bytes bi * n) with (bmp_data image + bmp_bytes bi * (k0 + n)) by lia.
  destruct (IH m1 c' (k0 + n)) as (m' & -> & Hs2); [eapply agree_trans; [exact Hm|apply Hs1]|done|lia|lia|].
  exists m'. split; [done|]. eapply cells_seq; [|exact Hs1|]; [lia|]. by rewrite Z.add_assoc.
Qed.
End bmp.


(** ** Dot matrix images *)

(** Gathering the bytes highest first and swapping them is reading them lowest
    first. *)
Lemma be_bytes_S n m p v : byte (m p) -> 0 <= v < 16777216 -> be_bytes (S n) m p v = be_bytes n m (p + 1) (256 * v + m p).
Proof.
  intros Hb Hv. cbn [be_bytes]. f_equal. rewrite u32_id; [rewrite lor_shift by (lia || exact Hb); lia|].
  rewrite Z.shiftl_mul_pow2 by lia. change (2 ^ 8) with 256. unfold W32. lia.
Qed.
Lemma byte_split a b : byte b -> (256 * a + b) / 256 = a /\ (256 * a + b) mod 256 = b.
Proof. unfold byte. intros. split; symmetry; [apply Z.div_unique with b|apply Z.mod_unique with a]; lia. Qed.
Lemma reverse_split a b c d : byte a -> byte b -> byte c -> byte d ->
  reverse_byte32 (256 * (256 * (256 * a + b) + c) + d) = 256 * (256 * (256 * d + c) + b) + a.
Proof.
  intros Ha Hb Hc Hd. unfold reverse_byte32. change 65536 with (256 * 256). change 16777216 with (256 * 256 * 256).
  rewrite <- !Z.div_div by lia. destruct (byte_split (256 * (256 * a + b) + c) d Hd) as [-> ->].
  destruct (byte_split (256 * a + b) c Hc) as [-> ->], (byte_split a b Hb) as [-> ->]. unfold byte in Ha. rewrite Z.mod_small by lia. lia.
Qed.
Lemma rgbform_spec m p pb : (forall a, p <= a < p + 4 -> byte (m a)) -> pb = 16 \/ pb = 24 \/ pb = 32 ->
  fwk_pixel_rgbform_convert pb (be_bytes (Z.to_nat (Z.shiftr pb 3)) m p 0) = le_bytes (Z.to_nat (Z.shiftr pb 3)) m p.
Proof.
  intros Hb Hpb. pose proof (Hb p ltac:(lia)) as H0. pose proof (Hb (p + 1) ltac:(lia)) as H1.
  pose proof (Hb (p + 1 + 1) ltac:(lia)) as H2. pose proof (Hb (p + 1 + 1 + 1) ltac:(lia)) as H3.
  assert (byte 0) as Hz by (unfold byte; lia).
  destruct Hpb as [-> | [-> | ->]].
  - change (Z.to_nat (Z.shiftr 16 3)) with 2%nat. rewrite !be_bytes_S by (unfold byte in *; lia). cbn [be_bytes le_bytes].
    unfold fwk_pixel_rgbform_convert, be16_to_cpu, reverse_byte16. cbn [Z.eqb Pos.eqb FWK_RGB_PIXEL16].
    destruct (byte_split (256 * 0 + m p) (m (p + 1)) H1) as [-> ->], (byte_split 0 (m p) H0) as [_ ->]. lia.
  - change (Z.to_nat (Z.shiftr 24 3)) with 3%nat. rewrite !be_bytes_S by (unfold byte in *; lia). cbn [be_bytes le_bytes].
    unfold fwk_pixel_rgbform_convert, be32_to_cpu. cbn [Z.eqb Pos.eqb FWK_RGB_PIXEL16 FWK_RGB_PIXEL24].
    rewrite reverse_split by done. rewrite Z.shiftr_div_pow2 by lia. change (2 ^ 8) with 256.
    destruct (byte_split (256 * (256 * m (p + 1 + 1) + m (p + 1)) + m p) 0 Hz) as [-> _]. lia.
  - change (Z.to_nat (Z.shiftr 32 3)) with 4%nat. rewrite !be_bytes_S by (unfold byte in *; lia). cbn [be_bytes le_bytes].
    unfold fwk_pixel_rgbform_convert, be32_to_cpu. cbn [Z.eqb Pos.eqb FWK_RGB_PIXEL16 FWK_RGB_PIXEL24 FWK_RGB_PIXEL32].
    rewrite Z.mul_0_r, Z.add_0_l, reverse_split by done. lia.
Qed.

Lemma be_bytes_agree n (P : Z -> Prop) m m' : agree P m m' -> forall p v, (forall a, p <= a < p + Z.of_nat n -> P a) -> be_bytes n m' p v = be_bytes n m p v.
Proof.
  intros Hm. induction n as [|n IH]; intros p v Hp; [done|]. cbn [be_bytes]. rewrite IH by (intros a Ha; apply Hp; lia).
  rewrite Hm by (apply Hp; lia). done.
Qed.

(** A dot matrix image of a format with whole bytes is shown like a top-down
    BMP image: the pixels are little-endian words of its data. *)
Theorem dot_matrix_shown m image di x0 y0 pb w h :
  screen di -> (forall a, byte (m a)) -> 0 < image -> m (image + 1) = pb -> pb = 16 \/ pb = 24 \/ pb = 32 ->
  ld16 m (image + 2) = w -> ld16 m (image + 4) = h -> 0 < w -> 0 <= x0 -> 0 <= y0 -> x0 + w <= width di -> y0 + h <= height di ->
  image + 6 + Z.shiftr pb 3 * (w * h) < W32 -> (forall a, image <= a < image + 6 + Z.shiftr pb 3 * (w * h) -> ~ frame di a) -> exists m',
  fwk_display_dot_matrix_image m (Some di) x0 y0 image = Ok m' /\
  shows di (cells di x0 y0 w h true
    (fun k => fwk_display_convert_rgbbit pb (bpp di) (le_bytes (Z.to_nat (Z.shiftr pb 3)) m (image + 6 + Z.shiftr pb 3 * k))) 0 (h * w)) m m'.
Proof.
  intros Hsc Hby Hi Epb Hpb Ew Eh Hw Hx Hy Hxw Hyh Hf Ha. pose proof Hsc as [_ ? ? _ _].
  assert (0 <= h) as Hh by (subst h; pose proof (Hby (image + 4)); pose proof (Hby (image + 4 + 1)); unfold ld16, byte in *; lia).
  assert (1 <= Z.shiftr pb 3 <= 4) as HB by (destruct Hpb as [-> | [-> | ->]]; by vm_compute).
  unfold fwk_display_dot_matrix_image. rewrite (proj2 (Z.eqb_neq _ _)), Ew, Eh, Epb by lia.
  rewrite !(u32_id (_ + _)) by (unfold W32; lia). rewrite !(proj2 (Z.ltb_ge _ _)) by lia. cbn [orb].
  match goal with |- context [cells _ _ _ _ _ _ ?f] => set (col := f) end.
  destruct (py_loop_spec di x0 y0 w h true col Hsc Hx Hy Hw Hh Hxw Hyh (dot_read image di (Z.shiftr pb 3)) (Z.shiftr pb 3) m ltac:(lia) ltac:(lia))
    with (row := fun py_cnt => u32 (y0 + py_cnt)) (n := Z.to_nat h) (m := m) (j := 0) as (m' & E & Hs); [| |lia|lia|done|].
  - intros m1 k Hm Hk. unfold dot_read, sizeof_dotmat_header. rewrite (Hm (image + 1)), Epb by (apply Ha; nia). f_equal. subst col. cbv beta.
    rewrite u32_id by nia. rewrite (be_bytes_agree _ _ m m1 Hm) by (intros a Ha'; apply Ha; nia). by rewrite rgbform_spec.
  - intros j Hj. unfold flip. apply u32_id. unfold W32. lia.
  - exists m'. rewrite Z.mul_0_l, Z.mul_0_r in E. by rewrite E.
Qed.

(** ** A small image *)

Definition demo_info (height : Z) : fwk_bmp_info_header := BmpInfo 40 2 height 1 24 0 0 0 0 0 0.
(** Two lines of two pixels of 24 bits, stored bottom-up. *)
Definition demo_bmp : list Z :=
  [66; 77; 66; 0; 0; 0; 0; 0; 0; 0; 54; 0; 0; 0;
   40; 0; 0; 0; 2; 0; 0; 0; 2; 0; 0; 0; 1; 0; 24; 0; 0; 0; 0; 0; 0; 0; 0; 0; 0; 0; 0; 0; 0; 0; 0; 0; 0; 0; 0; 0; 0; 0; 0; 0;
   1; 0; 0; 2; 0; 0; 3; 0; 0; 4; 0; 0].
Definition demo_bmp_mem : mem := st_list (fun _ => 0) 8192 demo_bmp.


(** Below the top of the screen the pieces of a bottom-up image are misplaced:
    the code halves the first line instead of doubling it.  The lowest line of an
    image at line 2 lands on line 0; the next one is written in front of the frame
    buffer. *)
Example bottom_up_piece_misplaced :
  (let shown n :=
     '(_, _, m) ← fwk_display_bitmap demo_bmp_mem (BmpCtrl (Some demo_screen) (demo_info 2) 3 2 0 0) (8192 + 54) n;
     Ok (pixel m demo_screen 3 0, pixel m demo_screen 3 3, m (buffer demo_screen - 20)) in
   (shown 6, shown 9)) = (Ok (1, 0, 0), Ok (1, 0, 3)).
Proof. by vm_compute. Qed.
