(* ===== verification/Chrdev.v ===== *)
(** * Device numbers (platform/chardev/fwk_chrdev.c)

    A device number is a major number in the high twelve bits and a minor number
    in the low twenty.  [fwk_register_chrdev] reserves ranges of numbers in a table
    of 255 chains, one for each major number, in the order of their minors.

    A chain is the list of its records, each with the address it was allocated
    at; blocks come from the kernel heap through its contract. *)

From stdpp Require Import prelude gmap fin_maps sorting.
From S2P Require Import Prelude Mem Bytes Sync KMalloc HeapContract.

Definition DEVICE_MAX_NUM : Z := 255.
Definition DEVICE_NAME_LEN : nat := 32.
Definition DEV_MINOR_BITS : Z := 20.
Definition MKE_DEV_NUM (major minor : Z) : Z := Z.lor (u32 (Z.shiftl major DEV_MINOR_BITS)) minor.
Definition GET_DEV_MAJOR (devNum : Z) : Z := Z.shiftr devNum DEV_MINOR_BITS.
Definition GET_DEV_MINOR (devNum : Z) : Z := Z.land devNum (Z.shiftl 1 DEV_MINOR_BITS - 1).

Record fwk_char_device := ChrDev { cd_addr : Z; major : Z; baseminor : Z; count : Z; cd_name : list Z }.
#[export] Instance chrdev_eq_dec : EqDecision fwk_char_device.
Proof. solve_decision. Defined.

Definition sizeof_chrdev : Z := 48.

Section chrdev.
(** The heap, and what a fresh block holds where a name will be. *)
Context {H : Type} `{KernelHeap H} (garbage : Z -> list Z).

Record csys := CSys {
  cs_heap : H; cs_cpu : cpu;
  cs_chrdevs : list (list fwk_char_device);              (* sgrt_fwk_chrdevs *)
}.
Definition put_chain (i : Z) (l : list fwk_char_device) (w : csys) : csys :=
  CSys (cs_heap w) (cs_cpu w) (<[Z.to_nat i := l]> (cs_chrdevs w)).
Definition c_kmalloc (size flags : Z) (w : csys) : res (Z * csys) :=
  '(q, c, h) ← heap_alloc (cs_cpu w) (cs_heap w) size flags; Ok (q, CSys h c (cs_chrdevs w)).
Definition c_kfree (p : Z) (w : csys) : res csys :=
  '(c, h) ← heap_free (cs_cpu w) (cs_heap w) p; Ok (CSys h c (cs_chrdevs w)).

Definition fwk_chrdev_init (w : csys) : csys := CSys (cs_heap w) (cs_cpu w) (replicate (Z.to_nat DEVICE_MAX_NUM) []).

(** [mrt_list_delete_all] on the chains one after the other. *)
Fixpoint delete_all (l : list fwk_char_device) (w : csys) : res csys :=
  match l with
  | [] => Ok w
  | d :: l => w ← c_kfree (cd_addr d) w; delete_all l w
  end.
Fixpoint exit_loop (n : nat) (i : Z) (w : csys) : res csys :=
  match n with
  | O => Ok w
  | S n =>
      l ← deref (cs_chrdevs w !! Z.to_nat i);
      w ← delete_all l w;
      exit_loop n (i + 1) (put_chain i [] w)
  end.
Definition fwk_chrdev_exit (w : csys) : res csys := exit_loop (Z.to_nat DEVICE_MAX_NUM) 0 w.

(** ** Reserving numbers *)

(** The free major number nearest to the end of the table: the scan from
    [i = n - 1] down to 0. *)
Fixpoint free_major (n : nat) (tab : list (list fwk_char_device)) : res (option Z) :=
  match n with
  | O => Ok None
  | S n =>
      l ← deref (tab !! n);
      match l with [] => Ok (Some (Z.of_nat n)) | _ => free_major n tab end
  end.
(** [do_string_n_copy] into the name: no terminator is written. *)
Definition name_n_copy (old name : list Z) : list Z :=
  take DEVICE_NAME_LEN name ++ drop (length (take DEVICE_NAME_LEN name)) old.

(** Walk to the first record that starts at or after the new range or ends in
    it; a record that overlaps the new one ends the attempt. *)
Fixpoint chr_place (l : list fwk_char_device) (d : fwk_char_device) : option (list fwk_char_device) :=
  match l with
  | [] => Some [d]
  | e :: l' =>
      let first_minor := baseminor e in
      let last_minor := u32 (baseminor e + count e - 1) in
      if (baseminor d <=? first_minor) || (baseminor d <=? last_minor) then
        if (baseminor d <=? last_minor) && (first_minor <=? u32 (baseminor d + count d - 1)) then None
        else Some (d :: e :: l')
      else (fun l => e :: l) <$> chr_place l' d
  end.

(** The record is allocated before its place is looked for. *)
Definition register_under (major baseminor count : Z) (name : list Z) (w : csys) : res (Z * csys) :=
  if DEVICE_MAX_NUM <=? major then Ok (nullptr, w)
  else
    let index := major mod DEVICE_MAX_NUM in
    '(p, w) ← c_kmalloc sizeof_chrdev GFP_KERNEL w;
    if negb (isValid p) then Ok (nullptr, w)
    else
      let d := ChrDev p major baseminor count (name_n_copy (garbage p) name) in
      l ← deref (cs_chrdevs w !! Z.to_nat index);
      match chr_place l d with
      | Some l => Ok (p, put_chain index l w)
      | None => w ← c_kfree p w; Ok (nullptr, w)
      end.
Definition __fwk_register_chrdev (major baseminor count : Z) (name : list Z) (w : csys) : res (Z * csys) :=
  if count =? 0 then Ok (nullptr, w)
  else if major =? 0 then
    found ← free_major (Z.to_nat DEVICE_MAX_NUM) (cs_chrdevs w);
    match found with
    | None => Ok (nullptr, w)
    | Some major => register_under major baseminor count name w
    end
  else register_under major baseminor count name w.

(** The first record with exactly this range leaves its chain. *)
Fixpoint chr_remove (l : list fwk_char_device) (base cnt : Z) : option (fwk_char_device * list fwk_char_device) :=
  match l with
  | [] => None
  | e :: l =>
      if (base =? baseminor e) && (cnt =? count e) then Some (e, l)
      else (fun r => (r.1, e :: r.2)) <$> chr_remove l base cnt
  end.
Definition __fwk_unregister_chrdev (major baseminor count : Z) (w : csys) : res (Z * csys) :=
  if (DEVICE_MAX_NUM <=? major) || (count =? 0) then Ok (nullptr, w)
  else
    let index := major mod DEVICE_MAX_NUM in
    l ← deref (cs_chrdevs w !! Z.to_nat index);
    match chr_remove l baseminor count with
    | None => Ok (nullptr, w)
    | Some (e, l) => Ok (cd_addr e, put_chain index l w)
    end.

(** A range of numbers is handled major by major. *)
Definition next_major (n last : Z) : Z :=
  let next := MKE_DEV_NUM (u32 (GET_DEV_MAJOR n + 1)) 0 in
  if last <? next then last else next.
Fixpoint unregister_loop (fuel : nat) (n last : Z) (w : csys) : res csys :=
  if negb (n <? last) then Ok w
  else match fuel with
  | O => Spin
  | S fuel =>
      let next := next_major n last in
      '(p, w) ← __fwk_unregister_chrdev (GET_DEV_MAJOR n) (GET_DEV_MINOR n) (u32 (next - n)) w;
      w ← (if isValid p then c_kfree p w else Ok w);
      unregister_loop fuel next last w
  end.
(** There are 4096 major numbers. *)
Definition fwk_unregister_chrdev (devNum count : Z) (w : csys) : res csys :=
  unregister_loop 4097 devNum (u32 (devNum + count)) w.

Fixpoint register_loop (fuel : nat) (devNum n last : Z) (name : list Z) (w : csys) : res (Z * csys) :=
  if negb (n <? last) then Ok (ER_NORMAL, w)
  else match fuel with
  | O => Spin
  | S fuel =>
      let next := next_major n last in
      '(p, w) ← __fwk_register_chrdev (GET_DEV_MAJOR n) (GET_DEV_MINOR n) (u32 (next - n)) name w;
      if negb (isValid p) then
        w ← fwk_unregister_chrdev devNum (u32 (n - devNum)) w;
        Ok (- ER_FAILD, w)
      else register_loop fuel devNum next last name w
  end.
Definition fwk_register_chrdev (devNum count : Z) (name : list Z) (w : csys) : res (Z * csys) :=
  register_loop 4097 devNum devNum (u32 (devNum + count)) name w.

(** The number of the new range, when there is one. *)
Definition fwk_alloc_chrdev (base cnt : Z) (name : list Z) (w : csys) : res (Z * option Z * csys) :=
  '(p, w) ← __fwk_register_chrdev 0 base cnt name w;
  if negb (isValid p) then Ok (- ER_FAULT, None, w)
  else
    d ← deref (List.find (fun d => cd_addr d =? p) (concat (cs_chrdevs w)));
    Ok (ER_NORMAL, Some (MKE_DEV_NUM (major d) (baseminor d)), w).
End chrdev.
