(* ===== verification/ChrdevSpec.v ===== *)
(** * Reserved device numbers

    The chains of the table hold disjoint ranges in order.  Reserving a range of
    device numbers, which may cross several majors, happens completely or not at
    all, and releasing it gives the table back as it was. *)

From stdpp Require Import prelude gmap fin_maps sorting.
From S2P Require Import Prelude Mem Bytes MemPool PoolClient Sync KMalloc KMallocSpec HeapContract Chrdev.

(** ** Chains *)

Notation M20 := 1048576.

Definition covers (d : fwk_char_device) (k : Z) : Prop := baseminor d <= k < baseminor d + count d.
Definition range_ok (d : fwk_char_device) : Prop := 0 <= baseminor d /\ 0 < count d /\ baseminor d + count d <= W32.
Definition before (a b : fwk_char_device) : Prop := baseminor a + count a <= baseminor b.
Definition chain_ok (l : list fwk_char_device) : Prop := Forall range_ok l /\ StronglySorted before l.

Lemma last_minor d : range_ok d -> u32 (baseminor d + count d - 1) = baseminor d + count d - 1.
Proof. intros (?&?&?). apply u32_id. lia. Qed.
Lemma chain_cons e l : chain_ok (e :: l) <-> range_ok e /\ Forall (before e) l /\ chain_ok l.
Proof.
  unfold chain_ok. rewrite Forall_cons. split.
  - intros [[??] HS]. apply StronglySorted_inv in HS as [??]. done.
  - intros (? & ? & ? & ?). split; [done|]. by constructor.
Qed.
Lemma chain_starts e l d : chain_ok (e :: l) -> d ∈ l -> baseminor e < baseminor d /\ baseminor e + count e <= baseminor d.
Proof. intros ((?&?&?) & HF & _)%chain_cons Hd. rewrite Forall_forall in HF. specialize (HF d Hd). unfold before in HF. lia. Qed.

(** A new range is placed exactly when it meets no other; taking it out again
    gives the chain back. *)
Lemma chr_place_spec d l : chain_ok l -> range_ok d ->
  match chr_place l d with
  | Some l' => (forall k e, e ∈ l -> covers d k -> ~ covers e k) /\ chain_ok l' /\ l' ≡ₚ d :: l /\
      chr_remove l' (baseminor d) (count d) = Some (d, l)
  | None => exists k e, e ∈ l /\ covers d k /\ covers e k
  end.
Proof.
  intros Hl Hd. pose proof Hd as (?&?&?). induction l as [|e l IH]; cbn [chr_place].
  { split_and!; [set_solver|apply chain_cons; split_and!; [done|by constructor|by split; constructor]|done|].
    cbn [chr_remove]. by rewrite !Z.eqb_refl. }
  pose proof Hl as (He & Hb & Hl')%chain_cons. pose proof He as (?&?&?). rewrite !last_minor by done.
  destruct ((baseminor d <=? baseminor e) || (baseminor d <=? baseminor e + count e - 1)) eqn:Ew.
  - destruct ((baseminor d <=? baseminor e + count e - 1) && (baseminor e <=? baseminor d + count d - 1)) eqn:Eo.
    + bool_hyps. exists (Z.max (baseminor d) (baseminor e)), e. unfold covers. split; [left|lia].
    + assert (baseminor d + count d <= baseminor e) as Hlt.
      { apply orb_true_iff in Ew. apply andb_false_iff in Eo. rewrite !Z.leb_le, !Z.leb_gt in *. lia. }
      split_and!; [|apply chain_cons; split_and!; [done| |done]|done|].
      * intros k f [->|Hf]%elem_of_cons Hk; unfold covers in *; [lia|]. pose proof (chain_starts e l f Hl Hf). lia.
      * constructor; [done|]. eapply Forall_impl; [exact Hb|]. unfold before. intros. lia.
      * cbn [chr_remove]. by rewrite !Z.eqb_refl.
  - bool_hyps. specialize (IH Hl'). destruct (chr_place l d) as [l'|]; cbn [fmap option_fmap option_map].
    + destruct IH as (Hdis & Hok & Hp & Hr). split_and!.
      * intros k f [->|Hf]%elem_of_cons Hk; [unfold covers in *; lia|by apply Hdis].
      * apply chain_cons. split_and!; [done| |done]. rewrite Hp. constructor; [unfold before; lia|done].
      * rewrite Hp. apply Permutation_swap.
      * cbn [chr_remove]. rewrite (proj2 (Z.eqb_neq _ _)) by lia. cbn [andb]. by rewrite Hr.
    + destruct IH as (k & f & Hf & ?). exists k, f. split; [by right|done].
Qed.
Lemma chr_remove_spec l base cnt e l' : chain_ok l -> chr_remove l base cnt = Some (e, l') ->
  l ≡ₚ e :: l' /\ chain_ok l' /\ baseminor e = base /\ count e = cnt.
Proof.
  revert e l'. induction l as [|f l IH]; intros e l' Hl; cbn [chr_remove]; [done|].
  pose proof Hl as (Hf & Hb & Hl')%chain_cons. destruct ((base =? baseminor f) && (cnt =? count f)) eqn:E.
  - bool_hyps. intros [= <- <-]. done.
  - intros ([e' l2] & Er & [= -> ->])%fmap_Some. specialize (IH _ _ Hl' Er) as (Hp & Hok & ? & ?). split_and!; [|apply chain_cons; split_and!; [done| |done]|done..].
    + cbn [fst snd]. rewrite Hp. apply Permutation_swap.
    + rewrite Hp in Hb. by inversion Hb.
Qed.

(** ** Device numbers *)

Lemma major_div n : GET_DEV_MAJOR n = n / M20.
Proof. exact (Z.shiftr_div_pow2 n 20 ltac:(lia)). Qed.
Lemma minor_mod n : GET_DEV_MINOR n = n mod M20.
Proof. exact (Z.land_ones n 20 ltac:(lia)). Qed.
Lemma first_of_major k : 0 <= k < 4096 -> MKE_DEV_NUM k 0 = k * M20.
Proof.
  intros. unfold MKE_DEV_NUM, DEV_MINOR_BITS. rewrite Z.lor_0_r, Z.shiftl_mul_pow2 by lia. apply u32_id. change (2 ^ 20) with M20. unfold W32. lia.
Qed.

(** A device number is taken when a record of its major covers its minor. *)
Definition taken (tab : list (list fwk_char_device)) (x : Z) : Prop :=
  exists l d, tab !! Z.to_nat (x / M20) = Some l /\ d ∈ l /\ covers d (x mod M20).

(** ** The table and the heap *)

Lemma concat_insert {A} (tab : list (list A)) i l l' : tab !! i = Some l -> concat (<[i := l']> tab) ++ l ≡ₚ concat tab ++ l'.
Proof.
  intros Hi. pose proof (lookup_lt_Some _ _ _ Hi). rewrite insert_take_drop by done. rewrite <- (take_drop_middle tab i l Hi) at 3.
  rewrite !concat_app. cbn [concat]. rewrite <- !app_assoc. apply Permutation_app_head.
  set (D := concat (drop (S i) tab)). rewrite (Permutation_app_comm D l), (Permutation_app_comm D l'), !app_assoc.
  apply Permutation_app_tail, Permutation_app_comm.
Qed.

Section table.
Context {H : Type} `{KernelHeap H} (garbage : Z -> list Z).
Notation csys := (@csys H).

Definition block (d : fwk_char_device) : Z * Z := (cd_addr d, sizeof_chrdev).
Definition blocks (tab : list (list fwk_char_device)) : list (Z * Z) := block <$> concat tab.
Record csys_ok (L : list (Z * Z)) (w : csys) : Prop := {
  ck_len : length (cs_chrdevs w) = 255%nat;
  ck_chains : Forall chain_ok (cs_chrdevs w);
  ck_heap : heap_inv (cs_heap w) (blocks (cs_chrdevs w) ++ L);
  ck_cpu : cpu_ok (cs_cpu w) }.

Lemma blocks_insert tab i l l' d : tab !! i = Some l -> l' ≡ₚ d :: l -> blocks (<[i := l']> tab) ≡ₚ block d :: blocks tab.
Proof using Type.
  intros Hi Hp. unfold blocks. pose proof (concat_insert tab i l l' Hi) as Hc.
  assert (concat (<[i:=l']> tab) ≡ₚ d :: concat tab) as E.
  { apply (Permutation_app_inv_r l). rewrite Hc, Hp. symmetry. apply Permutation_middle. }
  by rewrite E.
Qed.

Lemma chain_at L w k : csys_ok L w -> 0 <= k < 255 -> exists l, cs_chrdevs w !! Z.to_nat k = Some l /\ chain_ok l.
Proof using Type.
  intros [Hlen Hch _ _] Hk. destruct (lookup_lt_is_Some_2 (cs_chrdevs w) (Z.to_nat k)) as [l Hl]; [lia|].
  exists l. split; [done|]. rewrite Forall_lookup in Hch. eauto.
Qed.

(** One range under a major of its own. *)
Lemma register_under_spec L w k base cnt name : csys_ok L w -> 0 <= k < 255 -> 0 <= base -> 0 < cnt -> base + cnt <= W32 -> exists p w',
  register_under garbage k base cnt name w = Ok (p, w') /\ csys_ok L w' /\
  (isValid p = false /\ cs_chrdevs w' = cs_chrdevs w /\
     (out_of_memory L sizeof_chrdev \/ exists l e j, cs_chrdevs w !! Z.to_nat k = Some l /\ e ∈ l /\ base <= j < base + cnt /\ covers e j) \/
   isValid p = true /\ exists l l' d, cs_chrdevs w !! Z.to_nat k = Some l /\ cd_addr d = p /\ major d = k /\ baseminor d = base /\ count d = cnt /\
     chr_place l d = Some l' /\ cs_chrdevs w' = <[Z.to_nat k := l']> (cs_chrdevs w)).
Proof using Type.
  intros Hw Hk Hb Hc Hr. destruct (chain_at L w k Hw ltac:(lia)) as (l & Hl & Hok). pose proof Hw as [Hlen Hch Hh Hcpu].
  unfold register_under, c_kmalloc, DEVICE_MAX_NUM. rewrite (proj2 (Z.leb_gt _ _)), Z.mod_small by lia.
  destruct (heap_alloc_spec (cs_cpu w) (cs_heap w) _ sizeof_chrdev GFP_KERNEL Hcpu Hh ltac:(done) ltac:(by vm_compute)) as (p & h1 & Ea & Hcase & _).
  rewrite Ea. cbn [mbind res_bind]. destruct Hcase as [[-> Hh1]|[Hv Hh1]].
  { exists 0, (CSys h1 (cs_cpu w) (cs_chrdevs w)). split_and!; [done|by split|left]. split_and!; [done|done|left].
    by exists (cs_cpu w), (cs_heap w), (blocks (cs_chrdevs w)), nullptr, h1, GFP_KERNEL. }
  rewrite Hv. cbn [negb cs_chrdevs]. rewrite Hl. cbn [deref mbind res_bind].
  set (d := ChrDev p k base cnt _). assert (range_ok d) as Hd by done. pose proof (chr_place_spec d l Hok Hd) as Hp.
  change (mrt_num_align8 sizeof_chrdev) with sizeof_chrdev in Hh1.
  destruct (chr_place l d) as [l'|] eqn:Epl.
  - destruct Hp as (_ & Hok' & Hperm & _). eexists p, _. split; [done|]. split; [|right; split; [done|]; by exists l, l', d].
    split; cbn [put_chain cs_chrdevs cs_heap cs_cpu]; [by rewrite length_insert|by apply Forall_insert| |done].
    eapply heap_inv_perm; [|exact Hh1]. by rewrite (blocks_insert _ _ l l' d) by done.
  - unfold c_kfree. cbn [cs_cpu cs_heap cs_chrdevs].
    destruct (heap_free_spec (cs_cpu w) h1 (blocks (cs_chrdevs w) ++ L) p sizeof_chrdev Hcpu Hh1 ltac:(done)) as (h2 & -> & Hh2 & _). cbn [mbind res_bind].
    eexists 0, _. split; [done|]. split; [by split|left]. split_and!; [done|done|right]. destruct Hp as (j & e & He & Hdj & Hej). by exists l, e, j.
Qed.
Lemma register_given k base cnt name (w : csys) : 0 < k -> cnt <> 0 -> __fwk_register_chrdev garbage k base cnt name w = register_under garbage k base cnt name w.
Proof using Type. intros. unfold __fwk_register_chrdev. by rewrite !(proj2 (Z.eqb_neq _ 0)) by lia. Qed.
Lemma register_too_high k base cnt name (w : csys) : 255 <= k -> exists p, __fwk_register_chrdev garbage k base cnt name w = Ok (p, w) /\ isValid p = false.
Proof using Type.
  intros Hk. unfold __fwk_register_chrdev, register_under, DEVICE_MAX_NUM. rewrite (proj2 (Z.eqb_neq k 0)), (proj2 (Z.leb_le _ _)) by lia.
  destruct (cnt =? 0); by exists 0.
Qed.

(** Taking a range out of the table and freeing its record. *)
Definition unregister_one (k base cnt : Z) (w : csys) : res csys :=
  '(p, w) ← __fwk_unregister_chrdev k base cnt w; if isValid p then c_kfree p w else Ok w.
Lemma unregister_one_spec L w k base cnt e l l' : csys_ok L w -> 0 <= k < 255 -> cnt <> 0 ->
  cs_chrdevs w !! Z.to_nat k = Some l' -> chr_remove l' base cnt = Some (e, l) -> exists w',
  unregister_one k base cnt w = Ok w' /\ csys_ok L w' /\ cs_chrdevs w' = <[Z.to_nat k := l]> (cs_chrdevs w).
Proof using Type.
  intros Hw Hk Hc Hl Hr. destruct (chain_at L w k Hw Hk) as (l2 & Hl2 & Hok). rewrite Hl in Hl2. injection Hl2 as <-.
  destruct (chr_remove_spec _ _ _ _ _ Hok Hr) as (Hp & Hok' & _). pose proof Hw as [Hlen Hch Hh Hcpu].
  unfold unregister_one, __fwk_unregister_chrdev, DEVICE_MAX_NUM. rewrite (proj2 (Z.eqb_neq cnt 0)), (proj2 (Z.leb_gt _ _)), Z.mod_small by lia. cbn [orb].
  rewrite Hl. cbn [deref mbind res_bind]. rewrite Hr. cbn [mbind res_bind].
  assert (blocks (cs_chrdevs w) ≡ₚ block e :: blocks (<[Z.to_nat k := l]> (cs_chrdevs w))) as Hbl.
  { pose proof (blocks_insert (<[Z.to_nat k := l]> (cs_chrdevs w)) (Z.to_nat k) l l' e) as E. rewrite list_insert_insert_eq, (list_insert_id _ _ l' Hl) in E.
    apply E; [|done]. apply list_lookup_insert_eq. lia. }
  apply (heap_inv_perm _ _ (block e :: blocks (<[Z.to_nat k := l]> (cs_chrdevs w)) ++ L)) in Hh; [|by rewrite Hbl].
  destruct (heap_inv_blocks _ _ Hh) as [_ Hbd]. destruct (Hbd (cd_addr e) sizeof_chrdev ltac:(left)) as (? & _ & ?).
  rewrite isValid_true by (unfold sizeof_chrdev in *; lia). unfold c_kfree, put_chain. cbn [cs_cpu cs_heap cs_chrdevs].
  destruct (heap_free_spec (cs_cpu w) (cs_heap w) (blocks (<[Z.to_nat k := l]> (cs_chrdevs w)) ++ L) (cd_addr e) sizeof_chrdev Hcpu Hh ltac:(done)) as (h2 & -> & Hh2 & _).
  cbn [mbind res_bind]. eexists. split; [done|]. split; [|done]. split; cbn [put_chain cs_chrdevs cs_heap cs_cpu]; [by rewrite length_insert|by apply Forall_insert|done|done].
Qed.

(** ** Ranges of numbers *)

Section range.
Context (devNum : Z) (Hdev : 0 <= devNum).

(** The part of the range up to [last] that falls under major [k]. *)
Definition part_start (k : Z) : Z := Z.max devNum (k * M20).
Definition part_end (last k : Z) : Z := Z.min last ((k + 1) * M20).
(** The parts under the majors from [a] to [b] are in the table, nothing else
    differs. *)
Definition placed (last a b : Z) (t0 t : list (list fwk_char_device)) : Prop :=
  length t = length t0 /\ forall k, 0 <= k ->
    (a <= k < b -> exists l l' d, t0 !! Z.to_nat k = Some l /\ baseminor d = part_start k mod M20 /\ count d = part_end last k - part_start k /\
       chr_place l d = Some l' /\ t !! Z.to_nat k = Some l') /\
    (~ (a <= k < b) -> t !! Z.to_nat k = t0 !! Z.to_nat k).

Lemma placed_none last a t0 t : placed last a a t0 t -> t = t0.
Proof using Type.
  intros [_ Ht]. apply list_eq. intros i. destruct (Ht (Z.of_nat i) ltac:(lia)) as [_ E]. rewrite Nat2Z.id in E. apply E. lia.
Qed.
Lemma placed_shorter last n a b t0 t : placed last a b t0 t -> n <= last -> b * M20 <= n -> placed n a b t0 t.
Proof using Type.
  intros [Hl Ht] Hn Hb. split; [done|]. intros k Hk. destruct (Ht k Hk) as [H1 H2]. split; [|done]. intros Hab.
  destruct (H1 Hab) as (l & l' & d & ? & ? & Ec & ? & ?). exists l, l', d. split_and!; try done. unfold part_end in *. lia.
Qed.

(** A range that ends under major [b - 1]. *)
Definition spans (last b : Z) : Prop := devNum < last < W32 /\ (b - 1) * M20 < last <= b * M20.

Lemma part_major last b k : spans last b -> devNum / M20 <= k < b -> let n := part_start k in
  devNum <= n /\ n < part_end last k /\ n / M20 = k /\ 0 <= n mod M20 /\ n mod M20 + (part_end last k - n) <= M20.
Proof using Hdev.
  intros [Hs Hb] Hk n. assert (devNum < (k + 1) * M20) by (pose proof (Z.mod_pos_bound devNum M20); pose proof (Z.div_mod devNum M20); lia).
  assert (n < part_end last k) by (unfold n, part_start, part_end; lia).
  assert (n / M20 = k) by (symmetry; apply (Z.div_unique_pos _ _ k (n - k * M20)); unfold n, part_start in *; lia).
  pose proof (Z.div_mod n M20). pose proof (Z.mod_pos_bound n M20). unfold n, part_start, part_end in *. lia.
Qed.
(** The end of a part is the start of the next one. *)
Definition part_next (last b k : Z) : Z := if decide (k < b) then part_start k else last.
Lemma part_end_next last b k : spans last b -> devNum / M20 <= k < b -> part_end last k = part_next last b (k + 1).
Proof using Hdev.
  intros [Hs Hb] Hk. assert (devNum < (k + 1) * M20) by (pose proof (Z.mod_pos_bound devNum M20); pose proof (Z.div_mod devNum M20); lia).
  unfold part_next, part_start, part_end. case_decide; nia.
Qed.
Lemma next_major_spec last k n : n / M20 = k -> 0 <= k < 4095 -> next_major n last = part_end last k.
Proof using Type.
  intros E Hk. unfold next_major. rewrite major_div, E, (u32_id (k + 1)), first_of_major by (unfold W32; lia).
  unfold part_end. case_match; bool_hyps; lia.
Qed.

Lemma unregister_loop_spec L last b t0 : Forall chain_ok t0 -> spans last b -> b <= 255 -> forall fuel k w,
  csys_ok L w -> devNum / M20 <= k <= b -> b - k <= Z.of_nat fuel -> placed last k b t0 (cs_chrdevs w) -> exists w',
  unregister_loop fuel (part_next last b k) last w = Ok w' /\ csys_ok L w' /\ cs_chrdevs w' = t0.
Proof using All.
  intros Ht0 Hs Hb. assert (0 <= devNum / M20) by (apply Z.div_pos; lia).
  induction fuel as [|fuel IH]; intros k w Hw Hk Hf Hp.
  { assert (k = b) as -> by lia. cbn [unregister_loop]. unfold part_next. rewrite decide_False, Z.ltb_irrefl by lia.
    exists w. split_and!; [done|done|by eapply placed_none]. }
  cbn [unregister_loop]. destruct (decide (k = b)) as [->|Hkb].
  { unfold part_next. rewrite decide_False, Z.ltb_irrefl by lia. exists w. split_and!; [done|done|by eapply placed_none]. }
  pose proof (part_end_next last b k Hs ltac:(lia)) as En. destruct (part_major last b k Hs ltac:(lia)) as (P1 & P2 & P3 & P4 & P5).
  replace (part_next last b k) with (part_start k) by (unfold part_next; by rewrite decide_True by lia).
  pose proof Hs as [Hs1 Hs2]. rewrite (proj2 (Z.ltb_lt _ _)) by (unfold part_end in *; lia). cbn [negb].
  rewrite (next_major_spec last k) by lia. rewrite major_div, minor_mod, P3, u32_id by (unfold part_end, W32 in *; lia).
  destruct Hp as [Hl Hp]. destruct (Hp k ltac:(lia)) as [Hin _]. destruct (Hin ltac:(lia)) as (l & l' & d & El & Eb & Ec & Epl & El').
  assert (chain_ok l) as Hok by (rewrite Forall_lookup in Ht0; eauto).
  assert (range_ok d) as Hd by (unfold range_ok, W32 in *; rewrite Eb, Ec; lia).
  pose proof (chr_place_spec d l Hok Hd) as Hplace. rewrite Epl in Hplace. destruct Hplace as (_ & _ & _ & Hr). rewrite Eb, Ec in Hr.
  destruct (unregister_one_spec L w k (part_start k mod M20) (part_end last k - part_start k) d l l' Hw ltac:(lia) ltac:(lia) El' Hr) as (w1 & E1 & Hw1 & Et1).
  unfold unregister_one in E1. destruct (__fwk_unregister_chrdev k _ _ w) as [[p w2]| |]; [|done..]. cbn [mbind res_bind] in E1 |- *. rewrite E1. cbn [mbind res_bind].
  rewrite En. apply IH; [done|lia|lia|]. rewrite Et1. split; [by rewrite length_insert|]. intros j Hj. destruct (Hp j Hj) as [Ha Hb'].
  destruct (decide (j = k)) as [->|Hne].
  - split; [lia|]. intros _. rewrite list_lookup_insert_eq; [done|]. apply lookup_lt_is_Some_1. by eexists.
  - rewrite list_lookup_insert_ne by lia. split; [|intros; apply Hb'; lia]. intros. apply Ha. lia.
Qed.

Lemma part_first : part_start (devNum / M20) = devNum.
Proof using Type. unfold part_start. pose proof (Z.mod_pos_bound devNum M20). pose proof (Z.div_mod devNum M20). lia. Qed.
Lemma part_later k : devNum / M20 < k -> devNum < k * M20 /\ part_start k = k * M20.
Proof using Type. intros. unfold part_start. pose proof (Z.mod_pos_bound devNum M20). pose proof (Z.div_mod devNum M20). nia. Qed.

Lemma unregister_nothing fuel n (w : csys) : unregister_loop fuel n n w = Ok w.
Proof using Type. destruct fuel; cbn [unregister_loop]; by rewrite Z.ltb_irrefl. Qed.
(** A failure takes out what was put in so far. *)
Lemma rollback L last t0 k w : Forall chain_ok t0 -> csys_ok L w -> placed last (devNum / M20) k t0 (cs_chrdevs w) ->
  devNum / M20 <= k -> k <= 255 \/ k = devNum / M20 -> part_start k < last < W32 -> exists w',
  fwk_unregister_chrdev devNum (u32 (part_start k - devNum)) w = Ok w' /\ csys_ok L w' /\ cs_chrdevs w' = t0.
Proof using All.
  intros Ht0 Hw Hp Hk Hk255 Hl. unfold fwk_unregister_chrdev. pose proof part_first as Ef.
  destruct (decide (k = devNum / M20)) as [->|Hne].
  { rewrite Ef in *. rewrite Z.sub_diag. change (u32 0) with 0. rewrite Z.add_0_r, u32_id, unregister_nothing by lia.
    exists w. split_and!; [done|done|by eapply placed_none]. }
  destruct (part_later k ltac:(lia)) as [Hlt Ek]. rewrite (u32_id (part_start k - devNum)) by lia.
  replace (devNum + (part_start k - devNum)) with (part_start k) by lia. rewrite u32_id by lia.
  assert (spans (part_start k) k) as Hs by (unfold spans; lia).
  destruct (unregister_loop_spec L (part_start k) k t0 Ht0 Hs ltac:(lia) 4097 (devNum / M20) w Hw ltac:(lia)) as (w' & E & ?).
  - assert (0 <= devNum / M20) by (apply Z.div_pos; lia). unfold W32 in *. lia.
  - eapply placed_shorter; [done|lia|lia].
  - unfold part_next in E. rewrite decide_True, Ef in E by lia. eauto.
Qed.

Lemma overlap_number last b k j t0 : spans last b -> devNum / M20 <= k < b -> part_start k mod M20 <= j < part_start k mod M20 + (part_end last k - part_start k) ->
  (exists l e, t0 !! Z.to_nat k = Some l /\ e ∈ l /\ covers e j) -> devNum <= k * M20 + j < last /\ taken t0 (k * M20 + j).
Proof using Hdev.
  intros Hs Hk Hj (l & e & Hl & He & Hc). destruct (part_major last b k Hs Hk) as (P1 & P2 & P3 & P4 & P5).
  pose proof (Z.div_mod (part_start k) M20 ltac:(lia)) as Hd. rewrite P3 in Hd. assert (part_end last k <= last) by (unfold part_end; lia).
  split; [lia|]. exists l, e. rewrite Z.div_add_l, Z.div_small, Z.add_0_r by lia. rewrite Z.add_comm, Z.mod_add, Z.mod_small by lia. done.
Qed.
Lemma register_loop_spec L last b t0 name : Forall chain_ok t0 -> spans last b -> 1 <= devNum / M20 -> forall fuel k w,
  csys_ok L w -> devNum / M20 <= k <= b -> k <= 255 \/ k = devNum / M20 -> b - k <= Z.of_nat fuel ->
  placed last (devNum / M20) k t0 (cs_chrdevs w) -> exists r w',
  register_loop garbage fuel devNum (part_next last b k) last name w = Ok (r, w') /\ csys_ok L w' /\
  (r = ER_NORMAL /\ b <= 255 /\ placed last (devNum / M20) b t0 (cs_chrdevs w') \/
   r = - ER_FAILD /\ cs_chrdevs w' = t0 /\ (out_of_memory L sizeof_chrdev \/ 255 < b \/ exists x, devNum <= x < last /\ taken t0 x)).
Proof using All.
  intros Ht0 Hs HM. pose proof Hs as [Hs1 Hs2]. assert (devNum / M20 < b) as HMb by (apply Z.div_lt_upper_bound; lia).
  induction fuel as [|fuel IH]; intros k w Hw Hk Hk255 Hf Hp; cbn [register_loop]; (destruct (decide (k = b)) as [->|Hkb];
    [unfold part_next; rewrite decide_False, Z.ltb_irrefl by lia; exists 0, w; split_and!; [done|done|left; split_and!; [done|lia|done]]|]); [lia|].
  pose proof (part_end_next last b k Hs ltac:(lia)) as En. destruct (part_major last b k Hs ltac:(lia)) as (P1 & P2 & P3 & P4 & P5).
  replace (part_next last b k) with (part_start k) by (unfold part_next; by rewrite decide_True by lia).
  assert (part_start k < last) as Hlast by (unfold part_end in *; lia). rewrite (proj2 (Z.ltb_lt _ _)) by lia. cbn [negb].
  rewrite major_div, minor_mod, P3. destruct (rollback L last t0 k w Ht0 Hw Hp ltac:(lia) Hk255 ltac:(lia)) as (wr & Er & Hwr & Etr).
  destruct (decide (k < 255)) as [Hlow|Hhigh].
  2: { destruct (register_too_high k (part_start k mod M20) (u32 (next_major (part_start k) last - part_start k)) name w ltac:(lia)) as (p & -> & Hv).
       cbn [mbind res_bind]. rewrite Hv. cbn [negb]. rewrite Er. cbn [mbind res_bind]. exists (- ER_FAILD), wr. split_and!; [done..|right]. split_and!; [done|done|right; left; lia]. }
  rewrite (next_major_spec last k) by lia. rewrite (u32_id (part_end last k - part_start k)) by (unfold part_end, W32 in *; lia).
  rewrite register_given by lia.
  destruct (register_under_spec L w k (part_start k mod M20) (part_end last k - part_start k) name Hw) as (p & w1 & -> & Hw1 & Hcase); [lia|lia|lia|unfold W32; lia|].
  cbn [mbind res_bind]. destruct Hcase as [(Hv & Et & Hwhy)|(Hv & l & l' & d & El & _ & _ & Eb & Ec & Epl & Et)]; rewrite Hv; cbn [negb].
  - pose proof Hp as [_ Hsame]. rewrite <- Et in Hp. destruct (rollback L last t0 k w1 Ht0 Hw1 Hp ltac:(lia) Hk255 ltac:(lia)) as (w2 & -> & Hw2 & Et2). cbn [mbind res_bind].
    exists (- ER_FAILD), w2. split_and!; [done..|right]. split_and!; [done|done|]. destruct Hwhy as [?|(l & e & j & El & He & Hj & Hcov)]; [by left|right; right].
    rewrite (proj2 (Hsame k ltac:(lia)) ltac:(lia)) in El. exists (k * M20 + j). apply (overlap_number last b k j t0 Hs); [lia|done|]. by exists l, e.
  - rewrite En. apply IH; [done|lia|lia|lia|]. destruct Hp as [Hl Hp]. rewrite Et. split; [by rewrite length_insert|]. intros j Hj. destruct (Hp j Hj) as [Ha Hb'].
    destruct (decide (j = k)) as [->|Hne].
    + split; [|lia]. intros _. rewrite list_lookup_insert_eq by (apply lookup_lt_is_Some_1; by eexists).
      exists l, l', d. split_and!; try done. rewrite <- Hb' by lia. done.
    + rewrite list_lookup_insert_ne by lia. split; intros; [apply Ha|apply Hb']; lia.
Qed.

(** What is taken once the whole range is in the table. *)
Lemma part_numbers last b d x : spans last b -> devNum / M20 <= x / M20 < b -> 
  baseminor d = part_start (x / M20) mod M20 -> count d = part_end last (x / M20) - part_start (x / M20) ->
  covers d (x mod M20) <-> devNum <= x < last.
Proof using Hdev.
  intros Hs Hk Eb Ec. destruct (part_major last b (x / M20) Hs Hk) as (_ & P2 & P3 & P4 & P5). unfold covers. rewrite Eb, Ec.
  set (k := x / M20) in *. assert (x = M20 * k + x mod M20) as Ex by (apply Z.div_mod; lia). pose proof (Z.mod_pos_bound x M20 ltac:(lia)).
  assert (part_start k = M20 * k + part_start k mod M20) as Es by (rewrite <- P3 at 2; apply Z.div_mod; lia).
  assert (k * M20 <= part_start k) by (unfold part_start; lia).
  assert (devNum <= x < last <-> part_start k <= x < part_end last k) as ->; [|lia].
  unfold part_start, part_end in *. lia.
Qed.
Lemma placed_taken last b t0 t : Forall chain_ok t0 -> spans last b -> placed last (devNum / M20) b t0 t ->
  (forall x, devNum <= x < last -> ~ taken t0 x) /\ (forall x, 0 <= x -> taken t x <-> taken t0 x \/ devNum <= x < last).
Proof using Hdev.
  intros Ht0 Hs [Hlen Hp]. assert (0 <= devNum / M20) by (apply Z.div_pos; lia). pose proof Hs as [Hs1 Hs2].
  assert (forall x, devNum <= x < last -> devNum / M20 <= x / M20 < b) as Hin.
  { intros x Hx. split; [apply Z.div_le_mono; lia|]. apply Z.div_lt_upper_bound; lia. }
  assert (forall x, 0 <= x -> devNum / M20 <= x / M20 < b -> exists l l' d, t0 !! Z.to_nat (x / M20) = Some l /\ t !! Z.to_nat (x / M20) = Some l' /\
    l' ≡ₚ d :: l /\ (covers d (x mod M20) <-> devNum <= x < last) /\ forall j e, e ∈ l -> covers d j -> ~ covers e j) as Hpart.
  { intros x Hx Hk. destruct (Hp (x / M20) ltac:(apply Z.div_pos; lia)) as [Ha _]. destruct (Ha Hk) as (l & l' & d & El & Eb & Ec & Epl & El').
    destruct (part_major last b (x / M20) Hs Hk) as (_ & P2 & _ & P4 & P5).
    assert (range_ok d) as Hd by (unfold range_ok, W32 in *; rewrite Eb, Ec; lia).
    pose proof (chr_place_spec d l ltac:(rewrite Forall_lookup in Ht0; eauto) Hd) as Hpl. rewrite Epl in Hpl. destruct Hpl as (Hdis & _ & Hperm & _).
    exists l, l', d. split_and!; try done; by eapply part_numbers. }
  split.
  - intros x Hx (l0 & e & El0 & He & Hc). destruct (Hpart x ltac:(lia) (Hin x Hx)) as (l & l' & d & El & _ & _ & Hcov & Hdis).
    rewrite El in El0. injection El0 as <-. by apply (Hdis _ e He (proj2 Hcov Hx)).
  - intros x Hx. destruct (decide (devNum / M20 <= x / M20 < b)) as [Hk|Hk].
    + destruct (Hpart x Hx Hk) as (l & l' & d & El & El' & Hperm & Hcov & Hdis). unfold taken. rewrite El, El'. split.
      * intros (l2 & e & [= <-] & He & Hc). rewrite Hperm in He. apply elem_of_cons in He as [->|He]; [right; by apply Hcov|left; eauto].
      * intros [(l2 & e & [= <-] & He & Hc)|Hr]; [exists l', e|exists l', d]; (split_and!; [done| |]); [rewrite Hperm; by right|done|rewrite Hperm; by left|by apply Hcov].
    + destruct (Hp (x / M20) ltac:(apply Z.div_pos; lia)) as [_ E]. unfold taken. rewrite (E Hk). split; [by left|].
      intros [?|?%Hin]; [done|lia].
Qed.
End range.

(** ** Numbers chosen by the kernel *)

Lemma free_major_spec n tab : (n <= length tab)%nat -> exists o, free_major n tab = Ok o /\
  match o with Some k => 0 <= k < Z.of_nat n /\ tab !! Z.to_nat k = Some [] | None => forall i, (i < n)%nat -> tab !! i <> Some [] end.
Proof using Type.
  induction n as [|n IH]; intros Hn; cbn [free_major]; [eexists; split; [done|]; simpl; lia|].
  destruct (lookup_lt_is_Some_2 tab n) as [l Hl]; [lia|]. rewrite Hl. cbn [deref mbind res_bind]. destruct l as [|d l].
  - eexists. split; [done|]. simpl. rewrite Nat2Z.id. split; [lia|done].
  - destruct IH as (o & -> & Ho); [lia|]. exists o. split; [done|]. destruct o as [k|]; [destruct Ho; split; [lia|done]|].
    intros i Hi. destruct (decide (i = n)) as [->|]; [congruence|]. apply Ho. lia.
Qed.
(** The record of the range is the one at the address that was returned. *)
Lemma find_record L w d l l' k : csys_ok L w -> cs_chrdevs w !! Z.to_nat k = Some l' -> l' ≡ₚ d :: l ->
  List.find (fun e => cd_addr e =? cd_addr d) (concat (cs_chrdevs w)) = Some d.
Proof using Type.
  clear garbage. intros [_ _ Hh _] Hl Hp. assert (d ∈ concat (cs_chrdevs w)) as Hd.
  { apply list_elem_of_In, in_concat. exists l'. rewrite <- !list_elem_of_In. split; [by eapply list_elem_of_lookup_2|]. rewrite Hp. left. }
  destruct (List.find _ _) as [e|] eqn:Ef.
  - apply find_some in Ef as [He Ea%Z.eqb_eq]. apply list_elem_of_In in He. f_equal.
    apply list_elem_of_split in He as (l1 & l2 & Es). destruct (decide (e = d)) as [|Hne]; [done|]. exfalso.
    destruct (heap_inv_blocks _ _ Hh) as [Hdis _]. unfold blocks in Hdis. rewrite Es in Hdis.
    apply (disjoint_allocs_perm _ (block e :: (block <$> l1 ++ l2) ++ L)) in Hdis.
    2: { rewrite !fmap_app, fmap_cons. rewrite <- Permutation_middle. done. }
    assert (block d ∈ (block <$> l1 ++ l2) ++ L) as Hin.
    { apply elem_of_app. left. apply list_elem_of_fmap. exists d. split; [done|]. rewrite Es in Hd. set_solver. }
    pose proof (disjoint_head _ _ _ _ _ Hdis Hin). unfold sizeof_chrdev in *. lia.
  - exfalso. apply list_elem_of_In in Hd. pose proof (find_none _ _ Ef d Hd) as E. cbv beta in E. rewrite Z.eqb_refl in E. done.
Qed.

(** A chosen range lies under a major that was empty, so it was free as a whole. *)
Theorem alloc_chrdev_spec L w base cnt name : csys_ok L w -> 0 <= base -> 0 < cnt -> base + cnt <= M20 -> exists r o w',
  fwk_alloc_chrdev garbage base cnt name w = Ok (r, o, w') /\ csys_ok L w' /\
  match o with
  | None => r = - ER_FAULT /\ cs_chrdevs w' = cs_chrdevs w
  | Some devNum => r = ER_NORMAL /\ devNum mod M20 = base /\ cs_chrdevs w !! Z.to_nat (devNum / M20) = Some [] /\
      forall x, 0 <= x -> taken (cs_chrdevs w') x <-> taken (cs_chrdevs w) x \/ devNum <= x < devNum + cnt
  end.
Proof using Type.
  intros Hw Hb Hc Hbc. unfold fwk_alloc_chrdev, __fwk_register_chrdev. rewrite (proj2 (Z.eqb_neq cnt 0)) by lia. rewrite Z.eqb_refl.
  destruct (free_major_spec (Z.to_nat DEVICE_MAX_NUM) (cs_chrdevs w)) as (o & -> & Ho); [by rewrite (ck_len _ _ Hw)|]. cbn [mbind res_bind].
  destruct o as [k|]; [|by exists (- ER_FAULT), None, w]. destruct Ho as [Hk Hl]. change (Z.of_nat (Z.to_nat DEVICE_MAX_NUM)) with 255 in Hk.
  destruct (register_under_spec L w k base cnt name Hw ltac:(lia) Hb Hc) as (p & w' & -> & Hw' & Hcase); [unfold W32; lia|]. cbn [mbind res_bind].
  destruct Hcase as [(Hv & Et & _)|(Hv & l & l' & d & El & Ea & Em & Eb & Ec & Epl & Et)]; rewrite Hv; cbn [negb]; [by exists (- ER_FAULT), None, w'|].
  rewrite Hl in El. injection El as <-. cbn [chr_place] in Epl. injection Epl as <-.
  assert (cs_chrdevs w' !! Z.to_nat k = Some [d]) as Hl' by (rewrite Et; apply list_lookup_insert_eq; rewrite (ck_len _ _ Hw); lia).
  rewrite <- Ea, (find_record L w' d [] [d] k Hw' Hl') by done. cbn [deref mbind res_bind]. eexists _, (Some _), w'. split; [done|]. split; [done|].
  rewrite Em, Eb. assert (MKE_DEV_NUM k base = k * M20 + base) as ->.
  { unfold MKE_DEV_NUM, DEV_MINOR_BITS. rewrite u32_id by (rewrite Z.shiftl_mul_pow2 by lia; change (2 ^ 20) with M20; unfold W32; lia).
    apply lor_shift; change (2 ^ 20) with M20; lia. }
  assert ((k * M20 + base) / M20 = k) as Ek by (rewrite Z.div_add_l, Z.div_small by lia; lia).
  assert ((k * M20 + base) mod M20 = base) as Eb' by (rewrite Z.add_comm, Z.mod_add, Z.mod_small by lia; lia).
  rewrite Ek. split_and!; [done|done|done|]. intros x Hx. unfold taken. rewrite Et.
  pose proof (Z.div_mod x M20). pose proof (Z.mod_pos_bound x M20). destruct (decide (x / M20 = k)) as [E|E].
  - rewrite E, Hl, list_lookup_insert_eq by (rewrite (ck_len _ _ Hw); lia). split.
    + intros (? & e & [= <-] & ->%list_elem_of_singleton & Hcov). right. unfold covers in Hcov. lia.
    + intros [(? & e & [= <-] & ?%not_elem_of_nil & _)|Hr]; [done|]. exists [d], d. split_and!; [done|by left|]. unfold covers. lia.
  - rewrite list_lookup_insert_ne by (intros ?%Z2Nat.inj; [lia|lia|apply Z.div_pos; lia]). split; [by left|]. intros [?|Hr]; [done|]. exfalso. apply E.
    symmetry. apply (Z.div_unique_pos _ _ k (x - k * M20)); lia.
Qed.


(** ** Giving everything back *)

Lemma delete_all_spec l : forall L w, cpu_ok (cs_cpu w) -> heap_inv (cs_heap w) ((block <$> l) ++ L) -> exists h',
  delete_all l w = Ok (CSys h' (cs_cpu w) (cs_chrdevs w)) /\ heap_inv h' L.
Proof using Type.
  induction l as [|d l IH]; intros L w Hc Hh; cbn [delete_all]; [destruct w; eauto|]. unfold c_kfree.
  destruct (heap_free_spec (cs_cpu w) (cs_heap w) _ _ _ Hc Hh ltac:(done)) as (h1 & -> & Hh1 & _). cbn [mbind res_bind].
  by apply (IH L (CSys h1 (cs_cpu w) (cs_chrdevs w))).
Qed.
Lemma exit_loop_spec L n : forall i w, csys_ok L w -> 0 <= i -> i + Z.of_nat n = 255 -> (forall j, 0 <= j < i -> cs_chrdevs w !! Z.to_nat j = Some []) -> exists w',
  exit_loop n i w = Ok w' /\ csys_ok L w' /\ forall j, 0 <= j < 255 -> cs_chrdevs w' !! Z.to_nat j = Some [].
Proof using Type.
  induction n as [|n IH]; intros i w Hw Hi Hn Hj; cbn [exit_loop]; [exists w; split_and!; [done|done|]; intros; apply Hj; lia|].
  destruct (chain_at L w i Hw ltac:(lia)) as (l & Hl & _). rewrite Hl. cbn [deref mbind res_bind]. pose proof Hw as [Hlen Hch Hh Hc].
  destruct (delete_all_spec l (blocks (<[Z.to_nat i := []]> (cs_chrdevs w)) ++ L) w Hc) as (h' & -> & Hh').
  { eapply heap_inv_perm; [|exact Hh]. rewrite app_assoc. apply Permutation_app_tail. unfold blocks. rewrite <- fmap_app.
    rewrite (Permutation_app_comm l), (concat_insert _ _ l [] Hl), app_nil_r. done. }
  cbn [mbind res_bind]. apply IH; [|lia|lia|].
  - split; cbn [put_chain cs_chrdevs cs_heap cs_cpu]; [by rewrite length_insert| |done|done]. apply Forall_insert; [done|by split; constructor].
  - intros j Hji. cbn [put_chain cs_chrdevs]. destruct (decide (j = i)) as [->|]; [apply list_lookup_insert_eq; lia|].
    rewrite list_lookup_insert_ne by lia. apply Hj. lia.
Qed.
(** After the exit every chain is empty and no block of the table is left. *)
Theorem chrdev_exit_spec L w : csys_ok L w -> exists w', fwk_chrdev_exit w = Ok w' /\ cs_chrdevs w' = replicate 255 [] /\ heap_inv (cs_heap w') L.
Proof using Type.
  intros Hw. destruct (exit_loop_spec L 255 0 w Hw ltac:(lia) ltac:(lia) ltac:(lia)) as (w' & E & [Hlen _ Hh _] & Hj). exists w'.
  assert (cs_chrdevs w' = replicate 255 []) as Et.
  { apply list_eq_same_length with 255%nat; [by rewrite length_replicate|done|]. intros i x y Hi Hx Hy.
    specialize (Hj (Z.of_nat i) ltac:(lia)). rewrite Nat2Z.id, Hx in Hj. apply lookup_replicate in Hy as [-> _]. congruence. }
  split_and!; [exact E|done|]. unfold blocks in Hh. rewrite Et in Hh. exact Hh.
Qed.

End table.

(** ** A fresh table *)

Definition demo_csys : csys := fwk_chrdev_init (CSys demo_kheap (Cpu 0 0) []).
Lemma demo_csys_ok : csys_ok [] demo_csys.
Proof.
  split; [done|by apply Forall_replicate; split; constructor| |done].
  unfold demo_csys, fwk_chrdev_init, blocks. cbn [cs_chrdevs cs_heap].
  assert (forall n, concat (replicate n ([] : list fwk_char_device)) = []) as -> by (induction n; done). exact demo_kheap_inv.
Qed.

