(* ===== verification/KobjMap.v ===== *)
(** * Objects by device number (platform/fwk_kobjmap.c, platform/chardev/fwk_cdev.c)

    [fwk_kobj_map] files the object that serves a range of device numbers under
    each major of the range, [fwk_kobjmap_lookup] finds it for a number, and
    [fwk_kobj_unmap] takes it out.  The probes of one range are an array in one
    block; each of them is a link of the chain of its major. *)

From stdpp Require Import prelude gmap fin_maps sorting.
From S2P Require Import Prelude Mem Bytes MemPool Sync KMalloc KMallocSpec HeapContract Chrdev ChrdevSpec.

Record fwk_probes := Probe { pr_addr : Z; pr_devNum : Z; pr_range : Z; pr_data : Z }.
#[export] Instance probes_eq_dec : EqDecision fwk_probes.
Proof. solve_decision. Defined.
Notation kobj_table := (list (list fwk_probes)).

Definition sizeof_probes : Z := 16.
Definition sizeof_kobj_map : Z := 1020.

Section kobjmap.
Context {H : Type} `{KernelHeap H}.

Record ksys := KSys {
  ks_heap : H; ks_cpu : cpu;
  ks_chrdev_map : Z; ks_blkdev_map : Z;                  (* sprt_fwk_chrdev_map, sprt_fwk_blkdev_map *)
  ks_maps : gmap Z kobj_table;                           (* the probes of a map by its address *)
}.
Definition put_map (p : Z) (t : kobj_table) (w : ksys) : ksys :=
  KSys (ks_heap w) (ks_cpu w) (ks_chrdev_map w) (ks_blkdev_map w) (<[p := t]> (ks_maps w)).
Definition k_kzalloc (size : Z) (w : ksys) : res (Z * ksys) :=
  '(q, c, h) ← heap_alloc (ks_cpu w) (ks_heap w) size (Z.lor GFP_KERNEL GFP_ZERO);
  Ok (q, KSys h c (ks_chrdev_map w) (ks_blkdev_map w) (ks_maps w)).
Definition k_kfree (p : Z) (w : ksys) : res ksys :=
  '(c, h) ← heap_free (ks_cpu w) (ks_heap w) p;
  Ok (KSys h c (ks_chrdev_map w) (ks_blkdev_map w) (ks_maps w)).
Definition set_globals (c b : Z) (w : ksys) : ksys := KSys (ks_heap w) (ks_cpu w) c b (ks_maps w).

Definition empty_table : kobj_table := replicate (Z.to_nat DEVICE_MAX_NUM) [].
Definition fwk_kobjmap_init (w : ksys) : res (Z * ksys) :=
  '(c, w) ← k_kzalloc sizeof_kobj_map w;
  let w := set_globals c (ks_blkdev_map w) w in
  if negb (isValid c) then Ok (- ER_NOMEM, w)
  else
    '(b, w) ← k_kzalloc sizeof_kobj_map w;
    let w := set_globals c b w in
    if negb (isValid b) then
      w ← k_kfree c w;
      Ok (- ER_NOMEM, set_globals nullptr b w)
    else Ok (ER_NORMAL, put_map b empty_table (put_map c empty_table w)).

(** The majors of a range: the first one and how many slots are used. *)
Definition map_major (devNum : Z) : Z :=
  let m := GET_DEV_MAJOR devNum in if DEVICE_MAX_NUM <? m then DEVICE_MAX_NUM else m.
Definition map_count (devNum range : Z) : Z :=
  let major := map_major devNum in
  let majorCnt := u32 (GET_DEV_MAJOR (u32 (devNum + range)) - major + 1) in
  if DEVICE_MAX_NUM <? u32 (major + majorCnt) then DEVICE_MAX_NUM - major else majorCnt.

(** Chains are kept in the order of the lengths of their ranges. *)
Fixpoint probe_insert (l : list fwk_probes) (p : fwk_probes) : list fwk_probes :=
  match l with
  | [] => [p]
  | e :: l' => if pr_range e <? pr_range p then e :: probe_insert l' p else p :: e :: l'
  end.
Fixpoint map_loop (n : nat) (i : Z) (major block devNum range data : Z) (t : kobj_table) : res kobj_table :=
  match n with
  | O => Ok t
  | S n =>
      let index := u32 (major + i) mod DEVICE_MAX_NUM in
      l ← deref (t !! Z.to_nat index);
      let p := Probe (block + sizeof_probes * i) devNum range data in
      map_loop n (i + 1) major block devNum range data (<[Z.to_nat index := probe_insert l p]> t)
  end.
Definition fwk_kobj_map (domain devNum range data : Z) (w : ksys) : res (Z * ksys) :=
  if negb (isValid domain) || negb (isValid data) then Ok (- ER_FAULT, w)
  else
    let major := map_major devNum in
    let majorCnt := map_count devNum range in
    '(block, w) ← k_kzalloc (u32 (sizeof_probes * majorCnt)) w;
    if negb (isValid block) then Ok (- ER_NOMEM, w)
    else
      t ← deref (ks_maps w !! domain);
      t ← map_loop (Z.to_nat majorCnt) 0 major block devNum range data t;
      Ok (ER_NORMAL, put_map domain t w).

(** The first probe of exactly this range leaves its chain. *)
Fixpoint probe_remove (l : list fwk_probes) (devNum range : Z) : option (fwk_probes * list fwk_probes) :=
  match l with
  | [] => None
  | e :: l =>
      if (pr_devNum e =? devNum) && (pr_range e =? range) then Some (e, l)
      else (fun r => (r.1, e :: r.2)) <$> probe_remove l devNum range
  end.
Fixpoint unmap_loop (n : nat) (i : Z) (major devNum range sprt_Rlt : Z) (t : kobj_table) : res (Z * kobj_table) :=
  match n with
  | O => Ok (sprt_Rlt, t)
  | S n =>
      let index := u32 (major + i) mod DEVICE_MAX_NUM in
      l ← deref (t !! Z.to_nat index);
      match probe_remove l devNum range with
      | Some (e, l) =>
          unmap_loop n (i + 1) major devNum range (if negb (sprt_Rlt =? 0) then sprt_Rlt else pr_addr e) (<[Z.to_nat index := l]> t)
      | None => unmap_loop n (i + 1) major devNum range sprt_Rlt t
      end
  end.
Definition fwk_kobj_unmap (domain devNum range : Z) (w : ksys) : res (Z * ksys) :=
  if negb (isValid domain) then Ok (- ER_FAULT, w)
  else
    let major := map_major devNum in
    let majorCnt := map_count devNum range in
    t ← deref (ks_maps w !! domain);
    '(sprt_Rlt, t) ← unmap_loop (Z.to_nat majorCnt) 0 major devNum range nullptr t;
    let w := put_map domain t w in
    w ← (if negb (sprt_Rlt =? 0) then k_kfree sprt_Rlt w else Ok w);
    Ok (ER_NORMAL, w).

(** On exit every probe is freed by itself, then the maps. *)
Fixpoint delete_probes (l : list fwk_probes) (w : ksys) : res ksys :=
  match l with
  | [] => Ok w
  | p :: l => w ← k_kfree (pr_addr p) w; delete_probes l w
  end.
Fixpoint del_slots (n : nat) (i domain : Z) (w : ksys) : res ksys :=
  match n with
  | O => Ok w
  | S n =>
      t ← deref (ks_maps w !! domain);
      l ← deref (t !! Z.to_nat i);
      w ← delete_probes l w;
      del_slots n (i + 1) domain (put_map domain (<[Z.to_nat i := []]> t) w)
  end.
Definition del_map (domain : Z) (w : ksys) : res ksys :=
  w ← del_slots (if isValid domain then Z.to_nat DEVICE_MAX_NUM else O) 0 domain w; k_kfree domain w.
Definition fwk_kobjmap_del (w : ksys) : res ksys :=
  w ← del_map (ks_chrdev_map w) w;
  let w := set_globals nullptr (ks_blkdev_map w) w in
  w ← del_map (ks_blkdev_map w) w;
  Ok (set_globals (ks_chrdev_map w) nullptr w).

Definition probe_serves (devNum : Z) (p : fwk_probes) : bool :=
  (pr_devNum p <=? devNum) && (devNum <=? u32 (pr_devNum p + pr_range p - 1)).
Definition fwk_kobjmap_lookup (domain devNum : Z) (w : ksys) : res Z :=
  if negb (isValid domain) then Ok nullptr
  else
    t ← deref (ks_maps w !! domain);
    l ← deref (t !! Z.to_nat (GET_DEV_MAJOR devNum mod DEVICE_MAX_NUM));
    Ok (match List.find (probe_serves devNum) l with Some p => pr_data p | None => nullptr end).

(** ** Character devices *)

Record fwk_cdev := CDev { cv_devNum : Z; cv_count : Z; cv_oprts : Z }.
Definition fwk_cdev_init (ptr : Z) (cdev : fwk_cdev) (sprt_oprts : Z) : Z * fwk_cdev :=
  if negb (isValid ptr) then (- ER_NOMEM, cdev) else (ER_NORMAL, CDev 0 0 sprt_oprts).
Definition fwk_cdev_add (ptr : Z) (cdev : fwk_cdev) (devNum count : Z) (w : ksys) : res (Z * fwk_cdev * ksys) :=
  if negb (isValid ptr) then Ok (- ER_NOMEM, cdev, w)
  else
    '(r, w) ← fwk_kobj_map (ks_chrdev_map w) devNum count ptr w;
    Ok (r, CDev devNum count (cv_oprts cdev), w).
Definition fwk_cdev_del (ptr : Z) (cdev : fwk_cdev) (w : ksys) : res (Z * ksys) :=
  if negb (isValid ptr) then Ok (- ER_NOMEM, w)
  else '(_, w) ← fwk_kobj_unmap (ks_chrdev_map w) (cv_devNum cdev) (cv_count cdev) w; Ok (ER_NORMAL, w).

(** ** Chains *)

Definition probe_ok (p : fwk_probes) : Prop := 0 <= pr_devNum p /\ 0 < pr_range p /\ pr_devNum p + pr_range p <= W32.
Definition apart (p q : fwk_probes) : Prop := pr_devNum p + pr_range p <= pr_devNum q \/ pr_devNum q + pr_range q <= pr_devNum p.
(** A probe that may join a chain: it shares no number with those there. *)
Definition fresh_in (l : list fwk_probes) (p : fwk_probes) : Prop := forall e, e ∈ l -> probe_ok e /\ apart e p.

Lemma serves_iff x p : probe_ok p -> probe_serves x p = true <-> pr_devNum p <= x < pr_devNum p + pr_range p.
Proof using Type. intros (?&?&?). unfold probe_serves. rewrite andb_true_iff, !Z.leb_le, u32_id by lia. lia. Qed.
Lemma fresh_cons e l p : fresh_in (e :: l) p <-> (probe_ok e /\ apart e p) /\ fresh_in l p.
Proof using Type.
  unfold fresh_in. split; [intros Hf; split; [apply Hf; left|intros; apply Hf; by right]|].
  intros [He Hf] d [->|Hd]%elem_of_cons; auto.
Qed.
Lemma insert_remove l p : probe_ok p -> fresh_in l p -> probe_remove (probe_insert l p) (pr_devNum p) (pr_range p) = Some (p, l).
Proof using Type.
  intros (?&?&?). induction l as [|e l IH]; cbn [probe_insert]; [intros _; cbn [probe_remove]; by rewrite !Z.eqb_refl|].
  intros [[(?&?&?) Ha] Hf]%fresh_cons. case_match; cbn [probe_remove]; [|by rewrite !Z.eqb_refl].
  unfold apart in Ha. rewrite (proj2 (Z.eqb_neq (pr_devNum e) _)) by lia. cbn [andb]. by rewrite IH.
Qed.
Lemma find_insert l p x : probe_ok p -> fresh_in l p ->
  List.find (probe_serves x) (probe_insert l p) = if probe_serves x p then Some p else List.find (probe_serves x) l.
Proof using Type.
  intros Hp. induction l as [|e l IH]; cbn [probe_insert List.find]; [done|]. intros [[He Ha] Hf]%fresh_cons.
  destruct (pr_range e <? pr_range p); cbn [List.find]; [|done]. rewrite IH by done. destruct (probe_serves x e) eqn:Ee; [|done].
  destruct (probe_serves x p) eqn:Ep; [|done]. rewrite serves_iff in Ee, Ep by done. unfold apart in Ha. lia.
Qed.

(** ** The slots of a range *)

Section slots.
Context (devNum range data blk : Z).
Context (Hdev : 0 <= devNum) (Hrange : 0 < range) (Hend : devNum + range <= 255 * M20).
Let major := devNum / M20.
Definition probe_at (k : Z) : fwk_probes := Probe (blk + sizeof_probes * (k - devNum / M20)) devNum range data.

Lemma major_bound : 0 <= major < 255.
Proof using Hdev Hrange Hend. split; [apply Z.div_pos; lia|]. apply Z.div_lt_upper_bound; lia. Qed.
Lemma map_major_spec : map_major devNum = major.
Proof using Hdev Hrange Hend.
  pose proof major_bound. unfold map_major, DEVICE_MAX_NUM. rewrite major_div. fold major. case_match; bool_hyps; lia.
Qed.
(** Every major of a number of the range has a slot, and all slots exist. *)
Lemma map_count_spec : 0 < map_count devNum range /\ major + map_count devNum range <= 255 /\
  forall x, devNum <= x < devNum + range -> major <= x / M20 < major + map_count devNum range.
Proof using Hdev Hrange Hend.
  pose proof major_bound. unfold map_count. rewrite map_major_spec, major_div. unfold DEVICE_MAX_NUM.
  rewrite (u32_id (devNum + range)) by (unfold W32; lia).
  assert (major <= (devNum + range) / M20 <= 255) by (split; [apply Z.div_le_mono; lia|apply Z.div_le_upper_bound; lia]).
  rewrite (u32_id (_ - major + 1)) by (unfold W32; lia). rewrite (u32_id (major + _)) by (unfold W32; lia).
  assert (forall x, devNum <= x < devNum + range -> major <= x / M20 <= (devNum + range) / M20 /\ x / M20 < 255) as Hx.
  { intros x Hx. split; [split; apply Z.div_le_mono; lia|apply Z.div_lt_upper_bound; lia]. }
  case_match; bool_hyps; (split_and!; [lia|lia|]; intros x Hr; specialize (Hx x Hr); lia).
Qed.

(** The slots from [a] to [b] hold the probe of the range in addition. *)
Definition filed (a b : Z) (t0 t : kobj_table) : Prop := length t = length t0 /\ forall k, 0 <= k ->
  (a <= k < b -> exists l, t0 !! Z.to_nat k = Some l /\ t !! Z.to_nat k = Some (probe_insert l (probe_at k))) /\
  (~ (a <= k < b) -> t !! Z.to_nat k = t0 !! Z.to_nat k).

Lemma slot_index i : 0 <= i -> major + i < 255 -> u32 (major + i) mod DEVICE_MAX_NUM = major + i.
Proof using Hdev Hrange Hend. intros. pose proof major_bound. unfold DEVICE_MAX_NUM. rewrite u32_id by (unfold W32; lia). apply Z.mod_small. lia. Qed.

Lemma map_loop_spec t0 n : forall i t, length t0 = 255%nat -> 0 <= i -> major + i + Z.of_nat n <= 255 -> filed major (major + i) t0 t -> exists t',
  map_loop n i major blk devNum range data t = Ok t' /\ filed major (major + i + Z.of_nat n) t0 t'.
Proof using Hdev Hrange Hend.
  pose proof major_bound. induction n as [|n IH]; intros i t Hlen Hi Hn Hf; cbn [map_loop]; [exists t; split; [done|]; by rewrite Z.add_0_r|].
  rewrite slot_index by lia. destruct Hf as [Hl Hf]. destruct (Hf (major + i) ltac:(lia)) as [_ E]. rewrite E by lia.
  destruct (lookup_lt_is_Some_2 t0 (Z.to_nat (major + i))) as [l El]; [lia|]. rewrite El. cbn [deref mbind res_bind].
  destruct (IH (i + 1) (<[Z.to_nat (major + i) := probe_insert l (Probe (blk + sizeof_probes * i) devNum range data)]> t)) as (t' & -> & Hf'); [done|lia|lia| |].
  - split; [by rewrite length_insert|]. intros k Hk. destruct (Hf k Hk) as [Ha Hb]. destruct (decide (k = major + i)) as [->|Hne].
    + split; [|lia]. intros _. exists l. split; [done|]. rewrite list_lookup_insert_eq by lia. unfold probe_at. fold major. by rewrite Z.add_simpl_l.
    + rewrite list_lookup_insert_ne by lia. split; intros; [apply Ha|apply Hb]; lia.
  - exists t'. split; [done|]. by replace (major + i + Z.of_nat (S n)) with (major + (i + 1) + Z.of_nat n) by lia.
Qed.
Context (t0 : kobj_table) (Hlen : length t0 = 255%nat).
Context (Hfresh : forall k l, t0 !! k = Some l -> fresh_in l (Probe 0 devNum range data)).
Lemma probe_at_ok k : probe_ok (probe_at k).
Proof using Hdev Hrange Hend. clear t0 Hlen Hfresh. unfold probe_ok. cbn. unfold W32. lia. Qed.
Lemma probe_at_fresh k j l : t0 !! k = Some l -> fresh_in l (probe_at j).
Proof using Hfresh. intros Hl e He. exact (Hfresh k l Hl e He). Qed.

(** Taking the range out slot by slot gives the old table and the first probe removed. *)
Lemma unmap_loop_spec n : 0 < blk -> forall i t rlt, 0 <= i -> major + i + Z.of_nat n <= 255 -> filed (major + i) (major + i + Z.of_nat n) t0 t ->
  unmap_loop n i major devNum range rlt t =
    Ok (if negb (rlt =? 0) then rlt else match n with O => 0 | _ => blk + sizeof_probes * i end, t0).
Proof using Hdev Hrange Hend Hlen Hfresh.
  intros Hblk. pose proof major_bound. induction n as [|n IH]; intros i t rlt Hi Hn [Hl Hf]; cbn [unmap_loop].
  { assert (t = t0) as ->.
    { apply list_eq. intros k. destruct (Hf (Z.of_nat k)) as [_ E]; [lia|]. rewrite Nat2Z.id in E. apply E. lia. }
    destruct (rlt =? 0) eqn:?; cbn [negb]; bool_hyps; by subst. }
  rewrite slot_index by lia. destruct (Hf (major + i) ltac:(lia)) as [(l & El & E) _]; [lia|]. rewrite E. cbn [deref mbind res_bind].
  rewrite (insert_remove l (probe_at (major + i)) (probe_at_ok _) (probe_at_fresh _ _ _ El) : probe_remove _ devNum range = _).
  rewrite IH; [|lia|lia|].
  - cbn [pr_addr probe_at]. fold major. rewrite Z.add_simpl_l. unfold sizeof_probes.
    destruct (rlt =? 0) eqn:Er; cbn [negb]; [|by rewrite Er]. by rewrite (proj2 (Z.eqb_neq (blk + 16 * i) 0)) by lia.
  - split; [by rewrite length_insert|]. intros k Hk. destruct (Hf k Hk) as [Ha Hb]. destruct (decide (k = major + i)) as [->|Hne].
    + split; [lia|]. intros _. by rewrite list_lookup_insert_eq by lia.
    + rewrite list_lookup_insert_ne by lia. split; intros; [apply Ha|apply Hb]; lia.
Qed.

(** With the range filed, its numbers lead to the object; every other number is served as before. *)
Lemma lookup_filed domain x w t : isValid domain = true -> 0 <= x < W32 -> ks_maps w !! domain = Some t ->
  filed major (major + map_count devNum range) t0 t ->
  fwk_kobjmap_lookup domain x w =
    if (devNum <=? x) && (x <? devNum + range) then Ok data else fwk_kobjmap_lookup domain x (put_map domain t0 w).
Proof using Hdev Hrange Hend Hlen Hfresh.
  intros Hv Hx Ht [Hl Hf]. pose proof major_bound. destruct map_count_spec as (Hpos & Hmax & Hin).
  unfold fwk_kobjmap_lookup. rewrite Hv, Ht. cbn [negb put_map ks_maps]. rewrite lookup_insert_eq, major_div. cbn [deref mbind res_bind].
  change DEVICE_MAX_NUM with 255. pose proof (Z.mod_pos_bound (x / M20) 255 ltac:(lia)) as Hk. set (k := (x / M20) mod 255) in *.
  destruct (lookup_lt_is_Some_2 t0 (Z.to_nat k)) as [l El]; [lia|]. rewrite El. cbn [deref mbind res_bind].
  destruct (Hf k ltac:(lia)) as [Ha Hb]. destruct (decide (major <= k < major + map_count devNum range)) as [Hs|Hs].
  - destruct (Ha Hs) as (l' & El' & Et). assert (l' = l) as -> by congruence. rewrite Et. cbn [deref mbind res_bind].
    rewrite find_insert by (apply probe_at_ok || exact (probe_at_fresh _ _ _ El)).
    pose proof (serves_iff x _ (probe_at_ok k)) as Hi. cbn [probe_at pr_devNum pr_range] in Hi.
    destruct (probe_serves x (probe_at k)) eqn:Ep; destruct ((devNum <=? x) && (x <? devNum + range)) eqn:E; bool_hyps; try done; exfalso.
    + pose proof (proj1 Hi eq_refl). apply andb_false_iff in E as []; bool_hyps; lia.
    + discriminate (proj2 Hi ltac:(lia)).
  - rewrite (Hb Hs), El. cbn [deref mbind res_bind].
    destruct ((devNum <=? x) && (x <? devNum + range)) eqn:E; [|done]. apply andb_true_iff in E as []. bool_hyps.
    specialize (Hin x ltac:(lia)). exfalso. apply Hs. subst k. rewrite Z.mod_small by lia. exact Hin.
Qed.
End slots.

(** ** Devices in the map *)

(** The state of the map of the character devices: chains of live ranges. *)
Record ksys_ok (L : list (Z * Z)) (w : ksys) (t : kobj_table) : Prop := {
  kk_cpu : cpu_ok (ks_cpu w);
  kk_heap : heap_inv (ks_heap w) L;
  kk_map : isValid (ks_chrdev_map w) = true /\ ks_maps w !! ks_chrdev_map w = Some t;
  kk_len : length t = 255%nat;
}.

(** Starting up either makes two empty maps in two new blocks or gives everything back. *)
Lemma kobjmap_init_spec L w : cpu_ok (ks_cpu w) -> heap_inv (ks_heap w) L -> exists r w', fwk_kobjmap_init w = Ok (r, w') /\
  (r = - ER_NOMEM /\ heap_inv (ks_heap w') L \/
   r = ER_NORMAL /\ exists b, ksys_ok ((b, sizeof_kobj_map + 4) :: (ks_chrdev_map w', sizeof_kobj_map + 4) :: L) w' empty_table /\
     b = ks_blkdev_map w' /\ ks_maps w' !! b = Some empty_table).
Proof using Type.
  intros Hcpu Hh. unfold fwk_kobjmap_init, k_kzalloc. change (sizeof_kobj_map + 4) with (mrt_num_align8 sizeof_kobj_map).
  assert (forall c h L', cpu_ok c -> heap_inv h L' -> exists q h', heap_alloc c h sizeof_kobj_map (Z.lor GFP_KERNEL GFP_ZERO) = Ok (q, c, h') /\
    ((q = nullptr /\ heap_inv h' L') \/ (isValid q = true /\ heap_inv h' ((q, mrt_num_align8 sizeof_kobj_map) :: L')))) as Hal.
  { intros c h L' Hc Hh'. destruct (heap_alloc_spec c h L' sizeof_kobj_map (Z.lor GFP_KERNEL GFP_ZERO) Hc Hh' eq_refl) as (q & h' & ? & ? & _); [by vm_compute|]. by eauto. }
  destruct (Hal _ _ L Hcpu Hh) as (c & h1 & -> & [[-> Hh1]|[Hc Hh1]]); cbn [mbind res_bind]; [eexists _, _; split; [done|]; by left|].
  rewrite Hc. cbn [negb set_globals ks_cpu ks_heap]. destruct (Hal _ _ _ Hcpu Hh1) as (b & h2 & -> & [[-> Hh2]|[Hb Hh2]]); cbn [mbind res_bind].
  - cbn [isValid negb]. unfold k_kfree. cbn [set_globals ks_cpu ks_heap].
    destruct (heap_free_spec _ _ L c _ Hcpu Hh2) as (h3 & E & Hh3 & _); [by vm_compute|].
    change (isValid nullptr) with false. cbn [negb mbind res_bind]. rewrite E. eexists _, _; split; [done|]; by left.
  - rewrite Hb. cbn [negb]. eexists _, _. split; [done|]. right. split; [done|]. exists b.
    assert (c <> b) as Hne.
    { intros ->. destruct (heap_inv_blocks _ _ Hh2) as [Hdis _].
      destruct (disjoint_head _ _ _ b (mrt_num_align8 sizeof_kobj_map) Hdis ltac:(left)) as [Hx|Hx]; revert Hx; change (mrt_num_align8 sizeof_kobj_map) with 1024; lia. }
    split; [|split; [done|apply lookup_insert_eq]]. split; [done|done| |by vm_compute].
    split; [done|]. cbn. by rewrite lookup_insert_ne, lookup_insert_eq by done.
Qed.

End kobjmap.

(** ** A device on fresh maps *)

Definition demo_ksys : ksys := KSys demo_kheap (Cpu 0 0) 0 0 ∅.
