(* ===== verification/Kobj.v ===== *)
(** * Kernel objects and their names (platform/fwk_kobject.c, fwk_inode.c)

    Objects form a tree: a directory ([struct fwk_kset], whose first member is its
    object) lists its members, an object has a name in a block of the heap and an
    inode.  Paths are resolved one component after the other.

    A directory and its object have one address, so that [mrt_fwk_kset_get] is
    the address itself or null.  Lists are sequences of addresses (ListHead.v).  A name
    is its block and its text without the terminator; the text a format and its
    arguments give (KPrint.v) is an argument of the functions that take a format.
    Locks are kept apart from the objects they belong to.  Sizes of structures and the
    addresses of static data are parameters. *)

From stdpp Require Import prelude gmap fin_maps sorting.
From S2P Require Import Prelude Mem Bytes MemPool Sync KMalloc KMallocSpec HeapContract Chrdev ChrdevSpec KobjMap.

Notation text := (list Z).
Definition slash : Z := 47.
Definition percent : Z := 37.

Record fwk_kobject := KObj {
  ko_name : option (Z * text); ko_ref : Z;
  ko_parent : Z; ko_kset : Z; ko_inode : Z;
  ko_dir : bool; ko_disk : bool;
  ko_list : list Z;                                      (* sgrt_list of the directory around it *)
}.
Definition zero_obj : fwk_kobject := KObj None 0 0 0 0 false false [].
Definition set_oname v o := KObj v (ko_ref o) (ko_parent o) (ko_kset o) (ko_inode o) (ko_dir o) (ko_disk o) (ko_list o).
Definition set_oref v o := KObj (ko_name o) v (ko_parent o) (ko_kset o) (ko_inode o) (ko_dir o) (ko_disk o) (ko_list o).
Definition set_oparent v o := KObj (ko_name o) (ko_ref o) v (ko_kset o) (ko_inode o) (ko_dir o) (ko_disk o) (ko_list o).
Definition set_okset v o := KObj (ko_name o) (ko_ref o) (ko_parent o) v (ko_inode o) (ko_dir o) (ko_disk o) (ko_list o).
Definition set_oinode v o := KObj (ko_name o) (ko_ref o) (ko_parent o) (ko_kset o) v (ko_dir o) (ko_disk o) (ko_list o).
Definition set_odir v o := KObj (ko_name o) (ko_ref o) (ko_parent o) (ko_kset o) (ko_inode o) v (ko_disk o) (ko_list o).
Definition set_olist v o := KObj (ko_name o) (ko_ref o) (ko_parent o) (ko_kset o) (ko_inode o) (ko_dir o) (ko_disk o) v.

Record fwk_inode := Inode { in_name : Z; in_type : Z; in_rdev : Z; in_foprts : Z; in_kobj : Z; in_dev : Z }.
Definition INODE_TYPE_FILE : Z := 0.
Definition INODE_TYPE_DIR : Z := 1.
Definition NR_TYPE_NONE : Z := 0.
Definition NR_TYPE_CHRDEV : Z := 1.
Definition NR_TYPE_BLKDEV : Z := 2.
Definition NR_TYPE_NETDEV : Z := 3.
Definition set_inode_ops (v : Z) (i : fwk_inode) : fwk_inode := Inode (in_name i) (in_type i) (in_rdev i) v (in_kobj i) (in_dev i).
Definition set_inode_rdev (v : Z) (i : fwk_inode) : fwk_inode := Inode (in_name i) (in_type i) v (in_foprts i) (in_kobj i) (in_dev i).
Definition set_inode_dev (v : Z) (i : fwk_inode) : fwk_inode := Inode (in_name i) (in_type i) (in_rdev i) (in_foprts i) (in_kobj i) v.

Section kobj.
Context {H : Type} `{KernelHeap H}.
Context (sizeof_kobject sizeof_kset sizeof_inode : Z).
(** [&sgrt_fwk_kset_root] and the default operations of inodes. *)
Context (root chrfoprts blkfoprts netfoprts : Z).

Record osys := OSys {
  os_k : ksys (H := H); os_objs : gmap Z fwk_kobject; os_locks : gmap Z spin_lock_t; os_inodes : gmap Z fwk_inode;
  os_existed : bool;                                     (* is_fwk_root_existed *)
}.
Definition oput_k k w := OSys k (os_objs w) (os_locks w) (os_inodes w) (os_existed w).
Definition oput_objs m w := OSys (os_k w) m (os_locks w) (os_inodes w) (os_existed w).
Definition oput_locks m w := OSys (os_k w) (os_objs w) m (os_inodes w) (os_existed w).
Definition oput_inodes m w := OSys (os_k w) (os_objs w) (os_locks w) m (os_existed w).
Definition obj (p : Z) (w : osys) : res fwk_kobject := deref (os_objs w !! p).
Definition put_obj (p : Z) (o : fwk_kobject) (w : osys) : osys := oput_objs (<[p := o]> (os_objs w)) w.
Definition upd_obj (f : fwk_kobject -> fwk_kobject) (p : Z) (w : osys) : res osys := o ← obj p w; Ok (put_obj p (f o) w).

Definition k_kmalloc (size : Z) (w : ksys (H := H)) : res (Z * ksys) :=
  '(q, c, h) ← heap_alloc (ks_cpu w) (ks_heap w) size GFP_KERNEL;
  Ok (q, KSys h c (ks_chrdev_map w) (ks_blkdev_map w) (ks_maps w)).
Definition o_kmalloc size w := '(q, k) ← k_kmalloc size (os_k w); Ok (q, oput_k k w).
Definition o_kzalloc size w := '(q, k) ← k_kzalloc size (os_k w); Ok (q, oput_k k w).
Definition o_kfree p w := k ← k_kfree p (os_k w); Ok (oput_k k w).

Definition with_kcpu (c : cpu) (k : ksys (H := H)) : ksys := KSys (ks_heap k) c (ks_chrdev_map k) (ks_blkdev_map k) (ks_maps k).
Definition o_lock (p : Z) (w : osys) : res osys :=
  l ← deref (os_locks w !! p);
  '(c, l) ← spin_lock (ks_cpu (os_k w)) l;
  Ok (oput_k (with_kcpu c (os_k w)) (oput_locks (<[p := l]> (os_locks w)) w)).
Definition o_unlock (p : Z) (w : osys) : res osys :=
  l ← deref (os_locks w !! p);
  let '(c, l) := spin_unlock (ks_cpu (os_k w)) l in
  Ok (oput_k (with_kcpu c (os_k w)) (oput_locks (<[p := l]> (os_locks w)) w)).

(** ** Inodes *)
Definition fwk_inode_set_ops (sprt_inode type devNum : Z) (w : osys) : res (Z * osys) :=
  if sprt_inode =? 0 then Ok (- ER_NOMEM, w)
  else
    i ← deref (os_inodes w !! sprt_inode);
    let i := set_inode_rdev (u32 devNum) i in
    let i :=
      if type =? NR_TYPE_CHRDEV then set_inode_ops chrfoprts i
      else if type =? NR_TYPE_BLKDEV then set_inode_ops blkfoprts i
      else if type =? NR_TYPE_NETDEV then set_inode_ops netfoprts i
      else i in
    Ok (ER_NORMAL, oput_inodes (<[sprt_inode := i]> (os_inodes w)) w).
Definition fwk_mk_inode (sprt_kobj type devNum : Z) (w : osys) : res (Z * osys) :=
  if sprt_kobj =? 0 then Ok (ERR_PTR (- ER_ERROR), w)
  else
    '(sprt_inode, w) ← o_kzalloc sizeof_inode w;
    if negb (isValid sprt_inode) then Ok (ERR_PTR (- ER_NOMEM), w)
    else
      o ← obj sprt_kobj w;
      let i := Inode (match ko_name o with Some (b, _) => b | None => nullptr end) (if ko_dir o then INODE_TYPE_DIR else INODE_TYPE_FILE) 0 nullptr sprt_kobj nullptr in
      '(_, w) ← fwk_inode_set_ops sprt_inode type devNum (oput_inodes (<[sprt_inode := i]> (os_inodes w)) w);
      Ok (sprt_inode, w).
Definition fwk_rm_inode (sprt_inode : Z) (w : osys) : res osys :=
  if sprt_inode =? 0 then Ok w else o_kfree sprt_inode (oput_inodes (delete sprt_inode (os_inodes w)) w).

(** ** Names *)
Definition vasprintk_safe (fmt : option text) (w : osys) : res (option (Z * text) * osys) :=
  match fmt with
  | None => Ok (None, w)
  | Some s =>
      '(ptr, w) ← o_kmalloc (u32 (u32 (len s) + 1)) w;
      Ok (if negb (isValid ptr) then None else Some (ptr, s), w)
  end.
(** A format that is used without arguments must not ask for any. *)
Definition no_arguments (fmt : text) : res text := if bool_decide (percent ∈ fmt) then Fault else Ok fmt.
Definition fwk_kobject_set_name_args (sprt_kobj : Z) (fmt : option text) (w : osys) : res (Z * osys) :=
  o ← obj sprt_kobj w;
  match ko_name o, fmt with
  | Some _, None => Ok (ER_NORMAL, w)
  | _, _ =>
      '(ptr, w) ← vasprintk_safe fmt w;
      match ptr with
      | None => Ok (- ER_NOMEM, w)
      | Some p =>
          w ← match ko_name o with Some (b, _) => o_kfree b w | None => Ok w end;
          w ← upd_obj (set_oname (Some p)) sprt_kobj w;
          Ok (ER_NORMAL, w)
      end
  end.
Definition fwk_kobject_del_name (sprt_kobj : Z) (w : osys) : res osys :=
  o ← obj sprt_kobj w;
  w ← match ko_name o with Some (b, _) => o_kfree b w | None => Ok w end;
  upd_obj (set_oname None) sprt_kobj w.

(** ** Members of a directory *)
Fixpoint join_scan (l : list Z) (name : option (Z * text)) (w : osys) : res Z :=
  match l with
  | [] => Ok ER_NORMAL
  | sprt_each :: l =>
      e ← obj sprt_each w;
      match ko_name e, name with
      | None, None => Ok (- ER_EMPTY)
      | Some (_, s), Some (_, t) => if bool_decide (t = s) then Ok (- ER_EXISTED) else join_scan l name w
      | _, _ => Fault                                     (* strcmp on null *)
      end
  end.
Definition fwk_kobject_join_to_kset (sprt_kobj : Z) (w : osys) : res (Z * osys) :=
  o ← obj sprt_kobj w;
  if ko_kset o =? 0 then Ok (- ER_FAULT, w)
  else
    w ← o_lock sprt_kobj w;
    k ← obj (ko_kset o) w;
    retval ← join_scan (ko_list k) (ko_name o) w;
    if negb (retval =? 0) then w ← o_unlock sprt_kobj w; Ok (retval, w)
    else
      let sprt_parent := if ko_parent o =? 0 then ko_kset o else ko_parent o in
      w ← upd_obj (set_olist (ko_list k ++ [sprt_kobj])) (ko_kset o) w;
      w ← upd_obj (set_oparent sprt_parent) sprt_kobj w;
      w ← o_unlock sprt_kobj w;
      Ok (ER_NORMAL, w).
Definition fwk_kobject_detach_from_kset (sprt_kobj : Z) (w : osys) : res osys :=
  o ← obj sprt_kobj w;
  if ko_kset o =? 0 then Ok w
  else
    w ← o_lock sprt_kobj w;
    w ← upd_obj (fun k => set_olist (filter (fun x => x <> sprt_kobj) (ko_list k)) k) (ko_kset o) w;
    o_unlock sprt_kobj w.
Definition fwk_kobject_build_inode (sprt_kobj : Z) (w : osys) : res (Z * osys) :=
  '(retval, w) ← fwk_kobject_join_to_kset sprt_kobj w;
  if negb (retval =? 0) then Ok (retval, w)
  else
    '(sprt_inode, w) ← fwk_mk_inode sprt_kobj NR_TYPE_NONE (-1) w;
    if negb (isValid sprt_inode) then w ← fwk_kobject_detach_from_kset sprt_kobj w; Ok (PTR_ERR sprt_inode, w)
    else w ← upd_obj (set_oinode sprt_inode) sprt_kobj w; Ok (ER_NORMAL, w).

(** ** Objects *)
Definition fwk_kobject_init (sprt_kobj : Z) (w : osys) : res osys :=
  w ← upd_obj (fun o => set_okset nullptr (set_odir false (set_oref 0 o))) sprt_kobj w;
  Ok (oput_locks (<[sprt_kobj := spin_lock_init (default (Lock 0 0) (os_locks w !! sprt_kobj))]> (os_locks w)) w).
Definition fwk_kobject_create (w : osys) : res (Z * osys) :=
  '(sprt_kobj, w) ← o_kzalloc sizeof_kobject w;
  if negb (isValid sprt_kobj) then Ok (nullptr, w)
  else w ← fwk_kobject_init sprt_kobj (put_obj sprt_kobj zero_obj w); Ok (sprt_kobj, w).
Definition fwk_kobject_add (sprt_kobj sprt_parent : Z) (fmt : option text) (w : osys) : res (Z * osys) :=
  if (sprt_kobj =? 0) || negb (os_existed w) then Ok (- ER_NOMEM, w)
  else
    w ← upd_obj (set_oparent sprt_parent) sprt_kobj w;
    '(_, w) ← fwk_kobject_set_name_args sprt_kobj fmt w;
    w ← upd_obj (fun o => if ko_kset o =? 0 then set_okset root o else o) sprt_kobj w;
    '(retval, w) ← fwk_kobject_build_inode sprt_kobj w;
    w ← (if negb (retval =? 0) then fwk_kobject_del_name sprt_kobj w else Ok w);
    Ok (retval, w).
(** The block of an object is given back with everything in it. *)
Definition free_obj (p : Z) (w : osys) : res osys :=
  o_kfree p (oput_locks (delete p (os_locks w)) (oput_objs (delete p (os_objs w)) w)).
Definition fwk_kobject_del (sprt_kobj : Z) (w : osys) : res osys :=
  o ← obj sprt_kobj w;
  w ← fwk_rm_inode (ko_inode o) w;
  w ← fwk_kobject_del_name sprt_kobj w;
  w ← fwk_kobject_detach_from_kset sprt_kobj w;
  upd_obj (set_oinode nullptr) sprt_kobj w.
Definition fwk_kobject_destroy (sprt_kobj : Z) (w : osys) : res osys := w ← fwk_kobject_del sprt_kobj w; free_obj sprt_kobj w.
Definition fwk_kobject_get (sprt_kobj : Z) (w : osys) : res osys := upd_obj (fun o => set_oref (atomic_inc (ko_ref o)) o) sprt_kobj w.
Definition fwk_kobject_put (sprt_kobj : Z) (w : osys) : res osys :=
  upd_obj (fun o => if negb (ko_ref o =? 0) then set_oref (atomic_dec (ko_ref o)) o else o) sprt_kobj w.
Definition fwk_kref_is_zero (sprt_kref : Z) : bool := negb (sprt_kref =? 0).
Definition fwk_kobject_is_referrd (sprt_kobj : Z) (w : osys) : res bool := o ← obj sprt_kobj w; Ok (negb (fwk_kref_is_zero (ko_ref o))).

(** ** Directories *)
Definition fwk_kset_init (sprt_kset : Z) (w : osys) : res osys := w ← upd_obj (set_olist []) sprt_kset w; fwk_kobject_init sprt_kset w.
Definition fwk_kset_create (name : text) (sprt_parent : Z) (w : osys) : res (Z * osys) :=
  '(sprt_kset, w) ← o_kzalloc sizeof_kset w;
  if negb (isValid sprt_kset) then Ok (nullptr, w)
  else
    '(r, w) ← fwk_kobject_set_name_args sprt_kset (Some name) (put_obj sprt_kset zero_obj w);
    if negb (r =? 0) then w ← free_obj sprt_kset w; Ok (nullptr, w)
    else w ← upd_obj (fun o => set_okset nullptr (set_oparent sprt_parent o)) sprt_kset w; Ok (sprt_kset, w).
Definition fwk_kset_register (sprt_kset : Z) (w : osys) : res (Z * osys) :=
  if negb (os_existed w) then Ok (- ER_FORBID, w)
  else
    o ← obj sprt_kset w;
    let sprt_temp := ko_kset o in
    w ← fwk_kset_init sprt_kset w;
    w ← upd_obj (fun o => set_okset (if sprt_temp =? 0 then root else sprt_temp) (set_odir true o)) sprt_kset w;
    fwk_kobject_build_inode sprt_kset w.
Definition fwk_kset_create_and_register (name : text) (sprt_parent : Z) (w : osys) : res (Z * osys) :=
  '(sprt_kset, w) ← fwk_kset_create name sprt_parent w;
  if negb (isValid sprt_kset) then Ok (nullptr, w)
  else
    '(r, w) ← fwk_kset_register sprt_kset w;
    if negb (r =? 0) then
      w ← fwk_kobject_del_name sprt_kset w;
      w ← free_obj sprt_kset w;
      Ok (nullptr, w)
    else Ok (sprt_kset, w).
Definition fwk_kset_unregister (sprt_kset : Z) (w : osys) : res osys :=
  k ← obj sprt_kset w;
  match ko_list k with
  | _ :: _ => Ok w
  | [] => w ← fwk_kobject_del sprt_kset w; fwk_kset_init sprt_kset w
  end.
Definition fwk_kset_kobject_remove (sprt_kobj : Z) (w : osys) : res osys :=
  o ← obj sprt_kobj w;
  if negb (ko_dir o) then fwk_kobject_destroy sprt_kobj w
  else w ← fwk_kset_unregister sprt_kobj w; free_obj sprt_kobj w.
Definition fwk_kobject_root_init (w : osys) : res (Z * osys) :=
  w ← fwk_kset_init root w;
  '(_, w) ← fwk_kobject_set_name_args root (Some [slash]) w;
  w ← upd_obj (fun o => set_odir true (set_okset nullptr (set_oparent nullptr o))) root w;
  Ok (ER_NORMAL, OSys (os_k w) (os_objs w) (os_locks w) (os_inodes w) true).
Definition mrt_fwk_kset_get (sprt_kobj : Z) (w : osys) : res Z :=
  if sprt_kobj =? 0 then Ok nullptr else o ← obj sprt_kobj w; Ok (if ko_dir o then sprt_kobj else nullptr).

(** ** Paths *)

(** [kstrchr (s, '/')]: what stands before and the rest from there, null without one. *)
Fixpoint to_slash (s : text) : text * option text :=
  match s with
  | [] => ([], None)
  | c :: s' => if c =? slash then ([], Some s) else let '(a, b) := to_slash s' in (c :: a, b)
  end.
(** The search through a directory: a file for the last component, else a directory,
    whose name begins with the component. *)
Fixpoint scan_dir (l : list Z) (part : text) (dir : bool) (w : osys) : res Z :=
  match l with
  | [] => Ok nullptr
  | sprt_kobj :: l =>
      o ← obj sprt_kobj w;
      match ko_name o with
      | None => scan_dir l part dir w
      | Some (_, s) =>
          if bool_decide (part `prefix_of` s) && eqb (ko_dir o) dir then Ok sprt_kobj else scan_dir l part dir w
      end
  end.
Definition locked_scan (sprt_kset : Z) (part : text) (dir : bool) (w : osys) : res (Z * osys) :=
  w ← o_lock sprt_kset w;
  k ← obj sprt_kset w;
  p ← scan_dir (ko_list k) part dir w;
  w ← o_unlock sprt_kset w;
  Ok (p, w).

Fixpoint find_loop (fuel : nat) (is_root : bool) (str_end : option text) (sprt_kset : Z) (w : osys) : res (Z * osys) :=
  match str_end with
  | None | Some [] => Ok (nullptr, w)
  | Some (c :: rest) =>
      match fuel with
      | O => Spin
      | S fuel =>
          let str_start := if is_root then rest else c :: rest in
          match str_start with
          | [] => Ok (sprt_kset, w)
          | d :: _ =>
              if d =? slash then Ok (nullptr, w)
              else
                let '(part, str_end) := to_slash str_start in
                '(p, w) ← locked_scan sprt_kset part (match str_end with Some _ => true | None => false end) w;
                if p =? 0 then Ok (nullptr, w)
                else match str_end with None => Ok (p, w) | Some _ => find_loop fuel true str_end p w end
          end
      end
  end.
Definition fwk_find_kobject_by_path (sprt_head : Z) (name : text) (w : osys) : res (Z * osys) :=
  sprt_kset ← (if negb (sprt_head =? 0) then mrt_fwk_kset_get sprt_head w else Ok root);
  if (sprt_kset =? 0) || negb (os_existed w) then Ok (nullptr, w)
  else
    let is_root := sprt_kset =? root in
    let go := find_loop (S (length name)) is_root (Some name) sprt_kset w in
    if is_root then
      match name with
      | c :: rest => if negb (c =? slash) then Ok (nullptr, w) else match rest with [] => Ok (sprt_kset, w) | _ => go end
      | [] => Ok (nullptr, w)
      end
    else go.

Definition __fwk_kobject_populate_dir (sprt_parent : Z) (name : text) (w : osys) : res (Z * osys) :=
  let sprt_parent := if sprt_parent =? 0 then root else sprt_parent in
  match to_slash name with
  | (part, Some _) =>
      '(sprt_kset, w) ← fwk_kset_create name sprt_parent w;
      if negb (isValid sprt_kset) then Ok (nullptr, w)
      else
        let dir_fail w := (w ← fwk_kobject_del sprt_kset w; w ← free_obj sprt_kset w; Ok (nullptr, w)) in
        w ← fwk_kobject_del_name sprt_kset w;
        '(new_name, w) ← o_kmalloc (u32 (len part + 1)) w;
        if negb (isValid new_name) then dir_fail w
        else
          w ← upd_obj (set_oname (Some (new_name, part))) sprt_kset w;
          k ← mrt_fwk_kset_get sprt_parent w;
          w ← upd_obj (set_okset k) sprt_kset w;
          if k =? 0 then dir_fail w
          else
            '(r, w) ← fwk_kset_register sprt_kset w;
            if negb (r =? 0) then dir_fail w else Ok (sprt_kset, w)
  | (_, None) =>
      '(sprt_kobj, w) ← fwk_kobject_create w;
      if negb (isValid sprt_kobj) then Ok (nullptr, w)
      else
        k ← mrt_fwk_kset_get sprt_parent w;
        w ← upd_obj (set_okset k) sprt_kobj w;
        if k =? 0 then w ← free_obj sprt_kobj w; Ok (nullptr, w)
        else
          fmt ← no_arguments name;
          '(r, w) ← fwk_kobject_add sprt_kobj sprt_parent (Some fmt) w;
          if negb (r =? 0) then w ← free_obj sprt_kobj w; Ok (nullptr, w) else Ok (sprt_kobj, w)
  end.
Fixpoint populate_loop (fuel : nat) (is_root : bool) (str_end : option text) (sprt_kobj sprt_kset : Z) (w : osys) : res (Z * osys) :=
  match str_end with
  | None | Some [] => Ok (sprt_kobj, w)
  | Some (c :: rest) =>
      match fuel with
      | O => Spin
      | S fuel =>
          let str_start := if is_root then rest else c :: rest in
          match str_start with
          | [] => Ok (sprt_kobj, w)
          | d :: _ =>
              if d =? slash then Ok (ERR_PTR (- ER_FAULT), w)
              else
                let '(part, str_end) := to_slash str_start in
                let dir := match str_end with Some _ => true | None => false end in
                '(p, w) ← locked_scan sprt_kset part dir w;
                if negb (p =? 0) && negb dir then Ok (ERR_PTR (- ER_EXISTED), w)
                else if negb (p =? 0) then populate_loop fuel true str_end p p w
                else
                  '(p, w) ← __fwk_kobject_populate_dir sprt_kset str_start w;
                  if negb (isValid p) then Ok (ERR_PTR (- ER_ERROR), w)
                  else k ← mrt_fwk_kset_get p w; populate_loop fuel true str_end p k w
          end
      end
  end.
Definition fwk_kobject_populate (sprt_head : Z) (name : text) (w : osys) : res (Z * osys) :=
  if negb (os_existed w) then Ok (ERR_PTR (- ER_FORBID), w)
  else
    sprt_kset ← (if negb (sprt_head =? 0) then mrt_fwk_kset_get sprt_head w else Ok root);
    if sprt_kset =? 0 then Ok (ERR_PTR (- ER_NOMEM), w)
    else
      let is_root := sprt_kset =? root in
      let go := populate_loop (S (length name)) is_root (Some name) sprt_head sprt_kset w in
      if is_root then
        match name with
        | c :: rest => if negb (c =? slash) then Ok (ERR_PTR (- ER_FAULT), w) else match rest with [] => Ok (ERR_PTR (- ER_FAULT), w) | _ => go end
        | [] => Ok (ERR_PTR (- ER_FAULT), w)
        end
      else go.

(** ** Inodes by path *)
Definition fwk_inode_find (name : text) (w : osys) : res (Z * osys) :=
  match name with
  | [] => Ok (nullptr, w)
  | _ =>
      '(sprt_kobj, w) ← fwk_find_kobject_by_path nullptr name w;
      if negb (isValid sprt_kobj) then Ok (ERR_PTR (- ER_NOTFOUND), w)
      else o ← obj sprt_kobj w; Ok (ko_inode o, w)
  end.
(** The directories of a path from the longest to the shortest, each looked up from
    the object the turn before found. *)
Fixpoint disk_loop (lenth : nat) (name : text) (mark : bool) (sprt_kobj : Z) (w : osys) : res (Z * osys) :=
  match lenth with
  | O | S O => Ok (nullptr, w)
  | S lenth =>
      if negb (default 0 (name !! (lenth - 1)%nat) =? slash) then disk_loop lenth name false sprt_kobj w
      else if mark then Ok (nullptr, w)
      else
        '(sprt_kobj, w) ← fwk_find_kobject_by_path sprt_kobj (take lenth name) w;
        if negb (isValid sprt_kobj) then disk_loop lenth name true sprt_kobj w
        else
          o ← obj sprt_kobj w;
          if ko_disk o then Ok (sprt_kobj, w) else disk_loop lenth name true sprt_kobj w
  end.
Definition fwk_inode_find_disk (name : text) (w : osys) : res (Z * osys) :=
  if negb (match name with c :: _ => c =? slash | [] => false end) then Ok (nullptr, w)
  else if match last name with Some c => c =? slash | None => false end then Ok (nullptr, w)
  else
    '(disk_name, w) ← o_kmalloc (u32 (len name + 1)) w;
    if negb (isValid disk_name) then Ok (nullptr, w)
    else
      '(sprt_kobj, w) ← disk_loop (length name) name false nullptr w;
      w ← o_kfree disk_name w;
      if isValid sprt_kobj then o ← obj sprt_kobj w; Ok (ko_inode o, w) else Ok (nullptr, w).
End kobj.
