(* ===== verification/KobjSpec.v ===== *)
(** * Objects are found under the path that made them

    [osys_ok] is the invariant of the tree of objects; [extends] says that a state
    has everything another one has.  Creating a path only extends the tree, and the
    path then leads to the new object. *)

From stdpp Require Import prelude gmap fin_maps sorting.
From S2P Require Import Prelude Mem Bytes MemPool Sync KMalloc KMallocSpec HeapContract Chrdev ChrdevSpec KobjMap Kobj.

(** ** Blocks of the entries of a map *)
Section entries.
Context {A : Type} (f : Z * A -> list (Z * Z)).
Definition entry_blocks (m : gmap Z A) : list (Z * Z) := map_to_list m ≫= f.
Lemma entry_blocks_empty : entry_blocks ∅ = [].
Proof. unfold entry_blocks. by rewrite map_to_list_empty. Qed.
Lemma entry_blocks_insert m p x : m !! p = None -> entry_blocks (<[p := x]> m) ≡ₚ f (p, x) ++ entry_blocks m.
Proof. intros Hp. unfold entry_blocks. by rewrite map_to_list_insert. Qed.
Lemma entry_blocks_delete m p x : m !! p = Some x -> entry_blocks m ≡ₚ f (p, x) ++ entry_blocks (delete p m).
Proof. intros Hp. rewrite <- entry_blocks_insert by apply lookup_delete_eq. by rewrite insert_delete_id. Qed.
Lemma entry_blocks_update m p x y : m !! p = Some x -> f (p, y) = f (p, x) -> entry_blocks (<[p := y]> m) ≡ₚ entry_blocks m.
Proof.
  intros Hp Hf. rewrite (entry_blocks_delete m p x Hp), <- insert_delete_eq.
  by rewrite entry_blocks_insert, Hf by apply lookup_delete_eq.
Qed.
Lemma entry_blocks_elem m p x b : m !! p = Some x -> b ∈ f (p, x) -> b ∈ entry_blocks m.
Proof. intros Hp Hb. rewrite (entry_blocks_delete m p x Hp). apply elem_of_app. by left. Qed.
End entries.

Section tree.
Context {H : Type} `{KernelHeap H}.
Context (sizeof_kobject sizeof_kset sizeof_inode root chrfoprts blkfoprts netfoprts : Z).
Context (Hko : 0 < sizeof_kobject <= 4096) (Hks : 0 < sizeof_kset <= 4096) (Hin : 0 < sizeof_inode <= 4096).
Context (Hroot : isValid root = true) (Hstatic : heap_static root sizeof_kset).
Local Notation osys := (osys (H := H)).
Local Notation ksys := (ksys (H := H)).

Definition set_kheap (h : H) (k : ksys) : ksys := KSys h (ks_cpu k) (ks_chrdev_map k) (ks_blkdev_map k) (ks_maps k).
Definition set_heap (h : H) (w : osys) : osys := oput_k (set_kheap h (os_k w)) w.
Local Notation heap w := (ks_heap (os_k w)).
Local Notation ocpu w := (ks_cpu (os_k w)).

(** ** The heap *)
Lemma o_alloc_ok (zero : bool) size X w : cpu_ok (ocpu w) -> heap_inv (heap w) X -> 0 <= size <= W32 - 40 -> exists q h,
  (if zero then o_kzalloc size w else o_kmalloc size w) = Ok (q, set_heap h w) /\
  heap_alloc (ocpu w) (heap w) size (if zero then Z.lor GFP_KERNEL GFP_ZERO else GFP_KERNEL) = Ok (q, ocpu w, h) /\
  (q = nullptr /\ heap_inv h X \/ isValid q = true /\ heap_inv h ((q, mrt_num_align8 size) :: X)).
Proof using Type.
  intros Hc Hh Hs.
  destruct (heap_alloc_spec (ocpu w) (heap w) X size (if zero then Z.lor GFP_KERNEL GFP_ZERO else GFP_KERNEL) Hc Hh ltac:(by destruct zero) Hs) as (q & h & E & Hcase & _).
  exists q, h. split; [|split; [exact E|exact Hcase]]. destruct zero; unfold o_kzalloc, o_kmalloc, k_kzalloc, k_kmalloc; by rewrite E.
Qed.
Lemma align_pos n : 0 < n -> n <= W32 - 40 -> 0 < mrt_num_align8 n.
Proof using Type. intros ? ?. pose proof (align8_spec n ltac:(lia)). lia. Qed.
Lemma o_kfree_ok q s X w : cpu_ok (ocpu w) -> heap_inv (heap w) ((q, s) :: X) -> 0 < s -> exists h,
  o_kfree q w = Ok (set_heap h w) /\ heap_inv h X.
Proof using Type.
  intros Hc Hh Hs. destruct (heap_free_spec (ocpu w) (heap w) X q s Hc Hh Hs) as (h & E & Hh' & _).
  exists h. split; [|done]. unfold o_kfree, k_kfree. by rewrite E.
Qed.

(** ** Locks *)
Definition lock_ok (p : Z) (w : osys) : Prop := exists l, os_locks w !! p = Some l /\ sgrt_atc l = 0.
Definition locked (p : Z) (w : osys) : osys :=
  oput_k (with_kcpu (mrt_preempt_disable (ocpu w)) (os_k w)) (oput_locks (alter (fun l => Lock 1 (lk_flag l)) p (os_locks w)) w).
Lemma o_lock_ok p w : lock_ok p w -> o_lock p w = Ok (locked p w).
Proof using Type.
  intros (l & Hl & Ha). unfold o_lock. rewrite Hl. cbn [deref mbind res_bind]. unfold spin_lock, spin_is_locked. rewrite Ha.
  cbn [Z.eqb negb mbind res_bind]. unfold locked. do 3 f_equal. apply map_eq. intros k. destruct (decide (k = p)) as [->|Hne].
  - by rewrite lookup_insert_eq, lookup_alter_eq, Hl.
  - by rewrite lookup_insert_ne, lookup_alter_ne by done.
Qed.
Lemma o_unlock_ok p m w : cpu_ok (ocpu w) -> lock_ok p w -> o_unlock p (oput_objs m (locked p w)) = Ok (oput_objs m w).
Proof using Type.
  intros Hc (l & Hl & Ha). unfold o_unlock, locked. cbn. rewrite lookup_alter_eq, Hl. cbn [fmap option_fmap option_map deref mbind res_bind].
  unfold spin_unlock, spin_is_locked. cbn. rewrite preempt_balance by done. unfold oput_objs, oput_k, oput_locks, with_kcpu. cbn.
  do 2 f_equal; [by destruct w as [[] ? ? ? ?]|]. apply map_eq. intros k. destruct (decide (k = p)) as [->|Hne].
  - rewrite lookup_insert_eq, Hl. destruct l. cbn in *. by subst.
  - by rewrite lookup_insert_ne, lookup_alter_ne by done.
Qed.
Lemma o_unlock_same p w : cpu_ok (ocpu w) -> lock_ok p w -> o_unlock p (locked p w) = Ok w.
Proof using Type. intros Hc Hl. pose proof (o_unlock_ok p (os_objs w) w Hc Hl) as E. destruct w. exact E. Qed.

(** ** The invariant *)
Definition osz (o : fwk_kobject) : Z := mrt_num_align8 (if ko_dir o then sizeof_kset else sizeof_kobject).
Definition name_block (o : fwk_kobject) : list (Z * Z) :=
  match ko_name o with Some (b, s) => [(b, mrt_num_align8 (len s + 1))] | None => [] end.
Definition obj_block (e : Z * fwk_kobject) : list (Z * Z) :=
  (if bool_decide (e.1 = root) then [] else [(e.1, osz e.2)]) ++ name_block e.2.
Definition inode_block (e : Z * fwk_inode) : list (Z * Z) := [(e.1, mrt_num_align8 sizeof_inode)].
Definition oblocks (w : osys) : list (Z * Z) := entry_blocks obj_block (os_objs w) ++ entry_blocks inode_block (os_inodes w).

(** A member of a directory is an object of its own with a name and an inode. *)
Definition member_ok (p c : Z) (w : osys) : Prop :=
  exists o, os_objs w !! c = Some o /\ is_Some (ko_name o) /\ ko_kset o = p /\ c <> root /\ is_Some (os_inodes w !! ko_inode o).
Record osys_ok (L : list (Z * Z)) (w : osys) : Prop := {
  oi_cpu : cpu_ok (ocpu w);
  oi_heap : heap_inv (heap w) (oblocks w ++ L);
  oi_existed : os_existed w = true;
  oi_root : exists r, os_objs w !! root = Some r /\ ko_dir r = true;
  oi_lock : forall p, is_Some (os_objs w !! p) -> lock_ok p w;
  oi_unlocked : forall p, os_objs w !! p = None -> os_locks w !! p = None;
  oi_dir : forall p o, os_objs w !! p = Some o -> NoDup (ko_list o) /\ forall c, c ∈ ko_list o -> member_ok p c w;
}.

Lemma osz_pos o : 0 < osz o.
Proof using Hko Hks. apply align_pos; unfold W32; destruct (ko_dir o); lia. Qed.
Lemma obj_in_blocks w p o : os_objs w !! p = Some o -> p <> root -> (p, osz o) ∈ oblocks w.
Proof using Type.
  intros Hp Hne. apply elem_of_app. left. apply (entry_blocks_elem _ _ p o); [done|]. unfold obj_block. cbn. rewrite bool_decide_false by done. left.
Qed.
Lemma obj_valid L w p : heap_inv (heap w) (oblocks w ++ L) -> is_Some (os_objs w !! p) -> isValid p = true.
Proof using Hko Hks Hroot.
  intros Hh [o Ho]. destruct (decide (p = root)) as [->|Hne]; [done|].
  destruct (heap_inv_blocks _ _ Hh) as [_ Hb]. destruct (Hb p (osz o)) as (? & ? & ?).
  { apply elem_of_app. left. by apply obj_in_blocks. }
  pose proof (osz_pos o). apply isValid_true. lia.
Qed.
Lemma obj_nonnull L w p : heap_inv (heap w) (oblocks w ++ L) -> is_Some (os_objs w !! p) -> p <> 0.
Proof using Hko Hks Hroot. intros Hh Hp ->. pose proof (obj_valid L w 0 Hh Hp). done. Qed.
(** A new block is no object and no inode yet. *)
Lemma block_fresh h w q s X : heap_inv h ((q, s) :: X) -> (forall b, b ∈ oblocks w -> b ∈ X) -> 0 < s -> os_objs w !! q = None /\ os_inodes w !! q = None /\ q <> root.
Proof using Hko Hks Hin Hstatic.
  intros Hh Hsub Hs. destruct (heap_inv_blocks _ _ Hh) as [Hd _].
  assert (q <> root) as Hnr by (intros ->; destruct (heap_static_live _ _ _ _ root s Hh Hstatic ltac:(left)); lia). split_and!; [| |done].
  - destruct (os_objs w !! q) as [o|] eqn:E; [|done]. exfalso. pose proof (osz_pos o).
    destruct (disjoint_head _ _ _ q (osz o) Hd (Hsub _ (obj_in_blocks w q o E Hnr))); lia.
  - destruct (os_inodes w !! q) as [i|] eqn:E; [|done]. exfalso. pose proof (align_pos sizeof_inode ltac:(lia) ltac:(unfold W32; lia)).
    destruct (disjoint_head _ _ _ q (mrt_num_align8 sizeof_inode) Hd); [|lia..]. apply Hsub, elem_of_app. right.
    apply (entry_blocks_elem _ _ q i); [done|]. left.
Qed.

(** ** States with more in them *)
Record extends (w w' : osys) : Prop := {
  ex_obj : forall p o, os_objs w !! p = Some o -> exists o', os_objs w' !! p = Some o' /\ ko_name o' = ko_name o /\ ko_dir o' = ko_dir o /\
    ko_inode o' = ko_inode o /\ ko_disk o' = ko_disk o /\ ko_list o `prefix_of` ko_list o';
  ex_inode : os_inodes w ⊆ os_inodes w';
}.
#[export] Instance extends_preorder : PreOrder extends.
Proof using Type.
  split.
  - intros w. split; [|done]. intros p o Ho. by exists o.
  - intros w1 w2 w3 [H1 I1] [H2 I2]. split; [|by trans (os_inodes w2)]. intros p o Ho.
    destruct (H1 p o Ho) as (o2 & Ho2 & ? & ? & ? & ? & ?). destruct (H2 p o2 Ho2) as (o3 & Ho3 & ? & ? & ? & ? & ?).
    exists o3. split_and!; [done|congruence..|by trans (ko_list o2)].
Qed.

(** ** Looking into a directory *)
Lemma scan_dir_objs l part dir (w w' : osys) : os_objs w = os_objs w' -> scan_dir l part dir w = scan_dir l part dir w'.
Proof using Type. intros E. induction l as [|c l IH]; [done|]. cbn [scan_dir]. unfold obj. rewrite E. destruct (os_objs w' !! c) as [o|]; [|done]. cbn [deref mbind res_bind]. by rewrite IH. Qed.
Lemma scan_dir_spec l part dir (w : osys) : (forall c, c ∈ l -> c <> 0 /\ is_Some (os_objs w !! c)) -> exists q, scan_dir l part dir w = Ok q /\
  (q = 0 \/ q ∈ l /\ exists o b s, os_objs w !! q = Some o /\ ko_name o = Some (b, s) /\ part `prefix_of` s /\ ko_dir o = dir).
Proof using Type.
  induction l as [|c l IH]; intros Hl; [by exists 0; split; [|left]|]. destruct (Hl c ltac:(left)) as [Hc [o Ho]]. cbn [scan_dir]. unfold obj. rewrite Ho. cbn [deref mbind res_bind].
  destruct IH as (q & E & Hq); [intros; apply Hl; by right|].
  assert (exists q, scan_dir l part dir w = Ok q /\ (q = 0 \/ q ∈ c :: l /\ exists o b s, os_objs w !! q = Some o /\ ko_name o = Some (b, s) /\ part `prefix_of` s /\ ko_dir o = dir)) as IH'.
  { exists q. split; [done|]. destruct Hq as [?|[? ?]]; [by left|right; split; [by right|done]]. }
  destruct (ko_name o) as [[b s]|] eqn:En; [|done]. destruct (bool_decide (part `prefix_of` s) && eqb (ko_dir o) dir) eqn:Em; [|done].
  apply andb_true_iff in Em as [Hp%bool_decide_eq_true Hd%eqb_prop]. exists c. split; [done|]. right. split; [left|]. by exists o, b, s.
Qed.
Lemma scan_dir_app l r part dir (w : osys) : (forall c, c ∈ l -> c <> 0 /\ is_Some (os_objs w !! c)) ->
  scan_dir (l ++ r) part dir w = (q ← scan_dir l part dir w; if q =? 0 then scan_dir r part dir w else Ok q).
Proof using Type.
  induction l as [|c l IH]; intros Hl; [done|]. destruct (Hl c ltac:(left)) as [Hc [o Ho]]. cbn [scan_dir app]. unfold obj. rewrite Ho. cbn [deref mbind res_bind].
  rewrite IH by (intros; apply Hl; by right). destruct (ko_name o) as [[b s]|]; [|done]. case_match; [|done]. cbn [mbind res_bind]. by rewrite (proj2 (Z.eqb_neq c 0)).
Qed.
Lemma scan_dir_extends l part dir w w' : extends w w' -> (forall c, c ∈ l -> is_Some (os_objs w !! c)) -> scan_dir l part dir w' = scan_dir l part dir w.
Proof using Type.
  intros Hx. induction l as [|c l IH]; intros Hl; [done|]. cbn [scan_dir]. destruct (Hl c ltac:(left)) as [o Ho].
  destruct (ex_obj _ _ Hx c o Ho) as (o' & Ho' & En & Ed & _). unfold obj. rewrite Ho, Ho'. cbn [deref mbind res_bind]. rewrite En, Ed, IH; [done|]. intros; apply Hl; by right.
Qed.

Lemma members_exist L w p o : osys_ok L w -> os_objs w !! p = Some o -> forall c, c ∈ ko_list o -> c <> 0 /\ is_Some (os_objs w !! c).
Proof using Hko Hks Hroot.
  intros I Ho c Hc. destruct (oi_dir _ _ I p o Ho) as [_ Hm]. destruct (Hm c Hc) as (oc & Hoc & _). split; [|by eexists].
  eapply obj_nonnull; [exact (oi_heap _ _ I)|by eexists].
Qed.
Lemma locked_scan_ok L w d o part dir : osys_ok L w -> os_objs w !! d = Some o -> exists q,
  scan_dir (ko_list o) part dir w = Ok q /\ locked_scan d part dir w = Ok (q, w) /\ (q = 0 \/ exists oq, os_objs w !! q = Some oq /\ ko_dir oq = dir).
Proof using Hko Hks Hroot.
  intros I Ho. destruct (scan_dir_spec (ko_list o) part dir w (members_exist L w d o I Ho)) as (q & E & Hq). exists q. split; [done|]. split.
  - pose proof (oi_lock _ _ I d ltac:(by eexists)) as Hl. unfold locked_scan. rewrite o_lock_ok by done. cbn [mbind res_bind].
    unfold obj. change (os_objs (locked d w)) with (os_objs w). rewrite Ho. cbn [deref mbind res_bind].
    rewrite (scan_dir_objs _ _ _ (locked d w) w eq_refl), E. cbn [mbind res_bind]. by rewrite o_unlock_same by (done || exact (oi_cpu _ _ I)).
  - destruct Hq as [?|(_ & oq & b & s & ? & _ & _ & ?)]; [by left|right]. by exists oq.
Qed.

(** ** Joining a directory *)
Local Notation build_inode := (fwk_kobject_build_inode sizeof_inode chrfoprts blkfoprts netfoprts).
Definition new_inode (p : Z) (o : fwk_kobject) : fwk_inode :=
  Inode (match ko_name o with Some (b, _) => b | None => nullptr end) (if ko_dir o then INODE_TYPE_DIR else INODE_TYPE_FILE) (u32 (-1)) nullptr p nullptr.
Definition named (w : osys) (c : Z) : Prop := exists o, os_objs w !! c = Some o /\ is_Some (ko_name o).
Lemma join_scan_ok l b t w : (forall c, c ∈ l -> named w c) -> join_scan l (Some (b, t)) w = Ok ER_NORMAL \/ join_scan l (Some (b, t)) w = Ok (- ER_EXISTED).
Proof using Type.
  induction l as [|c l IH]; intros Hl; [by left|]. destruct (Hl c ltac:(left)) as (o & Ho & [[b' s] En]). cbn [join_scan]. unfold obj. rewrite Ho. cbn [deref mbind res_bind].
  rewrite En. case_match; [by right|]. apply IH. intros; apply Hl; by right.
Qed.
Lemma mk_inode_ok p o X w : os_objs w !! p = Some o -> p <> 0 -> cpu_ok (ocpu w) -> heap_inv (heap w) X -> exists h,
  (fwk_mk_inode sizeof_inode chrfoprts blkfoprts netfoprts p NR_TYPE_NONE (-1) w = Ok (ERR_PTR (- ER_NOMEM), set_heap h w) /\ heap_inv h X /\ out_of_memory X sizeof_inode \/
   exists i, fwk_mk_inode sizeof_inode chrfoprts blkfoprts netfoprts p NR_TYPE_NONE (-1) w = Ok (i, oput_inodes (<[i := new_inode p o]> (os_inodes w)) (set_heap h w)) /\
     isValid i = true /\ heap_inv h ((i, mrt_num_align8 sizeof_inode) :: X)).
Proof using Hin.
  intros Ho Hp Hc Hh. destruct (o_alloc_ok true sizeof_inode X w Hc Hh ltac:(unfold W32; lia)) as (i & h & E & Ea & Hcase). exists h.
  unfold fwk_mk_inode. rewrite (proj2 (Z.eqb_neq p 0)), E by done. cbn [mbind res_bind].
  destruct Hcase as [[-> Hh']|[Hi Hh']]; [left; split_and!; [done|done|eapply refused_memory; [exact Hh|exact Ea|done]]|right]. exists i.
  rewrite Hi. cbn [negb]. unfold obj. change (os_objs (set_heap h w)) with (os_objs w). rewrite Ho. cbn [deref mbind res_bind].
  unfold fwk_inode_set_ops. assert (i <> 0) as Hi0 by (intros ->; done). rewrite (proj2 (Z.eqb_neq i 0)) by done.
  cbn [oput_inodes os_inodes]. rewrite lookup_insert_eq. cbn [deref mbind res_bind]. change (NR_TYPE_NONE =? NR_TYPE_CHRDEV) with false.
  change (NR_TYPE_NONE =? NR_TYPE_BLKDEV) with false. change (NR_TYPE_NONE =? NR_TYPE_NETDEV) with false. cbn iota. cbn [mbind res_bind]. split; [|done].
  unfold oput_inodes. cbn. by rewrite insert_insert_eq.
Qed.

Lemma join_scan_objs l name (w w' : osys) : os_objs w = os_objs w' -> join_scan l name w = join_scan l name w'.
Proof using Type. intros E. induction l as [|c l IH]; [done|]. cbn [join_scan]. unfold obj. rewrite E. destruct (os_objs w' !! c) as [o|]; [|done]. cbn [deref mbind res_bind]. by rewrite IH. Qed.

Section join.
Context (p d : Z) (o od : fwk_kobject) (w : osys) (X : list (Z * Z)).
Context (Ho : os_objs w !! p = Some o) (Hset : ko_kset o = d) (Hd0 : d <> 0) (Hd : os_objs w !! d = Some od) (Hpd : p <> d) (Hp0 : p <> 0).
Context (Hnew : p ∉ ko_list od) (Hlock : lock_ok p w).
Context (Hscan : join_scan (ko_list od) (ko_name o) w = Ok ER_NORMAL \/ join_scan (ko_list od) (ko_name o) w = Ok (- ER_EXISTED)).
Context (Hcpu : cpu_ok (ocpu w)) (Hheap : heap_inv (heap w) X).

Definition joined_objs (o' : fwk_kobject) : gmap Z fwk_kobject := <[p := o']> (<[d := set_olist (ko_list od ++ [p]) od]> (os_objs w)).
Lemma join_ok : fwk_kobject_join_to_kset p w = Ok (- ER_EXISTED, w) /\ join_scan (ko_list od) (ko_name o) w = Ok (- ER_EXISTED) \/
  exists par, fwk_kobject_join_to_kset p w = Ok (ER_NORMAL, oput_objs (joined_objs (set_oparent par o)) w).
Proof using Ho Hset Hd0 Hd Hpd Hlock Hscan Hcpu.
  unfold fwk_kobject_join_to_kset, obj. rewrite Ho. cbn [deref mbind res_bind]. rewrite Hset, (proj2 (Z.eqb_neq d 0)), o_lock_ok by done. cbn [mbind res_bind].
  change (os_objs (locked p w)) with (os_objs w). rewrite Hd. cbn [deref mbind res_bind].
  rewrite (join_scan_objs _ _ (locked p w) w eq_refl). destruct Hscan as [-> |Ej]; [|rewrite Ej]; cbn [mbind res_bind].
  - right. exists (if ko_parent o =? 0 then d else ko_parent o). cbn [negb Z.eqb ER_NORMAL]. unfold upd_obj, obj, put_obj.
    change (os_objs (locked p w)) with (os_objs w). rewrite Hd. cbn [deref mbind res_bind oput_objs os_objs]. rewrite lookup_insert_ne, Ho by done. cbn [deref mbind res_bind].
    unfold joined_objs. pose proof (o_unlock_ok p (<[p := set_oparent (if ko_parent o =? 0 then d else ko_parent o) o]> (<[d := set_olist (ko_list od ++ [p]) od]> (os_objs w))) w Hcpu Hlock) as E.
    unfold oput_objs in *. cbn [os_k os_locks os_inodes os_existed] in *. by rewrite E.
  - left. split; [|done]. cbn. by rewrite o_unlock_same.
Qed.
Lemma unjoin_ok par h : fwk_kobject_detach_from_kset p (set_heap h (oput_objs (joined_objs (set_oparent par o)) w)) =
  Ok (oput_objs (<[p := set_oparent par o]> (os_objs w)) (set_heap h w)).
Proof using Hset Hd0 Hd Hpd Hnew Hlock Hscan Hcpu.
  set (w1 := set_heap h w). set (J := joined_objs (set_oparent par o)). change (set_heap h (oput_objs J w)) with (oput_objs J w1).
  assert (J !! p = Some (set_oparent par o)) as Hj by apply lookup_insert_eq.
  unfold fwk_kobject_detach_from_kset, obj. cbn [oput_objs os_objs]. rewrite Hj. cbn [deref mbind res_bind].
  cbn [ko_kset set_oparent]. rewrite Hset, (proj2 (Z.eqb_neq d 0)) by done. rewrite o_lock_ok by exact Hlock. cbn [mbind res_bind]. subst J.
  unfold upd_obj, obj, put_obj. cbn [locked oput_objs oput_k oput_locks os_objs]. unfold joined_objs. rewrite lookup_insert_ne, lookup_insert_eq by done. cbn [deref mbind res_bind].
  set (m := <[d := _]> _). transitivity (o_unlock p (oput_objs m (locked p w1))); [done|]. rewrite o_unlock_ok by done. do 2 f_equal. subst m.
  cbn [set_olist ko_list ko_name ko_ref ko_parent ko_kset ko_inode ko_dir ko_disk]. rewrite filter_app, filter_cons_False, filter_nil, app_nil_r by (intros Hf; by apply Hf).
  rewrite (list_filter_all (fun x => x <> p)) by (apply Forall_forall; intros ? Hx ->; exact (Hnew Hx)). rewrite insert_insert_ne by done. rewrite insert_insert_eq. f_equal. apply insert_id. destruct od; exact Hd.
Qed.
Lemma build_inode_ok : exists h,
  (exists r par, build_inode p w = Ok (r, oput_objs (<[p := set_oparent par o]> (os_objs w)) (set_heap h w)) /\ r <> 0 /\ heap_inv h X /\
     (out_of_memory X sizeof_inode \/ join_scan (ko_list od) (ko_name o) w = Ok (- ER_EXISTED))) \/
  (exists i par, build_inode p w = Ok (ER_NORMAL, oput_inodes (<[i := new_inode p o]> (os_inodes w)) (oput_objs (joined_objs (set_oinode i (set_oparent par o))) (set_heap h w))) /\
     isValid i = true /\ heap_inv h ((i, mrt_num_align8 sizeof_inode) :: X)).
Proof using Hin Ho Hset Hd0 Hd Hpd Hp0 Hnew Hlock Hscan Hcpu Hheap.
  unfold fwk_kobject_build_inode. destruct join_ok as [[-> Ej]|(par & ->)]; cbn [mbind res_bind].
  - exists (heap w). left. exists (- ER_EXISTED), (ko_parent o). split_and!; [|done|done|by right]. cbn. f_equal. f_equal.
    rewrite insert_id by (rewrite Ho; by destruct o). by destruct w as [[] ? ? ? ?].
  - cbn [negb Z.eqb ER_NORMAL]. set (w1 := oput_objs _ w).
    destruct (mk_inode_ok p (set_oparent par o) X w1) as (h & [(-> & Hh & Hno)|(i & -> & Hi & Hh)]); [apply lookup_insert_eq|done..| |]; cbn [mbind res_bind]; exists h.
    + left. change (negb (isValid (ERR_PTR (- ER_NOMEM)))) with true. cbn iota. subst w1. rewrite unjoin_ok. cbn [mbind res_bind]. eexists _, par. split_and!; [done|done|done|by left].
    + right. exists i, par. rewrite Hi. cbn [negb]. unfold upd_obj, obj, put_obj. change (os_objs (oput_inodes _ (set_heap h w1))) with (joined_objs (set_oparent par o)).
      assert (joined_objs (set_oparent par o) !! p = Some (set_oparent par o)) as -> by apply lookup_insert_eq.
      cbn [deref mbind res_bind]. split; [|done]. unfold oput_inodes, oput_objs, joined_objs. cbn. by rewrite insert_insert_eq.
Qed.
End join.

(** ** A new object on its way into the tree *)
Definition cand (m : gmap Z spin_lock_t) (p : Z) (o : fwk_kobject) (h : H) (w : osys) : osys :=
  OSys (set_kheap h (os_k w)) (<[p := o]> (os_objs w)) m (os_inodes w) (os_existed w).
Definition grown (d : Z) (od : fwk_kobject) (p : Z) (o : fwk_kobject) (h : H) (w : osys) : osys :=
  OSys (set_kheap h (os_k w)) (<[p := o]> (<[d := set_olist (ko_list od ++ [p]) od]> (os_objs w))) (<[p := Lock 0 0]> (os_locks w))
    (<[ko_inode o := new_inode p o]> (os_inodes w)) (os_existed w).
Lemma obj_cand m p o h w : obj p (cand m p o h w) = Ok o.
Proof using Type. unfold obj, cand. cbn [os_objs]. by rewrite lookup_insert_eq. Qed.
Lemma obj_cand_ne m p o h q oq w : q <> p -> os_objs w !! q = Some oq -> obj q (cand m p o h w) = Ok oq.
Proof using Type. intros Hne Hq. unfold obj, cand. cbn [os_objs]. by rewrite lookup_insert_ne, Hq. Qed.
Lemma upd_cand f m p o h w : upd_obj f p (cand m p o h w) = Ok (cand m p (f o) h w).
Proof using Type. unfold upd_obj. rewrite obj_cand. cbn [mbind res_bind]. unfold put_obj, cand, oput_objs. cbn. by rewrite insert_insert_eq. Qed.
Lemma init_cand m p o h w : fwk_kobject_init p (cand m p o h w) =
  Ok (cand (<[p := spin_lock_init (default (Lock 0 0) (m !! p))]> m) p (set_okset nullptr (set_odir false (set_oref 0 o))) h w).
Proof using Type. unfold fwk_kobject_init. rewrite upd_cand. done. Qed.
Lemma free_cand m p o h s X w : os_objs w !! p = None -> delete p m = os_locks w -> cpu_ok (ocpu w) -> heap_inv h ((p, s) :: X) -> 0 < s -> exists h',
  free_obj p (cand m p o h w) = Ok (set_heap h' w) /\ heap_inv h' X.
Proof using Type.
  intros Hp Hm Hc Hh Hs. unfold free_obj. set (w1 := oput_locks _ _). destruct (o_kfree_ok p s X w1 Hc Hh Hs) as (h' & -> & Hh').
  exists h'. split; [|done]. subst w1. unfold cand, oput_locks, oput_objs, set_heap, oput_k. cbn. rewrite delete_insert_id by done. by rewrite Hm.
Qed.
Lemma del_name_cand m p o h b t X w : ko_name o = Some (b, t) -> cpu_ok (ocpu w) -> heap_inv h ((b, mrt_num_align8 (len t + 1)) :: X) -> len t <= W32 - 64 -> exists h',
  fwk_kobject_del_name p (cand m p o h w) = Ok (cand m p (set_oname None o) h' w) /\ heap_inv h' X.
Proof using Type.
  intros Hn Hc Hh Hl. pose proof (len_nonneg t). unfold fwk_kobject_del_name. rewrite obj_cand. cbn [mbind res_bind]. rewrite Hn.
  destruct (o_kfree_ok b (mrt_num_align8 (len t + 1)) X (cand m p o h w) Hc Hh) as (h' & -> & Hh'); [apply align_pos; unfold W32 in *; lia|].
  exists h'. split; [|done]. cbn [mbind res_bind]. exact (upd_cand (set_oname None) m p o h' w).
Qed.
(** A first name. *)
Lemma set_name_cand m p o h t X w : ko_name o = None -> cpu_ok (ocpu w) -> heap_inv h X -> len t <= W32 - 64 -> exists b h',
  heap_alloc (ocpu w) h (len t + 1) GFP_KERNEL = Ok (b, ocpu w, h') /\
  (b = nullptr /\ heap_inv h' X /\ fwk_kobject_set_name_args p (Some t) (cand m p o h w) = Ok (- ER_NOMEM, cand m p o h' w) \/
   isValid b = true /\ heap_inv h' ((b, mrt_num_align8 (len t + 1)) :: X) /\
     fwk_kobject_set_name_args p (Some t) (cand m p o h w) = Ok (ER_NORMAL, cand m p (set_oname (Some (b, t)) o) h' w)).
Proof using Type.
  intros Hn Hc Hh Hl. pose proof (len_nonneg t). destruct (o_alloc_ok false (len t + 1) X (cand m p o h w) Hc Hh) as (b & h' & E & Ea & Hcase); [unfold W32 in *; lia|].
  exists b, h'. split; [exact Ea|]. unfold fwk_kobject_set_name_args. rewrite obj_cand. cbn [mbind res_bind]. rewrite Hn. unfold vasprintk_safe.
  rewrite (u32_id (len t)), (u32_id (len t + 1)), E by (unfold W32 in *; lia). cbn [mbind res_bind].
  destruct Hcase as [[-> Hh']|[Hb Hh']]; [by left|right]. rewrite Hb. cbn [negb]. split_and!; [done|done|].
  change (set_heap h' (cand m p o h w)) with (cand m p o h' w). rewrite upd_cand. done.
Qed.

(** ** Creating one component *)
Local Notation populate_dir := (__fwk_kobject_populate_dir sizeof_kobject sizeof_kset sizeof_inode root chrfoprts blkfoprts netfoprts).
Section create.
Context (L : list (Z * Z)) (w : osys) (d : Z) (od : fwk_kobject).
Context (I : osys_ok L w) (Hd : os_objs w !! d = Some od) (Hdir : ko_dir od = true).
Local Notation isz := (mrt_num_align8 sizeof_inode).
Local Notation M p := (<[p := Lock 0 0]> (os_locks w)).

(** What a new member brings: its block, its name's and its inode's. *)
Record grows (part : text) (dir : bool) (p : Z) (o : fwk_kobject) (h : H) : Prop := {
  gr_valid : isValid p = true;
  gr_fresh : os_objs w !! p = None /\ p <> root;
  gr_inode : isValid (ko_inode o) = true /\ os_inodes w !! ko_inode o = None;
  gr_obj : ko_kset o = d /\ ko_dir o = dir /\ ko_disk o = false /\ ko_list o = [] /\ exists b, ko_name o = Some (b, part);
  gr_heap : heap_inv h (obj_block (p, o) ++ (ko_inode o, isz) :: oblocks w ++ L);
}.

Lemma d_nonnull : d <> 0.
Proof using Hko Hks Hroot I Hd. eapply obj_nonnull; [exact (oi_heap _ _ I)|by eexists]. Qed.
Lemma not_member p : os_objs w !! p = None -> p ∉ ko_list od.
Proof using I Hd. intros Hp Hm. destruct (oi_dir _ _ I d od Hd) as [_ Hk]. destruct (Hk p Hm) as (o & Ho & _). congruence. Qed.
Lemma unlock_M p : os_objs w !! p = None -> delete p (M p) = os_locks w.
Proof using I. intros Hp. apply delete_insert_id. exact (oi_unlocked _ _ I p Hp). Qed.

(** Some request of memory was refused. *)
Definition short_memory : Prop := exists size, out_of_memory L size.
(** A member of the directory has the name already. *)
Definition clash (part : text) : Prop := exists c oc b, c ∈ ko_list od /\ os_objs w !! c = Some oc /\ ko_name oc = Some (b, part).
Lemma join_clash l p o h m : (forall c, c ∈ l -> c ∈ ko_list od /\ c <> p) -> join_scan l (ko_name o) (cand m p o h w) = Ok (- ER_EXISTED) -> exists b t, ko_name o = Some (b, t) /\ clash t.
Proof using Type.
  induction l as [|c l IH]; intros Hl; [done|]. destruct (Hl c ltac:(left)) as [Hc Hcp]. cbn [join_scan]. unfold obj. cbn [cand os_objs]. rewrite lookup_insert_ne by done.
  destruct (os_objs w !! c) as [oc|] eqn:Ec; [|done]. cbn [deref mbind res_bind]. destruct (ko_name oc) as [[b' s]|] eqn:En, (ko_name o) as [[b t]|] eqn:Eo; try done.
  case_bool_decide as E; [subst; intros _; exists b, s; split; [done|]; by exists c, oc, b'|]. intros Hj. apply IH; [|done]. intros x Hx. apply Hl. by right.
Qed.
Lemma build_cand p o h Y : os_objs w !! p = None -> p <> 0 -> ko_kset o = d -> is_Some (ko_name o) \/ ko_list od = [] -> heap_inv h Y -> exists h',
  (exists r par, build_inode p (cand (M p) p o h w) = Ok (r, cand (M p) p (set_oparent par o) h' w) /\ r <> 0 /\ heap_inv h' Y /\
     (out_of_memory Y sizeof_inode \/ exists b t, ko_name o = Some (b, t) /\ clash t)) \/
  (exists i par, build_inode p (cand (M p) p o h w) = Ok (ER_NORMAL, grown d od p (set_oinode i (set_oparent par o)) h' w) /\ isValid i = true /\ heap_inv h' ((i, isz) :: Y)).
Proof using Hko Hks Hin Hroot I Hd.
  intros Hp Hp0 Hset Hn Hh. assert (p <> d) as Hpd by (intros ->; congruence). pose proof d_nonnull as Hd0.
  destruct (build_inode_ok p d o od (cand (M p) p o h w) Y) as (h' & Hcase); try done.
  - apply lookup_insert_eq.
  - cbn. by rewrite lookup_insert_ne.
  - by apply not_member.
  - eexists. split; [apply lookup_insert_eq|done].
  - destruct Hn as [[[b t] ->]| ->]; [|by left]. apply join_scan_ok. intros c Hc. destruct (oi_dir _ _ I d od Hd) as [_ Hm]. destruct (Hm c Hc) as (oc & Hoc & Hnc & _). exists oc.
    cbn. rewrite lookup_insert_ne; [done|]. intros ->. congruence.
  - exact (oi_cpu _ _ I).
  - exists h'. destruct Hcase as [(r & par & -> & Hr & Hh' & Hwhy)|(i & par & -> & Hi & Hh')]; [left; exists r, par; (split; [|split_and!; [done|done|destruct Hwhy as [?|Hj]; [by left|right]]])|right; exists i, par; (split; [|done])];
      [|apply (join_clash (ko_list od) p o h (M p)); [|exact Hj]; intros c Hc; split; [done|]; intros ->; exact (not_member p Hp Hc)|];
      unfold cand, oput_objs, grown, joined_objs; cbn; [by rewrite insert_insert_eq|].
    do 2 f_equal. unfold joined_objs. cbn. rewrite (insert_insert_ne _ d p) by done. by rewrite insert_insert_eq.
Qed.

(** The name of a new file cannot be stored: the block for the object is there, that
    for its name is not. *)
Definition name_fails (name : text) : Prop := exists p h h',
  heap_alloc (ocpu w) (heap w) sizeof_kobject (Z.lor GFP_KERNEL GFP_ZERO) = Ok (p, ocpu w, h) /\ isValid p = true /\
  heap_alloc (ocpu w) h (len name + 1) GFP_KERNEL = Ok (nullptr, ocpu w, h').
(** Nothing was created, for want of memory or because the name is there. *)
Definition unchanged (part : text) (r : res (Z * osys)) : Prop := exists h, r = Ok (nullptr, set_heap h w) /\ heap_inv h (oblocks w ++ L) /\ (short_memory \/ clash part).
Lemma short_refused c h X size flags h' : heap_inv h X -> heap_alloc c h size flags = Ok (nullptr, c, h') -> L `suffix_of` X -> short_memory.
Proof using Type. intros. exists size. by eapply refused_memory. Qed.
Lemma short_build Y part (b : Z) (t : text) : L `suffix_of` Y -> out_of_memory Y sizeof_inode \/ (exists b' t', Some (b, t) = Some (b', t') /\ clash t') -> t = part -> short_memory \/ clash part.
Proof using Type. intros Hs [Ho|(b' & t' & E & Hc)] <-; [left; exists sizeof_inode; by eapply out_of_memory_suffix|right]. by simplify_eq. Qed.

Lemma perm3 {A} (a b c : A) X : a :: b :: c :: X ≡ₚ c :: b :: a :: X.
Proof using Type. trans (b :: a :: c :: X); [constructor|]. trans (b :: c :: a :: X); [by repeat constructor|constructor]. Qed.
Lemma create_grows part dir p o i par b h : os_objs w !! p = None /\ p <> root -> isValid p = true -> isValid i = true ->
  ko_kset o = d -> ko_dir o = dir -> ko_disk o = false -> ko_list o = [] -> ko_name o = Some (b, part) ->
  heap_inv h ((i, isz) :: (b, mrt_num_align8 (len part + 1)) :: (p, osz o) :: oblocks w ++ L) -> grows part dir p (set_oinode i (set_oparent par o)) h.
Proof using Hko Hks Hin Hstatic.
  intros Hf Hp Hi ? ? ? ? Hn Hh. split; [done|done| |cbn; split_and!; by eauto|].
  - split; [done|]. refine (proj1 (proj2 (block_fresh h w i isz _ Hh _ _))); [|apply align_pos; unfold W32; lia].
    intros e He. do 2 right. apply elem_of_app. by left.
  - eapply heap_inv_perm; [|exact Hh]. unfold obj_block, name_block. cbn. rewrite Hn, bool_decide_false by apply Hf. cbn. apply perm3.
Qed.

Lemma build_nameless p o h : os_objs w !! p = None -> ko_kset o = d -> ko_name o = None -> ko_list od <> [] -> build_inode p (cand (M p) p o h w) = Fault.
Proof using Hko Hks Hroot I Hd.
  intros Hp Hset Hn Hl. pose proof d_nonnull as Hd0. unfold fwk_kobject_build_inode, fwk_kobject_join_to_kset. rewrite obj_cand. cbn [mbind res_bind]. rewrite Hset, (proj2 (Z.eqb_neq d 0)) by done.
  set (w1 := cand (M p) p o h w). rewrite o_lock_ok by (eexists; split; [apply lookup_insert_eq|done]). cbn [mbind res_bind].
  assert (forall c oc, os_objs w !! c = Some oc -> obj c (locked p w1) = Ok oc) as Hobj.
  { intros c oc Hc. unfold obj. change (os_objs (locked p w1)) with (os_objs w1). subst w1. cbn. rewrite lookup_insert_ne by congruence. by rewrite Hc. }
  rewrite (Hobj d od Hd). cbn [mbind res_bind]. rewrite Hn. destruct (ko_list od) as [|c l] eqn:El; [done|]. destruct (oi_dir _ _ I d od Hd) as [_ Hm].
  destruct (Hm c) as (oc & Hoc & [[bc sc] Hnc] & _); [rewrite El; left|]. cbn [join_scan]. rewrite (Hobj c oc Hoc). cbn [mbind res_bind]. by rewrite Hnc.
Qed.
(** What becomes of it: a fault, or an object without a name. *)
Definition lost (r : res (Z * osys)) : Prop :=
  r = Fault \/ exists p w' o, r = Ok (p, w') /\ isValid p = true /\ os_objs w' !! p = Some o /\ ko_name o = None /\ ko_dir o = false.
Lemma create_file_ok name : to_slash name = (name, None) -> percent ∉ name -> len name <= W32 - 64 ->
  unchanged name (populate_dir d name w) \/ name_fails name /\ lost (populate_dir d name w) \/
  exists p o h, populate_dir d name w = Ok (p, grown d od p o h w) /\ grows name false p o h.
Proof using Hko Hks Hin Hroot Hstatic I Hd Hdir.
  intros Hts Hpc Hlen. pose proof d_nonnull as Hd0. pose proof (oi_cpu _ _ I) as Hcpu. pose proof (oi_heap _ _ I) as Hh.
  unfold __fwk_kobject_populate_dir, fwk_kobject_create. rewrite (proj2 (Z.eqb_neq d 0)), Hts by done.
  destruct (o_alloc_ok true sizeof_kobject _ w Hcpu Hh ltac:(unfold W32; lia)) as (p & h1 & -> & Ea & [[-> Hh1]|[Hp Hh1]]); cbn [mbind res_bind].
  { left. exists h1. split_and!; [done|done|left]. eapply short_refused; [exact Hh|exact Ea|block_suffix]. }
  destruct (block_fresh h1 w p _ _ Hh1) as (Hf & _ & Hnr); [intros e He; apply elem_of_app; by left|apply align_pos; unfold W32; lia|].
  assert (p <> 0) as Hp0 by (intros ->; done). assert (d <> p) as Hdp by (intros ->; congruence).
  rewrite Hp. cbn [negb]. change (put_obj p zero_obj (set_heap h1 w)) with (cand (os_locks w) p zero_obj h1 w).
  rewrite init_cand, (oi_unlocked _ _ I p Hf). cbn [default mbind res_bind]. change (spin_lock_init (Lock 0 0)) with (Lock 0 0). rewrite Hp. cbn [negb].
  unfold mrt_fwk_kset_get. rewrite (proj2 (Z.eqb_neq d 0)), (obj_cand_ne _ _ _ _ d od) by done. cbn [mbind res_bind]. rewrite Hdir, upd_cand. cbn [mbind res_bind].
  rewrite (proj2 (Z.eqb_neq d 0)) by done. unfold no_arguments. rewrite bool_decide_false by done. cbn [mbind res_bind].
  unfold fwk_kobject_add. rewrite (proj2 (Z.eqb_neq p 0)) by done. change (os_existed (cand _ _ _ _ _)) with (os_existed w). rewrite (oi_existed _ _ I). cbn [orb negb].
  rewrite upd_cand. cbn [mbind res_bind]. set (o1 := set_oparent d _).
  destruct (set_name_cand (M p) p o1 h1 name _ w eq_refl Hcpu Hh1 Hlen) as (b & h2 & Eb & [(-> & Hh2 & ->)|(Hb & Hh2 & ->)]); cbn [mbind res_bind].
  { rewrite upd_cand. cbv beta. change (ko_kset o1) with d. rewrite (proj2 (Z.eqb_neq d 0)) by done. cbn [mbind res_bind].
    assert (name_fails name) as Hnf by (by exists p, h1, h2). destruct (decide (ko_list od = [])) as [El|El].
    2:{ right. left. split; [done|left]. by rewrite (build_nameless p o1 h2 Hf eq_refl eq_refl El). }
    destruct (build_cand p o1 h2 _ Hf Hp0 eq_refl (or_intror El) Hh2) as (h3 & [(r & par & -> & Hr & Hh3 & Hwhy)|(i & par & -> & Hi & Hh3)]); cbn [mbind res_bind].
    - left. rewrite (proj2 (Z.eqb_neq r 0)) by done. cbn [negb]. unfold fwk_kobject_del_name. rewrite obj_cand. cbn [mbind res_bind].
      change (ko_name (set_oparent par o1)) with (@None (Z * text)). cbn [mbind res_bind]. rewrite upd_cand. cbn [mbind res_bind].
      rewrite (proj2 (Z.eqb_neq r 0)) by done. cbn [negb].
      match goal with |- unchanged _ (free_obj _ (cand _ _ ?x _ _) ≫= _) => destruct (free_cand (M p) p x h3 _ _ w Hf (unlock_M p Hf) Hcpu Hh3) as (h5 & -> & Hh5); [apply align_pos; unfold W32; lia|] end.
      exists h5. split_and!; [done|done|left]. destruct Hwhy as [Hno|(? & ? & [=] & _)]. exists sizeof_inode. eapply out_of_memory_suffix; [|exact Hno]. block_suffix.
    - right. left. split; [done|]. right. cbn [negb Z.eqb ER_NORMAL]. cbn [mbind res_bind Z.eqb negb]. eexists p, _, _. split_and!; [done|done|apply lookup_insert_eq|done|done]. }
  set (o2 := set_oname (Some (b, name)) o1). rewrite upd_cand. cbv beta. change (ko_kset o2) with d. rewrite (proj2 (Z.eqb_neq d 0)) by done. cbn [mbind res_bind].
  destruct (build_cand p o2 h2 _ Hf Hp0 eq_refl (or_introl (mk_is_Some _ _ eq_refl)) Hh2) as (h3 & [(r & par & -> & Hr & Hh3 & Hwhy)|(i & par & -> & Hi & Hh3)]); cbn [mbind res_bind].
  - left. rewrite (proj2 (Z.eqb_neq r 0)) by done. cbn [negb].
    destruct (del_name_cand (M p) p (set_oparent par o2) h3 b name _ w eq_refl Hcpu Hh3 Hlen) as (h4 & -> & Hh4). cbn [mbind res_bind].
    rewrite (proj2 (Z.eqb_neq r 0)) by done. cbn [negb].
    destruct (free_cand (M p) p (set_oname None (set_oparent par o2)) h4 _ _ w Hf (unlock_M p Hf) Hcpu Hh4) as (h5 & -> & Hh5); [apply align_pos; unfold W32; lia|].
    exists h5. split_and!; [done|done|]. eapply short_build; [|exact Hwhy|done]. block_suffix.
  - right. right. cbn [negb Z.eqb ER_NORMAL]. cbn [mbind res_bind Z.eqb negb]. exists p, (set_oinode i (set_oparent par o2)), h3. split; [done|].
    by apply (create_grows name false p o2 i par b h3).
Qed.

Lemma set_olist_id o : set_olist (ko_list o) o = o.
Proof using Type. by destruct o. Qed.
Lemma detach_cand m p o h : os_objs w !! p = None -> (ko_kset o = 0 \/ ko_kset o = d /\ m = M p) ->
  fwk_kobject_detach_from_kset p (cand m p o h w) = Ok (cand m p o h w).
Proof using Hko Hks Hroot I Hd.
  intros Hp Hset. unfold fwk_kobject_detach_from_kset. rewrite obj_cand. cbn [mbind res_bind]. destruct Hset as [-> |[-> ->]]; [done|].
  pose proof d_nonnull as Hd0. rewrite (proj2 (Z.eqb_neq d 0)) by done. set (w1 := cand (M p) p o h w).
  assert (lock_ok p w1) as Hl by (eexists; split; [apply lookup_insert_eq|done]). rewrite o_lock_ok by done. cbn [mbind res_bind].
  assert (os_objs w1 !! d = Some od) as E by (cbn; rewrite lookup_insert_ne; [done|intros ->; congruence]).
  unfold upd_obj, obj, put_obj. change (os_objs (locked p w1)) with (os_objs w1). rewrite E. cbn [deref mbind res_bind]. rewrite o_unlock_ok by (done || exact (oi_cpu _ _ I)).
  rewrite (list_filter_all (fun x => x <> p)) by (apply Forall_forall; intros ? Hx ->; exact (not_member p Hp Hx)).
  rewrite set_olist_id, insert_id by done. by subst w1.
Qed.
(** A directory that does not make it is taken apart. *)
Lemma drop_cand m p o h X : os_objs w !! p = None -> (ko_kset o = 0 \/ ko_kset o = d /\ m = M p) -> delete p m = os_locks w -> ko_inode o = 0 ->
  heap_inv h (name_block o ++ (p, mrt_num_align8 sizeof_kset) :: X) -> match ko_name o with Some (_, t) => len t <= W32 - 64 | None => True end -> exists h',
  (w ← fwk_kobject_del p (cand m p o h w); w ← free_obj p w; Ok (nullptr, w)) = Ok (nullptr, set_heap h' w) /\ heap_inv h' X.
Proof using Hko Hks Hroot I Hd.
  intros Hp Hset Hm Hi Hh Hl. pose proof (oi_cpu _ _ I) as Hcpu. unfold fwk_kobject_del. rewrite obj_cand. cbn [mbind res_bind]. rewrite Hi. cbn [fwk_rm_inode Z.eqb mbind res_bind].
  assert (exists h1, fwk_kobject_del_name p (cand m p o h w) = Ok (cand m p (set_oname None o) h1 w) /\ heap_inv h1 ((p, mrt_num_align8 sizeof_kset) :: X)) as (h1 & -> & Hh1).
  { unfold name_block in Hh. destruct (ko_name o) as [[b t]|] eqn:En; [by apply (del_name_cand m p o h b t)|].
    exists h. split; [|done]. unfold fwk_kobject_del_name. rewrite obj_cand. cbn [mbind res_bind]. rewrite En. exact (upd_cand (set_oname None) m p o h w). }
  cbn [mbind res_bind]. rewrite (detach_cand m p (set_oname None o) h1 Hp Hset). cbn [mbind res_bind]. rewrite upd_cand. cbn [mbind res_bind].
  destruct (free_cand m p (set_oinode nullptr (set_oname None o)) h1 _ X w Hp Hm Hcpu Hh1) as (h2 & -> & Hh2); [apply align_pos; unfold W32; lia|]. by exists h2.
Qed.
Lemma create_dir_ok name part rest : to_slash name = (part, Some rest) -> len part <= len name -> len name <= W32 - 64 ->
  unchanged part (populate_dir d name w) \/
  exists p o h, populate_dir d name w = Ok (p, grown d od p o h w) /\ grows part true p o h.
Proof using Hko Hks Hin Hroot Hstatic I Hd Hdir.
  intros Hts Hpl Hlen. pose proof d_nonnull as Hd0. pose proof (oi_cpu _ _ I) as Hcpu. pose proof (oi_heap _ _ I) as Hh. pose proof (len_nonneg part).
  unfold __fwk_kobject_populate_dir, fwk_kset_create. rewrite (proj2 (Z.eqb_neq d 0)), Hts by done.
  destruct (o_alloc_ok true sizeof_kset _ w Hcpu Hh ltac:(unfold W32; lia)) as (p & h1 & -> & Ea & [[-> Hh1]|[Hp Hh1]]); cbn [mbind res_bind].
  { left. exists h1. split_and!; [done|done|left]. eapply short_refused; [exact Hh|exact Ea|block_suffix]. }
  assert (0 < mrt_num_align8 sizeof_kset) as Hsz by (apply align_pos; unfold W32; lia).
  destruct (block_fresh h1 w p _ _ Hh1) as (Hf & _ & Hnr); [intros e He; apply elem_of_app; by left|done|].
  assert (p <> 0) as Hp0 by (intros ->; done). assert (d <> p) as Hdp by (intros ->; congruence).
  pose proof (oi_unlocked _ _ I p Hf) as Hlk. assert (delete p (os_locks w) = os_locks w) as Hm by (by apply delete_id).
  rewrite Hp. cbn [negb]. change (put_obj p zero_obj (set_heap h1 w)) with (cand (os_locks w) p zero_obj h1 w).
  destruct (set_name_cand (os_locks w) p zero_obj h1 name _ w eq_refl Hcpu Hh1 Hlen) as (b & h2 & Eb & [(-> & Hh2 & ->)|(Hb & Hh2 & ->)]); cbn [mbind res_bind].
  { left. change (negb (- ER_NOMEM =? 0)) with true. cbn iota. destruct (free_cand (os_locks w) p zero_obj h2 _ _ w Hf Hm Hcpu Hh2 Hsz) as (h3 & -> & Hh3).
    exists h3. split_and!; [done|done|left]. eapply short_refused; [exact Hh1|exact Eb|block_suffix]. }
  change (negb (ER_NORMAL =? 0)) with false. cbn iota. rewrite upd_cand. cbn [mbind res_bind]. rewrite Hp. cbn [negb].
  destruct (del_name_cand (os_locks w) p (set_okset nullptr (set_oparent d (set_oname (Some (b, name)) zero_obj))) h2 b name _ w eq_refl Hcpu Hh2 Hlen) as (h3 & -> & Hh3). cbn [mbind res_bind].
  set (o1 := set_oname None _). rewrite u32_id by (unfold W32 in *; lia).
  destruct (o_alloc_ok false (len part + 1) _ (cand (os_locks w) p o1 h3 w) Hcpu Hh3 ltac:(unfold W32 in *; lia)) as (nb & h4 & -> & En & [[-> Hh4]|[Hnb Hh4]]); cbn [mbind res_bind];
    change (set_heap h4 (cand (os_locks w) p o1 h3 w)) with (cand (os_locks w) p o1 h4 w).
  { left. destruct (drop_cand (os_locks w) p o1 h4 _ Hf (or_introl eq_refl) Hm eq_refl Hh4 Logic.I) as (h5 & E5 & Hh5). exists h5. split_and!; [exact E5|done|left].
    eapply short_refused; [exact Hh3|exact En|block_suffix]. }
  rewrite Hnb. cbn [negb]. rewrite upd_cand. cbn [mbind res_bind]. unfold mrt_fwk_kset_get. rewrite (proj2 (Z.eqb_neq d 0)), (obj_cand_ne _ _ _ _ d od) by done. cbn [mbind res_bind].
  rewrite Hdir, upd_cand. cbn [mbind res_bind]. rewrite (proj2 (Z.eqb_neq d 0)) by done. unfold fwk_kset_register, fwk_kset_init.
  change (os_existed (cand _ _ _ _ _)) with (os_existed w). rewrite (oi_existed _ _ I). cbn [negb]. rewrite obj_cand. cbn [mbind res_bind]. rewrite upd_cand. cbn [mbind res_bind].
  rewrite init_cand, Hlk. cbn [default mbind res_bind]. change (spin_lock_init (Lock 0 0)) with (Lock 0 0). rewrite upd_cand. cbn [mbind res_bind]. cbv beta.
  change (ko_kset (set_okset d _)) with d. rewrite (proj2 (Z.eqb_neq d 0)) by done. set (o2 := set_okset d (set_odir true _)).
  destruct (build_cand p o2 h4 _ Hf Hp0 eq_refl (or_introl (mk_is_Some _ _ eq_refl)) Hh4) as (h5 & [(r & par & -> & Hr & Hh5 & Hwhy)|(i & par & -> & Hi & Hh5)]); cbn [mbind res_bind].
  - left. rewrite (proj2 (Z.eqb_neq r 0)) by done. cbn [negb].
    destruct (drop_cand (M p) p (set_oparent par o2) h5 (oblocks w ++ L) Hf) as (h6 & E6 & Hh6); [by right|by apply unlock_M|done|exact Hh5|cbn; lia|]. exists h6. split_and!; [exact E6|done|].
    eapply short_build; [|exact Hwhy|done]. block_suffix.
  - right. cbn [negb Z.eqb ER_NORMAL]. exists p, (set_oinode i (set_oparent par o2)), h5. split; [done|]. by apply (create_grows part true p o2 i par nb h5).
Qed.

(** ** The tree with the new member *)
Section grown.
Context (part : text) (dir : bool) (p : Z) (o : fwk_kobject) (h : H) (G : grows part dir p o h).
Local Notation w' := (grown d od p o h w).
Lemma grown_old q oq : os_objs w !! q = Some oq -> exists l, os_objs w' !! q = Some (set_olist (ko_list oq ++ l) oq) /\ (q <> d -> l = []) /\ (q = d -> l = [p]).
Proof using Hd G.
  intros Hq. assert (q <> p) as Hne by (intros ->; destruct (gr_fresh _ _ _ _ _ G); congruence). cbn. rewrite lookup_insert_ne by done.
  destruct (decide (q = d)) as [->|Hqd]; [rewrite lookup_insert_eq; exists [p]; split_and!; [congruence|done..]|].
  rewrite lookup_insert_ne by done. exists []. rewrite app_nil_r. split_and!; [rewrite Hq; by destruct oq|done..].
Qed.
Lemma grown_objs q oq : os_objs w' !! q = Some oq -> q = p /\ oq = o \/ exists oq0 l, os_objs w !! q = Some oq0 /\ oq = set_olist (ko_list oq0 ++ l) oq0 /\ (q <> d -> l = []) /\ (q = d -> l = [p]).
Proof using Hd G.
  intros Hq. destruct (decide (q = p)) as [->|Hne]; [left; cbn in Hq; rewrite lookup_insert_eq in Hq; by simplify_eq|right].
  assert (is_Some (os_objs w !! q)) as [oq0 Hq0].
  { cbn in Hq. rewrite lookup_insert_ne in Hq by done. destruct (decide (q = d)) as [->|Hqd]; [by eexists|]. rewrite lookup_insert_ne in Hq by done. by eexists. }
  destruct (grown_old q oq0 Hq0) as (l & E & ? & ?). exists oq0, l. split_and!; [done|congruence|done..].
Qed.
Lemma grown_extends : extends w w'.
Proof using Hd G.
  split.
  - intros q oq Hq. destruct (grown_old q oq Hq) as (l & E & _). eexists. split; [exact E|]. split_and!; [done..|]. by exists l.
  - cbn. apply insert_subseteq. exact (proj2 (gr_inode _ _ _ _ _ G)).
Qed.
Lemma grown_blocks : oblocks w' ≡ₚ obj_block (p, o) ++ (ko_inode o, isz) :: oblocks w.
Proof using Hd G.
  unfold oblocks. cbn [grown os_objs os_inodes]. destruct (gr_fresh _ _ _ _ _ G) as [Hf _].
  rewrite entry_blocks_insert by (rewrite lookup_insert_ne; [done|intros ->; congruence]).
  rewrite (entry_blocks_update obj_block _ d od) by done. rewrite entry_blocks_insert by exact (proj2 (gr_inode _ _ _ _ _ G)).
  rewrite <- app_assoc. apply Permutation_app_head. cbn. by rewrite <- Permutation_middle.
Qed.
Lemma grown_member q c : member_ok q c w -> member_ok q c w'.
Proof using Hd G.
  intros (oc & Hc & Hn & Hk & Hr & [i Hi]). destruct (grown_old c oc Hc) as (l & E & _). eexists. split; [exact E|]. split_and!; [done..|].
  exists i. exact (lookup_weaken _ _ _ _ Hi (ex_inode _ _ grown_extends)).
Qed.
Lemma grown_ok : osys_ok L w'.
Proof using I Hd Hdir G.
  destruct (gr_fresh _ _ _ _ _ G) as [Hf Hnr]. destruct (gr_obj _ _ _ _ _ G) as (Hk & _ & _ & Hl & b & Hn). split.
  - exact (oi_cpu _ _ I).
  - eapply heap_inv_perm; [|exact (gr_heap _ _ _ _ _ G)]. rewrite grown_blocks, <- app_assoc. done.
  - exact (oi_existed _ _ I).
  - destruct (oi_root _ _ I) as (r & Hr & Hrd). destruct (grown_old root r Hr) as (l & E & _). by eexists.
  - intros q [oq Hq]. destruct (grown_objs q oq Hq) as [[-> ->]|(oq0 & l & Hq0 & _)]; [by eexists; split; [apply lookup_insert_eq|]|].
    destruct (oi_lock _ _ I q ltac:(by eexists)) as (lk & Hlk & Ha). exists lk. split; [|done]. cbn. rewrite lookup_insert_ne; [done|]. intros ->. congruence.
  - intros q Hq. cbn in Hq |- *. destruct (decide (q = p)) as [->|Hne]; [by rewrite lookup_insert_eq in Hq|]. rewrite lookup_insert_ne in Hq by done. rewrite lookup_insert_ne by done.
    apply (oi_unlocked _ _ I). destruct (decide (q = d)) as [->|Hqd]; [by rewrite lookup_insert_eq in Hq|]. by rewrite lookup_insert_ne in Hq.
  - intros q oq Hq. destruct (grown_objs q oq Hq) as [[-> ->]|(oq0 & l & Hq0 & -> & Hln & Hld)]; [rewrite Hl; split; [constructor|intros c Hc; by apply not_elem_of_nil in Hc]|].
    destruct (oi_dir _ _ I q oq0 Hq0) as [Hnd Hm]. cbn. destruct (decide (q = d)) as [->|Hqd].
    + rewrite (Hld eq_refl). assert (oq0 = od) as -> by congruence. split; [apply NoDup_app; split_and!; [done| |apply NoDup_singleton]|].
      * intros c Hc ->%list_elem_of_singleton. exact (not_member p Hf Hc).
      * intros c [Hc| ->%list_elem_of_singleton]%elem_of_app; [by apply grown_member, Hm|]. exists o. split_and!; [apply lookup_insert_eq|by eexists|done|done|].
        eexists. apply lookup_insert_eq.
    + rewrite (Hln Hqd), app_nil_r. split; [done|]. intros c Hc. by apply grown_member, Hm.
Qed.
(** The search that found nothing before finds the new member now. *)
Lemma grown_scan : scan_dir (ko_list od) part dir w = Ok 0 -> scan_dir (ko_list od ++ [p]) part dir w' = Ok p.
Proof using Hko Hks Hroot I Hd G.
  intros Hs. pose proof (members_exist L w d od I Hd) as Hm.
  rewrite scan_dir_app.
  2:{ intros c Hc. destruct (Hm c Hc) as [? [oc Hoc]]. destruct (grown_old c oc Hoc) as (l & E & _). split; [done|by eexists]. }
  rewrite (scan_dir_extends (ko_list od) part dir w w' grown_extends) by (intros c Hc; exact (proj2 (Hm c Hc))). rewrite Hs. cbn [mbind res_bind Z.eqb scan_dir]. unfold obj. cbn [grown os_objs]. rewrite lookup_insert_eq. cbn [deref mbind res_bind].
  destruct (gr_obj _ _ _ _ _ G) as (_ & Hdr & _ & _ & b & ->). by rewrite bool_decide_true, Hdr, eqb_reflx by done.
Qed.
End grown.
End create.

(** ** Paths *)
Lemma to_slash_spec s : forall part rest, to_slash s = (part, rest) ->
  slash ∉ part /\ match rest with None => s = part | Some r => s = part ++ r /\ exists r', r = slash :: r' end.
Proof using Type.
  induction s as [|c s IH]; intros part rest; cbn [to_slash]; [intros [= <- <-]; by split; [apply not_elem_of_nil|]|].
  destruct (Z.eqb_spec c slash) as [->|Hc]; [intros [= <- <-]; split; [apply not_elem_of_nil|]; split; [done|]; by exists s|].
  destruct (to_slash s) as [a r] eqn:E. intros [= <- <-]. destruct (IH a r eq_refl) as [Ha Hr]. split; [apply not_elem_of_cons; by split|].
  destruct r; [destruct Hr as [-> ?]|]; by subst.
Qed.
Lemma part_nonempty d s part rest : d <> slash -> to_slash (d :: s) = (part, rest) -> exists a, part = d :: a.
Proof using Type. intros Hd. cbn [to_slash]. rewrite (proj2 (Z.eqb_neq d slash)) by done. destruct (to_slash s) as [a r]. intros [= <- <-]. by exists a. Qed.

Lemma set_heap_ok L h w : osys_ok L w -> heap_inv h (oblocks w ++ L) -> osys_ok L (set_heap h w).
Proof using Type. intros [] Hh. by split. Qed.
Lemma set_heap_extends h w : extends w (set_heap h w).
Proof using Type. split; [|done]. intros p o Ho. exists o. by split_and!. Qed.

Definition is_dir (w : osys) (k : Z) : Prop := exists o, os_objs w !! k = Some o /\ ko_dir o = true.
Lemma extends_dir w w' k : extends w w' -> is_dir w k -> is_dir w' k.
Proof using Type. intros Hx (o & Ho & Hd). destruct (ex_obj _ _ Hx k o Ho) as (o' & Ho' & _ & Ed & _). exists o'. by rewrite Ed. Qed.
(** What a search has found, it finds again in a larger tree. *)
Lemma locked_scan_extends L w w' k part dir q : osys_ok L w -> osys_ok L w' -> extends w w' -> is_dir w k -> locked_scan k part dir w = Ok (q, w) -> q <> 0 ->
  locked_scan k part dir w' = Ok (q, w').
Proof using Hko Hks Hroot.
  intros I I' Hx (o & Ho & Hd) E Hq. destruct (locked_scan_ok L w k o part dir I Ho) as (q0 & Es & E' & _). assert (q0 = q) as -> by congruence.
  destruct (ex_obj _ _ Hx k o Ho) as (o' & Ho' & _ & _ & _ & _ & [l El]). destruct (locked_scan_ok L w' k o' part dir I' Ho') as (q1 & Es' & -> & _).
  pose proof (members_exist L w k o I Ho) as Hm. rewrite El, scan_dir_app in Es'.
  2:{ intros c Hc. destruct (Hm c Hc) as [? [oc Hoc]]. destruct (ex_obj _ _ Hx c oc Hoc) as (oc' & ? & _). split; [done|by eexists]. }
  rewrite (scan_dir_extends (ko_list o) part dir w w' Hx) in Es' by (intros c Hc; exact (proj2 (Hm c Hc))). rewrite Es in Es'. cbn [mbind res_bind] in Es'.
  rewrite (proj2 (Z.eqb_neq q 0)) in Es' by done. congruence.
Qed.
Lemma find_loop_extends L w w' q : osys_ok L w -> osys_ok L w' -> extends w w' -> q <> 0 -> forall fuel r s k, is_dir w k ->
  find_loop fuel r s k w = Ok (q, w) -> find_loop fuel r s k w' = Ok (q, w').
Proof using Hko Hks Hroot.
  intros I I' Hx Hq. induction fuel as [|fuel IH]; intros r s k Hk; destruct s as [[|c s]|]; cbn [find_loop]; unfold nullptr; try congruence.
  destruct (if r then s else c :: s) as [|e u] eqn:Eu; [congruence|]. destruct (e =? slash); [congruence|].
  destruct (to_slash (e :: u)) as [part se] eqn:Et. destruct Hk as (o & Ho & Hd). set (dir := match se with Some _ => true | None => false end).
  destruct (locked_scan_ok L w k o part dir I Ho) as (q1 & _ & E1 & Hq1). rewrite E1. cbn [mbind res_bind]. destruct (Z.eqb_spec q1 0) as [->|Hn]; [congruence|].
  rewrite (locked_scan_extends L w w' k part dir q1 I I' Hx ltac:(by exists o) E1 Hn). cbn [mbind res_bind]. rewrite (proj2 (Z.eqb_neq q1 0)) by done.
  destruct se as [r'|]; [|congruence]. apply IH. destruct Hq1 as [?|(o1 & ? & ?)]; [done|]. by exists o1.
Qed.
(** Every search returns, and leaves the state alone. *)
Lemma find_loop_total L w : osys_ok L w -> forall fuel r s k, is_dir w k -> (length s <= fuel)%nat -> exists q,
  find_loop fuel r (Some s) k w = Ok (q, w) /\ (q = 0 \/ is_Some (os_objs w !! q)).
Proof using Hko Hks Hroot.
  intros I. induction fuel as [|fuel IH]; intros r s k Hk Hf; (destruct s as [|c s]; [by exists 0; split; [|left]|]); [cbn in Hf; lia|]. cbn [find_loop].
  destruct (if r then s else c :: s) as [|e u] eqn:Eu; [exists k; split; [done|]; right; destruct Hk as (o & Ho & _); by eexists|].
  destruct (Z.eqb_spec e slash) as [|He]; [by exists 0; split; [|left]|]. destruct (to_slash (e :: u)) as [part se] eqn:Et. destruct Hk as (o & Ho & Hd).
  set (dir := match se with Some _ => true | None => false end).
  destruct (locked_scan_ok L w k o part dir I Ho) as (q1 & _ & E1 & Hq1). rewrite E1. cbn [mbind res_bind]. destruct (Z.eqb_spec q1 0) as [->|Hn]; [by exists 0; split; [|left]|].
  destruct Hq1 as [?|(o1 & Ho1 & Hd1)]; [done|]. destruct se as [s'|]; [|exists q1; split; [done|]; right; by eexists].
  apply IH; [by exists o1|]. destruct (part_nonempty e u part (Some s') He Et) as [a ->]. destruct (to_slash_spec _ _ _ Et) as [_ [Es _]].
  assert (length (e :: u) <= length (c :: s))%nat by (destruct r; rewrite <- Eu; cbn; lia). rewrite Es in H1. rewrite length_app in H1. cbn in H1, Hf. lia.
Qed.

(** ** Creating a path *)
Local Notation populate_loop := (populate_loop sizeof_kobject sizeof_kset sizeof_inode root chrfoprts blkfoprts netfoprts).
Definition new_file (w w' : osys) (q : Z) : Prop := exists o, os_objs w' !! q = Some o /\ os_objs w !! q = None /\
  ko_dir o = false /\ ko_disk o = false /\ os_inodes w' !! ko_inode o = Some (new_inode q o) /\ os_inodes w !! ko_inode o = None.
(** Memory ran out in the one place where the code does not notice. *)
Definition short (L : list (Z * Z)) (w : osys) (s : text) (result : res (Z * osys)) : Prop :=
  lost result /\ exists w1 t, osys_ok L w1 /\ extends w w1 /\ t `suffix_of` s /\ name_fails w1 t.
(** Why a path cannot be created.  A component is empty; *)
Definition empty_part (r : bool) (s : text) : Prop := exists a b, (if r then s else slash :: s) = a ++ slash :: slash :: b.
(** or the walk along the path comes to a directory with a member whose name begins
    with the next component, when that is the last one, or that has the name of a
    directory to be entered without being one; *)
Inductive taken_at (w : osys) : bool -> text -> Z -> Prop :=
  | taken_here (r : bool) c s e u part se k ok x ox b nm : (if r then s else c :: s) = e :: u -> to_slash (e :: u) = (part, se) ->
      os_objs w !! k = Some ok -> x ∈ ko_list ok -> os_objs w !! x = Some ox -> ko_name ox = Some (b, nm) -> part `prefix_of` nm -> se = None \/ ko_dir ox = false ->
      taken_at w r (c :: s) k
  | taken_below (r : bool) c s e u part s' k q : (if r then s else c :: s) = e :: u -> to_slash (e :: u) = (part, Some s') ->
      locked_scan k part true w = Ok (q, w) -> q <> 0 -> taken_at w true s' q -> taken_at w r (c :: s) k.
(** or the heap refuses a block. *)
Definition refused (L : list (Z * Z)) (w : osys) (r : bool) (s : text) (k : Z) : Prop := empty_part r s \/ taken_at w r s k \/ short_memory L.
Definition made (L : list (Z * Z)) (w : osys) (fuel : nat) (r : bool) (s : text) (k : Z) (result : res (Z * osys)) : Prop := exists q w',
  result = Ok (q, w') /\ osys_ok L w' /\ extends w w' /\
  (isValid q = true -> find_loop fuel r (Some s) k w' = Ok (q, w') /\ (last s <> Some slash -> new_file w w' q)) /\ (isValid q = false -> refused L w' r s k).

Lemma made_error L w fuel r s k q : osys_ok L w -> isValid q = false -> refused L w r s k -> made L w fuel r s k (Ok (q, w)).
Proof using Type. intros I Hq Hw. exists q, w. split_and!; [done|done|done|by rewrite Hq|done]. Qed.
Lemma made_unchanged L w fuel r s k h q : osys_ok L w -> heap_inv h (oblocks w ++ L) -> isValid q = false -> refused L (set_heap h w) r s k -> made L w fuel r s k (Ok (q, set_heap h w)).
Proof using Type. intros I Hh Hq Hw. exists q, (set_heap h w). split_and!; [done|by apply set_heap_ok|apply set_heap_extends|by rewrite Hq|done]. Qed.
(** What a search does not find is not there. *)
Lemma scan_none l part dir (w : osys) c oc b nm : (forall x, x ∈ l -> x <> 0) -> scan_dir l part dir w = Ok 0 -> c ∈ l -> os_objs w !! c = Some oc -> ko_name oc = Some (b, nm) ->
  part `prefix_of` nm -> ko_dir oc <> dir.
Proof using Type.
  induction l as [|x l IH]; intros Hl Hs Hc Ho En Hp; [by apply not_elem_of_nil in Hc|]. cbn [scan_dir] in Hs. apply bind_Ok in Hs as (ox & Hox & Hs).
  assert (scan_dir l part dir w = Ok 0 -> c ∈ l -> ko_dir oc <> dir) as Hrec by (intros; apply IH; [intros; apply Hl; by right|done..]).
  apply elem_of_cons in Hc as [<-|Hc].
  - unfold obj in Hox. rewrite Ho in Hox. injection Hox as <-. rewrite En, bool_decide_true in Hs by done. cbn [andb] in Hs. intros Hd. rewrite Hd, eqb_reflx in Hs. injection Hs as Hs. by apply (Hl c ltac:(left)).
  - apply Hrec; [|done]. destruct (ko_name ox) as [[? ?]|]; [|done]. case_match; [|done]. injection Hs as Hs. exfalso. by apply (Hl x ltac:(left)).
Qed.
Lemma clash_taken L w h (r : bool) c s e u part se k ok : osys_ok L w -> os_objs w !! k = Some ok -> (if r then s else c :: s) = e :: u -> to_slash (e :: u) = (part, se) ->
  scan_dir (ko_list ok) part (match se with Some _ => true | None => false end) w = Ok 0 -> short_memory L \/ clash w ok part -> refused L (set_heap h w) r (c :: s) k.
Proof using Hko Hks Hroot.
  intros I Hok Eu Et Es [?|(x & ox & b & Hx & Hox & Hn)]; [by right; right|right; left]. apply (taken_here (set_heap h w) r c s e u part se k ok x ox b part); try done.
  destruct se as [s'|]; [right|by left]. pose proof (members_exist L w k ok I Hok) as Hm.
  pose proof (scan_none (ko_list ok) part true w x ox b part (fun y Hy => proj1 (Hm y Hy)) Es Hx Hox Hn ltac:(done)). by destruct (ko_dir ox).
Qed.
Lemma new_file_extends w w1 w' q : extends w w1 -> new_file w1 w' q -> new_file w w' q.
Proof using Type.
  intros Hx (o & Ho & Hn & ? & ? & Hi & Hin'). exists o. split_and!; [done| |done..|].
  - destruct (os_objs w !! q) as [oq|] eqn:E; [|done]. destruct (ex_obj _ _ Hx q oq E) as (? & ? & _). congruence.
  - destruct (os_inodes w !! ko_inode o) as [i|] eqn:E; [|done]. pose proof (lookup_weaken _ _ _ _ E (ex_inode _ _ Hx)). congruence.
Qed.
Lemma grown_new_file L w d od part p o h : os_objs w !! d = Some od -> grows L w d part false p o h -> new_file w (grown d od p o h w) p.
Proof using Type.
  intros Hd G. destruct (gr_obj _ _ _ _ _ _ _ _ G) as (_ & ? & ? & _). destruct (gr_fresh _ _ _ _ _ _ _ _ G). destruct (gr_inode _ _ _ _ _ _ _ _ G).
  exists o. split_and!; try done; apply lookup_insert_eq.
Qed.
Lemma last_slash (s part r : text) : s = part ++ r -> r <> [] -> last s = last r.
Proof using Type. intros -> Hr. rewrite last_app. by destruct (last r) eqn:E; [|apply last_None in E]. Qed.

Definition dir_wanted (se : option text) : bool := match se with Some _ => true | None => false end.
Lemma find_step fuel (r : bool) c s e u part se k q (w : osys) : (if r then s else c :: s) = e :: u -> e <> slash -> to_slash (e :: u) = (part, se) ->
  locked_scan k part (dir_wanted se) w = Ok (q, w) -> q <> 0 ->
  find_loop (S fuel) r (Some (c :: s)) k w = match se with None => Ok (q, w) | Some _ => find_loop fuel true se q w end.
Proof using Type.
  intros Eu He Et E Hq. cbn [find_loop]. rewrite Eu, (proj2 (Z.eqb_neq e slash)), Et by done. unfold dir_wanted in E. rewrite E. cbn [mbind res_bind].
  rewrite (proj2 (Z.eqb_neq q 0)) by done. by destruct se.
Qed.
(** The directory is there: the rest of the path is made inside it. *)
Lemma made_step L w w1 fuel (r : bool) c s e u part s' k q res : osys_ok L w1 -> extends w w1 -> is_dir w k ->
  (if r then s else c :: s) = e :: u -> e <> slash -> to_slash (e :: u) = (part, Some s') -> locked_scan k part true w1 = Ok (q, w1) -> q <> 0 ->
  made L w1 fuel true s' q res -> made L w (S fuel) r (c :: s) k res.
Proof using Hko Hks Hroot.
  intros I1 Hx Hk Eu He Et E Hq (q' & w' & -> & I' & Hx' & Hf & Hno). exists q', w'.
  assert (locked_scan k part true w' = Ok (q, w')) as Hsc by (apply (locked_scan_extends L w1 w'); [done..|by apply (extends_dir w)|done|done]).
  split_and!; [done|done|by trans w1| |].
  2:{ intros Hv. destruct (Hno Hv) as [(a & b & Eab)|[Ht|?]]; [left|right; left|by right; right].
      - destruct (to_slash_spec _ _ _ Et) as [_ [Es _]]. destruct r; [exists (c :: part ++ a), b|exists (slash :: part ++ a), b]; rewrite Eu, Es, Eab; cbn; by rewrite <- app_assoc.
      - by apply (taken_below w' r c s e u part s' k q). }
  intros Hv. destruct (Hf Hv) as [Ef Hnew]. split.
  - by rewrite (find_step fuel r c s e u part (Some s') k q w' Eu He Et).
  - intros Hl. apply (new_file_extends w w1); [done|]. apply Hnew. intros Hls. apply Hl.
    destruct (to_slash_spec _ _ _ Et) as [_ [Es [r' ->]]]. assert (last (e :: u) = Some slash) as Hlu by (rewrite (last_slash _ _ _ Es); done).
    destruct r; [subst s; by rewrite last_cons_cons|by rewrite Eu].
Qed.
Lemma grown_locked_scan L w d od part dir p o h : osys_ok L w -> os_objs w !! d = Some od -> ko_dir od = true -> grows L w d part dir p o h ->
  scan_dir (ko_list od) part dir w = Ok 0 -> locked_scan d part dir (grown d od p o h w) = Ok (p, grown d od p o h w).
Proof using Hko Hks Hroot.
  intros I Hd Hdir G Hs. pose proof (grown_ok L w d od I Hd Hdir part dir p o h G) as I'.
  destruct (grown_old L w d od Hd part dir p o h G d od Hd) as (l & Hd' & _ & Hl).
  destruct (locked_scan_ok L (grown d od p o h w) d _ part dir I' Hd') as (q & Es & E & _). cbn [ko_list set_olist] in Es. rewrite (Hl eq_refl) in Es.
  rewrite (grown_scan L w d od I Hd part dir p o h G Hs) in Es. congruence.
Qed.

Lemma short_suffix L w w1 s t r : extends w w1 -> t `suffix_of` s -> short L w1 t r -> short L w s r.
Proof using Type. intros Hx Hs [Hl (w2 & u & I2 & Hx2 & Hu & Hf)]. split; [done|]. exists w2, u. split_and!; [done|by trans w1|by trans t|done]. Qed.
Lemma kset_get_grown L w d od part dir p o h : grows L w d part dir p o h -> p <> 0 ->
  mrt_fwk_kset_get p (grown d od p o h w) = Ok (if dir then p else nullptr).
Proof using Type.
  intros G Hp. unfold mrt_fwk_kset_get, obj. rewrite (proj2 (Z.eqb_neq p 0)) by done. cbn [grown os_objs]. rewrite lookup_insert_eq. cbn [deref mbind res_bind].
  by destruct (gr_obj _ _ _ _ _ _ _ _ G) as (_ & -> & _).
Qed.
Lemma populate_loop_ok L : forall fuel w (r : bool) s kobj k, osys_ok L w -> is_dir w k -> (length s <= fuel)%nat -> s <> [] -> percent ∉ s -> len s <= W32 - 64 ->
  (r = true -> exists t, s = slash :: t) -> ((if r then tail s else s) <> [] \/ kobj = k) ->
  made L w fuel r s k (populate_loop fuel r (Some s) kobj k w) \/ short L w s (populate_loop fuel r (Some s) kobj k w).
Proof using Hko Hks Hin Hroot Hstatic.
  induction fuel as [|fuel IH]; intros w r s kobj k I Hk Hf Hne Hpc Hlen Hr Hstart; (destruct s as [|c s]; [done|]); [cbn in Hf; lia|].
  cbn [Kobj.populate_loop]. destruct (if r then s else c :: s) as [|e u] eqn:Eu.
  { left. destruct r; [|done]. destruct (Hr eq_refl) as [t [= -> ->]]. subst. destruct Hstart as [?| ->]; [done|]. exists k, w. split_and!; [done|done|done|intros _; by split|].
    destruct Hk as (ok & Hok & _). rewrite (obj_valid L w k (oi_heap _ _ I)) by (by eexists). done. }
  destruct (Z.eqb_spec e slash) as [->|He].
  { left. apply made_error; [done|done|left]. exists [], u. destruct r; [|by rewrite <- Eu]. destruct (Hr eq_refl) as [t [= -> ->]]. by rewrite Eu. } destruct (to_slash (e :: u)) as [part se] eqn:Et.
  assert (e :: u `suffix_of` c :: s) as Hsuf by (destruct r; subst; [by apply suffix_cons_r|by rewrite Eu]).
  assert (percent ∉ e :: u) as Hpu by (intros Hp; apply Hpc; destruct Hsuf as [v ->]; apply elem_of_app; by right).
  assert (len (e :: u) <= W32 - 64) as Hlu by (destruct Hsuf as [v Ev]; rewrite Ev, len_app in Hlen; pose proof (len_nonneg v); lia).
  destruct (part_nonempty e u part se He Et) as [a Ha]. destruct (to_slash_spec _ _ _ Et) as [Hns Hse]. pose proof Hk as (ok & Hok & Hkd).
  destruct (locked_scan_ok L w k ok part (dir_wanted se) I Hok) as (q & Es & El & Hq). fold (dir_wanted se). rewrite El. cbn [mbind res_bind].
  destruct se as [s'|]; cbn [dir_wanted] in *.
  - destruct Hse as [Hes [t Hs']].
    assert (forall w1 q1, osys_ok L w1 -> extends w w1 -> is_dir w1 q1 -> q1 <> 0 -> locked_scan k part true w1 = Ok (q1, w1) ->
      made L w (S fuel) r (c :: s) k (populate_loop fuel true (Some s') q1 q1 w1) \/ short L w (c :: s) (populate_loop fuel true (Some s') q1 q1 w1)) as Hrec.
    { intros w1 q1 I1 Hx1 Hd1 Hq1 Hl1. destruct (IH w1 true s' q1 q1) as [Hm|Hsh]; [done|done| |by rewrite Hs'| | |by exists t|by right|left|right].
      - destruct Hsuf as [v Ev]. rewrite Ev, Hes, Ha in Hf. rewrite !length_app in Hf. cbn in Hf. lia.
      - intros Hp. apply Hpu. rewrite Hes. apply elem_of_app. by right.
      - rewrite Hes, len_app in Hlu. pose proof (len_nonneg part). lia.
      - by apply (made_step L w w1 fuel r c s e u part s' k q1).
      - apply (short_suffix L w w1 _ s'); [done| |done]. trans (e :: u); [|done]. by exists part. }
    destruct (Z.eqb_spec q 0) as [->|Hq0]; cbn [negb andb].
    + destruct (create_dir_ok L w k ok I Hok Hkd (e :: u) part s' Et) as [Hun|(p & o & h & -> & G)]; [rewrite Hes, len_app; pose proof (len_nonneg s'); lia|done| |].
      * left. destruct Hun as (h & -> & Hh & Hwhy). cbn [mbind res_bind]. apply made_unchanged; [done|done|done|]. by apply (clash_taken L w h r c s e u part (Some s') k ok).
      * pose proof (gr_valid _ _ _ _ _ _ _ _ G) as Hp. assert (p <> 0) as Hp0 by (intros ->; done). cbn [mbind res_bind]. rewrite Hp. cbn [negb].
        rewrite (kset_get_grown L w k ok part true p o h G Hp0). cbn [mbind res_bind]. apply Hrec; [by apply (grown_ok L w k ok I Hok Hkd part true)|by apply (grown_extends L w k ok Hok part true)| |done|].
        -- exists o. split; [apply lookup_insert_eq|]. by destruct (gr_obj _ _ _ _ _ _ _ _ G) as (_ & -> & _).
        -- by apply (grown_locked_scan L w k ok part true p o h).
    + apply Hrec; try done. destruct Hq as [?|(oq & ? & ?)]; [done|]. by exists oq.
  - destruct (Z.eqb_spec q 0) as [->|Hq0]; cbn [negb andb].
    2:{ left. apply made_error; [done|done|right; left]. destruct (scan_dir_spec (ko_list ok) part false w (members_exist L w k ok I Hok)) as (q0 & Es0 & Hq1). assert (q0 = q) as -> by congruence.
        destruct Hq1 as [?|(Hin' & oq & b & nm & Hoq & Hn & Hp & _)]; [done|]. by apply (taken_here w r c s e u part None k ok q oq b nm); [..|left]. }
    clear Ha. subst part.
    destruct (create_file_ok L w k ok I Hok Hkd (e :: u) Et Hpu Hlu) as [(h & -> & Hh & Hwhy)|[[Hnf Hl]|(p & o & h & -> & G)]].
    + left. cbn [mbind res_bind]. apply made_unchanged; [done|done|done|]. by apply (clash_taken L w h r c s e u (e :: u) None k ok).
    + right. split; [|exists w, (e :: u); by split_and!]. destruct Hl as [->|(p & w' & o & -> & Hp & Ho & Hnn & Hod)]; [by left|right].
      cbn [mbind res_bind]. rewrite Hp. cbn [negb]. unfold mrt_fwk_kset_get, obj. rewrite (proj2 (Z.eqb_neq p 0)), Ho by (intros ->; done). cbn [deref mbind res_bind]. rewrite Hod.
      exists p, w', o. by destruct fuel.
    + left. pose proof (gr_valid _ _ _ _ _ _ _ _ G) as Hp. assert (p <> 0) as Hp0 by (intros ->; done). cbn [mbind res_bind]. rewrite Hp. cbn [negb].
      rewrite (kset_get_grown L w k ok (e :: u) false p o h G Hp0). cbn [mbind res_bind]. exists p, (grown k ok p o h w).
      split_and!; [by destruct fuel|by apply (grown_ok L w k ok I Hok Hkd (e :: u) false)|by apply (grown_extends L w k ok Hok (e :: u) false)| |by rewrite Hp].
      intros _. split; [|intros _; by apply (grown_new_file L w k ok (e :: u))].
      rewrite (find_step fuel r c s e u (e :: u) None k p _ Eu He Et); [done|by apply (grown_locked_scan L w k ok (e :: u) false p o h)|done].
Qed.

(** Where a path starts: at the root, or in a directory. *)
Local Notation find_by_path := (fwk_find_kobject_by_path root).
Local Notation populate := (fwk_kobject_populate sizeof_kobject sizeof_kset sizeof_inode root chrfoprts blkfoprts netfoprts).
Definition origin (w : osys) (head : Z) : Prop := head = 0 \/ is_dir w head.
Definition start_of (head : Z) : Z := if head =? 0 then root else head.
Lemma origin_kset L w head : osys_ok L w -> origin w head ->
  (if negb (head =? 0) then mrt_fwk_kset_get head w else Ok root) = Ok (start_of head) /\ is_dir w (start_of head) /\ start_of head <> 0.
Proof using Hko Hks Hroot.
  intros I Ho. unfold start_of. assert (root <> 0) as Hr by (intros E; rewrite E in Hroot; done). destruct (Z.eqb_spec head 0) as [->|Hh]; [split_and!; [done|exact (oi_root _ _ I)|done]|].
  destruct Ho as [?|(o & Hk & Hd)]; [done|]. split_and!; [|by exists o|done]. unfold mrt_fwk_kset_get, obj. rewrite (proj2 (Z.eqb_neq head 0)), Hk by done. cbn. by rewrite Hd.
Qed.
Definition path_ok (head : Z) (name : text) : Prop := name <> [] /\ (start_of head = root -> exists e t, name = slash :: e :: t).
Lemma find_unfold L w head name : osys_ok L w -> origin w head -> path_ok head name ->
  find_by_path head name w = find_loop (S (length name)) (start_of head =? root) (Some name) (start_of head) w.
Proof using Hko Hks Hroot.
  intros I Ho [Hne Hp]. destruct (origin_kset L w head I Ho) as (E & _ & H0'). unfold fwk_find_kobject_by_path. rewrite E. cbn [mbind res_bind].
  rewrite (proj2 (Z.eqb_neq (start_of head) 0)), (oi_existed _ _ I) by done. cbn [orb negb]. destruct (Z.eqb_spec (start_of head) root) as [Er|]; [|done].
  destruct (Hp Er) as (e & t & ->). done.
Qed.
(** What is not such a path is the root itself or nothing. *)
Lemma find_other L w head name : osys_ok L w -> origin w head -> ~ path_ok head name ->
  find_by_path head name w = Ok (if bool_decide (name = [slash]) && (start_of head =? root) then root else nullptr, w).
Proof using Hko Hks Hroot.
  intros I Ho Hn. destruct (origin_kset L w head I Ho) as (E & _ & H0'). unfold fwk_find_kobject_by_path. rewrite E. cbn [mbind res_bind].
  rewrite (proj2 (Z.eqb_neq (start_of head) 0)), (oi_existed _ _ I) by done. cbn [orb negb]. unfold path_ok in Hn.
  destruct (Z.eqb_spec (start_of head) root) as [Er|Er]; [|destruct name; [done|exfalso; apply Hn; split; [done|congruence]]].
  destruct name as [|c name]; [done|]. destruct (Z.eqb_spec c slash) as [->|Hc]; cbn [negb].
  - destruct name as [|e t]; [by rewrite Er|]. exfalso. apply Hn. split; [done|]. intros _. by exists e, t.
  - rewrite bool_decide_false by congruence. done.
Qed.
Lemma path_ok_dec head name : path_ok head name \/ ~ path_ok head name.
Proof using Type.
  unfold path_ok. destruct name as [|c [|e t]]; [right; by intros [? _]| |].
  - destruct (decide (start_of head = root)) as [E|E]; [right|left; split; [done|by intros]]. intros [_ Hp]. by destruct (Hp E) as (? & ? & ?).
  - destruct (decide (start_of head = root)) as [E|E]; [|left; split; [done|by intros]]. destruct (decide (c = slash)) as [->|Hc]; [left; split; [done|]; intros _; by exists e, t|].
    right. intros [_ Hp]. destruct (Hp E) as (? & ? & ?). congruence.
Qed.
Lemma find_extends L w w' head name q : osys_ok L w -> osys_ok L w' -> extends w w' -> origin w head -> q <> 0 ->
  find_by_path head name w = Ok (q, w) -> find_by_path head name w' = Ok (q, w').
Proof using Hko Hks Hroot.
  intros I I' Hx Ho Hq. assert (origin w' head) as Ho' by (destruct Ho; [by left|right; by apply (extends_dir w)]).
  destruct (path_ok_dec head name) as [Hp|Hp].
  - rewrite (find_unfold L w), (find_unfold L w') by done. apply (find_loop_extends L w w'); [done..|]. exact (proj1 (proj2 (origin_kset L w head I Ho))).
  - rewrite (find_other L w), (find_other L w') by done. intros E. congruence.
Qed.

(** Paths that led to an object still lead to it. *)
Definition kept (w w' : osys) : Prop := forall from path p, origin w from -> p <> 0 -> find_by_path from path w = Ok (p, w) -> find_by_path from path w' = Ok (p, w').
Definition refused_path (L : list (Z * Z)) (w : osys) (head : Z) (name : text) : Prop :=
  start_of head = root /\ ~ (exists e t, name = slash :: e :: t) \/ refused L w (start_of head =? root) name (start_of head).
Definition populated (L : list (Z * Z)) (w : osys) (head : Z) (name : text) (result : res (Z * osys)) : Prop := exists q w',
  result = Ok (q, w') /\ osys_ok L w' /\ kept w w' /\ extends w w' /\
  (isValid q = true -> find_by_path head name w' = Ok (q, w') /\ (last name <> Some slash -> new_file w w' q)) /\ (isValid q = false -> refused_path L w' head name).
Lemma populated_error L w head name q : osys_ok L w -> isValid q = false -> refused_path L w head name -> populated L w head name (Ok (q, w)).
Proof using Type. intros I Hq Hw. exists q, w. split_and!; [done|done|by intros ? ? ?|done|by rewrite Hq|done]. Qed.
Lemma made_populated L w head name result : osys_ok L w -> origin w head -> path_ok head name ->
  made L w (S (length name)) (start_of head =? root) name (start_of head) result -> populated L w head name result.
Proof using Hko Hks Hroot.
  intros I Ho Hp (q & w' & -> & I' & Hx & Hf & Hno). exists q, w'. split_and!; [done|done| |done| |intros Hv; right; by apply Hno].
  - intros from path p Hfrom Hp0. by apply (find_extends L w w').
  - intros Hv. destruct (Hf Hv) as [Ef Hn]. split; [|done]. rewrite (find_unfold L w'); [done|done| |done]. destruct Ho; [by left|right; by apply (extends_dir w)].
Qed.

Lemma populate_ok L w head name : osys_ok L w -> origin w head -> name <> [] -> percent ∉ name -> len name <= W32 - 64 ->
  populated L w head name (populate head name w) \/ short L w name (populate head name w).
Proof using Hko Hks Hin Hroot Hstatic.
  intros I Ho Hne Hpc Hlen. destruct (origin_kset L w head I Ho) as (E & Hd & H0').
  unfold fwk_kobject_populate. rewrite (oi_existed _ _ I). cbn [negb]. rewrite E. cbn [mbind res_bind]. rewrite (proj2 (Z.eqb_neq (start_of head) 0)) by done.
  assert (path_ok head name -> populated L w head name
     (populate_loop (S (length name)) (start_of head =? root) (Some name) head (start_of head) w) \/
     short L w name (populate_loop (S (length name)) (start_of head =? root) (Some name) head (start_of head) w)) as Hgo.
  { intros Hp. destruct (populate_loop_ok L (S (length name)) w (start_of head =? root) name head (start_of head)) as [Hm|]; try done; [lia| | |left; by apply made_populated|by right].
    - intros Er%Z.eqb_eq. destruct (proj2 Hp Er) as (e & t & ->). by exists (e :: t).
    - left. destruct (Z.eqb_spec (start_of head) root) as [Er|]; [|done]. by destruct (proj2 Hp Er) as (e & t & ->). }
  destruct (Z.eqb_spec (start_of head) root) as [Er|Er]; [|apply Hgo; split; [done|congruence]].
  destruct name as [|c [|e t]]; [done|left; destruct (c =? slash); cbn [negb]; (apply populated_error; [done|done|left; split; [done|by intros (? & ? & ?)]])|].
  destruct (Z.eqb_spec c slash) as [->|Hc]; cbn [negb]; [|left; apply populated_error; [done|done|left; split; [done|intros (? & ? & ?); congruence]]]. apply Hgo. split; [done|]. intros _. by exists e, t.
Qed.

End tree.

(** ** A tree of two levels *)
Lemma root_init_ok {H : Type} `{KernelHeap H} sizeof_kobject sizeof_kset sizeof_inode root L k ex : isValid root = true -> cpu_ok (ks_cpu k) -> heap_inv (ks_heap k) L -> exists w',
  fwk_kobject_root_init root (OSys k {[root := zero_obj]} ∅ ∅ ex) = Ok (ER_NORMAL, w') /\ osys_ok sizeof_kobject sizeof_kset sizeof_inode root L w'.
Proof.
  intros Hr Hc Hh. set (w0 := OSys k ∅ ∅ ∅ ex).
  replace (OSys k {[root := zero_obj]} ∅ ∅ ex) with (cand ∅ root zero_obj (ks_heap k) w0) by (by destruct k).
  unfold fwk_kobject_root_init, fwk_kset_init. rewrite upd_cand. cbn [mbind res_bind]. rewrite init_cand, lookup_empty. cbn [default mbind res_bind].
  change (spin_lock_init (Lock 0 0)) with (Lock 0 0).
  destruct (set_name_cand (<[root := Lock 0 0]> ∅) root (set_okset nullptr (set_odir false (set_oref 0 (set_olist [] zero_obj)))) (ks_heap k) [slash] L w0 eq_refl Hc Hh ltac:(rewrite len_cons, len_nil; unfold W32; lia))
    as (b & h & _ & Hcase).
  assert (forall h o, heap_inv h (name_block o ++ L) -> ko_dir o = true -> ko_list o = [] ->
    osys_ok sizeof_kobject sizeof_kset sizeof_inode root L (OSys (set_kheap h k) (<[root := o]> ∅) (<[root := Lock 0 0]> ∅) ∅ true)) as Hok.
  { intros h1 o Hh1 Hd Hl. split; try done.
    - cbn. eapply heap_inv_perm; [|exact Hh1]. unfold oblocks. cbn. rewrite entry_blocks_insert by done. unfold obj_block. cbn. rewrite bool_decide_true by done. by rewrite !entry_blocks_empty, !app_nil_r.
    - exists o. split; [apply lookup_insert_eq|done].
    - intros p [op Hp]. cbn in Hp. destruct (decide (p = root)) as [->|Hne]; [eexists; split; [apply lookup_insert_eq|done]|]. by rewrite lookup_insert_ne in Hp.
    - intros p Hp. cbn in Hp |- *. destruct (decide (p = root)) as [->|Hne]; [by rewrite lookup_insert_eq in Hp|]. by rewrite lookup_insert_ne.
    - intros p op Hp. cbn in Hp. destruct (decide (p = root)) as [->|Hne]; [|by rewrite lookup_insert_ne in Hp]. rewrite lookup_insert_eq in Hp. injection Hp as <-. rewrite Hl.
      split; [constructor|]. intros c Hcm. by apply not_elem_of_nil in Hcm. }
  destruct Hcase as [(_ & Hh' & ->)|(_ & Hh' & ->)]; cbn [mbind res_bind]; rewrite upd_cand; cbn [mbind res_bind]; eexists; (split; [done|]); by apply Hok.
Qed.

Definition demo_ks : ksys := KSys demo_kheap (Cpu 0 0) 0 0 ∅.
Definition demo_root : Z := 8192.
Definition demo_osys : osys := OSys demo_ks {[demo_root := zero_obj]} ∅ ∅ false.
Lemma demo_root_static : heap_static demo_root 56.
Proof. apply demo_heap_static; unfold demo_root; lia. Qed.
(** A test for results that are not [lost]. *)
Definition named_result {H : Type} (r : res (Z * osys (H := H))) : bool :=
  match r with
  | Ok (p, w) => isValid p && match os_objs w !! p with Some o => match ko_name o with Some _ => true | None => false end | None => false end
  | _ => false
  end.
Lemma named_not_lost {H : Type} (r : res (Z * osys (H := H))) : named_result r = true -> ~ lost r.
Proof. intros Hr [->|(p & w & o & -> & _ & Ho & Hn & _)]; [done|]. cbn in Hr. rewrite Ho, Hn, andb_false_r in Hr. done. Qed.
Lemma named_valid {H : Type} q (w : osys (H := H)) : named_result (Ok (q, w)) = true -> isValid q = true.
Proof. cbn. by intros [? _]%andb_true_iff. Qed.

Definition demo_path : text := [47; 100; 101; 118; 47; 108; 101; 100].   (* /dev/led *)
