(* ===== verification/Files.v ===== *)
(** * Open files (platform/fwk_fcntl.c, fwk_fs.c, the default operations of fwk_inode.c)

    A descriptor is an index of the table of open files; a file has the operations of
    its inode, which for a character device are replaced by those of the device that
    serves its number.

    The operations of drivers are functions on a state [D] of their own; [drv]
    gives the table of operations at an address.  The network stack behind
    descriptors from [NETWORK_SOCKETS_BASE] on is a parameter too.  The extension of the
    table is the array of words in its block, which [kcalloc] does not clear. *)

From stdpp Require Import prelude gmap fin_maps sorting.
From S2P Require Import Prelude Mem Bytes MemPool Sync KMalloc KMallocSpec HeapContract Chrdev ChrdevSpec KobjMap Kobj.

Definition FILE_DESC_NUM_MAX : Z := 32.
Definition FILE_DESC_EXP_NUM : Z := 128.
Definition NETWORK_SOCKETS_BASE : Z := FILE_DESC_NUM_MAX + FILE_DESC_EXP_NUM.
Definition DEVICE_MAJOR_BASE : Z := 3.
Definition FILE_DESC_OVER_BASE (fd : Z) : bool := fd <? DEVICE_MAJOR_BASE.
Definition O_RDONLY : Z := 1.
Definition O_WRONLY : Z := 2.
Definition O_RDWR : Z := 3.

Record fwk_file := File { fl_mode : Z; fl_inode : Z; fl_foprts : Z }.
Record fwk_vm_area := VmArea { vm_virt_addr : Z; vm_size : Z; vm_offset : Z }.
Record file_oprts {D : Type} := FileOprts {
  fo_open : option (Z -> Z -> D -> Z * D);
  fo_close : option (Z -> Z -> D -> Z * D);
  fo_write : option (Z -> Z -> Z -> D -> Z * D);
  fo_read : option (Z -> Z -> Z -> D -> Z * D);
  fo_ioctl : option (Z -> Z -> Z -> D -> Z * D);
  fo_mmap : option (Z -> fwk_vm_area -> D -> Z * fwk_vm_area * D);
}.
#[global] Arguments file_oprts : clear implicits.

Record fwk_file_table := FileTable {
  max_fdarr : Z; max_fds : Z; max_fdset : Z; ref_fdarr : Z;
  fds : Z; fds_words : list Z;                           (* the pointer, and what is in its block *)
  fd_array : list Z; tb_mutex : Z;
}.
Definition set_fdset v t := FileTable (max_fdarr t) (max_fds t) v (ref_fdarr t) (fds t) (fds_words t) (fd_array t) (tb_mutex t).
Definition set_ref v t := FileTable (max_fdarr t) (max_fds t) (max_fdset t) v (fds t) (fds_words t) (fd_array t) (tb_mutex t).
Definition set_fds n p l t := FileTable (max_fdarr t) n (max_fdset t) (ref_fdarr t) p l (fd_array t) (tb_mutex t).
Definition set_array l t := FileTable (max_fdarr t) (max_fds t) (max_fdset t) (ref_fdarr t) (fds t) (fds_words t) l (tb_mutex t).
Definition set_mutex m t := FileTable (max_fdarr t) (max_fds t) (max_fdset t) (ref_fdarr t) (fds t) (fds_words t) (fd_array t) m.

Definition fwk_get_fd_available (t : fwk_file_table) : Z := if ref_fdarr t <? max_fdarr t then ref_fdarr t else -1.
Definition fwk_fdtable_get (t : fwk_file_table) : fwk_file_table := set_ref (if ref_fdarr t <? max_fdarr t then ref_fdarr t + 1 else max_fdarr t) t.
Definition fwk_fdtable_put (t : fwk_file_table) : fwk_file_table := set_ref (if DEVICE_MAJOR_BASE <? ref_fdarr t then ref_fdarr t - 1 else DEVICE_MAJOR_BASE) t.

(** The table as it is linked, and its start with the three standard files. *)
Definition sgrt_fwk_file_table : fwk_file_table :=
  FileTable 0 FILE_DESC_NUM_MAX (-1) 0 nullptr [] (replicate (Z.to_nat FILE_DESC_NUM_MAX) nullptr) 0.
Definition fwk_file_system_init (stdio : list Z) (t : fwk_file_table) : Z * fwk_file_table :=
  let num_farray := Z.of_nat (length (fd_array t)) in
  let fds_max := if max_fds t =? 0 then num_farray else max_fds t in
  let fdarr := if fds_max <? num_farray then fds_max else num_farray in
  let n := Z.of_nat (length stdio) in
  if fdarr <? n then (- ER_MORE, FileTable fdarr fds_max (max_fdset t) (ref_fdarr t) (fds t) (fds_words t) (fd_array t) (tb_mutex t))
  else
    (ER_NORMAL, FileTable fdarr fdarr (if 0 <? n then n - 1 else max_fdset t) n (fds t) (fds_words t) (stdio ++ drop (length stdio) (fd_array t)) (mutex_init (tb_mutex t))).

Section files.
Context {H : Type} `{KernelHeap H} {D : Type}.
Context (sizeof_file root chrfoprts blkfoprts netfoprts : Z) (drv : Z -> option (file_oprts D)).
Context (network_close : Z -> D -> D) (fwk_netif_ioctl : Z -> Z -> D -> Z * D).
(** Whether a thread is running, for mutexes. *)
Context (current : bool).

Record fsys := FSys {
  fs_o : osys (H := H); fs_cdevs : gmap Z fwk_cdev;
  fs_blks : gmap Z Z;                                    (* the inode of a block device *)
  fs_files : gmap Z fwk_file; fs_table : fwk_file_table; fs_drv : D;
}.
Definition fput_o o w := FSys o (fs_cdevs w) (fs_blks w) (fs_files w) (fs_table w) (fs_drv w).
Definition fput_blks b w := FSys (fs_o w) (fs_cdevs w) b (fs_files w) (fs_table w) (fs_drv w).
Definition fput_files m w := FSys (fs_o w) (fs_cdevs w) (fs_blks w) m (fs_table w) (fs_drv w).
Definition fput_table t w := FSys (fs_o w) (fs_cdevs w) (fs_blks w) (fs_files w) t (fs_drv w).
Definition fput_drv d w := FSys (fs_o w) (fs_cdevs w) (fs_blks w) (fs_files w) (fs_table w) d.
Definition upd_inode (f : fwk_inode -> fwk_inode) (i : Z) (w : fsys) : res fsys :=
  n ← deref (os_inodes (fs_o w) !! i); Ok (fput_o (oput_inodes (<[i := f n]> (os_inodes (fs_o w))) (fs_o w)) w).
(** A call through an operation of a driver. *)
Definition call2 (op : option (Z -> Z -> D -> Z * D)) (a b : Z) (w : fsys) : Z * fsys :=
  match op with Some f => let '(r, d) := f a b (fs_drv w) in (r, fput_drv d w) | None => (ER_NORMAL, w) end.

(** ** Operations of inodes *)
Definition fwk_chrdev_open (sprt_inode sprt_file : Z) (w : fsys) : res (Z * fsys) :=
  i ← deref (os_inodes (fs_o w) !! sprt_inode);
  sprt_cdev ← fwk_kobjmap_lookup (ks_chrdev_map (os_k (fs_o w))) (in_rdev i) (os_k (fs_o w));
  if negb (isValid sprt_cdev) then Ok (- ER_UNVALID, w)
  else
    w ← upd_inode (set_inode_dev sprt_cdev) sprt_inode w;
    c ← deref (fs_cdevs w !! sprt_cdev);
    f ← deref (fs_files w !! sprt_file);
    let w := fput_files (<[sprt_file := File (fl_mode f) (fl_inode f) (cv_oprts c)]> (fs_files w)) w in
    ops ← deref (drv (cv_oprts c));
    Ok (call2 (fo_open ops) sprt_inode sprt_file w).
Definition fwk_chrdev_close (sprt_inode : Z) (w : fsys) : res (Z * fsys) := w ← upd_inode (set_inode_dev nullptr) sprt_inode w; Ok (ER_NORMAL, w).
Definition fwk_blkdev_open (sprt_inode : Z) (w : fsys) : res (Z * fsys) :=
  i ← deref (os_inodes (fs_o w) !! sprt_inode);
  sprt_blkdev ← fwk_kobjmap_lookup (ks_blkdev_map (os_k (fs_o w))) (in_rdev i) (os_k (fs_o w));
  if negb (isValid sprt_blkdev) then Ok (- ER_UNVALID, w)
  else
    w ← upd_inode (set_inode_dev sprt_blkdev) sprt_inode w;
    _ ← deref (fs_blks w !! sprt_blkdev);
    Ok (ER_NORMAL, fput_blks (<[sprt_blkdev := sprt_inode]> (fs_blks w)) w).
Definition fwk_blkdev_close (sprt_inode : Z) (w : fsys) : res (Z * fsys) :=
  i ← deref (os_inodes (fs_o w) !! sprt_inode);
  _ ← deref (fs_blks w !! in_dev i);
  w ← upd_inode (set_inode_dev nullptr) sprt_inode (fput_blks (<[in_dev i := nullptr]> (fs_blks w)) w);
  Ok (ER_NORMAL, w).
(** [foprts->open] and [foprts->close] for any table of operations. *)
Definition call_open (foprts sprt_inode sprt_file : Z) (w : fsys) : res (Z * fsys) :=
  if foprts =? chrfoprts then fwk_chrdev_open sprt_inode sprt_file w
  else if foprts =? blkfoprts then fwk_blkdev_open sprt_inode w
  else if foprts =? netfoprts then Ok (ER_NORMAL, w)
  else ops ← deref (drv foprts); Ok (call2 (fo_open ops) sprt_inode sprt_file w).
Definition call_close (foprts sprt_inode sprt_file : Z) (w : fsys) : res (Z * fsys) :=
  if foprts =? chrfoprts then fwk_chrdev_close sprt_inode w
  else if foprts =? blkfoprts then fwk_blkdev_close sprt_inode w
  else if foprts =? netfoprts then Ok (ER_NORMAL, w)
  else ops ← deref (drv foprts); Ok (call2 (fo_close ops) sprt_inode sprt_file w).

(** ** Files *)
Definition fwk_do_filp_open (name : text) (mode : Z) (w : fsys) : res (Z * fsys) :=
  '(sprt_inode, o) ← fwk_inode_find root name (fs_o w);
  let w := fput_o o w in
  if negb (isValid sprt_inode) then Ok (nullptr, w)
  else
    '(sprt_file, o) ← o_kzalloc sizeof_file (fs_o w);
    let w := fput_o o w in
    if negb (isValid sprt_file) then Ok (nullptr, w)
    else
      i ← deref (os_inodes (fs_o w) !! sprt_inode);
      let w := fput_files (<[sprt_file := File mode sprt_inode (in_foprts i)]> (fs_files w)) w in
      '(retval, w) ← call_open (in_foprts i) sprt_inode sprt_file w;
      if negb (retval =? 0) then
        o ← o_kfree sprt_file (fs_o w);
        Ok (nullptr, fput_o o (fput_files (delete sprt_file (fs_files w)) w))
      else Ok (sprt_file, w).
Definition fwk_do_filp_close (sprt_file : Z) (w : fsys) : res fsys :=
  if negb (isValid sprt_file) then Ok w
  else
    f ← deref (fs_files w !! sprt_file);
    '(_, w) ← call_close (fl_foprts f) (fl_inode f) sprt_file w;
    i ← deref (os_inodes (fs_o w) !! fl_inode f);
    '(_, w) ← call_close (in_foprts i) (fl_inode f) sprt_file w;
    o ← o_kfree sprt_file (fs_o w);
    Ok (fput_o o (fput_files (delete sprt_file (fs_files w)) w)).

(** ** Descriptors *)
Definition t_lock (w : fsys) : res fsys := m ← mutex_lock current (tb_mutex (fs_table w)); Ok (fput_table (set_mutex m (fs_table w)) w).
Definition t_unlock (w : fsys) : fsys := fput_table (set_mutex (mutex_unlock current (tb_mutex (fs_table w))) (fs_table w)) w.

(** The first empty entry below [n]; reading behind the end is a fault. *)
Fixpoint first_empty (n : nat) (index : Z) (l : list Z) : res (option Z) :=
  match n with
  | O => Ok None
  | S n => e ← deref (l !! Z.to_nat index); if e =? 0 then Ok (Some index) else first_empty n (index + 1) l
  end.
Definition fwk_get_expand_fdtable (w : fsys) : res (Z * fsys) :=
  w ← (if negb (isValid (fds (fs_table w))) then
           '(q, o) ← o_kmalloc (u32 (sizeof_file * FILE_DESC_EXP_NUM)) (fs_o w);
           let words := if isValid q then (fun i => ld32 (heap_read (ks_heap (os_k o))) (q + 4 * i)) <$> seqZ 0 FILE_DESC_EXP_NUM else [] in
           Ok (fput_table (set_fds (max_fds (fs_table w)) q words (fs_table w)) (fput_o o w))
         else Ok w);
  let t := fs_table w in
  if negb (isValid (fds t)) then Ok (- ER_ERROR, w)
  else
    found ← first_empty (Z.to_nat FILE_DESC_EXP_NUM) 0 (fds_words t);
    match found with
    | None => Ok (- ER_ERROR, w)
    | Some index =>
        let index := index + max_fdarr t in
        let t := set_fdset (if index <? max_fdset t then max_fdset t else index) t in
        Ok (index, fput_table (set_fds (max_fdarr t + FILE_DESC_EXP_NUM) (fds t) (fds_words t) t) w)
    end.
Definition fwk_put_expand_fdtable (fd : Z) (w : fsys) : res fsys :=
  let t := fs_table w in
  if negb (isValid (fds t)) || (fd <? max_fdarr t) then Ok w
  else
    let index := fd - max_fdarr t in
    _ ← deref (fds_words t !! Z.to_nat index);
    let t := set_fds (max_fds t) (fds t) (<[Z.to_nat index := nullptr]> (fds_words t)) t in
    let t := set_fdset (if fd <? max_fdset t then max_fdset t else fd - 1) t in
    if index =? 0 then
      o ← o_kfree (fds t) (fs_o w);
      Ok (fput_table (set_fds (max_fdarr t) nullptr [] t) (fput_o o w))
    else Ok (fput_table t w).
Definition fwk_get_unused_fd_flags (w : fsys) : res (Z * fsys) :=
  if fwk_get_fd_available (fs_table w) <? 0 then
    '(index, w) ← fwk_get_expand_fdtable w; Ok (index, t_unlock w)
  else
    w ← t_lock w;
    let t := fs_table w in
    let fdget index w := Ok (index, t_unlock (fput_table (fwk_fdtable_get (fs_table w)) w)) in
    if max_fdset t + 1 <? max_fdarr t then fdget (max_fdset t + 1) (fput_table (set_fdset (max_fdset t + 1) t) w)
    else
      found ← first_empty (Z.to_nat (max_fdset t)) 0 (fd_array t);
      match found with Some index => fdget index w | None => Ok (- ER_MORE, t_unlock w) end.
Definition fwk_put_used_fd_flags (fd : Z) (w : fsys) : res fsys :=
  if FILE_DESC_OVER_BASE fd then Ok w
  else if max_fdarr (fs_table w) <=? fd then
    w ← t_lock w; w ← fwk_put_expand_fdtable fd w; Ok (t_unlock w)
  else
    w ← t_lock w;
    let t := fs_table w in
    _ ← deref (fd_array t !! Z.to_nat fd);
    let t := set_array (<[Z.to_nat fd := nullptr]> (fd_array t)) t in
    let t := set_fdset (if fd <? max_fdset t then max_fdset t else fd - 1) t in
    Ok (t_unlock (fput_table (fwk_fdtable_put t) w)).
Definition fwk_fd_install (fd sprt_file : Z) (w : fsys) : res (Z * fsys) :=
  if FILE_DESC_OVER_BASE fd || negb (isValid sprt_file) then Ok (- ER_UNVALID, w)
  else
    let t := fs_table w in
    let ext := max_fdarr t <=? fd in
    let index := Z.to_nat (if ext then fd - max_fdarr t else fd) in
    e ← deref ((if ext then fds_words t else fd_array t) !! index);
    if negb (e =? 0) then Ok (- ER_UNVALID, w)
    else
      w ← t_lock w;
      let t := fs_table w in
      let t := if ext then set_fds (max_fds t) (fds t) (<[index := sprt_file]> (fds_words t)) t else set_array (<[index := sprt_file]> (fd_array t)) t in
      Ok (ER_NORMAL, t_unlock (fput_table t w)).
Definition fwk_fd_to_file (fd : Z) (w : fsys) : res Z :=
  if FILE_DESC_OVER_BASE fd then Ok nullptr
  else
    let t := fs_table w in
    if max_fdarr t <=? fd then deref (fds_words t !! Z.to_nat (fd - max_fdarr t)) else deref (fd_array t !! Z.to_nat fd).

Definition fwk_do_open (dev : text) (mode : Z) (w : fsys) : res (Z * fsys) :=
  '(fd, w) ← fwk_get_unused_fd_flags w;
  if fd <? 0 then Ok (- ER_FAULT, w)
  else
    '(sprt_file, w) ← fwk_do_filp_open dev mode w;
    if negb (isValid sprt_file) then w ← fwk_put_used_fd_flags fd w; Ok (- ER_FAULT, w)
    else
      '(retval, w) ← fwk_fd_install fd sprt_file w;
      if negb (retval =? 0) then
        w ← fwk_do_filp_close sprt_file w;
        w ← fwk_put_used_fd_flags fd w;
        Ok (- ER_FAULT, w)
      else Ok (fd, w).
Definition fwk_do_close (fd : Z) (w : fsys) : res fsys :=
  sprt_file ← fwk_fd_to_file fd w;
  if negb (isValid sprt_file) then Ok w
  else w ← fwk_do_filp_close sprt_file w; fwk_put_used_fd_flags fd w.
(** The table of operations of an open file; the default ones have neither read nor
    write, ioctl or mmap. *)
Definition file_ops (foprts : Z) : res (file_oprts D) :=
  if (foprts =? chrfoprts) || (foprts =? blkfoprts) || (foprts =? netfoprts) then Ok (FileOprts _ None None None None None None) else deref (drv foprts).
Definition fwk_do_write (fd buf size : Z) (w : fsys) : res (Z * fsys) :=
  if fd <? 0 then Ok (- ER_ERROR, w)
  else
    sprt_file ← fwk_fd_to_file fd w;
    if negb (isValid sprt_file) then Ok (- ER_ERROR, w)
    else
      f ← deref (fs_files w !! sprt_file);
      if negb (Z.land (fl_mode f) O_WRONLY =? O_WRONLY) then Ok (- ER_FORBID, w)
      else
        ops ← file_ops (fl_foprts f);
        match fo_write ops with
        | Some write => let '(retval, d) := write sprt_file buf size (fs_drv w) in Ok (if retval =? 0 then s32 size else - ER_ERROR, fput_drv d w)
        | None => Ok (- ER_ERROR, w)
        end.
Definition fwk_do_read (fd buf size : Z) (w : fsys) : res (Z * fsys) :=
  if fd <? 0 then Ok (- ER_ERROR, w)
  else
    sprt_file ← fwk_fd_to_file fd w;
    if negb (isValid sprt_file) then Ok (- ER_ERROR, w)
    else
      f ← deref (fs_files w !! sprt_file);
      if negb (Z.land (fl_mode f) O_RDONLY =? O_RDONLY) then Ok (- ER_FORBID, w)
      else
        ops ← file_ops (fl_foprts f);
        match fo_read ops with
        | Some read =>
            let '(retval, d) := read sprt_file buf size (fs_drv w) in
            Ok (if retval =? 0 then s32 size else if 0 <? retval then retval else - ER_ERROR, fput_drv d w)
        | None => Ok (- ER_ERROR, w)
        end.
Definition fwk_do_ioctl (fd request args : Z) (w : fsys) : res (Z * fsys) :=
  if fd <? 0 then Ok (- ER_ERROR, w)
  else
    sprt_file ← fwk_fd_to_file fd w;
    if negb (isValid sprt_file) then Ok (- ER_ERROR, w)
    else
      f ← deref (fs_files w !! sprt_file);
      ops ← file_ops (fl_foprts f);
      match fo_ioctl ops with
      | Some ioctl => let '(retval, d) := ioctl sprt_file request args (fs_drv w) in Ok (if retval =? 0 then ER_NORMAL else - ER_ERROR, fput_drv d w)
      | None => Ok (- ER_ERROR, w)
      end.
(** [vm] is the area on the stack, of which only the offset is set. *)
Definition fwk_do_mmap (vm : fwk_vm_area) (addr length fd offset : Z) (w : fsys) : res (Z * fsys) :=
  if fd <? 0 then Ok (nullptr, w)
  else
    sprt_file ← fwk_fd_to_file fd w;
    if negb (isValid sprt_file) then Ok (nullptr, w)
    else
      f ← deref (fs_files w !! sprt_file);
      ops ← file_ops (fl_foprts f);
      let vm := VmArea (vm_virt_addr vm) (vm_size vm) offset in
      let '(retval, vm, w) :=
        match fo_mmap ops with
        | Some mmap => let '(r, vm, d) := mmap sprt_file vm (fs_drv w) in (r, vm, fput_drv d w)
        | None => (ER_NORMAL, vm, w)
        end in
      Ok (if negb (retval =? 0) then nullptr else if vm_size vm <? length then nullptr else if negb (isValid addr) then vm_virt_addr vm else nullptr, w).

Definition virt_open (dev : text) (mode : Z) (w : fsys) : res (Z * fsys) := fwk_do_open dev mode w.
Definition virt_close (fd : Z) (w : fsys) : res fsys :=
  let w := if NETWORK_SOCKETS_BASE <=? fd then fput_drv (network_close fd (fs_drv w)) w else w in
  fwk_do_close fd w.
Definition virt_write (fd buf size : Z) (w : fsys) : res (Z * fsys) := if NETWORK_SOCKETS_BASE <=? fd then Ok (ER_NORMAL, w) else fwk_do_write fd buf size w.
Definition virt_read (fd buf size : Z) (w : fsys) : res (Z * fsys) := if NETWORK_SOCKETS_BASE <=? fd then Ok (ER_NORMAL, w) else fwk_do_read fd buf size w.
Definition virt_ioctl (fd request args : Z) (w : fsys) : res (Z * fsys) :=
  if NETWORK_SOCKETS_BASE <=? fd then let '(r, d) := fwk_netif_ioctl request args (fs_drv w) in Ok (r, fput_drv d w)
  else fwk_do_ioctl fd request args w.
Definition virt_mmap (vm : fwk_vm_area) (addr length fd offset : Z) (w : fsys) : res (Z * fsys) := fwk_do_mmap vm addr length fd offset w.
End files.
