(* ===== verification/FilesSpec.v ===== *)
(** * Descriptors lead to the driver of the device that was opened

    [table_ok] is the invariant of the table while the extension is not in use;
    [fsys_ok] adds the open files and their blocks to the tree of objects. *)

From stdpp Require Import prelude gmap fin_maps sorting.
From S2P Require Import Prelude Mem Bytes MemPool Sync KMalloc KMallocSpec HeapContract Chrdev ChrdevSpec KobjMap Kobj KobjSpec Files.

(** ** The table *)
Definition used (l : list Z) : list Z := filter (fun e => e <> 0) l.
#[local] Arguments used : simpl never.
Record table_ok (t : fwk_file_table) : Prop := {
  tk_size : max_fdarr t = 32 /\ length (fd_array t) = 32%nat;
  tk_std : forall k, 0 <= k < 3 -> exists e, fd_array t !! Z.to_nat k = Some e /\ e <> 0;
  tk_ref : ref_fdarr t = Z.of_nat (length (used (fd_array t)));
  tk_max : 2 <= max_fdset t < 32;
  tk_above : forall k, max_fdset t < k < 32 -> fd_array t !! Z.to_nat k = Some 0;
  tk_top : max_fdset t = 31 -> exists e, fd_array t !! 31%nat = Some e /\ e <> 0;
  tk_mutex : tb_mutex t = 0;
}.

Lemma used_app l k : used (l ++ k) = used l ++ used k.
Proof. apply filter_app. Qed.
Lemma used_insert (l : list Z) (i : nat) (e f : Z) : l !! i = Some e -> length (used (<[i := f]> l)) = (length (used l) - (if decide (e = 0%Z) then 0 else 1) + (if decide (f = 0%Z) then 0 else 1))%nat.
Proof.
  intros Hi. rewrite <- (take_drop_middle l i e Hi) at 2. rewrite insert_take_drop by (by apply lookup_lt_Some in Hi). rewrite !used_app, !length_app.
  unfold used. rewrite !filter_cons. destruct (decide (e = 0)) as [->|]; destruct (decide (f = 0)) as [->|]; repeat case_decide; try done; cbn; lia.
Qed.
Lemma used_full l : (forall i e, l !! i = Some e -> e <> 0) -> length (used l) = length l.
Proof.
  intros Hl. unfold used. rewrite list_filter_all; [done|]. apply Forall_forall. intros e He. apply list_elem_of_lookup in He as [i Hi]. by apply (Hl i).
Qed.
Lemma first_empty_spec l n : forall i, 0 <= i -> (Z.to_nat i + n <= length l)%nat ->
  (exists k, first_empty n i l = Ok (Some k) /\ i <= k < i + Z.of_nat n /\ l !! Z.to_nat k = Some 0) \/
  first_empty n i l = Ok None /\ forall k, i <= k < i + Z.of_nat n -> exists e, l !! Z.to_nat k = Some e /\ e <> 0.
Proof.
  induction n as [|n IH]; intros i Hi Hn; cbn [first_empty]; [right; split; [done|lia]|].
  destruct (lookup_lt_is_Some_2 l (Z.to_nat i)) as [e He]; [lia|]. rewrite He. cbn [deref mbind res_bind]. destruct (Z.eqb_spec e 0) as [->|Hne].
  - left. exists i. split_and!; [done|lia..|done].
  - destruct (IH (i + 1)) as [(k & E & Hk & Hz)|[E Hall]]; [lia|lia|left; exists k; split_and!; [done|lia..|done]|right; split; [done|]].
    intros k Hk. destruct (decide (k = i)) as [->|]; [by exists e|apply Hall; lia].
Qed.

(** What [fwk_get_unused_fd_flags] leaves behind for a descriptor. *)
Definition reserve (fd : Z) (t : fwk_file_table) : fwk_file_table := set_ref (ref_fdarr t + 1) (set_fdset (Z.max (max_fdset t) fd) t).
Definition entered (fd f : Z) (t : fwk_file_table) : fwk_file_table := set_array (<[Z.to_nat fd := f]> (fd_array t)) (reserve fd t).
Definition vacated (fd : Z) (t : fwk_file_table) : fwk_file_table :=
  set_ref (ref_fdarr t - 1) (set_fdset (if fd <? max_fdset t then max_fdset t else fd - 1) (set_array (<[Z.to_nat fd := 0]> (fd_array t)) t)).
(** The descriptor the code picks is free and above the standard ones. *)
Definition free_fd (fd : Z) (t : fwk_file_table) : Prop :=
  3 <= fd < 32 /\ fd_array t !! Z.to_nat fd = Some 0 /\ (fd = max_fdset t + 1 \/ max_fdset t = 31 /\ fd < 31).

Lemma entered_ok fd f t : table_ok t -> free_fd fd t -> f <> 0 -> table_ok (entered fd f t).
Proof.
  intros T (Hfd & Hz & Hpick) Hf. destruct (tk_size _ T) as [Hs Hl]. split; cbn.
  - by rewrite length_insert.
  - intros k Hk. rewrite list_lookup_insert_ne by lia. by apply (tk_std _ T).
  - rewrite (used_insert _ _ 0 f Hz), (tk_ref _ T). destruct (decide (0 = 0)); [|done]. destruct (decide (f = 0)); [done|]. lia.
  - pose proof (tk_max _ T). lia.
  - intros k Hk. rewrite list_lookup_insert_ne by lia. apply (tk_above _ T). lia.
  - intros Hm. destruct (decide (fd = 31)) as [->|Hne]; [exists f; split; [|done]; apply list_lookup_insert_eq; lia|].
    rewrite list_lookup_insert_ne by lia. apply (tk_top _ T). pose proof (tk_max _ T). lia.
  - exact (tk_mutex _ T).
Qed.
Lemma vacated_ok fd e t : table_ok t -> 3 <= fd < 32 -> fd_array t !! Z.to_nat fd = Some e -> e <> 0 -> table_ok (vacated fd t).
Proof.
  intros T Hfd He Hne. destruct (tk_size _ T) as [Hs Hl]. pose proof (tk_max _ T) as Hm.
  assert (fd <= max_fdset t) as Hle by (destruct (Z.le_gt_cases fd (max_fdset t)); [done|]; rewrite (tk_above _ T fd) in He by lia; congruence). split; cbn.
  - by rewrite length_insert.
  - intros k Hk. rewrite list_lookup_insert_ne by lia. by apply (tk_std _ T).
  - rewrite (used_insert _ _ e 0 He), (tk_ref _ T). destruct (decide (0 = 0)); [|done]. destruct (decide (e = 0)); [done|].
    assert (0 < length (used (fd_array t)))%nat; [|lia]. destruct (used (fd_array t)) eqn:E; [|cbn; lia]. exfalso.
    assert (e ∈ used (fd_array t)) as Hin by (apply list_elem_of_filter; split; [done|by apply list_elem_of_lookup_2 in He]). rewrite E in Hin. by apply not_elem_of_nil in Hin.
  - destruct (Z.ltb_spec fd (max_fdset t)); lia.
  - intros k Hk. destruct (decide (k = fd)) as [->|]; [apply list_lookup_insert_eq; lia|]. rewrite list_lookup_insert_ne by lia. apply (tk_above _ T).
    destruct (Z.ltb_spec fd (max_fdset t)); lia.
  - intros Hm31. assert (fd < 31 /\ max_fdset t = 31) as [? ?] by (destruct (Z.ltb_spec fd (max_fdset t)); lia).
    rewrite list_lookup_insert_ne by lia. by apply (tk_top _ T).
  - exact (tk_mutex _ T).
Qed.
(** Closing at once gives the table back. *)
Lemma vacated_entered fd f t : table_ok t -> free_fd fd t -> vacated fd (entered fd f t) = t.
Proof.
  intros T (Hfd & Hz & Hpick). unfold vacated, entered, reserve. destruct t as [a b c r p l arr m]; cbn in *. rewrite list_insert_insert_eq, list_insert_id by done.
  pose proof (tk_max _ T) as Hm. cbn in Hm. rewrite Z.add_simpl_r. unfold set_ref, set_fdset, set_array. cbn. f_equal. destruct (Z.ltb_spec fd (Z.max c fd)); lia.
Qed.

Lemma vacated_reserve fd t : table_ok t -> free_fd fd t -> vacated fd (reserve fd t) = t.
Proof.
  intros T F. rewrite <- (vacated_entered fd 0 t T F) at 2. unfold entered. destruct F as (_ & Hz & _). rewrite list_insert_id by done. by destruct t.
Qed.
Lemma ref_std t : table_ok t -> 3 <= ref_fdarr t.
Proof.
  intros T. destruct (tk_size _ T) as [_ Hl]. rewrite (tk_ref _ T). rewrite <- (take_drop 3 (fd_array t)), used_app, length_app, used_full.
  - rewrite length_take. lia.
  - intros i e [He Hi]%lookup_take_Some. destruct (tk_std _ T (Z.of_nat i)) as (e' & He' & ?); [lia|]. rewrite Nat2Z.id in He'. congruence.
Qed.

Section files.
Context {H : Type} `{KernelHeap H} {D : Type}.
Context (sizeof_kobject sizeof_kset sizeof_inode sizeof_file root chrfoprts blkfoprts netfoprts : Z) (drv : Z -> option (file_oprts D)).
Context (network_close : Z -> D -> D) (current : bool).
Local Notation fsys := (fsys (H := H) (D := D)).

(** ** Descriptors *)
Lemma set_mutex_id t m : set_mutex (tb_mutex t) (set_mutex m t) = t.
Proof using Type. by destruct t. Qed.
Lemma fput_table_same (w : fsys) : fput_table (fs_table w) w = w.
Proof using Type. by destruct w. Qed.
(** A step on the table between taking and releasing its mutex. *)
Lemma locked_step (w : fsys) (f : fwk_file_table -> fwk_file_table) : tb_mutex (fs_table w) = 0 -> (forall m t, f (set_mutex m t) = set_mutex m (f t)) ->
  (forall t, tb_mutex (f t) = tb_mutex t) -> exists w1, t_lock current w = Ok w1 /\ (exists m, w1 = fput_table (set_mutex m (fs_table w)) w) /\
  t_unlock current (fput_table (f (fs_table w1)) w1) = fput_table (f (fs_table w)) w /\ t_unlock current w1 = w.
Proof using Type.
  intros Hm Hf Ht. unfold t_lock, t_unlock. rewrite Hm. destruct (mutex_cycle current) as (l & -> & Eu). cbn [mbind res_bind]. eexists. split; [done|]. split; [by exists l|]. split.
  - cbn [fput_table fs_table]. rewrite Hf. cbn [tb_mutex set_mutex]. rewrite Eu. unfold fput_table. cbn. f_equal. rewrite <- Hm, <- Ht. apply set_mutex_id.
  - unfold fput_table. cbn. rewrite Eu, <- Hm. destruct w as [? ? ? ? t ?]. cbn. f_equal. exact (set_mutex_id t l).
Qed.
Lemma get_unused_ok (w : fsys) : table_ok (fs_table w) -> ref_fdarr (fs_table w) < 32 -> exists fd,
  fwk_get_unused_fd_flags sizeof_file current w = Ok (fd, fput_table (reserve fd (fs_table w)) w) /\ free_fd fd (fs_table w).
Proof using Type.
  intros T Hr. destruct (tk_size _ T) as [Hs Hl]. pose proof (tk_max _ T) as Hmx. pose proof (tk_ref _ T) as Hrf.
  unfold fwk_get_unused_fd_flags, fwk_get_fd_available. rewrite Hs, (proj2 (Z.ltb_lt _ 32)) by done. rewrite (proj2 (Z.ltb_ge _ 0)) by lia.
  destruct (Z.ltb_spec (max_fdset (fs_table w) + 1) 32) as [Hb|Hb].
  - exists (max_fdset (fs_table w) + 1). split; [|split; [lia|]; split; [apply (tk_above _ T); lia|by left]].
    destruct (locked_step w (fun t => fwk_fdtable_get (set_fdset (max_fdset t + 1) t)) (tk_mutex _ T)) as (w1 & -> & (m & ->) & E & _); [done..|]. cbn [mbind res_bind].
    cbn [fput_table fs_table set_mutex max_fdset max_fdarr]. rewrite Hs, (proj2 (Z.ltb_lt (_ + 1) 32)) by lia.
    apply (f_equal (fun x : fsys => Ok (_, x))). etransitivity; [exact E|].
    unfold fwk_fdtable_get, reserve. cbn. rewrite Hs, (proj2 (Z.ltb_lt _ 32)), Z.max_r by lia. done.
  - assert (max_fdset (fs_table w) = 31) as Hm31 by lia.
    destruct (locked_step w fwk_fdtable_get (tk_mutex _ T)) as (w1 & -> & (m & ->) & E & _); [done..|]. cbn [mbind res_bind].
    cbn [fput_table fs_table set_mutex max_fdset max_fdarr fd_array]. rewrite Hs, Hm31. change (31 + 1 <? 32) with false. cbn iota.
    destruct (first_empty_spec (fd_array (fs_table w)) (Z.to_nat 31) 0) as [(k & -> & Hk & Hz)|[_ Hall]]; [lia|rewrite Hl; lia| |].
    + exists k. cbn [mbind res_bind]. split.
      * apply (f_equal (fun x : fsys => Ok (_, x))). etransitivity; [exact E|]. unfold fwk_fdtable_get, reserve. rewrite Hs, (proj2 (Z.ltb_lt _ 32)), Hm31, Z.max_l by lia. f_equal. destruct (fs_table w). cbn in *. by subst.
      * assert (3 <= k); [|split; [lia|]; split; [done|]; right; lia]. destruct (Z.le_gt_cases 3 k); [done|]. destruct (tk_std _ T k) as (e & He & Hne); [lia|]. congruence.
    + exfalso. assert (length (used (fd_array (fs_table w))) = 32%nat) as Hu; [|lia]. rewrite <- Hl. apply used_full. intros i e He.
      pose proof (lookup_lt_Some _ _ _ He) as Hlt. destruct (decide (i = 31)%nat) as [->|Hi]; [destruct (tk_top _ T Hm31) as (e' & ? & ?); congruence|].
      destruct (Hall (Z.of_nat i)) as (e' & He' & Hne); [lia|]. rewrite Nat2Z.id in He'. congruence.
Qed.
Lemma put_used_ok fd e (w : fsys) t : fs_table w = t -> max_fdarr t = 32 -> tb_mutex t = 0 -> 3 <= fd < 32 -> fd_array t !! Z.to_nat fd = Some e -> 3 < ref_fdarr t ->
  fwk_put_used_fd_flags current fd w = Ok (fput_table (vacated fd t) w).
Proof using Type.
  intros <- Hs Hm Hfd He Hr. unfold fwk_put_used_fd_flags, FILE_DESC_OVER_BASE, DEVICE_MAJOR_BASE. rewrite (proj2 (Z.ltb_ge fd 3)), Hs, (proj2 (Z.leb_gt 32 fd)) by lia.
  destruct (locked_step w (fun t => fwk_fdtable_put (set_fdset (if fd <? max_fdset t then max_fdset t else fd - 1) (set_array (<[Z.to_nat fd := nullptr]> (fd_array t)) t))) Hm) as (w1 & -> & (m & ->) & E & _); [done..|].
  cbn [mbind res_bind]. cbn [fput_table fs_table set_mutex fd_array]. rewrite He. cbn [deref mbind res_bind].
  apply (f_equal Ok). etransitivity; [exact E|]. unfold fwk_fdtable_put, vacated, DEVICE_MAJOR_BASE. cbn.
  by rewrite (proj2 (Z.ltb_lt 3 (ref_fdarr _))) by lia.
Qed.
Lemma install_ok fd f (w : fsys) t : fs_table w = reserve fd t -> table_ok t -> free_fd fd t -> isValid f = true ->
  fwk_fd_install current fd f w = Ok (ER_NORMAL, fput_table (entered fd f t) w).
Proof using Type.
  intros Et T (Hfd & Hz & _) Hf. unfold fwk_fd_install, FILE_DESC_OVER_BASE, DEVICE_MAJOR_BASE. rewrite (proj2 (Z.ltb_ge fd 3)), Hf by lia. cbn [negb orb].
  rewrite Et. cbn [reserve set_ref set_fdset max_fdarr fd_array]. rewrite (proj1 (tk_size _ T)), (proj2 (Z.leb_gt 32 fd)), Hz by lia. cbn [deref mbind res_bind Z.eqb negb].
  destruct (locked_step w (fun t => set_array (<[Z.to_nat fd := f]> (fd_array t)) t)) as (w1 & -> & (m & ->) & E & _); [rewrite Et; exact (tk_mutex _ T)|done..|].
  cbn [mbind res_bind]. apply (f_equal (fun x : fsys => Ok (_, x))). etransitivity; [exact E|]. by rewrite Et.
Qed.

(** ** The state with its open files *)
Context (Hfl : 0 < sizeof_file <= 4096) (Hko : 0 < sizeof_kobject <= 4096) (Hks : 0 < sizeof_kset <= 4096).
Local Notation osys_ok := (osys_ok sizeof_kobject sizeof_kset sizeof_inode root).
Local Notation oblocks := (oblocks sizeof_kobject sizeof_kset sizeof_inode root).
Local Notation fsz := (mrt_num_align8 sizeof_file).
Definition file_block (e : Z * fwk_file) : list (Z * Z) := [(e.1, fsz)].
Definition fblocks (w : fsys) : list (Z * Z) := entry_blocks file_block (fs_files w).
Record fsys_ok (L : list (Z * Z)) (w : fsys) : Prop := {
  fk_o : osys_ok (fblocks w ++ L) (fs_o w);
  fk_table : table_ok (fs_table w);
  fk_files : forall k f, 3 <= k < 32 -> fd_array (fs_table w) !! Z.to_nat k = Some f -> f <> 0 -> is_Some (fs_files w !! f);
}.
(** A path that leads to a character device and the device that serves its number. *)
Record chr_device (w : fsys) (name : text) (i : Z) (n : fwk_inode) (cdev : Z) (ops : file_oprts D) (p : Z) : Prop := {
  cd_find : fwk_inode_find root name (fs_o w) = Ok (i, fs_o w) /\ isValid i = true;
  cd_inode : os_inodes (fs_o w) !! i = Some n /\ in_foprts n = chrfoprts;
  cd_serves : fwk_kobjmap_lookup (ks_chrdev_map (os_k (fs_o w))) (in_rdev n) (os_k (fs_o w)) = Ok cdev /\ isValid cdev = true;
  cd_cdev : exists c, fs_cdevs w !! cdev = Some c /\ cv_oprts c = p;
  cd_ops : drv p = Some ops /\ p <> chrfoprts /\ p <> blkfoprts /\ p <> netfoprts;
}.

Lemma osys_perm L L' o : L ≡ₚ L' -> osys_ok L o -> osys_ok L' o.
Proof using Type. intros HL [? Hh ? ? ? ? ?]. split; try done. eapply heap_inv_perm; [|exact Hh]. by rewrite HL. Qed.
(** Changes of an inode do not disturb the tree. *)
Lemma osys_inode L o i n n' : osys_ok L o -> os_inodes o !! i = Some n -> osys_ok L (oput_inodes (<[i := n']> (os_inodes o)) o).
Proof using Type.
  intros [Hc Hh He Hr Hl Hu Hd] Hi. split; try done.
  - cbn. eapply heap_inv_perm; [|exact Hh]. unfold KobjSpec.oblocks. cbn. by rewrite (entry_blocks_update _ _ i n n').
  - intros p q Hp. destruct (Hd p q Hp) as [? Hm]. split; [done|]. intros c Hcm. destruct (Hm c Hcm) as (oc & ? & ? & ? & ? & Hin). exists oc. split_and!; try done.
    cbn. destruct (decide (i = ko_inode oc)) as [->|]; [rewrite lookup_insert_eq; by eexists|by rewrite lookup_insert_ne].
Qed.
Lemma osys_alloc L o h q : osys_ok L o -> heap_inv h ((q, fsz) :: oblocks o ++ L) -> osys_ok ((q, fsz) :: L) (set_heap h o).
Proof using Type. intros [] Hh. split; try done. eapply heap_inv_perm; [|exact Hh]. cbn. by rewrite Permutation_middle. Qed.
Lemma osys_free L o q : osys_ok ((q, fsz) :: L) o -> exists h, o_kfree q o = Ok (set_heap h o) /\ osys_ok L (set_heap h o).
Proof using Hfl.
  intros I. destruct (o_kfree_ok q fsz (oblocks o ++ L) o (oi_cpu _ _ _ _ _ _ I)) as (h & E & Hh).
  - eapply heap_inv_perm; [|exact (oi_heap _ _ _ _ _ _ I)]. by rewrite <- Permutation_middle.
  - apply align_pos; unfold W32; lia.
  - exists h. split; [done|]. destruct I. by split.
Qed.

(** ** Opening and closing a device *)
Definition run2 (op : option (Z -> Z -> D -> Z * D)) (a b : Z) (d : D) : Z * D := match op with Some f => f a b d | None => (ER_NORMAL, d) end.
Lemma call2_run op a b (w : fsys) : call2 op a b w = ((run2 op a b (fs_drv w)).1, fput_drv (run2 op a b (fs_drv w)).2 w).
Proof using Type. destruct op as [f|]; cbn; [by destruct (f _ _ _)|by destruct w]. Qed.
Lemma fput_o_same (w : fsys) : fput_o (fs_o w) w = w.
Proof using Type. by destruct w. Qed.
(** The inode remembers its device while it is open. *)
Definition tied (i : Z) (n : fwk_inode) (dev : Z) (o : osys (H := H)) : osys := oput_inodes (<[i := set_inode_dev dev n]> (os_inodes o)) o.
Definition opened (i : Z) (n : fwk_inode) (cdev f : Z) (fl : fwk_file) (h : H) (d : D) (w : fsys) : fsys :=
  FSys (tied i n cdev (set_heap h (fs_o w))) (fs_cdevs w) (fs_blks w) (<[f := fl]> (fs_files w)) (fs_table w) d.
Lemma chrdev_open_ok (w : fsys) i n cdev c ops f g : os_inodes (fs_o w) !! i = Some n ->
  fwk_kobjmap_lookup (ks_chrdev_map (os_k (fs_o w))) (in_rdev n) (os_k (fs_o w)) = Ok cdev -> isValid cdev = true -> fs_cdevs w !! cdev = Some c -> fs_files w !! f = Some g ->
  drv (cv_oprts c) = Some ops -> fwk_chrdev_open drv i f w = Ok ((run2 (fo_open ops) i f (fs_drv w)).1,
    FSys (tied i n cdev (fs_o w)) (fs_cdevs w) (fs_blks w) (<[f := File (fl_mode g) (fl_inode g) (cv_oprts c)]> (fs_files w)) (fs_table w) (run2 (fo_open ops) i f (fs_drv w)).2).
Proof using Type.
  intros Hn Hlk Hcv Hc Hf Hdrv. unfold fwk_chrdev_open. rewrite Hn. cbn [deref mbind res_bind]. rewrite Hlk. cbn [mbind res_bind]. rewrite Hcv. cbn [negb].
  unfold upd_inode. rewrite Hn. cbn [deref mbind res_bind]. cbn [fput_o fs_cdevs fs_files]. rewrite Hc. cbn [deref mbind res_bind]. rewrite Hf. cbn [deref mbind res_bind]. rewrite Hdrv. cbn [deref mbind res_bind].
  by rewrite call2_run.
Qed.
Section device.
Context (L : list (Z * Z)) (w : fsys) (name : text) (mode i : Z) (n : fwk_inode) (cdev : Z) (ops : file_oprts D) (p : Z).
Context (C : chr_device w name i n cdev ops p) (I : osys_ok (fblocks w ++ L) (fs_o w)).
Local Notation filp_open := (fwk_do_filp_open sizeof_file root chrfoprts blkfoprts netfoprts drv).
Local Notation filp_close := (fwk_do_filp_close chrfoprts blkfoprts netfoprts drv).
Local Notation res f := (run2 (fo_open ops) i f (fs_drv w)).
Local Notation fl := (File mode i p).

Lemma file_fresh f h X : heap_inv h ((f, fsz) :: oblocks (fs_o w) ++ fblocks w ++ X) -> fs_files w !! f = None.
Proof using Hfl.
  intros Hh. destruct (fs_files w !! f) as [g|] eqn:E; [|done]. exfalso. destruct (heap_inv_blocks _ _ Hh) as [Hd _].
  assert (0 < fsz) by (apply align_pos; unfold W32; lia). destruct (disjoint_head _ _ _ f fsz Hd); [|lia..].
  apply elem_of_app. right. apply elem_of_app. left. apply (entry_blocks_elem _ _ f g); [done|]. left.
Qed.
Lemma filp_open_ok : exists h,
  (filp_open name mode w = Ok (nullptr, fput_o (set_heap h (fs_o w)) w) /\ osys_ok (fblocks w ++ L) (set_heap h (fs_o w)) /\ out_of_memory L sizeof_file) \/
  exists f, isValid f = true /\ fs_files w !! f = None /\
    ((res f).1 <> 0 /\ (exists h', filp_open name mode w = Ok (nullptr, fput_drv (res f).2 (fput_o (tied i n cdev (set_heap h' (fs_o w))) w)) /\
        osys_ok (fblocks w ++ L) (tied i n cdev (set_heap h' (fs_o w)))) \/
     (res f).1 = 0 /\ filp_open name mode w = Ok (f, opened i n cdev f fl h (res f).2 w) /\ osys_ok ((f, fsz) :: fblocks w ++ L) (tied i n cdev (set_heap h (fs_o w)))).
Proof using Hfl C I.
  destruct C as [[Hfind Hi] [Hn Hops] [Hlk Hcv] (c & Hc & Hcp) [Hdrv _]]. unfold fwk_do_filp_open. rewrite Hfind. cbn [mbind res_bind]. rewrite fput_o_same, Hi. cbn [negb].
  destruct (o_alloc_ok true sizeof_file _ (fs_o w) (oi_cpu _ _ _ _ _ _ I) (oi_heap _ _ _ _ _ _ I) ltac:(unfold W32; lia)) as (f & h & -> & Ea & [[-> Hh]|[Hf Hh]]);
    cbn [mbind res_bind]; exists h; [left|right].
  { split; [done|]. split; [by apply set_heap_ok|]. eexists _, _, (oblocks (fs_o w) ++ fblocks w), nullptr, h, _. rewrite <- app_assoc. split; [exact (oi_heap _ _ _ _ _ _ I)|]. by split; [exact Ea|]. }
  exists f. pose proof (file_fresh f h L Hh) as Hfresh. split; [done|]. split; [done|]. rewrite Hf. cbn [negb].
  change (os_inodes (fs_o (fput_o (set_heap h (fs_o w)) w)) !! i) with (os_inodes (fs_o w) !! i). rewrite Hn. cbn [deref mbind res_bind].
  rewrite Hops. unfold call_open. rewrite Z.eqb_refl. set (w1 := fput_files _ _).
  rewrite (chrdev_open_ok w1 i n cdev c ops f (File mode i chrfoprts)); [|done..|apply lookup_insert_eq|by rewrite Hcp]. cbn [mbind res_bind fl_mode fl_inode fs_o fs_files]. rewrite Hcp.
  assert (osys_ok ((f, fsz) :: fblocks w ++ L) (tied i n cdev (set_heap h (fs_o w)))) as I1 by (apply (osys_inode _ _ i n); [by apply osys_alloc|done]).
  change (fs_o w1) with (set_heap h (fs_o w)). change (fs_drv w1) with (fs_drv w).
  destruct (Z.eqb_spec (res f).1 0) as [E|E]; cbn [negb]; [right|left].
  - split_and!; [done| |done]. unfold opened. cbn. by rewrite insert_insert_eq.
  - split; [done|]. destruct (osys_free _ _ f I1) as (h' & -> & I'). exists h'. split; [|exact I']. cbn [mbind res_bind]. unfold fput_drv, fput_o, fput_files. cbn.
    by rewrite insert_insert_eq, delete_insert_id.
Qed.
End device.

Lemma call_close_own (w : fsys) f i p ops : drv p = Some ops /\ p <> chrfoprts /\ p <> blkfoprts /\ p <> netfoprts ->
  call_close chrfoprts blkfoprts netfoprts drv p i f w = Ok (call2 (fo_close ops) i f w).
Proof using Type.
  intros (Hdrv & H1 & H2 & H3). unfold call_close. by rewrite (proj2 (Z.eqb_neq p chrfoprts)), (proj2 (Z.eqb_neq p blkfoprts)), (proj2 (Z.eqb_neq p netfoprts)), Hdrv.
Qed.
Lemma filp_close_ok X (w : fsys) f mode i n p ops : isValid f = true -> fs_files w !! f = Some (File mode i p) -> os_inodes (fs_o w) !! i = Some n -> in_foprts n = chrfoprts ->
  drv p = Some ops /\ p <> chrfoprts /\ p <> blkfoprts /\ p <> netfoprts -> osys_ok ((f, fsz) :: X) (fs_o w) -> exists h,
  fwk_do_filp_close chrfoprts blkfoprts netfoprts drv f w =
    Ok (FSys (set_heap h (tied i n nullptr (fs_o w))) (fs_cdevs w) (fs_blks w) (delete f (fs_files w)) (fs_table w) (run2 (fo_close ops) i f (fs_drv w)).2) /\
  osys_ok X (set_heap h (tied i n nullptr (fs_o w))).
Proof using Hfl.
  intros Hf Hfile Hn Hops Hown I. unfold fwk_do_filp_close. rewrite Hf. cbn [negb]. rewrite Hfile. cbn [deref mbind res_bind fl_foprts fl_inode].
  rewrite (call_close_own w f i p ops Hown), call2_run. cbn [mbind res_bind]. change (os_inodes (fs_o (fput_drv _ w))) with (os_inodes (fs_o w)). rewrite Hn. cbn [deref mbind res_bind].
  unfold call_close. rewrite Hops, Z.eqb_refl. unfold fwk_chrdev_close, upd_inode. change (os_inodes (fs_o (fput_drv _ w))) with (os_inodes (fs_o w)). rewrite Hn. cbn [deref mbind res_bind].
  cbn [fput_o fs_o]. destruct (osys_free X (tied i n nullptr (fs_o w)) f) as (h & E & I'); [by apply (osys_inode _ _ i n)|]. unfold tied in E. cbn [fput_drv fs_o]. rewrite E.
  exists h. done.
Qed.

(** What a read and a write through a descriptor do: the mode decides whether the driver is asked. *)
Definition read_result (mode : Z) (ops : file_oprts D) (f buf size : Z) (d : D) : Z * D :=
  if negb (Z.land mode O_RDONLY =? O_RDONLY) then (- ER_FORBID, d)
  else match fo_read ops with
       | Some g => let '(r, d) := g f buf size d in (if r =? 0 then s32 size else if 0 <? r then r else - ER_ERROR, d)
       | None => (- ER_ERROR, d)
       end.
Definition write_result (mode : Z) (ops : file_oprts D) (f buf size : Z) (d : D) : Z * D :=
  if negb (Z.land mode O_WRONLY =? O_WRONLY) then (- ER_FORBID, d)
  else match fo_write ops with
       | Some g => let '(r, d) := g f buf size d in (if r =? 0 then s32 size else - ER_ERROR, d)
       | None => (- ER_ERROR, d)
       end.
Local Notation file_ops := (file_ops chrfoprts blkfoprts netfoprts drv).
Lemma fput_drv_same (w : fsys) : fput_drv (fs_drv w) w = w.
Proof using Type. by destruct w. Qed.
Lemma transfer_ok (w : fsys) fd f mode i p ops buf size : 3 <= fd < 32 -> max_fdarr (fs_table w) = 32 -> fd_array (fs_table w) !! Z.to_nat fd = Some f -> isValid f = true ->
  fs_files w !! f = Some (File mode i p) -> drv p = Some ops /\ p <> chrfoprts /\ p <> blkfoprts /\ p <> netfoprts ->
  virt_read chrfoprts blkfoprts netfoprts drv fd buf size w = Ok ((read_result mode ops f buf size (fs_drv w)).1, fput_drv (read_result mode ops f buf size (fs_drv w)).2 w) /\
  virt_write chrfoprts blkfoprts netfoprts drv fd buf size w = Ok ((write_result mode ops f buf size (fs_drv w)).1, fput_drv (write_result mode ops f buf size (fs_drv w)).2 w).
Proof using Type.
  intros Hfd Hs Hslot Hf Hfile (Hdrv & H1 & H2 & H3). unfold virt_read, virt_write, fwk_do_read, fwk_do_write, fwk_fd_to_file, FILE_DESC_OVER_BASE, DEVICE_MAJOR_BASE.
  change NETWORK_SOCKETS_BASE with 160. rewrite (proj2 (Z.leb_gt 160 fd)), (proj2 (Z.ltb_ge fd 0)), (proj2 (Z.ltb_ge fd 3)), Hs, (proj2 (Z.leb_gt 32 fd)), Hslot by lia.
  cbn [deref mbind res_bind]. rewrite Hf. cbn [negb]. rewrite Hfile. cbn [deref mbind res_bind fl_mode fl_foprts].
  assert (file_ops p = Ok ops) as -> by (unfold Files.file_ops; by rewrite (proj2 (Z.eqb_neq p chrfoprts)), (proj2 (Z.eqb_neq p blkfoprts)), (proj2 (Z.eqb_neq p netfoprts)), Hdrv by done).
  unfold read_result, write_result. split.
  - destruct (negb (Z.land mode O_RDONLY =? O_RDONLY)); cbn [mbind res_bind fst snd]; [by rewrite fput_drv_same|].
    destruct (fo_read ops) as [g|]; [by destruct (g f buf size (fs_drv w))|cbn [fst snd]; by rewrite fput_drv_same].
  - destruct (negb (Z.land mode O_WRONLY =? O_WRONLY)); cbn [mbind res_bind fst snd]; [by rewrite fput_drv_same|].
    destruct (fo_write ops) as [g|]; [by destruct (g f buf size (fs_drv w))|cbn [fst snd]; by rewrite fput_drv_same].
Qed.

Lemma close_ok X (w : fsys) fd f mode i n p ops t : fs_table w = t -> table_ok t -> 3 <= fd < 32 -> 3 < ref_fdarr t -> fd_array t !! Z.to_nat fd = Some f -> isValid f = true ->
  fs_files w !! f = Some (File mode i p) -> os_inodes (fs_o w) !! i = Some n -> in_foprts n = chrfoprts ->
  drv p = Some ops /\ p <> chrfoprts /\ p <> blkfoprts /\ p <> netfoprts -> osys_ok ((f, fsz) :: X) (fs_o w) -> exists o,
  virt_close chrfoprts blkfoprts netfoprts drv network_close current fd w =
    Ok (FSys o (fs_cdevs w) (fs_blks w) (delete f (fs_files w)) (vacated fd t) (run2 (fo_close ops) i f (fs_drv w)).2) /\ osys_ok X o.
Proof using Hfl.
  intros Et T Hfd Hr Hslot Hf Hfile Hn Hops Hown I. unfold virt_close, fwk_do_close, fwk_fd_to_file, FILE_DESC_OVER_BASE, DEVICE_MAJOR_BASE. change NETWORK_SOCKETS_BASE with 160.
  rewrite (proj2 (Z.leb_gt 160 fd)), (proj2 (Z.ltb_ge fd 3)), Et, (proj1 (tk_size _ T)), (proj2 (Z.leb_gt 32 fd)), Hslot by lia. cbn [deref mbind res_bind]. rewrite Hf. cbn [negb].
  destruct (filp_close_ok X w f mode i n p ops Hf Hfile Hn Hops Hown I) as (h & -> & I'). cbn [mbind res_bind]. set (w1 := FSys _ _ _ _ _ _).
  rewrite (put_used_ok fd f w1 t Et (proj1 (tk_size _ T)) (tk_mutex _ T) Hfd Hslot Hr). eexists. split; [done|exact I'].
Qed.
(** The new descriptor and its file belong together. *)
Lemma entered_fsys_ok L (w w' : fsys) fd f fl : fsys_ok L w -> free_fd fd (fs_table w) -> f <> 0 -> fs_files w !! f = None -> fs_table w' = entered fd f (fs_table w) ->
  fs_files w' = <[f := fl]> (fs_files w) -> osys_ok ((f, fsz) :: fblocks w ++ L) (fs_o w') -> fsys_ok L w'.
Proof using Type.
  intros [_ T HF] F Hf Hnew Et Ef I. destruct F as (Hfd & Hz & Hpick). split.
  - eapply osys_perm; [|exact I]. unfold fblocks. rewrite Ef, entry_blocks_insert by done. done.
  - rewrite Et. by apply entered_ok.
  - intros k g Hk Hg Hg0. rewrite Et in Hg. cbn in Hg. rewrite Ef. destruct (decide (g = f)) as [->|Hgf]; [rewrite lookup_insert_eq; by eexists|]. rewrite lookup_insert_ne by done.
    apply (HF k); [done| |done]. destruct (decide (k = fd)) as [->|Hkf]; [rewrite list_lookup_insert_eq in Hg by (rewrite (proj2 (tk_size _ T)); lia); congruence|].
    by rewrite list_lookup_insert_ne in Hg by lia.
Qed.


(** Closing an open block device runs its close operation through the file and
    again through the inode, where the device is gone. *)
Lemma block_file_close_faults (w : fsys) f fl i : chrfoprts <> blkfoprts -> isValid f = true -> fs_files w !! f = Some fl -> fl_foprts fl = blkfoprts ->
  os_inodes (fs_o w) !! fl_inode fl = Some i -> in_foprts i = blkfoprts -> is_Some (fs_blks w !! in_dev i) -> fs_blks w !! nullptr = None ->
  fwk_do_filp_close chrfoprts blkfoprts netfoprts drv f w = Fault.
Proof using Type.
  intros Hcb Hf Hfile Ef Hi Ei [b Hb] Hz. unfold fwk_do_filp_close. rewrite Hf, Hfile. cbn [negb deref mbind res_bind]. unfold call_close. rewrite Ef, (proj2 (Z.eqb_neq blkfoprts chrfoprts)), Z.eqb_refl by congruence.
  unfold fwk_blkdev_close. rewrite Hi. cbn [deref mbind res_bind]. rewrite Hb. cbn [deref mbind res_bind]. unfold upd_inode. cbn [fput_blks fs_o]. rewrite Hi. cbn [deref mbind res_bind fput_o fs_o oput_inodes os_inodes].
  rewrite lookup_insert_eq. cbn [deref mbind res_bind set_inode_dev in_foprts]. rewrite Ei, (proj2 (Z.eqb_neq blkfoprts chrfoprts)), Z.eqb_refl by congruence.
  cbn [fput_o fput_blks fs_o oput_inodes os_inodes fs_blks deref mbind res_bind set_inode_dev in_dev].
  rewrite lookup_insert_ne; [by rewrite Hz|]. intros E. rewrite E in Hb. congruence.
Qed.
(** Opening an object that has no operations, such as /dev/stdin or a directory. *)
Lemma plain_file_open_faults (w : fsys) name mode i n q o : fwk_inode_find root name (fs_o w) = Ok (i, fs_o w) -> isValid i = true ->
  o_kzalloc sizeof_file (fs_o w) = Ok (q, o) -> isValid q = true -> os_inodes o !! i = Some n -> in_foprts n = nullptr ->
  chrfoprts <> nullptr /\ blkfoprts <> nullptr /\ netfoprts <> nullptr -> drv nullptr = None ->
  fwk_do_filp_open sizeof_file root chrfoprts blkfoprts netfoprts drv name mode w = Fault.
Proof using Type.
  intros Hf Hi Ea Hq Hn En (? & ? & ?) Hd. unfold fwk_do_filp_open. rewrite Hf. cbn [mbind res_bind]. rewrite Hi. cbn [negb fput_o fs_o]. rewrite Ea. cbn [mbind res_bind]. rewrite Hq. cbn [negb fput_o fs_o].
  rewrite Hn. cbn [deref mbind res_bind]. unfold call_open. rewrite En, !(proj2 (Z.eqb_neq nullptr _)) by congruence. by rewrite Hd.
Qed.
End files.
