(* ===== verification/DevFile.v ===== *)
(** * Device files (drivers/base/sysfs.c, platform/bus_type/fwk_platform.c: fwk_device_create)

    The tree starts with [/sys] and [/dev]; a driver announces a device with a file
    under [/dev], whose inode carries the number of the device.  The device itself is
    entered in the list of Bus.v.  A device's name is a value there; [dd_names] has
    the block it is stored in. *)

From stdpp Require Import prelude gmap fin_maps sorting.
From S2P Require Import Prelude Mem Bytes MemPool PoolClient Sync KMalloc KMallocSpec HeapContract Fdt OfNode Bus Chrdev ChrdevSpec KobjMap Kobj KobjSpec Files FilesSpec.

(** "/dev/", "/sys/" and the names the tree starts with *)
Definition FWK_PATH_DEVICE : text := [47; 100; 101; 118; 47].
Definition FWK_PATH_SYS_DEVICE : text := [47; 115; 121; 115; 47].
Definition t_sys : text := [115; 121; 115].
Definition t_dev : text := [100; 101; 118].
Definition t_stdin : text := [115; 116; 100; 105; 110].
Definition t_stdout : text := [115; 116; 100; 111; 117; 116].
Definition t_stderr : text := [115; 116; 100; 101; 114; 114].

Section devfile.
Context {H : Type} `{KernelHeap H} {P : Type}.
Context (sizeof_kobject sizeof_kset sizeof_inode sizeof_device root chrfoprts blkfoprts netfoprts : Z).
Context (bus_at : Z -> bus_type P) (bind_pins : Z -> P -> res (Z * P)) (unbind_pins : Z -> P -> res P).
Local Notation osys := (osys (H := H)).
Local Notation add := (fwk_kobject_add sizeof_inode root chrfoprts blkfoprts netfoprts).
Local Notation kset_new := (fwk_kset_create_and_register sizeof_kset sizeof_inode root chrfoprts blkfoprts netfoprts).
Local Notation create := (fwk_kobject_create sizeof_kobject).

(** ** The start of the tree *)
(** The globals [sprt_kobj_in], [sprt_kobj_out] and [sprt_kobj_err] are part of the result. *)
Definition devfs_stdio_init (sprt_head : Z) (w : osys) : res (Z * (Z * Z * Z) * osys) :=
  '(kin, w) ← create w;
  if negb (isValid kin) then Ok (- ER_NOMEM, (kin, nullptr, nullptr), w)
  else
    '(kout, w) ← create w;
    if negb (isValid kout) then w ← free_obj kin w; Ok (PTR_ERR kout, (kin, kout, nullptr), w)
    else
      '(kerr, w) ← create w;
      let all := (kin, kout, kerr) in
      if negb (isValid kerr) then w ← free_obj kout w; w ← free_obj kin w; Ok (PTR_ERR kout, all, w)
      else
        w ← upd_obj (set_okset sprt_head) kin w;
        w ← upd_obj (set_okset sprt_head) kout w;
        w ← upd_obj (set_okset sprt_head) kerr w;
        let fail3 retval w := (w ← free_obj kerr w; w ← free_obj kout w; w ← free_obj kin w; Ok (retval, all, w)) in
        '(retval, w) ← add kin sprt_head (Some t_stdin) w;
        if negb (retval =? 0) then fail3 retval w
        else
          '(retval, w) ← add kout sprt_head (Some t_stdout) w;
          if negb (retval =? 0) then w ← fwk_kobject_del kin w; fail3 retval w
          else
            '(retval, w) ← add kerr sprt_head (Some t_stderr) w;
            if negb (retval =? 0) then w ← fwk_kobject_del kout w; w ← fwk_kobject_del kin w; fail3 retval w
            else Ok (ER_NORMAL, all, w).
Definition devfs_stdio_destroy (all : Z * Z * Z) (w : osys) : res osys :=
  let '(kin, kout, kerr) := all in
  w ← fwk_kobject_destroy kerr w; w ← fwk_kobject_destroy kout w; fwk_kobject_destroy kin w.
(** [stdio] are the three static files; the result has the table as well. *)
Definition sysfs_init (stdio : list Z) (w : osys) : res (Z * osys * fwk_file_table) :=
  let t := sgrt_fwk_file_table in
  '(r, w) ← fwk_kobject_root_init root w;
  if negb (r =? 0) then Ok (- ER_FAILD, w, t)
  else
    '(sys, w) ← kset_new t_sys nullptr w;
    if negb (isValid sys) then Ok (- ER_NOMEM, w, t)
    else
      let fail1 t w := (w ← fwk_kset_unregister sys w; w ← free_obj sys w; Ok (- ER_FAILD, w, t)) in
      '(dev, w) ← kset_new t_dev nullptr w;
      if negb (isValid dev) then fail1 t w
      else
        let fail2 t w := (w ← fwk_kset_unregister dev w; w ← free_obj dev w; fail1 t w) in
        '(retval, all, w) ← devfs_stdio_init dev w;
        if negb (retval =? 0) then fail2 t w
        else
          let '(r, t) := fwk_file_system_init stdio t in
          if negb (r =? 0) then w ← devfs_stdio_destroy all w; fail2 t w else Ok (ER_NORMAL, w, t).

(** ** Devices with a file *)
Record dsys := DSys { dd_o : osys; dd_b : bsys; dd_names : gmap Z Z; dd_s : P }.
Definition dput_o o w := DSys o (dd_b w) (dd_names w) (dd_s w).
Definition dput_b b s w := DSys (dd_o w) b (dd_names w) s.
Definition dput_names m w := DSys (dd_o w) (dd_b w) m (dd_s w).
Definition zero_device : fwk_device := Device None None 0 0 0 0.

Definition fwk_device_initial (w : dsys) : res (Z * dsys) :=
  '(sprt_kobj, o) ← fwk_find_kobject_by_path root nullptr FWK_PATH_SYS_DEVICE (dd_o w);
  let w := dput_o o w in
  if negb (isValid sprt_kobj) then Ok (PTR_ERR sprt_kobj, w)
  else
    k ← mrt_fwk_kset_get sprt_kobj (dd_o w);
    Ok (if negb (isValid k) then PTR_ERR k else ER_NORMAL, w).
Definition fwk_dev_set_name (dev : Z) (name : text) (w : dsys) : res dsys :=
  '(ptr, o) ← vasprintk_safe (Some name) (dd_o w);
  let w := dput_o o w in
  match ptr with
  | None => Ok w
  | Some (b, s) =>
      w ← match dd_names w !! dev with Some old => o ← o_kfree old (dd_o w); Ok (dput_o o w) | None => Ok w end;
      Ok (dput_names (<[dev := b]> (dd_names w)) (dput_b (upd_dev (set_kobj_name (Some s)) dev (dd_b w)) (dd_s w) w))
  end.
Definition fwk_dev_del_name (dev : Z) (w : dsys) : res dsys :=
  w ← match dd_names w !! dev with Some old => o ← o_kfree old (dd_o w); Ok (dput_o o w) | None => Ok w end;
  Ok (dput_names (delete dev (dd_names w)) (dput_b (upd_dev (set_kobj_name None) dev (dd_b w)) (dd_s w) w)).
Local Notation populate := (fwk_kobject_populate sizeof_kobject sizeof_kset sizeof_inode root chrfoprts blkfoprts netfoprts).
(** Second half of [fwk_device_create]: the device for a file, and the way back. *)
Definition undo_name (b : Z) (w : dsys) : res (Z * dsys) := o ← o_kfree b (dd_o w); Ok (ERR_PTR (- ER_FAILD), dput_o o w).
Definition undo_file (b sprt_kobj : Z) (w : dsys) : res (Z * dsys) := o ← fwk_kset_kobject_remove sprt_kobj (dd_o w); undo_name b (dput_o o w).
Definition undo_device (b sprt_kobj sprt_dev : Z) (w : dsys) : res (Z * dsys) :=
  o ← o_kfree sprt_dev (dd_o w);
  undo_file b sprt_kobj (dput_b (bput_devs (delete sprt_dev (bs_devs (dd_b w))) (dd_b w)) (dd_s w) (dput_o o w)).
Definition create_device (b sprt_kobj : Z) (name : text) (w : dsys) : res (Z * dsys) :=
  '(sprt_dev, o) ← o_kzalloc sizeof_device (dd_o w);
  let w := dput_o o w in
  if negb (isValid sprt_dev) then undo_file b sprt_kobj w
  else
    let w := dput_b (bput_devs (<[sprt_dev := zero_device]> (bs_devs (dd_b w))) (dd_b w)) (dd_s w) w in
    '(r, w) ← fwk_device_initial w;
    if negb (r =? 0) then undo_device b sprt_kobj sprt_dev w
    else
      w ← fwk_dev_set_name sprt_dev name w;
      '(r, bb, s) ← fwk_device_add bus_at bind_pins unbind_pins sprt_dev (dd_b w) (dd_s w);
      let w := dput_b bb s w in
      if negb (r =? 0) then w ← fwk_dev_del_name sprt_dev w; undo_device b sprt_kobj sprt_dev w
      else o ← o_kfree b (dd_o w); Ok (sprt_dev, dput_o o w).
Definition fwk_device_create (type devNum : Z) (fmt : option text) (w : dsys) : res (Z * dsys) :=
  match fmt with
  | None => Ok (ERR_PTR (- ER_ERROR), w)
  | Some s =>
      '(sprt_parent, o) ← fwk_find_kobject_by_path root nullptr FWK_PATH_DEVICE (dd_o w);
      let w := dput_o o w in
      if negb (isValid sprt_parent) then Ok (ERR_PTR (- ER_NOTFOUND), w)
      else
        '(ptr, o) ← vasprintk_safe (Some s) (dd_o w);
        let w := dput_o o w in
        match ptr with
        | None => Ok (ERR_PTR (- ER_NOMEM), w)
        | Some (b, name) =>
            '(sprt_kobj, o) ← populate sprt_parent name (dd_o w);
            let w := dput_o o w in
            if negb (isValid sprt_kobj) then undo_name b w
            else
              k ← obj sprt_kobj (dd_o w);
              i ← deref (os_inodes (dd_o w) !! ko_inode k);
              w ← (if in_type i =? INODE_TYPE_FILE then
                     '(_, o) ← fwk_inode_set_ops chrfoprts blkfoprts netfoprts (ko_inode k) type devNum (dd_o w); Ok (dput_o o w)
                   else Ok w);
              create_device b sprt_kobj name w
        end
  end.
(** The device leaves the list and loses its name; its own block is not given back. *)
Definition fwk_device_destroy (sprt_dev : Z) (w : dsys) : res (Z * dsys) :=
  if sprt_dev =? 0 then Ok (- ER_NOMEM, w)
  else
    '(sprt_parent, o) ← fwk_find_kobject_by_path root nullptr FWK_PATH_DEVICE (dd_o w);
    let w := dput_o o w in
    if negb (isValid sprt_parent) then Ok (- ER_NOTFOUND, w)
    else
      d ← deref (bs_devs (dd_b w) !! sprt_dev);
      name ← deref (fwk_dev_get_name d);
      '(sprt_kobj, o) ← fwk_find_kobject_by_path root sprt_parent name (dd_o w);
      let w := dput_o o w in
      if negb (isValid sprt_kobj) then Ok (- ER_NOTFOUND, w)
      else
        '(r, bb, s) ← fwk_device_del bus_at sprt_dev (dd_b w) (dd_s w);
        w ← (if r =? 0 then fwk_dev_del_name sprt_dev (dput_b bb s w) else Ok (dput_b bb s w));
        o ← fwk_kset_kobject_remove sprt_kobj (dd_o w);
        Ok (ER_NORMAL, dput_o o w).

(** ** A file under /dev *)
Context (Hko : 0 < sizeof_kobject <= 4096) (Hks : 0 < sizeof_kset <= 4096) (Hin : 0 < sizeof_inode <= 4096) (Hdv : 0 < sizeof_device <= 4096).
Context (Hroot : isValid root = true) (Hstatic : heap_static root sizeof_kset).
Local Notation osys_ok := (osys_ok sizeof_kobject sizeof_kset sizeof_inode root).
Local Notation find_by_path := (fwk_find_kobject_by_path root).

Lemma find_loop_more fuel n : forall (r : bool) s k (w : osys) x, find_loop fuel r s k w = Ok x -> find_loop (fuel + n) r s k w = Ok x.
Proof using Type.
  induction fuel as [|fuel IH]; intros r s k w x; destruct s as [[|c s]|]; cbn [find_loop Nat.add]; try done; [by destruct n|by destruct n|].
  destruct (if r then s else c :: s) as [|e u]; [done|]. destruct (e =? slash); [done|]. destruct (to_slash (e :: u)) as [part se].
  destruct (locked_scan k part _ w) as [[p w1]| |]; cbn [mbind res_bind]; try done. destruct (p =? 0); [done|]. destruct se as [s'|]; [apply IH|done].
Qed.
(** A path under /dev is a path from the directory /dev. *)
Lemma find_under_dev L (w : osys) dv e u : osys_ok L w -> find_by_path nullptr FWK_PATH_DEVICE w = Ok (dv, w) -> dv <> 0 -> e <> slash ->
  is_dir w dv /\ find_by_path nullptr (FWK_PATH_DEVICE ++ e :: u) w = find_by_path dv (e :: u) w.
Proof using Hko Hks Hroot.
  intros I E Hdv0 He. destruct (oi_root _ _ _ _ _ _ I) as (ro & Hro & Hrd).
  assert (origin w nullptr) as Ho by by left. assert (forall t, path_ok root nullptr (FWK_PATH_DEVICE ++ t)) as Hp by (intros t; split; [done|]; intros _; by eexists _, _).
  pose proof (Hp []) as Hp0. rewrite app_nil_r in Hp0. rewrite (find_unfold _ _ _ _ Hko Hks Hroot L w nullptr FWK_PATH_DEVICE I Ho Hp0) in E.
  rewrite (find_unfold _ _ _ _ Hko Hks Hroot L w nullptr _ I Ho (Hp (e :: u))).
  change (start_of root nullptr) with root in *. rewrite Z.eqb_refl in *.
  assert (exists q, locked_scan root t_dev true w = Ok (q, w) /\ (q = 0 \/ exists oq, os_objs w !! q = Some oq /\ ko_dir oq = true /\ q <> root)) as (q & Eq & Hq).
  { destruct (locked_scan_ok _ _ _ _ Hko Hks Hroot L w root ro t_dev true I Hro) as (q & Es & El & _). exists q. split; [done|].
    destruct (scan_dir_spec (ko_list ro) t_dev true w (members_exist _ _ _ _ Hko Hks Hroot L w root ro I Hro)) as (q' & Es' & [->|(Hm & oq & b & s & Hoq & _ & _ & Hd)]); [left; congruence|right].
    assert (q' = q) as -> by congruence. exists oq. split_and!; [done|done|]. destruct (oi_dir _ _ _ _ _ _ I root ro Hro) as [_ Hmem]. by destruct (Hmem q Hm) as (? & _ & _ & _ & ? & _). }
  change (find_loop (S (length FWK_PATH_DEVICE)) true (Some FWK_PATH_DEVICE) root w) with
    ('(p, w) ← locked_scan root t_dev true w; if p =? 0 then Ok (nullptr, w) else Ok (p, w)) in E.
  rewrite Eq in E. cbn [mbind res_bind] in E. destruct (Z.eqb_spec q 0) as [Hz|Hq0]; [unfold nullptr in E; congruence|]. assert (q = dv) as Eqd by congruence. rewrite Eqd in *. clear E.
  destruct Hq as [?|(oq & Hoq & Hqd & Hqr)]; [done|]. split; [by exists oq|].
  assert (is_dir w dv) as Hdir by by exists oq.
  rewrite (find_unfold _ _ _ _ Hko Hks Hroot L w dv (e :: u) I (or_intror Hdir)) by (split; [done|]; unfold start_of; rewrite (proj2 (Z.eqb_neq dv 0)) by done; congruence).
  assert (start_of root dv = dv) as -> by (unfold start_of; by rewrite (proj2 (Z.eqb_neq dv 0))). rewrite (proj2 (Z.eqb_neq dv root)) by done.
  transitivity (find_loop (S (S (length (e :: u) + 3))) true (Some (slash :: e :: u)) dv w).
  - replace (S (length (FWK_PATH_DEVICE ++ e :: u))) with (S (S (S (length (e :: u) + 3)))) by (rewrite length_app; cbn; lia).
    rewrite (find_step _ true slash (t_dev ++ slash :: e :: u) 100 ([101; 118; 47] ++ e :: u) t_dev (Some (slash :: e :: u)) root dv w); [done|done|done|done|done|done].
  - destruct (find_loop_total _ _ _ _ Hko Hks Hroot L w I (S (length (e :: u))) false (e :: u) dv Hdir ltac:(lia)) as (q1 & Ef & _). rewrite Ef.
    replace (S (S (length (e :: u) + 3))) with (S (length (e :: u)) + 4)%nat by lia.
    transitivity (find_loop (S (length (e :: u)) + 4) false (Some (e :: u)) dv w); [done|]. by apply find_loop_more.
Qed.

(** Searches only look at the objects. *)
Lemma find_loop_objs L L' (w w' : osys) q : osys_ok L w -> osys_ok L' w' -> os_objs w' = os_objs w -> forall fuel r s k, is_dir w k ->
  find_loop fuel r s k w = Ok (q, w) -> find_loop fuel r s k w' = Ok (q, w').
Proof using Hko Hks Hroot.
  intros I I' Eo. induction fuel as [|fuel IH]; intros r s k Hk; destruct s as [[|c s]|]; cbn [find_loop]; try congruence.
  destruct (if r then s else c :: s) as [|e u] eqn:Eu; [congruence|]. destruct (e =? slash); [congruence|].
  destruct (to_slash (e :: u)) as [part se] eqn:Et. destruct Hk as (o & Ho & Hd). set (dir := match se with Some _ => true | None => false end).
  destruct (locked_scan_ok _ _ _ _ Hko Hks Hroot L w k o part dir I Ho) as (q1 & Es & -> & Hq1).
  destruct (locked_scan_ok _ _ _ _ Hko Hks Hroot L' w' k o part dir I' ltac:(by rewrite Eo)) as (q2 & Es' & -> & _). cbn [mbind res_bind].
  rewrite (scan_dir_objs _ _ _ w' w Eo) in Es'. assert (q2 = q1) as -> by congruence. destruct (Z.eqb_spec q1 0); [congruence|].
  destruct se as [s'|]; [|congruence]. apply IH. destruct Hq1 as [?|(o1 & ? & ?)]; [done|]. by exists o1.
Qed.
Lemma find_objs L L' (w w' : osys) head name q : osys_ok L w -> osys_ok L' w' -> os_objs w' = os_objs w -> origin w head ->
  find_by_path head name w = Ok (q, w) -> find_by_path head name w' = Ok (q, w').
Proof using Hko Hks Hroot.
  intros I I' Eo Ho. assert (origin w' head) as Ho' by (destruct Ho as [?|(o & ? & ?)]; [by left|right; exists o; by rewrite Eo]).
  destruct (path_ok_dec root head name) as [Hp|Hp].
  - rewrite (find_unfold _ _ _ _ Hko Hks Hroot L w), (find_unfold _ _ _ _ Hko Hks Hroot L' w') by done. apply (find_loop_objs L L'); [done..|].
    exact (proj1 (proj2 (origin_kset _ _ _ _ Hko Hks Hroot L w head I Ho))).
  - rewrite (find_other _ _ _ _ Hko Hks Hroot L w), (find_other _ _ _ _ Hko Hks Hroot L' w') by done. congruence.
Qed.
(** A search leaves the state alone whatever it finds. *)
Lemma find_total L (w : osys) head name : osys_ok L w -> origin w head -> exists q, find_by_path head name w = Ok (q, w).
Proof using Hko Hks Hroot.
  intros I Ho. destruct (path_ok_dec root head name) as [Hp|Hp].
  - rewrite (find_unfold _ _ _ _ Hko Hks Hroot L w) by done. destruct (origin_kset _ _ _ _ Hko Hks Hroot L w head I Ho) as (_ & Hd & _).
    destruct (find_loop_total _ _ _ _ Hko Hks Hroot L w I (S (length name)) (start_of root head =? root) name (start_of root head) Hd ltac:(lia)) as (q & E & _). by exists q.
  - rewrite (find_other _ _ _ _ Hko Hks Hroot L w) by done. by eexists.
Qed.

Lemma osys_more L (w : osys) h q s : osys_ok L w -> heap_inv h ((q, s) :: oblocks sizeof_kobject sizeof_kset sizeof_inode root w ++ L) -> osys_ok ((q, s) :: L) (set_heap h w).
Proof using Type. intros [] Hh. split; try done. eapply heap_inv_perm; [|exact Hh]. cbn. by rewrite Permutation_middle. Qed.
Lemma osys_less L (w : osys) q s : osys_ok ((q, s) :: L) w -> 0 < s -> exists h, o_kfree q w = Ok (set_heap h w) /\ osys_ok L (set_heap h w).
Proof using Type.
  intros I Hs. destruct (o_kfree_ok q s (oblocks sizeof_kobject sizeof_kset sizeof_inode root w ++ L) w (oi_cpu _ _ _ _ _ _ I)) as (h & E & Hh); [|done|].
  - eapply heap_inv_perm; [|exact (oi_heap _ _ _ _ _ _ I)]. by rewrite <- Permutation_middle.
  - exists h. split; [done|]. destruct I. by split.
Qed.
Lemma osys_alloc_ok (zero : bool) L (w : osys) size : osys_ok L w -> 0 <= size <= W32 - 40 -> exists q h,
  (if zero then o_kzalloc size w else o_kmalloc size w) = Ok (q, set_heap h w) /\
  (q = nullptr /\ osys_ok L (set_heap h w) \/ isValid q = true /\ osys_ok ((q, mrt_num_align8 size) :: L) (set_heap h w)).
Proof using Type.
  intros I Hs. destruct (o_alloc_ok zero size _ w (oi_cpu _ _ _ _ _ _ I) (oi_heap _ _ _ _ _ _ I) Hs) as (q & h & E & _ & Hcase). exists q, h. split; [done|].
  destruct Hcase as [[-> Hh]|[Hq Hh]]; [left; split; [done|]; by apply set_heap_ok|right; split; [done|]; by apply osys_more].
Qed.
Lemma vasprintk_ok L (w : osys) s : osys_ok L w -> len s <= W32 - 64 -> exists r h, vasprintk_safe (Some s) w = Ok (r, set_heap h w) /\
  (r = None /\ osys_ok L (set_heap h w) \/ exists b, r = Some (b, s) /\ isValid b = true /\ osys_ok ((b, mrt_num_align8 (len s + 1)) :: L) (set_heap h w)).
Proof using Type.
  intros I Hs. pose proof (len_nonneg s). destruct (osys_alloc_ok false L w (len s + 1) I ltac:(unfold W32 in *; lia)) as (b & h & E & Hcase). unfold vasprintk_safe.
  rewrite (u32_id (len s)), (u32_id (len s + 1)), E by (unfold W32 in *; lia). cbn [mbind res_bind].
  destruct Hcase as [[-> I']|[Hb I']]; eexists _, h; (split; [done|]); [by left|right]. exists b. by rewrite Hb.
Qed.
(** The rest of the creation, once the file is there, only uses memory. *)
Lemma device_rest (err : dsys -> res (Z * dsys)) L (w : dsys) dev name bl nsz : (forall w d w', err w = Ok (d, w') -> isValid d = false) -> osys_ok ((bl, nsz) :: L) (dd_o w) -> 0 < nsz -> dd_names w !! dev = None -> len name <= W32 - 64 ->
  forall d w', (w ← fwk_dev_set_name dev name w;
     '(r, bb, s) ← fwk_device_add bus_at bind_pins unbind_pins dev (dd_b w) (dd_s w);
     let w := dput_b bb s w in
     if negb (r =? 0) then err w else o ← o_kfree bl (dd_o w); Ok (dev, dput_o o w)) = Ok (d, w') -> isValid d = true ->
  d = dev /\ exists h X, dd_o w' = set_heap h (dd_o w) /\ osys_ok (X ++ L) (dd_o w').
Proof using Type.
  intros He I Hs Hn Hl d w' E Hd. unfold fwk_dev_set_name in E. destruct (vasprintk_ok _ (dd_o w) name I Hl) as (r & h & Ev & Hcase). rewrite Ev in E. cbn [mbind res_bind] in E.
  assert (forall w1 X, dd_o w1 = set_heap h (dd_o w) -> osys_ok ((bl, nsz) :: X ++ L) (dd_o w1) ->
    ('(r, bb, s) ← fwk_device_add bus_at bind_pins unbind_pins dev (dd_b w1) (dd_s w1);
     let w := dput_b bb s w1 in
     if negb (r =? 0) then err w else o ← o_kfree bl (dd_o w); Ok (dev, dput_o o w)) = Ok (d, w') -> d = dev /\ exists h X, dd_o w' = set_heap h (dd_o w) /\ osys_ok (X ++ L) (dd_o w')) as Hgo.
  { intros w1 X Ew I1 E1. apply bind_Ok in E1 as ([[ra bb] s] & _ & E1). cbv beta zeta in E1. destruct (negb (ra =? 0)); [apply He in E1; congruence|]. cbn [dput_b dd_o] in E1.
    destruct (osys_less _ _ _ _ I1 Hs) as (h1 & Ef & I2). rewrite Ef in E1. cbn [mbind res_bind] in E1. injection E1 as <- <-. split; [done|]. exists h1, X. split; [cbn; by rewrite Ew|exact I2]. }
  destruct Hcase as [[-> I1]|(b & -> & Hb & I1)]; cbn [mbind res_bind] in E.
  - by apply (Hgo (dput_o (set_heap h (dd_o w)) w) []).
  - cbn [dput_o dd_names] in E. rewrite Hn in E. cbn [mbind res_bind] in E. refine (Hgo _ [(b, mrt_num_align8 (len name + 1))] _ _ E); [done|].
    eapply osys_perm; [|exact I1]. apply Permutation_swap.
Qed.

Lemma undo_name_fails b w d w' : undo_name b w = Ok (d, w') -> isValid d = false.
Proof using Type. unfold undo_name. intros E. apply bind_Ok in E as (? & _ & [= <- _]). done. Qed.
Lemma undo_file_fails b k w d w' : undo_file b k w = Ok (d, w') -> isValid d = false.
Proof using Type. unfold undo_file. intros E. apply bind_Ok in E as (? & _ & E). by apply undo_name_fails in E. Qed.
Lemma undo_device_fails b k v w d w' : undo_device b k v w = Ok (d, w') -> isValid d = false.
Proof using Type. unfold undo_device. intros E. apply bind_Ok in E as (? & _ & E). by apply undo_file_fails in E. Qed.
Lemma create_device_ok L (w : dsys) bl nsz k name d w' : osys_ok ((bl, nsz) :: L) (dd_o w) -> 0 < nsz -> len name <= W32 - 64 ->
  (forall v, is_Some (dd_names w !! v) -> exists s, 0 < s /\ (v, s) ∈ L) -> create_device bl k name w = Ok (d, w') -> isValid d = true ->
  exists h X, dd_o w' = set_heap h (dd_o w) /\ osys_ok (X ++ L) (dd_o w').
Proof using Hko Hks Hroot Hdv.
  intros I Hnsz Hl Hnames E Hd. unfold create_device in E.
  destruct (osys_alloc_ok true _ (dd_o w) sizeof_device I ltac:(unfold W32; lia)) as (dev & h & Ea & Hcase). rewrite Ea in E. cbn [mbind res_bind dput_o dd_o] in E.
  destruct Hcase as [[-> _]|[Hdev I1]]; [apply undo_file_fails in E; congruence|]. rewrite Hdev in E. cbn [negb] in E.
  assert (0 < mrt_num_align8 sizeof_device) as Hdz by (apply align_pos; unfold W32; lia).
  assert (dd_names w !! dev = None) as Hn.
  { destruct (dd_names w !! dev) as [nb|] eqn:En; [|done]. exfalso. destruct (Hnames dev ltac:(by eexists)) as (s & Hs & Hin').
    destruct (heap_inv_blocks _ _ (oi_heap _ _ _ _ _ _ I1)) as [Hdis _].
    destruct (disjoint_head dev (mrt_num_align8 sizeof_device) (oblocks sizeof_kobject sizeof_kset sizeof_inode root (dd_o w) ++ (bl, nsz) :: L) dev s); [|apply elem_of_app; right; by right|lia..].
    eapply disjoint_allocs_perm; [|exact Hdis]. by rewrite <- Permutation_middle. }
  unfold fwk_device_initial in E. cbn [dput_b dput_o dd_o] in E.
  destruct (find_total _ (set_heap h (dd_o w)) nullptr FWK_PATH_SYS_DEVICE I1 (or_introl eq_refl)) as (q & Ef). rewrite Ef in E. cbn [mbind res_bind] in E.
  apply bind_Ok in E as ([r w1] & E1 & E). assert (dd_o w1 = set_heap h (dd_o w) /\ dd_names w1 = dd_names w) as [Eo En].
  { destruct (isValid q); cbn [negb] in E1; [apply bind_Ok in E1 as (? & _ & [= _ <-]); done|by injection E1 as _ <-]. }
  destruct (negb (r =? 0)); [apply undo_device_fails in E; congruence|].
  destruct (device_rest (fun w => w ← fwk_dev_del_name dev w; undo_device bl k dev w) ((dev, mrt_num_align8 sizeof_device) :: L) w1 dev name bl nsz) with (d := d) (w' := w') as (_ & h2 & X & E2 & I2).
  - intros w2 d2 w2' Ee. apply bind_Ok in Ee as (? & _ & Ee). by apply undo_device_fails in Ee.
  - rewrite Eo. eapply osys_perm; [|exact I1]. apply Permutation_swap.
  - done.
  - by rewrite En.
  - done.
  - exact E.
  - done.
  - exists h2, (X ++ [(dev, mrt_num_align8 sizeof_device)]). split; [by rewrite E2, Eo|]. by rewrite <- app_assoc.
Qed.
Lemma inode_nonnull L (w : osys) i n : osys_ok L w -> os_inodes w !! i = Some n -> isValid i = true.
Proof using Hin.
  intros I Hi. destruct (heap_inv_blocks _ _ (oi_heap _ _ _ _ _ _ I)) as [_ Hb]. destruct (Hb i (mrt_num_align8 sizeof_inode)) as (? & _ & ?).
  - apply elem_of_app. left. apply elem_of_app. right. apply (entry_blocks_elem _ _ i n); [done|]. left.
  - pose proof (align_pos sizeof_inode ltac:(lia) ltac:(unfold W32; lia)). apply isValid_true. lia.
Qed.
(** The inode of a new character device. *)
Definition chr_inode (devNum : Z) (n : fwk_inode) : fwk_inode := set_inode_ops chrfoprts (set_inode_rdev (u32 devNum) n).

Lemma set_ops_ok (w : osys) i n devNum : os_inodes w !! i = Some n -> i <> 0 ->
  fwk_inode_set_ops chrfoprts blkfoprts netfoprts i NR_TYPE_CHRDEV devNum w = Ok (ER_NORMAL, oput_inodes (<[i := chr_inode devNum n]> (os_inodes w)) w).
Proof using Type. intros Hi Hi0. unfold fwk_inode_set_ops. by rewrite (proj2 (Z.eqb_neq i 0)), Hi. Qed.

Lemma created_device_ok {D : Type} (drv : Z -> option (file_oprts D)) L w dv devNum e u dev w' :
  osys_ok L (dd_o w) -> (forall d, is_Some (dd_names w !! d) -> exists s, 0 < s /\ (d, s) ∈ L) ->
  find_by_path nullptr FWK_PATH_DEVICE (dd_o w) = Ok (dv, dd_o w) -> dv <> 0 ->
  e <> slash -> last (e :: u) <> Some slash -> percent ∉ e :: u -> len (e :: u) <= W32 - 64 ->
  fwk_device_create NR_TYPE_CHRDEV devNum (Some (e :: u)) w = Ok (dev, w') -> isValid dev = true ->
  (exists b o, vasprintk_safe (Some (e :: u)) (dd_o w) = Ok (Some (b, e :: u), o) /\
     short sizeof_kobject sizeof_kset sizeof_inode root ((b, mrt_num_align8 (len (e :: u) + 1)) :: L) o (e :: u) (populate dv (e :: u) o)) \/
  (exists X, osys_ok (X ++ L) (dd_o w')) /\
  forall (fw : fsys (D := D)) cdev c ops, fs_o fw = dd_o w' ->
    fwk_kobjmap_lookup (ks_chrdev_map (os_k (fs_o fw))) (u32 devNum) (os_k (fs_o fw)) = Ok cdev -> isValid cdev = true -> fs_cdevs fw !! cdev = Some c ->
    drv (cv_oprts c) = Some ops /\ cv_oprts c <> chrfoprts /\ cv_oprts c <> blkfoprts /\ cv_oprts c <> netfoprts ->
    exists i n, chr_device root chrfoprts blkfoprts netfoprts drv fw (FWK_PATH_DEVICE ++ e :: u) i n cdev ops (cv_oprts c) /\ in_rdev n = u32 devNum.
Proof using Hko Hks Hin Hdv Hroot Hstatic.
  intros I Hnames Hfind Hdv0 He Hlast Hpc Hlen E Hdev. unfold fwk_device_create in E. rewrite Hfind in E. cbn [mbind res_bind dput_o dd_o] in E.
  destruct (find_under_dev L (dd_o w) dv e u I Hfind Hdv0 He) as [Hdir _]. pose proof (len_nonneg (e :: u)).
  assert (isValid dv = true) as Hdvv by (destruct Hdir as (? & ? & _); apply (obj_valid sizeof_kobject sizeof_kset sizeof_inode root Hko Hks Hroot L (dd_o w)); [exact (oi_heap _ _ _ _ _ _ I)|by eexists]). rewrite Hdvv in E. cbn [negb] in E.
  destruct (vasprintk_ok L (dd_o w) (e :: u) I Hlen) as (r & h1 & Ev & [[-> _]|(bl & -> & Hbl & I1)]); rewrite Ev in E; cbn [mbind res_bind] in E; [injection E as <- _; done|].
  set (nsz := mrt_num_align8 (len (e :: u) + 1)) in *. assert (0 < nsz) as Hnsz by (apply align_pos; unfold W32 in *; lia).
  destruct (populate_ok sizeof_kobject sizeof_kset sizeof_inode root chrfoprts blkfoprts netfoprts Hko Hks Hin Hroot Hstatic _ (set_heap h1 (dd_o w)) dv (e :: u) I1 (or_intror Hdir) ltac:(done) Hpc Hlen)
    as [(q & o2 & Ep & I2 & Hkept & Hx & Hq & _)|Hshort]; [right|left; by exists bl, (set_heap h1 (dd_o w))].
  unfold dput_o in E. cbn [dd_o] in E. rewrite Ep in E. cbn [mbind res_bind dd_o] in E. destruct (isValid q) eqn:Hqv; cbn [negb] in E; [|apply bind_Ok in E as (? & _ & [= <- _]); done].
  destruct (Hq eq_refl) as [Hfq Hnew]. destruct (Hnew Hlast) as (k & Hk & _ & Hkd & _ & Hki & _). unfold obj in E. rewrite Hk in E. cbn [deref mbind res_bind dd_o] in E. rewrite Hki in E.
  assert (in_type (new_inode q k) =? INODE_TYPE_FILE = true) as Ht by (unfold new_inode; cbn; by rewrite Hkd). cbn [deref mbind res_bind] in E. rewrite Ht in E.
  pose proof (inode_nonnull _ _ _ _ I2 Hki) as Hiv. assert (ko_inode k <> 0) as Hi0 by (intros Ez; rewrite Ez in Hiv; done).
  rewrite (set_ops_ok o2 (ko_inode k) (new_inode q k) devNum Hki Hi0) in E. cbn [mbind res_bind] in E.
  set (o3 := oput_inodes _ o2) in E. assert (osys_ok ((bl, nsz) :: L) o3) as I3 by (apply (osys_inode _ _ _ _ _ _ _ (new_inode q k)); done).
  match type of E with create_device _ _ _ ?x = _ => destruct (create_device_ok L x bl nsz q (e :: u) dev w' I3 Hnsz Hlen Hnames E Hdev) as (h & X & Eo & I') end.
  split; [by exists X|]. intros fw cdev c ops Hfw Hlk Hcv Hc Hown. exists (ko_inode k), (chr_inode devNum (new_inode q k)). split; [|done].
  split; [split; [|done]|split; [|done]|done|by exists c|done].
  - assert (find_by_path nullptr (FWK_PATH_DEVICE ++ e :: u) o2 = Ok (q, o2)) as Hf2.
    { assert (find_by_path nullptr FWK_PATH_DEVICE o2 = Ok (dv, o2)) as Hd2.
      { apply Hkept; [by left|done|]. by apply (find_objs L ((bl, nsz) :: L) (dd_o w)); [..|left|]. }
      destruct (find_under_dev _ o2 dv e u I2 Hd2 Hdv0 He) as [_ ->]. exact Hfq. }
    unfold fwk_inode_find. rewrite Hfw. cbn [FWK_PATH_DEVICE app]. rewrite (find_objs _ _ o2 (dd_o w') nullptr _ q I2 I'); [|by rewrite Eo|by left|exact Hf2].
    cbn [mbind res_bind]. rewrite Hqv. cbn [negb]. unfold obj. rewrite Eo. cbn [set_heap oput_k os_objs dd_o o3 oput_inodes]. by rewrite Hk.
  - rewrite Hfw, Eo. apply lookup_insert_eq.
Qed.

(** When a driver has created a device under a name, the path of that name
    under /dev leads to an inode with the number of the device, and a file system that
    continues from there finds the device that serves the number behind the path:
    all that opening it needs.  As with any new name, a lack of memory for the
    name itself is the exception. *)
Theorem created_device_has_file {D : Type} (drv : Z -> option (file_oprts D)) L w dv devNum e u dev w' :
  osys_ok L (dd_o w) -> (forall d, is_Some (dd_names w !! d) -> exists s, 0 < s /\ (d, s) ∈ L) ->
  find_by_path nullptr FWK_PATH_DEVICE (dd_o w) = Ok (dv, dd_o w) -> dv <> 0 ->
  e <> slash -> last (e :: u) <> Some slash -> percent ∉ e :: u -> len (e :: u) <= W32 - 64 ->
  fwk_device_create NR_TYPE_CHRDEV devNum (Some (e :: u)) w = Ok (dev, w') -> isValid dev = true ->
  (exists b o, vasprintk_safe (Some (e :: u)) (dd_o w) = Ok (Some (b, e :: u), o) /\
     short sizeof_kobject sizeof_kset sizeof_inode root ((b, mrt_num_align8 (len (e :: u) + 1)) :: L) o (e :: u) (populate dv (e :: u) o)) \/
  (exists X, osys_ok (X ++ L) (dd_o w')) /\
  forall (fw : fsys (D := D)) cdev c ops, fs_o fw = dd_o w' ->
    fwk_kobjmap_lookup (ks_chrdev_map (os_k (fs_o fw))) (u32 devNum) (os_k (fs_o fw)) = Ok cdev -> isValid cdev = true -> fs_cdevs fw !! cdev = Some c ->
    drv (cv_oprts c) = Some ops /\ cv_oprts c <> chrfoprts /\ cv_oprts c <> blkfoprts /\ cv_oprts c <> netfoprts ->
    exists i n, chr_device root chrfoprts blkfoprts netfoprts drv fw (FWK_PATH_DEVICE ++ e :: u) i n cdev ops (cv_oprts c) /\ in_rdev n = u32 devNum.
Proof using Hko Hks Hin Hdv Hroot Hstatic. exact (created_device_ok drv L w dv devNum e u dev w'). Qed.
End devfile.

(** ** A device with its file, opened *)
Definition demo_oprts : file_oprts Z :=
  FileOprts _ (Some (fun _ _ d => (0, d + 1))) (Some (fun _ _ d => (0, d - 1))) None (Some (fun _ _ size d => (size, d))) None None.
Definition demo_drv (p : Z) : option (file_oprts Z) := if p =? 4480 then Some demo_oprts else None.
Definition demo_maps : ksys := KSys demo_kheap (Cpu 0 0) 4608 0 {[4608 := <[3%nat := [Probe 4700 (3 * M20) 4 4352]]> empty_table]}.
Definition t_led : text := [108; 101; 100].
Local Notation demo_ok := (osys_ok 48 56 24 demo_root).
Local Notation demo_populate := (fwk_kobject_populate 48 56 24 demo_root 4096 4128 4160).
Definition demo_start : res (Z * osys (H := kheap)) := fwk_kobject_root_init demo_root (OSys demo_maps {[demo_root := zero_obj]} ∅ ∅ false).
Definition demo_sys : res (Z * osys) := '(_, w) ← demo_start; demo_populate nullptr FWK_PATH_SYS_DEVICE w.
Definition demo_tree : res (Z * osys) := '(_, w) ← demo_sys; demo_populate nullptr FWK_PATH_DEVICE w.
Definition demo_create (w : osys (H := kheap)) : res (Z * dsys) :=
  fwk_device_create (P := unit) 48 56 24 100 demo_root 4096 4128 4160 (fun _ => BusType None None None) (fun _ s => Ok (0, s)) (fun _ s => Ok s)
    NR_TYPE_CHRDEV (3 * M20 + 2) (Some t_led) (DSys w (BSys ∅ ∅ ∅ []) ∅ tt).
Lemma demo_named : named_result demo_sys = true /\ named_result demo_tree = true /\
  named_result ('(dv, w) ← demo_tree; '(_, w) ← vasprintk_safe (Some t_led) w; demo_populate dv t_led w) = true.
Proof. vm_compute. split_and!; exact eq_refl. Qed.
Definition served (r : res (Z * dsys (H := kheap) (P := unit))) : bool :=
  match r with
  | Ok (dev, w) => isValid dev && match fwk_kobjmap_lookup (ks_chrdev_map (os_k (dd_o w))) (u32 (3 * M20 + 2)) (os_k (dd_o w)) with Ok c => c =? 4352 | _ => false end
  | _ => false
  end.
Lemma led_served : served ('(_, w) ← demo_tree; demo_create w) = true.
Proof. vm_compute. exact eq_refl. Qed.
Lemma served_inv r : served r = true -> exists dev w, r = Ok (dev, w) /\ isValid dev = true /\
  fwk_kobjmap_lookup (ks_chrdev_map (os_k (dd_o w))) (u32 (3 * M20 + 2)) (os_k (dd_o w)) = Ok 4352.
Proof.
  destruct r as [[dev w]| |]; [|discriminate..]. unfold served. intros [Hd Hl]%andb_true_iff. exists dev, w. split; [done|]. split; [done|].
  destruct (fwk_kobjmap_lookup _ _ _) as [c| |]; [|discriminate..]. apply Z.eqb_eq in Hl as ->. done.
Qed.
Lemma demo_step L w name : demo_ok L w -> name <> [] -> percent ∉ name -> len name <= W32 - 64 -> named_result (demo_populate nullptr name w) = true ->
  exists q w', demo_populate nullptr name w = Ok (q, w') /\ demo_ok L w' /\ fwk_find_kobject_by_path demo_root nullptr name w' = Ok (q, w') /\ isValid q = true.
Proof.
  intros I Hne Hp Hl Hn.
  destruct (populate_ok 48 56 24 demo_root 4096 4128 4160 ltac:(lia) ltac:(lia) ltac:(lia) eq_refl demo_root_static L w nullptr name I (or_introl eq_refl) Hne Hp Hl)
    as [(q & w' & E & I' & _ & _ & Hq & _)|[Hs _]]; [|exact (False_ind _ (named_not_lost _ Hn Hs))].
  rewrite E in Hn. pose proof (named_valid q w' Hn) as Hv. exists q, w'. destruct (Hq Hv) as [? _]. done.
Qed.
(** The device file [/dev/led] in a tree with [/sys] and [/dev]. *)
Record demo_made dv w dev w' : Prop := {
  dm_tree : demo_tree = Ok (dv, w); dm_ok : demo_ok [] w; dm_dev : fwk_find_kobject_by_path demo_root nullptr FWK_PATH_DEVICE w = Ok (dv, w);
  dm_dir : dv <> 0; dm_create : demo_create w = Ok (dev, w'); dm_valid : isValid dev = true;
  dm_served : fwk_kobjmap_lookup (ks_chrdev_map (os_k (dd_o w'))) (u32 (3 * M20 + 2)) (os_k (dd_o w')) = Ok 4352;
  dm_named : forall r o, vasprintk_safe (Some t_led) w = Ok (r, o) -> named_result (demo_populate dv t_led o) = true;
}.
Lemma demo_device : exists dv w dev w', demo_made dv w dev w'.
Proof.
  assert (demo_start = Ok (ER_NORMAL, match demo_start with Ok (_, w) => w | _ => OSys demo_maps ∅ ∅ ∅ false end) /\
    demo_ok [] match demo_start with Ok (_, w) => w | _ => OSys demo_maps ∅ ∅ ∅ false end) as [E0 I0].
  { destruct (root_init_ok 48 56 24 demo_root [] demo_maps false) as (w & E & I); [done|done|exact demo_kheap_inv|]. fold demo_start in E. rewrite E. split; [done|exact I]. }
  generalize dependent (match demo_start with Ok (_, w) => w | _ => OSys demo_maps ∅ ∅ ∅ false end). intros w0 E0 I0.
  assert (FWK_PATH_SYS_DEVICE <> [] /\ percent ∉ FWK_PATH_SYS_DEVICE /\ len FWK_PATH_SYS_DEVICE <= W32 - 64) as (S1 & S2 & S3) by (split_and!; [done|by apply (bool_decide_unpack _)|done]).
  assert (FWK_PATH_DEVICE <> [] /\ percent ∉ FWK_PATH_DEVICE /\ len FWK_PATH_DEVICE <= W32 - 64) as (D1 & D2 & D3) by (split_and!; [done|by apply (bool_decide_unpack _)|done]).
  destruct demo_named as (N1 & N2 & N3). pose proof led_served as N4. assert (demo_sys = demo_populate nullptr FWK_PATH_SYS_DEVICE w0) as E1 by (unfold demo_sys; rewrite E0; exact eq_refl).
  rewrite E1 in N1. destruct (demo_step [] w0 _ I0 S1 S2 S3 N1) as (q & w1 & E2 & I1 & _). rewrite E2 in E1.
  assert (demo_tree = demo_populate nullptr FWK_PATH_DEVICE w1) as E3 by (unfold demo_tree; rewrite E1; exact eq_refl). rewrite E3 in N2.
  destruct (demo_step [] w1 _ I1 D1 D2 D3 N2) as (dv & w & E4 & I & Hf & Hv). rewrite E4 in E3. rewrite E3 in N3, N4. cbn [mbind res_bind] in N3, N4.
  destruct (served_inv _ N4) as (dev & w' & Ec & Hd & Hl). exists dv, w, dev, w'. split; [exact E3|exact I|exact Hf| |exact Ec|exact Hd|exact Hl|].
  - intros ->. discriminate Hv.
  - intros r o Ev. rewrite Ev in N3. exact N3.
Qed.
Lemma led_path : percent ∉ t_led /\ last t_led <> Some slash /\ len t_led <= W32 - 64.
Proof. split_and!; [by apply (bool_decide_unpack _)|done|done]. Qed.

Definition led_files (o : osys) : fsys (H := kheap) (D := Z) := FSys o {[4352 := CDev (3 * M20) 4 4480]} ∅ ∅ (fwk_file_system_init [1; 2; 3] sgrt_fwk_file_table).2 0.
Lemma no_names d : is_Some ((∅ : gmap Z Z) !! d) -> exists s, 0 < s /\ (d, s) ∈ ([] : list (Z * Z)).
Proof. rewrite lookup_empty. intros []%is_Some_None. Qed.
Lemma led_driver : demo_drv 4480 = Some demo_oprts /\ 4480 <> 4096 /\ 4480 <> 4128 /\ 4480 <> 4160.
Proof. split_and!; done. Qed.
(** The file of the device [/dev/led] with number (3, 2). *)
Lemma created_device_has_file_witness : exists dv w dev w' i n, demo_tree = Ok (dv, w) /\ demo_create w = Ok (dev, w') /\ isValid dev = true /\
  fwk_inode_find demo_root (FWK_PATH_DEVICE ++ t_led) (dd_o w') = Ok (i, dd_o w') /\ os_inodes (dd_o w') !! i = Some n /\ in_rdev n = u32 (3 * M20 + 2).
Proof.
  destruct led_path as (P1 & P2 & P3). pose proof led_driver as P4. destruct demo_device as (dv & w & dev & w' & [E I Hf Hd Ec Hv Hl Hn]).
  destruct (created_device_has_file (P := unit) 48 56 24 100 demo_root 4096 4128 4160 (fun _ => BusType None None None) (fun _ s => Ok (0, s)) (fun _ s => Ok s)
      ltac:(lia) ltac:(lia) ltac:(lia) ltac:(lia) eq_refl demo_root_static demo_drv [] (DSys w (BSys ∅ ∅ ∅ []) ∅ tt) dv (3 * M20 + 2) 108 [101; 100] dev w'
      I no_names Hf Hd ltac:(discriminate) P2 P1 P3 Ec Hv) as [(b & o & Ev & [Hs _])|[_ Hc]].
  - exact (False_ind _ (named_not_lost _ (Hn _ _ Ev) Hs)).
  - destruct (Hc (led_files (dd_o w')) 4352 (CDev (3 * M20) 4 4480) demo_oprts eq_refl Hl eq_refl (lookup_insert_eq _ _ _) P4) as (i & n & [[Hi _] [Ho _] _ _ _] & Hr).
    exists dv, w, dev, w', i, n. split; [exact E|]. split; [exact Ec|]. split; [exact Hv|]. split; [exact Hi|]. split; [exact Ho|exact Hr].
Defined.

Lemma led_table : table_ok (fwk_file_system_init [1; 2; 3] sgrt_fwk_file_table).2.
Proof.
  split; try done.
  - intros k Hk. assert (k = 0 \/ k = 1 \/ k = 2) as [->|[->| ->]] by lia; by eexists.
  - intros k Hk. cbn in Hk. cbn [fwk_file_system_init fd_array snd]. assert (k < 32) by lia. change (2 < k < 32) in Hk.
    change (([1; 2; 3] ++ replicate 29 0) !! Z.to_nat k = Some 0). rewrite lookup_app_r by (cbn; lia). apply lookup_replicate. cbn. lia.
Qed.
Lemma led_fsys_ok X o : demo_ok (X ++ []) o -> fsys_ok 48 56 24 24 demo_root (X ++ []) (led_files o).
Proof.
  intros I. split; [exact I|exact led_table|]. intros k f Hk Hf Hf0. pose proof (tk_above _ led_table k) as Ha. cbn [led_files fs_table] in Hf. rewrite Hf in Ha.
  change (2 < k < 32 -> Some f = Some 0) in Ha. assert (Some f = Some 0) as Hx by (apply Ha; lia). injection Hx as Hx. contradiction.
Qed.
Local Notation led_open := (virt_open 24 demo_root 4096 4128 4160 demo_drv true (FWK_PATH_DEVICE ++ t_led) 2).
Lemma led_opens : match ('(_, w) ← demo_tree; '(_, w) ← demo_create w; led_open (led_files (dd_o w))) with Ok (r, _) => 3 <=? r | _ => false end = true.
Proof. vm_compute. exact eq_refl. Qed.
